(* ===== verification/_CoqProject ===== *)
-Q . S2P
Prelude.v
Models.v
Milp.v
MilpFacts.v
Solver.v
SolverFacts.v
Allocator.v
AllocatorFacts.v
Datetime.v
Readiness.v
ReadinessFacts.v
Triggers.v
TriggersFacts.v
Controller.v
ControllerFacts.v
Manager.v
Recurring.v
RecurringFacts.v
Assembler.v
AssemblerFacts.v
RateLimiter.v
RateLimiterFacts.v
Cache.v
CacheFacts.v
Profiles.v
ProfilesFacts.v
PyText.v
CommandQueue.v
CommandQueueFacts.v
Dispatch.v
DispatchFacts.v
Billing.v
BillingFacts.v
Rfid.v
RfidFacts.v
Transactions.v
TransactionsFacts.v
Connections.v
ConnectionsFacts.v
Meter.v
Sessions.v
SessionsFacts.v
Alerts.v
AlertsFacts.v
ReportTiming.v
ReportTimingFacts.v
ReportRuns.v
ReportRunsFacts.v
LocalAuth.v
LocalAuthFacts.v
Budget.v
BudgetFacts.v
Addresses.v
GeoBlock.v
GeoBlockFacts.v
StationAuth.v
StationAuthFacts.v
Acceptor.v
AcceptorFacts.v
AbbLog.v
AbbLogFacts.v
Reconcile.v
ReconcileFacts.v
LogImport.v
LogImportFacts.v
Cipher.v
CipherFacts.v
Ingest.v
IngestFacts.v
IngestSweep.v
Kempower.v
KempowerFacts.v
