(* ===== verification/Prelude.v ===== *)
(** * Favonius backend: a verification development

    The Favonius backend optimises the charging of electric vehicle depots. A
    controller per depot assembles the depot's state, checks that the inputs are
    complete, solves a mixed-integer program for the next day, hands the plan to
    the chargers, and re-optimises on triggers. A plan reaches a charger as a
    charging profile: dispatch writes it to a command queue, the WebSocket
    service drains the queue to the connected chargers and replays it when one
    reboots, and the service keeps the profiles it was told of. The service also
    keeps the connections, authorises cards, starts and stops transactions,
    records the sessions of the chargers with their meter readings and prices
    closed sessions; it watches for chargers that lose their connection and mails
    alerts, and pushes the approved cards to the chargers for when they are cut
    off, and compares its sessions with the logs that the chargers kept of them.
    Reports are generated on schedules and mailed, and a depot's chargers,
    vehicles and past sessions can be imported from another charging service with
    credentials that are kept encrypted. This library models that path from the
    inputs to the chargers and back to the bill, with the admission of clients
    and chargers, the allocation of power to chargers, recurring schedules,
    caches and the API's rate limiter, and proves what makes each part correct.

    ** Files and the code they model (paths below [src/src/])

    - [Prelude]: fallible code ([result], [let?]), insertion-ordered Python
      dictionaries ([dict]), floats as rationals, stable sorting, Python objects.
    - [Models]: the records of [core/models.py] and [optimizer/exceptions.py].
    - [Milp], [MilpFacts]: [core/optimizer/milp_model.py]. A model is its
      constraint families, keyed by the Pyomo component's name, over an
      [assignment] of the decision variables, and its objective.
    - [Solver], [SolverFacts]: [solver.py], [warm_start.py], [optimize] of
      [milp_model.py] and [pool.py]. The model's variable values are state
      ([valuation]); Gurobi and HiGHS are parameters ([backend]).
    - [Allocator], [AllocatorFacts]: [core/optimizer/allocator.py].
    - [Datetime]: what the code uses of Python's [datetime].
    - [Readiness], [ReadinessFacts]: [core/state/readiness.py] and the stub
      snapshot of [core/controller.py].
    - [Triggers], [TriggersFacts]: [core/state/triggers.py]. The callback is the
      class [TriggerHandler]; the monitor's theorems hold for every instance.
    - [Controller], [ControllerFacts]: [core/controller.py] and
      [controller_config.py]. A run's awaited results are a [run_env]; the
      controller is an instance of [TriggerHandler].
    - [Manager]: [core/controller_manager.py]; [add_controller] is split at its
      await so that calls can interleave.
    - [Recurring], [RecurringFacts]: [core/scheduling/recurring.py]. The time
      zone is a parameter with the laws of the class [ZoneLaws].
    - [Assembler], [AssemblerFacts]: [core/state/assembler.py] and the forward
      fill of [db/queries.py]. Database answers are a record [db] with the laws
      of the class [DbLaws]; methods run in a state and error monad over the
      assembler, which holds the configuration it shares and mutates.
    - [RateLimiter], [RateLimiterFacts]: [security/rate_limiter.py]; the table of
      counts is a dictionary.
    - [Cache], [CacheFacts]: [websocket_handler/cache_manager.py].
    - [Profiles], [ProfilesFacts]: the profile manager of
      [websocket_handler/charging_profile_manager.py] with its two caches, and
      the profile statements of [timescale_client.py] on a table of rows.
    - [PyText]: what the code uses of Python's strings, [UUID] and [int].
    - [CommandQueue], [CommandQueueFacts]: the queue consumer of
      [charging_profile_manager.py], the queue's statements of
      [timescale_client.py] and the boot replay of [ocpp16_adapter.py]. A
      connected charger is a [session], a record of what its pushes answer.
    - [Dispatch], [DispatchFacts]: [adapters/ocpp/dispatch.py], [mapping.py],
      [charge_point.py], the pushes of [ocpp16_adapter.py] and the signed upload
      addresses of [adapters/chargers/upload_token.py].
    - [Billing], [BillingFacts]: [core/billing/session_cost.py] and the task of
      [timescale_client.py] that prices a closed session; the telemetry query is
      evaluated on rows.
    - [Rfid], [RfidFacts]: [websocket_handler/rfid_authorization.py] and the
      statements of [timescale_client.py] it calls.
    - [Transactions], [TransactionsFacts]: [websocket_handler/transaction_manager.py]
      and its statements of [timescale_client.py]. Starts and stops are split at
      their awaits and interleave in the step relation [wstep].
    - [Connections], [ConnectionsFacts]: [websocket_handler/connection_manager.py].
    - [Meter]: meter readings, [websocket_handler/meter_value_utils.py] and the
      handlers of [charge_point.py], [ocpp16_adapter.py] and
      [timescale_client.py] that read them; NaN and infinities are kept.
    - [Sessions], [SessionsFacts]: an OCPP 1.6 station's transactions as
      [adapters/ocpp/charge_point.py], [ocpp16_adapter.py] and the session and
      telemetry statements of [timescale_client.py] handle them. The station, its
      tables and the card service are a [world]; an [op] is a message, a
      reconnection or a sweep, with the failures of its statements.
    - [Alerts], [AlertsFacts]: [notifications/], the connector status statements
      of [timescale_client.py] with the trigger of
      [migrations/029_remove_static_shadows.sql], the sweep of
      [offline_monitor.py] and the status [api/fleet_list.py] derives.
    - [ReportTiming], [ReportTimingFacts]: [api/report_schedule_timing.py]; a
      zone whose clock changes keep the order of dates is the class [ReportZone].
    - [ReportRuns], [ReportRunsFacts]: [api/report_schedules.py] and the schedule
      commands of [api/main.py], in a monad over the tables in which a statement
      returns, raises, or its process dies.
    - [LocalAuth], [LocalAuthFacts]: [adapters/ocpp/local_auth_sync.py], the
      pushes of [charge_point.py] it uses and the query of the approved cards in
      [db/queries.py]; the list a charger holds is part of the state.
    - [Budget], [BudgetFacts]: [api/agent/budget.py], its coroutines split at
      their awaits; events interleave them.
    - [Addresses]: what the code uses of Python's [ipaddress].
    - [GeoBlock], [GeoBlockFacts]: [security/forwarded_ip.py],
      [security/geo_block.py] and the client address of
      [websocket_handler/server.py]; header containers and the GeoIP reader are
      arguments.
    - [StationAuth], [StationAuthFacts]: [websocket_handler/security_manager.py]
      and the queries of [supabase_client.py] and [timescale_client.py] it calls,
      in a monad over the tables in which a call can fail.
    - [Acceptor], [AcceptorFacts]: the connections of
      [websocket_handler/server.py], each handled by a coroutine split at its
      awaits, over [GeoBlock], [StationAuth], [Connections], [Alerts] and
      [Sessions].
    - [AbbLog], [AbbLogFacts]: [adapters/chargers/], with Python's CSV reader;
      the contents of archives and the reading of ISO 8601 text are parameters.
    - [Reconcile], [ReconcileFacts]:
      [core/reconciliation/session_log_reconciliation.py], over the telemetry
      query of [Billing].
    - [LogImport], [LogImportFacts]: [api/charger_logs.py] and the charger-log
      endpoints of [api/main.py]. The background task is split at its awaits;
      events interleave it with requests, uploads, the consumer of
      [CommandQueue] and the sweep.
    - [Cipher], [CipherFacts]: [security/credential_cipher.py]. Fernet and the
      JSON codec are the classes [Fernet] and [Json], with the laws of [FernetLaws].
    - [Ingest], [IngestFacts], [IngestSweep]: [core/data_sources/] with the
      statements of its repository, and [api/data_sources/]. A request, the
      scheduler's tick, the sweep of orphans and a worker are processes split at
      their awaits; events interleave them, kill them and make their statements
      fail. The provider that imports is an argument.
    - [Kempower], [KempowerFacts]: [adapters/kempower/] but for its client,
      [core/data_sources/kempower_provider.py] and the statements of
      [db/queries.py] they run. The import's stages are a monad over the tables
      and the counts; what the API lists is an argument.
    A file [X] holds the definitions of a component, [XFacts] its theorems, the
    inputs that witness them, and the lemmas they share.

    ** What the theorems show

    - Optimisation: whatever the solver does, an accepted plan charges every
      departing vehicle to its required level; with solvers that return feasible
      points, site, peak, charger and vehicle limits hold in the extracted plan;
      symmetry breaking and the linearised energy-cap tariff lose nothing; the
      time-limit path never takes warm-start values for a solution; the pool
      retries once on a fresh executor.
    - Allocation: ratings and access are respected and no reachable capacity is
      left unused while a vehicle is short.
    - Readiness: the exact conditions for refusing or degrading a run; snapshots
      replay.
    - Triggers and controller: one scheduled trigger per clock hour, cooldowns,
      the breaker's invariant over all reachable states, how failures count.
    - State assembly: when the databases answer, assembly returns a state the
      optimiser accepts; which schedule entry a vehicle's departure, energy and
      availability come from; the price of every timestep.
    - Scheduling: the expansion is exact across clock changes; the merge keeps
      exactly the newer side of a vehicle's day.
    - Rate limiting: the sliding window is exact between synchronisations.
    - Caches and profiles: a cache hit is the value last written; the profile
      table's invariant under every request; the composite schedule minute by
      minute; what clearing removes.
    - Queue and dispatch: the consumer and the replay refine an abstract queue,
      each row's life cycle, no command is accepted twice while updates succeed,
      what a drain does to each row; the power a dispatched profile allows.
    - Session costs: no cost without prices, the fallback is the time average,
      final costs are never overwritten, the hour loop ends.
    - Card authorisation: it fails closed, and unknown cards are throttled
      whatever the database answers.
    - Transactions: concurrent starts never take a busy EVSE and never deadlock;
      when a start is accepted; the cost of a tariff.
    - Connections: a station is routed to its newest connection whatever late
      cleanups do; what monitoring drops; the message limit per station.
    - Sessions: rows are never lost and closed rows never change, one open session
      per connector while closes and reloads succeed (and how two arise when they
      do not), where every reported energy comes from, what recovery closes, whose
      cards sessions belong to.
    - Alerts: at most one open alert per key, a sweep leaves exactly the alerts of
      the lost chargers, mails are a resend interval apart and go to matching
      recipients.
    - Reports: the next run is the first firing after now and is always found,
      consecutive reports tile the calendar, no slot is skipped and none runs
      twice, no recipient is mailed twice for a run unless the process dies
      between a mail and its record.
    - Offline lists: every card a charger may accept while cut off is one the
      service accepts, a charger holds the last list it accepted, refusals are
      remembered per firmware and lost connections are not held against it.
    - Token budget: reservations are the turns in flight, usage is conserved and
      no turn is admitted above the ceiling while no reconciliation overlaps
      another flush; waiting turns can always proceed.
    - Admission: behind appending proxies the address that is checked is the
      client's, whatever it sent; a station is let in only with a credential of
      its own and guesses are throttled; the per-address slots are counted exactly
      over all interleavings, a server without handlers holds nothing, and every
      routed station passed both checks.
    - Charger logs: an import moves along its life cycle whatever interleaves,
      what is stored of a log is what the parser made of the archive that was
      received, every archive gets a verdict when its task runs to the end, the
      signed address works until it expires; a session log is read sample by
      sample, the recorded energy is bounded by the power and the time that were
      reported, and a verdict rests on the log's readings.
    - Data sources: whatever interleaves, a connection has at most one job in
      flight, jobs only move forward, none is left without a worker by a process
      that ends, none is taken from a worker before its lease has run out, and a
      sweep takes every orphan; credentials survive a key rotation; repeating an
      import changes no table, and no import creates duplicates.
    - Some theorems state behaviour that departs from what the code documents:
      incoming vehicles fail under the default horizon start, a warm start can
      make the problem infeasible, battery limits are fixed constants, a
      degraded run is never recorded as such, the return-delay, VDV 463 and price
      triggers do not fire, interleaved [add_controller] calls leave a loop
      behind, a rate-limit merge can admit too much; only a vehicle's last trip
      in the horizon counts, horizons other than 24 hours are rejected, an
      incoming vehicle stays configured for good, chargers of equal rating and
      different efficiency are undercounted; a dispatched profile leaves out the
      steps planned at zero, a lost connection fails a command for good, a
      period of a composite schedule lasts one minute, telemetry gaps count as
      covered, the stop of an old transaction frees a busy EVSE, a remote start
      fails on the driver's encoding of its token type; a failed close leaves two
      open sessions, a stop without a reading erases the live energy, recovery
      closes running sessions, a future clock hides an outage, a reconnect hides a
      fault, an acknowledged warning mutes a fault; an edit made during a run is
      overwritten, refused mails count as success, a firmware update makes every
      boot probe again, a reconciliation that overlaps a flush forgets tokens; a
      [Forwarded] header of the client's own passes the geo-block, a revoked token
      still authenticates, a login that raises keeps its slot for good, and a
      handler that was replaced too early overwrites its successor; an import
      whose task is lost to a restart stays unfinished for good, one infinite
      identifier drops the rest of a log, and one NaN reading hides its energy; a
      restart within the lease strands a job until the next one, a connection
      that is disabled and enabled again ingests twice at once, a crash can fail
      the job of another worker, and a station that another depot has aborts an
      import.

    ** Modelling choices

    Floating-point values are rationals: rounding is not modelled. A timestamp
    is an integer number of microseconds; where aware and naive values meet, the
    record [datetime] keeps the difference. Dictionaries are insertion-ordered
    association lists, as Python iterates them. Identifiers are strings. Clock
    readings, database answers and solver replies are arguments. Loops over
    lists are structural recursion; fuel is the 120 steps of the time-zone search,
    the 60 months of the search for a run and the retry counters, which the code
    itself has, and a bound on the hours of a session; the last two searches are
    proved to end with a result. An import is cut into chunks with its length as
    fuel, which is enough as every chunk takes a row. SQL statements are functions on
    lists of rows; statements of one transaction take effect together. Log
    messages and metrics are left out unless control flow depends on them.

    ** Not modelled

    The REST handlers but for those named above, the language-model agent, the
    mail provider, clients of external services, certificates and the OCPP
    schema tables: input and output around external systems. Of the WebSocket
    service, the OCPP 2.x message handlers and the device model. Of concurrency,
    interleavings are modelled where a theorem is about them (adding controllers,
    flushing rate limits, replay against drain, remote starts and stops, late
    unregistration, the token budget, connections to the OCPP server, log imports,
    ingestion jobs); elsewhere a component's operations run one after the other. *)

From Stdlib Require Import ZArith QArith Qround Lqa Lia.
From stdpp Require Import base list strings gmap pretty sorting.

(** ** Notations

    Everything below lives in [py_scope]: the notations read like the Python
    the development models. *)

Declare Scope py_scope.
Delimit Scope py_scope with py.
#[global] Open Scope py_scope.

(** ** Fallible code

    A Python function that may raise returns [result E A]; the exceptions a
    component can raise are an inductive type of that component. *)

Inductive result (E A : Type) : Type :=
| Ok (a : A)
| Err (e : E).
Arguments Ok {E A} a.
Arguments Err {E A} e.

Definition rbind {E A B} (m : result E A) (k : A -> result E B) : result E B :=
  match m with
  | Ok a => k a
  | Err e => Err e
  end.

Notation "'let?' x ':=' m 'in' k" := (rbind m (fun x => k))
  (at level 10, x name, m at level 100, k at level 200) : py_scope.

(** [raise_if b e]: the guard [if b: raise e]. *)
Definition raise_if {E} (b : bool) (e : E) : result E unit :=
  if b then Err e else Ok tt.

(** A [for] loop whose body may raise. *)
Fixpoint rfold {E A S} (f : S -> A -> result E S) (s : S) (l : list A) : result E S :=
  match l with
  | [] => Ok s
  | a :: l' => let? s' := f s a in rfold f s' l'
  end.

(** A [for] loop whose body only checks and raises. *)
Fixpoint rfor {E A} (f : A -> result E unit) (l : list A) : result E unit :=
  match l with
  | [] => Ok tt
  | a :: l' => let? _ := f a in rfor f l'
  end.

(** A list comprehension whose element may raise. *)
Fixpoint rmap {E A B} (f : A -> result E B) (l : list A) : result E (list B) :=
  match l with
  | [] => Ok []
  | a :: l' => let? b := f a in let? bs := rmap f l' in Ok (b :: bs)
  end.

Definition is_ok {E A} (r : result E A) : bool :=
  match r with Ok _ => true | Err _ => false end.

Lemma rbind_Ok {E A B} (m : result E A) (k : A -> result E B) b :
  rbind m k = Ok b -> exists a, m = Ok a /\ k a = Ok b.
Proof. destruct m; cbn; [eauto | discriminate]. Qed.

Lemma raise_if_Ok {E} b (e : E) u : raise_if b e = Ok u -> b = false.
Proof. destruct b; cbn; congruence. Qed.

Lemma rfor_Ok {E A} (f : A -> result E unit) l u :
  rfor f l = Ok u -> forall a, a ∈ l -> f a = Ok tt.
Proof.
  revert u; induction l as [|x l IH]; intros u H a Ha; cbn in H.
  - by apply not_elem_of_nil in Ha.
  - apply rbind_Ok in H as ([] & Hx & H). apply elem_of_cons in Ha as [->|Ha]; eauto.
Qed.

Lemma rmap_Ok {E A B} (f : A -> result E B) l bs :
  rmap f l = Ok bs -> Forall2 (fun a b => f a = Ok b) l bs.
Proof.
  revert bs; induction l as [|a l IH]; intros bs H; cbn in H.
  - injection H as <-. constructor.
  - apply rbind_Ok in H as (b & Hb & H). apply rbind_Ok in H as (bs' & Hbs & H).
    injection H as <-. constructor; auto.
Qed.

Lemma rmap_ok_forall {E A B} (f : A -> result E B) l :
  (forall a, a ∈ l -> exists b, f a = Ok b) -> exists bs, rmap f l = Ok bs.
Proof.
  induction l as [|a l IH]; intros H; [eexists; reflexivity|].
  destruct (H a) as [b Hb]; [left|].
  destruct IH as [bs Hbs]; [intros x Hx; apply H; right; exact Hx|].
  exists (b :: bs). cbn. rewrite Hb. cbn. rewrite Hbs. reflexivity.
Qed.

(** Invert a successful chain of binds in the context. *)
Ltac inv_ok :=
  repeat match goal with
  | H : rbind ?m _ = Ok _ |- _ =>
      let x := fresh "v" in let Hx := fresh "Hm" in
      apply rbind_Ok in H as (x & Hx & H)
  | H : raise_if _ _ = Ok _ |- _ => apply raise_if_Ok in H
  | H : Ok _ = Ok _ |- _ => injection H as H; try subst
  | H : Err _ = Ok _ |- _ => discriminate H
  | H : Ok _ = Err _ |- _ => discriminate H
  end.

(** ** Python dictionaries

    A [dict] keeps insertion order: assigning to an existing key overwrites in
    place, a new key goes to the end, [pop] removes the key. *)

Definition dict (K V : Type) : Type := list (K * V).

Section Dict.
Context {K V : Type} `{EqDecision K}.
Implicit Types (d : dict K V) (k : K) (v : V).

Fixpoint dget d k : option V :=
  match d with
  | [] => None
  | (k', v) :: d' => if decide (k = k') then Some v else dget d' k
  end.

Definition dget_or d k v : V := default v (dget d k).

Fixpoint dset k v d : dict K V :=
  match d with
  | [] => [(k, v)]
  | (k', v') :: d' => if decide (k = k') then (k, v) :: d' else (k', v') :: dset k v d'
  end.

Fixpoint dpop k d : dict K V :=
  match d with
  | [] => []
  | (k', v') :: d' => if decide (k = k') then dpop k d' else (k', v') :: dpop k d'
  end.

Definition dmem k d : bool := match dget d k with Some _ => true | None => false end.
Definition dkeys d : list K := map fst d.
Definition dvals d : list V := map snd d.

(** Keys occur once: an invariant every operation preserves. *)
Definition dict_wf d : Prop := NoDup (dkeys d).

Lemma dget_dset_eq k v d : dget (dset k v d) k = Some v.
Proof.
  induction d as [|[k' v'] d IH]; cbn.
  - by rewrite decide_True.
  - destruct (decide (k = k')) as [->|]; cbn; by case_decide.
Qed.

Lemma dget_dset_ne k k' v d : k <> k' -> dget (dset k v d) k' = dget d k'.
Proof.
  intros Hne. induction d as [|[k1 v1] d IH]; cbn.
  - by rewrite decide_False.
  - destruct (decide (k = k1)) as [->|]; cbn.
    + by rewrite !decide_False.
    + by rewrite IH.
Qed.

Lemma dget_dset k k' v d :
  dget (dset k v d) k' = if decide (k = k') then Some v else dget d k'.
Proof. case_decide; subst; eauto using dget_dset_eq, dget_dset_ne. Qed.

Lemma dget_dpop_eq k d : dget (dpop k d) k = None.
Proof. induction d as [|[k' v'] d IH]; cbn; [done|]. case_decide; [done|]. cbn. by rewrite decide_False. Qed.

Lemma dget_dpop_ne k k' d : k <> k' -> dget (dpop k d) k' = dget d k'.
Proof.
  intros Hne. induction d as [|[k1 v1] d IH]; cbn; [done|].
  case_decide; subst; cbn; [by rewrite decide_False|]. by rewrite IH.
Qed.

Lemma dget_dpop k k' d :
  dget (dpop k d) k' = if decide (k = k') then None else dget d k'.
Proof. case_decide; subst; eauto using dget_dpop_eq, dget_dpop_ne. Qed.

Lemma dget_Some_in d k v : dget d k = Some v -> (k, v) ∈ d.
Proof.
  induction d as [|[k' v'] d IH]; cbn; [done|].
  case_decide; subst; intros; simplify_eq; [left|right]; auto.
Qed.

Lemma dget_in_wf d k v : dict_wf d -> (k, v) ∈ d -> dget d k = Some v.
Proof.
  unfold dict_wf, dkeys. induction d as [|[k' v'] d IH]; cbn; [by intros _ ?%not_elem_of_nil|].
  intros [Hni Hnd]%NoDup_cons [Heq|Hin]%elem_of_cons.
  - injection Heq as -> ->. by rewrite decide_True.
  - rewrite decide_False; [auto|]. intros ->. apply Hni.
    apply list_elem_of_fmap. by exists (k', v).
Qed.

Lemma dget_None_keys d k : dget d k = None <-> k ∉ dkeys d.
Proof.
  unfold dkeys. induction d as [|[k' v'] d IH]; cbn.
  { split; [intros _; apply not_elem_of_nil | done]. }
  rewrite elem_of_cons. case_decide; subst; [naive_solver|]. rewrite IH. naive_solver.
Qed.

Lemma dmem_spec k d : dmem k d = true <-> k ∈ dkeys d.
Proof.
  unfold dmem. destruct (dget d k) eqn:E.
  - split; [|done]. intros _. destruct (decide (k ∈ dkeys d)) as [|Hn]; [done|].
    apply dget_None_keys in Hn. congruence.
  - apply dget_None_keys in E. split; [done|]. by intros.
Qed.

Lemma dkeys_dset k v d :
  dkeys (dset k v d) = if decide (k ∈ dkeys d) then dkeys d else dkeys d ++ [k].
Proof.
  unfold dkeys. induction d as [|[k' v'] d IH]; cbn.
  - rewrite decide_False; [done|set_solver].
  - destruct (decide (k = k')) as [->|]; cbn.
    + rewrite decide_True; [done|set_solver].
    + rewrite IH. repeat case_decide; set_solver.
Qed.

Lemma dkeys_dpop k d : dkeys (dpop k d) = filter (fun k' => k <> k') (dkeys d).
Proof.
  unfold dkeys. induction d as [|[k' v'] d IH]; [done|].
  cbn [map fst dpop]. rewrite filter_cons. repeat case_decide; subst; cbn; try done. by rewrite IH.
Qed.

Lemma dict_wf_nil : dict_wf [].
Proof. constructor. Qed.

Lemma dict_wf_dset k v d : dict_wf d -> dict_wf (dset k v d).
Proof.
  unfold dict_wf. rewrite dkeys_dset. case_decide; [done|]. intros Hd.
  apply NoDup_app. split_and!; [done | set_solver | apply NoDup_singleton].
Qed.

Lemma dict_wf_dpop k d : dict_wf d -> dict_wf (dpop k d).
Proof. unfold dict_wf. rewrite dkeys_dpop. apply NoDup_filter. Qed.

Lemma elem_of_dpop k k' v d : (k', v) ∈ dpop k d <-> (k', v) ∈ d /\ k <> k'.
Proof.
  induction d as [|[k1 v1] d IH]; cbn; [set_solver|].
  case_decide; subst; rewrite ?elem_of_cons, IH; naive_solver.
Qed.

Lemma dset_fresh k v d : dget d k = None -> dset k v d = d ++ [(k, v)].
Proof.
  induction d as [|[k' v'] d IH]; cbn; [done|].
  case_decide; [done|]. intros Hd. by rewrite IH.
Qed.

Lemma dpop_fresh k d : dget d k = None -> dpop k d = d.
Proof.
  induction d as [|[k' v'] d IH]; cbn; [done|].
  case_decide; [done|]. intros Hd. by rewrite IH.
Qed.

(** The value [dset] writes is visible; what it overwrites is gone. *)
Lemma elem_of_dset_wf k v k' v' d :
  dict_wf d -> (k', v') ∈ dset k v d ->
  (k' = k /\ v' = v) \/ (k' <> k /\ (k', v') ∈ d).
Proof.
  intros Hwf Hin. apply dget_in_wf in Hin; [|by apply dict_wf_dset].
  rewrite dget_dset in Hin. case_decide; subst; simplify_eq; [by left|].
  right. split; [done|]. by apply dget_Some_in.
Qed.
End Dict.

Notation "d '@?' k" := (dget d k) (at level 24, left associativity) : py_scope.
Notation "d '+{' k ':=' v '}'" := (dset k v d)
  (at level 24, left associativity, k at level 200, v at level 200,
   format "d  '+{' k  ':='  v '}'") : py_scope.

Create HintDb pydict discriminated.
#[export] Hint Resolve dict_wf_nil dict_wf_dset dict_wf_dpop : pydict.
#[export] Hint Rewrite @dget_dset_eq @dget_dpop_eq : pydict.

(** Case analysis on every dictionary update met by a lookup. *)
Ltac dict_cases :=
  repeat (rewrite dget_dset || rewrite dget_dpop
          || rewrite dget_dset in * || rewrite dget_dpop in *
          || case_decide); simplify_eq.

(** ** Python floats

    Floating-point quantities (kW, kWh, state of charge, prices, seconds) are
    rationals: the code's operations on them are exact here, rounding is not
    modelled. Python's comparison operators return a [bool]. *)

#[global] Arguments Qplus _ _ : simpl never.
#[global] Arguments Qminus _ _ : simpl never.
#[global] Arguments Qmult _ _ : simpl never.
#[global] Arguments Qdiv _ _ : simpl never.
#[global] Arguments Qopp _ : simpl never.
#[global] Arguments Qinv _ : simpl never.

Definition Qltb (a b : Q) : bool := negb (Qle_bool b a).
Notation "a '<?q' b" := (Qltb a b) (at level 70) : py_scope.
Notation "a '<=?q' b" := (Qle_bool a b) (at level 70) : py_scope.
Notation "a '=?q' b" := (Qeq_bool a b) (at level 70) : py_scope.

Lemma Qltb_lt a b : (a <?q b) = true <-> (a < b)%Q.
Proof.
  unfold Qltb. rewrite negb_true_iff. rewrite <- not_true_iff_false, Qle_bool_iff.
  split; intros; lra.
Qed.

Lemma Qltb_ge a b : (a <?q b) = false <-> (b <= a)%Q.
Proof. unfold Qltb. rewrite negb_false_iff. apply Qle_bool_iff. Qed.

Lemma Qleb_le a b : (a <=?q b) = true <-> (a <= b)%Q.
Proof. apply Qle_bool_iff. Qed.

Lemma Qleb_gt a b : (a <=?q b) = false <-> (b < a)%Q.
Proof.
  rewrite <- not_true_iff_false, Qle_bool_iff. split; intros; lra.
Qed.

Lemma Qeqb_eq a b : (a =?q b) = true <-> (a == b)%Q.
Proof. apply Qeq_bool_iff. Qed.

Lemma Qeqb_neq a b : (a =?q b) = false <-> ~ (a == b)%Q.
Proof. rewrite <- not_true_iff_false. by rewrite Qeq_bool_iff. Qed.

(** Reflect every boolean float comparison of the context and the goal. *)
Ltac qbool :=
  repeat match goal with
  | H : (_ <?q _) = true |- _ => apply Qltb_lt in H
  | H : (_ <?q _) = false |- _ => apply Qltb_ge in H
  | H : (_ <=?q _) = true |- _ => apply Qleb_le in H
  | H : (_ <=?q _) = false |- _ => apply Qleb_gt in H
  | H : (_ =?q _) = true |- _ => apply Qeqb_eq in H
  | H : (_ =?q _) = false |- _ => apply Qeqb_neq in H
  | |- (_ <?q _) = true => apply Qltb_lt
  | |- (_ <?q _) = false => apply Qltb_ge
  | |- (_ <=?q _) = true => apply Qleb_le
  | |- (_ <=?q _) = false => apply Qleb_gt
  | |- (_ =?q _) = true => apply Qeqb_eq
  end.

(** Case analysis on a float test of the goal. *)
Ltac case_q :=
  match goal with
  | |- context [ if ?a <?q ?b then _ else _ ] =>
      let E := fresh "Hq" in destruct (a <?q b) eqn:E
  | |- context [ if ?a <=?q ?b then _ else _ ] =>
      let E := fresh "Hq" in destruct (a <=?q b) eqn:E
  | |- context [ if ?a =?q ?b then _ else _ ] =>
      let E := fresh "Hq" in destruct (a =?q b) eqn:E
  end; qbool.

(** [min(a, b)] and [max(a, b)] keep their first argument on a tie. *)
Definition pymin (a b : Q) : Q := if b <?q a then b else a.
Definition pymax (a b : Q) : Q := if a <?q b then b else a.

Lemma pymin_l a b : (pymin a b <= a)%Q.
Proof. unfold pymin. case_q; lra. Qed.
Lemma pymin_r a b : (pymin a b <= b)%Q.
Proof. unfold pymin. case_q; lra. Qed.
Lemma pymax_l a b : (a <= pymax a b)%Q.
Proof. unfold pymax. case_q; lra. Qed.
Lemma pymax_r a b : (b <= pymax a b)%Q.
Proof. unfold pymax. case_q; lra. Qed.
Lemma pymin_glb a b c : (c <= a)%Q -> (c <= b)%Q -> (c <= pymin a b)%Q.
Proof. unfold pymin. case_q; lra. Qed.
Lemma pymax_lub a b c : (a <= c)%Q -> (b <= c)%Q -> (pymax a b <= c)%Q.
Proof. unfold pymax. case_q; lra. Qed.

(** [sum(...)] over floats. *)
Fixpoint Qsum (l : list Q) : Q :=
  match l with
  | [] => 0%Q
  | x :: l' => (x + Qsum l')%Q
  end.

Lemma Qsum_app l1 l2 : (Qsum (l1 ++ l2) == Qsum l1 + Qsum l2)%Q.
Proof. induction l1 as [|x l1 IH]; cbn; [lra|]. rewrite IH. lra. Qed.

Lemma Qsum_map_le {A} (f g : A -> Q) l :
  (forall x, x ∈ l -> (f x <= g x)%Q) -> (Qsum (map f l) <= Qsum (map g l))%Q.
Proof.
  induction l as [|x l IH]; intros H; cbn; [lra|].
  assert (f x <= g x)%Q by (apply H; left).
  assert (Qsum (map f l) <= Qsum (map g l))%Q by (apply IH; intros; apply H; by right).
  lra.
Qed.

Lemma Qsum_map_ext {A} (f g : A -> Q) l :
  (forall x, x ∈ l -> (f x == g x)%Q) -> (Qsum (map f l) == Qsum (map g l))%Q.
Proof.
  induction l as [|x l IH]; intros H; cbn; [lra|].
  rewrite (H x) by left. rewrite IH by (intros; apply H; by right). lra.
Qed.

Lemma Qsum_nonneg {A} (f : A -> Q) l :
  (forall x, x ∈ l -> (0 <= f x)%Q) -> (0 <= Qsum (map f l))%Q.
Proof.
  induction l as [|x l IH]; intros H; cbn; [lra|].
  assert (0 <= f x)%Q by (apply H; left).
  assert (0 <= Qsum (map f l))%Q by (apply IH; intros; apply H; by right). lra.
Qed.

Lemma Qsum_scale {A} (f : A -> Q) c l :
  (Qsum (map (fun x => f x * c) l) == Qsum (map f l) * c)%Q.
Proof. induction l as [|x l IH]; cbn; [ring|]. rewrite IH. ring. Qed.

(** [int(x)] truncates towards zero. *)
Definition Qtrunc (q : Q) : Z := Z.quot (Qnum q) (Zpos (Qden q)).

(** [round(q)] to an integer, ties to even. *)
Definition Qround_even (q : Q) : Z :=
  let f := Qfloor q in
  let r := (q - inject_Z f)%Q in
  if r <?q (1 # 2) then f
  else if (1 # 2) <?q r then (f + 1)%Z
  else if Z.even f then f else (f + 1)%Z.

(** ** Stable sorting

    [sorted(l, key=...)] is stable; [sort_by le] inserts each element before
    the first one that is strictly greater, from the right. *)

Section Sort.
Context {A : Type} (le : A -> A -> bool).

Fixpoint insert_by (x : A) (l : list A) : list A :=
  match l with
  | [] => [x]
  | y :: l' => if le x y then x :: y :: l' else y :: insert_by x l'
  end.

Definition sort_by (l : list A) : list A := fold_right insert_by [] l.

Lemma insert_by_perm x l : insert_by x l ≡ₚ x :: l.
Proof.
  induction l as [|y l IH]; cbn; [done|]. destruct (le x y); [done|].
  rewrite IH. apply Permutation_swap.
Qed.

Lemma sort_by_perm l : sort_by l ≡ₚ l.
Proof. induction l as [|x l IH]; cbn; [done|]. by rewrite insert_by_perm, IH. Qed.

Lemma elem_of_sort_by x l : x ∈ sort_by l <-> x ∈ l.
Proof. by rewrite sort_by_perm. Qed.

Hypothesis le_total : forall x y, le x y = true \/ le y x = true.
Hypothesis le_trans : forall x y z, le x y = true -> le y z = true -> le x z = true.

Lemma insert_by_sorted x l :
  StronglySorted (fun a b => le a b = true) l ->
  StronglySorted (fun a b => le a b = true) (insert_by x l).
Proof.
  induction 1 as [|y l Hs IH Hf]; cbn; [repeat constructor|].
  destruct (le x y) eqn:E.
  - repeat constructor; auto. eapply Forall_impl; eauto.
  - constructor; [done|]. rewrite Forall_forall in Hf |- *.
    intros z Hz. rewrite insert_by_perm, elem_of_cons in Hz.
    destruct Hz as [->|Hz]; [|auto].
    destruct (le_total x y); congruence.
Qed.

Lemma sort_by_sorted l : StronglySorted (fun a b => le a b = true) (sort_by l).
Proof. induction l; cbn; [constructor|]. by apply insert_by_sorted. Qed.
End Sort.

(** ** Dynamically typed values

    Python objects the code stores in [dict[str, object]] and reads back by
    key: JSON-like payloads, OCPP messages. *)

Inductive pyobj : Type :=
| PNone
| PBool (b : bool)
| PInt (z : Z)
| PFloat (q : Q)
| PStr (s : string)
| PList (l : list pyobj)
| PDict (d : list (string * pyobj)).

(** Python truthiness ([if x:]). *)
Definition truthy (o : pyobj) : bool :=
  match o with
  | PNone => false
  | PBool b => b
  | PInt z => negb (Z.eqb z 0)
  | PFloat q => negb (q =?q 0)
  | PStr s => negb (String.eqb s "")
  | PList l => match l with [] => false | _ => true end
  | PDict d => match d with [] => false | _ => true end
  end.

(** [x or y]. *)
Definition py_or (x y : pyobj) : pyobj := if truthy x then x else y.

(** [opt] seen as an object: [None] or the value. *)
Definition pyopt {A} (f : A -> pyobj) (o : option A) : pyobj :=
  match o with Some a => f a | None => PNone end.

(** ** Boolean and list facts shared by the components *)

Lemma forallb_elem {A} (f : A -> bool) l x :
  forallb f l = true -> x ∈ l -> f x = true.
Proof. intros H Hx. apply forallb_forall with (x := x) in H; [done|]. by apply list_elem_of_In. Qed.

Lemma forallb_intro {A} (f : A -> bool) l :
  (forall x, x ∈ l -> f x = true) -> forallb f l = true.
Proof. intros H. apply forallb_forall. intros x Hx. apply H. by apply list_elem_of_In. Qed.

Lemma elem_of_seq_0 n t : t ∈ seq 0 n <-> (t < n)%nat.
Proof. rewrite elem_of_seq. lia. Qed.

Lemma elem_of_omap_intro {A B} (f : A -> option B) (l : list A) x y :
  x ∈ l -> f x = Some y -> y ∈ omap f l.
Proof. intros. apply list_elem_of_omap. eauto. Qed.

(** Boolean filters, keys and order. *)

Lemma elem_of_lfilter {A} (f : A -> bool) l x : x ∈ List.filter f l <-> x ∈ l /\ f x = true.
Proof. rewrite !list_elem_of_In. apply filter_In. Qed.

Lemma filter_none {A} (f : A -> bool) l : (forall x, x ∈ l -> f x = false) -> List.filter f l = [].
Proof.
  induction l as [|x l IH]; intros H; [done|]. cbn. rewrite (H x) by left. apply IH. intros. apply H. by right.
Qed.

Lemma lfilter_ext {A} (f g : A -> bool) l :
  (forall x, x ∈ l -> f x = g x) -> List.filter f l = List.filter g l.
Proof.
  induction l as [|x l IH]; intros H; [done|]. cbn [List.filter].
  rewrite (H x) by left. rewrite IH; [done|]. intros y Hy. apply H. by right.
Qed.

(** Sliding windows: a filter that only tightens over time forgets earlier ones. *)
Lemma lfilter_window (keep : Z -> Z -> bool) a b l :
  (forall t, keep b t = true -> keep a t = true) ->
  List.filter (keep b) (List.filter (keep a) l) = List.filter (keep b) l.
Proof.
  intros Hk. induction l as [|t l IH]; [done|]. cbn [List.filter].
  destruct (keep a t) eqn:Ea; cbn [List.filter]; destruct (keep b t) eqn:Eb; rewrite ?IH; try done.
  by rewrite Hk in Ea.
Qed.

Lemma sorted_snoc_le (L : list Z) t : StronglySorted Z.le L -> Forall (fun x => x <= t)%Z L -> StronglySorted Z.le (L ++ [t]).
Proof.
  induction 1 as [|x L Hs IH Hf]; intros Hb; cbn; [repeat constructor|].
  apply Forall_cons in Hb as [Hx Hb]. constructor; [auto|]. apply Forall_app. split; [done|].
  constructor; [lia | constructor].
Qed.

Lemma nodup_map_inj {A B} (f : A -> B) l x y :
  NoDup (map f l) -> x ∈ l -> y ∈ l -> f x = f y -> x = y.
Proof.
  induction l as [|z l IH]; intros Hn Hx Hy E; [by apply not_elem_of_nil in Hx|].
  cbn in Hn. apply NoDup_cons in Hn as [Hz Hn].
  apply elem_of_cons in Hx as [->|Hx]; apply elem_of_cons in Hy as [->|Hy]; [done| | |auto];
    exfalso; apply Hz; [rewrite E | rewrite <- E]; apply list_elem_of_fmap; eauto.
Qed.

Lemma nodup_snoc {A} (l : list A) x : NoDup l -> x ∉ l -> NoDup (l ++ [x]).
Proof. intros. apply NoDup_app. split_and!; [done | set_solver | apply NoDup_singleton]. Qed.

Lemma sorted_split {A} (R : A -> A -> Prop) l1 l2 x y :
  StronglySorted R (l1 ++ l2) -> x ∈ l1 -> y ∈ l2 -> R x y.
Proof.
  induction l1 as [|z l1 IH]; intros Hs Hx Hy; [by apply not_elem_of_nil in Hx|].
  inversion Hs as [|? ? Hs' Hf]; subst. apply elem_of_cons in Hx as [->|Hx]; [|auto].
  apply (proj1 (Forall_forall _ _) Hf), elem_of_app. by right.
Qed.

(** Strings as lists of characters. *)

Lemma list_ascii_app s1 s2 :
  String.list_ascii_of_string (s1 +:+ s2)
  = String.list_ascii_of_string s1 ++ String.list_ascii_of_string s2.
Proof.
  induction s1 as [|a s1 IH]; [done|].
  change (String.list_ascii_of_string (String a (s1 +:+ s2))
          = a :: String.list_ascii_of_string s1 ++ String.list_ascii_of_string s2).
  cbn. by rewrite IH.
Qed.
