(* ===== verification/Models.v ===== *)
(** * Core data models ([src/core/models.py], [src/core/optimizer/exceptions.py])

    The records the optimiser, the readiness check, the trigger monitor and the
    controller exchange. Vehicle, charger and depot identifiers are strings (a
    [UUID] is its [str(...)] form). A timestamp is an integer in microseconds of
    UTC, the resolution Python keeps, and a duration likewise; where the code
    mixes timezone-aware and naive values, [datetime] keeps the distinction. *)

From S2P Require Import Prelude.
From Stdlib Require Import ZArith QArith.
From stdpp Require Import base list strings gmap.

(** Microseconds of a second, a minute and an hour. *)
Definition usec : Z := 1000000.
Definition minute_us : Z := 60 * usec.
Definition hour_us : Z := 3600 * usec.

(** [(b - a).total_seconds()]. *)
Definition total_seconds (d : Z) : Q := inject_Z d / inject_Z usec.

(** A Python [datetime]: [datetime.utcnow()] is naive, a [timestamptz] column
    and [datetime.now(timezone.utc)] are aware. *)
Record datetime := { dt_aware : bool; dt_us : Z }.
Definition naive_utc (us : Z) : datetime := {| dt_aware := false; dt_us := us |}.
Definition aware_utc (us : Z) : datetime := {| dt_aware := true; dt_us := us |}.

(** [a - b] raises [TypeError] when only one side is aware. *)
Definition dt_compatible (a b : datetime) : bool := Bool.eqb (dt_aware a) (dt_aware b).

Record IncomingVehicle := {
  iv_vehicle_id : string;
  iv_external_id : string;
  iv_expected_soc : Q;
  iv_arrival_time : datetime;
  iv_battery_kwh : Q;
  iv_max_charge_kw : Q;
  iv_origin_depot_id : string
}.

(** One entry of [DepotState.preconditioning_requests]: the keys the optimiser
    reads with [req.get]. *)
Record PrecondRequest := {
  pr_start_time : option datetime;
  pr_end_time : option datetime;
  pr_power_kw : option Q
}.

Record DepotConfig := {
  vehicle_capacities : dict string Q;
  vehicle_max_charge_kw : dict string Q;
  charger_groups : list (Q * Z);
  charger_efficiency : Q;
  charger_vehicle_access : dict string (gset string);
  battery_capacity : Q;
  battery_power : Q;
  battery_efficiency : Q;
  battery_soc_min : Q;
  battery_soc_max : Q;
  max_site_power : Q;
  building_load_assumption_kw : Q;
  delta_t : Q;
  n_timesteps : nat;
  charger_vehicle_access_default : string;
  tariff_type : string;
  energy_cap_kwh : option Q;
  under_cap_rate_per_kwh : option Q;
  over_cap_penalty_per_kwh : option Q;
  cap_billing_period : string
}.

Record DepotState := {
  vehicle_socs : dict string Q;
  battery_soc : Q;
  prices : list Q;
  demand_charge_rate : Q;
  current_month_peak : Q;
  vehicle_availability : dict string (list bool);
  energy_requirements : dict string Q;
  departure_times : dict string Z;
  building_power : list Q;
  incoming_vehicles : list IncomingVehicle;
  vehicle_departure_soc_min : dict string Q;
  vehicle_departure_soc_max : dict string Q;
  vehicle_priorities : dict string Z;
  preconditioning_requests : list PrecondRequest;
  cumulative_kwh_period : Q
}.

(** The exceptions of [optimizer/exceptions.py] plus the Python built-ins the
    optimiser lets through. Messages are dropped, the structured attributes
    ([field], [solver_status], [constraint_name], [vehicle_id]) are kept. *)
Inductive opt_error : Type :=
| InvalidStateError (field : string)
| InvalidConfigError (field : string)
| ConstraintViolationError (constraint_name vehicle_id : string)
| InfeasibleModelError
| SolverTimeoutError (time_limit : Q)
| SolverError (solver_status : string)
| ValueError
| TypeError
| KeyError
| IndexError
| ZeroDivisionError.

(** [DepotConfig.charger_power]: the rating of the first group. *)
Definition charger_power (c : DepotConfig) : result opt_error Q :=
  match charger_groups c with
  | [] => Err ValueError
  | (kw, _) :: _ => Ok kw
  end.

(** [sum(l)] over Python ints. *)
Definition Zsum (l : list Z) : Z := foldr Z.add 0%Z l.

(** [DepotConfig.n_chargers]. *)
Definition n_chargers (c : DepotConfig) : Z := Zsum (map snd (charger_groups c)).

(** The schedule of one vehicle: [{"charging_power": [...], "soc": [...]}]. *)
Record VehicleSchedule := { charging_power : list Q; soc : list Q }.

Record OptimizationResult := {
  run_id : string;
  schedule : dict string VehicleSchedule;
  battery_dispatch : list Q;
  grid_power : list Q;
  peak_demand_kw : Q;
  objective_value : Q;
  solve_time_s : Q;
  status : string;
  solver_used : string
}.

(** [OptimizationResult.__init__]: the legacy aliases [peak_demand] and
    [solve_time] are used only when the current names are absent. *)
Definition make_result (run_id : string) (schedule : dict string VehicleSchedule)
    (battery_dispatch grid_power : list Q)
    (peak_demand_kw peak_demand : option Q) (objective_value : Q)
    (solve_time_s solve_time : option Q) (status solver_used : string)
    : OptimizationResult :=
  let pkw := match peak_demand_kw with
             | Some p => p
             | None => match peak_demand with Some p => p | None => 0%Q end
             end in
  let sts := match solve_time_s with
             | Some t => t
             | None => match solve_time with Some t => t | None => 0%Q end
             end in
  {| run_id := run_id; schedule := schedule; battery_dispatch := battery_dispatch;
     grid_power := grid_power; peak_demand_kw := pkw;
     objective_value := objective_value; solve_time_s := sts;
     status := status; solver_used := solver_used |}.

Definition with_status (r : OptimizationResult) (s : string) : OptimizationResult :=
  {| run_id := run_id r; schedule := schedule r; battery_dispatch := battery_dispatch r;
     grid_power := grid_power r; peak_demand_kw := peak_demand_kw r;
     objective_value := objective_value r; solve_time_s := solve_time_s r;
     status := s; solver_used := solver_used r |}.

Record ReadinessReport := {
  rr_status : string;
  missing_inputs : list string;
  degraded_reasons : list string;
  assumptions : dict string pyobj;
  building_load_source : string
}.

Definition is_ready (r : ReadinessReport) : bool := String.eqb (rr_status r) "ready".
Definition is_degraded (r : ReadinessReport) : bool := String.eqb (rr_status r) "degraded".
Definition is_blocking (r : ReadinessReport) : bool := String.eqb (rr_status r) "not_ready".
