(* ===== verification/Milp.v ===== *)
(** * The MILP charging model ([src/core/optimizer/milp_model.py])

    [build_optimization_model] assembles a Pyomo model. Here a model is its
    constraint families, keyed by the name of the Pyomo component, and its
    objective; a constraint is a decidable predicate on assignments of the
    decision variables. A rule that returns [Constraint.Skip] gives [None].
    Variable domains, bounds and [fix] calls are families too.

    The constraints are linear (in)equalities over the rationals, so an
    assignment is feasible exactly when the mathematical model says so; solver
    tolerances are not part of the model. *)

From S2P Require Import Prelude Models.
From Stdlib Require Import ZArith QArith Lqa Lia.
From stdpp Require Import base list strings gmap.

#[local] Open Scope Q_scope.

(** ** Decision variables *)

Record assignment := {
  P_charge : string -> nat -> Q;
  SoC : string -> nat -> Q;
  y_charge : string -> nat -> Q;
  P_grid : nat -> Q;
  P_peak : Q;
  P_batt : nat -> Q;
  SoC_batt : nat -> Q;
  P_batt_discharge : nat -> Q;
  P_batt_charge : nat -> Q;
  P_precond : nat -> Q;
  precond_slack : nat -> Q;
  total_kwh_period : Q;
  kwh_under : Q;
  kwh_over : Q
}.

Definition constraint : Type := assignment -> bool.

Record milp := {
  m_T : nat;
  m_B : list string;
  m_families : dict string (list constraint);
  m_objective : assignment -> Q
}.

Definition holds_all (fams : dict string (list constraint)) (a : assignment) : bool :=
  forallb (fun '(_, cs) => forallb (fun c : constraint => c a) cs) fams.

Definition feasible (m : milp) (a : assignment) : bool := holds_all (m_families m) a.

(** Index sets of the families. *)
Definition over_B (B : list string) (rule : string -> option constraint) : list constraint :=
  omap rule B.
Definition over_T (n : nat) (rule : nat -> option constraint) : list constraint :=
  omap rule (seq 0 n).
Definition over_BT (B : list string) (n : nat) (rule : string -> nat -> option constraint)
  : list constraint :=
  B ≫= fun b => over_T n (rule b).

(** ** Input validation *)

Definition same_keys {V W} (d : dict string V) (e : dict string W) : bool :=
  bool_decide (list_to_set (dkeys d) =@{gset string} list_to_set (dkeys e)).

Definition _validate_inputs (state : DepotState) (config : DepotConfig)
  : result opt_error unit :=
  let n := n_timesteps config in
  let? _ := raise_if (match vehicle_socs state with [] => true | _ => false end)
              (InvalidStateError "vehicle_socs") in
  let? _ := raise_if (negb (length (prices state) =? n)%nat)
              (InvalidStateError "prices") in
  let? _ := raise_if (negb (length (building_power state) =? n)%nat)
              (InvalidStateError "building_power") in
  let? _ := raise_if (negb (same_keys (vehicle_socs state) (vehicle_availability state)))
              (InvalidStateError "vehicle_availability") in
  let? _ := rfor (fun '(_, avail) => raise_if (negb (length avail =? n)%nat)
                    (InvalidStateError "vehicle_availability"))
              (vehicle_availability state) in
  let? _ := raise_if (negb (same_keys (vehicle_socs state) (vehicle_capacities config)))
              (InvalidConfigError "vehicle_capacities") in
  let? _ := raise_if (match charger_groups config with [] => true | _ => false end)
              (InvalidConfigError "charger_groups") in
  let? _ := rfor (fun '(rated_kw, count) =>
                    let? _ := raise_if (rated_kw <=?q 0) (InvalidConfigError "charger_groups") in
                    raise_if (count <=? 0)%Z (InvalidConfigError "charger_groups"))
              (charger_groups config) in
  let? _ := raise_if (max_site_power config <=?q 0) (InvalidConfigError "max_site_power") in
  let? _ := raise_if (negb ((0 <?q charger_efficiency config)
                            && (charger_efficiency config <=?q 1)))
              (InvalidConfigError "charger_efficiency") in
  let? _ := raise_if (battery_capacity config <?q 0) (InvalidConfigError "battery_capacity") in
  raise_if (battery_power config <?q 0) (InvalidConfigError "battery_power").

Definition _compute_tighter_soc_bounds (state : DepotState) (config : DepotConfig)
    (vehicle_id : string) (timestep : nat) : Q * Q :=
  (1 # 10, 1).

Section Model.
Context (state : DepotState) (config : DepotConfig) (horizon_start : datetime).

(** ** Sets and parameters *)

Definition model_T : nat := n_timesteps config.
Definition model_B : list string := dkeys (vehicle_socs state).

Definition price (t : nat) : Q := nth t (prices state) 0.
Definition E_batt (b : string) : Q := dget_or (vehicle_capacities config) b 0.
Definition soc_init (b : string) : Q := dget_or (vehicle_socs state) b 0.
(** [state.vehicle_availability[b][t]]. *)
Definition available (b : string) (t : nat) : bool :=
  nth t (dget_or (vehicle_availability state) b []) false.
Definition building (t : nat) : Q := nth t (building_power state) 0.

Definition max_kw (b : string) : Q := dget_or (vehicle_max_charge_kw config) b 80.

Definition has_battery : bool :=
  (0 <?q battery_capacity config) && (0 <?q battery_power config).
Definition batt_power : Q := if has_battery then battery_power config else 0.

Definition in_bounds (lo hi x : Q) : bool := (lo <=?q x) && (x <=?q hi).

(** ** Variable domains and bounds *)

Definition P_charge_bounds (b : string) (t : nat) : option constraint :=
  Some (fun a => in_bounds 0 (max_kw b) (P_charge a b t)).
Definition SoC_bounds (b : string) (t : nat) : option constraint :=
  let '(lower, upper) := _compute_tighter_soc_bounds state config b t in
  Some (fun a => in_bounds lower upper (SoC a b t)).
Definition y_charge_domain (b : string) (t : nat) : option constraint :=
  Some (fun a => (y_charge a b t =?q 0) || (y_charge a b t =?q 1)).
Definition P_grid_domain (t : nat) : option constraint :=
  Some (fun a => 0 <=?q P_grid a t).
Definition P_batt_bounds (t : nat) : option constraint :=
  Some (fun a => in_bounds (- batt_power) batt_power (P_batt a t)).
Definition SoC_batt_bounds (t : nat) : option constraint :=
  Some (fun a => in_bounds (2 # 10) (8 # 10) (SoC_batt a t)).
Definition batt_split_bounds (t : nat) : option constraint :=
  Some (fun a => in_bounds 0 batt_power (P_batt_discharge a t)
                 && in_bounds 0 batt_power (P_batt_charge a t)).
Definition precond_domain (t : nat) : option constraint :=
  Some (fun a => (0 <=?q P_precond a t) && (0 <=?q precond_slack a t)).

(** ** SoC dynamics *)

Definition is_incoming (b : string) : bool :=
  existsb (fun iv => String.eqb (iv_vehicle_id iv) b) (incoming_vehicles state).

Definition soc_init_rule (b : string) : option constraint :=
  if is_incoming b then None
  else Some (fun a => SoC a b 0 =?q soc_init b).

(** [int((when - horizon_start).total_seconds() / (config.delta_t * 3600))]. *)
Definition timestep_of (when : datetime) : Z :=
  Qtrunc (total_seconds (dt_us when - dt_us horizon_start) / (delta_t config * 3600)).

(** What evaluating that expression raises. *)
Definition timestep_raises (when : datetime) : result opt_error unit :=
  let? _ := raise_if (negb (dt_compatible when horizon_start)) TypeError in
  raise_if (delta_t config * 3600 =?q 0) ZeroDivisionError.

Definition incoming_arrival_timesteps : dict string (Z * Q) :=
  foldl (fun acc iv =>
      let t := timestep_of (iv_arrival_time iv) in
      if ((0 <=? t)%Z && (t <? Z.of_nat model_T)%Z)
      then acc +{ iv_vehicle_id iv := (t, iv_expected_soc iv) }
      else acc)
    [] (incoming_vehicles state).

Definition incoming_vehicle_soc_rule (b : string) : option constraint :=
  match incoming_arrival_timesteps @? b with
  | Some (arrival_t, expected_soc) =>
      Some (fun a => SoC a b (Z.to_nat arrival_t) =?q expected_soc)
  | None => None
  end.

Definition soc_dynamics_rule (b : string) (t : nat) : option constraint :=
  match t with
  | O => None
  | S t' => Some (fun a => SoC a b t =?q
               SoC a b t' + charger_efficiency config * P_charge a b t' * delta_t config
                            / E_batt b)
  end.

Definition availability_rule (b : string) (t : nat) : option constraint :=
  if available b t then None else Some (fun a => P_charge a b t =?q 0).

(** [fix(0.0)] / [fix(0)] of vehicles that are on route at [t = 0]. *)
Definition on_route_fix (b : string) : option constraint :=
  if available b 0 then None
  else Some (fun a => (P_charge a b 0 =?q 0) && (y_charge a b 0 =?q 0)).

(** ** Departure requirement *)

Definition departs_in_horizon (b : string) : option Z :=
  match departure_times state @? b with
  | Some t => if (t <? Z.of_nat model_T)%Z then Some t else None
  | None => None
  end.

Definition departure_soc_min_of (b : string) : Q :=
  dget_or (vehicle_departure_soc_min state) b (99 # 100).

Definition departure_soc_min_rule (b : string) : option constraint :=
  match departs_in_horizon b with
  | Some t => Some (fun a => departure_soc_min_of b <=?q SoC a b (Z.to_nat t))
  | None => None
  end.

Definition departure_soc_max_rule (b : string) : option constraint :=
  match departs_in_horizon b with
  | Some t =>
      let soc_max := dget_or (vehicle_departure_soc_max state) b 1 in
      if soc_max <?q 1 then Some (fun a => SoC a b (Z.to_nat t) <=?q soc_max) else None
  | None => None
  end.

(** ** Charger constraints *)

Definition charger_link_rule (b : string) (t : nat) : option constraint :=
  Some (fun a => P_charge a b t <=?q max_kw b * y_charge a b t).

Definition total_chargers : Z := Zsum (map snd (charger_groups config)).
Definition total_charger_power : Q :=
  Qsum (map (fun '(kw, count) => kw * inject_Z count) (charger_groups config)).

Definition sum_B (f : string -> Q) : Q := Qsum (map f model_B).

Definition charger_count_rule (t : nat) : option constraint :=
  Some (fun a => sum_B (fun b => y_charge a b t) <=?q inject_Z total_chargers).

Definition charger_power_rule (t : nat) : option constraint :=
  Some (fun a => sum_B (fun b => P_charge a b t) <=?q total_charger_power).

Definition vehicle_list : list string := sort_by String.leb model_B.

(** The pairs [(vehicle_list[i], vehicle_list[i + 1])]. *)
Definition symmetry_pairs : list (string * string) := zip vehicle_list (tail vehicle_list).

Definition symmetry_break_rule (p : string * string) (t : nat) : option constraint :=
  let '(vehicle_i, vehicle_j) := p in
  if available vehicle_i t && available vehicle_j t
  then Some (fun a => y_charge a vehicle_j t <=?q y_charge a vehicle_i t)
  else None.

Definition symmetry_break : list constraint :=
  let nv := length vehicle_list in
  if (1 <? nv)%nat && (Z.of_nat nv <=? total_chargers)%Z
  then symmetry_pairs ≫= fun p => over_T model_T (symmetry_break_rule p)
  else [].

(** ** Grid balance, preconditioning, battery *)

Definition batt_split_rule (t : nat) : option constraint :=
  Some (fun a => P_batt a t =?q P_batt_discharge a t - P_batt_charge a t).

(** [float(req.get("power_kw") or 0)] *)
Definition req_power (req : PrecondRequest) : Q := default 0 (pr_power_kw req).

(** [required_precond_list[t]]: the loop adds [power_kw] to every step of
    [range(max(0, t_start), min(n_timesteps, t_end))]. *)
Definition required_precond (t : nat) : Q :=
  Qsum (map (fun req =>
    match pr_start_time req, pr_end_time req with
    | Some start_time, Some end_time =>
        let t_start := timestep_of start_time in
        let t_end := timestep_of end_time in
        if ((Z.max 0 t_start <=? Z.of_nat t)%Z
            && (Z.of_nat t <? Z.min (Z.of_nat model_T) t_end)%Z)
        then req_power req else 0
    | _, _ => 0
    end) (preconditioning_requests state)).

Definition M_PRECOND : Q := 1000.

Definition precond_rule (t : nat) : option constraint :=
  Some (fun a => required_precond t <=?q P_precond a t + precond_slack a t).

Definition P_batt_effective (a : assignment) (t : nat) : Q :=
  P_batt_discharge a t * battery_efficiency config
  - P_batt_charge a t / battery_efficiency config.

(** The power the site draws at [t]: what [grid_balance] equates [P_grid] with. *)
Definition site_load (a : assignment) (t : nat) : Q :=
  sum_B (fun b => P_charge a b t) + building t + building_load_assumption_kw config
  + P_precond a t - P_batt_effective a t.

Definition grid_balance_rule (t : nat) : option constraint :=
  Some (fun a => P_grid a t =?q site_load a t).

Definition site_power_limit_rule (t : nat) : option constraint :=
  Some (fun a => P_grid a t <=?q max_site_power config).

Definition peak_tracking_rule (t : nat) : option constraint :=
  Some (fun a => P_grid a t <=?q P_peak a).

Definition moving_peak_rule : constraint :=
  fun a => current_month_peak state <=?q P_peak a.

Definition batt_init_rule : list constraint :=
  if has_battery then [fun a => SoC_batt a 0 =?q battery_soc state] else [].

Definition batt_dynamics_rule (t : nat) : option constraint :=
  match t with
  | O => None
  | S t' =>
      if has_battery
      then Some (fun a => SoC_batt a t =?q
             SoC_batt a t' - P_batt a t' * delta_t config / battery_capacity config)
      else None
  end.

(** ** Tariff *)

Definition energy_cap : bool := String.eqb (tariff_type config) "energy_cap".

Definition horizon_kwh (a : assignment) : Q :=
  sum_B (fun b => Qsum (map (fun t => P_charge a b t * delta_t config) (seq 0 model_T))).

(** [under * min(kwh, cap) + over * max(0, kwh - cap)]: what [kwh] cost in total. *)
Definition cap_cost (cap under over kwh : Q) : Q :=
  under * pymin kwh cap + over * pymax 0 (kwh - cap).

Definition tariff_constraints (cap : Q) : list constraint :=
  [ (fun a => (0 <=?q total_kwh_period a) && (0 <=?q kwh_under a) && (0 <=?q kwh_over a));
    (fun a => total_kwh_period a =?q cumulative_kwh_period state + horizon_kwh a);
    (fun a => kwh_under a + kwh_over a =?q total_kwh_period a);
    (fun a => kwh_under a <=?q cap) ].

Definition energy_cost (a : assignment) : Q :=
  Qsum (map (fun t => price t * P_grid a t * delta_t config) (seq 0 model_T)).

Definition precond_penalty (a : assignment) : Q :=
  M_PRECOND * Qsum (map (precond_slack a) (seq 0 model_T)).

(** The tariff branch: its constraints and the tariff term of the objective. *)
Definition tariff_branch : result opt_error (list constraint * (assignment -> Q)) :=
  if energy_cap then
    match energy_cap_kwh config, under_cap_rate_per_kwh config,
          over_cap_penalty_per_kwh config with
    | Some cap, Some under, Some over =>
        let fixed_energy_cap_cost := cap_cost cap under over (cumulative_kwh_period state) in
        Ok (tariff_constraints cap,
            fun a => under * kwh_under a + over * kwh_over a - fixed_energy_cap_cost)
    | _, _, _ => Err ValueError
    end
  else Ok ([], fun a => demand_charge_rate state * P_peak a).

(** ** Building the model *)

(** The built-in exceptions the construction lets through once the inputs
    are validated, in the order the statements run. *)
Definition construction_raises : result opt_error unit :=
  (* m.SoC[b, 0] does not exist when the horizon is empty *)
  let? _ := raise_if ((model_T =? 0)%nat && existsb (fun b => negb (is_incoming b)) model_B)
              KeyError in
  (* arrival timestep of the incoming vehicles *)
  let? _ := rfor (fun iv => timestep_raises (iv_arrival_time iv)) (incoming_vehicles state) in
  (* SoC dynamics: division by the vehicle's capacity *)
  let? _ := raise_if ((1 <? model_T)%nat && existsb (fun b => E_batt b =?q 0) model_B)
              ZeroDivisionError in
  (* state.vehicle_availability[b][0] *)
  let? _ := raise_if (model_T =? 0)%nat IndexError in
  (* m.SoC[b, t_depart] with a negative departure timestep *)
  let? _ := raise_if (existsb (fun b => match departs_in_horizon b with
                                        | Some t => (t <? 0)%Z
                                        | None => false
                                        end) model_B) KeyError in
  (* preconditioning windows *)
  let? _ := rfor (fun req => match pr_start_time req, pr_end_time req with
                             | Some s, Some e =>
                                 let? _ := timestep_raises s in timestep_raises e
                             | _, _ => Ok tt
                             end) (preconditioning_requests state) in
  (* grid balance: division by the battery efficiency *)
  raise_if (battery_efficiency config =?q 0) ZeroDivisionError.

Definition model_families (tariff : list constraint) : dict string (list constraint) :=
  let n := model_T in
  let B := model_B in
  [ ("P_charge", over_BT B n P_charge_bounds);
    ("SoC", over_BT B n SoC_bounds);
    ("y_charge", over_BT B n y_charge_domain);
    ("P_grid", over_T n P_grid_domain);
    ("P_peak", [fun a => 0 <=?q P_peak a]);
    ("P_batt", over_T n P_batt_bounds);
    ("SoC_batt", over_T n SoC_batt_bounds);
    ("soc_init_con", over_B B soc_init_rule);
    ("incoming_vehicle_soc", over_B B incoming_vehicle_soc_rule);
    ("soc_dynamics", over_BT B n soc_dynamics_rule);
    ("availability_con", over_BT B n availability_rule);
    ("on_route_fix", over_B B on_route_fix);
    ("departure_soc_min", over_B B departure_soc_min_rule);
    ("departure_soc_max", over_B B departure_soc_max_rule);
    ("charger_link", over_BT B n charger_link_rule);
    ("charger_count", over_T n charger_count_rule);
    ("charger_power", over_T n charger_power_rule);
    ("symmetry_break", symmetry_break);
    ("P_batt_split", over_T n batt_split_bounds);
    ("batt_split", over_T n batt_split_rule);
    ("P_precond", over_T n precond_domain);
    ("precond_constraint", over_T n precond_rule);
    ("grid_balance", over_T n grid_balance_rule);
    ("site_power_limit", over_T n site_power_limit_rule);
    ("peak_tracking", over_T n peak_tracking_rule);
    ("moving_peak", [moving_peak_rule]);
    ("batt_init", batt_init_rule);
    ("batt_dynamics", over_T n batt_dynamics_rule);
    ("tariff", tariff) ].

Definition build_optimization_model : result opt_error milp :=
  let? _ := _validate_inputs state config in
  let? _ := construction_raises in
  let? branch := tariff_branch in
  let '(tariff, tariff_cost) := branch in
  Ok {| m_T := model_T;
        m_B := model_B;
        m_families := model_families tariff;
        m_objective := fun a => energy_cost a + tariff_cost a + precond_penalty a |}.

(** [_validate_solution]: the departure check on the solved model. *)
Definition _validate_solution (m : milp) (a : assignment) : result opt_error unit :=
  rfor (fun b =>
    match departs_in_horizon b with
    | Some t =>
        raise_if (SoC a b (Z.to_nat t) <?q departure_soc_min_of b)
          (ConstraintViolationError "departure_soc" b)
    | None => Ok tt
    end) (m_B m).
End Model.
