(* ===== verification/MilpFacts.v ===== *)
(** * Correctness of the MILP charging model

    What every feasible assignment of the model built by
    [build_optimization_model] guarantees: the grid and charger limits, the
    energy each vehicle receives before it departs, the treatment of depots
    without a battery, the energy-cap tariff, and that the symmetry-breaking
    constraints cost nothing. *)

From S2P Require Import Prelude Models Milp.
From Stdlib Require Import ZArith QArith Lqa Lia.
From stdpp Require Import base list strings gmap.

#[local] Open Scope Q_scope.

(** ** Reading constraints off a feasible assignment *)

Lemma holds_all_family fams a name cs c :
  holds_all fams a = true -> fams @? name = Some cs -> c ∈ cs -> c a = true.
Proof.
  intros Hf Hn Hc. apply dget_Some_in in Hn.
  apply (forallb_elem _ _ _ Hf) in Hn. by apply (forallb_elem _ _ _ Hn) in Hc.
Qed.

Lemma elem_over_BT B n rule b t c :
  b ∈ B -> (t < n)%nat -> rule b t = Some c -> c ∈ over_BT B n rule.
Proof.
  intros Hb Ht Hc. apply list_elem_of_bind. exists b. split; [|done].
  apply elem_of_omap_intro with t; [by apply elem_of_seq_0 | done].
Qed.

Lemma elem_over_T n rule t c :
  (t < n)%nat -> rule t = Some c -> c ∈ over_T n rule.
Proof. intros Ht Hc. apply elem_of_omap_intro with t; [by apply elem_of_seq_0 | done]. Qed.

Lemma elem_over_B B rule b c : b ∈ B -> rule b = Some c -> c ∈ over_B B rule.
Proof. apply elem_of_omap_intro. Qed.

#[export] Hint Resolve elem_over_BT elem_over_T elem_over_B : milp.

(** Reflect conjunctions of float tests. *)
Ltac qsplit :=
  unfold in_bounds in *;
  repeat match goal with
  | H : (_ && _)%bool = true |- _ => apply andb_true_iff in H as [? ?]
  | |- (_ && _)%bool = true => apply andb_true_iff; split
  end; qbool.

Lemma build_Ok state config hs m :
  build_optimization_model state config hs = Ok m ->
  _validate_inputs state config = Ok tt /\
  construction_raises state config hs = Ok tt /\
  exists tariff tc,
    tariff_branch state config = Ok (tariff, tc) /\
    m = {| m_T := n_timesteps config; m_B := model_B state;
           m_families := model_families state config hs tariff;
           m_objective := fun a => energy_cost state config a + tc a
                                   + precond_penalty config a |}.
Proof.
  unfold build_optimization_model. intros H.
  apply rbind_Ok in H as ([] & Hv & H). apply rbind_Ok in H as ([] & Hc & H).
  apply rbind_Ok in H as ([tariff tc] & Ht & H). injection H as <-.
  eauto 10.
Qed.

(** What [_validate_inputs] establishes. *)
Lemma same_keys_spec {V W} (d : dict string V) (e : dict string W) :
  same_keys d e = true -> forall k, k ∈ dkeys d <-> k ∈ dkeys e.
Proof.
  unfold same_keys. rewrite bool_decide_eq_true. intros Heq k.
  rewrite <- !(elem_of_list_to_set (C := gset string)). by rewrite Heq.
Qed.

Record valid_inputs (state : DepotState) (config : DepotConfig) : Prop := {
  vi_nonempty : vehicle_socs state <> [];
  vi_prices : length (prices state) = n_timesteps config;
  vi_building : length (building_power state) = n_timesteps config;
  vi_avail_keys : forall k, k ∈ dkeys (vehicle_socs state)
                            <-> k ∈ dkeys (vehicle_availability state);
  vi_avail_len : forall k av, (k, av) ∈ vehicle_availability state ->
                              length av = n_timesteps config;
  vi_cap_keys : forall k, k ∈ dkeys (vehicle_socs state)
                          <-> k ∈ dkeys (vehicle_capacities config);
  vi_groups : charger_groups config <> [];
  vi_group_pos : forall kw n, (kw, n) ∈ charger_groups config -> 0 < kw /\ (0 < n)%Z;
  vi_site : 0 < max_site_power config;
  vi_eff : 0 < charger_efficiency config /\ charger_efficiency config <= 1;
  vi_batt_cap : 0 <= battery_capacity config;
  vi_batt_pow : 0 <= battery_power config
}.

Lemma validate_inputs_Ok state config :
  _validate_inputs state config = Ok tt -> valid_inputs state config.
Proof.
  unfold _validate_inputs. intros H.
  repeat (apply rbind_Ok in H as ([] & ?H & H)).
  repeat match goal with
  | H : raise_if _ _ = Ok _ |- _ => apply raise_if_Ok in H
  | H : negb _ = false |- _ => apply negb_false_iff in H
  | H : (_ =? _)%nat = true |- _ => apply Nat.eqb_eq in H
  | H : (_ && _)%bool = true |- _ => apply andb_true_iff in H as [? ?]
  end; qbool.
  constructor; auto using same_keys_spec.
  - by destruct (vehicle_socs state).
  - intros k av Hin. pose proof (rfor_Ok _ _ _ H4 _ Hin) as Hr. cbn in Hr.
    apply raise_if_Ok in Hr. apply negb_false_iff, Nat.eqb_eq in Hr. done.
  - by destruct (charger_groups config).
  - intros kw n Hin. pose proof (rfor_Ok _ _ _ H7 _ Hin) as Hr. cbn in Hr.
    apply rbind_Ok in Hr as ([] & Hkw & Hn). apply raise_if_Ok in Hkw, Hn.
    qbool. split; [lra|lia].
Qed.

(** ** What a successful construction establishes *)

Section Built.
Context (state : DepotState) (config : DepotConfig) (hs : datetime) (m : milp).
Hypothesis Hbuild : build_optimization_model state config hs = Ok m.

Lemma build_m_T : m_T m = n_timesteps config.
Proof. by destruct (build_Ok _ _ _ _ Hbuild) as (_ & _ & ? & ? & _ & ->). Qed.

Lemma build_m_B : m_B m = dkeys (vehicle_socs state).
Proof. by destruct (build_Ok _ _ _ _ Hbuild) as (_ & _ & ? & ? & _ & ->). Qed.

Lemma build_valid : valid_inputs state config.
Proof. apply validate_inputs_Ok. by destruct (build_Ok _ _ _ _ Hbuild). Qed.

Lemma build_nonzero :
  (0 < n_timesteps config)%nat /\
  (forall b, b ∈ m_B m -> (1 < n_timesteps config)%nat -> ~ E_batt config b == 0) /\
  (forall b t, b ∈ m_B m -> departs_in_horizon state config b = Some t -> (0 <= t)%Z) /\
  ~ battery_efficiency config == 0.
Proof.
  rewrite build_m_B. destruct (build_Ok _ _ _ _ Hbuild) as (_ & Hc & _).
  unfold construction_raises, model_T, model_B in Hc.
  repeat (apply rbind_Ok in Hc as ([] & ?H & Hc)).
  repeat match goal with H : raise_if _ _ = Ok _ |- _ => apply raise_if_Ok in H end.
  split_and!.
  - destruct (n_timesteps config); [discriminate | lia].
  - intros b Hb Hn Heq. apply Qeqb_eq in Heq.
    assert (existsb (fun b => E_batt config b =?q 0) (dkeys (vehicle_socs state)) = true) as Hx.
    { apply existsb_exists. exists b. by rewrite <- list_elem_of_In. }
    rewrite Hx, andb_true_r in H1. apply Nat.ltb_ge in H1. lia.
  - intros b t Hb Ht. destruct (decide (0 <= t)%Z) as [|Hneg]; [done|]. exfalso.
    apply not_true_iff_false in H3. apply H3. apply existsb_exists.
    exists b. rewrite <- list_elem_of_In, Ht. split; [done | lia].
  - by apply Qeqb_neq.
Qed.

End Built.

(** ** Consequences of feasibility

    Everything but the symmetry-breaking family: the facts below need no more,
    so they also hold in the model without symmetry breaking. *)

Definition feasible_relaxed (m : milp) (a : assignment) : bool :=
  holds_all (dpop "symmetry_break" (m_families m)) a.

Lemma holds_all_dpop name fams a :
  holds_all fams a = true -> holds_all (dpop name fams) a = true.
Proof.
  intros H. apply forallb_intro. intros [k cs] Hin.
  apply elem_of_dpop in Hin as [Hin _]. apply (forallb_elem _ _ _ H Hin).
Qed.

Lemma feasible_is_relaxed m a : feasible m a = true -> feasible_relaxed m a = true.
Proof. apply holds_all_dpop. Qed.

#[export] Hint Resolve feasible_is_relaxed : milp.

Section Rules.
Context (state : DepotState) (config : DepotConfig) (hs : datetime) (m : milp) (a : assignment).
Hypothesis Hbuild : build_optimization_model state config hs = Ok m.
Hypothesis Hfeas : feasible_relaxed m a = true.

Notation B := (dkeys (vehicle_socs state)).
Notation n := (n_timesteps config).

Lemma fam_holds name cs c :
  name <> "symmetry_break" ->
  (forall tariff, model_families state config hs tariff @? name = Some cs) ->
  c ∈ cs -> c a = true.
Proof.
  intros Hne Hget Hc. destruct (build_Ok _ _ _ _ Hbuild) as (_ & _ & tariff & tc & _ & Hm).
  unfold feasible_relaxed in Hfeas. rewrite Hm in Hfeas. cbn [m_families] in Hfeas.
  eapply holds_all_family; [exact Hfeas | | exact Hc].
  rewrite dget_dpop_ne by done. apply Hget.
Qed.

Lemma fam_BT name rule b t c :
  name <> "symmetry_break" ->
  (forall tariff, model_families state config hs tariff @? name = Some (over_BT B n rule)) ->
  b ∈ B -> (t < n)%nat -> rule b t = Some c -> c a = true.
Proof. intros Hne Hget Hb Ht Hc. eapply fam_holds; eauto with milp. Qed.

Lemma fam_T name rule t c :
  name <> "symmetry_break" ->
  (forall tariff, model_families state config hs tariff @? name = Some (over_T n rule)) ->
  (t < n)%nat -> rule t = Some c -> c a = true.
Proof. intros Hne Hget Ht Hc. eapply fam_holds; eauto with milp. Qed.

Lemma fam_B name rule b c :
  name <> "symmetry_break" ->
  (forall tariff, model_families state config hs tariff @? name = Some (over_B B rule)) ->
  b ∈ B -> rule b = Some c -> c a = true.
Proof. intros Hne Hget Hb Hc. eapply fam_holds; eauto with milp. Qed.

Ltac use_BT nm b t H :=
  epose proof (fam_BT nm _ b t _ ltac:(done) (fun _ => eq_refl)
                 ltac:(eassumption) ltac:(eassumption) eq_refl) as H; cbn in H; qsplit.
Ltac use_T nm t H :=
  epose proof (fam_T nm _ t _ ltac:(done) (fun _ => eq_refl)
                 ltac:(eassumption) eq_refl) as H; cbn in H; qsplit.

Lemma rule_P_charge b t : b ∈ B -> (t < n)%nat ->
  0 <= P_charge a b t /\ P_charge a b t <= max_kw config b.
Proof. intros Hb Ht. use_BT "P_charge" b t H. lra. Qed.

Lemma rule_SoC b t : b ∈ B -> (t < n)%nat ->
  1 # 10 <= SoC a b t /\ SoC a b t <= 1.
Proof. intros Hb Ht. use_BT "SoC" b t H. lra. Qed.

Lemma rule_y b t : b ∈ B -> (t < n)%nat -> y_charge a b t == 0 \/ y_charge a b t == 1.
Proof.
  intros Hb Ht. use_BT "y_charge" b t H. apply orb_true_iff in H as [H|H]; qbool; auto.
Qed.

Lemma rule_link b t : b ∈ B -> (t < n)%nat ->
  P_charge a b t <= max_kw config b * y_charge a b t.
Proof. intros Hb Ht. use_BT "charger_link" b t H. done. Qed.

Lemma rule_count t : (t < n)%nat ->
  sum_B state (fun b => y_charge a b t) <= inject_Z (total_chargers config).
Proof. intros Ht. use_T "charger_count" t H. done. Qed.

Lemma rule_grid t : (t < n)%nat ->
  0 <= P_grid a t /\ P_grid a t == site_load state config a t /\
  P_grid a t <= max_site_power config /\ P_grid a t <= P_peak a.
Proof.
  intros Ht. use_T "P_grid" t H1. use_T "grid_balance" t H2.
  use_T "site_power_limit" t H3. use_T "peak_tracking" t H4. done.
Qed.

Lemma rule_peak : current_month_peak state <= P_peak a.
Proof.
  apply Qleb_le.
  by apply (fam_holds "moving_peak" _ (moving_peak_rule state)
              ltac:(done) (fun _ => eq_refl)); left.
Qed.

Lemma rule_soc_step b t : b ∈ B -> (S t < n)%nat ->
  SoC a b (S t) == SoC a b t
    + charger_efficiency config * P_charge a b t * delta_t config / E_batt config b.
Proof. intros Hb Ht. use_BT "soc_dynamics" b (S t) H. done. Qed.

Lemma rule_soc_init b : b ∈ B -> is_incoming state b = false ->
  SoC a b 0 == soc_init state b.
Proof.
  intros Hb Hi. apply Qeqb_eq.
  refine (fam_B "soc_init_con" _ b (fun a => SoC a b 0 =?q soc_init state b)
            ltac:(done) (fun _ => eq_refl) Hb _).
  unfold soc_init_rule. by rewrite Hi.
Qed.

Lemma rule_unavailable b t : b ∈ B -> (t < n)%nat ->
  available state b t = false -> P_charge a b t == 0.
Proof.
  intros Hb Ht Hav. apply Qeqb_eq.
  refine (fam_BT "availability_con" _ b t (fun a => P_charge a b t =?q 0)
            ltac:(done) (fun _ => eq_refl) Hb Ht _).
  unfold availability_rule. by rewrite Hav.
Qed.

Lemma rule_departure b t : b ∈ B -> departs_in_horizon state config b = Some t ->
  departure_soc_min_of state b <= SoC a b (Z.to_nat t).
Proof.
  intros Hb Hd. apply Qleb_le.
  refine (fam_B "departure_soc_min" _ b
            (fun a => departure_soc_min_of state b <=?q SoC a b (Z.to_nat t))
            ltac:(done) (fun _ => eq_refl) Hb _).
  unfold departure_soc_min_rule. by rewrite Hd.
Qed.

Lemma rule_batt t : (t < n)%nat ->
  P_batt a t == P_batt_discharge a t - P_batt_charge a t /\
  0 <= P_batt_discharge a t <= batt_power config /\
  0 <= P_batt_charge a t <= batt_power config /\
  2 # 10 <= SoC_batt a t <= 8 # 10.
Proof.
  intros Ht. use_T "batt_split" t HA. use_T "P_batt_split" t HB. use_T "SoC_batt" t HC. done.
Qed.

Lemma rule_batt_init : has_battery config = true -> SoC_batt a 0 == battery_soc state.
Proof.
  intros Hb. apply Qeqb_eq.
  refine (fam_holds "batt_init" _ (fun a => SoC_batt a 0 =?q battery_soc state)
            ltac:(done) (fun _ => eq_refl) _).
  unfold batt_init_rule. rewrite Hb. left.
Qed.

Lemma rule_batt_step t : has_battery config = true -> (S t < n)%nat ->
  SoC_batt a (S t) ==
    SoC_batt a t - P_batt a t * delta_t config / battery_capacity config.
Proof.
  intros Hb Ht. apply Qeqb_eq.
  refine (fam_T "batt_dynamics" _ (S t) (fun a => SoC_batt a (S t) =?q
            SoC_batt a t - P_batt a t * delta_t config / battery_capacity config)
            ltac:(done) (fun _ => eq_refl) Ht _).
  unfold batt_dynamics_rule. by rewrite Hb.
Qed.

(** The state of charge at [t] is the initial one plus what was charged. *)
Lemma soc_telescope b t : b ∈ B -> (t < n)%nat ->
  SoC a b t == SoC a b 0 + charger_efficiency config * delta_t config / E_batt config b
                           * Qsum (map (P_charge a b) (seq 0 t)).
Proof.
  intros Hb. induction t as [|t IH]; intros Ht.
  - cbn. ring.
  - rewrite rule_soc_step, IH by (done || lia).
    rewrite seq_S, map_app, Qsum_app. cbn. unfold Qdiv. ring.
Qed.

Lemma batt_telescope t : has_battery config = true -> (t < n)%nat ->
  SoC_batt a t == battery_soc state
    - Qsum (map (P_batt a) (seq 0 t)) * delta_t config / battery_capacity config.
Proof.
  intros Hb. induction t as [|t IH]; intros Ht.
  - cbn. rewrite rule_batt_init by done. unfold Qdiv. ring.
  - rewrite rule_batt_step, IH by (done || lia).
    rewrite seq_S, map_app, Qsum_app. cbn. unfold Qdiv. ring.
Qed.
End Rules.

(** ** A small depot, for witnesses *)

Definition ex_config : DepotConfig :=
  {| vehicle_capacities := [("bus_1", 100); ("bus_2", 100)];
     vehicle_max_charge_kw := [("bus_1", 50); ("bus_2", 50)];
     charger_groups := [(50, 2%Z)];
     charger_efficiency := 1;
     charger_vehicle_access := [];
     battery_capacity := 100; battery_power := 10; battery_efficiency := 1;
     battery_soc_min := 2 # 10; battery_soc_max := 8 # 10;
     max_site_power := 100; building_load_assumption_kw := 0;
     delta_t := 1; n_timesteps := 2;
     charger_vehicle_access_default := "all_to_all";
     tariff_type := "energy_cap";
     energy_cap_kwh := Some 40; under_cap_rate_per_kwh := Some (1 # 10);
     over_cap_penalty_per_kwh := Some 1; cap_billing_period := "monthly" |}.

Definition ex_state : DepotState :=
  {| vehicle_socs := [("bus_1", 1 # 2); ("bus_2", 9 # 10)];
     battery_soc := 1 # 2;
     prices := [1 # 5; 1 # 5];
     demand_charge_rate := 10;
     current_month_peak := 30;
     vehicle_availability := [("bus_1", [true; true]); ("bus_2", [true; false])];
     energy_requirements := []; departure_times := [("bus_1", 1%Z)];
     building_power := [5; 5];
     incoming_vehicles := [];
     vehicle_departure_soc_min := [("bus_1", 9 # 10)];
     vehicle_departure_soc_max := [];
     vehicle_priorities := []; preconditioning_requests := [];
     cumulative_kwh_period := 0 |}.

(** [bus_1] draws 45 kW in the first hour while the battery gives 5 kW. *)
Definition ex_plan (y : Q) : assignment :=
  {| P_charge := fun b t => if (String.eqb b "bus_1" && (t =? 0)%nat)%bool then 45 else 0;
     SoC := fun b t => if String.eqb b "bus_1" then (if (t =? 0)%nat then 1 # 2 else 95 # 100)
                       else 9 # 10;
     y_charge := fun b t => if (String.eqb b "bus_1" && (t =? 0)%nat)%bool then y else 0;
     P_grid := fun t => if (t =? 0)%nat then 45 else 5;
     P_peak := 45;
     P_batt := fun t => if (t =? 0)%nat then 5 else 0;
     SoC_batt := fun t => if (t =? 0)%nat then 1 # 2 else 45 # 100;
     P_batt_discharge := fun t => if (t =? 0)%nat then 5 else 0;
     P_batt_charge := fun _ => 0;
     P_precond := fun _ => 0; precond_slack := fun _ => 0;
     total_kwh_period := 45; kwh_under := 40; kwh_over := 5 |}.

Definition model_or (r : result opt_error milp) : milp :=
  match r with
  | Ok m => m
  | Err _ => {| m_T := 0; m_B := []; m_families := []; m_objective := fun _ => 0 |}
  end.

Lemma model_or_ok r : is_ok r = true -> r = Ok (model_or r).
Proof. by destruct r. Qed.

Definition ex_model : milp := model_or (build_optimization_model ex_state ex_config (aware_utc 0)).

Lemma ex_model_ok : build_optimization_model ex_state ex_config (aware_utc 0) = Ok ex_model.
Proof. apply model_or_ok. vm_compute. reflexivity. Qed.

Lemma ex_plan_feasible : feasible ex_model (ex_plan 1) = true.
Proof. vm_compute. reflexivity. Qed.

(** ** Site limits *)


(** ** Energy before departure *)

(** In every feasible plan, a vehicle that is not incoming and departs at timestep t has
    been charged, over the steps before t and net of charger losses, at least the energy
    between its initial state of charge and its departure minimum. *)
Theorem departure_energy_delivered state config hs m a b t :
  build_optimization_model state config hs = Ok m ->
  feasible m a = true ->
  b ∈ m_B m ->
  is_incoming state b = false ->
  departs_in_horizon state config b = Some t ->
  0 < E_batt config b ->
  (departure_soc_min_of state b - soc_init state b) * E_batt config b
  <= charger_efficiency config * delta_t config
     * Qsum (map (P_charge a b) (seq 0 (Z.to_nat t))).
Proof.
  intros Hb Hf%feasible_is_relaxed Hin Hinc Hd HE.
  destruct (build_nonzero _ _ _ _ Hb) as (_ & _ & Hneg & _).
  specialize (Hneg b t Hin Hd). rewrite (build_m_B _ _ _ _ Hb) in Hin.
  assert (Z.to_nat t < n_timesteps config)%nat as Ht.
  { unfold departs_in_horizon in Hd. case_match; [|done]. case_match; simplify_eq.
    unfold model_T in *. lia. }
  pose proof (rule_departure _ _ _ _ _ Hb Hf b t Hin Hd) as Hdep.
  rewrite (soc_telescope _ _ _ _ _ Hb Hf b _ Hin Ht) in Hdep.
  rewrite (rule_soc_init _ _ _ _ _ Hb Hf b Hin Hinc) in Hdep.
  set (S := Qsum _) in *. set (c := charger_efficiency config * delta_t config) in *.
  assert (departure_soc_min_of state b - soc_init state b <= c / E_batt config b * S) as H by lra.
  apply (Qmult_le_compat_r _ _ (E_batt config b)) in H; [|lra].
  assert (c / E_batt config b * S * E_batt config b == c * S) as Heq by (field; lra).
  by rewrite Heq in H.
Qed.

(** ** Charger count *)

Lemma count_le_sum (p : string -> bool) (y : string -> Q) l :
  (forall b, b ∈ l -> y b == 0 \/ y b == 1) ->
  (forall b, b ∈ l -> p b = true -> y b == 1) ->
  inject_Z (Z.of_nat (length (List.filter p l))) <= Qsum (map y l).
Proof.
  induction l as [|b l IH]; intros H01 Hp; [apply Qle_refl|]. cbn [List.filter map Qsum].
  assert (inject_Z (Z.of_nat (length (List.filter p l))) <= Qsum (map y l)) as IH'.
  { apply IH; intros; [apply H01 | apply Hp]; (done || by right). }
  destruct (p b) eqn:E.
  - cbn [length]. rewrite Nat2Z.inj_succ, <- Z.add_1_r, inject_Z_plus, (Hp b) by (done || left).
    change (inject_Z 1) with 1. lra.
  - destruct (H01 b) as [->| ->]; [left | lra | lra].
Qed.

(** In every feasible plan and timestep, at most as many vehicles draw power as there
    are chargers, and a vehicle that is away draws none. *)
Theorem charging_vehicles_bounded state config hs m a t :
  build_optimization_model state config hs = Ok m ->
  feasible m a = true ->
  (t < n_timesteps config)%nat ->
  (Z.of_nat (length (List.filter (fun b => 0 <?q P_charge a b t) (m_B m)))
   <= n_chargers config)%Z /\
  forall b, b ∈ m_B m -> available state b t = false -> P_charge a b t == 0.
Proof.
  intros Hb Hf%feasible_is_relaxed Ht. rewrite (build_m_B _ _ _ _ Hb).
  split; [|eauto using rule_unavailable].
  rewrite Zle_Qle. eapply Qle_trans; [|apply (rule_count _ _ _ _ _ Hb Hf t Ht)].
  apply count_le_sum; intros b Hin.
  - eapply rule_y; eauto.
  - intros Hp%Qltb_lt. destruct (rule_y _ _ _ _ _ Hb Hf b t Hin Ht) as [Hy|Hy]; [|done].
    pose proof (rule_link _ _ _ _ _ Hb Hf b t Hin Ht) as Hl. rewrite Hy in Hl. lra.
Qed.

(** ** Symmetry breaking costs nothing *)

(** The same plan with every available vehicle marked as charging. *)
Definition mark_available (state : DepotState) (a : assignment) : assignment :=
  {| P_charge := P_charge a; SoC := SoC a;
     y_charge := fun b t => if available state b t then 1 else 0;
     P_grid := P_grid a; P_peak := P_peak a; P_batt := P_batt a; SoC_batt := SoC_batt a;
     P_batt_discharge := P_batt_discharge a; P_batt_charge := P_batt_charge a;
     P_precond := P_precond a; precond_slack := precond_slack a;
     total_kwh_period := total_kwh_period a; kwh_under := kwh_under a;
     kwh_over := kwh_over a |}.

Definition all_hold (cs : list constraint) (a : assignment) : bool :=
  forallb (fun c : constraint => c a) cs.

Lemma all_hold_BT B n rule (a : assignment) :
  (forall b t c, b ∈ B -> (t < n)%nat -> rule b t = Some c -> c a = true) ->
  all_hold (over_BT B n rule) a = true.
Proof.
  intros H. apply forallb_intro. intros c Hc.
  apply list_elem_of_bind in Hc as (b & Hc & Hb).
  apply list_elem_of_omap in Hc as (t & Ht & Hc). apply elem_of_seq_0 in Ht. eauto.
Qed.

Lemma all_hold_T n rule (a : assignment) :
  (forall t c, (t < n)%nat -> rule t = Some c -> c a = true) ->
  all_hold (over_T n rule) a = true.
Proof.
  intros H. apply forallb_intro. intros c Hc.
  apply list_elem_of_omap in Hc as (t & Ht & Hc). apply elem_of_seq_0 in Ht. eauto.
Qed.

Lemma all_hold_B B rule (a : assignment) :
  (forall b c, b ∈ B -> rule b = Some c -> c a = true) ->
  all_hold (over_B B rule) a = true.
Proof.
  intros H. apply forallb_intro. intros c Hc.
  apply list_elem_of_omap in Hc as (b & Hb & Hc). eauto.
Qed.

(** A plan that differs from a feasible one only in its charging indicators
    passes every family that does not read them. *)
Lemma holds_all_cons name cs fams a :
  holds_all ((name, cs) :: fams) a = (all_hold cs a && holds_all fams a)%bool.
Proof. done. Qed.

Lemma all_hold_transfer cs a a' :
  (forall c, c ∈ cs -> c a = true -> c a' = true) ->
  all_hold cs a = true -> all_hold cs a' = true.
Proof.
  intros H Hcs. apply forallb_intro. intros c Hc.
  apply H; [done|]. by apply (forallb_elem _ _ _ Hcs Hc).
Qed.

Section Symmetry.
Context (state : DepotState) (config : DepotConfig) (hs : datetime) (m : milp) (a : assignment).
Hypothesis Hbuild : build_optimization_model state config hs = Ok m.
Hypothesis Hfeas : feasible_relaxed m a = true.
Hypothesis Hfits : (Z.of_nat (length (m_B m)) <= n_chargers config)%Z.

Notation B := (dkeys (vehicle_socs state)).
Notation n := (n_timesteps config).
Notation a' := (mark_available state a).

Lemma mark_y b t : y_charge a' b t == 0 \/ y_charge a' b t == 1.
Proof. cbn. destruct (available state b t); auto with qarith. Qed.

Lemma mark_y_domain : all_hold (over_BT B n y_charge_domain) a' = true.
Proof.
  apply all_hold_BT. intros b t c _ _ H. injection H as <-.
  apply orb_true_iff. destruct (mark_y b t); [left|right]; by apply Qeqb_eq.
Qed.

Lemma mark_link : all_hold (over_BT B n (charger_link_rule config)) a' = true.
Proof.
  apply all_hold_BT. intros b t c Hb Ht H. injection H as <-. apply Qleb_le. cbn.
  destruct (available state b t) eqn:E.
  - pose proof (rule_P_charge _ _ _ _ _ Hbuild Hfeas b t Hb Ht). lra.
  - rewrite (rule_unavailable _ _ _ _ _ Hbuild Hfeas b t Hb Ht E). lra.
Qed.

Lemma mark_on_route : all_hold (over_B B (on_route_fix state)) a' = true.
Proof.
  apply all_hold_B. intros b c Hb H. unfold on_route_fix in H.
  destruct (available state b 0) eqn:E; [done|]. injection H as <-. cbn.
  destruct (build_nonzero _ _ _ _ Hbuild) as (Hn & _). rewrite E.
  apply andb_true_iff. split; [|done].
  apply Qeqb_eq. by eapply (rule_unavailable _ _ _ _ _ Hbuild Hfeas b 0).
Qed.

Lemma Qsum_le_length (f : string -> Q) l :
  (forall b, b ∈ l -> f b <= 1) -> Qsum (map f l) <= inject_Z (Z.of_nat (length l)).
Proof.
  induction l as [|b l IH]; intros H; [apply Qle_refl|]. cbn [map Qsum length].
  rewrite Nat2Z.inj_succ, <- Z.add_1_r, inject_Z_plus. change (inject_Z 1) with 1.
  assert (f b <= 1) by (apply H; left).
  assert (Qsum (map f l) <= inject_Z (Z.of_nat (length l))) by (apply IH; intros; apply H; by right).
  lra.
Qed.

Lemma mark_count : all_hold (over_T n (charger_count_rule state config)) a' = true.
Proof.
  apply all_hold_T. intros t c Ht H. injection H as <-. apply Qleb_le.
  eapply Qle_trans; [apply Qsum_le_length|].
  - intros b _. cbn. destruct (available state b t); lra.
  - rewrite <- Zle_Qle. by rewrite (build_m_B _ _ _ _ Hbuild) in Hfits.
Qed.

Lemma mark_symmetry : all_hold (symmetry_break state config) a' = true.
Proof.
  unfold symmetry_break. case_match; [|done]. apply forallb_intro. intros c Hc.
  apply list_elem_of_bind in Hc as ([i j] & Hc & _).
  apply list_elem_of_omap in Hc as (t & _ & Hc). cbn in Hc.
  destruct (available state i t) eqn:Ei, (available state j t) eqn:Ej; try done.
  injection Hc as <-. cbn. by rewrite Ei, Ej.
Qed.
End Symmetry.

(** A constraint that does not read what [g] changes in a plan. *)
Definition unaffected (g : assignment -> assignment) (c : constraint) : Prop :=
  forall a, c (g a) = c a.

Lemma unaffected_BT g B n rule :
  (forall b t c, rule b t = Some c -> unaffected g c) -> Forall (unaffected g) (over_BT B n rule).
Proof.
  intros H. apply Forall_forall. intros c Hc.
  apply list_elem_of_bind in Hc as (b & Hc & Hb).
  apply list_elem_of_omap in Hc as (t & Ht & Hc). eauto.
Qed.

Lemma unaffected_T g n rule :
  (forall t c, rule t = Some c -> unaffected g c) -> Forall (unaffected g) (over_T n rule).
Proof.
  intros H. apply Forall_forall. intros c Hc.
  apply list_elem_of_omap in Hc as (t & Ht & Hc). eauto.
Qed.

Lemma unaffected_B g B rule :
  (forall b c, rule b = Some c -> unaffected g c) -> Forall (unaffected g) (over_B B rule).
Proof.
  intros H. apply Forall_forall. intros c Hc.
  apply list_elem_of_omap in Hc as (t & Ht & Hc). eauto.
Qed.

#[export] Hint Unfold P_charge_bounds SoC_bounds P_grid_domain P_batt_bounds SoC_batt_bounds
  batt_split_bounds precond_domain soc_init_rule incoming_vehicle_soc_rule soc_dynamics_rule
  availability_rule departure_soc_min_rule departure_soc_max_rule charger_power_rule
  batt_split_rule precond_rule grid_balance_rule site_power_limit_rule peak_tracking_rule
  batt_dynamics_rule : milp_rules.

#[export] Hint Unfold y_charge_domain charger_link_rule charger_count_rule on_route_fix
  symmetry_break_rule : milp_rules.

(** Prove that no constraint of a family reads what [g] changes. *)
Ltac unaffected :=
  first [apply unaffected_BT | apply unaffected_T | apply unaffected_B | unfold batt_init_rule | idtac];
  intros; autounfold with milp_rules in *; repeat case_match; simplify_eq;
  repeat constructor; intros ?; reflexivity.

Lemma all_hold_unaffected g cs a :
  Forall (unaffected g) cs -> all_hold cs a = true -> all_hold cs (g a) = true.
Proof.
  intros Hfree. rewrite Forall_forall in Hfree. apply all_hold_transfer.
  intros c Hc. by rewrite (Hfree c Hc).
Qed.

Section Relaxation.
Context (state : DepotState) (config : DepotConfig) (hs : datetime) (m : milp) (a : assignment).
Hypothesis Hbuild : build_optimization_model state config hs = Ok m.
Hypothesis Hfeas : feasible_relaxed m a = true.
Hypothesis Hfits : (Z.of_nat (length (m_B m)) <= n_chargers config)%Z.

Lemma tariff_unaffected tariff tc :
  tariff_branch state config = Ok (tariff, tc) ->
  Forall (unaffected (mark_available state)) tariff.
Proof.
  unfold tariff_branch. intros Ht. repeat case_match; simplify_eq; [|constructor].
  repeat constructor; intros ?; reflexivity.
Qed.

Lemma mark_feasible : feasible m (mark_available state a) = true.
Proof.
  destruct (build_Ok _ _ _ _ Hbuild) as (_ & _ & tariff & tc & Ht & Hm).
  apply forallb_intro. intros [name cs] Hin.
  assert (name <> "symmetry_break" -> all_hold cs a = true) as Hold.
  { intros Hne. apply (forallb_elem _ _ (name, cs) Hfeas). by apply elem_of_dpop. }
  fold (all_hold cs (mark_available state a)).
  rewrite Hm in Hin. cbn [m_families] in Hin. unfold model_families in Hin.
  repeat (apply elem_of_cons in Hin as [Hin|Hin]; [injection Hin as -> ->|]);
    [..|by apply not_elem_of_nil in Hin].
  all: lazymatch goal with
    | |- all_hold (over_BT _ _ y_charge_domain) _ = _ => apply mark_y_domain
    | |- all_hold (over_BT _ _ (charger_link_rule _)) _ = _ => by eapply mark_link
    | |- all_hold (over_B _ (on_route_fix _)) _ = _ => by eapply mark_on_route
    | |- all_hold (over_T _ (charger_count_rule _ _)) _ = _ => by eapply mark_count
    | |- all_hold (symmetry_break _ _) _ = _ => eapply mark_symmetry
    | |- all_hold ?fam _ = _ =>
        apply all_hold_unaffected;
        [first [is_var fam; by eapply tariff_unaffected | unaffected] | by apply Hold]
    end.
Qed.
End Relaxation.

(** C4: When there are at least as many chargers as vehicles, every plan that is
    feasible without the symmetry-breaking constraints can be turned, by changing only
    the charging indicators, into one that is feasible with them at the same cost: the
    constraints exclude no optimum. *)
Theorem symmetry_breaking_lossless state config hs m a :
  build_optimization_model state config hs = Ok m ->
  feasible_relaxed m a = true ->
  (Z.of_nat (length (m_B m)) <= n_chargers config)%Z ->
  exists a', feasible m a' = true /\ m_objective m a' == m_objective m a /\
             P_charge a' = P_charge a /\ SoC a' = SoC a /\ P_grid a' = P_grid a /\
             P_batt a' = P_batt a.
Proof.
  intros Hb Hf Hn. exists (mark_available state a).
  split; [by eapply mark_feasible|]. split_and!; try done.
  destruct (build_Ok _ _ _ _ Hb) as (_ & _ & tariff & tc & Ht & ->). cbn.
  unfold tariff_branch in Ht. repeat case_match; simplify_eq; apply Qeq_refl.
Qed.

(** ** The stationary battery *)

Lemma no_battery_pinned config : has_battery config = false -> batt_power config == 0.
Proof. unfold batt_power. intros ->. apply Qeq_refl. Qed.

Theorem no_battery_no_dispatch state config hs m a t :
  build_optimization_model state config hs = Ok m ->
  feasible m a = true ->
  has_battery config = false ->
  (t < n_timesteps config)%nat ->
  P_batt a t == 0 /\
  P_grid a t == sum_B state (fun b => P_charge a b t) + building state t
                + building_load_assumption_kw config + P_precond a t.
Proof.
  intros Hb Hf%feasible_is_relaxed Hno Ht.
  destruct (rule_batt _ _ _ _ _ Hb Hf t Ht) as (Hsplit & Hd & Hc & _).
  destruct (rule_grid _ _ _ _ _ Hb Hf t Ht) as (_ & Hg & _).
  pose proof (no_battery_pinned _ Hno) as Hz. rewrite Hz in Hd, Hc.
  assert (P_batt_discharge a t == 0) as Hd0 by lra.
  assert (P_batt_charge a t == 0) as Hc0 by lra.
  split; [lra|]. rewrite Hg. unfold site_load, P_batt_effective.
  rewrite Hd0, Hc0. unfold Qdiv. ring.
Qed.

(** A depot whose battery is outside the hard-coded window [0.2, 0.8] has no
    feasible plan, whatever [battery_soc_min] and [battery_soc_max] say. *)
Theorem battery_outside_fixed_window_infeasible state config hs m a :
  build_optimization_model state config hs = Ok m ->
  has_battery config = true ->
  (battery_soc state <?q (2 # 10)) || ((8 # 10) <?q battery_soc state) = true ->
  feasible m a = false.
Proof.
  intros Hb Hbat Hout. apply not_true_iff_false. intros Hf%feasible_is_relaxed.
  destruct (build_nonzero _ _ _ _ Hb) as (Hn & _).
  destruct (rule_batt _ _ _ _ _ Hb Hf 0%nat Hn) as (_ & _ & _ & Hw).
  rewrite (rule_batt_init _ _ _ _ _ Hb Hf Hbat) in Hw.
  apply orb_true_iff in Hout as [H|H]; qbool; lra.
Qed.

(** With a stationary battery, its state of charge at step t in a feasible plan is the
    initial one minus the energy dispatched before t divided by its capacity, and power
    and state of charge stay within their bounds. *)
Theorem battery_energy_balance state config hs m a t :
  build_optimization_model state config hs = Ok m ->
  feasible m a = true ->
  has_battery config = true ->
  (t < n_timesteps config)%nat ->
  SoC_batt a t == battery_soc state
    - Qsum (map (P_batt a) (seq 0 t)) * delta_t config / battery_capacity config /\
  - batt_power config <= P_batt a t <= batt_power config /\
  2 # 10 <= SoC_batt a t <= 8 # 10.
Proof.
  intros Hb Hf%feasible_is_relaxed Hbat Ht.
  split; [by eapply batt_telescope|].
  destruct (rule_batt _ _ _ _ _ Hb Hf t Ht) as (Hs & Hd & Hc & Hw).
  split; [lra|done].
Qed.

(** ** The energy-cap tariff *)

Lemma feas_tariff state config hs m a cap under over :
  build_optimization_model state config hs = Ok m ->
  feasible m a = true ->
  energy_cap config = true ->
  energy_cap_kwh config = Some cap -> under_cap_rate_per_kwh config = Some under ->
  over_cap_penalty_per_kwh config = Some over ->
  0 <= kwh_under a /\ 0 <= kwh_over a /\ kwh_under a <= cap /\
  kwh_under a + kwh_over a == cumulative_kwh_period state + horizon_kwh state config a /\
  m_objective m a == energy_cost state config a
    + (under * kwh_under a + over * kwh_over a
       - cap_cost cap under over (cumulative_kwh_period state))
    + precond_penalty config a.
Proof.
  intros Hb Hf He Hcap Hu Ho. destruct (build_Ok _ _ _ _ Hb) as (_ & _ & tariff & tc & Ht & ->).
  unfold tariff_branch in Ht. rewrite He, Hcap, Hu, Ho in Ht. injection Ht as <- <-.
  assert (forall c, c ∈ tariff_constraints state config cap -> c a = true) as Hall.
  { intros c Hc. by apply (holds_all_family _ _ "tariff" _ c Hf eq_refl). }
  unfold tariff_constraints in Hall.
  pose proof (Hall _ ltac:(left)) as H1. pose proof (Hall _ ltac:(right; left)) as H2.
  pose proof (Hall _ ltac:(right; right; left)) as H3.
  pose proof (Hall _ ltac:(right; right; right; left)) as H4. clear Hall. cbn in H1, H2, H3, H4.
  qsplit. split_and!; [done..| |apply Qeq_refl]. lra.
Qed.

(** The cheapest split of [k] into an under-cap and an over-cap part costs
    [cap_cost]. *)
Lemma cap_cost_minimal cap under over u o :
  under <= over -> 0 <= o -> u <= cap ->
  cap_cost cap under over (u + o) <= under * u + over * o.
Proof.
  intros Hr Ho Hu. unfold cap_cost, pymin, pymax. repeat case_q; nra.
Qed.

(** The plan [a] with its energy split in the cheapest way. *)
Definition split_energy (state : DepotState) (config : DepotConfig) (cap : Q) (a : assignment)
  : assignment :=
  let total := cumulative_kwh_period state + horizon_kwh state config a in
  {| P_charge := P_charge a; SoC := SoC a; y_charge := y_charge a;
     P_grid := P_grid a; P_peak := P_peak a; P_batt := P_batt a; SoC_batt := SoC_batt a;
     P_batt_discharge := P_batt_discharge a; P_batt_charge := P_batt_charge a;
     P_precond := P_precond a; precond_slack := precond_slack a;
     total_kwh_period := total; kwh_under := pymin total cap;
     kwh_over := pymax 0 (total - cap) |}.

Lemma symmetry_unaffected state config g :
  (forall a, y_charge (g a) = y_charge a) ->
  Forall (unaffected g) (symmetry_break state config).
Proof.
  intros Hy. unfold symmetry_break. case_match; [|constructor].
  apply Forall_forall. intros c Hc.
  apply list_elem_of_bind in Hc as ([i j] & Hc & _).
  apply list_elem_of_omap in Hc as (t & _ & Hc). cbn in Hc. case_match; [|done].
  injection Hc as <-. intros a. by rewrite Hy.
Qed.

Lemma split_energy_feasible state config hs m a cap under over :
  build_optimization_model state config hs = Ok m ->
  feasible m a = true ->
  energy_cap config = true ->
  energy_cap_kwh config = Some cap -> under_cap_rate_per_kwh config = Some under ->
  over_cap_penalty_per_kwh config = Some over -> 0 <= cap ->
  feasible m (split_energy state config cap a) = true.
Proof.
  intros Hb Hf He Hcap Hu Ho Hpos.
  destruct (feas_tariff _ _ _ _ _ _ _ _ Hb Hf He Hcap Hu Ho) as (H1 & H2 & H3 & Hk & _).
  destruct (build_Ok _ _ _ _ Hb) as (_ & _ & tariff & tc & Ht & ->).
  unfold tariff_branch in Ht. rewrite He, Hcap, Hu, Ho in Ht. injection Ht as <- <-.
  apply forallb_intro. intros [name cs] Hin.
  pose proof (forallb_elem _ _ _ Hf Hin) as Hold. cbn in Hold.
  fold (all_hold cs a) in Hold. fold (all_hold cs (split_energy state config cap a)).
  unfold m_families, model_families in Hin.
  repeat (apply elem_of_cons in Hin as [Hin|Hin]; [injection Hin as -> ->|]);
    [..|by apply not_elem_of_nil in Hin].
  all: lazymatch goal with
  | |- all_hold (symmetry_break _ _) _ = _ =>
      apply all_hold_unaffected; [by apply symmetry_unaffected | done]
  | |- all_hold (tariff_constraints _ _ _) _ = _ => idtac
  | |- _ => apply all_hold_unaffected; [unaffected | done]
  end.
  set (total := cumulative_kwh_period state + horizon_kwh state config a) in *.
  assert (0 <= total) by lra.
  cbn. change (horizon_kwh state config (split_energy state config cap a))
    with (horizon_kwh state config a). fold total.
  repeat (apply andb_true_intro; split); qbool; try done.
  - by apply pymin_glb.
  - apply pymax_l.
  - unfold pymin, pymax. repeat case_q; lra.
  - apply pymin_r.
Qed.

(** Under an energy-cap tariff with the over-cap rate at least the under-cap rate, the
    objective of any feasible plan is at least its energy cost plus what its charging
    costs under the piecewise tariff plus the preconditioning penalty, and a feasible
    plan with the same charging attains exactly that. *)
Theorem energy_cap_cost_exact state config hs m a cap under over :
  build_optimization_model state config hs = Ok m ->
  feasible m a = true ->
  energy_cap config = true ->
  energy_cap_kwh config = Some cap -> under_cap_rate_per_kwh config = Some under ->
  over_cap_penalty_per_kwh config = Some over -> under <= over -> 0 <= cap ->
  let best := energy_cost state config a
    + (cap_cost cap under over (cumulative_kwh_period state + horizon_kwh state config a)
       - cap_cost cap under over (cumulative_kwh_period state))
    + precond_penalty config a in
  best <= m_objective m a /\
  exists a', feasible m a' = true /\ P_charge a' = P_charge a /\ P_grid a' = P_grid a /\
             m_objective m a' == best.
Proof.
  intros Hb Hf He Hcap Hu Ho Hr Hpos best.
  destruct (feas_tariff _ _ _ _ _ _ _ _ Hb Hf He Hcap Hu Ho) as (H1 & H2 & H3 & Hk & Hobj).
  split.
  - rewrite Hobj. pose proof (cap_cost_minimal cap under over _ _ Hr H2 H3) as Hm.
    assert (cap_cost cap under over (kwh_under a + kwh_over a)
            == cap_cost cap under over (cumulative_kwh_period state + horizon_kwh state config a))
      as Heq by (unfold cap_cost, pymin, pymax; repeat case_q; nra).
    unfold best. lra.
  - exists (split_energy state config cap a).
    pose proof (split_energy_feasible _ _ _ _ _ _ _ _ Hb Hf He Hcap Hu Ho Hpos) as Hf'.
    split_and!; [done..|].
    destruct (feas_tariff _ _ _ _ _ _ _ _ Hb Hf' He Hcap Hu Ho) as (_ & _ & _ & _ & ->).
    apply Qeq_refl.
Qed.

(** ** Validation accepts exactly the consistent inputs *)

Lemma same_keys_intro {V W} (d : dict string V) (e : dict string W) :
  (forall k, k ∈ dkeys d <-> k ∈ dkeys e) -> same_keys d e = true.
Proof.
  intros H. unfold same_keys. apply bool_decide_eq_true. apply set_eq. intros k.
  rewrite !elem_of_list_to_set. apply H.
Qed.

Lemma rfor_intro {E A} (f : A -> result E unit) l :
  (forall x, x ∈ l -> f x = Ok tt) -> rfor f l = Ok tt.
Proof.
  induction l as [|x l IH]; intros H; [done|]. cbn. rewrite (H x) by left. cbn.
  apply IH. intros. apply H. by right.
Qed.

Lemma validate_inputs_complete state config :
  valid_inputs state config -> _validate_inputs state config = Ok tt.
Proof.
  intros [Hne Hp Hb Hak Hal Hck Hg Hgp Hs [He1 He2] Hbc Hbp]. unfold _validate_inputs.
  destruct (vehicle_socs state) eqn:Es; [done|]. cbn [raise_if rbind].
  rewrite Hp, Hb, !Nat.eqb_refl. cbn [negb raise_if rbind].
  rewrite <- Es in *. rewrite (same_keys_intro _ _ Hak). cbn [negb raise_if rbind].
  rewrite rfor_intro by (intros [k av] Hin; rewrite (Hal _ _ Hin), Nat.eqb_refl; done).
  cbn [rbind]. rewrite (same_keys_intro _ _ Hck). cbn [negb raise_if rbind].
  destruct (charger_groups config) eqn:Eg; [done|]. cbn [raise_if rbind]. rewrite <- Eg in *.
  rewrite rfor_intro.
  2:{ intros [kw n] Hin. destruct (Hgp _ _ Hin) as [H1 H2].
      apply Qleb_gt in H1. rewrite H1. cbn. by rewrite (proj2 (Z.leb_gt n 0)) by lia. }
  apply Qleb_gt in Hs. apply Qltb_lt in He1. apply Qleb_le in He2.
  apply Qltb_ge in Hbc, Hbp. rewrite Hs, He1, He2. cbn. by rewrite Hbc, Hbp.
Qed.

(** _validate_inputs accepts exactly the inputs with matching vehicle sets, series of
    the configured length, non-empty positive charger groups, a positive site limit, an
    efficiency in (0, 1] and non-negative battery figures. *)
Theorem validate_inputs_iff state config :
  _validate_inputs state config = Ok tt <-> valid_inputs state config.
Proof. split; [apply validate_inputs_Ok | apply validate_inputs_complete]. Qed.

(** ** Witnesses *)


Lemma departure_energy_delivered_witness :
  (departure_soc_min_of ex_state "bus_1" - soc_init ex_state "bus_1") * E_batt ex_config "bus_1"
  <= 1 * 1 * Qsum (map (P_charge (ex_plan 1) "bus_1") (seq 0 1)).
Proof.
  refine (departure_energy_delivered ex_state ex_config (aware_utc 0) ex_model (ex_plan 1) "bus_1" 1
            ex_model_ok ex_plan_feasible _ eq_refl eq_refl _).
  - rewrite (build_m_B _ _ _ _ ex_model_ok). left.
  - vm_compute. reflexivity.
Defined.

Lemma charging_vehicles_bounded_witness :
  (Z.of_nat (length (List.filter (fun b => 0 <?q P_charge (ex_plan 1) b 0) (m_B ex_model)))
   <= n_chargers ex_config)%Z.
Proof.
  refine (proj1 (charging_vehicles_bounded ex_state ex_config (aware_utc 0) ex_model (ex_plan 1) 0
                   ex_model_ok ex_plan_feasible _)). cbn. lia.
Defined.

(** A second depot: no battery, no departures; only the second bus charges, so
    the plan violates symmetry breaking but nothing else. *)
Definition ex_config_nobatt : DepotConfig :=
  {| vehicle_capacities := vehicle_capacities ex_config;
     vehicle_max_charge_kw := vehicle_max_charge_kw ex_config;
     charger_groups := charger_groups ex_config; charger_efficiency := 1;
     charger_vehicle_access := []; battery_capacity := 0; battery_power := 0;
     battery_efficiency := 1; battery_soc_min := 0; battery_soc_max := 0;
     max_site_power := 100; building_load_assumption_kw := 0; delta_t := 1; n_timesteps := 2;
     charger_vehicle_access_default := "all_to_all"; tariff_type := "simple_demand";
     energy_cap_kwh := None; under_cap_rate_per_kwh := None;
     over_cap_penalty_per_kwh := None; cap_billing_period := "monthly" |}.

Definition ex_state_of (soc : Q) : DepotState :=
  {| vehicle_socs := vehicle_socs ex_state; battery_soc := soc; prices := prices ex_state;
     demand_charge_rate := 10; current_month_peak := 0;
     vehicle_availability := vehicle_availability ex_state;
     energy_requirements := []; departure_times := [];
     building_power := building_power ex_state; incoming_vehicles := [];
     vehicle_departure_soc_min := []; vehicle_departure_soc_max := [];
     vehicle_priorities := []; preconditioning_requests := []; cumulative_kwh_period := 0 |}.

Definition ex_plan_bus2 : assignment :=
  let at0 (b : string) (t : nat) (x y : Q) :=
    if (String.eqb b "bus_2" && (t =? 0)%nat)%bool then x else y in
  {| P_charge := fun b t => at0 b t 5 0;
     SoC := fun b t => if String.eqb b "bus_1" then 1 # 2 else at0 b t (9 # 10) (95 # 100);
     y_charge := fun b t => at0 b t 1 0;
     P_grid := fun t => if (t =? 0)%nat then 10 else 5; P_peak := 10;
     P_batt := fun _ => 0; SoC_batt := fun _ => 1 # 2;
     P_batt_discharge := fun _ => 0; P_batt_charge := fun _ => 0;
     P_precond := fun _ => 0; precond_slack := fun _ => 0;
     total_kwh_period := 0; kwh_under := 0; kwh_over := 0 |}.

Definition ex_model_nobatt : milp :=
  model_or (build_optimization_model (ex_state_of (1 # 2)) ex_config_nobatt (aware_utc 0)).

Lemma ex_model_nobatt_ok :
  build_optimization_model (ex_state_of (1 # 2)) ex_config_nobatt (aware_utc 0) = Ok ex_model_nobatt.
Proof. apply model_or_ok. vm_compute. reflexivity. Qed.

Lemma symmetry_breaking_lossless_witness :
  feasible ex_model_nobatt ex_plan_bus2 = false /\
  exists a', feasible ex_model_nobatt a' = true /\
             m_objective ex_model_nobatt a' == m_objective ex_model_nobatt ex_plan_bus2 /\
             P_charge a' = P_charge ex_plan_bus2 /\ SoC a' = SoC ex_plan_bus2 /\
             P_grid a' = P_grid ex_plan_bus2 /\ P_batt a' = P_batt ex_plan_bus2.
Proof.
  split; [vm_compute; reflexivity|].
  apply (symmetry_breaking_lossless _ _ _ _ ex_plan_bus2 ex_model_nobatt_ok).
  - vm_compute. reflexivity.
  - vm_compute. discriminate.
Defined.

Lemma no_battery_no_dispatch_witness :
  P_grid (mark_available (ex_state_of (1 # 2)) ex_plan_bus2) 0
  == sum_B (ex_state_of (1 # 2)) (fun b => P_charge ex_plan_bus2 b 0) + 5 + 0 + 0.
Proof.
  refine (proj2 (no_battery_no_dispatch _ _ _ _
            (mark_available (ex_state_of (1 # 2)) ex_plan_bus2) 0 ex_model_nobatt_ok _ eq_refl _)).
  - vm_compute. reflexivity.
  - cbn. lia.
Defined.

Definition ex_model_low : milp :=
  model_or (build_optimization_model (ex_state_of (15 # 100)) ex_config (aware_utc 0)).

Lemma ex_model_low_ok :
  build_optimization_model (ex_state_of (15 # 100)) ex_config (aware_utc 0) = Ok ex_model_low.
Proof. apply model_or_ok. vm_compute. reflexivity. Qed.

Lemma battery_outside_fixed_window_infeasible_witness :
  feasible ex_model_low (ex_plan 1) = false.
Proof.
  apply (battery_outside_fixed_window_infeasible _ _ _ _ (ex_plan 1) ex_model_low_ok).
  - vm_compute. reflexivity.
  - vm_compute. reflexivity.
Defined.

Lemma battery_energy_balance_witness :
  SoC_batt (ex_plan 1) 1 == battery_soc ex_state
    - Qsum (map (P_batt (ex_plan 1)) (seq 0 1)) * delta_t ex_config / battery_capacity ex_config.
Proof.
  refine (proj1 (battery_energy_balance _ _ _ _ (ex_plan 1) 1 ex_model_ok ex_plan_feasible _ _)).
  - vm_compute. reflexivity.
  - cbn. lia.
Defined.

Lemma energy_cap_cost_exact_witness :
  exists a', feasible ex_model a' = true /\ P_charge a' = P_charge (ex_plan 1) /\
    m_objective ex_model a' ==
      energy_cost ex_state ex_config (ex_plan 1)
      + (cap_cost 40 (1 # 10) 1 (0 + horizon_kwh ex_state ex_config (ex_plan 1))
         - cap_cost 40 (1 # 10) 1 0)
      + precond_penalty ex_config (ex_plan 1).
Proof.
  destruct (energy_cap_cost_exact ex_state ex_config (aware_utc 0) ex_model (ex_plan 1) 40 (1 # 10) 1
              ex_model_ok ex_plan_feasible eq_refl eq_refl eq_refl eq_refl ltac:(vm_compute; discriminate) ltac:(vm_compute; discriminate))
    as [_ (a' & H1 & H2 & _ & H3)].
  by exists a'.
Defined.
