(* ===== verification/Solver.v ===== *)
(** * Solving the model ([solver.py], [warm_start.py], [milp_model.optimize], [pool.py])

    A Pyomo model carries the current value of each variable; a variable that
    was never assigned has none, and [pyo.value] of it raises [ValueError].
    The values are state here ([valuation]): [build_optimization_model] fixes
    some of them, the warm start assigns others, a solver overwrites them, and
    the extraction of the schedule reads them back.

    Gurobi and HiGHS are parameters: a backend gets the model, its values, the
    time limit and the warm-start flag, and either raises (leaving some values
    behind) or replies with a termination condition and the values it loaded. *)

From S2P Require Import Prelude Models Milp.
From Stdlib Require Import ZArith QArith Lqa Lia.
From stdpp Require Import base list strings gmap.

#[local] Open Scope Q_scope.

(** ** Variable values *)

Record valuation := {
  val_P_charge : string -> nat -> option Q;
  val_SoC : string -> nat -> option Q;
  val_y_charge : string -> nat -> option Q;
  val_P_grid : nat -> option Q;
  val_P_peak : option Q;
  val_P_batt : nat -> option Q;
  val_SoC_batt : nat -> option Q;
  val_P_batt_discharge : nat -> option Q;
  val_P_batt_charge : nat -> option Q;
  val_P_precond : nat -> option Q;
  val_precond_slack : nat -> option Q;
  val_total_kwh_period : option Q;
  val_kwh_under : option Q;
  val_kwh_over : option Q
}.

(** The assignment a valuation denotes where it is defined. *)
Definition assignment_of (v : valuation) : assignment :=
  let d (o : option Q) := default 0 o in
  {| P_charge := fun b t => d (val_P_charge v b t);
     SoC := fun b t => d (val_SoC v b t);
     y_charge := fun b t => d (val_y_charge v b t);
     P_grid := fun t => d (val_P_grid v t);
     P_peak := d (val_P_peak v);
     P_batt := fun t => d (val_P_batt v t);
     SoC_batt := fun t => d (val_SoC_batt v t);
     P_batt_discharge := fun t => d (val_P_batt_discharge v t);
     P_batt_charge := fun t => d (val_P_batt_charge v t);
     P_precond := fun t => d (val_P_precond v t);
     precond_slack := fun t => d (val_precond_slack v t);
     total_kwh_period := d (val_total_kwh_period v);
     kwh_under := d (val_kwh_under v);
     kwh_over := d (val_kwh_over v) |}.

(** [b] is in [vehicles_on_route]. *)
Definition on_route (state : DepotState) (b : string) : bool := negb (available state b 0).

(** The values of a freshly built model: the [fix] calls assign some, nothing
    else is initialised. *)
Definition initial_values (state : DepotState) : valuation :=
  let fixed (b : string) (t : nat) :=
    if bool_decide (b ∈ model_B state) && on_route state b && (t =? 0)%nat
    then Some 0 else None in
  {| val_P_charge := fixed; val_SoC := fun _ _ => None; val_y_charge := fixed;
     val_P_grid := fun _ => None; val_P_peak := None;
     val_P_batt := fun _ => None; val_SoC_batt := fun _ => None;
     val_P_batt_discharge := fun _ => None; val_P_batt_charge := fun _ => None;
     val_P_precond := fun _ => None; val_precond_slack := fun _ => None;
     val_total_kwh_period := None; val_kwh_under := None; val_kwh_over := None |}.

(** ** The problem a solver is given

    A fixed variable enters the problem as its current value, whatever that
    value is when the solver runs. *)

Definition fixed_hold (state : DepotState) (v : valuation) (a : assignment) : bool :=
  forallb (fun b =>
      if on_route state b
      then (P_charge a b 0 =?q default 0 (val_P_charge v b 0))
           && (y_charge a b 0 =?q default 0 (val_y_charge v b 0))
      else true)
    (model_B state).

Definition problem_feasible (state : DepotState) (m : milp) (v : valuation) (a : assignment)
  : bool :=
  holds_all (dpop "on_route_fix" (m_families m)) a && fixed_hold state v a.

(** ** Warm start

    Each loop of [warm_start_model] assigns a cell at most once, so the values
    after it are given cell by cell. *)

Section WarmStart.
Context (state : DepotState) (config : DepotConfig) (previous_result : OptimizationResult).

Definition warm_power (b : string) (t : nat) : option Q :=
  match schedule previous_result @? b with
  | Some prev_sched => Some (default 0 (charging_power prev_sched !! t))
  | None => Some 0
  end.

Definition warm_indicator (b : string) (t : nat) : option Q :=
  match schedule previous_result @? b with
  | Some prev_sched =>
      match charging_power prev_sched !! t with
      | Some power_val => if (1 # 10) <?q power_val then Some 1 else Some 0
      | None => Some 0
      end
  | None => Some 0
  end.

Definition warm_soc (v : valuation) (b : string) (t : nat) : option Q :=
  match schedule previous_result @? b with
  | Some prev_sched =>
      match soc prev_sched !! t with
      | Some soc_val => Some (pymax (1 # 10) (pymin 1 soc_val))
      | None => if (t =? 0)%nat then Some (dget_or (vehicle_socs state) b (1 # 2))
                else val_SoC v b t
      end
  | None => Some (dget_or (vehicle_socs state) b 0)
  end.

Definition warm_start_model (m : milp) (v : valuation) : valuation :=
  let inT (t : nat) := (t <? m_T m)%nat in
  let cell (b : string) (t : nat) := bool_decide (b ∈ dkeys (vehicle_socs state)) && inT t in
  {| val_P_charge := fun b t => if cell b t then warm_power b t else val_P_charge v b t;
     val_y_charge := fun b t => if cell b t then warm_indicator b t else val_y_charge v b t;
     val_SoC := fun b t => if cell b t then warm_soc v b t else val_SoC v b t;
     val_P_batt := fun t =>
       match battery_dispatch previous_result !! t with
       | Some bp => if inT t
                    then Some (pymax (- battery_power config) (pymin (battery_power config) bp))
                    else val_P_batt v t
       | None => val_P_batt v t
       end;
     val_SoC_batt := fun t => if inT t then Some (battery_soc state) else val_SoC_batt v t;
     val_P_grid := fun t =>
       match grid_power previous_result !! t with
       | Some g => if inT t then Some (pymax 0 g) else val_P_grid v t
       | None => val_P_grid v t
       end;
     val_P_peak := Some (pymax 0 (peak_demand_kw previous_result));
     val_P_batt_discharge := val_P_batt_discharge v;
     val_P_batt_charge := val_P_batt_charge v;
     val_P_precond := val_P_precond v;
     val_precond_slack := val_precond_slack v;
     val_total_kwh_period := val_total_kwh_period v;
     val_kwh_under := val_kwh_under v;
     val_kwh_over := val_kwh_over v |}.
End WarmStart.

(** ** Solving *)

Inductive termination : Type :=
| optimal
| maxTimeLimit
| feasible_termination
| infeasible
| unbounded
| other_termination (name : string).

Record solver_reply := {
  termination_condition : termination;
  solver_time : option Q;  (** [getattr(result.solver, "time", 0.0)] *)
  solver_values : valuation
}.

(** A backend raises leaving [Err values], or replies. *)
Definition backend : Type := milp -> valuation -> Q -> bool -> result valuation solver_reply.

Record solve_result := {
  sr_schedule : dict string VehicleSchedule;
  sr_battery_dispatch : list Q;
  sr_grid_power : list Q;
  sr_peak_demand_kw : Q;
  sr_objective_value : Q;
  sr_solve_time_s : Q;
  sr_solver_used : string
}.

(** [pyo.value] of a variable. *)
Definition pyo_value (o : option Q) : result opt_error Q :=
  match o with Some x => Ok x | None => Err ValueError end.

(** The variables the objective expression mentions. *)
Definition objective_vars (config : DepotConfig) (v : valuation) : list (option Q) :=
  map (val_P_grid v) (seq 0 (n_timesteps config))
  ++ (if energy_cap config then [val_kwh_under v; val_kwh_over v] else [val_P_peak v])
  ++ map (val_precond_slack v) (seq 0 (n_timesteps config)).

(** [pyo.value(model.objective)]. *)
Definition pyo_objective (config : DepotConfig) (m : milp) (v : valuation)
  : result opt_error Q :=
  let? _ := rmap pyo_value (objective_vars config v) in
  Ok (m_objective m (assignment_of v)).

Section Solve.
Context (gurobi highs : backend) (config : DepotConfig).

(** Gurobi, and HiGHS when Gurobi is unavailable or raises. *)
Definition run_solvers (m : milp) (v : valuation) (time_limit : Q) (warm_started : bool)
  : result opt_error (string * solver_reply) :=
  match gurobi m v time_limit warm_started with
  | Ok r => Ok ("gurobi", r)
  | Err v' =>
      match highs m v' time_limit false with
      | Ok r => Ok ("highs", r)
      | Err _ => Err (SolverError "solver_failure")
      end
  end.

(** The termination cascade. *)
Definition check_termination (m : milp) (time_limit : Q) (r : solver_reply)
  : result opt_error unit :=
  match termination_condition r with
  | optimal => Ok tt
  | maxTimeLimit =>
      match pyo_objective config m (solver_values r) with
      | Ok _ => Ok tt
      | Err _ => Err (SolverTimeoutError time_limit)
      end
  | feasible_termination => Ok tt
  | infeasible => Err InfeasibleModelError
  | unbounded => Err (SolverError "unbounded")
  | other_termination name => Err (SolverError name)
  end.

(** The schedule of one vehicle. *)
Definition extract_vehicle (m : milp) (v : valuation) (b : string)
  : result opt_error (string * VehicleSchedule) :=
  let? p := rmap (fun t => pyo_value (val_P_charge v b t)) (seq 0 (m_T m)) in
  let? s := rmap (fun t => pyo_value (val_SoC v b t)) (seq 0 (m_T m)) in
  Ok (b, {| charging_power := p; soc := s |}).

Definition extract_solution (m : milp) (solver_used : string) (r : solver_reply)
  : result opt_error solve_result :=
  let v := solver_values r in
  let? sched := rmap (extract_vehicle m v) (m_B m) in
  let? batt := rmap (fun t => pyo_value (val_P_batt v t)) (seq 0 (m_T m)) in
  let? grid := rmap (fun t => pyo_value (val_P_grid v t)) (seq 0 (m_T m)) in
  let? peak := pyo_value (val_P_peak v) in
  let? obj := pyo_objective config m v in
  Ok {| sr_schedule := sched; sr_battery_dispatch := batt; sr_grid_power := grid;
        sr_peak_demand_kw := peak; sr_objective_value := obj;
        sr_solve_time_s := default 0 (solver_time r); sr_solver_used := solver_used |}.

(** [solve_model]: the result dictionary and the values left in the model. *)
Definition solve_model (m : milp) (v : valuation) (time_limit : Q) (warm_started : bool)
  : result opt_error (solve_result * valuation) :=
  let? ur := run_solvers m v time_limit warm_started in
  let? _ := check_termination m time_limit (snd ur) in
  let? d := extract_solution m (fst ur) (snd ur) in
  Ok (d, solver_values (snd ur)).

(** [optimize]: build, warm start, solve, validate, convert. [now] is what
    [datetime.utcnow()] returns, used when no horizon start is given. *)
Definition optimize (state : DepotState) (time_limit : Q)
    (previous_result : option OptimizationResult) (horizon_start : option datetime)
    (now : Z) (run_id : string)
  : result opt_error OptimizationResult :=
  let horizon_start := default (naive_utc now) horizon_start in
  let? m := build_optimization_model state config horizon_start in
  let v0 := initial_values state in
  let v := match previous_result with
           | Some prev => warm_start_model state config prev m v0
           | None => v0
           end in
  let? dv := solve_model m v time_limit (bool_decide (is_Some previous_result)) in
  let d := fst dv in
  let? _ := _validate_solution state config m (assignment_of (snd dv)) in
  Ok (make_result run_id (sr_schedule d) (sr_battery_dispatch d) (sr_grid_power d)
        (Some (sr_peak_demand_kw d)) None (sr_objective_value d)
        (Some (sr_solve_time_s d)) None "completed" (sr_solver_used d)).
End Solve.

(** ** The solver pool ([pool.py])

    An executor is known by its generation number; [pool_next] is the next one
    to create. [inflight] and [broken] are the Prometheus gauges. *)

Record SolverPool := {
  executor : option nat;
  pool_next : nat;
  inflight : Z;
  broken : list string;
  worker_alarm_grace_s : Z;
  parent_timeout_buffer_s : Q
}.

Definition set_executor (p : SolverPool) (e : option nat) (next : nat) : SolverPool :=
  {| executor := e; pool_next := next; inflight := inflight p; broken := broken p;
     worker_alarm_grace_s := worker_alarm_grace_s p;
     parent_timeout_buffer_s := parent_timeout_buffer_s p |}.

Definition add_inflight (p : SolverPool) (n : Z) : SolverPool :=
  {| executor := executor p; pool_next := pool_next p; inflight := inflight p + n;
     broken := broken p; worker_alarm_grace_s := worker_alarm_grace_s p;
     parent_timeout_buffer_s := parent_timeout_buffer_s p |}.

Definition count_broken (p : SolverPool) (reason : string) : SolverPool :=
  {| executor := executor p; pool_next := pool_next p; inflight := inflight p;
     broken := broken p ++ [reason]; worker_alarm_grace_s := worker_alarm_grace_s p;
     parent_timeout_buffer_s := parent_timeout_buffer_s p |}.

Definition pool_start (p : SolverPool) : SolverPool :=
  match executor p with
  | Some _ => p
  | None => set_executor p (Some (pool_next p)) (S (pool_next p))
  end.

Definition pool_stop (p : SolverPool) : SolverPool := set_executor p None (pool_next p).

(** [_recreate]: rotate unless another task already did. *)
Definition _recreate (p : SolverPool) (reason : string) (failed_executor : option nat)
  : SolverPool :=
  let p := count_broken p reason in
  match failed_executor with
  | Some f => if bool_decide (executor p = Some f)
              then set_executor p (Some (pool_next p)) (S (pool_next p)) else p
  | None => set_executor p (Some (pool_next p)) (S (pool_next p))
  end.

(** Seconds after which the parent gives up on a worker, and the alarm the
    worker sets itself. *)
Definition parent_timeout (p : SolverPool) (time_limit : Q) : Q :=
  time_limit + inject_Z (worker_alarm_grace_s p) + parent_timeout_buffer_s p.
Definition worker_alarm (p : SolverPool) (time_limit : Q) : Z :=
  Qtrunc (time_limit + inject_Z (worker_alarm_grace_s p)).

Inductive attempt (A : Type) : Type :=
| Returned (r : A)
| BrokenProcessPool
| WaitTimeout.
Arguments Returned {A} r.
Arguments BrokenProcessPool {A}.
Arguments WaitTimeout {A}.

Inductive pool_error : Type :=
| NotStarted
| PoolSolver (e : opt_error).

(** [SolverPool.solve] once a slot is held. [run i g] is what awaiting attempt
    [i] on executor [g] gives; [others i] is what other tasks do to the pool
    while that await is suspended. *)
Section PoolSolve.
Context (run : nat -> nat -> attempt (result opt_error OptimizationResult)).
Context (others : nat -> SolverPool -> SolverPool).

Definition pool_attempt (time_limit : Q) (i : nat) (p : SolverPool)
    (retry : SolverPool -> result pool_error OptimizationResult * SolverPool)
  : result pool_error OptimizationResult * SolverPool :=
  match executor p with
  | None => (Err NotStarted, p)
  | Some g =>
      let p := others i (add_inflight p 1) in
      match run i g with
      | Returned (Ok r) => (Ok r, add_inflight p (-1))
      | Returned (Err e) => (Err (PoolSolver e), add_inflight p (-1))
      | BrokenProcessPool =>
          retry (add_inflight (_recreate p "broken_pool" (Some g)) (-1))
      | WaitTimeout =>
          let p := add_inflight (_recreate p "timeout" (Some g)) (-1) in
          if (i =? 2)%nat then (Err (PoolSolver (SolverTimeoutError time_limit)), p)
          else retry p
      end
  end.

Definition pool_solve (time_limit : Q) (p : SolverPool)
  : result pool_error OptimizationResult * SolverPool :=
  pool_attempt time_limit 1 p (fun p =>
    pool_attempt time_limit 2 p (fun p =>
      (Err (PoolSolver (SolverError "broken_pool")), p))).
End PoolSolve.
