(* ===== verification/SolverFacts.v ===== *)
(** * Facts about solving: what an accepted optimisation result guarantees

    The departure guarantee needs nothing of the solver; the power limits need
    the solver to return feasible points. The last section is about the pool
    that runs solves in worker processes. *)

From S2P Require Import Prelude Models Milp MilpFacts Solver.
From Stdlib Require Import ZArith QArith Lqa Lia.
From stdpp Require Import base list strings gmap.

#[local] Open Scope Q_scope.

(** ** Extraction *)

Lemma rmap_lookup {E A B} (f : A -> result E B) l bs i x :
  rmap f l = Ok bs -> l !! i = Some x -> exists y, bs !! i = Some y /\ f x = Ok y.
Proof.
  intros H%rmap_Ok Hx. destruct (Forall2_lookup_l _ _ _ _ _ H Hx) as (y & Hy & Hf). eauto.
Qed.

Lemma rmap_length {E A B} (f : A -> result E B) l bs : rmap f l = Ok bs -> length bs = length l.
Proof. intros H%rmap_Ok%Forall2_length. done. Qed.

Lemma pyo_value_Ok o x : pyo_value o = Ok x -> o = Some x.
Proof. destruct o; cbn; congruence. Qed.

(** The series [pyo.value(var[t]) for t in model.T]. *)
Lemma series_lookup (f : nat -> option Q) n l t :
  rmap (fun t => pyo_value (f t)) (seq 0 n) = Ok l -> (t < n)%nat ->
  exists x, l !! t = Some x /\ f t = Some x.
Proof.
  intros H Ht. destruct (rmap_lookup _ _ _ t t H) as (x & Hx & Hv).
  - apply lookup_seq. lia.
  - apply pyo_value_Ok in Hv. eauto.
Qed.

Lemma extract_vehicle_Ok m v b kv :
  extract_vehicle m v b = Ok kv ->
  kv.1 = b /\ length (charging_power kv.2) = m_T m /\ length (soc kv.2) = m_T m /\
  forall t, (t < m_T m)%nat ->
    exists p s, charging_power kv.2 !! t = Some p /\ val_P_charge v b t = Some p /\
                soc kv.2 !! t = Some s /\ val_SoC v b t = Some s.
Proof.
  unfold extract_vehicle. intros H. inv_ok. cbn.
  split_and!; [done | by rewrite (rmap_length _ _ _ Hm), length_seq
              | by rewrite (rmap_length _ _ _ Hm0), length_seq |].
  intros t Ht. destruct (series_lookup _ _ _ t Hm Ht) as (p & ? & ?).
  destruct (series_lookup _ _ _ t Hm0 Ht) as (s & ? & ?). naive_solver.
Qed.

Lemma schedule_keys m v l sched :
  rmap (extract_vehicle m v) l = Ok sched -> dkeys sched = l.
Proof.
  intros H%rmap_Ok. unfold dkeys. induction H as [|b kv l sched Hkv _ IH]; cbn; [done|].
  apply extract_vehicle_Ok in Hkv as [-> _]. by rewrite IH.
Qed.

Lemma schedule_get m v l sched b :
  rmap (extract_vehicle m v) l = Ok sched -> b ∈ l ->
  exists sch, sched @? b = Some sch /\ extract_vehicle m v b = Ok (b, sch).
Proof.
  intros H%rmap_Ok Hb. induction H as [|b' [k sch] l sched Hkv _ IH].
  { by apply not_elem_of_nil in Hb. }
  pose proof (extract_vehicle_Ok _ _ _ _ Hkv) as [Hk _]. cbn in Hk; subst k. cbn [dget].
  destruct (decide (b = b')) as [->|]; [eauto|]. apply IH. set_solver.
Qed.

(** Everything a successful [optimize] went through. *)
Lemma optimize_Ok gurobi highs config state tl prev hs now rid r :
  optimize gurobi highs config state tl prev hs now rid = Ok r ->
  exists m used rep v d,
    build_optimization_model state config (default (naive_utc now) hs) = Ok m /\
    v = match prev with
        | Some p => warm_start_model state config p m (initial_values state)
        | None => initial_values state
        end /\
    run_solvers gurobi highs m v tl (bool_decide (is_Some prev)) = Ok (used, rep) /\
    check_termination config m tl rep = Ok tt /\
    extract_solution config m used rep = Ok d /\
    _validate_solution state config m (assignment_of (solver_values rep)) = Ok tt /\
    r = make_result rid (sr_schedule d) (sr_battery_dispatch d) (sr_grid_power d)
          (Some (sr_peak_demand_kw d)) None (sr_objective_value d)
          (Some (sr_solve_time_s d)) None "completed" (sr_solver_used d).
Proof.
  unfold optimize, solve_model. intros (m & Hb & H)%rbind_Ok.
  apply rbind_Ok in H as (dv & Hs & H). apply rbind_Ok in H as ([] & Hv & H).
  apply rbind_Ok in Hs as ([used rep] & Hrun & Hs).
  apply rbind_Ok in Hs as ([] & Hterm & Hs). apply rbind_Ok in Hs as (d & Hx & Hs).
  injection Hs as <-. injection H as <-.
  exists m, used, rep. do 2 eexists. split_and!; eauto.
Qed.

Lemma extract_Ok config m used rep d :
  extract_solution config m used rep = Ok d ->
  rmap (extract_vehicle m (solver_values rep)) (m_B m) = Ok (sr_schedule d) /\
  rmap (fun t => pyo_value (val_P_batt (solver_values rep) t)) (seq 0 (m_T m))
    = Ok (sr_battery_dispatch d) /\
  rmap (fun t => pyo_value (val_P_grid (solver_values rep) t)) (seq 0 (m_T m))
    = Ok (sr_grid_power d) /\
  val_P_peak (solver_values rep) = Some (sr_peak_demand_kw d).
Proof. unfold extract_solution. intros H. inv_ok. cbn. apply pyo_value_Ok in Hm2. done. Qed.

Lemma build_departure_range state config hs m b t :
  build_optimization_model state config hs = Ok m -> b ∈ m_B m ->
  departs_in_horizon state config b = Some t ->
  (Z.to_nat t < m_T m)%nat.
Proof.
  intros Hb Hin Ht. rewrite (build_m_T _ _ _ _ Hb).
  destruct (build_nonzero _ _ _ _ Hb) as (_ & _ & Hpos & _).
  specialize (Hpos b t Hin Ht). unfold departs_in_horizon in Ht.
  destruct (departure_times state @? b); [|done]. case_match eqn:E; simplify_eq.
  unfold model_T in E. lia.
Qed.

(** ** The departure guarantee *)

(** C1: Whatever the solvers return, a successful optimize yields a plan with status
    'completed' for exactly the vehicles of the state, one value per timestep, in which
    every vehicle departing inside the horizon has at its departure timestep at least
    its required state of charge. *)
Theorem optimize_guarantees_departure gurobi highs config state tl prev hs now rid r :
  optimize gurobi highs config state tl prev hs now rid = Ok r ->
  status r = "completed" /\
  dkeys (schedule r) = dkeys (vehicle_socs state) /\
  length (grid_power r) = n_timesteps config /\
  forall b t, b ∈ dkeys (vehicle_socs state) ->
    departs_in_horizon state config b = Some t ->
    exists sch s, schedule r @? b = Some sch /\
      length (charging_power sch) = n_timesteps config /\
      soc sch !! Z.to_nat t = Some s /\ departure_soc_min_of state b <= s.
Proof.
  intros (m & used & rep & v & d & Hb & _ & _ & _ & Hx & Hv & ->)%optimize_Ok. cbn.
  pose proof (build_m_T _ _ _ _ Hb) as HT. pose proof (build_m_B _ _ _ _ Hb) as HB.
  apply extract_Ok in Hx as (Hs & _ & Hg & _).
  split_and!; [done | rewrite <- HB; apply (schedule_keys _ _ _ _ Hs)
              | by rewrite (rmap_length _ _ _ Hg), length_seq |].
  intros b t Hin Ht. rewrite <- HB in Hin.
  destruct (schedule_get _ _ _ _ b Hs Hin) as (sch & Hget & Hve).
  apply extract_vehicle_Ok in Hve as (_ & Hlen & _ & Hcells). cbn in *.
  pose proof (build_departure_range _ _ _ _ _ _ Hb Hin Ht) as Hr.
  destruct (Hcells (Z.to_nat t) Hr) as (p & s & _ & _ & Hsoc & Hval).
  exists sch, s. split_and!; [done | congruence | done |].
  pose proof (rfor_Ok _ _ _ Hv b Hin) as Hd. cbn in Hd. rewrite Ht in Hd.
  apply raise_if_Ok, Qltb_ge in Hd. cbn in Hd. by rewrite Hval in Hd.
Qed.

(** ** Power limits, for solvers that return feasible points *)

(** What the code relies on: a reply that claims a solution loads a feasible
    point of the problem the solver was given. *)
Definition backend_sound (state : DepotState) (config : DepotConfig) (s : backend) : Prop :=
  forall m v tl w rep, s m v tl w = Ok rep ->
    is_ok (check_termination config m tl rep) = true ->
    problem_feasible state m v (assignment_of (solver_values rep)) = true.

(** A backend that raises leaves the fixed variables' values alone. *)
Definition backend_keeps_fixed (state : DepotState) (s : backend) : Prop :=
  forall m v tl w v' b, s m v tl w = Err v' -> on_route state b = true ->
    val_P_charge v' b 0 = val_P_charge v b 0 /\ val_y_charge v' b 0 = val_y_charge v b 0.

Lemma run_solvers_sound gurobi highs config state m v tl w used rep :
  backend_sound state config gurobi -> backend_sound state config highs ->
  backend_keeps_fixed state gurobi ->
  run_solvers gurobi highs m v tl w = Ok (used, rep) ->
  check_termination config m tl rep = Ok tt ->
  problem_feasible state m v (assignment_of (solver_values rep)) = true.
Proof.
  unfold run_solvers. intros Hg Hh Hk Hrun Hterm.
  assert (Hok : is_ok (check_termination config m tl rep) = true) by by rewrite Hterm.
  destruct (gurobi m v tl w) as [rg|v'] eqn:Eg; [inv_ok; eauto|].
  destruct (highs m v' tl false) as [rh|] eqn:Eh; [|discriminate]. inv_ok. subst.
  pose proof (Hh _ _ _ _ _ Eh Hok) as H. unfold problem_feasible in *.
  apply andb_true_iff in H as [H1 H2]. apply andb_true_iff. split; [done|].
  unfold fixed_hold in *. apply forallb_intro. intros b Hb.
  pose proof (forallb_elem _ _ _ H2 Hb) as H. cbn in H |- *.
  destruct (on_route state b) eqn:Er; [|done].
  destruct (Hk _ _ _ _ _ b Eg Er) as [<- <-]. done.
Qed.

Lemma initial_fixed state b t :
  val_P_charge (initial_values state) b t = val_y_charge (initial_values state) b t /\
  default 0 (val_P_charge (initial_values state) b t) = 0.
Proof. cbn. split; [done|]. by destruct (_ && _)%bool. Qed.

(** A family can be checked apart from the others. *)
Lemma holds_all_split k fams cs a :
  dict_wf fams -> fams @? k = Some cs ->
  holds_all fams a = (holds_all (dpop k fams) a && all_hold cs a)%bool.
Proof.
  unfold dict_wf, dkeys. induction fams as [|[k' cs'] fams IH]; [done|].
  cbn [map fst dget dpop].
  intros [Hni Hnd]%NoDup_cons. case_decide as Hk; intros Hget; simplify_eq.
  - rewrite dpop_fresh by by apply dget_None_keys. rewrite holds_all_cons. apply andb_comm.
  - rewrite !holds_all_cons, IH by done. by rewrite andb_assoc.
Qed.

Lemma model_families_wf state config hs tariff : dict_wf (model_families state config hs tariff).
Proof. unfold dict_wf. cbn. apply (bool_decide_unpack _). vm_compute. done. Qed.

Lemma fixed_hold_initial state a :
  fixed_hold state (initial_values state) a
  = all_hold (over_B (model_B state) (on_route_fix state)) a.
Proof.
  unfold fixed_hold, all_hold, over_B.
  induction (model_B state) as [|b l IH] in |- *; [done|].
  cbn [forallb omap list_omap]. rewrite IH.
  destruct (initial_fixed state b 0) as [He Hz]. rewrite <- He, Hz.
  unfold on_route_fix, on_route. by destruct (available state b 0).
Qed.

(** With nothing warm-started the solver's problem is the model. *)
Lemma cold_problem_feasible state config hs m a :
  build_optimization_model state config hs = Ok m ->
  problem_feasible state m (initial_values state) a = feasible m a.
Proof.
  intros Hb. destruct (build_Ok _ _ _ _ Hb) as (_ & _ & tariff & tc & _ & ->).
  unfold problem_feasible, feasible. cbn [m_families]. rewrite fixed_hold_initial.
  symmetry. apply holds_all_split; [apply model_families_wf | done].
Qed.

(** C2: If the solvers return feasible points of the problem they are given and leave
    fixed variables alone when they raise, every cold-started result keeps grid power
    between 0 and the site limit and under the reported peak (which covers the month's
    peak), and every vehicle's charging power within its limit and zero while it is
    away. *)
Theorem optimize_respects_limits gurobi highs config state tl hs now rid r :
  backend_sound state config gurobi -> backend_sound state config highs ->
  backend_keeps_fixed state gurobi ->
  optimize gurobi highs config state tl None hs now rid = Ok r ->
  forall t, (t < n_timesteps config)%nat ->
    exists g, grid_power r !! t = Some g /\
      0 <= g /\ g <= max_site_power config /\ g <= peak_demand_kw r /\
      current_month_peak state <= peak_demand_kw r /\
      forall b, b ∈ dkeys (vehicle_socs state) ->
        exists sch p, schedule r @? b = Some sch /\ charging_power sch !! t = Some p /\
          0 <= p /\ p <= max_kw config b /\ (available state b t = false -> p == 0).
Proof.
  intros Hg Hh Hk (m & used & rep & v & d & Hb & -> & Hrun & Hterm & Hx & _ & ->)%optimize_Ok t Ht.
  pose proof (run_solvers_sound _ _ _ _ _ _ _ _ _ _ Hg Hh Hk Hrun Hterm) as Hf.
  rewrite (cold_problem_feasible _ _ _ _ _ Hb) in Hf. apply feasible_is_relaxed in Hf.
  pose proof (build_m_T _ _ _ _ Hb) as HT. pose proof (build_m_B _ _ _ _ Hb) as HB.
  apply extract_Ok in Hx as (Hs & _ & Hgrid & Hpeak). cbn.
  destruct (rule_grid _ _ _ _ _ Hb Hf t Ht) as (H0 & _ & H1 & H2).
  pose proof (rule_peak _ _ _ _ _ Hb Hf) as H3. cbn in H0, H1, H2, H3.
  rewrite Hpeak in H2, H3. cbn in H2, H3.
  destruct (series_lookup _ _ _ t Hgrid) as (g & Hgt & Hval); [by rewrite HT|].
  rewrite Hval in H0, H1, H2. exists g. split_and!; try done.
  intros b Hin. rewrite <- HB in Hin.
  destruct (schedule_get _ _ _ _ b Hs Hin) as (sch & Hget & Hve). rewrite HB in Hin.
  apply extract_vehicle_Ok in Hve as (_ & _ & _ & Hcells). rewrite HT in Hcells.
  destruct (Hcells t Ht) as (p & s & Hp & Hvp & _ & _).
  exists sch, p. pose proof (rule_P_charge _ _ _ _ _ Hb Hf b t Hin Ht) as Hc.
  cbn in Hc. rewrite Hvp in Hc. cbn in Hc. destruct Hc. split_and!; try done.
  intros Hav. pose proof (rule_unavailable _ _ _ _ _ Hb Hf b t Hin Ht Hav) as Hu.
  cbn in Hu. by rewrite Hvp in Hu.
Qed.

(** ** Time limits and warm starts *)

(** No value of the preconditioning slack is ever written before a solve, so
    the objective of an unsolved model has no value. *)
Lemma objective_needs_slack config m v :
  (0 < n_timesteps config)%nat -> val_precond_slack v 0 = None ->
  is_ok (pyo_objective config m v) = false.
Proof.
  intros Hn Hnone. unfold pyo_objective.
  destruct (rmap pyo_value (objective_vars config v)) as [l|e] eqn:E; [|done].
  apply rmap_Ok in E. assert (None ∈ objective_vars config v) as Hin.
  { unfold objective_vars. rewrite !elem_of_app. right. right.
    apply list_elem_of_fmap. exists 0%nat. rewrite elem_of_seq_0. done. }
  apply list_elem_of_lookup in Hin as [i Hi].
  by destruct (Forall2_lookup_l _ _ _ _ _ E Hi) as (y & _ & Hy).
Qed.

(** When the solver stops at the time limit having loaded no solution, optimize raises
    SolverTimeoutError even if the model was warm-started: leftover warm-start values
    are never taken for a solution. *)
Theorem timeout_without_incumbent_raises gurobi highs config state tl prev hs now rid m :
  (forall m v tl w, exists rep, gurobi m v tl w = Ok rep /\
     termination_condition rep = maxTimeLimit /\ solver_values rep = v) ->
  build_optimization_model state config (default (naive_utc now) hs) = Ok m ->
  optimize gurobi highs config state tl prev hs now rid = Err (SolverTimeoutError tl).
Proof.
  intros Hg Hb. unfold optimize. rewrite Hb. cbn [rbind].
  set (v := match prev with Some _ => _ | None => _ end).
  destruct (Hg m v tl (bool_decide (is_Some prev))) as (rep & Hrun & Ht & Hv).
  unfold solve_model, run_solvers. rewrite Hrun. cbn [rbind snd fst].
  unfold check_termination. rewrite Ht, Hv.
  destruct (build_nonzero _ _ _ _ Hb) as (Hn & _).
  assert (val_precond_slack v 0 = None) as Hs by (unfold v; by destruct prev).
  pose proof (objective_needs_slack config m v Hn Hs) as Ho.
  by destruct (pyo_objective config m v).
Qed.

(** Warm-starting overwrites the value at which an on-route vehicle's first charging
    variable was fixed: if the previous plan charged that vehicle at step 0, no point
    satisfies the warm-started problem, although the cold one may be feasible. *)
Theorem warm_start_breaks_on_route state config prev hs m b sch p :
  build_optimization_model state config hs = Ok m ->
  b ∈ dkeys (vehicle_socs state) ->
  available state b 0 = false ->
  schedule prev @? b = Some sch -> charging_power sch !! 0%nat = Some p -> ~ p == 0 ->
  forall a, problem_feasible state m
              (warm_start_model state config prev m (initial_values state)) a = false.
Proof.
  intros Hb Hin Hav Hsch Hp Hnz a. apply not_true_iff_false. intros H.
  apply andb_true_iff in H as [Hfam Hfix].
  assert (HT : (0 <? m_T m)%nat = true).
  { apply Nat.ltb_lt. rewrite (build_m_T _ _ _ _ Hb). by destruct (build_nonzero _ _ _ _ Hb). }
  assert (Hv : val_P_charge (warm_start_model state config prev m (initial_values state)) b 0
               = Some p).
  { unfold warm_start_model. cbn [val_P_charge]. rewrite bool_decide_eq_true_2 by done.
    rewrite HT. cbn [andb]. unfold warm_power. by rewrite Hsch, Hp. }
  pose proof (forallb_elem _ _ _ Hfix Hin) as Hc. unfold on_route in Hc.
  rewrite Hav, Hv in Hc. cbn [negb default] in Hc.
  apply andb_true_iff in Hc as [Hc _]. qbool.
  destruct (build_Ok _ _ _ _ Hb) as (_ & _ & tariff & tc & _ & Hm).
  apply Nat.ltb_lt in HT. rewrite (build_m_T _ _ _ _ Hb) in HT. rewrite Hm in Hfam.
  assert (Hz : (P_charge a b 0 =?q 0) = true).
  { eapply (holds_all_family _ a "availability_con" _ (fun a => P_charge a b 0 =?q 0) Hfam).
    - rewrite dget_dpop_ne by done. reflexivity.
    - eapply elem_over_BT; [exact Hin | exact HT |]. unfold availability_rule. by rewrite Hav. }
  qbool. apply Hnz. by rewrite <- Hc, Hz.
Qed.

(** ** The default horizon start

    Without an explicit [horizon_start] the model is built against a naive
    timestamp, while incoming vehicles carry aware ones. *)

(** Called without a horizon start, as the controller does, optimize raises TypeError
    whenever the first incoming vehicle's arrival time is timezone-aware: the default
    horizon start is naive. *)
Theorem default_horizon_rejects_incoming gurobi highs config state tl prev now rid iv :
  _validate_inputs state config = Ok tt -> (0 < n_timesteps config)%nat ->
  head (incoming_vehicles state) = Some iv -> dt_aware (iv_arrival_time iv) = true ->
  optimize gurobi highs config state tl prev None now rid = Err TypeError.
Proof.
  intros Hv Hn Hhd Haw. unfold optimize, build_optimization_model. cbn [default].
  rewrite Hv. cbn [rbind]. unfold construction_raises, model_T.
  assert ((n_timesteps config =? 0)%nat = false) as -> by (apply Nat.eqb_neq; lia).
  cbn [andb raise_if rbind]. destruct (incoming_vehicles state) as [|iv' l]; [done|].
  injection Hhd as ->. cbn [rfor]. unfold timestep_raises, dt_compatible. by rewrite Haw.
Qed.

(** ** The solver pool *)

Definition pool_wf (p : SolverPool) : Prop :=
  exists g, executor p = Some g /\ (g < pool_next p)%nat.

(** Other tasks may rotate the executor while a solve awaits its worker; they
    never stop the pool and their own gauge updates are balanced. *)
Definition fair_others (others : nat -> SolverPool -> SolverPool) : Prop :=
  forall i p, pool_wf p -> pool_wf (others i p) /\ inflight (others i p) = inflight p.

Lemma recreate_rotates p reason g :
  pool_wf p ->
  pool_wf (_recreate p reason (Some g)) /\ executor (_recreate p reason (Some g)) <> Some g /\
  inflight (_recreate p reason (Some g)) = inflight p.
Proof.
  intros (g' & He & Hlt). unfold _recreate. cbn [executor count_broken]. rewrite He.
  case_bool_decide; simplify_eq; unfold pool_wf; cbn.
  - split_and!; [eexists; split; [done | lia] | intros [=]; lia | done].
  - split_and!; [eauto | congruence | done].
Qed.

Lemma add_inflight_wf p n : pool_wf (add_inflight p n) <-> pool_wf p.
Proof. done. Qed.

Lemma failed_attempt others i p reason g :
  fair_others others -> pool_wf p ->
  let p' := add_inflight (_recreate (others i (add_inflight p 1)) reason (Some g)) (-1) in
  pool_wf p' /\ executor p' <> Some g /\ inflight p' = inflight p.
Proof.
  intros Hf Hp. destruct (Hf i (add_inflight p 1)) as [Hw Hi]; [done|].
  destruct (recreate_rotates _ reason g Hw) as (H1 & H2 & H3).
  cbn -[_recreate]. rewrite H3, Hi. cbn. split_and!; [exact H1 | exact H2 | lia].
Qed.

(** What the last attempt's outcome becomes. *)
Definition final_outcome (tl : Q) (o : attempt (result opt_error OptimizationResult))
  : result pool_error OptimizationResult :=
  match o with
  | Returned (Ok r) => Ok r
  | Returned (Err e) => Err (PoolSolver e)
  | BrokenProcessPool => Err (PoolSolver (SolverError "broken_pool"))
  | WaitTimeout => Err (PoolSolver (SolverTimeoutError tl))
  end.

Lemma attempt2 run others tl p g :
  fair_others others -> pool_wf p -> executor p = Some g ->
  let res := pool_attempt run others tl 2 p
               (fun p => (Err (PoolSolver (SolverError "broken_pool")), p)) in
  res.1 = final_outcome tl (run 2%nat g) /\ inflight res.2 = inflight p /\ pool_wf res.2.
Proof.
  intros Hf Hp Hg. unfold pool_attempt. rewrite Hg.
  destruct (Hf 2%nat (add_inflight p 1)) as [Hw Hi]; [done|].
  destruct (failed_attempt others 2 p "broken_pool" g Hf Hp) as (B1 & _ & B3).
  destruct (failed_attempt others 2 p "timeout" g Hf Hp) as (T1 & _ & T3).
  destruct (run 2%nat g) as [[r|e]| |]; cbn -[_recreate]; split_and!; try done;
    cbn in Hi; lia.
Qed.

(** SolverPool.solve retries exactly once, on a different executor, and only after a
    crash or a parent timeout; a solver error is passed on at once, the second failure
    becomes broken_pool or SolverTimeoutError, the in-flight gauge is restored and the
    pool stays usable, also when other tasks rotate the executor meanwhile. *)
Theorem pool_solve_outcome run others tl p g :
  fair_others others -> pool_wf p -> executor p = Some g ->
  let res := pool_solve run others tl p in
  inflight res.2 = inflight p /\ pool_wf res.2 /\
  match run 1%nat g with
  | Returned (Ok r) => res.1 = Ok r
  | Returned (Err e) => res.1 = Err (PoolSolver e)
  | _ => exists g', g' <> g /\ res.1 = final_outcome tl (run 2%nat g')
  end.
Proof.
  intros Hf Hp Hg.
  remember (pool_solve run others tl p) as res eqn:Hres. cbn zeta.
  unfold pool_solve in Hres. unfold pool_attempt at 1 in Hres. rewrite Hg in Hres.
  destruct (Hf 1%nat (add_inflight p 1)) as [Hw Hi]; [done|].
  assert (forall reason,
    let p' := add_inflight (_recreate (others 1%nat (add_inflight p 1)) reason (Some g)) (-1) in
    let res := pool_attempt run others tl 2 p'
                 (fun p => (Err (PoolSolver (SolverError "broken_pool")), p)) in
    inflight res.2 = inflight p /\ pool_wf res.2 /\
    exists g', g' <> g /\ res.1 = final_outcome tl (run 2%nat g')) as Hretry.
  { intros reason. destruct (failed_attempt others 1 p reason g Hf Hp) as (H1 & H2 & H3).
    set (p' := add_inflight (_recreate _ reason _) _) in *. destruct H1 as (g' & Hg' & Hlt).
    destruct (attempt2 run others tl p' g' Hf ltac:(exists g'; eauto) Hg') as (R1 & R2 & R3).
    split_and!; [by rewrite R2 | exact R3 | exists g'; split; [congruence | exact R1]]. }
  destruct (run 1%nat g) as [[r|e]| |]; cbn [Nat.eqb] in Hres; subst res.
  - cbn in Hi |- *. split_and!; [lia | exact Hw | done].
  - cbn in Hi |- *. split_and!; [lia | exact Hw | done].
  - apply (Hretry "broken_pool").
  - apply (Hretry "timeout").
Qed.

(** ** Witnesses *)

(** A backend that returns the plan of the small depot. *)
Definition some_values (a : assignment) : valuation :=
  {| val_P_charge := fun b t => Some (P_charge a b t);
     val_SoC := fun b t => Some (SoC a b t);
     val_y_charge := fun b t => Some (y_charge a b t);
     val_P_grid := fun t => Some (P_grid a t);
     val_P_peak := Some (P_peak a);
     val_P_batt := fun t => Some (P_batt a t);
     val_SoC_batt := fun t => Some (SoC_batt a t);
     val_P_batt_discharge := fun t => Some (P_batt_discharge a t);
     val_P_batt_charge := fun t => Some (P_batt_charge a t);
     val_P_precond := fun t => Some (P_precond a t);
     val_precond_slack := fun t => Some (precond_slack a t);
     val_total_kwh_period := Some (total_kwh_period a);
     val_kwh_under := Some (kwh_under a);
     val_kwh_over := Some (kwh_over a) |}.

(** It answers only when its plan is feasible. *)
Definition ex_backend : backend := fun m v tl w =>
  if problem_feasible ex_state m v (ex_plan 1)
  then Ok {| termination_condition := optimal; solver_time := None;
             solver_values := some_values (ex_plan 1) |}
  else Err v.

Definition no_backend : backend := fun m v tl w => Err v.

Definition result_or (r : result opt_error OptimizationResult) : OptimizationResult :=
  match r with
  | Ok x => x
  | Err _ => make_result "" [] [] [] None None 0 None None "" ""
  end.

Lemma result_or_ok r : is_ok r = true -> r = Ok (result_or r).
Proof. by destruct r. Qed.

Definition ex_result : OptimizationResult :=
  result_or (optimize no_backend ex_backend ex_config ex_state 30 None (Some (aware_utc 0)) 0 "run").

Lemma ex_result_ok :
  optimize no_backend ex_backend ex_config ex_state 30 None (Some (aware_utc 0)) 0 "run" = Ok ex_result.
Proof. apply result_or_ok. vm_compute. reflexivity. Qed.

Lemma ex_backend_sound : backend_sound ex_state ex_config ex_backend.
Proof.
  intros m v tl w rep H _. unfold ex_backend in H.
  destruct (problem_feasible _ _ _ _) eqn:E in H; [|done]. inv_ok. exact E.
Qed.

Lemma optimize_guarantees_departure_witness :
  optimize no_backend ex_backend ex_config ex_state 30 None (Some (aware_utc 0)) 0 "run" = Ok ex_result /\
  status ex_result = "completed".
Proof.
  split; [exact ex_result_ok|].
  apply (optimize_guarantees_departure no_backend ex_backend ex_config ex_state 30 None (Some (aware_utc 0)) 0 "run").
  exact ex_result_ok.
Defined.

Lemma optimize_respects_limits_witness :
  backend_sound ex_state ex_config ex_backend /\
  exists g, grid_power ex_result !! 0%nat = Some g /\ g <= max_site_power ex_config.
Proof.
  split; [exact ex_backend_sound|].
  destruct (optimize_respects_limits no_backend ex_backend ex_config ex_state 30 (Some (aware_utc 0)) 0 "run" ex_result)
    with (t := 0%nat) as (g & H1 & _ & H2 & _).
  - intros m v tl w rep H _. discriminate H.
  - exact ex_backend_sound.
  - intros m v tl w v' b [= <-] _. split; reflexivity.
  - exact ex_result_ok.
  - cbn. lia.
  - exists g. split; [exact H1 | exact H2].
Defined.

Definition idle_backend : backend := fun m v tl w =>
  Ok {| termination_condition := maxTimeLimit; solver_time := None; solver_values := v |}.

Lemma timeout_without_incumbent_raises_witness :
  optimize idle_backend no_backend ex_config ex_state 30 (Some ex_result) (Some (aware_utc 0)) 0 "run"
  = Err (SolverTimeoutError 30).
Proof.
  apply (timeout_without_incumbent_raises idle_backend no_backend ex_config ex_state 30
           (Some ex_result) (Some (aware_utc 0)) 0 "run" ex_model).
  - intros m v tl w. eexists. split; [reflexivity|]. split; reflexivity.
  - exact ex_model_ok.
Defined.

(** The same depot an hour later: [bus_1], which the previous plan was charging,
    is on route. *)
Definition ex_state_on_route : DepotState :=
  {| vehicle_socs := vehicle_socs ex_state; battery_soc := battery_soc ex_state;
     prices := prices ex_state; demand_charge_rate := demand_charge_rate ex_state;
     current_month_peak := current_month_peak ex_state;
     vehicle_availability := [("bus_1", [false; true]); ("bus_2", [true; false])];
     energy_requirements := []; departure_times := [];
     building_power := building_power ex_state; incoming_vehicles := [];
     vehicle_departure_soc_min := []; vehicle_departure_soc_max := [];
     vehicle_priorities := []; preconditioning_requests := [];
     cumulative_kwh_period := 0 |}.

Definition ex_model_on_route : milp :=
  model_or (build_optimization_model ex_state_on_route ex_config (aware_utc 0)).

Definition ex_idle_plan : assignment :=
  {| P_charge := fun _ _ => 0;
     SoC := fun b _ => if String.eqb b "bus_1" then 1 # 2 else 9 # 10;
     y_charge := fun _ _ => 0;
     P_grid := fun _ => 5; P_peak := 30;
     P_batt := fun _ => 0; SoC_batt := fun _ => 1 # 2;
     P_batt_discharge := fun _ => 0; P_batt_charge := fun _ => 0;
     P_precond := fun _ => 0; precond_slack := fun _ => 0;
     total_kwh_period := 0; kwh_under := 0; kwh_over := 0 |}.

(** Cold, the problem is feasible; warm-started, it is not. *)
Lemma warm_start_breaks_on_route_witness :
  problem_feasible ex_state_on_route ex_model_on_route (initial_values ex_state_on_route)
    ex_idle_plan = true /\
  problem_feasible ex_state_on_route ex_model_on_route
    (warm_start_model ex_state_on_route ex_config ex_result ex_model_on_route
       (initial_values ex_state_on_route)) ex_idle_plan = false.
Proof.
  split; [vm_compute; reflexivity|].
  apply (warm_start_breaks_on_route ex_state_on_route ex_config ex_result (aware_utc 0) ex_model_on_route
           "bus_1" {| charging_power := [45; 0]; soc := [1 # 2; 95 # 100] |} 45).
  - apply model_or_ok. vm_compute. reflexivity.
  - cbn. left.
  - reflexivity.
  - vm_compute. reflexivity.
  - reflexivity.
  - discriminate.
Defined.

Definition ex_pool : SolverPool :=
  {| executor := Some 0%nat; pool_next := 1; inflight := 0; broken := [];
     worker_alarm_grace_s := 15; parent_timeout_buffer_s := 5 |}.

(** A worker crash on the first executor, then a result. *)
Lemma pool_solve_outcome_witness :
  exists g', g' <> 0%nat /\
    (pool_solve (fun i g => if (i =? 1)%nat then BrokenProcessPool else Returned (Ok ex_result))
       (fun _ p => p) 30 ex_pool).1 = Ok ex_result.
Proof.
  assert (Hf : fair_others (fun _ p => p)) by (intros i p Hp; split; [exact Hp | reflexivity]).
  assert (Hw : pool_wf ex_pool) by (exists 0%nat; split; [reflexivity | cbn; lia]).
  exact (proj2 (proj2 (pool_solve_outcome
    (fun i g => if (i =? 1)%nat then BrokenProcessPool else Returned (Ok ex_result))
    (fun _ p => p) 30 ex_pool 0%nat Hf Hw eq_refl))).
Defined.

Definition ex_state_incoming : DepotState :=
  {| vehicle_socs := vehicle_socs ex_state; battery_soc := battery_soc ex_state;
     prices := prices ex_state; demand_charge_rate := demand_charge_rate ex_state;
     current_month_peak := current_month_peak ex_state;
     vehicle_availability := vehicle_availability ex_state;
     energy_requirements := []; departure_times := [];
     building_power := building_power ex_state;
     incoming_vehicles :=
       [{| iv_vehicle_id := "bus_2"; iv_external_id := "B2"; iv_expected_soc := 9 # 10;
           iv_arrival_time := aware_utc hour_us; iv_battery_kwh := 100;
           iv_max_charge_kw := 50; iv_origin_depot_id := "north" |}];
     vehicle_departure_soc_min := []; vehicle_departure_soc_max := [];
     vehicle_priorities := []; preconditioning_requests := [];
     cumulative_kwh_period := 0 |}.

Lemma default_horizon_rejects_incoming_witness :
  optimize ex_backend no_backend ex_config ex_state_incoming 30 None None 0 "run"
  = Err TypeError.
Proof.
  apply (default_horizon_rejects_incoming ex_backend no_backend ex_config ex_state_incoming 30
           None 0 "run"
           {| iv_vehicle_id := "bus_2"; iv_external_id := "B2"; iv_expected_soc := 9 # 10;
              iv_arrival_time := aware_utc hour_us; iv_battery_kwh := 100;
              iv_max_charge_kw := 50; iv_origin_depot_id := "north" |}).
  - vm_compute. reflexivity.
  - cbn. lia.
  - reflexivity.
  - reflexivity.
Defined.
