(* ===== verification/Allocator.v ===== *)
(** * Charger allocation ([src/core/optimizer/allocator.py])

    After the optimisation, [allocate_chargers] spreads each timestep's charging
    power over the physical chargers: vehicles in priority order, charger groups
    from the highest rating down, each charger up to what is left of its
    capacity in that timestep. *)

From S2P Require Import Prelude Models.
From Stdlib Require Import ZArith QArith Lqa Lia.
From stdpp Require Import base list strings gmap.

#[local] Open Scope Q_scope.

Record ChargerAssignment := {
  ca_charger_id : string;
  ca_vehicle_id : string;
  ca_timestep : nat;
  ca_power_kw : Q
}.

(** The locals of one timestep: [used_chargers], [charger_capacity], what was
    appended to [assignments], and the current vehicle's [remaining_power]. *)
Record alloc_state := {
  used_chargers : gset string;
  charger_capacity : dict string Q;
  assignments : list ChargerAssignment;
  remaining_power : Q
}.

Section Allocate.
Context (config : DepotConfig) (charger_ids_by_rating : list (Q * list string)).

(** [charger_capacity] at the start of a timestep. *)
Definition initial_capacity : dict string Q :=
  foldl (fun cap '(rated_kw, charger_ids) =>
           foldl (fun cap charger_id => cap +{ charger_id := rated_kw }) cap charger_ids)
    [] charger_ids_by_rating.

(** An empty access set means every vehicle can use the charger. *)
Definition accessible (vehicle_id charger_id : string) : bool :=
  let accessible_vehicles := dget_or (charger_vehicle_access config) charger_id ∅ in
  bool_decide (accessible_vehicles = ∅) || bool_decide (vehicle_id ∈ accessible_vehicles).

(** Allocate to one charger with capacity left. *)
Definition allocate_one (t : nat) (vehicle_id charger_id : string) (available_capacity : Q)
    (s : alloc_state) : alloc_state :=
  let allocated_power := pymin (remaining_power s) available_capacity in
  let left_ := available_capacity - allocated_power in
  {| used_chargers := if left_ <?q (1 # 10) then {[charger_id]} ∪ used_chargers s
                      else used_chargers s;
     charger_capacity := charger_capacity s +{ charger_id := left_ };
     assignments := assignments s ++ [{| ca_charger_id := charger_id;
                                         ca_vehicle_id := vehicle_id;
                                         ca_timestep := t;
                                         ca_power_kw := allocated_power |}];
     remaining_power := remaining_power s - allocated_power |}.

(** The loop over [accessible_chargers]. *)
Fixpoint allocate_to (t : nat) (vehicle_id : string) (chargers : list string)
    (s : alloc_state) : alloc_state :=
  match chargers with
  | [] => s
  | charger_id :: rest =>
      if remaining_power s <=?q 0 then s
      else
        let available_capacity := dget_or (charger_capacity s) charger_id 0 in
        if available_capacity <=?q 0 then allocate_to t vehicle_id rest s
        else allocate_to t vehicle_id rest
               (allocate_one t vehicle_id charger_id available_capacity s)
  end.

(** The loop over [sorted_groups]. *)
Fixpoint allocate_groups (t : nat) (vehicle_id : string) (groups : list (Q * list string))
    (s : alloc_state) : alloc_state :=
  match groups with
  | [] => s
  | (_, charger_ids) :: rest =>
      if remaining_power s <=?q 0 then s
      else
        let accessible_chargers :=
          List.filter (fun c => negb (bool_decide (c ∈ used_chargers s)) && accessible vehicle_id c)
            charger_ids in
        allocate_groups t vehicle_id rest (allocate_to t vehicle_id accessible_chargers s)
  end.

Definition sorted_groups : list (Q * list string) :=
  sort_by (fun x y => fst y <=?q fst x) charger_ids_by_rating.

Definition allocate_vehicle (t : nat) (s : alloc_state) (vp : string * Q) : alloc_state :=
  let '(vehicle_id, power_kw) := vp in
  allocate_groups t vehicle_id sorted_groups
    {| used_chargers := used_chargers s; charger_capacity := charger_capacity s;
       assignments := assignments s; remaining_power := power_kw |}.

Definition start_timestep : alloc_state :=
  {| used_chargers := ∅; charger_capacity := initial_capacity; assignments := [];
     remaining_power := 0 |}.

Definition allocate_timestep (t : nat) (charging_vehicles : list (string * Q)) : alloc_state :=
  foldl (allocate_vehicle t) start_timestep charging_vehicles.

(** The vehicles whose planned power at [t] exceeds 0.1 kW. *)
Fixpoint charging_at (t : nat) (sched : dict string VehicleSchedule)
  : result opt_error (list (string * Q)) :=
  match sched with
  | [] => Ok []
  | (vid, data) :: rest =>
      match charging_power data !! t with
      | None => Err IndexError
      | Some p =>
          let? l := charging_at t rest in
          Ok (if (1 # 10) <?q p then (vid, p) :: l else l)
      end
  end.

(** [next((t for t, power in enumerate(charging_power) if power > 0.1), n)]. *)
Fixpoint first_charge (powers : list Q) (t : nat) (n : nat) : nat :=
  match powers with
  | [] => n
  | p :: rest => if (1 # 10) <?q p then t else first_charge rest (S t) n
  end.

Definition default_priorities (sched : dict string VehicleSchedule) (n : nat) : dict string Q :=
  foldl (fun d '(vid, data) =>
           d +{ vid := inject_Z (Z.of_nat (first_charge (charging_power data) 0 n)) })
    [] sched.

(** The sort key: a vehicle without a priority comes last ([float("inf")]). *)
Definition priority_le (prio : dict string Q) (x y : string * Q) : bool :=
  match prio @? fst x, prio @? fst y with
  | Some a, Some b => a <=?q b
  | Some _, None => true
  | None, None => true
  | None, Some _ => false
  end.

Definition allocate_chargers (res : OptimizationResult)
    (vehicle_priorities : option (dict string Q))
  : result opt_error (list ChargerAssignment) :=
  let n := length (grid_power res) in
  let prio := match vehicle_priorities with
              | Some p => p
              | None => default_priorities (schedule res) n
              end in
  rfold (fun out t =>
      let? charging_vehicles := charging_at t (schedule res) in
      Ok (out ++ assignments (allocate_timestep t
                                (sort_by (priority_le prio) charging_vehicles))))
    [] (seq 0 n).
End Allocate.
