(* ===== verification/AllocatorFacts.v ===== *)
(** * Facts about charger allocation

    No charger is given more than its rating in a timestep, no vehicle more than
    the plan asks for, only chargers the vehicle can reach are used, and power
    is left unallocated only when every reachable charger is exhausted. *)

From S2P Require Import Prelude Models Allocator.
From Stdlib Require Import ZArith QArith Lqa Lia.
From stdpp Require Import base list strings gmap.

#[local] Open Scope Q_scope.

(** Power of the assignments that satisfy [f]. *)
Definition total (f : ChargerAssignment -> bool) (l : list ChargerAssignment) : Q :=
  Qsum (map (fun a => if f a then ca_power_kw a else 0) l).

Definition on_charger (c : string) (a : ChargerAssignment) : bool :=
  String.eqb (ca_charger_id a) c.
Definition at_step (c : string) (t : nat) (a : ChargerAssignment) : bool :=
  String.eqb (ca_charger_id a) c && (ca_timestep a =? t)%nat.
Definition for_vehicle (v : string) (t : nat) (a : ChargerAssignment) : bool :=
  String.eqb (ca_vehicle_id a) v && (ca_timestep a =? t)%nat.

Lemma total_app f l1 l2 : total f (l1 ++ l2) == total f l1 + total f l2.
Proof. unfold total. rewrite map_app. apply Qsum_app. Qed.

Lemma total_one f a : total f [a] == if f a then ca_power_kw a else 0.
Proof. unfold total. cbn. lra. Qed.

Lemma total_none f l : (forall a, a ∈ l -> f a = false) -> total f l == 0.
Proof.
  unfold total. induction l as [|a l IH]; intros H; cbn; [done|].
  rewrite (H a) by left. rewrite IH; [lra|]. intros; apply H; by right.
Qed.

Lemma total_ext f g l : (forall a, a ∈ l -> f a = g a) -> total f l == total g l.
Proof. intros H. apply Qsum_map_ext. intros a Ha. by rewrite H. Qed.

Definition cap_of (s : alloc_state) (c : string) : Q := dget_or (charger_capacity s) c 0.

Section Facts.
Context (config : DepotConfig) (groups : list (Q * list string)).

Notation cap0 := (fun c => dget_or (initial_capacity groups) c 0).

(** The invariant of a timestep's loops. *)
Record alloc_inv (t : nat) (s : alloc_state) : Prop := {
  inv_balance : forall c, total (on_charger c) (assignments s) + cap_of s c == cap0 c;
  inv_floor : forall c, pymin 0 (cap0 c) <= cap_of s c;
  inv_used : forall c, c ∈ used_chargers s -> cap_of s c < 1 # 10;
  inv_entries : forall a, a ∈ assignments s ->
    ca_timestep a = t /\ 0 < ca_power_kw a /\ accessible config (ca_vehicle_id a) (ca_charger_id a)
}.

(** What allocating to one vehicle may change: capacity only shrinks, entries
    are only added, and they are this vehicle's. *)
Record alloc_step (v : string) (s s' : alloc_state) : Prop := {
  step_cap : forall c, cap_of s' c <= cap_of s c;
  step_used : used_chargers s ⊆ used_chargers s';
  step_out : exists l, assignments s' = assignments s ++ l /\
               (forall a, a ∈ l -> ca_vehicle_id a = v) /\
               Qsum (map ca_power_kw l) == remaining_power s - remaining_power s';
  step_rem : 0 <= remaining_power s -> 0 <= remaining_power s'
}.

#[export] Instance alloc_step_refl v : Reflexive (alloc_step v).
Proof.
  intros s. split; [intros; lra | done | | done].
  exists []. rewrite app_nil_r. split_and!; [done | by intros a ?%not_elem_of_nil | cbn; lra].
Qed.

#[export] Instance alloc_step_trans v : Transitive (alloc_step v).
Proof.
  intros s1 s2 s3 [C1 U1 (l1 & O1 & V1 & T1) R1] [C2 U2 (l2 & O2 & V2 & T2) R2]. split.
  - intros c. specialize (C1 c). specialize (C2 c). lra.
  - set_solver.
  - exists (l1 ++ l2). rewrite O2, O1, app_assoc. split_and!; [done | set_solver |].
    rewrite map_app, Qsum_app. lra.
  - auto.
Qed.

Lemma cap_of_dset s c c' x :
  dget_or (charger_capacity s +{ c := x }) c' 0 = 
  if decide (c = c') then x else dget_or (charger_capacity s) c' 0.
Proof. unfold dget_or. rewrite dget_dset. by case_decide. Qed.

Lemma allocate_one_ok t v c s :
  alloc_inv t s -> 0 < remaining_power s -> 0 < cap_of s c -> accessible config v c = true ->
  let s' := allocate_one t v c (cap_of s c) s in
  alloc_inv t s' /\ alloc_step v s s' /\ (remaining_power s' <= 0 \/ cap_of s' c <= 0).
Proof.
  intros [I1 I2 I3 I4] Hr Hc Hacc. unfold allocate_one. cbn zeta.
  set (p := pymin (remaining_power s) (cap_of s c)).
  assert (Hp0 : 0 < p) by (unfold p, pymin; case_q; lra).
  assert (Hpr : p <= remaining_power s) by apply pymin_l.
  assert (Hpc : p <= cap_of s c) by apply pymin_r.
  unfold cap_of in *.
  split_and!; [split|split|]; unfold cap_of; cbn [charger_capacity assignments used_chargers remaining_power].
  - intros c'. rewrite cap_of_dset, total_app, total_one. specialize (I1 c').
    unfold on_charger at 2. cbn [ca_charger_id ca_power_kw].
    case_decide as E; [subst c'; rewrite String.eqb_refl; lra|].
    apply String.eqb_neq in E. rewrite E. lra.
  - intros c'. rewrite cap_of_dset. specialize (I2 c'). case_decide; [subst|lra].
    unfold pymin in I2 |- *. revert I2. case_q; lra.
  - intros c'. rewrite cap_of_dset. specialize (I3 c').
    destruct (_ <?q _) eqn:E; qbool; case_decide; subst; try done; try (intros; lra).
    + intros [?%elem_of_singleton|?]%elem_of_union; [congruence | auto].
    + intros Hu. specialize (I3 Hu). lra.
  - intros a. rewrite elem_of_app, list_elem_of_singleton. intros [Ha| ->]; [auto|]. cbn. auto.
  - intros c'. rewrite cap_of_dset. case_decide; subst; unfold cap_of in *; lra.
  - destruct (_ <?q _); set_solver.
  - eexists. split; [reflexivity|]. split; [set_solver|]. cbn. lra.
  - intros _. lra.
  - rewrite cap_of_dset, decide_True by done. unfold p, pymin. case_q; [right | left]; lra.
Qed.

(** The chargers a loop has tried are exhausted, or nothing remains to place. *)
Definition drained (s : alloc_state) (cs : list string) : Prop :=
  remaining_power s <= 0 \/ forall c, c ∈ cs -> cap_of s c < 1 # 10.

Lemma drained_mono v s s' cs :
  alloc_step v s s' -> 0 <= remaining_power s - remaining_power s' ->
  drained s cs -> drained s' cs.
Proof.
  intros Hs Hle [H|H]; [left; lra | right]. intros c Hc.
  pose proof (step_cap _ _ _ Hs c). specialize (H c Hc). lra.
Qed.

Lemma step_spent t v s s' : alloc_inv t s' -> alloc_step v s s' ->
  0 <= remaining_power s - remaining_power s'.
Proof.
  intros Hi [_ _ (l & Ho & _ & <-) _]. apply Qsum_nonneg. intros a Ha.
  destruct (inv_entries _ _ Hi a) as (_ & Hp & _); [rewrite Ho; set_solver | lra].
Qed.

Lemma allocate_to_ok t v cs s :
  alloc_inv t s -> (forall c, c ∈ cs -> accessible config v c = true) ->
  let s' := allocate_to t v cs s in
  alloc_inv t s' /\ alloc_step v s s' /\ drained s' cs.
Proof.
  cbn zeta. revert s. induction cs as [|c cs IH]; intros s Hi Hacc; cbn [allocate_to].
  { split_and!; [done | done | right; by intros c ?%not_elem_of_nil]. }
  destruct (remaining_power s <=?q 0) eqn:Er; qbool; [split_and!; [done | done | by left]|].
  change (dget_or (charger_capacity s) c 0) with (cap_of s c).
  assert (Hrest : forall c', c' ∈ cs -> accessible config v c' = true) by (intros; apply Hacc; by right).
  destruct (cap_of s c <=?q 0) eqn:Ec; qbool.
  - destruct (IH s Hi Hrest) as (H1 & H2 & H3). split_and!; [done | done |].
    destruct H3 as [H3|H3]; [by left | right]. intros c' [->|Hc']%elem_of_cons; [|auto].
    pose proof (step_cap _ _ _ H2 c). lra.
  - destruct (allocate_one_ok t v c s Hi Er Ec) as (H1 & H2 & H3); [apply Hacc; left|].
    destruct (IH _ H1 Hrest) as (H4 & H5 & H6). split_and!; [done | by etransitivity |].
    pose proof (step_spent _ _ _ _ H4 H5) as Hsp.
    destruct H6 as [H6|H6]; [by left|]. destruct H3 as [H3|H3]; [left; lra | right].
    intros c' [->|Hc']%elem_of_cons; [|auto]. pose proof (step_cap _ _ _ H5 c). lra.
Qed.

Lemma allocate_groups_ok t v gs s :
  alloc_inv t s ->
  let s' := allocate_groups config t v gs s in
  alloc_inv t s' /\ alloc_step v s s' /\
  drained s' (List.filter (accessible config v) (gs ≫= snd)).
Proof.
  cbn zeta. revert s. induction gs as [|[kw ids] gs IH]; intros s Hi; cbn [allocate_groups].
  { split_and!; [done | done | right; by intros c ?%not_elem_of_nil]. }
  destruct (remaining_power s <=?q 0) eqn:Er; qbool; [split_and!; [done | done | by left]|].
  set (cs := List.filter _ ids).
  assert (Hcs : forall c, c ∈ cs -> accessible config v c = true).
  { intros c. unfold cs. rewrite list_elem_of_In, filter_In, andb_true_iff. tauto. }
  destruct (allocate_to_ok t v cs s Hi Hcs) as (H1 & H2 & H3).
  destruct (IH _ H1) as (H4 & H5 & H6). split_and!; [done | by etransitivity |].
  pose proof (step_spent _ _ _ _ H4 H5) as Hsp.
  apply (drained_mono v _ _ _ H5 Hsp) in H3.
  destruct H6 as [H6|H6]; [by left|]. destruct H3 as [H3|H3]; [by left | right].
  intros c. rewrite list_elem_of_In, filter_In. intros [Hc Hacc].
  cbn in Hc. rewrite in_app_iff in Hc. destruct Hc as [Hc|Hc].
  - destruct (decide (c ∈ used_chargers s)) as [Hu|Hu].
    + pose proof (inv_used _ _ Hi c Hu). pose proof (step_cap _ _ _ H2 c).
      pose proof (step_cap _ _ _ H5 c). lra.
    + apply H3. unfold cs. rewrite list_elem_of_In, filter_In, andb_true_iff.
      rewrite bool_decide_eq_false_2 by done. done.
  - apply H6. rewrite list_elem_of_In, filter_In. done.
Qed.

Lemma start_inv t : alloc_inv t (start_timestep groups).
Proof.
  split; cbn.
  - intros c. unfold cap_of, total. cbn. apply Qplus_0_l.
  - intros c. unfold cap_of. cbn. apply pymin_r.
  - set_solver.
  - set_solver.
Qed.

(** The chargers of the depot that [v] can use. *)
Definition reachable (v : string) : list string :=
  List.filter (accessible config v) (sorted_groups groups ≫= snd).

Lemma allocate_vehicle_ok t s v p :
  alloc_inv t s -> 0 < p ->
  let s' := allocate_vehicle config groups t s (v, p) in
  alloc_inv t s' /\ (forall c, cap_of s' c <= cap_of s c) /\
  exists l, assignments s' = assignments s ++ l /\
    (forall a, a ∈ l -> ca_vehicle_id a = v) /\
    Qsum (map ca_power_kw l) <= p /\
    (Qsum (map ca_power_kw l) == p \/ forall c, c ∈ reachable v -> cap_of s' c < 1 # 10).
Proof.
  intros Hi Hp. unfold allocate_vehicle. cbn zeta.
  set (s0 := {| used_chargers := _ |}).
  assert (Hi0 : alloc_inv t s0) by (destruct Hi; split; done).
  destruct (allocate_groups_ok t v (sorted_groups groups) s0 Hi0) as (H1 & H2 & H3).
  destruct H2 as [Hc _ (l & Ho & Hv & Hsum) Hr]. cbn in Hsum, Hr.
  split_and!; [done | done |]. exists l. split_and!; [done | done | lra |].
  destruct H3 as [H3|H3]; [left; lra | by right].
Qed.

(** ** A whole timestep *)

Lemma foldl_ok t l s :
  alloc_inv t s -> (forall v p, (v, p) ∈ l -> 0 < p) ->
  let s' := foldl (allocate_vehicle config groups t) s l in
  alloc_inv t s' /\ (forall c, cap_of s' c <= cap_of s c) /\
  exists out, assignments s' = assignments s ++ out /\
    forall a, a ∈ out -> ca_vehicle_id a ∈ map fst l.
Proof.
  cbn zeta. revert s. induction l as [|[v p] l IH]; intros s Hi Hpos; cbn [foldl].
  { split_and!; [done | intros; lra |]. exists []. rewrite app_nil_r.
    split; [done | by intros a ?%not_elem_of_nil]. }
  assert (Hp : 0 < p) by (apply (Hpos v); left).
  destruct (allocate_vehicle_ok t s v p Hi Hp) as (H1 & H2 & l1 & H3 & H4 & _).
  destruct (IH _ H1) as (H5 & H6 & l2 & H7 & H8); [intros; eapply Hpos; by right|].
  split_and!; [done | intros c; specialize (H2 c); specialize (H6 c); lra |].
  exists (l1 ++ l2). rewrite H7, H3, app_assoc. split; [done|].
  intros a [Ha|Ha]%elem_of_app; cbn; [rewrite (H4 _ Ha); left | right; auto].
Qed.

Lemma total_of_vehicle t v l :
  (forall a, a ∈ l -> ca_vehicle_id a = v /\ ca_timestep a = t) ->
  total (for_vehicle v t) l == Qsum (map ca_power_kw l).
Proof.
  intros H. apply Qsum_map_ext. intros a Ha.
  unfold for_vehicle. destruct (H a Ha) as [-> ->].
  rewrite String.eqb_refl, Nat.eqb_refl. cbn. lra.
Qed.

Lemma total_not_vehicle t v l :
  (forall a, a ∈ l -> ca_vehicle_id a <> v) -> total (for_vehicle v t) l == 0.
Proof.
  intros H. apply total_none. intros a Ha. apply andb_false_iff. left.
  apply String.eqb_neq. auto.
Qed.

Lemma timestep_vehicle t l s v p :
  alloc_inv t s -> NoDup (map fst l) -> (forall v p, (v, p) ∈ l -> 0 < p) ->
  (v, p) ∈ l -> (forall a, a ∈ assignments s -> ca_vehicle_id a <> v) ->
  let s' := foldl (allocate_vehicle config groups t) s l in
  total (for_vehicle v t) (assignments s') <= p /\
  (total (for_vehicle v t) (assignments s') == p \/
   forall c, c ∈ reachable v -> cap_of s' c < 1 # 10).
Proof.
  cbn zeta. revert s. induction l as [|[v' p'] l IH]; intros s Hi Hnd Hpos Hin Hs;
    [by apply not_elem_of_nil in Hin|]. cbn [foldl].
  apply NoDup_cons in Hnd as [Hni Hnd].
  assert (Hp' : 0 < p') by (apply (Hpos v'); left).
  assert (Hpos' : forall v p, (v, p) ∈ l -> 0 < p) by (intros; eapply Hpos; by right).
  destruct (allocate_vehicle_ok t s v' p' Hi Hp') as (H1 & H2 & l1 & H3 & H4 & H5 & H6).
  apply elem_of_cons in Hin as [[= <- <-]|Hin].
  - destruct (foldl_ok t l _ H1 Hpos') as (H7 & H8 & l2 & H9 & H10).
    assert (Ht : total (for_vehicle v t)
              (assignments (foldl (allocate_vehicle config groups t)
                              (allocate_vehicle config groups t s (v, p)) l))
            == Qsum (map ca_power_kw l1)).
    { rewrite H9, H3, !total_app, (total_not_vehicle t v (assignments s)) by done.
      rewrite (total_not_vehicle t v l2), (total_of_vehicle t v l1); [lra| |].
      - intros a Ha. split; [auto|]. apply (inv_entries _ _ H1). rewrite H3. set_solver.
      - intros a Ha Hv. apply Hni. rewrite <- Hv. by apply H10. }
    rewrite Ht. split; [lra|]. destruct H6 as [H6|H6]; [left; lra | right].
    intros c Hc. specialize (H6 c Hc). specialize (H8 c). lra.
  - apply IH; try done. rewrite H3. intros a [Ha|Ha]%elem_of_app; [auto|].
    rewrite (H4 a Ha). intros ->. apply Hni. apply list_elem_of_fmap. by exists (v, p).
Qed.

(** ** The whole horizon *)

Lemma charging_at_spec t sched l v p :
  charging_at t sched = Ok l ->
  ((v, p) ∈ l <-> exists sch, (v, sch) ∈ sched /\ charging_power sch !! t = Some p /\ 1 # 10 < p).
Proof.
  revert l. induction sched as [|[v' sch'] sched IH]; intros l H; cbn in H.
  { inv_ok. set_solver. }
  destruct (charging_power sch' !! t) as [p'|] eqn:Ep; [|done]. inv_ok.
  specialize (IH _ Hm). destruct ((1 # 10) <?q p') eqn:Eq; qbool.
  - rewrite elem_of_cons, IH. setoid_rewrite elem_of_cons. split.
    + intros [[= -> ->]|(sch & ? & ?)]; [exists sch'; auto | exists sch; auto].
    + intros (sch & [[= -> ->]|Hin] & Hp & Hgt); [left; congruence | right; eauto].
  - rewrite IH. setoid_rewrite elem_of_cons. split.
    + intros (sch & ? & ?). exists sch; auto.
    + intros (sch & [[= -> ->]|Hin] & Hp & Hgt); [|eauto].
      rewrite Ep in Hp. injection Hp as ->. lra.
Qed.

Lemma charging_at_keys t sched l :
  charging_at t sched = Ok l -> dict_wf sched -> NoDup (map fst l).
Proof.
  unfold dict_wf, dkeys. revert l. induction sched as [|[v' sch'] sched IH]; intros l H Hnd; cbn in H.
  { inv_ok. constructor. }
  destruct (charging_power sch' !! t) as [p'|] eqn:Ep; [|done]. inv_ok.
  apply NoDup_cons in Hnd as [Hni Hnd]. specialize (IH _ Hm Hnd).
  destruct ((1 # 10) <?q p'); [|done]. cbn. apply NoDup_cons. split; [|done].
  intros (vp & -> & Hin)%list_elem_of_fmap. destruct vp as [w q]. apply Hni.
  apply (charging_at_spec _ _ _ _ _ Hm) in Hin as (sch & Hin & _).
  apply list_elem_of_fmap. by exists (w, sch).
Qed.

Section Horizon.
Context (res : OptimizationResult) (prio : option (dict string Q)).

Notation n := (length (grid_power res)).
Definition used_priorities : dict string Q :=
  match prio with Some p => p | None => default_priorities (schedule res) n end.

Definition order_of (t : nat) : list (string * Q) :=
  match charging_at t (schedule res) with
  | Ok cv => sort_by (priority_le used_priorities) cv
  | Err _ => []
  end.

Definition step_of (t : nat) : alloc_state := allocate_timestep config groups t (order_of t).

Lemma allocate_chargers_steps out :
  allocate_chargers config groups res prio = Ok out ->
  out = (seq 0 n ≫= fun t => assignments (step_of t)) /\
  forall t, (t < n)%nat -> is_ok (charging_at t (schedule res)) = true.
Proof.
  unfold allocate_chargers. cbn zeta. fold used_priorities.
  assert (forall l acc out,
    rfold (fun out t => let? cv := charging_at t (schedule res) in
             Ok (out ++ assignments (allocate_timestep config groups t
                        (sort_by (priority_le used_priorities) cv)))) acc l = Ok out ->
    out = acc ++ (l ≫= fun t => assignments (step_of t)) /\
    forall t, t ∈ l -> is_ok (charging_at t (schedule res)) = true) as Hgen.
  { induction l as [|t l IH]; intros acc out' H; cbn in H.
    - inv_ok. cbn. rewrite app_nil_r. split; [done | by intros t ?%not_elem_of_nil].
    - unfold step_of, order_of. destruct (charging_at t (schedule res)) as [cv|] eqn:E; [|done].
      cbn in H. apply IH in H as [-> Hok]. cbn. rewrite E, <- app_assoc. split; [done|].
      intros t' [->|Ht]%elem_of_cons; [by rewrite E | auto]. }
  intros H. apply Hgen in H as [-> Hok]. split; [done|].
  intros t Ht. apply Hok. by apply elem_of_seq_0.
Qed.

Lemma order_pos t v p : (v, p) ∈ order_of t -> 1 # 10 < p.
Proof.
  unfold order_of. destruct (charging_at _ _) eqn:E; [|by intros ?%not_elem_of_nil].
  rewrite elem_of_sort_by. intros H. apply (charging_at_spec _ _ _ _ _ E) in H. naive_solver.
Qed.

Lemma step_inv t : alloc_inv t (step_of t).
Proof.
  apply foldl_ok; [apply start_inv|]. intros v p H. apply order_pos in H. lra.
Qed.

Lemma total_steps (f : ChargerAssignment -> bool) t m k :
  (forall a, f a = true -> ca_timestep a = t) -> (m <= t < m + k)%nat ->
  total f (seq m k ≫= fun t => assignments (step_of t)) == total f (assignments (step_of t)).
Proof.
  intros Hf. revert m. induction k as [|k IH]; intros m Hr; [lia|]. cbn [seq mbind list_bind].
  rewrite total_app. destruct (decide (m = t)) as [->|Hne].
  - rewrite (total_none f (_ ≫= _)); [lra|]. intros a (t' & Ha & Ht')%list_elem_of_bind.
    destruct (f a) eqn:E; [|done]. apply Hf in E. apply (inv_entries _ _ (step_inv t')) in Ha as [Ha _].
    apply elem_of_seq in Ht'. lia.
  - rewrite IH by lia. rewrite (total_none f (assignments (step_of m))); [lra|].
    intros a Ha. destruct (f a) eqn:E; [|done]. apply Hf in E.
    apply (inv_entries _ _ (step_inv m)) in Ha as [Ha _]. lia.
Qed.
End Horizon.
End Facts.

(** ** Main results *)

(** The rating of a charger: the last group that lists it. *)
Definition rating (groups : list (Q * list string)) (c : string) : Q :=
  dget_or (initial_capacity groups) c 0.

(** In every timestep no charger is allocated more than its rating in total, and every
    assignment has positive power, lies within the horizon and uses a charger the
    vehicle has access to. *)
Theorem allocation_within_ratings config groups res prio out :
  allocate_chargers config groups res prio = Ok out ->
  (forall c t, total (at_step c t) out <= pymax 0 (rating groups c)) /\
  (forall a, a ∈ out ->
     0 < ca_power_kw a /\ (ca_timestep a < length (grid_power res))%nat /\
     accessible config (ca_vehicle_id a) (ca_charger_id a) = true).
Proof.
  intros [-> _]%allocate_chargers_steps. set (n := length (grid_power res)). split.
  - intros c t. destruct (decide (t < n)%nat) as [Ht|Ht].
    + rewrite (total_steps config groups res prio _ t) by
        (try lia; intros a Ha; by apply andb_true_iff in Ha as [_ ?%Nat.eqb_eq]).
      pose proof (step_inv config groups res prio t) as [I1 I2 _ I4].
      rewrite (total_ext _ (on_charger c)).
      * specialize (I1 c). specialize (I2 c). fold (rating groups c) in I1, I2.
        unfold pymax, pymin in *. revert I2. repeat case_q; lra.
      * intros a Ha. unfold at_step. destruct (I4 a Ha) as [-> _].
        by rewrite Nat.eqb_refl, andb_true_r.
    + rewrite total_none; [apply pymax_l|]. intros a (t' & Ha & Ht')%list_elem_of_bind.
      apply (inv_entries _ _ _ _ (step_inv config groups res prio t')) in Ha as [Ha _].
      apply elem_of_seq in Ht'. apply andb_false_iff. right. apply Nat.eqb_neq. lia.
  - intros a (t' & Ha & Ht')%list_elem_of_bind. apply elem_of_seq in Ht'.
    apply (inv_entries _ _ _ _ (step_inv config groups res prio t')) in Ha as (-> & Hp & Hacc).
    split_and!; [done | lia | by apply Is_true_true].
Qed.

(** A vehicle is allocated at most its planned power, and either exactly that or every
    charger it can reach is exhausted (less than 0.1 kW left) in that timestep. *)
Theorem allocation_work_conserving config groups res prio out v sch t p :
  allocate_chargers config groups res prio = Ok out ->
  dict_wf (schedule res) -> schedule res @? v = Some sch ->
  (t < length (grid_power res))%nat ->
  charging_power sch !! t = Some p -> 1 # 10 < p ->
  total (for_vehicle v t) out <= p /\
  (total (for_vehicle v t) out == p \/
   forall c, c ∈ reachable config groups v ->
     rating groups c - total (at_step c t) out < 1 # 10).
Proof.
  intros [-> Hok]%allocate_chargers_steps Hwf Hget Ht Hp Hgt.
  assert (Hv : forall a, for_vehicle v t a = true -> ca_timestep a = t)
    by (intros a Ha; by apply andb_true_iff in Ha as [_ ?%Nat.eqb_eq]).
  rewrite (total_steps config groups res prio _ t) by (done || lia).
  assert (Hin : (v, p) ∈ order_of res prio t /\ NoDup (map fst (order_of res prio t))).
  { specialize (Hok t Ht). unfold order_of.
    destruct (charging_at t (schedule res)) as [cv|] eqn:E; [|done]. split.
    - rewrite elem_of_sort_by. apply (charging_at_spec _ _ _ _ _ E).
      exists sch. split; [by apply dget_Some_in | done].
    - rewrite sort_by_perm. by apply (charging_at_keys _ _ _ E). }
  destruct Hin as [Hin Hnd].
  destruct (timestep_vehicle config groups t (order_of res prio t) (start_timestep groups) v p)
    as [H1 H2]; [apply start_inv | done | | done | by intros a ?%not_elem_of_nil |].
  { intros v' p' H. apply order_pos in H. lra. }
  split; [done|]. destruct H2 as [H2|H2]; [by left | right]. intros c Hc.
  assert (Hc' : forall a, at_step c t a = true -> ca_timestep a = t)
    by (intros a Ha; by apply andb_true_iff in Ha as [_ ?%Nat.eqb_eq]).
  rewrite (total_steps config groups res prio _ t) by (done || lia).
  pose proof (step_inv config groups res prio t) as [I1 _ _ I4]. specialize (I1 c).
  rewrite (total_ext _ (on_charger c)).
  - specialize (H2 c Hc). fold (rating groups c) in I1.
    change (foldl _ _ _) with (step_of config groups res prio t) in H2. lra.
  - intros a Ha. unfold at_step. destruct (I4 a Ha) as [-> _].
    by rewrite Nat.eqb_refl, andb_true_r.
Qed.

(** ** Witnesses: two buses share one 50 kW charger, [bus_2] also reaches a
    20 kW one. *)

Definition ex_groups : list (Q * list string) := [(20, ["c2"]); (50, ["c1"])].

Definition ex_access : DepotConfig :=
  {| vehicle_capacities := []; vehicle_max_charge_kw := []; charger_groups := [];
     charger_efficiency := 1;
     charger_vehicle_access := [("c2", {["bus_2"]})];
     battery_capacity := 0; battery_power := 0; battery_efficiency := 1;
     battery_soc_min := 0; battery_soc_max := 1;
     max_site_power := 100; building_load_assumption_kw := 0;
     delta_t := 1; n_timesteps := 1;
     charger_vehicle_access_default := "all_to_all"; tariff_type := "time_of_use";
     energy_cap_kwh := None; under_cap_rate_per_kwh := None;
     over_cap_penalty_per_kwh := None; cap_billing_period := "monthly" |}.

Definition ex_plan_result : OptimizationResult :=
  make_result "run" [("bus_1", {| charging_power := [30]; soc := [1 # 2] |});
                     ("bus_2", {| charging_power := [60]; soc := [1 # 2] |})]
    [0] [90] (Some 90) None 0 (Some 0) None "completed" "gurobi".

(** [bus_1] gets its 30 kW; [bus_2] the other 20 kW of [c1] and all of [c2]:
    40 of its 60 kW. *)
Definition ex_out : list ChargerAssignment :=
  [ {| ca_charger_id := "c1"; ca_vehicle_id := "bus_1"; ca_timestep := 0; ca_power_kw := 30 |};
    {| ca_charger_id := "c1"; ca_vehicle_id := "bus_2"; ca_timestep := 0; ca_power_kw := 50 - 30 |};
    {| ca_charger_id := "c2"; ca_vehicle_id := "bus_2"; ca_timestep := 0; ca_power_kw := 20 |} ].

Lemma ex_allocation : allocate_chargers ex_access ex_groups ex_plan_result None = Ok ex_out.
Proof. vm_compute. reflexivity. Qed.

Lemma allocation_within_ratings_witness :
  total (at_step "c1" 0) ex_out <= pymax 0 (rating ex_groups "c1").
Proof.
  apply (allocation_within_ratings ex_access ex_groups ex_plan_result None ex_out ex_allocation).
Defined.

Lemma allocation_work_conserving_witness :
  total (for_vehicle "bus_2" 0) ex_out <= 60.
Proof.
  apply (allocation_work_conserving ex_access ex_groups ex_plan_result None ex_out "bus_2"
           {| charging_power := [60]; soc := [1 # 2] |} 0 60 ex_allocation).
  - apply (bool_decide_unpack _). vm_compute. exact I.
  - reflexivity.
  - cbn. lia.
  - reflexivity.
  - reflexivity.
Defined.
