(* ===== verification/Datetime.v ===== *)
(** * Calendar arithmetic (Python's [datetime] module)

    What the components use of [datetime]: the wall-clock fields of a UTC
    timestamp, weekdays, and the ISO 8601 rendering. A date is the number of
    days since 1970-01-01. *)

From S2P Require Import Prelude Models.
From Stdlib Require Import ZArith QArith Lia.
From stdpp Require Import base list strings gmap pretty.

#[local] Open Scope Z_scope.

Definition day_us : Z := 24 * hour_us.

(** [dt.date()] and the microseconds since that date's midnight. *)
Definition date_of (us : Z) : Z := us / day_us.
Definition time_of (us : Z) : Z := us mod day_us.

(** [dt.hour], [dt.minute], [dt.second], [dt.microsecond]. *)
Definition hour_of (us : Z) : Z := time_of us / hour_us.
Definition minute_of (us : Z) : Z := time_of us / minute_us mod 60.
Definition second_of (us : Z) : Z := time_of us / usec mod 60.
Definition microsecond_of (us : Z) : Z := us mod usec.

(** [date.weekday()]: Monday is 0; 1970-01-01 was a Thursday. *)
Definition weekday (d : Z) : Z := (d + 3) mod 7.

(** [datetime.combine(date, time)]. *)
Definition dt_combine (d tod : Z) : Z := d * day_us + tod.

(** Year, month and day of a date (proleptic Gregorian calendar, computed from
    400-year eras that start on March 1st). *)
Definition civil_of (d : Z) : Z * Z * Z :=
  let z := d + 719468 in
  let era := z / 146097 in
  let doe := z mod 146097 in
  let yoe := (doe - doe / 1460 + doe / 36524 - doe / 146096) / 365 in
  let doy := doe - (365 * yoe + yoe / 4 - yoe / 100) in
  let mp := (5 * doy + 2) / 153 in
  let day := doy - (153 * mp + 2) / 5 + 1 in
  let month := if mp <? 10 then mp + 3 else mp - 9 in
  let year := yoe + era * 400 + (if month <=? 2 then 1 else 0) in
  (year, month, day).

(** [n] in decimal with leading zeros up to [width] digits. *)
Definition zero_padded (width : nat) (n : Z) : string :=
  let s := pretty n in
  String.append (String.concat "" (replicate (width - String.length s) "0")) s.

(** [dt.isoformat()]: an aware UTC timestamp carries its offset. *)
Definition isoformat (dt : datetime) : string :=
  let us := dt_us dt in
  let '(y, m, d) := civil_of (date_of us) in
  let frac := microsecond_of us in
  zero_padded 4 y +:+ "-" +:+ zero_padded 2 m +:+ "-" +:+ zero_padded 2 d +:+ "T"
  +:+ zero_padded 2 (hour_of us) +:+ ":" +:+ zero_padded 2 (minute_of us)
  +:+ ":" +:+ zero_padded 2 (second_of us)
  +:+ (if frac =? 0 then "" else "." +:+ zero_padded 6 frac)
  +:+ (if dt_aware dt then "+00:00" else "").

Example isoformat_sample :
  isoformat (aware_utc (dt_combine 20147 (7 * hour_us + 5 * minute_us))) = "2025-02-28T07:05:00+00:00".
Proof. vm_compute. reflexivity. Qed.

Lemma hour_range us : 0 <= hour_of us < 24.
Proof.
  unfold hour_of, time_of, day_us, hour_us, usec.
  pose proof (Z.mod_pos_bound us (24 * (3600 * 1000000)) ltac:(lia)).
  split; [apply Z.div_pos; lia | apply Z.div_lt_upper_bound; lia].
Qed.

Lemma weekday_range d : 0 <= weekday d < 7.
Proof. apply Z.mod_pos_bound. lia. Qed.

Lemma date_of_combine d tod : 0 <= tod < day_us -> date_of (dt_combine d tod) = d.
Proof. intros H. unfold date_of, dt_combine. rewrite Z.div_add_l by (unfold day_us, hour_us, usec; lia).
  rewrite Z.div_small by done. lia.
Qed.

Lemma time_of_combine d tod : 0 <= tod < day_us -> time_of (dt_combine d tod) = tod.
Proof.
  intros H. unfold time_of, dt_combine. rewrite Z.add_comm, Z.mod_add by (unfold day_us, hour_us, usec; lia).
  by apply Z.mod_small.
Qed.
