(* ===== verification/Readiness.v ===== *)
(** * Readiness and input snapshots ([src/core/state/readiness.py])

    [evaluate_readiness] decides whether a run is refused, degraded or ready;
    [build_snapshot], [snapshot_to_payload] and [replay_payload] build the
    self-contained input bundle of a run and check it back. [_stub_snapshot]
    ([src/core/controller.py]) is the bundle used when building one fails.

    Values a payload stores are Python objects ([pyobj]). Identifiers are
    canonical UUID strings; a float key is rendered by the parameter
    [str_float] ([str(...)] of a float). *)

From S2P Require Import Prelude Models Datetime.
From Stdlib Require Import ZArith QArith Lqa Lia.
From stdpp Require Import base list strings gmap.

Definition BUILDING_LOAD_METER : string := "meter".
Definition BUILDING_LOAD_FORECAST : string := "forecast_fallback".
Definition BUILDING_LOAD_STATIC : string := "static_assumption".
Definition BUILDING_LOAD_ABSENT : string := "absent".

(** ** Readiness *)

Definition missing_of (config : DepotConfig) (state : DepotState) (schedules_present : bool)
  : list string :=
  (match vehicle_capacities config with [] => ["vehicles"] | _ => [] end)
  ++ (if match charger_groups config with [] => true | _ => false end
         || (n_chargers config =? 0)%Z then ["chargers"] else [])
  ++ (match prices state with [] => ["prices"] | _ => [] end)
  ++ (if schedules_present then [] else ["schedules"])
  ++ (if negb (String.eqb (charger_vehicle_access_default config) "all_to_all")
         && match charger_vehicle_access config with [] => true | _ => false end
      then ["charger_vehicle_access"] else []).

(** The building-load branch: its degraded reasons and assumptions. *)
Definition building_load_assumption (config : DepotConfig) (building_load_source : string)
  : list string * dict string pyobj :=
  if String.eqb building_load_source BUILDING_LOAD_FORECAST then
    (["building_load_meter_unavailable"],
     [("building_load", PDict
        [("source", PStr BUILDING_LOAD_FORECAST);
         ("note", PStr "meter data missing; substituted business-hours forecast pattern")])])
  else if String.eqb building_load_source BUILDING_LOAD_STATIC then
    (["building_load_static_assumption"],
     [("building_load", PDict
        [("source", PStr BUILDING_LOAD_STATIC);
         ("value_kw", PFloat (building_load_assumption_kw config));
         ("note", PStr "no live meter/forecast source configured; depot-level static derate applied to max_grid_kw")])])
  else if String.eqb building_load_source BUILDING_LOAD_ABSENT then
    (["building_load_meter_unavailable"],
     [("building_load", PDict
        [("source", PStr BUILDING_LOAD_ABSENT);
         ("note", PStr "no building-load source available; treated as forecast fallback")])])
  else ([], []).

(** The vehicles whose SoC is exactly the assembler's default. *)
Definition defaulted_socs (state : DepotState) : list string :=
  omap (fun '(vid, soc) => if soc =?q (1 # 2) then Some vid else None) (vehicle_socs state).

Definition telemetry_assumption (state : DepotState) : list string * dict string pyobj :=
  let defaulted := defaulted_socs state in
  if match vehicle_socs state with [] => false | _ => true end
     && match defaulted with [] => false | _ => true end
     && (length defaulted =? length (vehicle_socs state))%nat
  then (["telemetry_all_defaulted"],
        [("telemetry", PDict [("source", PStr "default_soc"); ("default_value", PFloat (1 # 2));
                              ("vehicles", PList (map PStr defaulted))])])
  else ([], []).

Definition evaluate_readiness (config : DepotConfig) (state : DepotState)
    (building_load_source : string) (schedules_present : bool) : ReadinessReport :=
  let missing := missing_of config state schedules_present in
  let '(d1, a1) := building_load_assumption config building_load_source in
  let '(d2, a2) := telemetry_assumption state in
  let degraded := d1 ++ d2 in
  {| rr_status := match missing, degraded with
                  | _ :: _, _ => "not_ready"
                  | [], _ :: _ => "degraded"
                  | [], [] => "ready"
                  end;
     missing_inputs := missing;
     degraded_reasons := degraded;
     assumptions := a1 ++ a2;
     building_load_source := building_load_source |}.

(** ** Snapshots *)

Record OptimizationInputSnapshot := {
  snapshot_id : string;
  sn_depot_id : string;
  organization_id : option string;
  captured_at : datetime;
  horizon_start : datetime;
  horizon_end : datetime;
  readiness : ReadinessReport;
  depot : dict string pyobj;
  sn_vehicles : list pyobj;
  sn_chargers : dict string pyobj;
  sn_access : dict string pyobj;
  sn_schedules : list pyobj;
  sn_prices : list Q;
  telemetry : dict string Q;
  building_load : dict string pyobj;
  weather_features : list pyobj;
  weather_forecast_id : option string;
  sn_incoming : list pyobj;
  recent_telemetry : list pyobj;
  code_version : option string;
  solver_version : option string;
  surrogate_model_version : option string;
  payload_schema : string
}.

(** A cell of a schedule row: a [datetime] is rendered, anything else is kept. *)
Inductive cell : Type :=
| CDatetime (dt : datetime)
| CValue (o : pyobj).

Definition _serialize_dt (c : cell) : pyobj :=
  match c with CDatetime dt => PStr (isoformat dt) | CValue o => o end.

Definition _serialize_schedule_row (row : dict string cell) : pyobj :=
  PDict (map (fun '(k, v) => (k, _serialize_dt v)) row).

(** [dict.update]. *)
Definition dupdate (d e : dict string pyobj) : dict string pyobj :=
  foldl (fun d '(k, v) => d +{ k := v }) d e.

Section Snapshot.
Context (str_float : Q -> string).

Definition vehicle_payload (config : DepotConfig) (state : DepotState) (vid : string) : pyobj :=
  PDict [("vehicle_id", PStr vid);
         ("battery_kwh", pyopt PFloat (vehicle_capacities config @? vid));
         ("max_charge_kw", pyopt PFloat (vehicle_max_charge_kw config @? vid));
         ("current_soc", pyopt PFloat (vehicle_socs state @? vid));
         ("energy_requirement_kwh", pyopt PFloat (energy_requirements state @? vid));
         ("departure_timestep", pyopt PInt (departure_times state @? vid));
         ("departure_soc_min", pyopt PFloat (vehicle_departure_soc_min state @? vid));
         ("departure_soc_max", pyopt PFloat (vehicle_departure_soc_max state @? vid));
         ("priority", pyopt PInt (vehicle_priorities state @? vid))].

Definition incoming_payload (iv : IncomingVehicle) : pyobj :=
  PDict [("vehicle_id", PStr (iv_vehicle_id iv)); ("external_id", PStr (iv_external_id iv));
         ("expected_soc", PFloat (iv_expected_soc iv));
         ("arrival_time", PStr (isoformat (iv_arrival_time iv)));
         ("battery_kwh", PFloat (iv_battery_kwh iv));
         ("max_charge_kw", PFloat (iv_max_charge_kw iv));
         ("origin_depot_id", PStr (iv_origin_depot_id iv))].

Definition depot_payload (depot_id : string) (config : DepotConfig) (state : DepotState)
    (depot_metadata : dict string pyobj) : dict string pyobj :=
  dupdate
    [("depot_id", PStr depot_id); ("max_site_power_kw", PFloat (max_site_power config));
     ("building_load_assumption_kw", PFloat (building_load_assumption_kw config));
     ("delta_t_hours", PFloat (delta_t config));
     ("n_timesteps", PInt (Z.of_nat (length (building_power state))))]
    depot_metadata.

Definition chargers_payload (config : DepotConfig) : dict string pyobj :=
  [("groups", PDict (map (fun '(k, v) => (str_float k, PInt v)) (charger_groups config)));
   ("efficiency", PFloat (charger_efficiency config)); ("total", PInt (n_chargers config))].

Definition access_payload (config : DepotConfig) : dict string pyobj :=
  if String.eqb (charger_vehicle_access_default config) "all_to_all"
  then [("mode", PStr "all_to_all"); ("matrix", PDict [])]
  else [("mode", PStr "explicit_matrix");
        ("matrix", PDict (map (fun '(charger_id, vehicle_ids) =>
                     (charger_id, PList (map PStr (sort_by String.leb (elements vehicle_ids)))))
                   (charger_vehicle_access config)))].

Definition building_payload (config : DepotConfig) (state : DepotState) (source : string)
  : dict string pyobj :=
  let n := length (building_power state) in
  [("source", PStr source); ("values_kw", PList (map PFloat (building_power state)));
   ("average_kw", PFloat (if (n =? 0)%nat then 0
                          else Qsum (building_power state) / inject_Z (Z.of_nat n))%Q);
   ("n_timesteps", PInt (Z.of_nat n));
   ("assumption_kw", PFloat (building_load_assumption_kw config))].

(** [new_id], [now] and the three versions are what [uuid4()], the clock and
    [version_info] return. *)
Definition build_snapshot (new_id : string) (now : Z)
    (versions : option string * option string * option string)
    (depot_id : string) (org : option string) (config : DepotConfig) (state : DepotState)
    (start end_ : datetime) (schedules : list (dict string cell))
    (weather : list pyobj) (forecast_id : option string) (recent : list pyobj)
    (rep : ReadinessReport) (depot_metadata : dict string pyobj)
  : OptimizationInputSnapshot :=
  let '(code, solver, surrogate) := versions in
  {| snapshot_id := new_id;
     sn_depot_id := depot_id;
     organization_id := org;
     captured_at := aware_utc now;
     horizon_start := start;
     horizon_end := end_;
     readiness := rep;
     depot := depot_payload depot_id config state depot_metadata;
     sn_vehicles := map (vehicle_payload config state)
                      (sort_by String.leb (dkeys (vehicle_capacities config)));
     sn_chargers := chargers_payload config;
     sn_access := access_payload config;
     sn_schedules := map _serialize_schedule_row schedules;
     sn_prices := prices state;
     telemetry := vehicle_socs state;
     building_load := building_payload config state (building_load_source rep);
     weather_features := weather;
     weather_forecast_id := match weather with [] => None | _ => forecast_id end;
     sn_incoming := map incoming_payload (incoming_vehicles state);
     recent_telemetry := recent;
     code_version := code;
     solver_version := solver;
     surrogate_model_version := surrogate;
     payload_schema := "v1" |}.
End Snapshot.

(** [_stub_snapshot] of the controller. *)
Definition stub_readiness (rep : option ReadinessReport) : ReadinessReport :=
  match rep with
  | None =>
      {| rr_status := "degraded"; missing_inputs := [];
         degraded_reasons := ["snapshot_construction_failed"];
         assumptions := [("snapshot_construction_failed", PBool true)];
         building_load_source := "absent" |}
  | Some r =>
      {| rr_status := if is_blocking r then "not_ready" else "degraded";
         missing_inputs := missing_inputs r;
         degraded_reasons := degraded_reasons r ++ ["snapshot_construction_failed"];
         assumptions := assumptions r +{ "snapshot_construction_failed" := PBool true };
         building_load_source := building_load_source r |}
  end.

Definition _stub_snapshot (new_id : string) (now : Z)
    (versions : option string * option string * option string)
    (depot_id : string) (start end_ : datetime) (rep : option ReadinessReport)
  : OptimizationInputSnapshot :=
  let '(code, solver, surrogate) := versions in
  {| snapshot_id := new_id; sn_depot_id := depot_id; organization_id := None;
     captured_at := aware_utc now; horizon_start := start; horizon_end := end_;
     readiness := stub_readiness rep;
     depot := [("n_timesteps", PInt 0)];
     sn_vehicles := []; sn_chargers := [];
     sn_access := [("mode", PStr "all_to_all"); ("matrix", PDict [])];
     sn_schedules := []; sn_prices := []; telemetry := [];
     building_load := [("source", PStr "absent"); ("values_kw", PList []);
                       ("n_timesteps", PInt 0)];
     weather_features := []; weather_forecast_id := None; sn_incoming := [];
     recent_telemetry := [];
     code_version := code; solver_version := solver; surrogate_model_version := surrogate;
     payload_schema := "v1" |}.

(** ** Payloads *)

(** [str(x) if x else None]. *)
Definition str_or_none (o : option string) : pyobj := pyopt PStr o.

Definition snapshot_to_payload (s : OptimizationInputSnapshot) : dict string pyobj :=
  [("schema", PStr (payload_schema s));
   ("depot", PDict (depot s));
   ("organization_id", str_or_none (organization_id s));
   ("horizon", PDict [("start", PStr (isoformat (horizon_start s)));
                      ("end", PStr (isoformat (horizon_end s)))]);
   ("readiness", PDict
      [("status", PStr (rr_status (readiness s)));
       ("missing_inputs", PList (map PStr (missing_inputs (readiness s))));
       ("degraded_reasons", PList (map PStr (degraded_reasons (readiness s))));
       ("assumptions", PDict (assumptions (readiness s)));
       ("building_load_source", PStr (building_load_source (readiness s)))]);
   ("vehicles", PList (sn_vehicles s));
   ("chargers", PDict (sn_chargers s));
   ("charger_vehicle_access", PDict (sn_access s));
   ("schedules", PList (sn_schedules s));
   ("prices", PList (map PFloat (sn_prices s)));
   ("telemetry", PDict (map (fun '(k, v) => (k, PFloat v)) (telemetry s)));
   ("building_load", PDict (building_load s));
   ("weather_features", PList (weather_features s));
   ("weather_forecast_id", str_or_none (weather_forecast_id s));
   ("incoming_vehicles", PList (sn_incoming s));
   ("recent_telemetry", PList (recent_telemetry s));
   ("versions", PDict [("code", pyopt PStr (code_version s));
                       ("solver", pyopt PStr (solver_version s));
                       ("surrogate_model", pyopt PStr (surrogate_model_version s))])].

Inductive replay_error : Type :=
| MissingKeys (keys : list string)
| BadField (path : string).

Definition required_keys : list string :=
  ["schema"; "depot"; "horizon"; "readiness"; "vehicles"; "chargers"; "charger_vehicle_access";
   "schedules"; "prices"; "telemetry"; "building_load"; "versions"].

(** [isinstance(o, int)] with its value ([bool] is a subclass of [int]). *)
Definition as_int (o : pyobj) : option Z :=
  match o with
  | PInt z => Some z
  | PBool b => Some (if b then 1 else 0)%Z
  | _ => None
  end.

(** [isinstance(o, list) and len(o) == n]. *)
Definition list_of_length (o : pyobj) (n : Z) : bool :=
  match o with PList l => (Z.of_nat (length l) =? n)%Z | _ => false end.

Definition replay_payload (payload : dict string pyobj)
  : result replay_error (dict string pyobj) :=
  let missing := sort_by String.leb (List.filter (fun k => negb (dmem k payload)) required_keys) in
  let? _ := raise_if (match missing with [] => false | _ => true end) (MissingKeys missing) in
  let? rd := match dget_or payload "readiness" PNone with
             | PDict d => Ok d
             | _ => Err (BadField "readiness")
             end in
  let? _ := raise_if (negb (dmem "building_load_source" rd))
              (BadField "readiness.building_load_source") in
  let? dp := match dget_or payload "depot" PNone with
             | PDict d => Ok d
             | _ => Err (BadField "depot")
             end in
  let? n := match as_int (dget_or dp "n_timesteps" PNone) with
            | Some n => if (n <? 0)%Z then Err (BadField "depot.n_timesteps") else Ok n
            | None => Err (BadField "depot.n_timesteps")
            end in
  let prices := py_or (dget_or payload "prices" PNone) (PList []) in
  let? _ := raise_if (negb (list_of_length prices n)) (BadField "prices") in
  let bl_values := match py_or (dget_or payload "building_load" PNone) (PDict []) with
                   | PDict d => dget_or d "values_kw" (PList [])
                   | _ => PList []
                   end in
  let? _ := raise_if (negb (list_of_length bl_values n)) (BadField "building_load.values_kw") in
  let? vs := match py_or (dget_or payload "versions" PNone) (PDict []) with
             | PDict d => Ok d
             | _ => Err (BadField "versions")
             end in
  let? _ := rfor (fun k => raise_if (negb (dmem k vs)) (BadField ("versions." +:+ k)))
              ["code"; "solver"; "surrogate_model"] in
  Ok payload.
