(* ===== verification/ReadinessFacts.v ===== *)
(** * Facts about readiness and snapshots

    When a run is refused or degraded, that a stub snapshot cannot hide a veto,
    and when a stored payload passes the replay check. *)

From S2P Require Import Prelude Models Datetime Readiness.
From Stdlib Require Import ZArith QArith Lqa Lia.
From stdpp Require Import base list strings gmap.

(** ** The decision *)

(** A hard prerequisite is missing. *)
Definition blocked (config : DepotConfig) (state : DepotState) (schedules_present : bool) : Prop :=
  vehicle_capacities config = [] \/ n_chargers config = 0%Z \/ prices state = [] \/
  schedules_present = false \/
  (charger_vehicle_access_default config <> "all_to_all" /\ charger_vehicle_access config = []).

(** Something was substituted by an assumption. *)
Definition assumed (state : DepotState) (source : string) : Prop :=
  source ∈ [BUILDING_LOAD_FORECAST; BUILDING_LOAD_STATIC; BUILDING_LOAD_ABSENT] \/
  (vehicle_socs state <> [] /\ forall v s, (v, s) ∈ vehicle_socs state -> (s == 1 # 2)%Q).

Lemma missing_iff config state sched :
  missing_of config state sched <> [] <-> blocked config state sched.
Proof.
  unfold missing_of, blocked, n_chargers.
  assert (Hch : (match charger_groups config with [] => true | _ => false end
                 || (Zsum (map snd (charger_groups config)) =? 0)%Z)
                = (Zsum (map snd (charger_groups config)) =? 0)%Z)
    by by destruct (charger_groups config).
  rewrite Hch. destruct (Z.eqb_spec (Zsum (map snd (charger_groups config))) 0);
    destruct (vehicle_capacities config); destruct (prices state); destruct sched;
    destruct (String.eqb_spec (charger_vehicle_access_default config) "all_to_all");
    destruct (charger_vehicle_access config); cbn; naive_solver.
Qed.

Lemma omap_length_all {A B} (f : A -> option B) l :
  length (omap f l) = length l <-> forall x, x ∈ l -> is_Some (f x).
Proof.
  induction l as [|a l IH]; cbn; [split; [by intros _ x ?%not_elem_of_nil | done]|].
  assert (length (omap f l) <= length l)%nat as Hle.
  { clear. induction l as [|a l IH]; cbn; [lia|]. destruct (f a); cbn; lia. }
  destruct (f a) eqn:E; cbn.
  - rewrite Nat.succ_inj_wd, IH. setoid_rewrite elem_of_cons. naive_solver.
  - split; [lia|]. intros H. destruct (H a) as [? ?]; [left | congruence].
Qed.

Lemma telemetry_iff state :
  fst (telemetry_assumption state) <> [] <->
  vehicle_socs state <> [] /\ forall v s, (v, s) ∈ vehicle_socs state -> (s == 1 # 2)%Q.
Proof.
  unfold telemetry_assumption, defaulted_socs.
  set (f := fun '(vid, soc) => if (soc =?q (1 # 2)) then Some vid else None).
  assert (Hf : (forall x, x ∈ vehicle_socs state -> is_Some (f x)) <->
               (forall v s, (v, s) ∈ vehicle_socs state -> (s == 1 # 2)%Q)).
  { split.
    - intros H v s Hin. specialize (H _ Hin). cbn in H.
      destruct (s =?q (1 # 2)) eqn:E; [by qbool | by destruct H].
    - intros H [v s] Hin. specialize (H _ _ Hin). cbn. apply Qeqb_eq in H. rewrite H. eauto. }
  rewrite <- Hf, <- omap_length_all.
  destruct (vehicle_socs state) as [|p l] eqn:E; [cbn; naive_solver|].
  destruct (omap f (p :: l)) eqn:Eo; cbn [andb fst];
    [split; [done | by intros [_ ?]]|].
  destruct (Nat.eqb_spec (length (s :: l0)) (length (p :: l))); cbn [fst];
    split; (done || by intros [_ ?]).
Qed.

Lemma building_iff config source :
  fst (building_load_assumption config source) <> [] <->
  source ∈ [BUILDING_LOAD_FORECAST; BUILDING_LOAD_STATIC; BUILDING_LOAD_ABSENT].
Proof.
  unfold building_load_assumption. rewrite !elem_of_cons, elem_of_nil.
  destruct (String.eqb_spec source BUILDING_LOAD_FORECAST); cbn [fst]; [by split; auto|].
  destruct (String.eqb_spec source BUILDING_LOAD_STATIC); cbn [fst]; [by split; auto|].
  destruct (String.eqb_spec source BUILDING_LOAD_ABSENT); cbn [fst]; [by split; auto|].
  tauto.
Qed.

Lemma blocking_iff config state source sched :
  is_blocking (evaluate_readiness config state source sched) = true <->
  blocked config state sched.
Proof.
  unfold evaluate_readiness. rewrite <- missing_iff.
  destruct (building_load_assumption config source) as [d1 a1].
  destruct (telemetry_assumption state) as [d2 a2]. unfold is_blocking. cbn [rr_status].
  destruct (missing_of config state sched), (d1 ++ d2); cbn; naive_solver.
Qed.

(** A run is refused exactly when vehicles, chargers, prices, schedules or (outside
    all_to_all mode) the access matrix are missing; otherwise it is degraded exactly
    when the building load was substituted or every state of charge is the default, and
    ready else. *)
Theorem readiness_decision config state source sched :
  let r := evaluate_readiness config state source sched in
  (is_blocking r = true <-> blocked config state sched) /\
  (is_degraded r = true <-> ~ blocked config state sched /\ assumed state source) /\
  (is_ready r = true <-> ~ blocked config state sched /\ ~ assumed state source) /\
  building_load_source r = source.
Proof.
  cbn zeta. unfold evaluate_readiness, assumed.
  rewrite <- missing_iff, <- (building_iff config), <- telemetry_iff.
  destruct (building_load_assumption config source) as [d1 a1].
  destruct (telemetry_assumption state) as [d2 a2].
  unfold is_blocking, is_degraded, is_ready. cbn [rr_status fst building_load_source].
  destruct (missing_of config state sched), d1, d2; cbn; naive_solver.
Qed.

(** ** The stub never hides a veto *)

(** The stub used when building a snapshot fails keeps the readiness verdict. *)
Theorem stub_keeps_veto r :
  is_blocking (stub_readiness (Some r)) = is_blocking r /\
  is_ready (stub_readiness (Some r)) = false /\
  missing_inputs (stub_readiness (Some r)) = missing_inputs r /\
  (forall reason, reason ∈ degraded_reasons r ->
     reason ∈ degraded_reasons (stub_readiness (Some r))).
Proof.
  unfold stub_readiness, is_ready, is_blocking at 1. cbn [rr_status missing_inputs degraded_reasons].
  split_and!; [by destruct (is_blocking r) | by destruct (is_blocking r) | done | set_solver].
Qed.

(** ** Replay *)

Lemma dupdate_other d e k : dget e k = None -> dupdate d e @? k = d @? k.
Proof.
  unfold dupdate. revert d. induction e as [|[k' v] e IH]; intros d; cbn; [done|].
  case_decide; [done|]. intros Hk. rewrite IH by done. apply dget_dset_ne. congruence.
Qed.


(** The replay check of a payload that has the snapshot's shape. *)
Lemma replay_snapshot s n l :
  dget (depot s) "n_timesteps" = Some (PInt (Z.of_nat n)) ->
  dget (building_load s) "values_kw" = Some (PList (map PFloat l)) -> building_load s <> [] ->
  replay_payload (snapshot_to_payload s) =
    if negb (length (sn_prices s) =? n)%nat then Err (BadField "prices")
    else if negb (length l =? n)%nat then Err (BadField "building_load.values_kw")
    else Ok (snapshot_to_payload s).
Proof.
  intros Hn Hl Hne.
  assert (Hlen : forall (xs : list Q), list_of_length (PList (map PFloat xs)) (Z.of_nat n)
                   = (length xs =? n)%nat).
  { intros xs. unfold list_of_length. rewrite length_map.
    destruct (Nat.eqb_spec (length xs) n); lia. }
  assert (Hpr : py_or (PList (map PFloat (sn_prices s))) (PList [])
                = PList (map PFloat (sn_prices s)))
    by by destruct (sn_prices s).
  assert (Hbl : py_or (PDict (building_load s)) (PDict []) = PDict (building_load s))
    by (unfold py_or; cbn; by destruct (building_load s)).
  unfold replay_payload, dget_or.
  change (snapshot_to_payload s @? "depot") with (Some (PDict (depot s))).
  change (snapshot_to_payload s @? "prices") with (Some (PList (map PFloat (sn_prices s)))).
  change (snapshot_to_payload s @? "building_load") with (Some (PDict (building_load s))).
  cbn [from_option id]. rewrite Hpr, Hbl.
  assert ((Z.of_nat n <? 0)%Z = false) as Hneg by (apply Z.ltb_ge; lia).
  cbn -[list_of_length Nat.eqb snapshot_to_payload map Z.ltb].
  rewrite Hn. cbn -[list_of_length Nat.eqb snapshot_to_payload map Z.ltb].
  rewrite Hneg, Hl. cbn -[list_of_length Nat.eqb snapshot_to_payload map]. rewrite !Hlen.
  by destruct (length (sn_prices s) =? n)%nat, (length l =? n)%nat.
Qed.

(** The payload of a built snapshot passes the replay check unchanged exactly when
    prices and building load have the same length, and is otherwise rejected for its
    prices. *)
Theorem snapshot_replays str_float new_id now versions depot_id org config state start end_
    schedules weather fid recent rep meta :
  dget meta "n_timesteps" = None ->
  let payload := snapshot_to_payload
    (build_snapshot str_float new_id now versions depot_id org config state start end_
       schedules weather fid recent rep meta) in
  replay_payload payload =
    if (length (prices state) =? length (building_power state))%nat
    then Ok payload else Err (BadField "prices").
Proof.
  intros Hm. cbn zeta. destruct versions as [[code solver] surrogate].
  rewrite (replay_snapshot _ (length (building_power state)) (building_power state)).
  - cbn [sn_prices build_snapshot]. rewrite Nat.eqb_refl. cbn. by destruct (_ =? _)%nat.
  - cbn [depot build_snapshot]. unfold depot_payload. by rewrite dupdate_other.
  - done.
  - done.
Qed.

Theorem stub_snapshot_replays new_id now versions depot_id start end_ rep :
  let payload := snapshot_to_payload (_stub_snapshot new_id now versions depot_id start end_ rep) in
  replay_payload payload = Ok payload.
Proof.
  cbn zeta. destruct versions as [[code solver] surrogate].
  by rewrite (replay_snapshot _ 0 []).
Qed.

Definition ex_depot_state : DepotState :=
  {| vehicle_socs := [("bus_1", 1 # 2)]; battery_soc := 1 # 2; prices := [1 # 5; 1 # 5];
     demand_charge_rate := 10; current_month_peak := 0;
     vehicle_availability := [("bus_1", [true; true])]; energy_requirements := [];
     departure_times := []; building_power := [5%Q; 5%Q]; incoming_vehicles := [];
     vehicle_departure_soc_min := []; vehicle_departure_soc_max := [];
     vehicle_priorities := []; preconditioning_requests := [];
     cumulative_kwh_period := 0 |}.

Definition ex_depot_config : DepotConfig :=
  {| vehicle_capacities := [("bus_1", 100%Q)]; vehicle_max_charge_kw := [];
     charger_groups := [(50%Q, 1%Z)]; charger_efficiency := 1; charger_vehicle_access := [];
     battery_capacity := 0; battery_power := 0; battery_efficiency := 1;
     battery_soc_min := 0; battery_soc_max := 1; max_site_power := 100;
     building_load_assumption_kw := 0; delta_t := 1; n_timesteps := 2;
     charger_vehicle_access_default := "all_to_all"; tariff_type := "simple_demand";
     energy_cap_kwh := None; under_cap_rate_per_kwh := None;
     over_cap_penalty_per_kwh := None; cap_billing_period := "monthly" |}.

Definition ex_snapshot : OptimizationInputSnapshot :=
  build_snapshot (fun _ => "50.0") "s" 0 (None, None, None) "d" None ex_depot_config
    ex_depot_state (aware_utc 0) (aware_utc (2 * hour_us)) [] [] None []
    (evaluate_readiness ex_depot_config ex_depot_state "meter" true) [].

Lemma snapshot_replays_witness :
  replay_payload (snapshot_to_payload ex_snapshot) = Ok (snapshot_to_payload ex_snapshot).
Proof.
  refine (snapshot_replays (fun _ => "50.0") "s" 0 (None, None, None) "d" None ex_depot_config
    ex_depot_state (aware_utc 0) (aware_utc (2 * hour_us)) [] [] None []
    (evaluate_readiness ex_depot_config ex_depot_state "meter" true) [] _).
  reflexivity.
Defined.
