(* ===== verification/Triggers.v ===== *)
(** * Re-optimisation triggers ([src/core/state/triggers.py])

    [TriggerMonitor] compares what the database reports with what the last plan
    expected and calls back when something is off. [monitor_tick] is one
    iteration of its [run] loop; what the database returns in that iteration is
    an argument. Trigger reasons are structured values instead of formatted
    text. The callback is an interface, [TriggerHandler]: the monitor's theorems
    hold for every handler that honours it. *)

From S2P Require Import Prelude Models Datetime.
From Stdlib Require Import ZArith QArith Qabs Qround Lqa Lia.
From stdpp Require Import base list strings gmap.

Record TriggerConfig := {
  soc_deviation_threshold : Q;
  price_change_percent : Q;
  price_change_absolute : Q;
  return_time_deviation_min : Q;
  check_interval_sec : Q;
  tc_trigger_cooldown_minutes : Z
}.

(** The dataclass defaults, as the controller uses them. *)
Definition default_trigger_config (cooldown_minutes : Z) : TriggerConfig :=
  {| soc_deviation_threshold := 5 # 100; price_change_percent := 25 # 100;
     price_change_absolute := 25; return_time_deviation_min := 15;
     check_interval_sec := 60; tc_trigger_cooldown_minutes := cooldown_minutes |}.

Inductive trigger_reason : Type :=
| Scheduled
| SocDeviation (vehicle_id : string) (expected current : Q)
| PriceChange (ts : Z) (last current : Q)
| ReturnDelay (vehicle_id : string) (expected actual : Z)
| Vdv463ChargingRequestChange.

Record TriggerMonitor := {
  tm_config : TriggerConfig;
  tm_pool : bool;                 (** a legacy database pool was given *)
  tm_depot_id : option string;
  last_prices : dict Z Q;
  expected_socs : dict string Q;
  expected_return_times : dict string Z;
  tm_running : bool;
  tm_last_trigger_time : option Z;
  trigger_cooldown_sec : Q;
  last_scheduled_hour : option Z;
  last_vdv463_update_at : option Z
}.

(** [TriggerMonitor.__init__]: [ValueError] without an assembler and without a
    pool and depot. [assembler] is the assembler's depot id when one is given. *)
Definition new_monitor (config : TriggerConfig) (assembler : option string) (pool : bool)
    (depot_id : option string) : result opt_error TriggerMonitor :=
  let? _ := raise_if (bool_decide (assembler = None)
                      && (negb pool || bool_decide (depot_id = None))) ValueError in
  Ok {| tm_config := config; tm_pool := pool;
        tm_depot_id := match depot_id with
                       | Some d => if String.eqb d "" then assembler else Some d
                       | None => assembler
                       end;
        last_prices := []; expected_socs := []; expected_return_times := [];
        tm_running := false; tm_last_trigger_time := None;
        trigger_cooldown_sec := inject_Z (tc_trigger_cooldown_minutes config) * 60;
        last_scheduled_hour := None; last_vdv463_update_at := None |}.

Definition update_expected_state (m : TriggerMonitor) (socs : dict string Q)
    (returns : dict string Z) : TriggerMonitor :=
  {| tm_config := tm_config m; tm_pool := tm_pool m; tm_depot_id := tm_depot_id m;
     last_prices := last_prices m; expected_socs := socs; expected_return_times := returns;
     tm_running := tm_running m; tm_last_trigger_time := tm_last_trigger_time m;
     trigger_cooldown_sec := trigger_cooldown_sec m;
     last_scheduled_hour := last_scheduled_hour m;
     last_vdv463_update_at := last_vdv463_update_at m |}.

Definition update_prices (m : TriggerMonitor) (ps : dict Z Q) : TriggerMonitor :=
  {| tm_config := tm_config m; tm_pool := tm_pool m; tm_depot_id := tm_depot_id m;
     last_prices := ps; expected_socs := expected_socs m;
     expected_return_times := expected_return_times m;
     tm_running := tm_running m; tm_last_trigger_time := tm_last_trigger_time m;
     trigger_cooldown_sec := trigger_cooldown_sec m;
     last_scheduled_hour := last_scheduled_hour m;
     last_vdv463_update_at := last_vdv463_update_at m |}.

Definition set_trigger_time (m : TriggerMonitor) (now : Z) : TriggerMonitor :=
  {| tm_config := tm_config m; tm_pool := tm_pool m; tm_depot_id := tm_depot_id m;
     last_prices := last_prices m; expected_socs := expected_socs m;
     expected_return_times := expected_return_times m;
     tm_running := tm_running m; tm_last_trigger_time := Some now;
     trigger_cooldown_sec := trigger_cooldown_sec m;
     last_scheduled_hour := last_scheduled_hour m;
     last_vdv463_update_at := last_vdv463_update_at m |}.

Definition set_scheduled_hour (m : TriggerMonitor) (h : Z) : TriggerMonitor :=
  {| tm_config := tm_config m; tm_pool := tm_pool m; tm_depot_id := tm_depot_id m;
     last_prices := last_prices m; expected_socs := expected_socs m;
     expected_return_times := expected_return_times m;
     tm_running := tm_running m; tm_last_trigger_time := tm_last_trigger_time m;
     trigger_cooldown_sec := trigger_cooldown_sec m;
     last_scheduled_hour := Some h; last_vdv463_update_at := last_vdv463_update_at m |}.

Definition set_vdv463 (m : TriggerMonitor) (at_ : Z) : TriggerMonitor :=
  {| tm_config := tm_config m; tm_pool := tm_pool m; tm_depot_id := tm_depot_id m;
     last_prices := last_prices m; expected_socs := expected_socs m;
     expected_return_times := expected_return_times m;
     tm_running := tm_running m; tm_last_trigger_time := tm_last_trigger_time m;
     trigger_cooldown_sec := trigger_cooldown_sec m;
     last_scheduled_hour := last_scheduled_hour m; last_vdv463_update_at := Some at_ |}.

Definition monitor_stop (m : TriggerMonitor) : TriggerMonitor :=
  {| tm_config := tm_config m; tm_pool := tm_pool m; tm_depot_id := tm_depot_id m;
     last_prices := last_prices m; expected_socs := expected_socs m;
     expected_return_times := expected_return_times m;
     tm_running := false; tm_last_trigger_time := tm_last_trigger_time m;
     trigger_cooldown_sec := trigger_cooldown_sec m;
     last_scheduled_hour := last_scheduled_hour m;
     last_vdv463_update_at := last_vdv463_update_at m |}.

(** ** Checks *)

(** The first entry for which [f] gives a reason. *)
Fixpoint first_reason {A} (f : A -> option trigger_reason) (l : list A) : option trigger_reason :=
  match l with
  | [] => None
  | x :: l' => match f x with Some r => Some r | None => first_reason f l' end
  end.

Definition check_soc_deviation (m : TriggerMonitor) (current_socs : dict string Q)
  : option trigger_reason :=
  first_reason (fun '(vid, current) =>
    match expected_socs m @? vid with
    | Some expected =>
        if soc_deviation_threshold (tm_config m) <?q Qabs (current - expected)
        then Some (SocDeviation vid expected current) else None
    | None => None
    end) current_socs.

Definition check_price_change (m : TriggerMonitor) (current_prices : dict Z Q)
  : option trigger_reason :=
  first_reason (fun '(ts, current) =>
    match last_prices m @? ts with
    | Some last =>
        if 0 <?q last then
          let pct_change := (Qabs (current - last) / last)%Q in
          let abs_change := (Qabs (current - last) * 1000)%Q in
          if (price_change_percent (tm_config m) <?q pct_change)
             || (price_change_absolute (tm_config m) <?q abs_change)
          then Some (PriceChange ts last current) else None
        else None
    | None => None
    end) current_prices.

Definition td_hours (h : Q) : Z := Qround_even (h * inject_Z hour_us).
Definition td_minutes (n : Q) : Z := Qround_even (n * inject_Z minute_us).

Definition check_return_time_deviation (m : TriggerMonitor) (actual_return_times : dict string Z)
  : option trigger_reason :=
  let threshold := td_minutes (return_time_deviation_min (tm_config m)) in
  first_reason (fun '(vid, actual) =>
    match expected_return_times m @? vid with
    | Some expected =>
        if (threshold <? actual - expected)%Z then Some (ReturnDelay vid expected actual) else None
    | None => None
    end) actual_return_times.

(** The row of [vdv463_depot_updates], if the query found one. *)
Definition check_vdv463_charging_request_change (m : TriggerMonitor) (row : option Z)
  : TriggerMonitor * option trigger_reason :=
  if negb (tm_pool m) || bool_decide (tm_depot_id m = None) then (m, None)
  else
    match row with
    | None => (m, None)
    | Some last_update =>
        match last_vdv463_update_at m with
        | Some prev =>
            (set_vdv463 m last_update,
             if (prev <? last_update)%Z then Some Vdv463ChargingRequestChange else None)
        | None => (set_vdv463 m last_update, None)
        end
    end.

(** [{now + timedelta(hours=i * delta_t): price for i, price in
    enumerate(prices[:24])}], used for the baseline and for the current prices.
    The clock may be read once or for every entry: [clock i] is its reading. *)
Definition price_dict (clock : nat -> Z) (delta_t : Q) (prices : list Q) : dict Z Q :=
  foldl (fun d '(i, price) =>
           d +{ (clock i + td_hours (inject_Z (Z.of_nat i) * delta_t))%Z := price })
    [] (imap pair (take 24 prices)).

(** ** The monitoring loop *)

(** What the database gives in one iteration. *)
Record observation := {
  obs_socs : dict string Q;
  obs_prices : dict Z Q;
  obs_returns : dict string Z;
  obs_vdv463 : option Z
}.

(** The callback, run to completion inside the iteration. It may replace the
    monitor's expectations, nothing else of it. *)
Class TriggerHandler (S : Type) := {
  on_trigger : trigger_reason -> S -> TriggerMonitor -> S * TriggerMonitor;
  on_trigger_frame : forall r s m, let m' := snd (on_trigger r s m) in
    tm_config m' = tm_config m /\ tm_pool m' = tm_pool m /\
    tm_last_trigger_time m' = tm_last_trigger_time m /\
    trigger_cooldown_sec m' = trigger_cooldown_sec m /\
    last_scheduled_hour m' = last_scheduled_hour m /\
    last_vdv463_update_at m' = last_vdv463_update_at m
}.

(** [soc_trigger or price_trigger or return_trigger or vdv463_trigger]. *)
Definition first_some {A} (l : list (option A)) : option A :=
  foldr (fun o acc => match o with Some _ => o | None => acc end) None l.

(** What an iteration decides before calling back: the monitor with the hour and
    VDV 463 marks updated, and the reason to fire. *)
Definition monitor_decide (now : Z) (obs : observation) (m : TriggerMonitor)
  : TriggerMonitor * option trigger_reason :=
  let current_hour := hour_of now in
  let scheduled := match last_scheduled_hour m with
                   | Some h => negb (h =? current_hour)%Z
                   | None => true
                   end in
  let m := if scheduled then set_scheduled_hour m current_hour else m in
  let soc_trigger := check_soc_deviation m (obs_socs obs) in
  let price_trigger := check_price_change m (obs_prices obs) in
  let return_trigger := check_return_time_deviation m (obs_returns obs) in
  let '(m, vdv463_trigger) := check_vdv463_charging_request_change m (obs_vdv463 obs) in
  if scheduled then (m, Some Scheduled)
  else
    match first_some [soc_trigger; price_trigger; return_trigger; vdv463_trigger] with
    | None => (m, None)
    | Some reason =>
        match tm_last_trigger_time m with
        | None => (m, Some reason)
        | Some last =>
            if trigger_cooldown_sec m <=?q total_seconds (now - last) then (m, Some reason)
            else (m, None)
        end
    end.

(** One iteration; the second component is the reason that fired. *)
Definition monitor_tick {S} `{TriggerHandler S} (now : Z) (obs : observation)
    (sm : S * TriggerMonitor) : S * TriggerMonitor * option trigger_reason :=
  let '(m, fired) := monitor_decide now obs (snd sm) in
  match fired with
  | None => (fst sm, m, None)
  | Some reason =>
      let '(s', m') := on_trigger reason (fst sm) m in
      (s', set_trigger_time m' now, Some reason)
  end.

(** A run of the loop: the iterations' clock readings and observations, in order;
    the result lists what fired and when. *)
Fixpoint monitor_run {S} `{TriggerHandler S} (ticks : list (Z * observation))
    (sm : S * TriggerMonitor) : S * TriggerMonitor * list (Z * trigger_reason) :=
  match ticks with
  | [] => (sm, [])
  | (now, obs) :: rest =>
      let '(sm', fired) := monitor_tick now obs sm in
      let '(sm'', log) := monitor_run rest sm' in
      (sm'', match fired with Some r => (now, r) :: log | None => log end)
  end.
