(* ===== verification/TriggersFacts.v ===== *)
(** * Facts about the trigger monitor

    Proved for every handler of the [TriggerHandler] interface: scheduled
    triggers come once per clock hour, the others respect the cooldown. *)

From S2P Require Import Prelude Models Datetime Triggers.
From Stdlib Require Import ZArith QArith Qabs Qround Lqa Lia Sorting.Sorted.
From stdpp Require Import base list strings gmap.

(** ** The checks are exact *)

Lemma first_reason_None {A} (f : A -> option trigger_reason) l :
  first_reason f l = None <-> forall x, x ∈ l -> f x = None.
Proof.
  induction l as [|a l IH]; cbn; [split; [by intros _ x ?%not_elem_of_nil | done]|].
  setoid_rewrite elem_of_cons. destruct (f a) eqn:E; [naive_solver congruence|].
  rewrite IH. naive_solver.
Qed.

Theorem soc_check_exact m current :
  check_soc_deviation m current = None <->
  forall vid cur expected, (vid, cur) ∈ current -> expected_socs m @? vid = Some expected ->
    (Qabs (cur - expected) <= soc_deviation_threshold (tm_config m))%Q.
Proof.
  unfold check_soc_deviation. rewrite first_reason_None. split.
  - intros H vid cur expected Hin He. specialize (H _ Hin). cbn in H. rewrite He in H.
    destruct (_ <?q _) eqn:E in H; [done|]. by qbool.
  - intros H [vid cur] Hin. destruct (expected_socs m @? vid) eqn:E; [|done].
    specialize (H _ _ _ Hin E). apply Qltb_ge in H. by rewrite H.
Qed.

(** ** Scheduled triggers *)

Definition clock_hour (t : Z) : Z := (t / hour_us)%Z.

Lemma hour_of_clock t : hour_of t = (clock_hour t mod 24)%Z.
Proof.
  unfold hour_of, time_of, clock_hour, day_us.
  assert (0 < hour_us)%Z by (unfold hour_us, usec; lia).
  rewrite (Z.mul_comm 24 hour_us), Z.rem_mul_r by lia.
  rewrite Z.add_comm, Z.mul_comm, Z.div_add_l by lia.
  rewrite (Z.div_small (t mod hour_us)) by (apply Z.mod_pos_bound; lia). lia.
Qed.

Lemma clock_hour_mono a b : (a <= b)%Z -> (clock_hour a <= clock_hour b)%Z.
Proof. intros. apply Z.div_le_mono; [unfold hour_us, usec; lia | done]. Qed.

Lemma same_hour_close a b :
  (a <= b < a + 23 * hour_us)%Z -> hour_of a = hour_of b -> clock_hour a = clock_hour b.
Proof.
  rewrite !hour_of_clock. intros [H1 H2] Hm.
  pose proof (clock_hour_mono a b H1).
  assert (clock_hour b <= clock_hour a + 23)%Z.
  { unfold clock_hour. rewrite <- Z.div_add by (unfold hour_us, usec; lia).
    apply Z.div_le_mono; unfold hour_us, usec in *; lia. }
  pose proof (Z.div_mod (clock_hour a) 24 ltac:(lia)).
  pose proof (Z.div_mod (clock_hour b) 24 ltac:(lia)). lia.
Qed.

Definition is_scheduled (e : Z * trigger_reason) : bool :=
  match snd e with Scheduled => true | _ => false end.

Definition scheduled_hours (log : list (Z * trigger_reason)) : list Z :=
  map (fun e => clock_hour (fst e)) (List.filter is_scheduled log).

Lemma set_vdv_hour m row :
  last_scheduled_hour (fst (check_vdv463_charging_request_change m row)) = last_scheduled_hour m /\
  tm_last_trigger_time (fst (check_vdv463_charging_request_change m row)) = tm_last_trigger_time m /\
  trigger_cooldown_sec (fst (check_vdv463_charging_request_change m row)) = trigger_cooldown_sec m.
Proof.
  unfold check_vdv463_charging_request_change.
  destruct (_ || _); [done|]. destruct row; [|done]. by destruct (last_vdv463_update_at m).
Qed.

Lemma first_some_not_scheduled m obs :
  first_some [check_soc_deviation m (obs_socs obs); check_price_change m (obs_prices obs);
              check_return_time_deviation m (obs_returns obs);
              snd (check_vdv463_charging_request_change m (obs_vdv463 obs))] <> Some Scheduled.
Proof.
  assert (Hfr : forall A (f : A -> option trigger_reason) l,
    (forall x, f x <> Some Scheduled) -> first_reason f l <> Some Scheduled).
  { intros A f l Hf. induction l as [|a l IH]; cbn; [done|].
    specialize (Hf a). destruct (f a) as [r|]; [congruence | done]. }
  cbn. unfold check_soc_deviation, check_price_change, check_return_time_deviation.
  repeat match goal with
  | |- context [first_reason ?f ?l] =>
      let H := fresh "H" in
      assert (H : first_reason f l <> Some Scheduled)
        by (apply Hfr; intros []; repeat case_match; done);
      destruct (first_reason f l); [congruence|]
  end.
  unfold check_vdv463_charging_request_change.
  by repeat (case_match; cbn [snd] in *; simplify_eq).
Qed.

(** What an iteration decides. *)
Lemma decide_spec now obs m :
  let d := monitor_decide now obs m in
  last_scheduled_hour (fst d) = Some (hour_of now) /\
  tm_last_trigger_time (fst d) = tm_last_trigger_time m /\
  trigger_cooldown_sec (fst d) = trigger_cooldown_sec m /\
  (snd d = Some Scheduled <-> last_scheduled_hour m <> Some (hour_of now)) /\
  (forall r, snd d = Some r -> r <> Scheduled ->
     match tm_last_trigger_time m with
     | None => True
     | Some last => (trigger_cooldown_sec m <= total_seconds (now - last))%Q
     end).
Proof.
  unfold monitor_decide.
  set (sch := match last_scheduled_hour m with Some h => negb (h =? hour_of now)%Z | None => true end).
  assert (Hs : sch = true <-> last_scheduled_hour m <> Some (hour_of now)).
  { unfold sch. destruct (last_scheduled_hour m) as [h|]; [|done].
    destruct (Z.eqb_spec h (hour_of now)); cbn; naive_solver. }
  set (m1 := if sch then set_scheduled_hour m (hour_of now) else m).
  assert (H1 : last_scheduled_hour m1 = Some (hour_of now) /\
               tm_last_trigger_time m1 = tm_last_trigger_time m /\
               trigger_cooldown_sec m1 = trigger_cooldown_sec m).
  { unfold m1. destruct sch; [done|]. split; [|done].
    destruct (decide (last_scheduled_hour m = Some (hour_of now))) as [|Hn]; [done|].
    apply Hs in Hn. done. }
  pose proof (set_vdv_hour m1 (obs_vdv463 obs)) as H2.
  pose proof (first_some_not_scheduled m1 obs) as H3.
  destruct (check_vdv463_charging_request_change m1 (obs_vdv463 obs)) as [m2 v]. cbn in H2.
  cbn [snd] in H3. destruct H1 as (A1 & A2 & A3), H2 as (B1 & B2 & B3).
  rewrite <- B1 in A1. rewrite <- B2 in A2. rewrite <- B3 in A3.
  destruct sch; [cbn; split_and!; try done; naive_solver|].
  assert (last_scheduled_hour m = Some (hour_of now)) as Hm by
    (destruct (decide (last_scheduled_hour m = Some (hour_of now))) as [|Hn]; [done|];
     apply Hs in Hn; done).
  rewrite Hm. destruct (first_some _) as [r|] eqn:E.
  2: { cbn. split_and!; try done; naive_solver. }
  rewrite A2. destruct (tm_last_trigger_time m) as [last|] eqn:El.
  - rewrite A3. destruct (_ <=?q _) eqn:Eq; qbool; cbn; split_and!; try congruence; naive_solver.
  - cbn. split_and!; try congruence; naive_solver.
Qed.

Section Handler.
Context {S : Type} `{TriggerHandler S}.

(** The effect of an iteration on the monitor's own bookkeeping. *)
Lemma tick_spec now obs sm sm' fired :
  monitor_tick now obs sm = (sm', fired) ->
  last_scheduled_hour (snd sm') = Some (hour_of now) /\
  trigger_cooldown_sec (snd sm') = trigger_cooldown_sec (snd sm) /\
  tm_last_trigger_time (snd sm') =
    (match fired with Some _ => Some now | None => tm_last_trigger_time (snd sm) end) /\
  (fired = Some Scheduled <-> last_scheduled_hour (snd sm) <> Some (hour_of now)) /\
  (forall r, fired = Some r -> r <> Scheduled ->
     match tm_last_trigger_time (snd sm) with
     | None => True
     | Some last => (trigger_cooldown_sec (snd sm) <= total_seconds (now - last))%Q
     end).
Proof.
  unfold monitor_tick. pose proof (decide_spec now obs (snd sm)) as Hd. cbn zeta in Hd.
  destruct (monitor_decide now obs (snd sm)) as [m [r|]]; cbn [fst snd] in Hd.
  - pose proof (on_trigger_frame r (fst sm) m) as Hf. cbn zeta in Hf.
    destruct (on_trigger r (fst sm) m) as [s' m']. cbn [snd] in Hf.
    intros [= <- <-]. cbn. naive_solver congruence.
  - intros [= <- <-]. cbn. naive_solver.
Qed.

Lemma scheduled_hours_gen ticks sm prev out :
  StronglySorted Z.le (prev :: map fst ticks) ->
  last_scheduled_hour (snd sm) = Some (hour_of prev) ->
  monitor_run ticks sm = out ->
  StronglySorted Z.lt (clock_hour prev :: scheduled_hours (snd out)).
Proof.
  revert sm prev out. induction ticks as [|[now obs] ticks IH]; intros sm prev out Hs Hh Hr.
  { cbn in Hr. subst. repeat constructor. }
  cbn in Hr. destruct (monitor_tick now obs sm) as [sm1 fired] eqn:Et.
  destruct (monitor_run ticks sm1) as [sm2 log] eqn:Er. subst out. cbn [snd].
  apply tick_spec in Et as (T1 & _ & _ & T4 & _). rewrite Hh in T4.
  cbn [map fst] in Hs. apply StronglySorted_inv in Hs as [Hs Hle].
  apply Forall_cons in Hle as [Hle _].
  specialize (IH _ _ _ Hs T1 Er). cbn [snd] in IH.
  pose proof (clock_hour_mono _ _ Hle) as Hmono.
  apply StronglySorted_inv in IH as [IH1 IH2].
  assert (Hskip : StronglySorted Z.lt (clock_hour prev :: scheduled_hours log)).
  { constructor; [done|]. eapply Forall_impl; [exact IH2|]. cbn. lia. }
  destruct fired as [[| | | |]|]; try exact Hskip.
  unfold scheduled_hours. cbn [List.filter is_scheduled snd map fst].
  assert (hour_of prev <> hour_of now) as Hne
    by (intros He; apply (proj1 T4 eq_refl); by rewrite He).
  assert (clock_hour prev < clock_hour now)%Z.
  { rewrite !hour_of_clock in Hne. destruct (Z.eq_dec (clock_hour prev) (clock_hour now)); [congruence | lia]. }
  constructor; [constructor; done|]. constructor; [done|].
  eapply Forall_impl; [exact IH2|]. cbn. lia.
Qed.

Lemma scheduled_hours_cover ticks sm prev out :
  (forall i a b, (prev :: map fst ticks) !! i = Some a -> map fst ticks !! i = Some b ->
     (a <= b < a + 23 * hour_us)%Z) ->
  last_scheduled_hour (snd sm) = Some (hour_of prev) ->
  monitor_run ticks sm = out ->
  forall t, t ∈ map fst ticks -> clock_hour t ∈ clock_hour prev :: scheduled_hours (snd out).
Proof.
  revert sm prev out. induction ticks as [|[now obs] ticks IH]; intros sm prev out Hg Hh Hr t Ht.
  { by apply not_elem_of_nil in Ht. }
  cbn in Hr. destruct (monitor_tick now obs sm) as [sm1 fired] eqn:Et.
  destruct (monitor_run ticks sm1) as [sm2 log] eqn:Er. subst out. cbn [snd].
  apply tick_spec in Et as (T1 & _ & _ & T4 & _). rewrite Hh in T4.
  specialize (IH sm1 now (sm2, log)). cbn [snd] in IH.
  assert (Hnow : clock_hour now ∈ clock_hour prev ::
                 scheduled_hours (match fired with Some r => (now, r) :: log | None => log end)).
  { destruct (decide (hour_of prev = hour_of now)) as [Heq|Hne].
    - apply elem_of_cons. left. symmetry. apply same_hour_close; [|done]. apply (Hg 0%nat); done.
    - assert (fired = Some Scheduled) as -> by (apply T4; congruence).
      right. left. }
  apply elem_of_cons in Ht as [->|Ht]; [exact Hnow|].
  assert (clock_hour t ∈ clock_hour now :: scheduled_hours log) as [->|Hin]%elem_of_cons.
  { apply IH; [|done|done|done]. intros i a b Ha Hb. by apply (Hg (Datatypes.S i)). }
  - exact Hnow.
  - right. destruct fired as [[| | | |]|]; try exact Hin. right. exact Hin.
Qed.

Lemma run_log_cons now obs ticks sm :
  let '(sm1, fired) := monitor_tick now obs sm in
  snd (monitor_run ((now, obs) :: ticks) sm) =
    match fired with
    | Some r => (now, r) :: snd (monitor_run ticks sm1)
    | None => snd (monitor_run ticks sm1)
    end.
Proof.
  cbn. destruct (monitor_tick now obs sm) as [sm1 fired].
  by destruct (monitor_run ticks sm1).
Qed.

(** The cooldown, with the last firing before the run. *)
Lemma cooldown_gen ticks sm i t1 r1 t2 r2 :
  (match tm_last_trigger_time (snd sm) with
   | Some last => (last, Scheduled) :: snd (monitor_run ticks sm)
   | None => snd (monitor_run ticks sm)
   end) !! i = Some (t1, r1) ->
  (match tm_last_trigger_time (snd sm) with
   | Some last => (last, Scheduled) :: snd (monitor_run ticks sm)
   | None => snd (monitor_run ticks sm)
   end) !! (Datatypes.S i) = Some (t2, r2) ->
  r2 <> Scheduled ->
  (trigger_cooldown_sec (snd sm) <= total_seconds (t2 - t1))%Q.
Proof.
  revert sm i r1. induction ticks as [|[now obs] ticks IH]; intros sm i r1 H1 H2 Hr.
  { destruct (tm_last_trigger_time (snd sm)); cbn in H2; done. }
  pose proof (run_log_cons now obs ticks sm) as Hlog.
  destruct (monitor_tick now obs sm) as [sm1 fired] eqn:Et. rewrite Hlog in H1, H2. clear Hlog.
  apply tick_spec in Et as (_ & T2 & T3 & _ & T5). rewrite <- T2.
  destruct fired as [r|].
  - specialize (T5 r eq_refl). specialize (IH sm1). rewrite T3 in IH.
    assert (Hshift : forall j, ((now, r) :: snd (monitor_run ticks sm1)) !! j = Some (t1, r1) ->
              ((now, r) :: snd (monitor_run ticks sm1)) !! (Datatypes.S j) = Some (t2, r2) ->
              (trigger_cooldown_sec (snd sm1) <= total_seconds (t2 - t1))%Q).
    { intros j Hj1 Hj2. destruct j as [|j].
      - injection Hj1 as <- <-. by eapply (IH 0%nat).
      - by eapply (IH (Datatypes.S j)). }
    destruct (tm_last_trigger_time (snd sm)) as [last|]; [|by apply (Hshift i)].
    destruct i as [|i]; [|by apply (Hshift i)].
    injection H1 as <- <-. injection H2 as <- <-. rewrite T2. auto.
  - rewrite <- T3 in H1, H2. eapply IH; eauto.
Qed.
End Handler.

(** ** Main results *)

Lemma sorted_adjacent l i a b :
  StronglySorted Z.le l -> l !! i = Some a -> l !! (Datatypes.S i) = Some b -> (a <= b)%Z.
Proof.
  intros Hs. revert i. induction Hs as [|x l Hs IH Hall]; intros i Ha Hb; [done|].
  destruct i as [|i]; [|by apply (IH i)]. injection Ha as ->.
  rewrite Forall_forall in Hall. apply Hall. by eapply list_elem_of_lookup_2.
Qed.

(** While the monitor's iterations follow each other by less than 23 hours, every clock
    hour with an iteration has exactly one scheduled trigger, whatever handler is
    plugged in. *)
Theorem scheduled_once_per_hour {S} `{TriggerHandler S} ticks (s : S) m :
  StronglySorted Z.le (map fst ticks) ->
  last_scheduled_hour m = None ->
  (forall i a b, map fst ticks !! i = Some a -> map fst ticks !! Datatypes.S i = Some b ->
     (b < a + 23 * hour_us)%Z) ->
  let log := snd (monitor_run ticks (s, m)) in
  StronglySorted Z.lt (scheduled_hours log) /\
  forall t, t ∈ map fst ticks -> clock_hour t ∈ scheduled_hours log.
Proof.
  intros Hs Hnone Hgap. cbn zeta. destruct ticks as [|[now obs] ticks].
  { cbn. split; [constructor | by intros t ?%not_elem_of_nil]. }
  pose proof (run_log_cons now obs ticks (s, m)) as Hlog.
  destruct (monitor_tick now obs (s, m)) as [sm1 fired] eqn:Et. rewrite Hlog. clear Hlog.
  apply tick_spec in Et as (T1 & _ & _ & T4 & _). cbn [snd] in T4. rewrite Hnone in T4.
  assert (fired = Some Scheduled) as -> by by apply T4.
  change (scheduled_hours ((now, Scheduled) :: ?l)) with (clock_hour now :: scheduled_hours l).
  cbn [map fst] in Hs, Hgap |- *.
  pose proof (scheduled_hours_gen ticks sm1 now _ Hs T1 eq_refl) as Hsort.
  split; [exact Hsort|]. intros t [->|Ht]%elem_of_cons; [left|].
  apply (scheduled_hours_cover ticks sm1 now _); try done.
  intros i a b Ha Hb. split; [|by apply (Hgap i)].
  by apply (sorted_adjacent _ i a b Hs).
Qed.

(** In every run of the monitor, a deviation trigger fires at least the cooldown after
    the firing before it, whatever handler is plugged in. *)
Theorem cooldown_respected {S} `{TriggerHandler S} ticks (s : S) m i t1 r1 t2 r2 :
  let log := snd (monitor_run ticks (s, m)) in
  log !! i = Some (t1, r1) -> log !! (Datatypes.S i) = Some (t2, r2) -> r2 <> Scheduled ->
  (trigger_cooldown_sec m <= total_seconds (t2 - t1))%Q.
Proof.
  cbn zeta. intros H1 H2 Hr.
  destruct (tm_last_trigger_time m) as [last|] eqn:El.
  - eapply (cooldown_gen ticks (s, m) (Datatypes.S i) t1 r1 t2 r2); cbn [snd]; rewrite ?El; eauto.
  - eapply (cooldown_gen ticks (s, m) i t1 r1 t2 r2); cbn [snd]; rewrite ?El; eauto.
Qed.

(** ** The price baseline *)

Lemma Qfloor_inject q z : (q == inject_Z z)%Q -> Qfloor q = z.
Proof. intros ->. apply Qfloor_Z. Qed.

Lemma Qround_even_int q z : (q == inject_Z z)%Q -> Qround_even q = z.
Proof.
  intros Hq. unfold Qround_even. rewrite (Qfloor_inject q z Hq).
  assert ((q - inject_Z z <?q 1 # 2) = true) as -> by (qbool; rewrite Hq; lra). done.
Qed.

(** The timestamps of a price dictionary are clock readings plus multiples of
    the step. *)
Lemma price_dict_keys clock delta_t step ps ts v :
  (delta_t * inject_Z hour_us == inject_Z step)%Q ->
  price_dict clock delta_t ps @? ts = Some v ->
  exists (i : nat) (k : Z), ts = (clock i + k * step)%Z.
Proof.
  intros Hstep Hget. unfold price_dict in Hget.
  assert (Hgen : forall l d,
    (forall ts v, d @? ts = Some v -> exists (i : nat) (k : Z), ts = (clock i + k * step)%Z) ->
    foldl (fun d '(i, price) =>
             d +{ (clock i + td_hours (inject_Z (Z.of_nat i) * delta_t))%Z := price }) d l
      @? ts = Some v -> exists (i : nat) (k : Z), ts = (clock i + k * step)%Z).
  { induction l as [|[i p] l IH]; intros d Hd Hg; cbn in Hg; [eauto|].
    eapply IH; [|exact Hg]. intros ts' v' Hg'. rewrite dget_dset in Hg'. case_decide as E; [|eauto].
    exists i, (Z.of_nat i). rewrite <- E. unfold td_hours.
    rewrite (Qround_even_int _ (Z.of_nat i * step)); [done|].
    rewrite inject_Z_mult, <- Hstep. ring. }
  eapply Hgen; [|exact Hget]. done.
Qed.

(** A price change of any size goes undetected when the check's clock is not an exact
    multiple of the timestep after the readings the baseline was keyed with: the
    baseline is looked up by timestamps that do not occur in it. *)
Theorem price_trigger_needs_alignment m clock now' delta_t step baseline current :
  (delta_t * inject_Z hour_us == inject_Z step)%Q ->
  (forall i, (now' - clock i) mod step <> 0)%Z ->
  check_price_change (update_prices m (price_dict clock delta_t baseline))
    (price_dict (fun _ => now') delta_t current) = None.
Proof.
  intros Hstep Hmis. unfold check_price_change. apply first_reason_None. intros [ts cur] Hin.
  cbn [last_prices update_prices].
  destruct (price_dict clock delta_t baseline @? ts) as [v|] eqn:E; [|done]. exfalso.
  apply (price_dict_keys _ _ step) in E as (n & i & Hi); [|done].
  assert (exists v', price_dict (fun _ => now') delta_t current @? ts = Some v') as [v' E'].
  { destruct (price_dict (fun _ => now') delta_t current @? ts) eqn:E'; [eauto|].
    apply dget_None_keys in E'. destruct E'. apply list_elem_of_fmap. by exists (ts, cur). }
  apply (price_dict_keys _ _ step) in E' as (_ & j & Hj); [|done].
  apply (Hmis n). replace (now' - clock n)%Z with ((i - j) * step)%Z by lia. apply Z_mod_mult.
Qed.

(** ** Witnesses *)

#[export] Instance silent_handler : TriggerHandler unit.
Proof.
  refine {| on_trigger := fun _ s m => (s, m) |}. by intros.
Defined.

Definition no_observation : observation :=
  {| obs_socs := []; obs_prices := []; obs_returns := []; obs_vdv463 := None |}.

Definition low_soc : observation :=
  {| obs_socs := [("bus_1", 1 # 10)]; obs_prices := []; obs_returns := []; obs_vdv463 := None |}.

Definition ex_monitor : TriggerMonitor :=
  {| tm_config := default_trigger_config 5; tm_pool := false; tm_depot_id := Some "d";
     last_prices := []; expected_socs := [("bus_1", 1 # 2)]; expected_return_times := [];
     tm_running := true; tm_last_trigger_time := None; trigger_cooldown_sec := 300;
     last_scheduled_hour := None; last_vdv463_update_at := None |}.

(** Half past six, half past six again a minute later, seven. *)
Definition ex_ticks : list (Z * observation) :=
  [ ((13 * hour_us) / 2, no_observation);
    ((13 * hour_us) / 2 + minute_us, no_observation);
    (7 * hour_us, no_observation) ]%Z.

Lemma scheduled_once_per_hour_witness :
  scheduled_hours (snd (monitor_run ex_ticks (tt, ex_monitor))) = [6; 7]%Z /\
  StronglySorted Z.lt (scheduled_hours (snd (monitor_run ex_ticks (tt, ex_monitor)))).
Proof.
  split; [vm_compute; reflexivity|].
  apply (scheduled_once_per_hour ex_ticks tt ex_monitor).
  - repeat constructor; vm_compute; discriminate.
  - reflexivity.
  - intros i a b Ha Hb. destruct i as [|[|[|i]]]; cbn in Ha, Hb; simplify_eq;
      vm_compute; reflexivity.
Defined.

Definition ex_ticks_soc : list (Z * observation) :=
  [ (0, no_observation); (minute_us, low_soc); (6 * minute_us, low_soc) ]%Z.

Lemma cooldown_respected_witness :
  snd (monitor_run ex_ticks_soc (tt, ex_monitor))
    = [(0%Z, Scheduled); ((6 * minute_us)%Z, SocDeviation "bus_1" (1 # 2) (1 # 10))] /\
  (trigger_cooldown_sec ex_monitor <= total_seconds (6 * minute_us - 0))%Q.
Proof.
  assert (Hlog : snd (monitor_run ex_ticks_soc (tt, ex_monitor))
    = [(0%Z, Scheduled); ((6 * minute_us)%Z, SocDeviation "bus_1" (1 # 2) (1 # 10))])
    by (vm_compute; reflexivity).
  split; [exact Hlog|].
  apply (cooldown_respected ex_ticks_soc tt ex_monitor 0 0 Scheduled (6 * minute_us)
           (SocDeviation "bus_1" (1 # 2) (1 # 10))); [| | discriminate];
    rewrite Hlog; reflexivity.
Defined.

(** The price triples, the check runs a minute after the baseline was taken. *)
Lemma price_trigger_needs_alignment_witness :
  check_price_change (update_prices ex_monitor (price_dict (fun _ => 0%Z) (1 # 4) [1 # 10; 1 # 10]))
    (price_dict (fun _ => minute_us) (1 # 4) [3 # 10; 3 # 10]) = None.
Proof.
  apply (price_trigger_needs_alignment ex_monitor (fun _ => 0%Z) minute_us (1 # 4) (hour_us / 4)).
  - reflexivity.
  - intros i. vm_compute. discriminate.
Defined.
