(* ===== verification/Controller.v ===== *)
(** * The depot controller ([src/core/controller.py], [controller_config.py])

    [DepotController] runs optimisations on triggers and on its own hourly
    check, retries them, counts failures and opens a circuit breaker. The
    outcome of everything it awaits in one run (state assembly, solves, clock
    readings, the assembler's metadata) is a [run_env]; exceptions are their
    messages, which is what the code inspects. Storing the result, alerts and
    command dispatch are best-effort calls whose exceptions are swallowed: they
    do not touch the controller and are left out. *)

From S2P Require Import Prelude Models Datetime Readiness Triggers.
From Stdlib Require Import ZArith QArith Lqa Lia Ascii.
From stdpp Require Import base list strings gmap.

(** ** Configuration *)

Record ControllerConfig := {
  optimization_horizon_hours : Z;
  hourly_optimization_start : Z;
  hourly_optimization_end : Z;
  optimization_timeout : Q;
  cc_trigger_cooldown_minutes : Z;
  max_optimization_failures : Z;
  dispatch_retry_attempts : Z;
  dispatch_retry_delay_seconds : Q;
  shutdown_timeout_seconds : Q
}.

Definition default_controller_config : ControllerConfig :=
  {| optimization_horizon_hours := 24; hourly_optimization_start := 7;
     hourly_optimization_end := 23; optimization_timeout := 60;
     cc_trigger_cooldown_minutes := 5; max_optimization_failures := 3;
     dispatch_retry_attempts := 3; dispatch_retry_delay_seconds := 2;
     shutdown_timeout_seconds := 30 |}.

(** [ControllerConfig.validate]: the field of the first violated check. *)
Definition validate_config (c : ControllerConfig) : result string unit :=
  let within (lo hi x : Z) := (lo <=? x)%Z && (x <=? hi)%Z in
  let? _ := raise_if (negb (within 1 48 (optimization_horizon_hours c))%Z)
              "optimization_horizon_hours" in
  let? _ := raise_if (negb (within 0 23 (hourly_optimization_start c))%Z)
              "hourly_optimization_start" in
  let? _ := raise_if (negb (within 0 23 (hourly_optimization_end c))%Z)
              "hourly_optimization_end" in
  let? _ := raise_if (hourly_optimization_end c <=? hourly_optimization_start c)%Z
              "hourly_optimization_start" in
  let? _ := raise_if (optimization_timeout c <=?q 0) "optimization_timeout" in
  let? _ := raise_if (cc_trigger_cooldown_minutes c <? 0)%Z "trigger_cooldown_minutes" in
  let? _ := raise_if (max_optimization_failures c <? 1)%Z "max_optimization_failures" in
  raise_if (dispatch_retry_attempts c <? 0)%Z "dispatch_retry_attempts".

(** ** State *)

Record DepotController := {
  dc_depot_id : string;
  dc_config : DepotConfig;
  controller_config : ControllerConfig;
  trigger_monitor : TriggerMonitor;
  last_schedule : option (dict string VehicleSchedule);
  last_run_time : option Z;
  last_result : option OptimizationResult;
  dc_running : bool;
  optimization_failures : Z;
  dc_last_trigger_time : option Z;
  circuit_breaker_open : bool;
  circuit_breaker_reset_time : option Z;
  failure_metric : list string;   (** [OPTIMIZATION_FAILURES], by failure type *)
  runs_metric : list string       (** [OPTIMIZATION_RUNS], by trigger reason *)
}.

(** [DepotController.__init__]: the monitor gets the assembler and no pool. *)
Definition new_controller (depot_id : string) (config : DepotConfig) (cc : ControllerConfig)
  : result opt_error DepotController :=
  let? m := new_monitor (default_trigger_config (cc_trigger_cooldown_minutes cc))
              (Some depot_id) false None in
  Ok {| dc_depot_id := depot_id; dc_config := config; controller_config := cc;
        trigger_monitor := m; last_schedule := None; last_run_time := None;
        last_result := None; dc_running := false; optimization_failures := 0;
        dc_last_trigger_time := None; circuit_breaker_open := false;
        circuit_breaker_reset_time := None; failure_metric := []; runs_metric := [] |}.

Definition set_monitor (c : DepotController) (m : TriggerMonitor) : DepotController :=
  {| dc_depot_id := dc_depot_id c; dc_config := dc_config c;
     controller_config := controller_config c; trigger_monitor := m;
     last_schedule := last_schedule c; last_run_time := last_run_time c;
     last_result := last_result c; dc_running := dc_running c;
     optimization_failures := optimization_failures c;
     dc_last_trigger_time := dc_last_trigger_time c;
     circuit_breaker_open := circuit_breaker_open c;
     circuit_breaker_reset_time := circuit_breaker_reset_time c;
     failure_metric := failure_metric c; runs_metric := runs_metric c |}.

Definition set_run_time (c : DepotController) (t : Z) : DepotController :=
  {| dc_depot_id := dc_depot_id c; dc_config := dc_config c;
     controller_config := controller_config c; trigger_monitor := trigger_monitor c;
     last_schedule := last_schedule c; last_run_time := Some t;
     last_result := last_result c; dc_running := dc_running c;
     optimization_failures := optimization_failures c;
     dc_last_trigger_time := dc_last_trigger_time c;
     circuit_breaker_open := circuit_breaker_open c;
     circuit_breaker_reset_time := circuit_breaker_reset_time c;
     failure_metric := failure_metric c; runs_metric := runs_metric c |}.

(** [last_schedule], [last_result] and [last_run_time] after a solve. *)
Definition store_result (c : DepotController) (r : OptimizationResult) (t : Z)
  : DepotController :=
  {| dc_depot_id := dc_depot_id c; dc_config := dc_config c;
     controller_config := controller_config c; trigger_monitor := trigger_monitor c;
     last_schedule := Some (schedule r); last_run_time := Some t;
     last_result := Some r; dc_running := dc_running c;
     optimization_failures := optimization_failures c;
     dc_last_trigger_time := dc_last_trigger_time c;
     circuit_breaker_open := circuit_breaker_open c;
     circuit_breaker_reset_time := circuit_breaker_reset_time c;
     failure_metric := failure_metric c; runs_metric := runs_metric c |}.

Definition set_breaker (c : DepotController) (failures : Z) (open : bool) (reset : option Z)
  : DepotController :=
  {| dc_depot_id := dc_depot_id c; dc_config := dc_config c;
     controller_config := controller_config c; trigger_monitor := trigger_monitor c;
     last_schedule := last_schedule c; last_run_time := last_run_time c;
     last_result := last_result c; dc_running := dc_running c;
     optimization_failures := failures;
     dc_last_trigger_time := dc_last_trigger_time c;
     circuit_breaker_open := open; circuit_breaker_reset_time := reset;
     failure_metric := failure_metric c; runs_metric := runs_metric c |}.

Definition set_last_trigger (c : DepotController) (t : Z) : DepotController :=
  {| dc_depot_id := dc_depot_id c; dc_config := dc_config c;
     controller_config := controller_config c; trigger_monitor := trigger_monitor c;
     last_schedule := last_schedule c; last_run_time := last_run_time c;
     last_result := last_result c; dc_running := dc_running c;
     optimization_failures := optimization_failures c;
     dc_last_trigger_time := Some t;
     circuit_breaker_open := circuit_breaker_open c;
     circuit_breaker_reset_time := circuit_breaker_reset_time c;
     failure_metric := failure_metric c; runs_metric := runs_metric c |}.

Definition set_running (c : DepotController) (b : bool) : DepotController :=
  {| dc_depot_id := dc_depot_id c; dc_config := dc_config c;
     controller_config := controller_config c; trigger_monitor := trigger_monitor c;
     last_schedule := last_schedule c; last_run_time := last_run_time c;
     last_result := last_result c; dc_running := b;
     optimization_failures := optimization_failures c;
     dc_last_trigger_time := dc_last_trigger_time c;
     circuit_breaker_open := circuit_breaker_open c;
     circuit_breaker_reset_time := circuit_breaker_reset_time c;
     failure_metric := failure_metric c; runs_metric := runs_metric c |}.

Definition count_metrics (c : DepotController) (failure run : list string) : DepotController :=
  {| dc_depot_id := dc_depot_id c; dc_config := dc_config c;
     controller_config := controller_config c; trigger_monitor := trigger_monitor c;
     last_schedule := last_schedule c; last_run_time := last_run_time c;
     last_result := last_result c; dc_running := dc_running c;
     optimization_failures := optimization_failures c;
     dc_last_trigger_time := dc_last_trigger_time c;
     circuit_breaker_open := circuit_breaker_open c;
     circuit_breaker_reset_time := circuit_breaker_reset_time c;
     failure_metric := failure_metric c ++ failure; runs_metric := runs_metric c ++ run |}.

(** ** What one run awaits *)

(** The metadata the assembler keeps about its last assembly. *)
Record assembler_meta := {
  am_horizon : option (datetime * datetime);
  am_organization_id : option string;
  am_building_load_source : string;
  am_schedules_present : bool;
  am_schedules : list (dict string cell);
  am_weather : list pyobj;
  am_forecast_id : option string;
  am_recent : list pyobj
}.

Record run_env := {
  re_assemble : nat -> result string DepotState;
  re_assembled_at : Z;
  re_meta : assembler_meta;
  re_snapshot_id : string;
  re_versions : option string * option string * option string;
  re_str_float : Q -> string;
  re_build_raises : bool;       (** [build_snapshot] raised *)
  re_solve : nat -> DepotState -> result string OptimizationResult;
  re_stored_at : nat -> Z;
  re_priced_at : nat -> nat -> Z;
  re_failed_at : nat -> Z
}.

Inductive run_error : Type :=
| ReadinessBlocked (missing : list string)
| RunFailed (message : string).

(** ** Failure classification *)

Definition lower_ascii (a : ascii) : ascii :=
  let n := nat_of_ascii a in
  if (65 <=? n)%nat && (n <=? 90)%nat then ascii_of_nat (n + 32) else a.

Fixpoint lower (s : string) : string :=
  match s with
  | EmptyString => EmptyString
  | String a s' => String (lower_ascii a) (lower s')
  end.

(** [needle in hay]. *)
Definition contains (needle hay : string) : bool :=
  match String.index 0 needle hay with Some _ => true | None => false end.

Definition failure_type (message : string) : string :=
  let error_msg := lower message in
  if contains "timeout" error_msg || contains "time limit" error_msg then "timeout"
  else if contains "infeasible" error_msg then "infeasible"
  else if contains "state" error_msg || contains "assembly" error_msg then "state_assembly"
  else "other".

(** ** Running an optimisation *)

Definition max_retries : nat := 2.

(** The assembly loop: up to [max_retries + 1] attempts. *)
Fixpoint assemble_state (env : run_env) (left_ attempt : nat) : result string DepotState :=
  match re_assemble env attempt with
  | Ok state => Ok state
  | Err e => match left_ with
             | O => Err e
             | S left' => assemble_state env left' (S attempt)
             end
  end.

Definition _capture_snapshot (env : run_env) (c : DepotController) (state : DepotState)
    (horizon_hours : Z) : OptimizationInputSnapshot :=
  let meta := re_meta env in
  let now := re_assembled_at env in
  let horizon := match am_horizon meta with
                 | Some h => h
                 | None => (aware_utc now, aware_utc (now + horizon_hours * hour_us))
                 end in
  let rep := evaluate_readiness (dc_config c) state (am_building_load_source meta)
               (am_schedules_present meta) in
  if re_build_raises env
  then _stub_snapshot (re_snapshot_id env) now (re_versions env) (dc_depot_id c)
         (fst horizon) (snd horizon) (Some rep)
  else build_snapshot (re_str_float env) (re_snapshot_id env) now (re_versions env)
         (dc_depot_id c) (am_organization_id meta) (dc_config c) state
         (fst horizon) (snd horizon) (am_schedules meta) (am_weather meta)
         (am_forecast_id meta) (am_recent meta) rep [].

(** [sched["soc"][1] if len(sched["soc"]) > 1 else sched["soc"][0]]. *)
Definition expected_soc (sched : VehicleSchedule) : result string Q :=
  match soc sched with
  | [] => Err "list index out of range"
  | [s0] => Ok s0
  | _ :: s1 :: _ => Ok s1
  end.

Definition expected_socs_of (sched : dict string VehicleSchedule)
  : result string (dict string Q) :=
  rmap (fun '(vid, s) => let? x := expected_soc s in Ok (vid, x)) sched.

(** The degraded mark on the result. *)
Definition mark_degraded (rep : ReadinessReport) (r : OptimizationResult) : OptimizationResult :=
  if is_degraded rep && (String.eqb (status r) "optimal" || String.eqb (status r) "feasible")
  then with_status r "degraded" else r.

(** The [except Exception] handler of the solve loop: count, classify, trip. *)
Definition record_failure (c : DepotController) (message : string) (now : Z) : DepotController :=
  let failures := (optimization_failures c + 1)%Z in
  let c := count_metrics c [failure_type message] [] in
  if (max_optimization_failures (controller_config c) <=? failures)%Z
  then set_breaker c failures true (Some (now + 30 * minute_us)%Z)
  else set_breaker c failures (circuit_breaker_open c) (circuit_breaker_reset_time c).

(** The success path after the result is stored. *)
Definition finish_run (env : run_env) (attempt : nat) (state : DepotState) (reason : string)
    (c : DepotController) (socs : dict string Q) : DepotController :=
  let m := update_expected_state (trigger_monitor c) socs [] in
  let m := update_prices m (price_dict (re_priced_at env attempt) (delta_t (dc_config c))
                              (prices state)) in
  count_metrics (set_breaker (set_monitor c m) 0 false None) [] [reason].

(** The solve loop. An exception of the solve itself is retried without being
    counted; one raised after the solve is counted on every attempt. *)
Fixpoint solve_attempts (env : run_env) (state : DepotState) (rep : ReadinessReport)
    (reason : string) (left_ attempt : nat) (c : DepotController)
  : result run_error OptimizationResult * DepotController :=
  match re_solve env attempt state with
  | Err e =>
      match left_ with
      | O => (Err (RunFailed e), record_failure c e (re_failed_at env attempt))
      | S left' => solve_attempts env state rep reason left' (S attempt) c
      end
  | Ok r0 =>
      let r := mark_degraded rep r0 in
      let c := store_result c r (re_stored_at env attempt) in
      match expected_socs_of (schedule r) with
      | Ok socs => (Ok r, finish_run env attempt state reason c socs)
      | Err e =>
          let c := record_failure c e (re_failed_at env attempt) in
          match left_ with
          | O => (Err (RunFailed e), c)
          | S left' => solve_attempts env state rep reason left' (S attempt) c
          end
      end
  end.

Definition run_optimization (env : run_env) (reason : string) (horizon_hours : option Z)
    (c : DepotController) : result run_error OptimizationResult * DepotController :=
  let effective := default (optimization_horizon_hours (controller_config c)) horizon_hours in
  match assemble_state env max_retries 0 with
  | Err e => (Err (RunFailed e), c)
  | Ok state =>
      let c := set_run_time c (re_assembled_at env) in
      let rep := readiness (_capture_snapshot env c state effective) in
      if is_blocking rep then (Err (ReadinessBlocked (missing_inputs rep)), c)
      else solve_attempts env state rep reason max_retries 0 c
  end.

(** ** Triggers *)

(** The guards of [_handle_trigger]: [None] when the trigger is ignored, else the
    controller the run starts from. *)
Definition admit_trigger (now : Z) (c : DepotController) : option DepotController :=
  let cooldown := (cc_trigger_cooldown_minutes (controller_config c) * minute_us)%Z in
  let cooling := match dc_last_trigger_time c with
                 | Some last => (now - last <? cooldown)%Z
                 | None => false
                 end in
  if cooling then None
  else if circuit_breaker_open c then
    match circuit_breaker_reset_time c with
    | Some reset => if (now <? reset)%Z then None
                    else Some (set_last_trigger (set_breaker c 0 false None) now)
    | None => Some (set_last_trigger (set_breaker c 0 false None) now)
    end
  else Some (set_last_trigger c now).

Definition _handle_trigger (now : Z) (env : run_env) (reason : string) (c : DepotController)
  : DepotController :=
  match admit_trigger now c with
  | None => c
  | Some c' => snd (run_optimization env reason None c')
  end.

(** ** The control loop *)

(** One iteration of [run]; [exists_] is what [_depot_exists_in_supabase] says. *)
Definition control_tick (now : Z) (exists_ : bool) (env : run_env) (c : DepotController)
  : DepotController :=
  if negb exists_ then set_running c false
  else
    let h := hour_of now in
    if (hourly_optimization_start (controller_config c) <=? h)%Z
       && (h <=? hourly_optimization_end (controller_config c))%Z
       && match last_run_time c with
          | None => true
          | Some last => (hour_us <? now - last)%Z
          end
    then snd (run_optimization env "hourly" None c)
    else c.

Definition controller_start (c : DepotController) : DepotController := set_running c true.

Definition controller_stop (c : DepotController) : DepotController :=
  set_monitor (set_running c false) (monitor_stop (trigger_monitor c)).

(** ** The controller as a trigger handler

    The monitor's callback is [_handle_trigger] of the controller that owns it.
    [pending] supplies, for each callback, its clock reading and its run. *)

Record handler_state := {
  hs_controller : DepotController;
  hs_pending : list (Z * run_env)
}.

Definition controller_on_trigger (text : trigger_reason -> string) (r : trigger_reason)
    (s : handler_state) (m : TriggerMonitor) : handler_state * TriggerMonitor :=
  match hs_pending s with
  | [] => (s, m)
  | (now, env) :: rest =>
      let c := _handle_trigger now env (text r) (set_monitor (hs_controller s) m) in
      ({| hs_controller := c; hs_pending := rest |}, trigger_monitor c)
  end.
