(* ===== verification/ControllerFacts.v ===== *)
(** * Facts about the controller

    The circuit breaker's invariant over every reachable state, how failures
    are counted, what the guards of a trigger let through, and that the
    controller honours the monitor's callback interface. *)

From S2P Require Import Prelude Models Milp Solver SolverFacts Datetime Readiness ReadinessFacts.
From S2P Require Import Triggers TriggersFacts Controller.
From Stdlib Require Import ZArith QArith Lqa Lia.
From stdpp Require Import base list strings gmap.

(** ** What a run leaves alone *)

(** The parts of a controller no run changes. *)
Definition same_frame (c c' : DepotController) : Prop :=
  controller_config c' = controller_config c /\ dc_config c' = dc_config c /\
  dc_depot_id c' = dc_depot_id c /\ dc_running c' = dc_running c /\
  dc_last_trigger_time c' = dc_last_trigger_time c /\
  tm_config (trigger_monitor c') = tm_config (trigger_monitor c) /\
  tm_pool (trigger_monitor c') = tm_pool (trigger_monitor c) /\
  tm_last_trigger_time (trigger_monitor c') = tm_last_trigger_time (trigger_monitor c) /\
  trigger_cooldown_sec (trigger_monitor c') = trigger_cooldown_sec (trigger_monitor c) /\
  last_scheduled_hour (trigger_monitor c') = last_scheduled_hour (trigger_monitor c) /\
  last_vdv463_update_at (trigger_monitor c') = last_vdv463_update_at (trigger_monitor c).

#[export] Instance same_frame_refl : Reflexive same_frame.
Proof. by intros c. Qed.

#[export] Instance same_frame_trans : Transitive same_frame.
Proof. unfold same_frame. intros a b c H1 H2. destruct_and?. split_and!; congruence. Qed.

(** The breaker is open exactly when the failure count has reached the limit. *)
Definition breaker_inv (c : DepotController) : Prop :=
  (0 <= optimization_failures c)%Z /\
  (circuit_breaker_open c = true <->
     (max_optimization_failures (controller_config c) <= optimization_failures c)%Z) /\
  (circuit_breaker_open c = true -> is_Some (circuit_breaker_reset_time c)).

Lemma record_failure_frame c e t : same_frame c (record_failure c e t).
Proof. unfold record_failure. cbn. by destruct (_ <=? _)%Z. Qed.

Lemma record_failure_inv c e t : breaker_inv c -> breaker_inv (record_failure c e t).
Proof.
  unfold breaker_inv, record_failure. cbn. intros (H1 & H2 & H3).
  destruct (Z.leb_spec (max_optimization_failures (controller_config c))
              (optimization_failures c + 1)); cbn.
  - split_and!; [lia | split; [lia | done] | eauto].
  - split_and!; [lia | | exact H3]. rewrite H2. lia.
Qed.

Lemma record_failure_count c e t :
  optimization_failures (record_failure c e t) = (optimization_failures c + 1)%Z.
Proof. unfold record_failure. cbn. by destruct (_ <=? _)%Z. Qed.

Lemma finish_run_frame env a st reason c socs : same_frame c (finish_run env a st reason c socs).
Proof. by unfold finish_run. Qed.

Lemma finish_run_inv env a st reason c socs :
  (1 <= max_optimization_failures (controller_config c))%Z ->
  breaker_inv (finish_run env a st reason c socs).
Proof. unfold breaker_inv, finish_run. cbn. intros. split_and!; [lia | split; [done | lia] | done]. Qed.

Lemma solve_attempts_frame env st rep reason n a c :
  same_frame c (snd (solve_attempts env st rep reason n a c)).
Proof.
  revert a c. induction n as [|n IH]; intros a c; cbn [solve_attempts];
    destruct (re_solve env a st) as [r|e]; cbn [snd].
  - destruct (expected_socs_of _); cbn [snd].
    + etransitivity; [|apply finish_run_frame]. done.
    + etransitivity; [|apply record_failure_frame]. done.
  - apply record_failure_frame.
  - destruct (expected_socs_of _); cbn [snd].
    + etransitivity; [|apply finish_run_frame]. done.
    + etransitivity; [|apply IH]. etransitivity; [|apply record_failure_frame]. done.
  - apply IH.
Qed.

Lemma solve_attempts_inv env st rep reason n a c :
  (1 <= max_optimization_failures (controller_config c))%Z -> breaker_inv c ->
  breaker_inv (snd (solve_attempts env st rep reason n a c)).
Proof.
  revert a c. induction n as [|n IH]; intros a c Hmax Hinv; cbn [solve_attempts];
    destruct (re_solve env a st) as [r|e]; cbn [snd];
    try (by apply record_failure_inv); try (by apply IH);
    destruct (expected_socs_of _); cbn [snd]; try (by apply finish_run_inv).
  - by apply record_failure_inv.
  - apply IH; [by destruct (record_failure_frame (store_result c (mark_degraded rep r) (re_stored_at env a)) e (re_failed_at env a)) as [-> _]|].
    by apply record_failure_inv.
Qed.

Lemma run_frame env reason h c : same_frame c (snd (run_optimization env reason h c)).
Proof.
  unfold run_optimization. destruct (assemble_state env max_retries 0); cbn [snd]; [|done].
  destruct (is_blocking _); cbn [snd]; [done|].
  etransitivity; [|apply solve_attempts_frame]. done.
Qed.

Lemma run_inv env reason h c :
  (1 <= max_optimization_failures (controller_config c))%Z -> breaker_inv c ->
  breaker_inv (snd (run_optimization env reason h c)).
Proof.
  intros Hmax Hinv. unfold run_optimization.
  destruct (assemble_state env max_retries 0); cbn [snd]; [|done].
  destruct (is_blocking _); cbn [snd]; [done|]. by apply solve_attempts_inv.
Qed.

Lemma admit_inv now c c' :
  (1 <= max_optimization_failures (controller_config c))%Z -> breaker_inv c ->
  admit_trigger now c = Some c' ->
  breaker_inv c' /\ controller_config c' = controller_config c /\
  dc_last_trigger_time c' = Some now /\ circuit_breaker_open c' = false.
Proof.
  intros Hmax Hinv. unfold admit_trigger.
  destruct (match dc_last_trigger_time c with Some _ => _ | None => _ end); [done|].
  destruct (circuit_breaker_open c) eqn:Eo.
  - assert (Hb : breaker_inv (set_last_trigger (set_breaker c 0 false None) now))
      by (unfold breaker_inv; cbn; split_and!; [lia | split; [done | lia] | done]).
    destruct (circuit_breaker_reset_time c) as [t|]; [destruct (_ <? _)%Z; [done|]|];
      intros [= <-]; done.
  - intros [= <-]. split_and!; done.
Qed.

(** ** The breaker over every reachable state *)

Inductive controller_step : DepotController -> DepotController -> Prop :=
| step_trigger now env reason c : controller_step c (_handle_trigger now env reason c)
| step_tick now exists_ env c : controller_step c (control_tick now exists_ env c)
| step_manual env reason h c : controller_step c (snd (run_optimization env reason h c))
| step_monitor m c : controller_step c (set_monitor c m)
| step_start c : controller_step c (controller_start c)
| step_stop c : controller_step c (controller_stop c).

Inductive reachable_controller (c0 : DepotController) : DepotController -> Prop :=
| reach_init : reachable_controller c0 c0
| reach_step c c' : reachable_controller c0 c -> controller_step c c' ->
    reachable_controller c0 c'.

Lemma controller_step_inv c c' :
  controller_step c c' ->
  (1 <= max_optimization_failures (controller_config c))%Z -> breaker_inv c ->
  breaker_inv c' /\ controller_config c' = controller_config c.
Proof.
  intros Hs Hmax Hinv. destruct Hs; [| |split; [by apply run_inv | apply run_frame] | done..].
  - unfold _handle_trigger. destruct (admit_trigger now c) as [c'|] eqn:E; [|done].
    destruct (admit_inv _ _ _ Hmax Hinv E) as (Hi & Hc & _).
    split; [apply run_inv; [congruence | done]|]. rewrite <- Hc. apply run_frame.
  - unfold control_tick. destruct (negb exists_); [done|].
    destruct (_ && _ && _); [|done]. split; [by apply run_inv | apply run_frame].
Qed.

(** C6: In every state a controller with a valid configuration reaches, through
    triggers, hourly checks, manual runs, start and stop, the circuit breaker is open
    exactly when the failure count has reached the limit, and an open breaker has a
    reset time. *)
Theorem breaker_invariant depot_id config cc c0 c :
  validate_config cc = Ok tt ->
  new_controller depot_id config cc = Ok c0 ->
  reachable_controller c0 c ->
  breaker_inv c /\ controller_config c = cc.
Proof.
  intros Hv Hnew Hr.
  assert (Hmax : (1 <= max_optimization_failures cc)%Z).
  { unfold validate_config in Hv. inv_ok. apply Z.ltb_ge in Hm5. lia. }
  injection Hnew as <-. induction Hr as [|c c' _ [Hinv Hcc] Hs].
  - unfold breaker_inv. cbn. split_and!; [lia | split; [done | lia] | done | done].
  - destruct (controller_step_inv _ _ Hs) as [Hi' Hc']; [by rewrite Hcc | done |]. split; [done | congruence].
Qed.

(** ** Counting failures *)

(** In this run the inputs are complete and every solve raises. *)
Definition failing_run (env : run_env) (c : DepotController) : Prop :=
  exists state e, assemble_state env max_retries 0 = Ok state /\
    ~ blocked (dc_config c) state (am_schedules_present (re_meta env)) /\
    forall i, (i <= max_retries)%nat -> re_solve env i state = Err (e i).

Lemma readiness_of_capture env c st h :
  is_blocking (readiness (_capture_snapshot env c st h)) =
  is_blocking (evaluate_readiness (dc_config c) st (am_building_load_source (re_meta env))
                 (am_schedules_present (re_meta env))).
Proof.
  unfold _capture_snapshot. destruct (re_build_raises env), (re_versions env) as [[? ?] ?]; [|done].
  unfold _stub_snapshot. cbn [readiness stub_readiness].
  unfold is_blocking at 1. cbn [rr_status]. by destruct (is_blocking _).
Qed.

Lemma failing_run_result env reason h c :
  failing_run env c ->
  exists e, run_optimization env reason h c =
    (Err (RunFailed e),
     record_failure (set_run_time c (re_assembled_at env)) e (re_failed_at env max_retries)).
Proof.
  intros (state & e & Ha & Hb & Hs). exists (e max_retries).
  unfold run_optimization. rewrite Ha, readiness_of_capture.
  cbn [dc_config set_run_time].
  destruct (is_blocking (evaluate_readiness _ _ _ _)) eqn:Eb; [by apply blocking_iff in Eb|].
  cbn [max_retries solve_attempts].
  rewrite !Hs by (unfold max_retries; lia). done.
Qed.

(** A sequence of such runs. *)
Inductive failing_runs : DepotController -> nat -> DepotController -> Prop :=
| fr_nil c : failing_runs c 0 c
| fr_cons env reason h c n c' :
    failing_run env c ->
    failing_runs (snd (run_optimization env reason h c)) n c' ->
    failing_runs c (S n) c'.

(** A run whose solves all raise counts as one failure however many attempts it made,
    keeps the last result, and the breaker opens exactly with the run that brings the
    count to the configured maximum. *)
Theorem consecutive_failures_open_breaker c n c' :
  failing_runs c n c' -> breaker_inv c -> optimization_failures c = 0%Z ->
  (1 <= max_optimization_failures (controller_config c))%Z ->
  optimization_failures c' = Z.of_nat n /\ last_result c' = last_result c /\
  (circuit_breaker_open c' = true <->
     (max_optimization_failures (controller_config c) <= Z.of_nat n)%Z).
Proof.
  assert (Hgen : failing_runs c n c' -> breaker_inv c ->
    optimization_failures c' = (optimization_failures c + Z.of_nat n)%Z /\
    last_result c' = last_result c /\
    controller_config c' = controller_config c /\ breaker_inv c').
  { induction 1 as [c|env reason h c n c' Hf _ IH]; intros Hinv.
    - split_and!; [lia | done | done | done].
    - destruct (failing_run_result env reason h c Hf) as [e He]. rewrite He in IH.
      cbn [snd] in IH. set (c1 := record_failure _ _ _) in IH.
      assert (breaker_inv c1) as H1 by by apply record_failure_inv.
      destruct (IH H1) as (A & B & C & D). unfold c1 in A, B, C.
      rewrite record_failure_count in A. cbn in A.
      split_and!; [lia | rewrite B | rewrite C; exact (proj1 (record_failure_frame _ _ _)) | done].
      unfold record_failure. cbn. by destruct (_ <=? _)%Z. }
  intros Hr Hinv H0 Hmax. destruct (Hgen Hr Hinv) as (A & B & C & (_ & D & _)).
  rewrite H0 in A. split_and!; [lia | done |]. by rewrite D, C, A.
Qed.

Lemma assembly_failure env reason h c e :
  assemble_state env max_retries 0 = Err e ->
  run_optimization env reason h c = (Err (RunFailed e), c).
Proof. intros H. unfold run_optimization. by rewrite H. Qed.

(** ** Triggers *)

(** An open breaker whose reset lies ahead ignores triggers. *)
Theorem open_breaker_ignores_triggers now env reason c reset :
  circuit_breaker_open c = true -> circuit_breaker_reset_time c = Some reset ->
  (now < reset)%Z -> _handle_trigger now env reason c = c.
Proof.
  intros Ho Hr Hlt. unfold _handle_trigger, admit_trigger. rewrite Ho, Hr.
  assert ((now <? reset)%Z = true) as -> by by apply Z.ltb_lt.
  by destruct (match dc_last_trigger_time c with Some _ => _ | None => _ end).
Qed.

(** The times at which a sequence of triggers starts a run. *)
Fixpoint run_starts (events : list (Z * run_env * string)) (c : DepotController) : list Z :=
  match events with
  | [] => []
  | (now, env, reason) :: rest =>
      let starts := run_starts rest (_handle_trigger now env reason c) in
      match admit_trigger now c with Some _ => now :: starts | None => starts end
  end.

Lemma handle_trigger_frame now env reason c :
  controller_config (_handle_trigger now env reason c) = controller_config c /\
  dc_last_trigger_time (_handle_trigger now env reason c) =
    match admit_trigger now c with Some _ => Some now | None => dc_last_trigger_time c end.
Proof.
  unfold _handle_trigger. destruct (admit_trigger now c) as [c'|] eqn:E; [|done].
  pose proof (run_frame env reason None c') as (Hc & _ & _ & _ & Ht & _).
  unfold admit_trigger in E. revert E.
  destruct (match dc_last_trigger_time c with Some _ => _ | None => _ end); [done|].
  destruct (circuit_breaker_open c); [destruct (circuit_breaker_reset_time c);
    [destruct (_ <? _)%Z; [done|]|]|]; intros [= <-]; rewrite Hc, Ht; done.
Qed.

Lemma run_starts_spaced events c cooldown i t1 t2 :
  cooldown = (cc_trigger_cooldown_minutes (controller_config c) * minute_us)%Z ->
  let times := match dc_last_trigger_time c with
               | Some last => last :: run_starts events c
               | None => run_starts events c
               end in
  times !! i = Some t1 -> times !! S i = Some t2 -> (cooldown <= t2 - t1)%Z.
Proof.
  cbn zeta. revert c i. induction events as [|[[now env] reason] events IH]; intros c i Hcd H1 H2.
  { by destruct (dc_last_trigger_time c), i. }
  cbn [run_starts] in H1, H2.
  destruct (handle_trigger_frame now env reason c) as [Hc Ht].
  specialize (IH (_handle_trigger now env reason c)). rewrite Hc, Ht in IH.
  destruct (admit_trigger now c) as [c'|] eqn:E.
  - destruct (dc_last_trigger_time c) as [last|] eqn:El; [|by apply (IH i)].
    destruct i as [|i]; [|by apply (IH i)]. injection H1 as <-. injection H2 as <-.
    unfold admit_trigger in E. rewrite El in E.
    destruct (Z.ltb_spec (now - last) (cc_trigger_cooldown_minutes (controller_config c) * minute_us));
      [done | lia].
  - by apply (IH i).
Qed.

(** In any sequence of triggers, scheduled ones included, consecutive runs the
    controller starts are at least the configured cooldown apart. *)
Theorem trigger_runs_spaced events c i t1 t2 :
  run_starts events c !! i = Some t1 -> run_starts events c !! S i = Some t2 ->
  (cc_trigger_cooldown_minutes (controller_config c) * minute_us <= t2 - t1)%Z.
Proof.
  intros H1 H2. destruct (dc_last_trigger_time c) as [last|] eqn:El.
  - eapply (run_starts_spaced events c _ (S i)); rewrite ?El; eauto.
  - eapply (run_starts_spaced events c _ i); rewrite ?El; eauto.
Qed.

(** ** The controller honours the monitor's interface *)

#[export] Instance controller_handler (text : trigger_reason -> string)
  : TriggerHandler handler_state.
Proof.
  refine {| on_trigger := controller_on_trigger text |}.
  intros r s m. cbn zeta. unfold controller_on_trigger.
  destruct (hs_pending s) as [|[now env] rest]; [done|]. cbn [snd].
  unfold _handle_trigger.
  destruct (admit_trigger now (set_monitor (hs_controller s) m)) as [c'|] eqn:E; [|done].
  pose proof (run_frame env (text r) None c') as (_ & _ & _ & _ & _ & F1 & F2 & F3 & F4 & F5 & F6).
  assert (trigger_monitor c' = m) as Hm.
  { unfold admit_trigger in E. revert E.
    destruct (match dc_last_trigger_time _ with Some _ => _ | None => _ end); [done|].
    destruct (circuit_breaker_open _); [destruct (circuit_breaker_reset_time _);
      [destruct (_ <? _)%Z; [done|]|]|]; by intros [= <-]. }
  rewrite Hm in *. done.
Defined.

(** ** What never happens *)

(** Every solve of the run is the optimiser's, whose results say [completed]. *)
Definition solves_by_optimize (env : run_env) (config : DepotConfig) : Prop :=
  forall i state r, re_solve env i state = Ok r ->
    exists gurobi highs tl prev hs now rid,
      optimize gurobi highs config state tl prev hs now rid = Ok r.

Lemma optimize_status gurobi highs config state tl prev hs now rid r :
  optimize gurobi highs config state tl prev hs now rid = Ok r -> status r = "completed".
Proof. by intros (? & ? & ? & ? & ? & _ & _ & _ & _ & _ & _ & ->)%optimize_Ok. Qed.

Lemma solve_attempts_status env st rep reason n a c r :
  (forall i r, re_solve env i st = Ok r -> status r = "completed") ->
  fst (solve_attempts env st rep reason n a c) = Ok r -> status r = "completed".
Proof.
  intros Hs. revert a c. induction n as [|n IH]; intros a c; cbn [solve_attempts];
    destruct (re_solve env a st) as [r0|e] eqn:E; cbn [fst]; try done; try apply IH;
    destruct (expected_socs_of _); cbn [fst]; try done; try apply IH;
    intros [= <-]; unfold mark_degraded; specialize (Hs _ _ E); rewrite Hs;
    by rewrite andb_false_r.
Qed.

(** When the solves are the optimiser's, a run never records the status 'degraded', also
    when readiness was degraded: the override tests for statuses the optimiser does not
    produce. *)
Theorem degraded_status_never_recorded env reason h c r :
  solves_by_optimize env (dc_config c) ->
  fst (run_optimization env reason h c) = Ok r ->
  status r = "completed".
Proof.
  intros Hsolve. unfold run_optimization.
  destruct (assemble_state env max_retries 0); cbn [fst]; [|done].
  destruct (is_blocking _); cbn [fst]; [done|]. apply solve_attempts_status.
  intros i r' Hr. destruct (Hsolve _ _ _ Hr) as (? & ? & ? & ? & ? & ? & ? & Ho).
  by eapply optimize_status.
Qed.

(** The monitor the controller owns: no expected return times, no pool. *)
Definition blind_monitor (c : DepotController) : Prop :=
  expected_return_times (trigger_monitor c) = [] /\ tm_pool (trigger_monitor c) = false.

Lemma solve_attempts_blind env st rep reason n a c :
  blind_monitor c -> blind_monitor (snd (solve_attempts env st rep reason n a c)).
Proof.
  assert (Hrec : forall c e t, blind_monitor c -> blind_monitor (record_failure c e t)).
  { intros c' e t [H1 H2]. unfold record_failure, blind_monitor. cbn. by destruct (_ <=? _)%Z. }
  revert a c. induction n as [|n IH]; intros a c Hb; cbn [solve_attempts];
    destruct (re_solve env a st) as [r|e]; cbn [snd]; auto;
    destruct (expected_socs_of _); cbn [snd];
    try (destruct Hb as [_ Hp]; split; [done | exact Hp]).
  - apply Hrec. exact Hb.
  - apply IH, Hrec. exact Hb.
Qed.

Lemma run_blind env reason h c :
  blind_monitor c -> blind_monitor (snd (run_optimization env reason h c)).
Proof.
  intros Hb. unfold run_optimization.
  destruct (assemble_state env max_retries 0); cbn [snd]; [|done].
  destruct (is_blocking _); cbn [snd]; [done|]. by apply solve_attempts_blind.
Qed.

Definition blind (m : TriggerMonitor) : Prop :=
  expected_return_times m = [] /\ tm_pool m = false.

Lemma handler_blind text r s m : blind m -> blind (snd (controller_on_trigger text r s m)).
Proof.
  intros Hm. unfold controller_on_trigger. destruct (hs_pending s) as [|[now env] rest]; [done|].
  cbn [snd]. unfold _handle_trigger.
  destruct (admit_trigger now (set_monitor (hs_controller s) m)) as [c'|] eqn:E; [|done].
  apply run_blind. unfold blind_monitor.
  assert (trigger_monitor c' = m) as ->; [|done].
  unfold admit_trigger in E. revert E.
  destruct (match dc_last_trigger_time _ with Some _ => _ | None => _ end); [done|].
  destruct (circuit_breaker_open _); [destruct (circuit_breaker_reset_time _);
    [destruct (_ <? _)%Z; [done|]|]|]; by intros [= <-].
Qed.

(** The reasons a blind monitor can give. *)
Definition seen (r : trigger_reason) : bool :=
  match r with ReturnDelay _ _ _ | Vdv463ChargingRequestChange => false | _ => true end.

Lemma blind_checks m obs :
  blind m ->
  check_return_time_deviation m (obs_returns obs) = None /\
  check_vdv463_charging_request_change m (obs_vdv463 obs) = (m, None).
Proof.
  intros [Hr Hp]. split.
  - unfold check_return_time_deviation. apply first_reason_None. intros [v a] _. by rewrite Hr.
  - unfold check_vdv463_charging_request_change. by rewrite Hp.
Qed.

Lemma first_reason_seen {A} (f : A -> option trigger_reason) l r :
  (forall x r, f x = Some r -> seen r = true) -> first_reason f l = Some r -> seen r = true.
Proof.
  intros Hf. induction l as [|a l IH]; cbn; [done|].
  destruct (f a) as [r'|] eqn:E; [intros [= <-]; eauto | done].
Qed.

Lemma decide_blind now obs m :
  blind m ->
  blind (fst (monitor_decide now obs m)) /\
  forall r, snd (monitor_decide now obs m) = Some r -> seen r = true.
Proof.
  intros Hb. unfold monitor_decide.
  set (sch := match last_scheduled_hour m with Some _ => _ | None => _ end).
  set (m1 := if sch then _ else m).
  assert (Hb1 : blind m1) by (unfold m1; by destruct sch).
  destruct (blind_checks m1 obs Hb1) as [-> ->].
  destruct sch; [split; [done | by intros r [= <-]]|].
  cbn [first_some foldr].
  assert (Hs : forall r, check_soc_deviation m1 (obs_socs obs) = Some r -> seen r = true).
  { intros r. apply first_reason_seen. intros [v q] r' Hr'. repeat (cbn zeta in *; case_match; simplify_eq);
    reflexivity. }
  assert (Hp : forall r, check_price_change m1 (obs_prices obs) = Some r -> seen r = true).
  { intros r. apply first_reason_seen. intros [v q] r' Hr'. repeat (cbn zeta in *; case_match; simplify_eq);
    reflexivity. }
  destruct (check_soc_deviation m1 (obs_socs obs)) as [r|];
    [|destruct (check_price_change m1 (obs_prices obs)) as [r|]]; [| |done];
    (destruct (tm_last_trigger_time m1); [destruct (_ <=?q _)|]); cbn [fst snd];
    split; try done; intros r' Hr'; first [by apply Hs | by apply Hp | discriminate Hr'].
Qed.

(** The monitor a controller creates never fires a return-delay or VDV 463 trigger,
    whatever the database reports: the controller leaves the expected return times empty
    and passes no pool. *)
Theorem return_and_vdv463_triggers_never_fire text depot_id config cc c0 pending ticks t r :
  new_controller depot_id config cc = Ok c0 ->
  (t, r) ∈ snd (@monitor_run _ (controller_handler text) ticks
                  ({| hs_controller := c0; hs_pending := pending |}, trigger_monitor c0)) ->
  seen r = true.
Proof.
  intros Hnew.
  assert (Hgen : forall s m, blind m ->
    (t, r) ∈ snd (@monitor_run _ (controller_handler text) ticks (s, m)) -> seen r = true).
  { induction ticks as [|[now obs] ticks IH]; intros s m Hb Hin; cbn in Hin;
      [by apply not_elem_of_nil in Hin|].
    unfold monitor_tick in Hin. cbn [fst snd] in Hin.
    destruct (decide_blind now obs m Hb) as [Hb' Hr].
    destruct (monitor_decide now obs m) as [m' [r'|]]; cbn [fst snd] in Hb', Hr.
    - pose proof (handler_blind text r' s m' Hb') as Hb2. cbn [on_trigger controller_handler] in Hin.
      destruct (controller_on_trigger text r' s m') as [s' m2]. cbn [snd] in Hb2.
      specialize (IH s' (set_trigger_time m2 now) Hb2).
      destruct (monitor_run ticks _) as [sm log]. cbn [snd] in Hin, IH.
      apply elem_of_cons in Hin as [[= -> ->]|Hin]; auto.
    - specialize (IH s m' Hb'). destruct (monitor_run ticks _) as [sm log]. auto. }
  apply Hgen. by injection Hnew as <-.
Qed.

(** ** Witnesses *)

Definition ex_meta : assembler_meta :=
  {| am_horizon := None; am_organization_id := None; am_building_load_source := "absent";
     am_schedules_present := true; am_schedules := []; am_weather := [];
     am_forecast_id := None; am_recent := [] |}.

(** A run whose solves all raise, and one that succeeds. *)
Definition ex_env (solve : nat -> DepotState -> result string OptimizationResult) : run_env :=
  {| re_assemble := fun _ => Ok ex_depot_state; re_assembled_at := 0; re_meta := ex_meta;
     re_snapshot_id := "s"; re_versions := (None, None, None); re_str_float := fun _ => "";
     re_build_raises := false; re_solve := solve; re_stored_at := fun _ => 1%Z;
     re_priced_at := fun _ _ => 1%Z; re_failed_at := fun _ => 2%Z |}.

Definition env_fails : run_env := ex_env (fun _ _ => Err "Model is infeasible").

Definition ex_controller : DepotController :=
  match new_controller "d" ex_depot_config default_controller_config with
  | Ok c => c
  | Err _ =>
      {| dc_depot_id := ""; dc_config := ex_depot_config;
         controller_config := default_controller_config; trigger_monitor := ex_monitor;
         last_schedule := None; last_run_time := None; last_result := None;
         dc_running := false; optimization_failures := 0; dc_last_trigger_time := None;
         circuit_breaker_open := false; circuit_breaker_reset_time := None;
         failure_metric := []; runs_metric := [] |}
  end.

Lemma ex_failing_run c : dc_config c = ex_depot_config -> failing_run env_fails c.
Proof.
  intros Hc. exists ex_depot_state, (fun _ => "Model is infeasible"). split_and!; [done | | done].
  rewrite Hc. intros [H|[H|[H|[H|[H _]]]]]; try discriminate H. by apply H.
Qed.

Definition ex_failed (n : nat) : DepotController :=
  Nat.iter n (fun c => snd (run_optimization env_fails "hourly" None c)) ex_controller.

Lemma ex_failing_runs n :
  forall c, dc_config c = ex_depot_config ->
  failing_runs c n (Nat.iter n (fun c => snd (run_optimization env_fails "hourly" None c)) c).
Proof.
  induction n as [|n IH]; intros c Hc; [constructor|].
  rewrite Nat.iter_succ_r. econstructor; [by apply ex_failing_run|]. apply IH.
  rewrite <- Hc. exact (proj1 (proj2 (run_frame env_fails "hourly" None c))).
Qed.

Lemma ex_controller_inv : breaker_inv ex_controller.
Proof. unfold breaker_inv. cbn. split_and!; [lia | split; [done | lia] | done]. Qed.

Lemma breaker_invariant_witness :
  circuit_breaker_open (ex_failed 3) = true /\ breaker_inv (ex_failed 3).
Proof.
  split; [vm_compute; reflexivity|].
  apply (breaker_invariant "d" ex_depot_config default_controller_config ex_controller).
  - reflexivity.
  - reflexivity.
  - do 3 (eapply reach_step; [|apply (step_manual env_fails "hourly" None)]). apply reach_init.
Defined.

Lemma consecutive_failures_open_breaker_witness :
  circuit_breaker_open (ex_failed 2) = false /\
  optimization_failures (ex_failed 3) = 3%Z /\
  (circuit_breaker_open (ex_failed 3) = true <-> (3 <= 3)%Z).
Proof.
  split; [vm_compute; reflexivity|].
  destruct (consecutive_failures_open_breaker ex_controller 3 (ex_failed 3)) as (H1 & _ & H2).
  - apply ex_failing_runs. reflexivity.
  - exact ex_controller_inv.
  - reflexivity.
  - cbn. lia.
  - split; [exact H1 | exact H2].
Defined.

Lemma open_breaker_ignores_triggers_witness :
  _handle_trigger (10 * minute_us) env_fails "scheduled" (ex_failed 3) = ex_failed 3.
Proof.
  apply (open_breaker_ignores_triggers (10 * minute_us) env_fails "scheduled" (ex_failed 3)
           (2 + 30 * minute_us)).
  - vm_compute. reflexivity.
  - vm_compute. reflexivity.
  - vm_compute. reflexivity.
Defined.

Definition ex_events : list (Z * run_env * string) :=
  [ (0, env_fails, "a"); (minute_us, env_fails, "b"); (6 * minute_us, env_fails, "c") ]%Z.

Lemma trigger_runs_spaced_witness :
  run_starts ex_events ex_controller = [0; 6 * minute_us]%Z /\
  (5 * minute_us <= 6 * minute_us - 0)%Z.
Proof.
  assert (H : run_starts ex_events ex_controller = [0; 6 * minute_us]%Z)
    by (vm_compute; reflexivity).
  split; [exact H|].
  apply (trigger_runs_spaced ex_events ex_controller 0); rewrite H; reflexivity.
Defined.

(** The optimiser of the small depot of [MilpFacts], behind a degraded readiness
    report (no building-load source). *)
Definition env_solves : run_env :=
  {| re_assemble := fun _ => Ok MilpFacts.ex_state; re_assembled_at := 0; re_meta := ex_meta;
     re_snapshot_id := "s"; re_versions := (None, None, None); re_str_float := fun _ => "";
     re_build_raises := false;
     re_solve := fun _ state =>
       match optimize no_backend ex_backend MilpFacts.ex_config state 30 None
               (Some (aware_utc 0)) 0 "run" with
       | Ok r => Ok r
       | Err _ => Err "failed"
       end;
     re_stored_at := fun _ => 1%Z; re_priced_at := fun _ _ => 1%Z; re_failed_at := fun _ => 2%Z |}.

Definition small_controller : DepotController :=
  {| dc_depot_id := "d"; dc_config := MilpFacts.ex_config;
     controller_config := default_controller_config; trigger_monitor := ex_monitor;
     last_schedule := None; last_run_time := None; last_result := None;
     dc_running := true; optimization_failures := 0; dc_last_trigger_time := None;
     circuit_breaker_open := false; circuit_breaker_reset_time := None;
     failure_metric := []; runs_metric := [] |}.

Definition small_result : OptimizationResult :=
  match fst (run_optimization env_solves "manual" None small_controller) with
  | Ok r => r
  | Err _ => ex_result
  end.

Lemma degraded_status_never_recorded_witness :
  is_degraded (readiness (_capture_snapshot env_solves small_controller MilpFacts.ex_state 24))
    = true /\
  status small_result = "completed".
Proof.
  split; [vm_compute; reflexivity|].
  apply (degraded_status_never_recorded env_solves "manual" None small_controller small_result).
  - intros i state r Hr. exists no_backend, ex_backend, 30%Q, None, (Some (aware_utc 0)), 0%Z, "run".
    cbn [env_solves re_solve] in Hr. cbn [dc_config small_controller].
    destruct (optimize no_backend ex_backend MilpFacts.ex_config state 30 None
                (Some (aware_utc 0)) 0 "run"); [congruence | discriminate Hr].
  - vm_compute. reflexivity.
Defined.

(** A late return and a VDV 463 update, seen by a running controller's monitor. *)
Definition late_return : observation :=
  {| obs_socs := []; obs_prices := []; obs_returns := [("bus_1", (5 * hour_us)%Z)];
     obs_vdv463 := Some hour_us |}.

Lemma return_and_vdv463_triggers_never_fire_witness :
  snd (@monitor_run _ (controller_handler (fun _ => "reason")) [(0%Z, late_return); (minute_us, late_return)]
         ({| hs_controller := ex_controller; hs_pending := [] |}, trigger_monitor ex_controller))
    = [(0%Z, Scheduled)] /\ seen Scheduled = true.
Proof.
  assert (H : snd (@monitor_run _ (controller_handler (fun _ => "reason"))
      [(0%Z, late_return); (minute_us, late_return)]
      ({| hs_controller := ex_controller; hs_pending := [] |}, trigger_monitor ex_controller))
    = [(0%Z, Scheduled)]) by (vm_compute; reflexivity).
  split; [exact H|].
  apply (return_and_vdv463_triggers_never_fire (fun _ => "reason") "d" ex_depot_config
           default_controller_config ex_controller []
           [(0%Z, late_return); (minute_us, late_return)] 0%Z).
  - reflexivity.
  - rewrite H. left.
Defined.
