(* ===== verification/Manager.v ===== *)
(** * The controller manager ([src/core/controller_manager.py])

    [ControllerManager] keeps one [DepotController] per depot and the task of
    its control loop. A controller instance is known by a number; [live] lists
    the control loops that are running. [add_controller] awaits the depot's
    configuration between its check and its insertion, so it is two steps:
    other coroutines may run in between. *)

From S2P Require Import Prelude Models.
From Stdlib Require Import ZArith Lia.
From stdpp Require Import base list strings gmap.

Record ControllerManager := {
  controllers : dict string nat;
  controller_tasks : dict string nat;
  cm_running : bool;
  cm_next : nat;
  live : list (string * nat);   (** depot and instance of each running loop *)
  loading : list string         (** [add_controller] calls awaiting the config *)
}.

Definition new_manager : ControllerManager :=
  {| controllers := []; controller_tasks := []; cm_running := false; cm_next := 0;
     live := []; loading := [] |}.

(** [add_controller] up to its await. *)
Definition add_begin (m : ControllerManager) (d : string) : ControllerManager :=
  if dmem d (controllers m) then m
  else {| controllers := controllers m; controller_tasks := controller_tasks m;
          cm_running := cm_running m; cm_next := cm_next m; live := live m;
          loading := loading m ++ [d] |}.

Fixpoint remove_first (d : string) (l : list string) : list string :=
  match l with
  | [] => []
  | x :: l' => if String.eqb x d then l' else x :: remove_first d l'
  end.

(** [add_controller] from its await on; [ok] is whether the config loaded. *)
Definition add_finish (m : ControllerManager) (d : string) (ok : bool) : ControllerManager :=
  if negb (bool_decide (d ∈ loading m)) then m
  else if negb ok then
    {| controllers := controllers m; controller_tasks := controller_tasks m;
       cm_running := cm_running m; cm_next := cm_next m; live := live m;
       loading := remove_first d (loading m) |}
  else
    let id := cm_next m in
    {| controllers := controllers m +{ d := id };
       controller_tasks := if cm_running m then controller_tasks m +{ d := id }
                           else controller_tasks m;
       cm_running := cm_running m; cm_next := S id;
       live := if cm_running m then live m ++ [(d, id)] else live m;
       loading := remove_first d (loading m) |}.

(** A call that nothing interrupts. *)
Definition add_controller (m : ControllerManager) (d : string) (ok : bool) : ControllerManager :=
  if dmem d (controllers m) then m else add_finish (add_begin m d) d ok.

(** Stopping an instance ends its loop. *)
Definition end_loop (l : list (string * nat)) (d : string) (id : nat) : list (string * nat) :=
  List.filter (fun e => negb (String.eqb (fst e) d && (snd e =? id)%nat)) l.

Definition remove_controller (m : ControllerManager) (d : string) : ControllerManager :=
  match controllers m @? d with
  | None => m
  | Some id =>
      let live1 := end_loop (live m) d id in
      {| controllers := dpop d (controllers m);
         controller_tasks := dpop d (controller_tasks m);
         cm_running := cm_running m; cm_next := cm_next m;
         live := match controller_tasks m @? d with
                 | Some tid => end_loop live1 d tid
                 | None => live1
                 end;
         loading := loading m |}
  end.

(** [start_all_controllers] with the depots of the query; a failing depot is
    logged and skipped. *)
Definition start_all_controllers (m : ControllerManager) (depots : list (string * bool))
  : ControllerManager :=
  if cm_running m then m
  else
    let m := {| controllers := controllers m; controller_tasks := controller_tasks m;
                cm_running := true; cm_next := cm_next m; live := live m;
                loading := loading m |} in
    foldl (fun m '(d, ok) => add_controller m d ok) m depots.

Definition stop_all_controllers (m : ControllerManager) : ControllerManager :=
  if negb (cm_running m) then m
  else {| controllers := []; controller_tasks := []; cm_running := false;
          cm_next := cm_next m;
          live := foldl (fun l '(d, id) => end_loop l d id) (live m) (controllers m);
          loading := loading m |}.

Definition get_controller (m : ControllerManager) (d : string) : option nat := controllers m @? d.

(** [get_or_create_controller] up to the await. *)
Definition get_or_create_controller (m : ControllerManager) (d : string) (ok : bool)
  : ControllerManager :=
  match get_controller m d with Some _ => m | None => add_controller m d ok end.

(** [health_check] of one controller, from its three fields. *)
Definition health_status (is_running breaker_open : bool) : string :=
  if is_running && negb breaker_open then "healthy" else "degraded".

(** ** One loop per depot, while calls do not interleave *)

Definition manager_inv (m : ControllerManager) : Prop :=
  dict_wf (controllers m) /\ loading m = [] /\
  NoDup (live m) /\
  (forall d id, (d, id) ∈ live m -> controllers m @? d = Some id) /\
  (forall d id, controllers m @? d = Some id -> (id < cm_next m)%nat) /\
  (forall d id, controller_tasks m @? d = Some id -> controllers m @? d = Some id).

Inductive manager_step : ControllerManager -> ControllerManager -> Prop :=
| ms_add m d ok : manager_step m (add_controller m d ok)
| ms_get m d ok : manager_step m (get_or_create_controller m d ok)
| ms_remove m d : manager_step m (remove_controller m d)
| ms_start m depots : manager_step m (start_all_controllers m depots)
| ms_stop m : manager_step m (stop_all_controllers m).

Inductive manager_reachable : ControllerManager -> Prop :=
| mr_init : manager_reachable new_manager
| mr_step m m' : manager_reachable m -> manager_step m m' -> manager_reachable m'.

Lemma add_controller_inv m d ok : manager_inv m -> manager_inv (add_controller m d ok).
Proof.
  intros Hinv. unfold add_controller. destruct (dmem d (controllers m)) eqn:E; [done|].
  destruct Hinv as (H1 & H2 & H3 & H4 & H5 & H6).
  assert (Hd : controllers m @? d = None).
  { unfold dmem in E. by destruct (controllers m @? d). }
  unfold add_begin. rewrite E. unfold add_finish. cbn [loading]. rewrite H2. cbn [app].
  rewrite bool_decide_eq_true_2 by left. cbn [negb].
  destruct ok; cbn [negb remove_first]; rewrite String.eqb_refl;
    unfold manager_inv; cbn; [|split_and!; done].
  split_and!; [by apply dict_wf_dset | done | | | |].
  - destruct (cm_running m); [|done]. apply NoDup_app. split_and!; [done | | apply NoDup_singleton].
    intros [d' id'] Hin [[= -> ->]|?%not_elem_of_nil]%elem_of_cons; [|done].
    apply H4 in Hin. congruence.
  - intros d' id' Hin. rewrite dget_dset.
    assert ((d', id') ∈ live m \/ (d', id') = (d, cm_next m)) as [Hl|[= -> ->]].
    { destruct (cm_running m); [|by left].
      apply elem_of_app in Hin as [?|[?|?%not_elem_of_nil]%elem_of_cons]; auto. done. }
    + case_decide; subst; [|auto]. apply H4 in Hl. congruence.
    + by rewrite decide_True.
  - intros d' id'. rewrite dget_dset. case_decide; [intros [= <-]; lia|].
    intros Hg%H5. lia.
  - intros d' id' Ht. rewrite dget_dset.
    destruct (cm_running m).
    + rewrite dget_dset in Ht. case_decide; auto.
    + case_decide; [|auto]. subst. apply H6 in Ht. congruence.
Qed.

Lemma elem_of_end_loop l d id d' id' :
  (d', id') ∈ end_loop l d id <-> (d', id') ∈ l /\ (d', id') <> (d, id).
Proof.
  unfold end_loop. rewrite !list_elem_of_In, filter_In. cbn.
  destruct (String.eqb_spec d' d), (Nat.eqb_spec id' id); cbn; naive_solver.
Qed.

Lemma NoDup_end_loop l d id : NoDup l -> NoDup (end_loop l d id).
Proof. unfold end_loop. rewrite !NoDup_ListNoDup. apply List.NoDup_filter. Qed.

Lemma remove_controller_inv m d : manager_inv m -> manager_inv (remove_controller m d).
Proof.
  intros Hinv. unfold remove_controller. destruct (controllers m @? d) as [id|] eqn:E; [|done].
  destruct Hinv as (H1 & H2 & H3 & H4 & H5 & H6). unfold manager_inv. cbn.
  split_and!; [by apply dict_wf_dpop | done | | | |].
  - destruct (controller_tasks m @? d); repeat apply NoDup_end_loop; done.
  - intros d' id' Hin.
    assert ((d', id') ∈ end_loop (live m) d id) as [Hl Hne]%elem_of_end_loop.
    { destruct (controller_tasks m @? d); [by apply elem_of_end_loop in Hin as [? _] | done]. }
    rewrite dget_dpop. apply H4 in Hl. case_decide; congruence.
  - intros d' id'. rewrite dget_dpop. case_decide; [done | eauto].
  - intros d' id'. rewrite !dget_dpop. case_decide; [done | eauto].
Qed.

Lemma stop_all_inv m : manager_inv m -> manager_inv (stop_all_controllers m).
Proof.
  intros Hinv. unfold stop_all_controllers. destruct (negb (cm_running m)); [done|].
  destruct Hinv as (H1 & H2 & H3 & H4 & H5 & H6).
  assert (Hlive : forall cs l, NoDup l ->
    let l' := foldl (fun l '(d, id) => end_loop l d id) l cs in
    NoDup l' /\ forall e, e ∈ l' <-> e ∈ l /\ e ∉ cs).
  { induction cs as [|[d id] cs IH]; intros l Hl; cbn; [split; [done | set_solver]|].
    destruct (IH (end_loop l d id) (NoDup_end_loop _ _ _ Hl)) as [Hn He]. split; [done|].
    intros [d' id']. rewrite He, elem_of_end_loop. set_solver. }
  destruct (Hlive (controllers m) (live m) H3) as [Hn He].
  unfold manager_inv. cbn. split_and!; [constructor | done | done | | done | done].
  intros d id [Hl Hni]%He. apply H4 in Hl. apply dget_Some_in in Hl. done.
Qed.

Lemma manager_step_inv m m' : manager_step m m' -> manager_inv m -> manager_inv m'.
Proof.
  destruct 1 as [m d ok|m d ok|m d|m depots|m]; intros Hinv;
    [by apply add_controller_inv | | by apply remove_controller_inv | | by apply stop_all_inv].
  - unfold get_or_create_controller. destruct (get_controller m d); [done|].
    by apply add_controller_inv.
  - unfold start_all_controllers. destruct (cm_running m); [done|].
    assert (Hgen : forall m, manager_inv m ->
      manager_inv (foldl (fun m '(d, ok) => add_controller m d ok) m depots)).
    { induction depots as [|[d ok] ds IH]; intros m' Hm'; cbn; [done|].
      by apply IH, add_controller_inv. }
    by apply Hgen.
Qed.

(** As long as calls do not interleave, every reachable manager runs at most one control
    loop per depot, and it is the one of the registered controller. *)
Theorem one_loop_per_depot m d i j :
  manager_reachable m -> (d, i) ∈ live m -> (d, j) ∈ live m ->
  i = j /\ get_controller m d = Some i.
Proof.
  intros Hr Hi Hj.
  assert (manager_inv m) as (_ & _ & _ & H4 & _).
  { clear Hi Hj. induction Hr as [|m m' _ IH Hs]; [|by eapply manager_step_inv].
    unfold manager_inv. cbn. split_and!; try done; try constructor.
    by intros ? ? ?%not_elem_of_nil. }
  apply H4 in Hi, Hj. split; [congruence | done].
Qed.

(** ** Two calls that interleave leave a loop nobody can stop *)

Lemma add_finish_ok m d rest :
  loading m = d :: rest -> cm_running m = true ->
  add_finish m d true =
    {| controllers := controllers m +{ d := cm_next m };
       controller_tasks := controller_tasks m +{ d := cm_next m };
       cm_running := true; cm_next := S (cm_next m);
       live := live m ++ [(d, cm_next m)]; loading := rest |}.
Proof.
  intros Hl Hr. unfold add_finish. rewrite Hl, Hr.
  rewrite bool_decide_eq_true_2 by left. cbn [negb remove_first]. by rewrite String.eqb_refl.
Qed.

(** Two add_controller calls for one depot that interleave at the configuration await
    start two loops; removing the controller stops one and the other keeps running
    unregistered. *)
Theorem interleaved_adds_orphan_a_loop m d :
  cm_running m = true -> controllers m @? d = None -> loading m = [] ->
  controller_tasks m @? d = None -> (forall id, (d, id) ∉ live m) ->
  let m1 := add_begin (add_begin m d) d in
  let m2 := add_finish (add_finish m1 d true) d true in
  let m3 := remove_controller m2 d in
  get_controller m3 d = None /\ (d, cm_next m) ∈ live m3.
Proof.
  intros Hrun Hd Hl Ht Hlive. cbn zeta.
  assert (dmem d (controllers m) = false) as Hm by (unfold dmem; by rewrite Hd).
  unfold add_begin. rewrite Hm. cbn [controllers loading]. rewrite Hm, Hl. cbn [app].
  match goal with |- context [add_finish (add_finish ?m0 d true) d true] =>
    rewrite (add_finish_ok m0 d [d] eq_refl Hrun) end.
  rewrite (add_finish_ok _ d []) by done.
  unfold remove_controller. cbn [loading controllers cm_next cm_running live controller_tasks].
  rewrite dget_dset_eq, dget_dset_eq. cbn [live get_controller controllers].
  unfold get_controller. cbn [controllers]. rewrite dget_dpop_eq. split; [done|].
  rewrite !elem_of_end_loop, !elem_of_app, !elem_of_cons. split_and!; [tauto | |];
    intros [= E]; lia.
Qed.

(** ** Witnesses *)

Definition ex_manager : ControllerManager :=
  start_all_controllers new_manager [("north", true); ("south", true)].

Lemma one_loop_per_depot_witness : get_controller ex_manager "north" = Some 0%nat.
Proof.
  refine (proj2 (one_loop_per_depot ex_manager "north" 0 0 _ _ _)).
  - eapply mr_step; [apply mr_init | apply ms_start].
  - vm_compute. left.
  - vm_compute. left.
Defined.

Lemma interleaved_adds_orphan_a_loop_witness :
  let m := start_all_controllers new_manager [] in
  ("north", 0%nat) ∈
    live (remove_controller (add_finish (add_finish (add_begin (add_begin m "north") "north")
            "north" true) "north" true) "north").
Proof.
  refine (proj2 (interleaved_adds_orphan_a_loop (start_all_controllers new_manager []) "north"
                   eq_refl eq_refl eq_refl eq_refl _)).
  intros id H. inversion H.
Defined.
