(* ===== verification/Recurring.v ===== *)
(** * Recurring schedules ([src/core/scheduling/recurring.py])

    Expansion of weekly templates into trips within a horizon, and the merge
    with manually entered trips. Instants are UTC microseconds, wall-clock
    values are microseconds of the depot's local calendar, dates are day
    numbers.

    The IANA time zone is a parameter: [offset_at u] is the zone's UTC offset at
    the instant [u], [offset_local w] the one [datetime] picks for the wall-clock
    value [w] with [fold=0]. *)

From S2P Require Import Prelude Models Datetime.
From Stdlib Require Import ZArith QArith Lia.
From stdpp Require Import base list strings gmap.

#[local] Open Scope Z_scope.

Definition DAYS_OF_WEEK : list string := ["mon"; "tue"; "wed"; "thu"; "fri"; "sat"; "sun"].

Record tz := { offset_at : Z -> Z; offset_local : Z -> Z }.

(** [u.astimezone(tz)] and [w.replace(tzinfo=tz, fold=0).astimezone(UTC)]. *)
Definition to_local (z : tz) (u : Z) : Z := u + offset_at z u.
Definition from_local (z : tz) (w : Z) : Z := w - offset_local z w.

Record RecurringTemplate := {
  template_id : string;
  rt_depot_id : string;
  rt_vehicle_id : string;
  rt_route_id : string;
  departure_time_of_day : Z;
  return_time_of_day : Z;
  days_of_week : list string;
  start_date : Z;
  end_date : option Z;
  required_soc : Q;
  energy_kwh : option Q;
  rt_active : bool;
  rt_created_at : Z
}.

Definition crosses_midnight (t : RecurringTemplate) : bool :=
  return_time_of_day t <=? departure_time_of_day t.

Record ScheduleCancellation := { sc_template_id : string; occurrence_date : Z }.

(** The keys a merged row keeps. *)
Record trip := {
  tr_vehicle_id : string;
  departure_time : Z;
  return_time : Z;
  estimated_energy_kwh : option Q;
  tr_route_id : string
}.

Record recurring_row := {
  rr_trip : trip;
  rr_template_id : string;
  rr_created_at : Z;
  rr_occurrence_date : Z
}.

Record manual_row := { mr_trip : trip; mr_created_at : Z }.

(** ** Local time to UTC *)

Definition _is_nonexistent (z : tz) (naive : Z) : bool :=
  let rt := to_local z (from_local z naive) in
  negb (hour_of rt =? hour_of naive) || negb (minute_of rt =? minute_of naive)
  || negb (date_of rt =? date_of naive).

(** The minute-by-minute search: the first valid value within [fuel] steps. *)
Fixpoint step_forward (z : tz) (fuel : nat) (stepped : Z) : option Z :=
  match fuel with
  | O => None
  | S fuel' =>
      let stepped := stepped + minute_us in
      if negb (_is_nonexistent z stepped) then Some stepped else step_forward z fuel' stepped
  end.

Definition _to_utc (z : tz) (local_date local_time : Z) : Z :=
  let naive := dt_combine local_date local_time in
  if _is_nonexistent z naive
  then match step_forward z 120 naive with
       | Some stepped => from_local z stepped
       | None => from_local z naive
       end
  else from_local z naive.

(** ** Expansion *)

Definition cancelled (cs : list ScheduleCancellation) (tid : string) (d : Z) : bool :=
  existsb (fun c => String.eqb (sc_template_id c) tid && (occurrence_date c =? d)) cs.

Definition weekday_name (d : Z) : string := nth (Z.to_nat (weekday d)) DAYS_OF_WEEK "".

Section Expand.
Context (z : tz) (cancellations : list ScheduleCancellation) (horizon_start horizon_end : Z).

(** The guards of the inner loop, before the times are computed. *)
Definition occurs_on (tpl : RecurringTemplate) (d : Z) : bool :=
  rt_active tpl
  && bool_decide (weekday_name d ∈ days_of_week tpl)
  && negb (d <? start_date tpl)
  && match end_date tpl with Some e => negb (e <? d) | None => true end
  && negb (cancelled cancellations (template_id tpl) d).

Definition departure_utc (tpl : RecurringTemplate) (d : Z) : Z :=
  _to_utc z d (departure_time_of_day tpl).

Definition occurrence (tpl : RecurringTemplate) (d : Z) : recurring_row :=
  let return_date := if crosses_midnight tpl then d + 1 else d in
  {| rr_trip := {| tr_vehicle_id := rt_vehicle_id tpl;
                   departure_time := departure_utc tpl d;
                   return_time := _to_utc z return_date (return_time_of_day tpl);
                   estimated_energy_kwh := energy_kwh tpl;
                   tr_route_id := rt_route_id tpl |};
     rr_template_id := template_id tpl;
     rr_created_at := rt_created_at tpl;
     rr_occurrence_date := d |}.

Definition in_horizon (t : Z) : bool := (horizon_start <=? t) && (t <? horizon_end).

Definition expand_day (templates : list RecurringTemplate) (d : Z) : list recurring_row :=
  omap (fun tpl => if occurs_on tpl d && in_horizon (departure_utc tpl d)
                   then Some (occurrence tpl d) else None) templates.

(** [walk_date] runs from [first] through [last]. *)
Definition dates (first last : Z) : list Z :=
  map (fun i => first + Z.of_nat i) (seq 0 (Z.to_nat (last - first + 1))).

Definition expand_recurring_templates (templates : list RecurringTemplate) : list recurring_row :=
  if horizon_end <=? horizon_start then []
  else
    let first := date_of (to_local z horizon_start) - 1 in
    let last := date_of (to_local z horizon_end) in
    dates first last ≫= expand_day templates.
End Expand.

(** ** Merge *)

Definition key : Type := string * Z.

Record bucket := { b_manual : list manual_row; b_recurring : list recurring_row }.
Definition empty_bucket : bucket := {| b_manual := []; b_recurring := [] |}.

Definition manual_key (z : tz) (r : manual_row) : key :=
  (tr_vehicle_id (mr_trip r), date_of (to_local z (departure_time (mr_trip r)))).
Definition recurring_key (r : recurring_row) : key :=
  (tr_vehicle_id (rr_trip r), rr_occurrence_date r).

Definition add_manual (z : tz) (d : dict key bucket) (r : manual_row) : dict key bucket :=
  let k := manual_key z r in
  let b := dget_or d k empty_bucket in
  d +{ k := {| b_manual := b_manual b ++ [r]; b_recurring := b_recurring b |} }.

Definition add_recurring (d : dict key bucket) (r : recurring_row) : dict key bucket :=
  let k := recurring_key r in
  let b := dget_or d k empty_bucket in
  d +{ k := {| b_manual := b_manual b; b_recurring := b_recurring b ++ [r] |} }.

(** [max(...)] of a non-empty sequence. *)
Definition Zmax_list (x : Z) (l : list Z) : Z := foldl Z.max x l.

(** The rows of a bucket that survive. *)
Definition resolve (b : bucket) : list trip :=
  match b_manual b, b_recurring b with
  | m :: ms, r :: rs =>
      let manual_latest := Zmax_list (mr_created_at m) (map mr_created_at ms) in
      let recurring_latest := Zmax_list (rr_created_at r) (map rr_created_at rs) in
      if recurring_latest <=? manual_latest
      then map mr_trip (m :: ms) else map rr_trip (r :: rs)
  | m :: ms, [] => map mr_trip (m :: ms)
  | [], rs => map rr_trip rs
  end.

Definition buckets (z : tz) (manual_rows : list manual_row) (recurring_rows : list recurring_row)
  : dict key bucket :=
  foldl add_recurring (foldl (add_manual z) [] manual_rows) recurring_rows.

Definition merge_recurring_with_manual (z : tz) (manual_rows : list manual_row)
    (recurring_rows : list recurring_row) : list trip :=
  sort_by (fun a b => departure_time a <=? departure_time b)
    (buckets z manual_rows recurring_rows ≫= fun kb => resolve (snd kb)).
