(* ===== verification/RecurringFacts.v ===== *)
(** * Facts about recurring schedules

    The expansion emits exactly the occurrences that depart inside the horizon;
    the merge keeps, per vehicle and local day, exactly the rows of the side
    that was created last. *)

From S2P Require Import Prelude Models Datetime Recurring.
From Stdlib Require Import ZArith QArith Lia Sorting.Sorted.
From stdpp Require Import base list strings gmap.

#[local] Open Scope Z_scope.

(** What the expansion relies on of the time zone database: local dates never
    run backwards, and a clock jump is at most two hours. *)
Class ZoneLaws (z : tz) : Prop := {
  zone_dates_monotone : forall u v, u <= v -> date_of (to_local z u) <= date_of (to_local z v);
  zone_gap_bounded : forall w, _is_nonexistent z w = true -> is_Some (step_forward z 120 w)
}.

Lemma exists_date z w :
  _is_nonexistent z w = false -> date_of (to_local z (from_local z w)) = date_of w.
Proof.
  unfold _is_nonexistent. intros [_ H]%orb_false_iff. by apply negb_false_iff, Z.eqb_eq in H.
Qed.

Lemma step_forward_spec z fuel w s :
  step_forward z fuel w = Some s ->
  _is_nonexistent z s = false /\ w < s <= w + Z.of_nat fuel * minute_us.
Proof.
  assert (0 < minute_us) by (unfold minute_us, usec; lia).
  revert w. induction fuel as [|fuel IH]; intros w; cbn [step_forward]; [done|].
  destruct (_is_nonexistent z (w + minute_us)) eqn:E; cbn [negb].
  - intros [? ?]%IH. split; [done | lia].
  - intros [= <-]. split; [done | lia].
Qed.

Lemma step_forward_complete z fuel w k :
  (1 <= k <= fuel)%nat -> _is_nonexistent z (w + Z.of_nat k * minute_us) = false ->
  is_Some (step_forward z fuel w).
Proof.
  revert w k. induction fuel as [|fuel IH]; intros w k Hk He; [lia|]. cbn [step_forward].
  destruct (_is_nonexistent z (w + minute_us)) eqn:E; cbn [negb]; [|eauto].
  destruct (decide (k = 1%nat)) as [->|]; [replace (w + Z.of_nat 1 * minute_us) with (w + minute_us) in He by lia; congruence|].
  apply (IH _ (pred k)); [lia|]. rewrite <- He. f_equal. lia.
Qed.

(** The local date of an occurrence's departure is its date, or the day after
    when the clock jump crosses midnight. *)
Lemma departure_date z `{!ZoneLaws z} d tod :
  0 <= tod < day_us ->
  d <= date_of (to_local z (_to_utc z d tod)) <= d + 1.
Proof.
  intros Htod. unfold _to_utc. pose proof (date_of_combine d tod Htod) as Hd.
  destruct (_is_nonexistent z (dt_combine d tod)) eqn:E.
  - destruct (zone_gap_bounded _ E) as [s Hs]. rewrite Hs.
    apply step_forward_spec in Hs as [He Hr]. rewrite (exists_date _ _ He).
    unfold dt_combine in *. split.
    + rewrite <- Hd. apply Z.div_le_mono; unfold day_us, hour_us, usec in *; lia.
    + unfold date_of. assert (s / day_us < d + 2); [|lia].
      apply Z.div_lt_upper_bound; unfold day_us, hour_us, minute_us, usec in *; lia.
  - rewrite (exists_date _ _ E), Hd. lia.
Qed.

Lemma elem_of_dates a b d : d ∈ dates a b <-> a <= d <= b.
Proof.
  unfold dates. rewrite list_elem_of_fmap. setoid_rewrite elem_of_seq. split.
  - intros (i & -> & Hi). lia.
  - intros H. exists (Z.to_nat (d - a)). lia.
Qed.


(** ** Merge *)

Definition has_key {A} (f : A -> key) (k : key) (r : A) : bool := bool_decide (f r = k).

(** The bucket of [k], described from the inputs. *)
Definition bucket_of (z : tz) (ms : list manual_row) (rs : list recurring_row) (k : key) : bucket :=
  {| b_manual := List.filter (has_key (manual_key z) k) ms;
     b_recurring := List.filter (has_key recurring_key k) rs |}.

Lemma fold_manual z ms d k :
  (b_manual (dget_or (foldl (add_manual z) d ms) k empty_bucket)
     = b_manual (dget_or d k empty_bucket) ++ List.filter (has_key (manual_key z) k) ms) /\
  (b_recurring (dget_or (foldl (add_manual z) d ms) k empty_bucket)
     = b_recurring (dget_or d k empty_bucket)) /\
  (dict_wf d -> dict_wf (foldl (add_manual z) d ms)).
Proof.
  revert d. induction ms as [|r ms IH]; intros d; cbn [foldl].
  { cbn. rewrite app_nil_r. done. }
  destruct (IH (add_manual z d r)) as (H1 & H2 & H3).
  assert (Hget : dget_or (add_manual z d r) k empty_bucket =
    if decide (manual_key z r = k)
    then {| b_manual := b_manual (dget_or d k empty_bucket) ++ [r];
            b_recurring := b_recurring (dget_or d k empty_bucket) |}
    else dget_or d k empty_bucket).
  { unfold add_manual, dget_or at 1. rewrite dget_dset. case_decide; subst; done. }
  rewrite H1, H2, Hget. cbn [List.filter]. unfold has_key at 2.
  split_and!.
  - case_decide; [rewrite bool_decide_eq_true_2 by done; cbn; by rewrite <- app_assoc
                 | by rewrite bool_decide_eq_false_2].
  - by case_decide.
  - intros Hd. apply H3. by apply dict_wf_dset.
Qed.

Lemma fold_recurring rs d k :
  (b_manual (dget_or (foldl add_recurring d rs) k empty_bucket)
     = b_manual (dget_or d k empty_bucket)) /\
  (b_recurring (dget_or (foldl add_recurring d rs) k empty_bucket)
     = b_recurring (dget_or d k empty_bucket) ++ List.filter (has_key recurring_key k) rs) /\
  (dict_wf d -> dict_wf (foldl add_recurring d rs)).
Proof.
  revert d. induction rs as [|r rs IH]; intros d; cbn [foldl].
  { cbn. rewrite app_nil_r. done. }
  destruct (IH (add_recurring d r)) as (H1 & H2 & H3).
  assert (Hget : dget_or (add_recurring d r) k empty_bucket =
    if decide (recurring_key r = k)
    then {| b_manual := b_manual (dget_or d k empty_bucket);
            b_recurring := b_recurring (dget_or d k empty_bucket) ++ [r] |}
    else dget_or d k empty_bucket).
  { unfold add_recurring, dget_or at 1. rewrite dget_dset. case_decide; subst; done. }
  rewrite H1, H2, Hget. cbn [List.filter]. unfold has_key at 2.
  split_and!.
  - by case_decide.
  - case_decide; [rewrite bool_decide_eq_true_2 by done; cbn; by rewrite <- app_assoc
                 | by rewrite bool_decide_eq_false_2].
  - intros Hd. apply H3. by apply dict_wf_dset.
Qed.

Lemma buckets_spec z ms rs k :
  dget_or (buckets z ms rs) k empty_bucket = bucket_of z ms rs k /\ dict_wf (buckets z ms rs).
Proof.
  unfold buckets. destruct (fold_manual z ms [] k) as (A1 & A2 & A3).
  destruct (fold_recurring rs (foldl (add_manual z) [] ms) k) as (B1 & B2 & B3).
  rewrite A1 in B1. rewrite A2 in B2. split; [|by apply B3, A3, dict_wf_nil].
  destruct (dget_or (foldl add_recurring _ rs) k empty_bucket) as [bm br].
  cbn [b_manual b_recurring] in B1, B2. by subst.
Qed.

Lemma Zmax_list_le x l n : n <= Zmax_list x l <-> n <= x \/ exists y, y ∈ l /\ n <= y.
Proof.
  unfold Zmax_list. revert x. induction l as [|y l IH]; intros x; cbn [foldl].
  { split; [auto | intros [?|(y & Hy & _)]; [done | by apply not_elem_of_nil in Hy]]. }
  rewrite IH. setoid_rewrite elem_of_cons. split.
  - intros [H|(y' & ? & ?)]; [|naive_solver].
    destruct (Z.max_spec x y) as [[? E]|[? E]]; rewrite E in H; eauto.
  - intros [H|(y' & [->|Hy] & H)]; [left; lia | left; lia | eauto].
Qed.

(** Who wins a bucket: manual unless some recurring row is newer than all. *)
Lemma resolve_spec b t :
  t ∈ resolve b <->
  (exists m, m ∈ b_manual b /\ mr_trip m = t /\
     forall r, r ∈ b_recurring b -> exists m', m' ∈ b_manual b /\ rr_created_at r <= mr_created_at m')
  \/ (exists r, r ∈ b_recurring b /\ rr_trip r = t /\
     forall m, m ∈ b_manual b -> exists r', r' ∈ b_recurring b /\ mr_created_at m < rr_created_at r').
Proof.
  unfold resolve. destruct (b_manual b) as [|m ms] eqn:Em, (b_recurring b) as [|r rs] eqn:Er.
  - cbn. setoid_rewrite elem_of_nil. naive_solver.
  - rewrite list_elem_of_fmap. setoid_rewrite elem_of_nil. naive_solver.
  - rewrite list_elem_of_fmap. setoid_rewrite elem_of_nil. naive_solver.
  - set (lm := Zmax_list (mr_created_at m) (map mr_created_at ms)).
    set (lr := Zmax_list (rr_created_at r) (map rr_created_at rs)).
    assert (Hm : forall n, n <= lm <-> exists m', m' ∈ m :: ms /\ n <= mr_created_at m').
    { intros n. unfold lm. rewrite Zmax_list_le. setoid_rewrite elem_of_cons.
      setoid_rewrite list_elem_of_fmap. naive_solver. }
    assert (Hr : forall n, n <= lr <-> exists r', r' ∈ r :: rs /\ n <= rr_created_at r').
    { intros n. unfold lr. rewrite Zmax_list_le. setoid_rewrite elem_of_cons.
      setoid_rewrite list_elem_of_fmap. naive_solver. }
    destruct (Z.leb_spec lr lm) as [Hle|Hlt]; rewrite list_elem_of_fmap; split.
    + intros (m' & -> & Hin). left. exists m'. split_and!; [done | done |].
      intros r' Hr'. apply Hm. assert (rr_created_at r' <= lr) by (apply Hr; exists r'; split; [done | lia]). lia.
    + intros [(m' & Hin & <- & _)|(r' & Hin & <- & Hw)]; [eauto|]. exfalso.
      destruct (proj1 (Hm lm)) as (m' & Hm' & Hl); [lia|].
      destruct (Hw m' Hm') as (r2 & Hr2 & Hlt). assert (rr_created_at r2 <= lr) by (apply Hr; exists r2; split; [done | lia]). lia.
    + intros (r' & -> & Hin). right. exists r'. split_and!; [done | done |].
      intros m' Hm'. assert (mr_created_at m' <= lm) by (apply Hm; exists m'; split; [done | lia]).
      destruct (proj1 (Hr lr)) as (r2 & Hr2 & Hl); [lia|]. exists r2. split; [done | lia].
    + intros [(m' & Hin & <- & Hw)|(r' & Hin & <- & _)]; [|eauto]. exfalso.
      destruct (proj1 (Hr lr)) as (r2 & Hr2 & Hl); [lia|].
      destruct (Hw r2 Hr2) as (m2 & Hm2 & Hle). assert (mr_created_at m2 <= lm) by (apply Hm; exists m2; split; [done | lia]). lia.
Qed.

Lemma elem_of_filter_key {A} (f : A -> key) k l x :
  x ∈ List.filter (has_key f k) l <-> x ∈ l /\ f x = k.
Proof. rewrite !list_elem_of_In, filter_In. unfold has_key. by rewrite bool_decide_eq_true. Qed.

Lemma merge_elem z ms rs t :
  t ∈ merge_recurring_with_manual z ms rs <-> exists k, t ∈ resolve (bucket_of z ms rs k).
Proof.
  unfold merge_recurring_with_manual. rewrite elem_of_sort_by, list_elem_of_bind. split.
  - intros ([k b] & Ht & Hin). exists k. destruct (buckets_spec z ms rs k) as [<- Hwf].
    unfold dget_or. by rewrite (dget_in_wf _ _ _ Hwf Hin).
  - intros (k & Ht). destruct (buckets_spec z ms rs k) as [Hb _]. rewrite <- Hb in Ht.
    unfold dget_or in Ht. destruct (buckets z ms rs @? k) as [b|] eqn:E.
    + exists (k, b). split; [done | by apply dget_Some_in].
    + by apply not_elem_of_nil in Ht.
Qed.

(** A trip is in the merged schedule exactly when it is a manual row of a vehicle and
    local day on which no recurring row is newer than every manual one, or a recurring
    row where one is. *)
Theorem merge_tiebreak z ms rs t :
  t ∈ merge_recurring_with_manual z ms rs <->
  (exists m, m ∈ ms /\ mr_trip m = t /\
     forall r, r ∈ rs -> recurring_key r = manual_key z m ->
       exists m', m' ∈ ms /\ manual_key z m' = manual_key z m /\
                  rr_created_at r <= mr_created_at m')
  \/ (exists r, r ∈ rs /\ rr_trip r = t /\
     forall m, m ∈ ms -> manual_key z m = recurring_key r ->
       exists r', r' ∈ rs /\ recurring_key r' = recurring_key r /\
                  mr_created_at m < rr_created_at r').
Proof.
  rewrite merge_elem. setoid_rewrite resolve_spec. cbn [bucket_of b_manual b_recurring].
  setoid_rewrite elem_of_filter_key. split.
  - intros (k & [(m & [Hm <-] & Ht & Hw)|(r & [Hr <-] & Ht & Hw)]); [left | right]; eexists;
      (split_and!; [done | done |]); intros x Hx Hk; destruct (Hw x) as (y & [? ?] & ?); eauto.
  - intros [(m & Hm & Ht & Hw)|(r & Hr & Ht & Hw)].
    + exists (manual_key z m). left. exists m. split_and!; [done | done | done |].
      intros r [Hr Hk]. destruct (Hw r Hr Hk) as (y & ? & ? & ?). eauto.
    + exists (recurring_key r). right. exists r. split_and!; [done | done | done |].
      intros m [Hm Hk]. destruct (Hw m Hm Hk) as (y & ? & ? & ?). eauto.
Qed.

Theorem merge_sorted z ms rs :
  StronglySorted (fun a b => departure_time a <= departure_time b)
    (merge_recurring_with_manual z ms rs).
Proof.
  unfold merge_recurring_with_manual.
  assert (Hs : StronglySorted (fun a b => (departure_time a <=? departure_time b) = true)
                 (sort_by (fun a b => departure_time a <=? departure_time b)
                    (buckets z ms rs ≫= fun kb => resolve (snd kb)))).
  { apply sort_by_sorted; intros *; rewrite !Z.leb_le; lia. }
  induction Hs as [|a l _ IH Hall]; constructor; [done|].
  eapply Forall_impl; [exact Hall|]. intros b. apply Z.leb_le.
Qed.

(** ** Witnesses: a zone that moves from UTC+2 to UTC+3 at instant 0 *)

Definition spring : tz :=
  {| offset_at := fun u => if u <? 0 then 2 * hour_us else 3 * hour_us;
     offset_local := fun w => if w <? 3 * hour_us then 2 * hour_us else 3 * hour_us |}.

Lemma spring_exists w :
  ~ (2 * hour_us <= w < 3 * hour_us) -> to_local spring (from_local spring w) = w.
Proof.
  unfold to_local, from_local. cbn. intros H.
  destruct (Z.ltb_spec w (3 * hour_us)).
  - destruct (Z.ltb_spec (w - 2 * hour_us) 0); lia.
  - destruct (Z.ltb_spec (w - 3 * hour_us) 0); lia.
Qed.

Lemma same_exists z w : to_local z (from_local z w) = w -> _is_nonexistent z w = false.
Proof. intros H. unfold _is_nonexistent. by rewrite H, !Z.eqb_refl. Qed.

#[export] Instance spring_laws : ZoneLaws spring.
Proof.
  split.
  - intros u v H. apply Z.div_le_mono; [unfold day_us, hour_us, usec; lia|].
    unfold to_local. cbn. destruct (Z.ltb_spec u 0), (Z.ltb_spec v 0); unfold hour_us, usec; lia.
  - intros w Hw. apply (step_forward_complete _ _ _ 60); [lia|]. apply same_exists, spring_exists.
    destruct (decide (2 * hour_us <= w < 3 * hour_us)) as [|Hn].
    + unfold minute_us, hour_us, usec in *. lia.
    + apply spring_exists, same_exists in Hn. congruence.
Defined.

(** A daily trip at 02:30 local time, which does not exist on day 0. *)
Definition night_bus : RecurringTemplate :=
  {| template_id := "t"; rt_depot_id := "d"; rt_vehicle_id := "bus_1"; rt_route_id := "r";
     departure_time_of_day := 2 * hour_us + 30 * minute_us;
     return_time_of_day := 5 * hour_us;
     days_of_week := DAYS_OF_WEEK; start_date := -10; end_date := None;
     required_soc := 0; energy_kwh := None; rt_active := true; rt_created_at := 0 |}.

