(* ===== verification/Assembler.v ===== *)
(** * State assembly ([src/core/state/assembler.py], prices of [src/db/queries.py])

    What a controller optimises on: the assembler turns database rows into a
    [DepotState]. The answers of the databases and of the price service are a
    [db], one field per query. The assembler keeps caches, the metadata of its
    last assembly, and the [DepotConfig] it shares with the controller and the
    optimiser: assembly writes incoming vehicles into that shared object. *)

From S2P Require Import Prelude Models Milp Datetime Recurring.
From Stdlib Require Import ZArith QArith Qround Lia.
From stdpp Require Import base list strings gmap.

#[local] Open Scope Z_scope.

(** ** Errors and queries *)

(** An [asyncpg.PostgresError] is its message. *)
Definition pg_error : Type := string.

Inductive asm_error : Type :=
| Postgres (e : pg_error)
| Builtin (e : opt_error).

Record vdv_request := {
  vr_vehicle_id : string;
  vr_expected_arrival : option datetime;
  vr_requested_departure : option datetime;
  vr_min_target_soc : option Q;
  vr_max_target_soc : option Q;
  vr_priority : option Z;
  vr_preconditioning_type : option string;
  vr_preconditioning_start : option datetime;
  vr_ambient_temperature : option Q;
  vr_requested_finish_time : option datetime;
  vr_hvac_aux_power : option Z
}.

(** A row of [interdepot_messages]. *)
Record incoming_row := {
  ir_vehicle_id : string;
  ir_expected_soc : Q;
  ir_arrival_time : datetime;
  ir_battery_kwh : Q;
  ir_max_charge_kw : Q;
  ir_origin_depot_id : string
}.

(** The schedule rows the optimiser consumes, after the VDV 463 merge. *)
Record sched := {
  s_vehicle_id : string;
  s_return_time : datetime;
  s_departure_time : datetime;
  s_energy : Q
}.

(** The answers of one assembly: arguments are the query parameters that vary.
    [hash_order] is the order in which Python iterates over a set. *)
Record db := {
  q_vehicle_ids : result pg_error (list string);
  q_freshest_socs : list string -> result pg_error (list (string * option Q));
  q_bidding_zone : result pg_error (option string);
  q_prices : string -> Z -> Z -> result pg_error (dict Z Q);
  q_vdv463 : Z -> Z -> result pg_error (list vdv_request);
  q_timezone : result pg_error (option string);
  zone_info : string -> option tz;
  q_manual : Z -> Z -> result pg_error (list manual_row);
  q_recurring : Z -> Z -> result pg_error (list RecurringTemplate * list ScheduleCancellation);
  q_month_peak : result pg_error (option Q);
  q_price_demand : result pg_error (option Q);
  q_site_demand : result pg_error (option Q);
  q_charger_ids : result pg_error (list string);
  q_period_kwh : list string -> Z -> Z -> result pg_error (option Q);
  q_building_load : Z -> Z -> result pg_error (list (Z * Q));
  q_incoming : Z -> Z -> result pg_error (list incoming_row);
  q_external_ids : list string -> result pg_error (dict string (option string));
  hash_order : list string -> list string
}.

(** ** The assembler and its monad *)

Record assembler := {
  as_config : DepotConfig;
  bidding_zone_cache : option (option string);
  depot_timezone_cache : option tz;
  last_building_load_source : string;
  last_schedules : list sched;
  last_schedules_present : bool;
  last_horizon : option (Z * Z)
}.

(** [StateAssembler.__init__]; a cache that holds nothing is the sentinel. *)
Definition init_assembler (config : DepotConfig) : assembler :=
  {| as_config := config; bidding_zone_cache := None; depot_timezone_cache := None;
     last_building_load_source := "absent"; last_schedules := [];
     last_schedules_present := false; last_horizon := None |}.

(** Methods read and write the assembler; a write made before an exception
    stays. *)
Definition M (A : Type) : Type := assembler -> result asm_error A * assembler.

Definition ret {A} (a : A) : M A := fun s => (Ok a, s).
Definition bind {A B} (m : M A) (k : A -> M B) : M B :=
  fun s => match m s with
           | (Ok a, s') => k a s'
           | (Err e, s') => (Err e, s')
           end.
Definition throw {A} (e : opt_error) : M A := fun s => (Err (Builtin e), s).
(** An awaited query whose [PostgresError] propagates. *)
Definition await {A} (r : result pg_error A) : M A :=
  fun s => (match r with Ok a => Ok a | Err e => Err (Postgres e) end, s).
(** A computation that may raise and touches no state. *)
Definition lift {A} (r : result asm_error A) : M A := fun s => (r, s).
Definition config_of : M DepotConfig := fun s => (Ok (as_config s), s).
Definition get : M assembler := fun s => (Ok s, s).
Definition put (s : assembler) : M unit := fun _ => (Ok tt, s).

Notation "'let!' x ':=' m 'in' k" := (bind m (fun x => k))
  (at level 10, x name, m at level 100, k at level 200) : py_scope.

(** A [for] loop in the monad. *)
Fixpoint mfold {A B} (f : B -> A -> M B) (b : B) (l : list A) : M B :=
  match l with
  | [] => ret b
  | a :: l' => let! b' := f b a in mfold f b' l'
  end.

Definition set_zone_cache (z : option string) (s : assembler) : assembler :=
  {| as_config := as_config s; bidding_zone_cache := Some z;
     depot_timezone_cache := depot_timezone_cache s;
     last_building_load_source := last_building_load_source s;
     last_schedules := last_schedules s;
     last_schedules_present := last_schedules_present s; last_horizon := last_horizon s |}.
Definition set_tz_cache (z : tz) (s : assembler) : assembler :=
  {| as_config := as_config s; bidding_zone_cache := bidding_zone_cache s;
     depot_timezone_cache := Some z;
     last_building_load_source := last_building_load_source s;
     last_schedules := last_schedules s;
     last_schedules_present := last_schedules_present s; last_horizon := last_horizon s |}.
Definition set_load_source (src : string) (s : assembler) : assembler :=
  {| as_config := as_config s; bidding_zone_cache := bidding_zone_cache s;
     depot_timezone_cache := depot_timezone_cache s; last_building_load_source := src;
     last_schedules := last_schedules s;
     last_schedules_present := last_schedules_present s; last_horizon := last_horizon s |}.
Definition set_schedules_present (b : bool) (s : assembler) : assembler :=
  {| as_config := as_config s; bidding_zone_cache := bidding_zone_cache s;
     depot_timezone_cache := depot_timezone_cache s;
     last_building_load_source := last_building_load_source s;
     last_schedules := last_schedules s; last_schedules_present := b;
     last_horizon := last_horizon s |}.
Definition set_last_run (h : Z * Z) (l : list sched) (s : assembler) : assembler :=
  {| as_config := as_config s; bidding_zone_cache := bidding_zone_cache s;
     depot_timezone_cache := depot_timezone_cache s;
     last_building_load_source := last_building_load_source s; last_schedules := l;
     last_schedules_present := last_schedules_present s; last_horizon := Some h |}.
Definition set_config (c : DepotConfig) (s : assembler) : assembler :=
  {| as_config := c; bidding_zone_cache := bidding_zone_cache s;
     depot_timezone_cache := depot_timezone_cache s;
     last_building_load_source := last_building_load_source s;
     last_schedules := last_schedules s;
     last_schedules_present := last_schedules_present s; last_horizon := last_horizon s |}.

(** ** Time *)

Definition _as_aware_utc (value : datetime) : datetime :=
  if dt_aware value then value else aware_utc (dt_us value).

(** [timedelta(hours=h)] keeps whole microseconds. *)
Definition timedelta_hours (h : Q) : Z := Qround_even (h * inject_Z hour_us).

(** [_hour_floor_utc]. *)
Definition _hour_floor_utc (us : Z) : Z := us - us mod hour_us.

(** [min(keys, key=lambda x: abs(x - t))]: the first of the nearest. *)
Fixpoint nearest (t best : Z) (keys : list Z) : Z :=
  match keys with
  | [] => best
  | k :: keys' => nearest t (if Z.abs (k - t) <? Z.abs (best - t) then k else best) keys'
  end.

(** ** Prices by bidding zone ([db/queries.py]) *)

Section FetchPrices.
Context (rows : list (Z * option Q)) (start_time end_time forward_fill_window : Z).

(** €/MWh rows with a price, as €/kWh. *)
Definition known_prices : list (Z * Q) :=
  omap (fun '(ts, raw) => match raw with
                          | Some p => Some (ts, (p / 1000)%Q)
                          | None => None
                          end) rows.

(** The inner loop: the last usable price before the first later row. *)
Fixpoint fill_candidate (cursor : Z) (candidate : option Q) (known : list (Z * Q)) : option Q :=
  match known with
  | [] => candidate
  | (ts, price) :: known' =>
      if (ts <=? cursor) && (cursor - ts <=? forward_fill_window)
      then fill_candidate cursor (Some price) known'
      else if cursor <? ts then candidate
      else fill_candidate cursor candidate known'
  end.

(** The values [cursor] takes: hours from the floored start, before the end. *)
Definition cursors : list Z :=
  let first := _hour_floor_utc start_time in
  map (fun i => first + Z.of_nat i * hour_us)
    (seq 0 (Z.to_nat ((end_time - first + hour_us - 1) / hour_us))).

Definition fetch_prices_by_zone : dict Z Q :=
  match known_prices with
  | [] => []
  | known =>
      foldl (fun filled cursor =>
               match fill_candidate cursor None known with
               | Some p => filled +{ cursor := p }
               | None => filled
               end) [] cursors
  end.
End FetchPrices.

Section Assembly.
Context (d : db).

(** ** Single readings *)

(** The dict comprehension over the rows with a reading. *)
Definition socs_of_rows (rows : list (string * option Q)) : dict string Q :=
  foldl (fun acc '(vid, s) => match s with Some q => acc +{ vid := q } | None => acc end) [] rows.

Definition _get_vehicle_socs : M (dict string Q) :=
  let! vehicle_ids := await (q_vehicle_ids d) in
  match vehicle_ids with
  | [] => ret []
  | _ =>
      let! rows := await (q_freshest_socs d vehicle_ids) in
      ret (socs_of_rows rows)
  end.

Definition _get_battery_soc : Q := 1 # 2.

Definition default_price_kwh : Q := 15 # 100.

(** The price of the step at [step_time]. *)
Definition step_price (price_map : dict Z Q) (step_time : Z) : Q :=
  let hour_floor := _hour_floor_utc step_time in
  match price_map @? hour_floor with
  | Some p => p
  | None =>
      match dkeys price_map with
      | k :: keys =>
          let closest_time := nearest hour_floor k keys in
          if Z.abs (closest_time - hour_floor) <? hour_us
          then dget_or price_map closest_time default_price_kwh
          else default_price_kwh
      | [] => default_price_kwh
      end
  end.

(** [zone] is falsy when absent or empty. *)
Definition _get_prices (start end_ : datetime) (n_steps : nat) : M (list Q) :=
  let default_prices := replicate n_steps default_price_kwh in
  let start_utc := dt_us (_as_aware_utc start) in
  let end_utc := dt_us (_as_aware_utc end_) in
  let with_zone (zone : option string) : M (list Q) :=
    match zone with
    | Some (String _ _ as z) =>
        match q_prices d z start_utc end_utc with
        | Err _ => ret default_prices
        | Ok [] => ret default_prices
        | Ok price_map =>
            let! c := config_of in
            let dt := timedelta_hours (delta_t c) in
            ret (map (fun t => step_price price_map (start_utc + Z.of_nat t * dt)) (seq 0 n_steps))
        end
    | _ => ret default_prices
    end in
  let! s := get in
  match bidding_zone_cache s with
  | Some zone => with_zone zone
  | None =>
      match q_bidding_zone d with
      | Err _ => ret default_prices
      | Ok zone => let! _ := put (set_zone_cache zone s) in with_zone zone
      end
  end.

(** [sub in s] and [s.lower()]. *)
Definition str_in (sub s : string) : bool :=
  match String.index 0 sub s with Some _ => true | None => false end.
Definition ascii_lower (c : Ascii.ascii) : Ascii.ascii :=
  let n := Ascii.nat_of_ascii c in
  if (65 <=? n)%nat && (n <=? 90)%nat then Ascii.ascii_of_nat (n + 32) else c.
Fixpoint str_lower (s : string) : string :=
  match s with
  | EmptyString => EmptyString
  | String c s' => String (ascii_lower c) (str_lower s')
  end.

Definition _get_vdv463_charging_requests (start end_ : Z) : M (list vdv_request) :=
  match q_vdv463 d start end_ with
  | Ok rows => ret rows
  | Err e =>
      if str_in "vdv463_charging_requests" e && str_in "does not exist" (str_lower e)
      then ret [] else await (Err e)
  end.

(** ** Schedules *)

Definition utc_zone : tz := {| offset_at := fun _ => 0; offset_local := fun _ => 0 |}.

Definition _get_depot_timezone : M tz :=
  let! s := get in
  match depot_timezone_cache s with
  | Some z => ret z
  | None =>
      let z := match q_timezone d with
               | Ok (Some (String _ _ as name)) =>
                   match zone_info d name with Some z => z | None => utc_zone end
               | _ => utc_zone
               end in
      let! _ := put (set_tz_cache z s) in
      ret z
  end.

Definition _get_schedules (start end_ : datetime) : M (list trip) :=
  let start := dt_us (_as_aware_utc start) in
  let end_ := dt_us (_as_aware_utc end_) in
  let! manual := await (q_manual d start end_) in
  let! rec := await (q_recurring d start end_) in
  match fst rec with
  | [] => ret (map mr_trip manual)
  | templates =>
      let! depot_tz := _get_depot_timezone in
      ret (merge_recurring_with_manual depot_tz manual
             (expand_recurring_templates depot_tz (snd rec) start end_ templates))
  end.

(** [x or 100.0] for an optional energy. *)
Definition energy_or_default (e : option Q) : Q :=
  match e with
  | Some q => if (q =?q 0) then 100%Q else q
  | None => 100%Q
  end.

Definition sched_of_trip (s : trip) : sched :=
  {| s_vehicle_id := tr_vehicle_id s; s_return_time := aware_utc (return_time s);
     s_departure_time := aware_utc (departure_time s);
     s_energy := energy_or_default (estimated_energy_kwh s) |}.

(** The accumulators of the loop over VDV 463 requests. *)
Record vdv_acc := {
  schedule_by_vehicle : dict string sched;
  va_soc_min : dict string Q;
  va_soc_max : dict string Q;
  va_priorities : dict string Z;
  va_precond : list PrecondRequest
}.

(** A percentage becomes a fraction. *)
Definition normalize_soc (s : Q) : Q := if (s <=?q 1) then s else (s / 100)%Q.

Definition set_some {V} (vid : string) (o : option V) (dd : dict string V) : dict string V :=
  match o with Some v => dd +{ vid := v } | None => dd end.

(** The preconditioning entry a request contributes. *)
Definition precond_of (r : vdv_request) (dep : datetime) : list PrecondRequest :=
  match vr_preconditioning_type r with
  | Some ty =>
      if String.eqb ty "manual"
      then match vr_preconditioning_start r, vr_hvac_aux_power r with
           | Some start_ts, Some w =>
               [{| pr_start_time := Some start_ts; pr_end_time := Some dep;
                   pr_power_kw := Some (inject_Z w / 1000)%Q |}]
           | _, _ => []
           end
      else if String.eqb ty "automatic"
      then match vr_requested_finish_time r, vr_ambient_temperature r with
           | Some finish_ts, Some ambient =>
               let duration_min := pymax 0 ((18 - ambient) * 3)%Q in
               let start_us := dt_us finish_ts
                                 - Qround_even (duration_min * inject_Z minute_us) in
               [{| pr_start_time := Some {| dt_aware := dt_aware finish_ts; dt_us := start_us |};
                   pr_end_time := Some finish_ts; pr_power_kw := Some 10%Q |}]
           | _, _ => []
           end
      else []
  | None => []
  end.

Definition merge_request (acc : vdv_acc) (r : vdv_request) : vdv_acc :=
  match vr_expected_arrival r, vr_requested_departure r with
  | Some ret_, Some dep =>
      let vid := vr_vehicle_id r in
      {| schedule_by_vehicle := schedule_by_vehicle acc
           +{ vid := {| s_vehicle_id := vid; s_return_time := ret_; s_departure_time := dep;
                        s_energy := 100%Q |} };
         va_soc_min := set_some vid (option_map normalize_soc (vr_min_target_soc r)) (va_soc_min acc);
         va_soc_max := set_some vid (option_map normalize_soc (vr_max_target_soc r)) (va_soc_max acc);
         va_priorities := set_some vid (vr_priority r) (va_priorities acc);
         va_precond := va_precond acc ++ precond_of r dep |}
  | _, _ => acc
  end.

Definition schedules_by_vehicle (schedules : list trip) : dict string sched :=
  foldl (fun acc s => acc +{ tr_vehicle_id s := sched_of_trip s }) [] schedules.

Definition _merge_vdv463_into_schedules (schedules : list trip) (requests : list vdv_request)
  : vdv_acc :=
  foldl merge_request
    {| schedule_by_vehicle := schedules_by_vehicle schedules; va_soc_min := []; va_soc_max := [];
       va_priorities := []; va_precond := [] |} requests.

(** [list(schedule_by_vehicle.values())]. *)
Definition merged_schedules (acc : vdv_acc) : list sched := dvals (schedule_by_vehicle acc).

(** ** Availability, departures, energy *)

(** The steps at which a vehicle is on its route. *)
Definition mark_route (start dt dep ret_ : Z) (l : list bool) : list bool :=
  imap (fun t b => if (dep <=? start + Z.of_nat t * dt) && (start + Z.of_nat t * dt <? ret_)
                   then false else b) l.

Definition mark_schedule (start dt : Z) (availability : dict string (list bool)) (s : sched)
  : dict string (list bool) :=
  match availability @? s_vehicle_id s with
  | None => availability
  | Some l =>
      let dep := dt_us (_as_aware_utc (s_departure_time s)) in
      let ret_ := dt_us (_as_aware_utc (s_return_time s)) in
      availability +{ s_vehicle_id s := mark_route start dt dep ret_ l }
  end.

Definition _compute_availability (config : DepotConfig) (schedules : list sched) (start : datetime)
    (n_steps : nat) : dict string (list bool) :=
  let dt := timedelta_hours (delta_t config) in
  let start := dt_us (_as_aware_utc start) in
  foldl (mark_schedule start dt)
    (map (fun vid => (vid, replicate n_steps true)) (dkeys (vehicle_capacities config))) schedules.

Definition _compute_departure_times (config : DepotConfig) (schedules : list sched)
    (start : datetime) : result asm_error (dict string Z) :=
  let dt := timedelta_hours (delta_t config) in
  let start := dt_us (_as_aware_utc start) in
  rfold (fun departures s =>
           let vid := s_vehicle_id s in
           let dep := dt_us (_as_aware_utc (s_departure_time s)) in
           let? _ := raise_if (dt =? 0) (Builtin ZeroDivisionError) in
           let t_idx := Z.quot (dep - start) dt in
           Ok (match departures @? vid with
               | Some t0 => if t_idx <? t0 then departures +{ vid := t_idx } else departures
               | None => departures +{ vid := t_idx }
               end)) [] schedules.

Definition _compute_energy_requirements (schedules : list sched) : dict string Q :=
  foldl (fun requirements s =>
           let energy := energy_or_default (Some (s_energy s)) in
           if dmem (s_vehicle_id s) requirements then requirements
           else requirements +{ s_vehicle_id s := energy }) [] schedules.

(** ** Tariff and building load *)

(** [x] is truthy: a peak of zero reads as none. *)
Definition _get_current_month_peak : M Q :=
  let! row := await (q_month_peak d) in
  ret (match row with Some p => if (p =?q 0) then 0%Q else p | None => 0%Q end).

Definition _get_demand_charge_rate : M Q :=
  let! price_row := await (q_price_demand d) in
  match price_row with
  | Some rate => ret rate
  | None =>
      let! row := await (q_site_demand d) in
      match row with
      | Some rate => ret rate
      | None => ret 20%Q
      end
  end.

(** [now.replace(day=1, hour=0, minute=0, second=0, microsecond=0)]. *)
Definition period_start (now : Z) : Z :=
  let '(_, _, day) := civil_of (date_of now) in
  (date_of now - (day - 1)) * day_us.

Definition _get_cumulative_kwh_period (now : Z) : M Q :=
  let! c := config_of in
  let fallback_kwh := default 0%Q (energy_cap_kwh c) in
  match q_charger_ids d with
  | Err _ => ret fallback_kwh
  | Ok [] => ret 0%Q
  | Ok charger_ids =>
      match q_period_kwh d charger_ids (period_start now) now with
      | Ok row => ret (default 0%Q row)
      | Err _ => ret fallback_kwh
      end
  end.

(** The log message divides by the number of steps. *)
Definition _get_building_power_forecast (start : Z) (n_steps : nat) : M (list Q) :=
  let! c := config_of in
  let dt := timedelta_hours (delta_t c) in
  let building_power :=
    map (fun t => let hour := hour_of (start + Z.of_nat t * dt) in
                  if (8 <=? hour) && (hour <? 18) then (50 + inject_Z ((hour - 8) * 3))%Q
                  else 20%Q) (seq 0 n_steps) in
  if (n_steps =? 0)%nat then throw ZeroDivisionError else ret building_power.

(** One step of the meter loop: the new [last_power]. *)
Definition meter_step (power_map : dict Z Q) (last_power : Q) (step_time : Z) : Q :=
  match power_map @? step_time with
  | Some p => p
  | None =>
      match dkeys power_map with
      | k :: keys =>
          let closest_time := nearest step_time k keys in
          if Z.abs (closest_time - step_time) <? 30 * minute_us
          then dget_or power_map closest_time last_power else last_power
      | [] => last_power
      end
  end.

Fixpoint meter_series (power_map : dict Z Q) (last_power : Q) (times : list Z) : list Q :=
  match times with
  | [] => []
  | step_time :: times' =>
      let p := meter_step power_map last_power step_time in
      p :: meter_series power_map p times'
  end.

Definition power_map_of (rows : list (Z * Q)) : dict Z Q :=
  foldl (fun m '(t, p) => m +{ t := p }) [] rows.

Definition _get_building_power (start end_ : Z) (n_steps : nat) : M (list Q) :=
  let! c := config_of in
  if (0 <?q building_load_assumption_kw c)
  then let! s := get in
       let! _ := put (set_load_source "static_assumption" s) in
       ret (replicate n_steps 0%Q)
  else
    match q_building_load d start end_ with
    | Err _ | Ok [] =>
        let! s := get in
        let! _ := put (set_load_source "forecast_fallback" s) in
        _get_building_power_forecast start n_steps
    | Ok rows =>
        let! s := get in
        let! _ := put (set_load_source "meter" s) in
        let dt := timedelta_hours (delta_t c) in
        if (n_steps =? 0)%nat then throw ZeroDivisionError
        else ret (meter_series (power_map_of rows) 0
                    (map (fun t => start + Z.of_nat t * dt) (seq 0 n_steps)))
    end.

(** ** Incoming vehicles *)

Definition incoming_of_row (external_id_map : dict string (option string)) (row : incoming_row)
  : IncomingVehicle :=
  let vid := ir_vehicle_id row in
  {| iv_vehicle_id := vid;
     iv_external_id := match external_id_map @? vid with
                       | Some (Some (String _ _ as x)) => x
                       | _ => "vehicle_" +:+ vid
                       end;
     iv_expected_soc := ir_expected_soc row; iv_arrival_time := ir_arrival_time row;
     iv_battery_kwh := ir_battery_kwh row; iv_max_charge_kw := ir_max_charge_kw row;
     iv_origin_depot_id := ir_origin_depot_id row |}.

Definition _get_incoming_vehicles (start end_ : Z) : list IncomingVehicle :=
  match q_incoming d start end_ with
  | Ok [] => []
  | Ok rows =>
      match q_external_ids d (map ir_vehicle_id rows) with
      | Ok m => map (incoming_of_row m) rows
      | Err _ => []
      end
  | Err _ => []
  end.

Definition with_vehicle (c : DepotConfig) (capacities max_kw : dict string Q) : DepotConfig :=
  {| vehicle_capacities := capacities; vehicle_max_charge_kw := max_kw;
     charger_groups := charger_groups c; charger_efficiency := charger_efficiency c;
     charger_vehicle_access := charger_vehicle_access c; battery_capacity := battery_capacity c;
     battery_power := battery_power c; battery_efficiency := battery_efficiency c;
     battery_soc_min := battery_soc_min c; battery_soc_max := battery_soc_max c;
     max_site_power := max_site_power c;
     building_load_assumption_kw := building_load_assumption_kw c; delta_t := delta_t c;
     n_timesteps := n_timesteps c;
     charger_vehicle_access_default := charger_vehicle_access_default c;
     tariff_type := tariff_type c; energy_cap_kwh := energy_cap_kwh c;
     under_cap_rate_per_kwh := under_cap_rate_per_kwh c;
     over_cap_penalty_per_kwh := over_cap_penalty_per_kwh c;
     cap_billing_period := cap_billing_period c |}.

(** [if k not in d: d[k] = v]. *)
Definition set_default {V} (k : string) (v : V) (dd : dict string V) : dict string V :=
  if dmem k dd then dd else dd +{ k := v }.

(** The two local dictionaries the loop over incoming vehicles updates. *)
Record fleet := { f_socs : dict string Q; f_availability : dict string (list bool) }.

(** [int((arrival - now).total_seconds() / (delta_t * 3600))]. *)
Definition arrival_timestep (dt_h : Q) (now arrival : Z) : Z :=
  Qtrunc (total_seconds (arrival - now) / (dt_h * 3600)).

(** Unavailable before [arr], available from it on. *)
Definition arrive_at (arr : Z) (l : list bool) : list bool :=
  imap (fun t _ => arr <=? Z.of_nat t) l.

(** One iteration: the shared configuration is updated before the arrival time
    is looked at. *)
Definition integrate_incoming (now : Z) (n_steps : nat) (f : fleet) (iv : IncomingVehicle)
  : M fleet :=
  let! s := get in
  let c := as_config s in
  let vid := iv_vehicle_id iv in
  let socs := f_socs f +{ vid := iv_expected_soc iv } in
  let c := with_vehicle c (set_default vid (iv_battery_kwh iv) (vehicle_capacities c))
             (set_default vid (iv_max_charge_kw iv) (vehicle_max_charge_kw c)) in
  let! _ := put (set_config c s) in
  if negb (dt_aware (iv_arrival_time iv)) then throw TypeError
  else if (delta_t c =?q 0)%Q then throw ZeroDivisionError
  else
    let arr := arrival_timestep (delta_t c) now (dt_us (iv_arrival_time iv)) in
    let availability :=
      if (0 <=? arr) && (arr <? Z.of_nat n_steps)
      then let l := dget_or (f_availability f) vid (replicate n_steps false) in
           f_availability f +{ vid := arrive_at arr l }
      else f_availability f in
    ret {| f_socs := socs; f_availability := availability |}.

(** ** The assembly *)

(** Readings first; vehicles of the configuration without one get 0.5. *)
Definition fill_socs (config : DepotConfig) (vehicle_socs : dict string Q) : dict string Q :=
  let configured := dkeys (vehicle_capacities config) in
  let socs := match vehicle_socs with
              | [] => foldl (fun acc vid => acc +{ vid := (1 # 2)%Q }) [] configured
              | _ => vehicle_socs
              end in
  let missing := List.filter (fun vid => negb (dmem vid socs)) configured in
  foldl (fun acc vid => acc +{ vid := (1 # 2)%Q }) socs (hash_order d missing).

Definition get_current_state (now : Z) (horizon_hours : Z) : M DepotState :=
  if (horizon_hours <=? 0) || (48 <? horizon_hours) then throw ValueError
  else
    let! c := config_of in
    if (delta_t c =?q 0) then throw ZeroDivisionError
    else
      let horizon_end := now + horizon_hours * hour_us in
      let n_steps := Z.to_nat (Qtrunc (inject_Z horizon_hours / delta_t c)) in
      let! readings := _get_vehicle_socs in
      let vehicle_socs := fill_socs c readings in
      let! prices := _get_prices (aware_utc now) (aware_utc horizon_end) n_steps in
      let! schedules := _get_schedules (aware_utc now) (aware_utc horizon_end) in
      let! s := get in
      let! _ := put (set_schedules_present
                       (match schedules with [] => false | _ => true end) s) in
      let! requests := _get_vdv463_charging_requests now horizon_end in
      let acc := _merge_vdv463_into_schedules schedules requests in
      let schedules := merged_schedules acc in
      let availability := _compute_availability c schedules (aware_utc now) n_steps in
      let! departure_times := lift (_compute_departure_times c schedules (aware_utc now)) in
      let energy_requirements := _compute_energy_requirements schedules in
      let! current_month_peak := _get_current_month_peak in
      let! demand_charge_rate := _get_demand_charge_rate in
      let! cumulative_kwh_period :=
        if String.eqb (tariff_type c) "energy_cap" then _get_cumulative_kwh_period now
        else ret 0%Q in
      let! building_power := _get_building_power now horizon_end n_steps in
      let! s := get in
      let! _ := put (set_last_run (now, horizon_end) schedules s) in
      let incoming_vehicles := _get_incoming_vehicles now horizon_end in
      let! f := mfold (integrate_incoming now n_steps)
                  {| f_socs := vehicle_socs; f_availability := availability |}
                  incoming_vehicles in
      ret {| Models.vehicle_socs := f_socs f; battery_soc := _get_battery_soc;
             Models.prices := prices; Models.demand_charge_rate := demand_charge_rate;
             Models.current_month_peak := current_month_peak;
             vehicle_availability := f_availability f;
             Models.energy_requirements := energy_requirements;
             Models.departure_times := departure_times; Models.building_power := building_power;
             Models.incoming_vehicles := incoming_vehicles;
             vehicle_departure_soc_min := va_soc_min acc;
             vehicle_departure_soc_max := va_soc_max acc;
             vehicle_priorities := va_priorities acc;
             preconditioning_requests := va_precond acc;
             Models.cumulative_kwh_period := cumulative_kwh_period |}.
End Assembly.

(** ** Loading the configuration *)

Record depot_row := {
  dr_max_grid_kw : option Q;
  dr_building_load_assumption_kw : Q;
  dr_access_default : string;
  dr_tariff_type : string;
  dr_energy_cap_kwh : option Q;
  dr_under_cap_rate : option Q;
  dr_over_cap_penalty : option Q;
  dr_cap_billing_period : string
}.
Record vehicle_row := {
  vw_vehicle_id : string;
  vw_battery_kwh : option Q;
  vw_max_charge_kw : option Q;
  vw_id_tag : option string
}.
(** A group of chargers with equal rating and efficiency, and its size. *)
Record charger_row := { cw_rated_kw : option Q; cw_efficiency : option Q; cw_count : Z }.
Record battery_row := {
  bw_capacity_kwh : option Q;
  bw_max_power_kw : option Q;
  bw_efficiency : option Q;
  bw_soc_min : option Q;
  bw_soc_max : option Q
}.

(** [float(x)] raises on [None]. *)
Definition py_float (o : option Q) : result asm_error Q :=
  match o with Some q => Ok q | None => Err (Builtin TypeError) end.

Definition or_value_error (o : option Q) : result asm_error Q :=
  match o with Some q => Ok q | None => Err (Builtin ValueError) end.

(** [charger_groups[rated_kw] = count], keys compared as numbers. *)
Fixpoint group_set (kw : Q) (n : Z) (groups : list (Q * Z)) : list (Q * Z) :=
  match groups with
  | [] => [(kw, n)]
  | (k, m) :: groups' => if (k =?q kw)%Q then (k, n) :: groups' else (k, m) :: group_set kw n groups'
  end.

(** The loop over the charger rows: the groups, and the efficiency of the first
    row. *)
Definition load_chargers (rows : list charger_row)
  : result asm_error (list (Q * Z) * Q) :=
  match rows with
  | [] => Ok ([(80%Q, 1)], (95 # 100)%Q)
  | _ =>
      let? acc :=
        rfold (fun '(groups, eff) row =>
                 let? rated_kw := or_value_error (cw_rated_kw row) in
                 let groups := group_set rated_kw (cw_count row) groups in
                 match eff with
                 | Some e => Ok (groups, Some e)
                 | None => let? e := py_float (cw_efficiency row) in Ok (groups, Some e)
                 end) ([], None) rows in
      Ok (fst acc, default (95 # 100)%Q (snd acc))
  end.

(** Capacities and id tags. *)
Definition load_vehicles (rows : list vehicle_row)
  : result asm_error (dict string Q * dict string string) :=
  rfold (fun '(caps, tags) row =>
           let vid := vw_vehicle_id row in
           let? kwh := or_value_error (vw_battery_kwh row) in
           Ok (caps +{ vid := kwh },
               match vw_id_tag row with
               | Some (String _ _ as tag) => tags +{ vid := tag }
               | _ => tags
               end)) ([], []) rows.

Definition load_max_charge (rows : list vehicle_row) : result asm_error (dict string Q) :=
  rfold (fun m row => let? kw := py_float (vw_max_charge_kw row) in
                      Ok (m +{ vw_vehicle_id row := kw })) [] rows.

Definition load_battery (row : option battery_row) : result asm_error (Q * Q * Q * Q * Q) :=
  match row with
  | Some b =>
      let? cap := py_float (bw_capacity_kwh b) in
      let? pow := py_float (bw_max_power_kw b) in
      let? eff := py_float (bw_efficiency b) in
      let? lo := py_float (bw_soc_min b) in
      let? hi := py_float (bw_soc_max b) in
      Ok (cap, pow, eff, lo, hi)
  | None => Ok (0%Q, 0%Q, (92 # 100)%Q, (2 # 10)%Q, (8 # 10)%Q)
  end.

(** Every charger reaches every vehicle, or the explicit matrix. *)
Definition load_access (access_default : string) (charger_ids : list string)
    (access_rows : list (string * string)) (vehicles : list string)
  : dict string (gset string) :=
  if String.eqb access_default "all_to_all"
  then foldl (fun acc cid => acc +{ cid := list_to_set vehicles }) [] charger_ids
  else foldl (fun acc '(cid, vid) =>
                acc +{ cid := {[ vid ]} ∪ dget_or acc cid ∅ }) [] access_rows.

Definition load_depot_config (depot : option depot_row) (vehicles : list vehicle_row)
    (chargers : list charger_row) (battery : option battery_row) (charger_ids : list string)
    (access_rows : list (string * string))
  : result asm_error (DepotConfig * dict string string) :=
  match depot with
  | None => Err (Builtin ValueError)
  | Some row =>
      let? max_site := or_value_error (dr_max_grid_kw row) in
      let? vs := load_vehicles vehicles in
      let '(capacities, tags) := vs in
      let? cs := load_chargers chargers in
      let '(groups, efficiency) := cs in
      let? bs := load_battery battery in
      let '(b_cap, b_pow, b_eff, b_min, b_max) := bs in
      let access := load_access (dr_access_default row) charger_ids access_rows
                      (dkeys capacities) in
      let? max_charge := load_max_charge vehicles in
      Ok ({| vehicle_capacities := capacities; vehicle_max_charge_kw := max_charge;
             charger_groups := groups; charger_efficiency := efficiency;
             charger_vehicle_access := access; battery_capacity := b_cap; battery_power := b_pow;
             battery_efficiency := b_eff; battery_soc_min := b_min; battery_soc_max := b_max;
             max_site_power := max_site;
             building_load_assumption_kw := dr_building_load_assumption_kw row;
             delta_t := 1 # 4; n_timesteps := 96;
             charger_vehicle_access_default := dr_access_default row;
             tariff_type := dr_tariff_type row; energy_cap_kwh := dr_energy_cap_kwh row;
             under_cap_rate_per_kwh := dr_under_cap_rate row;
             over_cap_penalty_per_kwh := dr_over_cap_penalty row;
             cap_billing_period := dr_cap_billing_period row |}, tags)
  end.
