(* ===== verification/AssemblerFacts.v ===== *)
(** * Properties of state assembly

    The schedule entries the optimiser sees, the prices per timestep, the
    charger groups of a loaded configuration, and that the assembled state is
    one the optimiser accepts. *)

From S2P Require Import Prelude Models Milp MilpFacts Datetime Recurring Assembler.
From Stdlib Require Import ZArith QArith Qround Lqa Lia.
From stdpp Require Import base list strings gmap sorting.

#[local] Open Scope Z_scope.

(** ** The monad *)

Lemma bind_Ok {A B} (m : M A) (k : A -> M B) s b s' :
  bind m k s = (Ok b, s') -> exists a s1, m s = (Ok a, s1) /\ k a s1 = (Ok b, s').
Proof. unfold bind. destruct (m s) as [[a|e] s1]; [eauto | discriminate]. Qed.

Lemma bind_run {A B} (m : M A) (k : A -> M B) s a s1 :
  m s = (Ok a, s1) -> bind m k s = k a s1.
Proof. unfold bind. by intros ->. Qed.

(** A method that leaves the shared configuration alone. *)
Definition keeps_config {A} (m : M A) : Prop := forall s, as_config (snd (m s)) = as_config s.

Lemma keeps_bind {A B} (m : M A) (k : A -> M B) :
  keeps_config m -> (forall a, keeps_config (k a)) -> keeps_config (bind m k).
Proof.
  intros Hm Hk s. specialize (Hm s). unfold bind.
  destruct (m s) as [[a|e] s1]; cbn in *; [|done]. by rewrite Hk.
Qed.

Lemma keeps_ret {A} (a : A) : keeps_config (ret a).
Proof. by intros s. Qed.
Lemma keeps_await {A} (r : result pg_error A) : keeps_config (await r).
Proof. by intros s. Qed.
Lemma keeps_throw {A} e : keeps_config (A := A) (throw e).
Proof. by intros s. Qed.
Lemma keeps_lift {A} (r : result asm_error A) : keeps_config (lift r).
Proof. by intros s. Qed.
Lemma keeps_config_of : keeps_config config_of.
Proof. by intros s. Qed.

Lemma keeps_update {A} (g : assembler -> assembler) (k : M A) :
  (forall s, as_config (g s) = as_config s) -> keeps_config k ->
  keeps_config (bind get (fun s => bind (put (g s)) (fun _ => k))).
Proof. intros Hg Hk s. cbn. rewrite Hk. apply Hg. Qed.

Create HintDb frame discriminated.
#[export] Hint Resolve keeps_bind keeps_ret keeps_await keeps_throw keeps_lift keeps_config_of
  keeps_update : frame.

(** Case analysis on the query answers inside a method. *)
Ltac frame_cases :=
  repeat match goal with
  | |- keeps_config (match ?x with _ => _ end) => destruct x
  | |- keeps_config (bind get _) => apply keeps_update
  | |- keeps_config (bind _ _) => apply keeps_bind; [|intros ?]
  end; auto with frame.

Lemma get_vehicle_socs_frame d : keeps_config (_get_vehicle_socs d).
Proof. unfold _get_vehicle_socs. frame_cases. Qed.

Lemma get_prices_frame d a b n : keeps_config (_get_prices d a b n).
Proof.
  intros s. unfold _get_prices. cbn.
  destruct (bidding_zone_cache s) as [[[|? ?]|]|]; cbn; [done| |done|].
  - by destruct (q_prices _ _ _ _) as [[|[]]|].
  - destruct (q_bidding_zone d) as [[[|? ?]|]|]; cbn; try done.
    by destruct (q_prices _ _ _ _) as [[|[]]|].
Qed.

Lemma get_vdv_frame d a b : keeps_config (_get_vdv463_charging_requests d a b).
Proof. unfold _get_vdv463_charging_requests. frame_cases. Qed.

Lemma get_timezone_frame d : keeps_config (_get_depot_timezone d).
Proof. intros s. unfold _get_depot_timezone. cbn. by destruct (depot_timezone_cache s). Qed.

Lemma get_schedules_frame d a b : keeps_config (_get_schedules d a b).
Proof. unfold _get_schedules. frame_cases. apply get_timezone_frame. Qed.

Lemma get_peak_frame d : keeps_config (_get_current_month_peak d).
Proof. unfold _get_current_month_peak. frame_cases. Qed.

Lemma get_rate_frame d : keeps_config (_get_demand_charge_rate d).
Proof. unfold _get_demand_charge_rate. frame_cases. Qed.

Lemma get_kwh_frame d now : keeps_config (_get_cumulative_kwh_period d now).
Proof. unfold _get_cumulative_kwh_period. frame_cases. Qed.

Lemma get_forecast_frame a n : keeps_config (_get_building_power_forecast a n).
Proof. unfold _get_building_power_forecast. frame_cases. Qed.

Lemma get_building_frame d a b n : keeps_config (_get_building_power d a b n).
Proof.
  unfold _get_building_power. frame_cases; try done; apply get_forecast_frame.
Qed.
#[export] Hint Resolve get_vehicle_socs_frame get_prices_frame get_vdv_frame get_schedules_frame
  get_peak_frame get_rate_frame get_kwh_frame get_building_frame : frame.

(** A successful step keeps the configuration, as an equation on states. *)
Lemma frame_step {A} (m : M A) s a s' :
  keeps_config m -> m s = (a, s') -> as_config s' = as_config s.
Proof. intros Hk H. specialize (Hk s). by rewrite H in Hk. Qed.

(** ** Series have one value per timestep *)

Lemma get_prices_length d a b n s l s' : _get_prices d a b n s = (Ok l, s') -> length l = n.
Proof.
  unfold _get_prices. cbn. intros H.
  destruct (bidding_zone_cache s) as [[[|? ?]|]|]; cbn in H;
    [| |
     |destruct (q_bidding_zone d) as [[[|? ?]|]|]; cbn in H];
    repeat match type of H with
    | context [match q_prices ?x1 ?x2 ?x3 ?x4 with _ => _ end] =>
        destruct (q_prices x1 x2 x3 x4) as [[|[]]|]; cbn in H
    end; injection H as <- <-;
    rewrite ?length_replicate, ?length_map, ?length_seq; done.
Qed.

Lemma meter_series_length m p l : length (meter_series m p l) = length l.
Proof. revert p. induction l; intros; cbn; auto. Qed.

Lemma forecast_length a n s l s' :
  _get_building_power_forecast a n s = (Ok l, s') -> length l = n.
Proof.
  unfold _get_building_power_forecast. cbn. destruct (n =? 0)%nat; intros H; [discriminate|].
  injection H as <- <-. by rewrite length_map, length_seq.
Qed.

Lemma get_building_length d a b n s l s' :
  _get_building_power d a b n s = (Ok l, s') -> length l = n.
Proof.
  unfold _get_building_power. intros H. apply bind_Ok in H as (c & s1 & Hc & H).
  destruct (0 <?q building_load_assumption_kw c).
  { cbn in H. injection H as <- <-. apply length_replicate. }
  destruct (q_building_load d a b) as [[|r rows]|];
    apply bind_Ok in H as (? & ? & _ & H); apply bind_Ok in H as (? & ? & _ & H);
    [by apply forecast_length in H| |by apply forecast_length in H].
  destruct (n =? 0)%nat; [discriminate|].
  injection H as <- <-. by rewrite meter_series_length, length_map, length_seq.
Qed.

(** ** What a successful assembly is made of *)

Definition steps_of (c : DepotConfig) (h : Z) : nat :=
  Z.to_nat (Qtrunc (inject_Z h / delta_t c)).

Record assembled (d : db) (now h : Z) (s : assembler) (st : DepotState) (s' : assembler)
    (readings : dict string Q) (acc : vdv_acc) (s1 : assembler) : Prop := {
  am_horizon : 0 < h <= 48;
  am_delta : ~ (delta_t (as_config s) == 0)%Q;
  am_prices : length (prices st) = steps_of (as_config s) h;
  am_building : length (building_power st) = steps_of (as_config s) h;
  am_readings : exists s0 s2, _get_vehicle_socs d s0 = (Ok readings, s2);
  am_acc : exists trips reqs, acc = _merge_vdv463_into_schedules trips reqs /\
    (exists sa sb, _get_schedules d (aware_utc now) (aware_utc (now + h * hour_us)) sa
                   = (Ok trips, sb)) /\
    (exists sa sb, _get_vdv463_charging_requests d now (now + h * hour_us) sa = (Ok reqs, sb));
  am_departures : _compute_departure_times (as_config s) (merged_schedules acc) (aware_utc now)
                  = Ok (departure_times st);
  am_energy : energy_requirements st = _compute_energy_requirements (merged_schedules acc);
  am_incoming : incoming_vehicles st = _get_incoming_vehicles d now (now + h * hour_us);
  am_before : as_config s1 = as_config s;
  am_fleet : mfold (integrate_incoming now (steps_of (as_config s) h))
               {| f_socs := fill_socs d (as_config s) readings;
                  f_availability := _compute_availability (as_config s) (merged_schedules acc)
                                      (aware_utc now) (steps_of (as_config s) h) |}
               (incoming_vehicles st) s1
             = (Ok {| f_socs := vehicle_socs st; f_availability := vehicle_availability st |}, s')
}.

Lemma get_current_state_Ok d now h s st s' :
  get_current_state d now h s = (Ok st, s') ->
  exists readings acc s1, assembled d now h s st s' readings acc s1.
Proof.
  unfold get_current_state. intros H.
  destruct ((h <=? 0) || (48 <? h)) eqn:Eh; [discriminate|]. apply orb_false_iff in Eh as [? ?].
  apply bind_Ok in H as (c & s1 & Hc & H). injection Hc as <- <-.
  destruct (delta_t (as_config s) =?q 0)%Q eqn:Ed; [discriminate|]. qbool.
  change (Z.to_nat (Qtrunc (inject_Z h / delta_t (as_config s)))) with (steps_of (as_config s) h) in H.
  apply bind_Ok in H as (readings & s2 & Hr & H).
  apply bind_Ok in H as (pr & s3 & Hp & H).
  apply bind_Ok in H as (trips & s4 & Ht & H).
  apply bind_Ok in H as (s4' & s5 & Hg & H). injection Hg as <- <-.
  apply bind_Ok in H as ([] & s6 & Hput & H). injection Hput as <-.
  apply bind_Ok in H as (reqs & s7 & Hv & H).
  apply bind_Ok in H as (deps & s8 & Hd & H). injection Hd as Hd <-.
  apply bind_Ok in H as (peak & s9 & Hpk & H).
  apply bind_Ok in H as (rate & s10 & Hrt & H).
  apply bind_Ok in H as (kwh & s11 & Hk & H).
  apply bind_Ok in H as (bp & s12 & Hb & H).
  apply bind_Ok in H as (s12' & s13 & Hg & H). injection Hg as <- <-.
  apply bind_Ok in H as ([] & s14 & Hput & H). injection Hput as <-.
  apply bind_Ok in H as (f & s15 & Hf & H). injection H as <- <-.
  assert (as_config s12 = as_config s) as Hcfg.
  { rewrite (frame_step _ _ _ _ (get_building_frame _ _ _ _) Hb).
    assert (as_config s11 = as_config s10) as ->
      by (destruct (String.eqb _ _); [by apply (frame_step _ _ _ _ (get_kwh_frame _ _) Hk)
                                     | by injection Hk as _ <-]).
    rewrite (frame_step _ _ _ _ (get_rate_frame _) Hrt), (frame_step _ _ _ _ (get_peak_frame _) Hpk),
      (frame_step _ _ _ _ (get_vdv_frame _ _ _) Hv). cbn.
    by rewrite (frame_step _ _ _ _ (get_schedules_frame _ _ _) Ht),
      (frame_step _ _ _ _ (get_prices_frame _ _ _ _) Hp),
      (frame_step _ _ _ _ (get_vehicle_socs_frame _) Hr). }
  exists readings, (_merge_vdv463_into_schedules trips reqs),
    (set_last_run (now, now + h * hour_us)
       (merged_schedules (_merge_vdv463_into_schedules trips reqs)) s12).
  destruct f as [fs fa].
  constructor; cbn [Models.prices Models.building_power Models.departure_times
    Models.energy_requirements Models.incoming_vehicles Models.vehicle_socs vehicle_availability];
    eauto 10 using get_prices_length, get_building_length; lia.
Qed.

(** ** The schedule entry of a vehicle *)

(** The entry a complete VDV 463 request stands for. *)
Definition entry_of_request (r : vdv_request) : option sched :=
  match vr_expected_arrival r, vr_requested_departure r with
  | Some a, Some dep => Some {| s_vehicle_id := vr_vehicle_id r; s_return_time := a;
                                s_departure_time := dep; s_energy := 100 |}
  | _, _ => None
  end.

(** The last complete request of the vehicle, else its last trip in the list. *)
Definition last_entry (vid : string) (trips : list trip) (reqs : list vdv_request)
  : option sched :=
  match last (omap (fun r => if String.eqb (vr_vehicle_id r) vid then entry_of_request r else None)
                reqs) with
  | Some e => Some e
  | None => last (omap (fun t => if String.eqb (tr_vehicle_id t) vid
                                 then Some (sched_of_trip t) else None) trips)
  end.

Lemma last_omap_snoc {A B} (f : A -> option B) l x :
  last (omap f (l ++ [x])) = match f x with Some y => Some y | None => last (omap f l) end.
Proof.
  rewrite omap_app. cbn. destruct (f x); cbn; [apply last_snoc | by rewrite app_nil_r].
Qed.

(** Entries are stored under their own vehicle. *)
Definition keyed (dd : dict string sched) : Prop :=
  dict_wf dd /\ forall k e, dd @? k = Some e -> s_vehicle_id e = k.

Lemma keyed_dset dd e : keyed dd -> keyed (dd +{ s_vehicle_id e := e }).
Proof.
  intros [Hwf Hk]. split; [auto with pydict|]. intros k e'. rewrite dget_dset.
  case_decide; [congruence | apply Hk].
Qed.

Lemma schedules_by_vehicle_snoc l t :
  schedules_by_vehicle (l ++ [t]) = schedules_by_vehicle l +{ tr_vehicle_id t := sched_of_trip t }.
Proof. unfold schedules_by_vehicle. by rewrite foldl_snoc. Qed.

Lemma merge_snoc trips l r :
  _merge_vdv463_into_schedules trips (l ++ [r])
  = merge_request (_merge_vdv463_into_schedules trips l) r.
Proof. unfold _merge_vdv463_into_schedules. by rewrite foldl_snoc. Qed.

Lemma schedules_by_vehicle_spec trips vid :
  schedules_by_vehicle trips @? vid = last_entry vid trips [].
Proof.
  induction trips as [|t trips IH] using rev_ind; [done|].
  rewrite schedules_by_vehicle_snoc, dget_dset. unfold last_entry in *. cbn [omap list_omap last] in *.
  rewrite last_omap_snoc.
  destruct (String.eqb_spec (tr_vehicle_id t) vid); case_decide; congruence.
Qed.

Lemma merge_request_sched acc r :
  schedule_by_vehicle (merge_request acc r)
  = match entry_of_request r with
    | Some e => schedule_by_vehicle acc +{ vr_vehicle_id r := e }
    | None => schedule_by_vehicle acc
    end.
Proof.
  unfold merge_request, entry_of_request.
  by destruct (vr_expected_arrival r), (vr_requested_departure r).
Qed.

Lemma merged_entry trips reqs vid :
  schedule_by_vehicle (_merge_vdv463_into_schedules trips reqs) @? vid
  = last_entry vid trips reqs.
Proof.
  induction reqs as [|r reqs IH] using rev_ind; [apply schedules_by_vehicle_spec|].
  rewrite merge_snoc, merge_request_sched. unfold last_entry in *. rewrite last_omap_snoc.
  destruct (entry_of_request r) as [e|] eqn:E.
  - rewrite dget_dset. destruct (String.eqb_spec (vr_vehicle_id r) vid); case_decide; congruence.
  - by destruct (String.eqb _ _).
Qed.

Lemma merged_keyed trips reqs :
  keyed (schedule_by_vehicle (_merge_vdv463_into_schedules trips reqs)).
Proof.
  induction reqs as [|r reqs IH] using rev_ind.
  - cbn. induction trips as [|t trips IH] using rev_ind; [split; [constructor|done]|].
    rewrite schedules_by_vehicle_snoc. by apply (keyed_dset _ (sched_of_trip t)).
  - rewrite merge_snoc, merge_request_sched. unfold entry_of_request.
    destruct (vr_expected_arrival r) as [a|], (vr_requested_departure r) as [dep|]; try done.
    by apply (keyed_dset _ {| s_vehicle_id := vr_vehicle_id r; s_return_time := a;
                              s_departure_time := dep; s_energy := 100 |}).
Qed.

(** The merged list names each vehicle once. *)
Lemma keyed_vals dd : keyed dd -> map s_vehicle_id (dvals dd) = dkeys dd.
Proof.
  intros [Hwf Hk]. unfold dvals, dkeys. rewrite map_map. apply map_ext_in. intros [k e] Hin.
  cbn. apply Hk. apply dget_in_wf; [done|]. by apply list_elem_of_In.
Qed.

Lemma keyed_elem dd e : keyed dd -> e ∈ dvals dd <-> dd @? s_vehicle_id e = Some e.
Proof.
  intros [Hwf Hk]. unfold dvals. rewrite list_elem_of_fmap. split.
  - intros ([k e'] & -> & Hin). cbn. apply dget_in_wf in Hin; [|done].
    pose proof (Hk _ _ Hin) as ->. done.
  - intros Hd. apply dget_Some_in in Hd. by exists (s_vehicle_id e, e).
Qed.

(** ** The tables computed from a list that names each vehicle once *)

Definition dep_us (e : sched) : Z := dt_us (_as_aware_utc (s_departure_time e)).
Definition ret_us (e : sched) : Z := dt_us (_as_aware_utc (s_return_time e)).

(** Whether the entry keeps its vehicle away at an instant. *)
Definition on_route (e : sched) (u : Z) : bool := (dep_us e <=? u) && (u <? ret_us e).

Lemma still_fresh {V} (acc : dict string V) s l v :
  s_vehicle_id s ∉ map s_vehicle_id l ->
  (forall s', s' ∈ s :: l -> acc @? s_vehicle_id s' = None) ->
  forall s', s' ∈ l -> (acc +{ s_vehicle_id s := v }) @? s_vehicle_id s' = None.
Proof.
  intros Hni Hacc s' Hs'. rewrite dget_dset_ne; [apply Hacc; by right|].
  intros Heq. apply Hni. apply list_elem_of_fmap. by exists s'.
Qed.

Lemma departures_spec c start l deps acc :
  let dt := timedelta_hours (delta_t c) in
  let t0 := dt_us (_as_aware_utc start) in
  let step := (fun departures s =>
    let? _ := raise_if (dt =? 0) (Builtin ZeroDivisionError) in
    Ok (match departures @? s_vehicle_id s with
        | Some i => if Z.quot (dep_us s - t0) dt <? i
                    then departures +{ s_vehicle_id s := Z.quot (dep_us s - t0) dt } else departures
        | None => departures +{ s_vehicle_id s := Z.quot (dep_us s - t0) dt }
        end)) in
  NoDup (map s_vehicle_id l) -> (forall s, s ∈ l -> acc @? s_vehicle_id s = None) ->
  rfold step acc l = Ok deps ->
  (forall s, s ∈ l -> deps @? s_vehicle_id s = Some (Z.quot (dep_us s - t0) dt)) /\
  (forall vid, vid ∉ map s_vehicle_id l -> deps @? vid = acc @? vid).
Proof.
  intros dt t0 step. revert acc.
  induction l as [|s l IH]; intros acc Hnd Hacc H; cbn in H.
  { injection H as <-. split; [by intros ? ?%not_elem_of_nil | done]. }
  change (NoDup (s_vehicle_id s :: map s_vehicle_id l)) in Hnd.
  apply NoDup_cons in Hnd as [Hni Hnd]. apply rbind_Ok in H as (acc1 & Hs & H).
  unfold step in Hs. apply rbind_Ok in Hs as ([] & _ & Hs).
  rewrite (Hacc s) in Hs by left. injection Hs as <-.
  destruct (IH _ Hnd (still_fresh _ _ _ _ Hni Hacc) H) as [IH1 IH2].
  split.
  - intros s' [->|Hs']%elem_of_cons; [|auto]. rewrite IH2 by done. apply dget_dset_eq.
  - intros vid [Hne Hni']%not_elem_of_cons. rewrite IH2 by done. by rewrite dget_dset_ne.
Qed.

Lemma energy_spec l acc :
  let step := (fun requirements s =>
    if dmem (s_vehicle_id s) requirements then requirements
    else requirements +{ s_vehicle_id s := energy_or_default (Some (s_energy s)) }) in
  NoDup (map s_vehicle_id l) -> (forall s, s ∈ l -> acc @? s_vehicle_id s = None) ->
  (forall s, s ∈ l ->
     foldl step acc l @? s_vehicle_id s = Some (energy_or_default (Some (s_energy s)))) /\
  (forall vid, vid ∉ map s_vehicle_id l -> foldl step acc l @? vid = acc @? vid).
Proof.
  intros step. revert acc.
  induction l as [|s l IH]; intros acc Hnd Hacc; cbn [foldl map].
  { split; [by intros ? ?%not_elem_of_nil | done]. }
  change (NoDup (s_vehicle_id s :: map s_vehicle_id l)) in Hnd.
  apply NoDup_cons in Hnd as [Hni Hnd].
  assert (step acc s = acc +{ s_vehicle_id s := energy_or_default (Some (s_energy s)) }) as ->
    by (unfold step, dmem; by rewrite (Hacc s) by left).
  destruct (IH _ Hnd (still_fresh _ _ _ (energy_or_default (Some (s_energy s))) Hni Hacc))
    as [IH1 IH2].
  split.
  - intros s' [->|Hs']%elem_of_cons; [|auto]. rewrite IH2 by done. apply dget_dset_eq.
  - intros vid [Hne Hni']%not_elem_of_cons. rewrite IH2 by done. by rewrite dget_dset_ne.
Qed.

Lemma availability_spec t0 dt l av :
  NoDup (map s_vehicle_id l) ->
  (forall s, s ∈ l -> foldl (mark_schedule t0 dt) av l @? s_vehicle_id s
     = option_map (mark_route t0 dt (dep_us s) (ret_us s)) (av @? s_vehicle_id s)) /\
  (forall vid, vid ∉ map s_vehicle_id l ->
     foldl (mark_schedule t0 dt) av l @? vid = av @? vid).
Proof.
  revert av. induction l as [|s l IH]; intros av Hnd; cbn [foldl map].
  { split; [by intros ? ?%not_elem_of_nil | done]. }
  change (NoDup (s_vehicle_id s :: map s_vehicle_id l)) in Hnd.
  apply NoDup_cons in Hnd as [Hni Hnd].
  assert (forall vid, mark_schedule t0 dt av s @? vid
            = if decide (s_vehicle_id s = vid)
              then option_map (mark_route t0 dt (dep_us s) (ret_us s)) (av @? vid)
              else av @? vid) as Hm.
  { intros vid. unfold mark_schedule. destruct (av @? s_vehicle_id s) as [b|] eqn:E.
    - rewrite dget_dset. case_decide; subst; [|done]. by rewrite E.
    - case_decide; subst; [|done]. by rewrite E. }
  destruct (IH (mark_schedule t0 dt av s) Hnd) as [IH1 IH2]. split.
  - intros s' [->|Hs']%elem_of_cons.
    + rewrite IH2 by done. rewrite Hm. by rewrite decide_True.
    + rewrite IH1 by done. rewrite Hm, decide_False; [done|].
      intros Heq. apply Hni. apply list_elem_of_fmap. by exists s'.
  - intros vid [Hne Hni']%not_elem_of_cons. rewrite IH2, Hm by done. by rewrite decide_False.
Qed.

Lemma mark_route_fresh t0 dt e n :
  mark_route t0 dt (dep_us e) (ret_us e) (replicate n true)
  = map (fun t => negb (on_route e (t0 + Z.of_nat t * dt))) (seq 0 n).
Proof.
  apply list_eq. intros i. unfold mark_route, on_route. rewrite list_lookup_imap.
  change (map ?f ?l) with (f <$> l). rewrite list_lookup_fmap.
  destruct (decide (i < n)%nat) as [Hi|Hi].
  - rewrite lookup_replicate_2, lookup_seq_lt by lia. cbn. by destruct (_ && _).
  - rewrite (lookup_ge_None_2 (replicate n true)) by (rewrite length_replicate; lia).
    by rewrite (lookup_ge_None_2 (seq 0 n)) by (rewrite length_seq; lia).
Qed.

Lemma dget_const {V} (l : list string) (v : V) k :
  map (fun x => (x, v)) l @? k = if decide (k ∈ l) then Some v else None.
Proof.
  induction l as [|x l IH]; cbn.
  - by rewrite decide_False by set_solver.
  - destruct (decide (k = x)) as [->|]; [by rewrite decide_True by set_solver|].
    rewrite IH. repeat case_decide; set_solver.
Qed.

Lemma map_const_seq {A} (x : A) n : map (fun _ => x) (seq 0 n) = replicate n x.
Proof. generalize 0%nat. induction n as [|n IH]; intros i; cbn; [done|]. by rewrite IH. Qed.

(** The three tables of one vehicle, given its entry. *)
Lemma tables_of_entry c trips reqs start n deps vid :
  let acc := _merge_vdv463_into_schedules trips reqs in
  let l := merged_schedules acc in
  let dt := timedelta_hours (delta_t c) in
  let t0 := dt_us (_as_aware_utc start) in
  _compute_departure_times c l start = Ok deps ->
  deps @? vid = option_map (fun e => Z.quot (dep_us e - t0) dt) (last_entry vid trips reqs) /\
  _compute_energy_requirements l @? vid
  = option_map (fun e => energy_or_default (Some (s_energy e))) (last_entry vid trips reqs) /\
  (vid ∈ dkeys (vehicle_capacities c) ->
   _compute_availability c l start n @? vid
   = Some (map (fun t => match last_entry vid trips reqs with
                         | Some e => negb (on_route e (t0 + Z.of_nat t * dt))
                         | None => true
                         end) (seq 0 n))).
Proof.
  intros acc l dt t0 Hdep.
  pose proof (merged_keyed trips reqs) as Hk. fold acc in Hk.
  assert (NoDup (map s_vehicle_id l)) as Hnd
    by (unfold l, merged_schedules; rewrite keyed_vals by done; apply Hk).
  destruct (departures_spec c start l deps [] Hnd (fun _ _ => eq_refl) Hdep) as [Hd1 Hd2].
  destruct (energy_spec l [] Hnd (fun _ _ => eq_refl)) as [He1 He2].
  pose proof (availability_spec t0 dt l
    (map (fun v => (v, replicate n true)) (dkeys (vehicle_capacities c))) Hnd) as [Ha1 Ha2].
  unfold _compute_energy_requirements, _compute_availability. fold dt t0.
  rewrite <- merged_entry. fold acc.
  destruct (schedule_by_vehicle acc @? vid) as [e|] eqn:E; cbn [option_map].
  - destruct Hk as [Hwf Hkk]. pose proof (Hkk _ _ E) as Hvid. subst vid.
    assert (e ∈ l) as Hin by (by apply keyed_elem).
    split_and!; [by apply Hd1 | by apply He1 |]. intros Hc.
    rewrite (Ha1 _ Hin), dget_const, decide_True by done. cbn. by rewrite mark_route_fresh.
  - assert (vid ∉ map s_vehicle_id l) as Hni
      by (unfold l, merged_schedules; rewrite keyed_vals by done; by apply dget_None_keys).
    split_and!; [by apply Hd2 | by apply He2 |]. intros Hc.
    rewrite (Ha2 _ Hni), dget_const, decide_True by done. f_equal.
    symmetry. apply map_const_seq.
Qed.

(** ** The fleet: vehicles with a state of charge, availability and a capacity *)

(** What the queries' [WHERE] clauses and Python's sets promise. *)
Class DbLaws (d : db) : Prop := {
  incoming_window : forall a b rows, q_incoming d a b = Ok rows ->
    forall r, r ∈ rows -> dt_aware (ir_arrival_time r) = true /\ a <= dt_us (ir_arrival_time r) < b;
  hash_order_perm : forall l, hash_order d l ≡ₚ l
}.

Lemma dset_elem {V} (k k' : string) (v v' : V) dd :
  (k', v') ∈ dset k v dd -> (k' = k /\ v' = v) \/ (k', v') ∈ dd.
Proof.
  induction dd as [|[k1 v1] dd IH]; cbn.
  - intros [?|?%not_elem_of_nil]%elem_of_cons; [left; by simplify_eq | done].
  - case_decide; subst; intros [?|?]%elem_of_cons; simplify_eq; set_solver.
Qed.

Lemma dkeys_dset_iff {V} (k k' : string) (v : V) dd :
  k' ∈ dkeys (dset k v dd) <-> k' = k \/ k' ∈ dkeys dd.
Proof. rewrite dkeys_dset. case_decide; set_solver. Qed.

Lemma dkeys_set_default {V} (k k' : string) (v : V) dd :
  k' ∈ dkeys (set_default k v dd) <-> k' = k \/ k' ∈ dkeys dd.
Proof.
  unfold set_default. destruct (dmem k dd) eqn:E; [|apply dkeys_dset_iff].
  apply dmem_spec in E. split; [by right|]. by intros [->|?].
Qed.

Lemma dkeys_foldl_const {V} (v : V) (l : list string) dd k :
  k ∈ dkeys (foldl (fun acc x => acc +{ x := v }) dd l) <-> k ∈ dkeys dd \/ k ∈ l.
Proof.
  revert dd. induction l as [|x l IH]; intros dd; cbn [foldl]; [set_solver|].
  rewrite IH, dkeys_dset_iff. set_solver.
Qed.

Lemma fill_socs_keys d `{!DbLaws d} c readings k :
  k ∈ dkeys (fill_socs d c readings)
  <-> k ∈ dkeys readings \/ k ∈ dkeys (vehicle_capacities c).
Proof.
  unfold fill_socs. rewrite dkeys_foldl_const, hash_order_perm.
  rewrite !list_elem_of_In, filter_In, <- !list_elem_of_In, negb_true_iff.
  rewrite <- not_true_iff_false, dmem_spec.
  destruct readings as [|r rs].
  - rewrite dkeys_foldl_const. cbn. set_solver.
  - destruct (decide (k ∈ dkeys (r :: rs))); set_solver.
Qed.

(** A vehicle without a reading gets the default state of charge. *)
Lemma dget_foldl_const {V} (v : V) (l : list string) dd k :
  foldl (fun acc x => acc +{ x := v }) dd l @? k = if decide (k ∈ l) then Some v else dd @? k.
Proof.
  revert dd. induction l as [|x l IH]; intros dd; cbn [foldl].
  { by rewrite decide_False by set_solver. }
  rewrite IH, dget_dset. repeat case_decide; set_solver.
Qed.

Lemma fill_socs_default d `{!DbLaws d} c readings k :
  k ∈ dkeys (vehicle_capacities c) -> k ∉ dkeys readings ->
  fill_socs d c readings @? k = Some (1 # 2)%Q.
Proof.
  intros Hc Hr. unfold fill_socs. rewrite dget_foldl_const. case_decide as Hin; [done|].
  destruct readings as [|r rs].
  - rewrite dget_foldl_const. by rewrite decide_True.
  - exfalso. apply Hin. rewrite hash_order_perm, list_elem_of_In, filter_In, <- list_elem_of_In.
    split; [done|]. apply negb_true_iff, not_true_iff_false. by rewrite dmem_spec.
Qed.

Record fleet_inv (n : nat) (c : DepotConfig) (f : fleet) : Prop := {
  fi_socs : forall k, k ∈ dkeys (f_socs f) <-> k ∈ dkeys (vehicle_capacities c);
  fi_avail : forall k, k ∈ dkeys (f_availability f) <-> k ∈ dkeys (vehicle_capacities c);
  fi_length : forall k l, (k, l) ∈ f_availability f -> length l = n
}.

(** An incoming vehicle that arrives at one of the timesteps. *)
Definition arrives (now : Z) (n : nat) (dt_h : Q) (iv : IncomingVehicle) : Prop :=
  dt_aware (iv_arrival_time iv) = true /\
  0 <= arrival_timestep dt_h now (dt_us (iv_arrival_time iv)) < Z.of_nat n.

Lemma dget_or_length n (dd : dict string (list bool)) k :
  (forall k l, (k, l) ∈ dd -> length l = n) ->
  length (dget_or dd k (replicate n false)) = n.
Proof.
  intros H. unfold dget_or. destruct (dd @? k) as [l|] eqn:E; cbn.
  - by eapply H, dget_Some_in.
  - apply length_replicate.
Qed.

Lemma integrate_incoming_run now n f iv s :
  ~ (delta_t (as_config s) == 0)%Q -> arrives now n (delta_t (as_config s)) iv ->
  integrate_incoming now n f iv s
  = (Ok {| f_socs := f_socs f +{ iv_vehicle_id iv := iv_expected_soc iv };
           f_availability := f_availability f
             +{ iv_vehicle_id iv :=
                  arrive_at (arrival_timestep (delta_t (as_config s)) now
                               (dt_us (iv_arrival_time iv)))
                    (dget_or (f_availability f) (iv_vehicle_id iv) (replicate n false)) } |},
     set_config (with_vehicle (as_config s)
                   (set_default (iv_vehicle_id iv) (iv_battery_kwh iv)
                      (vehicle_capacities (as_config s)))
                   (set_default (iv_vehicle_id iv) (iv_max_charge_kw iv)
                      (vehicle_max_charge_kw (as_config s)))) s).
Proof.
  intros Hd [Haw Har]. unfold integrate_incoming. cbn [bind get put]. rewrite Haw.
  cbn [negb delta_t with_vehicle]. apply Qeqb_neq in Hd. rewrite Hd. unfold ret.
  rewrite (proj2 (Z.leb_le _ _)), (proj2 (Z.ltb_lt _ _)) by lia. done.
Qed.

Lemma integrate_all now n l f s :
  ~ (delta_t (as_config s) == 0)%Q ->
  (forall iv, iv ∈ l -> arrives now n (delta_t (as_config s)) iv) ->
  fleet_inv n (as_config s) f ->
  exists f' s', mfold (integrate_incoming now n) f l s = (Ok f', s') /\
    fleet_inv n (as_config s') f' /\
    (exists caps kw, as_config s' = with_vehicle (as_config s) caps kw) /\
    (forall k, k ∈ dkeys (vehicle_capacities (as_config s')) <->
               k ∈ dkeys (vehicle_capacities (as_config s)) \/ k ∈ map iv_vehicle_id l).
Proof.
  revert f s. induction l as [|iv l IH]; intros f s Hd Har Hinv.
  { exists f, s. split_and!; [done..| |set_solver].
    exists (vehicle_capacities (as_config s)), (vehicle_max_charge_kw (as_config s)).
    by destruct (as_config s). }
  cbn [mfold]. erewrite bind_run by (apply integrate_incoming_run; [done | apply Har; left]).
  edestruct IH as (f' & s' & Hrun & Hinv' & (caps & kw & Hc) & Hk);
    [| | |exists f', s'; split_and!; [exact Hrun|exact Hinv'| |]].
  - done.
  - intros iv' Hiv'. apply Har. by right.
  - destruct Hinv as [H1 H2 H3].
    constructor; cbn [f_socs f_availability as_config set_config with_vehicle vehicle_capacities].
    + intros k. by rewrite dkeys_dset_iff, dkeys_set_default, H1.
    + intros k. by rewrite dkeys_dset_iff, dkeys_set_default, H2.
    + intros k l' [[-> ->]|Hin]%dset_elem; [|eauto].
      unfold arrive_at. rewrite length_imap. by apply dget_or_length.
  - exists caps, kw. by rewrite Hc.
  - intros k. rewrite Hk. cbn [f_socs f_availability as_config set_config with_vehicle vehicle_capacities].
    rewrite dkeys_set_default. cbn [map]. set_solver.
Qed.

Lemma mark_all_keys t0 dt l av k :
  k ∈ dkeys (foldl (mark_schedule t0 dt) av l) <-> k ∈ dkeys av.
Proof.
  revert av. induction l as [|s l IH]; intros av; cbn [foldl]; [done|]. rewrite IH.
  unfold mark_schedule. destruct (av @? s_vehicle_id s) as [b|] eqn:E; [|done].
  rewrite dkeys_dset_iff. split; [|by right]. intros [->|?]; [|done].
  apply dmem_spec. unfold dmem. by rewrite E.
Qed.

Lemma mark_all_length t0 dt n l av :
  (forall k b, (k, b) ∈ av -> length b = n) ->
  forall k b, (k, b) ∈ foldl (mark_schedule t0 dt) av l -> length b = n.
Proof.
  revert av. induction l as [|s l IH]; intros av Hav; cbn [foldl]; [done|]. apply IH.
  unfold mark_schedule. destruct (av @? s_vehicle_id s) as [b|] eqn:E; [|done].
  intros k b' [[-> ->]|Hin]%dset_elem; [|eauto].
  unfold mark_route. rewrite length_imap. by eapply Hav, dget_Some_in.
Qed.

Lemma initial_fleet_inv d `{!DbLaws d} c readings l start n :
  (forall k, k ∈ dkeys readings -> k ∈ dkeys (vehicle_capacities c)) ->
  fleet_inv n c {| f_socs := fill_socs d c readings;
                   f_availability := _compute_availability c l start n |}.
Proof.
  intros Hr. unfold _compute_availability.
  constructor; cbn [f_socs f_availability]; intros k.
  - rewrite fill_socs_keys by done. naive_solver.
  - rewrite mark_all_keys. unfold dkeys at 1. rewrite map_map. cbn. by rewrite map_id.
  - intros b Hin. eapply mark_all_length in Hin; [done|]. intros k' b' Hin'.
    apply list_elem_of_fmap in Hin' as (? & ? & _). simplify_eq. apply length_replicate.
Qed.

(** ** Timesteps *)

Lemma Qtrunc_integer q z : (q == inject_Z z)%Q -> Qtrunc q = z.
Proof.
  unfold Qeq, Qtrunc. cbn. intros H.
  replace (Qnum q) with (z * Z.pos (Qden q)) by lia. apply Z.quot_mul. lia.
Qed.

Lemma Qtrunc_range q n : (0 <= q)%Q -> (q < inject_Z n)%Q -> 0 <= Qtrunc q < n.
Proof.
  unfold Qle, Qlt, Qtrunc. cbn. intros H1 H2. split.
  - apply Z.quot_pos; lia.
  - apply Z.quot_lt_upper_bound; lia.
Qed.

Lemma steps_exact c h :
  (0 < delta_t c)%Q -> (inject_Z (Z.of_nat (n_timesteps c)) * delta_t c == inject_Z h)%Q ->
  steps_of c h = n_timesteps c.
Proof.
  intros Hd Hn. unfold steps_of. rewrite (Qtrunc_integer _ (Z.of_nat (n_timesteps c))); [lia|].
  rewrite <- Hn. field. lra.
Qed.

Lemma arrival_in_horizon dt_h now h n a :
  (0 < dt_h)%Q -> (inject_Z (Z.of_nat n) * dt_h == inject_Z h)%Q ->
  now <= a < now + h * hour_us -> 0 <= arrival_timestep dt_h now a < Z.of_nat n.
Proof.
  intros Hd Hn Ha. unfold arrival_timestep, total_seconds.
  set (x := inject_Z (a - now)).
  assert (0 <= x)%Q as Hx0 by (unfold x; change 0%Q with (inject_Z 0); rewrite <- Zle_Qle; lia).
  assert (x < inject_Z h * inject_Z hour_us)%Q as Hx1
    by (unfold x; rewrite <- inject_Z_mult, <- Zlt_Qlt; lia).
  change (inject_Z hour_us) with (3600000000 # 1)%Q in Hx1.
  change (inject_Z usec) with (1000000 # 1)%Q.
  apply Qtrunc_range.
  - apply Qle_shift_div_l; [lra|]. rewrite Qmult_0_l. apply Qle_shift_div_l; lra.
  - apply Qlt_shift_div_r; [lra|]. apply Qlt_shift_div_r; [lra|]. nra.
Qed.

(** ** Assembly succeeds and the optimiser accepts the result *)

(** The queries whose failure would propagate answer. *)
Record db_up (d : db) (now he : Z) : Prop := {
  up_ids : exists ids, q_vehicle_ids d = Ok ids;
  up_socs : forall ids, exists rows, q_freshest_socs d ids = Ok rows;
  up_manual : exists rows, q_manual d now he = Ok rows;
  up_recurring : exists rows, q_recurring d now he = Ok rows;
  up_vdv : exists rows, q_vdv463 d now he = Ok rows;
  up_peak : exists p, q_month_peak d = Ok p;
  up_price : exists p, q_price_demand d = Ok p;
  up_site : exists p, q_site_demand d = Ok p
}.

(** Every vehicle with a reading is configured. *)
Definition readings_configured (d : db) (c : DepotConfig) : Prop :=
  forall ids rows, q_freshest_socs d ids = Ok rows ->
  forall vid, vid ∈ map fst rows -> vid ∈ dkeys (vehicle_capacities c).

Definition returns {A} (m : M A) : Prop := forall s, exists a s', m s = (Ok a, s').

Lemma socs_of_rows_keys rows k : k ∈ dkeys (socs_of_rows rows) -> k ∈ map fst rows.
Proof.
  unfold socs_of_rows. induction rows as [|[vid o] rows IH] using rev_ind; [done|].
  rewrite foldl_snoc, map_app. destruct o as [q|]; cbn [map fst];
    [rewrite dkeys_dset_iff|]; set_solver.
Qed.

Lemma get_vehicle_socs_keys d c s r s' :
  readings_configured d c -> _get_vehicle_socs d s = (Ok r, s') ->
  forall k, k ∈ dkeys r -> k ∈ dkeys (vehicle_capacities c).
Proof.
  unfold _get_vehicle_socs. intros Hrc H k Hk.
  apply bind_Ok in H as (ids & s1 & _ & H). destruct ids as [|i ids].
  { injection H as <- <-. by apply not_elem_of_nil in Hk. }
  apply bind_Ok in H as (rows & s2 & Hq & H). injection H as <- <-.
  destruct (q_freshest_socs d (i :: ids)) as [rows'|] eqn:E; [|discriminate].
  injection Hq as <- <-. apply socs_of_rows_keys in Hk. eauto.
Qed.

Lemma get_vehicle_socs_returns d now he : db_up d now he -> returns (_get_vehicle_socs d).
Proof.
  intros [(ids & H1) H2 _ _ _ _ _ _] s. unfold _get_vehicle_socs. rewrite H1.
  destruct ids as [|i ids]; [by repeat eexists|]. destruct (H2 (i :: ids)) as [rows Hr].
  cbn. rewrite Hr. by repeat eexists.
Qed.

Lemma get_prices_returns d a b n : returns (_get_prices d a b n).
Proof.
  intros s. unfold _get_prices. cbn.
  destruct (bidding_zone_cache s) as [[[|? ?]|]|]; cbn; try (by repeat eexists).
  - destruct (q_prices _ _ _ _) as [[|[]]|]; by repeat eexists.
  - destruct (q_bidding_zone d) as [[[|? ?]|]|]; cbn; try (by repeat eexists).
    destruct (q_prices _ _ _ _) as [[|[]]|]; by repeat eexists.
Qed.

Lemma get_schedules_returns d now he :
  db_up d now he -> returns (_get_schedules d (aware_utc now) (aware_utc he)).
Proof.
  intros [_ _ (m & Hm) (r & Hr) _ _ _ _] s. unfold _get_schedules. cbn. rewrite Hm, Hr. cbn.
  destruct (fst r); [by repeat eexists|]. unfold _get_depot_timezone, bind at 1, bind at 1.
  cbn. destruct (depot_timezone_cache s); cbn; by repeat eexists.
Qed.

Lemma get_kwh_returns d now : returns (_get_cumulative_kwh_period d now).
Proof.
  intros s. unfold _get_cumulative_kwh_period. cbn.
  destruct (q_charger_ids d) as [[|]|]; [by repeat eexists| |by repeat eexists].
  destruct (q_period_kwh _ _ _ _); by repeat eexists.
Qed.

Lemma get_building_returns d a b n : n <> 0%nat -> returns (_get_building_power d a b n).
Proof.
  intros Hn s. apply Nat.eqb_neq in Hn. unfold _get_building_power, _get_building_power_forecast. cbn.
  destruct (0 <?q building_load_assumption_kw (as_config s)); [by repeat eexists|].
  destruct (q_building_load d a b) as [[|]|]; cbn; rewrite Hn; by repeat eexists.
Qed.

Lemma departures_return c l start :
  timedelta_hours (delta_t c) <> 0 -> exists deps, _compute_departure_times c l start = Ok deps.
Proof.
  intros Hdt. apply Z.eqb_neq in Hdt. unfold _compute_departure_times. rewrite Hdt. cbn.
  generalize ([] : dict string Z). induction l as [|s l IH]; intros acc; cbn; [by eexists|]. apply IH.
Qed.

Lemma incoming_arrive d `{!DbLaws d} c now h iv :
  (0 < delta_t c)%Q -> (inject_Z (Z.of_nat (n_timesteps c)) * delta_t c == inject_Z h)%Q ->
  iv ∈ _get_incoming_vehicles d now (now + h * hour_us) ->
  arrives now (n_timesteps c) (delta_t c) iv.
Proof.
  intros Hd Hn Hin. unfold _get_incoming_vehicles in Hin.
  destruct (q_incoming _ _ _) as [[|r0 rows]|] eqn:E; try (by apply not_elem_of_nil in Hin).
  destruct (q_external_ids _ _); [|by apply not_elem_of_nil in Hin].
  apply list_elem_of_fmap in Hin as (r & -> & Hr).
  destruct (incoming_window _ _ _ E r Hr) as [Haw Hw].
  split; [done|]. by eapply arrival_in_horizon.
Qed.

(** The static figures the optimiser requires of a configuration. *)
Record plant_ok (c : DepotConfig) : Prop := {
  po_vehicles : vehicle_capacities c <> [];
  po_groups : charger_groups c <> [];
  po_group_pos : forall kw n, (kw, n) ∈ charger_groups c -> (0 < kw)%Q /\ 0 < n;
  po_site : (0 < max_site_power c)%Q;
  po_eff : (0 < charger_efficiency c)%Q /\ (charger_efficiency c <= 1)%Q;
  po_batt_cap : (0 <= battery_capacity c)%Q;
  po_batt_pow : (0 <= battery_power c)%Q
}.

Section Accepted.
Context (d : db) `{!DbLaws d} (now h : Z) (s : assembler).
Let c := as_config s.
Hypothesis Hh : 0 < h <= 48.
Hypothesis Hdt : (0 < delta_t c)%Q.
Hypothesis Hn : (inject_Z (Z.of_nat (n_timesteps c)) * delta_t c == inject_Z h)%Q.
Hypothesis Hrc : readings_configured d c.

Lemma timesteps_pos : n_timesteps c <> 0%nat.
Proof.
  intros E. rewrite E in Hn. change (inject_Z (Z.of_nat 0)) with 0%Q in Hn.
  rewrite Qmult_0_l in Hn. apply (inject_Z_injective 0 h) in Hn. lia.
Qed.

(** The incoming vehicles of the horizon can be integrated. *)
Lemma incoming_integrate s1 readings acc s0 s2 :
  as_config s1 = c -> _get_vehicle_socs d s0 = (Ok readings, s2) ->
  exists f s', mfold (integrate_incoming now (n_timesteps c))
      {| f_socs := fill_socs d c readings;
         f_availability := _compute_availability c (merged_schedules acc) (aware_utc now)
                             (n_timesteps c) |}
      (_get_incoming_vehicles d now (now + h * hour_us)) s1 = (Ok f, s') /\
    fleet_inv (n_timesteps c) (as_config s') f /\
    (exists caps kw, as_config s' = with_vehicle c caps kw) /\
    (forall k, k ∈ dkeys (vehicle_capacities c) -> k ∈ dkeys (vehicle_capacities (as_config s'))).
Proof.
  intros Hc Hr. rewrite <- Hc. edestruct integrate_all as (f & s' & H1 & H2 & H3 & H4);
    [| | |exists f, s'; split_and!; [exact H1 | exact H2 | exact H3 |]].
  - rewrite Hc. lra.
  - intros iv Hin. rewrite Hc. by apply (incoming_arrive d c now h).
  - rewrite Hc. apply initial_fleet_inv; [done|]. eauto using get_vehicle_socs_keys.
  - intros k Hk. apply H4. by left.
Qed.

Lemma get_current_state_returns :
  db_up d now (now + h * hour_us) -> timedelta_hours (delta_t c) <> 0 ->
  exists st s', get_current_state d now h s = (Ok st, s').
Proof.
  intros Hup Hus. pose proof timesteps_pos as Hpos. unfold get_current_state.
  rewrite (proj2 (Z.leb_gt _ _)), (proj2 (Z.ltb_ge _ _)) by lia. cbn [orb].
  rewrite (bind_run _ _ _ c s) by done.
  assert ((delta_t c =?q 0)%Q = false) as -> by (apply Qeqb_neq; lra).
  change (Z.to_nat (Qtrunc (inject_Z h / delta_t c))) with (steps_of c h).
  rewrite (steps_exact c h) by done.
  destruct (get_vehicle_socs_returns _ _ _ Hup s) as (r & s1 & E1). rewrite (bind_run _ _ _ _ _ E1).
  edestruct get_prices_returns as (p & s2 & E2). rewrite (bind_run _ _ _ _ _ E2).
  destruct (get_schedules_returns _ _ _ Hup s2) as (t & s3 & E3). rewrite (bind_run _ _ _ _ _ E3).
  rewrite (bind_run _ _ _ s3 s3) by done. erewrite bind_run by reflexivity.
  destruct Hup as [_ _ _ _ [v Hv] [pk Hpk] [pp Hpp] [sp Hsp]].
  erewrite bind_run by (unfold _get_vdv463_charging_requests; by rewrite Hv).
  destruct (departures_return c (merged_schedules (_merge_vdv463_into_schedules t v))
              (aware_utc now) Hus) as [deps Hdeps].
  erewrite bind_run by (unfold lift; by rewrite Hdeps).
  erewrite bind_run by (unfold _get_current_month_peak; cbn; by rewrite Hpk).
  assert (returns (_get_demand_charge_rate d)) as Hrate.
  { intros x. unfold _get_demand_charge_rate. cbn. rewrite Hpp. destruct pp; [by repeat eexists|].
    cbn. rewrite Hsp. destruct sp; by repeat eexists. }
  edestruct Hrate as (rt & s4 & E4). rewrite (bind_run _ _ _ _ _ E4).
  assert (returns (if String.eqb (tariff_type c) "energy_cap"
                   then _get_cumulative_kwh_period d now else ret 0%Q)) as Hkwh
    by (intros x; destruct (String.eqb _ _); [apply get_kwh_returns | by repeat eexists]).
  destruct (Hkwh s4) as (k & s5 & E5). rewrite (bind_run _ _ _ _ _ E5).
  destruct (get_building_returns d now (now + h * hour_us) _ Hpos s5) as (b & s6 & E6).
  rewrite (bind_run _ _ _ _ _ E6). rewrite (bind_run _ _ _ s6 s6) by done.
  erewrite bind_run by reflexivity.
  edestruct incoming_integrate as (f & s' & Hf & _); [|exact E1|].
  2:{ erewrite bind_run by exact Hf. by repeat eexists. }
  cbn. rewrite (frame_step _ _ _ _ (get_building_frame _ _ _ _) E6).
  assert (as_config s5 = as_config s4) as ->
    by (destruct (String.eqb _ _); [by apply (frame_step _ _ _ _ (get_kwh_frame _ _) E5)
                                   | by injection E5 as _ <-]).
  rewrite (frame_step _ _ _ _ (get_rate_frame _) E4). cbn.
  by rewrite (frame_step _ _ _ _ (get_schedules_frame _ _ _) E3),
    (frame_step _ _ _ _ (get_prices_frame _ _ _ _) E2),
    (frame_step _ _ _ _ (get_vehicle_socs_frame _) E1).
Qed.

Lemma assembled_valid st s' :
  plant_ok c -> get_current_state d now h s = (Ok st, s') -> valid_inputs st (as_config s').
Proof.
  intros [Hv Hg Hgp Hs He Hbc Hbp] H.
  apply get_current_state_Ok in H as (readings & acc & s1 & []).
  fold c in am_prices0, am_building0, am_before0, am_fleet0. clear am_departures0.
  rewrite (steps_exact c h) in am_prices0, am_building0, am_fleet0 by done.
  destruct am_readings0 as (s0 & s2 & Hr). rewrite am_incoming0 in am_fleet0.
  destruct (incoming_integrate _ _ acc _ _ am_before0 Hr) as (f & sf & Hf & Hinv & (caps & kw & Hc) & Hk).
  fold c in Hf. rewrite am_fleet0 in Hf. injection Hf as <- <-.
  destruct Hinv as [H1 H2 H3]. cbn [f_socs f_availability] in *.
  assert (n_timesteps (as_config s') = n_timesteps c) as Hnt by (by rewrite Hc).
  assert (exists k, k ∈ dkeys (vehicle_capacities c)) as [k0 Hk0].
  { destruct (vehicle_capacities c) as [|[k0 v0] l]; [done|]. exists k0. left. }
  constructor; rewrite ?Hnt; try done; try (rewrite Hc; done).
  - intros E. apply Hk, H1 in Hk0. rewrite E in Hk0. by apply not_elem_of_nil in Hk0.
  - intros k. by rewrite H1, H2.
Qed.
End Accepted.

(** C5: When the queries whose errors propagate answer, every vehicle with a reading is
    configured, the plant figures are sound and the horizon is the configured number of
    timesteps, get_current_state returns a state, and the optimiser's validation accepts
    it together with the configuration as assembly leaves it, incoming vehicles
    included. *)
Theorem assembled_state_accepted d `{!DbLaws d} now h s :
  let c := as_config s in
  db_up d now (now + h * hour_us) -> readings_configured d c -> plant_ok c ->
  0 < h <= 48 -> (0 < delta_t c)%Q -> timedelta_hours (delta_t c) <> 0 ->
  (inject_Z (Z.of_nat (n_timesteps c)) * delta_t c == inject_Z h)%Q ->
  exists st s', get_current_state d now h s = (Ok st, s') /\
                _validate_inputs st (as_config s') = Ok tt.
Proof.
  intros c Hup Hrc Hpl Hh Hd Hus Hn.
  destruct (get_current_state_returns d now h s) as (st & s' & Hst); [done..|].
  exists st, s'. split; [done|]. apply validate_inputs_complete.
  by apply (assembled_valid d now h s).
Qed.

(** ** Horizons other than the configured one *)

Lemma mfold_timesteps now n f l s f' s' :
  mfold (integrate_incoming now n) f l s = (Ok f', s') ->
  n_timesteps (as_config s') = n_timesteps (as_config s) /\
  (forall k, k ∈ dkeys (vehicle_capacities (as_config s)) \/ k ∈ map iv_vehicle_id l ->
             k ∈ dkeys (vehicle_capacities (as_config s'))).
Proof.
  revert f s. induction l as [|iv l IH]; intros f s H.
  { injection H as <- <-. split; [done|]. set_solver. }
  apply bind_Ok in H as (f1 & s1 & H1 & H). apply IH in H as [-> Hk].
  unfold integrate_incoming in H1. cbn [bind get put] in H1.
  destruct (negb _); [discriminate|]. destruct (_ =?q _)%Q; [discriminate|].
  injection H1 as _ <-. split; [done|]. intros k Hin. apply Hk.
  cbn [as_config set_config with_vehicle vehicle_capacities]. rewrite dkeys_set_default.
  cbn [map] in Hin. set_solver.
Qed.

(** With a configuration loaded from the database, a state assembled for any horizon
    other than 24 hours is rejected by the optimiser's validation: its series do not
    have the configuration's fixed 96 timesteps. *)
Theorem other_horizons_rejected depot vehicles chargers battery ids access c tags d now h s st s' :
  load_depot_config depot vehicles chargers battery ids access = Ok (c, tags) ->
  as_config s = c -> h <> 24 -> get_current_state d now h s = (Ok st, s') ->
  _validate_inputs st (as_config s')
  = Err (InvalidStateError (match vehicle_socs st with [] => "vehicle_socs" | _ => "prices" end)).
Proof.
  intros Hload Hc Hne H.
  assert (delta_t c = (1 # 4)%Q /\ n_timesteps c = 96%nat) as [Hdt Hnt].
  { unfold load_depot_config in Hload. destruct depot; [|discriminate].
    apply rbind_Ok in Hload as (? & _ & Hload). apply rbind_Ok in Hload as ([] & _ & Hload).
    apply rbind_Ok in Hload as ([] & _ & Hload). apply rbind_Ok in Hload as ([[[[]]]] & _ & Hload).
    apply rbind_Ok in Hload as (? & _ & Hload). by injection Hload as <- _. }
  apply get_current_state_Ok in H as (readings & acc & s1 & []).
  apply mfold_timesteps in am_fleet0 as [Hns _]. rewrite am_before0, Hc, Hnt in Hns.
  rewrite Hc in am_prices0. unfold steps_of in am_prices0.
  rewrite Hdt, (Qtrunc_integer _ (4 * h)) in am_prices0
    by (rewrite inject_Z_mult; change (inject_Z 4) with 4%Q; field).
  unfold _validate_inputs. rewrite Hns, am_prices0.
  destruct (vehicle_socs st); [done|]. cbn [raise_if rbind].
  rewrite (proj2 (Nat.eqb_neq _ _)) by lia. done.
Qed.

(** ** Incoming vehicles stay in the shared configuration *)

Lemma mfold_others now n f l s f' s' k :
  k ∉ map iv_vehicle_id l -> mfold (integrate_incoming now n) f l s = (Ok f', s') ->
  f_socs f' @? k = f_socs f @? k /\ f_availability f' @? k = f_availability f @? k.
Proof.
  revert f s. induction l as [|iv l IH]; intros f s Hk H.
  { injection H as <- <-. done. }
  apply bind_Ok in H as (f1 & s1 & H1 & H).
  cbn [map] in Hk. apply not_elem_of_cons in Hk as [Hne Hk]. apply IH in H as [-> ->]; [|done].
  unfold integrate_incoming in H1. cbn [bind get put] in H1.
  destruct (negb _); [discriminate|]. destruct (_ =?q _)%Q; [discriminate|].
  injection H1 as <- _. cbn [f_socs f_availability]. split; [by rewrite dget_dset_ne|].
  destruct (_ && _); [|done]. by rewrite dget_dset_ne.
Qed.

(** An incoming vehicle integrated by one assembly stays in the shared configuration: a
    later assembly in which it has no reading, no trip and no announced arrival still
    lists it, with the default state of charge 0.5 and available at every timestep. *)
Theorem incoming_vehicle_stays d1 now1 h1 s st1 s1 iv d2 `{!DbLaws d2} now2 h2 st2 s2 :
  let vid := iv_vehicle_id iv in
  get_current_state d1 now1 h1 s = (Ok st1, s1) -> iv ∈ incoming_vehicles st1 ->
  get_current_state d2 now2 h2 s1 = (Ok st2, s2) ->
  (forall ids rows, q_freshest_socs d2 ids = Ok rows -> vid ∉ map fst rows) ->
  vid ∉ map iv_vehicle_id (incoming_vehicles st2) ->
  departure_times st2 @? vid = None ->
  vehicle_socs st2 @? vid = Some (1 # 2)%Q /\
  vehicle_availability st2 @? vid
  = Some (replicate (steps_of (as_config s1) h2) true).
Proof.
  intros vid Hst1 Hiv Hst2 Hr Hni Hdep.
  apply get_current_state_Ok in Hst1 as (r1 & acc1 & sa & []).
  assert (vid ∈ dkeys (vehicle_capacities (as_config s1))) as Hcap.
  { apply mfold_timesteps in am_fleet0 as [_ Hk]. apply Hk. right.
    apply list_elem_of_fmap. by exists iv. }
  clear dependent r1. clear dependent acc1.
  apply get_current_state_Ok in Hst2 as (r2 & acc2 & sb & [? ? ? ? Hrd Hacc Hdp ? Hin ? Hf]).
  destruct (mfold_others _ _ _ _ _ _ _ _ Hni Hf) as [Hsoc Hav].
  cbn [f_socs f_availability] in Hsoc, Hav. rewrite Hsoc, Hav. split.
  - apply fill_socs_default; [done..|]. intros Hk. destruct Hrd as (x & y & Hrd).
    unfold _get_vehicle_socs in Hrd. apply bind_Ok in Hrd as (ids & z & _ & Hrd).
    destruct ids as [|i ids]; [injection Hrd as <- _; by apply not_elem_of_nil in Hk|].
    apply bind_Ok in Hrd as (rows & z' & Hq & Hrd). injection Hrd as <- _.
    destruct (q_freshest_socs d2 (i :: ids)) as [rows'|] eqn:E; [|discriminate].
    injection Hq as <- _. by apply (Hr _ _ E), socs_of_rows_keys.
  - destruct Hacc as (trips & reqs & -> & _).
    destruct (tables_of_entry _ trips reqs (aware_utc now2) (steps_of (as_config s1) h2)
                _ vid Hdp) as (Hd & _ & Ha).
    rewrite Hdep in Hd. rewrite (Ha Hcap).
    destruct (last_entry vid trips reqs); [discriminate|].
    by rewrite map_const_seq.
Qed.

(** ** The optimiser sees one entry per vehicle *)

(** In an assembled state each vehicle's departure timestep, energy requirement and
    availability are those of exactly one schedule entry: its last complete VDV 463
    request, else the last of its trips in the horizon; earlier trips have no effect,
    and a vehicle with no entry is always available and has no departure. *)
Theorem schedule_is_last_entry d now h s st s' :
  let c := as_config s in
  let he := now + h * hour_us in
  let dt := timedelta_hours (delta_t c) in
  get_current_state d now h s = (Ok st, s') ->
  exists trips reqs,
    (exists sa sb, _get_schedules d (aware_utc now) (aware_utc he) sa = (Ok trips, sb)) /\
    (exists sa sb, _get_vdv463_charging_requests d now he sa = (Ok reqs, sb)) /\
    forall vid,
      departure_times st @? vid
      = option_map (fun e => Z.quot (dep_us e - now) dt) (last_entry vid trips reqs) /\
      energy_requirements st @? vid
      = option_map (fun e => energy_or_default (Some (s_energy e))) (last_entry vid trips reqs) /\
      (vid ∈ dkeys (vehicle_capacities c) -> vid ∉ map iv_vehicle_id (incoming_vehicles st) ->
       vehicle_availability st @? vid
       = Some (map (fun t => match last_entry vid trips reqs with
                             | Some e => negb (on_route e (now + Z.of_nat t * dt))
                             | None => true
                             end) (seq 0 (steps_of c h)))).
Proof.
  intros c he dt H. apply get_current_state_Ok in H as (r & acc & s1 & []).
  destruct am_acc0 as (trips & reqs & -> & Ht & Hq). exists trips, reqs. split_and!; [done..|].
  intros vid. destruct (tables_of_entry _ trips reqs (aware_utc now) (steps_of c h) _ vid
                          am_departures0) as (H1 & H2 & H3).
  split_and!; [exact H1 | by rewrite am_energy0 |]. intros Hc Hni.
  destruct (mfold_others _ _ _ _ _ _ _ _ Hni am_fleet0) as [_ Hav].
  cbn [f_availability] in Hav. rewrite Hav. by apply H3.
Qed.

(** A request that asks for arrival before departure, as VDV 463 requests do,
    never makes its vehicle unavailable: not before it arrives, nor after it
    leaves. *)
Theorem vdv_vehicle_never_away c trips reqs start n deps vid r e :
  let l := merged_schedules (_merge_vdv463_into_schedules trips (reqs ++ [r])) in
  vr_vehicle_id r = vid -> entry_of_request r = Some e -> ret_us e <= dep_us e ->
  vid ∈ dkeys (vehicle_capacities c) -> _compute_departure_times c l start = Ok deps ->
  _compute_availability c l start n @? vid = Some (replicate n true).
Proof.
  intros l Hv Hr Hle Hc Hd.
  destruct (tables_of_entry _ trips (reqs ++ [r]) start n _ vid Hd) as (_ & _ & Ha).
  unfold l. rewrite (Ha Hc). f_equal. rewrite <- (map_const_seq true n). apply map_ext. intros t.
  unfold last_entry. rewrite last_omap_snoc, Hv, String.eqb_refl, Hr. unfold on_route.
  destruct (dep_us e <=? _) eqn:E; [|done]. cbn.
  apply Z.leb_le in E. apply negb_true_iff, Z.ltb_ge. lia.
Qed.

(** ** Prices *)

(** The price of an hour: the latest priced row at most [window] old. *)
Definition hour_price (rows : list (Z * option Q)) (window hour : Z) : option Q :=
  last (map snd (List.filter (fun '(ts, _) => (ts <=? hour) && (hour - ts <=? window))
                   (known_prices rows))).


Lemma fill_candidate_spec window hour known cand :
  StronglySorted (fun a b => fst a <= fst b) known ->
  fill_candidate window hour cand known
  = match last (map snd (List.filter (fun '(ts, _) => (ts <=? hour) && (hour - ts <=? window))
                           known)) with
    | Some p => Some p
    | None => cand
    end.
Proof.
  intros Hs. revert cand. induction Hs as [|[ts p] known Hs IH Hf]; intros cand; [done|].
  cbn [fill_candidate List.filter]. destruct ((ts <=? hour) && (hour - ts <=? window)) eqn:E.
  - rewrite IH. cbn [map snd]. rewrite last_cons. by destruct (last _).
  - destruct (hour <? ts) eqn:El; [|apply IH].
    apply Z.ltb_lt in El. rewrite filter_none; [done|].
    intros [ts' p'] Hin. rewrite Forall_forall in Hf. specialize (Hf _ Hin). cbn in Hf.
    rewrite (proj2 (Z.leb_gt _ _)) by lia. done.
Qed.

Lemma known_prices_sorted rows :
  StronglySorted (fun a b => fst a <= fst b) rows ->
  StronglySorted (fun a b => fst a <= fst b) (known_prices rows).
Proof.
  induction 1 as [|[ts o] rows Hs IH Hf]; [constructor|].
  unfold known_prices in *. cbn [omap list_omap]. destruct o as [q|]; [|done].
  constructor; [done|]. apply Forall_forall. intros [ts' p'] Hin.
  apply list_elem_of_omap in Hin as ([ts1 [q1|]] & Hin1 & E); simplify_eq.
  apply (proj1 (Forall_forall _ _) Hf _ Hin1).
Qed.

Lemma fill_fold_get (g : Z -> option Q) l acc k :
  foldl (fun filled c => match g c with Some p => filled +{ c := p } | None => filled end) acc l @? k
  = if decide (k ∈ l) then match g k with Some p => Some p | None => acc @? k end else acc @? k.
Proof.
  revert acc. induction l as [|c l IH]; intros acc; cbn [foldl].
  { by rewrite decide_False by set_solver. }
  rewrite IH. destruct (decide (k = c)) as [->|Hne].
  - rewrite (decide_True (P := c ∈ c :: l)) by left.
    destruct (g c); case_decide; rewrite ?dget_dset_eq; done.
  - assert (forall p, (acc +{ c := p }) @? k = acc @? k) as Hp
      by (intros; by rewrite dget_dset_ne).
    destruct (decide (k ∈ l)); destruct (decide (k ∈ c :: l)); try set_solver;
      destruct (g c); rewrite ?Hp; done.
Qed.

Lemma fetch_prices_unfold rows a b w :
  fetch_prices_by_zone rows a b w
  = foldl (fun filled c => match fill_candidate w c None (known_prices rows) with
                           | Some p => filled +{ c := p } | None => filled end) [] (cursors a b).
Proof.
  unfold fetch_prices_by_zone. destruct (known_prices rows); [|done].
  induction (cursors a b) as [|c l IH]; [done|]. exact IH.
Qed.

Lemma fetch_prices_get rows a b w hour :
  StronglySorted (fun x y => fst x <= fst y) rows -> hour ∈ cursors a b ->
  fetch_prices_by_zone rows a b w @? hour = hour_price rows w hour.
Proof.
  intros Hs%known_prices_sorted Hin. rewrite fetch_prices_unfold.
  rewrite (fill_fold_get (fun c => fill_candidate w c None (known_prices rows))).
  rewrite decide_True, fill_candidate_spec by done. unfold hour_price. by destruct (last _).
Qed.

Lemma hour_us_pos : 0 < hour_us.
Proof. reflexivity. Qed.

Lemma cursors_elem a b k :
  k ∈ cursors a b <-> exists i, 0 <= i /\ k = _hour_floor_utc a + i * hour_us /\ k < b.
Proof.
  pose proof hour_us_pos as Hp. unfold cursors. rewrite list_elem_of_fmap.
  set (f := _hour_floor_utc a). set (q := (b - f + hour_us - 1) / hour_us).
  assert (forall i, i < q <-> f + i * hour_us < b) as Hq.
  { intros i. assert (hour_us * q <= b - f + hour_us - 1 < hour_us * q + hour_us) as Hb
      by (unfold q; pose proof (Z.div_mod (b - f + hour_us - 1) hour_us ltac:(lia));
          pose proof (Z.mod_pos_bound (b - f + hour_us - 1) hour_us Hp); lia).
    split; intros; nia. }
  split.
  - intros (i & -> & Hi). apply elem_of_seq_0 in Hi. exists (Z.of_nat i).
    split_and!; [lia | done |]. apply Hq. lia.
  - intros (i & Hi & -> & Hlt). apply Hq in Hlt. exists (Z.to_nat i).
    split; [f_equal; lia|]. apply elem_of_seq_0. lia.
Qed.

Lemma hour_floor_cursor a b u : a <= u < b -> _hour_floor_utc u ∈ cursors a b.
Proof.
  intros Hu. pose proof hour_us_pos as Hp. apply cursors_elem. unfold _hour_floor_utc.
  exists (u / hour_us - a / hour_us).
  pose proof (Z.div_mod u hour_us ltac:(lia)). pose proof (Z.div_mod a hour_us ltac:(lia)).
  pose proof (Z.mod_pos_bound u hour_us Hp). pose proof (Z.div_le_mono a u hour_us Hp ltac:(lia)).
  split_and!; [lia | nia | lia].
Qed.

(** Keys of the map are whole hours apart from any whole hour. *)
Lemma fetched_key_aligned rows a b w k :
  k ∈ dkeys (fetch_prices_by_zone rows a b w) -> k mod hour_us = 0.
Proof.
  intros Hk. assert (k ∈ cursors a b) as Hc.
  { rewrite fetch_prices_unfold in Hk. apply dmem_spec in Hk. unfold dmem in Hk.
    rewrite (fill_fold_get (fun c => fill_candidate w c None (known_prices rows))) in Hk.
    by case_decide. }
  apply cursors_elem in Hc as (i & _ & -> & _). unfold _hour_floor_utc.
  pose proof hour_us_pos. rewrite Z.mod_add by lia. rewrite Zminus_mod_idemp_r, Z.sub_diag. done.
Qed.

Lemma nearest_elem t best keys : nearest t best keys ∈ best :: keys.
Proof.
  revert best. induction keys as [|k keys IH]; intros best; cbn; [left|].
  specialize (IH (if Z.abs (k - t) <? Z.abs (best - t) then k else best)).
  destruct (_ <? _); set_solver.
Qed.

Lemma step_price_fetched rows a b w u :
  StronglySorted (fun x y => fst x <= fst y) rows -> a <= u < b ->
  step_price (fetch_prices_by_zone rows a b w) u
  = default default_price_kwh (hour_price rows w (_hour_floor_utc u)).
Proof.
  intros Hs Hu. unfold step_price.
  rewrite (fetch_prices_get _ _ _ _ _ Hs (hour_floor_cursor _ _ _ Hu)).
  destruct (hour_price rows w (_hour_floor_utc u)) eqn:E; [done|]. cbn.
  destruct (dkeys (fetch_prices_by_zone rows a b w)) as [|k keys] eqn:Ek; [done|].
  destruct (Z.ltb_spec (Z.abs (nearest (_hour_floor_utc u) k keys - _hour_floor_utc u)) hour_us)
    as [Hlt|]; [|done].
  exfalso. pose proof (nearest_elem (_hour_floor_utc u) k keys) as Hn. rewrite <- Ek in Hn.
  pose proof (fetched_key_aligned _ _ _ _ _ Hn) as Ha. pose proof hour_us_pos as Hp.
  set (x := nearest _ _ _) in *.
  assert (x = _hour_floor_utc u) as Hx.
  { unfold _hour_floor_utc in *. pose proof (Z.div_mod x hour_us ltac:(lia)).
    pose proof (Z.div_mod u hour_us ltac:(lia)).
    assert (u - u mod hour_us = hour_us * (u / hour_us)) as Hf by lia. rewrite Hf in *.
    assert (x = hour_us * (x / hour_us)) as Hxx by lia.
    assert (x / hour_us = u / hour_us) as Hd by nia. by rewrite Hxx, Hd. }
  rewrite Hx in Hn. apply dmem_spec in Hn. unfold dmem in Hn.
  by rewrite (fetch_prices_get _ _ _ _ _ Hs (hour_floor_cursor _ _ _ Hu)), E in Hn.
Qed.

(** With a resolved bidding zone, the price of a timestep is that of the latest priced
    row at most one hour before the step's hour, and 0.15 when there is none: no price
    carries over a longer gap, and the nearest-hour fallback never applies. *)
Theorem prices_forward_filled d s zone rows now he n t :
  let u := now + Z.of_nat t * timedelta_hours (delta_t (as_config s)) in
  bidding_zone_cache s = Some (Some zone) -> zone <> ""%string ->
  q_prices d zone now he = Ok (fetch_prices_by_zone rows now he hour_us) ->
  StronglySorted (fun x y => fst x <= fst y) rows ->
  (t < n)%nat -> now <= u < he ->
  exists l, _get_prices d (aware_utc now) (aware_utc he) n s = (Ok l, s) /\
    l !! t = Some (default default_price_kwh (hour_price rows hour_us (_hour_floor_utc u))).
Proof.
  intros u Hz Hne Hq Hs Ht Hu. unfold _get_prices. cbn. rewrite Hz.
  destruct zone as [|ch z]; [done|]. rewrite Hq. unfold u in *. clear u.
  pose proof (step_price_fetched rows now he hour_us _ Hs Hu) as Hp.
  destruct (fetch_prices_by_zone rows now he hour_us) as [|kv m] eqn:E.
  - eexists. split; [done|]. rewrite lookup_replicate_2 by done. by rewrite <- Hp.
  - eexists. split; [done|]. change (map ?f ?l) with (f <$> l).
    rewrite list_lookup_fmap, lookup_seq_lt by done. cbn [fmap option_fmap option_map plus].
    by rewrite <- Hp.
Qed.

(** ** Chargers of a loaded configuration *)

Definition has_rating (kw : Q) (groups : list (Q * Z)) : bool :=
  existsb (fun '(k, _) => (k =?q kw)%Q) groups.

Definition total (groups : list (Q * Z)) : Z := Zsum (map snd groups).

Lemma group_set_total kw n groups :
  0 < n -> (forall k m, (k, m) ∈ groups -> 0 < m) ->
  total (group_set kw n groups) <= total groups + n /\
  (total (group_set kw n groups) = total groups + n <-> has_rating kw groups = false) /\
  (forall k m, (k, m) ∈ group_set kw n groups -> 0 < m) /\
  (forall x, has_rating x (group_set kw n groups) = has_rating x groups || (kw =?q x)%Q).
Proof.
  intros Hn. unfold total, Zsum. induction groups as [|[k m] groups IH]; intros Hg.
  { cbn. split_and!; [lia | split; [done|lia] | |].
    - intros k' m' Hin. apply list_elem_of_singleton in Hin. by simplify_eq.
    - intros x. by rewrite orb_false_r. }
  assert (0 < m) as Hm by (apply (Hg k); left).
  destruct IH as (IH1 & IH2 & IH3 & IH4); [intros; eapply Hg; right; eassumption|].
  cbn [group_set has_rating existsb]. destruct (k =?q kw)%Q eqn:E; cbn.
  - split_and!; [lia | split; [lia|done] | |].
    + intros k' m' [?|?]%elem_of_cons; simplify_eq; [done|]. eapply Hg. by right.
    + intros x. apply Qeqb_eq in E. destruct (k =?q x)%Q eqn:Ex; [done|]. cbn.
      assert ((kw =?q x)%Q = false) as ->; [|by rewrite orb_false_r].
      apply Qeqb_neq. apply Qeqb_neq in Ex. by rewrite <- E.
  - fold (has_rating kw groups). split_and!; [lia | rewrite <- IH2; lia | |].
    + intros k' m' [?|?]%elem_of_cons; simplify_eq; [done|]. eauto.
    + intros x. fold (has_rating x (group_set kw n groups)) (has_rating x groups).
      rewrite IH4. by rewrite orb_assoc.
Qed.

Definition add_group (groups : list (Q * Z)) (p : Q * Z) : list (Q * Z) :=
  group_set (fst p) (snd p) groups.

Lemma add_groups_total l groups :
  (forall k m, (k, m) ∈ l -> 0 < m) -> (forall k m, (k, m) ∈ groups -> 0 < m) ->
  total (foldl add_group groups l) <= total groups + total l /\
  (total (foldl add_group groups l) = total groups + total l <->
   ForallOrdPairs (fun x y => ~ (fst x == fst y)%Q) l /\
   Forall (fun x => has_rating (fst x) groups = false) l).
Proof.
  revert groups. induction l as [|[kw n] l IH]; intros groups Hl Hg.
  { cbn. unfold total, Zsum. cbn. split; [lia|]. split; [|lia]. split; constructor. }
  assert (0 < n) as Hn by (apply (Hl kw); left).
  destruct (group_set_total kw n groups Hn Hg) as (G1 & G2 & G3 & G4).
  destruct (IH (group_set kw n groups)) as [I1 I2];
    [intros; eapply Hl; right; eassumption | done |].
  cbn [foldl]. unfold add_group at 2 4. cbn [fst snd].
  assert (total ((kw, n) :: l) = n + total l) as -> by done. split; [lia|].
  transitivity (total (foldl add_group (group_set kw n groups) l)
                = total (group_set kw n groups) + total l
                /\ total (group_set kw n groups) = total groups + n); [lia|].
  rewrite I2, G2. split.
  - intros [[Ho Hf] Hk]. split.
    + constructor; [|done]. eapply Forall_impl; [exact Hf|]. intros [k m]. cbn.
      rewrite G4, orb_false_iff. intros [_ Hne]. by apply Qeqb_neq.
    + constructor; [done|]. eapply Forall_impl; [exact Hf|]. intros [k m]. cbn.
      rewrite G4, orb_false_iff. by intros [? _].
  - intros [Ho Hf]. apply Forall_cons in Hf as [Hk Hf]. cbn in Hk.
    inversion Ho as [|? ? Hd Ho']; subst. split_and!; [done| |done].
    rewrite Forall_forall in Hd, Hf |- *. intros [k m] Hin. cbn. rewrite G4.
    specialize (Hf _ Hin). specialize (Hd _ Hin). cbn in Hf, Hd. rewrite Hf. by apply Qeqb_neq.
Qed.

(** The (rating, count) pairs of the rows. *)
Definition rated (rows : list charger_row) : list (Q * Z) :=
  omap (fun r => option_map (fun kw => (kw, cw_count r)) (cw_rated_kw r)) rows.

Lemma load_chargers_groups rows groups eff :
  rows <> [] -> load_chargers rows = Ok (groups, eff) ->
  groups = foldl add_group [] (rated rows) /\
  Zsum (map cw_count rows) = total (rated rows).
Proof.
  intros Hne H. unfold load_chargers in H. destruct rows as [|r0 rows0]; [done|].
  revert H. generalize (r0 :: rows0). clear. intros rows H.
  apply rbind_Ok in H as ([gs e] & H & Heq). cbn in Heq. injection Heq as <- _.
  revert H. generalize (None : option Q). generalize ([] : list (Q * Z)).
  induction rows as [|r rows IH]; intros g e0 H; cbn in H.
  { injection H as <- <-. done. }
  apply rbind_Ok in H as ([g1 e1] & H1 & H). apply rbind_Ok in H1 as (kw & Hkw & H1).
  unfold or_value_error in Hkw. unfold rated. cbn [omap list_omap].
  destruct (cw_rated_kw r) as [kw'|]; [|discriminate]. injection Hkw as ->. cbn [option_map].
  assert (g1 = group_set kw (cw_count r) g) as ->.
  { destruct e0; [by injection H1 as <- _|]. apply rbind_Ok in H1 as (? & _ & H1).
    by injection H1 as <- _. }
  destruct (IH _ _ H) as [-> Hs]. split; [done|].
  unfold total, Zsum in *. cbn. unfold rated in Hs. by rewrite Hs.
Qed.

(** The number of chargers of a loaded configuration is at most the number of chargers
    in the database, and equals it exactly when no two groups of rows share a rating:
    groups of equal rating and different efficiency overwrite each other. *)
Theorem charger_groups_lose_duplicates depot vehicles chargers battery ids access c tags :
  load_depot_config depot vehicles chargers battery ids access = Ok (c, tags) ->
  chargers <> [] -> (forall r, r ∈ chargers -> 0 < cw_count r) ->
  n_chargers c <= Zsum (map cw_count chargers) /\
  (n_chargers c = Zsum (map cw_count chargers) <->
   ForallOrdPairs (fun x y => ~ (fst x == fst y)%Q) (rated chargers)).
Proof.
  intros H Hne Hpos. unfold load_depot_config in H. destruct depot; [|discriminate].
  apply rbind_Ok in H as (? & _ & H). apply rbind_Ok in H as ([] & _ & H).
  apply rbind_Ok in H as ([groups eff] & Hc & H). apply rbind_Ok in H as ([[[[]]]] & _ & H).
  apply rbind_Ok in H as (? & _ & H). injection H as <- _. unfold n_chargers. cbn [charger_groups].
  destruct (load_chargers_groups _ _ _ Hne Hc) as [-> ->].
  destruct (add_groups_total (rated chargers) []) as [H1 H2].
  - intros k m Hin. apply list_elem_of_omap in Hin as (r & Hr & E).
    destruct (cw_rated_kw r); [|discriminate]. injection E as _ <-. by apply Hpos.
  - by intros k m ?%not_elem_of_nil.
  - change (total []) with 0 in *. rewrite Z.add_0_l in *.
    change (Zsum (map snd ?l)) with (total l). split; [done|]. rewrite H2. split; [by intros [? _]|]. intros Ho. split; [done|].
    apply Forall_forall. done.
Qed.

(** ** Witnesses *)

Definition ex_depot_row : depot_row :=
  {| dr_max_grid_kw := Some 200%Q; dr_building_load_assumption_kw := 0;
     dr_access_default := "all_to_all"; dr_tariff_type := "simple_demand";
     dr_energy_cap_kwh := None; dr_under_cap_rate := None; dr_over_cap_penalty := None;
     dr_cap_billing_period := "monthly" |}.

Definition ex_vehicle_rows : list vehicle_row :=
  [{| vw_vehicle_id := "bus_1"; vw_battery_kwh := Some 300%Q; vw_max_charge_kw := Some 80%Q;
      vw_id_tag := None |}].

(** Two groups of the same rating that differ in efficiency. *)
Definition ex_charger_rows : list charger_row :=
  [{| cw_rated_kw := Some 80%Q; cw_efficiency := Some (95 # 100)%Q; cw_count := 2 |};
   {| cw_rated_kw := Some 80%Q; cw_efficiency := Some (90 # 100)%Q; cw_count := 3 |}].

Definition ok_or {E A} (r : result E A) (a : A) : A :=
  match r with Ok x => x | Err _ => a end.

Definition ex_loaded : DepotConfig * dict string string :=
  ok_or (load_depot_config (Some ex_depot_row) ex_vehicle_rows ex_charger_rows None ["c1"] [])
    (MilpFacts.ex_config, []).

Lemma ex_loaded_ok :
  load_depot_config (Some ex_depot_row) ex_vehicle_rows ex_charger_rows None ["c1"] []
  = Ok (fst ex_loaded, snd ex_loaded).
Proof. vm_compute. reflexivity. Qed.

Definition ex_trip (dep ret_ : Z) : manual_row :=
  {| mr_trip := {| tr_vehicle_id := "bus_1"; departure_time := dep * hour_us;
                   return_time := ret_ * hour_us; estimated_energy_kwh := Some 60%Q;
                   tr_route_id := "r" |};
     mr_created_at := 0 |}.

Definition ex_incoming_row : incoming_row :=
  {| ir_vehicle_id := "bus_9"; ir_expected_soc := 4 # 10; ir_arrival_time := aware_utc (3 * hour_us);
     ir_battery_kwh := 300; ir_max_charge_kw := 80; ir_origin_depot_id := "depot_b" |}.

(** Hourly prices with a gap of three hours. *)
Definition ex_price_rows : list (Z * option Q) :=
  [(0, Some 50%Q); (hour_us, Some 60%Q); (5 * hour_us, Some 70%Q)].

Definition ex_db (trips : list manual_row) (incoming : list incoming_row) : db :=
  {| q_vehicle_ids := Ok ["bus_1"];
     q_freshest_socs := fun _ => Ok [("bus_1", Some (6 # 10)%Q)];
     q_bidding_zone := Ok (Some "10YLT-1001A0008Q");
     q_prices := fun _ a b => Ok (fetch_prices_by_zone ex_price_rows a b hour_us);
     q_vdv463 := fun _ _ => Ok []; q_timezone := Ok None; zone_info := fun _ => None;
     q_manual := fun _ _ => Ok trips; q_recurring := fun _ _ => Ok ([], []);
     q_month_peak := Ok None; q_price_demand := Ok None; q_site_demand := Ok (Some 15%Q);
     q_charger_ids := Ok []; q_period_kwh := fun _ _ _ => Ok None;
     q_building_load := fun _ _ => Ok [];
     q_incoming := fun a b => Ok (List.filter (fun r =>
       (a <=? dt_us (ir_arrival_time r)) && (dt_us (ir_arrival_time r) <? b)) incoming);
     q_external_ids := fun _ => Ok []; hash_order := fun l => l |}.

Lemma ex_db_laws trips incoming :
  Forall (fun r => dt_aware (ir_arrival_time r) = true) incoming -> DbLaws (ex_db trips incoming).
Proof.
  intros Haw. split; [|done]. cbn. intros a b rows H r Hr. injection H as <-.
  apply list_elem_of_In, filter_In in Hr as [Hin Hw%andb_true_iff].
  rewrite Forall_forall in Haw. split; [apply Haw; by apply list_elem_of_In | lia].
Qed.

Definition ex_asm : assembler := init_assembler (fst ex_loaded).

Lemma ex_plant_ok : plant_ok (fst ex_loaded).
Proof.
  constructor; try done.
  intros kw n Hin. vm_compute in Hin. apply list_elem_of_singleton in Hin. by simplify_eq.
Qed.

Lemma ex_readings trips incoming : readings_configured (ex_db trips incoming) (fst ex_loaded).
Proof. intros ids rows H vid Hv. injection H as <-. exact Hv. Qed.

Lemma ex_up trips incoming a b : db_up (ex_db trips incoming) a b.
Proof. constructor; by repeat eexists. Qed.

Lemma assembled_state_accepted_witness :
  exists st s', get_current_state (ex_db [ex_trip 2 4] []) 0 24 ex_asm = (Ok st, s') /\
                _validate_inputs st (as_config s') = Ok tt.
Proof.
  pose proof (ex_db_laws [ex_trip 2 4] [] ltac:(constructor)).
  apply (assembled_state_accepted (ex_db [ex_trip 2 4] []) 0 24 ex_asm).
  - apply ex_up.
  - apply ex_readings.
  - exact ex_plant_ok.
  - lia.
  - reflexivity.
  - vm_compute. discriminate.
  - reflexivity.
Defined.

Definition ex_run (trips : list manual_row) (incoming : list incoming_row) (h : Z) (s : assembler)
  : DepotState * assembler :=
  let r := get_current_state (ex_db trips incoming) 0 h s in
  (ok_or (fst r) MilpFacts.ex_state, snd r).

Lemma other_horizons_rejected_witness :
  let '(st, s') := ex_run [] [] 12 ex_asm in
  _validate_inputs st (as_config s') = Err (InvalidStateError "prices").
Proof.
  refine (other_horizons_rejected (Some ex_depot_row) ex_vehicle_rows ex_charger_rows None ["c1"] []
            (fst ex_loaded) (snd ex_loaded) (ex_db [] []) 0 12 ex_asm
            (fst (ex_run [] [] 12 ex_asm)) (snd (ex_run [] [] 12 ex_asm))
            ex_loaded_ok eq_refl _ _).
  - discriminate.
  - vm_compute. reflexivity.
Defined.

Lemma schedule_is_last_entry_witness :
  departure_times (fst (ex_run [ex_trip 2 4; ex_trip 10 12] [] 24 ex_asm)) @? "bus_1" = Some 40.
Proof.
  destruct (schedule_is_last_entry (ex_db [ex_trip 2 4; ex_trip 10 12] []) 0 24 ex_asm
              (fst (ex_run [ex_trip 2 4; ex_trip 10 12] [] 24 ex_asm))
              (snd (ex_run [ex_trip 2 4; ex_trip 10 12] [] 24 ex_asm)))
    as (trips & reqs & (sa & sb & Ht) & (sc & sd & Hq) & H).
  - vm_compute. reflexivity.
  - injection Ht as <- _. injection Hq as <- _.
    rewrite (proj1 (H "bus_1")). vm_compute. reflexivity.
Defined.

Lemma incoming_vehicle_stays_witness :
  let s1 := snd (ex_run [] [ex_incoming_row] 24 ex_asm) in
  let st2 := fst (ex_run [] [] 24 s1) in
  vehicle_socs st2 @? "bus_9" = Some (1 # 2)%Q /\
  vehicle_availability st2 @? "bus_9" = Some (replicate 96 true).
Proof.
  pose proof (ex_db_laws [] [] ltac:(constructor)).
  refine (incoming_vehicle_stays (ex_db [] [ex_incoming_row]) 0 24 ex_asm
    (fst (ex_run [] [ex_incoming_row] 24 ex_asm)) (snd (ex_run [] [ex_incoming_row] 24 ex_asm))
    (incoming_of_row [] ex_incoming_row) (ex_db [] []) 0 24
    (fst (ex_run [] [] 24 (snd (ex_run [] [ex_incoming_row] 24 ex_asm))))
    (snd (ex_run [] [] 24 (snd (ex_run [] [ex_incoming_row] 24 ex_asm)))) _ _ _ _ _ _).
  - vm_compute. reflexivity.
  - vm_compute. left.
  - vm_compute. reflexivity.
  - intros ids rows Hq. injection Hq as <-. set_solver.
  - vm_compute. apply not_elem_of_nil.
  - vm_compute. reflexivity.
Defined.

Definition ex_asm_zone : assembler := set_zone_cache (Some "10YLT-1001A0008Q"%string) ex_asm.

(** At 04:00 the last price is three hours old: the default is used. *)
Lemma prices_forward_filled_witness :
  exists l, _get_prices (ex_db [] []) (aware_utc 0) (aware_utc (24 * hour_us)) 96 ex_asm_zone
            = (Ok l, ex_asm_zone) /\ l !! 16%nat = Some (15 # 100)%Q.
Proof.
  apply (prices_forward_filled (ex_db [] []) ex_asm_zone "10YLT-1001A0008Q" ex_price_rows 0
           (24 * hour_us) 96 16).
  - reflexivity.
  - discriminate.
  - reflexivity.
  - repeat constructor; discriminate.
  - lia.
  - vm_compute. split; congruence.
Defined.

Lemma charger_groups_lose_duplicates_witness :
  n_chargers (fst ex_loaded) <= 5 /\ ~ n_chargers (fst ex_loaded) = 5.
Proof.
  destruct (charger_groups_lose_duplicates (Some ex_depot_row) ex_vehicle_rows ex_charger_rows None
              ["c1"] [] (fst ex_loaded) (snd ex_loaded) ex_loaded_ok) as [H1 H2].
  - discriminate.
  - intros r [->| [->|?%not_elem_of_nil]%elem_of_cons]%elem_of_cons; done.
  - split; [exact H1|]. change 5 with (Zsum (map cw_count ex_charger_rows)). rewrite H2.
    intros Ho. inversion Ho as [|x l Hf _]. inversion Hf as [|y l' Hne _]. apply Hne. reflexivity.
Defined.
