(* ===== verification/RateLimiter.v ===== *)
(** * Rate limiting ([src/security/rate_limiter.py])

    Sliding-window buckets of timestamps in memory, synchronised with a
    database table of counts. [time.time()] is read several times per call: the
    readings are arguments. The table [rate_limit_state] is a dictionary from
    (type, key, window start) to (count, last update); the SQL statements act on
    it as the queries say. *)

From S2P Require Import Prelude Models.
From Stdlib Require Import ZArith QArith Qround Lqa Lia Ascii.
From stdpp Require Import base list strings gmap.

#[local] Open Scope Q_scope.

Record RateLimitConfig := {
  api_requests_per_minute : Z;
  admin_write_requests_per_minute : Z;
  optimize_requests_per_minute : Z;
  agent_requests_per_minute : Z;
  handoff_messages_per_hour : Z;
  trigger_optimization_cooldown_seconds : Z;
  sync_interval_seconds : Q;
  merge_interval_seconds : Q;
  cleanup_interval_seconds : Q
}.

Definition default_rate_limits : RateLimitConfig :=
  {| api_requests_per_minute := 100; admin_write_requests_per_minute := 1200;
     optimize_requests_per_minute := 10; agent_requests_per_minute := 10;
     handoff_messages_per_hour := 50; trigger_optimization_cooldown_seconds := 300;
     sync_interval_seconds := 15; merge_interval_seconds := 60;
     cleanup_interval_seconds := 300 |}.

Record RateLimitResult := {
  allowed : bool;
  rl_limit : Z;
  remaining : Z;
  reset_at : Q
}.

Definition bucket : Type := list Q.

Record RateLimiter := {
  rl_config : RateLimitConfig;
  api_buckets : dict string bucket;
  admin_write_buckets : dict string bucket;
  optimize_buckets : dict string bucket;
  agent_buckets : dict string bucket;
  handoff_buckets : dict (string * string) bucket;
  last_trigger_optimization : dict string Q;
  dirty_keys : gset (string * string);
  sync_loop_ticks : Z
}.

Definition new_rate_limiter (c : RateLimitConfig) : RateLimiter :=
  {| rl_config := c; api_buckets := []; admin_write_buckets := []; optimize_buckets := [];
     agent_buckets := []; handoff_buckets := []; last_trigger_optimization := [];
     dirty_keys := ∅; sync_loop_ticks := 0 |}.

(** ** The sliding window *)

Definition _clean_bucket (b : bucket) (window_seconds : Z) (now : Q) : bucket :=
  let cutoff := now - inject_Z window_seconds in
  List.filter (fun t => cutoff <?q t) b.

Definition _make_result (allowed : bool) (b : bucket) (limit window_seconds : Z) (now : Q)
  : RateLimitResult :=
  {| allowed := allowed; rl_limit := limit;
     remaining := Z.max 0 (limit - Z.of_nat (length b));
     reset_at := match b with
                 | t :: _ => t + inject_Z window_seconds
                 | [] => now + inject_Z window_seconds
                 end |}.

(** The body the checks share: clean, refuse when full, else append. *)
Definition check_window (limit window_seconds : Z) (b : bucket) (now now' : Q)
  : RateLimitResult * bucket :=
  let b := _clean_bucket b window_seconds now in
  if (limit <=? Z.of_nat (length b))%Z
  then (_make_result false b limit window_seconds now', b)
  else (_make_result true (b ++ [now']) limit window_seconds now', b ++ [now']).

(** [_mark_dirty] happens only when the request was admitted. *)
Definition mark_if (r : RateLimitResult) (k : string * string) (dirty : gset (string * string))
  : gset (string * string) :=
  if allowed r then {[k]} ∪ dirty else dirty.

Definition check_api_limit (s : RateLimiter) (client_id : string) (now now' : Q)
  : RateLimitResult * RateLimiter :=
  let '(r, b) := check_window (api_requests_per_minute (rl_config s)) 60
                   (dget_or (api_buckets s) client_id []) now now' in
  (r, {| rl_config := rl_config s; api_buckets := api_buckets s +{ client_id := b };
         admin_write_buckets := admin_write_buckets s; optimize_buckets := optimize_buckets s;
         agent_buckets := agent_buckets s; handoff_buckets := handoff_buckets s;
         last_trigger_optimization := last_trigger_optimization s;
         dirty_keys := mark_if r ("api", client_id) (dirty_keys s);
         sync_loop_ticks := sync_loop_ticks s |}).

Definition check_admin_write_limit (s : RateLimiter) (client_id : string) (now now' : Q)
  : RateLimitResult * RateLimiter :=
  let '(r, b) := check_window (admin_write_requests_per_minute (rl_config s)) 60
                   (dget_or (admin_write_buckets s) client_id []) now now' in
  (r, {| rl_config := rl_config s; api_buckets := api_buckets s;
         admin_write_buckets := admin_write_buckets s +{ client_id := b };
         optimize_buckets := optimize_buckets s;
         agent_buckets := agent_buckets s; handoff_buckets := handoff_buckets s;
         last_trigger_optimization := last_trigger_optimization s;
         dirty_keys := mark_if r ("admin_write", client_id) (dirty_keys s);
         sync_loop_ticks := sync_loop_ticks s |}).

Definition check_optimize_limit (s : RateLimiter) (client_id : string) (now now' : Q)
  : RateLimitResult * RateLimiter :=
  let '(r, b) := check_window (optimize_requests_per_minute (rl_config s)) 60
                   (dget_or (optimize_buckets s) client_id []) now now' in
  (r, {| rl_config := rl_config s; api_buckets := api_buckets s;
         admin_write_buckets := admin_write_buckets s;
         optimize_buckets := optimize_buckets s +{ client_id := b };
         agent_buckets := agent_buckets s; handoff_buckets := handoff_buckets s;
         last_trigger_optimization := last_trigger_optimization s;
         dirty_keys := mark_if r ("optimize", client_id) (dirty_keys s);
         sync_loop_ticks := sync_loop_ticks s |}).

Definition check_agent_limit (s : RateLimiter) (client_id : string) (now now' : Q)
  : RateLimitResult * RateLimiter :=
  let '(r, b) := check_window (agent_requests_per_minute (rl_config s)) 60
                   (dget_or (agent_buckets s) client_id []) now now' in
  (r, {| rl_config := rl_config s; api_buckets := api_buckets s;
         admin_write_buckets := admin_write_buckets s; optimize_buckets := optimize_buckets s;
         agent_buckets := agent_buckets s +{ client_id := b };
         handoff_buckets := handoff_buckets s;
         last_trigger_optimization := last_trigger_optimization s;
         dirty_keys := mark_if r ("agent", client_id) (dirty_keys s);
         sync_loop_ticks := sync_loop_ticks s |}).

(** [tuple(sorted([origin, dest]))] and its key in the table. *)
Definition depot_pair (a b : string) : string * string :=
  if String.leb a b then (a, b) else (b, a).
Definition handoff_key (p : string * string) : string := fst p +:+ ":" +:+ snd p.

Definition check_handoff_limit (s : RateLimiter) (origin dest : string) (now now' : Q)
  : RateLimitResult * RateLimiter :=
  let p := depot_pair origin dest in
  let '(r, b) := check_window (handoff_messages_per_hour (rl_config s)) 3600
                   (dget_or (handoff_buckets s) p []) now now' in
  (r, {| rl_config := rl_config s; api_buckets := api_buckets s;
         admin_write_buckets := admin_write_buckets s; optimize_buckets := optimize_buckets s;
         agent_buckets := agent_buckets s; handoff_buckets := handoff_buckets s +{ p := b };
         last_trigger_optimization := last_trigger_optimization s;
         dirty_keys := mark_if r ("handoff", handoff_key p) (dirty_keys s);
         sync_loop_ticks := sync_loop_ticks s |}).

Definition check_trigger_cooldown (s : RateLimiter) (depot_id : string) (now : Q) : bool :=
  match last_trigger_optimization s @? depot_id with
  | None => true
  | Some last_time =>
      negb (now - last_time <?q inject_Z (trigger_optimization_cooldown_seconds (rl_config s)))
  end.

Definition record_trigger_optimization (s : RateLimiter) (depot_id : string) (now : Q)
  : RateLimiter :=
  {| rl_config := rl_config s; api_buckets := api_buckets s;
     admin_write_buckets := admin_write_buckets s; optimize_buckets := optimize_buckets s;
     agent_buckets := agent_buckets s; handoff_buckets := handoff_buckets s;
     last_trigger_optimization := last_trigger_optimization s +{ depot_id := now };
     dirty_keys := dirty_keys s; sync_loop_ticks := sync_loop_ticks s |}.

(** ** The database table *)

Definition row_key : Type := string * string * Z.
Definition table : Type := dict row_key (Z * Q).

(** A row of [_collect_flush_rows]. *)
Definition flush_row : Type := row_key * Z.

Definition flush_rows_of {K} (bucket_type : string) (key_of : K -> string) (window : Z)
    (dirty : gset (string * string)) (now : Q) (buckets : dict K bucket) : list flush_row :=
  omap (fun '(k, timestamps) =>
    if negb (bool_decide ((bucket_type, key_of k) ∈ dirty)) then None
    else
      match List.filter (fun t => now - inject_Z window <?q t) timestamps with
      | [] => None
      | (t0 :: _) as clean =>
          Some ((bucket_type, key_of k, (Qfloor (t0 / inject_Z window) * window)%Z),
                Z.of_nat (length clean))
      end) buckets.

(** Tuples compare component by component. *)
Definition row_le (a b : flush_row) : bool :=
  let '((t1, k1, w1), _) := a in
  let '((t2, k2, w2), _) := b in
  if String.eqb t1 t2
  then if String.eqb k1 k2 then (w1 <=? w2)%Z else String.leb k1 k2
  else String.leb t1 t2.

Definition _collect_flush_rows (s : RateLimiter) (now : Q) : list flush_row :=
  let dirty := dirty_keys s in
  sort_by row_le
    (flush_rows_of "api" id 60 dirty now (api_buckets s)
     ++ flush_rows_of "admin_write" id 60 dirty now (admin_write_buckets s)
     ++ flush_rows_of "optimize" id 60 dirty now (optimize_buckets s)
     ++ flush_rows_of "agent" id 60 dirty now (agent_buckets s)
     ++ flush_rows_of "handoff" handoff_key 3600 dirty now (handoff_buckets s)).

(** [INSERT ... ON CONFLICT DO UPDATE SET request_count = GREATEST(...)]. *)
Definition upsert (db_now : Q) (t : table) (row : flush_row) : table :=
  let '(k, count) := row in
  t +{ k := (match t @? k with Some (c, _) => Z.max c count | None => count end, db_now) }.

Definition set_dirty (s : RateLimiter) (d : gset (string * string)) : RateLimiter :=
  {| rl_config := rl_config s; api_buckets := api_buckets s;
     admin_write_buckets := admin_write_buckets s; optimize_buckets := optimize_buckets s;
     agent_buckets := agent_buckets s; handoff_buckets := handoff_buckets s;
     last_trigger_optimization := last_trigger_optimization s;
     dirty_keys := d; sync_loop_ticks := sync_loop_ticks s |}.

(** [_flush_to_db]. The rows are collected from [s]; [s'] is the limiter when the
    write returns (requests may have been served meanwhile) and [ok] whether it
    succeeded. *)
Definition _flush_to_db (s s' : RateLimiter) (now db_now : Q) (ok : bool) (t : table)
  : RateLimiter * table :=
  match _collect_flush_rows s now with
  | [] => (set_dirty s ∅, t)
  | rows => if ok then (set_dirty s' ∅, foldl (upsert db_now) t rows) else (s', t)
  end.

Definition _generate_synthetic_timestamps (count window_seconds : Z) (now : Q) : bucket :=
  if (count <=? 0)%Z then []
  else
    let spacing := inject_Z window_seconds / inject_Z (count + 1) in
    map (fun i => now - inject_Z window_seconds + spacing * inject_Z (Z.of_nat i + 1))
      (seq 0 (Z.to_nat count)).

(** [bucket_key.split(":", 1)] when it gives two parts. *)
Fixpoint split_colon (s : string) : option (string * string) :=
  match s with
  | EmptyString => None
  | String c s' =>
      if Ascii.eqb c ":" then Some ("", s')
      else match split_colon s' with
           | Some (a, b) => Some (String c a, b)
           | None => None
           end
  end.

(** The rows both queries return: updated within the last two minutes. *)
Definition recent_rows (db_now : Q) (t : table) : list (row_key * Z) :=
  omap (fun '(k, (count, updated)) =>
          if db_now - 120 <?q updated then Some (k, count) else None) t.

(** Pad one bucket when the remote count is larger. *)
Definition merge_bucket {K} `{EqDecision K} (buckets : dict K bucket) (k : K) (window : Z)
    (remote_count : Z) (clean_now now : Q) : dict K bucket :=
  let local := _clean_bucket (dget_or buckets k []) window clean_now in
  if (Z.of_nat (length local) <? remote_count)%Z
  then buckets +{ k := _generate_synthetic_timestamps remote_count window now }
  else buckets.

Definition merge_row (clean_now now : Q) (s : RateLimiter) (row : row_key * Z) : RateLimiter :=
  let '((bucket_type, bucket_key, _), remote_count) := row in
  let upd {K} `{EqDecision K} (d : dict K bucket) (k : K) (w : Z) :=
    merge_bucket d k w remote_count clean_now now in
  let api := String.eqb bucket_type "api" in
  let adm := String.eqb bucket_type "admin_write" in
  let opt := String.eqb bucket_type "optimize" in
  let agt := String.eqb bucket_type "agent" in
  let hof := String.eqb bucket_type "handoff" in
  {| rl_config := rl_config s;
     api_buckets := if api then upd (api_buckets s) bucket_key 60%Z else api_buckets s;
     admin_write_buckets := if adm then upd (admin_write_buckets s) bucket_key 60%Z
                            else admin_write_buckets s;
     optimize_buckets := if opt then upd (optimize_buckets s) bucket_key 60%Z
                         else optimize_buckets s;
     agent_buckets := if agt then upd (agent_buckets s) bucket_key 60%Z else agent_buckets s;
     handoff_buckets :=
       if hof then match split_colon bucket_key with
                   | Some p => upd (handoff_buckets s) p 3600%Z
                   | None => handoff_buckets s
                   end
       else handoff_buckets s;
     last_trigger_optimization := last_trigger_optimization s;
     dirty_keys := dirty_keys s; sync_loop_ticks := sync_loop_ticks s |}.

Definition _merge_from_db (s : RateLimiter) (clean_now now db_now : Q) (t : table) : RateLimiter :=
  foldl (merge_row clean_now now) s (recent_rows db_now t).

(** One row of [_hydrate_from_db]. *)
Definition hydrate_row (now : Q) (s : RateLimiter) (row : row_key * Z) : RateLimiter :=
  let '((bucket_type, bucket_key, _), count) := row in
  let put {K} `{EqDecision K} (d : dict K bucket) (k : K) (w : Z) : dict K bucket :=
    d +{ k := _generate_synthetic_timestamps count w now } in
  let api := String.eqb bucket_type "api" in
  let adm := String.eqb bucket_type "admin_write" in
  let opt := String.eqb bucket_type "optimize" in
  let agt := String.eqb bucket_type "agent" in
  let hof := String.eqb bucket_type "handoff" in
  {| rl_config := rl_config s;
     api_buckets := if api then put (api_buckets s) bucket_key 60%Z else api_buckets s;
     admin_write_buckets := if adm then put (admin_write_buckets s) bucket_key 60%Z
                            else admin_write_buckets s;
     optimize_buckets := if opt then put (optimize_buckets s) bucket_key 60%Z
                         else optimize_buckets s;
     agent_buckets := if agt then put (agent_buckets s) bucket_key 60%Z else agent_buckets s;
     handoff_buckets :=
       if hof then match split_colon bucket_key with
                   | Some p => put (handoff_buckets s) p 3600%Z
                   | None => handoff_buckets s
                   end
       else handoff_buckets s;
     last_trigger_optimization := last_trigger_optimization s;
     dirty_keys := dirty_keys s; sync_loop_ticks := sync_loop_ticks s |}.

Definition _hydrate_from_db (s : RateLimiter) (now db_now : Q) (t : table) : RateLimiter :=
  foldl (hydrate_row now) s (recent_rows db_now t).

(** [DELETE ... WHERE last_updated < NOW() - INTERVAL '5 minutes']. *)
Definition _cleanup_expired_rows (db_now : Q) (t : table) : table :=
  List.filter (fun '(_, (_, updated)) => negb (updated <?q db_now - 300)) t.

(** [max(1, int(round(interval / sync_interval)))]. *)
Definition every (interval sync : Q) : Z := Z.max 1 (Qround_even (interval / sync)).

Definition add_tick (s : RateLimiter) : RateLimiter :=
  {| rl_config := rl_config s; api_buckets := api_buckets s;
     admin_write_buckets := admin_write_buckets s; optimize_buckets := optimize_buckets s;
     agent_buckets := agent_buckets s; handoff_buckets := handoff_buckets s;
     last_trigger_optimization := last_trigger_optimization s;
     dirty_keys := dirty_keys s; sync_loop_ticks := sync_loop_ticks s + 1 |}.

(** One iteration of [_sync_loop] in which nothing else runs. *)
Definition sync_tick (s : RateLimiter) (now db_now : Q) (ok : bool) (t : table)
  : RateLimiter * table :=
  let s := add_tick s in
  let '(s, t) := if bool_decide (dirty_keys s = ∅) then (s, t)
                 else _flush_to_db s s now db_now ok t in
  let c := rl_config s in
  let merge_every := every (merge_interval_seconds c) (sync_interval_seconds c) in
  let cleanup_every := every (cleanup_interval_seconds c) (sync_interval_seconds c) in
  let s := if (sync_loop_ticks s mod merge_every =? 0)%Z
           then _merge_from_db s now now db_now t else s in
  let t := if (sync_loop_ticks s mod cleanup_every =? 0)%Z
           then _cleanup_expired_rows db_now t else t in
  (s, t).
