(* ===== verification/RateLimiterFacts.v ===== *)
(** * Facts about rate limiting

    Between synchronisations the window is exact: never more admissions than
    the limit in any window, never a refusal below it. A merge replaces the
    window by invented timestamps, and then the bound can fail. *)

From S2P Require Import Prelude Models RateLimiter.
From Stdlib Require Import ZArith QArith Qround Lqa Lia Ascii.
From stdpp Require Import base list strings gmap.

#[local] Open Scope Q_scope.

(** ** A bucket under a sequence of checks *)

(** The admitted timestamps, oldest first, and the final bucket. Each check
    reads the clock twice. *)
Fixpoint run_checks (limit window : Z) (calls : list (Q * Q)) (b : bucket) : list Q * bucket :=
  match calls with
  | [] => ([], b)
  | (now, now') :: rest =>
      let '(r, b') := check_window limit window b now now' in
      let '(adm, b'') := run_checks limit window rest b' in
      (if allowed r then now' :: adm else adm, b'')
  end.

(** The clock does not run backwards. *)
Fixpoint clock_ok (prev : Q) (calls : list (Q * Q)) : Prop :=
  match calls with
  | [] => True
  | (now, now') :: rest => prev <= now /\ now <= now' /\ clock_ok now' rest
  end.

(** Admissions in [(w - window, w]]. *)
Definition in_window (window : Z) (w t : Q) : bool := (w - inject_Z window <?q t) && (t <=?q w).
Definition count_in (window : Z) (w : Q) (l : list Q) : Z :=
  Z.of_nat (length (List.filter (in_window window w) l)).

Lemma filter_length_mono {A} (f g : A -> bool) l :
  (forall x, x ∈ l -> f x = true -> g x = true) ->
  (length (List.filter f l) <= length (List.filter g l))%nat.
Proof.
  induction l as [|x l IH]; intros H; cbn; [lia|].
  assert (length (List.filter f l) <= length (List.filter g l))%nat
    by (apply IH; intros; apply H; [by right | done]).
  pose proof (H x ltac:(left)) as Hx.
  destruct (f x), (g x); cbn; (lia || by specialize (Hx eq_refl)).
Qed.

Lemma filter_filter_and {A} (f g : A -> bool) l :
  List.filter f (List.filter g l) = List.filter (fun x => g x && f x) l.
Proof.
  induction l as [|x l IH]; cbn; [done|]. destruct (g x); cbn; [destruct (f x); cbn; by rewrite IH | done].
Qed.

Lemma list_filter_ext {A} (f g : A -> bool) l :
  (forall x, f x = g x) -> List.filter f l = List.filter g l.
Proof. intros H. induction l as [|x l IH]; cbn; [done|]. by rewrite H, IH. Qed.

Section Window.
Context (limit window : Z).

(** [b] holds the admissions [A] newer than the last cutoff [c]. *)
Definition window_inv (A : list Q) (b : bucket) (prev : Q) : Prop :=
  (exists c, c <= prev - inject_Z window /\ b = List.filter (fun t => c <?q t) A) /\
  (forall t, t ∈ A -> t <= prev) /\
  (forall w, (count_in window w A <= Z.max 0 limit)%Z).

Lemma clean_exact A b prev now :
  window_inv A b prev -> prev <= now ->
  _clean_bucket b window now = List.filter (fun t => now - inject_Z window <?q t) A.
Proof.
  intros ((c & Hc & ->) & _) Hn. unfold _clean_bucket. rewrite filter_filter_and.
  apply list_filter_ext. intros t.
  destruct (now - inject_Z window <?q t) eqn:E; [|by rewrite andb_false_r].
  rewrite andb_true_r. qbool. lra.
Qed.

Lemma count_in_app w A t :
  count_in window w (A ++ [t]) = (count_in window w A + (if in_window window w t then 1 else 0))%Z.
Proof.
  unfold count_in. rewrite List.filter_app, length_app. cbn. destruct (in_window window w t); cbn; lia.
Qed.

Lemma check_step A b prev now now' :
  window_inv A b prev -> (0 < window)%Z -> prev <= now -> now <= now' ->
  let rb := check_window limit window b now now' in
  window_inv (if allowed (fst rb) then A ++ [now'] else A) (snd rb) now' /\
  (allowed (fst rb) = true <->
     (Z.of_nat (length (List.filter (fun t => now - inject_Z window <?q t) A)) < limit)%Z).
Proof.
  intros Hinv Hw Hn Hn'. cbn zeta. unfold check_window.
  rewrite (clean_exact _ _ _ _ Hinv Hn). set (F := List.filter _ A).
  assert (0 < inject_Z window) by (rewrite Zlt_Qlt in Hw; exact Hw).
  destruct Hinv as (_ & Hle & Hcount).
  destruct (Z.leb_spec limit (Z.of_nat (length F))) as [Hfull|Hroom]; cbn [fst snd allowed _make_result].
  - split; [|split; [done | lia]]. split_and!.
    + exists (now - inject_Z window). split; [lra | done].
    + intros t Ht. specialize (Hle t Ht). lra.
    + done.
  - split; [|done]. split_and!.
    + exists (now - inject_Z window). split; [lra|]. rewrite List.filter_app. cbn [List.filter].
      assert ((now - inject_Z window <?q now') = true) as -> by (qbool; lra). done.
    + intros t [Ht| ->%list_elem_of_singleton]%elem_of_app; [specialize (Hle t Ht)|]; lra.
    + intros w. rewrite count_in_app. destruct (in_window window w now') eqn:E.
      * apply andb_true_iff in E as [E1 E2]. qbool.
        assert (count_in window w A <= Z.of_nat (length F))%Z; [|lia].
        unfold count_in, F. apply inj_le, filter_length_mono.
        intros t Ht Hin. apply andb_true_iff in Hin as [Hin _]. qbool. lra.
      * specialize (Hcount w). lia.
Qed.

Lemma run_checks_inv calls A b prev :
  window_inv A b prev -> (0 < window)%Z -> clock_ok prev calls ->
  forall w, (count_in window w (A ++ fst (run_checks limit window calls b)) <= Z.max 0 limit)%Z.
Proof.
  revert A b prev. induction calls as [|[now now'] calls IH]; intros A b prev Hinv Hw Hok w.
  { cbn. rewrite app_nil_r. apply Hinv. }
  cbn [run_checks]. destruct Hok as (H1 & H2 & Hok).
  destruct (check_step A b prev now now' Hinv Hw H1 H2) as [Hinv' _].
  destruct (check_window limit window b now now') as [r b']. cbn [fst snd] in Hinv'.
  specialize (IH _ _ _ Hinv' Hw Hok w).
  destruct (run_checks limit window calls b') as [adm b'']. cbn [fst] in IH |- *.
  destruct (allowed r); [|exact IH]. by rewrite <- app_assoc in IH.
Qed.

Lemma empty_inv prev : window_inv [] [] prev.
Proof.
  split_and!; [exists (prev - inject_Z window); split; [lra | done]
              | by intros t ?%not_elem_of_nil
              | intros w; change (0 <= Z.max 0 limit)%Z; lia].
Qed.
End Window.

(** The admitted API requests of one client. *)
Fixpoint run_api (calls : list (Q * Q)) (client : string) (s : RateLimiter)
  : list Q * RateLimiter :=
  match calls with
  | [] => ([], s)
  | (now, now') :: rest =>
      let '(r, s') := check_api_limit s client now now' in
      let '(adm, s'') := run_api rest client s' in
      (if allowed r then now' :: adm else adm, s'')
  end.

Lemma run_api_checks calls client s :
  fst (run_api calls client s) =
  fst (run_checks (api_requests_per_minute (rl_config s)) 60 calls
         (dget_or (api_buckets s) client [])).
Proof.
  revert s. induction calls as [|[now now'] calls IH]; intros s; cbn [run_api run_checks]; [done|].
  unfold check_api_limit.
  destruct (check_window _ 60 _ now now') as [r b']. cbn zeta.
  set (s' := {| rl_config := _ |}). specialize (IH s').
  assert (dget_or (api_buckets s') client [] = b') as Hb.
  { unfold s', dget_or. cbn [api_buckets]. by rewrite dget_dset_eq. }
  rewrite Hb in IH. change (rl_config s') with (rl_config s) in IH.
  destruct (run_api calls client s') as [adm s'']. cbn [fst] in IH. rewrite IH.
  by destruct (run_checks _ 60 calls b').
Qed.

(** C18: With a clock that does not run backwards and no synchronisation, no window of
    60 seconds holds more admitted API requests of a client than the configured limit.
    *)
Theorem api_window_bound calls client s w :
  dget_or (api_buckets s) client [] = [] ->
  match calls with [] => True | (now, _) :: _ => clock_ok now calls end ->
  (count_in 60 w (fst (run_api calls client s))
     <= Z.max 0 (api_requests_per_minute (rl_config s)))%Z.
Proof.
  intros Hempty Hclock. rewrite run_api_checks, Hempty.
  destruct calls as [|[now now'] calls]; [change (0 <= Z.max 0 (api_requests_per_minute (rl_config s)))%Z; lia|].
  apply (run_checks_inv _ _ ((now, now') :: calls) [] [] now); [apply empty_inv | lia | done].
Qed.

(** A check admits a request exactly when fewer than the limit were admitted in the
    window before it, whatever requests came before. *)
Theorem refusal_only_when_full limit window calls now now' :
  (0 < window)%Z -> clock_ok 0 (calls ++ [(now, now')]) ->
  let '(adm, b) := run_checks limit window calls [] in
  allowed (fst (check_window limit window b now now')) = true <->
  (Z.of_nat (length (List.filter (fun t => now - inject_Z window <?q t) adm)) < limit)%Z.
Proof.
  intros Hw Hok.
  assert (Hgen : forall calls A b prev, window_inv limit window A b prev ->
    clock_ok prev (calls ++ [(now, now')]) ->
    let '(adm, b') := run_checks limit window calls b in
    allowed (fst (check_window limit window b' now now')) = true <->
    (Z.of_nat (length (List.filter (fun t => now - inject_Z window <?q t) (A ++ adm))) < limit)%Z).
  { induction calls0 as [|[n n'] calls0 IH]; intros A b prev Hinv Hc; cbn [run_checks].
    - destruct Hc as (H1 & H2 & _). rewrite app_nil_r.
      exact (proj2 (check_step limit window A b prev now now' Hinv Hw H1 H2)).
    - destruct Hc as (H1 & H2 & Hc).
      destruct (check_step limit window A b prev n n' Hinv Hw H1 H2) as [Hinv' _].
      destruct (check_window limit window b n n') as [r b']. cbn [fst snd] in Hinv'.
      specialize (IH _ _ _ Hinv' Hc).
      destruct (run_checks limit window calls0 b') as [adm b''].
      destruct (allowed r); [by rewrite <- app_assoc in IH | exact IH]. }
  specialize (Hgen calls [] [] 0 (empty_inv _ _ _) Hok).
  by destruct (run_checks limit window calls []).
Qed.

(** ** Synchronisation *)

Lemma upsert_get db_now t row k :
  exists c, upsert db_now t row @? k = c /\
    match t @? k with
    | Some (old, _) => exists new u, c = Some (new, u) /\ (old <= new)%Z
    | None => True
    end /\ (fst row = k -> exists new u, c = Some (new, u) /\ (snd row <= new)%Z).
Proof.
  destruct row as [k' count]. unfold upsert. eexists. split; [reflexivity|].
  rewrite dget_dset. cbn [fst snd]. split.
  - destruct (t @? k) as [[old u]|] eqn:E; [|done]. case_decide; subst; [|eauto using Z.le_refl].
    rewrite E. eexists _, _. split; [done | lia].
  - intros ->. rewrite decide_True by done. eexists _, _. split; [done|].
    destruct (t @? k) as [[old u]|]; lia.
Qed.

Lemma upserts_get db_now rows t k :
  (forall old u, t @? k = Some (old, u) ->
     exists new u', foldl (upsert db_now) t rows @? k = Some (new, u') /\ (old <= new)%Z) /\
  (forall count, (k, count) ∈ rows ->
     exists new u', foldl (upsert db_now) t rows @? k = Some (new, u') /\ (count <= new)%Z).
Proof.
  revert t. induction rows as [|row rows IH]; intros t; cbn [foldl].
  { split; [eauto using Z.le_refl | by intros ? ?%not_elem_of_nil]. }
  destruct (IH (upsert db_now t row)) as [IH1 IH2].
  destruct (upsert_get db_now t row k) as (c & Hc & H1 & H2). split.
  - intros old u Ht. rewrite Ht in H1. destruct H1 as (new & u' & -> & Hle).
    destruct (IH1 _ _ Hc) as (new2 & u2 & ? & ?). exists new2, u2. split; [done | lia].
  - intros count [<-|Hin]%elem_of_cons; [|eauto].
    destruct (H2 eq_refl) as (new & u' & -> & Hle).
    destruct (IH1 _ _ Hc) as (new2 & u2 & ? & ?). exists new2, u2. cbn in Hle. split; [done | lia].
Qed.

Lemma upserts_other db_now rows t k0 :
  (forall k c, (k, c) ∈ rows -> k <> k0) -> foldl (upsert db_now) t rows @? k0 = t @? k0.
Proof.
  revert t. induction rows as [|[k c] rows IH]; intros t Hno; cbn [foldl]; [done|].
  rewrite IH by (intros; eapply Hno; by right). unfold upsert. rewrite dget_dset_ne; [done|].
  eapply Hno. left.
Qed.

Theorem flush_never_lowers_counts s s' now db_now ok t k old u :
  t @? k = Some (old, u) ->
  exists new u', snd (_flush_to_db s s' now db_now ok t) @? k = Some (new, u') /\ (old <= new)%Z.
Proof.
  intros Ht. unfold _flush_to_db. destruct (_collect_flush_rows s now) eqn:E; cbn [snd].
  { eauto using Z.le_refl. }
  destruct ok; cbn [snd]; [|eauto using Z.le_refl]. by apply (proj1 (upserts_get db_now _ t k) old u).
Qed.

(** A client whose first request arrives while a flush is being written is dropped from
    the dirty set without having been written to the table. *)
Theorem flush_forgets_concurrent_requests s s' now db_now t client :
  _collect_flush_rows s now <> [] ->
  ("api", client) ∈ dirty_keys s' -> ("api", client) ∉ dirty_keys s ->
  let '(after, t') := _flush_to_db s s' now db_now true t in
  ("api", client) ∉ dirty_keys after /\
  forall w, t' @? ("api", client, w) = t @? ("api", client, w).
Proof.
  intros Hrows Hin Hnot. unfold _flush_to_db.
  destruct (_collect_flush_rows s now) as [|r0 rows] eqn:E; [done|]. split; [set_solver|].
  intros w.
  assert (Hno : forall k c, (k, c) ∈ r0 :: rows -> k <> ("api", client, w)).
  { intros k c Hk ->. rewrite <- E in Hk. unfold _collect_flush_rows in Hk.
    rewrite elem_of_sort_by in Hk. rewrite !elem_of_app in Hk.
    destruct Hk as [Hk|[Hk|[Hk|[Hk|Hk]]]];
      apply list_elem_of_omap in Hk as ([k' ts] & _ & Hk);
      (destruct (negb _) eqn:En in Hk; [discriminate Hk|]);
      (destruct (List.filter _ ts) in Hk; [discriminate Hk|]); injection Hk as Hk; subst;
      try discriminate.
    apply negb_false_iff, bool_decide_eq_true in En. done. }
  by apply upserts_other.
Qed.

Lemma split_colon_key a b : (forall c, c ∈ String.list_ascii_of_string a -> c <> ":"%char) ->
  split_colon (a +:+ ":" +:+ b) = Some (a, b).
Proof.
  induction a as [|c a IH]; intros Ha; [done|].
  change (String c a +:+ ":" +:+ b) with (String c (a +:+ ":" +:+ b)). cbn [split_colon].
  assert (c <> ":"%char) as Hc by (apply Ha; left).
  apply Ascii.eqb_neq in Hc. rewrite Hc.
  assert (forall c, c ∈ String.list_ascii_of_string a -> c <> ":"%char) as Ha'
    by (intros c' Hc'; apply Ha; by right).
  by rewrite (IH Ha').
Qed.

(** ** Witnesses and a counterexample *)

Definition two_per_minute : RateLimitConfig :=
  {| api_requests_per_minute := 2; admin_write_requests_per_minute := 1200;
     optimize_requests_per_minute := 10; agent_requests_per_minute := 10;
     handoff_messages_per_hour := 50; trigger_optimization_cooldown_seconds := 300;
     sync_interval_seconds := 15; merge_interval_seconds := 60;
     cleanup_interval_seconds := 300 |}.

Definition ex_limiter : RateLimiter := new_rate_limiter two_per_minute.
Definition ex_calls : list (Q * Q) := [(0, 0); (1, 1); (2, 2); (61, 61)].

Lemma api_window_bound_witness :
  fst (run_api ex_calls "ip" ex_limiter) = [0; 1; 61] /\
  (count_in 60 61 (fst (run_api ex_calls "ip" ex_limiter)) <= 2)%Z.
Proof.
  split; [vm_compute; reflexivity|].
  apply (api_window_bound ex_calls "ip" ex_limiter 61).
  - reflexivity.
  - vm_compute. repeat split; discriminate.
Defined.

Definition ex_two : list (Q * Q) := [(0, 0); (1, 1)].

Lemma refusal_only_when_full_witness :
  allowed (fst (check_window 2 60 (snd (run_checks 2 60 ex_two [])) 2 2)) = true <->
  (Z.of_nat (length (List.filter (fun t => (2%Q - inject_Z 60 <?q t)%Q)
                       (fst (run_checks 2 60 ex_two [])))) < 2)%Z.
Proof.
  refine (refusal_only_when_full 2 60 ex_two 2 2 _ _).
  - reflexivity.
  - vm_compute. repeat split; discriminate.
Defined.

Definition ex_dirty : RateLimiter := snd (check_api_limit ex_limiter "ip" 0 0).
Definition ex_table : table := [(("api", "ip", 0%Z), (7%Z, 0))].

Lemma flush_never_lowers_counts_witness :
  exists new u', snd (_flush_to_db ex_dirty ex_dirty 1 1 true ex_table) @? ("api", "ip", 0%Z)
                 = Some (new, u') /\ (7 <= new)%Z.
Proof.
  apply (flush_never_lowers_counts ex_dirty ex_dirty 1 1 true ex_table ("api", "ip", 0%Z) 7 0).
  reflexivity.
Defined.

Lemma flush_forgets_concurrent_requests_witness :
  ("api", "other") ∉
    dirty_keys (fst (_flush_to_db ex_dirty (snd (check_api_limit ex_dirty "other" 1 1)) 1 1 true [])).
Proof.
  refine (proj1 (flush_forgets_concurrent_requests ex_dirty
                   (snd (check_api_limit ex_dirty "other" 1 1)) 1 1 [] "other" _ _ _)).
  - vm_compute. discriminate.
  - apply (bool_decide_unpack _). vm_compute. exact I.
  - apply (bool_decide_unpack _). vm_compute. exact I.
Defined.

(** Two of the three requests a minute this instance admits are made at second 0
    and merged with a remote count of three; by second 31 a synthetic timestamp
    of the first half of the window has expired and two more are admitted: four
    admissions within 31 seconds. *)
Definition three_per_minute : RateLimitConfig :=
  {| api_requests_per_minute := 3; admin_write_requests_per_minute := 1200;
     optimize_requests_per_minute := 10; agent_requests_per_minute := 10;
     handoff_messages_per_hour := 50; trigger_optimization_cooldown_seconds := 300;
     sync_interval_seconds := 15; merge_interval_seconds := 60;
     cleanup_interval_seconds := 300 |}.

(** A merge with the remote counts can make the limiter admit more requests in a window
    than the limit: it replaces the real timestamps by synthetic ones spread over the
    past window. *)
Theorem merge_can_exceed_limit :
  exists calls1 calls2 remote,
    let s0 := new_rate_limiter three_per_minute in
    let '(adm1, s1) := run_api calls1 "ip" s0 in
    let s2 := _merge_from_db s1 0 0 0 remote in
    let '(adm2, _) := run_api calls2 "ip" s2 in
    clock_ok 0 (calls1 ++ calls2) /\
    (3 < count_in 60 31 (adm1 ++ adm2))%Z.
Proof.
  exists [(0, 0); (0, 0)], [(31, 31); (31, 31)], [(("api", "ip", 0%Z), (3%Z, 0))].
  vm_compute. repeat split; discriminate.
Qed.
