(* ===== verification/Cache.v ===== *)
(** * The cache ([src/websocket_handler/cache_manager.py])

    A size-bounded cache with per-entry lifetimes and least-recently-used
    eviction, and the specialised caches on top of it. Every operation holds the
    cache's lock for its whole body, so operations are atomic steps; each takes
    the instant at which it reads the clock. Times and lifetimes are in
    microseconds; a [timedelta] of zero is falsy. *)

From S2P Require Import Prelude Models.
From Stdlib Require Import ZArith Lia Ascii.
From stdpp Require Import base list strings gmap.

#[local] Open Scope Z_scope.

Inductive CacheStrategy := LRU | TTL | WRITE_THROUGH | WRITE_BACK.

(** [l.remove(x)]: the first occurrence goes; the callers test membership. *)
Fixpoint remove_first (x : string) (l : list string) : list string :=
  match l with
  | [] => []
  | y :: l' => if decide (x = y) then l' else y :: remove_first x l'
  end.

Section Cache.
Context {V : Type}.

Record CacheEntry := {
  ce_value : V;
  created_at : Z;
  last_accessed : Z;
  access_count : Z;
  ce_ttl : option Z;
  ce_strategy : CacheStrategy
}.

Record CacheManager := {
  max_size : Z;
  default_ttl : Z;
  cache : dict string CacheEntry;
  access_order : list string;
  st_hits : Z;
  st_misses : Z;
  st_evictions : Z;
  st_size : Z
}.

(** [CacheManager.__init__]. *)
Definition init_cache (max_size : Z) (default_ttl : Z) (ttl_seconds : option Z) : CacheManager :=
  {| max_size := max_size;
     default_ttl := match ttl_seconds with Some s => s * usec | None => default_ttl end;
     cache := []; access_order := []; st_hits := 0; st_misses := 0; st_evictions := 0;
     st_size := 0 |}.

Definition with_store (c : CacheManager) (d : dict string CacheEntry) (order : list string)
    (hits misses evictions size : Z) : CacheManager :=
  {| max_size := max_size c; default_ttl := default_ttl c; cache := d; access_order := order;
     st_hits := hits; st_misses := misses; st_evictions := evictions; st_size := size |}.

(** The key moves to the most recently used end. *)
Definition touch (key : string) (order : list string) : list string :=
  (if bool_decide (key ∈ order) then remove_first key order else order) ++ [key].

(** [entry.ttl and now - entry.created_at > entry.ttl]. *)
Definition expired (now : Z) (e : CacheEntry) : bool :=
  match ce_ttl e with
  | Some t => negb (t =? 0) && (t <? now - created_at e)
  | None => false
  end.

Definition _evict_unlocked (key : string) (c : CacheManager) : CacheManager :=
  if dmem key (cache c)
  then let d := dpop key (cache c) in
       let order := if bool_decide (key ∈ access_order c)
                    then remove_first key (access_order c) else access_order c in
       with_store c d order (st_hits c) (st_misses c) (st_evictions c + 1) (Z.of_nat (length d))
  else c.

Definition _evict_lru_unlocked (c : CacheManager) : CacheManager :=
  match access_order c with
  | [] => c
  | lru_key :: _ => _evict_unlocked lru_key c
  end.

(** [get]: [None] is the caller's default. *)
Definition cache_get (now : Z) (key : string) (c : CacheManager) : option V * CacheManager :=
  match cache c @? key with
  | None => (None, with_store c (cache c) (access_order c) (st_hits c) (st_misses c + 1)
                     (st_evictions c) (st_size c))
  | Some entry =>
      if expired now entry
      then let c := _evict_unlocked key c in
           (None, with_store c (cache c) (access_order c) (st_hits c) (st_misses c + 1)
                    (st_evictions c) (st_size c))
      else
        let entry' := {| ce_value := ce_value entry; created_at := created_at entry;
                         last_accessed := now; access_count := access_count entry + 1;
                         ce_ttl := ce_ttl entry; ce_strategy := ce_strategy entry |} in
        (Some (ce_value entry),
         with_store c (cache c +{ key := entry' }) (touch key (access_order c))
           (st_hits c + 1) (st_misses c) (st_evictions c) (st_size c))
  end.

(** [ttl or self.default_ttl]. *)
Definition effective_ttl (c : CacheManager) (ttl : option Z) : Z :=
  match ttl with
  | Some t => if t =? 0 then default_ttl c else t
  | None => default_ttl c
  end.

Definition cache_set (now : Z) (key : string) (value : V) (ttl : option Z)
    (strategy : CacheStrategy) (c : CacheManager) : CacheManager :=
  let c := if (max_size c <=? Z.of_nat (length (cache c))) && negb (dmem key (cache c))
           then _evict_lru_unlocked c else c in
  let entry := {| ce_value := value; created_at := now; last_accessed := now; access_count := 0;
                  ce_ttl := Some (effective_ttl c ttl); ce_strategy := strategy |} in
  let d := cache c +{ key := entry } in
  with_store c d (touch key (access_order c)) (st_hits c) (st_misses c) (st_evictions c)
    (Z.of_nat (length d)).

Definition cache_delete (key : string) (c : CacheManager) : bool * CacheManager :=
  if dmem key (cache c) then (true, _evict_unlocked key c) else (false, c).

Definition cache_clear (c : CacheManager) : CacheManager :=
  with_store c [] [] (st_hits c) (st_misses c) (st_evictions c) 0.

(** [get_or_set]: [factory] is the awaited result; values are never [None]. *)
Definition get_or_set (now : Z) (key : string) (factory : V) (ttl : option Z) (c : CacheManager)
  : V * CacheManager :=
  match cache_get now key c with
  | (Some v, c) => (v, c)
  | (None, c) => (factory, cache_set now key factory ttl TTL c)
  end.

Definition _cleanup_expired (now : Z) (c : CacheManager) : CacheManager :=
  let expired_keys := omap (fun '(k, e) => if expired now e then Some k else None) (cache c) in
  foldl (fun c k => _evict_unlocked k c) c expired_keys.
End Cache.

Arguments CacheEntry V : clear implicits.
Arguments CacheManager V : clear implicits.

(** ** Patterns

    [fnmatch.fnmatch] on patterns of literals, [*] and [?]; no caller uses a
    bracketed set. *)

Fixpoint glob (p s : list ascii) {struct p} : bool :=
  match p with
  | [] => match s with [] => true | _ => false end
  | "*"%char :: p' =>
      (fix star (s : list ascii) : bool :=
         glob p' s || match s with [] => false | _ :: s' => star s' end) s
  | "?"%char :: p' => match s with [] => false | _ :: s' => glob p' s' end
  | c :: p' => match s with [] => false | x :: s' => Ascii.eqb c x && glob p' s' end
  end.

Definition fnmatch (name pattern : string) : bool :=
  glob (String.list_ascii_of_string pattern) (String.list_ascii_of_string name).

Definition invalidate_pattern {V} (pattern : string) (c : CacheManager V)
  : nat * CacheManager V :=
  let keys_to_delete := List.filter (fun k => fnmatch k pattern) (dkeys (cache c)) in
  (length keys_to_delete, foldl (fun c k => _evict_unlocked k c) c keys_to_delete).

(** ** Specialised caches: their keys and patterns *)

Section QueryCache.
(** [hashlib.md5(...).hexdigest()] of the query and its parameters. *)
Context (md5_hexdigest : string -> string).

Definition _hash_query (query params : string) : string :=
  "query:" +:+ md5_hexdigest (query +:+ ":" +:+ params).

Definition invalidate_table {V} (table_name : string) (c : CacheManager V)
  : nat * CacheManager V :=
  invalidate_pattern ("query:*" +:+ table_name +:+ "*") c.
End QueryCache.

Definition session_key (station_id : string) : string := "session:" +:+ station_id.

Definition _get_variable_key (station_id component_name component_instance variable_name
    variable_instance : string) : string :=
  "device_var:" +:+ station_id +:+ ":" +:+ component_name +:+ ":" +:+ component_instance
  +:+ ":" +:+ variable_name +:+ ":" +:+ variable_instance.

Definition invalidate_station {V} (station_id : string) (c : CacheManager V)
  : nat * CacheManager V :=
  invalidate_pattern ("device_var:" +:+ station_id +:+ ":*") c.

(** [node_id or 'default']. *)
Definition prices_key (station_id : string) (node_id : option string) : string :=
  "prices:" +:+ station_id +:+ ":" +:+
  match node_id with Some (String _ _ as n) => n | _ => "default" end.

Definition invalidate_prices {V} (station_id : option string) (c : CacheManager V)
  : nat * CacheManager V :=
  invalidate_pattern (match station_id with
                      | Some (String _ _ as s) => "prices:" +:+ s +:+ ":*"
                      | _ => "prices:*"
                      end) c.
