(* ===== verification/CacheFacts.v ===== *)
(** * Properties of the cache

    The representation invariant over every operation, what a hit may return,
    which entry a full cache gives up, and what the pattern invalidations of the
    specialised caches reach. *)

From S2P Require Import Prelude Models Cache.
From Stdlib Require Import ZArith Lia Ascii.
From stdpp Require Import base list strings gmap sorting.

#[local] Open Scope Z_scope.

Lemma filter_keep {A} (P : A -> Prop) `{forall x, Decision (P x)} (l : list A) :
  (forall x, x ∈ l -> P x) -> filter P l = l.
Proof.
  induction l as [|x l IH]; intros Hp; [done|].
  rewrite filter_cons_True by (apply Hp; left). f_equal. apply IH. intros. apply Hp. by right.
Qed.

Lemma remove_first_perm x l : x ∈ l -> l ≡ₚ x :: remove_first x l.
Proof.
  induction l as [|y l IH]; [by intros ?%not_elem_of_nil|].
  cbn. case_decide as E; [by subst|]. intros [?|Hin]%elem_of_cons; [done|].
  rewrite (IH Hin) at 1. apply Permutation_swap.
Qed.

Lemma remove_first_nodup x l : NoDup l -> remove_first x l = filter (fun y => x <> y) l.
Proof.
  induction l as [|y l IH]; [done|]. intros [Hn Hd]%NoDup_cons.
  cbn [remove_first]. rewrite filter_cons.
  repeat case_decide; subst; try done.
  - symmetry. apply filter_keep. intros z Hz ->. done.
  - by rewrite IH.
Qed.

Lemma touch_perm x l : NoDup l -> touch x l ≡ₚ (if decide (x ∈ l) then l else l ++ [x]).
Proof.
  intros Hd. unfold touch. case_decide as Hin.
  - rewrite bool_decide_true by done. rewrite <- Permutation_cons_append. symmetry.
    by apply remove_first_perm.
  - by rewrite bool_decide_false.
Qed.

Lemma length_dkeys {V} (d : dict string V) : length (dkeys d) = length d.
Proof. unfold dkeys. apply length_map. Qed.

Section Facts.
Context {V : Type}.
Implicit Types (c : CacheManager V) (k : string).

(** ** The invariant *)

Record cache_inv c : Prop := {
  ci_keys : dict_wf (cache c);
  ci_order : access_order c ≡ₚ dkeys (cache c);
  ci_size : st_size c = Z.of_nat (length (cache c));
  ci_bound : Z.of_nat (length (cache c)) <= max_size c
}.

Lemma ci_nodup c : cache_inv c -> NoDup (access_order c).
Proof. intros []. by rewrite ci_order0. Qed.

Lemma evict_cache k c : cache (_evict_unlocked k c) = dpop k (cache c).
Proof.
  unfold _evict_unlocked, dmem. destruct (cache c @? k) eqn:E; [done|]. by rewrite dpop_fresh.
Qed.

Lemma evict_max k c : max_size (_evict_unlocked k c) = max_size c.
Proof. unfold _evict_unlocked. by destruct (dmem _ _). Qed.

Lemma evict_default k c : default_ttl (_evict_unlocked k c) = default_ttl c.
Proof. unfold _evict_unlocked. by destruct (dmem _ _). Qed.

Lemma length_dpop_le {W} k (d : dict string W) : (length (dpop k d) <= length d)%nat.
Proof.
  rewrite <- !length_dkeys, dkeys_dpop. apply length_filter.
Qed.

Lemma evict_order k c :
  cache_inv c -> access_order (_evict_unlocked k c) = filter (fun y => k <> y) (access_order c).
Proof.
  intros Hi. pose proof (ci_nodup _ Hi) as Hd. destruct Hi as [_ Ho _ _].
  unfold _evict_unlocked. destruct (dmem k (cache c)) eqn:E.
  - apply dmem_spec in E. cbn. rewrite bool_decide_true by (by rewrite Ho).
    by apply remove_first_nodup.
  - symmetry. apply filter_keep. intros y Hy ->. rewrite Ho in Hy.
    apply dmem_spec in Hy. congruence.
Qed.

Lemma evict_inv k c : cache_inv c -> cache_inv (_evict_unlocked k c).
Proof.
  intros Hi. pose proof (evict_order k c Hi) as Ho. destruct Hi as [H1 H2 H3 H4].
  constructor; rewrite ?evict_cache, ?evict_max.
  - by apply dict_wf_dpop.
  - rewrite Ho, H2, dkeys_dpop. done.
  - unfold _evict_unlocked. destruct (dmem k (cache c)) eqn:E; [done|].
    rewrite dpop_fresh; [done|]. unfold dmem in E. by destruct (cache c @? k).
  - pose proof (length_dpop_le k (cache c)). lia.
Qed.

Lemma evict_all_inv ks c : cache_inv c -> cache_inv (foldl (fun c k => _evict_unlocked k c) c ks).
Proof. revert c. induction ks as [|k ks IH]; intros c Hc; [done|]. by apply IH, evict_inv. Qed.

Lemma length_dset_new {W} k (v : W) d :
  dget d k = None -> length (dset k v d) = S (length d).
Proof. intros H. rewrite dset_fresh by done. rewrite length_app. cbn. lia. Qed.

Lemma length_dset_old {W} k (v w : W) d : dget d k = Some w -> length (dset k v d) = length d.
Proof.
  intros H. rewrite <- !length_dkeys, dkeys_dset, decide_True; [done|].
  apply dmem_spec. unfold dmem. by rewrite H.
Qed.

Lemma write_inv k e c order h m ev :
  cache_inv c -> order = touch k (access_order c) ->
  (dmem k (cache c) = false -> Z.of_nat (length (cache c)) < max_size c) ->
  cache_inv (with_store c (cache c +{ k := e }) order h m ev
               (Z.of_nat (length (cache c +{ k := e })))).
Proof.
  intros Hi -> Hroom. pose proof (ci_nodup _ Hi) as Hd. destruct Hi as [H1 H2 H3 H4].
  constructor; cbn [cache access_order st_size max_size with_store]; auto with pydict.
  - rewrite touch_perm, dkeys_dset by done.
    destruct (decide (k ∈ access_order c)) as [Ha|Ha]; rewrite H2 in Ha;
      [rewrite decide_True by done | rewrite decide_False by done]; by rewrite H2.
  - unfold dmem in Hroom. destruct (cache c @? k) eqn:E.
    + by erewrite length_dset_old.
    + rewrite length_dset_new by done. specialize (Hroom eq_refl). lia.
Qed.

Lemma get_inv now k c : cache_inv c -> cache_inv (snd (cache_get now k c)).
Proof.
  intros Hi. unfold cache_get. destruct (cache c @? k) as [e|] eqn:E.
  - destruct (expired now e).
    + destruct (evict_inv k c Hi). by constructor.
    + cbn [snd]. rewrite (ci_size _ Hi).
      erewrite <- (length_dset_old k _ e (cache c)) by done.
      apply write_inv; [done..|]. unfold dmem. by rewrite E.
  - destruct Hi. by constructor.
Qed.

(** Evicting from a full cache makes room. *)
Lemma evict_lru_room c :
  cache_inv c -> 1 <= max_size c ->
  Z.of_nat (length (cache (_evict_lru_unlocked c))) < max_size c.
Proof.
  intros Hi Hm. destruct Hi as [H1 H2 H3 H4]. unfold _evict_lru_unlocked.
  destruct (access_order c) as [|k l] eqn:E.
  - assert (dkeys (cache c) = []) as Hk by (by apply Permutation_nil_r).
    rewrite <- length_dkeys, Hk. cbn. lia.
  - rewrite evict_cache, <- length_dkeys, dkeys_dpop.
    assert (k ∈ dkeys (cache c)) as Hin by (rewrite <- H2; left).
    rewrite <- length_dkeys in H4.
    enough (length (filter (fun k' => k <> k') (dkeys (cache c))) < length (dkeys (cache c)))%nat
      by lia.
    apply (length_filter_lt _ _ k); [done|]. by intros [].
Qed.

Lemma evict_lru_inv c : cache_inv c -> cache_inv (_evict_lru_unlocked c).
Proof. intros Hi. unfold _evict_lru_unlocked. destruct (access_order c); [done|]. by apply evict_inv. Qed.

Lemma evict_lru_max c : max_size (_evict_lru_unlocked c) = max_size c.
Proof. unfold _evict_lru_unlocked. destruct (access_order c); [done|]. apply evict_max. Qed.

Lemma set_inv now k v ttl strat c :
  1 <= max_size c -> cache_inv c -> cache_inv (cache_set now k v ttl strat c).
Proof.
  intros Hm Hi. unfold cache_set.
  destruct ((max_size c <=? Z.of_nat (length (cache c))) && negb (dmem k (cache c))) eqn:E.
  - apply write_inv; [by apply evict_lru_inv | done |]. intros _.
    rewrite evict_lru_max. by apply evict_lru_room.
  - apply write_inv; [done..|]. intros Hk. rewrite Hk in E. cbn in E. lia.
Qed.

(** ** Histories

    The operations other components call, each at an instant; clock readings
    never decrease. *)

Inductive action : Type :=
| AGet (k : string)
| ASet (k : string) (v : V) (ttl : option Z) (strategy : CacheStrategy)
| ADelete (k : string)
| AClear
| ACleanup
| AInvalidate (pattern : string).

Definition cache_step (now : Z) (a : action) (c : CacheManager V) : CacheManager V :=
  match a with
  | AGet k => snd (cache_get now k c)
  | ASet k v ttl strategy => cache_set now k v ttl strategy c
  | ADelete k => snd (cache_delete k c)
  | AClear => cache_clear c
  | ACleanup => _cleanup_expired now c
  | AInvalidate p => snd (invalidate_pattern p c)
  end.

Inductive reaches (m dttl : Z) : Z -> list (Z * action) -> CacheManager V -> Prop :=
| reaches_init t : reaches m dttl t [] (init_cache m dttl None)
| reaches_step t h c now a :
    reaches m dttl t h c -> t <= now ->
    reaches m dttl now (h ++ [(now, a)]) (cache_step now a c).

(** The value last written to a key, when, and its lifetime: what an unbounded
    store without expiry would hold. *)
Definition write_step (dttl : Z) (k : string) (w : option (V * Z * Z)) (e : Z * action)
  : option (V * Z * Z) :=
  match snd e with
  | ASet k' v ttl _ =>
      if decide (k' = k)
      then Some (v, fst e, match ttl with
                           | Some t => if t =? 0 then dttl else t
                           | None => dttl
                           end)
      else w
  | ADelete k' => if decide (k' = k) then None else w
  | AClear => None
  | AInvalidate p => if fnmatch k p then None else w
  | AGet _ | ACleanup => w
  end.

Definition last_write (dttl : Z) (k : string) (h : list (Z * action)) : option (V * Z * Z) :=
  foldl (write_step dttl k) None h.

Lemma evict_all_get ks c k :
  cache (foldl (fun c k => _evict_unlocked k c) c ks) @? k
  = if decide (k ∈ ks) then None else cache c @? k.
Proof.
  revert c. induction ks as [|x ks IH]; intros c; cbn [foldl].
  { by rewrite decide_False by set_solver. }
  rewrite IH, evict_cache, dget_dpop. repeat case_decide; set_solver.
Qed.

Lemma evict_all_fields ks c :
  max_size (foldl (fun c k => _evict_unlocked k c) c ks) = max_size c /\
  default_ttl (foldl (fun c k => _evict_unlocked k c) c ks) = default_ttl c.
Proof.
  revert c. induction ks as [|x ks IH]; intros c; [done|]. cbn [foldl].
  destruct (IH (_evict_unlocked x c)) as [-> ->]. by rewrite evict_max, evict_default.
Qed.

Lemma evict_lru_get c k :
  cache (_evict_lru_unlocked c) @? k
  = match access_order c with
    | x :: _ => if decide (x = k) then None else cache c @? k
    | [] => cache c @? k
    end.
Proof.
  unfold _evict_lru_unlocked. destruct (access_order c); [done|]. by rewrite evict_cache, dget_dpop.
Qed.

Lemma evict_lru_default c : default_ttl (_evict_lru_unlocked c) = default_ttl c.
Proof. unfold _evict_lru_unlocked. destruct (access_order c); [done|]. apply evict_default. Qed.

(** The parameters never change. *)
Lemma step_params now a c :
  max_size (cache_step now a c) = max_size c /\ default_ttl (cache_step now a c) = default_ttl c.
Proof.
  destruct a; cbn [cache_step].
  - unfold cache_get. destruct (cache c @? k); [|done].
    destruct (expired _ _); [|done]. cbn. by rewrite evict_max, evict_default.
  - unfold cache_set. destruct (_ && _); [|done]. cbn. by rewrite evict_lru_max, evict_lru_default.
  - unfold cache_delete. destruct (dmem _ _); [|done]. cbn. by rewrite evict_max, evict_default.
  - done.
  - apply evict_all_fields.
  - apply evict_all_fields.
Qed.

Lemma reaches_params m dttl t h c :
  reaches m dttl t h c -> max_size c = m /\ default_ttl c = dttl.
Proof.
  induction 1 as [|t h c now a _ [IH1 IH2] _]; [done|].
  destruct (step_params now a c) as [-> ->]. done.
Qed.

Lemma cache_step_inv now a c : 1 <= max_size c -> cache_inv c -> cache_inv (cache_step now a c).
Proof.
  intros Hm Hi. destruct a; cbn [cache_step].
  - by apply get_inv.
  - by apply set_inv.
  - unfold cache_delete. destruct (dmem _ _); [by apply evict_inv | done].
  - destruct Hi. constructor; cbn; [constructor | done | done | lia].
  - by apply evict_all_inv.
  - by apply evict_all_inv.
Qed.

Lemma reaches_inv m dttl t h c : 1 <= m -> reaches m dttl t h c -> cache_inv c.
Proof.
  intros Hm. induction 1 as [|t h c now a Hr IH _].
  - constructor; cbn; [constructor | done | done | lia].
  - apply cache_step_inv; [|done]. by destruct (reaches_params _ _ _ _ _ Hr) as [-> _].
Qed.

(** ** Hits *)

(** Every entry is the last write of its key. *)
Definition mirrors (dttl : Z) (h : list (Z * action)) c : Prop :=
  forall k e, cache c @? k = Some e ->
  exists ttl, ce_ttl e = Some ttl /\ last_write dttl k h = Some (ce_value e, created_at e, ttl).

Lemma last_write_snoc dttl k h e :
  last_write dttl k (h ++ [e]) = write_step dttl k (last_write dttl k h) e.
Proof. unfold last_write. by rewrite foldl_snoc. Qed.

Lemma mirrors_step dttl h c now a :
  default_ttl c = dttl -> mirrors dttl h c -> mirrors dttl (h ++ [(now, a)]) (cache_step now a c).
Proof.
  intros Hd Hm k e Hk. rewrite last_write_snoc. unfold write_step. cbn [snd fst].
  destruct a as [k'|k' v ttl st|k'| | |p]; cbn [cache_step] in Hk.
  - unfold cache_get in Hk. destruct (cache c @? k') as [e'|] eqn:E; [|by apply Hm].
    destruct (expired now e'); cbn in Hk.
    + rewrite evict_cache, dget_dpop in Hk. case_decide; [done|]. by apply Hm.
    + rewrite dget_dset in Hk. case_decide; subst; [|by apply Hm].
      injection Hk as <-. apply Hm in E. done.
  - unfold cache_set in Hk. cbn in Hk. rewrite dget_dset in Hk. case_decide as Ek.
    + injection Hk as <-. cbn. eexists. split; [done|]. unfold effective_ttl.
      destruct (_ && _); rewrite ?evict_lru_default, Hd; by destruct ttl.
    + destruct (_ && _); [|by apply Hm]. rewrite evict_lru_get in Hk.
      destruct (access_order c); [by apply Hm|]. case_decide; [done|]. by apply Hm.
  - unfold cache_delete in Hk. destruct (dmem k' (cache c)) eqn:E; cbn in Hk.
    + rewrite evict_cache, dget_dpop in Hk. case_decide; [done|]. by apply Hm.
    + case_decide; [|by apply Hm]. subst. unfold dmem in E. by rewrite Hk in E.
  - done.
  - unfold _cleanup_expired in Hk. rewrite evict_all_get in Hk. case_decide; [done|]. by apply Hm.
  - unfold invalidate_pattern in Hk. cbn in Hk. rewrite evict_all_get in Hk.
    case_decide as Hin; [done|]. destruct (fnmatch k p) eqn:Ef; [|by apply Hm].
    exfalso. apply Hin. apply list_elem_of_In, filter_In. split; [|done].
    apply list_elem_of_In, dmem_spec. unfold dmem. by rewrite Hk.
Qed.

Lemma reaches_mirrors m dttl t h c : reaches m dttl t h c -> mirrors dttl h c.
Proof.
  induction 1 as [|t h c now a Hr IH _]; [done|].
  apply mirrors_step; [|done]. by destruct (reaches_params _ _ _ _ _ Hr).
Qed.

(** A hit returns the value last written under the key, written within its lifetime and
    neither deleted nor cleared since; the cache is a lossy map that never invents or
    revives a value. *)
Theorem cache_hit_is_last_write m dttl t h c now k v c' :
  reaches m dttl t h c -> cache_get now k c = (Some v, c') ->
  exists written ttl, last_write dttl k h = Some (v, written, ttl) /\
                      (ttl = 0 \/ now - written <= ttl).
Proof.
  intros Hr%reaches_mirrors Hg. unfold cache_get in Hg.
  destruct (cache c @? k) as [e|] eqn:E; [|discriminate].
  destruct (expired now e) eqn:Ex; [discriminate|]. injection Hg as <- _.
  destruct (Hr _ _ E) as (ttl & Ht & Hw). exists (created_at e), ttl. split; [done|].
  unfold expired in Ex. rewrite Ht in Ex. apply andb_false_iff in Ex as [Ex|Ex]; lia.
Qed.

(** ** Eviction *)

Definition last_use c (k : string) : Z :=
  match cache c @? k with Some e => last_accessed e | None => 0 end.

(** Keys are listed in the order of their last use, none later than [t]. *)
Definition by_last_use (t : Z) c : Prop :=
  StronglySorted (fun a b => last_use c a <= last_use c b) (access_order c) /\
  Forall (fun k => last_use c k <= t) (access_order c).

Lemma sorted_filter {A} (R : A -> A -> Prop) (P : A -> Prop) `{forall x, Decision (P x)} l :
  StronglySorted R l -> StronglySorted R (filter P l).
Proof.
  induction 1 as [|x l Hs IH Hf]; [constructor|]. rewrite filter_cons. case_decide; [|done].
  constructor; [done|]. rewrite Forall_forall in Hf |- *. intros y Hy.
  apply list_elem_of_filter in Hy as [_ Hy]. auto.
Qed.

Lemma sorted_snoc {A} (R : A -> A -> Prop) l x :
  StronglySorted R l -> Forall (fun y => R y x) l -> StronglySorted R (l ++ [x]).
Proof.
  induction 1 as [|y l Hs IH Hf]; intros Hx; [repeat constructor|].
  apply Forall_cons in Hx as [Hyx Hx]. cbn. constructor; [auto|].
  rewrite Forall_app. split; [done|]. by repeat constructor.
Qed.

Lemma sorted_ext {A} (R R' : A -> A -> Prop) l :
  (forall a b, a ∈ l -> b ∈ l -> R a b -> R' a b) -> StronglySorted R l -> StronglySorted R' l.
Proof.
  intros Hr. induction 1 as [|x l Hs IH Hf]; constructor.
  - apply IH. intros a b Ha Hb. apply Hr; by right.
  - rewrite Forall_forall in Hf |- *. intros y Hy. apply Hr; [left | by right | auto].
Qed.

Lemma touch_filter k l : NoDup l -> touch k l = filter (fun y => k <> y) l ++ [k].
Proof.
  intros Hd. unfold touch. f_equal. case_bool_decide; [by apply remove_first_nodup|].
  symmetry. apply filter_keep. by intros x Hx ->.
Qed.

Lemma by_last_use_le t t' c : t <= t' -> by_last_use t c -> by_last_use t' c.
Proof.
  intros Ht [H1 H2]. split; [done|]. eapply Forall_impl; [exact H2|]. cbn. lia.
Qed.

(** Dropping keys and keeping the use times of the others. *)
Lemma by_last_use_drop t c c' (P : string -> Prop) `{forall x, Decision (P x)} :
  by_last_use t c -> access_order c' = filter P (access_order c) ->
  (forall k, P k -> last_use c' k = last_use c k) -> by_last_use t c'.
Proof.
  intros [Hs Hf] Ho Hu. unfold by_last_use. rewrite Ho. split.
  - eapply sorted_ext; [|by apply sorted_filter]. intros a b Ha Hb. cbn.
    apply list_elem_of_filter in Ha as [Ha _], Hb as [Hb _]. by rewrite !Hu.
  - rewrite Forall_forall in Hf |- *. intros k [Hp Hk]%list_elem_of_filter. rewrite Hu by done. auto.
Qed.

Lemma by_last_use_evict t k c :
  cache_inv c -> by_last_use t c -> by_last_use t (_evict_unlocked k c).
Proof.
  intros Hi Hb. eapply by_last_use_drop; [exact Hb | by apply evict_order |].
  intros y Hy. unfold last_use. by rewrite evict_cache, dget_dpop_ne.
Qed.

Lemma by_last_use_evict_all t ks c :
  cache_inv c -> by_last_use t c -> by_last_use t (foldl (fun c k => _evict_unlocked k c) c ks).
Proof.
  revert c. induction ks as [|k ks IH]; intros c Hi Hb; [done|]. cbn [foldl].
  apply IH; [by apply evict_inv | by apply by_last_use_evict].
Qed.

(** Using a key at [now]. *)
Lemma by_last_use_write t now k e c h m ev sz :
  cache_inv c -> by_last_use t c -> t <= now -> last_accessed e = now ->
  by_last_use now (with_store c (cache c +{ k := e }) (touch k (access_order c)) h m ev sz).
Proof.
  intros Hi [Hs Hf] Ht He. pose proof (ci_nodup _ Hi) as Hd.
  set (c' := with_store _ _ _ _ _ _ _).
  assert (forall y, last_use c' y = if decide (k = y) then now else last_use c y) as Hu.
  { intros y. unfold last_use. cbn. rewrite dget_dset. by case_decide. }
  assert (access_order c' = filter (fun y => k <> y) (access_order c) ++ [k]) as Ho
    by (by apply touch_filter).
  unfold by_last_use. rewrite Ho. clearbody c'.
  rewrite Forall_forall in Hf. split.
  - apply sorted_snoc.
    + eapply sorted_ext; [|by apply sorted_filter]. intros a b Ha Hb. cbn.
      apply list_elem_of_filter in Ha as [Ha _], Hb as [Hb _]. rewrite !Hu.
      by rewrite !decide_False.
    + apply Forall_forall. intros y [Hy Hin]%list_elem_of_filter. rewrite !Hu.
      rewrite decide_False, decide_True by done. specialize (Hf _ Hin). lia.
  - apply Forall_forall. intros y Hin. rewrite Hu. case_decide; [lia|].
    apply elem_of_app in Hin as [Hin|Hin]; [|set_solver].
    apply list_elem_of_filter in Hin as [_ Hin]. specialize (Hf _ Hin). lia.
Qed.

Lemma by_last_use_stats t c d o h m e sz :
  by_last_use t c -> d = cache c -> o = access_order c -> by_last_use t (with_store c d o h m e sz).
Proof. intros Hb -> ->. done. Qed.

Lemma by_last_use_step t now a c :
  cache_inv c -> by_last_use t c -> t <= now -> by_last_use now (cache_step now a c).
Proof.
  intros Hi Hb Ht. pose proof (by_last_use_le _ _ _ Ht Hb) as Hb'.
  destruct a as [k|k v ttl st|k| | |p]; cbn [cache_step].
  - unfold cache_get. destruct (cache c @? k) as [e|] eqn:E; [|by apply by_last_use_stats].
    destruct (expired now e).
    + apply by_last_use_stats; [|done..]. by apply by_last_use_evict.
    + by eapply by_last_use_write.
  - unfold cache_set. destruct (_ && _); [|by eapply by_last_use_write].
    eapply by_last_use_write; [by apply evict_lru_inv | | done | done].
    unfold _evict_lru_unlocked. destruct (access_order c); [done | by apply by_last_use_evict].
  - unfold cache_delete. destruct (dmem _ _); [by apply by_last_use_evict | done].
  - split; constructor.
  - by apply by_last_use_evict_all.
  - by apply by_last_use_evict_all.
Qed.

Lemma reaches_by_last_use m dttl t h c : 1 <= m -> reaches m dttl t h c -> by_last_use t c.
Proof.
  intros Hm. induction 1 as [|t h c now a Hr IH Ht]; [split; constructor|].
  eapply by_last_use_step; [by eapply reaches_inv | done | done].
Qed.

Theorem full_cache_drops_least_recently_used m dttl t h c now k v ttl st :
  1 <= m -> reaches m dttl t h c ->
  Z.of_nat (length (cache c)) = m -> cache c @? k = None ->
  let c' := cache_set now k v ttl st c in
  exists victim e, cache c @? victim = Some e /\ cache c' @? victim = None /\
    (forall k' e', cache c @? k' = Some e' -> last_accessed e <= last_accessed e') /\
    (forall k', k' <> victim -> k' <> k -> cache c' @? k' = cache c @? k').
Proof.
  intros Hm Hr Hfull Hk c'. pose proof (reaches_inv _ _ _ _ _ Hm Hr) as Hi.
  destruct (reaches_by_last_use _ _ _ _ _ Hm Hr) as [Hs _].
  destruct (reaches_params _ _ _ _ _ Hr) as [Hmax _]. pose proof (ci_order _ Hi) as Ho.
  assert (forall y, cache c' @? y = if decide (k = y) then cache c' @? k else
            match access_order c with
            | x :: _ => if decide (x = y) then None else cache c @? y
            | [] => cache c @? y end) as Hc'.
  { intros y. unfold c', cache_set.
    assert (dmem k (cache c) = false) as -> by (unfold dmem; by rewrite Hk).
    rewrite Hmax, Hfull, Z.leb_refl. cbn [andb negb cache with_store]. rewrite !dget_dset. case_decide; [by rewrite decide_True|].
    apply evict_lru_get. }
  destruct (access_order c) as [|x l] eqn:Eo.
  { assert (dkeys (cache c) = []) as Hk0 by (by apply Permutation_nil_r).
    rewrite <- length_dkeys, Hk0 in Hfull. cbn in Hfull. lia. }
  assert (x ∈ dkeys (cache c)) as Hx by (rewrite <- Ho; left).
  apply dmem_spec in Hx. unfold dmem in Hx. destruct (cache c @? x) as [e|] eqn:Ex; [|done].
  exists x, e. assert (k <> x) as Hne by congruence. split_and!.
  - done.
  - rewrite Hc', decide_False, decide_True by done. done.
  - intros k' e' Hk'. assert (k' ∈ x :: l) as [->|Hin]%elem_of_cons.
    { rewrite Ho. apply dmem_spec. unfold dmem. by rewrite Hk'. }
    + rewrite Ex in Hk'. by injection Hk' as <-.
    + inversion Hs as [|? ? _ Hf]; subst. rewrite Forall_forall in Hf. specialize (Hf _ Hin).
      unfold last_use in Hf. by rewrite Ex, Hk' in Hf.
  - intros k' H1 H2. rewrite Hc', !decide_False by done. done.
Qed.

Theorem cache_invariant m dttl t h c : 1 <= m -> reaches m dttl t h c -> cache_inv c.
Proof. apply reaches_inv. Qed.
End Facts.

(** ** What invalidation reaches *)

Definition is_hex (a : ascii) : bool :=
  let n := nat_of_ascii a in
  ((48 <=? n)%nat && (n <=? 57)%nat) || ((97 <=? n)%nat && (n <=? 102)%nat).

(** Characters that stand for themselves in a pattern. *)
Definition literal (a : ascii) : bool := negb (Ascii.eqb a "*" || Ascii.eqb a "?").

Lemma glob_literal p q s :
  forallb literal p = true ->
  glob (p ++ q) s = true -> exists s', s = p ++ s' /\ glob q s' = true.
Proof.
  revert s. induction p as [|a p IH]; intros s Hl Hg; [by exists s|].
  cbn in Hl. apply andb_true_iff in Hl as [Ha Hl].
  assert (match s with [] => false | x :: s' => Ascii.eqb a x && glob (p ++ q) s' end = true) as Hg'.
  { unfold literal in Ha. apply negb_true_iff, orb_false_iff in Ha as [H1 H2].
    revert Hg. cbn [app glob].
    destruct a as [[] [] [] [] [] [] [] []]; try (intros; assumption); discriminate. }
  destruct s as [|x s]; [discriminate|]. apply andb_true_iff in Hg' as [E Hg'].
  apply Ascii.eqb_eq in E as ->. destruct (IH _ Hl Hg') as (s' & -> & Hq). by exists s'.
Qed.

Lemma glob_star p s : glob ("*"%char :: p) s = true -> exists s1 s2, s = s1 ++ s2 /\ glob p s2 = true.
Proof.
  cbn. induction s as [|x s IH].
  - rewrite orb_false_r. intros H. by exists [], [].
  - intros [H|H]%orb_true_iff; [by exists [], (x :: s)|].
    destruct (IH H) as (s1 & s2 & -> & Hg). by exists (x :: s1), s2.
Qed.

(** Query keys carry a digest, never the text of the query. *)
Definition query_keys {V} (digest : string -> string) (c : CacheManager V) : Prop :=
  forall k, k ∈ dkeys (cache c) -> exists q p, k = _hash_query digest q p.

Theorem invalidate_table_reaches_nothing {V} (digest : string -> string) (c : CacheManager V) table :
  (forall s, forallb is_hex (String.list_ascii_of_string (digest s)) = true) ->
  forallb literal (String.list_ascii_of_string table) = true ->
  forallb is_hex (String.list_ascii_of_string table) = false ->
  query_keys digest c -> invalidate_table table c = (0%nat, c).
Proof.
  intros Hd Hl Hh Hq. unfold invalidate_table, invalidate_pattern.
  assert (List.filter (fun k => fnmatch k ("query:*" +:+ table +:+ "*")) (dkeys (cache c)) = [])
    as ->; [|done].
  assert (forall k, k ∈ dkeys (cache c) -> fnmatch k ("query:*" +:+ table +:+ "*") = false) as Hf.
  2:{ induction (dkeys (cache c)) as [|k l IH]; [done|]. cbn. rewrite Hf by left.
      apply IH. intros. apply Hf. by right. }
  intros k (q & p & ->)%Hq. apply not_true_iff_false. intros Hm. unfold fnmatch, _hash_query in Hm.
  rewrite !list_ascii_app in Hm.
  change (String.list_ascii_of_string "query:*")
    with (String.list_ascii_of_string "query:" ++ ["*"%char]) in Hm.
  rewrite <- app_assoc in Hm. apply glob_literal in Hm as (s & Hs & Hm); [|done].
  apply app_inv_head in Hs. cbn [app] in Hm. apply glob_star in Hm as (s1 & s2 & -> & Hm).
  apply glob_literal in Hm as (s3 & -> & _); [|done].
  pose proof (Hd (q +:+ ":" +:+ p)) as Hx. rewrite Hs, !forallb_app in Hx.
  apply andb_true_iff in Hx as [_ Hx]. apply andb_true_iff in Hx as [Hx _]. congruence.
Qed.

(** ** Witnesses *)

(** Two slots: "a" and "b" are written, "a" is read. *)
Definition ex_ops : list (Z * action (V := Z)) :=
  [(1, ASet "a" 10 None TTL); (2, ASet "b" 20 None TTL); (3, AGet "a")].

Definition ex_cache : CacheManager Z :=
  foldl (fun c e => cache_step (fst e) (snd e) c) (init_cache 2 300 None) ex_ops.

Lemma ex_reaches : reaches 2 300 3 ex_ops ex_cache.
Proof.
  apply (reaches_step 2 300 2 [(1, ASet "a" 10 None TTL); (2, ASet "b" 20 None TTL)] _ 3); [|lia].
  apply (reaches_step 2 300 1 [(1, ASet "a" 10 None TTL)] _ 2); [|lia].
  apply (reaches_step 2 300 0 [] _ 1); [|lia]. constructor.
Qed.

Lemma cache_invariant_witness : cache_inv ex_cache /\ length (cache ex_cache) = 2%nat.
Proof.
  split; [|reflexivity]. apply (cache_invariant 2 300 3 ex_ops ex_cache); [lia | exact ex_reaches].
Defined.

Lemma cache_hit_is_last_write_witness :
  exists written ttl, last_write 300 "b" ex_ops = Some (20, written, ttl) /\
                      (ttl = 0 \/ 100 - written <= ttl).
Proof.
  apply (cache_hit_is_last_write 2 300 3 ex_ops ex_cache 100 "b" 20
           (snd (cache_get 100 "b" ex_cache))); [exact ex_reaches | reflexivity].
Defined.

Lemma full_cache_drops_least_recently_used_witness :
  exists victim e, cache ex_cache @? victim = Some e /\
                   cache (cache_set 4 "c" 30 None TTL ex_cache) @? victim = None.
Proof.
  destruct (full_cache_drops_least_recently_used 2 300 3 ex_ops ex_cache 4 "c" 30 None TTL)
    as (victim & e & H1 & H2 & _); [lia | exact ex_reaches | reflexivity | reflexivity |].
  by exists victim, e.
Defined.

Definition ex_query_cache : CacheManager Z :=
  cache_set 0 (_hash_query (fun _ => "d41d8cd9"%string) "SELECT * FROM telemetry" "()") 1 None TTL
    (init_cache 10 300 None).

Lemma invalidate_table_reaches_nothing_witness :
  invalidate_table "telemetry" ex_query_cache = (0%nat, ex_query_cache).
Proof.
  apply (invalidate_table_reaches_nothing (fun _ => "d41d8cd9"%string)).
  - reflexivity.
  - reflexivity.
  - reflexivity.
  - intros k Hk. apply list_elem_of_singleton in Hk as ->.
    by exists "SELECT * FROM telemetry"%string, "()"%string.
Defined.
