(* ===== verification/Profiles.v ===== *)
(** * Charging profiles ([src/websocket_handler/charging_profile_manager.py])

    OCPP 2.0.1 charging profiles: their JSON form, validation and stacking
    limits, the two caches in front of the [charging_profiles] table, and the
    composite schedule of an EVSE. The table is a list of rows; its queries are
    those of [src/websocket_handler/timescale_client.py].

    The code does not look at the types of a message's fields when it parses
    them. Fields that are later compared have their type here, and a value of
    another type is an error at once; fields that are only passed on stay
    Python objects. Every such error ends in the same [InternalError] reply. *)

From S2P Require Import Prelude Models Cache.
From Stdlib Require Import ZArith QArith Lia Ascii.
From stdpp Require Import base list strings gmap pretty.

#[local] Open Scope Z_scope.

(** ** Enumerations and their OCPP names *)

Inductive ChargingProfilePurpose :=
| CHARGING_STATION_EXTERNAL_CONSTRAINTS
| CHARGING_STATION_MAX_PROFILE
| TX_DEFAULT_PROFILE
| TX_PROFILE
| PRIORITY_CHARGING
| LOCAL_GENERATION.

#[export] Instance purpose_eq_dec : EqDecision ChargingProfilePurpose.
Proof. solve_decision. Defined.

Definition purpose_value (p : ChargingProfilePurpose) : string :=
  match p with
  | CHARGING_STATION_EXTERNAL_CONSTRAINTS => "ChargingStationExternalConstraints"
  | CHARGING_STATION_MAX_PROFILE => "ChargingStationMaxProfile"
  | TX_DEFAULT_PROFILE => "TxDefaultProfile"
  | TX_PROFILE => "TxProfile"
  | PRIORITY_CHARGING => "PriorityCharging"
  | LOCAL_GENERATION => "LocalGeneration"
  end.

Inductive ChargingProfileKind := ABSOLUTE | RECURRING | RELATIVE.

Definition kind_value (k : ChargingProfileKind) : string :=
  match k with ABSOLUTE => "Absolute" | RECURRING => "Recurring" | RELATIVE => "Relative" end.

Inductive ChargingRateUnit := RateW | RateA.

Definition unit_value (u : ChargingRateUnit) : string :=
  match u with RateW => "W" | RateA => "A" end.

(** [Enum(value)]: the member with that value, or [ValueError]. *)
Definition enum_of {E} (members : list E) (value : E -> string) (o : pyobj) : result opt_error E :=
  match o with
  | PStr s => match List.find (fun m => String.eqb (value m) s) members with
              | Some m => Ok m
              | None => Err ValueError
              end
  | _ => Err ValueError
  end.

Definition purposes : list ChargingProfilePurpose :=
  [CHARGING_STATION_EXTERNAL_CONSTRAINTS; CHARGING_STATION_MAX_PROFILE; TX_DEFAULT_PROFILE;
   TX_PROFILE; PRIORITY_CHARGING; LOCAL_GENERATION].
Definition kinds : list ChargingProfileKind := [ABSOLUTE; RECURRING; RELATIVE].
Definition rate_units : list ChargingRateUnit := [RateW; RateA].

(** ** Profiles *)

Record ChargingSchedulePeriod := {
  start_period : Z;
  limit : Q;
  discharging_limit : option Q;
  setpoint : option Q;
  setpoint_reactive : pyobj;
  number_phases : pyobj;
  phase_to_use : pyobj;
  operation_mode : option string;
  v2x_freq_watt_curve : pyobj;
  v2x_signal_watt_curve : pyobj;
  v2x_baseline : pyobj
}.

Record ChargingSchedule := {
  cs_id : pyobj;
  start_schedule : pyobj;
  cs_duration : pyobj;
  charging_rate_unit : ChargingRateUnit;
  charging_schedule_period : list ChargingSchedulePeriod;
  min_charging_rate : pyobj
}.

Record ChargingProfile := {
  cp_id : Z;
  stack_level : Z;
  charging_profile_purpose : ChargingProfilePurpose;
  charging_profile_kind : ChargingProfileKind;
  charging_schedule : ChargingSchedule;
  valid_from : option string;
  valid_to : option string;
  recurrency_kind : pyobj;
  cp_transaction_id : pyobj
}.

(** ** JSON *)

(** [d[k]], [d.get(k)] and [d.get(k, v)] on a JSON object. *)
Definition obj_of (o : pyobj) : result opt_error (dict string pyobj) :=
  match o with PDict d => Ok d | _ => Err TypeError end.
Definition item (d : dict string pyobj) (k : string) : result opt_error pyobj :=
  match d @? k with Some o => Ok o | None => Err KeyError end.
Definition get_item (d : dict string pyobj) (k : string) : pyobj := dget_or d k PNone.

Definition as_int (o : pyobj) : result opt_error Z :=
  match o with PInt z => Ok z | _ => Err TypeError end.
Definition as_num (o : pyobj) : result opt_error Q :=
  match o with PInt z => Ok (inject_Z z) | PFloat q => Ok q | _ => Err TypeError end.
Definition as_opt {A} (f : pyobj -> result opt_error A) (o : pyobj) : result opt_error (option A) :=
  match o with PNone => Ok None | _ => let? a := f o in Ok (Some a) end.
Definition as_str (o : pyobj) : result opt_error string :=
  match o with PStr s => Ok s | _ => Err TypeError end.
Definition as_list (o : pyobj) : result opt_error (list pyobj) :=
  match o with PList l => Ok l | _ => Err TypeError end.

Definition parse_period (o : pyobj) : result opt_error ChargingSchedulePeriod :=
  let? d := obj_of o in
  let? s := item d "startPeriod" in
  let? s := as_int s in
  let? l := item d "limit" in
  let? l := as_num l in
  let? dl := as_opt as_num (get_item d "dischargingLimit") in
  let? sp := as_opt as_num (get_item d "setpoint") in
  let? om := as_opt as_str (get_item d "operationMode") in
  Ok {| start_period := s; limit := l; discharging_limit := dl; setpoint := sp;
        setpoint_reactive := get_item d "setpointReactive";
        number_phases := get_item d "numberPhases"; phase_to_use := get_item d "phaseToUse";
        operation_mode := om; v2x_freq_watt_curve := get_item d "v2xFreqWattCurve";
        v2x_signal_watt_curve := get_item d "v2xSignalWattCurve";
        v2x_baseline := get_item d "v2xBaseline" |}.

Definition _parse_charging_profile (profile_data : pyobj) : result opt_error ChargingProfile :=
  let? d := obj_of profile_data in
  let? sd := obj_of (dget_or d "chargingSchedule" (PDict [])) in
  let? ps := as_list (dget_or sd "chargingSchedulePeriod" (PList [])) in
  let? periods := rmap parse_period ps in
  let? sid := item sd "id" in
  let? u := enum_of rate_units unit_value (dget_or sd "chargingRateUnit" (PStr "W")) in
  let schedule :=
    {| cs_id := sid; start_schedule := get_item sd "startSchedule";
       cs_duration := get_item sd "duration"; charging_rate_unit := u;
       charging_schedule_period := periods; min_charging_rate := get_item sd "minChargingRate" |} in
  let? pid := item d "id" in
  let? pid := as_int pid in
  let? sl := item d "stackLevel" in
  let? sl := as_int sl in
  let? pp := item d "chargingProfilePurpose" in
  let? pp := enum_of purposes purpose_value pp in
  let? pk := item d "chargingProfileKind" in
  let? pk := enum_of kinds kind_value pk in
  let? vf := as_opt as_str (get_item d "validFrom") in
  let? vt := as_opt as_str (get_item d "validTo") in
  Ok {| cp_id := pid; stack_level := sl; charging_profile_purpose := pp;
        charging_profile_kind := pk; charging_schedule := schedule; valid_from := vf;
        valid_to := vt; recurrency_kind := get_item d "recurrencyKind";
        cp_transaction_id := get_item d "transactionId" |}.

Definition period_to_dict (p : ChargingSchedulePeriod) : pyobj :=
  PDict [("startPeriod", PInt (start_period p)); ("limit", PFloat (limit p));
         ("dischargingLimit", pyopt PFloat (discharging_limit p));
         ("setpoint", pyopt PFloat (setpoint p));
         ("setpointReactive", setpoint_reactive p); ("numberPhases", number_phases p);
         ("phaseToUse", phase_to_use p); ("operationMode", pyopt PStr (operation_mode p));
         ("v2xFreqWattCurve", v2x_freq_watt_curve p);
         ("v2xSignalWattCurve", v2x_signal_watt_curve p); ("v2xBaseline", v2x_baseline p)].

Definition _profile_to_dict (p : ChargingProfile) : pyobj :=
  let s := charging_schedule p in
  PDict [("id", PInt (cp_id p)); ("stackLevel", PInt (stack_level p));
         ("chargingProfilePurpose", PStr (purpose_value (charging_profile_purpose p)));
         ("chargingProfileKind", PStr (kind_value (charging_profile_kind p)));
         ("chargingSchedule",
          PDict [("id", cs_id s); ("startSchedule", start_schedule s);
                 ("duration", cs_duration s);
                 ("chargingRateUnit", PStr (unit_value (charging_rate_unit s)));
                 ("chargingSchedulePeriod",
                  PList (map period_to_dict (charging_schedule_period s)));
                 ("minChargingRate", min_charging_rate s)]);
         ("validFrom", pyopt PStr (valid_from p)); ("validTo", pyopt PStr (valid_to p));
         ("recurrencyKind", recurrency_kind p); ("transactionId", cp_transaction_id p)].

(** ** The [charging_profiles] table *)

Record profile_row := {
  pr_station : string;
  pr_evse : Z;
  pr_profile_id : Z;
  pr_stack_level : Z;
  pr_purpose : string;
  pr_kind : string;
  pr_schedule : pyobj;
  pr_valid_from : option Z;
  pr_valid_to : option Z;
  pr_created_at : Z
}.

Definition same_slot (station : string) (evse : Z) (r : profile_row) : bool :=
  String.eqb (pr_station r) station && (pr_evse r =? evse).

(** [INSERT ... ON CONFLICT (station_id, evse_id, profile_id) DO UPDATE]: the
    creation time of an existing row stays. *)
Definition store_charging_profile (r : profile_row) (table : list profile_row) : list profile_row :=
  let conflict x := same_slot (pr_station r) (pr_evse r) x && (pr_profile_id x =? pr_profile_id r) in
  if existsb conflict table
  then map (fun x => if conflict x
                     then {| pr_station := pr_station x; pr_evse := pr_evse x;
                             pr_profile_id := pr_profile_id x; pr_stack_level := pr_stack_level r;
                             pr_purpose := pr_purpose r; pr_kind := pr_kind r;
                             pr_schedule := pr_schedule r; pr_valid_from := pr_valid_from r;
                             pr_valid_to := pr_valid_to r; pr_created_at := pr_created_at x |}
                     else x) table
  else table ++ [r].

Definition remove_charging_profile (station : string) (evse pid : Z) (table : list profile_row)
  : list profile_row :=
  List.filter (fun r => negb (same_slot station evse r && (pr_profile_id r =? pid))) table.

(** [ORDER BY stack_level DESC, created_at DESC]. *)
Definition row_before (a b : profile_row) : bool :=
  (pr_stack_level b <? pr_stack_level a)
  || ((pr_stack_level a =? pr_stack_level b) && (pr_created_at b <=? pr_created_at a)).

(** The filters are alternatives: the first one given is the only one applied.
    A missing EVSE is SQL's [NULL], which equals nothing. *)
Definition get_charging_profiles_rows (table : list profile_row) (station : string)
    (evse : option Z) (profile_id : option Z) (purpose : option string) (level : option Z)
  : list profile_row :=
  let matches r :=
    match evse with Some e => same_slot station e r | None => false end
    && match profile_id, purpose, level with
       | Some i, _, _ => pr_profile_id r =? i
       | None, Some p, _ => String.eqb (pr_purpose r) p
       | None, None, Some l => pr_stack_level r =? l
       | None, None, None => true
       end in
  sort_by row_before (List.filter matches table).

Definition get_active_charging_profiles (table : list profile_row) (station : string) (evse now : Z)
  : list profile_row :=
  sort_by row_before
    (List.filter (fun r => same_slot station evse r
       && match pr_valid_from r with Some t => t <=? now | None => true end
       && match pr_valid_to r with Some t => now <=? t | None => true end) table).

(** ** The manager *)

Record ChargingProfileManager := {
  pm_table : list profile_row;
  cache_manager : CacheManager (list ChargingProfile);
  profile_cache : dict string (list ChargingProfile)
}.

(** [ChargingProfileManager.__init__] with its own cache: 1000 entries, 300 s. *)
Definition init_profiles (table : list profile_row) : ChargingProfileManager :=
  {| pm_table := table; cache_manager := init_cache 1000 (300 * usec) None; profile_cache := [] |}.

(** Replies: the reason code of a rejection is kept, its text is not. *)
Inductive reply (A : Type) : Type :=
| Accepted (a : A)
| Rejected (reason_code : string).
Arguments Accepted {A} a.
Arguments Rejected {A} reason_code.

Definition slot_key (station : string) (evse : Z) : string := station +:+ ":" +:+ pretty evse.
Definition active_key (station : string) (evse : Z) : string :=
  "active_profiles:" +:+ slot_key station evse.

(** [_get_profiles]. *)
Definition _get_profiles (table : list profile_row) (station : string) (evse : Z)
    (profile_id : option Z) (purpose : option string) (level : option Z)
  : result opt_error (list ChargingProfile) :=
  rmap (fun r => _parse_charging_profile (pr_schedule r))
    (get_charging_profiles_rows table station (Some evse) profile_id purpose level).

(** [s.replace("Z", "+00:00")]. *)
Fixpoint replace_z (s : string) : string :=
  match s with
  | EmptyString => EmptyString
  | String c s' => if Ascii.eqb c "Z"%char then "+00:00" +:+ replace_z s' else String c (replace_z s')
  end.

(** A non-empty optional string. *)
Definition given (o : option string) : option string :=
  match o with Some (String _ _ as s) => Some s | _ => None end.

Section Manager.
(** [datetime.fromisoformat], and how the database driver binds a text to a
    timestamp column ([None]: it raises). *)
Context (fromisoformat : string -> option datetime) (bind_time : string -> option Z).

(** Why a period is refused. *)
Definition period_ok (p : ChargingSchedulePeriod) : bool :=
  negb (start_period p <? 0)
  && negb (limit p <?q 0)%Q
  && match discharging_limit p with Some dl => negb (0 <?q dl)%Q | None => true end
  && match setpoint p with
     | Some sp =>
         negb ((0 <?q limit p)%Q && (limit p <?q sp)%Q)
         && match discharging_limit p with Some dl => negb (sp <?q dl)%Q | None => true end
     | None => true
     end.

(** The reason code of the first failed check, [None] when valid. Comparing an
    aware with a naive instant raises. *)
Definition _validate_profile (existing : list ChargingProfile) (p : ChargingProfile)
  : result opt_error (option string) :=
  if existsb (fun q => cp_id q =? cp_id p) existing then Ok (Some "Duplicate"%string)
  else if (stack_level p <? 0) || (10 <? stack_level p)
  then Ok (Some "PropertyConstraintViolation"%string)
  else match charging_schedule_period (charging_schedule p) with
  | [] => Ok (Some "PropertyConstraintViolation"%string)
  | periods =>
      if negb (forallb period_ok periods) then Ok (Some "PropertyConstraintViolation"%string)
      else match given (valid_from p), given (valid_to p) with
      | Some vf, Some vt =>
          match fromisoformat (replace_z vf), fromisoformat (replace_z vt) with
          | Some a, Some b =>
              if negb (dt_compatible a b) then Err TypeError
              else if dt_us b <=? dt_us a then Ok (Some "PropertyConstraintViolation"%string)
              else Ok None
          | _, _ => Ok (Some "PropertyConstraintViolation"%string)
          end
      | _, _ => Ok None
      end
  end.

(** [self.stacking_limits]: one profile per purpose. *)
Definition stacking_limit (p : ChargingProfilePurpose) : nat := 1.

Definition _check_stacking_limits (existing : list ChargingProfile) (p : ChargingProfile) : bool :=
  negb (stacking_limit (charging_profile_purpose p)
        <=? length (List.filter (fun q =>
              bool_decide (charging_profile_purpose q = charging_profile_purpose p)
              && (stack_level q =? stack_level p)%Z) existing))%nat.

(** The timestamp columns of a profile, or the driver's error. *)
Definition bind_opt (o : option string) : result opt_error (option Z) :=
  match o with
  | None => Ok None
  | Some s => match bind_time s with Some t => Ok (Some t) | None => Err TypeError end
  end.

Definition _store_profile (station : string) (evse now : Z) (p : ChargingProfile)
    (m : ChargingProfileManager) : result opt_error ChargingProfileManager :=
  let? vf := bind_opt (valid_from p) in
  let? vt := bind_opt (valid_to p) in
  Ok {| pm_table := store_charging_profile
          {| pr_station := station; pr_evse := evse; pr_profile_id := cp_id p;
             pr_stack_level := stack_level p;
             pr_purpose := purpose_value (charging_profile_purpose p);
             pr_kind := kind_value (charging_profile_kind p);
             pr_schedule := _profile_to_dict p; pr_valid_from := vf; pr_valid_to := vt;
             pr_created_at := now |} (pm_table m);
        cache_manager := cache_manager m; profile_cache := profile_cache m |}.

Definition _update_cache (station : string) (evse : Z) (p : ChargingProfile)
    (m : ChargingProfileManager) : ChargingProfileManager :=
  let k := slot_key station evse in
  let l := dget_or (profile_cache m) k [] in
  {| pm_table := pm_table m; cache_manager := cache_manager m;
     profile_cache := profile_cache m
       +{ k := List.filter (fun q => negb (cp_id q =? cp_id p)) l ++ [p] } |}.

(** Every exception becomes [InternalError]; the changes made before stay. *)
Definition set_charging_profile (station : string) (evse now : Z) (data : pyobj)
    (m : ChargingProfileManager) : reply unit * ChargingProfileManager :=
  let checked :=
    let? p := _parse_charging_profile data in
    let? existing := _get_profiles (pm_table m) station evse None None None in
    let? v := _validate_profile existing p in
    Ok (p, existing, v) in
  match checked with
  | Err _ => (Rejected "InternalError", m)
  | Ok (_, _, Some reason) => (Rejected reason, m)
  | Ok (p, existing, None) =>
      if _check_stacking_limits existing p
      then match _store_profile station evse now p m with
           | Ok m => (Accepted tt, _update_cache station evse p m)
           | Err _ => (Rejected "InternalError", m)
           end
      else (Rejected "PropertyConstraintViolation", m)
  end.

Definition _refresh_cache (station : string) (evse : Z) (m : ChargingProfileManager)
  : result opt_error ChargingProfileManager :=
  let? l := _get_profiles (pm_table m) station evse None None None in
  Ok {| pm_table := pm_table m; cache_manager := cache_manager m;
        profile_cache := profile_cache m +{ slot_key station evse := l } |}.

Definition remove_all (station : string) (evse : Z) (ids : list Z) (m : ChargingProfileManager)
  : ChargingProfileManager :=
  {| pm_table := foldl (fun t i => remove_charging_profile station evse i t) (pm_table m) ids;
     cache_manager := cache_manager m; profile_cache := profile_cache m |}.

Definition clear_charging_profile (station : string) (evse : Z) (profile_id : option Z)
    (purpose : option string) (level : option Z) (m : ChargingProfileManager)
  : reply unit * ChargingProfileManager :=
  match _get_profiles (pm_table m) station evse profile_id purpose level with
  | Err _ => (Rejected "InternalError", m)
  | Ok [] => (Accepted tt, m)
  | Ok profiles =>
      let m := remove_all station evse (map cp_id profiles) m in
      match _refresh_cache station evse m with
      | Ok m => (Accepted tt, m)
      | Err _ => (Rejected "InternalError", m)
      end
  end.

Definition get_charging_profiles (station : string) (evse : Z) (profile_id : option Z)
    (purpose : option string) (level : option Z) (m : ChargingProfileManager)
  : reply (list pyobj) :=
  match _get_profiles (pm_table m) station evse profile_id purpose level with
  | Ok l => Accepted (map _profile_to_dict l)
  | Err _ => Rejected "InternalError"
  end.

(** The new cache, then the old one, then the table. *)
Definition _get_active_profiles (station : string) (evse now : Z) (m : ChargingProfileManager)
  : result opt_error (list ChargingProfile) * ChargingProfileManager :=
  let '(cached, cm) := cache_get now (active_key station evse) (cache_manager m) in
  let m := {| pm_table := pm_table m; cache_manager := cm; profile_cache := profile_cache m |} in
  match cached with
  | Some ((_ :: _) as l) => (Ok l, m)
  | _ =>
      match profile_cache m @? slot_key station evse with
      | Some l => (Ok l, m)
      | None =>
          match rmap (fun r => _parse_charging_profile (pr_schedule r))
                  (get_active_charging_profiles (pm_table m) station evse now) with
          | Err e => (Err e, m)
          | Ok l =>
              (Ok l, {| pm_table := pm_table m;
                        cache_manager := cache_set now (active_key station evse) l
                                           (Some (300 * usec)) TTL (cache_manager m);
                        profile_cache := profile_cache m +{ slot_key station evse := l } |})
          end
      end
  end.

(** ** The composite schedule *)

(** [range(a, b, step)] for a positive step. *)
Definition py_range (a b step : Z) : list Z :=
  map (fun i => a + Z.of_nat i * step) (seq 0 (Z.to_nat ((b - a + step - 1) / step))).

Record slot_data := {
  charge_limit : Q;
  discharge_limit : option Q;
  sd_setpoint : option Q;
  sd_setpoint_reactive : pyobj;
  sd_operation_mode : option string;
  sd_v2x_freq_watt_curve : pyobj;
  sd_v2x_signal_watt_curve : pyobj;
  sd_v2x_baseline : pyobj;
  sd_source : option Z;
  sd_priority : Z
}.

Definition empty_slot : slot_data :=
  {| charge_limit := 0; discharge_limit := Some 0%Q; sd_setpoint := None;
     sd_setpoint_reactive := PNone; sd_operation_mode := None; sd_v2x_freq_watt_curve := PNone;
     sd_v2x_signal_watt_curve := PNone; sd_v2x_baseline := PNone; sd_source := None;
     sd_priority := 0 |}.

Definition _get_profile_priority (p : ChargingProfile) : Z :=
  match charging_profile_purpose p with
  | CHARGING_STATION_EXTERNAL_CONSTRAINTS => 100
  | CHARGING_STATION_MAX_PROFILE => 90
  | PRIORITY_CHARGING => 80
  | TX_PROFILE => 70
  | TX_DEFAULT_PROFILE => 60
  | LOCAL_GENERATION => 50
  end.

Definition _should_override_slot_v2g (p : ChargingProfile) (s : slot_data) : bool :=
  match sd_source s with
  | None => true
  | Some src =>
      if src <? stack_level p then true
      else if stack_level p =? src
      then match charging_profile_purpose p with
           | PRIORITY_CHARGING => true
           | LOCAL_GENERATION => false
           | CHARGING_STATION_EXTERNAL_CONSTRAINTS => sd_priority s <? _get_profile_priority p
           | _ => false
           end
      else false
  end.

Definition fill_slot (p : ChargingProfile) (period : ChargingSchedulePeriod) : slot_data :=
  {| charge_limit := limit period; discharge_limit := discharging_limit period;
     sd_setpoint := setpoint period; sd_setpoint_reactive := setpoint_reactive period;
     sd_operation_mode := operation_mode period;
     sd_v2x_freq_watt_curve := v2x_freq_watt_curve period;
     sd_v2x_signal_watt_curve := v2x_signal_watt_curve period;
     sd_v2x_baseline := v2x_baseline period; sd_source := Some (stack_level p);
     sd_priority := _get_profile_priority p |}.

Definition apply_to_slot (p : ChargingProfile) (period : ChargingSchedulePeriod)
    (slots : dict Z slot_data) (t : Z) : dict Z slot_data :=
  match slots @? t with
  | Some s => if _should_override_slot_v2g p s then slots +{ t := fill_slot p period } else slots
  | None => slots
  end.

(** A period covers the minute that starts with it. *)
Definition _apply_profile_to_slots_v2g (duration : Z) (slots : dict Z slot_data)
    (p : ChargingProfile) : dict Z slot_data :=
  foldl (fun slots period =>
           foldl (apply_to_slot p period) slots
             (py_range (start_period period) (Z.min (start_period period + 60) duration) 60))
    slots (charging_schedule_period (charging_schedule p)).

Definition time_slots (profiles : list ChargingProfile) (duration : Z) : dict Z slot_data :=
  foldl (_apply_profile_to_slots_v2g duration)
    (map (fun t => (t, empty_slot)) (py_range 0 duration 60))
    (sort_by (fun a b => stack_level b <=? stack_level a) profiles).

(** [state_key] tuples compared with [!=]. *)
Definition opt_q_eq (a b : option Q) : bool :=
  match a, b with
  | Some x, Some y => (x =?q y)%Q
  | None, None => true
  | _, _ => false
  end.
Definition same_state (a b : slot_data) : bool :=
  (charge_limit a =?q charge_limit b)%Q && opt_q_eq (discharge_limit a) (discharge_limit b)
  && opt_q_eq (sd_setpoint a) (sd_setpoint b)
  && bool_decide (sd_operation_mode a = sd_operation_mode b).

(** The loop that merges equal neighbours; [cur] is the slot the current period
    started with. *)
Fixpoint merge_slots (cur : option (Z * slot_data)) (l : list (Z * slot_data))
  : list (Z * slot_data) :=
  match l with
  | [] => match cur with Some c => [c] | None => [] end
  | (t, s) :: l' =>
      match cur with
      | Some (t0, s0) =>
          if same_state s0 s then merge_slots cur l' else (t0, s0) :: merge_slots (Some (t, s)) l'
      | None => merge_slots (Some (t, s)) l'
      end
  end.

(** [if x is not None: period[k] = x]. *)
Definition field_if (k : string) (o : pyobj) : dict string pyobj :=
  match o with PNone => [] | _ => [(k, o)] end.

Definition _create_period_from_slot_data (start : Z) (s : slot_data) : dict string pyobj :=
  [("startPeriod", PInt start); ("limit", PFloat (charge_limit s)); ("numberPhases", PInt 3)]
  ++ field_if "dischargingLimit" (pyopt PFloat (discharge_limit s))
  ++ field_if "setpoint" (pyopt PFloat (sd_setpoint s))
  ++ field_if "setpointReactive" (sd_setpoint_reactive s)
  ++ field_if "operationMode" (pyopt PStr (sd_operation_mode s))
  ++ field_if "v2xFreqWattCurve" (sd_v2x_freq_watt_curve s)
  ++ field_if "v2xSignalWattCurve" (sd_v2x_signal_watt_curve s)
  ++ field_if "v2xBaseline" (sd_v2x_baseline s).

(** The slots are already in the order of their keys. *)
Definition composite_periods (profiles : list ChargingProfile) (duration : Z)
  : list (Z * slot_data) :=
  merge_slots None (time_slots profiles duration).

Record CompositeSchedule := {
  cps_duration : Z;
  cps_rate_unit : string;
  cps_periods : list (dict string pyobj)
}.

Definition _calculate_composite_schedule (profiles : list ChargingProfile) (duration : Z)
    (unit : option string) : CompositeSchedule :=
  {| cps_duration := duration;
     cps_rate_unit := match given unit with Some u => u | None => "W" end;
     cps_periods := map (fun '(t, s) => _create_period_from_slot_data t s)
                      (composite_periods profiles duration) |}.

Definition get_composite_schedule (station : string) (evse duration now : Z) (unit : option string)
    (m : ChargingProfileManager) : reply CompositeSchedule * ChargingProfileManager :=
  match _get_active_profiles station evse now m with
  | (Err _, m) => (Rejected "InternalError", m)
  | (Ok [], m) => (Rejected "NoActiveChargingProfile", m)
  | (Ok profiles, m) => (Accepted (_calculate_composite_schedule profiles duration unit), m)
  end.

(** ** Dynamic updates

    The query gets no EVSE, and its rows carry only the schedule column. *)
Definition update_dynamic_schedule (station : string) (profile_id : Z)
    (m : ChargingProfileManager) : reply unit * ChargingProfileManager :=
  match get_charging_profiles_rows (pm_table m) station None None None None with
  | [] => (Rejected "NotFound", m)
  | _ => (Rejected "InternalError", m)
  end.
End Manager.
