(* ===== verification/ProfilesFacts.v ===== *)
(** * Properties of the charging profile manager

    Profiles survive storage, the table keeps its uniqueness and stacking rules,
    which profile decides a minute of the composite schedule, that merging equal
    minutes loses nothing, and how the caches part from the table. *)

From S2P Require Import Prelude Models Cache CacheFacts Profiles.
From Stdlib Require Import ZArith QArith Lia Ascii.
From stdpp Require Import base list strings gmap sorting pretty.

#[local] Open Scope Z_scope.

(** ** Round trip through JSON *)

Lemma as_opt_num o : as_opt as_num (pyopt PFloat o) = Ok o.
Proof. by destruct o. Qed.

Lemma as_opt_str o : as_opt as_str (pyopt PStr o) = Ok o.
Proof. by destruct o. Qed.

Lemma purpose_roundtrip p : enum_of purposes purpose_value (PStr (purpose_value p)) = Ok p.
Proof. by destruct p. Qed.
Lemma kind_roundtrip k : enum_of kinds kind_value (PStr (kind_value k)) = Ok k.
Proof. by destruct k. Qed.
Lemma unit_roundtrip u : enum_of rate_units unit_value (PStr (unit_value u)) = Ok u.
Proof. by destruct u. Qed.

Lemma parse_period_to_dict p : parse_period (period_to_dict p) = Ok p.
Proof.
  unfold parse_period, period_to_dict. cbn [obj_of rbind].
  change (get_item _ "dischargingLimit") with (pyopt PFloat (discharging_limit p)).
  change (get_item _ "setpoint") with (pyopt PFloat (setpoint p)).
  change (get_item _ "operationMode") with (pyopt PStr (operation_mode p)).
  rewrite !as_opt_num, as_opt_str. by destruct p.
Qed.

Lemma parse_periods_to_dict l : rmap parse_period (map period_to_dict l) = Ok l.
Proof.
  induction l as [|p l IH]; [done|]. cbn [map rmap]. rewrite parse_period_to_dict. cbn [rbind].
  by rewrite IH.
Qed.

Lemma parse_to_dict p : _parse_charging_profile (_profile_to_dict p) = Ok p.
Proof.
  unfold _parse_charging_profile, _profile_to_dict. cbn [obj_of rbind].
  change (dget_or _ "chargingSchedule" _) with
    (PDict [("id", cs_id (charging_schedule p)); ("startSchedule", start_schedule (charging_schedule p));
            ("duration", cs_duration (charging_schedule p));
            ("chargingRateUnit", PStr (unit_value (charging_rate_unit (charging_schedule p))));
            ("chargingSchedulePeriod",
             PList (map period_to_dict (charging_schedule_period (charging_schedule p))));
            ("minChargingRate", min_charging_rate (charging_schedule p))]).
  cbn [obj_of rbind].
  change (dget_or _ "chargingSchedulePeriod" _) with
    (PList (map period_to_dict (charging_schedule_period (charging_schedule p)))).
  cbn [as_list rbind]. rewrite parse_periods_to_dict. cbn [rbind].
  change (dget_or _ "chargingRateUnit" _) with
    (PStr (unit_value (charging_rate_unit (charging_schedule p)))).
  rewrite unit_roundtrip.
  change (item _ "chargingProfilePurpose") with
    (@Ok opt_error _ (PStr (purpose_value (charging_profile_purpose p)))).
  change (item _ "chargingProfileKind") with
    (@Ok opt_error _ (PStr (kind_value (charging_profile_kind p)))).
  change (get_item _ "validFrom") with (pyopt PStr (valid_from p)).
  change (get_item _ "validTo") with (pyopt PStr (valid_to p)).
  cbn [rbind item as_int].
  rewrite purpose_roundtrip. cbn [rbind]. rewrite kind_roundtrip. cbn [rbind].
  rewrite !as_opt_str. destruct p as [? ? ? ? []]. reflexivity.
Qed.

Theorem profile_json_roundtrip p :
  _parse_charging_profile (_profile_to_dict p) = Ok p.
Proof. apply parse_to_dict. Qed.

(** ** Which profile decides a minute *)

Lemma py_range_elem a b k : k ∈ py_range a b 60 <-> exists i, 0 <= i /\ k = a + i * 60 /\ k < b.
Proof.
  unfold py_range. rewrite list_elem_of_fmap. set (q := (b - a + 60 - 1) / 60).
  assert (forall i, i < q <-> a + i * 60 < b) as Hq.
  { intros i. assert (60 * q <= b - a + 60 - 1 < 60 * q + 60) as Hb
      by (unfold q; pose proof (Z.div_mod (b - a + 60 - 1) 60 ltac:(lia));
          pose proof (Z.mod_pos_bound (b - a + 60 - 1) 60 ltac:(lia)); lia). lia. }
  split.
  - intros (i & -> & Hi). apply elem_of_seq_0 in Hi. exists (Z.of_nat i).
    split_and!; [lia | done |]. apply Hq. lia.
  - intros (i & Hi & -> & Hlt). apply Hq in Hlt. exists (Z.to_nat i).
    split; [f_equal; lia|]. apply elem_of_seq_0. lia.
Qed.

(** A period reaches only the minute that starts with it. *)
Lemma one_minute s d :
  py_range s (Z.min (s + 60) d) 60 = if s <? d then [s] else [].
Proof.
  unfold py_range. destruct (Z.ltb_spec s d).
  - replace ((Z.min (s + 60) d - s + 60 - 1) / 60) with 1.
    2:{ apply (Z.div_unique _ 60 _ (Z.min (s + 60) d - s - 1)); lia. }
    change (Z.to_nat 1) with 1%nat. cbn [seq map]. f_equal. cbn. apply Z.add_0_r.
  - replace (Z.to_nat ((Z.min (s + 60) d - s + 60 - 1) / 60)) with 0%nat; [done|].
    assert ((Z.min (s + 60) d - s + 60 - 1) / 60 < 1) by (apply Z.div_lt_upper_bound; lia). lia.
Qed.

(** What one profile does to the slot of minute [t]. *)
Definition apply_periods (p : ChargingProfile) (t : Z) (s : slot_data)
    (periods : list ChargingSchedulePeriod) : slot_data :=
  foldl (fun s period =>
           if (start_period period =? t) && _should_override_slot_v2g p s
           then fill_slot p period else s) s periods.

Definition apply_profile (t : Z) (s : slot_data) (p : ChargingProfile) : slot_data :=
  apply_periods p t s (charging_schedule_period (charging_schedule p)).

Lemma apply_periods_get duration p periods slots t :
  t < duration ->
  foldl (fun slots period =>
           foldl (apply_to_slot p period) slots
             (py_range (start_period period) (Z.min (start_period period + 60) duration) 60))
    slots periods @? t
  = option_map (fun s => apply_periods p t s periods) (slots @? t).
Proof.
  intros Ht. revert slots. induction periods as [|pd periods IH]; intros slots; cbn [foldl].
  { by destruct (slots @? t). }
  rewrite IH, one_minute. destruct (Z.ltb_spec (start_period pd) duration) as [Hd|Hd]; cbn [foldl].
  - unfold apply_to_slot. destruct (decide (start_period pd = t)) as [Hst|Hne].
    1: rewrite Hst.
    + destruct (slots @? t) as [s|] eqn:E; [|by rewrite E]. cbn [option_map].
      assert (apply_periods p t s (pd :: periods) =
              apply_periods p t (if _should_override_slot_v2g p s then fill_slot p pd else s) periods)
        as ->; [|destruct (_should_override_slot_v2g p s); by rewrite ?dget_dset_eq, ?E].
      unfold apply_periods. cbn [foldl]. by rewrite (proj2 (Z.eqb_eq _ _) Hst).
    + assert ((start_period pd =? t) = false) as En by lia.
      assert (forall s, apply_periods p t s (pd :: periods) = apply_periods p t s periods) as Hs
        by (intros; unfold apply_periods; cbn [foldl]; by rewrite En).
      destruct (slots @? start_period pd) as [s0|]; [destruct (_should_override_slot_v2g p s0)|];
        rewrite ?dget_dset_ne by done; destruct (slots @? t); cbn [option_map]; by rewrite ?Hs.
  - assert ((start_period pd =? t) = false) as En by lia.
    unfold apply_periods. cbn [foldl]. by rewrite En.
Qed.

Lemma apply_profiles_get duration profiles slots t :
  t < duration ->
  foldl (_apply_profile_to_slots_v2g duration) slots profiles @? t
  = option_map (fun s => foldl (apply_profile t) s profiles) (slots @? t).
Proof.
  intros Ht. revert slots. induction profiles as [|p ps IH]; intros slots; cbn [foldl].
  { by destruct (slots @? t). }
  rewrite IH. unfold _apply_profile_to_slots_v2g. rewrite apply_periods_get by done.
  by destruct (slots @? t).
Qed.

Lemma dget_const_Z {V} (l : list Z) (v : V) k :
  map (fun x => (x, v)) l @? k = if decide (k ∈ l) then Some v else None.
Proof.
  induction l as [|x l IH]; cbn.
  - by rewrite decide_False by set_solver.
  - destruct (decide (k = x)) as [->|]; [by rewrite decide_True by set_solver|].
    rewrite IH. repeat case_decide; set_solver.
Qed.

Definition by_stack (l : list ChargingProfile) : list ChargingProfile :=
  sort_by (fun a b => stack_level b <=? stack_level a) l.

Lemma time_slots_get profiles duration t :
  t ∈ py_range 0 duration 60 ->
  time_slots profiles duration @? t = Some (foldl (apply_profile t) empty_slot (by_stack profiles)).
Proof.
  intros Ht. unfold time_slots. rewrite apply_profiles_get.
  - by rewrite dget_const_Z, decide_True.
  - apply py_range_elem in Ht as (i & _ & _ & ?). done.
Qed.

(** A profile has a period that starts at [t]. *)
Definition speaks (t : Z) (p : ChargingProfile) : Prop :=
  exists pd, pd ∈ charging_schedule_period (charging_schedule p) /\ start_period pd = t.

(** The slot is untouched, or holds a period of a profile of [l] that starts at [t]. *)
Definition decided (t : Z) (l : list ChargingProfile) (s : slot_data) : Prop :=
  (s = empty_slot /\ forall p, p ∈ l -> ~ speaks t p) \/
  (exists p pd, p ∈ l /\ pd ∈ charging_schedule_period (charging_schedule p) /\
     start_period pd = t /\ s = fill_slot p pd /\
     forall p', p' ∈ l -> speaks t p' -> stack_level p' <= stack_level p).

Lemma should_override_level p s src :
  sd_source s = Some src -> stack_level p <= src -> _should_override_slot_v2g p s = true ->
  stack_level p = src.
Proof.
  intros Hs Hle H. unfold _should_override_slot_v2g in H. rewrite Hs in H.
  destruct (Z.ltb_spec src (stack_level p)); [lia|].
  destruct (Z.eqb_spec (stack_level p) src); [done|discriminate].
Qed.

(** One profile, applied after profiles of no lower level. *)
Lemma decided_periods t l p periods s done_ :
  (forall q, q ∈ l -> stack_level p <= stack_level q) ->
  charging_schedule_period (charging_schedule p) = done_ ++ periods ->
  ((s = empty_slot /\ (forall q, q ∈ l -> ~ speaks t q) /\
    (forall pd, pd ∈ done_ -> start_period pd <> t)) \/
   (exists q pd, q ∈ l ++ [p] /\ pd ∈ charging_schedule_period (charging_schedule q) /\
      start_period pd = t /\ s = fill_slot q pd /\
      forall q', q' ∈ l ++ [p] -> speaks t q' -> stack_level q' <= stack_level q)) ->
  decided t (l ++ [p]) (apply_periods p t s periods).
Proof.
  intros Hlow. revert s done_. induction periods as [|pd periods IH]; intros s done_ Hps Hinv.
  { rewrite app_nil_r in Hps. destruct Hinv as [(-> & Hl & Hd)|Hq]; [left|by right].
    split; [done|]. intros q [Hq| ->%list_elem_of_singleton]%elem_of_app; [auto|].
    intros (pd & Hpd & Ht). rewrite Hps in Hpd. by apply (Hd pd). }
  unfold apply_periods. cbn [foldl]. fold (apply_periods p t).
  apply (IH _ (done_ ++ [pd])); [by rewrite Hps, <- app_assoc|].
  destruct (Z.eqb_spec (start_period pd) t) as [Ht|Ht]; cbn [andb].
  - assert (pd ∈ charging_schedule_period (charging_schedule p)) as Hpd by (rewrite Hps; set_solver).
    destruct Hinv as [(-> & Hl & Hd)|(q & pq & Hq & Hpq & Htq & -> & Hmax)].
    + right. cbn. exists p, pd. split_and!; [set_solver | done | done | done |].
      intros q' [Hq'| ->%list_elem_of_singleton]%elem_of_app Hsp; [|lia]. by apply Hl in Hsp.
    + right. destruct (_should_override_slot_v2g p (fill_slot q pq)) eqn:Eo;
        [|by exists q, pq].
      assert (stack_level p <= stack_level q) as Hle
        by (apply Hmax; [set_solver | by exists pd]).
      pose proof (should_override_level p (fill_slot q pq) _ eq_refl Hle Eo) as Heq.
      exists p, pd. split_and!; [set_solver | done | done | done |].
      intros q' Hq' Hsp. rewrite Heq. auto.
  - destruct Hinv as [(-> & Hl & Hd)|Hq]; [left|by right].
    split_and!; [done | done |]. intros pd' [?| ->%list_elem_of_singleton]%elem_of_app; auto.
Qed.

Lemma decided_profiles t l :
  StronglySorted (fun a b => (stack_level b <=? stack_level a) = true) l ->
  decided t l (foldl (apply_profile t) empty_slot l).
Proof.
  induction l as [|p l IH] using rev_ind; intros Hs.
  { left. split; [done|]. by intros p ?%not_elem_of_nil. }
  rewrite foldl_snoc.
  assert (StronglySorted (fun a b => (stack_level b <=? stack_level a) = true) l /\
          (forall q, q ∈ l -> stack_level p <= stack_level q)) as [Hs' Hlow].
  { clear IH. induction l as [|x l IHl]; [split; [constructor | by intros q ?%not_elem_of_nil]|].
    inversion Hs as [|? ? Hs1 Hf]; subst. destruct (IHl Hs1) as [H1 H2].
    apply Forall_app in Hf as [Hf1 Hf2]. rewrite Forall_singleton in Hf2.
    cbn beta in Hf2. apply Z.leb_le in Hf2.
    split; [by constructor|]. intros q [->|Hq]%elem_of_cons; [exact Hf2|auto]. }
  specialize (IH Hs'). revert IH. generalize (foldl (apply_profile t) empty_slot l). intros s IH.
  unfold apply_profile. apply (decided_periods _ _ _ _ _ []); [done | done |].
  destruct IH as [[-> Hn]|(q & pd & Hq & Hpd & Ht & -> & Hmax)].
  - left. split_and!; [done | done |]. by intros pd ?%not_elem_of_nil.
  - right. exists q, pd. split_and!; [set_solver | done | done | done |].
    intros q' [Hq'| ->%list_elem_of_singleton]%elem_of_app Hsp; auto.
Qed.

Lemma by_stack_sorted l :
  StronglySorted (fun a b => (stack_level b <=? stack_level a) = true) (by_stack l).
Proof.
  apply sort_by_sorted.
  - intros x y. rewrite !Z.leb_le. lia.
  - intros x y z. rewrite !Z.leb_le. lia.
Qed.

Lemma slot_decided profiles duration t :
  t ∈ py_range 0 duration 60 ->
  exists s, time_slots profiles duration @? t = Some s /\ decided t profiles s.
Proof.
  intros Ht. eexists. split; [by apply time_slots_get|].
  pose proof (decided_profiles t _ (by_stack_sorted profiles)) as Hd.
  assert (forall p, p ∈ by_stack profiles <-> p ∈ profiles) as He by (intros; apply elem_of_sort_by).
  destruct Hd as [[E Hn]|(p & pd & Hp & Hpd & Hst & E & Hmax)].
  - left. split; [done|]. intros p Hp. apply Hn. by apply He.
  - right. exists p, pd. split_and!; [by apply He | done | done | done |].
    intros p' Hp'. apply Hmax. by apply He.
Qed.

(** ** Merging equal minutes *)

Lemma same_state_refl s : same_state s s = true.
Proof.
  unfold same_state, opt_q_eq. rewrite bool_decide_true by done.
  destruct (discharge_limit s), (sd_setpoint s); repeat (apply andb_true_intro; split);
    try done; by apply Qeqb_eq.
Qed.

(** The period in force at minute [t]. *)
Definition in_force (periods : list (Z * slot_data)) (t : Z) : option (Z * slot_data) :=
  last (List.filter (fun x => fst x <=? t) periods).

Lemma merge_slots_head c l :
  exists r, merge_slots (Some c) l = c :: r /\ forall x, x ∈ r -> x ∈ l.
Proof.
  revert c. induction l as [|[t s] l IH]; intros [t0 s0]; cbn [merge_slots].
  { exists []. split; [done|]. by intros x ?%not_elem_of_nil. }
  destruct (same_state s0 s).
  - destruct (IH (t0, s0)) as (r & -> & Hr). exists r. split; [done|]. intros x Hx. right. auto.
  - destruct (IH (t, s)) as (r & -> & Hr). exists ((t, s) :: r). split; [done|].
    intros x [->|Hx]%elem_of_cons; [left | right; auto].
Qed.

Lemma filter_later (c : Z * slot_data) l t :
  fst c <= t -> Forall (fun x => t < fst x) l -> List.filter (fun x => fst x <=? t) (c :: l) = [c].
Proof.
  intros Hc Hl. cbn [List.filter]. rewrite (proj2 (Z.leb_le _ _) Hc). f_equal.
  induction Hl as [|x l Hx Hl IH]; [done|]. cbn [List.filter].
  rewrite (proj2 (Z.leb_gt _ _)) by lia. done.
Qed.

Lemma merge_slots_in_force c l :
  StronglySorted (fun a b => fst a < fst b) (c :: l) ->
  forall x, x ∈ c :: l ->
  exists y, in_force (merge_slots (Some c) l) (fst x) = Some y /\ y ∈ c :: l /\
            same_state (snd y) (snd x) = true.
Proof.
  revert c. induction l as [|[t1 s1] l IH]; intros [t0 s0] Hs x Hx.
  { apply list_elem_of_singleton in Hx as ->. exists (t0, s0). unfold in_force. cbn.
    rewrite Z.leb_refl. split_and!; [done | left | apply same_state_refl]. }
  inversion Hs as [|? ? Hs1 Hf]; subst. inversion Hs1 as [|? ? Hs2 Hf1]; subst.
  apply Forall_cons in Hf as [H01 Hf]. cbn in H01. cbn [merge_slots].
  assert (Forall (fun x : Z * slot_data => t0 < fst x) l) as Hf0 by exact Hf.
  destruct (same_state s0 s1) eqn:E.
  - assert (StronglySorted (fun a b : Z * slot_data => fst a < fst b) ((t0, s0) :: l)) as Hs0 by (by constructor).
    apply elem_of_cons in Hx as [->|Hx];
      [|apply elem_of_cons in Hx as [->|Hx]].
    + destruct (IH _ Hs0 (t0, s0)) as (y & H1 & H2 & H3); [left|]. exists y.
      split_and!; [done | set_solver | done].
    + exists (t0, s0). destruct (merge_slots_head (t0, s0) l) as (r & -> & Hr).
      split_and!; [|left|done]. unfold in_force. rewrite filter_later; [done | cbn; lia |].
      apply Forall_forall. intros y Hy. rewrite Forall_forall in Hf1. by apply Hf1, Hr.
    + destruct (IH _ Hs0 x) as (y & H1 & H2 & H3); [by right|]. exists y.
      split_and!; [done | set_solver | done].
  - apply elem_of_cons in Hx as [->|Hx].
    + exists (t0, s0). split_and!; [|left|apply same_state_refl]. unfold in_force.
      rewrite filter_later; [done | cbn; lia |].
      destruct (merge_slots_head (t1, s1) l) as (r & -> & Hr).
      constructor; [done|]. apply Forall_forall. intros y Hy. rewrite Forall_forall in Hf. auto.
    + destruct (IH _ Hs1 x Hx) as (y & H1 & H2 & H3). exists y.
      split_and!; [|by right|done]. unfold in_force in *. cbn [List.filter fst].
      assert (t0 <= fst x) as Hle.
      { apply elem_of_cons in Hx as [->|Hx]; [cbn; lia|]. rewrite Forall_forall in Hf0.
        specialize (Hf0 _ Hx). cbn in Hf0. lia. }
      rewrite (proj2 (Z.leb_le _ _) Hle), last_cons, H1. done.
Qed.

Lemma time_slots_keys profiles duration :
  dkeys (time_slots profiles duration) = py_range 0 duration 60.
Proof.
  assert (forall p pd slots t, dkeys (apply_to_slot p pd slots t) = dkeys slots) as H1.
  { intros p pd slots t. unfold apply_to_slot. destruct (slots @? t) eqn:E; [|done].
    destruct (_should_override_slot_v2g _ _); [|done]. rewrite dkeys_dset, decide_True; [done|].
    apply dmem_spec. unfold dmem. by rewrite E. }
  assert (forall p slots, dkeys (_apply_profile_to_slots_v2g duration slots p) = dkeys slots) as H2.
  { intros p slots. unfold _apply_profile_to_slots_v2g. revert slots.
    induction (charging_schedule_period (charging_schedule p)) as [|pd l IH]; intros slots; [done|].
    cbn [foldl]. rewrite IH. rewrite one_minute. destruct (_ <? _); [|done]. cbn. apply H1. }
  unfold time_slots. generalize (sort_by (fun a b => stack_level b <=? stack_level a) profiles).
  intros l. assert (forall slots, dkeys (foldl (_apply_profile_to_slots_v2g duration) slots l)
                                  = dkeys slots) as ->.
  { induction l as [|p l IH]; intros slots; [done|]. cbn [foldl]. by rewrite IH, H2. }
  unfold dkeys. rewrite map_map. apply map_id.
Qed.

Lemma py_range_sorted a b : StronglySorted Z.lt (py_range a b 60).
Proof.
  unfold py_range. generalize (Z.to_nat ((b - a + 60 - 1) / 60)). intros n.
  assert (forall i, StronglySorted Z.lt (map (fun i => a + Z.of_nat i * 60) (seq i n))) as H; [|apply H].
  induction n as [|n IH]; intros i; cbn [seq map]; constructor; [apply IH|].
  apply Forall_forall. intros z Hz. apply list_elem_of_fmap in Hz as (j & -> & Hj).
  apply elem_of_seq in Hj. lia.
Qed.

Lemma time_slots_sorted profiles duration :
  StronglySorted (fun a b : Z * slot_data => fst a < fst b) (time_slots profiles duration).
Proof.
  pose proof (py_range_sorted 0 duration) as H. rewrite <- (time_slots_keys profiles) in H.
  unfold dkeys in H. induction (time_slots profiles duration) as [|x l IH]; constructor.
  - apply IH. by inversion H.
  - inversion H as [|? ? _ Hf]; subst. apply Forall_forall. intros y Hy.
    apply (proj1 (Forall_forall _ _) Hf), list_elem_of_fmap. by exists y.
Qed.

Lemma time_slots_wf profiles duration : dict_wf (time_slots profiles duration).
Proof.
  unfold dict_wf. rewrite time_slots_keys. pose proof (py_range_sorted 0 duration) as H.
  induction H as [|x l Hs IH Hf]; constructor; [|done]. intros Hx. rewrite Forall_forall in Hf.
  specialize (Hf _ Hx). lia.
Qed.


Corollary minute_without_start_is_zero profiles duration t :
  t ∈ py_range 0 duration 60 -> (forall p, p ∈ profiles -> ~ speaks t p) ->
  exists t0 s0, in_force (composite_periods profiles duration) t = Some (t0, s0) /\
                (charge_limit s0 == 0)%Q.
Proof.
  intros Ht Hn. destruct (slot_decided profiles duration t Ht) as (s & Hs & Hd).
  pose proof (dget_Some_in _ _ _ Hs) as Hin. unfold composite_periods.
  pose proof (time_slots_sorted profiles duration) as Hsort.
  destruct (time_slots profiles duration) as [|c l]; [by apply not_elem_of_nil in Hin|].
  destruct (merge_slots_in_force c l Hsort (t, s) Hin) as ([t0 s0] & H1 & _ & H2).
  exists t0, s0. split; [by destruct c|]. destruct Hd as [[-> _]|(p & pd & Hp & Hpd & Hst & _)].
  - unfold same_state in H2. cbn in H2. rewrite !andb_true_iff in H2.
    destruct H2 as [[[H2 _] _] _]. by apply Qeqb_eq.
  - exfalso. apply (Hn p Hp). by exists pd.
Qed.

(** ** The table under the manager's operations *)

Record well_formed (p : ChargingProfile) : Prop := {
  wf_level : 0 <= stack_level p <= 10;
  wf_periods : charging_schedule_period (charging_schedule p) <> [];
  wf_each : forallb period_ok (charging_schedule_period (charging_schedule p)) = true
}.

(** A row describes the profile in its schedule column. *)
Definition row_ok (r : profile_row) : Prop :=
  exists p, pr_schedule r = _profile_to_dict p /\ cp_id p = pr_profile_id r /\
            stack_level p = pr_stack_level r /\
            purpose_value (charging_profile_purpose p) = pr_purpose r /\ well_formed p.

Definition id_key (r : profile_row) : string * Z * Z := (pr_station r, pr_evse r, pr_profile_id r).
Definition stack_key (r : profile_row) : string * Z * string * Z :=
  (pr_station r, pr_evse r, pr_purpose r, pr_stack_level r).

Record table_inv (t : list profile_row) : Prop := {
  ti_rows : Forall row_ok t;
  ti_ids : NoDup (map id_key t);
  ti_stacks : NoDup (map stack_key t)
}.

Lemma purpose_value_inj p q : purpose_value p = purpose_value q -> p = q.
Proof. by destruct p, q. Qed.

Lemma same_slot_spec st ev r : same_slot st ev r = true <-> pr_station r = st /\ pr_evse r = ev.
Proof. unfold same_slot. rewrite andb_true_iff, String.eqb_eq, Z.eqb_eq. done. Qed.

Lemma row_parse r p : row_ok r -> _parse_charging_profile (pr_schedule r) = Ok p ->
  cp_id p = pr_profile_id r /\ stack_level p = pr_stack_level r /\
  purpose_value (charging_profile_purpose p) = pr_purpose r.
Proof.
  intros (q & -> & H1 & H2 & H3 & _). rewrite parse_to_dict. intros H. by injection H as <-.
Qed.

Lemma get_profiles_complete t st ev l r :
  _get_profiles t st ev None None None = Ok l -> r ∈ t -> same_slot st ev r = true ->
  exists p, p ∈ l /\ _parse_charging_profile (pr_schedule r) = Ok p.
Proof.
  unfold _get_profiles. intros H%rmap_Ok Hr Hs.
  assert (r ∈ get_charging_profiles_rows t st (Some ev) None None None) as Hin.
  { unfold get_charging_profiles_rows. apply elem_of_sort_by, list_elem_of_In, filter_In.
    split; [by apply list_elem_of_In|]. by rewrite Hs. }
  apply list_elem_of_lookup in Hin as [i Hi].
  destruct (Forall2_lookup_l _ _ _ _ _ H Hi) as (p & Hp & Heq).
  exists p. split; [by eapply list_elem_of_lookup_2 | done].
Qed.

Section Ops.
Context (fromisoformat : string -> option datetime) (bind_time : string -> option Z).

Lemma validate_ok existing p :
  _validate_profile fromisoformat existing p = Ok None ->
  existsb (fun q => cp_id q =? cp_id p) existing = false /\ well_formed p.
Proof.
  unfold _validate_profile. intros H.
  destruct (existsb _ existing); [discriminate|].
  destruct ((stack_level p <? 0) || (10 <? stack_level p)) eqn:El; [discriminate|].
  destruct (charging_schedule_period (charging_schedule p)) as [|pd l] eqn:Ep; [discriminate|].
  destruct (negb (forallb period_ok (pd :: l))) eqn:Ef; [discriminate|].
  split; [done|]. constructor; rewrite ?Ep.
  - apply orb_false_iff in El. lia.
  - done.
  - by apply negb_false_iff in Ef.
Qed.

Lemma store_fresh r t :
  id_key r ∉ map id_key t -> store_charging_profile r t = t ++ [r].
Proof.
  intros Hni. unfold store_charging_profile.
  assert (existsb (fun x => same_slot (pr_station r) (pr_evse r) x
                            && (pr_profile_id x =? pr_profile_id r)) t = false) as ->; [|done].
  apply not_true_iff_false. rewrite existsb_exists. intros (x & Hx & Hc).
  apply andb_true_iff in Hc as [[H1 H2]%same_slot_spec H3%Z.eqb_eq]. apply Hni.
  apply list_elem_of_fmap. exists x. split; [|by apply list_elem_of_In].
  unfold id_key. congruence.
Qed.

Lemma set_profile_inv st ev now data m a m' :
  table_inv (pm_table m) ->
  set_charging_profile fromisoformat bind_time st ev now data m = (Accepted a, m') ->
  table_inv (pm_table m').
Proof.
  intros [Hr Hi Hs] H. unfold set_charging_profile in H.
  destruct (_parse_charging_profile data) as [p|] eqn:Ep; [cbn [rbind] in H|discriminate].
  destruct (_get_profiles (pm_table m) st ev None None None) as [ex|] eqn:Ee;
    [cbn [rbind] in H|discriminate].
  destruct (_validate_profile fromisoformat ex p) as [[|]|] eqn:Ev; cbn [rbind] in H;
    [discriminate| |discriminate].
  destruct (_check_stacking_limits ex p) eqn:Ec; [|discriminate].
  unfold _store_profile in H. destruct (bind_opt bind_time (valid_from p)) as [vf|]; [|discriminate].
  destruct (bind_opt bind_time (valid_to p)) as [vt|]; [|discriminate]. cbn [rbind] in H.
  injection H as _ <-. cbn [pm_table _update_cache]. apply validate_ok in Ev as [Hex Hwf].
  set (r0 := {| pr_station := st |}).
  assert (forall r, r ∈ pm_table m -> same_slot st ev r = true ->
            pr_profile_id r <> cp_id p /\
            ~ (pr_purpose r = purpose_value (charging_profile_purpose p) /\
               pr_stack_level r = stack_level p)) as Hfresh.
  { intros r Hin Hslot. destruct (get_profiles_complete _ _ _ _ _ Ee Hin Hslot) as (q & Hq & Hpq).
    destruct (row_parse r q (proj1 (Forall_forall _ _) Hr _ Hin) Hpq) as (H1 & H2 & H3). split.
    - intros E. apply not_true_iff_false in Hex. apply Hex, existsb_exists.
      exists q. split; [by apply list_elem_of_In|]. apply Z.eqb_eq. congruence.
    - intros [E1 E2]. unfold _check_stacking_limits, stacking_limit in Ec.
      apply negb_true_iff, Nat.leb_gt in Ec.
      destruct (List.filter _ ex) eqn:Ef; [|cbn in Ec; lia].
      assert (q ∈ @nil ChargingProfile) as Hbad; [|by apply not_elem_of_nil in Hbad].
      rewrite <- Ef. apply list_elem_of_In, filter_In. split; [by apply list_elem_of_In|].
      apply andb_true_iff. rewrite bool_decide_true by (apply purpose_value_inj; congruence).
      split; [done|]. apply Z.eqb_eq. congruence. }
  assert (id_key r0 ∉ map id_key (pm_table m)) as Hid.
  { intros (r & E & Hin)%list_elem_of_fmap. unfold id_key in E. cbn in E. injection E as E1 E2 E3.
    destruct (Hfresh r Hin) as [Hne _]; [by apply same_slot_spec | congruence]. }
  rewrite store_fresh by done. constructor.
  - apply Forall_app. split; [done|]. apply Forall_singleton. exists p. done.
  - rewrite map_app. by apply nodup_snoc.
  - rewrite map_app. apply nodup_snoc; [done|].
    intros (r & E & Hin)%list_elem_of_fmap. unfold stack_key in E. cbn in E.
    injection E as E1 E2 E3 E4. destruct (Hfresh r Hin) as [_ Hne]; [by apply same_slot_spec|].
    apply Hne. split; congruence.
Qed.

Lemma table_inv_sub t t' :
  table_inv t -> t' `sublist_of` t -> table_inv t'.
Proof.
  intros [H1 H2 H3] Hs. constructor.
  - rewrite Forall_forall in H1 |- *. intros r Hr. apply H1. by eapply elem_of_sublist.
  - eapply sublist_NoDup; [exact H2|]. by apply (fmap_sublist id_key).
  - eapply sublist_NoDup; [exact H3|]. by apply (fmap_sublist stack_key).
Qed.

Lemma filter_sublist' {A} (f : A -> bool) l : List.filter f l `sublist_of` l.
Proof. induction l as [|x l IH]; cbn; [constructor|]. destruct (f x); by constructor. Qed.

Lemma remove_sublist st ev i t : remove_charging_profile st ev i t `sublist_of` t.
Proof. apply filter_sublist'. Qed.

Lemma remove_all_sublist st ev ids m : pm_table (remove_all st ev ids m) `sublist_of` pm_table m.
Proof.
  unfold remove_all. cbn [pm_table]. generalize (pm_table m). induction ids as [|i ids IH]; intros t.
  { done. }
  cbn [foldl]. etrans; [apply IH | apply remove_sublist].
Qed.

Lemma set_profile_cases st ev now data m :
  (exists r, set_charging_profile fromisoformat bind_time st ev now data m = (Rejected r, m)) \/
  (exists m', set_charging_profile fromisoformat bind_time st ev now data m = (Accepted tt, m')).
Proof.
  unfold set_charging_profile.
  destruct (let? p := _parse_charging_profile data in _) as [[[p ex] [v|]]|]; eauto.
  destruct (_check_stacking_limits ex p); [|eauto].
  destruct (_store_profile bind_time st ev now p m); eauto.
Qed.

Lemma clear_table st ev pid pu lv m :
  pm_table (snd (clear_charging_profile st ev pid pu lv m)) `sublist_of` pm_table m.
Proof.
  unfold clear_charging_profile.
  destruct (_get_profiles (pm_table m) st ev pid pu lv) as [[|p l]|]; [done| |done].
  unfold _refresh_cache.
  destruct (_get_profiles (pm_table (remove_all _ _ _ m)) st ev None None None); cbn [rbind snd pm_table];
    apply remove_all_sublist.
Qed.

Lemma active_table st ev now m : pm_table (snd (_get_active_profiles st ev now m)) = pm_table m.
Proof.
  unfold _get_active_profiles. destruct (cache_get _ _ _) as [[[|p l]|] cm]; cbn [pm_table profile_cache];
    try done; (destruct (profile_cache m @? _); [done|]);
    by destruct (rmap _ _).
Qed.

Lemma composite_table st ev d now u m :
  pm_table (snd (get_composite_schedule st ev d now u m)) = pm_table m.
Proof.
  unfold get_composite_schedule. pose proof (active_table st ev now m) as H.
  destruct (_get_active_profiles st ev now m) as [[[|]|] m']; exact H.
Qed.

(** The requests a station's manager serves. *)
Inductive profile_step : ChargingProfileManager -> ChargingProfileManager -> Prop :=
| step_set st ev now data m :
    profile_step m (snd (set_charging_profile fromisoformat bind_time st ev now data m))
| step_clear st ev pid pu lv m :
    profile_step m (snd (clear_charging_profile st ev pid pu lv m))
| step_composite st ev d now u m :
    profile_step m (snd (get_composite_schedule st ev d now u m))
| step_update st pid m :
    profile_step m (snd (update_dynamic_schedule st pid m)).

Lemma profile_step_inv m m' :
  profile_step m m' -> table_inv (pm_table m) -> table_inv (pm_table m').
Proof.
  intros [] Hi.
  - destruct (set_profile_cases st ev now data m0) as [[r E]|[m1 E]]; rewrite E; cbn [snd]; [done|].
    by eapply set_profile_inv.
  - eapply table_inv_sub; [done | apply clear_table].
  - by rewrite composite_table.
  - unfold update_dynamic_schedule. by destruct (get_charging_profiles_rows _ _ _ _ _ _).
Qed.

(** Whatever requests the profile manager serves, the stored profiles keep unique
    identifiers per EVSE, at most one profile per purpose and stack level, valid levels
    and periods, and columns that agree with the stored JSON. *)
Theorem profile_table_invariant m m' :
  rtc profile_step m m' -> table_inv (pm_table m) -> table_inv (pm_table m').
Proof. induction 1 as [|m1 m2 m3 H1 _ IH]; [done|]. intros Hi. eauto using profile_step_inv. Qed.

End Ops.

(** ** What a clear request removes *)

(** The rows a request names: of the identifier, the purpose and the stack level
    only the first one given counts. *)
Definition selected (st : string) (ev : Z) (pid : option Z) (pu : option string) (lv : option Z)
    (r : profile_row) : bool :=
  same_slot st ev r
  && match pid, pu, lv with
     | Some i, _, _ => pr_profile_id r =? i
     | None, Some p, _ => String.eqb (pr_purpose r) p
     | None, None, Some l => pr_stack_level r =? l
     | None, None, None => true
     end.

Lemma elem_of_rows t st ev pid pu lv r :
  r ∈ get_charging_profiles_rows t st (Some ev) pid pu lv <-> r ∈ t /\ selected st ev pid pu lv r = true.
Proof. unfold get_charging_profiles_rows. rewrite elem_of_sort_by. apply elem_of_lfilter. Qed.

(** On a sound table every query parses, and its profiles carry their rows' keys. *)
Lemma get_profiles_ok t st ev pid pu lv :
  Forall row_ok t ->
  exists l, _get_profiles t st ev pid pu lv = Ok l /\
    map cp_id l = map pr_profile_id (get_charging_profiles_rows t st (Some ev) pid pu lv).
Proof.
  intros Hr. unfold _get_profiles.
  assert (Forall row_ok (get_charging_profiles_rows t st (Some ev) pid pu lv)) as H.
  { apply Forall_forall. intros r [Hin _]%elem_of_rows. by apply (proj1 (Forall_forall _ _) Hr). }
  induction H as [|r rows (p & Es & Ei & _) _ (l & El & Em)]; [by exists []|].
  exists (p :: l). cbn [rmap map]. rewrite Es, parse_to_dict. cbn [rbind]. rewrite El, Em, Ei. done.
Qed.

Lemma remove_all_filter st ev ids t :
  foldl (fun t i => remove_charging_profile st ev i t) t ids
  = List.filter (fun r => negb (same_slot st ev r && bool_decide (pr_profile_id r ∈ ids))) t.
Proof.
  revert t. induction ids as [|i ids IH]; intros t; cbn [foldl].
  - induction t as [|r t IHt]; [done|]. cbn [List.filter].
    rewrite bool_decide_false by set_solver. rewrite andb_false_r. cbn [negb]. by rewrite <- IHt.
  - rewrite IH. unfold remove_charging_profile. clear IH.
    induction t as [|r t IHt]; [done|]. cbn [List.filter].
    destruct (same_slot st ev r) eqn:E1; cbn [andb negb].
    + destruct (Z.eqb_spec (pr_profile_id r) i) as [->|Hne]; cbn [negb].
      * rewrite bool_decide_true by left. cbn [negb]. exact IHt.
      * cbn [List.filter]. rewrite E1. cbn [andb].
        rewrite (bool_decide_ext (pr_profile_id r ∈ i :: ids) (pr_profile_id r ∈ ids)) by set_solver.
        by rewrite IHt.
    + cbn [List.filter]. rewrite E1. cbn [andb negb]. by rewrite IHt.
Qed.

(** Clearing profiles on a sound table is accepted and removes exactly the rows of the
    EVSE selected by the first filter given: a stack level passed together with a
    purpose is ignored. *)
Theorem clear_exact m st ev pid pu lv :
  table_inv (pm_table m) ->
  fst (clear_charging_profile st ev pid pu lv m) = Accepted tt /\
  pm_table (snd (clear_charging_profile st ev pid pu lv m))
  = List.filter (fun r => negb (selected st ev pid pu lv r)) (pm_table m).
Proof.
  intros Hi. pose proof Hi as [Hr Hn _].
  destruct (get_profiles_ok _ st ev pid pu lv Hr) as (l & El & Em).
  unfold clear_charging_profile. rewrite El.
  assert (List.filter (fun r => negb (selected st ev pid pu lv r)) (pm_table m)
          = foldl (fun t i => remove_charging_profile st ev i t) (pm_table m) (map cp_id l)) as Heq.
  { rewrite remove_all_filter, Em. apply lfilter_ext. intros r Hin. f_equal.
    apply eq_true_iff_eq. rewrite andb_true_iff, bool_decide_eq_true, list_elem_of_fmap. split.
    - intros Hs. split; [by apply andb_true_iff in Hs as [Hs _]|].
      exists r. split; [done|]. by apply elem_of_rows.
    - intros [Hs (r' & E & [Hin' Hs']%elem_of_rows)].
      assert (r = r') as ->; [|done].
      apply (nodup_map_inj id_key (pm_table m)); [done..|]. unfold id_key.
      apply andb_true_iff in Hs' as [Hs' _]. apply same_slot_spec in Hs as [], Hs' as []. congruence. }
  destruct l as [|p l].
  { split; [done|]. by rewrite Heq. }
  unfold _refresh_cache, remove_all. cbn [pm_table].
  destruct (get_profiles_ok (foldl (fun t i => remove_charging_profile st ev i t) (pm_table m)
              (map cp_id (p :: l))) st ev None None None) as (l' & El' & _).
  { rewrite remove_all_filter. apply Forall_forall. intros r [Hin _]%elem_of_lfilter.
    by apply (proj1 (Forall_forall _ _) Hr). }
  rewrite El'. cbn [rbind fst snd pm_table]. split; [done|]. by rewrite Heq.
Qed.

(** ** The caches and the table part ways *)

Section Caches.
Context (fromisoformat : string -> option datetime) (bind_time : string -> option Z).

(** Setting and clearing profiles, the requests that change the table. *)
Inductive table_step : ChargingProfileManager -> ChargingProfileManager -> Prop :=
| tstep_set st ev now data m :
    table_step m (snd (set_charging_profile fromisoformat bind_time st ev now data m))
| tstep_clear st ev pid pu lv m :
    table_step m (snd (clear_charging_profile st ev pid pu lv m)).

Lemma set_profile_cache st ev now data m :
  cache_manager (snd (set_charging_profile fromisoformat bind_time st ev now data m)) = cache_manager m.
Proof.
  unfold set_charging_profile.
  destruct (let? p := _parse_charging_profile data in _) as [[[p ex] [v|]]|]; [done| |done].
  destruct (_check_stacking_limits ex p); [|done]. unfold _store_profile.
  destruct (bind_opt bind_time (valid_from p)); [|done].
  by destruct (bind_opt bind_time (valid_to p)).
Qed.

Lemma clear_profile_cache st ev pid pu lv m :
  cache_manager (snd (clear_charging_profile st ev pid pu lv m)) = cache_manager m.
Proof.
  unfold clear_charging_profile.
  destruct (_get_profiles (pm_table m) st ev pid pu lv) as [[|p l]|]; [done| |done].
  unfold _refresh_cache.
  by destruct (_get_profiles (pm_table (remove_all _ _ _ m)) st ev None None None).
Qed.

Lemma table_steps_cache m m' : rtc table_step m m' -> cache_manager m' = cache_manager m.
Proof.
  induction 1 as [|m1 m2 m3 [] _ IH]; [done | |]; rewrite IH;
    [apply set_profile_cache | apply clear_profile_cache].
Qed.

(** What the first composite request after a start leaves in the new cache. *)
Lemma first_composite table st ev d now u cs m :
  get_composite_schedule st ev d now u (init_profiles table) = (Accepted cs, m) ->
  exists l e, l <> [] /\ cs = _calculate_composite_schedule l d u /\
    cache (cache_manager m) @? active_key st ev = Some e /\ ce_value e = l /\
    created_at e = now /\ ce_ttl e = Some (300 * usec).
Proof.
  unfold get_composite_schedule, _get_active_profiles. cbn [init_profiles cache_manager].
  unfold cache_get. cbn [cache init_cache dget pm_table profile_cache].
  destruct (rmap _ _) as [[|p l]|]; try discriminate. intros H. injection H as <- <-.
  exists (p :: l), {| ce_value := p :: l; created_at := now; last_accessed := now; access_count := 0;
             ce_ttl := Some (300 * usec); ce_strategy := TTL |}.
  split_and!; try done. cbn [cache_manager]. unfold cache_set, init_profiles. cbn [with_store cache].
  rewrite dget_dset_eq. done.
Qed.

Lemma composite_from_cache m st ev d now u e :
  cache (cache_manager m) @? active_key st ev = Some e -> ce_value e <> [] ->
  expired now e = false ->
  fst (get_composite_schedule st ev d now u m)
  = Accepted (_calculate_composite_schedule (ce_value e) d u).
Proof.
  intros He Hv Hx. unfold get_composite_schedule, _get_active_profiles, cache_get.
  rewrite He, Hx. destruct (ce_value e) as [|c l]; [by destruct Hv|]. reflexivity.
Qed.

Theorem composite_survives_changes table st ev d now u cs m m' now' :
  get_composite_schedule st ev d now u (init_profiles table) = (Accepted cs, m) ->
  rtc table_step m m' -> now' <= now + 300 * usec ->
  fst (get_composite_schedule st ev d now' u m') = Accepted cs.
Proof.
  intros H Hs Hn. destruct (first_composite _ _ _ _ _ _ _ _ H) as (l & e & Hl & -> & He & Hv & Hc & Ht).
  rewrite <- (table_steps_cache m m' Hs) in He. subst l.
  apply composite_from_cache; [done..|]. unfold expired. rewrite Ht, Hc.
  apply andb_false_iff. right. apply Z.ltb_ge. lia.
Qed.

Theorem first_set_hides_stored_profiles table st ev now data a m' d now' u :
  set_charging_profile fromisoformat bind_time st ev now data (init_profiles table) = (Accepted a, m') ->
  exists p, _parse_charging_profile data = Ok p /\
    fst (get_composite_schedule st ev d now' u m') = Accepted (_calculate_composite_schedule [p] d u).
Proof.
  unfold set_charging_profile. destruct (_parse_charging_profile data) as [p|]; [|discriminate].
  cbn [rbind]. intros H. exists p. split; [done|].
  destruct (let? ex := _get_profiles _ st ev None None None in _) as [[[q ex] [v|]]|] eqn:E;
    [discriminate| |discriminate].
  destruct (_get_profiles _ st ev None None None) as [ex'|]; [|discriminate]. cbn [rbind] in E.
  destruct (_validate_profile fromisoformat ex' p); [|discriminate]. injection E as -> -> ->.
  destruct (_check_stacking_limits ex q); [|discriminate]. unfold _store_profile in H.
  destruct (bind_opt bind_time (valid_from q)); [|discriminate].
  destruct (bind_opt bind_time (valid_to q)); [|discriminate]. cbn [rbind] in H. injection H as _ <-.
  unfold get_composite_schedule, _get_active_profiles, _update_cache, cache_get.
  cbn [cache_manager init_profiles init_cache cache dget profile_cache pm_table].
  by rewrite dget_dset_eq.
Qed.
End Caches.

(** A dynamic update is refused whatever the table holds: its query has no EVSE. *)
Theorem update_dynamic_never_applies st pid m :
  update_dynamic_schedule st pid m = (Rejected "NotFound", m).
Proof.
  unfold update_dynamic_schedule.
  assert (get_charging_profiles_rows (pm_table m) st None None None None = []) as ->; [|done].
  destruct (get_charging_profiles_rows _ _ _ _ _ _) as [|r l] eqn:E; [done|].
  assert (r ∈ get_charging_profiles_rows (pm_table m) st None None None None) as Hin
    by (rewrite E; left).
  unfold get_charging_profiles_rows in Hin.
  by apply elem_of_sort_by, elem_of_lfilter in Hin as [_ Hin].
Qed.

(** ** Examples *)

Definition ex_period (s : Z) (l : Q) : ChargingSchedulePeriod :=
  {| start_period := s; limit := l; discharging_limit := None; setpoint := None;
     setpoint_reactive := PNone; number_phases := PInt 3; phase_to_use := PNone;
     operation_mode := None; v2x_freq_watt_curve := PNone; v2x_signal_watt_curve := PNone;
     v2x_baseline := PNone |}.

Definition ex_profile (id level : Z) (pu : ChargingProfilePurpose) (l : Q) : ChargingProfile :=
  {| cp_id := id; stack_level := level; charging_profile_purpose := pu;
     charging_profile_kind := ABSOLUTE;
     charging_schedule :=
       {| cs_id := PInt 1; start_schedule := PNone; cs_duration := PNone;
          charging_rate_unit := RateW; charging_schedule_period := [ex_period 0 l; ex_period 120 l];
          min_charging_rate := PNone |};
     valid_from := None; valid_to := None; recurrency_kind := PNone; cp_transaction_id := PNone |}.

Definition ex_low : ChargingProfile := ex_profile 7 1 TX_DEFAULT_PROFILE 11000.
Definition ex_high : ChargingProfile := ex_profile 8 2 TX_DEFAULT_PROFILE 22000.

Definition ex_set (now : Z) (p : ChargingProfile) (m : ChargingProfileManager)
  : reply unit * ChargingProfileManager :=
  set_charging_profile (fun _ => None) (fun _ => None) "CP1" 1 now (_profile_to_dict p) m.

Definition ex_stored : ChargingProfileManager :=
  snd (ex_set 20 ex_high (snd (ex_set 10 ex_low (init_profiles [])))).

Lemma table_inv_nil : table_inv [].
Proof. constructor; constructor. Qed.

Lemma profile_json_roundtrip_example :
  _parse_charging_profile (_profile_to_dict ex_low) = Ok ex_low.
Proof. vm_compute. reflexivity. Qed.


Lemma profile_table_invariant_witness :
  length (pm_table ex_stored) = 2%nat /\ table_inv (pm_table ex_stored).
Proof.
  split; [vm_compute; reflexivity|].
  apply (profile_table_invariant (fun _ => None) (fun _ => None) (init_profiles [])).
  - eapply rtc_l; [apply step_set|]. apply rtc_once, step_set.
  - apply table_inv_nil.
Defined.

Lemma ex_stored_inv : table_inv (pm_table ex_stored).
Proof.
  eapply profile_step_inv; [apply step_set|]. eapply profile_step_inv; [apply step_set|].
  apply table_inv_nil.
Qed.

(** Level 2 is named, level 1 goes as well. *)
Lemma clear_exact_witness :
  table_inv (pm_table ex_stored) /\
  (fst (clear_charging_profile "CP1" 1 None (Some "TxDefaultProfile") (Some 2) ex_stored) = Accepted tt /\
   pm_table (snd (clear_charging_profile "CP1" 1 None (Some "TxDefaultProfile") (Some 2) ex_stored))
   = List.filter (fun r => negb (selected "CP1" 1 None (Some "TxDefaultProfile"%string) (Some 2) r))
       (pm_table ex_stored)) /\
  pm_table (snd (clear_charging_profile "CP1" 1 None (Some "TxDefaultProfile") (Some 2) ex_stored)) = [].
Proof.
  split_and!; [exact ex_stored_inv | | | vm_compute; reflexivity];
    apply (clear_exact ex_stored "CP1" 1 None (Some "TxDefaultProfile") (Some 2) ex_stored_inv).
Defined.

Definition ex_composite : reply CompositeSchedule * ChargingProfileManager :=
  get_composite_schedule "CP1" 1 180 1000 None (init_profiles (pm_table ex_stored)).

(** The cleared profiles still make the schedule. *)
Lemma composite_survives_changes_witness :
  exists cs, fst ex_composite = Accepted cs /\ length (cps_periods cs) = 3%nat /\
    let m := snd (clear_charging_profile "CP1" 1 None None None (snd ex_composite)) in
    pm_table m = [] /\ fst (get_composite_schedule "CP1" 1 180 2000 None m) = Accepted cs.
Proof.
  eexists. split_and!; [vm_compute; reflexivity | vm_compute; reflexivity |].
  cbn zeta. split; [vm_compute; reflexivity|].
  eapply (composite_survives_changes (fun _ => None) (fun _ => None) (pm_table ex_stored) "CP1" 1 180 1000
            None _ (snd ex_composite)).
  - vm_compute. reflexivity.
  - apply rtc_once, tstep_clear.
  - unfold usec. lia.
Defined.

Lemma first_set_hides_stored_profiles_witness :
  let m := ex_set 30 (ex_profile 9 3 TX_PROFILE 5000) (init_profiles (pm_table ex_stored)) in
  fst m = Accepted tt /\
  exists p, _parse_charging_profile (_profile_to_dict (ex_profile 9 3 TX_PROFILE 5000)) = Ok p /\
    fst (get_composite_schedule "CP1" 1 180 40 None (snd m))
    = Accepted (_calculate_composite_schedule [p] 180 None).
Proof.
  cbn zeta. split; [vm_compute; reflexivity|].
  apply (first_set_hides_stored_profiles (fun _ => None) (fun _ => None) (pm_table ex_stored) "CP1" 1 30
           (_profile_to_dict (ex_profile 9 3 TX_PROFILE 5000)) tt).
  vm_compute. reflexivity.
Defined.
