(* ===== verification/PyText.v ===== *)
(** * Text the way Python reads it

    [str.strip], [str.split] with a separator, [int(s)] and [str(n)] for decimal
    integers, and [UUID(s)] with [str(uuid)], with their round trips. A UUID is
    its 32 lower-case hexadecimal digits. *)

From S2P Require Import Prelude.
From Stdlib Require Import ZArith Lia Ascii DecimalString DecimalZ DecimalFacts.
From stdpp Require Import base list strings gmap.

#[local] Open Scope Z_scope.

(** ** Whitespace *)

(** [str.strip()] on ASCII whitespace. *)
Definition is_space (c : ascii) : bool :=
  let n := Z.of_nat (nat_of_ascii c) in ((9 <=? n) && (n <=? 13)) || ((28 <=? n) && (n <=? 32)).
Fixpoint drop_spaces (s : list ascii) : list ascii :=
  match s with c :: s' => if is_space c then drop_spaces s' else s | [] => [] end.
Definition strip (s : string) : string :=
  String.string_of_list_ascii (reverse (drop_spaces (reverse (drop_spaces (String.list_ascii_of_string s))))).

(** ** [UUID(s)] *)

Definition is_hex (c : ascii) : bool :=
  let n := Z.of_nat (nat_of_ascii c) in
  ((48 <=? n) && (n <=? 57)) || ((65 <=? n) && (n <=? 70)) || ((97 <=? n) && (n <=? 102)).

Definition lower_ascii (c : ascii) : ascii :=
  let n := nat_of_ascii c in
  if (65 <=? n)%nat && (n <=? 90)%nat then ascii_of_nat (n + 32) else c.

(** [s.lower()]. *)
Definition py_lower (s : string) : string :=
  String.string_of_list_ascii (map lower_ascii (String.list_ascii_of_string s)).

(** [s.replace(p, "")] for a non-empty [p]. *)
Fixpoint remove_word (p : list ascii) (s : list ascii) (skip : nat) : list ascii :=
  match s with
  | [] => []
  | c :: s' =>
      match skip with
      | S n => remove_word p s' n
      | O => if bool_decide (take (length p) s = p) then remove_word p s' (length p - 1)
             else c :: remove_word p s' 0
      end
  end.

Fixpoint drop_braces (s : list ascii) : list ascii :=
  match s with
  | c :: s' => if Ascii.eqb c "{"%char || Ascii.eqb c "}"%char then drop_braces s' else s
  | [] => []
  end.

Definition uuid_of_string (s : string) : option string :=
  let h := remove_word (String.list_ascii_of_string "urn:") (String.list_ascii_of_string s) 0 in
  let h := remove_word (String.list_ascii_of_string "uuid:") h 0 in
  let h := reverse (drop_braces (reverse (drop_braces h))) in
  let h := List.filter (fun c => negb (Ascii.eqb c "-"%char)) h in
  if (length h =? 32)%nat && forallb is_hex h
  then Some (String.string_of_list_ascii (map lower_ascii h)) else None.

(** ** Integers and separators *)

(** [str(n)] and [int(s)] for decimal integers. *)
Definition py_str_int (z : Z) : string := NilZero.string_of_int (Z.to_int z).

(** Underscores may stand between digits. *)
Definition is_digit (c : ascii) : bool :=
  let n := Z.of_nat (nat_of_ascii c) in (48 <=? n) && (n <=? 57).
Fixpoint drop_underscores (prev : bool) (s : string) : option string :=
  match s with
  | EmptyString => Some EmptyString
  | String c s' =>
      if Ascii.eqb c "_"%char
      then match s' with
           | String d _ => if prev && is_digit d then drop_underscores false s' else None
           | EmptyString => None
           end
      else match drop_underscores (is_digit c) s' with
           | Some t => Some (String c t)
           | None => None
           end
  end.
Definition py_int (s : string) : option Z :=
  let s := strip s in
  let s := match s with
           | String p (String c t) =>
               if Ascii.eqb p "+"%char && is_digit c then String c t else s
           | _ => s
           end in
  match drop_underscores false s with
  | Some t => match NilZero.int_of_string t with Some i => Some (Z.of_int i) | None => None end
  | None => None
  end.

(** [str(uuid)] of the 32 digits. *)
Definition uuid_str (h : string) : string :=
  let part a n := String.substring a n h in
  part 0%nat 8%nat +:+ "-" +:+ part 8%nat 4%nat +:+ "-" +:+ part 12%nat 4%nat +:+ "-"
  +:+ part 16%nat 4%nat +:+ "-" +:+ part 20%nat 12%nat.

(** [s.split(".")]. *)
Fixpoint split_on (sep : ascii) (s : string) : list string :=
  match s with
  | EmptyString => [""%string]
  | String c s' =>
      if Ascii.eqb c sep then ""%string :: split_on sep s'
      else match split_on sep s' with
           | w :: ws => String c w :: ws
           | [] => [String c ""]
           end
  end.

(** ** Round trips *)

Definition hex_lower (c : ascii) : bool := is_hex c && Ascii.eqb (lower_ascii c) c.

(** A UUID: 32 lower-case hexadecimal digits. *)
Definition uuid_digits (h : string) : Prop :=
  String.length h = 32%nat /\ forallb hex_lower (String.list_ascii_of_string h) = true.

Lemma list_ascii_length s : length (String.list_ascii_of_string s) = String.length s.
Proof. induction s as [|c s IH]; [done|]. cbn. by f_equal. Qed.

Lemma list_ascii_substring s a n :
  String.list_ascii_of_string (String.substring a n s)
  = take n (drop a (String.list_ascii_of_string s)).
Proof.
  revert a n. induction s as [|c s IH]; intros [|a] [|n]; try done.
  - cbn. f_equal. apply (IH 0%nat).
  - cbn. apply IH.
  - cbn. apply IH.
Qed.

Lemma string_ascii_id s : String.string_of_list_ascii (String.list_ascii_of_string s) = s.
Proof. apply String.string_of_list_ascii_of_string. Qed.

(** The characters of a printed UUID. *)
Definition uuid_char (c : ascii) : bool := hex_lower c || Ascii.eqb c "-"%char.

Lemma uuid_char_facts c :
  uuid_char c = true ->
  c <> "u"%char /\ c <> "."%char /\ Ascii.eqb c "{"%char || Ascii.eqb c "}"%char = false.
Proof.
  intros H. split_and!; [by intros -> | by intros -> |].
  destruct (Ascii.eqb_spec c "{"%char) as [->|]; [done|].
  by destruct (Ascii.eqb_spec c "}"%char) as [->|].
Qed.

Lemma hex_lower_facts c : hex_lower c = true -> lower_ascii c = c /\ is_hex c = true /\ Ascii.eqb c "-"%char = false.
Proof.
  intros [H1 H2]%andb_true_iff. split_and!; [by apply Ascii.eqb_eq | done |].
  destruct (Ascii.eqb_spec c "-"%char) as [->|]; [discriminate H1 | done].
Qed.

Lemma remove_word_none c p s : c ∉ s -> remove_word (c :: p) s 0 = s.
Proof.
  induction s as [|d s IH]; intros H; [done|]. cbn [remove_word].
  rewrite bool_decide_false; [f_equal; apply IH; set_solver|].
  cbn. intros E. injection E as E _. apply H. rewrite E. left.
Qed.

Lemma drop_braces_none s :
  (forall c, c ∈ s -> Ascii.eqb c "{"%char || Ascii.eqb c "}"%char = false) -> drop_braces s = s.
Proof. destruct s as [|c s]; intros H; [done|]. cbn. by rewrite (H c) by left. Qed.

Lemma list_32 (l : list ascii) :
  length l = 32%nat ->
  take 8 (drop 0 l) ++ take 4 (drop 8 l) ++ take 4 (drop 12 l) ++ take 4 (drop 16 l)
    ++ take 12 (drop 20 l) = l.
Proof. intros H. do 32 (destruct l as [|? l]; [done|]). by destruct l. Qed.

Lemma uuid_str_list h :
  String.list_ascii_of_string (uuid_str h)
  = let l := String.list_ascii_of_string h in
    take 8 (drop 0 l) ++ "-"%char :: take 4 (drop 8 l) ++ "-"%char :: take 4 (drop 12 l)
    ++ "-"%char :: take 4 (drop 16 l) ++ "-"%char :: take 12 (drop 20 l).
Proof. unfold uuid_str. by rewrite !list_ascii_app, !list_ascii_substring. Qed.

Lemma elem_of_sub {A} (l : list A) a n x : x ∈ take n (drop a l) -> x ∈ l.
Proof.
  intros H. eapply elem_of_sublist; [exact H|]. etrans; [apply sublist_take | apply sublist_drop].
Qed.

Lemma uuid_str_chars h c :
  uuid_digits h -> c ∈ String.list_ascii_of_string (uuid_str h) -> uuid_char c = true.
Proof.
  intros [_ Hh] Hc. rewrite uuid_str_list in Hc. cbn zeta in Hc.
  assert (c ∈ String.list_ascii_of_string h \/ c = "-"%char) as [Hin| ->]; [|..].
  - repeat (apply elem_of_app in Hc as [Hc|Hc]; [eauto using elem_of_sub|];
            apply elem_of_cons in Hc as [Hc|Hc]; [eauto|]).
    eauto using elem_of_sub.
  - unfold uuid_char. by rewrite (forallb_elem _ _ _ Hh Hin).
  - done.
Qed.

Lemma filter_hyphens l :
  forallb hex_lower l = true -> List.filter (fun c => negb (Ascii.eqb c "-"%char)) l = l.
Proof.
  intros H. induction l as [|c l IH]; [done|]. cbn in H |- *. apply andb_true_iff in H as [Hc Hl].
  apply hex_lower_facts in Hc as (_ & _ & ->). cbn [negb]. by rewrite IH.
Qed.

Lemma forallb_sub {A} (f : A -> bool) l a n :
  forallb f l = true -> forallb f (take n (drop a l)) = true.
Proof. intros H. apply forallb_intro. intros x Hx%elem_of_sub. by eapply forallb_elem. Qed.

Lemma uuid_roundtrip h : uuid_digits h -> uuid_of_string (uuid_str h) = Some h.
Proof.
  intros Hu. pose proof Hu as [Hn Hh]. unfold uuid_of_string.
  pose proof (fun c => uuid_str_chars h c Hu) as Hc.
  set (s := String.list_ascii_of_string (uuid_str h)) in *.
  assert ("u"%char ∉ s) as Hnu by (intros Hin; by destruct (uuid_char_facts _ (Hc _ Hin))).
  change (String.list_ascii_of_string "urn:") with ("u"%char :: String.list_ascii_of_string "rn:").
  change (String.list_ascii_of_string "uuid:") with ("u"%char :: String.list_ascii_of_string "uid:").
  rewrite !(remove_word_none "u"%char _ s) by done.
  assert (forall c, c ∈ s -> Ascii.eqb c "{"%char || Ascii.eqb c "}"%char = false) as Hb
    by (intros c Hin; apply uuid_char_facts; auto).
  rewrite (drop_braces_none s) by done.
  rewrite (drop_braces_none (reverse s)) by (intros c; rewrite elem_of_reverse; auto).
  rewrite reverse_involutive. unfold s. rewrite uuid_str_list. cbn zeta.
  set (l := String.list_ascii_of_string h) in *.
  repeat (rewrite List.filter_app; cbn [List.filter Ascii.eqb Bool.eqb negb]).
  rewrite !filter_hyphens by (by apply forallb_sub). rewrite list_32 by (unfold l; by rewrite list_ascii_length).
  replace (length l) with 32%nat by (unfold l; by rewrite list_ascii_length).
  assert (forallb is_hex l = true) as ->.
  { apply forallb_intro. intros c Hin. apply hex_lower_facts. by eapply forallb_elem. }
  cbn [Nat.eqb andb]. f_equal. rewrite <- (string_ascii_id h). f_equal. fold l.
  rewrite <- (map_id l) at 2. apply map_ext_in. intros c Hin%list_elem_of_In.
  apply hex_lower_facts. by eapply forallb_elem.
Qed.

(** Printed integers: digits, after a sign. *)
Definition int_char (c : ascii) : bool := is_digit c || Ascii.eqb c "-"%char.

Lemma int_char_facts c :
  int_char c = true ->
  is_space c = false /\ c <> "."%char /\ Ascii.eqb c "_"%char = false /\ Ascii.eqb c "+"%char = false.
Proof.
  intros H. split_and!.
  - unfold int_char in H. apply orb_true_iff in H as [H| ->%Ascii.eqb_eq]; [|done].
    unfold is_digit, is_space in *. lia.
  - by intros ->.
  - by destruct (Ascii.eqb_spec c "_"%char) as [->|].
  - by destruct (Ascii.eqb_spec c "+"%char) as [->|].
Qed.

Lemma uint_chars u c : c ∈ String.list_ascii_of_string (NilEmpty.string_of_uint u) -> int_char c = true.
Proof.
  induction u; cbn; intros Hc; [by apply not_elem_of_nil in Hc|..];
    (apply elem_of_cons in Hc as [->|Hc]; [done | auto]).
Qed.

Lemma int_chars z c : c ∈ String.list_ascii_of_string (py_str_int z) -> int_char c = true.
Proof.
  assert (forall u, c ∈ String.list_ascii_of_string (NilZero.string_of_uint u) -> int_char c = true) as Hu.
  { intros u. unfold NilZero.string_of_uint. destruct u; try apply uint_chars.
    cbn. intros ->%list_elem_of_singleton. done. }
  unfold py_str_int, NilZero.string_of_int. destruct (Z.to_int z); [apply Hu|].
  cbn. intros [->|Hc]%elem_of_cons; [done | by eapply Hu].
Qed.

Lemma drop_spaces_none s : (forall c, c ∈ s -> is_space c = false) -> drop_spaces s = s.
Proof. destruct s as [|c s]; intros H; [done|]. cbn. by rewrite (H c) by left. Qed.

Lemma strip_none s :
  (forall c, c ∈ String.list_ascii_of_string s -> is_space c = false) -> strip s = s.
Proof.
  intros H. unfold strip. rewrite (drop_spaces_none (String.list_ascii_of_string s)) by done.
  rewrite drop_spaces_none by (intros c; rewrite elem_of_reverse; auto).
  rewrite reverse_involutive. apply string_ascii_id.
Qed.

Lemma drop_underscores_none p s :
  (forall c, c ∈ String.list_ascii_of_string s -> Ascii.eqb c "_"%char = false) ->
  drop_underscores p s = Some s.
Proof.
  revert p. induction s as [|c s IH]; intros p H; [done|]. cbn [drop_underscores].
  rewrite (H c) by left. rewrite IH; [done|]. intros d Hd. apply H. by right.
Qed.

Lemma to_int_nonnil z : Z.to_int z <> Decimal.Pos Decimal.Nil /\ Z.to_int z <> Decimal.Neg Decimal.Nil.
Proof.
  split; intros E; pose proof (DecimalZ.of_to z) as H; rewrite E in H; cbn in H; subst z; discriminate E.
Qed.

Lemma int_roundtrip z : py_int (py_str_int z) = Some z.
Proof.
  pose proof (int_chars z) as Hc. unfold py_int.
  rewrite strip_none by (intros c Hin; apply int_char_facts; auto).
  assert (match py_str_int z with
          | String p (String c t) =>
              if Ascii.eqb p "+"%char && is_digit c then String c t else py_str_int z
          | _ => py_str_int z
          end = py_str_int z) as ->.
  { destruct (py_str_int z) as [|p [|c t]]; [done..|].
    destruct (int_char_facts p) as (_ & _ & _ & ->); [apply Hc; left | done]. }
  rewrite drop_underscores_none by (intros c Hin; apply int_char_facts; auto).
  unfold py_str_int. destruct (to_int_nonnil z).
  rewrite NilZero.isi by done. by rewrite DecimalZ.of_to.
Qed.

Lemma split_on_none sep s : sep ∉ String.list_ascii_of_string s -> split_on sep s = [s].
Proof.
  induction s as [|c s IH]; intros H; [done|]. cbn in H |- *. apply not_elem_of_cons in H as [H1 H2].
  destruct (Ascii.eqb_spec c sep) as [->|_]; [done|]. by rewrite IH.
Qed.

Lemma split_on_app sep s t :
  sep ∉ String.list_ascii_of_string s -> split_on sep (s +:+ String sep t) = s :: split_on sep t.
Proof.
  induction s as [|c s IH]; intros H.
  - change (split_on sep (String sep t) = ""%string :: split_on sep t). cbn. by rewrite Ascii.eqb_refl.
  - cbn in H. apply not_elem_of_cons in H as [H1 H2].
    change (split_on sep (String c (s +:+ String sep t)) = String c s :: split_on sep t). cbn [split_on].
    destruct (Ascii.eqb_spec c sep) as [->|_]; [done|]. by rewrite IH.
Qed.

Lemma append_assoc s t u : (s +:+ t) +:+ u = s +:+ (t +:+ u).
Proof.
  induction s as [|c s IH]; [done|].
  change (String c ((s +:+ t) +:+ u) = String c (s +:+ (t +:+ u))). by rewrite IH.
Qed.

Lemma prefix_append s t : String.prefix s (s +:+ t) = true.
Proof.
  induction s as [|c s IH]; [by destruct t|].
  change ((if ascii_dec c c then String.prefix s (s +:+ t) else false) = true).
  rewrite IH. by destruct (ascii_dec c c).
Qed.
