(* ===== verification/CommandQueue.v ===== *)
(** * The charging command queue

    The table [charging_command_queue] with its statements
    ([src/websocket_handler/timescale_client.py]), the consumer that drains it
    ([ChargingCommandQueueConsumer] of
    [src/websocket_handler/charging_profile_manager.py]) and the replay after a
    charger's boot ([src/websocket_handler/ocpp16_adapter.py]).

    A charger's session is a record of its methods; what the world answers while
    a row is handled (who is connected, whether a statement succeeds, the clocks)
    is a [row_env]. The calls made to sessions are recorded in [pushes]. Payloads
    are the JSON values of the [jsonb] column, which always parse. *)

From S2P Require Import Prelude Models PyText.
From Stdlib Require Import ZArith Lia Ascii.
From stdpp Require Import base list strings gmap pretty.

#[local] Open Scope Z_scope.

(** ** The table *)

Inductive command_status := pending | sent | acked | failed | expired_status.

#[export] Instance command_status_eq_dec : EqDecision command_status.
Proof. solve_decision. Defined.

Record queue_row := {
  queue_id : Z;
  charge_point_id : string;
  connector_id : Z;
  command_type : string;
  payload : pyobj;
  status : command_status;
  enqueued_at : Z;
  sent_at : option Z;
  acked_at : option Z;
  expires_at : Z;
  last_error : option string;
  attempt_count : Z
}.

(** The columns the statements change. *)
Definition with_status (r : queue_row) (s : command_status) (sent acked : option Z)
    (err : option string) (attempts : Z) : queue_row :=
  {| queue_id := queue_id r; charge_point_id := charge_point_id r;
     connector_id := connector_id r; command_type := command_type r; payload := payload r;
     status := s; enqueued_at := enqueued_at r; sent_at := sent; acked_at := acked;
     expires_at := expires_at r; last_error := err; attempt_count := attempts |}.

Definition is_pending (r : queue_row) : bool := bool_decide (status r = pending).

(** [UPDATE ... WHERE queue_id = $1 AND status = 'pending']. *)
Definition update_pending (id : Z) (f : queue_row -> queue_row) (q : list queue_row)
  : list queue_row :=
  map (fun r => if (queue_id r =? id) && is_pending r then f r else r) q.

Definition enqueue_charging_command (now id : Z) (cp : string) (conn : Z) (data : pyobj)
    (expires_in_min : Z) (type : string) (q : list queue_row) : list queue_row :=
  q ++ [{| queue_id := id; charge_point_id := cp; connector_id := conn; command_type := type;
           payload := data; status := pending; enqueued_at := now; sent_at := None;
           acked_at := None; expires_at := now + expires_in_min * minute_us;
           last_error := None; attempt_count := 0 |}].

Definition mark_command_acked (now id : Z) : list queue_row -> list queue_row :=
  update_pending id (fun r =>
    with_status r acked (Some now) (Some now) (last_error r) (attempt_count r + 1)).

Definition mark_command_failed (id : Z) (error : string) : list queue_row -> list queue_row :=
  update_pending id (fun r =>
    with_status r failed (sent_at r) (acked_at r) (Some (String.substring 0 500 error))
      (attempt_count r + 1)).

Definition mark_command_sent (now id : Z) : list queue_row -> list queue_row :=
  update_pending id (fun r =>
    with_status r sent (Some now) (acked_at r) (last_error r) (attempt_count r + 1)).

(** [status = 'pending' AND expires_at > NOW()]. *)
Definition deliverable (now : Z) (r : queue_row) : bool := is_pending r && (now <? expires_at r).

(** [ORDER BY enqueued_at ASC]. *)
Definition oldest_first : list queue_row -> list queue_row :=
  sort_by (fun a b => enqueued_at a <=? enqueued_at b).

Definition fetch_pending_commands (now : Z) (cp : string) (q : list queue_row) : list queue_row :=
  oldest_first (List.filter (fun r => String.eqb (charge_point_id r) cp && deliverable now r) q).

Definition fetch_pending_commands_all (now : Z) (limit : nat) (excluded : list string)
    (q : list queue_row) : list queue_row :=
  take limit (oldest_first
    (List.filter (fun r => deliverable now r && negb (bool_decide (charge_point_id r ∈ excluded))) q)).

Definition overdue (now : Z) (r : queue_row) : bool := is_pending r && (expires_at r <=? now).

Definition expire_overdue_commands (now : Z) (q : list queue_row) : Z * list queue_row :=
  (Z.of_nat (length (List.filter (overdue now) q)),
   map (fun r => if overdue now r
                 then with_status r expired_status (sent_at r) (acked_at r) (last_error r)
                        (attempt_count r)
                 else r) q).

Definition queue_depth_by_status (q : list queue_row) (s : command_status) : Z :=
  Z.of_nat (length (List.filter (fun r => bool_decide (status r = s)) q)).

(** ** Log imports *)

Inductive import_status :=
| requested | uploading | received | import_parsed | import_reconciled
| import_failed | import_expired.

#[export] Instance import_status_eq_dec : EqDecision import_status.
Proof. solve_decision. Defined.

Record import_row := {
  import_id : string;
  im_status : import_status;
  file_name : option string;
  error_message : option string;
  requested_at : Z
}.

Definition expire_overdue_charger_log_imports (now ttl_seconds : Z) (l : list import_row)
  : list import_row :=
  map (fun r =>
    let age_over s := requested_at r <=? now - s * usec in
    if match im_status r with
       | requested => age_over ttl_seconds
       | uploading => age_over (ttl_seconds * 2)
       | _ => false
       end
    then {| import_id := import_id r; im_status := import_expired; file_name := file_name r;
            error_message := match error_message r with
                             | Some e => Some e
                             | None => Some "upload window elapsed without receiving file"%string
                             end;
            requested_at := requested_at r |}
    else r) l.

Definition _coerce_uuid (v : pyobj) : option string :=
  match v with
  | PStr s => uuid_of_string s
  | PInt z => uuid_of_string (pretty z)
  | _ => None
  end.

(** ** The consumer *)

(** What a call to a session comes back with. *)
Inductive call (A : Type) : Type :=
| Returned (a : A)
| Raised (msg : string).
Arguments Returned {A} a.
Arguments Raised {A} msg.

(** A connected charger's handler; [None] is a method it does not have. *)
Record session := {
  accepts_allow_enqueue : bool;
  send_charging_profile : Z -> pyobj -> call bool;
  send_reset : option (pyobj -> call bool);
  send_remote_start_transaction : option (Z -> pyobj -> call bool);
  get_diagnostics : option (dict string pyobj -> call (option string))
}.

Record row_env := {
  connected : option session;       (* [cp_lookup(cp_id)] *)
  still_connected : bool;           (* the same after a push raised *)
  mark_ok : bool;                   (* the queue row's update succeeds *)
  import_ok : bool;                 (* the import row's update succeeds *)
  env_now : Z;                      (* the database's [NOW()] *)
  env_mono : Z                      (* [time.monotonic()] *)
}.

(** A call to a session: for which row, and whether the charger accepted. *)
Record push := { push_id : Z; push_accepted : bool }.

Record ChargingCommandQueueConsumer := {
  queue : list queue_row;
  imports : list import_row;
  _offline_charge_points : dict string Z;
  pushes : list push
}.

Definition EXCLUDED_OFFLINE_RETRY : Z := 30 * usec.
Definition EXPIRY_SCAN_INTERVAL : Z := 60 * usec.

(** [ChargingCommandQueueConsumer.__init__] on the tables it finds. *)
Definition init_consumer (q : list queue_row) (i : list import_row) : ChargingCommandQueueConsumer :=
  {| queue := q; imports := i; _offline_charge_points := []; pushes := [] |}.

Definition with_queue (f : list queue_row -> list queue_row) (c : ChargingCommandQueueConsumer)
  : ChargingCommandQueueConsumer :=
  {| queue := f (queue c); imports := imports c;
     _offline_charge_points := _offline_charge_points c; pushes := pushes c |}.
Definition with_imports (f : list import_row -> list import_row) (c : ChargingCommandQueueConsumer)
  : ChargingCommandQueueConsumer :=
  {| queue := queue c; imports := f (imports c);
     _offline_charge_points := _offline_charge_points c; pushes := pushes c |}.
Definition with_offline (f : dict string Z -> dict string Z) (c : ChargingCommandQueueConsumer)
  : ChargingCommandQueueConsumer :=
  {| queue := queue c; imports := imports c;
     _offline_charge_points := f (_offline_charge_points c); pushes := pushes c |}.
Definition record_push (id : Z) (ok : bool) (c : ChargingCommandQueueConsumer)
  : ChargingCommandQueueConsumer :=
  {| queue := queue c; imports := imports c; _offline_charge_points := _offline_charge_points c;
     pushes := pushes c ++ [{| push_id := id; push_accepted := ok |}] |}.

Section Handle.
Context (env : row_env).

(** Updates whose errors are logged and dropped. *)
Definition try_mark_failed (id : Z) (err : string) (c : ChargingCommandQueueConsumer) :=
  if mark_ok env then with_queue (mark_command_failed id err) c else c.
Definition try_mark_sent (id : Z) (c : ChargingCommandQueueConsumer) :=
  if mark_ok env then with_queue (mark_command_sent (env_now env) id) c else c.

(** [(payload or {}).get(key)]; [None] is the error of a payload that is neither
    empty nor an object. *)
Definition payload_get (p : pyobj) (key : string) (dflt : pyobj) : option pyobj :=
  match p with
  | PDict d => Some (dget_or d key dflt)
  | _ => if truthy p then None else Some dflt
  end.

Definition update_import (id : string) (f : import_row -> import_row) (l : list import_row)
  : list import_row :=
  map (fun r => if String.eqb (import_id r) id then f r else r) l.

Definition _mark_import_uploading (p : pyobj) (filename : string)
    (c : ChargingCommandQueueConsumer) : option ChargingCommandQueueConsumer :=
  match payload_get p "import_id" PNone with
  | None => None
  | Some v =>
      match _coerce_uuid v with
      | None => Some c
      | Some id =>
          Some (if import_ok env
                then with_imports (update_import id (fun r =>
                       match im_status r with
                       | requested =>
                           {| import_id := import_id r; im_status := uploading;
                              file_name := match file_name r with
                                           | Some n => Some n
                                           | None => Some filename
                                           end;
                              error_message := error_message r; requested_at := requested_at r |}
                       | _ => r
                       end)) c
                else c)
      end
  end.

Definition _mark_import_failed (p : pyobj) (reason : string) (c : ChargingCommandQueueConsumer)
  : option ChargingCommandQueueConsumer :=
  match payload_get p "import_id" PNone with
  | None => None
  | Some v =>
      match _coerce_uuid v with
      | None => Some c
      | Some id =>
          Some (if import_ok env
                then with_imports (update_import id (fun r =>
                       match im_status r with
                       | requested | uploading =>
                           {| import_id := import_id r; im_status := import_failed;
                              file_name := file_name r;
                              error_message := Some (String.substring 0 500 reason);
                              requested_at := requested_at r |}
                       | _ => r
                       end)) c
                else c)
      end
  end.

(** What a handler ends with: [Some b] is the returned boolean, [None] an
    exception, which [drain_once] logs. *)
Definition outcome : Type := option bool * ChargingCommandQueueConsumer.

(** [await self._mark_import_...; return True]. *)
Definition then_true (c : ChargingCommandQueueConsumer) (r : option ChargingCommandQueueConsumer)
  : outcome :=
  match r with Some c' => (Some true, c') | None => (None, c) end.

(** The end the push handlers share: the row is marked by the charger's answer. *)
Definition settle (id : Z) (rejected : string) (answer : call bool)
    (c : ChargingCommandQueueConsumer) : outcome :=
  match answer with
  | Raised e => (Some true, try_mark_failed id e (record_push id false c))
  | Returned ok =>
      let c := record_push id ok c in
      (Some true, if ok then try_mark_sent id c else try_mark_failed id rejected c)
  end.

Definition _handle_remote_reset (id : Z) (cp : session) (p : pyobj)
    (c : ChargingCommandQueueConsumer) : outcome :=
  match send_reset cp with
  | None => (Some true, try_mark_failed id "session does not support send_reset" c)
  | Some send =>
      match payload_get p "type" (PStr "Soft") with
      | None => (None, c)
      | Some reset_type => settle id "charger Rejected Reset" (send reset_type) c
      end
  end.

(** [get("id_tag") or get("idTag")]. *)
Definition _handle_remote_start_transaction (id : Z) (cp : session) (conn : Z) (p : pyobj)
    (c : ChargingCommandQueueConsumer) : outcome :=
  match send_remote_start_transaction cp with
  | None => (Some true, try_mark_failed id "session does not support send_remote_start_transaction" c)
  | Some send =>
      match payload_get p "id_tag" PNone, payload_get p "idTag" PNone with
      | Some a, Some b =>
          let id_tag := py_or a b in
          if truthy id_tag
          then settle id "charger Rejected RemoteStartTransaction" (send conn id_tag) c
          else (Some true, try_mark_failed id "payload missing id_tag" c)
      | _, _ => (None, c)
      end
  end.

(** The keyword arguments: the location and what else the payload gives. *)
Definition diagnostics_kwargs (location : pyobj) (p : pyobj) : dict string pyobj :=
  ("location"%string, location)
  :: omap (fun k => match payload_get p k PNone with
                    | Some PNone | None => None
                    | Some v => Some (k, v)
                    end) ["retries"; "retry_interval"; "start_time"; "stop_time"]%string.

Definition _handle_get_diagnostics (id : Z) (cp : session) (p : pyobj)
    (c : ChargingCommandQueueConsumer) : outcome :=
  let fail err reason c :=
    let c := try_mark_failed id err c in then_true c (_mark_import_failed p reason c) in
  match get_diagnostics cp with
  | None => fail "session does not support get_diagnostics"
              "session does not support get_diagnostics" c
  | Some send =>
      match payload_get p "location" PNone with
      | None => (None, c)
      | Some location =>
          if negb (truthy location)
          then fail "payload missing location" "payload missing location" c
          else match send (diagnostics_kwargs location p) with
               | Raised e => fail e e (record_push id false c)
               | Returned None =>
                   fail "charger Rejected GetDiagnostics or returned no filename"
                     "charger Rejected GetDiagnostics" (record_push id false c)
               | Returned (Some filename) =>
                   let c := try_mark_sent id (record_push id true c) in
                   then_true c (_mark_import_uploading p filename c)
               end
      end
  end%string.

Definition _handle_row (r : queue_row) (c : ChargingCommandQueueConsumer) : outcome :=
  let id := queue_id r in
  let cp_id := charge_point_id r in
  match connected env with
  | None => (Some false, with_offline (fun d => d +{ cp_id := env_mono env }) c)
  | Some cp =>
      if String.eqb (command_type r) "remote_reset"
      then _handle_remote_reset id cp (payload r) c
      else if String.eqb (command_type r) "remote_start_transaction"
      then _handle_remote_start_transaction id cp (connector_id r) (payload r) c
      else if String.eqb (command_type r) "get_diagnostics"
      then _handle_get_diagnostics id cp (payload r) c
      else if negb (String.eqb (command_type r) "set_charging_profile")
      then (Some true, try_mark_failed id ("unknown command_type: " +:+ command_type r) c)
      else match send_charging_profile cp (connector_id r) (payload r) with
           | Raised e =>
               let c := record_push id false c in
               if accepts_allow_enqueue cp && negb (still_connected env)
               then (Some false, with_offline (fun d => d +{ cp_id := env_mono env }) c)
               else (Some true, try_mark_failed id e c)
           | Returned ok =>
               settle id "charger Rejected SetChargingProfile" (Returned ok) c
           end
  end.
End Handle.

(** ** Draining *)

(** Stations seen offline less than 30 s ago. *)
Definition recently_offline (mono : Z) (d : dict string Z) : dict string Z :=
  List.filter (fun '(_, seen) => mono - seen <? EXCLUDED_OFFLINE_RETRY) d.

Definition drain_rows (env : Z -> row_env) (rows : list queue_row) (n : Z)
    (c : ChargingCommandQueueConsumer) : Z * ChargingCommandQueueConsumer :=
  foldl (fun '(n, c) r =>
           let '(o, c) := _handle_row (env (queue_id r)) r c in
           (match o with Some true => n + 1 | _ => n end, c)) (n, c) rows.

(** [fetch_ok]: the select succeeds. *)
Definition drain_once (now mono : Z) (fetch_ok : bool) (env : Z -> row_env)
    (c : ChargingCommandQueueConsumer) : Z * ChargingCommandQueueConsumer :=
  let excluded := recently_offline mono (_offline_charge_points c) in
  let c := with_offline (fun _ => excluded) c in
  if fetch_ok
  then drain_rows env (fetch_pending_commands_all now 200 (dkeys excluded) (queue c)) 0 c
  else (0, c).

(** One turn of [_consume_loop] without its wait; the statements that fail are
    logged. [ttl] is the upload token's lifetime in seconds. *)
Definition consume_turn (now mono : Z) (fetch_ok expire_ok expire_imports_ok : bool) (ttl : Z)
    (env : Z -> row_env) (last_expiry_scan : Z) (c : ChargingCommandQueueConsumer)
  : Z * ChargingCommandQueueConsumer :=
  let c := snd (drain_once now mono fetch_ok env c) in
  if EXPIRY_SCAN_INTERVAL <=? mono - last_expiry_scan
  then let c := if expire_ok
                then with_queue (fun q => snd (expire_overdue_commands now q)) c else c in
       let c := if expire_imports_ok
                then with_imports (expire_overdue_charger_log_imports now ttl) c else c in
       (mono, c)
  else (last_expiry_scan, c).

(** *** Notifications

    [payload.split(":", 1)]: the text behind the first colon. *)
Fixpoint after_colon (s : string) : option string :=
  match s with
  | EmptyString => None
  | String c s' => if Ascii.eqb c ":"%char then Some s' else after_colon s'
  end.

Definition _on_notify (note : string) (c : ChargingCommandQueueConsumer)
  : ChargingCommandQueueConsumer :=
  if String.eqb note "" then with_offline (fun _ => []) c
  else match after_colon note with
       | Some cp => let cp := strip cp in
                    if String.eqb cp "" then c else with_offline (dpop cp) c
       | None => with_offline (fun _ => []) c
       end.

(** ** Replay after a boot

    [OCPP16Session.replay_queued_commands]: [send] is the session's
    [send_charging_profile(connector_id, payload, allow_enqueue=False)]. *)
Definition replay_row (env : Z -> row_env) (send : Z -> pyobj -> call bool)
    (nc : Z * ChargingCommandQueueConsumer) (r : queue_row) : Z * ChargingCommandQueueConsumer :=
  let '(n, c) := nc in
  if negb (String.eqb (command_type r) "set_charging_profile") then (n, c)
  else
    let id := queue_id r in
    let e := env id in
    match send (connector_id r) (payload r) with
    | Raised msg => (n, try_mark_failed e id msg (record_push id false c))
    | Returned true =>
        let c := record_push id true c in
        if mark_ok e then (n + 1, with_queue (mark_command_acked (env_now e) id) c) else (n, c)
    | Returned false =>
        (n, try_mark_failed e id "charger rejected SetChargingProfile" (record_push id false c))
    end.

Definition replay_queued_commands (now : Z) (fetch_ok : bool) (station : string)
    (env : Z -> row_env) (send : Z -> pyobj -> call bool) (c : ChargingCommandQueueConsumer)
  : Z * ChargingCommandQueueConsumer :=
  if fetch_ok
  then foldl (replay_row env send) (0, c) (fetch_pending_commands now station (queue c))
  else (0, c).
