(* ===== verification/CommandQueueFacts.v ===== *)
(** * Properties of the command queue

    An abstract machine of the queue (a row is enqueued, settled by an answer,
    retried or expired) which draining, the expiry scan and the replay refine;
    its invariants: the life cycle of a row, that a command is accepted at most
    once and one-shot commands are pushed at most once. Then what one drain does
    to every row, and which rows it may leave out. *)

From S2P Require Import Prelude Models CommandQueue.
From Stdlib Require Import ZArith Lia Ascii.
From stdpp Require Import base list strings gmap relations sorting.

#[local] Open Scope Z_scope.

(** ** The abstract machine *)

Definition astate : Type := list queue_row * list push.

(** What handling a pending row [r] may do. [marks] says that the updates of the
    queue succeed; without it an answer can be lost. *)
Inductive effect (marks : bool) (r : queue_row) : astate -> astate -> Prop :=
| ef_retry q pu :
    command_type r = "set_charging_profile" ->
    effect marks r (q, pu) (q, pu ++ [{| push_id := queue_id r; push_accepted := false |}])
| ef_reject e q pu :
    effect marks r (q, pu) (mark_command_failed (queue_id r) e q, pu)
| ef_fail e q pu :
    effect marks r (q, pu) (mark_command_failed (queue_id r) e q,
                            pu ++ [{| push_id := queue_id r; push_accepted := false |}])
| ef_sent now q pu :
    effect marks r (q, pu) (mark_command_sent now (queue_id r) q,
                            pu ++ [{| push_id := queue_id r; push_accepted := true |}])
| ef_acked now q pu :
    effect marks r (q, pu) (mark_command_acked now (queue_id r) q,
                            pu ++ [{| push_id := queue_id r; push_accepted := true |}])
| ef_lost ok q pu :
    marks = false ->
    effect marks r (q, pu) (q, pu ++ [{| push_id := queue_id r; push_accepted := ok |}]).

Inductive astep (marks : bool) : astate -> astate -> Prop :=
| a_enqueue now id cp conn data mins ty q pu :
    id ∉ map queue_id q ->
    astep marks (q, pu) (enqueue_charging_command now id cp conn data mins ty q, pu)
| a_handle r s s' :
    r ∈ fst s -> status r = pending -> effect marks r s s' -> astep marks s s'
| a_expire now q pu :
    astep marks (q, pu) (snd (expire_overdue_commands now q), pu).

Definition abs (c : ChargingCommandQueueConsumer) : astate := (queue c, pushes c).

(** The consumer's steps; [marks] asks that the updates succeed. *)
Inductive qstep (marks : bool) : ChargingCommandQueueConsumer -> ChargingCommandQueueConsumer -> Prop :=
| q_enqueue now id cp conn data mins ty c :
    id ∉ map queue_id (queue c) ->
    qstep marks c (with_queue (enqueue_charging_command now id cp conn data mins ty) c)
| q_turn now mono f e i ttl env scan c :
    (marks = true -> forall id, mark_ok (env id) = true) ->
    qstep marks c (snd (consume_turn now mono f e i ttl env scan c))
| q_notify note c : qstep marks c (_on_notify note c)
| q_replay now f st env send c :
    (marks = true -> forall id, mark_ok (env id) = true) ->
    qstep marks c (snd (replay_queued_commands now f st env send c)).

(** ** Updates by identifier *)

Lemma is_pending_spec r : is_pending r = true <-> status r = pending.
Proof. unfold is_pending. apply bool_decide_eq_true. Qed.

Lemma is_pending_false r : is_pending r = false <-> status r <> pending.
Proof. unfold is_pending. apply bool_decide_eq_false. Qed.

Lemma update_pending_other id f q r : r ∈ q -> queue_id r <> id -> r ∈ update_pending id f q.
Proof.
  intros Hr Hne. apply list_elem_of_fmap. exists r. split; [|done].
  by rewrite (proj2 (Z.eqb_neq _ _) Hne).
Qed.

(** Every table operation keeps the rows in place and changes pending rows only. *)
Record evolves (r r' : queue_row) : Prop := {
  ev_id : queue_id r' = queue_id r;
  ev_type : command_type r' = command_type r;
  ev_cp : charge_point_id r' = charge_point_id r;
  ev_final : status r <> pending -> r' = r
}.

Lemma evolves_refl r : evolves r r.
Proof. by constructor. Qed.

Lemma evolves_trans r1 r2 r3 : evolves r1 r2 -> evolves r2 r3 -> evolves r1 r3.
Proof.
  intros [A1 A2 A3 A4] [B1 B2 B3 B4]. constructor; try congruence.
  intros H. assert (r2 = r1) as -> by auto. auto.
Qed.

Lemma with_status_evolves r s a b e n : status r = pending -> evolves r (with_status r s a b e n).
Proof. intros H. constructor; [done..|]. intros Hn. by destruct Hn. Qed.

Lemma map_evolves (g : queue_row -> queue_row) q :
  (forall r, evolves r (g r)) -> Forall2 evolves q (map g q).
Proof. intros Hg. induction q as [|r q IH]; cbn [map]; constructor; auto. Qed.

Lemma update_evolves id f q :
  (forall r, status r = pending -> evolves r (f r)) -> Forall2 evolves q (update_pending id f q).
Proof.
  intros Hf. apply map_evolves. intros r. destruct (_ && _) eqn:E; [|apply evolves_refl].
  apply andb_true_iff in E as [_ E%is_pending_spec]. auto.
Qed.

Lemma expire_evolves now q : Forall2 evolves q (snd (expire_overdue_commands now q)).
Proof.
  apply map_evolves. intros r. unfold overdue. destruct (is_pending r) eqn:E; cbn [andb];
    [|apply evolves_refl].
  destruct (_ <=? _); [|apply evolves_refl]. by apply with_status_evolves, is_pending_spec.
Qed.

Lemma effect_evolves marks r q pu q' pu' :
  effect marks r (q, pu) (q', pu') -> Forall2 evolves q q'.
Proof.
  assert (Forall2 evolves q q) as Hrefl by (induction q; constructor; auto using evolves_refl).
  inversion 1; subst; try exact Hrefl; apply update_evolves; intros; by apply with_status_evolves.
Qed.

Lemma evolves_ids q q' : Forall2 evolves q q' -> map queue_id q' = map queue_id q.
Proof. induction 1 as [|r r' q q' [] _ IH]; [done|]. cbn [map]. congruence. Qed.

(** Under unique identifiers an update reaches one row. *)
Lemma update_elem f q r r' :
  NoDup (map queue_id q) -> r ∈ q -> status r = pending ->
  r' ∈ update_pending (queue_id r) f q -> (r' ∈ q /\ queue_id r' <> queue_id r) \/ r' = f r.
Proof.
  intros Hn Hr Hp (x & -> & Hx)%list_elem_of_fmap.
  destruct (Z.eqb_spec (queue_id x) (queue_id r)) as [E|E]; cbn [andb]; [|by left].
  assert (x = r) as -> by (by eapply nodup_map_inj).
  right. by rewrite (proj2 (is_pending_spec r) Hp).
Qed.

(** ** The invariant *)

Definition delivered (s : command_status) : bool :=
  match s with sent | acked => true | _ => false end.

Definition life_cycle (r : queue_row) : Prop :=
  match status r with
  | pending | expired_status =>
      attempt_count r = 0 /\ sent_at r = None /\ acked_at r = None /\ last_error r = None
  | sent => attempt_count r = 1 /\ is_Some (sent_at r) /\ acked_at r = None /\ last_error r = None
  | acked => attempt_count r = 1 /\ is_Some (sent_at r) /\ acked_at r = sent_at r /\ last_error r = None
  | failed => attempt_count r = 1 /\ sent_at r = None /\ acked_at r = None /\ is_Some (last_error r)
  end.

(** The calls made for a row, and those the charger accepted. *)
Definition n_pushed (r : queue_row) (pu : list push) : Z :=
  Z.of_nat (length (List.filter (fun p => push_id p =? queue_id r) pu)).
Definition n_accepted (r : queue_row) (pu : list push) : Z :=
  Z.of_nat (length (List.filter (fun p => (push_id p =? queue_id r) && push_accepted p) pu)).

Definition one_shot (r : queue_row) : Prop := command_type r <> "set_charging_profile"%string.

Record ainv (marks : bool) (s : astate) : Prop := {
  ai_ids : NoDup (map queue_id (fst s));
  ai_known : forall p, p ∈ snd s -> push_id p ∈ map queue_id (fst s);
  ai_life : forall r, r ∈ fst s -> life_cycle r;
  ai_accepted : marks = true -> forall r, r ∈ fst s ->
    n_accepted r (snd s) = if delivered (status r) then 1 else 0;
  ai_one_shot : marks = true -> forall r, r ∈ fst s -> one_shot r ->
    n_pushed r (snd s) <= attempt_count r
}.

Lemma filter_snoc {A} (f : A -> bool) l x :
  length (List.filter f (l ++ [x])) = (length (List.filter f l) + if f x then 1 else 0)%nat.
Proof. rewrite List.filter_app, length_app. cbn. by destruct (f x). Qed.

Lemma n_pushed_snoc r pu p :
  n_pushed r (pu ++ [p]) = n_pushed r pu + if push_id p =? queue_id r then 1 else 0.
Proof. unfold n_pushed. rewrite filter_snoc. destruct (_ =? _); lia. Qed.

Lemma n_accepted_snoc r pu p :
  n_accepted r (pu ++ [p])
  = n_accepted r pu + if (push_id p =? queue_id r) && push_accepted p then 1 else 0.
Proof. unfold n_accepted. rewrite filter_snoc. destruct (_ && _); lia. Qed.

Lemma unknown_none (f : push -> bool) id pu :
  (forall p, p ∈ pu -> f p = true -> push_id p = id) -> (forall p, p ∈ pu -> push_id p <> id) ->
  length (List.filter f pu) = 0%nat.
Proof.
  induction pu as [|p pu IH]; intros H1 H2; [done|]. cbn.
  destruct (f p) eqn:E.
  - exfalso. apply (H2 p); [left|]. apply H1; [left | done].
  - apply IH; intros; [apply H1 | apply H2]; auto; by right.
Qed.

Lemma enqueue_ainv marks now id cp conn data mins ty q pu :
  id ∉ map queue_id q -> ainv marks (q, pu) ->
  ainv marks (enqueue_charging_command now id cp conn data mins ty q, pu).
Proof.
  intros Hid [H1 H2 H3 H4 H5]. cbn [fst snd] in *. unfold enqueue_charging_command.
  assert (forall p, p ∈ pu -> push_id p <> id) as Hne by (intros p Hp E; apply Hid; rewrite <- E; auto).
  constructor; cbn [fst snd].
  - rewrite map_app. apply NoDup_app. split_and!; [done | | apply NoDup_singleton].
    intros x Hx E. apply list_elem_of_singleton in E as ->. by apply Hid.
  - intros p Hp. rewrite map_app. apply elem_of_app. left. auto.
  - intros r [Hr|Hr]%elem_of_app; [auto|]. apply list_elem_of_singleton in Hr as ->. done.
  - intros Hm r [Hr|Hr]%elem_of_app; [auto|]. apply list_elem_of_singleton in Hr as ->.
    unfold n_accepted. cbn [queue_id status delivered]. erewrite (unknown_none _ id); [done| |done].
    intros p _ [E _]%andb_true_iff. by apply Z.eqb_eq.
  - intros Hm r [Hr|Hr]%elem_of_app; [auto|]. apply list_elem_of_singleton in Hr as ->.
    intros _. unfold n_pushed. cbn [queue_id attempt_count]. erewrite (unknown_none _ id); [done| |done].
    intros p _ E. by apply Z.eqb_eq.
Qed.

(** An update of the handled row [r] to [f r] together with calls [ps] for it. *)
Lemma update_ainv marks r f q pu ps :
  ainv marks (q, pu) -> r ∈ q -> status r = pending ->
  (forall p, p ∈ ps -> push_id p = queue_id r) ->
  evolves r (f r) -> life_cycle (f r) ->
  (marks = true -> n_accepted r ps = if delivered (status (f r)) then 1 else 0) ->
  (marks = true -> one_shot r -> n_pushed r ps <= attempt_count (f r)) ->
  ainv marks (update_pending (queue_id r) f q, pu ++ ps).
Proof.
  intros [H1 H2 H3 H4 H5] Hr Hp Hps He Hl Ha Ho. cbn [fst snd] in *.
  assert (map queue_id (update_pending (queue_id r) f q) = map queue_id q) as Hids.
  { unfold update_pending. rewrite map_map. apply map_ext_in. intros x Hx%list_elem_of_In.
    destruct (Z.eqb_spec (queue_id x) (queue_id r)) as [E|E]; [|done]. cbn [andb].
    destruct (is_pending x) eqn:Ex; [|done].
    assert (x ∈ update_pending (queue_id r) (fun y => y) q) as Hx'.
    { apply list_elem_of_fmap. exists x. split; [by destruct (_ && _) | done]. }
    destruct (update_elem _ _ _ _ H1 Hr Hp Hx') as [[_ Hne]| ->]; [by destruct Hne|].
    apply He. }
  assert (forall x g, queue_id x <> queue_id r ->
            length (List.filter (fun p => (push_id p =? queue_id x) && g p) ps) = 0%nat) as Hother.
  { intros x g Hne. apply (unknown_none _ (queue_id x)).
    - intros p _ [E _]%andb_true_iff. by apply Z.eqb_eq.
    - intros p Hin E. apply Hne. rewrite <- E. auto. }
  constructor; cbn [fst snd].
  - by rewrite Hids.
  - intros p [Hin|Hin]%elem_of_app; rewrite Hids; [auto|]. rewrite (Hps _ Hin).
    apply list_elem_of_fmap. eauto.
  - intros x Hx. destruct (update_elem _ _ _ _ H1 Hr Hp Hx) as [[Hin _]| ->]; auto.
  - intros Hm x Hx. unfold n_accepted. rewrite List.filter_app, length_app, Nat2Z.inj_add.
    destruct (update_elem _ _ _ _ H1 Hr Hp Hx) as [[Hin Hne]| ->].
    + rewrite (Hother x push_accepted Hne), Z.add_0_r. by apply H4.
    + rewrite (ev_id _ _ He). pose proof (H4 Hm r Hr) as H4'. rewrite Hp in H4'.
      cbn [delivered] in H4'. unfold n_accepted in H4', Ha. rewrite H4'. cbn [Z.add]. auto.
  - intros Hm x Hx Hs. unfold n_pushed. rewrite List.filter_app, length_app, Nat2Z.inj_add.
    destruct (update_elem _ _ _ _ H1 Hr Hp Hx) as [[Hin Hne]| ->].
    + assert (length (List.filter (fun p => push_id p =? queue_id x) ps) = 0%nat) as ->.
      { rewrite <- (Hother x (fun _ => true) Hne). f_equal. apply filter_ext. intros p.
        by rewrite andb_true_r. }
      rewrite Z.add_0_r. by apply H5.
    + rewrite (ev_id _ _ He). unfold one_shot in Hs. rewrite (ev_type _ _ He) in Hs.
      pose proof (H5 Hm r Hr Hs) as H5'. pose proof (H3 r Hr) as Hl'. unfold life_cycle in Hl'.
      rewrite Hp in Hl'. destruct Hl' as [Hz _]. rewrite Hz in H5'.
      unfold n_pushed in H5', Ho. specialize (Ho Hm Hs). lia.
Qed.

Lemma update_same id q : update_pending id (fun r => r) q = q.
Proof. unfold update_pending. induction q as [|r q IH]; [done|]. cbn [map]. rewrite IH. by destruct (_ && _). Qed.

Lemma n_one r ok :
  let ps := [{| push_id := queue_id r; push_accepted := ok |}] in
  n_pushed r ps = 1 /\ n_accepted r ps = if ok then 1 else 0.
Proof. unfold n_pushed, n_accepted. cbn. rewrite Z.eqb_refl. by destruct ok. Qed.

Lemma effect_ainv marks r s s' :
  ainv marks s -> r ∈ fst s -> status r = pending -> effect marks r s s' -> ainv marks s'.
Proof.
  intros Hi Hr Hp He.
  pose proof (ai_life _ _ Hi r Hr) as Hl. unfold life_cycle in Hl. rewrite Hp in Hl.
  destruct Hl as (L1 & L2 & L3 & L4).
  destruct He as [q pu Ht|e q pu|e q pu|now q pu|now q pu|ok q pu Hm];
    [rewrite <- (update_same (queue_id r) q)
    |rewrite <- (app_nil_r pu)
    | | |
    |rewrite <- (update_same (queue_id r) q)].
  all: apply update_ainv; try done;
    try (intros p Hin; (apply list_elem_of_singleton in Hin as -> || apply not_elem_of_nil in Hin); done);
    try (by apply with_status_evolves); try (by apply evolves_refl); intros;
    rewrite ?(proj1 (n_one r _)), ?(proj2 (n_one r _)); unfold life_cycle; cbn;
    rewrite ?L1, ?L2, ?L3, ?L4, ?Hp; cbn; try done; try congruence; eauto.
Qed.

Lemma expire_ainv marks now q pu :
  ainv marks (q, pu) -> ainv marks (snd (expire_overdue_commands now q), pu).
Proof.
  intros [H1 H2 H3 H4 H5]. cbn [fst snd] in *.
  pose proof (evolves_ids _ _ (expire_evolves now q)) as Hids.
  assert (forall r', r' ∈ snd (expire_overdue_commands now q) ->
            r' ∈ q \/ exists r, r ∈ q /\ status r = pending /\
              r' = with_status r expired_status (sent_at r) (acked_at r) (last_error r)
                     (attempt_count r)) as Hcase.
  { intros r' (r & -> & Hr)%list_elem_of_fmap. destruct (overdue now r) eqn:E; [|by left].
    right. exists r. split_and!; [done| |done].
    apply andb_true_iff in E as [E _]. by apply is_pending_spec. }
  constructor; cbn [fst snd]; rewrite ?Hids; auto.
  - intros r' [Hr|(r & Hr & Hp & ->)]%Hcase; [auto|]. pose proof (H3 r Hr) as Hl.
    unfold life_cycle in *. by rewrite Hp in Hl.
  - intros Hm r' [Hr|(r & Hr & Hp & ->)]%Hcase; [auto|]. pose proof (H4 Hm r Hr) as Hl.
    by rewrite Hp in Hl.
  - intros Hm r' [Hr|(r & Hr & Hp & ->)]%Hcase Hs; [auto|]. by apply (H5 Hm r Hr).
Qed.

Lemma astep_ainv marks s s' : astep marks s s' -> ainv marks s -> ainv marks s'.
Proof.
  intros [] Hi; [by apply enqueue_ainv | by eapply effect_ainv | by apply expire_ainv].
Qed.

Lemma asteps_ainv marks s s' : rtc (astep marks) s s' -> ainv marks s -> ainv marks s'.
Proof. induction 1; eauto using astep_ainv. Qed.

Lemma astep_evolves marks s s' :
  astep marks s s' -> exists q1 q2, fst s' = q1 ++ q2 /\ Forall2 evolves (fst s) q1.
Proof.
  assert (forall q, Forall2 evolves q q) as Hrefl
    by (intros q; induction q; constructor; auto using evolves_refl).
  intros [now id cp conn data mins ty q pu _|r [q pu] [q' pu'] _ _ He|now q pu]; cbn [fst].
  - eexists q, _. split; [reflexivity | apply Hrefl].
  - exists q', []. rewrite app_nil_r. split; [done|]. by eapply effect_evolves.
  - eexists _, []. rewrite app_nil_r. split; [reflexivity | apply expire_evolves].
Qed.

(** ** The consumer refines the machine *)

Section Refine.
Context (marks : bool) (env : row_env) (Hm : marks = true -> mark_ok env = true).

Lemma try_failed_effect r e c :
  abs (try_mark_failed env (queue_id r) e c) = abs c \/
  effect marks r (abs c) (abs (try_mark_failed env (queue_id r) e c)).
Proof. unfold try_mark_failed. destruct (mark_ok env); [right; constructor | by left]. Qed.

Lemma push_failed_effect r e c :
  effect marks r (abs c) (abs (try_mark_failed env (queue_id r) e (record_push (queue_id r) false c))).
Proof.
  unfold try_mark_failed. destruct (mark_ok env) eqn:E; [constructor|].
  apply ef_lost. destruct marks; [|done]. by specialize (Hm eq_refl).
Qed.

Lemma push_sent_effect r c :
  effect marks r (abs c) (abs (try_mark_sent env (queue_id r) (record_push (queue_id r) true c))).
Proof.
  unfold try_mark_sent. destruct (mark_ok env) eqn:E; [constructor|].
  apply ef_lost. destruct marks; [|done]. by specialize (Hm eq_refl).
Qed.

Lemma settle_effect r rej ans c :
  effect marks r (abs c) (abs (snd (settle env (queue_id r) rej ans c))).
Proof.
  destruct ans as [[]|e]; cbn [settle snd]; [apply push_sent_effect | apply push_failed_effect..].
Qed.

(** The updates of the import table do not touch the queue. *)
Lemma import_failed_abs p reason c : abs (snd (then_true c (_mark_import_failed env p reason c))) = abs c.
Proof.
  unfold _mark_import_failed, then_true. destruct (payload_get p "import_id" PNone) as [v|]; [|done].
  destruct (_coerce_uuid v); [|done]. by destruct (import_ok env).
Qed.

Lemma import_uploading_abs p n c : abs (snd (then_true c (_mark_import_uploading env p n c))) = abs c.
Proof.
  unfold _mark_import_uploading, then_true. destruct (payload_get p "import_id" PNone) as [v|]; [|done].
  destruct (_coerce_uuid v); [|done]. by destruct (import_ok env).
Qed.

Lemma handle_effect r c :
  abs (snd (_handle_row env r c)) = abs c \/
  effect marks r (abs c) (abs (snd (_handle_row env r c))).
Proof.
  unfold _handle_row. destruct (connected env) as [cp|]; [|by left].
  destruct (String.eqb_spec (command_type r) "remote_reset") as [_|_].
  { unfold _handle_remote_reset. destruct (send_reset cp) as [send|]; [|apply try_failed_effect].
    destruct (payload_get _ _ _); [right; apply settle_effect | by left]. }
  destruct (String.eqb_spec (command_type r) "remote_start_transaction") as [_|_].
  { unfold _handle_remote_start_transaction.
    destruct (send_remote_start_transaction cp) as [send|]; [|apply try_failed_effect].
    destruct (payload_get (payload r) "id_tag" PNone), (payload_get (payload r) "idTag" PNone); try (by left).
    destruct (truthy _); [right; apply settle_effect | apply try_failed_effect]. }
  destruct (String.eqb_spec (command_type r) "get_diagnostics") as [_|_].
  { unfold _handle_get_diagnostics.
    destruct (get_diagnostics cp) as [send|];
      [|rewrite import_failed_abs; apply try_failed_effect].
    destruct (payload_get _ _ _) as [loc|]; [|by left].
    destruct (truthy loc); cbn [negb]; [|rewrite import_failed_abs; apply try_failed_effect].
    right. destruct (send _) as [[n|]|e];
      rewrite ?import_failed_abs, ?import_uploading_abs;
      [apply push_sent_effect | apply push_failed_effect..]. }
  destruct (String.eqb_spec (command_type r) "set_charging_profile") as [Ht|_]; cbn [negb];
    [|apply try_failed_effect].
  right. destruct (send_charging_profile cp _ _) as [ok|e]; [apply settle_effect|].
  destruct (_ && _); [by apply ef_retry | apply push_failed_effect].
Qed.

Lemma replay_effect (envs : Z -> row_env) send n c r :
  envs (queue_id r) = env ->
  abs (snd (replay_row envs send (n, c) r)) = abs c \/
  effect marks r (abs c) (abs (snd (replay_row envs send (n, c) r))).
Proof.
  intros E. unfold replay_row. destruct (negb _); [by left|]. rewrite E. right.
  destruct (send _ _) as [[]|e]; try apply push_failed_effect.
  destruct (mark_ok env) eqn:Ek; [constructor|].
  apply ef_lost. destruct marks; [|done]. by specialize (Hm eq_refl).
Qed.
End Refine.

Lemma effect_keeps marks r s s' x :
  effect marks r s s' -> x ∈ fst s -> queue_id x <> queue_id r -> x ∈ fst s'.
Proof. intros [] Hx Hne; cbn [fst] in *; try done; by apply update_pending_other. Qed.

(** Handling the rows of a batch one after the other: [f] is the handler. *)
Lemma batch_refines marks (f : Z * ChargingCommandQueueConsumer -> queue_row -> Z * ChargingCommandQueueConsumer)
    rows n c :
  (forall n c r, abs (snd (f (n, c) r)) = abs c \/ effect marks r (abs c) (abs (snd (f (n, c) r)))) ->
  NoDup (map queue_id rows) ->
  (forall r, r ∈ rows -> r ∈ queue c /\ status r = pending) ->
  rtc (astep marks) (abs c) (abs (snd (foldl f (n, c) rows))).
Proof.
  intros Hf. revert n c. induction rows as [|r rows IH]; intros n c Hn Hin; [apply rtc_refl|].
  cbn [foldl]. destruct (f (n, c) r) as [n' c'] eqn:E. pose proof (Hf n c r) as Hr. rewrite E in Hr.
  cbn [snd] in Hr. cbn in Hn. apply NoDup_cons in Hn as [Hnr Hn].
  destruct (Hin r) as [Hq Hp]; [left|].
  assert (forall x, x ∈ rows -> x ∈ queue c' /\ status x = pending) as Hin'.
  { intros x Hx. destruct (Hin x) as [Hxq Hxp]; [by right|]. split; [|done].
    destruct Hr as [Hr|Hr]; [injection Hr as -> _; done|].
    apply (effect_keeps _ _ _ _ x Hr); [done|]. intros Ex. apply Hnr, list_elem_of_fmap. eauto. }
  destruct Hr as [Hr|Hr]; [rewrite <- Hr; by apply IH|].
  eapply rtc_l; [|by apply IH]. by apply (a_handle _ r).
Qed.

Lemma fetch_batch (P : queue_row -> bool) q :
  NoDup (map queue_id q) -> (forall r, P r = true -> status r = pending) ->
  forall n, NoDup (map queue_id (take n (oldest_first (List.filter P q)))) /\
    forall r, r ∈ take n (oldest_first (List.filter P q)) -> r ∈ q /\ P r = true /\ status r = pending.
Proof.
  intros Hn HP n. split.
  - assert (map queue_id (oldest_first (List.filter P q)) ≡ₚ map queue_id (List.filter P q)) as Hperm
      by (apply Permutation_map, sort_by_perm).
    apply (sublist_NoDup _ (map queue_id (oldest_first (List.filter P q)))).
    + rewrite Hperm. clear -Hn. induction q as [|r q IH]; [done|]. cbn in Hn |- *.
      apply NoDup_cons in Hn as [Hr Hn]. destruct (P r); [|auto]. cbn. apply NoDup_cons.
      split; [|auto]. intros (x & E & [Hx _]%list_elem_of_In%filter_In)%list_elem_of_fmap.
      apply Hr, list_elem_of_fmap. exists x. split; [done|]. by apply list_elem_of_In.
    + apply (fmap_sublist queue_id), sublist_take.
  - intros r Hr. apply elem_of_take in Hr as (i & Hr & _). apply list_elem_of_lookup_2 in Hr.
    apply elem_of_sort_by, list_elem_of_In, filter_In in Hr as [Hq HPr].
    split_and!; [by apply list_elem_of_In | done | auto].
Qed.

Lemma deliverable_pending now r : deliverable now r = true -> status r = pending.
Proof. intros [H _]%andb_true_iff. by apply is_pending_spec. Qed.

Lemma drain_refines marks now mono f env c :
  NoDup (map queue_id (queue c)) -> (marks = true -> forall id, mark_ok (env id) = true) ->
  rtc (astep marks) (abs c) (abs (snd (drain_once now mono f env c))).
Proof.
  intros Hn Hm. unfold drain_once. destruct f; [|apply rtc_refl].
  set (c1 := with_offline _ c). change (abs c) with (abs c1).
  unfold drain_rows, fetch_pending_commands_all. change (queue c1) with (queue c).
  destruct (fetch_batch (fun r => deliverable now r
              && negb (bool_decide (charge_point_id r ∈ dkeys (recently_offline mono
                        (_offline_charge_points c))))) (queue c) Hn) with (n := 200%nat) as [H1 H2].
  { intros r [H _]%andb_true_iff. by eapply deliverable_pending. }
  apply batch_refines; [|exact H1|].
  - intros n c0 r. pose proof (handle_effect marks (env (queue_id r)) (fun E => Hm E _) r c0) as H.
    by destruct (_handle_row (env (queue_id r)) r c0).
  - intros r Hr. apply H2 in Hr as (? & _ & ?). done.
Qed.

Lemma turn_refines marks now mono f e i ttl env scan c :
  NoDup (map queue_id (queue c)) -> (marks = true -> forall id, mark_ok (env id) = true) ->
  rtc (astep marks) (abs c) (abs (snd (consume_turn now mono f e i ttl env scan c))).
Proof.
  intros Hn Hm. unfold consume_turn. pose proof (drain_refines marks now mono f env c Hn Hm) as H.
  destruct (_ <=? _); [|exact H]. etrans; [exact H|]. destruct e, i; try apply rtc_refl;
    apply rtc_once; cbn [snd]; apply a_expire.
Qed.

Lemma replay_refines marks now f st env send c :
  NoDup (map queue_id (queue c)) -> (marks = true -> forall id, mark_ok (env id) = true) ->
  rtc (astep marks) (abs c) (abs (snd (replay_queued_commands now f st env send c))).
Proof.
  intros Hn Hm. unfold replay_queued_commands. destruct f; [|apply rtc_refl].
  unfold fetch_pending_commands.
  destruct (fetch_batch (fun r => String.eqb (charge_point_id r) st && deliverable now r) (queue c) Hn)
    with (n := length (oldest_first (List.filter (fun r => String.eqb (charge_point_id r) st
                                       && deliverable now r) (queue c)))) as [H1 H2].
  { intros r [_ H]%andb_true_iff. by eapply deliverable_pending. }
  rewrite take_ge in H1, H2 by done.
  apply batch_refines; [|exact H1|].
  - intros n c0 r. by apply (replay_effect marks (env (queue_id r)) (fun E => Hm E _)).
  - intros r Hr. apply H2 in Hr as (? & _ & ?). done.
Qed.

Lemma notify_abs note c : abs (_on_notify note c) = abs c.
Proof.
  unfold _on_notify. destruct (String.eqb note ""); [done|]. destruct (after_colon note); [|done].
  by destruct (String.eqb _ "").
Qed.

Lemma qstep_refines marks c c' :
  NoDup (map queue_id (queue c)) -> qstep marks c c' -> rtc (astep marks) (abs c) (abs c').
Proof.
  intros Hn H. destruct H.
  - by apply rtc_once, a_enqueue.
  - by apply turn_refines.
  - rewrite notify_abs. apply rtc_refl.
  - by apply replay_refines.
Qed.


Lemma qsteps_ainv marks c c' : rtc (qstep marks) c c' -> ainv marks (abs c) -> ainv marks (abs c').
Proof.
  induction 1 as [|c1 c2 c3 H _ IH]; [done|]. intros Hi. apply IH.
  eapply asteps_ainv; [|exact Hi]. apply qstep_refines; [apply Hi | done].
Qed.

Lemma init_ainv marks i : ainv marks (abs (init_consumer [] i)).
Proof.
  constructor; cbn; [constructor|..]; intros; by match goal with H : _ ∈ [] |- _ => apply not_elem_of_nil in H end.
Qed.

(** C8: From an empty queue, through any sequence of enqueues, consumer turns,
    notifications and boot replays in which the queue's updates succeed, a row is
    accepted by its charger exactly once if its status is 'sent' or 'acked' and never
    otherwise, and a reset, remote start or diagnostics request is pushed at most once,
    whatever the charger answers. *)
Theorem commands_accepted_once i c r :
  rtc (qstep true) (init_consumer [] i) c -> r ∈ queue c ->
  n_accepted r (pushes c) = (if delivered (status r) then 1 else 0) /\
  (one_shot r -> n_pushed r (pushes c) <= attempt_count r <= 1).
Proof.
  intros H Hr. pose proof (qsteps_ainv _ _ _ H (init_ainv _ _)) as [H1 H2 H3 H4 H5].
  split; [by apply H4|]. intros Hs. split; [by apply H5|].
  pose proof (H3 r Hr) as Hl. unfold life_cycle in Hl. destruct (status r); lia.
Qed.

Lemma asteps_final marks s s' r :
  rtc (astep marks) s s' -> r ∈ fst s -> status r <> pending -> r ∈ fst s'.
Proof.
  induction 1 as [|s1 s2 s3 H _ IH]; [done|]. intros Hr Hp. apply IH; [|done].
  destruct (astep_evolves _ _ _ H) as (q1 & q2 & -> & Hf). apply elem_of_app. left.
  apply list_elem_of_lookup in Hr as [k Hk]. destruct (Forall2_lookup_l _ _ _ _ _ Hf Hk) as (r' & Hk' & He).
  rewrite (ev_final _ _ He Hp) in Hk'. by eapply list_elem_of_lookup_2.
Qed.

(** In every reachable queue each row's columns agree with its status (pending and
    expired: no attempt and no error; sent, acked, failed: exactly one attempt, with a
    time or an error), and a row that left 'pending' never changes again. *)
Theorem command_life_cycle marks i c c' r :
  rtc (qstep marks) (init_consumer [] i) c -> rtc (qstep marks) c c' -> r ∈ queue c ->
  life_cycle r /\ (status r <> pending -> r ∈ queue c').
Proof.
  intros H1 H2 Hr. pose proof (qsteps_ainv _ _ _ H1 (init_ainv _ _)) as Hi.
  split; [by apply (ai_life _ _ Hi)|]. intros Hp.
  assert (rtc (astep marks) (abs c) (abs c')) as Hs.
  { clear H1 Hr. induction H2 as [|c1 c2 c3 H _ IH]; [apply rtc_refl|].
    assert (rtc (astep marks) (abs c1) (abs c2)) as Ha by (apply qstep_refines; [apply Hi | done]).
    etrans; [exact Ha|]. apply IH. by eapply asteps_ainv. }
  by apply (asteps_final _ _ _ _ Hs).
Qed.

(** ** What one drain does *)

(** The payload is an object or empty: its keys can be read. *)
Definition readable (p : pyobj) : bool :=
  match p with PDict _ => true | _ => negb (truthy p) end.

Lemma readable_get p k d : readable p = true -> exists v, payload_get p k d = Some v.
Proof.
  destruct p; cbn; eauto; intros H; apply negb_true_iff in H; rewrite ?H; eauto.
Qed.

(** The push of this row raises and the station is gone by then. *)
Definition drops_out (env : row_env) (cp : session) (r : queue_row) : Prop :=
  command_type r = "set_charging_profile"%string /\
  (exists e, send_charging_profile cp (connector_id r) (payload r) = Raised e) /\
  accepts_allow_enqueue cp = true /\ still_connected env = false.

Definition marked (now id : Z) (q q' : list queue_row) : Prop :=
  (exists e, q' = mark_command_failed id e q) \/ q' = mark_command_sent now id q.

Section Settles.
Context (env : row_env) (Hm : mark_ok env = true).

Lemma try_failed_marked id e c :
  marked (env_now env) id (queue c) (queue (try_mark_failed env id e c)).
Proof. unfold try_mark_failed. rewrite Hm. left. by exists e. Qed.

Lemma try_sent_marked id c : marked (env_now env) id (queue c) (queue (try_mark_sent env id c)).
Proof. unfold try_mark_sent. rewrite Hm. by right. Qed.

Lemma settle_marked id rej ans c :
  marked (env_now env) id (queue c) (queue (snd (settle env id rej ans c))).
Proof.
  destruct ans as [[]|e]; cbn [settle snd];
    [apply (try_sent_marked id (record_push id true c))
    |apply (try_failed_marked id _ (record_push id false c))..].
Qed.

Lemma handle_marked cp r c :
  connected env = Some cp -> readable (payload r) = true -> ~ drops_out env cp r ->
  marked (env_now env) (queue_id r) (queue c) (queue (snd (_handle_row env r c))).
Proof.
  intros Hc Hp Hd. unfold _handle_row. rewrite Hc.
  assert (forall p reason c0, queue (snd (then_true c0 (_mark_import_failed env p reason c0))) = queue c0)
    as Hf by (intros p reason c0; apply (f_equal fst (import_failed_abs env p reason c0))).
  assert (forall p n c0, queue (snd (then_true c0 (_mark_import_uploading env p n c0))) = queue c0)
    as Hu by (intros p n c0; apply (f_equal fst (import_uploading_abs env p n c0))).
  destruct (String.eqb (command_type r) "remote_reset").
  { unfold _handle_remote_reset. destruct (send_reset cp) as [send|]; [|apply try_failed_marked].
    destruct (readable_get _ "type" (PStr "Soft") Hp) as [v ->]. apply settle_marked. }
  destruct (String.eqb (command_type r) "remote_start_transaction").
  { unfold _handle_remote_start_transaction.
    destruct (send_remote_start_transaction cp) as [send|]; [|apply try_failed_marked].
    destruct (readable_get _ "id_tag" PNone Hp) as [a ->].
    destruct (readable_get _ "idTag" PNone Hp) as [b ->].
    destruct (truthy _); [apply settle_marked | apply try_failed_marked]. }
  destruct (String.eqb (command_type r) "get_diagnostics").
  { unfold _handle_get_diagnostics.
    destruct (get_diagnostics cp) as [send|]; [|rewrite Hf; apply try_failed_marked].
    destruct (readable_get _ "location" PNone Hp) as [loc ->].
    destruct (truthy loc); cbn [negb]; [|rewrite Hf; apply try_failed_marked].
    destruct (send _) as [[n|]|e]; rewrite ?Hf, ?Hu;
      [apply (try_sent_marked _ (record_push (queue_id r) true c))
      |apply (try_failed_marked _ _ (record_push (queue_id r) false c))..]. }
  destruct (String.eqb_spec (command_type r) "set_charging_profile") as [Ht|_]; cbn [negb];
    [|apply try_failed_marked].
  destruct (send_charging_profile cp _ _) as [ok|e] eqn:Es; [apply settle_marked|].
  destruct (accepts_allow_enqueue cp) eqn:Ea, (still_connected env) eqn:Eb; cbn [andb negb];
    try apply (try_failed_marked _ _ (record_push (queue_id r) false c)).
  exfalso. apply Hd. split_and!; eauto.
Qed.
End Settles.

Lemma batch_keeps env rows n c x :
  x ∈ queue c -> queue_id x ∉ map queue_id rows -> x ∈ queue (snd (drain_rows env rows n c)).
Proof.
  unfold drain_rows. revert n c. induction rows as [|r rows IH]; intros n c Hx Hn; [done|].
  cbn [foldl]. cbn in Hn. apply not_elem_of_cons in Hn as [Hne Hn].
  pose proof (handle_effect false (env (queue_id r)) (fun E => ltac:(discriminate)) r c) as He.
  destruct (_handle_row (env (queue_id r)) r c) as [o c'] eqn:E. cbn [snd] in He. apply IH; [|done].
  destruct He as [He|He]; [by injection He as -> _|].
  by apply (effect_keeps _ _ _ _ x He).
Qed.

Lemma marked_elem now r q q' :
  marked now (queue_id r) q q' -> r ∈ q -> status r = pending ->
  exists r', r' ∈ q' /\ evolves r r' /\ (status r' = sent \/ status r' = failed).
Proof.
  intros Hmk Hr Hp.
  destruct Hmk as [[e ->]| ->]; eexists; (split;
    [apply list_elem_of_fmap; exists r; split; [|done];
     rewrite Z.eqb_refl, (proj2 (is_pending_spec r) Hp); cbn [andb]; reflexivity
    |split; [by apply with_status_evolves | cbn; tauto]]).
Qed.

(** The rows a drain fetches. *)
Definition batch (now mono : Z) (c : ChargingCommandQueueConsumer) : list queue_row :=
  fetch_pending_commands_all now 200 (dkeys (recently_offline mono (_offline_charge_points c)))
    (queue c).

Lemma batch_spec now mono c :
  NoDup (map queue_id (queue c)) ->
  NoDup (map queue_id (batch now mono c)) /\
  forall r, r ∈ batch now mono c -> r ∈ queue c /\ status r = pending.
Proof.
  intros Hn. unfold batch, fetch_pending_commands_all.
  edestruct (fetch_batch (fun r => deliverable now r
              && negb (bool_decide (charge_point_id r ∈ dkeys (recently_offline mono
                        (_offline_charge_points c))))) (queue c) Hn) as [H1 H2].
  { intros r [H _]%andb_true_iff. by eapply deliverable_pending. }
  split; [exact H1|]. intros r Hr. apply H2 in Hr as (? & _ & ?). done.
Qed.

(** After a drain every fetched row is unchanged if its charger is offline or dropped
    out during the push, and otherwise, when the update succeeds and the payload is an
    object, it is 'sent' or 'failed'. *)
Theorem drain_outcome now mono env c r :
  NoDup (map queue_id (queue c)) -> r ∈ batch now mono c ->
  let e := env (queue_id r) in
  let c' := snd (drain_once now mono true env c) in
  match connected e with
  | None => r ∈ queue c'
  | Some cp =>
      (drops_out e cp r -> r ∈ queue c') /\
      (mark_ok e = true -> readable (payload r) = true -> ~ drops_out e cp r ->
       exists r', r' ∈ queue c' /\ evolves r r' /\ (status r' = sent \/ status r' = failed))
  end.
Proof.
  intros Hn Hr e c'. destruct (batch_spec now mono c Hn) as [Hb Hin].
  assert (exists c1, r ∈ queue c1 /\ forall x,
            x ∈ queue (snd (_handle_row e r c1)) -> queue_id x = queue_id r -> x ∈ queue c')
    as (c1 & Hr1 & Hlater).
  { unfold c', drain_once. fold (batch now mono c).
    change (queue (with_offline _ c)) with (queue c). fold (batch now mono c).
    set (c0 := with_offline _ c). destruct (Hin r Hr) as [Hq _].
    apply list_elem_of_split in Hr as (l1 & l2 & El). rewrite El in *.
    rewrite map_app in Hb. cbn in Hb. apply NoDup_app in Hb as (_ & Hd & Hb).
    apply NoDup_cons in Hb as [Hb2 _].
    destruct (drain_rows env l1 0 c0) as [n c1] eqn:E1. exists c1. split.
    - replace c1 with (snd (drain_rows env l1 0 c0)) by (by rewrite E1).
      apply batch_keeps; [done|]. intros Hx. apply (Hd _ Hx). left.
    - intros x Hx Hid. unfold drain_rows in E1 |- *. rewrite foldl_app, E1. cbn [foldl].
      destruct (_handle_row (env (queue_id r)) r c1) as [o c2] eqn:E2. unfold e in Hx.
      rewrite E2 in Hx. apply (batch_keeps env l2 _ c2); [done | by rewrite Hid]. }
  destruct (Hin r Hr) as [Hq Hp].
  destruct (connected e) as [cp|] eqn:Ec.
  - split.
    + intros (Ht & [err Es] & Ea & Eb). apply Hlater; [|done]. unfold _handle_row.
      rewrite Ec, Ht. cbn. by rewrite Es, Ea, Eb.
    + intros Hm Hp' Hd. pose proof (handle_marked e Hm cp r c1 Ec Hp' Hd) as Hmk.
      destruct (marked_elem _ _ _ _ Hmk Hr1 Hp) as (r' & Hr' & He & Hs).
      exists r'. split; [|done]. apply Hlater; [done | apply He].
  - apply Hlater; [|done]. unfold _handle_row. by rewrite Ec.
Qed.

(** A deliverable row is left out of a drain only if its station was seen offline less
    than 30 seconds before or 200 rows at least as old are fetched in its place. *)
Theorem drain_leaves_out now mono c r :
  r ∈ queue c -> deliverable now r = true -> r ∉ batch now mono c ->
  (exists seen, (charge_point_id r, seen) ∈ _offline_charge_points c /\ mono - seen < 30 * usec) \/
  (length (batch now mono c) = 200%nat /\
   forall x, x ∈ batch now mono c -> deliverable now x = true /\ enqueued_at x <= enqueued_at r).
Proof.
  intros Hr Hd Hn. unfold batch, fetch_pending_commands_all in *.
  set (ex := dkeys (recently_offline mono (_offline_charge_points c))) in *.
  destruct (decide (charge_point_id r ∈ ex)) as [He|He].
  - left. unfold ex, dkeys in He. apply list_elem_of_fmap in He as ([cp seen] & E & Hin). cbn in E.
    subst cp. apply list_elem_of_In, filter_In in Hin as [Hin Hlt]. exists seen.
    split; [by apply list_elem_of_In | by apply Z.ltb_lt].
  - right. set (l := List.filter _ _) in *.
    assert (r ∈ oldest_first l) as Hl.
    { apply elem_of_sort_by, list_elem_of_In, filter_In. split; [by apply list_elem_of_In|].
      by rewrite Hd, bool_decide_false. }
    rewrite <- (take_drop 200 (oldest_first l)) in Hl. apply elem_of_app in Hl as [Hl|Hl]; [done|].
    split.
    + rewrite length_take. apply Nat.min_l. apply list_elem_of_lookup in Hl as [k Hk].
      apply lookup_lt_Some in Hk. rewrite length_drop in Hk. lia.
    + intros x Hx. split.
      * assert (x ∈ oldest_first l) as Hx' by (rewrite <- (take_drop 200 (oldest_first l)); set_solver).
        apply elem_of_sort_by, list_elem_of_In, filter_In in Hx' as [_ Hx'].
        by apply andb_true_iff in Hx' as [Hx' _].
      * assert (StronglySorted (fun a b => (enqueued_at a <=? enqueued_at b) = true) (oldest_first l)) as Hs.
        { apply sort_by_sorted; intros; rewrite ?Z.leb_le in *; lia. }
        rewrite <- (take_drop 200 (oldest_first l)) in Hs.
        apply Z.leb_le, (sorted_split _ _ _ x r Hs Hx Hl).
Qed.

(** ** A drain that overlaps a replay

    Both fetch before either settles a row: the consumer handles rows [rows] it
    selected before the replay of the same station ran. *)

Lemma handle_pushes env r c :
  exists ps, pushes (snd (_handle_row env r c)) = pushes c ++ ps.
Proof.
  destruct (handle_effect false env (fun E => ltac:(discriminate)) r c) as [E|E].
  - injection E as _ ->. exists []. by rewrite app_nil_r.
  - inversion E; [..| ]; eauto. exists []. by rewrite app_nil_r.
Qed.

Lemma drain_pushes env rows n c :
  exists ps, pushes (snd (drain_rows env rows n c)) = pushes c ++ ps.
Proof.
  unfold drain_rows. revert n c. induction rows as [|r rows IH]; intros n c.
  { exists []. by rewrite app_nil_r. }
  cbn [foldl]. destruct (handle_pushes (env (queue_id r)) r c) as [ps1 E1].
  destruct (_handle_row (env (queue_id r)) r c) as [o c']. cbn [snd] in E1.
  destruct (IH (match o with Some true => n + 1 | _ => n end) c') as [ps2 E2].
  exists (ps1 ++ ps2). by rewrite E2, E1, app_assoc.
Qed.

Lemma filter_len_app {A} (f : A -> bool) l1 l2 :
  length (List.filter f (l1 ++ l2)) = (length (List.filter f l1) + length (List.filter f l2))%nat.
Proof. by rewrite List.filter_app, length_app. Qed.

Lemma n_accepted_app r l1 l2 : n_accepted r (l1 ++ l2) = n_accepted r l1 + n_accepted r l2.
Proof. unfold n_accepted. rewrite filter_len_app. lia. Qed.

Lemma n_accepted_nonneg r l : 0 <= n_accepted r l.
Proof. unfold n_accepted. lia. Qed.

Lemma replay_pushes env send nc rows r :
  r ∈ rows -> command_type r = "set_charging_profile"%string ->
  send (connector_id r) (payload r) = Returned true ->
  n_accepted r (pushes (snd nc)) + 1 <= n_accepted r (pushes (snd (foldl (replay_row env send) nc rows))).
Proof.
  assert (forall nc x, exists ps, pushes (snd (replay_row env send nc x)) = pushes (snd nc) ++ ps) as Hone.
  { intros [n c] x. unfold replay_row. destruct (negb _); [exists []; by rewrite app_nil_r|].
    unfold try_mark_failed. destruct (send _ _) as [[]|e], (mark_ok _); cbn; eauto. }
  assert (forall rows nc, n_accepted r (pushes (snd nc))
            <= n_accepted r (pushes (snd (foldl (replay_row env send) nc rows)))) as Hmono.
  { intros rows'. induction rows' as [|x l IH]; intros nc'; [done|]. cbn [foldl]. etrans; [|apply IH].
    destruct (Hone nc' x) as [ps ->]. rewrite n_accepted_app. pose proof (n_accepted_nonneg r ps). lia. }
  intros Hr Ht Hs. revert nc. induction rows as [|x rows IH]; intros nc; [by apply not_elem_of_nil in Hr|].
  cbn [foldl]. apply elem_of_cons in Hr as [<-|Hr].
  - etrans; [|apply Hmono]. destruct nc as [n c]. unfold replay_row. rewrite Ht. cbn [negb String.eqb].
    cbn. rewrite Hs. destruct (mark_ok _); cbn; rewrite n_accepted_app, (proj2 (n_one r true)); lia.
  - etrans; [|by apply IH]. destruct (Hone nc x) as [ps ->]. rewrite n_accepted_app.
    pose proof (n_accepted_nonneg r ps). lia.
Qed.

Theorem overlapping_replay_pushes_twice now mono st env send cp c r :
  r ∈ batch now mono c -> r ∈ fetch_pending_commands now st (queue c) ->
  command_type r = "set_charging_profile"%string ->
  connected (env (queue_id r)) = Some cp ->
  send_charging_profile cp (connector_id r) (payload r) = Returned true ->
  send (connector_id r) (payload r) = Returned true ->
  let c1 := snd (replay_queued_commands now true st env send c) in
  let c2 := snd (drain_rows env (batch now mono c) 0 c1) in
  n_accepted r (pushes c) + 2 <= n_accepted r (pushes c2).
Proof.
  intros Hb Hf Ht Hc Hs1 Hs2 c1 c2.
  assert (n_accepted r (pushes c) + 1 <= n_accepted r (pushes c1)) as H1
    by (apply (replay_pushes env send (0, c)); done).
  assert (n_accepted r (pushes c1) + 1 <= n_accepted r (pushes c2)); [|lia].
  unfold c2. clear H1. generalize c1 0. clear c1 c2. induction (batch now mono c) as [|x l IH]; intros c1 n.
  { by apply not_elem_of_nil in Hb. }
  unfold drain_rows. cbn [foldl]. destruct (handle_pushes (env (queue_id x)) x c1) as [ps E1].
  apply elem_of_cons in Hb as [<-|Hb].
  - destruct (_handle_row (env (queue_id r)) r c1) as [o c'] eqn:E.
    destruct (drain_pushes env l (match o with Some true => n + 1 | _ => n end) c') as [ps' E'].
    unfold drain_rows in E'. rewrite E', n_accepted_app. pose proof (n_accepted_nonneg r ps').
    unfold _handle_row in E. rewrite Hc, Ht in E. cbn in E. rewrite Hs1 in E. cbn in E.
    assert (pushes c' = pushes c1 ++ [{| push_id := queue_id r; push_accepted := true |}]) as Hp.
    { injection E as _ <-. unfold try_mark_sent. by destruct (mark_ok _). }
    rewrite Hp, n_accepted_app, (proj2 (n_one r true)). lia.
  - destruct (_handle_row (env (queue_id x)) x c1) as [o c'] eqn:E. cbn [snd] in E1.
    specialize (IH Hb c' (match o with Some true => n + 1 | _ => n end)).
    unfold drain_rows in IH. etrans; [|exact IH]. rewrite E1, n_accepted_app.
    pose proof (n_accepted_nonneg r ps). lia.
Qed.

(** ** Examples *)

Definition ex_session : session :=
  {| accepts_allow_enqueue := true;
     send_charging_profile := fun _ _ => Returned true;
     send_reset := Some (fun _ => Returned false);
     send_remote_start_transaction := None;
     get_diagnostics := None |}.

Definition ex_env (online : bool) : row_env :=
  {| connected := if online then Some ex_session else None; still_connected := true;
     mark_ok := true; import_ok := true; env_now := 5; env_mono := 5 |}.

(** Row 1 goes to a connected charger, row 2 to one that is offline, row 3 is a
    reset the charger rejects. *)
Definition ex_envs (id : Z) : row_env := ex_env (negb (id =? 2)).

Definition ex_queue : ChargingCommandQueueConsumer :=
  with_queue (enqueue_charging_command 3 3 "CP1" 0 (PDict []) 60 "remote_reset")
    (with_queue (enqueue_charging_command 2 2 "CP2" 1 (PDict []) 60 "set_charging_profile")
       (with_queue (enqueue_charging_command 1 1 "CP1" 1 (PDict []) 60 "set_charging_profile")
          (init_consumer [] []))).

Definition ex_drained : ChargingCommandQueueConsumer :=
  snd (consume_turn 10 5 true true true 3600 ex_envs 0 ex_queue).

Lemma ex_queue_nodup : NoDup (map queue_id (queue ex_queue)).
Proof. vm_compute. apply (bool_decide_unpack _). vm_compute. exact I. Qed.

Lemma ex_queue_reach marks : rtc (qstep marks) (init_consumer [] []) ex_queue.
Proof.
  eapply rtc_l; [apply (q_enqueue _ 1 1 "CP1" 1 (PDict []) 60 "set_charging_profile"); set_solver|].
  eapply rtc_l; [apply (q_enqueue _ 2 2 "CP2" 1 (PDict []) 60 "set_charging_profile")|].
  { vm_compute. set_solver. }
  apply rtc_once. apply (q_enqueue _ 3 3 "CP1" 0 (PDict []) 60 "remote_reset"). vm_compute. set_solver.
Qed.

Lemma ex_drained_reach marks : rtc (qstep marks) (init_consumer [] []) ex_drained.
Proof.
  etrans; [apply ex_queue_reach|]. apply rtc_once, q_turn.
  intros _ id. unfold ex_envs, ex_env. reflexivity.
Qed.

(** Row 1, before it is sent. *)
Definition ex_row : queue_row :=
  {| queue_id := 1; charge_point_id := "CP1"; connector_id := 1;
     command_type := "set_charging_profile"; payload := PDict []; status := pending;
     enqueued_at := 1; sent_at := None; acked_at := None; expires_at := 1 + 60 * minute_us;
     last_error := None; attempt_count := 0 |}.


Lemma commands_accepted_once_witness :
  exists r, queue ex_drained !! 2%nat = Some r /\ one_shot r /\
    n_accepted r (pushes ex_drained) = 0 /\ n_pushed r (pushes ex_drained) <= attempt_count r <= 1.
Proof.
  eexists. split; [vm_compute; reflexivity|].
  match goal with |- one_shot ?r /\ _ => set (x := r) end.
  assert (x ∈ queue ex_drained) as Hx by (apply (list_elem_of_lookup_2 _ 2%nat); vm_compute; reflexivity).
  destruct (commands_accepted_once [] ex_drained x (ex_drained_reach true) Hx) as [H1 H2].
  assert (one_shot x) as Ho by (unfold one_shot; vm_compute; discriminate).
  split_and!; [exact Ho | exact H1 | apply H2; exact Ho | apply H2; exact Ho].
Defined.

Lemma command_life_cycle_witness :
  exists r, queue ex_drained !! 0%nat = Some r /\ status r = sent /\ life_cycle r /\
    r ∈ queue (snd (consume_turn 20 70000000 true true true 3600 ex_envs 5 ex_drained)).
Proof.
  eexists. split; [vm_compute; reflexivity|]. split; [vm_compute; reflexivity|].
  match goal with |- life_cycle ?r /\ _ => set (x := r) end.
  assert (x ∈ queue ex_drained) as Hx by (apply (list_elem_of_lookup_2 _ 0%nat); vm_compute; reflexivity).
  destruct (command_life_cycle true [] ex_drained
              (snd (consume_turn 20 70000000 true true true 3600 ex_envs 5 ex_drained)) x
              (ex_drained_reach true)) as [H1 H2]; [|exact Hx|].
  - apply rtc_once, q_turn. intros _ id. unfold ex_envs, ex_env. reflexivity.
  - split; [exact H1 | apply H2; vm_compute; discriminate].
Defined.

Lemma ex_row_batch : ex_row ∈ batch 10 5 ex_queue.
Proof. apply (list_elem_of_lookup_2 _ 0%nat). vm_compute. reflexivity. Qed.

Lemma drain_outcome_witness :
  exists r', r' ∈ queue (snd (drain_once 10 5 true ex_envs ex_queue)) /\ evolves ex_row r' /\
    (status r' = sent \/ status r' = failed).
Proof.
  destruct (drain_outcome 10 5 ex_envs ex_queue ex_row ex_queue_nodup ex_row_batch) as [_ H].
  apply H; [reflexivity | reflexivity |]. intros (_ & [e E] & _). discriminate E.
Defined.

(** The offline station's row is left out of the next drain. *)
Lemma drain_leaves_out_witness :
  exists r, queue ex_drained !! 1%nat = Some r /\ deliverable 10 r = true /\
    ((exists seen, (charge_point_id r, seen) ∈ _offline_charge_points ex_drained /\ 6 - seen < 30 * usec) \/
     (length (batch 10 6 ex_drained) = 200%nat /\
      forall x, x ∈ batch 10 6 ex_drained -> deliverable 10 x = true /\ enqueued_at x <= enqueued_at r)).
Proof.
  eexists. split; [vm_compute; reflexivity|]. split; [vm_compute; reflexivity|].
  apply (drain_leaves_out 10 6 ex_drained).
  - apply (list_elem_of_lookup_2 _ 1%nat). vm_compute. reflexivity.
  - vm_compute. reflexivity.
  - assert (batch 10 6 ex_drained = []) as -> by (vm_compute; reflexivity). apply not_elem_of_nil.
Defined.

Lemma overlapping_replay_pushes_twice_witness :
  let c1 := snd (replay_queued_commands 10 true "CP1" ex_envs (fun _ _ => Returned true) ex_queue) in
  let c2 := snd (drain_rows ex_envs (batch 10 5 ex_queue) 0 c1) in
  n_accepted ex_row (pushes ex_queue) + 2 <= n_accepted ex_row (pushes c2).
Proof.
  apply (overlapping_replay_pushes_twice 10 5 "CP1" ex_envs (fun _ _ => Returned true) ex_session
           ex_queue ex_row); try reflexivity.
  - exact ex_row_batch.
  - apply (list_elem_of_lookup_2 _ 0%nat). vm_compute. reflexivity.
Defined.
