(* ===== verification/Dispatch.v ===== *)
(** * From plans to chargers

    [src/adapters/ocpp/dispatch.py] turns an optimisation result into rows of the
    command queue, with the conversion of [src/adapters/ocpp/charge_point.py] and
    the vehicle map of [src/adapters/ocpp/mapping.py]; the OCPP 1.6 session of
    [src/websocket_handler/ocpp16_adapter.py] sends them. Diagnostics requests
    carry a signed upload address ([src/adapters/chargers/upload_token.py]). *)

From S2P Require Import Prelude Models PyText CommandQueue.
From Stdlib Require Import ZArith QArith Lia Ascii.
From stdpp Require Import base list strings gmap.

#[local] Open Scope Z_scope.

(** ** Conversion of a schedule *)

Definition convert_schedule_to_ocpp_profile (schedule : list (Z * Q)) (delta_t : Q)
    (number_phases : Z) (charging_rate_unit : string) : list pyobj :=
  map (fun '(timestep, power_kw) =>
    let start_period := Qtrunc (inject_Z timestep * delta_t * 3600) in
    let limit := if String.eqb charging_rate_unit "A"
                 then PFloat ((power_kw * 1000) / (inject_Z number_phases * 230))
                 else PInt (Qtrunc (power_kw * 1000)) in
    PDict [("startPeriod", PInt start_period); ("limit", limit);
           ("numberPhases", PInt number_phases)]%string) schedule.

(** The steps with positive power, [enumerate(charging_power)] filtered. *)
Definition positive_steps (charging_power : list Q) : list (Z * Q) :=
  List.filter (fun '(_, p) => (0 <?q p)%Q)
    (zip (map Z.of_nat (seq 0 (length charging_power))) charging_power).

Definition profile_payload (periods : list pyobj) : pyobj :=
  PDict [("chargingProfilePurpose", PStr "TxDefaultProfile");
         ("chargingProfileKind", PStr "Absolute"); ("stackLevel", PInt 0);
         ("chargingSchedule",
          PDict [("chargingRateUnit", PStr "A"); ("chargingSchedulePeriod", PList periods)])]%string.

(** ** The vehicle map *)

Definition vehicle_map : Type := dict string (string * Z).

(** The module's cache of maps and the result; [rows] is the query's answer
    (vehicle, charge point, connector), [None] a database error. *)
Definition get_vehicle_to_charger_map (cache : dict string vehicle_map)
    (rows : option (list (string * string * Z))) (depot : string) (use_cache : bool)
  : option vehicle_map * dict string vehicle_map :=
  match (if use_cache then cache @? depot else None) with
  | Some m => (Some m, cache)
  | None =>
      match rows with
      | None => (None, cache)
      | Some rows =>
          let m := foldl (fun m '(v, cp, conn) => m +{ v := (cp, conn) }) [] rows in
          (Some m, if use_cache then cache +{ depot := m } else cache)
      end
  end.

Definition clear_mapping_cache (depot : option string) (cache : dict string vehicle_map)
  : dict string vehicle_map :=
  match depot with
  | None => []
  | Some d => dpop d cache
  end.

(** ** Enqueueing a result *)

(** What the database does with the insert for one vehicle: the time and the
    row's new identifier, or an error. *)
Definition insert_answer : Type := option (Z * Z).

Definition dispatch_vehicle (vmap : vehicle_map) (dt : Q) (expires_in_min : Z)
    (insert : string -> insert_answer) (st : dict string bool * list queue_row)
    (entry : string * list Q) : dict string bool * list queue_row :=
  let '(results, q) := st in
  let '(vehicle_id, charging_power) := entry in
  match vmap @? vehicle_id with
  | None => (results +{ vehicle_id := false }, q)
  | Some (cp, conn) =>
      match positive_steps charging_power with
      | [] => (results +{ vehicle_id := false }, q)
      | schedule =>
          let profile := profile_payload (convert_schedule_to_ocpp_profile schedule dt 3 "A") in
          match insert vehicle_id with
          | None => (results +{ vehicle_id := false }, q)
          | Some (now, id) =>
              (results +{ vehicle_id := true },
               enqueue_charging_command now id cp conn profile expires_in_min
                 "set_charging_profile" q)
          end
      end
  end.

(** [plan] is [OptimizationResult.schedule] with its ["charging_power"] lists. *)
Definition dispatch_charging_profiles (vmap : vehicle_map) (dt : Q) (expires_in_min : Z)
    (insert : string -> insert_answer) (plan : dict string (list Q)) (q : list queue_row)
  : dict string bool * list queue_row :=
  foldl (dispatch_vehicle vmap dt expires_in_min insert) ([], q) plan.

(** ** The OCPP 1.6 session *)

Record profile_request := {
  rq_connector : Z;
  rq_periods : pyobj;
  rq_purpose : pyobj;
  rq_kind : pyobj;
  rq_unit : pyobj;
  rq_stack : pyobj;
  rq_profile_id : pyobj
}.

(** The request [OCPP16Session.send_charging_profile] builds; [next_id] is the
    identifier drawn when the payload has none. [None]: a part of the payload
    that should be an object is not. *)
Definition profile_request_of (conn : Z) (p : pyobj) (next_id : Z) : option profile_request :=
  match p with
  | PDict d =>
      let cp_schedule := dget_or d "chargingSchedule" (PDict []) in
      match cp_schedule, truthy cp_schedule with
      | PDict s, true =>
          Some {| rq_connector := conn;
                  rq_periods := dget_or s "chargingSchedulePeriod" (PList []);
                  rq_purpose := dget_or d "chargingProfilePurpose" (PStr "TxDefaultProfile");
                  rq_kind := dget_or d "chargingProfileKind" (PStr "Absolute");
                  rq_unit := dget_or s "chargingRateUnit" (dget_or d "chargingRateUnit" (PStr "A"));
                  rq_stack := dget_or d "stackLevel" (PInt 0);
                  rq_profile_id := match dget_or d "chargingProfileId" PNone with
                                   | PNone => PInt next_id
                                   | v => v
                                   end |}
      | _, true => None
      | _, false =>
          Some {| rq_connector := conn;
                  rq_periods := dget_or d "chargingSchedulePeriod" (PList []);
                  rq_purpose := dget_or d "chargingProfilePurpose" (PStr "TxDefaultProfile");
                  rq_kind := dget_or d "chargingProfileKind" (PStr "Absolute");
                  rq_unit := dget_or d "chargingRateUnit" (PStr "A");
                  rq_stack := dget_or d "stackLevel" (PInt 0);
                  rq_profile_id := match dget_or d "chargingProfileId" PNone with
                                   | PNone => PInt next_id
                                   | v => v
                                   end |}
      end%string
  | _ => None
  end.

Definition is_str (o : pyobj) (s : string) : bool :=
  match o with PStr x => String.eqb x s | _ => false end.

(** [FleetChargePoint.set_charging_profile]: up to three attempts; [answers] is
    what each call to the charger comes back with, its status or an exception. *)
Fixpoint attempts (n : nat) (answers : list (call string)) : bool :=
  match n, answers with
  | S n, Returned st :: rest => if String.eqb st "Accepted" then true else attempts n rest
  | S n, Raised _ :: rest => attempts n rest
  | _, _ => false
  end.

Definition fcp_set_charging_profile (answers : list (call string)) (rq : profile_request) : call bool :=
  if is_str (rq_purpose rq) "ChargePointMaxProfile" && is_str (rq_kind rq) "Relative"
  then Raised "ChargePointMaxProfile with chargingProfileKind=Relative is forbidden in OCPP 1.6"
  else Returned (attempts 3 answers).

(** [OCPP16Session.send_charging_profile]; the queue changes only when the
    profile is put back, with the time and identifier of [insert]. *)
Definition ocpp16_send_charging_profile (station : string) (next_id : Z)
    (answers : list (call string)) (connection_open : bool) (insert : insert_answer)
    (allow_enqueue : bool) (conn : Z) (p : pyobj) (q : list queue_row)
  : call bool * list queue_row :=
  match profile_request_of conn p next_id with
  | None => (Raised "AttributeError", q)
  | Some rq =>
      let put_back := (Returned false,
        match insert with
        | Some (now, id) =>
            enqueue_charging_command now id station conn p 60 "set_charging_profile" q
        | None => q
        end) in
      match fcp_set_charging_profile answers rq with
      | Raised e =>
          if negb allow_enqueue then (Raised e, q)
          else if connection_open then (Returned false, q) else put_back
      | Returned true => (Returned true, q)
      | Returned false =>
          if negb allow_enqueue then (Returned false, q)
          else if connection_open then (Returned false, q) else put_back
      end
  end.

(** [OCPP16Session.send_reset]: [reset] is the charge point's answer. *)
Definition ocpp16_send_reset (reset : pyobj -> call string) (reset_type : pyobj) : call bool :=
  match reset reset_type with
  | Raised _ => Returned false
  | Returned st => Returned (String.eqb st "Accepted")
  end.

Definition ocpp16_send_remote_start (start : Z -> pyobj -> call bool) (conn : Z) (tag : pyobj)
  : call bool :=
  match start conn tag with
  | Raised _ => Returned false
  | Returned ok => Returned ok
  end.

(** The session the consumer sees: pushes are made with [allow_enqueue=False]. *)
Definition ocpp16_session (station : string) (next_id : Z) (answers : list (call string))
    (reset : pyobj -> call string) (start : Z -> pyobj -> call bool)
    (diagnostics : dict string pyobj -> option string) (connection_open : bool) : session :=
  {| accepts_allow_enqueue := true;
     send_charging_profile := fun conn p =>
       fst (ocpp16_send_charging_profile station next_id answers connection_open None false conn p []);
     send_reset := Some (ocpp16_send_reset reset);
     send_remote_start_transaction := Some (ocpp16_send_remote_start start);
     get_diagnostics := Some (fun kw =>
       Returned (if connection_open then diagnostics kw else None)) |}.

(** ** Upload tokens *)

(** [CHARGER_LOG_UPLOAD_TOKEN_TTL_S]: unset or empty, unreadable, or a number of
    seconds. *)
Definition get_token_ttl_seconds (raw : option string) : Z :=
  match raw with
  | None | Some EmptyString => 3600
  | Some s => match py_int s with None => 3600 | Some ttl => Z.max 60 ttl end
  end.

Inductive UploadTokenError := missing_token | malformed_token | bad_signature | expired_token.

Record UploadToken := { tok_import_id : string; tok_expiry : Z; tok_raw : string }.

Section Token.
(** [hmac.new(key, body, sha256).hexdigest()] under the configured key. *)
Context (hmac_hex : string -> string).

(** [now] is [int(time.time())]. *)
Definition mint_token (import_id : string) (now ttl : Z) : string :=
  let body := uuid_str import_id +:+ "." +:+ py_str_int (now + ttl) in
  body +:+ "." +:+ hmac_hex body.

Definition verify_token (token : string) (now : Z) : result UploadTokenError UploadToken :=
  if String.eqb token "" then Err missing_token
  else match split_on "."%char token with
  | [raw_id; raw_exp; raw_sig] =>
      match uuid_of_string raw_id, py_int raw_exp with
      | Some id, Some expiry =>
          if negb (String.eqb (hmac_hex (raw_id +:+ "." +:+ raw_exp)) raw_sig)
          then Err bad_signature
          else if expiry <=? now then Err expired_token
          else Ok {| tok_import_id := id; tok_expiry := expiry; tok_raw := token |}
      | _, _ => Err malformed_token
      end
  | _ => Err malformed_token
  end.

(** [base.rstrip("/")]. *)
Fixpoint drop_slashes (s : list ascii) : list ascii :=
  match s with c :: s' => if Ascii.eqb c "/"%char then drop_slashes s' else s | [] => [] end.
Definition rstrip_slash (s : string) : string :=
  String.string_of_list_ascii (reverse (drop_slashes (reverse (String.list_ascii_of_string s)))).

(** [urlencode] leaves the characters of a token and of a UUID as they are. *)
Definition build_upload_url (import_id base token : string) : option string :=
  if String.eqb base "" then None
  else Some (rstrip_slash base +:+ "?token=" +:+ token +:+ "&import_id=" +:+ uuid_str import_id).

(** ** Diagnostics requests *)

(** The queue row's lifetime in minutes. *)
Definition queue_expires_in_min (expires_in_min : option Z) (token_ttl_s : Z) : Z :=
  let cap := Z.max 1 ((token_ttl_s + 59) / 60) in
  match expires_in_min with
  | None => cap
  | Some m => Z.min m cap
  end.

(** [dispatch_get_diagnostics]: [base_url] is the configured or derived address,
    [now] the clock when the token is minted and [db_now] the transaction's time.
    The result is [None] when there is no address to build on. *)
Definition dispatch_get_diagnostics (base_url : option string) (import_id : string)
    (id now db_now ttl : Z) (station : string) (conn : option Z)
    (expires_in_min : option Z) (retries retry_interval start_time stop_time : pyobj)
    (s : list queue_row * list import_row) : option (list queue_row * list import_row) :=
  match base_url with
  | None => None
  | Some base =>
      let token := mint_token import_id (now / usec) ttl in
      match build_upload_url import_id base token with
      | None => None
      | Some location =>
      let given (k : string) (v : pyobj) := match v with PNone => [] | _ => [(k, v)] end in
      let p := PDict ([("location"%string, PStr location);
                       ("import_id"%string, PStr (uuid_str import_id))]
                      ++ given "retries" retries ++ given "retry_interval" retry_interval
                      ++ given "start_time" start_time ++ given "stop_time" stop_time) in
      Some (enqueue_charging_command db_now id station (default 0 conn) p
              (queue_expires_in_min expires_in_min ttl) "get_diagnostics" (fst s),
            snd s ++ [{| CommandQueue.import_id := import_id; im_status := requested;
                         file_name := None; error_message := None; requested_at := db_now |}])
      end
  end.
End Token.
