(* ===== verification/DispatchFacts.v ===== *)
(** * Properties of the dispatch path

    What the queue gets from a result, which power the profile a charger receives
    means at each timestep, what becomes of a push when the connection is lost,
    and the life of upload tokens. *)

From S2P Require Import Prelude Models PyText CommandQueue CommandQueueFacts Dispatch.
From Stdlib Require Import ZArith QArith Qround Lia Lqa Ascii.
From stdpp Require Import base list strings gmap.

#[local] Open Scope Z_scope.

(** ** What is enqueued *)

(** The row of a vehicle of the plan, if it gets one. *)
Definition row_for (vmap : vehicle_map) (dt : Q) (mins : Z) (insert : string -> insert_answer)
    (entry : string * list Q) : option queue_row :=
  match vmap @? fst entry, positive_steps (snd entry), insert (fst entry) with
  | Some (cp, conn), (_ :: _) as steps, Some (now, id) =>
      head (enqueue_charging_command now id cp conn
              (profile_payload (convert_schedule_to_ocpp_profile steps dt 3 "A")) mins
              "set_charging_profile" [])
  | _, _, _ => None
  end.

Lemma dispatch_vehicle_spec vmap dt mins insert results q entry :
  dispatch_vehicle vmap dt mins insert (results, q) entry
  = (results +{ fst entry := match row_for vmap dt mins insert entry with
                             | Some _ => true | None => false end },
     q ++ option_list (row_for vmap dt mins insert entry)).
Proof.
  destruct entry as [v pw]. unfold dispatch_vehicle, row_for. cbn [fst snd].
  destruct (vmap @? v) as [[cp conn]|]; cbn [option_list]; [|by rewrite app_nil_r].
  destruct (positive_steps pw); [cbn [option_list]; by rewrite app_nil_r|].
  destruct (insert v) as [[now id]|]; [done|]. cbn [option_list]. by rewrite app_nil_r.
Qed.

(** Dispatching a plan reports for each vehicle whether it got a row and appends exactly
    one pending row, in plan order, for every vehicle that is mapped to a charger, has a
    positive step and whose insert succeeds; nothing else of the queue changes. *)
Theorem dispatch_exact vmap dt mins insert plan q :
  dict_wf plan ->
  dispatch_charging_profiles vmap dt mins insert plan q
  = (map (fun entry => (fst entry, bool_decide (is_Some (row_for vmap dt mins insert entry)))) plan,
     q ++ omap (row_for vmap dt mins insert) plan).
Proof.
  unfold dispatch_charging_profiles.
  assert (forall results q, dict_wf (results ++ map (fun e => (fst e, false)) plan) ->
    foldl (dispatch_vehicle vmap dt mins insert) (results, q) plan
    = (results ++ map (fun e => (fst e, bool_decide (is_Some (row_for vmap dt mins insert e)))) plan,
       q ++ omap (row_for vmap dt mins insert) plan)) as H.
  { induction plan as [|e plan IH]; intros results q0 Hw; [by rewrite !app_nil_r|].
    cbn [foldl map]. rewrite dispatch_vehicle_spec.
    assert (results @? fst e = None) as Hf.
    { apply dget_None_keys. intros Hin. unfold dict_wf, dkeys in Hw. rewrite map_app in Hw.
      apply NoDup_app in Hw as (_ & Hd & _). apply (Hd _ Hin). left. }
    rewrite dset_fresh by done. rewrite IH.
    - rewrite <- !app_assoc. cbn [app].
      assert ((match row_for vmap dt mins insert e with Some _ => true | None => false end)
              = bool_decide (is_Some (row_for vmap dt mins insert e))) as ->
        by (destruct (row_for vmap dt mins insert e); symmetry;
            [by apply bool_decide_true | by apply bool_decide_false; intros [? ?]]).
      f_equal. f_equal. cbn [omap list_omap]. by destruct (row_for vmap dt mins insert e).
    - unfold dict_wf, dkeys in *. cbn [map] in Hw. rewrite !map_app in *. cbn [map fst] in *.
      by rewrite <- app_assoc. }
  intros Hw. apply (H [] q). unfold dict_wf, dkeys in *. cbn [app]. by rewrite map_map.
Qed.

(** ** Which power a dispatched profile means

    In OCPP a schedule period lasts until the next one starts, so the limit in
    force is that of the last period that has started. *)

Definition period_fields (o : pyobj) : option (Z * Q) :=
  match o with
  | PDict d => match d @? "startPeriod"%string, d @? "limit"%string with
               | Some (PInt s), Some (PFloat l) => Some (s, l)
               | _, _ => None
               end
  | _ => None
  end.

Definition limit_at (periods : list pyobj) (sec : Z) : option Q :=
  last (omap (fun o => match period_fields o with
                       | Some (s, l) => if s <=? sec then Some l else None
                       | None => None
                       end) periods).

(** Three phases at 230 V, in kW. *)
Definition kw_of_amps (a : Q) : Q := a * (3 * 230) / 1000.

Definition step_start (dt : Q) (k : Z) : Z := Qtrunc (inject_Z k * dt * 3600).

Lemma Qtrunc_floor q : (0 <= q)%Q -> Qtrunc q = Qfloor q.
Proof.
  destruct q as [n d]. unfold Qle, Qtrunc, Qfloor. cbn. intros H. apply Z.quot_div_nonneg; lia.
Qed.

Lemma step_start_lt dt j k :
  (1 <= dt * 3600)%Q -> 0 <= j < k -> step_start dt j < step_start dt k.
Proof.
  intros Hd Hjk. unfold step_start.
  assert (0 <= inject_Z j)%Q as Hj by (rewrite <- (Zle_Qle 0); lia).
  assert (inject_Z j + 1 <= inject_Z k)%Q as Hk 
    by (change 1%Q with (inject_Z 1); rewrite <- inject_Z_plus, <- Zle_Qle; lia).
  assert (inject_Z j * dt * 3600 + 1 <= inject_Z k * dt * 3600)%Q as Hlt.
  { assert ((inject_Z j + 1) * (dt * 3600) <= inject_Z k * (dt * 3600))%Q; [|lra].
    apply Qmult_le_compat_r; lra. }
  assert (0 <= inject_Z j * (dt * 3600))%Q by (apply Qmult_le_0_compat; lra).
  rewrite !Qtrunc_floor by lra.
  enough (Qfloor (inject_Z j * dt * 3600) + 1 <= Qfloor (inject_Z k * dt * 3600)) by lia.
  rewrite <- (Qfloor_Z (Qfloor (inject_Z j * dt * 3600) + 1)). apply Qfloor_resp_le.
  rewrite inject_Z_plus. pose proof (Qfloor_le (inject_Z j * dt * 3600)). change (inject_Z 1) with 1%Q. lra.
Qed.

Lemma step_start_le dt j k :
  (1 <= dt * 3600)%Q -> 0 <= j -> 0 <= k -> (step_start dt j <=? step_start dt k) = (j <=? k).
Proof.
  intros Hd Hj Hk. apply eq_true_iff_eq. rewrite !Z.leb_le. split; intros H.
  - apply Z.nlt_ge. intros Hlt. pose proof (step_start_lt dt k j Hd). lia.
  - destruct (Z.eq_dec j k) as [->|]; [lia|]. pose proof (step_start_lt dt j k Hd). lia.
Qed.

Lemma limit_at_convert steps dt sec :
  limit_at (convert_schedule_to_ocpp_profile steps dt 3 "A") sec
  = last (map (fun '(_, p) => (p * 1000) / (inject_Z 3 * 230))%Q
            (List.filter (fun '(k, _) => step_start dt k <=? sec) steps)).
Proof.
  unfold limit_at. f_equal. induction steps as [|[k p] steps IH]; [done|].
  set (f := fun o => _) in *.
  assert (f (PDict [("startPeriod", PInt (step_start dt k));
                    ("limit", PFloat ((p * 1000) / (inject_Z 3 * 230)));
                    ("numberPhases", PInt 3)]%string)
          = if step_start dt k <=? sec then Some ((p * 1000) / (inject_Z 3 * 230))%Q else None) as Hf
    by reflexivity.
  unfold convert_schedule_to_ocpp_profile in *. cbn [map List.filter String.eqb Ascii.eqb Bool.eqb].
  change (Qtrunc (inject_Z k * dt * 3600)) with (step_start dt k).
  cbn [omap list_omap]. rewrite Hf.
  destruct (step_start dt k <=? sec); cbn [map]; [f_equal|]; exact IH.
Qed.

(** The positive entries of a list, whatever they are numbered from. *)
Lemma positive_upto dt powers n t :
  (1 <= dt * 3600)%Q ->
  map snd (List.filter (fun '(k, _) => step_start dt k <=? step_start dt (Z.of_nat t))
    (List.filter (fun '(_, p) => (0 <?q p)%Q) (zip (map Z.of_nat (seq n (length powers))) powers)))
  = List.filter (fun p => (0 <?q p)%Q) (take (S t - n) powers).
Proof.
  intros Hd. revert n. induction powers as [|p powers IH]; intros n; [by rewrite take_nil|].
  cbn [length seq map zip zip_with].
  destruct (S t - n)%nat as [|m] eqn:E.
  - cbn [take List.filter].
    specialize (IH (S n)). replace (S t - S n)%nat with 0%nat in IH by lia. cbn [take List.filter] in IH.
    destruct (0 <?q p)%Q; cbn [List.filter]; [|exact IH].
    rewrite step_start_le by (done || lia). rewrite (proj2 (Z.leb_gt _ _)) by lia. exact IH.
  - specialize (IH (S n)). replace (S t - S n)%nat with m in IH by lia. cbn [take List.filter].
    destruct (0 <?q p)%Q; cbn [List.filter]; [|exact IH].
    rewrite step_start_le by (done || lia). rewrite (proj2 (Z.leb_le _ _)) by lia.
    cbn [map snd]. f_equal. exact IH.
Qed.

(** C7: The charging profile dispatched for a vehicle allows, at every timestep, the
    power of the last step at or before it that the plan charges with (converted to amps
    and back), and nothing before the first such step: dispatch leaves the steps planned
    at 0 kW out, so a pause after charging and the time after the last charging step run
    at the last positive power. *)
Theorem dispatched_power_in_force powers dt t :
  (1 <= dt * 3600)%Q ->
  let periods := convert_schedule_to_ocpp_profile (positive_steps powers) dt 3 "A" in
  match last (List.filter (fun p => (0 <?q p)%Q) (take (S t) powers)) with
  | Some p => exists a, limit_at periods (step_start dt (Z.of_nat t)) = Some a /\ (kw_of_amps a == p)%Q
  | None => limit_at periods (step_start dt (Z.of_nat t)) = None
  end.
Proof.
  intros Hd. cbn zeta. rewrite limit_at_convert.
  pose proof (positive_upto dt powers 0 t Hd) as H. rewrite Nat.sub_0_r in H. rewrite <- H.
  unfold positive_steps. set (l := List.filter _ (List.filter _ _)).
  change (map ?f l) with (f <$> l). change (map snd l) with (snd <$> l).
  rewrite !fmap_last. destruct (last l) as [[k p]|]; cbn; [|done].
  eexists. split; [done|]. unfold kw_of_amps. change (inject_Z 3) with 3%Q. field.
Qed.

(** ** Losing the connection during a push *)

Definition is_raised {A} (c : call A) : Prop := match c with Raised _ => True | Returned _ => False end.

Lemma attempts_raised n answers : Forall is_raised answers -> attempts n answers = false.
Proof.
  intros H. revert n. induction H as [|[st|e] answers Ha _ IH]; intros [|n]; try done. apply IH.
Qed.

(** A request that is neither ill-formed nor the one forbidden combination is
    answered with a boolean, whatever happens to the connection. *)
Lemma ocpp16_send_returns st next answers conn_open conn p q :
  (exists rq, profile_request_of conn p next = Some rq /\
     is_str (rq_purpose rq) "ChargePointMaxProfile" && is_str (rq_kind rq) "Relative" = false) ->
  ocpp16_send_charging_profile st next answers conn_open None false conn p q
  = (Returned (attempts 3 answers), q).
Proof.
  intros (rq & E & Hf). unfold ocpp16_send_charging_profile, fcp_set_charging_profile.
  rewrite E, Hf. by destruct (attempts 3 answers).
Qed.

(** When an OCPP 1.6 charger's connection is lost during the push of a dispatched
    profile, the consumer marks the row 'failed' as rejected by the charger: the charge
    point swallows the exception that the consumer waits for to keep the row pending for
    the boot replay. *)
Theorem lost_connection_fails_command st next answers reset start diag conn_open env r periods c :
  connected env = Some (ocpp16_session st next answers reset start diag conn_open) ->
  command_type r = "set_charging_profile"%string -> payload r = profile_payload periods ->
  Forall is_raised answers -> mark_ok env = true ->
  queue (snd (_handle_row env r c))
  = mark_command_failed (queue_id r) "charger Rejected SetChargingProfile" (queue c).
Proof.
  intros Hc Ht Hp Ha Hm. unfold _handle_row. rewrite Hc, Ht, Hp. cbn [String.eqb Ascii.eqb Bool.eqb negb].
  cbn [send_charging_profile ocpp16_session].
  rewrite ocpp16_send_returns by (eexists; split; reflexivity).
  rewrite attempts_raised by done. cbn [fst settle snd]. unfold try_mark_failed. by rewrite Hm.
Qed.

(** ** Upload tokens *)

(** A minted upload token verifies to the import it was minted for until its expiry and
    is refused as expired from then on, provided signatures contain no dot. *)
Theorem token_roundtrip (hmac_hex : string -> string) import_id now ttl later :
  uuid_digits import_id ->
  (forall body, "."%char ∉ String.list_ascii_of_string (hmac_hex body)) ->
  verify_token hmac_hex (mint_token hmac_hex import_id now ttl) later
  = if now + ttl <=? later then Err expired_token
    else Ok {| tok_import_id := import_id; tok_expiry := now + ttl;
               tok_raw := mint_token hmac_hex import_id now ttl |}.
Proof.
  intros Hu Hsig. unfold verify_token. set (tok := mint_token hmac_hex import_id now ttl).
  set (body := uuid_str import_id +:+ "." +:+ py_str_int (now + ttl)).
  assert (split_on "."%char tok = [uuid_str import_id; py_str_int (now + ttl); hmac_hex body]) as Hs.
  { unfold tok, mint_token. fold body. unfold body at 1. rewrite !append_assoc.
    assert (forall x, "." +:+ x = String "."%char x) as Hdot by done. rewrite !Hdot.
    rewrite split_on_app, split_on_app, split_on_none; [done | apply Hsig | |].
    - intros Hin%int_chars. by destruct (int_char_facts _ Hin) as (_ & Hd & _).
    - intros Hin. apply (uuid_str_chars _ _ Hu) in Hin. by destruct (uuid_char_facts _ Hin) as (_ & Hd & _). }
  rewrite Hs, uuid_roundtrip, int_roundtrip by done. fold body. rewrite String.eqb_refl. cbn [negb].
  destruct (String.eqb_spec tok "") as [E|_]; [|done].
  rewrite E in Hs. discriminate Hs.
Qed.

(** The row of a diagnostics request stays deliverable when its address no longer
    is: lifetimes are rounded up to minutes and counted from a later clock. *)
Theorem diagnostics_row_outlives_token hmac_hex base import_id id now db_now ttl st conn a b c d s q i :
  now <= db_now ->
  dispatch_get_diagnostics hmac_hex base import_id id now db_now ttl st conn None a b c d s = Some (q, i) ->
  exists r, last q = Some r /\ status r = pending /\ (now / usec + ttl) * usec <= expires_at r /\
    (0 < ttl mod 60 -> (now / usec + ttl + 60 - ttl mod 60) * usec <= expires_at r).
Proof.
  intros Hn H. unfold dispatch_get_diagnostics in H. destruct base as [base|]; [|discriminate].
  destruct (build_upload_url _ _ _); [|discriminate]. injection H as <- _.
  eexists. split; [apply last_snoc|]. cbn [status expires_at]. split; [done|].
  unfold queue_expires_in_min, minute_us, usec in *.
  pose proof (Z.div_mod (ttl + 59) 60 ltac:(lia)). pose proof (Z.mod_pos_bound (ttl + 59) 60 ltac:(lia)).
  pose proof (Z.div_mod now 1000000 ltac:(lia)). pose proof (Z.mod_pos_bound now 1000000 ltac:(lia)).
  split; [nia|]. intros Hm.
  pose proof (Z.div_mod ttl 60 ltac:(lia)). pose proof (Z.mod_pos_bound ttl 60 ltac:(lia)).
  assert ((ttl + 59) / 60 = ttl / 60 + 1) as ->; [|nia].
  symmetry. apply (Z.div_unique _ _ _ (ttl mod 60 - 1)); lia.
Qed.

(** ** Examples *)

Definition ex_map : vehicle_map := [("bus1", ("CP1", 1)); ("bus2", ("CP1", 1)); ("bus3", ("CP2", 1))]%string.
Definition ex_plan : dict string (list Q) :=
  [("bus1", [11; 0; 22; 0]%Q); ("bus2", [0; 11; 0; 0]%Q); ("bus3", [0; 0; 0; 0]%Q)]%string.
Definition ex_insert (v : string) : insert_answer := Some (100, Z.of_nat (String.length v)).

(** Two vehicles are sent to one connector, the idle one gets no row. *)
Lemma dispatch_exact_witness :
  dict_wf ex_plan /\
  dispatch_charging_profiles ex_map (1 # 4) 60 ex_insert ex_plan []
  = (map (fun e => (fst e, bool_decide (is_Some (row_for ex_map (1 # 4) 60 ex_insert e)))) ex_plan,
     [] ++ omap (row_for ex_map (1 # 4) 60 ex_insert) ex_plan) /\
  map (fun r => (charge_point_id r, connector_id r))
    (snd (dispatch_charging_profiles ex_map (1 # 4) 60 ex_insert ex_plan []))
  = [("CP1", 1); ("CP1", 1)]%string.
Proof.
  assert (dict_wf ex_plan) as Hw by (apply (bool_decide_unpack _); vm_compute; exact I).
  split; [exact Hw|]. split; [exact (dispatch_exact ex_map (1 # 4) 60 ex_insert ex_plan [] Hw)|].
  vm_compute. reflexivity.
Defined.

(** Step 1 is planned at 0 kW and runs at the 11 kW of step 0. *)
Lemma dispatched_power_in_force_witness :
  (1 <= (1 # 4) * 3600)%Q /\
  exists a, limit_at (convert_schedule_to_ocpp_profile (positive_steps [11; 0; 22; 0]%Q) (1 # 4) 3 "A")
              (step_start (1 # 4) 1) = Some a /\ (kw_of_amps a == 11)%Q.
Proof.
  assert (1 <= (1 # 4) * 3600)%Q as H by (vm_compute; discriminate).
  split; [exact H|]. exact (dispatched_power_in_force [11; 0; 22; 0]%Q (1 # 4) 1 H).
Defined.

Definition ex_lost : row_env :=
  {| connected := Some (ocpp16_session "CP1" 7 [Raised "closed"; Raised "closed"; Raised "closed"]
                          (fun _ => Raised "closed") (fun _ _ => Raised "closed") (fun _ => None) false);
     still_connected := false; mark_ok := true; import_ok := true; env_now := 0; env_mono := 0 |}.

Definition ex_sent_row : queue_row :=
  {| queue_id := 1; charge_point_id := "CP1"; connector_id := 1;
     command_type := "set_charging_profile"; payload := profile_payload []; status := pending;
     enqueued_at := 0; sent_at := None; acked_at := None; expires_at := 60 * minute_us;
     last_error := None; attempt_count := 0 |}.

Lemma lost_connection_fails_command_witness :
  let c := init_consumer [ex_sent_row] [] in
  queue (snd (_handle_row ex_lost ex_sent_row c))
  = mark_command_failed 1 "charger Rejected SetChargingProfile" (queue c).
Proof.
  apply (lost_connection_fails_command "CP1" 7 [Raised "closed"; Raised "closed"; Raised "closed"]
           (fun _ => Raised "closed") (fun _ _ => Raised "closed") (fun _ => None) false ex_lost
           ex_sent_row []); try reflexivity.
  repeat constructor.
Defined.

Definition ex_uuid : string := "0123456789abcdef0123456789abcdef".

Lemma ex_uuid_digits : uuid_digits ex_uuid.
Proof. split; vm_compute; reflexivity. Qed.

Lemma ex_sig_no_dot (body : string) : "."%char ∉ String.list_ascii_of_string "c0ffee".
Proof. apply (bool_decide_unpack _). vm_compute. exact I. Qed.

Lemma token_roundtrip_witness :
  verify_token (fun _ => "c0ffee") (mint_token (fun _ => "c0ffee") ex_uuid 1000 3600) 4599
  = Ok {| tok_import_id := ex_uuid; tok_expiry := 4600;
          tok_raw := mint_token (fun _ => "c0ffee") ex_uuid 1000 3600 |}.
Proof.
  exact (token_roundtrip (fun _ => "c0ffee"%string) ex_uuid 1000 3600 4599 ex_uuid_digits ex_sig_no_dot).
Defined.

Lemma diagnostics_row_outlives_token_witness :
  exists q i r,
    dispatch_get_diagnostics (fun _ => "c0ffee") (Some "https://api") ex_uuid 1 0 0 90 "CP1" None None
      PNone PNone PNone PNone ([], []) = Some (q, i) /\
    last q = Some r /\ (0 + 90 + 30) * usec <= expires_at r.
Proof.
  destruct (dispatch_get_diagnostics (fun _ => "c0ffee"%string) (Some "https://api"%string) ex_uuid 1 0 0 90
              "CP1" None None PNone PNone PNone PNone ([], [])) as [[q i]|] eqn:E; [|discriminate E].
  destruct (diagnostics_row_outlives_token (fun _ => "c0ffee"%string) (Some "https://api"%string) ex_uuid 1 0 0
              90 "CP1" None PNone PNone PNone PNone ([], []) q i) as (r & H1 & _ & _ & H2);
    [reflexivity || lia | exact E |].
  exists q, i, r. split; [reflexivity|]. split; [exact H1|]. apply H2. reflexivity.
Defined.
