(* ===== verification/Billing.v ===== *)
(** * Session costs ([src/core/billing/session_cost.py])

    The cost of a closed charging session: from its telemetry when that covers the
    session and agrees with the metered energy, else from the metered energy and
    the time-weighted average price. The telemetry query is evaluated on a list of
    rows; prices come from a map by hour, the caller's lookup. Times are
    microseconds of UTC, as the database driver returns them. Floating-point
    numbers are exact rationals. *)

From S2P Require Import Prelude Models PyText.
From Stdlib Require Import ZArith QArith Qabs Lia.
From stdpp Require Import base list strings gmap.

#[local] Open Scope Z_scope.

(** ** Data *)

Inductive SessionCostSource :=
| granular | fallback_average | unpriceable | pending_close | no_energy | no_depot | manual.

#[export] Instance cost_source_eq_dec : EqDecision SessionCostSource.
Proof. solve_decision. Defined.

Record SessionCostResult := {
  cost : option Q;
  source : SessionCostSource;
  energy_kwh_from_telemetry : option Q;
  avg_price_used : option Q;
  telemetry_coverage : option Q
}.

(** A result without diagnostics. *)
Definition plain_result (c : option Q) (s : SessionCostSource) : SessionCostResult :=
  {| cost := c; source := s; energy_kwh_from_telemetry := None; avg_price_used := None;
     telemetry_coverage := None |}.

Record session_row := {
  session_id : string;
  site_id : option string;
  vehicle_id : option string;
  station_id : option string;
  connector_id : option Z;
  transaction_id : option Z;
  start_time : Z;
  end_time : option Z;
  energy_delivered_kwh : option Q;
  cost_total : option Q;
  cost_total_source : option SessionCostSource;
  bidding_zone : option string
}.

Record telemetry_row := {
  tm_time : Z;
  tm_vehicle_id : option string;
  tm_station_id : option string;
  tm_connector_id : option Z;
  tm_transaction_id : option Z;
  tm_charging_kw : option Q
}.

Definition TELEMETRY_COVERAGE_MIN : Q := 8 # 10.
Definition ENERGY_RECONCILE_TOL : Q := 1 # 10.

(** ** The telemetry query *)

(** A sample with the one that follows it. *)
Record sample := { s_time : Z; s_kw : Q; s_next : option (Z * Q) }.

(** [LEAD(...) OVER (ORDER BY t.time)]. *)
Fixpoint lead (l : list (Z * Q)) : list sample :=
  match l with
  | [] => []
  | (t, kw) :: l' => {| s_time := t; s_kw := kw; s_next := head l' |} :: lead l'
  end.

(** The rows of the query's window with positive power, in order of time. *)
Definition in_window (where_clause : telemetry_row -> bool) (start end_ : Z)
    (telemetry : list telemetry_row) : list (Z * Q) :=
  sort_by (fun a b => fst a <=? fst b)
    (omap (fun r =>
       match tm_charging_kw r with
       | Some kw =>
           if where_clause r && (start - 15 * minute_us <=? tm_time r) && (tm_time r <? end_)
              && (0 <?q kw)%Q
           then Some (tm_time r, kw) else None
       | None => None
       end) telemetry).

(** [bucketed]: samples whose interval ends before the session are dropped, the
    one that spans its start is clamped to it. *)
Definition bucketed (start : Z) (l : list sample) : list sample :=
  map (fun s => {| s_time := Z.max (s_time s) start; s_kw := s_kw s; s_next := s_next s |})
    (List.filter (fun s => match s_next s with Some (n, _) => start <? n | None => true end) l).

(** Seconds and energy of the interval a sample opens, clipped at the end. *)
Definition observed (end_ : Z) (s : sample) : Q :=
  total_seconds (match s_next s with Some (n, _) => Z.min n end_ | None => end_ end - s_time s).

Definition interval_energy (end_ : Z) (s : sample) : Q :=
  let kw := match s_next s with Some (_, n) => ((s_kw s + n) / 2)%Q | None => s_kw s end in
  (kw * observed end_ s / 3600)%Q.

Record bucket_row := { hour : Z; energy_kwh : Q; observed_seconds : Q }.

(** Floor to the hour, [time_bucket('1 hour', ...)]. *)
Definition _normalize_hour (t : Z) : Z := t - t mod hour_us.

Definition bucket_rows (end_ : Z) (l : list sample) : list bucket_row :=
  let at_hour h := List.filter (fun s => _normalize_hour (s_time s) =? h) l in
  map (fun h => {| hour := h;
                   energy_kwh := Qsum (map (interval_energy end_) (at_hour h));
                   observed_seconds := Qsum (map (observed end_) (at_hour h)) |})
    (sort_by Z.leb (remove_dups (map (fun s => _normalize_hour (s_time s)) l))).

Definition granular_query (where_clause : telemetry_row -> bool) (start end_ : Z)
    (telemetry : list telemetry_row) : list bucket_row :=
  bucket_rows end_ (bucketed start (lead (in_window where_clause start end_ telemetry))).

(** SQL equality with a column that may be null. *)
Definition sql_eq {A} `{EqDecision A} (column : option A) (v : A) : bool :=
  match column with Some x => bool_decide (x = v) | None => false end.

(** The vehicle's rows, else those of the transaction, else those of the
    connector that no other transaction claims. *)
Definition _fetch_granular_telemetry_rows (telemetry : list telemetry_row)
    (vehicle : option string) (station : option string) (connector transaction : option Z)
    (start end_ : Z) : list bucket_row :=
  let query w := granular_query w start end_ telemetry in
  let by_connector :=
    match station, connector with
    | Some st, Some c =>
        let here r := sql_eq (tm_station_id r) st && sql_eq (tm_connector_id r) c in
        match transaction with
        | Some tx =>
            match query (fun r => here r && sql_eq (tm_transaction_id r) tx) with
            | [] => query (fun r => here r && match tm_transaction_id r with
                                               | None => true
                                               | Some x => x =? tx
                                               end)
            | rows => rows
            end
        | None => query here
        end
    | _, _ => []
    end in
  match vehicle with
  | Some v => match query (fun r => sql_eq (tm_vehicle_id r) v) with
              | [] => by_connector
              | rows => rows
              end
  | None => by_connector
  end.

(** ** Prices *)

(** The three lookups of the code are one for UTC keys. *)
Definition _price_for_hour (price_map : dict Z Q) (h : Z) : option Q :=
  price_map @? _normalize_hour h.

(** [while cursor < end]: [None] when the fuel is used up. *)
Fixpoint hour_loop (fuel : nat) (cursor end_ : Z) (out : list Z) : option (list Z) :=
  match fuel with
  | O => None
  | S n => if cursor <? end_ then hour_loop n (cursor + hour_us) end_ (out ++ [cursor])
           else Some out
  end.

(** One round per started hour, and one to leave the loop. *)
Definition hour_fuel (start end_ : Z) : nat :=
  S (Z.to_nat ((end_ - _normalize_hour start + hour_us - 1) / hour_us)).

Definition _expected_hour_buckets (start end_ : Z) : list Z :=
  default [] (hour_loop (hour_fuel start end_) (_normalize_hour start) end_ []).

(** [d.quantize(Decimal("0.0001"))]. *)
Definition quantize4 (q : Q) : Q := inject_Z (Qround_even (q * 10000)) / 10000.

(** ** The two strategies *)

(** The priced energy of the buckets, [None] when an hour has no price. *)
Fixpoint priced (price_map : dict Z Q) (rows : list bucket_row) (total : Q) : option Q :=
  match rows with
  | [] => Some total
  | r :: rest =>
      match _price_for_hour price_map (hour r) with
      | None => None
      | Some price => priced price_map rest (total + energy_kwh r * price)%Q
      end
  end.

Definition _try_granular (rows : list bucket_row) (start end_ : Z) (delivered : option Q)
    (price_map : dict Z Q) : option SessionCostResult :=
  match rows with
  | [] => None
  | _ =>
      let telem_energy := Qsum (map energy_kwh rows) in
      if (telem_energy <=?q 0)%Q then None
      else
        let seconds := total_seconds (end_ - start) in
        let coverage := if (0 <?q seconds)%Q
                        then (Qsum (map observed_seconds rows) / seconds)%Q else 0%Q in
        let mismatch_ok :=
          match delivered with
          | Some e => (0 <?q e)%Q
                      && negb (ENERGY_RECONCILE_TOL <?q Qabs (telem_energy - e) / e)%Q
          | None => false
          end in
        if (coverage <?q TELEMETRY_COVERAGE_MIN)%Q || negb mismatch_ok then None
        else match priced price_map rows 0 with
             | None => None
             | Some total =>
                 Some {| cost := Some (quantize4 total); source := granular;
                         energy_kwh_from_telemetry := Some telem_energy;
                         avg_price_used := Some (total / telem_energy)%Q;
                         telemetry_coverage := Some coverage |}
             end
  end.

(** Hours of the session that fall into the hour [h]. *)
Definition overlap_hours (start end_ h : Z) : Q :=
  let h := _normalize_hour h in
  total_seconds (Z.min end_ (h + hour_us) - Z.max start h) / 3600.

(** The loop over the hours: weighted sum and total weight. *)
Definition weigh (price_map : dict Z Q) (start end_ : Z) (acc : Q * Q) (h : Z) : Q * Q :=
  match _price_for_hour price_map h with
  | None => acc
  | Some price =>
      let w := overlap_hours start end_ h in
      if (w <=?q 0)%Q then acc else ((fst acc + price * w)%Q, (snd acc + w)%Q)
  end.

Definition _fallback_average (delivered : Q) (start end_ : Z) (price_map : dict Z Q)
  : SessionCostResult :=
  let expected := _expected_hour_buckets start end_ in
  let covered := List.filter (fun h => match _price_for_hour price_map h with
                                       | Some _ => true | None => false end) expected in
  if match expected with [] => true | _ => false end
     || (length covered <? length expected)%nat
  then plain_result None unpriceable
  else
    let '(weighted_sum, weight_total) := foldl (weigh price_map start end_) (0%Q, 0%Q) expected in
    if (weight_total <=?q 0)%Q then plain_result None no_energy
    else
      let avg := (weighted_sum / weight_total)%Q in
      {| cost := Some (quantize4 (delivered * avg)); source := fallback_average;
         energy_kwh_from_telemetry := None; avg_price_used := Some avg;
         telemetry_coverage := None |}.

(** ** The dispatcher *)

Definition keeps_existing (row : session_row) : bool :=
  sql_eq (cost_total_source row) manual
  || match cost_total row with
     | Some c => negb (c =?q 0)%Q
                 && match cost_total_source row with
                    | None | Some fallback_average | Some unpriceable => false
                    | _ => true
                    end
     | None => false
     end.

(** A vehicle column that is no UUID counts as absent. *)
Definition vehicle_uuid (v : option string) : option string :=
  match v with Some s => uuid_of_string s | None => None end.

(** [price_lookup zone start end] is the price map of the window. *)
Definition compute_session_cost (telemetry : list telemetry_row)
    (price_lookup : string -> Z -> Z -> dict Z Q) (row : session_row) : SessionCostResult :=
  if keeps_existing row then plain_result (cost_total row) manual
  else match end_time row with
  | None => plain_result None pending_close
  | Some end_ =>
  match site_id row with
  | None => plain_result None no_depot
  | Some _ =>
  match bidding_zone row with
  | None | Some EmptyString => plain_result None unpriceable
  | Some zone =>
      let price_map := price_lookup zone (start_time row) end_ in
      let rows := _fetch_granular_telemetry_rows telemetry (vehicle_uuid (vehicle_id row))
                    (station_id row) (connector_id row) (transaction_id row)
                    (start_time row) end_ in
      match _try_granular rows (start_time row) end_ (energy_delivered_kwh row) price_map with
      | Some r => r
      | None =>
          match energy_delivered_kwh row with
          | Some e => if (e <=?q 0)%Q then plain_result None no_energy
                      else _fallback_average e (start_time row) end_ price_map
          | None => plain_result None no_energy
          end
      end
  end end end.

(** ** Writing the cost *)

Definition eligible (row : session_row) : bool :=
  match cost_total row with None => true | Some c => (c =?q 0)%Q end
  && negb (sql_eq (cost_total_source row) manual).

Definition write_session_cost (id : string) (r : SessionCostResult) (table : list session_row)
  : bool * list session_row :=
  if bool_decide (source r = pending_close) then (false, table)
  else
    let value := match source r with granular | fallback_average => cost r | _ => None end in
    let hit row := String.eqb (session_id row) id && eligible row in
    (existsb hit table,
     map (fun row => if hit row
                     then {| session_id := session_id row; site_id := site_id row;
                             vehicle_id := vehicle_id row; station_id := station_id row;
                             connector_id := connector_id row;
                             transaction_id := transaction_id row;
                             start_time := start_time row; end_time := end_time row;
                             energy_delivered_kwh := energy_delivered_kwh row;
                             cost_total := value; cost_total_source := Some (source r);
                             bidding_zone := bidding_zone row |}
                     else row) table).

(** ** Pricing a closed session ([timescale_client.py], [db/queries.py]) *)

(** A depot: its time zone and the string under ['entsoe_zone'] of its tariff. *)
Record site_row := { si_timezone : option string; si_entsoe_zone : option string }.

Section ClosePath.
(** [zones] is the adapter's table of bidding zones by time zone; [stations] are
    the stations with their depots, in order of their ids. *)
Context (zones : string -> option string) (stations : list (string * string)) (sites : dict string site_row).
Context (telemetry : list telemetry_row) (price_lookup : string -> Z -> Z -> dict Z Q).

Definition resolve_bidding_zone (site : string) : option string :=
  match sites @? site with
  | None => None
  | Some row =>
      let by_timezone := match si_timezone row with
                         | None | Some EmptyString => None
                         | Some tz => zones tz
                         end in
      match si_entsoe_zone row with
      | Some z => if String.eqb (strip z) "" then by_timezone else Some (strip z)
      | None => by_timezone
      end
  end.

Definition _resolve_bidding_zone (site : option string) : option string :=
  match site with None => None | Some id => resolve_bidding_zone id end.

Definition _resolve_site_id_for_station (station : option string) : option string :=
  match station with
  | None | Some EmptyString => None
  | Some st => option_map snd (List.find (fun x => String.eqb (fst x) st) stations)
  end.

(** The row with its depot and bidding zone. *)
Definition resolved (row : session_row) : session_row :=
  let site := match site_id row with
              | Some s => Some s
              | None => _resolve_site_id_for_station (station_id row)
              end in
  {| session_id := session_id row; site_id := site; vehicle_id := vehicle_id row;
     station_id := station_id row; connector_id := connector_id row;
     transaction_id := transaction_id row; start_time := start_time row; end_time := end_time row;
     energy_delivered_kwh := energy_delivered_kwh row; cost_total := cost_total row;
     cost_total_source := cost_total_source row; bidding_zone := _resolve_bidding_zone site |}.

(** Whether a row was written, and the table. *)
Definition _compute_and_write_cost (id : string) (table : list session_row) : bool * list session_row :=
  match List.find (fun row => String.eqb (session_id row) id) table with
  | None => (false, table)
  | Some row => write_session_cost id (compute_session_cost telemetry price_lookup (resolved row)) table
  end.
End ClosePath.
