(* ===== verification/BillingFacts.v ===== *)
(** * Properties of session costs

    The hour loop ends and yields the started hours; what the coverage gate
    measures; the fallback price is the average over the session's time; when a
    cost exists at all and which prices it rests on; what a write may change. *)

From S2P Require Import Prelude Models PyText Billing.
From Stdlib Require Import ZArith QArith Qabs Qround Lqa Lia.
From stdpp Require Import base list strings gmap sorting.

#[local] Open Scope Z_scope.

Lemma hour_pos : 0 < hour_us.
Proof. done. Qed.

(** ** The hour loop *)

Definition started_hours (first : Z) (n : nat) : list Z :=
  map (fun i => first + Z.of_nat i * hour_us) (seq 0 n).

Lemma started_hours_S first n : started_hours first (S n) = first :: started_hours (first + hour_us) n.
Proof.
  unfold started_hours. cbn [seq map]. f_equal; [lia|]. rewrite <- seq_shift, map_map.
  apply map_ext. intros i. lia.
Qed.

Lemma hour_loop_run n fuel cursor end_ out :
  (forall i, 0 <= i < Z.of_nat n -> cursor + i * hour_us < end_) -> end_ <= cursor + Z.of_nat n * hour_us ->
  (n < fuel)%nat -> hour_loop fuel cursor end_ out = Some (out ++ started_hours cursor n).
Proof.
  revert fuel cursor out. induction n as [|n IH]; intros [|fuel] cursor out Hlt Hle Hf; try lia.
  - cbn. rewrite (proj2 (Z.ltb_ge _ _)) by lia. by rewrite app_nil_r.
  - cbn [hour_loop]. specialize (Hlt 0) as H0. rewrite (proj2 (Z.ltb_lt _ _)) by lia.
    rewrite IH; [|intros i Hi; specialize (Hlt (i + 1)); lia | lia | lia].
    by rewrite started_hours_S, <- app_assoc.
Qed.

(** How many hours a session touches. *)
Definition hour_count (start end_ : Z) : nat :=
  Z.to_nat ((end_ - _normalize_hour start + hour_us - 1) / hour_us).

Lemma hour_count_spec start end_ :
  (forall i, 0 <= i < Z.of_nat (hour_count start end_) -> _normalize_hour start + i * hour_us < end_) /\
  end_ <= _normalize_hour start + Z.of_nat (hour_count start end_) * hour_us.
Proof.
  unfold hour_count. set (d := end_ - _normalize_hour start). pose proof hour_pos.
  pose proof (Z.div_mod (d + hour_us - 1) hour_us ltac:(lia)).
  pose proof (Z.mod_pos_bound (d + hour_us - 1) hour_us ltac:(lia)).
  set (k := (d + hour_us - 1) / hour_us) in *. split; [intros i Hi|]; destruct (Z.le_gt_cases 0 k); nia.
Qed.

(** The loop that lists the hours of a session terminates within one round per started
    hour plus one, and returns exactly the started hours in order. *)
Theorem hour_loop_terminates start end_ fuel :
  (hour_fuel start end_ <= fuel)%nat ->
  hour_loop fuel (_normalize_hour start) end_ [] = Some (started_hours (_normalize_hour start) (hour_count start end_)).
Proof.
  intros Hf. destruct (hour_count_spec start end_) as [H1 H2].
  apply (hour_loop_run (hour_count start end_)); [done..|]. unfold hour_fuel in Hf. unfold hour_count. lia.
Qed.

Lemma expected_hours start end_ :
  _expected_hour_buckets start end_ = started_hours (_normalize_hour start) (hour_count start end_).
Proof.
  unfold _expected_hour_buckets. destruct (hour_count_spec start end_) as [H1 H2].
  rewrite (hour_loop_run (hour_count start end_)); [done..|]. unfold hour_fuel, hour_count. lia.
Qed.

(** ** What the coverage gate measures *)

Lemma total_seconds_add a b : (total_seconds a + total_seconds b == total_seconds (a + b))%Q.
Proof. unfold total_seconds. rewrite inject_Z_plus. unfold usec. field. Qed.

Lemma Qsum_perm_key {A K} `{EqDecision K} (key : A -> K) (f : A -> Q) l hs :
  NoDup hs -> (forall x, x ∈ l -> key x ∈ hs) ->
  (Qsum (map (fun h => Qsum (map f (List.filter (fun x => bool_decide (key x = h)) l))) hs)
   == Qsum (map f l))%Q.
Proof.
  intros Hn. induction l as [|x l IH]; intros Hk.
  - cbn. clear. induction hs as [|h hs IH]; cbn in *; [done|]. rewrite IH. lra.
  - cbn [map Qsum]. rewrite <- IH by (intros y Hy; apply Hk; by right). clear IH.
    specialize (Hk x ltac:(left)). induction Hn as [|h hs Hh Hn IH]; [by apply not_elem_of_nil in Hk|].
    cbn [map Qsum List.filter]. destruct (bool_decide_reflect (key x = h)) as [E|E].
    + cbn [map Qsum].
      assert (map (fun h => Qsum (map f (if bool_decide (key x = h)
                 then x :: List.filter (fun y => bool_decide (key y = h)) l
                 else List.filter (fun y => bool_decide (key y = h)) l))) hs
              = map (fun h => Qsum (map f (List.filter (fun y => bool_decide (key y = h)) l))) hs) as ->; [|lra].
      apply map_ext_in. intros h' Hh'%list_elem_of_In. rewrite bool_decide_false; [done|]. congruence.
    + apply elem_of_cons in Hk as [Hk|Hk]; [done|]. rewrite IH by done. lra.
Qed.

Lemma bucket_sum (f : sample -> Q) l :
  (Qsum (map (fun h => Qsum (map f (List.filter (fun s => (_normalize_hour (s_time s) =? h)%Z) l)))
     (sort_by Z.leb (remove_dups (map (fun s => _normalize_hour (s_time s)) l))))
   == Qsum (map f l))%Q.
Proof.
  rewrite <- (Qsum_perm_key (fun s => _normalize_hour (s_time s)) f l
               (sort_by Z.leb (remove_dups (map (fun s => _normalize_hour (s_time s)) l)))).
  - apply Qsum_map_ext. intros h _.
    assert (List.filter (fun s => _normalize_hour (s_time s) =? h) l
            = List.filter (fun s => bool_decide (_normalize_hour (s_time s) = h)) l) as ->; [|done].
    apply lfilter_ext. intros s _. by destruct (Z.eqb_spec (_normalize_hour (s_time s)) h), (bool_decide_reflect (_normalize_hour (s_time s) = h)).
  - rewrite sort_by_perm. apply NoDup_remove_dups.
  - intros s Hs. apply elem_of_sort_by, elem_of_remove_dups, list_elem_of_fmap. eauto.
Qed.

(** The samples that remain start at the first one, or at the session's start. *)
Lemma bucketed_observed start end_ t kw l :
  StronglySorted (fun a b : Z * Q => (fst a <=? fst b) = true) ((t, kw) :: l) ->
  Forall (fun a => fst a < end_) ((t, kw) :: l) -> start <= end_ ->
  (Qsum (map (observed end_) (bucketed start (lead ((t, kw) :: l))))
   == total_seconds (end_ - Z.max start t))%Q.
Proof.
  revert t kw. induction l as [|[t2 kw2] l IH]; intros t kw Hs Hf Hse.
  - unfold bucketed, observed. cbn. rewrite Z.max_comm. lra.
  - inversion Hs as [|? ? Hs2 Hle]; subst. apply Forall_cons in Hf as [Ht Hf].
    specialize (IH _ _ Hs2 Hf Hse). apply Forall_cons in Hle as [Hle _]. apply Z.leb_le in Hle. cbn in Hle, Ht.
    apply Forall_cons in Hf as [Ht2 _]. cbn in Ht2.
    unfold bucketed in *. cbn [lead List.filter s_next head].
    destruct (Z.ltb_spec start t2) as [Hst|Hst]; cbn [map Qsum].
    + rewrite IH. unfold observed at 1. cbn [s_next s_time]. rewrite total_seconds_add.
      replace (Z.min t2 end_ - Z.max t start + (end_ - Z.max start t2)) with (end_ - Z.max start t) by lia.
      lra.
    + rewrite IH. replace (Z.max start t2) with start by lia. by replace (Z.max start t) with start by lia.
Qed.

Lemma in_window_facts w start end_ tele :
  let l := in_window w start end_ tele in
  StronglySorted (fun a b : Z * Q => (fst a <=? fst b) = true) l /\
  Forall (fun a => fst a < end_ /\ (0 < snd a)%Q) l.
Proof.
  cbn zeta. split.
  - apply sort_by_sorted; intros; rewrite ?Z.leb_le in *; lia.
  - apply Forall_forall. intros [t kw] Hin. unfold in_window in Hin.
    apply elem_of_sort_by, list_elem_of_omap in Hin as (r & _ & H).
    destruct (tm_charging_kw r) as [k|]; [|discriminate].
    destruct (_ && _) eqn:E; [|discriminate]. injection H as <- <-. rewrite !andb_true_iff in E.
    destruct E as [[[_ _] H1%Z.ltb_lt] H2%Qltb_lt]. done.
Qed.

(** The observed seconds of the telemetry query add up to the time from the first sample
    (or the session's start, if later) to the session's end: gaps between samples count
    as observed, so the coverage depends on the first sample alone. *)
Theorem coverage_from_first_sample w start end_ tele t kw rest :
  in_window w start end_ tele = (t, kw) :: rest -> start <= end_ ->
  (Qsum (map observed_seconds (granular_query w start end_ tele)) == total_seconds (end_ - Z.max start t))%Q.
Proof.
  intros E Hse. destruct (in_window_facts w start end_ tele) as [Hs Hf]. rewrite E in Hs, Hf.
  unfold granular_query, bucket_rows. rewrite map_map. cbn [observed_seconds].
  rewrite bucket_sum, E. apply bucketed_observed; [done| |done].
  eapply Forall_impl; [exact Hf|]. by intros ? [? _].
Qed.

Lemma lead_kw (p : Q) l s :
  Forall (fun a : Z * Q => (snd a == p)%Q) l -> s ∈ lead l ->
  (s_kw s == p)%Q /\ match s_next s with Some (_, k) => (k == p)%Q | None => True end.
Proof.
  induction l as [|[t kw] l IH]; intros Hf Hs; [by apply not_elem_of_nil in Hs|].
  apply Forall_cons in Hf as [Hk Hf]. cbn in Hs. apply elem_of_cons in Hs as [->|Hs]; [|auto].
  split; [exact Hk|]. cbn. destruct l as [|[t2 k2] l]; [done|]. cbn. by apply Forall_cons in Hf as [Hf _].
Qed.

(** Samples without power are left out of the query, so a pause is bridged: at
    constant power the energy is that of charging since the first sample. *)
Theorem pauses_are_billed w start end_ tele t kw rest (p : Q) :
  in_window w start end_ tele = (t, kw) :: rest -> start <= end_ ->
  Forall (fun a => (snd a == p)%Q) (in_window w start end_ tele) ->
  (Qsum (map energy_kwh (granular_query w start end_ tele))
   == p * (total_seconds (end_ - Z.max start t) / 3600))%Q.
Proof.
  intros E Hse Hp. destruct (in_window_facts w start end_ tele) as [Hs Hf]. rewrite E in Hs, Hf.
  unfold granular_query, bucket_rows. rewrite map_map. cbn [energy_kwh]. rewrite bucket_sum, E.
  rewrite <- (bucketed_observed start end_ t kw rest Hs); [| |done].
  2:{ eapply Forall_impl; [exact Hf|]. by intros ? [? _]. }
  rewrite E in Hp.
  transitivity (Qsum (map (observed end_) (bucketed start (lead ((t, kw) :: rest)))) * (p / 3600))%Q;
    [|field].
  rewrite <- Qsum_scale. apply Qsum_map_ext. intros s Hin.
  unfold bucketed in Hin. apply list_elem_of_fmap in Hin as (s0 & -> & Hin).
  apply elem_of_lfilter in Hin as [Hin _]. destruct (lead_kw p _ _ Hp Hin) as [H1 H2].
  unfold interval_energy. cbn [s_next s_kw]. generalize (observed end_
    {| s_time := Z.max (s_time s0) start; s_kw := s_kw s0; s_next := s_next s0 |}). intros o.
  destruct (s_next s0) as [[n k]|].
  - rewrite H1, H2. field.
  - rewrite H1. field.
Qed.

(** ** The fallback price is the average over the session's time *)

(** The price of an instant, and its sum over the instants of a span. *)
Definition price_at (price_map : dict Z Q) (u : Z) : Q := default 0%Q (_price_for_hour price_map u).
Definition price_sum (price_map : dict Z Q) (a b : Z) : Q := Qsum (map (price_at price_map) (seqZ a (b - a))).

Lemma price_sum_split pm a b c : a <= b <= c -> (price_sum pm a c == price_sum pm a b + price_sum pm b c)%Q.
Proof.
  intros H. unfold price_sum. rewrite <- Qsum_app, <- map_app.
  replace (c - a) with ((b - a) + (c - b)) by lia. rewrite seqZ_app by lia.
  by replace (a + (b - a)) with b by lia.
Qed.

Lemma normalize_in_hour h u : _normalize_hour h = h -> h <= u < h + hour_us -> _normalize_hour u = h.
Proof.
  unfold _normalize_hour. intros Hh Hu. pose proof hour_pos.
  pose proof (Z.div_mod h hour_us ltac:(lia)).
  assert (u mod hour_us = u - h) as ->; [|lia].
  symmetry. apply (Z.mod_unique u hour_us (h / hour_us)); [left; lia|].
  assert (h mod hour_us = 0) by lia. lia.
Qed.

Lemma Qsum_const {A} (f : A -> Q) (c : Q) l :
  (forall x, x ∈ l -> (f x == c)%Q) -> (Qsum (map f l) == inject_Z (Z.of_nat (length l)) * c)%Q.
Proof.
  induction l as [|x l IH]; intros H; cbn [map Qsum length];
    [change (inject_Z (Z.of_nat 0)) with 0%Q; ring|].
  rewrite IH by (intros; apply H; by right). rewrite (H x) by left.
  rewrite Nat2Z.inj_succ, <- Z.add_1_l, inject_Z_plus. change (inject_Z 1) with 1%Q. ring.
Qed.

Lemma price_sum_hour pm h a b price :
  _normalize_hour h = h -> _price_for_hour pm h = Some price -> h <= a -> a <= b -> b <= h + hour_us ->
  (price_sum pm a b == inject_Z (b - a) * price)%Q.
Proof.
  intros Hh Hp H1 H2 H3. unfold price_sum. rewrite (Qsum_const _ price).
  - rewrite length_seqZ, Z2Nat.id by lia. lra.
  - intros u Hu%elem_of_seqZ. unfold price_at, _price_for_hour in *.
    rewrite (normalize_in_hour h u) by lia. rewrite Hh in Hp. by rewrite Hp.
Qed.

(** Microseconds of an hour as the unit of the weights. *)
Definition in_hours (q : Q) : Q := q / inject_Z hour_us.

#[local] Instance in_hours_proper : Proper (Qeq ==> Qeq) in_hours.
Proof. intros a b E. unfold in_hours. by rewrite E. Qed.

Lemma total_seconds_hours z : (total_seconds z / 3600 == in_hours (inject_Z z))%Q.
Proof.
  unfold total_seconds, in_hours, hour_us. rewrite inject_Z_mult. change (inject_Z 3600) with 3600%Q.
  field. discriminate.
Qed.

Lemma weigh_hours pm start end_ n h acc :
  _normalize_hour h = h -> start < end_ -> start < h + hour_us ->
  (forall i, 0 <= i < Z.of_nat n -> h + i * hour_us < end_) ->
  (forall x, x ∈ started_hours h n -> is_Some (_price_for_hour pm x)) ->
  let reach := Z.min end_ (h + Z.of_nat n * hour_us) in
  let from := Z.min reach (Z.max start h) in
  let '(s, w) := foldl (weigh pm start end_) acc (started_hours h n) in
  (s == fst acc + in_hours (price_sum pm from reach))%Q /\
  (w == snd acc + in_hours (inject_Z (reach - from)))%Q.
Proof.
  revert h acc. induction n as [|n IH]; intros h acc Hh Hse Hsh Hlt Hp.
  - destruct acc as [s w]. cbn [started_hours seq map foldl fst snd]. cbn zeta.
    replace (Z.min (Z.min end_ (h + Z.of_nat 0 * hour_us)) (Z.max start h))
      with (Z.min end_ (h + Z.of_nat 0 * hour_us)) by lia.
    unfold price_sum. rewrite Z.sub_diag. change (seqZ (Z.min end_ (h + Z.of_nat 0 * hour_us)) 0) with (@nil Z).
    cbn [map Qsum]. unfold in_hours. change (inject_Z 0) with 0%Q. split; field; done.
  - rewrite started_hours_S in Hp |- *. cbn [foldl].
    destruct (Hp h ltac:(left)) as [price Hpr]. pose proof hour_pos as Hpos.
    pose proof (Hlt 0 ltac:(lia)) as H0. rewrite Z.mul_0_l, Z.add_0_r in H0.
    assert (_normalize_hour (h + hour_us) = h + hour_us) as Hh'.
    { unfold _normalize_hour in *. rewrite <- (Z.mul_1_l hour_us) at 2. rewrite Z_mod_plus_full. lia. }
    set (b := Z.min end_ (h + hour_us)).
    assert (overlap_hours start end_ h == in_hours (inject_Z (b - Z.max start h)))%Q as Hov.
    { unfold overlap_hours. rewrite Hh, total_seconds_hours. done. }
    assert (weigh pm start end_ acc h
            = ((fst acc + price * overlap_hours start end_ h)%Q, (snd acc + overlap_hours start end_ h)%Q)) as Hw.
    { unfold weigh. rewrite Hpr. destruct (overlap_hours start end_ h <=?q 0)%Q eqn:E; [|done].
      exfalso. apply Qleb_le in E. rewrite Hov in E.
      assert (0 < in_hours (inject_Z (b - Z.max start h)))%Q; [|lra].
      unfold in_hours. apply Qlt_shift_div_l; [reflexivity|]. rewrite Qmult_0_l.
      change 0%Q with (inject_Z 0). rewrite <- Zlt_Qlt. unfold b. lia. }
    rewrite Hw. specialize (IH (h + hour_us) (fst acc + price * overlap_hours start end_ h,
                              snd acc + overlap_hours start end_ h)%Q Hh' Hse).
    assert (start < h + hour_us + hour_us) as E1 by lia.
    assert (forall i, 0 <= i < Z.of_nat n -> h + hour_us + i * hour_us < end_) as E2
      by (intros i Hi; specialize (Hlt (i + 1)); lia).
    assert (forall x, x ∈ started_hours (h + hour_us) n -> is_Some (_price_for_hour pm x)) as E3
      by (intros x Hx; apply Hp; by right).
    specialize (IH E1 E2 E3).
    cbn zeta in IH |- *. destruct (foldl _ _ _) as [s w]. cbn [fst snd] in IH.
    destruct IH as [IH1 IH2]. rewrite IH1, IH2, Hov.
    replace (h + hour_us + Z.of_nat n * hour_us) with (h + Z.of_nat (S n) * hour_us) by lia.
    set (reach := Z.min end_ (h + Z.of_nat (S n) * hour_us)).
    assert (Z.min reach (Z.max start (h + hour_us)) = b) as -> by (unfold reach, b; lia).
    assert (Z.min reach (Z.max start h) = Z.max start h) as -> by (unfold reach; lia).
    rewrite (price_sum_split pm (Z.max start h) b reach) by (unfold reach, b; lia).
    rewrite (price_sum_hour pm h (Z.max start h) b price) by (done || unfold b; lia).
    split; [unfold in_hours; field; done|].
    replace (reach - Z.max start h) with ((b - Z.max start h) + (reach - b)) by lia.
    rewrite inject_Z_plus. unfold in_hours. field. done.
Qed.

Lemma normalize_idem t : _normalize_hour (_normalize_hour t) = _normalize_hour t.
Proof.
  unfold _normalize_hour. pose proof hour_pos. pose proof (Z.div_mod t hour_us ltac:(lia)).
  replace (t - t mod hour_us) with (t / hour_us * hour_us) by lia. rewrite Z_mod_mult. lia.
Qed.

Lemma normalize_range t : _normalize_hour t <= t < _normalize_hour t + hour_us.
Proof. unfold _normalize_hour. pose proof (Z.mod_pos_bound t hour_us hour_pos). lia. Qed.

Lemma lfilter_length_all {A} (f : A -> bool) l :
  (length l <= length (List.filter f l))%nat -> forall x, x ∈ l -> f x = true.
Proof.
  intros H. assert (List.filter f l = l) as E.
  { induction l as [|x l IH]; [done|]. cbn in *. destruct (f x); cbn in *.
    - f_equal. apply IH. lia.
    - pose proof (List.filter_length_le f l). lia. }
  intros x Hx. rewrite <- E in Hx. by apply elem_of_lfilter in Hx as [_ Hx].
Qed.

Lemma lfilter_true {A} (l : list A) : List.filter (fun _ => true) l = l.
Proof. induction l as [|x l IH]; cbn; [done | by rewrite IH]. Qed.

Lemma fallback_sums pm start end_ :
  start < end_ -> (forall h, h ∈ _expected_hour_buckets start end_ -> is_Some (_price_for_hour pm h)) ->
  let '(s, w) := foldl (weigh pm start end_) (0%Q, 0%Q) (_expected_hour_buckets start end_) in
  (s == in_hours (price_sum pm start end_))%Q /\ (w == in_hours (inject_Z (end_ - start)))%Q.
Proof.
  intros Hse Hp. rewrite expected_hours in *. pose proof (normalize_range start) as Hr.
  destruct (hour_count_spec start end_) as [H1 H2].
  pose proof (weigh_hours pm start end_ (hour_count start end_) (_normalize_hour start) (0%Q, 0%Q)
                (normalize_idem start) Hse ltac:(lia) H1 Hp) as H. cbn zeta in H.
  destruct (foldl _ _ _) as [s w]. cbn [fst snd] in H.
  replace (Z.min end_ (_normalize_hour start + Z.of_nat (hour_count start end_) * hour_us)) with end_ in H by lia.
  replace (Z.min end_ (Z.max start (_normalize_hour start))) with start in H by lia.
  destruct H as [-> ->]. split; ring.
Qed.

(** The average price of the fallback is the integral of the hourly price over the
    session, microsecond by microsecond, divided by the session's length, for any
    session of positive length whose hours have prices. *)
Theorem fallback_is_time_average delivered start end_ pm :
  start < end_ -> (forall h, h ∈ _expected_hour_buckets start end_ -> is_Some (_price_for_hour pm h)) ->
  exists avg, _fallback_average delivered start end_ pm
              = {| cost := Some (quantize4 (delivered * avg)); source := fallback_average;
                   energy_kwh_from_telemetry := None; avg_price_used := Some avg;
                   telemetry_coverage := None |} /\
              (avg * inject_Z (end_ - start) == price_sum pm start end_)%Q.
Proof.
  intros Hse Hp. pose proof (fallback_sums pm start end_ Hse Hp) as Hs. unfold _fallback_average.
  assert (_expected_hour_buckets start end_ <> []) as Hne.
  { rewrite expected_hours. intros E. destruct (hour_count_spec start end_) as [_ H2].
    destruct (hour_count start end_); [|discriminate]. pose proof (normalize_range start). lia. }
  destruct (foldl _ _ _) as [s w]. destruct Hs as [Hs Hw].
  rewrite (lfilter_ext _ (fun _ => true)) by (intros h Hh; by destruct (Hp h Hh) as [? ->]).
  rewrite lfilter_true.
  rewrite Nat.ltb_irrefl, orb_false_r. destruct (_expected_hour_buckets start end_); [done|].
  assert (0 < inject_Z (end_ - start))%Q as Hd by (change 0%Q with (inject_Z 0); rewrite <- Zlt_Qlt; lia).
  assert (0 < w)%Q as Hpos.
  { rewrite Hw. unfold in_hours. apply Qlt_shift_div_l; [reflexivity|]. by rewrite Qmult_0_l. }
  destruct (w <=?q 0)%Q eqn:E; [apply Qleb_le in E; lra|].
  exists (s / w)%Q. split; [done|]. rewrite Hs, Hw. unfold in_hours. field.
  split; [done | intros E0; rewrite E0 in Hd; by apply Qlt_irrefl in Hd].
Qed.

(** ** When there is a cost *)

Lemma priced_spec pm rows total t :
  priced pm rows total = Some t ->
  (forall r, r ∈ rows -> is_Some (_price_for_hour pm (hour r))) /\
  (t == total + Qsum (map (fun r => energy_kwh r * price_at pm (hour r)) rows))%Q.
Proof.
  revert total. induction rows as [|r rows IH]; intros total H; cbn in H.
  - injection H as <-. split; [by intros r ?%not_elem_of_nil | cbn; ring].
  - destruct (_price_for_hour pm (hour r)) as [p|] eqn:E; [|discriminate].
    apply IH in H as [H1 H2]. split.
    + intros x [->|Hx]%elem_of_cons; [by rewrite E | auto].
    + rewrite H2. cbn [map Qsum]. assert (price_at pm (hour r) = p) as -> by (unfold price_at; by rewrite E).
      ring.
Qed.

(** The price map and the telemetry buckets of a closed row. *)
Definition prices_of (lookup : string -> Z -> Z -> dict Z Q) (row : session_row) (end_ : Z) : dict Z Q :=
  lookup (default ""%string (bidding_zone row)) (start_time row) end_.
Definition rows_of (tele : list telemetry_row) (row : session_row) (end_ : Z) : list bucket_row :=
  _fetch_granular_telemetry_rows tele (vehicle_uuid (vehicle_id row)) (station_id row)
    (connector_id row) (transaction_id row) (start_time row) end_.

Lemma try_granular_spec rows start end_ delivered pm g :
  _try_granular rows start end_ delivered pm = Some g ->
  source g = granular /\ (forall b, b ∈ rows -> is_Some (_price_for_hour pm (hour b))) /\
  exists e t, delivered = Some e /\ (0 < e)%Q /\ cost g = Some (quantize4 t) /\
    (t == Qsum (map (fun b => energy_kwh b * price_at pm (hour b)) rows))%Q.
Proof.
  unfold _try_granular. destruct rows as [|b rows]; [discriminate|].
  destruct (_ <=?q 0)%Q; [discriminate|]. destruct (_ || _) eqn:Eg; [discriminate|].
  apply orb_false_iff in Eg as [_ Em%negb_false_iff].
  destruct delivered as [e|]; [|discriminate]. apply andb_true_iff in Em as [He%Qltb_lt _].
  destruct (priced pm (b :: rows) 0) as [t|] eqn:Ep; [|discriminate]. intros H. injection H as <-.
  apply priced_spec in Ep as [H1 H2]. split_and!; [done..|].
  exists e, t. split_and!; [done..|]. rewrite H2. ring.
Qed.

Lemma fallback_spec e start end_ pm c :
  cost (_fallback_average e start end_ pm) = Some c ->
  source (_fallback_average e start end_ pm) = fallback_average /\
  (forall h, h ∈ _expected_hour_buckets start end_ -> is_Some (_price_for_hour pm h)) /\
  exists avg, c = quantize4 (e * avg) /\
    (start < end_ -> (avg * inject_Z (end_ - start) == price_sum pm start end_)%Q).
Proof.
  intros Hc.
  assert (forall h, h ∈ _expected_hour_buckets start end_ -> is_Some (_price_for_hour pm h)) as Hp.
  { unfold _fallback_average in Hc. destruct (_ || _) eqn:E; [discriminate|].
    apply orb_false_iff in E as [_ E%Nat.ltb_ge]. intros h Hh.
    pose proof (lfilter_length_all _ _ E h Hh) as Hf. cbv beta in Hf.
    destruct (_price_for_hour pm h); [eauto | discriminate]. }
  pose proof (fun H => fallback_sums pm start end_ H Hp) as Hsum.
  unfold _fallback_average in Hc |- *. destruct (_ || _); [discriminate|].
  destruct (foldl _ _ _) as [s w]. destruct (w <=?q 0)%Q eqn:Ew; [discriminate|]. apply Qleb_gt in Ew.
  cbn [cost source] in *. injection Hc as <-. split_and!; [done..|]. eexists. split; [done|].
  intros Hlt. destruct (Hsum Hlt) as [-> Hw].
  assert (0 < inject_Z (end_ - start))%Q as Hd by (change 0%Q with (inject_Z 0); rewrite <- Zlt_Qlt; lia).
  rewrite Hw. unfold in_hours. field.
  split; [done | intros E0; rewrite E0 in Hd; by apply Qlt_irrefl in Hd].
Qed.

(** A computed cost rests on a price for every hour it bills. *)
Theorem cost_rests_on_prices tele lookup row c :
  let r := compute_session_cost tele lookup row in
  cost r = Some c -> source r <> manual ->
  exists end_ e, end_time row = Some end_ /\ energy_delivered_kwh row = Some e /\ (0 < e)%Q /\
    let pm := prices_of lookup row end_ in
    let rows := rows_of tele row end_ in
    (source r = granular /\ (forall b, b ∈ rows -> is_Some (_price_for_hour pm (hour b))) /\
     exists t, c = quantize4 t /\ (t == Qsum (map (fun b => energy_kwh b * price_at pm (hour b)) rows))%Q) \/
    (source r = fallback_average /\
     (forall h, h ∈ _expected_hour_buckets (start_time row) end_ -> is_Some (_price_for_hour pm h)) /\
     exists avg, c = quantize4 (e * avg) /\
       (start_time row < end_ ->
        (avg * inject_Z (end_ - start_time row) == price_sum pm (start_time row) end_)%Q)).
Proof.
  cbn zeta. unfold compute_session_cost. intros Hc Hs.
  destruct (keeps_existing row); [done|]. destruct (end_time row) as [end_|]; [|discriminate].
  destruct (site_id row); [|discriminate].
  unfold prices_of. destruct (bidding_zone row) as [[|ch zone]|]; [discriminate| |discriminate].
  cbn [default]. fold (rows_of tele row end_) in *.
  set (pm := lookup (String ch zone) (start_time row) end_) in *. exists end_.
  destruct (_try_granular _ _ _ _ pm) as [g|] eqn:Eg.
  - apply try_granular_spec in Eg as (H1 & H2 & e & t & H3 & H4 & H5 & H6). rewrite H5 in Hc.
    injection Hc as <-. exists e. split_and!; [done..|]. left. eauto.
  - destruct (energy_delivered_kwh row) as [e|]; [|discriminate].
    destruct (e <=?q 0)%Q eqn:Ee; [discriminate|]. apply Qleb_gt in Ee.
    exists e. split_and!; [done..|]. right. by apply fallback_spec.
Qed.

(** ** What a write may change *)

Lemma kept_not_eligible row : keeps_existing row = true -> eligible row = false.
Proof.
  unfold keeps_existing, eligible. destruct (sql_eq (cost_total_source row) manual); cbn.
  { intros _. apply andb_false_r. }
  destruct (cost_total row) as [c|]; [|done]. by intros [->%negb_true_iff _]%andb_true_iff.
Qed.

Definition with_cost (row : session_row) (c : option Q) (s : SessionCostSource) : session_row :=
  {| session_id := session_id row; site_id := site_id row; vehicle_id := vehicle_id row;
     station_id := station_id row; connector_id := connector_id row;
     transaction_id := transaction_id row; start_time := start_time row; end_time := end_time row;
     energy_delivered_kwh := energy_delivered_kwh row; cost_total := c;
     cost_total_source := Some s; bidding_zone := bidding_zone row |}.

Lemma find_session row table :
  row ∈ table -> NoDup (map session_id table) ->
  List.find (fun x => String.eqb (session_id x) (session_id row)) table = Some row.
Proof.
  intros Hr Hn. destruct (List.find _ table) as [x|] eqn:E.
  - apply find_some in E as [Hx E]. apply String.eqb_eq in E. apply list_elem_of_In in Hx.
    f_equal. by eapply nodup_map_inj.
  - apply list_elem_of_In in Hr. pose proof (find_none _ _ E _ Hr) as H. cbn in H.
    by rewrite String.eqb_refl in H.
Qed.

(** Pricing a row of the table changes at most that row, only if it has no cost
    and is not marked as entered by hand, and then to the computed result; a row
    whose cost is final is computed as 'manual' and nothing is written. *)
Theorem pricing_keeps_final_costs zones stations sites tele lookup row table :
  row ∈ table -> NoDup (map session_id table) ->
  let r := compute_session_cost tele lookup (resolved zones stations sites row) in
  _compute_and_write_cost zones stations sites tele lookup (session_id row) table
  = if eligible row && negb (bool_decide (source r = pending_close))
    then (true, map (fun x => if String.eqb (session_id x) (session_id row)
                              then with_cost row (cost r) (source r) else x) table)
    else (false, table).
Proof.
  intros Hr Hn. cbn zeta. unfold _compute_and_write_cost. rewrite (find_session _ _ Hr Hn).
  unfold write_session_cost.
  set (row' := resolved zones stations sites row).
  assert (eligible row' = eligible row) as Ee' by done.
  set (r := compute_session_cost tele lookup row').
  assert (forall x, x ∈ table -> String.eqb (session_id x) (session_id row) = true -> x = row) as Hu
    by (intros x Hx E%String.eqb_eq; by eapply nodup_map_inj).
  destruct (bool_decide (source r = pending_close)) eqn:Ep.
  { by rewrite andb_false_r. }
  rewrite andb_true_r. destruct (eligible row) eqn:Ee.
  - assert (match source r with granular | fallback_average => cost r | _ => None end = cost r) as ->.
    { apply bool_decide_eq_false in Ep. subst r. unfold compute_session_cost in *.
      destruct (keeps_existing row') eqn:Ek; [apply kept_not_eligible in Ek; congruence|].
      destruct (end_time row'); [|done]. destruct (site_id row'); [|done].
      destruct (bidding_zone row') as [[|]|]; try done.
      destruct (_try_granular _ _ _ _ _) eqn:Eg; [by apply try_granular_spec in Eg as [-> _]|].
      destruct (energy_delivered_kwh row'); [|done]. destruct (_ <=?q _)%Q; [done|].
      unfold _fallback_average. destruct (_ || _); [done|]. destruct (foldl _ _ _) as [s' w].
      by destruct (w <=?q 0)%Q. }
    f_equal.
    + apply existsb_exists. exists row. split; [by apply list_elem_of_In|].
      by rewrite String.eqb_refl, Ee.
    + apply map_ext_in. intros x Hx%list_elem_of_In.
      destruct (String.eqb (session_id x) (session_id row)) eqn:E; [|done].
      rewrite (Hu x Hx E), Ee. done.
  - assert (forall x, x ∈ table -> String.eqb (session_id x) (session_id row) && eligible x = false) as Hno.
    { intros x Hx. destruct (String.eqb (session_id x) (session_id row)) eqn:E; [|done].
      by rewrite (Hu x Hx E), Ee. }
    f_equal.
    + apply not_true_iff_false. rewrite existsb_exists. intros (x & Hx%list_elem_of_In & E).
      by rewrite Hno in E.
    + rewrite <- (map_id table) at 2. apply map_ext_in. intros x Hx%list_elem_of_In. by rewrite Hno.
Qed.

(** ** Examples *)

(** 10:30 to 12:30 with prices for the hours 10 to 12. *)
Definition ex_start : Z := 10 * hour_us + 30 * minute_us.
Definition ex_end : Z := 12 * hour_us + 30 * minute_us.
Definition ex_prices : dict Z Q :=
  [(10 * hour_us, (1 # 10)%Q); (11 * hour_us, (2 # 10)%Q); (12 * hour_us, (4 # 10)%Q)].

(** Charging is seen at 10:30 and 12:20 only. *)
Definition ex_sample (t : Z) : telemetry_row :=
  {| tm_time := t; tm_vehicle_id := None; tm_station_id := Some "CP1"; tm_connector_id := Some 1;
     tm_transaction_id := Some 7; tm_charging_kw := Some 10%Q |}.
Definition ex_telemetry : list telemetry_row :=
  [ex_sample ex_start; ex_sample (ex_start + 110 * minute_us)].

Definition ex_session (energy : Q) : session_row :=
  {| session_id := "s1"; site_id := Some "depot"; vehicle_id := None; station_id := Some "CP1";
     connector_id := Some 1; transaction_id := Some 7; start_time := ex_start;
     end_time := Some ex_end; energy_delivered_kwh := Some energy; cost_total := None;
     cost_total_source := None; bidding_zone := Some "DE" |}.

Definition ex_lookup (zone : string) (start end_ : Z) : dict Z Q := ex_prices.

Lemma hour_loop_terminates_witness :
  hour_loop 5 (_normalize_hour ex_start) ex_end [] = Some [10 * hour_us; 11 * hour_us; 12 * hour_us].
Proof. exact (hour_loop_terminates ex_start ex_end 5 ltac:(vm_compute; lia)). Defined.

(** Two samples 110 minutes apart count as full coverage, at 10 kW throughout. *)
Lemma coverage_from_first_sample_witness :
  (Qsum (map observed_seconds (granular_query (fun _ => true) ex_start ex_end ex_telemetry))
   == total_seconds (ex_end - Z.max ex_start ex_start))%Q.
Proof.
  refine (coverage_from_first_sample (fun _ => true) ex_start ex_end ex_telemetry ex_start 10%Q _ _ _).
  - vm_compute. reflexivity.
  - vm_compute. discriminate.
Defined.

Lemma pauses_are_billed_witness :
  (Qsum (map energy_kwh (granular_query (fun _ => true) ex_start ex_end ex_telemetry))
   == 10 * (total_seconds (ex_end - Z.max ex_start ex_start) / 3600))%Q.
Proof.
  refine (pauses_are_billed (fun _ => true) ex_start ex_end ex_telemetry ex_start 10%Q _ 10%Q _ _ _).
  - vm_compute. reflexivity.
  - vm_compute. discriminate.
  - vm_compute. repeat constructor.
Defined.

Lemma ex_priced h : h ∈ _expected_hour_buckets ex_start ex_end -> is_Some (_price_for_hour ex_prices h).
Proof.
  assert (_expected_hour_buckets ex_start ex_end = [10 * hour_us; 11 * hour_us; 12 * hour_us]) as ->
    by (vm_compute; reflexivity).
  rewrite !elem_of_cons, elem_of_nil. intros [->|[->|[->|[]]]]; vm_compute; eauto.
Qed.

Lemma fallback_is_time_average_witness :
  ex_start < ex_end /\
  exists avg, _fallback_average 20 ex_start ex_end ex_prices
              = {| cost := Some (quantize4 (20 * avg)); source := fallback_average;
                   energy_kwh_from_telemetry := None; avg_price_used := Some avg;
                   telemetry_coverage := None |} /\
              (avg * inject_Z (ex_end - ex_start) == price_sum ex_prices ex_start ex_end)%Q.
Proof.
  assert (ex_start < ex_end) as H by (vm_compute; reflexivity).
  split; [exact H|]. exact (fallback_is_time_average 20 ex_start ex_end ex_prices H ex_priced).
Defined.

Lemma cost_rests_on_prices_witness :
  exists c e, cost (compute_session_cost ex_telemetry ex_lookup (ex_session 20)) = Some c /\
    (c == 5 # 2)%Q /\ energy_delivered_kwh (ex_session 20) = Some e /\ (0 < e)%Q.
Proof.
  destruct (cost (compute_session_cost ex_telemetry ex_lookup (ex_session 20))) as [c|] eqn:Ec;
    [|vm_compute in Ec; discriminate Ec].
  destruct (cost_rests_on_prices ex_telemetry ex_lookup (ex_session 20) c Ec) as (end_ & e & _ & H1 & H2 & _).
  { vm_compute. discriminate. }
  exists c, e. split; [reflexivity|]. split; [|split; [exact H1 | exact H2]].
  vm_compute in Ec. injection Ec as <-. reflexivity.
Defined.

(** A live session: its depot is known from the station only. *)
Definition ex_live : session_row :=
  {| session_id := "s1"; site_id := None; vehicle_id := None; station_id := Some "CP1";
     connector_id := Some 1; transaction_id := Some 7; start_time := ex_start;
     end_time := Some ex_end; energy_delivered_kwh := Some 20%Q; cost_total := None;
     cost_total_source := None; bidding_zone := None |}.
Definition ex_stations : list (string * string) := [("CP1", "depot")]%string.
Definition ex_sites : dict string site_row :=
  [("depot"%string, {| si_timezone := Some "Europe/Berlin"%string; si_entsoe_zone := Some " DE "%string |})].

Lemma pricing_keeps_final_costs_witness :
  _compute_and_write_cost (fun _ => None) ex_stations ex_sites ex_telemetry ex_lookup "s1" [ex_live]
  = (true, [with_cost ex_live
              (cost (compute_session_cost ex_telemetry ex_lookup (resolved (fun _ => None) ex_stations ex_sites ex_live)))
              granular]).
Proof.
  exact (pricing_keeps_final_costs (fun _ => None) ex_stations ex_sites ex_telemetry ex_lookup ex_live [ex_live]
           (list_elem_of_here _ _) (NoDup_singleton _)).
Defined.
