(* ===== verification/Rfid.v ===== *)
(** * Card authorisation ([src/websocket_handler/rfid_authorization.py])

    Throttling of unknown cards, the lookup of a card in the fleet's tables, the
    operators' overrides and the audit events
    ([src/websocket_handler/timescale_client.py]). The module's dictionaries are
    fields of the state; a helper of the database client that fails counts as not
    having answered, as the code treats it. Times are microseconds. *)

From S2P Require Import Prelude Models PyText.
From Stdlib Require Import ZArith Lia Ascii.
From stdpp Require Import base list strings gmap.

#[local] Open Scope Z_scope.

Definition INVALID_ATTEMPT_THRESHOLD : Z := 8.
Definition INVALID_ATTEMPT_WINDOW : Z := 60 * usec.
Definition THROTTLE_DURATION : Z := 120 * usec.

(** Station and card. *)
Definition tag_key : Type := string * string.

(** ** Tables *)

Record security_event := {
  se_station : string;
  se_recovered : bool;          (* 'rfid_authorization_recovered', else '..._invalid' *)
  se_time : Z;
  se_id_tag : string
}.

Record override_row := {
  ov_id : string;
  ov_station : string;
  ov_id_tag : string;
  ov_depot : option string;
  ov_expires_at : Z;
  ov_consumed_at : option Z
}.

Record vehicle_tag := { vt_vehicle : string; vt_site : string; vt_id_tag : string; vt_status : option string }.
Record card_tag := { ct_card : string; ct_site : string; ct_id_tag : string; ct_status : string }.

(** The reference tables; [None] is a table that does not exist. [assignments]
    gives the vehicle and driver of a card at a depot. *)
Record fleet_tables := {
  ft_vehicles : option (list vehicle_tag);
  ft_cards : option (list card_tag);
  ft_stations : list (string * string);
  ft_assignments : string -> string -> option string * option string
}.

Record identity := {
  id_vehicle : option string;
  id_driver : option string;
  id_card : option string;
  id_depot : option string
}.

(** [EXISTS (SELECT 1 FROM charging_stations ...)]. *)
Definition at_site (f : fleet_tables) (station site : string) : bool :=
  existsb (fun '(st, si) => String.eqb st station && String.eqb si site) (ft_stations f).

(** The card part of [lookup_id_tag]. *)
Definition lookup_card (f : fleet_tables) (id_tag station : string) : option identity :=
  match ft_cards f with
  | None => None
  | Some cards =>
      match List.filter (fun c => String.eqb (ct_id_tag c) id_tag
                                  && String.eqb (ct_status c) "active"
                                  && at_site f station (ct_site c)) cards with
      | [c] =>
          let '(v, d) := ft_assignments f (ct_card c) (ct_site c) in
          Some {| id_vehicle := v; id_driver := d; id_card := Some (ct_card c);
                  id_depot := Some (ct_site c) |}
      | _ => None
      end
  end.

(** A vehicle's own tag comes first; a tag that two rows share is refused. *)
Definition lookup_id_tag (f : fleet_tables) (id_tag station : string) : option identity :=
  match ft_vehicles f with
  | None => lookup_card f id_tag station
  | Some vehicles =>
      match List.filter (fun v => String.eqb (vt_id_tag v) id_tag
                                  && String.eqb (default "active"%string (vt_status v)) "active"
                                  && at_site f station (vt_site v)) vehicles with
      | [] => lookup_card f id_tag station
      | [v] => Some {| id_vehicle := Some (vt_vehicle v); id_driver := None; id_card := None;
                       id_depot := Some (vt_site v) |}
      | _ => None
      end
  end.

(** ** State *)

Record rfid_state := {
  _invalid_attempts : dict tag_key (list Z);
  _throttled_until : dict tag_key Z;
  _recovery_logged : gset tag_key;
  _pending_recovery_audit : gset tag_key;
  security_events : list security_event;
  overrides : list override_row
}.

Definition with_memory (s : rfid_state) (att : dict tag_key (list Z)) (thr : dict tag_key Z)
    (rec pend : gset tag_key) : rfid_state :=
  {| _invalid_attempts := att; _throttled_until := thr; _recovery_logged := rec;
     _pending_recovery_audit := pend; security_events := security_events s;
     overrides := overrides s |}.
Definition with_events (s : rfid_state) (e : list security_event) : rfid_state :=
  {| _invalid_attempts := _invalid_attempts s; _throttled_until := _throttled_until s;
     _recovery_logged := _recovery_logged s; _pending_recovery_audit := _pending_recovery_audit s;
     security_events := e; overrides := overrides s |}.
Definition with_overrides (s : rfid_state) (o : list override_row) : rfid_state :=
  {| _invalid_attempts := _invalid_attempts s; _throttled_until := _throttled_until s;
     _recovery_logged := _recovery_logged s; _pending_recovery_audit := _pending_recovery_audit s;
     security_events := security_events s; overrides := o |}.

Definition init_rfid (events : list security_event) (ov : list override_row) : rfid_state :=
  {| _invalid_attempts := []; _throttled_until := []; _recovery_logged := ∅;
     _pending_recovery_audit := ∅; security_events := events; overrides := ov |}.

(** ** Pruning *)

Definition fresh_attempts (now : Z) (ts : list Z) : list Z :=
  List.filter (fun t => now - t <=? INVALID_ATTEMPT_WINDOW) ts.

Definition _prune_in_memory_state (now : Z) (s : rfid_state) : rfid_state :=
  let att := omap (fun '(k, ts) => match fresh_attempts now ts with
                                    | [] => None
                                    | f => Some (k, f)
                                    end) (_invalid_attempts s) in
  let thr := List.filter (fun '(_, e) => now <? e) (_throttled_until s) in
  let active : gset tag_key := list_to_set (dkeys att ++ dkeys thr) in
  with_memory s att thr ∅ (_pending_recovery_audit s ∩ active).

(** ** The audit helpers *)

Definition count_recent_invalid_rfid_attempts (now window : Z) (k : tag_key)
    (events : list security_event) : Z :=
  Z.of_nat (length (List.filter (fun e =>
    String.eqb (se_station e) (fst k) && negb (se_recovered e) && (now - window <=? se_time e)
    && String.eqb (se_id_tag e) (snd k)) events)).

Definition record_invalid_rfid_attempt (now : Z) (k : tag_key) (events : list security_event)
  : list security_event :=
  events ++ [{| se_station := fst k; se_recovered := false; se_time := now; se_id_tag := snd k |}].

Definition clear_invalid_rfid_attempts (now : Z) (k : tag_key) (events : list security_event)
  : list security_event :=
  if count_recent_invalid_rfid_attempts now (300 * usec) k events =? 0 then events
  else events ++ [{| se_station := fst k; se_recovered := true; se_time := now; se_id_tag := snd k |}].

(** Claim every unexpired override of the tag, else reuse one consumed within
    the last 120 s. *)
Definition consume_operator_override (now : Z) (k : tag_key) (l : list override_row)
  : option override_row * list override_row :=
  let mine o := String.eqb (ov_station o) (fst k) && String.eqb (ov_id_tag o) (snd k) in
  let claimable o := mine o && match ov_consumed_at o with None => true | Some _ => false end
                     && (now <? ov_expires_at o) in
  let claim o := {| ov_id := ov_id o; ov_station := ov_station o; ov_id_tag := ov_id_tag o;
                    ov_depot := ov_depot o; ov_expires_at := ov_expires_at o;
                    ov_consumed_at := Some now |} in
  match List.filter claimable l with
  | o :: _ => (Some (claim o), map (fun o => if claimable o then claim o else o) l)
  | [] => (List.find (fun o => mine o && match ov_consumed_at o with
                                          | Some c => now - 120 * usec <? c
                                          | None => false
                                          end) l, l)
  end.

(** ** Decisions *)

Inductive RFIDAuthStatus := AUTH_ACCEPTED | AUTH_INVALID | AUTH_EXPIRED | AUTH_BLOCKED | CONCURRENT_TX.

#[export] Instance auth_status_eq_dec : EqDecision RFIDAuthStatus.
Proof. solve_decision. Defined.

Definition map_auth_status_to_ocpp201 (s : RFIDAuthStatus) : string :=
  match s with
  | AUTH_ACCEPTED => "Accepted" | AUTH_EXPIRED => "Expired" | AUTH_BLOCKED => "Blocked"
  | CONCURRENT_TX => "ConcurrentTx" | AUTH_INVALID => "Invalid"
  end.

Record RFIDAuthDecision := {
  rd_status : RFIDAuthStatus;
  rd_reason : string;
  rd_identity : option identity
}.

Definition deny (s : RFIDAuthStatus) (reason : string) : RFIDAuthDecision :=
  {| rd_status := s; rd_reason := reason; rd_identity := None |}.

Definition user_message_for (d : RFIDAuthDecision) : string :=
  match rd_status d with
  | AUTH_ACCEPTED => "Authorized"
  | AUTH_EXPIRED => "RFID card expired"
  | AUTH_BLOCKED => "RFID temporarily blocked — too many failed attempts"
  | CONCURRENT_TX => "Charger already in use"
  | AUTH_INVALID => "Unknown RFID card"
  end.

(** What the world answers during one call. *)
Record auth_env := {
  ae_throttle_now : Z;            (* [time.time()] in [_is_throttled] *)
  ae_record_now : Z;              (* [time.time()] in [_record_invalid_attempt] *)
  ae_count_ok : bool;
  ae_lookup_ok : bool;
  ae_override_ok : bool;
  ae_record_ok : bool;
  ae_clear_ok : bool
}.

Section Service.
Context (fleet : fleet_tables) (env : auth_env).

Definition _is_throttled (k : tag_key) (s : rfid_state) : bool * rfid_state :=
  let now := ae_throttle_now env in
  let s := _prune_in_memory_state now s in
  (ae_count_ok env
   && (INVALID_ATTEMPT_THRESHOLD
       <=? count_recent_invalid_rfid_attempts now INVALID_ATTEMPT_WINDOW k (security_events s))
   || match _throttled_until s @? k with
      | Some e => negb (e =? 0) && (now <? e)
      | None => false
      end, s).

Definition _record_invalid_attempt (k : tag_key) (s : rfid_state) : rfid_state :=
  let now := ae_record_now env in
  let s := if ae_record_ok env
           then with_events s (record_invalid_rfid_attempt now k (security_events s)) else s in
  let s := _prune_in_memory_state now s in
  let attempts := fresh_attempts now (dget_or (_invalid_attempts s) k []) ++ [now] in
  with_memory s (_invalid_attempts s +{ k := attempts })
    (if INVALID_ATTEMPT_THRESHOLD <=? Z.of_nat (length attempts)
     then _throttled_until s +{ k := now + THROTTLE_DURATION } else _throttled_until s)
    (_recovery_logged s ∖ {[ k ]}) ({[ k ]} ∪ _pending_recovery_audit s).

(** After a card was found. *)
Definition accept (k : tag_key) (s : rfid_state) : rfid_state :=
  let att := dpop k (_invalid_attempts s) in
  let thr := dpop k (_throttled_until s) in
  if bool_decide (k ∈ _recovery_logged s)
  then with_memory s att thr (_recovery_logged s) (_pending_recovery_audit s)
  else if bool_decide (k ∈ _pending_recovery_audit s)
  then let s := if ae_clear_ok env
                then with_events s (clear_invalid_rfid_attempts (ae_throttle_now env) k
                                      (security_events s)) else s in
       with_memory s att thr ({[ k ]} ∪ _recovery_logged s) (_pending_recovery_audit s ∖ {[ k ]})
  else with_memory s att thr ({[ k ]} ∪ _recovery_logged s) (_pending_recovery_audit s).

Definition authorize (station id_tag : string) (s : rfid_state) : RFIDAuthDecision * rfid_state :=
  if String.eqb (strip id_tag) "" then (deny AUTH_INVALID "missing_id_tag", s)
  else
    let k := (station, id_tag) in
    let '(throttled, s) := _is_throttled k s in
    if throttled then (deny AUTH_BLOCKED "too_many_invalid_attempts", s)
    else match (if ae_lookup_ok env then lookup_id_tag fleet id_tag station else None) with
    | Some who =>
        ({| rd_status := AUTH_ACCEPTED; rd_reason := "identity_matched"; rd_identity := Some who |},
         accept k s)
    | None =>
        let '(override, s) :=
          if ae_override_ok env
          then let '(o, l) := consume_operator_override (ae_throttle_now env) k (overrides s) in
               (o, with_overrides s l)
          else (None, s) in
        match override with
        | Some o =>
            ({| rd_status := AUTH_ACCEPTED; rd_reason := "operator_override";
                rd_identity := Some {| id_vehicle := None; id_driver := None; id_card := None;
                                       id_depot := ov_depot o |} |}, s)
        | None =>
            if ae_lookup_ok env
            then (deny AUTH_INVALID "unknown_id_tag", _record_invalid_attempt k s)
            else (deny AUTH_INVALID "lookup_error", s)
        end
    end.
End Service.
