(* ===== verification/RfidFacts.v ===== *)
(** * Properties of card authorisation

    Who is let in, that an unknown card tried eight times within a minute is kept
    out for two minutes whatever the database does, and when the audit trail gets
    a recovery event. *)

From S2P Require Import Prelude Models PyText Rfid.
From Stdlib Require Import ZArith Lia Ascii.
From stdpp Require Import base list strings gmap sorting.

#[local] Open Scope Z_scope.

(** ** Pruning, key by key *)

Lemma fresh_attempts_twice a b ts : a <= b -> fresh_attempts b (fresh_attempts a ts) = fresh_attempts b ts.
Proof.
  intros Hab. apply (lfilter_window (fun now t => now - t <=? INVALID_ATTEMPT_WINDOW)).
  intros t. rewrite !Z.leb_le. lia.
Qed.

Lemma fresh_attempts_app now l1 l2 : fresh_attempts now (l1 ++ l2) = fresh_attempts now l1 ++ fresh_attempts now l2.
Proof. apply List.filter_app. Qed.

(** The pruned attempts of one key. *)
Lemma prune_attempts now s k :
  dict_wf (_invalid_attempts s) ->
  dget_or (_invalid_attempts (_prune_in_memory_state now s)) k []
  = fresh_attempts now (dget_or (_invalid_attempts s) k []).
Proof.
  cbn [_invalid_attempts _prune_in_memory_state with_memory]. unfold dict_wf, dget_or.
  induction (_invalid_attempts s) as [|[k' ts] d IH]; [done|]. cbn [dkeys map fst]. intros Hn.
  apply NoDup_cons in Hn as [Hk Hn]. cbn [omap list_omap].
  assert (k' = k -> dget d k = None) as Hnone.
  { intros ->. by apply dget_None_keys. }
  destruct (fresh_attempts now ts) as [|t f] eqn:Ef; cbn [dget].
  - destruct (decide (k' = k)) as [->|Hne]; [|rewrite decide_False by done; auto].
    rewrite IH by done. rewrite (Hnone eq_refl), decide_True by done. exact (eq_sym Ef).
  - destruct (decide (k' = k)) as [->|Hne].
    + rewrite !decide_True by done. exact (eq_sym Ef).
    + rewrite !decide_False by done. auto.
Qed.

Lemma prune_throttle now s k :
  dict_wf (_throttled_until s) ->
  _throttled_until (_prune_in_memory_state now s) @? k
  = match _throttled_until s @? k with Some e => if now <? e then Some e else None | None => None end.
Proof.
  cbn [_throttled_until _prune_in_memory_state with_memory]. unfold dict_wf.
  induction (_throttled_until s) as [|[k' e] d IH]; [done|]. cbn [dkeys map fst]. intros Hn.
  apply NoDup_cons in Hn as [Hk Hn]. cbn [List.filter dget].
  destruct (now <? e) eqn:E; cbn [dget]; destruct (decide (k' = k)) as [->|Hne];
    rewrite ?decide_True, ?decide_False by done; auto.
  - by rewrite E.
  - rewrite IH, E by done. by rewrite (proj2 (dget_None_keys d k) Hk).
Qed.

Lemma prune_wf now s :
  dict_wf (_invalid_attempts s) -> dict_wf (_throttled_until s) ->
  dict_wf (_invalid_attempts (_prune_in_memory_state now s)) /\
  dict_wf (_throttled_until (_prune_in_memory_state now s)).
Proof.
  cbn [_invalid_attempts _throttled_until _prune_in_memory_state with_memory]. unfold dict_wf, dkeys.
  intros H1 H2. split.
  - eapply sublist_NoDup; [exact H1|].
    induction (_invalid_attempts s) as [|[k ts] d IH]; cbn; [constructor|].
    apply NoDup_cons in H1 as [_ H1]. destruct (fresh_attempts now ts); cbn; constructor; auto.
  - eapply sublist_NoDup; [exact H2|].
    induction (_throttled_until s) as [|[k e] d IH]; cbn; [constructor|].
    apply NoDup_cons in H2 as [_ H2]. destruct (now <? e); cbn; constructor; auto.
Qed.

(** ** Runs of the service

    The log holds, for each card, the times of the refusals as unknown since the
    card was last accepted. *)

Definition auth_log : Type := list (tag_key * Z).

Definition times (k : tag_key) (log : auth_log) : list Z :=
  omap (fun '(k', t) => if decide (k' = k) then Some t else None) log.

Definition log_step (k : tag_key) (t : Z) (d : RFIDAuthDecision) (log : auth_log) : auth_log :=
  if String.eqb (rd_reason d) "unknown_id_tag" then log ++ [(k, t)]
  else if String.eqb (rd_reason d) "identity_matched" then List.filter (fun '(k', _) => negb (bool_decide (k' = k))) log
  else log.

Inductive auth_run : Z -> auth_log -> rfid_state -> Prop :=
| run_start t events ov : 0 <= t -> auth_run t [] (init_rfid events ov)
| run_call t log s fleet env station tag d s' :
    auth_run t log s -> t <= ae_throttle_now env -> ae_throttle_now env <= ae_record_now env ->
    authorize fleet env station tag s = (d, s') ->
    auth_run (ae_record_now env) (log_step (station, tag) (ae_record_now env) d log) s'.

Lemma times_snoc k k' t log :
  times k (log ++ [(k', t)]) = if decide (k' = k) then times k log ++ [t] else times k log.
Proof.
  unfold times. rewrite omap_app. cbn. destruct (decide (k' = k)); [done|]. apply app_nil_r.
Qed.

Lemma times_drop k k' log :
  times k (List.filter (fun '(x, _) => negb (bool_decide (x = k'))) log)
  = if decide (k' = k) then [] else times k log.
Proof.
  unfold times. induction log as [|[x t] log IH]; cbn [List.filter]; [by destruct (decide _)|].
  destruct (bool_decide_reflect (x = k')) as [->|Hne]; cbn [negb omap list_omap].
  - rewrite IH. by destruct (decide (k' = k)).
  - destruct (decide (x = k)) as [->|]; [|exact IH].
    rewrite IH. by destruct (decide (k' = k)) as [->|].
Qed.

(** Nine refusals in a row: when the first eight lie within a minute, the ninth
    comes two minutes later. *)
Definition spaced (L : list Z) : Prop :=
  forall i a b c, L !! i = Some a -> L !! (i + 7)%nat = Some b -> L !! (i + 8)%nat = Some c ->
    b - a <= INVALID_ATTEMPT_WINDOW -> b + THROTTLE_DURATION <= c.

Record key_inv (t : Z) (L : list Z) (k : tag_key) (s : rfid_state) : Prop := {
  ki_sorted : StronglySorted Z.le L;
  ki_bound : Forall (fun x => 0 <= x <= t) L;
  ki_attempts : forall t', t <= t' -> fresh_attempts t' (dget_or (_invalid_attempts s) k []) = fresh_attempts t' L;
  ki_spaced : spaced L;
  ki_throttle : forall j a b, length L = (j + 8)%nat -> L !! j = Some a -> last L = Some b ->
    b - a <= INVALID_ATTEMPT_WINDOW -> t < b + THROTTLE_DURATION ->
    _throttled_until s @? k = Some (b + THROTTLE_DURATION)
}.

Definition memory_wf (s : rfid_state) : Prop :=
  dict_wf (_invalid_attempts s) /\ dict_wf (_throttled_until s).

Lemma key_inv_mem t L k s s' :
  _invalid_attempts s' = _invalid_attempts s -> _throttled_until s' = _throttled_until s ->
  key_inv t L k s -> key_inv t L k s'.
Proof. intros E1 E2 []. constructor; rewrite ?E1, ?E2; done. Qed.

Lemma key_inv_later t t' L k s : t <= t' -> key_inv t L k s -> key_inv t' L k s.
Proof.
  intros Ht []. constructor; try done.
  - eapply Forall_impl; [done|]. cbn. lia.
  - intros u Hu. apply ki_attempts0. lia.
  - intros j a b H1 H2 H3 H4 H5. eapply ki_throttle0; eauto. lia.
Qed.

Lemma prune_key_inv t now L k s :
  t <= now -> memory_wf s -> key_inv t L k s -> key_inv now L k (_prune_in_memory_state now s).
Proof.
  intros Ht [Hw1 Hw2] Hi. apply (key_inv_later t now) in Hi; [|done]. destruct Hi as [H1 H2 H3 H4 H5].
  constructor; try done.
  - intros t' Ht'. rewrite prune_attempts by done. rewrite fresh_attempts_twice by done. auto.
  - intros j a b Ha Hb Hc Hd He. rewrite prune_throttle by done. erewrite H5 by eauto.
    by rewrite (proj2 (Z.ltb_lt _ _) He).
Qed.

Lemma sorted_fresh now L j a :
  StronglySorted Z.le L -> L !! j = Some a -> now - a <= INVALID_ATTEMPT_WINDOW ->
  (length L - j <= length (fresh_attempts now L))%nat.
Proof.
  intros Hs Hj Ha. rewrite <- (take_drop j L) at 2. rewrite fresh_attempts_app, length_app.
  assert (fresh_attempts now (drop j L) = drop j L) as ->; [|rewrite length_drop; lia].
  revert j Hj. induction Hs as [|x L Hs IH Hf]; intros [|j] Hj; cbn in Hj |- *; try done.
  - injection Hj as ->. assert (forall y, y ∈ L -> a <= y) as Hge by (by apply Forall_forall).
    rewrite (proj2 (Z.leb_le _ _)) by lia. f_equal. clear -Hge Ha.
    induction L as [|y L IH]; [done|]. cbn. specialize (Hge y ltac:(left)) as Hy.
    rewrite (proj2 (Z.leb_le _ _)) by lia. f_equal. apply IH. intros z Hz. apply Hge. by right.
  - by apply IH.
Qed.

(** Recording a refusal for [k]; [asked] is when the throttle was looked at. *)
Lemma record_key_inv env t asked k L s :
  memory_wf s -> t <= asked -> 0 <= asked -> asked <= ae_record_now env ->
  (forall e, _throttled_until s @? k = Some e -> e <= asked) ->
  key_inv t L k s -> key_inv (ae_record_now env) (L ++ [ae_record_now env]) k (_record_invalid_attempt env k s).
Proof.
  intros Hw Ht H0 Hle Hfree Hi. set (now := ae_record_now env) in *.
  set (s1 := if ae_record_ok env
             then with_events s (record_invalid_rfid_attempt now k (security_events s)) else s).
  assert (key_inv t L k s1 /\ memory_wf s1) as [Hi1 Hw1].
  { subst s1. destruct (ae_record_ok env); [|done]. split; [by apply (key_inv_mem _ _ _ s) | done]. }
  assert (spaced (L ++ [now])) as Hsp.
  { intros i a b c Ha Hb Hc Hab. destruct (decide (i + 8 < length L)%nat) as [Hlt|Hge].
    - rewrite lookup_app_l in Ha by lia. rewrite lookup_app_l in Hb by lia. rewrite lookup_app_l in Hc by lia.
      exact (ki_spaced _ _ _ _ Hi i a b c Ha Hb Hc Hab).
    - pose proof (lookup_lt_Some _ _ _ Hc) as Hlen. rewrite length_app in Hlen. cbn in Hlen.
      assert (length L = i + 8)%nat as El by lia.
      rewrite lookup_app_l in Ha by lia. rewrite lookup_app_l in Hb by lia.
      rewrite lookup_app_r in Hc by lia. replace (i + 8 - length L)%nat with 0%nat in Hc by lia.
      injection Hc as <-. assert (last L = Some b) as Hl by (rewrite last_lookup, El, <- Hb; f_equal; lia).
      destruct (Z.lt_ge_cases asked (b + THROTTLE_DURATION)) as [Hbad|]; [|lia].
      specialize (Hfree _ (ki_throttle _ _ _ _ Hi i a b El Ha Hl Hab ltac:(lia))). lia. }
  pose proof (prune_key_inv t now L k s1 ltac:(lia) Hw1 Hi1) as [P1 P2 P3 P4 P5].
  unfold _record_invalid_attempt. fold s1 now. set (s2 := _prune_in_memory_state now s1) in *.
  constructor; cbn [_invalid_attempts _throttled_until with_memory].
  - apply sorted_snoc_le; [done|]. eapply Forall_impl; [done|]. cbn. lia.
  - apply Forall_app. split; [done|]. constructor; [lia | constructor].
  - intros t' Ht'. unfold dget_or at 1. rewrite dget_dset_eq. cbn [default from_option].
    change (id ?x) with x. rewrite !fresh_attempts_app, fresh_attempts_twice by done. by rewrite P3.
  - exact Hsp.
  - intros j a b El Ha Hl Hab _. rewrite last_snoc in Hl. injection Hl as <-.
    rewrite length_app in El. cbn in El. rewrite lookup_app_l in Ha by lia.
    pose proof (sorted_fresh now L j a P1 Ha ltac:(lia)) as Hn.
    rewrite P3 by lia. rewrite length_app. cbn [length].
    unfold INVALID_ATTEMPT_THRESHOLD. rewrite (proj2 (Z.leb_le _ _)) by lia. apply dget_dset_eq.
Qed.

Lemma record_other env t k k' L s :
  memory_wf s -> t <= ae_record_now env -> k <> k' ->
  key_inv t L k' s -> key_inv (ae_record_now env) L k' (_record_invalid_attempt env k s).
Proof.
  intros Hw Ht Hne Hi. set (now := ae_record_now env) in *.
  set (s1 := if ae_record_ok env
             then with_events s (record_invalid_rfid_attempt now k (security_events s)) else s).
  assert (key_inv t L k' s1 /\ memory_wf s1) as [Hi1 Hw1].
  { subst s1. destruct (ae_record_ok env); [|done]. split; [by apply (key_inv_mem _ _ _ s) | done]. }
  pose proof (prune_key_inv t now L k' s1 Ht Hw1 Hi1) as [P1 P2 P3 P4 P5].
  unfold _record_invalid_attempt. fold s1 now. set (s2 := _prune_in_memory_state now s1) in *.
  constructor; cbn [_invalid_attempts _throttled_until with_memory]; try done.
  - intros t' Ht'. unfold dget_or at 1. rewrite dget_dset_ne by done. by apply P3.
  - intros j a b H1 H2 H3 H4 H5. destruct (_ <=? _); [rewrite dget_dset_ne by done|]; by eapply P5.
Qed.

Lemma record_wf env k s : memory_wf s -> memory_wf (_record_invalid_attempt env k s).
Proof.
  intros Hw. unfold _record_invalid_attempt, memory_wf. cbn [_invalid_attempts _throttled_until with_memory].
  set (s1 := if ae_record_ok env then _ else s).
  assert (memory_wf s1) as [H1 H2] by (subst s1; by destruct (ae_record_ok env)).
  destruct (prune_wf (ae_record_now env) s1 H1 H2) as [H3 H4].
  split; [by apply dict_wf_dset|]. destruct (_ <=? _); [by apply dict_wf_dset | done].
Qed.

Lemma accept_memory env k s :
  _invalid_attempts (accept env k s) = dpop k (_invalid_attempts s) /\
  _throttled_until (accept env k s) = dpop k (_throttled_until s).
Proof. unfold accept. destruct (bool_decide _); [done|]. destruct (bool_decide _); done. Qed.

Lemma accept_key_inv env t k k' L s :
  key_inv t L k' s -> key_inv t (if decide (k = k') then [] else L) k' (accept env k s).
Proof.
  intros [H1 H2 H3 H4 H5]. destruct (accept_memory env k s) as [E1 E2].
  destruct (decide (k = k')) as [->|Hne].
  - constructor; try done; [constructor..|].
    intros t' _. unfold dget_or. rewrite E1, dget_dpop_eq. done.
  - constructor; try done; unfold dget_or; rewrite ?E1, ?E2, ?dget_dpop_ne by done; done.
Qed.

Lemma throttle_passed env k s s' :
  0 <= ae_throttle_now env -> _is_throttled env k s = (false, s') ->
  s' = _prune_in_memory_state (ae_throttle_now env) s /\
  forall e, _throttled_until s' @? k = Some e -> e <= ae_throttle_now env.
Proof.
  intros H0 E. unfold _is_throttled in E. pose proof (f_equal snd E) as Es. cbn [snd] in Es. subst s'.
  split; [done|]. pose proof (f_equal fst E) as H. cbn [fst] in H.
  apply orb_false_iff in H as [_ H]. intros e He. rewrite He in H.
  apply andb_false_iff in H as [H|H]; [apply negb_false_iff, Z.eqb_eq in H; lia | by apply Z.ltb_ge].
Qed.

Lemma times_step k k' t d log :
  times k' (log_step k t d log)
  = if String.eqb (rd_reason d) "unknown_id_tag" then (if decide (k = k') then times k' log ++ [t] else times k' log)
    else if String.eqb (rd_reason d) "identity_matched" then (if decide (k = k') then [] else times k' log)
    else times k' log.
Proof.
  unfold log_step. destruct (String.eqb (rd_reason d) "unknown_id_tag"); [apply times_snoc|].
  destruct (String.eqb (rd_reason d) "identity_matched"); [apply times_drop | done].
Qed.

(** The log after a decision whose reason is known. *)
Ltac known_reason := rewrite times_step; cbn [rd_reason deny String.eqb Ascii.eqb Bool.eqb].

(** One call keeps the invariant of every card. *)
Lemma authorize_inv fleet env st tag t log s d s' :
  0 <= t -> memory_wf s -> (forall k, key_inv t (times k log) k s) ->
  t <= ae_throttle_now env -> ae_throttle_now env <= ae_record_now env ->
  authorize fleet env st tag s = (d, s') ->
  memory_wf s' /\
  forall k, key_inv (ae_record_now env) (times k (log_step (st, tag) (ae_record_now env) d log)) k s'.
Proof.
  intros H0 Hw Hi Ht Hr H. unfold authorize in H. set (asked := ae_throttle_now env) in *.
  assert (memory_wf (_prune_in_memory_state asked s)) as Hwp by (apply prune_wf; apply Hw).
  assert (forall k, key_inv asked (times k log) k (_prune_in_memory_state asked s)) as Hp
    by (intros k; by apply (prune_key_inv t)).
  destruct (String.eqb (strip tag) "").
  { injection H as <- <-. split; [done|]. intros k. known_reason. apply (key_inv_later t); [lia | done]. }
  destruct (_is_throttled env (st, tag) s) as [[] s1] eqn:Et.
  { unfold _is_throttled in Et. injection Et as _ <-. injection H as <- <-. split; [done|].
    intros k. known_reason. by apply (key_inv_later asked). }
  apply throttle_passed in Et as [-> Hfree]; [|lia]. fold asked in H, Hfree.
  destruct (if ae_lookup_ok env then lookup_id_tag fleet tag st else None) as [who|].
  { injection H as <- <-. destruct (accept_memory env (st, tag) (_prune_in_memory_state asked s)) as [E1 E2].
    split; [unfold memory_wf; rewrite E1, E2; split; apply dict_wf_dpop, Hwp|].
    intros k. known_reason.
    apply (key_inv_later asked); [done|]. by apply accept_key_inv. }
  destruct (if ae_override_ok env then _ else _) as [o s2] eqn:Eo.
  assert (_invalid_attempts s2 = _invalid_attempts (_prune_in_memory_state asked s) /\
          _throttled_until s2 = _throttled_until (_prune_in_memory_state asked s)) as [E1 E2].
  { destruct (ae_override_ok env); [|by injection Eo as _ <-].
    destruct (consume_operator_override _ _ _) as [o' l]. by injection Eo as _ <-. }
  assert (forall k, key_inv asked (times k log) k s2) as Hp2 by (intros k; by eapply key_inv_mem).
  assert (memory_wf s2) as Hw2 by (unfold memory_wf; rewrite E1, E2; exact Hwp).
  destruct o as [o|]; [|destruct (ae_lookup_ok env)]; injection H as <- <-.
  - split; [done|]. intros k. known_reason. by apply (key_inv_later asked).
  - split; [by apply record_wf|]. intros k. known_reason.
    destruct (decide ((st, tag) = k)) as [<-|Hne].
    + rewrite decide_True by done. apply (record_key_inv env asked asked); [done | done | lia | done | | done]. by rewrite E2.
    + rewrite decide_False by done. by apply (record_other env asked).
  - split; [done|]. intros k. known_reason. by apply (key_inv_later asked).
Qed.

Lemma auth_run_inv t log s :
  auth_run t log s -> 0 <= t /\ memory_wf s /\ forall k, key_inv t (times k log) k s.
Proof.
  induction 1 as [t events ov H0|t log s fleet env st tag d s' _ (H0 & Hw & Hi) Ht Hr Ha].
  - split_and!; [done | split; constructor |]. intros k. constructor; try done; constructor.
  - split; [lia|]. by eapply authorize_inv.
Qed.

(** Of nine consecutive refusals of a card as unknown since it was last accepted, if the
    first eight lie within 60 seconds then the ninth comes at least 120 seconds after
    the eighth, over all sequences of calls and whatever the database's helpers answer.
    *)
Theorem unknown_cards_throttled t log s k i a b c :
  auth_run t log s ->
  times k log !! i = Some a -> times k log !! (i + 7)%nat = Some b -> times k log !! (i + 8)%nat = Some c ->
  b - a <= 60 * usec -> b + 120 * usec <= c.
Proof. intros H. destruct (auth_run_inv _ _ _ H) as (_ & _ & Hi). apply (ki_spaced _ _ _ _ (Hi k)). Qed.

(** ** Who is let in *)

(** An active vehicle tag or card of a site the station stands at. *)
Definition known_card (f : fleet_tables) (station tag : string) : Prop :=
  (exists vs v, ft_vehicles f = Some vs /\ v ∈ vs /\ vt_id_tag v = tag /\
     default "active"%string (vt_status v) = "active"%string /\ at_site f station (vt_site v) = true) \/
  (exists cs c, ft_cards f = Some cs /\ c ∈ cs /\ ct_id_tag c = tag /\
     ct_status c = "active"%string /\ at_site f station (ct_site c) = true).

(** An override is consumed before it expires. *)
Definition override_wf (o : override_row) : Prop :=
  match ov_consumed_at o with Some c => c < ov_expires_at o | None => True end.

Lemma lookup_card_known f tag station who : lookup_card f tag station = Some who -> known_card f station tag.
Proof.
  unfold lookup_card. destruct (ft_cards f) as [cs|] eqn:Ec; [|done].
  destruct (List.filter _ cs) as [|c [|]] eqn:Ef; try done. intros _. right. exists cs, c.
  assert (In c (List.filter (fun c => String.eqb (ct_id_tag c) tag && String.eqb (ct_status c) "active"
                                      && at_site f station (ct_site c)) cs)) as Hin by (rewrite Ef; by left).
  apply filter_In in Hin as [Hin Hc]. apply andb_prop in Hc as [Hc Hs]. apply andb_prop in Hc as [H1 H2].
  apply String.eqb_eq in H1, H2. split_and!; try done. by apply list_elem_of_In.
Qed.

Lemma lookup_known f tag station who : lookup_id_tag f tag station = Some who -> known_card f station tag.
Proof.
  unfold lookup_id_tag. destruct (ft_vehicles f) as [vs|] eqn:Ev; [|apply lookup_card_known].
  destruct (List.filter _ vs) as [|v [|]] eqn:Ef; [apply lookup_card_known | | done]. intros _. left.
  exists vs, v.
  assert (In v (List.filter (fun v => String.eqb (vt_id_tag v) tag
                                      && String.eqb (default "active"%string (vt_status v)) "active"
                                      && at_site f station (vt_site v)) vs)) as Hin by (rewrite Ef; by left).
  apply filter_In in Hin as [Hin Hc]. apply andb_prop in Hc as [Hc Hs]. apply andb_prop in Hc as [H1 H2].
  apply String.eqb_eq in H1, H2. split_and!; try done. by apply list_elem_of_In.
Qed.

Lemma consume_wf now k l : Forall override_wf l -> Forall override_wf (snd (consume_operator_override now k l)).
Proof.
  intros Hl. unfold consume_operator_override. destruct (List.filter _ l); [exact Hl|]. cbn [snd].
  apply Forall_forall. intros x Ho. apply list_elem_of_In, in_map_iff in Ho as (o' & <- & Ho).
  apply list_elem_of_In in Ho. pose proof (proj1 (Forall_forall _ _) Hl _ Ho).
  destruct (_ && (now <? ov_expires_at o')) eqn:E; [|done].
  apply andb_prop in E as [_ E]. apply Z.ltb_lt in E. exact E.
Qed.

Lemma consume_sound now k l o l' :
  Forall override_wf l -> consume_operator_override now k l = (Some o, l') ->
  exists o', o' ∈ l /\ ov_station o' = fst k /\ ov_id_tag o' = snd k /\ now < ov_expires_at o' + 120 * usec.
Proof.
  intros Hl. unfold consume_operator_override.
  destruct (List.filter _ l) as [|o' r] eqn:Ef; intros H; injection H as H _.
  - apply find_some in H as [Hin H]. apply andb_prop in H as [H Hc]. apply andb_prop in H as [H1 H2].
    apply String.eqb_eq in H1, H2. apply list_elem_of_In in Hin. exists o. split_and!; try done.
    pose proof (proj1 (Forall_forall _ _) Hl _ Hin) as Hw. unfold override_wf in Hw.
    destruct (ov_consumed_at o) as [c|]; [|done]. apply Z.ltb_lt in Hc. lia.
  - eassert (In o' (List.filter _ l)) as Hin by (rewrite Ef; by left).
    apply filter_In in Hin as [Hin H']. apply andb_prop in H' as [H' He]. apply andb_prop in H' as [H' _].
    apply andb_prop in H' as [H1 H2]. apply String.eqb_eq in H1, H2. apply Z.ltb_lt in He.
    exists o'. split_and!; try done; [by apply list_elem_of_In | unfold usec; lia].
Qed.

Lemma accept_overrides env k s : overrides (accept env k s) = overrides s.
Proof. unfold accept. destruct (bool_decide _); [done|]. destruct (bool_decide _); [|done]. by destruct (ae_clear_ok env). Qed.

Lemma record_overrides env k s : overrides (_record_invalid_attempt env k s) = overrides s.
Proof. unfold _record_invalid_attempt. cbn. by destruct (ae_record_ok env). Qed.

(** Which cards are accepted. *)
Lemma accepted_is_known fleet env station tag s d s' :
  Forall override_wf (overrides s) -> authorize fleet env station tag s = (d, s') ->
  Forall override_wf (overrides s') /\
  (rd_status d = AUTH_ACCEPTED ->
    strip tag <> ""%string /\ fst (_is_throttled env (station, tag) s) = false /\
    (ae_lookup_ok env = true /\ known_card fleet station tag \/
     ae_override_ok env = true /\
     exists o, o ∈ overrides s /\ ov_station o = station /\ ov_id_tag o = tag /\
       ae_throttle_now env < ov_expires_at o + 120 * usec)).
Proof.
  intros Hw H. unfold authorize in H.
  destruct (String.eqb_spec (strip tag) "") as [|Hblank]; [injection H as <- <-; done|].
  destruct (_is_throttled env (station, tag) s) as [th s1] eqn:Et.
  assert (overrides s1 = overrides s) as E1 by (unfold _is_throttled in Et; by injection Et as _ <-).
  destruct th; [injection H as <- <-; by rewrite E1|]. cbn [fst].
  destruct (if ae_lookup_ok env then _ else _) as [who|] eqn:El.
  { injection H as <- <-. rewrite accept_overrides, E1. split; [done|]. intros _. split_and!; try done. left.
    destruct (ae_lookup_ok env); [|done]. split; [done|]. by eapply lookup_known. }
  rewrite E1 in H. clear El.
  destruct (ae_override_ok env).
  - destruct (consume_operator_override _ _ _) as [o l] eqn:Eo. cbn beta iota zeta in H.
    pose proof (consume_wf (ae_throttle_now env) (station, tag) (overrides s) Hw) as Hl. rewrite Eo in Hl.
    destruct o as [o|]; [|destruct (ae_lookup_ok env)]; injection H as <- <-;
      rewrite ?record_overrides; (split; [exact Hl|]); try done.
    intros _. split_and!; try done. right. split; [done|]. exact (consume_sound _ _ _ _ _ Hw Eo).
  - destruct (ae_lookup_ok env); injection H as <- <-; rewrite ?record_overrides, ?E1; split; done.
Qed.

(** A card is accepted only if its tag is not blank, it is not throttled, and either an
    active vehicle tag or card of a depot the station belongs to carries it, or an
    operator's override for that station and tag exists that has expired at most 120
    seconds ago; the overrides stay sound. *)
Theorem only_known_cards_accepted fleet env station tag s d s' :
  Forall override_wf (overrides s) -> authorize fleet env station tag s = (d, s') ->
  Forall override_wf (overrides s') /\
  (rd_status d = AUTH_ACCEPTED ->
    strip tag <> ""%string /\ fst (_is_throttled env (station, tag) s) = false /\
    (ae_lookup_ok env = true /\ known_card fleet station tag \/
     ae_override_ok env = true /\
     exists o, o ∈ overrides s /\ ov_station o = station /\ ov_id_tag o = tag /\
       ae_throttle_now env < ov_expires_at o + 120 * usec)).
Proof. apply accepted_is_known. Qed.

(** A success that comes when the last refusal is over a minute old and no block
    is running leaves no recovery event. *)
Theorem late_success_writes_no_recovery fleet env station tag s d s' :
  memory_wf s -> authorize fleet env station tag s = (d, s') -> rd_reason d = "identity_matched"%string ->
  fresh_attempts (ae_throttle_now env) (dget_or (_invalid_attempts s) (station, tag) []) = [] ->
  (forall e, _throttled_until s @? (station, tag) = Some e -> e <= ae_throttle_now env) ->
  security_events s' = security_events s.
Proof.
  intros [Hw1 Hw2] H Hr Hf Hth. unfold authorize in H. set (now := ae_throttle_now env) in *.
  set (k := (station, tag)) in *. set (p := _prune_in_memory_state now s).
  assert (k ∉ _pending_recovery_audit p) as Hpend.
  { intros Hin. subst p. unfold _prune_in_memory_state in Hin. cbn [_pending_recovery_audit with_memory] in Hin.
    apply elem_of_intersection in Hin as [_ Hin]. apply elem_of_list_to_set, elem_of_app in Hin as [Hin|Hin].
    - apply list_elem_of_In, in_map_iff in Hin as ([k' ts] & Ek & Hin). cbn in Ek. subst k'.
      apply list_elem_of_In, list_elem_of_omap in Hin as ([k' ts'] & Hin & Ep).
      destruct (fresh_attempts now ts') as [|x f] eqn:E; [done|]. injection Ep as -> _.
      unfold dget_or in Hf. rewrite (dget_in_wf _ _ _ Hw1 Hin) in Hf. change (fresh_attempts now ts' = []) in Hf. congruence.
    - apply list_elem_of_In, in_map_iff in Hin as ([k' e] & Ek & Hin). cbn in Ek. subst k'.
      apply filter_In in Hin as [Hin He]. apply Z.ltb_lt in He. apply list_elem_of_In in Hin.
      specialize (Hth e (dget_in_wf _ _ _ Hw2 Hin)). lia. }
  destruct (String.eqb (strip tag) ""); [injection H as <- <-; done|].
  unfold _is_throttled in H. fold now p in H. destruct (_ || _); [injection H as <- <-; done|].
  destruct (if ae_lookup_ok env then _ else _) as [who|].
  - injection H as <- <-. unfold accept. rewrite (bool_decide_eq_false_2 _ Hpend).
    by destruct (bool_decide _).
  - destruct (if ae_override_ok env then _ else _) as [[o|] s2];
      [|destruct (ae_lookup_ok env)]; injection H as <- <-; done.
Qed.

(** ** Examples *)

Fixpoint replay (fleet : fleet_tables) (calls : list (auth_env * string * string)) (t : Z) (log : auth_log)
    (s : rfid_state) : Z * auth_log * rfid_state :=
  match calls with
  | [] => (t, log, s)
  | (env, station, tag) :: r =>
      let '(d, s') := authorize fleet env station tag s in
      replay fleet r (ae_record_now env) (log_step (station, tag) (ae_record_now env) d log) s'
  end.

Fixpoint in_order (calls : list (auth_env * string * string)) (t : Z) : bool :=
  match calls with
  | [] => true
  | (env, _, _) :: r =>
      (t <=? ae_throttle_now env) && (ae_throttle_now env <=? ae_record_now env) && in_order r (ae_record_now env)
  end.

Lemma replay_run fleet calls t log s :
  auth_run t log s -> in_order calls t = true ->
  auth_run (replay fleet calls t log s).1.1 (replay fleet calls t log s).1.2 (replay fleet calls t log s).2.
Proof.
  revert t log s. induction calls as [|[[env station] tag] r IH]; intros t log s Hr Ho; [done|].
  cbn [replay in_order] in *. apply andb_prop in Ho as [Ho Hrest]. apply andb_prop in Ho as [H1 H2].
  apply Z.leb_le in H1, H2. destruct (authorize fleet env station tag s) as [d s'] eqn:E.
  apply IH; [|done]. by eapply run_call.
Qed.

(** A call at second [t] on a database that is down for everything but the lookup. *)
Definition ex_call (t : Z) : auth_env * string * string :=
  ({| ae_throttle_now := t * usec; ae_record_now := t * usec; ae_count_ok := false; ae_lookup_ok := true;
      ae_override_ok := false; ae_record_ok := false; ae_clear_ok := false |}, "CS1"%string, "CARD"%string).

Definition ex_fleet : fleet_tables :=
  {| ft_vehicles := Some [{| vt_vehicle := "V1"; vt_site := "D1"; vt_id_tag := "BUS1"; vt_status := None |}];
     ft_cards := None; ft_stations := [("CS1", "D1")]%string; ft_assignments := fun _ _ => (None, None) |}.

Definition ex_run : Z * auth_log * rfid_state :=
  replay ex_fleet (map ex_call [10; 15; 20; 25; 30; 35; 40; 45; 50; 100; 165]) 0 [] (init_rfid [] []).

(** Eight refusals from second 10 to 45; the attempts at 50 and 100 are blocked. *)
Lemma unknown_cards_throttled_witness :
  exists t log s, auth_run t log s /\
    times ("CS1", "CARD")%string log !! 0%nat = Some (10 * usec) /\
    times ("CS1", "CARD")%string log !! 7%nat = Some (45 * usec) /\
    times ("CS1", "CARD")%string log !! 8%nat = Some (165 * usec) /\ 45 * usec + 120 * usec <= 165 * usec.
Proof.
  exists ex_run.1.1, ex_run.1.2, ex_run.2.
  assert (auth_run ex_run.1.1 ex_run.1.2 ex_run.2) as Hr
    by (apply replay_run; [by apply run_start | vm_compute; reflexivity]).
  split_and!; [exact Hr | vm_compute; reflexivity | vm_compute; reflexivity | vm_compute; reflexivity |].
  exact (unknown_cards_throttled _ _ _ ("CS1", "CARD")%string 0 (10 * usec) (45 * usec) (165 * usec) Hr
           ltac:(vm_compute; reflexivity) ltac:(vm_compute; reflexivity) ltac:(vm_compute; reflexivity)
           ltac:(unfold usec; lia)).
Defined.

Definition ex_override : override_row :=
  {| ov_id := "O1"; ov_station := "CS1"; ov_id_tag := "OP"; ov_depot := None; ov_expires_at := 300 * usec;
     ov_consumed_at := None |}.

Definition ex_up (t : Z) : auth_env :=
  {| ae_throttle_now := t * usec; ae_record_now := t * usec; ae_count_ok := true; ae_lookup_ok := true;
     ae_override_ok := true; ae_record_ok := true; ae_clear_ok := true |}.

Lemma only_known_cards_accepted_witness :
  rd_reason (fst (authorize ex_fleet (ex_up 290) "CS1" "OP" (init_rfid [] [ex_override]))) = "operator_override"%string /\
  Forall override_wf (overrides (snd (authorize ex_fleet (ex_up 290) "CS1" "OP" (init_rfid [] [ex_override])))).
Proof.
  split; [vm_compute; reflexivity|].
  apply (only_known_cards_accepted ex_fleet (ex_up 290) "CS1" "OP" (init_rfid [] [ex_override])
           (fst (authorize ex_fleet (ex_up 290) "CS1" "OP" (init_rfid [] [ex_override])))).
  - repeat constructor.
  - destruct (authorize _ _ _ _ _); reflexivity.
Defined.

(** The refusal at second 10 is forgotten at second 75: no recovery event. *)
Definition ex_refused : rfid_state :=
  snd (authorize {| ft_vehicles := Some []; ft_cards := None; ft_stations := []; ft_assignments := fun _ _ => (None, None) |}
         (ex_up 10) "CS1" "BUS1" (init_rfid [] [])).

Lemma late_success_writes_no_recovery_witness :
  length (security_events ex_refused) = 1%nat /\
  security_events (snd (authorize ex_fleet (ex_up 75) "CS1" "BUS1" ex_refused)) = security_events ex_refused.
Proof.
  split; [vm_compute; reflexivity|].
  apply (late_success_writes_no_recovery ex_fleet (ex_up 75) "CS1" "BUS1" ex_refused
           (fst (authorize ex_fleet (ex_up 75) "CS1" "BUS1" ex_refused))).
  - split; vm_compute; repeat constructor; set_solver.
  - destruct (authorize _ _ _ _ _); reflexivity.
  - vm_compute; reflexivity.
  - vm_compute; reflexivity.
  - intros e He. exfalso. revert He. vm_compute. discriminate.
Defined.
