(* ===== verification/Transactions.v ===== *)
(** * Transactions ([src/websocket_handler/transaction_manager.py])

    Remote starts and stops, transaction events and tariff costs, with the
    statements of [timescale_client.py] they use on lists of rows. A start is
    split at its awaits, so that starts and stops can interleave; the per-EVSE
    locks are the set of keys held. Card authorisation is the service of [Rfid].
    A database call that raises is a field of the environment. *)

From S2P Require Import Prelude Models PyText Rfid.
From Stdlib Require Import ZArith QArith Lia Ascii.
From stdpp Require Import base list strings gmap.

#[local] Open Scope Z_scope.

(** ** Data *)

Inductive TransactionEventType := EV_STARTED | EV_UPDATED | EV_ENDED.
Inductive ChargingState := CHARGING | EV_CONNECTED | SUSPENDED_EV | SUSPENDED_EVSE | IDLE.
Inductive IdTokenType := CENTRAL | eMAID | ISO14443 | ISO15693 | KEY_CODE | LOCAL | NO_AUTHORIZATION | OTHER.

#[export] Instance charging_state_eq_dec : EqDecision ChargingState.
Proof. solve_decision. Defined.

Definition event_type_value (e : TransactionEventType) : string :=
  match e with EV_STARTED => "Started" | EV_UPDATED => "Updated" | EV_ENDED => "Ended" end.

Definition charging_state_value (s : ChargingState) : string :=
  match s with
  | CHARGING => "Charging" | EV_CONNECTED => "EVConnected" | SUSPENDED_EV => "SuspendedEV"
  | SUSPENDED_EVSE => "SuspendedEVSE" | IDLE => "Idle"
  end.

(** [ChargingState(value)]; [None] is [ValueError]. *)
Definition charging_state_of_value (v : string) : option ChargingState :=
  List.find (fun s => String.eqb (charging_state_value s) v)
    [CHARGING; EV_CONNECTED; SUSPENDED_EV; SUSPENDED_EVSE; IDLE].

Record IdToken := { id_token : string; token_type : IdTokenType }.

Record TransactionInfo := {
  ti_transaction_id : string;
  charging_state : option ChargingState;
  time_spent_charging : option Z;
  stopped_reason : option string;
  remote_start_id : option Z;
  ti_evse_id : option Z;
  ti_connector_id : option Z
}.

(** The keys the code reads of a price component. *)
Record price_component := { pc_type : option string; pc_price : option Q; pc_stepSize : option Q }.

Record TariffElement := { price_components : list price_component; restrictions : option pyobj }.

Record Tariff := {
  tariff_id : string;
  currency : string;
  tariff_element : list TariffElement;
  start_date_time : option string;
  end_date_time : option string;
  min_price : option Q;
  max_price : option Q
}.

(** [{"total_cost", "currency", "breakdown"}]. *)
Record cost_data := {
  total_cost : Q;
  cost_currency : string;
  cost_breakdown : option (list (option string * Q * Q))
}.

(** An argument of a text column: a string, or a member of a plain [Enum]. *)
Inductive text_arg := TextStr (s : string) | TextTokenType (t : IdTokenType).

(** ** Tables *)

Record tx_row := {
  tr_station : string;
  tr_transaction_id : string;
  tr_charging_state : option string;
  tr_time_spent : option Z;
  tr_stopped_reason : option string;
  tr_remote_start_id : option Z;
  tr_evse_id : option Z;
  tr_connector_id : option Z;
  tr_id_token : string;
  tr_id_token_type : string;
  tr_started_at : Z;
  tr_ended_at : option Z
}.

Record tx_event := { te_station : string; te_type : string; te_timestamp : string; te_info : TransactionInfo }.

Record tx_telemetry := { tt_station : string; tt_session : string; tt_time : Z; tt_energy : option Q }.

Record manager := {
  active_transactions : dict string TransactionInfo;
  tariff_cache : dict string Tariff;
  transaction_costs : dict string cost_data;
  rfid : rfid_state;
  db_transactions : list tx_row;
  db_events : list tx_event;
  db_costs : dict (string * string) cost_data;
  db_tariffs : list (string * Tariff)
}.

Definition with_active (m : manager) (a : dict string TransactionInfo) : manager :=
  {| active_transactions := a; tariff_cache := tariff_cache m; transaction_costs := transaction_costs m;
     rfid := rfid m; db_transactions := db_transactions m; db_events := db_events m;
     db_costs := db_costs m; db_tariffs := db_tariffs m |}.
Definition with_tariffs (m : manager) (t : dict string Tariff) : manager :=
  {| active_transactions := active_transactions m; tariff_cache := t;
     transaction_costs := transaction_costs m; rfid := rfid m; db_transactions := db_transactions m;
     db_events := db_events m; db_costs := db_costs m; db_tariffs := db_tariffs m |}.
Definition with_rfid (m : manager) (r : rfid_state) : manager :=
  {| active_transactions := active_transactions m; tariff_cache := tariff_cache m;
     transaction_costs := transaction_costs m; rfid := r; db_transactions := db_transactions m;
     db_events := db_events m; db_costs := db_costs m; db_tariffs := db_tariffs m |}.
Definition with_rows (m : manager) (r : list tx_row) : manager :=
  {| active_transactions := active_transactions m; tariff_cache := tariff_cache m;
     transaction_costs := transaction_costs m; rfid := rfid m; db_transactions := r;
     db_events := db_events m; db_costs := db_costs m; db_tariffs := db_tariffs m |}.
Definition with_tx_events (m : manager) (e : list tx_event) : manager :=
  {| active_transactions := active_transactions m; tariff_cache := tariff_cache m;
     transaction_costs := transaction_costs m; rfid := rfid m; db_transactions := db_transactions m;
     db_events := e; db_costs := db_costs m; db_tariffs := db_tariffs m |}.
Definition with_cost_row (m : manager) (k : string * string) (c : cost_data) : manager :=
  {| active_transactions := active_transactions m; tariff_cache := tariff_cache m;
     transaction_costs := transaction_costs m; rfid := rfid m; db_transactions := db_transactions m;
     db_events := db_events m; db_costs := db_costs m +{ k := c }; db_tariffs := db_tariffs m |}.
Definition with_cached_cost (m : manager) (id : string) (c : cost_data) : manager :=
  {| active_transactions := active_transactions m; tariff_cache := tariff_cache m;
     transaction_costs := transaction_costs m +{ id := c }; rfid := rfid m;
     db_transactions := db_transactions m; db_events := db_events m; db_costs := db_costs m;
     db_tariffs := db_tariffs m |}.

(** What the world answers while an operation runs. *)
Record tx_env := {
  x_now : Z;
  x_uuid : string;                 (* [uuid.uuid4()] *)
  x_auth : auth_env;
  x_status : result unit (option string);   (* the newest row of [connector_status] *)
  x_store_ok : bool;
  x_get_ok : bool;
  x_tariff_ok : bool;
  x_energy_ok : bool;
  x_update_ok : bool;
  x_event_ok : bool;
  x_cost_ok : bool
}.

Inductive response :=
| Accepted (transaction_id : option string) (token_status : option string)
| Rejected (reasonCode : string) (additionalInfo : string) (token_status : option string)
| InternalError.

(** [f"{station_id}:{evse_id}"]. *)
Definition py_int_opt (z : option Z) : string := match z with Some z => py_str_int z | None => "None" end.
Definition slot_key (station : string) (evse : option Z) : string := station +:+ ":" +:+ py_int_opt evse.
(** [key.startswith(f"{station_id}:")]. *)
Definition of_station (station key : string) : bool := String.prefix (station +:+ ":") key.

(** ** Statements *)

Section Manager.
Context (fleet : fleet_tables) (telemetry : list tx_telemetry).
(** How the database driver encodes a text argument; [None] is its error. *)
Context (encode_text : text_arg -> option string).
(** Whether the driver takes a string for a timestamp column. *)
Context (takes_timestamp_text : string -> bool).

Definition is_row (station id : string) (r : tx_row) : bool :=
  String.eqb (tr_station r) station && String.eqb (tr_transaction_id r) id.

(** [INSERT ... ON CONFLICT (station_id, transaction_id) DO UPDATE]; [None] when
    the driver refuses an argument. *)
Definition store_transaction (now : Z) (station : string) (ti : TransactionInfo) (tok : IdToken)
    (rows : list tx_row) : option (list tx_row) :=
  let state := option_map charging_state_value (charging_state ti) in
  match encode_text (TextTokenType (token_type tok)) with
  | None => None
  | Some type_text =>
      if existsb (is_row station (ti_transaction_id ti)) rows
      then Some (map (fun r => if is_row station (ti_transaction_id ti) r
                               then {| tr_station := tr_station r; tr_transaction_id := tr_transaction_id r;
                                       tr_charging_state := state; tr_time_spent := tr_time_spent r;
                                       tr_stopped_reason := tr_stopped_reason r;
                                       tr_remote_start_id := tr_remote_start_id r;
                                       tr_evse_id := tr_evse_id r; tr_connector_id := tr_connector_id r;
                                       tr_id_token := tr_id_token r; tr_id_token_type := tr_id_token_type r;
                                       tr_started_at := tr_started_at r; tr_ended_at := tr_ended_at r |}
                               else r) rows)
      else Some (rows ++ [{| tr_station := station; tr_transaction_id := ti_transaction_id ti;
                             tr_charging_state := state; tr_time_spent := None; tr_stopped_reason := None;
                             tr_remote_start_id := remote_start_id ti; tr_evse_id := ti_evse_id ti;
                             tr_connector_id := ti_connector_id ti; tr_id_token := id_token tok;
                             tr_id_token_type := type_text; tr_started_at := now; tr_ended_at := None |}])
  end.

Definition update_transaction (now : Z) (station : string) (ti : TransactionInfo) (rows : list tx_row)
  : list tx_row :=
  map (fun r => if is_row station (ti_transaction_id ti) r
                then {| tr_station := tr_station r; tr_transaction_id := tr_transaction_id r;
                        tr_charging_state := option_map charging_state_value (charging_state ti);
                        tr_time_spent := time_spent_charging ti; tr_stopped_reason := stopped_reason ti;
                        tr_remote_start_id := tr_remote_start_id r; tr_evse_id := tr_evse_id r;
                        tr_connector_id := tr_connector_id r; tr_id_token := tr_id_token r;
                        tr_id_token_type := tr_id_token_type r; tr_started_at := tr_started_at r;
                        tr_ended_at := Some now |}
                else r) rows.

Definition get_transaction (station id : string) (rows : list tx_row) : option tx_row :=
  List.find (is_row station id) rows.

(** [SUM(energy_kwh)] over the samples since the start; null without any. *)
Definition get_transaction_energy (station id : string) (rows : list tx_row) : option Q :=
  match get_transaction station id rows with
  | None => None
  | Some r =>
      match omap tt_energy (List.filter (fun t => String.eqb (tt_station t) station
                                                   && String.eqb (tt_session t) id
                                                   && (tr_started_at r <=? tt_time t)) telemetry) with
      | [] => None
      | l => Some (Qsum l)
      end
  end.

(** The newest tariff of the station; the list is in order of creation, newest first. *)
Definition db_get_tariff (station : string) (tariffs : list (string * Tariff)) : option Tariff :=
  option_map snd (List.find (fun t => String.eqb (fst t) station) tariffs).

(** ** Tariff costs *)

(** The tariff, or the exception of the query. *)
Definition get_tariff (env : tx_env) (station : string) (m : manager) : result unit (option Tariff) * manager :=
  match tariff_cache m @? station with
  | Some t => (Ok (Some t), m)
  | None =>
      if x_tariff_ok env
      then match db_get_tariff station (db_tariffs m) with
           | Some t => (Ok (Some t), with_tariffs m (tariff_cache m +{ station := t }))
           | None => (Ok None, m)
           end
      else (Err tt, m)
  end.

(** The later [store_tariff] of the client takes one argument: the call raises
    [TypeError] after the tariff is cached. *)
Definition set_tariff (station : string) (t : Tariff) (m : manager) : result unit unit * manager :=
  (Err tt, with_tariffs m (tariff_cache m +{ station := t })).

(** One price component; [None] when the arithmetic raises. *)
Definition component_cost (energy : option Q) (ti : TransactionInfo) (c : price_component) : option Q :=
  let price := default 0%Q (pc_price c) in
  let step_size := default 1%Q (pc_stepSize c) in
  let per_step (x : Q) := if (step_size =?q 0)%Q then None else Some (x / step_size * price)%Q in
  match pc_type c with
  | Some t =>
      if String.eqb t "Energy" then match energy with Some e => per_step e | None => None end
      else if String.eqb t "Time" then per_step (inject_Z (default 0 (time_spent_charging ti)))
      else Some price
  | None => Some price
  end.

(** The inner loop over an element's components. *)
Fixpoint add_components (energy : option Q) (ti : TransactionInfo) (cs : list price_component)
    (acc : Q * list (option string * Q * Q)) : option (Q * list (option string * Q * Q)) :=
  match cs with
  | [] => Some acc
  | c :: rest =>
      match component_cost energy ti c with
      | None => None
      | Some cost =>
          add_components energy ti rest
            ((fst acc + cost)%Q, snd acc ++ [(pc_type c, default 0%Q (pc_price c), cost)])
      end
  end.

Fixpoint add_elements (energy : option Q) (ti : TransactionInfo) (es : list TariffElement)
    (acc : Q * list (option string * Q * Q)) : option (Q * list (option string * Q * Q)) :=
  match es with
  | [] => Some acc
  | e :: rest =>
      match add_components energy ti (price_components e) acc with
      | None => None
      | Some acc => add_elements energy ti rest acc
      end
  end.

Definition no_cost : cost_data := {| total_cost := 0; cost_currency := "USD"; cost_breakdown := None |}.

(** [round(x, 2)]. *)
Definition round2 (q : Q) : Q := inject_Z (Qround_even (q * 100)) / 100.

Definition _calculate_transaction_cost (env : tx_env) (station : string) (ti : TransactionInfo) (m : manager)
  : cost_data * manager :=
  match get_tariff env station m with
  | (Err _, m) => (no_cost, m)
  | (Ok None, m) => (no_cost, m)
  | (Ok (Some tariff), m) =>
      if x_energy_ok env
      then let energy := get_transaction_energy station (ti_transaction_id ti) (db_transactions m) in
           match add_elements energy ti (tariff_element tariff) (0%Q, []) with
           | Some (total, breakdown) =>
               ({| total_cost := round2 total; cost_currency := currency tariff;
                   cost_breakdown := Some breakdown |}, m)
           | None => (no_cost, m)
           end
      else (no_cost, m)
  end.

(** [false] when storing the cost raises. *)
Definition _update_transaction_costs (env : tx_env) (station : string) (ti : TransactionInfo) (m : manager)
  : bool * manager :=
  let '(c, m) := _calculate_transaction_cost env station ti m in
  if x_cost_ok env
  then let row := {| total_cost := total_cost c; cost_currency := cost_currency c;
                     cost_breakdown := Some (default [] (cost_breakdown c)) |} in
       (true, with_cached_cost (with_cost_row m (station, ti_transaction_id ti) row) (ti_transaction_id ti) c)
  else (false, m).

(** ** Looking transactions up *)

(** [None] is [ValueError] for an unknown charging state. *)
Definition _parse_transaction_info (r : tx_row) : option TransactionInfo :=
  let parsed state :=
    {| ti_transaction_id := tr_transaction_id r; charging_state := state;
       time_spent_charging := tr_time_spent r; stopped_reason := tr_stopped_reason r;
       remote_start_id := tr_remote_start_id r; ti_evse_id := tr_evse_id r;
       ti_connector_id := tr_connector_id r |} in
  match tr_charging_state r with
  | None | Some EmptyString => Some (parsed None)
  | Some v => option_map (fun s => parsed (Some s)) (charging_state_of_value v)
  end.

(** A transaction found: the key under which the object is cached, if it is. *)
Record found := { f_key : option string; f_info : TransactionInfo }.

Definition cached_transaction (station id : string) (active : dict string TransactionInfo)
  : option (string * TransactionInfo) :=
  List.find (fun '(k, t) => of_station station k && String.eqb (ti_transaction_id t) id) active.

Definition _find_transaction (env : tx_env) (station id : string) (m : manager) : result unit (option found) :=
  match cached_transaction station id (active_transactions m) with
  | Some (k, t) => Ok (Some {| f_key := Some k; f_info := t |})
  | None =>
      if x_get_ok env
      then match get_transaction station id (db_transactions m) with
           | None => Ok None
           | Some r => match _parse_transaction_info r with
                       | Some t => Ok (Some {| f_key := None; f_info := t |})
                       | None => Err tt
                       end
           end
      else Err tt
  end.

Definition get_active_transactions (station : string) (m : manager) : list TransactionInfo :=
  map snd (List.filter (fun '(k, _) => of_station station k) (active_transactions m)).

(** ** Remote starts *)

Definition _validate_id_token_shape (tok : IdToken) : option (string * string) :=
  if String.eqb (strip (id_token tok)) "" then Some ("InvalidToken", "idToken is required")%string
  else match token_type tok with
       | NO_AUTHORIZATION => Some ("InvalidTokenType", "NoAuthorization is not valid for RFID start")%string
       | _ => None
       end.

(** No profile and an empty one are the same to the code. *)
Definition _validate_request_start_profile (profile : dict string pyobj) : option (string * string) :=
  match profile with
  | [] => None
  | _ =>
      let get k := default PNone (profile @? k) in
      let purpose := py_or (get "chargingProfilePurpose") (get "charging_profile_purpose") in
      if truthy purpose && negb (match purpose with PStr p => String.eqb p "TxProfile" | _ => false end)
      then Some ("InvalidChargingProfile", "RequestStartTransaction requires TxProfile purpose")%string
      else if dmem "transactionId" profile || dmem "transaction_id" profile
      then Some ("InvalidChargingProfile",
                 "New RequestStartTransaction profiles must not include transactionId")%string
      else None
  end.

Record start_request := {
  sr_station : string;
  sr_evse_id : Z;
  sr_remote_start_id : option Z;
  sr_token : IdToken;
  sr_profile : dict string pyobj
}.

Definition start_key (q : start_request) : string := slot_key (sr_station q) (Some (sr_evse_id q)).

(** Where a start stands: at the lock, at one of its awaits under the lock, or done. *)
Inductive start_phase :=
| AtLock
| Authorizing
| CheckingEvse (token_status : string)
| Storing (token_status : string) (info : TransactionInfo)
| StartDone (r : response).

Definition start_begin (q : start_request) : start_phase :=
  match _validate_id_token_shape (sr_token q) with
  | Some (code, info) => StartDone (Rejected code info None)
  | None => match _validate_request_start_profile (sr_profile q) with
            | Some (code, info) => StartDone (Rejected code info None)
            | None => AtLock
            end
  end.

Definition start_locked (q : start_request) (m : manager) : start_phase :=
  if dmem (start_key q) (active_transactions m)
  then StartDone (Rejected "ConcurrentTx" "EVSE already has an active transaction" (Some "Blocked"%string))
  else Authorizing.

Definition start_authorized (env : tx_env) (q : start_request) (m : manager) : start_phase * manager :=
  let '(d, r) := authorize fleet (x_auth env) (sr_station q) (id_token (sr_token q)) (rfid m) in
  let status := map_auth_status_to_ocpp201 (rd_status d) in
  (if bool_decide (rd_status d = AUTH_ACCEPTED) then CheckingEvse status
   else StartDone (Rejected status (rd_reason d) (Some status)), with_rfid m r).

Definition _check_evse_availability (env : tx_env) : bool :=
  match x_status env with Ok (Some s) => String.eqb s "Available" | _ => false end.

Definition start_checked (env : tx_env) (q : start_request) (status : string) : start_phase :=
  if _check_evse_availability env
  then Storing status
         {| ti_transaction_id := x_uuid env; charging_state := Some EV_CONNECTED;
            time_spent_charging := None; stopped_reason := None; remote_start_id := sr_remote_start_id q;
            ti_evse_id := Some (sr_evse_id q); ti_connector_id := Some 1 |}
  else StartDone (Rejected "EVSEUnavailable" "EVSE is not available" None).

Definition start_stored (env : tx_env) (q : start_request) (status : string) (ti : TransactionInfo)
    (m : manager) : start_phase * manager :=
  match (if x_store_ok env
         then store_transaction (x_now env) (sr_station q) ti (sr_token q) (db_transactions m)
         else None) with
  | None => (StartDone InternalError, m)
  | Some rows =>
      (StartDone (Accepted (Some (ti_transaction_id ti)) (Some status)),
       with_active (with_rows m rows) (active_transactions m +{ start_key q := ti }))
  end.

(** One stretch of a start, from where it stands to its next await. *)
Definition start_advance (env : tx_env) (q : start_request) (ph : start_phase) (m : manager)
  : start_phase * manager :=
  match ph with
  | AtLock => (start_locked q m, m)
  | Authorizing => start_authorized env q m
  | CheckingEvse status => (start_checked env q status, m)
  | Storing status ti => start_stored env q status ti m
  | StartDone r => (StartDone r, m)
  end.

(** The handler when nothing else runs: at most the lock and three awaits. *)
Definition request_start_transaction (env : tx_env) (q : start_request) (m : manager) : response * manager :=
  let go '(ph, m) := start_advance env q ph m in
  match go (go (go (go (start_begin q, m)))) with
  | (StartDone r, m) => (r, m)
  | (_, m) => (InternalError, m)
  end.

(** ** Remote stops *)

Inductive stop_phase :=
| Finding
| Costing (f : found)
| Updating (f : found)
| StopDone (r : response).

Record stop_request := { sp_station : string; sp_transaction_id : string; sp_reason : option string }.

Definition or_text (a : option string) (b : string) : string :=
  match a with Some (String c s) => String c s | _ => b end.

(** The stopped transaction's new fields. *)
Definition stopped (reason : option string) (t : TransactionInfo) : TransactionInfo :=
  {| ti_transaction_id := ti_transaction_id t; charging_state := Some IDLE;
     time_spent_charging := time_spent_charging t; stopped_reason := Some (or_text reason "Remote");
     remote_start_id := remote_start_id t; ti_evse_id := ti_evse_id t;
     ti_connector_id := ti_connector_id t |}.

(** Assigning to the object is seen in the cache while the cache holds it. *)
Definition mutate (f : found) (t : TransactionInfo) (active : dict string TransactionInfo)
  : dict string TransactionInfo :=
  match f_key f with
  | None => active
  | Some k => match active @? k with
              | Some t' => if String.eqb (ti_transaction_id t') (ti_transaction_id t)
                           then active +{ k := t } else active
              | None => active
              end
  end.

Definition stop_advance (env : tx_env) (q : stop_request) (ph : stop_phase) (m : manager)
  : stop_phase * manager :=
  match ph with
  | Finding =>
      match _find_transaction env (sp_station q) (sp_transaction_id q) m with
      | Err _ => (StopDone InternalError, m)
      | Ok None => (StopDone (Rejected "UnknownTransaction"
                                ("Transaction " +:+ sp_transaction_id q +:+ " not found") None), m)
      | Ok (Some f) => (Costing f, m)
      end
  | Costing f =>
      let '(_, m) := _calculate_transaction_cost env (sp_station q) (f_info f) m in
      let t := stopped (sp_reason q) (f_info f) in
      (Updating {| f_key := f_key f; f_info := t |}, with_active m (mutate f t (active_transactions m)))
  | Updating f =>
      if x_update_ok env
      then (StopDone (Accepted None (Some "Accepted"%string)),
            with_active (with_rows m (update_transaction (x_now env) (sp_station q) (f_info f) (db_transactions m)))
              (dpop (slot_key (sp_station q) (ti_evse_id (f_info f))) (active_transactions m)))
      else (StopDone InternalError, m)
  | StopDone r => (StopDone r, m)
  end.

Definition request_stop_transaction (env : tx_env) (q : stop_request) (m : manager) : response * manager :=
  let go '(ph, m) := stop_advance env q ph m in
  match go (go (go (Finding, m))) with
  | (StopDone r, m) => (r, m)
  | (_, m) => (InternalError, m)
  end.

(** ** Events from the charger *)

(** [a or b] for integers. *)
Definition or_int (a b : option Z) : option Z :=
  match a with Some z => if z =? 0 then b else Some z | None => b end.

Definition handle_transaction_event (env : tx_env) (station : string) (ev : TransactionEventType)
    (timestamp : string) (ti : TransactionInfo) (evse connector : option Z) (m : manager) : response * manager :=
  let ti := {| ti_transaction_id := ti_transaction_id ti; charging_state := charging_state ti;
               time_spent_charging := time_spent_charging ti; stopped_reason := stopped_reason ti;
               remote_start_id := remote_start_id ti; ti_evse_id := or_int evse (ti_evse_id ti);
               ti_connector_id := or_int connector (ti_connector_id ti) |} in
  if negb (x_event_ok env && takes_timestamp_text timestamp) then (InternalError, m)
  else
    let m := with_tx_events m (db_events m ++ [{| te_station := station; te_type := event_type_value ev;
                                                  te_timestamp := timestamp; te_info := ti |}]) in
    let key := slot_key station (ti_evse_id ti) in
    let m := match ev with
             | EV_STARTED => with_active m (active_transactions m +{ key := ti })
             | EV_ENDED => with_active m (dpop key (active_transactions m))
             | EV_UPDATED => m
             end in
    let '(ok, m) := match ev with
                    | EV_STARTED => (true, m)
                    | _ => _update_transaction_costs env station ti m
                    end in
    (if ok then Accepted None None else InternalError, m).
End Manager.

(** ** Concurrent requests

    Each running request is a task; a step runs one task to its next await. The
    locks of [_evse_lock] are held from the check of the slot to the end of the
    [async with]. *)

Record start_task := { st_request : start_request; st_phase : start_phase }.
Record stop_task := { sp_request : stop_request; sp_phase : stop_phase }.

Record world := {
  w_manager : manager;
  _evse_locks : gset string;
  w_starts : gmap nat start_task;
  w_stops : gmap nat stop_task
}.

Definition critical (ph : start_phase) : bool :=
  match ph with Authorizing | CheckingEvse _ | Storing _ _ => true | AtLock | StartDone _ => false end.

Section Concurrency.
Context (fleet : fleet_tables) (telemetry : list tx_telemetry) (encode_text : text_arg -> option string).

(** The lock after a start moved to [ph]. *)
Definition lock_after (key : string) (ph : start_phase) (locks : gset string) : gset string :=
  if critical ph then {[ key ]} ∪ locks else locks ∖ {[ key ]}.

Definition run_start (env : tx_env) (i : nat) (t : start_task) (w : world) : world :=
  let '(ph, m) := start_advance fleet encode_text env (st_request t) (st_phase t) (w_manager w) in
  {| w_manager := m; _evse_locks := lock_after (start_key (st_request t)) ph (_evse_locks w);
     w_starts := <[ i := {| st_request := st_request t; st_phase := ph |} ]> (w_starts w);
     w_stops := w_stops w |}.

Definition run_stop (env : tx_env) (i : nat) (t : stop_task) (w : world) : world :=
  let '(ph, m) := stop_advance telemetry env (sp_request t) (sp_phase t) (w_manager w) in
  {| w_manager := m; _evse_locks := _evse_locks w; w_starts := w_starts w;
     w_stops := <[ i := {| sp_request := sp_request t; sp_phase := ph |} ]> (w_stops w) |}.

Inductive wstep : world -> world -> Prop :=
| begin_start i q w :
    w_starts w !! i = None ->
    wstep w {| w_manager := w_manager w; _evse_locks := _evse_locks w;
               w_starts := <[ i := {| st_request := q; st_phase := start_begin q |} ]> (w_starts w);
               w_stops := w_stops w |}
| acquire_lock env i t w :
    w_starts w !! i = Some t -> st_phase t = AtLock -> start_key (st_request t) ∉ _evse_locks w ->
    wstep w (run_start env i t w)
| resume_start env i t w :
    w_starts w !! i = Some t -> critical (st_phase t) = true -> wstep w (run_start env i t w)
| begin_stop i q w :
    w_stops w !! i = None ->
    wstep w {| w_manager := w_manager w; _evse_locks := _evse_locks w; w_starts := w_starts w;
               w_stops := <[ i := {| sp_request := q; sp_phase := Finding |} ]> (w_stops w) |}
| resume_stop env i t w : w_stops w !! i = Some t -> wstep w (run_stop env i t w).

Definition init_world (m : manager) : world :=
  {| w_manager := m; _evse_locks := ∅; w_starts := ∅; w_stops := ∅ |}.
End Concurrency.
