(* ===== verification/TransactionsFacts.v ===== *)
(** * Properties of the transaction manager

    Starts and stops that interleave at their awaits: a busy EVSE is never given
    to a second transaction and no start can block for good; when a start is
    accepted; what a stop frees; the cost of a tariff. *)

From S2P Require Import Prelude Models PyText Rfid RfidFacts Transactions.
From Stdlib Require Import ZArith QArith Lia Ascii.
From stdpp Require Import base list strings gmap relations.

#[local] Open Scope Z_scope.

(** ** What one stretch changes *)

Lemma calculate_cost_keeps tele env station ti m :
  let m' := snd (_calculate_transaction_cost tele env station ti m) in
  active_transactions m' = active_transactions m /\ db_transactions m' = db_transactions m /\ rfid m' = rfid m.
Proof.
  cbn zeta. unfold _calculate_transaction_cost, get_tariff.
  destruct (tariff_cache m @? station) as [t|]; [|destruct (x_tariff_ok env); [|done];
    destruct (db_get_tariff station (db_tariffs m)) as [t|]; [|done]];
    destruct (x_energy_ok env); try done; by destruct (add_elements _ _ _ _) as [[]|].
Qed.

(** The slot after a step: free, or still the same transaction. *)
Definition slot_kept (old new : option TransactionInfo) : Prop :=
  match old with
  | None => new = None
  | Some t => new = None \/ exists t', new = Some t' /\ ti_transaction_id t' = ti_transaction_id t
  end.

Lemma slot_kept_refl o : slot_kept o o.
Proof. destruct o; cbn; eauto. Qed.

Lemma mutate_keeps f t active k : slot_kept (active @? k) (mutate f t active @? k).
Proof.
  unfold mutate. destruct (f_key f) as [k'|]; [|apply slot_kept_refl].
  destruct (active @? k') as [t'|] eqn:E; [|apply slot_kept_refl].
  destruct (String.eqb_spec (ti_transaction_id t') (ti_transaction_id t)) as [Ei|]; [|apply slot_kept_refl].
  rewrite dget_dset. destruct (decide (k' = k)) as [<-|Hne]; [|apply slot_kept_refl].
  rewrite E. cbn. eauto.
Qed.

Lemma stop_slots tele env q ph m k :
  slot_kept (active_transactions m @? k) (active_transactions (snd (stop_advance tele env q ph m)) @? k).
Proof.
  destruct ph as [|f|f|r]; cbn [stop_advance snd]; try apply slot_kept_refl.
  - destruct (_find_transaction _ _ _ m) as [[f|]|]; apply slot_kept_refl.
  - destruct (calculate_cost_keeps tele env (sp_station q) (f_info f) m) as [Ea _].
    destruct (_calculate_transaction_cost _ _ _ _ m) as [c m']. cbn [snd] in Ea |- *.
    cbn [active_transactions with_active]. rewrite <- Ea. apply mutate_keeps.
  - destruct (x_update_ok env); [|apply slot_kept_refl]. cbn [snd active_transactions with_active].
    rewrite dget_dpop. destruct (decide _); [|apply slot_kept_refl].
    destruct (active_transactions m @? k); cbn; auto.
Qed.

Lemma begin_not_critical q : critical (start_begin q) = false.
Proof.
  unfold start_begin. destruct (_validate_id_token_shape _) as [[]|]; [done|].
  by destruct (_validate_request_start_profile _) as [[]|].
Qed.

(** A start leaves the slots alone until it is accepted, and then sets its own. *)
Lemma start_slots fleet enc env q ph m ph' m' :
  start_advance fleet enc env q ph m = (ph', m') ->
  active_transactions m' = active_transactions m \/
  critical ph = true /\ critical ph' = false /\
  exists t, active_transactions m' = active_transactions m +{ start_key q := t }.
Proof.
  destruct ph as [| |status|status ti|r]; cbn [start_advance]; intros H.
  - injection H as <- <-. by left.
  - unfold start_authorized in H. destruct (authorize _ _ _ _ _) as [d r]. injection H as <- <-. by left.
  - injection H as <- <-. by left.
  - unfold start_stored in H. destruct (if x_store_ok env then _ else _) as [rows|]; injection H as <- <-; [|by left].
    right. split_and!; eauto.
  - injection H as <- <-. by left.
Qed.

(** ** The locks *)

Section Worlds.
Context (fleet : fleet_tables) (tele : list tx_telemetry) (enc : text_arg -> option string).
Notation step := (wstep fleet tele enc).

Definition in_section (w : world) (i : nat) (k : string) : Prop :=
  exists t, w_starts w !! i = Some t /\ critical (st_phase t) = true /\ start_key (st_request t) = k.

(** A lock is held exactly while one start is in its section, whose slot is free. *)
Record winv (w : world) : Prop := {
  wi_lock : forall k, k ∈ _evse_locks w <-> exists i, in_section w i k;
  wi_one : forall i j k, in_section w i k -> in_section w j k -> i = j;
  wi_free : forall i k, in_section w i k -> active_transactions (w_manager w) @? k = None
}.

Lemma in_section_insert w i j k q ph m locks stops :
  in_section {| w_manager := m; _evse_locks := locks;
                w_starts := <[ i := {| st_request := q; st_phase := ph |} ]> (w_starts w); w_stops := stops |} j k <->
  (i = j /\ critical ph = true /\ start_key q = k) \/ (i <> j /\ in_section w j k).
Proof.
  unfold in_section. cbn [w_starts]. split.
  - intros (t & Ht & Hc & Hk). destruct (decide (i = j)) as [<-|Hne].
    + rewrite lookup_insert_eq in Ht. injection Ht as <-. auto.
    + rewrite lookup_insert_ne in Ht by done. right. eauto.
  - intros [(<- & Hc & Hk)|(Hne & t & Ht & Hc & Hk)].
    + eexists. rewrite lookup_insert_eq. eauto.
    + exists t. by rewrite lookup_insert_ne.
Qed.

(** Running a start that holds its lock, or takes a free one. *)
Lemma run_start_inv env i t w :
  winv w -> w_starts w !! i = Some t ->
  (critical (st_phase t) = true \/ st_phase t = AtLock /\ start_key (st_request t) ∉ _evse_locks w) ->
  winv (run_start fleet enc env i t w).
Proof.
  intros [H1 H2 H3] Ht Hen. unfold run_start.
  destruct (start_advance _ _ env (st_request t) (st_phase t) (w_manager w)) as [ph m] eqn:Ea.
  set (k0 := start_key (st_request t)) in *.
  assert (forall j, i <> j -> ~ in_section w j k0) as Halone.
  { intros j Hne Hj. destruct Hen as [Hc|[_ Hfree]].
    - apply Hne. apply (H2 _ _ k0); [|done]. by exists t.
    - apply Hfree. apply H1. eauto. }
  assert (forall j k, in_section w j k -> k <> k0 -> i <> j) as Hother.
  { intros j k (t' & Ht' & _ & Hk) Hne <-. rewrite Ht in Ht'. injection Ht' as <-. by subst. }
  pose proof (start_slots _ _ _ _ _ _ _ _ Ea) as Hslots.
  constructor; cbn [_evse_locks w_manager].
  - intros k. unfold lock_after. setoid_rewrite in_section_insert.
    destruct (decide (k = k0)) as [->|Hne].
    + destruct (critical ph) eqn:Ec.
      * split; [intros _; exists i; by left | set_solver].
      * split; [set_solver|]. intros [j [(_ & [=] & _)|[Hij Hj]]]. by destruct (Halone j).
    + transitivity (k ∈ _evse_locks w); [destruct (critical ph); set_solver|]. rewrite H1.
      split; intros [j Hj]; exists j.
      * right. split; [by eapply Hother | done].
      * destruct Hj as [(_ & _ & Hk)|[_ Hj]]; [by destruct Hne | done].
  - intros j j' k. rewrite !in_section_insert.
    intros [(<- & _ & Ek)|[Hij Hj]] [(<- & _ & Ek')|[Hij' Hj']]; [done | | |by eapply H2].
    + rewrite <- Ek in Hj'. by destruct (Halone j').
    + rewrite <- Ek' in Hj. by destruct (Halone j).
  - intros j k. rewrite in_section_insert. intros [(<- & Hc & Hk)|[Hij Hj]].
    + destruct Hslots as [->|(_ & Hc' & _)]; [|congruence]. subst k. fold k0.
      destruct Hen as [Hcr|[Hal Hfree]]; [by apply (H3 i); exists t|].
      rewrite Hal in Ea. cbn [start_advance] in Ea. injection Ea as <- <-.
      unfold start_locked, dmem in Hc. fold k0 in Hc.
      by destruct (active_transactions (w_manager w) @? k0).
    + destruct Hslots as [->|(_ & _ & t' & ->)]; [by eapply H3|].
      rewrite dget_dset_ne; [by eapply H3|]. fold k0. intros <-. by destruct (Halone j).
Qed.

Lemma begin_start_inv w i q :
  winv w -> w_starts w !! i = None ->
  winv {| w_manager := w_manager w; _evse_locks := _evse_locks w;
          w_starts := <[ i := {| st_request := q; st_phase := start_begin q |} ]> (w_starts w);
          w_stops := w_stops w |}.
Proof.
  intros [H1 H2 H3] Hi.
  assert (forall j k, in_section {| w_manager := w_manager w; _evse_locks := _evse_locks w;
            w_starts := <[ i := {| st_request := q; st_phase := start_begin q |} ]> (w_starts w);
            w_stops := w_stops w |} j k <-> in_section w j k) as E.
  { intros j k. rewrite in_section_insert, begin_not_critical. split.
    - by intros [(_ & [=] & _)|[_ ?]].
    - intros Hj. right. split; [|done]. intros <-. destruct Hj as (t & Ht & _). congruence. }
  constructor; cbn [_evse_locks w_manager].
  - intros k. rewrite H1. by setoid_rewrite E.
  - intros j j' k. rewrite !E. apply H2.
  - intros j k. rewrite E. apply H3.
Qed.

Lemma wstep_inv w w' : winv w -> step w w' -> winv w'.
Proof.
  intros Hi Hs. destruct Hs as [i q w Hn|env i t w Ht Hp Hk|env i t w Ht Hc|i q w Hn|env i t w Ht].
  - by apply begin_start_inv.
  - apply run_start_inv; auto.
  - apply run_start_inv; auto.
  - destruct Hi as [H1 H2 H3]. by constructor.
  - destruct Hi as [H1 H2 H3]. unfold run_stop.
    pose proof (stop_slots tele env (sp_request t) (sp_phase t) (w_manager w)) as Hk.
    destruct (stop_advance _ _ _ _ _) as [ph m]. constructor; [done..|]. cbn [w_manager snd] in *.
    intros j k Hj. specialize (Hk k). by rewrite (H3 j k Hj) in Hk.
Qed.

Lemma wsteps_inv w w' : rtc step w w' -> winv w -> winv w'.
Proof. induction 1; eauto using wstep_inv. Qed.

Lemma init_inv m : winv (init_world m).
Proof.
  assert (forall i k, ~ in_section (init_world m) i k) as Hn.
  { intros i k (t & Ht & _). cbn in Ht. by rewrite lookup_empty in Ht. }
  constructor.
  - intros k. cbn. split; [set_solver|]. intros [i Hi]. by destruct (Hn i k).
  - intros i j k Hi. by destruct (Hn i k).
  - intros i k Hi. by destruct (Hn i k).
Qed.

(** C11: Whatever remote starts and stops run concurrently, interleaving at their
    awaits, a step never replaces the transaction of a busy EVSE by another one: the
    slot keeps the same transaction or becomes free. *)
Theorem busy_evse_not_replaced m w w' k t :
  rtc step (init_world m) w -> step w w' ->
  active_transactions (w_manager w) @? k = Some t ->
  active_transactions (w_manager w') @? k = None \/
  exists t', active_transactions (w_manager w') @? k = Some t' /\ ti_transaction_id t' = ti_transaction_id t.
Proof.
  intros Hr Hs Hk. pose proof (wsteps_inv _ _ Hr (init_inv m)) as [_ _ Hfree].
  destruct Hs as [i q w Hn|env i u w Ht Hp Hl|env i u w Ht Hc|i q w Hn|env i u w Ht]; cbn [w_manager]; eauto.
  1,2: unfold run_start; destruct (start_advance _ _ _ _ _ _) as [ph m'] eqn:Ea; cbn [w_manager];
    destruct (start_slots _ _ _ _ _ _ _ _ Ea) as [->|(Hcr & _ & t' & ->)]; eauto.
  - by rewrite Hp in Hcr.
  - rewrite dget_dset. destruct (decide _) as [<-|]; eauto.
    rewrite (Hfree i) in Hk; [done|]. by exists u.
  - pose proof (stop_slots tele env (sp_request u) (sp_phase u) (w_manager w) k) as H.
    unfold run_stop. destruct (stop_advance _ _ _ _ _) as [ph m']. cbn [w_manager snd] in *. by rewrite Hk in H.
Qed.

(** ** No start waits for ever *)

Lemma start_progress env q ph m ph' m' :
  critical ph = true -> start_advance fleet enc env q ph m = (ph', m') ->
  (exists r, ph' = StartDone r) \/
  match ph, ph' with
  | Authorizing, CheckingEvse _ | CheckingEvse _, Storing _ _ => True
  | _, _ => False
  end.
Proof.
  destruct ph as [| |status|status ti|r]; cbn [critical start_advance]; try done; intros _ H.
  - unfold start_authorized in H. destruct (authorize _ _ _ _ _) as [d r]. injection H as <- _.
    destruct (bool_decide _); eauto.
  - injection H as <- _. unfold start_checked. destruct (_check_evse_availability env); eauto.
  - unfold start_stored in H. destruct (if x_store_ok env then _ else _); injection H as <- _; eauto.
Qed.

Definition finished (w : world) (i : nat) : Prop :=
  exists q r, w_starts w !! i = Some {| st_request := q; st_phase := StartDone r |}.

(** A start in its section can be run to its end, whatever the calls answer,
    without touching the others. *)
Lemma section_ends (env : tx_env) w i t :
  w_starts w !! i = Some t -> critical (st_phase t) = true ->
  exists w', rtc step w w' /\ finished w' i /\ start_key (st_request t) ∉ _evse_locks w' /\
    (forall j, j <> i -> w_starts w' !! j = w_starts w !! j).
Proof.
  intros Ht Hc.
  set (left_ ph := match ph with Authorizing => 3%nat | CheckingEvse _ => 2%nat | Storing _ _ => 1%nat | _ => 0%nat end).
  remember (left_ (st_phase t)) as n eqn:En. revert w t Ht Hc En.
  induction (lt_wf n) as [n _ IH]. intros w t Ht Hc ->.
  pose proof (resume_start fleet tele enc env i t w Ht Hc) as Hstep.
  unfold run_start in Hstep. destruct (start_advance _ _ _ _ _ _) as [ph m'] eqn:Ea.
  match type of Hstep with wstep _ _ _ _ ?x => set (w1 := x) in * end.
  assert (w_starts w1 !! i = Some {| st_request := st_request t; st_phase := ph |}) as H1
    by (cbn; by rewrite lookup_insert_eq).
  assert (forall j, j <> i -> w_starts w1 !! j = w_starts w !! j) as Hj
    by (intros j Hne; cbn; by rewrite lookup_insert_ne).
  destruct (start_progress _ _ _ _ _ _ Hc Ea) as [[r ->]|Hp].
  - exists w1. split_and!; [by apply rtc_once | by eexists _, _ | subst w1; cbn; set_solver | done].
  - assert (critical ph = true) as Hc' by (destruct (st_phase t), ph; done).
    destruct (IH (left_ ph)) with (w := w1) (t := {| st_request := st_request t; st_phase := ph |})
      as (w2 & Hr & Hf & Hl & Ho); try done.
    { destruct (st_phase t), ph; cbn; try done; lia. }
    exists w2. split_and!; try done; [by eapply rtc_l|]. intros j Hne. by rewrite Ho, Hj.
Qed.

End Worlds.

(** ** When a start is accepted *)

Definition started (env : tx_env) (q : start_request) : TransactionInfo :=
  {| ti_transaction_id := x_uuid env; charging_state := Some EV_CONNECTED; time_spent_charging := None;
     stopped_reason := None; remote_start_id := sr_remote_start_id q; ti_evse_id := Some (sr_evse_id q);
     ti_connector_id := Some 1 |}.

Definition start_allowed (fleet : fleet_tables) (enc : text_arg -> option string) (env : tx_env)
    (q : start_request) (m : manager) : Prop :=
  _validate_id_token_shape (sr_token q) = None /\ _validate_request_start_profile (sr_profile q) = None /\
  active_transactions m @? start_key q = None /\
  rd_status (fst (authorize fleet (x_auth env) (sr_station q) (id_token (sr_token q)) (rfid m))) = AUTH_ACCEPTED /\
  x_status env = Ok (Some "Available"%string) /\ x_store_ok env = true /\
  is_Some (enc (TextTokenType (token_type (sr_token q)))).

Lemma available_spec env : _check_evse_availability env = true <-> x_status env = Ok (Some "Available"%string).
Proof.
  unfold _check_evse_availability. destruct (x_status env) as [[s|]|]; try done.
  rewrite String.eqb_eq. split; [by intros -> | by intros [= ->]].
Qed.

Lemma stored_row enc now station ti tok rows rows' :
  store_transaction enc now station ti tok rows = Some rows' ->
  is_Some (enc (TextTokenType (token_type tok))) /\
  exists r, r ∈ rows' /\ tr_station r = station /\ tr_transaction_id r = ti_transaction_id ti /\
    tr_charging_state r = option_map charging_state_value (charging_state ti).
Proof.
  unfold store_transaction. destruct (enc _) as [s|]; [|done]. intros H. split; [done|].
  destruct (existsb _ rows) eqn:E; injection H as <-.
  - apply existsb_exists in E as (r & Hr & Er). eexists. split.
    { apply list_elem_of_In, in_map_iff. exists r. split; [|exact Hr]. rewrite Er. reflexivity. }
    unfold is_row in Er. apply andb_prop in Er as [E1 E2]. by apply String.eqb_eq in E1, E2.
  - eexists. split; [apply elem_of_app; right; apply list_elem_of_singleton; reflexivity | done].
Qed.

(** What a start must do: be accepted exactly when it is allowed, with its row
    stored and its slot taken, and else leave both alone. *)
Definition start_spec (fleet : fleet_tables) (enc : text_arg -> option string) (env : tx_env)
    (q : start_request) (m : manager) (r : response) (m' : manager) : Prop :=
  match r with
  | Accepted id status =>
      start_allowed fleet enc env q m /\ id = Some (x_uuid env) /\ status = Some "Accepted"%string /\
      active_transactions m' = active_transactions m +{ start_key q := started env q } /\
      exists row, row ∈ db_transactions m' /\ tr_station row = sr_station q /\
        tr_transaction_id row = x_uuid env /\ tr_charging_state row = Some "EVConnected"%string
  | _ => ~ start_allowed fleet enc env q m /\ active_transactions m' = active_transactions m /\
         db_transactions m' = db_transactions m
  end.

Lemma start_meets_spec fleet enc env q m :
  let '(r, m') := request_start_transaction fleet enc env q m in start_spec fleet enc env q m r m'.
Proof.
  unfold request_start_transaction, start_begin, start_spec, start_allowed.
  destruct (_validate_id_token_shape (sr_token q)) as [[c i]|]; [split_and!; [by intros [? _] | done..]|].
  destruct (_validate_request_start_profile (sr_profile q)) as [[c i]|];
    [split_and!; [by intros (_ & ? & _) | done..]|].
  cbn [start_advance]. unfold start_locked, dmem.
  destruct (active_transactions m @? start_key q) eqn:Ek; [split_and!; [by intros (_ & _ & ? & _) | done..]|].
  cbn [start_advance]. unfold start_authorized. destruct (authorize _ _ _ _ _) as [d r] eqn:Eau. cbn [fst].
  destruct (bool_decide_reflect (rd_status d = AUTH_ACCEPTED)) as [Ed|Ed];
    [|split_and!; [by intros (_ & _ & _ & ? & _) | done..]].
  cbn [start_advance]. unfold start_checked. pose proof (available_spec env) as Hav.
  destruct (_check_evse_availability env);
    [|split_and!; [by intros (_ & _ & _ & _ & ?%Hav & _) | done..]].
  cbn [start_advance]. unfold start_stored. rewrite Ed.
  destruct (x_store_ok env); [|split_and!; [by intros (_ & _ & _ & _ & _ & ? & _) | done..]].
  cbn [db_transactions with_rfid].
  destruct (store_transaction _ _ _ _ _ _) as [rows|] eqn:Es.
  - apply stored_row in Es as [Henc Hrow]. split_and!; try done. by apply Hav.
  - split_and!; try done. intros (_ & _ & _ & _ & _ & _ & [s Hs]). unfold store_transaction in Es.
    rewrite Hs in Es. by destruct (existsb _ _).
Qed.

(** A remote start that runs undisturbed is accepted exactly when the token and profile
    are valid, the EVSE is free, the card is authorised, the EVSE is available and its
    row can be stored; then the row is stored and the slot taken, and otherwise neither
    changes. *)
Theorem start_accepted_iff fleet enc env q m :
  let '(r, m') := request_start_transaction fleet enc env q m in start_spec fleet enc env q m r m'.
Proof. apply start_meets_spec. Qed.

(** The driver encodes text arguments from strings only. *)
Theorem enum_argument_rejects_every_start fleet enc env q m :
  (forall t, enc (TextTokenType t) = None) ->
  let '(r, m') := request_start_transaction fleet enc env q m in
  (forall id status, r <> Accepted id status) /\
  active_transactions m' = active_transactions m /\ db_transactions m' = db_transactions m.
Proof.
  intros Henc. pose proof (start_meets_spec fleet enc env q m) as H.
  destruct (request_start_transaction fleet enc env q m) as [[id status|c i s|] m']; [|by destruct H as [_ ?]..].
  cbn [start_spec] in H. destruct H as [(_ & _ & _ & _ & _ & _ & [s Hs]) _]. by rewrite Henc in Hs.
Qed.

(** ** What a stop frees *)

(** Stopping a transaction that is no longer cached but still in the database is
    accepted and frees the slot of its EVSE even though another transaction holds it. *)
Theorem old_stop_frees_busy_evse tele env q m row old t :
  cached_transaction (sp_station q) (sp_transaction_id q) (active_transactions m) = None ->
  get_transaction (sp_station q) (sp_transaction_id q) (db_transactions m) = Some row ->
  _parse_transaction_info row = Some old ->
  active_transactions m @? slot_key (sp_station q) (tr_evse_id row) = Some t ->
  x_get_ok env = true -> x_update_ok env = true ->
  let '(r, m') := request_stop_transaction tele env q m in
  r = Accepted None (Some "Accepted"%string) /\
  active_transactions m' = dpop (slot_key (sp_station q) (tr_evse_id row)) (active_transactions m) /\
  ti_transaction_id t <> sp_transaction_id q.
Proof.
  intros Hc Hg Hp Hk Hgo Huo. unfold request_stop_transaction. cbn [stop_advance].
  unfold _find_transaction. rewrite Hc, Hgo, Hg, Hp. cbn [stop_advance f_info f_key].
  destruct (calculate_cost_keeps tele env (sp_station q) old m) as [Ea _].
  destruct (_calculate_transaction_cost _ _ _ _ m) as [c m1]. cbn [snd] in Ea.
  cbn [stop_advance f_info f_key]. rewrite Huo. cbn [active_transactions with_active mutate f_key].
  assert (ti_evse_id (stopped (sp_reason q) old) = tr_evse_id row) as ->.
  { cbn. unfold _parse_transaction_info in Hp. destruct (tr_charging_state row) as [[|ch s]|].
    - by injection Hp as <-.
    - destruct (charging_state_of_value _); [|done]. by injection Hp as <-.
    - by injection Hp as <-. }
  rewrite Ea. split_and!; [done..|]. intros Eid. apply dget_Some_in in Hk.
  pose proof (find_none _ _ Hc _ (proj1 (list_elem_of_In _ _) Hk)) as Hf. cbn in Hf.
  rewrite Eid, String.eqb_refl, andb_true_r in Hf.
  unfold of_station, slot_key in Hf. by rewrite <- append_assoc, prefix_append in Hf.
Qed.

(** ** Tariff costs *)

Definition all_components (t : Tariff) : list price_component :=
  flat_map price_components (tariff_element t).

(** An energy price without telemetry, or a step size of zero. *)
Definition component_raises (energy : option Q) (c : price_component) : bool :=
  let zero_step := (default 1%Q (pc_stepSize c) =?q 0)%Q in
  match pc_type c with
  | Some t =>
      if String.eqb t "Energy" then match energy with Some _ => zero_step | None => true end
      else if String.eqb t "Time" then zero_step else false
  | None => false
  end.

(** The price of a component by its kind. *)
Definition component_price (energy : option Q) (ti : TransactionInfo) (c : price_component) : Q :=
  let price := default 0%Q (pc_price c) in
  let step := default 1%Q (pc_stepSize c) in
  match pc_type c with
  | Some t => if String.eqb t "Energy" then (default 0 energy / step * price)%Q
              else if String.eqb t "Time" then (inject_Z (default 0%Z (time_spent_charging ti)) / step * price)%Q
              else price
  | None => price
  end.

Lemma component_cost_spec energy ti c :
  component_cost energy ti c = if component_raises energy c then None else Some (component_price energy ti c).
Proof.
  unfold component_cost, component_raises, component_price. destruct (pc_type c) as [t|]; [|done].
  destruct (String.eqb t "Energy"); [destruct energy; [|done]; by destruct (_ =?q _)%Q|].
  destruct (String.eqb t "Time"); [by destruct (_ =?q _)%Q | done].
Qed.

Lemma add_components_spec energy ti cs acc :
  match add_components energy ti cs acc with
  | Some (total, lines) =>
      existsb (component_raises energy) cs = false /\
      (total == fst acc + Qsum (map (component_price energy ti) cs))%Q
  | None => existsb (component_raises energy) cs = true
  end.
Proof.
  revert acc. induction cs as [|c cs IH]; intros acc; cbn [add_components existsb map Qsum].
  { destruct acc. split; [done|]. cbn. ring. }
  rewrite component_cost_spec. destruct (component_raises energy c); [done|]. cbn [orb].
  specialize (IH ((fst acc + component_price energy ti c)%Q,
                  snd acc ++ [(pc_type c, default 0%Q (pc_price c), component_price energy ti c)])).
  destruct (add_components _ _ _ _) as [[total lines]|]; [|done]. destruct IH as [H1 H2]. split; [done|].
  rewrite H2. cbn [fst]. ring.
Qed.

Lemma add_elements_spec energy ti es acc :
  match add_elements energy ti es acc with
  | Some (total, lines) =>
      existsb (component_raises energy) (flat_map price_components es) = false /\
      (total == fst acc + Qsum (map (component_price energy ti) (flat_map price_components es)))%Q
  | None => existsb (component_raises energy) (flat_map price_components es) = true
  end.
Proof.
  revert acc. induction es as [|e es IH]; intros acc; cbn [add_elements flat_map].
  { destruct acc. split; [done|]. cbn. ring. }
  rewrite existsb_app, map_app. pose proof (add_components_spec energy ti (price_components e) acc) as H.
  destruct (add_components _ _ _ acc) as [[total lines]|]; [|by rewrite H]. destruct H as [H1 H2].
  specialize (IH (total, lines)). rewrite H1. cbn [orb].
  destruct (add_elements _ _ _ _) as [[total' lines']|]; [|done]. destruct IH as [H3 H4]. split; [done|].
  rewrite H4, Qsum_app. cbn [fst]. rewrite H2. ring.
Qed.

(** A cost is the rounded sum over all components, or zero dollars as soon as one
    of them cannot be computed. *)
Theorem transaction_cost_exact tele env station ti m tariff m1 :
  get_tariff env station m = (Ok (Some tariff), m1) -> x_energy_ok env = true ->
  let energy := get_transaction_energy tele station (ti_transaction_id ti) (db_transactions m) in
  let c := fst (_calculate_transaction_cost tele env station ti m) in
  if existsb (component_raises energy) (all_components tariff) then c = no_cost
  else cost_currency c = currency tariff /\
       exists total, total_cost c = round2 total /\
         (total == Qsum (map (component_price energy ti) (all_components tariff)))%Q.
Proof.
  intros Ht He. cbn zeta. unfold _calculate_transaction_cost. rewrite Ht, He.
  assert (db_transactions m1 = db_transactions m) as ->.
  { unfold get_tariff in Ht. destruct (tariff_cache m @? station); [by injection Ht as _ <-|].
    destruct (x_tariff_ok env); [|done]. destruct (db_get_tariff _ _); [|done]. by injection Ht as _ <-. }
  set (energy := get_transaction_energy _ _ _ _).
  pose proof (add_elements_spec energy ti (tariff_element tariff) (0%Q, [])) as H.
  fold (all_components tariff) in H. destruct (add_elements _ _ _ _) as [[total lines]|]; [|by rewrite H].
  destruct H as [-> H]. split; [done|]. exists total. split; [done|]. rewrite H. cbn [fst]. ring.
Qed.

(** ** Examples *)

Definition ex_tx_env (now : Z) (uuid : string) : tx_env :=
  {| x_now := now; x_uuid := uuid; x_auth := ex_up now; x_status := Ok (Some "Available"%string);
     x_store_ok := true; x_get_ok := true; x_tariff_ok := true; x_energy_ok := true; x_update_ok := true;
     x_event_ok := true; x_cost_ok := true |}.

Definition ex_manager : manager :=
  {| active_transactions := []; tariff_cache := []; transaction_costs := []; rfid := init_rfid [] [];
     db_transactions := []; db_events := []; db_costs := []; db_tariffs := [] |}.

Definition ex_start_request (tag : string) : start_request :=
  {| sr_station := "CS1"; sr_evse_id := 1; sr_remote_start_id := None;
     sr_token := {| id_token := tag; token_type := ISO14443 |}; sr_profile := [] |}.

(** A driver that would take the enumeration, and one that refuses it. *)
Definition ex_lenient (a : text_arg) : option string :=
  match a with TextStr s => Some s | TextTokenType _ => Some "ISO14443"%string end.
Definition ex_strict (a : text_arg) : option string :=
  match a with TextStr s => Some s | TextTokenType _ => None end.

(** Two starts for one EVSE, run to the moment the first is accepted. *)
Definition ex_task (ph : start_phase) : start_task := {| st_request := ex_start_request "BUS1"; st_phase := ph |}.
Definition ex_run1 (i : nat) (t : start_task) (w : world) : world :=
  run_start ex_fleet ex_lenient (ex_tx_env 10 "T1") i t w.
Definition ex_begin (i : nat) (w : world) : world :=
  {| w_manager := w_manager w; _evse_locks := _evse_locks w;
     w_starts := <[ i := {| st_request := ex_start_request "BUS1"; st_phase := start_begin (ex_start_request "BUS1") |} ]>
                   (w_starts w);
     w_stops := w_stops w |}.
Definition ex_world : world := ex_begin 2 (ex_begin 1 (init_world ex_manager)).
Definition ex_held : world := ex_run1 1 (ex_task AtLock) ex_world.
Definition ex_checked : world := ex_run1 1 (ex_task Authorizing) ex_held.
Definition ex_storing : world := ex_run1 1 (ex_task (CheckingEvse "Accepted")) ex_checked.
Definition ex_accepted : world :=
  ex_run1 1 (ex_task (Storing "Accepted" (started (ex_tx_env 10 "T1") (ex_start_request "BUS1")))) ex_storing.

Lemma ex_world_reachable : rtc (wstep ex_fleet [] ex_lenient) (init_world ex_manager) ex_world.
Proof. eapply rtc_l; [by apply (begin_start _ _ _ 1)|]. apply rtc_once. by apply (begin_start _ _ _ 2). Qed.

Lemma ex_accepted_reachable : rtc (wstep ex_fleet [] ex_lenient) (init_world ex_manager) ex_accepted.
Proof.
  etrans; [exact ex_world_reachable|].
  eapply rtc_l; [by apply (acquire_lock _ _ _ (ex_tx_env 10 "T1") 1 (ex_task AtLock)); vm_compute|].
  eapply rtc_l; [by apply (resume_start _ _ _ (ex_tx_env 10 "T1") 1 (ex_task Authorizing)); vm_compute|].
  eapply rtc_l; [by apply (resume_start _ _ _ (ex_tx_env 10 "T1") 1 (ex_task (CheckingEvse "Accepted"))); vm_compute|].
  apply rtc_once.
  by apply (resume_start _ _ _ (ex_tx_env 10 "T1") 1
              (ex_task (Storing "Accepted" (started (ex_tx_env 10 "T1") (ex_start_request "BUS1"))))); vm_compute.
Qed.

(** The second start takes the lock once the first is accepted. *)
Lemma busy_evse_not_replaced_witness :
  let w' := ex_run1 2 (ex_task AtLock) ex_accepted in
  active_transactions (w_manager ex_accepted) @? "CS1:1"%string = Some (started (ex_tx_env 10 "T1") (ex_start_request "BUS1")) /\
  (active_transactions (w_manager w') @? "CS1:1"%string = None \/
   exists t', active_transactions (w_manager w') @? "CS1:1"%string = Some t' /\ ti_transaction_id t' = "T1"%string).
Proof.
  split; [vm_compute; reflexivity|].
  apply (busy_evse_not_replaced ex_fleet [] ex_lenient ex_manager ex_accepted _ "CS1:1"%string
           (started (ex_tx_env 10 "T1") (ex_start_request "BUS1")) ex_accepted_reachable).
  - apply (acquire_lock _ _ _ (ex_tx_env 10 "T1") 2 (ex_task AtLock)); [by vm_compute | done | by vm_compute].
  - vm_compute; reflexivity.
Defined.


Lemma enum_argument_rejects_every_start_witness :
  fst (request_start_transaction ex_fleet ex_strict (ex_tx_env 10 "T1") (ex_start_request "BUS1") ex_manager) = InternalError /\
  let '(r, m') := request_start_transaction ex_fleet ex_strict (ex_tx_env 10 "T1") (ex_start_request "BUS1") ex_manager in
  (forall id status, r <> Accepted id status) /\ active_transactions m' = [] /\ db_transactions m' = [].
Proof.
  split; [vm_compute; reflexivity|].
  exact (enum_argument_rejects_every_start ex_fleet ex_strict (ex_tx_env 10 "T1") (ex_start_request "BUS1") ex_manager
           (fun _ => eq_refl)).
Defined.

(** T1 was stopped at the charger's side of the record; T2 now charges at the EVSE. *)
Definition ex_row (id : string) (ended : option Z) : tx_row :=
  {| tr_station := "CS1"; tr_transaction_id := id; tr_charging_state := Some "Idle"%string; tr_time_spent := Some 3600;
     tr_stopped_reason := None; tr_remote_start_id := None; tr_evse_id := Some 1; tr_connector_id := Some 1;
     tr_id_token := "BUS1"; tr_id_token_type := "ISO14443"; tr_started_at := 0; tr_ended_at := ended |}.
Definition ex_busy : manager :=
  {| active_transactions := [("CS1:1"%string, started (ex_tx_env 10 "T2") (ex_start_request "BUS1"))];
     tariff_cache := []; transaction_costs := []; rfid := init_rfid [] [];
     db_transactions := [ex_row "T1" (Some 5); ex_row "T2" None]; db_events := []; db_costs := []; db_tariffs := [] |}.
Definition ex_stop : stop_request := {| sp_station := "CS1"; sp_transaction_id := "T1"; sp_reason := None |}.

Lemma old_stop_frees_busy_evse_witness :
  let '(r, m') := request_stop_transaction [] (ex_tx_env 20 "") ex_stop ex_busy in
  r = Accepted None (Some "Accepted"%string) /\ active_transactions m' = [] /\ "T2"%string <> "T1"%string.
Proof.
  apply (old_stop_frees_busy_evse [] (ex_tx_env 20 "") ex_stop ex_busy (ex_row "T1" (Some 5))
           {| ti_transaction_id := "T1"; charging_state := Some IDLE; time_spent_charging := Some 3600;
              stopped_reason := None; remote_start_id := None; ti_evse_id := Some 1; ti_connector_id := Some 1 |}
           (started (ex_tx_env 10 "T2") (ex_start_request "BUS1"))); vm_compute; reflexivity.
Defined.

(** An hour at 0.01 per minute and energy at 0.3, but no telemetry: nothing is billed. *)
Definition ex_tariff : Tariff :=
  {| tariff_id := "tou"; currency := "EUR";
     tariff_element := [{| price_components :=
        [{| pc_type := Some "Time"%string; pc_price := Some (1 # 100)%Q; pc_stepSize := Some 60%Q |};
         {| pc_type := Some "Energy"%string; pc_price := Some (3 # 10)%Q; pc_stepSize := None |}];
        restrictions := None |}];
     start_date_time := None; end_date_time := None; min_price := None; max_price := None |}.
Definition ex_tariff_manager : manager := with_tariffs ex_busy [("CS1"%string, ex_tariff)].
Definition ex_charged : TransactionInfo :=
  {| ti_transaction_id := "T1"; charging_state := None; time_spent_charging := Some 3600;
     stopped_reason := None; remote_start_id := None; ti_evse_id := Some 1; ti_connector_id := Some 1 |}.

Lemma transaction_cost_exact_witness :
  existsb (component_raises None) (all_components ex_tariff) = true /\
  fst (_calculate_transaction_cost [] (ex_tx_env 20 "") "CS1" ex_charged ex_tariff_manager) = no_cost.
Proof.
  split; [vm_compute; reflexivity|].
  exact (transaction_cost_exact [] (ex_tx_env 20 "") "CS1" ex_charged ex_tariff_manager ex_tariff ex_tariff_manager
           eq_refl eq_refl).
Defined.
