(* ===== verification/Connections.v ===== *)
(** * Connections ([src/websocket_handler/connection_manager.py])

    The registry of charger connections, its monitoring and cleanup passes, and
    the limiter of messages per station. A websocket is a number; the ones that
    are closed are a set in the state. Other tasks that run during an await are a
    function on the state. Times are microseconds. *)

From S2P Require Import Prelude Models.
From Stdlib Require Import ZArith Lia.
From stdpp Require Import base list strings gmap.

#[local] Open Scope Z_scope.

(** ** The limiter *)

(** A station's requests: a deque of bounded length, a list after a cleanup. *)
Record history := { is_deque : bool; requests : list Z }.

Record StationLimiter := {
  requests_per_minute : Z;
  request_history : dict string history;
  last_cleanup : Z
}.

Definition init_limiter (max_stations now : Z) : StationLimiter :=
  {| requests_per_minute := max_stations * 100; request_history := []; last_cleanup := now |}.

(** [[req for req in ... if req > now - timedelta(minutes=1)]]. *)
Definition recent (now : Z) (l : list Z) : list Z := List.filter (fun t => now - 60 * usec <? t) l.

(** [defaultdict] access: an absent station is an empty deque. *)
Definition history_of (d : dict string history) (st : string) : history :=
  dget_or d st {| is_deque := true; requests := [] |}.

Definition append_request (maxlen now : Z) (h : history) : history :=
  {| is_deque := is_deque h;
     requests := (if is_deque h && (maxlen <=? Z.of_nat (length (requests h))) then tail (requests h)
                  else requests h) ++ [now] |}.

Definition _cleanup_old_entries (now : Z) (l : StationLimiter) : StationLimiter :=
  {| requests_per_minute := requests_per_minute l;
     request_history := omap (fun '(st, h) => match recent now (requests h) with
                                               | [] => None
                                               | r => Some (st, {| is_deque := false; requests := r |})
                                               end) (request_history l);
     last_cleanup := last_cleanup l |}.

(** [timedelta.seconds]: the seconds within the day. *)
Definition timedelta_seconds (d : Z) : Z := (d mod (24 * 3600 * usec)) / usec.

(** [now] is read by the check, [now'] by the cleanup it may run. *)
Definition check_rate_limit (now now' : Z) (st : string) (l : StationLimiter) : bool * StationLimiter :=
  let l := if 60 <? timedelta_seconds (now - last_cleanup l)
           then let l := _cleanup_old_entries now' l in
                {| requests_per_minute := requests_per_minute l; request_history := request_history l;
                   last_cleanup := now |}
           else l in
  let h := history_of (request_history l) st in
  let with_history h := {| requests_per_minute := requests_per_minute l;
                           request_history := request_history l +{ st := h };
                           last_cleanup := last_cleanup l |} in
  if requests_per_minute l <=? Z.of_nat (length (recent now (requests h)))
  then (false, with_history h)
  else (true, with_history (append_request (requests_per_minute l) now h)).

(** ** The registry *)

Record conn_stats := {
  cs_station : string;
  cs_client_ip : string;
  cs_connected_at : Z;
  cs_messages_received : Z;
  cs_messages_sent : Z;
  cs_bytes_received : Z;
  cs_bytes_sent : Z;
  cs_last_activity : Z
}.

Record ConnectionManager := {
  connections : dict string nat;
  station_connections : dict string string;
  last_heartbeats : dict string Z;
  connection_stats : dict string conn_stats;
  rate_limiter : StationLimiter;
  _started : bool;
  _running : bool;
  closed : gset nat
}.

Definition init_connections (max_stations now : Z) : ConnectionManager :=
  {| connections := []; station_connections := []; last_heartbeats := []; connection_stats := [];
     rate_limiter := init_limiter max_stations now; _started := false; _running := false; closed := ∅ |}.

Definition with_registry (m : ConnectionManager) (c : dict string nat) (sc : dict string string)
    (hb : dict string Z) (cs : dict string conn_stats) : ConnectionManager :=
  {| connections := c; station_connections := sc; last_heartbeats := hb; connection_stats := cs;
     rate_limiter := rate_limiter m; _started := _started m; _running := _running m; closed := closed m |}.
Definition with_closed (m : ConnectionManager) (c : gset nat) : ConnectionManager :=
  {| connections := connections m; station_connections := station_connections m;
     last_heartbeats := last_heartbeats m; connection_stats := connection_stats m;
     rate_limiter := rate_limiter m; _started := _started m; _running := _running m; closed := c |}.
Definition with_limiter (m : ConnectionManager) (l : StationLimiter) : ConnectionManager :=
  {| connections := connections m; station_connections := station_connections m;
     last_heartbeats := last_heartbeats m; connection_stats := connection_stats m;
     rate_limiter := l; _started := _started m; _running := _running m; closed := closed m |}.
Definition with_running (m : ConnectionManager) (s r : bool) : ConnectionManager :=
  {| connections := connections m; station_connections := station_connections m;
     last_heartbeats := last_heartbeats m; connection_stats := connection_stats m;
     rate_limiter := rate_limiter m; _started := s; _running := r; closed := closed m |}.

Definition _is_websocket_closed (m : ConnectionManager) (ws : nat) : bool := bool_decide (ws ∈ closed m).

Definition register_connection (now : Z) (st cid ip : string) (ws : nat) (m : ConnectionManager)
  : ConnectionManager :=
  let m := if _started m then m else with_running m true true in
  with_registry m (connections m +{ cid := ws }) (station_connections m +{ st := cid })
    (last_heartbeats m +{ st := now })
    (connection_stats m +{ cid := {| cs_station := st; cs_client_ip := ip; cs_connected_at := now;
                                     cs_messages_received := 0; cs_messages_sent := 0;
                                     cs_bytes_received := 0; cs_bytes_sent := 0;
                                     cs_last_activity := now |} }).

(** The connection named, or else the station's; an empty name is none. *)
Definition named_connection (cid : option string) (st : string) (m : ConnectionManager) : option string :=
  match cid with
  | None | Some EmptyString => station_connections m @? st
  | Some c => Some c
  end.

Definition unregister_connection (st : string) (cid : option string) (m : ConnectionManager)
  : ConnectionManager :=
  match named_connection cid st m with
  | None | Some EmptyString => m
  | Some c =>
      let mine := bool_decide (station_connections m @? st = Some c) in
      with_registry m (dpop c (connections m))
        (if mine then dpop st (station_connections m) else station_connections m)
        (if mine then dpop st (last_heartbeats m) else last_heartbeats m)
        (dpop c (connection_stats m))
  end.

Definition get_connection (st : string) (m : ConnectionManager) : option nat :=
  match station_connections m @? st with
  | None | Some EmptyString => None
  | Some c => connections m @? c
  end.

(** Close and unregister; [during] is what runs while the close is awaited. *)
Definition _mark_connection_for_cleanup (during : ConnectionManager -> ConnectionManager) (st : string)
    (m : ConnectionManager) : ConnectionManager :=
  match station_connections m @? st with
  | None | Some EmptyString => m
  | Some c =>
      match connections m @? c with
      | None => m
      | Some ws =>
          let m := if _is_websocket_closed m ws then m else during (with_closed m ({[ ws ]} ∪ closed m)) in
          unregister_connection st (Some c) m
      end
  end.

(** [ok]: whether the send succeeds; [size] the length of the message. The
    connection is looked up again after the await, which raises if it is gone. *)
Definition send_message_to_station (now size : Z) (ok : bool)
    (during closing : ConnectionManager -> ConnectionManager) (st : string) (m : ConnectionManager)
  : bool * ConnectionManager :=
  match get_connection st m with
  | None => (false, m)
  | Some _ =>
      let m := during m in
      match (if ok then station_connections m @? st else None) with
      | None => (false, _mark_connection_for_cleanup closing st m)
      | Some c =>
          (true,
           match connection_stats m @? c with
           | None => m
           | Some s =>
               with_registry m (connections m) (station_connections m) (last_heartbeats m)
                 (connection_stats m +{ c :=
                    {| cs_station := cs_station s; cs_client_ip := cs_client_ip s;
                       cs_connected_at := cs_connected_at s;
                       cs_messages_received := cs_messages_received s;
                       cs_messages_sent := cs_messages_sent s + 1;
                       cs_bytes_received := cs_bytes_received s;
                       cs_bytes_sent := cs_bytes_sent s + size; cs_last_activity := now |} })
           end)
      end
  end.

(** The sends of a broadcast, one after the other; [ok st] as above. *)
Definition broadcast_message (now size : Z) (ok : string -> bool) (during closing : ConnectionManager -> ConnectionManager)
    (station_filter : list string) (m : ConnectionManager) : nat * ConnectionManager :=
  let targets := match station_filter with [] => dkeys (station_connections m) | l => l end in
  foldl (fun '(n, m) st =>
           let '(sent, m) := send_message_to_station now size (ok st) during closing st m in
           (if sent then S n else n, m))
    (0%nat, m) (List.filter (fun st => dmem st (station_connections m)) targets).

Definition update_heartbeat (now : Z) (st : string) (m : ConnectionManager) : ConnectionManager :=
  with_registry m (connections m) (station_connections m) (last_heartbeats m +{ st := now })
    (connection_stats m).

Definition check_message_rate_limit (enabled : bool) (now now' : Z) (st : string) (m : ConnectionManager)
  : bool * ConnectionManager :=
  if enabled
  then let '(b, l) := check_rate_limit now now' st (rate_limiter m) in (b, with_limiter m l)
  else (true, m).

Definition record_message_received (now size : Z) (st : string) (m : ConnectionManager) : ConnectionManager :=
  match station_connections m @? st with
  | None | Some EmptyString => m
  | Some c =>
      match connection_stats m @? c with
      | None => m
      | Some s =>
          with_registry m (connections m) (station_connections m) (last_heartbeats m)
            (connection_stats m +{ c :=
               {| cs_station := cs_station s; cs_client_ip := cs_client_ip s;
                  cs_connected_at := cs_connected_at s;
                  cs_messages_received := cs_messages_received s + 1;
                  cs_messages_sent := cs_messages_sent s;
                  cs_bytes_received := cs_bytes_received s + size;
                  cs_bytes_sent := cs_bytes_sent s; cs_last_activity := now |} })
      end
  end.

Definition get_active_stations (m : ConnectionManager) : list string := dkeys (station_connections m).
Definition get_connection_count (m : ConnectionManager) : nat := length (connections m).

(** ** The background passes *)

Section Passes.
Context (heartbeat_interval absolute_silence : Z).

(** Whether a pass of [_monitor_connections] marks a station. *)
Definition kill (now : Z) (m : ConnectionManager) (st : string) (heard : Z) : bool :=
  if now - heartbeat_interval * 3 <=? heard then false
  else
    match (match station_connections m @? st with
           | None | Some EmptyString => None
           | Some c => connections m @? c
           end) with
    | None => true
    | Some ws => _is_websocket_closed m ws || (heard <? now - absolute_silence)
    end.

Definition stations_to_kill (now : Z) (m : ConnectionManager) : list string :=
  map fst (List.filter (fun '(st, heard) => kill now m st heard) (last_heartbeats m)).

(** One round of the loop. *)
Definition monitor_pass (now : Z) (during : ConnectionManager -> ConnectionManager) (m : ConnectionManager)
  : ConnectionManager :=
  foldl (fun m st => _mark_connection_for_cleanup during st m) m (stations_to_kill now m).

Definition closed_connections (m : ConnectionManager) : list string :=
  map fst (List.filter (fun '(_, ws) => _is_websocket_closed m ws) (connections m)).

(** The first station routed to the connection. *)
Definition station_of (cid : string) (m : ConnectionManager) : option string :=
  option_map fst (List.find (fun '(_, c) => String.eqb c cid) (station_connections m)).

Definition cleanup_pass (m : ConnectionManager) : ConnectionManager :=
  foldl (fun m cid => match station_of cid m with
                      | None | Some EmptyString => m
                      | Some st => unregister_connection st (Some cid) m
                      end) m (closed_connections m).

(** Healthy and stale stations. *)
Definition get_health_status (now : Z) (m : ConnectionManager) : nat * nat :=
  let healthy := List.filter (fun '(_, h) => now - heartbeat_interval * 3 <=? h) (last_heartbeats m) in
  (length healthy, (length (last_heartbeats m) - length healthy)%nat).
End Passes.

Definition shutdown (m : ConnectionManager) : ConnectionManager :=
  let open := omap (fun '(st, _) => get_connection st m) (station_connections m) in
  with_registry (with_running (with_closed m (list_to_set open ∪ closed m)) (_started m) false) [] [] [] [].
