(* ===== verification/ConnectionsFacts.v ===== *)
(** * Properties of the connection registry

    A station is routed to its newest connection until that very connection is
    unregistered, whatever late cleanups of replaced ones do; a monitoring pass
    drops exactly the dead and the silent; a station's messages are limited in
    every window of a minute. *)

From S2P Require Import Prelude Models Connections.
From Stdlib Require Import ZArith Lia.
From stdpp Require Import base list strings gmap sorting.

#[local] Open Scope Z_scope.

(** ** Routing *)

Inductive conn_event :=
| Registered (st cid : string) (ws : nat)
| Unregistered (st cid : string).

(** Histories of the registry. Connection ids are fresh and not empty; whoever
    unregisters a connection names the station it was registered for. The
    passes and sends are made of these steps. *)
Inductive conn_run : list conn_event -> ConnectionManager -> Prop :=
| cr_start max_stations now : conn_run [] (init_connections max_stations now)
| cr_register log m now st cid ip ws :
    conn_run log m -> cid <> ""%string -> (forall st' ws', Registered st' cid ws' ∉ log) ->
    conn_run (log ++ [Registered st cid ws]) (register_connection now st cid ip ws m)
| cr_unregister log m st cid ws :
    conn_run log m -> Registered st cid ws ∈ log ->
    conn_run (log ++ [Unregistered st cid]) (unregister_connection st (Some cid) m)
| cr_close log m ws : conn_run log m -> conn_run log (with_closed m ({[ ws ]} ∪ closed m))
| cr_heartbeat log m now st : conn_run log m -> conn_run log (update_heartbeat now st m)
| cr_received log m now size st : conn_run log m -> conn_run log (record_message_received now size st m)
| cr_limit log m enabled now now' st : conn_run log m -> conn_run log (snd (check_message_rate_limit enabled now now' st m)).

(** The newest registration of a station, not unregistered since. *)
Definition newest (log : list conn_event) (st cid : string) (ws : nat) : Prop :=
  exists l1 l2, log = l1 ++ Registered st cid ws :: l2 /\
    (forall cid' ws', Registered st cid' ws' ∉ l2) /\ Unregistered st cid ∉ l2.

Lemma snoc_split {A} (l1 l2 log : list A) (x y : A) :
  log ++ [x] = l1 ++ y :: l2 -> (l2 = [] /\ x = y /\ log = l1) \/ exists l3, l2 = l3 ++ [x] /\ log = l1 ++ y :: l3.
Proof.
  intros H. destruct l2 as [|z l2 _] using rev_ind.
  - apply app_inj_tail in H as [-> ->]. auto.
  - rewrite app_comm_cons, app_assoc in H. apply app_inj_tail in H as [-> ->]. eauto.
Qed.

Lemma newest_register log st cid ws st' cid' ws' :
  newest (log ++ [Registered st' cid' ws']) st cid ws <->
  (st = st' /\ cid = cid' /\ ws = ws') \/ (st <> st' /\ newest log st cid ws).
Proof.
  split.
  - intros (l1 & l2 & E & H1 & H2). apply snoc_split in E as [(-> & [= -> -> ->] & ->)|(l3 & -> & ->)]; [auto|].
    right. split.
    + intros ->. apply (H1 cid' ws'). set_solver.
    + exists l1, l3. set_solver.
  - intros [(-> & -> & ->)|(Hne & l1 & l2 & -> & H1 & H2)].
    + exists log, []. set_solver.
    + exists l1, (l2 ++ [Registered st' cid' ws']). rewrite <- app_assoc. set_solver.
Qed.

Lemma newest_unregister log st cid ws st' cid' :
  newest (log ++ [Unregistered st' cid']) st cid ws <-> newest log st cid ws /\ ~ (st = st' /\ cid = cid').
Proof.
  split.
  - intros (l1 & l2 & E & H1 & H2). apply snoc_split in E as [(_ & [=] & _)|(l3 & -> & ->)].
    split; [exists l1, l3; set_solver|]. intros [-> ->]. set_solver.
  - intros [(l1 & l2 & -> & H1 & H2) Hne]. exists l1, (l2 ++ [Unregistered st' cid']).
    rewrite <- app_assoc. split_and!; [done | set_solver|]. rewrite elem_of_app, list_elem_of_singleton.
    intros [?|[= -> ->]]; auto.
Qed.

Lemma newest_in log st cid ws : newest log st cid ws -> Registered st cid ws ∈ log.
Proof. intros (l1 & l2 & -> & _). set_solver. Qed.

Lemma newest_nil st cid ws : ~ newest [] st cid ws.
Proof. intros H%newest_in. set_solver. Qed.

Record routing_inv (log : list conn_event) (m : ConnectionManager) : Prop := {
  ri_ids : forall st st' cid ws ws', Registered st cid ws ∈ log -> Registered st' cid ws' ∈ log -> st = st' /\ ws = ws';
  ri_name : forall st cid ws, Registered st cid ws ∈ log -> cid <> ""%string;
  ri_station : forall st cid, station_connections m @? st = Some cid <-> exists ws, newest log st cid ws;
  ri_socket : forall st cid ws, newest log st cid ws -> connections m @? cid = Some ws;
  ri_wf : dict_wf (station_connections m) /\ dict_wf (last_heartbeats m)
}.

(** Steps that touch neither map keep the invariant. *)
Lemma routing_inv_same log m m' :
  connections m' = connections m -> station_connections m' = station_connections m ->
  dict_wf (last_heartbeats m') -> routing_inv log m -> routing_inv log m'.
Proof. intros E1 E2 Hw []. constructor; rewrite ?E1, ?E2; intuition. Qed.

Lemma register_inv log m now st cid ip ws :
  cid <> ""%string -> (forall st' ws', Registered st' cid ws' ∉ log) -> routing_inv log m ->
  routing_inv (log ++ [Registered st cid ws]) (register_connection now st cid ip ws m).
Proof.
  intros Hne Hfresh [H1 H2 H3 H4 [H5 H6]].
  assert (connections (register_connection now st cid ip ws m) = connections m +{ cid := ws } /\
          station_connections (register_connection now st cid ip ws m) = station_connections m +{ st := cid } /\
          last_heartbeats (register_connection now st cid ip ws m) = last_heartbeats m +{ st := now })
    as (E1 & E2 & E3) by (unfold register_connection; by destruct (_started m)).
  constructor.
  - intros s s' c w w'. rewrite !elem_of_app, !list_elem_of_singleton.
    intros [Ha|Ha] [Hb|Hb]; simplify_eq; [by eapply H1| | |done]; exfalso; by eapply Hfresh.
  - intros s c w. rewrite elem_of_app, list_elem_of_singleton. intros [?|[= -> -> ->]]; eauto.
  - intros s c. rewrite E2, dget_dset. setoid_rewrite newest_register. destruct (decide (st = s)) as [<-|Hs].
    + split; [intros [= <-]; eauto|]. intros [w [(_ & -> & _)|[? _]]]; done.
    + rewrite H3. split; intros [w Hw]; exists w; [by right|]. by destruct Hw as [(? & _)|[_ ?]].
  - intros s c w. rewrite newest_register, E1, dget_dset. intros [(-> & -> & ->)|[Hs Hw]].
    + by rewrite decide_True.
    + rewrite decide_False; [by eapply H4|]. intros <-. by apply (Hfresh s w), newest_in.
  - rewrite E2, E3. by split; apply dict_wf_dset.
Qed.

Lemma unregister_inv log m st cid ws :
  Registered st cid ws ∈ log -> routing_inv log m ->
  routing_inv (log ++ [Unregistered st cid]) (unregister_connection st (Some cid) m).
Proof.
  intros Hreg [H1 H2 H3 H4 [H5 H6]]. set (mine := bool_decide (station_connections m @? st = Some cid)).
  assert (connections (unregister_connection st (Some cid) m) = dpop cid (connections m) /\
          station_connections (unregister_connection st (Some cid) m)
          = (if mine then dpop st (station_connections m) else station_connections m) /\
          last_heartbeats (unregister_connection st (Some cid) m)
          = if mine then dpop st (last_heartbeats m) else last_heartbeats m) as (E1 & E2 & E3).
  { unfold unregister_connection, named_connection. destruct cid; [by destruct (H2 _ _ _ Hreg) | done]. }
  assert (forall s c w, Registered s c w ∈ log ++ [Unregistered st cid] -> Registered s c w ∈ log) as Hin.
  { intros s c w. rewrite elem_of_app, list_elem_of_singleton. by intros [?|[=]]. }
  constructor; [eauto | eauto | | |].
  - intros s c. setoid_rewrite newest_unregister. rewrite E2.
    transitivity (station_connections m @? s = Some c /\ ~ (s = st /\ c = cid)); [|rewrite H3; naive_solver].
    subst mine. case_bool_decide as Hmine; [rewrite dget_dpop; destruct (decide (st = s)) as [<-|]|]; naive_solver.
  - intros s c w [Hn Hne]%newest_unregister. rewrite E1, dget_dpop.
    destruct (decide (cid = c)) as [<-|]; [|by eapply H4].
    destruct (H1 _ _ _ _ _ Hreg (newest_in _ _ _ _ Hn)) as [<- _]. tauto.
  - rewrite E2, E3. destruct mine; [split; by apply dict_wf_dpop | done].
Qed.

Lemma conn_run_inv log m : conn_run log m -> routing_inv log m.
Proof.
  induction 1 as [n now|log m now st cid ip ws _ IH Hn Hf|log m st cid ws _ IH Hr|log m ws _ IH|log m now st _ IH
                 |log m now size st _ IH|log m b now now' st _ IH].
  - constructor; [set_solver | set_solver | | | split; constructor].
    + intros st cid. cbn. split; [done|]. intros [w H]. by apply newest_nil in H.
    + intros st cid ws H. by apply newest_nil in H.
  - by apply register_inv.
  - by eapply unregister_inv.
  - apply (routing_inv_same log m); try done. apply IH.
  - apply (routing_inv_same log m); try done. cbn. apply dict_wf_dset, IH.
  - apply (routing_inv_same log m); [..|done]; unfold record_message_received;
      destruct (station_connections m @? st) as [[|a c]|]; try apply IH; try done;
      (destruct (connection_stats m @? _); [|try apply IH; done]); try apply IH; done.
  - apply (routing_inv_same log m); [..|done]; unfold check_message_rate_limit; destruct b;
      try (destruct (check_rate_limit _ _ _ _)); try apply IH; done.
Qed.

(** A station is routed to a websocket exactly when that is its newest
    registration and this very connection was not unregistered since. *)
Theorem routed_to_newest log m st ws :
  conn_run log m -> get_connection st m = Some ws <-> exists cid, newest log st cid ws.
Proof.
  intros [H1 H2 H3 H4 _]%conn_run_inv. unfold get_connection.
  destruct (station_connections m @? st) as [cid|] eqn:E.
  - apply H3 in E as [w Hw]. pose proof (H2 _ _ _ (newest_in _ _ _ _ Hw)).
    assert ((match cid with ""%string => None | _ => connections m @? cid end) = Some w) as ->
      by (destruct cid; [done|]; by eapply H4).
    split; [intros [= <-]; eauto|]. intros [c Hc].
    assert (c = cid) as ->.
    { assert (station_connections m @? st = Some c) as Ec by (apply H3; eauto).
      assert (station_connections m @? st = Some cid) as Ec' by (apply H3; eauto). congruence. }
    by destruct (H1 _ _ _ _ _ (newest_in _ _ _ _ Hw) (newest_in _ _ _ _ Hc)) as [_ ->].
  - split; [done|]. intros [cid Hc]. assert (station_connections m @? st = Some cid) as E' by (apply H3; eauto).
    congruence.
Qed.

(** ** The passes are histories *)

Lemma routed_registered log m st cid :
  conn_run log m -> station_connections m @? st = Some cid ->
  cid <> ""%string /\ exists ws, Registered st cid ws ∈ log /\ connections m @? cid = Some ws.
Proof.
  intros [H1 H2 H3 H4 _]%conn_run_inv [ws Hw]%H3. pose proof (newest_in _ _ _ _ Hw) as Hin.
  split; [exact (H2 _ _ _ Hin)|]. exists ws. split; [done | exact (H4 _ _ _ Hw)].
Qed.

(** [f] only does what other tasks of the registry can do. *)
Definition runs (f : ConnectionManager -> ConnectionManager) : Prop :=
  forall log m, conn_run log m -> exists log', conn_run (log ++ log') (f m).

Lemma runs_id : runs id.
Proof. intros log m H. exists []. by rewrite app_nil_r. Qed.

Lemma mark_run during st : runs during -> runs (_mark_connection_for_cleanup during st).
Proof.
  intros Hd log m H. unfold _mark_connection_for_cleanup.
  destruct (station_connections m @? st) as [cid|] eqn:E; [|by apply runs_id].
  destruct (routed_registered _ _ _ _ H E) as (Hne & ws & Hin & Hws).
  destruct cid as [|a c]; [done|]. rewrite Hws. destruct (_is_websocket_closed m ws).
  - exists [Unregistered st (String a c)]. by eapply cr_unregister.
  - destruct (Hd log (with_closed m ({[ ws ]} ∪ closed m))) as [log' H']; [by apply cr_close|].
    exists (log' ++ [Unregistered st (String a c)]). rewrite app_assoc.
    apply (cr_unregister _ _ _ _ ws); [done|]. set_solver.
Qed.

Lemma foldl_runs {A} (f : ConnectionManager -> A -> ConnectionManager) l :
  (forall x, runs (fun m => f m x)) -> runs (fun m => foldl f m l).
Proof.
  intros Hf. induction l as [|x l IH]; [exact runs_id|]. intros log m H. cbn [foldl].
  destruct (Hf x log m H) as [l1 H1]. destruct (IH _ _ H1) as [l2 H2]. exists (l1 ++ l2). by rewrite app_assoc.
Qed.

Lemma monitor_run hb silence now during : runs during -> runs (monitor_pass hb silence now during).
Proof. intros Hd log m H. apply (foldl_runs (fun m st => _mark_connection_for_cleanup during st m)); [|done]. intros st. by apply mark_run. Qed.

Lemma cleanup_run : runs cleanup_pass.
Proof.
  intros log m H. apply (foldl_runs (fun m cid => match station_of cid m with
    | None | Some EmptyString => m | Some st => unregister_connection st (Some cid) m end)); [|done].
  clear log m H. intros cid log m H. destruct (station_of cid m) as [[|a st]|] eqn:E; try by apply runs_id.
  unfold station_of in E. destruct (List.find _ _) as [[st' c]|] eqn:Ef; [|done]. injection E as ->.
  apply find_some in Ef as [Hin Hc]. apply String.eqb_eq in Hc as ->. apply list_elem_of_In in Hin.
  destruct (conn_run_inv _ _ H) as [_ _ _ _ [Hw _]].
  destruct (routed_registered _ _ _ _ H (dget_in_wf _ _ _ Hw Hin)) as (_ & ws & Hr & _).
  exists [Unregistered (String a st) cid]. by eapply cr_unregister.
Qed.

(** ** What a monitoring pass drops *)

Lemma mark_effect log m s st :
  conn_run log m ->
  get_connection s (_mark_connection_for_cleanup id st m) = (if decide (s = st) then None else get_connection s m) /\
  (station_connections m @? s = None ->
   station_connections (_mark_connection_for_cleanup id st m) @? s = None /\
   last_heartbeats (_mark_connection_for_cleanup id st m) @? s = last_heartbeats m @? s).
Proof.
  intros H. unfold _mark_connection_for_cleanup.
  destruct (station_connections m @? st) as [cid|] eqn:E; last first.
  { destruct (decide (s = st)) as [->|]; [|done]. unfold get_connection. by rewrite E. }
  destruct (routed_registered _ _ _ _ H E) as (Hne & ws & Hin & Hws).
  destruct cid as [|a c]; [done|]. rewrite Hws. cbn [id].
  set (m1 := if _is_websocket_closed m ws then m else _).
  assert (station_connections m1 = station_connections m /\ connections m1 = connections m /\
          last_heartbeats m1 = last_heartbeats m) as (E1 & E2 & E3) by (subst m1; by destruct (_is_websocket_closed m ws)).
  unfold unregister_connection, named_connection. rewrite bool_decide_eq_true_2 by (by rewrite E1).
  unfold get_connection. cbn [station_connections connections last_heartbeats with_registry].
  rewrite E1, E2, E3, !dget_dpop. destruct (decide (s = st)) as [->|Hs].
  { rewrite !decide_True by done. split; [done|]. by rewrite E. }
  rewrite !decide_False by done. split; [|done].
  destruct (station_connections m @? s) as [[|a' c']|] eqn:Es; try done.
  rewrite dget_dpop, decide_False; [done|]. intros Ec.
  destruct (routed_registered _ _ _ _ H Es) as (_ & w & Hin' & _). rewrite <- Ec in Hin'.
  destruct (conn_run_inv _ _ H) as [Hids _ _ _ _]. by destruct (Hids _ _ _ _ _ Hin Hin') as [-> _].
Qed.

Lemma marks_effect l : forall log m s,
  conn_run log m ->
  let m' := foldl (fun m st => _mark_connection_for_cleanup id st m) m l in
  get_connection s m' = (if decide (s ∈ l) then None else get_connection s m) /\
  (station_connections m @? s = None -> last_heartbeats m' @? s = last_heartbeats m @? s).
Proof.
  induction l as [|st l IH]; intros log m s H; cbn zeta; cbn [foldl].
  { rewrite decide_False by set_solver. done. }
  destruct (mark_effect log m s st H) as [G1 G2].
  destruct (mark_run id st runs_id log m H) as [log' H'].
  destruct (IH _ _ s H') as [I1 I2]. cbn zeta in I1, I2. rewrite I1, G1. split.
  - destruct (decide (s ∈ l)); [by rewrite decide_True by set_solver|].
    destruct (decide (s = st)) as [->|]; [by rewrite decide_True by set_solver | by rewrite decide_False by set_solver].
  - intros Hn. destruct (G2 Hn) as [Hn' Hh]. by rewrite I2.
Qed.

Lemma to_kill_spec hb silence now log m st :
  conn_run log m ->
  st ∈ stations_to_kill hb silence now m <->
  exists h, last_heartbeats m @? st = Some h /\ kill hb silence now m st h = true.
Proof.
  intros H. destruct (conn_run_inv _ _ H) as [_ _ _ _ [_ Hw]]. unfold stations_to_kill. rewrite list_elem_of_In, in_map_iff. split.
  - intros ([s h] & <- & Hin). apply filter_In in Hin as [Hin Hk]. exists h. split; [|done].
    by apply dget_in_wf; [|apply list_elem_of_In].
  - intros (h & Hh & Hk). exists (st, h). split; [done|]. apply filter_In. split; [|done].
    apply list_elem_of_In. by apply dget_Some_in.
Qed.

(** Quiet for three intervals, and closed or silent for too long. *)
Definition dead (hb silence now : Z) (m : ConnectionManager) (st : string) : Prop :=
  exists h, last_heartbeats m @? st = Some h /\ h < now - hb * 3 /\
    forall ws, get_connection st m = Some ws -> ws ∈ closed m \/ h < now - silence.

Lemma kill_spec hb silence now m st h :
  kill hb silence now m st h = true <->
  h < now - hb * 3 /\ forall ws, get_connection st m = Some ws -> ws ∈ closed m \/ h < now - silence.
Proof.
  unfold kill. fold (get_connection st m). destruct (Z.leb_spec (now - hb * 3) h); [split; [done | lia]|].
  destruct (get_connection st m) as [ws|]; [|split; [split; [done | intros ? [=]] | done]].
  unfold _is_websocket_closed. rewrite orb_true_iff, bool_decide_eq_true, Z.ltb_lt. split.
  - intros Hd. split; [done|]. by intros ? [= <-].
  - intros [_ Hd]. by apply Hd.
Qed.

(** A monitoring pass that runs undisturbed drops exactly the stations not heard for
    three heartbeat intervals whose websocket is closed or that have been silent for
    longer than allowed, and leaves the heartbeat of a station without connection in
    place. *)
Theorem monitor_drops_exactly hb silence now log m st :
  conn_run log m ->
  let m' := monitor_pass hb silence now id m in
  (dead hb silence now m st -> get_connection st m' = None) /\
  (~ dead hb silence now m st -> get_connection st m' = get_connection st m) /\
  (station_connections m @? st = None -> last_heartbeats m' @? st = last_heartbeats m @? st).
Proof.
  intros H. cbn zeta. unfold monitor_pass.
  assert (st ∈ stations_to_kill hb silence now m <-> dead hb silence now m st) as Hk.
  { rewrite (to_kill_spec hb silence now log m st H). unfold dead. by setoid_rewrite kill_spec. }
  destruct (marks_effect (stations_to_kill hb silence now m) log m st H) as [-> Hh]. split_and!; [| |exact Hh].
  - intros Hd%Hk. by apply decide_True.
  - intros Hd. apply decide_False. by rewrite Hk.
Qed.

(** ** The message limit *)

(** Sequences of checks; the log holds the admitted requests. A cleanup reads the
    clock again, at most [slack] later. *)
Inductive limit_run (max_stations slack : Z) : Z -> list (string * Z) -> StationLimiter -> Prop :=
| lr_start now : limit_run max_stations slack now [] (init_limiter max_stations now)
| lr_check t log l now now' st b l' :
    limit_run max_stations slack t log l -> t <= now -> now <= now' <= now + slack ->
    check_rate_limit now now' st l = (b, l') ->
    limit_run max_stations slack now' (if b then log ++ [(st, now)] else log) l'.

Definition admitted (st : string) (log : list (string * Z)) : list Z :=
  omap (fun '(s, t) => if decide (s = st) then Some t else None) log.

Lemma admitted_snoc st s t log :
  admitted st (log ++ [(s, t)]) = if decide (s = st) then admitted st log ++ [t] else admitted st log.
Proof. unfold admitted. rewrite omap_app. cbn. destruct (decide (s = st)); [done|]. apply app_nil_r. Qed.

Lemma recent_later a b l : a <= b -> recent b (recent a l) = recent b l.
Proof. intros H. apply (lfilter_window (fun now t => now - 60 * usec <? t)). intros t. rewrite !Z.ltb_lt. lia. Qed.

Lemma recent_app now l1 l2 : recent now (l1 ++ l2) = recent now l1 ++ recent now l2.
Proof. apply List.filter_app. Qed.

Lemma recent_all now l : (forall t, t ∈ l -> now - 60 * usec < t) -> recent now l = l.
Proof.
  induction l as [|t l IH]; [done|]. intros H. cbn [recent List.filter].
  rewrite (proj2 (Z.ltb_lt _ _)) by (apply H; left). f_equal. apply IH. intros x Hx. apply H. by right.
Qed.

Lemma sorted_drop (l : list Z) j a x : StronglySorted Z.le l -> l !! j = Some a -> x ∈ drop j l -> a <= x.
Proof.
  intros Hs. revert j. induction Hs as [|y l Hs IH Hf]; intros [|j] Hj Hx; cbn in Hj, Hx; try done.
  - injection Hj as ->. apply elem_of_cons in Hx as [->|Hx]; [lia|]. by apply (proj1 (Forall_forall _ _) Hf).
  - eauto.
Qed.

(** [limit + 1] admitted requests span at least a minute, up to the slack. *)
Definition spread (slack : Z) (limit : nat) (L : list Z) : Prop :=
  forall i a b, L !! i = Some a -> L !! (i + limit)%nat = Some b -> a + 60 * usec <= b + slack.

Section Limiter.
Context (slack : Z).

Record station_inv (limit t : Z) (L : list Z) (h : history) : Prop := {
  si_sorted : StronglySorted Z.le L;
  si_past : Forall (fun x => x <= t) L;
  si_recent : forall t', t <= t' -> recent t' (requests h) = recent t' L;
  si_hist : StronglySorted Z.le (requests h) /\ Forall (fun x => x <= t) (requests h);
  si_deque : is_deque h = true -> Z.of_nat (length (requests h)) <= limit;
  si_spread : spread slack (Z.to_nat limit) L
}.

Lemma station_inv_later limit t t' L h : t <= t' -> station_inv limit t L h -> station_inv limit t' L h.
Proof.
  intros Ht [H1 H2 H3 [H4 H4'] H5 H6].
  constructor; try done.
  - eapply Forall_impl; [exact H2|]. cbn. lia.
  - intros u Hu. apply H3. lia.
  - split; [done|]. eapply Forall_impl; [exact H4'|]. cbn. lia.
Qed.

Lemma sorted_lfilter (f : Z -> bool) l : StronglySorted Z.le l -> StronglySorted Z.le (List.filter f l).
Proof.
  induction 1 as [|x l Hs IH Hf]; cbn; [constructor|]. destruct (f x); [|done]. constructor; [done|].
  apply Forall_forall. intros y [Hy _]%elem_of_lfilter. by apply (proj1 (Forall_forall _ _) Hf).
Qed.

(** Cleaning up a station's requests; without recent ones the entry goes. *)
Lemma cleanup_station_inv limit t now L h d :
  0 <= limit -> t <= now -> requests h = recent now (requests d) -> is_deque h = false \/ requests h = [] ->
  station_inv limit t L d -> station_inv limit now L h.
Proof.
  intros H0 Ht E Hd Hi. apply (station_inv_later _ t now) in Hi; [|done]. destruct Hi as [H1 H2 H3 [H4 H4'] H5 H6].
  constructor; try done.
  - intros t' Ht'. rewrite E, recent_later by done. auto.
  - rewrite E. split; [by apply sorted_lfilter|]. apply Forall_forall. intros x [Hx _]%elem_of_lfilter.
    by apply (proj1 (Forall_forall _ _) H4').
  - destruct Hd as [->| ->]; [done|]. cbn. lia.
Qed.

Lemma cleanup_history now l st :
  dict_wf (request_history l) ->
  let h := history_of (request_history (_cleanup_old_entries now l)) st in
  requests h = recent now (requests (history_of (request_history l) st)) /\ (is_deque h = false \/ requests h = []).
Proof.
  cbn zeta. unfold history_of, dget_or, dict_wf. cbn [request_history _cleanup_old_entries].
  induction (request_history l) as [|[s h] d IH]; [intros _; split; [done | by right]|].
  cbn [dkeys map fst]. intros [Hs Hn]%NoDup_cons.
  cbn [omap list_omap dget]. specialize (IH Hn). destruct (decide (st = s)) as [->|Hne].
  - apply dget_None_keys in Hs. rewrite Hs in IH. cbn [default from_option id requests] in IH.
    destruct (recent now (requests h)) as [|x r] eqn:E; cbn [dget].
    + rewrite ?decide_True by done. cbn [default from_option id]. rewrite E. destruct IH as [IH1 IH2].
      rewrite IH1. auto.
    + rewrite ?decide_True by done. cbn. rewrite E. auto.
  - rewrite ?(decide_False (P := st = s)) by done.
    destruct (recent now (requests h)); [exact IH|]. cbn [dget]. by rewrite decide_False.
Qed.

Lemma head_old now l :
  StronglySorted Z.le l -> (length (recent now l) < length l)%nat -> exists x r, l = x :: r /\ x <= now - 60 * usec.
Proof.
  intros Hs Hl. destruct l as [|x r]; [cbn in Hl; lia|]. exists x, r. split; [done|].
  destruct (Z.le_gt_cases x (now - 60 * usec)) as [|Hgt]; [done|]. rewrite recent_all in Hl; [lia|].
  intros t Ht. pose proof (sorted_drop (x :: r) 0 x t Hs eq_refl Ht). lia.
Qed.

(** Dropping an entry that has left the window changes no later window. *)
Lemma recent_tail now t' x r : x <= now - 60 * usec -> now <= t' -> recent t' r = recent t' (x :: r).
Proof. intros Hx Ht. cbn. by rewrite (proj2 (Z.ltb_ge _ _)) by lia. Qed.

(** Admitting a request at [now], when the entries were counted at [seen]. *)
Lemma admit_request_inv limit now seen L h :
  0 <= limit -> now <= seen <= now + slack -> Forall (fun x => x <= now) L -> Forall (fun x => x <= now) (requests h) ->
  station_inv limit seen L h -> Z.of_nat (length (recent seen (requests h))) < limit ->
  station_inv limit seen (L ++ [now]) (append_request limit now h).
Proof.
  intros H0 Hsn Hpast Hpast' [H1 H2 H3 [H4 H4'] H5 H6] Hlt.
  assert (exists r, requests (append_request limit now h) = r ++ [now] /\
            (forall t', seen <= t' -> recent t' r = recent t' (requests h)) /\
            StronglySorted Z.le r /\ Forall (fun x => x <= now) r /\
            (is_deque h = true -> Z.of_nat (length r) < limit)) as (r & Er & Hr & Hsr & Hfr & Hlr).
  { cbn [append_request requests]. destruct (is_deque h && _) eqn:E.
    - apply andb_prop in E as [Hd E%Z.leb_le]. specialize (H5 Hd).
      destruct (head_old seen (requests h) H4 ltac:(lia)) as (x & r & Ex & Hx). rewrite Ex in *. cbn [tail length] in *.
      exists r. apply StronglySorted_inv in H4 as [H4 _]. apply Forall_cons in Hpast' as [_ Hpast'].
      split_and!; try done; [|lia]. intros t' Ht'. by apply (recent_tail seen).
    - exists (requests h). split_and!; try done. intros Hd. rewrite Hd in E. cbn [andb] in E. apply Z.leb_gt in E. lia. }
  constructor.
  - by apply sorted_snoc_le.
  - apply Forall_app. split; [done|]. constructor; [lia | constructor].
  - intros t' Ht'. rewrite Er, !recent_app, Hr by done. by rewrite H3.
  - rewrite Er. split; [by apply sorted_snoc_le|]. apply Forall_app. split; [|constructor; [lia | constructor]].
    eapply Forall_impl; [exact Hfr|]. cbn. lia.
  - cbn [append_request is_deque]. intros Hd. rewrite Er, length_app. cbn [length]. specialize (Hlr Hd). lia.
  - intros i a b Ha Hb. destruct (decide (i + Z.to_nat limit < length L)%nat) as [Hin|Hout].
    + rewrite lookup_app_l in Ha by lia. rewrite lookup_app_l in Hb by lia. by eapply H6.
    + pose proof (lookup_lt_Some _ _ _ Hb) as Hlen. rewrite length_app in Hlen. cbn in Hlen.
      rewrite lookup_app_r in Hb by lia. replace (i + Z.to_nat limit - length L)%nat with 0%nat in Hb by lia.
      injection Hb as <-. destruct (Z.le_gt_cases (a + 60 * usec) seen) as [|Hgt]; [lia|]. exfalso.
      rewrite lookup_app_l in Ha by lia. rewrite H3 in Hlt by lia.
      rewrite <- (take_drop i L), recent_app, length_app in Hlt.
      rewrite (recent_all seen (drop i L)), length_drop in Hlt; [lia|].
      intros x Hx. pose proof (sorted_drop _ _ _ _ H1 Ha Hx). lia.
Qed.

Definition limiter_inv (limit t : Z) (log : list (string * Z)) (l : StationLimiter) : Prop :=
  requests_per_minute l = limit /\ dict_wf (request_history l) /\
  forall st, station_inv limit t (admitted st log) (history_of (request_history l) st).

Lemma cleanup_wf now l : dict_wf (request_history l) -> dict_wf (request_history (_cleanup_old_entries now l)).
Proof.
  unfold dict_wf, dkeys. cbn [request_history _cleanup_old_entries]. intros H. eapply sublist_NoDup; [exact H|].
  clear H. induction (request_history l) as [|[s h] d IH]; cbn; [constructor|].
  destruct (recent now (requests h)); cbn; by constructor.
Qed.

(** The limiter once the cleanup has run or was skipped: [seen] is the clock the
    entries were last pruned with. *)
Lemma pruned_inv limit t log l now now' :
  0 <= limit -> limiter_inv limit t log l -> t <= now -> now <= now' ->
  let l1 := if 60 <? timedelta_seconds (now - last_cleanup l)
            then {| requests_per_minute := requests_per_minute (_cleanup_old_entries now' l);
                    request_history := request_history (_cleanup_old_entries now' l); last_cleanup := now |}
            else l in
  exists seen, now <= seen <= now' /\ limiter_inv limit seen log l1 /\
    forall st, recent seen (requests (history_of (request_history l1) st))
               = recent now (requests (history_of (request_history l1) st)) /\
               Forall (fun x => x <= now) (requests (history_of (request_history l1) st)).
Proof.
  intros H0 (Hl & Hw & Hs) Ht Hn. cbn zeta. destruct (60 <? _).
  - exists now'. split; [lia|]. cbn [requests_per_minute request_history].
    assert (forall st, let h := history_of (request_history (_cleanup_old_entries now' l)) st in
              requests h = recent now' (requests (history_of (request_history l) st)) /\
              (is_deque h = false \/ requests h = [])) as Hh by (intros st; by apply cleanup_history).
    split.
    + split_and!; [done | by apply cleanup_wf|]. intros st. destruct (Hh st) as [E D].
      eapply (cleanup_station_inv limit t); [done | lia | exact E | exact D | done].
    + intros st. destruct (Hh st) as [E _]. rewrite E, recent_later by lia. split.
      * symmetry. apply recent_all. intros x [_ Hx]%elem_of_lfilter. apply Z.ltb_lt in Hx. lia.
      * apply Forall_forall. intros x [Hx _]%elem_of_lfilter. destruct (Hs st) as [_ _ _ [_ Hf] _ _].
        pose proof (proj1 (Forall_forall _ _) Hf x Hx) as Hb. cbn in Hb. lia.
  - exists now. split; [lia|]. split.
    + split_and!; [done..|]. intros st. by apply (station_inv_later _ t).
    + intros st. split; [done|]. destruct (Hs st) as [_ _ _ [_ Hf] _ _]. eapply Forall_impl; [exact Hf|]. cbn. lia.
Qed.

Lemma history_of_dset d st s h : history_of (d +{ st := h }) s = if decide (st = s) then h else history_of d s.
Proof. unfold history_of, dget_or. rewrite dget_dset. by destruct (decide (st = s)). Qed.

Lemma check_inv limit t log l now now' st b l' :
  0 <= limit -> limiter_inv limit t log l -> t <= now -> now <= now' <= now + slack ->
  check_rate_limit now now' st l = (b, l') ->
  limiter_inv limit now' (if b then log ++ [(st, now)] else log) l'.
Proof.
  intros H0 Hi Ht Hn' E. pose proof (pruned_inv limit t log l now now' H0 Hi Ht ltac:(lia)) as H.
  unfold check_rate_limit in E. cbn zeta in H, E. set (l1 := if 60 <? _ then _ else l) in *.
  destruct H as (seen & Hseen & (Hl1 & Hw1 & Hs1) & Hc). destruct (Hc st) as [Hrec Hpast].
  set (h := history_of (request_history l1) st) in *.
  assert (Forall (fun x => x <= now) (admitted st log)) as Hadm.
  { destruct Hi as (_ & _ & Hs). destruct (Hs st) as [_ Hp _ _ _ _]. eapply Forall_impl; [exact Hp|]. cbn. lia. }
  destruct (requests_per_minute l1 <=? _) eqn:El; injection E as <- <-; (split_and!; [done | by apply dict_wf_dset|]);
    cbn [request_history]; intros s; rewrite history_of_dset; apply (station_inv_later _ seen); try lia.
  - destruct (decide (st = s)) as [<-|]; apply Hs1.
  - rewrite admitted_snoc. apply Z.leb_gt in El. destruct (decide (st = s)) as [<-|]; [|apply Hs1].
    rewrite Hl1 in El |- *. apply admit_request_inv; [done | lia | done | done | apply Hs1 | by rewrite Hrec].
Qed.

Lemma limit_run_inv max_stations t log l :
  0 <= max_stations -> limit_run max_stations slack t log l -> limiter_inv (max_stations * 100) t log l.
Proof.
  intros H0. induction 1 as [now|t log l now now' st b l' _ IH Ht Hn E].
  - split_and!; [done | constructor|]. intros st. cbn.
    constructor; cbn; try done; try lia; repeat constructor.
  - eapply check_inv; [lia | exact IH | done | done | done].
Qed.
End Limiter.

(** Any [100 * max_stations + 1] messages of a station that are let through span
    at least a minute, up to the time a cleanup takes. *)
Theorem station_message_limit max_stations slack t log l st i a b :
  0 <= max_stations -> limit_run max_stations slack t log l ->
  admitted st log !! i = Some a -> admitted st log !! (i + Z.to_nat (max_stations * 100))%nat = Some b ->
  a + 60 * usec <= b + slack.
Proof.
  intros H0 H. destruct (limit_run_inv slack _ _ _ _ H0 H) as (_ & _ & Hs).
  destruct (Hs st) as [_ _ _ _ _ Hsp]. apply Hsp.
Qed.

(** ** Examples *)

(** A charger reconnects; the handler of the old connection finishes last. *)
Definition ex_reconnect : ConnectionManager :=
  unregister_connection "CS1" (Some "A"%string)
    (register_connection 2 "CS1" "B" "ip" 8 (register_connection 1 "CS1" "A" "ip" 7 (init_connections 1 0))).

Lemma ex_reconnect_run :
  conn_run [Registered "CS1" "A" 7; Registered "CS1" "B" 8; Unregistered "CS1" "A"] ex_reconnect.
Proof.
  apply (cr_unregister [Registered "CS1" "A" 7; Registered "CS1" "B" 8] _ "CS1" "A" 7); [|set_solver].
  apply (cr_register [Registered "CS1" "A" 7] _ 2 "CS1" "B" "ip" 8); [|done | set_solver].
  apply (cr_register [] _ 1 "CS1" "A" "ip" 7); [apply cr_start | done | set_solver].
Qed.

Lemma routed_to_newest_witness :
  get_connection "CS1" ex_reconnect = Some 8%nat /\
  exists cid, newest [Registered "CS1" "A" 7; Registered "CS1" "B" 8; Unregistered "CS1" "A"] "CS1" cid 8.
Proof.
  split; [vm_compute; reflexivity|]. apply (routed_to_newest _ _ _ _ ex_reconnect_run). vm_compute; reflexivity.
Defined.

(** With heartbeats every minute and ten minutes of allowed silence. *)
Lemma monitor_drops_exactly_witness :
  get_connection "CS1" (monitor_pass (60 * usec) (600 * usec) (700 * usec) id ex_reconnect) = None /\
  get_connection "CS1" (monitor_pass (60 * usec) (600 * usec) (300 * usec) id ex_reconnect) = Some 8%nat.
Proof.
  split.
  - apply (monitor_drops_exactly (60 * usec) (600 * usec) (700 * usec) _ _ "CS1" ex_reconnect_run).
    exists 2. split; [vm_compute; reflexivity|]. split; [unfold usec; lia|]. intros ws _. right. unfold usec. lia.
  - etrans; [|vm_compute; reflexivity].
    apply (monitor_drops_exactly (60 * usec) (600 * usec) (300 * usec) _ _ "CS1" ex_reconnect_run).
    intros (h & [= <-] & _ & Hd). specialize (Hd 8%nat eq_refl). vm_compute in Hd. by destruct Hd as [Hd|Hd].
Defined.

(** One station may send 100 messages a minute: one per 0.6 seconds, 101 of them. *)
Fixpoint ex_checks (n : nat) (now : Z) (log : list (string * Z)) (l : StationLimiter) : list (string * Z) * StationLimiter :=
  match n with
  | O => (log, l)
  | S n => let '(b, l) := check_rate_limit now now "CS1" l in
           ex_checks n (now + 600000) (if b then log ++ [("CS1"%string, now)] else log) l
  end.

Lemma ex_checks_run n : forall t now log l,
  limit_run 1 0 t log l -> t <= now ->
  exists t', limit_run 1 0 t' (fst (ex_checks n now log l)) (snd (ex_checks n now log l)).
Proof.
  induction n as [|n IH]; intros t now log l H Ht; cbn [ex_checks]; [eauto|].
  destruct (check_rate_limit now now "CS1" l) as [b l'] eqn:E. apply (IH now); [|lia].
  by apply (lr_check 1 0 t log l now now "CS1" b l'); [| |lia|].
Qed.

Lemma station_message_limit_witness :
  admitted "CS1" (fst (ex_checks 101 0 [] (init_limiter 1 0))) !! 0%nat = Some 0 /\
  admitted "CS1" (fst (ex_checks 101 0 [] (init_limiter 1 0))) !! 100%nat = Some (60 * usec) /\
  0 + 60 * usec <= 60 * usec + 0.
Proof.
  split; [vm_compute; reflexivity|]. split; [vm_compute; reflexivity|].
  destruct (ex_checks_run 101 0 0 [] (init_limiter 1 0) (lr_start 1 0 0) ltac:(lia)) as [t Hr].
  apply (station_message_limit 1 0 t _ _ "CS1" 0 0 (60 * usec) ltac:(lia) Hr); vm_compute; reflexivity.
Defined.
