(* ===== verification/Meter.v ===== *)
(** * Meter readings

    [src/websocket_handler/meter_value_utils.py], the readers of samples in
    [timescale_client.py] and [ocpp16_adapter.py], and the parser of MeterValues in
    [src/adapters/ocpp/charge_point.py]. A sample's text is modelled by what
    [float(...)] makes of it: a finite rational, an infinity, NaN, or an
    exception. *)

From S2P Require Import Prelude Models PyText.
From Stdlib Require Import ZArith QArith Qround Lqa Lia Ascii.
From stdpp Require Import base list strings.

#[local] Open Scope string_scope.
#[local] Open Scope Z_scope.

(** ** Floats with their special values *)

Inductive pyfloat := Fin (q : Q) | Inf (negative : bool) | NaN.

(** What [int(x)] raises on the special values. *)
Inductive meter_error := ValueError | OverflowError.

Definition int_of_float (f : pyfloat) : result meter_error Z :=
  match f with
  | Fin q => Ok (Qtrunc q)
  | Inf _ => Err OverflowError
  | NaN => Err ValueError
  end.

(** [f * c] for a positive finite [c]. *)
Definition fscale (f : pyfloat) (c : Q) : pyfloat :=
  match f with Fin q => Fin (q * c) | _ => f end.

Definition flt (a b : pyfloat) : bool :=
  match a, b with
  | Fin p, Fin q => p <?q q
  | Inf true, Inf true | Inf false, Inf false => false
  | Inf true, (Fin _ | Inf false) => true
  | Fin _, Inf false => true
  | _, _ => false
  end.

(** ** [meter_value_utils.py] *)

Definition _UNIT_TO_WH_SCALE : dict string Q :=
  [("Wh", 1); ("VARh", 1); ("VAh", 1); ("kWh", 1000); ("kVArh", 1000); ("kVAh", 1000)]%Q.

Definition _canonical_unit (unit : string) : string :=
  let lowered := py_lower (strip unit) in
  match List.find (fun c => String.eqb (py_lower c) lowered) (dkeys _UNIT_TO_WH_SCALE) with
  | Some canonical => canonical
  | None => unit
  end.

Definition normalize_energy_to_wh (value : pyfloat) (unit : option string) (multiplier : option Z)
  : result meter_error pyfloat :=
  let? unit_scale :=
    match unit with
    | None | Some EmptyString => Ok 1%Q
    | Some u => match _UNIT_TO_WH_SCALE @? _canonical_unit u with
                | Some s => Ok s
                | None => Err ValueError
                end
    end in
  Ok (fscale (fscale value unit_scale) (Qpower 10 (default 0 multiplier))).

Definition compute_energy_kwh (meter_stop_wh meter_start_wh : option Z) : option Q :=
  match meter_stop_wh, meter_start_wh with
  | Some stop, Some start =>
      if start <=? 0 then None
      else if stop <? start then None
      else Some (inject_Z (stop - start) / 1000)%Q
  | _, _ => None
  end.

Definition DEFAULT_SYNTHESIZED_DELTA_CAP_WH : Z := 50000.

Definition synthesize_energy_kwh_from_meter_stop (meter_stop_wh : option Z) (cap_wh : Z) : option Q :=
  match meter_stop_wh with
  | None => None
  | Some stop =>
      if stop <=? 0 then None
      else if cap_wh <? stop then None
      else Some (inject_Z stop / 1000)%Q
  end.

(** The environment variable: unset or empty, or what [float(raw)] gives. *)
Definition _synthesized_delta_cap_wh (raw : option (option pyfloat)) : result meter_error Z :=
  match raw with
  | None => Ok DEFAULT_SYNTHESIZED_DELTA_CAP_WH
  | Some None => Ok DEFAULT_SYNTHESIZED_DELTA_CAP_WH
  | Some (Some cap_kwh) =>
      if flt cap_kwh (Fin 0) || match cap_kwh with Fin q => (q =?q 0)%Q | _ => false end
      then Ok DEFAULT_SYNTHESIZED_DELTA_CAP_WH
      else int_of_float (fscale cap_kwh 1000)
  end.

(** ** Samples *)

Definition ENERGY_REGISTER : string := "Energy.Active.Import.Register".

(** A sampled value as it arrives. [sv_value] is [None] when absent, otherwise
    the outcome of [float(value)]. *)
Record sampled_value := {
  sv_measurand : option string;
  sv_value : option (option pyfloat);
  sv_unit : option string;
  sv_multiplier : option Z
}.

(** An entry of [transactionData] or [meterValue]: the list under either
    spelling of its key and its parsed timestamp. *)
Record meter_entry := {
  me_sampledValue : option (list sampled_value);
  me_sampled_value : option (list sampled_value);
  me_timestamp : option Z
}.

(** [entry.get("sampledValue") or entry.get("sampled_value") or []]. *)
Definition entry_samples (e : meter_entry) : list sampled_value :=
  match me_sampledValue e with
  | Some (_ :: _) => default [] (me_sampledValue e)
  | _ => default [] (me_sampled_value e)
  end.

(** [entry.get("sampledValue", entry.get("sampled_value", []))]. *)
Definition entry_samples_get (e : meter_entry) : list sampled_value :=
  match me_sampledValue e with
  | Some l => l
  | None => default [] (me_sampled_value e)
  end.

(** The reading of a register sample that is usable: its Wh, if not negative. *)
Definition register_reading (s : sampled_value) : option pyfloat :=
  if bool_decide (sv_measurand s = Some ENERGY_REGISTER)
  then match sv_value s with
       | Some (Some v) =>
           match normalize_energy_to_wh v (sv_unit s) (sv_multiplier s) with
           | Ok wh => if flt wh (Fin 0) then None else Some wh
           | Err _ => None
           end
       | _ => None
       end
  else None.

Definition _extract_register_wh (s : sampled_value) : result meter_error (option Z) :=
  match register_reading s with
  | None => Ok None
  | Some wh => let? z := int_of_float wh in Ok (Some z)
  end.

Definition keep_best (best : option pyfloat) (wh : pyfloat) : option pyfloat :=
  match best with
  | None => Some wh
  | Some b => if flt b wh then Some wh else best
  end.

Definition _resolve_meter_stop (meter_stop : option Z) (transaction_data : list meter_entry)
  : result meter_error (option Z) :=
  if match meter_stop with Some m => 0 <? m | None => false end then Ok meter_stop
  else match fold_left keep_best (omap register_reading (concat (map entry_samples transaction_data))) None with
       | Some best => let? z := int_of_float best in Ok (Some z)
       | None => Ok meter_stop
       end.

(** ** MeterValues ([FleetChargePoint.on_meter_values]) *)

Definition starts_with (p s : string) : bool := String.prefix p s.

Definition _default_unit_for_measurand (measurand : string) : string :=
  if starts_with "Energy." measurand then "Wh"
  else if starts_with "Power." measurand then "W"
  else if starts_with "Current." measurand then "A"
  else if starts_with "Voltage." measurand then "V"
  else if String.eqb measurand "SoC" then "Percent"
  else "".

(** A parsed sample; its context, phase, location and format are carried along
    unchanged and left out. *)
Record raw_sample := {
  rs_measurand : string;
  rs_value : pyfloat;
  rs_unit : string;
  rs_timestamp : option Z
}.

Record meter_frame := {
  mf_soc : option pyfloat;
  mf_power_kw : option pyfloat;
  mf_energy_kwh : option pyfloat;
  mf_max_charge_kw : option pyfloat;
  mf_timestamp : option Z;
  mf_samples : list raw_sample
}.

Definition empty_frame : meter_frame :=
  {| mf_soc := None; mf_power_kw := None; mf_energy_kwh := None; mf_max_charge_kw := None;
     mf_timestamp := None; mf_samples := [] |}.

(** [value] in the kilo-unit: divided by 1000 unless the unit says so already. *)
Definition in_kilo (kilo : list string) (unit : string) (v : pyfloat) : pyfloat :=
  if bool_decide (unit ∈ kilo) then v else fscale v (1 # 1000).

Definition read_sample (f : meter_frame) (s : sampled_value) : meter_frame :=
  let measurand := default ENERGY_REGISTER (sv_measurand s) in
  let unit := default (_default_unit_for_measurand measurand) (sv_unit s) in
  match default (Some (Fin 0)) (sv_value s) with
  | None => f
  | Some v =>
      let soc := if String.eqb measurand "SoC" then Some (fscale v (1 # 100)) else mf_soc f in
      let power := if String.eqb measurand "Power.Active.Import"
                   then Some (in_kilo ["kW"; "kw"] unit v) else mf_power_kw f in
      let energy := if String.eqb measurand ENERGY_REGISTER
                    then Some (in_kilo ["kWh"; "kwh"] unit v) else mf_energy_kwh f in
      let max_kw := if String.eqb measurand "Power.Offered" then Some (in_kilo ["kW"; "kw"] unit v)
                    else if bool_decide (measurand ∈ ["maxChargingRate"; "MaxChargingRate"])
                    then match mf_max_charge_kw f with
                         | None => Some (in_kilo ["kW"; "kw"] unit v)
                         | Some m => Some m
                         end
                    else mf_max_charge_kw f in
      {| mf_soc := soc; mf_power_kw := power; mf_energy_kwh := energy; mf_max_charge_kw := max_kw;
         mf_timestamp := mf_timestamp f;
         mf_samples := mf_samples f ++
           [{| rs_measurand := measurand; rs_value := v; rs_unit := unit;
               rs_timestamp := mf_timestamp f |}] |}
  end.

Definition read_entry (f : meter_frame) (e : meter_entry) : meter_frame :=
  let ts := match me_timestamp e with Some t => Some t | None => mf_timestamp f end in
  fold_left read_sample (entry_samples_get e)
    {| mf_soc := mf_soc f; mf_power_kw := mf_power_kw f; mf_energy_kwh := mf_energy_kwh f;
       mf_max_charge_kw := mf_max_charge_kw f; mf_timestamp := ts; mf_samples := mf_samples f |}.

(** The frame handed to the callback, when there is one. *)
Definition on_meter_values (meter_value : list meter_entry) : option (Z * meter_frame) :=
  let f := fold_left read_entry meter_value empty_frame in
  if bool_decide (is_Some (mf_soc f)) || bool_decide (is_Some (mf_power_kw f))
     || bool_decide (is_Some (mf_energy_kwh f))
  then match mf_timestamp f with Some t => Some (t, f) | None => None end
  else None.

(** A parsed sample read back by the database client: it has no multiplier. *)
Definition sample_dict (r : raw_sample) : sampled_value :=
  {| sv_measurand := Some (rs_measurand r); sv_value := Some (Some (rs_value r));
     sv_unit := Some (rs_unit r); sv_multiplier := None |}.
