(* ===== verification/Sessions.v ===== *)
(** * Charging sessions

    The life of a session row: StartTransaction and StopTransaction of an OCPP 1.6
    charger ([src/adapters/ocpp/charge_point.py],
    [src/websocket_handler/ocpp16_adapter.py]), the meter readings in between, the
    reload after a reboot, the recovery of sessions whose stop never arrived, and
    the statements of [src/websocket_handler/timescale_client.py] behind them. The
    tables are lists of rows. The handlers of one charger run one after the other,
    as its socket serialises them; what the database answers to each statement is an
    argument. A session's UUID is an argument of the insert. *)

From S2P Require Import Prelude Models PyText Rfid Meter.
From Stdlib Require Import ZArith QArith Lia Ascii.
From stdpp Require Import base list strings gmap.

#[local] Open Scope Z_scope.

(** ** Tables *)

Record session := {
  cs_id : string;
  cs_station : string;
  cs_tx : option Z;
  cs_evse : Z;
  cs_connector : Z;
  cs_id_token : option string;
  cs_start : Z;
  cs_end : option Z;
  cs_live : bool;                    (* [source = 'live'] *)
  cs_vehicle : option string;
  cs_driver : option string;
  cs_card : option string;
  cs_meter_start : option Z;
  cs_meter_stop : option Z;
  cs_last_meter : option Z;
  cs_last_meter_seen : option Z;
  cs_last_seen : option Z;
  cs_updated : option Z;
  cs_energy : option Q;
  cs_stop_reason : option string;
  cs_power : option pyfloat;
  cs_soc : option pyfloat;
  cs_max_power : option pyfloat
}.

(** [end_time IS NULL AND source = 'live']. *)
Definition is_open (r : session) : bool := bool_decide (cs_end r = None) && cs_live r.

(** The open row of a transaction. *)
Definition open_tx (station : string) (tx : Z) (r : session) : bool :=
  String.eqb (cs_station r) station && bool_decide (cs_tx r = Some tx) && is_open r.

Record telemetry := {
  tl_time : Z;
  tl_station : string;
  tl_connector : Z;
  tl_tx : option Z;
  tl_vehicle : option string;
  tl_charger : option string;
  tl_soc : option pyfloat;
  tl_kw : option pyfloat;
  tl_plugged : option bool;
  tl_max_kw : option pyfloat;
  tl_energy : option pyfloat
}.

(** ** Statements of [TimescaleClient] *)

Definition coalesce {A} (a b : option A) : option A := match a with Some _ => a | None => b end.

(** [UPDATE ... WHERE p]. *)
Definition update_where {A} (p : A -> bool) (f : A -> A) (l : list A) : list A :=
  map (fun r => if p r then f r else r) l.

Definition is_transaction_open (station : string) (tx : Z) (t : list session) : bool :=
  existsb (open_tx station tx) t.

(** [ORDER BY start_time DESC LIMIT 1]. *)
Definition latest_start (t : list session) : option session :=
  head (sort_by (fun a b => cs_start b <=? cs_start a) t).

Definition lookup_session_connector (station : string) (tx : Z) (t : list session) : option Z :=
  option_map cs_connector
    (latest_start (List.filter (fun r => String.eqb (cs_station r) station
                                         && bool_decide (cs_tx r = Some tx)) t)).

Definition fetch_open_sessions (station : string) (t : list session) : list session :=
  sort_by (fun a b => cs_start a <=? cs_start b)
    (List.filter (fun r => String.eqb (cs_station r) station && is_open r
                           && bool_decide (is_Some (cs_tx r))) t).

(** What the handler stashes between accepting a start and drawing its id. *)
Record pending_start := {
  ps_connector : Z;
  ps_evse : Z;
  ps_id_tag : string;
  ps_start : Z;
  ps_meter_start : option Z;
  ps_vehicle : option string;
  ps_driver : option string;
  ps_card : option string
}.

Definition insert_open_session (uuid : string) (now : Z) (station : string) (tx : Z) (p : pending_start)
    (t : list session) : list session :=
  if existsb (open_tx station tx) t then t
  else t ++ [{| cs_id := uuid; cs_station := station; cs_tx := Some tx; cs_evse := ps_evse p;
                cs_connector := ps_connector p; cs_id_token := Some (ps_id_tag p);
                cs_start := ps_start p; cs_end := None; cs_live := true;
                cs_vehicle := ps_vehicle p; cs_driver := ps_driver p; cs_card := ps_card p;
                cs_meter_start := ps_meter_start p; cs_meter_stop := None; cs_last_meter := None;
                cs_last_meter_seen := None; cs_last_seen := None; cs_updated := Some now;
                cs_energy := None; cs_stop_reason := None; cs_power := None; cs_soc := None;
                cs_max_power := None |}].

Definition close_row (now end_time : Z) (meter_stop : option Z) (energy : option Q)
    (reason : option string) (r : session) : session :=
  {| cs_id := cs_id r; cs_station := cs_station r; cs_tx := cs_tx r; cs_evse := cs_evse r;
     cs_connector := cs_connector r; cs_id_token := cs_id_token r; cs_start := cs_start r;
     cs_end := Some end_time; cs_live := cs_live r; cs_vehicle := cs_vehicle r;
     cs_driver := cs_driver r; cs_card := cs_card r; cs_meter_start := cs_meter_start r;
     cs_meter_stop := meter_stop; cs_last_meter := cs_last_meter r;
     cs_last_meter_seen := cs_last_meter_seen r; cs_last_seen := cs_last_seen r;
     cs_updated := Some now; cs_energy := energy;
     cs_stop_reason := coalesce reason (cs_stop_reason r); cs_power := cs_power r;
     cs_soc := cs_soc r; cs_max_power := cs_max_power r |}.

(** What closing returns: the row's registers, its energy, its id and whether
    the energy was synthesised. *)
Record close_result := {
  cr_meter_start : option Z;
  cr_last_meter : option Z;
  cr_energy : option Q;
  cr_session : string;
  cr_synthesized : bool
}.

(** The energy, whether it is synthesised and the reason written for it. *)
Definition closing_energy (cap : option (option pyfloat)) (meter_stop : option Z)
    (reason : option string) (r : session) : result meter_error (option Q * bool * option string) :=
  let energy := compute_energy_kwh meter_stop (cs_meter_start r) in
  match energy, cs_meter_start r, cs_last_meter r, meter_stop with
  | None, None, None, Some _ =>
      let? cap_wh := _synthesized_delta_cap_wh cap in
      match synthesize_energy_kwh_from_meter_stop meter_stop cap_wh with
      | Some e =>
          let base := match reason with None | Some EmptyString => "unknown"%string | Some b => b end in
          Ok (Some e, true, Some (String.substring 0 64 (base +:+ "|synthesized_delta")))
      | None => Ok (None, false, reason)
      end
  | _, _, _, _ => Ok (energy, false, reason)
  end.

Definition close_open_session (cap : option (option pyfloat)) (now : Z) (station : string) (tx end_time : Z)
    (meter_stop : option Z) (reason : option string) (t : list session)
  : result meter_error (option close_result * list session) :=
  match List.find (open_tx station tx) t with
  | None => Ok (None, t)
  | Some r =>
      let? d := closing_energy cap meter_stop reason r in
      let '(energy, synthesized, why) := d in
      Ok (Some {| cr_meter_start := cs_meter_start r; cr_last_meter := cs_last_meter r;
                  cr_energy := energy; cr_session := cs_id r; cr_synthesized := synthesized |},
          update_where (fun x => String.eqb (cs_id x) (cs_id r) && open_tx station tx x)
            (close_row now end_time meter_stop energy why) t)
  end.

(** The orphan predicate of [recover_orphaned_sessions]. *)
Definition stale (now threshold : Z) (r : session) : bool :=
  match cs_last_seen r with
  | Some seen => seen <? now - threshold
  | None => (cs_start r <? now - threshold)
            && (default (cs_start r) (coalesce (cs_last_meter_seen r) (cs_updated r)) <? now - threshold)
  end.

Definition orphans (now threshold : Z) (limit : nat) (t : list session) : list session :=
  take limit (sort_by (fun a b => default (cs_start a) (cs_last_seen a)
                                  <=? default (cs_start b) (cs_last_seen b))
    (List.filter (fun r => is_open r && bool_decide (is_Some (cs_tx r)) && stale now threshold r) t)).

(** The update of one selected row, at [now]; the row is tested again. *)
Definition recover_row (now threshold clock : Z) (acc : list session * list session) (r : session)
  : list session * list session :=
  let '(closed, t) := acc in
  match cs_tx r with
  | None => acc
  | Some tx =>
      let hit x := String.eqb (cs_id x) (cs_id r) && open_tx (cs_station r) tx x
                   && stale now threshold x in
      let f := close_row now (default clock (cs_last_seen r)) (cs_last_meter r)
                 (compute_energy_kwh (cs_last_meter r) (cs_meter_start r)) (Some "orphaned_recovered") in
      (closed ++ map f (List.filter hit t), update_where hit f t)
  end.

(** [select_now], [now] and [clock] are the statements' and the process's clocks.
    The rows closed, and the table. *)
Definition recover_orphaned_sessions (select_now now clock threshold : Z) (limit : nat) (t : list session)
  : list session * list session :=
  fold_left (recover_row now threshold clock) (orphans select_now threshold limit t) ([], t).

Definition with_last_seen (v : option Z) (r : session) : session :=
  {| cs_id := cs_id r; cs_station := cs_station r; cs_tx := cs_tx r; cs_evse := cs_evse r;
     cs_connector := cs_connector r; cs_id_token := cs_id_token r; cs_start := cs_start r;
     cs_end := cs_end r; cs_live := cs_live r; cs_vehicle := cs_vehicle r;
     cs_driver := cs_driver r; cs_card := cs_card r; cs_meter_start := cs_meter_start r;
     cs_meter_stop := cs_meter_stop r; cs_last_meter := cs_last_meter r;
     cs_last_meter_seen := cs_last_meter_seen r; cs_last_seen := v;
     cs_updated := cs_updated r; cs_energy := cs_energy r; cs_stop_reason := cs_stop_reason r;
     cs_power := cs_power r; cs_soc := cs_soc r; cs_max_power := cs_max_power r |}.

Definition mark_sessions_seen (now : Z) (station : string) (t : list session) : list session :=
  update_where (fun r => String.eqb (cs_station r) station && is_open r) (with_last_seen (Some now)) t.

Definition clear_sessions_seen (station : string) (t : list session) : list session :=
  update_where (fun r => String.eqb (cs_station r) station && is_open r) (with_last_seen None) t.

(** ** Meter readings of an open session *)

(** [GREATEST]: [NULL] is ignored and NaN is above every number. *)
Definition greatest (a b : option pyfloat) : option pyfloat :=
  match a, b with
  | None, _ => b
  | _, None => a
  | Some NaN, _ => a
  | _, Some NaN => b
  | Some x, Some y => if flt x y then b else a
  end.

(** [COALESCE(meter_start_wh, CASE WHEN $6 > 0 THEN $6 END)]. *)
Definition effective_start (meter : Z) (r : session) : option Z :=
  coalesce (cs_meter_start r) (if 0 <? meter then Some meter else None).

(** The columns an accepted reading of the register sets. *)
Definition live_register (now meter : Z) (r : session) : option Z * option Z * option Z * option Q :=
  let last := Z.max (default meter (cs_last_meter r)) meter in
  (effective_start meter r, Some last, Some now,
   match effective_start meter r with
   | Some start => if (0 <? start) && (start <=? last)
                   then Some (inject_Z (last - start) / 1000)%Q else cs_energy r
   | None => cs_energy r
   end).

Definition live_row (now : Z) (power soc max_kw : option pyfloat) (meter : option Z) (r : session) : session :=
  let '(start, last, seen, energy) :=
    match meter with
    | Some m => live_register now m r
    | None => (cs_meter_start r, cs_last_meter r, cs_last_meter_seen r, cs_energy r)
    end in
  {| cs_id := cs_id r; cs_station := cs_station r; cs_tx := cs_tx r; cs_evse := cs_evse r;
     cs_connector := cs_connector r; cs_id_token := cs_id_token r; cs_start := cs_start r;
     cs_end := cs_end r; cs_live := cs_live r; cs_vehicle := cs_vehicle r;
     cs_driver := cs_driver r; cs_card := cs_card r; cs_meter_start := start;
     cs_meter_stop := cs_meter_stop r; cs_last_meter := last;
     cs_last_meter_seen := seen; cs_last_seen := cs_last_seen r;
     cs_updated := Some now; cs_energy := energy; cs_stop_reason := cs_stop_reason r;
     cs_power := coalesce power (cs_power r); cs_soc := coalesce soc (cs_soc r);
     cs_max_power := greatest (cs_max_power r) max_kw |}.

Definition _update_session_live_metrics (now : Z) (station : string) (tx : Z)
    (power soc_percent max_kw : option pyfloat) (meter : option Z) (t : list session) : list session :=
  update_where (open_tx station tx)
    (live_row now power (option_map (fun s => fscale s (1 # 100)) soc_percent) max_kw meter) t.

(** A row of the telemetry queue. *)
Record telemetry_data := {
  td_time : Z;
  td_station : string;
  td_connector : Z;
  td_session : option string;
  td_power_kw : option pyfloat;
  td_energy_kwh : option pyfloat;
  td_soc_percent : option pyfloat;
  td_max_kw : option pyfloat;
  td_raw : option raw_sample;
  td_index : option Z
}.

Definition _coerce_transaction_id (value : option string) : option Z :=
  match value with
  | None => None
  | Some v => if String.eqb (strip v) "" then None else py_int (strip v)
  end.

Definition _resolve_vehicle_id_from_session (t : list session) (session_id : option string) : option string :=
  match session_id with
  | None | Some EmptyString => None
  | Some key =>
      let row := match uuid_of_string key with
                 | Some u => List.find (fun r => String.eqb (cs_id r) u) t
                 | None => match py_int key with
                           | Some tx => latest_start (List.filter (fun r => bool_decide (cs_tx r = Some tx)) t)
                           | None => None
                           end
                 end in
      match row with
      | Some r => match cs_vehicle r with Some EmptyString => None | v => v end
      | None => None
      end
  end.

(** [INSERT ... ON CONFLICT (time, station_id, connector_id) DO UPDATE]. *)
Fixpoint upsert_telemetry (n : telemetry) (l : list telemetry) : list telemetry :=
  match l with
  | [] => [n]
  | o :: l' =>
      if bool_decide (tl_time o = tl_time n) && String.eqb (tl_station o) (tl_station n)
         && bool_decide (tl_connector o = tl_connector n)
      then {| tl_time := tl_time o; tl_station := tl_station o; tl_connector := tl_connector o;
              tl_tx := coalesce (tl_tx n) (tl_tx o);
              tl_vehicle := coalesce (tl_vehicle n) (tl_vehicle o);
              tl_charger := coalesce (tl_charger n) (tl_charger o);
              tl_soc := coalesce (tl_soc n) (tl_soc o); tl_kw := coalesce (tl_kw n) (tl_kw o);
              tl_plugged := coalesce (tl_plugged n) (tl_plugged o);
              tl_max_kw := coalesce (tl_max_kw n) (tl_max_kw o);
              tl_energy := coalesce (tl_energy n) (tl_energy o) |} :: l'
      else o :: upsert_telemetry n l'
  end.

Definition telemetry_time (d : telemetry_data) : Z :=
  match td_raw d with
  | None => td_time d
  | Some s => default (td_time d) (rs_timestamp s)
              + match td_index d with Some i => if 0 <? i then i else 0 | None => 0 end
  end.

Section Batch.
(** [charger_of] looks a station's charger up; [now] is the statements' clock. *)
Context (charger_of : string -> option string) (now : Z).

(** One row: [Err] when its sample makes [int] raise. *)
Definition insert_telemetry_row (d : telemetry_data) (tables : list session * list telemetry)
  : result meter_error (list session * list telemetry) :=
  let '(t, tel) := tables in
  let tx := _coerce_transaction_id (td_session d) in
  let? meter := match td_raw d with Some s => _extract_register_wh (sample_dict s) | None => Ok None end in
  let energy := match td_raw d with
                | Some _ => option_map (fun m => Fin (inject_Z m / 1000)) meter
                | None => td_energy_kwh d
                end in
  let t := match tx with
           | Some tx => if String.eqb (td_station d) "" then t
                        else _update_session_live_metrics now (td_station d) tx (td_power_kw d)
                               (td_soc_percent d) (td_max_kw d) meter t
           | None => t
           end in
  Ok (t, upsert_telemetry
           {| tl_time := telemetry_time d;
              tl_station := if String.eqb (td_station d) "" then "unknown" else td_station d;
              tl_connector := td_connector d; tl_tx := tx;
              tl_vehicle := _resolve_vehicle_id_from_session t (td_session d);
              tl_charger := if String.eqb (td_station d) "" then None else charger_of (td_station d);
              tl_soc := option_map (fun s => fscale s (1 # 100)) (td_soc_percent d);
              tl_kw := td_power_kw d;
              tl_plugged := option_map (fun p => flt (Fin (1 # 10)) p) (td_power_kw d);
              tl_max_kw := td_max_kw d; tl_energy := energy |} tel).

(** The rows up to the first that raises; the flag says whether all were written.
    [ok] is the number of rows written before the database stops answering. *)
Fixpoint insert_telemetry_batch (ok : nat) (l : list telemetry_data) (tables : list session * list telemetry)
  : bool * (list session * list telemetry) :=
  match l, ok with
  | [], _ => (true, tables)
  | _ :: _, O => (false, tables)
  | d :: l', S ok' =>
      match insert_telemetry_row d tables with
      | Ok tables' => insert_telemetry_batch ok' l' tables'
      | Err _ => (false, tables)
      end
  end.
End Batch.

Definition TELEMETRY_QUEUE_MAXSIZE : nat := 1024.
Definition TELEMETRY_BATCH : nat := 50.

Definition _enqueue_telemetry_row (stopping : bool) (row : telemetry_data) (q : list telemetry_data)
  : list telemetry_data :=
  if stopping then q
  else if (length q <? TELEMETRY_QUEUE_MAXSIZE)%nat then q ++ [row]
  else tail q ++ [row].

(** The rows [_on_meter_values] puts into the queue. *)
Definition _on_meter_values (stopping : bool) (station : string) (connector : Z) (tx : option Z)
    (timestamp : Z) (f : meter_frame) (q : list telemetry_data) : list telemetry_data :=
  let row raw index :=
    {| td_time := timestamp; td_station := station; td_connector := connector;
       td_session := match tx with Some 0 | None => None | Some x => Some (py_str_int x) end;
       td_power_kw := mf_power_kw f; td_energy_kwh := mf_energy_kwh f;
       td_soc_percent := option_map (fun s => fscale s 100) (mf_soc f);
       td_max_kw := mf_max_charge_kw f; td_raw := raw; td_index := index |} in
  match mf_samples f with
  | [] => _enqueue_telemetry_row stopping (row None None) q
  | samples =>
      fold_left (fun q x => _enqueue_telemetry_row stopping (row (Some (snd x)) (Some (Z.of_nat (fst x)))) q)
        (zip (seq 0 (length samples)) samples) q
  end.

(** One turn of [_flush_telemetry_queue]: a batch of [1 + more] rows, at most 50;
    a batch that fails is dropped. *)
Definition flush_batch (charger_of : string -> option string) (now : Z) (ok more : nat)
    (q : list telemetry_data) (tables : list session * list telemetry)
  : list telemetry_data * (list session * list telemetry) :=
  let n := Nat.min TELEMETRY_BATCH (S more) in
  (drop n q, snd (insert_telemetry_batch charger_of now ok (take n q) tables)).

(** ** The handlers of one charger *)

Inductive AuthorizationStatus := accepted | blocked | expired | invalid | concurrent_tx.

#[export] Instance authorization_status_eq_dec : EqDecision AuthorizationStatus.
Proof. solve_decision. Defined.

Definition _map_auth_status (s : RFIDAuthStatus) : AuthorizationStatus :=
  match s with
  | AUTH_ACCEPTED => accepted | AUTH_EXPIRED => expired | AUTH_BLOCKED => blocked
  | CONCURRENT_TX => concurrent_tx | AUTH_INVALID => invalid
  end.

(** The database, the memory of the charger's connection ([OCPP16Session] and its
    [FleetChargePoint]), the process-wide fallback counter and the card service. *)
Record world := {
  sessions : list session;
  telemetries : list telemetry;
  sequence : Z;                              (* last value of [ocpp_transaction_id] *)
  scheduled : list string;                   (* sessions whose cost is to be computed *)
  transactions : dict Z Z;
  current_transaction_id : option Z;
  _pending_start : option pending_start;
  _in_memory_only_tx_ids : gset Z;
  _tx_id_gen : Z;
  cards : rfid_state
}.

Definition with_tables (w : world) (t : list session) (tel : list telemetry) (sched : list string) : world :=
  {| sessions := t; telemetries := tel; sequence := sequence w; scheduled := sched;
     transactions := transactions w; current_transaction_id := current_transaction_id w;
     _pending_start := _pending_start w; _in_memory_only_tx_ids := _in_memory_only_tx_ids w;
     _tx_id_gen := _tx_id_gen w; cards := cards w |}.

Definition with_sessions (w : world) (t : list session) : world :=
  with_tables w t (telemetries w) (scheduled w).

Definition with_memory (w : world) (tr : dict Z Z) (cur : option Z) (mem : gset Z) : world :=
  {| sessions := sessions w; telemetries := telemetries w; sequence := sequence w;
     scheduled := scheduled w; transactions := tr; current_transaction_id := cur;
     _pending_start := _pending_start w; _in_memory_only_tx_ids := mem;
     _tx_id_gen := _tx_id_gen w; cards := cards w |}.

Definition with_pending (w : world) (p : option pending_start) : world :=
  {| sessions := sessions w; telemetries := telemetries w; sequence := sequence w;
     scheduled := scheduled w; transactions := transactions w;
     current_transaction_id := current_transaction_id w; _pending_start := p;
     _in_memory_only_tx_ids := _in_memory_only_tx_ids w; _tx_id_gen := _tx_id_gen w;
     cards := cards w |}.

Definition with_cards (w : world) (c : rfid_state) : world :=
  {| sessions := sessions w; telemetries := telemetries w; sequence := sequence w;
     scheduled := scheduled w; transactions := transactions w;
     current_transaction_id := current_transaction_id w; _pending_start := _pending_start w;
     _in_memory_only_tx_ids := _in_memory_only_tx_ids w; _tx_id_gen := _tx_id_gen w; cards := c |}.

Definition with_counters (w : world) (seq gen : Z) : world :=
  {| sessions := sessions w; telemetries := telemetries w; sequence := seq;
     scheduled := scheduled w; transactions := transactions w;
     current_transaction_id := current_transaction_id w; _pending_start := _pending_start w;
     _in_memory_only_tx_ids := _in_memory_only_tx_ids w; _tx_id_gen := gen; cards := cards w |}.

(** What the world answers during a StartTransaction. *)
Record start_env := {
  st_open_ok : bool;          (* [is_transaction_open] answers *)
  st_seq_ok : bool;           (* [next_transaction_id] answers *)
  st_insert_ok : bool;        (* [insert_open_session] succeeds *)
  st_auth : auth_env;
  st_uuid : string;
  st_now : Z
}.

(** The message; [sm_timestamp] is [None] when it does not parse. *)
Record start_msg := {
  sm_connector : Z;
  sm_id_tag : string;
  sm_meter_start : option Z;
  sm_timestamp : option Z
}.

Section Charger.
Context (fleet : fleet_tables) (cap : option (option pyfloat)) (station : string).

(** The gate on the connector: the answer when it refuses, and the memory when it
    heals a stale entry. *)
Definition start_gate (env : start_env) (connector : Z) (w : world) : option AuthorizationStatus * world :=
  match transactions w @? connector with
  | None => (None, w)
  | Some stale_tx_id =>
      if negb (st_open_ok env) then (Some concurrent_tx, w)
      else if is_transaction_open station stale_tx_id (sessions w) then (Some concurrent_tx, w)
      else if bool_decide (stale_tx_id ∈ _in_memory_only_tx_ids w) then (Some concurrent_tx, w)
      else (None,
            with_memory w (dpop connector (transactions w))
              (if bool_decide (current_transaction_id w = Some stale_tx_id) then None
               else current_transaction_id w)
              (_in_memory_only_tx_ids w ∖ {[ stale_tx_id ]}))
  end.

Definition _on_transaction_start (env : start_env) (m : start_msg) (w : world)
  : AuthorizationStatus * world :=
  match start_gate env (sm_connector m) w with
  | (Some refused, w) => (refused, w)
  | (None, w) =>
      let '(decision, c) := authorize fleet (st_auth env) station (sm_id_tag m) (cards w) in
      let w := with_cards w c in
      let auth_status := _map_auth_status (rd_status decision) in
      if negb (bool_decide (auth_status = accepted)) then (auth_status, w)
      else if dmem (sm_connector m) (transactions w) then (concurrent_tx, w)
      else
        let who f := match rd_identity decision with Some i => f i | None => None end in
        (auth_status,
         with_pending w
           (Some {| ps_connector := sm_connector m; ps_evse := sm_connector m;
                    ps_id_tag := sm_id_tag m; ps_start := default (st_now env) (sm_timestamp m);
                    ps_meter_start := match sm_meter_start m with
                                      | Some z => if 0 <? z then Some z else None
                                      | None => None
                                      end;
                    ps_vehicle := who id_vehicle; ps_driver := who id_driver; ps_card := who id_card |}))
  end.

(** [None] is the exception of the sequence. *)
Definition _next_transaction_id (env : start_env) (w : world) : option Z * world :=
  let pending := _pending_start w in
  let w := with_pending w None in
  if negb (st_seq_ok env)
  then (None,
        match pending with
        | Some p => match transactions w @? ps_connector p with
                    | Some tx => with_memory w (transactions w) (current_transaction_id w)
                                   ({[ tx ]} ∪ _in_memory_only_tx_ids w)
                    | None => w
                    end
        | None => w
        end)
  else
    let tx_id := sequence w + 1 in
    let w := with_counters w tx_id (_tx_id_gen w) in
    match pending with
    | None => (Some tx_id, w)
    | Some p =>
        (Some tx_id,
         if st_insert_ok env
         then with_memory
                (with_sessions w (insert_open_session (st_uuid env) (st_now env) station tx_id p (sessions w)))
                (transactions w) (current_transaction_id w) (_in_memory_only_tx_ids w ∖ {[ tx_id ]})
         else with_memory w (transactions w) (current_transaction_id w)
                ({[ tx_id ]} ∪ _in_memory_only_tx_ids w))
    end.

(** [FleetChargePoint.on_start_transaction], with the outcome of its callback:
    [None] is an exception. The answer is the transaction id and the status. *)
Definition on_start_transaction (callback : option AuthorizationStatus) (env : start_env) (connector : Z)
    (w : world) : Z * AuthorizationStatus * world :=
  let auth_status := default accepted callback in
  if bool_decide (auth_status = accepted)
  then
    let '(drawn, w) := _next_transaction_id env w in
    let '(tx_id, w) :=
      match drawn with
      | Some tx => (tx, w)
      | None => (_tx_id_gen w + 1, with_counters w (sequence w) (_tx_id_gen w + 1))
      end in
    (tx_id, auth_status,
     with_memory w (transactions w +{ connector := tx_id }) (Some tx_id) (_in_memory_only_tx_ids w))
  else (0, auth_status, w).

Definition start_transaction (env : start_env) (m : start_msg) (w : world) : Z * AuthorizationStatus * world :=
  let '(status, w) := _on_transaction_start env m w in
  on_start_transaction (Some status) env (sm_connector m) w.

(** What the world answers during a StopTransaction. *)
Record stop_env := {
  sp_lookup_ok : bool;        (* [lookup_session_connector] answers *)
  sp_close_ok : bool;         (* [close_open_session]'s statements succeed *)
  sp_telemetry_ok : nat -> bool;  (* per sample, whether its row is written *)
  sp_now : Z
}.

Record stop_msg := {
  pm_tx : Z;
  pm_meter_stop : option Z;
  pm_timestamp : option Z;
  pm_reason : string;
  pm_data : list meter_entry
}.

(** The rows [transactionData] is persisted as, one per readable sample. *)
Definition stop_rows (env : stop_env) (m : stop_msg) (connector : Z) : list telemetry_data :=
  concat (map (fun e =>
    let ts := match me_timestamp e with Some t => t | None => default (sp_now env) (pm_timestamp m) end in
    omap (fun s =>
      match default (Some (Fin 0)) (sv_value s) with
      | Some v =>
          Some {| td_time := ts; td_station := station; td_connector := connector;
                  td_session := Some (py_str_int (pm_tx m)); td_power_kw := None;
                  td_energy_kwh := None; td_soc_percent := None; td_max_kw := None;
                  td_raw := Some {| rs_measurand := default ENERGY_REGISTER (sv_measurand s);
                                    rs_value := v; rs_unit := default "Wh"%string (sv_unit s);
                                    rs_timestamp := Some ts |};
                  td_index := None |}
      | None => None
      end) (entry_samples_get e)) (pm_data m)).

Definition close_step (env : stop_env) (m : stop_msg) (meter_stop : option Z) (w : world) : world :=
  match (if sp_close_ok env
         then close_open_session cap (sp_now env) station (pm_tx m)
                (default (sp_now env) (pm_timestamp m)) meter_stop (Some (pm_reason m)) (sessions w)
         else Ok (None, sessions w)) with
  | Ok (Some r, t) => with_tables w t (telemetries w) (scheduled w ++ [cr_session r])
  | Ok (None, t) => with_sessions w t
  | Err _ => w
  end.

Definition persist_step (charger_of : string -> option string) (env : stop_env)
    (ts : list session * list telemetry) (x : nat * telemetry_data) : list session * list telemetry :=
  snd (insert_telemetry_batch charger_of (sp_now env) (if sp_telemetry_ok env (fst x) then 1 else 0)%nat
         [snd x] ts).

(** An exception of [_resolve_meter_stop] leaves the callback; the caller logs it. *)
Definition _on_transaction_stop (charger_of : string -> option string) (env : stop_env) (m : stop_msg)
    (w : world) : world :=
  let connector := if sp_lookup_ok env then lookup_session_connector station (pm_tx m) (sessions w) else None in
  match _resolve_meter_stop (pm_meter_stop m) (pm_data m) with
  | Err _ => w
  | Ok meter_stop =>
      let w := close_step env m meter_stop w in
      let w := with_memory w (transactions w) (current_transaction_id w)
                 (_in_memory_only_tx_ids w ∖ {[ pm_tx m ]}) in
      match connector with
      | None => w
      | Some c =>
          let '(t, tel) :=
            fold_left (persist_step charger_of env)
              (zip (seq 0 (length (stop_rows env m c))) (stop_rows env m c)) (sessions w, telemetries w) in
          with_tables w t tel (scheduled w)
      end
  end.

(** The first connector that runs the transaction is released. *)
Fixpoint release_tx (tx : Z) (d : dict Z Z) : dict Z Z :=
  match d with
  | [] => []
  | (c, x) :: d' => if bool_decide (x = tx) then d' else (c, x) :: release_tx tx d'
  end.

Definition stop_transaction (charger_of : string -> option string) (env : stop_env) (m : stop_msg) (w : world)
  : world :=
  _on_transaction_stop charger_of env m
    (with_memory w (release_tx (pm_tx m) (transactions w))
       (if bool_decide (current_transaction_id w = Some (pm_tx m)) then None else current_transaction_id w)
       (_in_memory_only_tx_ids w)).

(** [_on_boot]: the stale marks are cleared and the open sessions reloaded. *)
Definition reload_step (w : world) (r : session) : world :=
  match cs_tx r with
  | Some tx => with_memory w (transactions w +{ cs_connector r := tx }) (Some tx) (_in_memory_only_tx_ids w)
  | None => w
  end.

Definition _on_boot (clear_ok fetch_ok : bool) (w : world) : world :=
  let w := if clear_ok then with_sessions w (clear_sessions_seen station (sessions w)) else w in
  let open_rows := if fetch_ok then fetch_open_sessions station (sessions w) else [] in
  fold_left reload_step (sort_by (fun a b => cs_start a <=? cs_start b) open_rows) w.

(** A new connection of the charger starts with an empty memory. *)
Definition connect (w : world) : world :=
  with_pending (with_memory w [] None ∅) None.
End Charger.

Definition _on_authorize (fleet : fleet_tables) (env : auth_env) (station id_tag : string) (w : world)
  : AuthorizationStatus * world :=
  let '(decision, c) := authorize fleet env station id_tag (cards w) in
  (_map_auth_status (rd_status decision), with_cards w c).

(** [FleetChargePoint.on_authorize_request] with the outcome of its callback. *)
Definition on_authorize_request (callback : option AuthorizationStatus) : AuthorizationStatus :=
  default invalid callback.

(** ** Everything that touches the table *)

Inductive op :=
| OStart (env : start_env) (m : start_msg)
| OStop (charger_of : string -> option string) (env : stop_env) (m : stop_msg)
| OMeter (charger_of : string -> option string) (now : Z) (ok : nat) (rows : list telemetry_data)
| OBoot (clear_ok fetch_ok : bool)
| OConnect
| ODisconnect (now : Z)
| ORecover (select_now now clock threshold : Z) (limit : nat)
| OOther (station uuid : string) (now : Z) (p : pending_start).   (* a start at another charger *)

Definition step (fleet : fleet_tables) (cap : option (option pyfloat)) (station : string) (o : op) (w : world)
  : world :=
  match o with
  | OStart env m => snd (start_transaction fleet station env m w)
  | OStop charger_of env m => stop_transaction cap station charger_of env m w
  | OMeter charger_of now ok rows =>
      let '(t, tel) := snd (insert_telemetry_batch charger_of now ok rows (sessions w, telemetries w)) in
      with_tables w t tel (scheduled w)
  | OBoot clear_ok fetch_ok => _on_boot station clear_ok fetch_ok w
  | OConnect => connect w
  | ODisconnect now => with_sessions w (mark_sessions_seen now station (sessions w))
  | ORecover select_now now clock threshold limit =>
      let '(closed, t) := recover_orphaned_sessions select_now now clock threshold limit (sessions w) in
      with_tables w t (telemetries w) (scheduled w ++ map cs_id closed)
  | OOther st uuid now p =>
      let w := with_counters w (sequence w + 1) (_tx_id_gen w) in
      with_sessions w (insert_open_session uuid now st (sequence w) p (sessions w))
  end.

Definition run (fleet : fleet_tables) (cap : option (option pyfloat)) (station : string) (ops : list op)
    (w : world) : world :=
  fold_left (fun w o => step fleet cap station o w) ops w.
