(* ===== verification/SessionsFacts.v ===== *)
(** * Facts about charging sessions

    What happens to a row over its life, how many open rows a connector can have,
    the energy a row reports, which sessions the recovery closes, and what each of
    the failure paths does. *)

From S2P Require Import Prelude Models PyText Rfid RfidFacts Meter Sessions.
From Stdlib Require Import ZArith QArith Lqa Lia Ascii.
From stdpp Require Import base list strings gmap.

#[local] Open Scope Z_scope.

(** ** The history of a row *)

(** A row keeps its identity, and once closed it keeps everything. *)
Definition row_step (r r' : session) : Prop :=
  (cs_id r', cs_station r', cs_tx r', cs_evse r', cs_connector r', cs_start r', cs_live r')
  = (cs_id r, cs_station r, cs_tx r, cs_evse r, cs_connector r, cs_start r, cs_live r)
  /\ (is_open r = false -> r' = r).

Definition table_step (t t' : list session) : Prop := Forall2 row_step t t'.

#[export] Instance row_step_refl : Reflexive row_step.
Proof. intros r. split; done. Qed.

#[export] Instance row_step_trans : Transitive row_step.
Proof.
  intros a b c [E1 H1] [E2 H2]. split; [congruence|]. intros H.
  pose proof (H1 H) as ->. by apply H2.
Qed.

#[export] Instance table_step_refl : Reflexive table_step.
Proof. intros t. unfold table_step. induction t; constructor; auto. reflexivity. Qed.

#[export] Instance table_step_trans : Transitive table_step.
Proof.
  intros a b c H1. revert c. unfold table_step in *. induction H1; intros c H2; inversion H2; subst; constructor.
  - etrans; eauto.
  - auto.
Qed.

(** An update that guards on open rows and keeps identities is a [table_step]. *)
Lemma update_where_step (p : session -> bool) f t :
  (forall r, p r = true -> is_open r = true /\ row_step r (f r)) -> table_step t (update_where p f t).
Proof.
  intros H. unfold table_step, update_where. induction t as [|r t IH]; constructor; [|done].
  destruct (p r) eqn:E; [|reflexivity]. by apply H in E as [_ Hr].
Qed.

Lemma row_step_open_intro r r' :
  (cs_id r', cs_station r', cs_tx r', cs_evse r', cs_connector r', cs_start r', cs_live r')
  = (cs_id r, cs_station r, cs_tx r, cs_evse r, cs_connector r, cs_start r, cs_live r) ->
  is_open r = true -> is_open r = true /\ row_step r r'.
Proof. intros E H. split; [done|]. split; [done|]. congruence. Qed.

Lemma open_tx_open st tx r : open_tx st tx r = true -> is_open r = true.
Proof. unfold open_tx. by intros [_ H]%andb_true_iff. Qed.

Lemma close_row_step now e ms en why r :
  is_open r = true -> is_open r = true /\ row_step r (close_row now e ms en why r).
Proof. by apply row_step_open_intro. Qed.

Lemma live_row_step now a b c d r : is_open r = true -> is_open r = true /\ row_step r (live_row now a b c d r).
Proof. apply row_step_open_intro. unfold live_row. by destruct d. Qed.

Lemma close_open_session_step cap now st tx e ms why t res t' :
  close_open_session cap now st tx e ms why t = Ok (res, t') -> table_step t t'.
Proof.
  unfold close_open_session. destruct (List.find _ t) as [r|]; [|intros [= _ <-]; reflexivity].
  intros ([[en syn] why'] & _ & H)%rbind_Ok. injection H as _ <-.
  apply update_where_step. intros x [_ Hx]%andb_true_iff. eauto using close_row_step, open_tx_open.
Qed.

Lemma mark_step now st t : table_step t (mark_sessions_seen now st t).
Proof. apply update_where_step. intros r [_ H]%andb_true_iff. by apply row_step_open_intro. Qed.

Lemma clear_step st t : table_step t (clear_sessions_seen st t).
Proof. apply update_where_step. intros r [_ H]%andb_true_iff. by apply row_step_open_intro. Qed.

Lemma live_metrics_step now st tx p s m meter t :
  table_step t (_update_session_live_metrics now st tx p s m meter t).
Proof. apply update_where_step. intros r H. eauto using live_row_step, open_tx_open. Qed.

Lemma telemetry_row_step charger_of now d ts ts' :
  insert_telemetry_row charger_of now d ts = Ok ts' -> table_step (fst ts) (fst ts').
Proof.
  destruct ts as [t tel]. unfold insert_telemetry_row. intros H. inv_ok. cbn.
  destruct (_coerce_transaction_id _); [|reflexivity]. destruct (String.eqb _ _); [reflexivity|].
  apply live_metrics_step.
Qed.

Lemma telemetry_batch_step charger_of now ok l ts :
  table_step (fst ts) (fst (snd (insert_telemetry_batch charger_of now ok l ts))).
Proof.
  revert ok ts. induction l as [|d l IH]; intros [|ok] ts; try reflexivity. cbn [insert_telemetry_batch].
  destruct (insert_telemetry_row charger_of now d ts) as [ts'|e] eqn:E; [|reflexivity].
  etrans; [by eapply telemetry_row_step|]. apply IH.
Qed.

Lemma recover_row_step now thr clock acc r :
  table_step (snd acc) (snd (recover_row now thr clock acc r)).
Proof.
  destruct acc as [closed t]. unfold recover_row. destruct (cs_tx r) as [tx|]; [|reflexivity]. cbn.
  apply update_where_step. intros x [[_ Hx]%andb_true_iff _]%andb_true_iff.
  eauto using close_row_step, open_tx_open.
Qed.

Lemma recover_step select_now now clock thr limit t :
  table_step t (snd (recover_orphaned_sessions select_now now clock thr limit t)).
Proof.
  unfold recover_orphaned_sessions. generalize (orphans select_now thr limit t) as l.
  assert (forall l acc, table_step (snd acc) (snd (fold_left (recover_row now thr clock) l acc))) as H.
  { induction l as [|r l IH]; intros acc; [reflexivity|]. cbn [fold_left].
    etrans; [apply recover_row_step | apply IH]. }
  intros l. apply (H l ([], t)).
Qed.

(** The table after some operations: the old rows, each a [row_step] further, then
    new ones. *)
Definition extends (t t' : list session) : Prop := exists l ext, t' = l ++ ext /\ table_step t l.

Lemma extends_step t t' : table_step t t' -> extends t t'.
Proof. exists t', []. by rewrite app_nil_r. Qed.

#[export] Instance extends_refl : Reflexive extends.
Proof. intros t. apply extends_step. reflexivity. Qed.

#[export] Instance extends_trans : Transitive extends.
Proof.
  intros a b c (l & e & -> & H1) (l2 & e2 & -> & H2).
  apply Forall2_app_inv_l in H2 as (l2a & l2b & Ha & _ & ->).
  exists l2a, (l2b ++ e2). rewrite app_assoc. split; [done|]. etrans; [exact H1 | exact Ha].
Qed.

Lemma insert_extends uuid now st tx p t : extends t (insert_open_session uuid now st tx p t).
Proof.
  unfold insert_open_session. destruct (existsb _ _); [reflexivity|]. eexists t, _. split; reflexivity.
Qed.

Section Facts.
Context (fleet : fleet_tables) (cap : option (option pyfloat)) (station : string).

Lemma start_gate_table env c w a w' :
  start_gate station env c w = (a, w') ->
  sessions w' = sessions w /\ sequence w' = sequence w /\ _pending_start w' = _pending_start w
  /\ _tx_id_gen w' = _tx_id_gen w.
Proof.
  unfold start_gate. destruct (transactions w @? c); [|by intros [= _ <-]].
  destruct (negb _); [by intros [= _ <-]|]. destruct (is_transaction_open _ _ _); [by intros [= _ <-]|].
  case_bool_decide; by intros [= _ <-].
Qed.

Lemma start_gate_cards env c w a w' : start_gate station env c w = (a, w') -> cards w' = cards w.
Proof.
  unfold start_gate. destruct (transactions w @? c); [|by intros [= _ <-]].
  destruct (negb _); [by intros [= _ <-]|]. destruct (is_transaction_open _ _ _); [by intros [= _ <-]|].
  case_bool_decide; by intros [= _ <-].
Qed.

(** What a StartTransaction leaves in the table. *)
Lemma start_callback_table env m w a w' :
  _on_transaction_start fleet station env m w = (a, w') ->
  sessions w' = sessions w /\ sequence w' = sequence w /\ _tx_id_gen w' = _tx_id_gen w.
Proof.
  unfold _on_transaction_start. destruct (start_gate station env (sm_connector m) w) as [[r|] w1] eqn:Eg.
  - intros [= _ <-]. by apply start_gate_table in Eg as (-> & -> & _ & ->).
  - apply start_gate_table in Eg as (E1 & E2 & _ & E3). destruct (authorize _ _ _ _ _) as [d c].
    destruct (negb _); [by intros [= _ <-]|]. destruct (dmem _ _); by intros [= _ <-].
Qed.

Lemma next_tx_table env w x w' :
  _next_transaction_id station env w = (x, w') -> extends (sessions w) (sessions w').
Proof.
  unfold _next_transaction_id. destruct (negb (st_seq_ok env)).
  { intros [= _ <-]. destruct (_pending_start w); [|reflexivity]. cbn.
    destruct (transactions w @? _); reflexivity. }
  destruct (_pending_start w) as [p|]; [|by intros [= _ <-]]. intros [= _ <-].
  destruct (st_insert_ok env); cbn; [apply insert_extends | reflexivity].
Qed.

Lemma on_start_table cb env c w : extends (sessions w) (sessions (snd (on_start_transaction station cb env c w))).
Proof.
  unfold on_start_transaction. case_bool_decide; [|reflexivity].
  destruct (_next_transaction_id station env w) as [[x|] w'] eqn:E; apply next_tx_table in E; exact E.
Qed.

Lemma start_extends env m w : extends (sessions w) (sessions (snd (start_transaction fleet station env m w))).
Proof.
  unfold start_transaction. destruct (_on_transaction_start _ _ _ _ _) as [a w'] eqn:E.
  apply start_callback_table in E as (E & _ & _). rewrite <- E. apply on_start_table.
Qed.

Lemma close_step_table env m ms w : table_step (sessions w) (sessions (close_step cap station env m ms w)).
Proof.
  unfold close_step. destruct (sp_close_ok env); [|reflexivity].
  destruct (close_open_session _ _ _ _ _ _ _ _) as [[[r|] t]|e] eqn:E; try reflexivity;
    by apply close_open_session_step in E.
Qed.

Lemma persist_table charger_of env l ts :
  table_step (fst ts) (fst (fold_left (persist_step charger_of env) l ts)).
Proof.
  revert ts. induction l as [|x l IH]; intros ts; [reflexivity|]. cbn [fold_left].
  etrans; [apply telemetry_batch_step | apply IH].
Qed.

Lemma stop_callback_table charger_of env m w :
  table_step (sessions w) (sessions (_on_transaction_stop cap station charger_of env m w)).
Proof.
  unfold _on_transaction_stop. destruct (_resolve_meter_stop _ _) as [ms|e]; [|reflexivity].
  pose proof (close_step_table env m ms w) as H1.
  destruct (if sp_lookup_ok env then _ else None) as [c|]; [|exact H1].
  set (w1 := close_step cap station env m ms w) in *. cbv zeta.
  match goal with |- context [fold_left ?f ?l ?ts] => pose proof (persist_table charger_of env l ts) as H2;
    destruct (fold_left f l ts) as [t tel] end.
  cbn in *. by etrans.
Qed.

Lemma reload_table l w : sessions (fold_left reload_step l w) = sessions w.
Proof.
  revert w. induction l as [|r l IH]; intros w; [done|]. cbn [fold_left]. rewrite IH.
  unfold reload_step. by destruct (cs_tx r).
Qed.

Lemma boot_table clear_ok fetch_ok w :
  table_step (sessions w) (sessions (_on_boot station clear_ok fetch_ok w)).
Proof. unfold _on_boot. rewrite reload_table. destruct clear_ok; [apply clear_step | reflexivity]. Qed.

Lemma step_extends o w : extends (sessions w) (sessions (step fleet cap station o w)).
Proof.
  destruct o; cbn [step].
  - apply start_extends.
  - apply extends_step. etrans; [|apply stop_callback_table]. reflexivity.
  - pose proof (telemetry_batch_step charger_of now ok rows (sessions w, telemetries w)) as H.
    destruct (snd _) as [t tel]. by apply extends_step.
  - apply extends_step, boot_table.
  - reflexivity.
  - apply extends_step, mark_step.
  - pose proof (recover_step select_now now clock threshold limit (sessions w)) as H.
    destruct (recover_orphaned_sessions _ _ _ _ _ _) as [closed t]. by apply extends_step.
  - apply insert_extends.
Qed.

Lemma run_extends ops w : extends (sessions w) (sessions (run fleet cap station ops w)).
Proof.
  revert w. induction ops as [|o ops IH]; intros w; [reflexivity|]. cbn.
  etrans; [apply step_extends | apply IH].
Qed.

(** Whatever messages, failures, reconnections and recovery sweeps follow, a session row
    is never deleted, keeps its identity, station, transaction, connector and start, and
    once closed does not change any more. *)
Theorem session_history ops w i r :
  sessions w !! i = Some r ->
  exists r', sessions (run fleet cap station ops w) !! i = Some r'
    /\ (cs_id r', cs_station r', cs_tx r', cs_connector r', cs_start r')
       = (cs_id r, cs_station r, cs_tx r, cs_connector r, cs_start r)
    /\ (is_open r = false -> r' = r).
Proof.
  intros Hi. destruct (run_extends ops w) as (l & ext & -> & Hs).
  destruct (Forall2_lookup_l _ _ _ _ _ Hs Hi) as (r' & Hr' & E & Hc).
  exists r'. rewrite (lookup_app_l_Some _ _ _ _ Hr'). split; [done|]. split; [congruence | done].
Qed.

(** ** At most one open session per connector *)

(** An open row of the charger. *)
Definition mine (r : session) : Prop := cs_station r = station /\ is_open r = true.

(** Transaction ids are drawn once, and the sequence is ahead of them. *)
Record ids_ok (t : list session) (s : Z) : Prop := {
  ids_bound : forall r x, r ∈ t -> cs_tx r = Some x -> x <= s;
  ids_nodup : NoDup (omap cs_tx t)
}.

(** The memory knows every open session of the charger. *)
Definition covered (t : list session) (tr : dict Z Z) : Prop :=
  forall r, r ∈ t -> mine r -> exists x, cs_tx r = Some x /\ tr @? cs_connector r = Some x.

Definition one_open (t : list session) : Prop :=
  forall r1 r2, r1 ∈ t -> r2 ∈ t -> mine r1 -> mine r2 -> cs_connector r1 = cs_connector r2 -> r1 = r2.

(** Every open session of the charger has an id. *)
Definition numbered (t : list session) : Prop := forall r, r ∈ t -> mine r -> is_Some (cs_tx r).

Lemma omap_inj {A B} (f : A -> option B) (l : list A) x y b :
  NoDup (omap f l) -> x ∈ l -> y ∈ l -> f x = Some b -> f y = Some b -> x = y.
Proof.
  induction l as [|z l IH]; intros Hn Hx Hy Fx Fy; [by apply not_elem_of_nil in Hx|].
  cbn in Hn. destruct (f z) as [c|] eqn:Fz.
  - apply NoDup_cons in Hn as [Hz Hn].
    apply elem_of_cons in Hx as [->|Hx]; apply elem_of_cons in Hy as [->|Hy]; [done| | |auto];
      exfalso; apply Hz; simplify_eq; apply list_elem_of_omap; eauto.
  - apply elem_of_cons in Hx as [->|Hx]; apply elem_of_cons in Hy as [->|Hy]; simplify_eq; auto.
Qed.

Lemma covered_one t s tr : ids_ok t s -> covered t tr -> one_open t.
Proof.
  intros [_ Hn] Hc r1 r2 H1 H2 M1 M2 E.
  destruct (Hc r1 H1 M1) as (x & X1 & T1). destruct (Hc r2 H2 M2) as (y & X2 & T2).
  rewrite E in T1. rewrite T1 in T2. simplify_eq. eapply (omap_inj cs_tx); eauto.
Qed.

Lemma covered_numbered t tr : covered t tr -> numbered t.
Proof. intros Hc r H M. destruct (Hc r H M) as (x & -> & _). eauto. Qed.

(** The rows a step of the table comes from. *)
Lemma table_step_elem t t' r' : table_step t t' -> r' ∈ t' -> exists r, r ∈ t /\ row_step r r'.
Proof.
  induction 1 as [|a b t t' Hab _ IH]; intros Hin; [by apply not_elem_of_nil in Hin|].
  apply elem_of_cons in Hin as [->|Hin]; [exists a; split; [left | done]|].
  destruct (IH Hin) as (r & Hr & Hs). exists r. split; [by right | done].
Qed.

Lemma row_step_mine r r' : row_step r r' -> mine r' -> mine r.
Proof.
  intros [E Hc] [Hs Ho]. split; [congruence|]. destruct (is_open r) eqn:E0; [done|]. by rewrite (Hc eq_refl), E0 in Ho.
Qed.

Lemma row_step_conn r r' : row_step r r' -> cs_connector r' = cs_connector r /\ cs_tx r' = cs_tx r.
Proof. intros [E _]. split; congruence. Qed.

Lemma omap_tx_step t t' : table_step t t' -> omap cs_tx t' = omap cs_tx t.
Proof.
  induction 1 as [|a b t t' Hab _ IH]; [done|]. cbn. rewrite (proj2 (row_step_conn _ _ Hab)).
  by destruct (cs_tx a); rewrite IH.
Qed.

Lemma ids_ok_step t t' s : table_step t t' -> ids_ok t s -> ids_ok t' s.
Proof.
  intros Hs [Hb Hn]. split; [|by rewrite (omap_tx_step _ _ Hs)].
  intros r' x (r & Hr & Hrs)%(table_step_elem _ _ _ Hs) Hx. apply (Hb r); [done|].
  by rewrite <- (proj2 (row_step_conn _ _ Hrs)).
Qed.

Lemma covered_step t t' tr : table_step t t' -> covered t tr -> covered t' tr.
Proof.
  intros Hs Hc r' (r & Hr & Hrs)%(table_step_elem _ _ _ Hs) M.
  destruct (row_step_conn _ _ Hrs) as [-> ->]. apply (Hc r Hr). by eapply row_step_mine.
Qed.

Lemma numbered_step t t' : table_step t t' -> numbered t -> numbered t'.
Proof.
  intros Hs Hc r' (r & Hr & Hrs)%(table_step_elem _ _ _ Hs) M.
  destruct (row_step_conn _ _ Hrs) as [_ ->]. apply (Hc r Hr). by eapply row_step_mine.
Qed.

(** No open session of the charger on the connector. *)
Definition free (t : list session) (c : Z) : Prop := forall r, r ∈ t -> mine r -> cs_connector r <> c.

Lemma covered_free t tr c : covered t tr -> tr @? c = None -> free t c.
Proof. intros Hc Hn r Hr M E. destruct (Hc r Hr M) as (x & _ & T). rewrite E in T. congruence. Qed.

Lemma covered_dset t tr c x : covered t tr -> free t c -> covered t (tr +{ c := x }).
Proof.
  intros Hc Hf r Hr M. destruct (Hc r Hr M) as (y & E & T). exists y. split; [done|].
  rewrite dget_dset_ne; [done|]. intros ->. by eapply Hf.
Qed.

Lemma covered_dpop t tr c : covered t tr -> free t c -> covered t (dpop c tr).
Proof.
  intros Hc Hf r Hr M. destruct (Hc r Hr M) as (y & E & T). exists y. split; [done|].
  rewrite dget_dpop_ne; [done|]. intros ->. by eapply Hf.
Qed.

Lemma dget_release tr x c y : tr @? c = Some y -> y <> x -> release_tx x tr @? c = Some y.
Proof.
  induction tr as [|[c' x'] tr IH]; [done|]. cbn. case_decide; intros Hg Hne.
  - subst. simplify_eq. rewrite bool_decide_false by done. cbn. by rewrite decide_True.
  - case_bool_decide; [done|]. cbn. rewrite decide_False by done. auto.
Qed.

Lemma mine_open_tx t r x : r ∈ t -> mine r -> cs_tx r = Some x -> existsb (open_tx station x) t = true.
Proof.
  intros Hr [Ms Mo] E. apply existsb_exists. exists r. split; [by apply list_elem_of_In|].
  unfold open_tx. by rewrite Ms, String.eqb_refl, (bool_decide_true _ E), Mo.
Qed.

Lemma covered_release t tr x :
  covered t tr -> existsb (open_tx station x) t = false -> covered t (release_tx x tr).
Proof.
  intros Hc Hx r Hr M. destruct (Hc r Hr M) as (y & E & T). exists y. split; [done|].
  apply dget_release; [done|]. intros ->.
  by rewrite (mine_open_tx _ _ _ Hr M E) in Hx.
Qed.

(** A fresh id is not in the table. *)
Lemma fresh_tx t s st x : ids_ok t s -> s < x -> existsb (open_tx st x) t = false.
Proof.
  intros [Hb _] Hx. apply not_true_is_false. intros (r & Hr & H)%existsb_exists.
  apply list_elem_of_In in Hr. unfold open_tx in H.
  apply andb_true_iff in H as [[_ H]%andb_true_iff _]. apply bool_decide_eq_true in H.
  specialize (Hb r x Hr H). lia.
Qed.

Lemma insert_fresh uuid now st s x p t :
  ids_ok t s -> s < x ->
  exists row, insert_open_session uuid now st x p t = t ++ [row]
    /\ cs_station row = st /\ cs_tx row = Some x /\ cs_connector row = ps_connector p.
Proof.
  intros Hi Hx. unfold insert_open_session. rewrite (fresh_tx _ _ _ _ Hi Hx). eexists. by split.
Qed.

Lemma ids_ok_snoc t s row :
  ids_ok t s -> cs_tx row = Some (s + 1) -> ids_ok (t ++ [row]) (s + 1).
Proof.
  intros [Hb Hn] E. split.
  - intros r x [Hr|Hr]%elem_of_app Hx; [specialize (Hb r x Hr Hx); lia|].
    apply list_elem_of_singleton in Hr as ->. simplify_eq. lia.
  - rewrite omap_app. cbn. rewrite E. apply nodup_snoc; [done|].
    intros (r & Hr & Hx)%list_elem_of_omap. specialize (Hb _ _ Hr Hx). lia.
Qed.

Lemma ids_ok_mono t s s' : ids_ok t s -> s <= s' -> ids_ok t s'.
Proof. intros [Hb Hn] Hs. split; [|done]. intros r x Hr Hx. specialize (Hb r x Hr Hx). lia. Qed.

(** The invariant of a charger that reloads its sessions and whose stops reach the
    database. *)
Definition good (w : world) : Prop :=
  ids_ok (sessions w) (sequence w) /\ covered (sessions w) (transactions w).

Lemma gate_good env c w w' :
  good w -> start_gate station env c w = (None, w') -> good w' /\ transactions w' @? c = None.
Proof.
  intros [Hi Hc] E. unfold start_gate in E. destruct (transactions w @? c) as [x|] eqn:Et.
  2: { injection E as <-. done. }
  destruct (negb _); [done|]. destruct (is_transaction_open station x (sessions w)) eqn:Eo; [done|].
  case_bool_decide; [done|]. injection E as <-. cbn. rewrite dget_dpop_eq. split; [|done]. split; [done|].
  apply covered_dpop; [done|]. intros r Hr M Er. destruct (Hc r Hr M) as (y & Ey & Ty).
  rewrite Er, Et in Ty. injection Ty as <-.
  unfold is_transaction_open in Eo.
  rewrite (mine_open_tx (sessions w) _ _ Hr M Ey) in Eo. done.
Qed.

(** What the callback leaves behind. *)
Lemma callback_good env m w a w' :
  good w -> _on_transaction_start fleet station env m w = (a, w') ->
  good w' /\ (a = accepted -> transactions w' @? sm_connector m = None
              /\ exists p, _pending_start w' = Some p /\ ps_connector p = sm_connector m).
Proof.
  intros Hg E. unfold _on_transaction_start in E.
  destruct (start_gate station env (sm_connector m) w) as [[r|] w1] eqn:Eg.
  - injection E as <- <-. split.
    + unfold start_gate in Eg. destruct (transactions w @? _); [|done].
      destruct (negb _); [by injection Eg as _ <-|].
      destruct (is_transaction_open _ _ _); [by injection Eg as _ <-|].
      case_bool_decide; [by injection Eg as _ <- | done].
    + intros ->. exfalso. unfold start_gate in Eg. destruct (transactions w @? _); [|done].
      destruct (negb _); [done|]. destruct (is_transaction_open _ _ _); [done|]. by case_bool_decide.
  - destruct (gate_good _ _ _ _ Hg Eg) as [Hg1 Hn].
    destruct (authorize _ _ _ _ _) as [d c]. case_bool_decide as Ha; cbn [negb] in E.
    + cbn [transactions with_cards] in E. unfold dmem in E. rewrite Hn in E. injection E as <- <-.
      split; [exact Hg1|]. intros _. split; [exact Hn|]. by eexists.
    + injection E as <- <-. split; [exact Hg1|]. intros. congruence.
Qed.

Lemma start_good env m w : good w -> good (snd (start_transaction fleet station env m w)).
Proof.
  intros Hg. unfold start_transaction.
  destruct (_on_transaction_start _ _ _ _ _) as [a w1] eqn:E.
  destruct (callback_good _ _ _ _ _ Hg E) as [[Hi Hc] Ha]. unfold on_start_transaction. cbn [default].
  case_bool_decide as Hacc; [|done]. destruct (Ha Hacc) as (Hn & p & Hp & Hpc).
  pose proof (covered_free _ _ _ Hc Hn) as Hf.
  unfold _next_transaction_id. rewrite Hp.
  destruct (st_seq_ok env); cbn [negb].
  2: { cbn. rewrite Hpc, Hn. cbn. split; [done|]. by apply covered_dset. }
  destruct (st_insert_ok env); cbn.
  2: { split; cbn; [eapply ids_ok_mono; [done | lia]|]. by apply covered_dset. }
  destruct (insert_fresh (st_uuid env) (st_now env) station _ (sequence w1 + 1) p _ Hi) as
    (row & -> & Es & Ex & Ec); [lia|]. split; cbn; [by apply ids_ok_snoc|].
  intros r [Hr|Hr]%elem_of_app M.
  - by apply (covered_dset _ _ _ (sequence w1 + 1) Hc Hf r Hr M).
  - apply list_elem_of_singleton in Hr as ->. exists (sequence w1 + 1). split; [done|].
    rewrite Ec, Hpc. apply dget_dset_eq.
Qed.

Lemma elem_of_update_where {A} (p : A -> bool) f (l : list A) y :
  y ∈ update_where p f l <-> exists x, x ∈ l /\ y = (if p x then f x else x).
Proof.
  unfold update_where. rewrite list_elem_of_fmap. split; intros (x & H1 & H2); exists x; split; done.
Qed.

Lemma close_row_closed now e ms en why r : is_open (close_row now e ms en why r) = false.
Proof. done. Qed.

Lemma closed_stays st x t t' :
  table_step t t' -> existsb (open_tx st x) t = false -> existsb (open_tx st x) t' = false.
Proof.
  intros Hs H. apply not_true_is_false. intros (r' & Hr' & E)%existsb_exists.
  apply list_elem_of_In in Hr'. destruct (table_step_elem _ _ _ Hs Hr') as (r & Hr & Hrs).
  apply not_true_iff_false in H. apply H, existsb_exists. exists r. split; [by apply list_elem_of_In|].
  unfold open_tx in *. apply andb_true_iff in E as [E Eo]. destruct Hrs as [Ei Hc].
  destruct (is_open r) eqn:Er; [|rewrite (Hc eq_refl), Er in Eo; done].
  rewrite andb_true_r. injection Ei as _ E2 E3 _ _ _ _. by rewrite E2, E3 in E.
Qed.

Lemma find_open_tx st x t r :
  List.find (open_tx st x) t = Some r -> r ∈ t /\ open_tx st x r = true /\ cs_tx r = Some x.
Proof.
  intros [Hin Ho]%find_some. split; [by apply list_elem_of_In|]. split; [done|].
  unfold open_tx in Ho. apply andb_true_iff in Ho as [[_ Ho]%andb_true_iff _].
  by apply bool_decide_eq_true in Ho.
Qed.

(** After a close there is no open row of the transaction. *)
Lemma close_leaves_none now st x e ms why t s res t' :
  ids_ok t s -> close_open_session cap now st x e ms why t = Ok (res, t') ->
  existsb (open_tx st x) t' = false.
Proof.
  intros Hi. unfold close_open_session. destruct (List.find (open_tx st x) t) as [r|] eqn:Ef.
  - intros ([[en syn] why'] & _ & H)%rbind_Ok. injection H as _ <-.
    destruct (find_open_tx _ _ _ _ Ef) as (Hr & Ho & Hx).
    apply not_true_is_false. intros (y & Hy & Eo)%existsb_exists. apply list_elem_of_In in Hy.
    apply elem_of_update_where in Hy as (y0 & Hy0 & ->).
    destruct (String.eqb (cs_id y0) (cs_id r) && open_tx st x y0) eqn:Eh.
    { apply open_tx_open in Eo. by rewrite close_row_closed in Eo. }
    assert (cs_tx y0 = Some x) as Ey.
    { unfold open_tx in Eo. apply andb_true_iff in Eo as [[_ Eo]%andb_true_iff _].
      by apply bool_decide_eq_true in Eo. }
    pose proof (omap_inj cs_tx _ _ _ _ (ids_nodup _ _ Hi) Hy0 Hr Ey Hx) as ->.
    by rewrite String.eqb_refl, Eo in Eh.
  - intros [= _ <-]. apply not_true_is_false. intros (y & Hy & Eo)%existsb_exists.
    by apply (find_none _ _ Ef) in Hy; rewrite Hy in Eo.
Qed.

Lemma closing_energy_ok ms why r :
  is_ok (_synthesized_delta_cap_wh cap) = true -> exists d, closing_energy cap ms why r = Ok d.
Proof.
  intros Hc. unfold closing_energy.
  destruct (compute_energy_kwh _ _), (cs_meter_start r), (cs_last_meter r), ms; eauto.
  destruct (_synthesized_delta_cap_wh cap); [|done]. cbn [rbind].
  destruct (synthesize_energy_kwh_from_meter_stop _ _); eauto.
Qed.

(** A stop whose close reaches the database. *)
Definition effective_stop (env : stop_env) (m : stop_msg) : Prop :=
  sp_close_ok env = true /\ is_ok (_resolve_meter_stop (pm_meter_stop m) (pm_data m)) = true
  /\ is_ok (_synthesized_delta_cap_wh cap) = true.

Lemma close_step_effect env m ms w s :
  sp_close_ok env = true -> is_ok (_synthesized_delta_cap_wh cap) = true -> ids_ok (sessions w) s ->
  existsb (open_tx station (pm_tx m)) (sessions (close_step cap station env m ms w)) = false.
Proof.
  intros Hk Hcap Hi. unfold close_step. rewrite Hk.
  destruct (close_open_session _ _ _ _ _ _ _ _) as [[[r|] t]|e] eqn:E;
    [by apply (close_leaves_none _ _ _ _ _ _ _ _ _ _ Hi) in E
    | by apply (close_leaves_none _ _ _ _ _ _ _ _ _ _ Hi) in E |].
  exfalso. unfold close_open_session in E. destruct (List.find _ _) as [r|]; [|done].
  destruct (closing_energy_ok ms (Some (pm_reason m)) r Hcap) as [[[en sy] wy] Hd]. by rewrite Hd in E.
Qed.

Lemma close_step_frame env m ms w :
  transactions (close_step cap station env m ms w) = transactions w
  /\ sequence (close_step cap station env m ms w) = sequence w.
Proof.
  unfold close_step. destruct (if sp_close_ok env then _ else _) as [[[r|] t]|e]; done.
Qed.

Lemma stop_frame charger_of env m w :
  transactions (_on_transaction_stop cap station charger_of env m w) = transactions w
  /\ sequence (_on_transaction_stop cap station charger_of env m w) = sequence w.
Proof.
  unfold _on_transaction_stop. destruct (_resolve_meter_stop _ _) as [ms|e]; [|done].
  pose proof (close_step_frame env m ms w) as [H1 H2].
  destruct (if sp_lookup_ok env then _ else None); [|by cbn].
  cbv zeta. destruct (fold_left _ _ _). by cbn.
Qed.

Lemma stop_effect charger_of env m w s :
  effective_stop env m -> ids_ok (sessions w) s ->
  existsb (open_tx station (pm_tx m)) (sessions (_on_transaction_stop cap station charger_of env m w)) = false.
Proof.
  intros (Hk & Hr & Hcap) Hi. unfold _on_transaction_stop.
  destruct (_resolve_meter_stop _ _) as [ms|e]; [|done].
  pose proof (close_step_effect env m ms w s Hk Hcap Hi) as H.
  destruct (if sp_lookup_ok env then _ else None) as [c|]; [|exact H].
  set (w1 := close_step cap station env m ms w) in *. cbv zeta.
  match goal with |- context [fold_left ?f ?l ?ts] => pose proof (persist_table charger_of env l ts) as H2;
    destruct (fold_left f l ts) as [t tel] end.
  cbn in *. by eapply closed_stays.
Qed.

Lemma stop_good charger_of env m w :
  effective_stop env m -> good w -> good (stop_transaction cap station charger_of env m w).
Proof.
  intros He [Hi Hc]. unfold stop_transaction.
  match goal with |- good (_on_transaction_stop _ _ _ _ _ ?x) => set (w1 := x) end.
  destruct (stop_frame charger_of env m w1) as [Ht Hs].
  pose proof (stop_callback_table charger_of env m w1) as Hstep.
  unfold good. rewrite Ht, Hs. split; [by eapply ids_ok_step|].
  apply (covered_release _ (transactions w)); [by eapply covered_step|]. by apply (stop_effect _ _ _ _ (sequence w)).
Qed.

(** ** Reload *)

Lemma reload_keeps l w c x :
  transactions w @? c = Some x -> (forall r, r ∈ l -> cs_connector r = c -> cs_tx r = Some x) ->
  transactions (fold_left reload_step l w) @? c = Some x.
Proof.
  revert w. induction l as [|a l IH]; intros w Hw H; [done|]. cbn [fold_left]. apply IH.
  - unfold reload_step. destruct (cs_tx a) as [y|] eqn:Ea; [|done]. cbn. rewrite dget_dset.
    case_decide as Ed; [|done]. rewrite (H a) in Ea by (done || left). congruence.
  - intros r Hr. apply H. by right.
Qed.

Lemma reload_sets l w r x :
  r ∈ l -> cs_tx r = Some x -> (forall r', r' ∈ l -> cs_connector r' = cs_connector r -> r' = r) ->
  transactions (fold_left reload_step l w) @? cs_connector r = Some x.
Proof.
  revert w. induction l as [|a l IH]; intros w Hr Hx H; [by apply not_elem_of_nil in Hr|]. cbn [fold_left].
  apply elem_of_cons in Hr as [->|Hr].
  - apply reload_keeps.
    + unfold reload_step. rewrite Hx. apply dget_dset_eq.
    + intros r' Hr' E. rewrite (H r'); [done | by right | done].
  - apply IH; [done|done|]. intros r' Hr'. apply H. by right.
Qed.

Lemma elem_of_open_sessions t r :
  r ∈ fetch_open_sessions station t <-> r ∈ t /\ mine r /\ is_Some (cs_tx r).
Proof.
  unfold fetch_open_sessions, mine. rewrite elem_of_sort_by, elem_of_lfilter, !andb_true_iff, String.eqb_eq,
    bool_decide_eq_true. naive_solver.
Qed.

Lemma one_open_step t t' s :
  table_step t t' -> ids_ok t s -> numbered t -> one_open t -> one_open t'.
Proof.
  intros Hs Hi Hn Ho r1 r2 H1 H2 M1 M2 E.
  destruct (table_step_elem _ _ _ Hs H1) as (a & Ha & Sa). destruct (table_step_elem _ _ _ Hs H2) as (b & Hb & Sb).
  destruct (row_step_conn _ _ Sa) as [Ca Xa]. destruct (row_step_conn _ _ Sb) as [Cb Xb].
  assert (a = b) as -> by (apply Ho; eauto using row_step_mine; congruence).
  destruct (Hn b Hb) as [x Hx]; [by eapply row_step_mine|].
  eapply (omap_inj cs_tx _ _ _ x); [apply (ids_ok_step _ _ _ Hs Hi) | done | done | congruence | congruence].
Qed.

(** The table's part of the invariant. *)
Definition sound (w : world) : Prop :=
  ids_ok (sessions w) (sequence w) /\ numbered (sessions w) /\ one_open (sessions w).

Lemma good_sound w : good w -> sound w.
Proof.
  intros [Hi Hc]. split; [done|]. split; [by eapply covered_numbered | by eapply covered_one].
Qed.

Lemma boot_covered clear_ok w :
  sound w ->
  covered (sessions (_on_boot station clear_ok true w)) (transactions (_on_boot station clear_ok true w)).
Proof.
  intros (Hi & Hn & Ho). unfold _on_boot.
  set (w1 := if clear_ok then _ else w).
  assert (table_step (sessions w) (sessions w1)) as Hs
    by (subst w1; destruct clear_ok; [apply clear_step | reflexivity]).
  rewrite reload_table. intros r Hr M.
  destruct (numbered_step _ _ Hs Hn r Hr M) as [x Hx]. exists x. split; [done|].
  assert (forall y, y ∈ sort_by (fun a b => cs_start a <=? cs_start b) (fetch_open_sessions station (sessions w1))
            <-> y ∈ sessions w1 /\ mine y /\ is_Some (cs_tx y)) as Hel
    by (intros y; by rewrite elem_of_sort_by, elem_of_open_sessions).
  apply reload_sets; [apply Hel; split_and!; [done | done | by rewrite Hx] | done |].
  intros r' (H1 & H2 & _)%Hel E. by apply (one_open_step _ _ _ Hs Hi Hn Ho).
Qed.

(** ** Orderly histories *)

(** Operations that concern the table only. *)
Definition table_only (o : op) : Prop :=
  match o with
  | OMeter _ _ _ _ | ODisconnect _ | ORecover _ _ _ _ _ => True
  | OOther st _ _ _ => st <> station
  | _ => False
  end.

(** Operations a connected and reloaded charger can meet. *)
Definition benign (o : op) : Prop :=
  match o with
  | OStart _ _ | OBoot _ _ => True
  | OStop _ env m => effective_stop env m
  | OConnect => False
  | _ => table_only o
  end.

(** Every connection reloads the open sessions before its first start or stop, and
    the closes of stops reach the database. *)
Inductive orderly : list op -> Prop :=
| orderly_nil : orderly []
| orderly_op o ops : benign o -> orderly ops -> orderly (o :: ops)
| orderly_reconnect mid clear_ok ops :
    Forall table_only mid -> orderly ops -> orderly (OConnect :: mid ++ OBoot clear_ok true :: ops).

Lemma boot_frame clear_ok fetch_ok w : sequence (_on_boot station clear_ok fetch_ok w) = sequence w.
Proof.
  unfold _on_boot. generalize (sort_by (fun a b => cs_start a <=? cs_start b)
    (if fetch_ok then fetch_open_sessions station
       (sessions (if clear_ok then with_sessions w (clear_sessions_seen station (sessions w)) else w)) else [])) as l.
  intros l. transitivity (sequence (if clear_ok then with_sessions w (clear_sessions_seen station (sessions w)) else w));
    [|by destruct clear_ok].
  generalize (if clear_ok then with_sessions w (clear_sessions_seen station (sessions w)) else w) as w1.
  induction l as [|r l IH]; intros w1; [done|]. cbn [fold_left]. rewrite IH. unfold reload_step. by destruct (cs_tx r).
Qed.

Lemma table_only_step o w :
  table_only o ->
  (exists t tel sch, step fleet cap station o w = with_tables w t tel sch /\ table_step (sessions w) t)
  \/ (exists st uuid now p, st <> station /\
        step fleet cap station o w
        = with_sessions (with_counters w (sequence w + 1) (_tx_id_gen w))
            (insert_open_session uuid now st (sequence w + 1) p (sessions w))).
Proof.
  destruct o; cbn [table_only step]; try done; intros Ho.
  - left. pose proof (telemetry_batch_step charger_of now ok rows (sessions w, telemetries w)) as H.
    destruct (snd _) as [t tel]. do 3 eexists. split; [reflexivity | exact H].
  - left. do 3 eexists. split; [reflexivity | apply mark_step].
  - left. pose proof (recover_step select_now now clock threshold limit (sessions w)) as H.
    destruct (recover_orphaned_sessions _ _ _ _ _ _) as [closed t]. do 3 eexists. split; [reflexivity | exact H].
  - right. do 4 eexists. split; [exact Ho | reflexivity].
Qed.

Lemma other_sound st uuid now p w :
  st <> station -> sound w ->
  sound (with_sessions (with_counters w (sequence w + 1) (_tx_id_gen w))
           (insert_open_session uuid now st (sequence w + 1) p (sessions w))).
Proof.
  intros Hst (Hi & Hn & Ho).
  destruct (insert_fresh uuid now st _ (sequence w + 1) p _ Hi) as (row & E & Es & Ex & _); [lia|].
  unfold sound. cbn. rewrite E. split; [by apply ids_ok_snoc|].
  assert (forall r, r ∈ sessions w ++ [row] -> mine r -> r ∈ sessions w) as Hin.
  { intros r [Hr|Hr]%elem_of_app M; [done|]. apply list_elem_of_singleton in Hr as ->. by destruct M as [? _]; congruence. }
  split; [intros r Hr M; by apply Hn; [apply Hin|]|]. intros r1 r2 H1 H2 M1 M2. apply Ho; auto.
Qed.

Lemma other_covered st uuid now p w :
  st <> station -> good w ->
  covered (insert_open_session uuid now st (sequence w + 1) p (sessions w)) (transactions w).
Proof.
  intros Hst [Hi Hc].
  destruct (insert_fresh uuid now st _ (sequence w + 1) p _ Hi) as (row & -> & Es & Ex & _); [lia|].
  intros r [Hr|Hr]%elem_of_app M; [by apply Hc|]. apply list_elem_of_singleton in Hr as ->.
  by destruct M as [? _]; congruence.
Qed.

Lemma table_only_sound o w : table_only o -> sound w -> sound (step fleet cap station o w).
Proof.
  intros Ho Hs. destruct (table_only_step o w Ho) as [(t & tel & sch & -> & Ht)|(st & uuid & now & p & Hst & ->)].
  - destruct Hs as (Hi & Hn & H1). split_and!; cbn;
      eauto using ids_ok_step, numbered_step, one_open_step.
  - by apply other_sound.
Qed.

Lemma table_only_good o w : table_only o -> good w -> good (step fleet cap station o w).
Proof.
  intros Ho Hg. destruct (table_only_step o w Ho) as [(t & tel & sch & -> & Ht)|(st & uuid & now & p & Hst & ->)].
  - destruct Hg as [Hi Hc]. split; [by eapply ids_ok_step | by eapply covered_step].
  - split; [apply (other_sound st uuid now p w Hst (good_sound w Hg)) | exact (other_covered st uuid now p w Hst Hg)].
Qed.

Lemma benign_good o w : benign o -> good w -> good (step fleet cap station o w).
Proof.
  intros Ho Hg. destruct o; try exact (table_only_good _ w Ho Hg).
  - by apply start_good.
  - by apply stop_good.
  - cbn [step]. destruct Hg as [Hi Hc]. destruct fetch_ok.
    + split; [rewrite boot_frame; eapply ids_ok_step; [apply boot_table | done]|].
      apply boot_covered. by apply good_sound.
    + split; [rewrite boot_frame; eapply ids_ok_step; [apply boot_table | done]|].
      eapply covered_step; [apply boot_table|]. unfold _on_boot. cbn. by destruct clear_ok.
  - done.
Qed.

Lemma run_app ops1 ops2 w :
  run fleet cap station (ops1 ++ ops2) w = run fleet cap station ops2 (run fleet cap station ops1 w).
Proof. apply fold_left_app. Qed.

Lemma table_only_run mid w : Forall table_only mid -> sound w -> sound (run fleet cap station mid w).
Proof.
  intros H. revert w. induction H as [|o mid Ho _ IH]; intros w Hs; [done|]. cbn. apply IH. by apply table_only_sound.
Qed.

Lemma orderly_good ops w : orderly ops -> good w -> good (run fleet cap station ops w).
Proof.
  intros H. revert w. induction H as [|o ops Ho _ IH|mid clear_ok ops Hm _ IH]; intros w Hg; [done| |].
  - cbn. apply IH. by apply benign_good.
  - change (run fleet cap station (OConnect :: mid ++ OBoot clear_ok true :: ops) w)
      with (run fleet cap station (mid ++ OBoot clear_ok true :: ops) (connect w)).
    rewrite run_app.
    change (good (run fleet cap station ops (_on_boot station clear_ok true (run fleet cap station mid (connect w))))).
    apply IH.
    assert (sound (run fleet cap station mid (connect w))) as Hs
      by (apply table_only_run; [done|]; exact (good_sound w Hg)).
    split; [|by apply boot_covered]. rewrite boot_frame. eapply ids_ok_step; [apply boot_table | apply Hs].
Qed.

(** C19: In every history in which each close and each reload at boot succeeds and a
    reconnection is followed by a boot, a station never has two open sessions on one
    connector, whatever starts, readings, stops, authorisations, recovery sweeps and
    failures of the other statements occur. *)
Theorem one_open_session_per_connector ops w r1 r2 :
  good w -> orderly ops ->
  r1 ∈ sessions (run fleet cap station ops w) -> r2 ∈ sessions (run fleet cap station ops w) ->
  mine r1 -> mine r2 -> cs_connector r1 = cs_connector r2 -> r1 = r2.
Proof.
  intros Hg Ho. pose proof (good_sound _ (orderly_good ops w Ho Hg)) as (_ & _ & H). apply H.
Qed.
End Facts.

(** ** The energy a row reports *)

Lemma compute_energy_Some stop start e :
  compute_energy_kwh stop start = Some e ->
  exists p s, stop = Some p /\ start = Some s /\ 0 < s <= p /\ e = (inject_Z (p - s) / 1000)%Q.
Proof.
  unfold compute_energy_kwh. destruct stop as [p|], start as [s|]; try done.
  destruct (Z.leb_spec s 0); [done|]. destruct (Z.ltb_spec p s); [done|]. intros [= <-]. eauto 10 with lia.
Qed.

(** The live columns agree with the helper. *)
Definition live_exact (r : session) : Prop :=
  cs_energy r = compute_energy_kwh (cs_last_meter r) (cs_meter_start r).

Lemma live_row_exact now a b c meter r : live_exact r -> live_exact (live_row now a b c meter r).
Proof.
  unfold live_exact, live_row. destruct meter as [m|]; [|done]. intros E. cbn.
  unfold effective_start, compute_energy_kwh in *.
  destruct (cs_meter_start r) as [s|]; cbn.
  - destruct (Z.ltb_spec 0 s), (Z.leb_spec s 0); try lia; cbn; [|by destruct (cs_last_meter r)].
    destruct (Z.leb_spec s (Z.max (default m (cs_last_meter r)) m)),
      (Z.ltb_spec (Z.max (default m (cs_last_meter r)) m) s); try lia; [done|].
    rewrite E. destruct (cs_last_meter r) as [l|]; [|done]. cbn in *. destruct (Z.ltb_spec l s); [done | lia].
  - assert (cs_energy r = None) as -> by (rewrite E; by destruct (cs_last_meter r)).
    destruct (Z.ltb_spec 0 m); [|done]. cbn.
    destruct (Z.ltb_spec 0 m), (Z.leb_spec m 0); try lia. cbn.
    destruct (Z.leb_spec m (Z.max (default m (cs_last_meter r)) m)),
      (Z.ltb_spec (Z.max (default m (cs_last_meter r)) m) m); try lia. done.
Qed.

Section Energy.
Context (cap : option (option pyfloat)).

(** An energy that rests on two readings of the register, or on a stop reading
    below the cap when the register was never read. *)
Definition justified (r : session) (e : Q) : Prop :=
  (exists start reading, cs_meter_start r = Some start /\ 0 < start <= reading
     /\ (cs_last_meter r = Some reading \/ cs_meter_stop r = Some reading)
     /\ e = (inject_Z (reading - start) / 1000)%Q)
  \/ (exists stop limit, cs_meter_start r = None /\ cs_last_meter r = None /\ cs_meter_stop r = Some stop
        /\ _synthesized_delta_cap_wh cap = Ok limit /\ 0 < stop <= limit
        /\ e = (inject_Z stop / 1000)%Q).

Definition accounted (r : session) : Prop :=
  (is_open r = true -> live_exact r) /\ (forall e, cs_energy r = Some e -> justified r e).

Lemma live_exact_justified r e : live_exact r -> cs_energy r = Some e -> justified r e.
Proof.
  intros -> (p & s & Hp & Hs & Hb & ->)%compute_energy_Some. left. exists s, p. auto.
Qed.

Lemma live_row_accounted now a b c meter r :
  is_open r = true -> accounted r -> accounted (live_row now a b c meter r).
Proof.
  intros Ho [Hl _]. pose proof (live_row_exact now a b c meter r (Hl Ho)) as H.
  split; [done|]. intros e. by apply live_exact_justified.
Qed.

Lemma seen_accounted v r : accounted r -> accounted (with_last_seen v r).
Proof. done. Qed.

(** Closing with the bracket's energy. *)
Lemma close_row_accounted now e ms en why r :
  (forall q, en = Some q -> justified (close_row now e ms en why r) q) -> accounted (close_row now e ms en why r).
Proof. intros H. split; [by rewrite close_row_closed | done]. Qed.

Lemma closing_justified now e ms why r en syn why' :
  closing_energy cap ms why r = Ok (en, syn, why') ->
  accounted (close_row now e ms en why' r).
Proof.
  intros H. apply close_row_accounted. intros q ->. unfold closing_energy in H.
  destruct (compute_energy_kwh ms (cs_meter_start r)) as [q'|] eqn:Ec.
  { injection H as -> _ _. apply compute_energy_Some in Ec as (p & s & -> & Hs & Hb & ->).
    left. exists s, p. auto. }
  destruct (cs_meter_start r) eqn:Es; [done|]. destruct (cs_last_meter r) eqn:El; [done|].
  destruct ms as [p|]; [|done]. apply rbind_Ok in H as (limit & Hl & H).
  destruct (synthesize_energy_kwh_from_meter_stop (Some p) limit) as [e'|] eqn:Ey; [|done].
  injection H as -> _ _. unfold synthesize_energy_kwh_from_meter_stop in Ey.
  destruct (Z.leb_spec p 0); [done|]. destruct (Z.ltb_spec limit p); [done|]. injection Ey as <-.
  right. exists p, limit. cbn. eauto 10.
Qed.

Lemma update_where_forall {A} (P : A -> Prop) p f (t : list A) :
  Forall P t -> (forall r, r ∈ t -> p r = true -> P r -> P (f r)) -> Forall P (update_where p f t).
Proof.
  rewrite !Forall_forall. intros H Hf y (x & Hx & ->)%elem_of_update_where.
  destruct (p x) eqn:E; auto.
Qed.

(** The rows a close can hit: the one that was read. *)
Lemma open_tx_unique t s st x r y :
  ids_ok t s -> r ∈ t -> y ∈ t -> cs_tx r = Some x -> open_tx st x y = true -> y = r.
Proof.
  intros Hi Hr Hy Hx Ho. unfold open_tx in Ho.
  apply andb_true_iff in Ho as [[_ Ho]%andb_true_iff _]. apply bool_decide_eq_true in Ho.
  eapply (omap_inj cs_tx); eauto using ids_nodup.
Qed.

Lemma close_accounted now st tx e ms why t s res t' :
  ids_ok t s -> Forall accounted t ->
  close_open_session cap now st tx e ms why t = Ok (res, t') -> Forall accounted t'.
Proof.
  intros Hi Ha. unfold close_open_session. destruct (List.find _ t) as [r|] eqn:Ef; [|by intros [= _ <-]].
  intros ([[en syn] why'] & Hd & H)%rbind_Ok. injection H as _ <-.
  destruct (find_open_tx _ _ _ _ Ef) as (Hr & Ho & Hx).
  apply update_where_forall; [done|]. intros y Hy [_ Hyo]%andb_true_iff _.
  rewrite (open_tx_unique _ _ _ _ _ _ Hi Hr Hy Hx Hyo). by eapply closing_justified.
Qed.

Lemma telemetry_row_accounted charger_of now d ts ts' :
  Forall accounted (fst ts) -> insert_telemetry_row charger_of now d ts = Ok ts' -> Forall accounted (fst ts').
Proof.
  destruct ts as [t tel]. unfold insert_telemetry_row. intros Ha H. inv_ok. cbn in *.
  destruct (_coerce_transaction_id _); [|done]. destruct (String.eqb _ _); [done|].
  apply update_where_forall; [done|]. intros r _ Ho. apply live_row_accounted. by eapply open_tx_open.
Qed.

Lemma telemetry_batch_accounted charger_of now ok l ts :
  Forall accounted (fst ts) -> Forall accounted (fst (snd (insert_telemetry_batch charger_of now ok l ts))).
Proof.
  revert ok ts. induction l as [|d l IH]; intros [|ok] ts H; try done. cbn [insert_telemetry_batch].
  destruct (insert_telemetry_row charger_of now d ts) as [ts'|e] eqn:E; [|done].
  apply IH. by eapply telemetry_row_accounted.
Qed.

Lemma persist_accounted charger_of env l ts :
  Forall accounted (fst ts) -> Forall accounted (fst (fold_left (persist_step charger_of env) l ts)).
Proof.
  revert ts. induction l as [|x l IH]; intros ts H; [done|]. cbn [fold_left]. apply IH.
  by apply telemetry_batch_accounted.
Qed.

Lemma seen_table_accounted v p t : Forall accounted t -> Forall accounted (update_where p (with_last_seen v) t).
Proof. intros H. apply update_where_forall; [done|]. intros. by apply seen_accounted. Qed.

(** The recovery's table: untouched rows, and closed ones. *)
Definition partly_closed (t cur : list session) : Prop :=
  Forall2 (fun r0 r => r = r0 \/ is_open r = false) t cur.

Lemma partly_closed_update t cur p now e ms en why :
  partly_closed t cur -> partly_closed t (update_where p (close_row now e ms en why) cur).
Proof.
  induction 1 as [|r0 r t cur Hr _ IH]; cbn; constructor; [|done]. destruct (p r); [by right | done].
Qed.

Lemma partly_closed_open t cur y : partly_closed t cur -> y ∈ cur -> is_open y = true -> y ∈ t.
Proof.
  induction 1 as [|r0 r t cur Hr _ IH]; intros Hy Ho; [by apply not_elem_of_nil in Hy|].
  apply elem_of_cons in Hy as [->|Hy]; [|right; auto].
  destruct Hr as [->|Hc]; [left | congruence].
Qed.

(** What the recovery does to a row it closes: the row was open and stale, and
    keeps its live energy. *)
Definition recovered (now thr clock : Z) (t : list session) (c : session) : Prop :=
  exists r, r ∈ t /\ is_open r = true /\ stale now thr r = true
    /\ c = close_row now (default clock (cs_last_seen r)) (cs_last_meter r) (cs_energy r)
             (Some "orphaned_recovered") r.

Lemma recover_fold now thr clock t s l :
  ids_ok t s -> Forall accounted t -> (forall r, r ∈ l -> r ∈ t) ->
  forall closed cur, partly_closed t cur -> Forall accounted cur -> Forall (recovered now thr clock t) closed ->
  let acc := fold_left (recover_row now thr clock) l (closed, cur) in
  Forall accounted (snd acc) /\ Forall (recovered now thr clock t) (fst acc).
Proof.
  intros Hi Ha. induction l as [|r l IH]; intros Hl closed cur Hp Hc Hd; [done|]. cbn [fold_left].
  assert (r ∈ t) as Hr by (apply Hl; left).
  assert (forall y, y ∈ l -> y ∈ t) as Hl' by (intros y Hy; apply Hl; by right).
  unfold recover_row at 2 4. destruct (cs_tx r) as [tx|] eqn:Ex; [|by apply IH].
  assert (forall y, y ∈ cur -> String.eqb (cs_id y) (cs_id r) && open_tx (cs_station r) tx y && stale now thr y = true ->
            y = r /\ is_open r = true /\ stale now thr r = true) as Hhit.
  { intros y Hy [[_ Ho]%andb_true_iff Hst]%andb_true_iff. pose proof (open_tx_open _ _ _ Ho) as Hop.
    pose proof (partly_closed_open _ _ _ Hp Hy Hop) as Hyt.
    pose proof (open_tx_unique _ _ _ _ _ _ Hi Hr Hyt Ex Ho) as ->. done. }
  apply IH; [done | by apply partly_closed_update | |].
  - apply update_where_forall; [done|]. intros y Hy Hh _. destruct (Hhit y Hy Hh) as (-> & Hop & _).
    apply close_row_accounted. intros q (p & st & Hp' & Hst & Hb & ->)%compute_energy_Some.
    left. exists st, p. auto.
  - apply Forall_app. split; [done|]. apply Forall_fmap, Forall_forall. intros y [Hy Hh]%elem_of_lfilter.
    destruct (Hhit y Hy Hh) as (-> & Hop & Hst). exists r. split_and!; [done..|]. cbn.
    destruct (proj1 (Forall_forall _ _) Ha r Hr) as [Hl2 _]. by rewrite (Hl2 Hop).
Qed.

Lemma orphans_in now thr limit t r : r ∈ orphans now thr limit t -> r ∈ t.
Proof.
  unfold orphans. intros H.
  match type of H with _ ∈ take _ ?l => assert (r ∈ l) as H2
    by (rewrite <- (take_drop limit l); apply elem_of_app; by left) end.
  apply elem_of_sort_by in H2. by apply elem_of_lfilter in H2 as [H2 _].
Qed.

Lemma recover_facts select_now now clock thr limit t s :
  ids_ok t s -> Forall accounted t ->
  Forall accounted (snd (recover_orphaned_sessions select_now now clock thr limit t))
  /\ Forall (recovered now thr clock t) (fst (recover_orphaned_sessions select_now now clock thr limit t)).
Proof.
  intros Hi Ha. unfold recover_orphaned_sessions.
  apply (recover_fold now thr clock t s _ Hi Ha); [apply orphans_in | | done | constructor].
  clear. induction t; constructor; auto.
Qed.
End Energy.

(** ** Every operation keeps the books *)

Section Books.
Context (fleet : fleet_tables) (cap : option (option pyfloat)) (station : string).

Definition books (w : world) : Prop :=
  ids_ok (sessions w) (sequence w) /\ Forall (accounted cap) (sessions w).

(** What a start does to the table and the sequence. *)
Lemma start_table env m w w' x a :
  start_transaction fleet station env m w = (x, a, w') ->
  (sessions w' = sessions w /\ sequence w <= sequence w')
  \/ (exists p, sessions w' = insert_open_session (st_uuid env) (st_now env) station (sequence w + 1) p (sessions w)
        /\ sequence w' = sequence w + 1
        /\ a = accepted /\ x = sequence w + 1
        /\ rd_status (fst (authorize fleet (st_auth env) station (sm_id_tag m) (cards w))) = AUTH_ACCEPTED
        /\ ps_connector p = sm_connector m /\ ps_id_tag p = sm_id_tag m).
Proof.
  unfold start_transaction. destruct (_on_transaction_start fleet station env m w) as [a1 w1] eqn:E.
  destruct (start_callback_table fleet station env m w a1 w1 E) as (Es & Eq & Eg).
  unfold on_start_transaction. cbn [default]. case_bool_decide as Hacc.
  2: { intros [= _ _ <-]. left. rewrite Es, Eq. split; [done | lia]. }
  assert (a1 = accepted) as -> by exact Hacc.
  unfold _next_transaction_id. destruct (st_seq_ok env); cbn [negb].
  2: { intros [= _ _ <-]. left. rewrite <- Es, <- Eq. destruct (_pending_start w1) as [p|]; cbn; [|split; [done | lia]].
       destruct (transactions w1 @? ps_connector p); cbn; split; done || lia. }
  unfold _on_transaction_start in E.
  destruct (start_gate station env (sm_connector m) w) as [[r|] w0] eqn:Eg0.
  { exfalso. injection E as -> ->. subst. unfold start_gate in Eg0. destruct (transactions w @? _); [|done].
    destruct (negb _); [done|]. destruct (is_transaction_open _ _ _); [done|]. by case_bool_decide. }
  rewrite <- (start_gate_cards _ _ _ _ _ _ Eg0) in *.
  destruct (authorize fleet (st_auth env) station (sm_id_tag m) (cards w0)) as [d c] eqn:Ea.
  case_bool_decide as Hd; cbn [negb] in E; [|injection E as E1 _; congruence].
  destruct (dmem _ _); [done|]. injection E as _ <-. cbn in *.
  destruct (st_insert_ok env); intros [= <- <- <-]; cbn.
  - right. eexists. rewrite Es, Eq. split_and!; try done. cbn. by destruct (rd_status d).
  - left. rewrite Es, Eq. split; [done | lia].
Qed.

Lemma insert_books uuid now st p w :
  books w ->
  ids_ok (insert_open_session uuid now st (sequence w + 1) p (sessions w)) (sequence w + 1)
  /\ Forall (accounted cap) (insert_open_session uuid now st (sequence w + 1) p (sessions w)).
Proof.
  intros [Hi Ha]. unfold insert_open_session. rewrite (fresh_tx _ (sequence w)) by (done || lia).
  split; [by apply ids_ok_snoc|]. apply Forall_app. split; [done|]. constructor; [|constructor].
  by split; [intros _|intros e].
Qed.

Lemma stop_books charger_of env m w : books w -> books (stop_transaction cap station charger_of env m w).
Proof.
  intros [Hi Ha]. unfold stop_transaction.
  match goal with |- books (_on_transaction_stop _ _ _ _ _ ?x) => set (w1 := x) end.
  split.
  { destruct (stop_frame cap station charger_of env m w1) as [_ ->].
    eapply ids_ok_step; [apply stop_callback_table | exact Hi]. }
  unfold _on_transaction_stop. destruct (_resolve_meter_stop _ _) as [ms|e]; [|done].
  assert (Forall (accounted cap) (sessions (close_step cap station env m ms w1))) as H1.
  { unfold close_step. destruct (sp_close_ok env); [|done].
    destruct (close_open_session _ _ _ _ _ _ _ _) as [[[r|] t]|e] eqn:E; [| |done];
      by eapply (close_accounted cap _ _ _ _ _ _ (sessions w1)); [exact Hi | exact Ha | exact E]. }
  destruct (if sp_lookup_ok env then _ else None) as [c|]; [|exact H1]. cbv zeta.
  match goal with |- context [fold_left ?f ?l ?ts] => pose proof (persist_accounted cap charger_of env l ts H1) as H2;
    destruct (fold_left f l ts) as [t tel] end.
  exact H2.
Qed.

Lemma step_books o w : books w -> books (step fleet cap station o w).
Proof.
  intros Hb. pose proof Hb as [Hi Ha]. destruct o; cbn [step].
  - destruct (start_transaction fleet station env m w) as [[x a] w'] eqn:E. cbn [snd].
    destruct (start_table _ _ _ _ _ _ E) as [[Es Eq]|(p & Es & Eq & _)]; unfold books; rewrite Es.
    + split; [by eapply ids_ok_mono | done].
    + rewrite Eq. by apply insert_books.
  - by apply stop_books.
  - pose proof (telemetry_batch_accounted cap charger_of now ok rows (sessions w, telemetries w) Ha) as H.
    pose proof (telemetry_batch_step charger_of now ok rows (sessions w, telemetries w)) as Hs.
    destruct (snd _) as [t tel]. split; [by eapply ids_ok_step | exact H].
  - split; [rewrite boot_frame; eapply ids_ok_step; [apply boot_table | done]|].
    unfold _on_boot. rewrite reload_table. destruct clear_ok; [by apply seen_table_accounted | done].
  - exact Hb.
  - split; [eapply ids_ok_step; [apply mark_step | done]|]. by apply seen_table_accounted.
  - destruct (recover_facts cap select_now now clock threshold limit _ _ Hi Ha) as [H _].
    pose proof (recover_step select_now now clock threshold limit (sessions w)) as Hs.
    destruct (recover_orphaned_sessions _ _ _ _ _ _) as [closed t]. split; [by eapply ids_ok_step | exact H].
  - exact (insert_books uuid now station0 p w Hb).
Qed.

Lemma run_books ops w : books w -> books (run fleet cap station ops w).
Proof.
  revert w. induction ops as [|o ops IH]; intros w H; [done|]. cbn [run fold_left]. apply IH. by apply step_books.
Qed.

(** C20: Every energy a session row shows, live or closed, is the difference of a later
    register reading of the row and its positive start reading, divided by 1000, or,
    when there is no other reading, the positive reading at the stop if it lies within
    the synthesis cap. *)
Theorem reported_energy_justified ops w r e :
  books w -> r ∈ sessions (run fleet cap station ops w) -> cs_energy r = Some e -> justified cap r e.
Proof.
  intros Hb Hr He. destruct (run_books ops w Hb) as [_ Ha].
  by apply (proj1 (Forall_forall _ _) Ha r Hr).
Qed.

(** After any history, each row a recovery sweep reports as closed was open and stale
    when it was updated; it ends when its socket was last seen, or now, takes the last
    register reading as its stop and keeps the energy it showed live. *)
Theorem recovery_closes_stale_sessions ops w select_now now clock threshold limit c :
  books w ->
  c ∈ fst (recover_orphaned_sessions select_now now clock threshold limit (sessions (run fleet cap station ops w))) ->
  exists r, r ∈ sessions (run fleet cap station ops w) /\ is_open r = true /\ stale now threshold r = true
    /\ cs_end c = Some (default clock (cs_last_seen r)) /\ cs_meter_stop c = cs_last_meter r
    /\ cs_energy c = cs_energy r.
Proof.
  intros Hb Hc. destruct (run_books ops w Hb) as [Hi Ha].
  destruct (recover_facts cap select_now now clock threshold limit _ _ Hi Ha) as [_ H].
  destruct (proj1 (Forall_forall _ _) H c Hc) as (r & Hr & Ho & Hs & ->). exists r. by split_and!.
Qed.

(** A row that a start adds. *)
Theorem sessions_belong_to_known_cards env m w i r :
  Forall override_wf (overrides (cards w)) ->
  sessions (snd (start_transaction fleet station env m w)) !! i = Some r -> (length (sessions w) <= i)%nat ->
  cs_connector r = sm_connector m /\ cs_id_token r = Some (sm_id_tag m) /\
  fst (_is_throttled (st_auth env) (station, sm_id_tag m) (cards w)) = false /\
  (known_card fleet station (sm_id_tag m) \/
   exists o, o ∈ overrides (cards w) /\ ov_station o = station /\ ov_id_tag o = sm_id_tag m /\
     ae_throttle_now (st_auth env) < ov_expires_at o + 120 * usec).
Proof.
  intros Hw Hi Hlen. destruct (start_transaction fleet station env m w) as [[x a] w'] eqn:E. cbn [snd] in Hi.
  destruct (start_table _ _ _ _ _ _ E) as [[Es _]|(p & Es & _ & _ & _ & Ha & Hc & Ht)]; rewrite Es in Hi.
  { apply lookup_lt_Some in Hi. lia. }
  unfold insert_open_session in Hi. destruct (existsb _ _); [apply lookup_lt_Some in Hi; lia|].
  rewrite lookup_app_r in Hi by done. apply list_lookup_singleton_Some in Hi as [_ <-]. cbn.
  rewrite Hc, Ht. split; [done|]. split; [done|].
  destruct (authorize fleet (st_auth env) station (sm_id_tag m) (cards w)) as [d c] eqn:Eau.
  destruct (accepted_is_known _ _ _ _ _ _ _ Hw Eau) as [_ Hk]. destruct (Hk Ha) as (_ & H1 & H2).
  split; [done|]. destruct H2 as [[_ H2]|[_ H2]]; [by left | by right].
Qed.
End Books.

(** ** Departures from the documented behaviour *)

Definition ex_fleet : fleet_tables :=
  {| ft_vehicles := Some [{| vt_vehicle := "V1"; vt_site := "S1"; vt_id_tag := "BUS1"; vt_status := None |};
                          {| vt_vehicle := "V2"; vt_site := "S1"; vt_id_tag := "BUS2"; vt_status := None |}];
     ft_cards := None; ft_stations := [("CS1", "S1")]; ft_assignments := fun _ _ => (None, None) |}.

Definition ex_auth : auth_env :=
  {| ae_throttle_now := 0; ae_record_now := 0; ae_count_ok := true; ae_lookup_ok := true;
     ae_override_ok := true; ae_record_ok := true; ae_clear_ok := true |}.

Definition ex_world : world :=
  {| sessions := []; telemetries := []; sequence := 100; scheduled := []; transactions := [];
     current_transaction_id := None; _pending_start := None; _in_memory_only_tx_ids := ∅;
     _tx_id_gen := 700; cards := init_rfid [] [] |}.

Definition ex_start_env (seq_ok insert_ok : bool) (uuid : string) (now : Z) : start_env :=
  {| st_open_ok := true; st_seq_ok := seq_ok; st_insert_ok := insert_ok; st_auth := ex_auth;
     st_uuid := uuid; st_now := now |}.

Definition ex_start (tag : string) (meter : Z) (now : Z) : start_msg :=
  {| sm_connector := 1; sm_id_tag := tag; sm_meter_start := Some meter; sm_timestamp := Some now |}.

Definition ex_stop_env (close_ok : bool) (now : Z) : stop_env :=
  {| sp_lookup_ok := true; sp_close_ok := close_ok; sp_telemetry_ok := fun _ => true; sp_now := now |}.

Definition ex_stop (tx : Z) (meter : option Z) (data : list meter_entry) (now : Z) : stop_msg :=
  {| pm_tx := tx; pm_meter_stop := meter; pm_timestamp := Some now; pm_reason := "Local"; pm_data := data |}.

#[local] Notation ex_run ops := (run ex_fleet None "CS1" ops ex_world).

Definition ex_begin (uuid tag : string) (now : Z) : op := OStart (ex_start_env true true uuid now) (ex_start tag 5000 now).

(** The open sessions of connector 1: their transaction ids. *)
Definition open_ids (w : world) : list (option Z) :=
  map cs_tx (List.filter (fun r => is_open r && (cs_connector r =? 1)) (sessions w)).

(** A NaN sample in the transaction data. *)
Definition ex_nan : list meter_entry :=
  [{| me_sampledValue := Some [{| sv_measurand := Some ENERGY_REGISTER; sv_value := Some (Some NaN);
                                  sv_unit := None; sv_multiplier := None |}];
      me_sampled_value := None; me_timestamp := None |}].

(** Each premise of [orderly] is needed: without it a connector gets two open
    sessions. *)
Theorem second_open_session :
  open_ids (ex_run [ex_begin "u1" "BUS1" 10; OStop (fun _ => None) (ex_stop_env false 20) (ex_stop 101 (Some 9000) [] 20);
                    ex_begin "u2" "BUS2" 30]) = [Some 101; Some 102]
  /\ open_ids (ex_run [ex_begin "u1" "BUS1" 10; OStop (fun _ => None) (ex_stop_env true 20) (ex_stop 101 None ex_nan 20);
                       ex_begin "u2" "BUS2" 30]) = [Some 101; Some 102]
  /\ open_ids (ex_run [ex_begin "u1" "BUS1" 10; OConnect; ex_begin "u2" "BUS2" 30]) = [Some 101; Some 102]
  /\ open_ids (ex_run [ex_begin "u1" "BUS1" 10; OConnect; OBoot true false; ex_begin "u2" "BUS2" 30])
     = [Some 101; Some 102].
Proof. vm_compute. auto. Qed.

(** A start that had no durable row: one whose insert failed blocks the connector,
    one whose id came from the fallback counter does not. *)
Theorem fallback_id_not_protected :
  let second w := snd (fst (start_transaction ex_fleet "CS1" (ex_start_env true true "u2" 30) (ex_start "BUS2" 5000 30) w)) in
  second (ex_run [OStart (ex_start_env true false "u1" 10) (ex_start "BUS1" 5000 10)]) = concurrent_tx
  /\ second (ex_run [OStart (ex_start_env false true "u1" 10) (ex_start "BUS1" 5000 10)]) = accepted.
Proof. vm_compute. auto. Qed.

(** An exception of the start callback is answered with an accepted transaction
    that no session row records; one of the authorize callback is refused. *)
Theorem start_exception_accepts station env c w :
  snd (fst (on_start_transaction station None env c w)) = accepted
  /\ (_pending_start w = None ->
      sessions (snd (on_start_transaction station None env c w)) = sessions w
      /\ is_Some (transactions (snd (on_start_transaction station None env c w)) @? c))
  /\ on_authorize_request None = invalid.
Proof.
  unfold on_start_transaction. cbn [default from_option]. rewrite bool_decide_true by done.
  unfold _next_transaction_id. split_and!.
  - destruct (st_seq_ok env); cbn; [|done]. by destruct (_pending_start w).
  - intros ->. destruct (st_seq_ok env); cbn; (split; [done|]); rewrite dget_dset_eq; eauto.
  - done.
Qed.

(** A register reading of 8000 Wh for transaction 101, at [now]. *)
Definition ex_reading (register : bool) (now : Z) : op :=
  OMeter (fun _ => None) now 5
    [{| td_time := now; td_station := "CS1"; td_connector := 1; td_session := Some "101"%string;
        td_power_kw := Some (Fin 7); td_energy_kwh := None; td_soc_percent := None; td_max_kw := None;
        td_raw := Some {| rs_measurand := if register then ENERGY_REGISTER else "Power.Active.Import"%string;
                          rs_value := Fin 8000; rs_unit := "Wh"; rs_timestamp := Some now |};
        td_index := Some 0 |}].

Definition minutes (n : Z) : Z := n * 60 * usec.

Definition energies (w : world) : list (option Q * option string) :=
  map (fun r => (cs_energy r, cs_stop_reason r)) (sessions w).

(** A stop without a reading erases the energy the readings had established; the
    recovery of the same session keeps it. *)
Theorem stop_without_reading_erases_energy :
  energies (ex_run [ex_begin "u1" "BUS1" 10; ex_reading true 20]) = [(Some (3000 # 1000)%Q, None)]
  /\ energies (ex_run [ex_begin "u1" "BUS1" 10; ex_reading true 20;
                       OStop (fun _ => None) (ex_stop_env true 30) (ex_stop 101 None [] 30)])
     = [(None, Some "Local"%string)]
  /\ energies (ex_run [ex_begin "u1" "BUS1" 10; ex_reading true 20; ODisconnect 30;
                       ORecover (minutes 60) (minutes 60) (minutes 60) (minutes 30) 100])
     = [(Some (3000 # 1000)%Q, Some "orphaned_recovered"%string)].
Proof. vm_compute. auto. Qed.

(** The recovery closes sessions that are alive: one whose charger reconnected
    without a boot, with a reading seconds ago, and one that reports power but no
    longer its register. *)
Theorem live_sessions_recovered :
  let sweep := ORecover (minutes 60) (minutes 60) (minutes 60) (minutes 30) 100 in
  open_ids (ex_run [ex_begin "u1" "BUS1" 0; ODisconnect (minutes 1); OConnect;
                    ex_reading true (minutes 60 - 5); sweep]) = []
  /\ open_ids (ex_run [ex_begin "u1" "BUS1" 0; ODisconnect (minutes 1); OConnect; OBoot true true;
                       ex_reading true (minutes 60 - 5); sweep]) = [Some 101]
  /\ open_ids (ex_run [ex_begin "u1" "BUS1" 0; ex_reading true (minutes 1);
                       ex_reading false (minutes 60 - 5); sweep]) = [].
Proof. vm_compute. auto. Qed.

(** ** Witnesses *)

Definition ex_day : list op :=
  [ex_begin "u1" "BUS1" 10; ex_reading true 20; ODisconnect 30; OConnect; ex_reading false 35; OBoot true true;
   ex_begin "u2" "BUS2" 40;
   OStop (fun _ => None) (ex_stop_env true 50) (ex_stop 101 (Some 9000) [] 50); ex_begin "u3" "BUS2" 60].

Lemma ex_world_books : books None ex_world.
Proof. split; [split; [by intros r x ?%not_elem_of_nil | constructor] | constructor]. Qed.

Lemma ex_world_good : good "CS1" ex_world.
Proof.
  split; [split; [by intros r x ?%not_elem_of_nil | constructor]|]. by intros r ?%not_elem_of_nil.
Qed.

Lemma ex_day_orderly : orderly None "CS1" ex_day.
Proof.
  unfold ex_day. do 3 (apply orderly_op; [done|]).
  apply (orderly_reconnect None "CS1" [ex_reading false 35] true); [by repeat constructor|].
  apply orderly_op; [done|]. apply orderly_op; [done|]. apply orderly_op; [done|]. apply orderly_nil.
Qed.

Lemma session_history_witness :
  option_map is_open (sessions (ex_run ex_day) !! 0%nat) = Some false /\
  sessions (run ex_fleet None "CS1" ex_day (ex_run ex_day)) !! 0%nat = sessions (ex_run ex_day) !! 0%nat.
Proof.
  assert (option_map is_open (sessions (ex_run ex_day) !! 0%nat) = Some false) as Ho by (vm_compute; reflexivity).
  split; [exact Ho|]. destruct (sessions (ex_run ex_day) !! 0%nat) as [r|] eqn:E; [|discriminate Ho].
  injection Ho as Ho.
  destruct (session_history ex_fleet None "CS1" ex_day (ex_run ex_day) 0 r E) as (r' & H & _ & Hc).
  rewrite H. f_equal. exact (Hc Ho).
Defined.

Lemma one_open_session_witness :
  open_ids (ex_run ex_day) = [Some 102] /\
  (forall r1 r2, r1 ∈ sessions (ex_run ex_day) -> r2 ∈ sessions (ex_run ex_day) ->
     mine "CS1" r1 -> mine "CS1" r2 -> cs_connector r1 = cs_connector r2 -> r1 = r2).
Proof.
  split; [vm_compute; reflexivity|]. intros r1 r2 H1 H2 M1 M2.
  apply (one_open_session_per_connector ex_fleet None "CS1" ex_day ex_world);
    [exact ex_world_good | exact ex_day_orderly | exact H1 | exact H2 | exact M1 | exact M2].
Defined.

Lemma reported_energy_witness :
  exists r, sessions (ex_run ex_day) !! 0%nat = Some r /\ justified None r (4000 # 1000).
Proof.
  assert (option_map cs_energy (sessions (ex_run ex_day) !! 0%nat) = Some (Some (4000 # 1000)%Q)) as He
    by (vm_compute; reflexivity).
  destruct (sessions (ex_run ex_day) !! 0%nat) as [r|] eqn:E; [|discriminate He].
  injection He as He. exists r. split; [reflexivity|].
  apply (reported_energy_justified ex_fleet None "CS1" ex_day ex_world r _ ex_world_books);
    [exact (list_elem_of_lookup_2 _ _ _ E) | exact He].
Defined.

Definition ex_orphan : list op := [ex_begin "u1" "BUS1" 10; ex_reading true 20; ODisconnect 30].

Definition ex_closed : list session :=
  fst (recover_orphaned_sessions (minutes 60) (minutes 60) 7 (minutes 30) 100 (sessions (ex_run ex_orphan))).

Lemma recovery_closes_stale_witness :
  length ex_closed = 1%nat /\
  exists r, r ∈ sessions (ex_run ex_orphan) /\ stale (minutes 60) (minutes 30) r = true.
Proof.
  assert (length ex_closed = 1%nat) as Hl by (vm_compute; reflexivity). split; [exact Hl|].
  destruct ex_closed as [|c l] eqn:E; [discriminate Hl|].
  assert (c ∈ ex_closed) as Hc by (rewrite E; left).
  destruct (recovery_closes_stale_sessions ex_fleet None "CS1" ex_orphan ex_world (minutes 60) (minutes 60) 7 (minutes 30) 100 c
              ex_world_books Hc) as (r & Hr & _ & Hs & _).
  exists r. split; [exact Hr | exact Hs].
Defined.

Definition ex_started : world :=
  snd (start_transaction ex_fleet "CS1" (ex_start_env true true "u1" 10) (ex_start "BUS1" 0 10) ex_world).

Lemma sessions_belong_witness :
  exists r, sessions ex_started !! 0%nat = Some r /\ cs_id_token r = Some "BUS1"%string.
Proof.
  assert (option_map cs_tx (sessions ex_started !! 0%nat) = Some (Some 101)) as H by (vm_compute; reflexivity).
  destruct (sessions ex_started !! 0%nat) as [r|] eqn:E; [|discriminate H]. exists r. split; [reflexivity|].
  destruct (sessions_belong_to_known_cards ex_fleet "CS1" (ex_start_env true true "u1" 10) (ex_start "BUS1" 0 10)
              ex_world 0 r) as (_ & Ht & _); [constructor | exact E | exact (le_0_n 0) | exact Ht].
Defined.

Lemma start_exception_witness :
  sessions (snd (on_start_transaction "CS1" None (ex_start_env true true "u1" 10) 1 ex_world)) = [].
Proof.
  apply (start_exception_accepts "CS1" (ex_start_env true true "u1" 10) 1 ex_world). reflexivity.
Defined.
