(* ===== verification/Alerts.v ===== *)
(** * Connector status, alerts and their delivery

    The connector status table and its markers for lost connections
    ([src/websocket_handler/timescale_client.py]), the trigger that turns faults
    into alerts ([migrations/029_remove_static_shadows.sql]), the monitor of offline
    chargers ([src/websocket_handler/offline_monitor.py]), the alerts repository,
    recipients and dispatcher ([src/notifications/]) and the states the API derives
    ([src/api/fleet_list.py]). Tables are lists of rows; an alert's id is its
    position. Where SQL leaves the choice between rows of equal rank open, the row
    inserted last is taken. Times are microseconds. *)

From S2P Require Import Prelude Models PyText.
From Stdlib Require Import ZArith QArith Lia Ascii.
From stdpp Require Import base list strings gmap.

#[local] Open Scope Z_scope.

(** ** Severity ([severity.py]) *)

Inductive Severity := INFO | WARNING | CRITICAL.

#[export] Instance severity_eq_dec : EqDecision Severity.
Proof. solve_decision. Defined.

Definition level (s : Severity) : Z := match s with INFO => 1 | WARNING => 2 | CRITICAL => 3 end.

Definition from_level (n : Z) : option Severity :=
  if n =? 1 then Some INFO else if n =? 2 then Some WARNING else if n =? 3 then Some CRITICAL else None.

Definition severity_value (s : Severity) : string :=
  match s with INFO => "info" | WARNING => "warning" | CRITICAL => "critical" end.

(** [Severity.from_str]: [None] is the [ValueError]. *)
Definition severity_from_str (v : string) : option Severity :=
  let v := String.string_of_list_ascii (map lower_ascii (String.list_ascii_of_string v)) in
  List.find (fun s => String.eqb (severity_value s) v) [INFO; WARNING; CRITICAL].

Definition meets_threshold (s threshold : Severity) : bool := level threshold <=? level s.

(** ** Alerts ([alerts.py]) *)

Inductive alert_status := active | acknowledged | resolved.

#[export] Instance alert_status_eq_dec : EqDecision alert_status.
Proof. solve_decision. Defined.

Record alert := {
  al_org : string;
  al_depot : option string;
  al_type : string;
  al_severity : Severity;
  al_title : string;
  al_detail : dict string pyobj;
  al_dedup : string;
  al_status : alert_status;
  al_first : Z;
  al_last : Z;
  al_count : Z;
  al_ack_at : option Z;
  al_ack_by : option string;
  al_ack_email : option string;
  al_resolved_at : option Z;
  al_notified_at : option Z;
  al_notified_count : Z
}.

Definition unresolved (a : alert) : bool := negb (bool_decide (al_status a = resolved)).

(** The conflict target: one unresolved row per organisation and key. *)
Definition same_key (org dedup : string) (a : alert) : bool :=
  String.eqb (al_org a) org && String.eqb (al_dedup a) dedup && unresolved a.

(** What a producer writes. *)
Record alert_input := {
  in_org : string;
  in_depot : option string;
  in_type : string;
  in_severity : Severity;
  in_title : string;
  in_detail : dict string pyobj;
  in_dedup : string
}.

Definition new_alert (now : Z) (x : alert_input) : alert :=
  {| al_org := in_org x; al_depot := in_depot x; al_type := in_type x; al_severity := in_severity x;
     al_title := in_title x; al_detail := in_detail x; al_dedup := in_dedup x; al_status := active;
     al_first := now; al_last := now; al_count := 1; al_ack_at := None; al_ack_by := None;
     al_ack_email := None; al_resolved_at := None; al_notified_at := None; al_notified_count := 0 |}.

(** [DO UPDATE SET ...]. *)
Definition refreshed (now : Z) (x : alert_input) (a : alert) : alert :=
  {| al_org := al_org a; al_depot := al_depot a; al_type := al_type a; al_severity := in_severity x;
     al_title := in_title x; al_detail := in_detail x; al_dedup := al_dedup a; al_status := al_status a;
     al_first := al_first a; al_last := now; al_count := al_count a + 1; al_ack_at := al_ack_at a;
     al_ack_by := al_ack_by a; al_ack_email := al_ack_email a; al_resolved_at := al_resolved_at a;
     al_notified_at := al_notified_at a; al_notified_count := al_notified_count a |}.

Definition on_rows (p : alert -> bool) (f : alert -> alert) (l : list alert) : list alert :=
  map (fun a => if p a then f a else a) l.

Definition upsert (now : Z) (x : alert_input) (l : list alert) : list alert :=
  if existsb (same_key (in_org x) (in_dedup x)) l
  then on_rows (same_key (in_org x) (in_dedup x)) (refreshed now x) l
  else l ++ [new_alert now x].

Definition upsert_alert (now : Z) (x : alert_input) (l : list alert) : list alert := upsert now x l.

(** A row acknowledged or resolved, by whom. *)
Definition with_status (s : alert_status) (ack_at : option Z) (by_ email : option string) (res : option Z)
    (a : alert) : alert :=
  {| al_org := al_org a; al_depot := al_depot a; al_type := al_type a; al_severity := al_severity a;
     al_title := al_title a; al_detail := al_detail a; al_dedup := al_dedup a; al_status := s;
     al_first := al_first a; al_last := al_last a; al_count := al_count a; al_ack_at := ack_at;
     al_ack_by := by_; al_ack_email := email; al_resolved_at := res;
     al_notified_at := al_notified_at a; al_notified_count := al_notified_count a |}.

Definition resolve_row (now : Z) (a : alert) : alert :=
  with_status resolved (al_ack_at a) (al_ack_by a) (al_ack_email a) (Some now) a.

Definition resolve_alert (now : Z) (org dedup : string) (l : list alert) : list alert :=
  on_rows (same_key org dedup) (resolve_row now) l.

(** [UPDATE ... WHERE id = $1 AND p]: whether a row was updated, and the table. *)
Definition on_row (i : nat) (p : alert -> bool) (f : alert -> alert) (l : list alert) : bool * list alert :=
  match l !! i with
  | Some a => if p a then (true, <[i := f a]> l) else (false, l)
  | None => (false, l)
  end.

Definition acknowledge (now : Z) (i : nat) (user : string) (l : list alert) : bool * list alert :=
  on_row i (fun a => bool_decide (al_status a = active))
    (fun a => with_status acknowledged (Some now) (Some user) (al_ack_email a) (al_resolved_at a) a) l.

(** [has_email] says whether the column of migration 046 exists. *)
Definition acknowledge_for_org (has_email : bool) (now : Z) (i : nat) (org user : string) (email : option string)
    (l : list alert) : bool * list alert :=
  on_row i (fun a => String.eqb (al_org a) org && bool_decide (al_status a = active))
    (fun a => with_status acknowledged (Some now) (Some user)
                (if has_email then email else al_ack_email a) (al_resolved_at a) a) l.

Definition or_else {A} (a b : option A) : option A := match a with Some _ => a | None => b end.

Definition resolve_by_id (has_email : bool) (now : Z) (i : nat) (org : string) (user email : option string)
    (l : list alert) : bool * list alert :=
  on_row i (fun a => String.eqb (al_org a) org && unresolved a)
    (fun a => let by_ := or_else (al_ack_by a) user in
              with_status resolved
                (or_else (al_ack_at a) (match by_ with Some _ => Some now | None => None end)) by_
                (if has_email then or_else (al_ack_email a) email else al_ack_email a) (Some now) a) l.

Definition mark_row (now : Z) (a : alert) : alert :=
  {| al_org := al_org a; al_depot := al_depot a; al_type := al_type a; al_severity := al_severity a;
     al_title := al_title a; al_detail := al_detail a; al_dedup := al_dedup a; al_status := al_status a;
     al_first := al_first a; al_last := al_last a; al_count := al_count a; al_ack_at := al_ack_at a;
     al_ack_by := al_ack_by a; al_ack_email := al_ack_email a; al_resolved_at := al_resolved_at a;
     al_notified_at := Some now; al_notified_count := al_notified_count a + 1 |}.

(** The new count; [None] is the [ValueError] of a missing row. *)
Definition mark_notified (now : Z) (i : nat) (l : list alert) : option (Z * list alert) :=
  match l !! i with
  | Some a => Some (al_notified_count a + 1, <[i := mark_row now a]> l)
  | None => None
  end.

(** Rows with their ids. *)
Definition numbered {A} (l : list A) : list (nat * A) := zip (seq 0 (length l)) l.

(** [ORDER BY severity_level DESC, last_occurrence_at DESC]. *)
Definition by_urgency (x y : nat * alert) : bool :=
  (level (al_severity (snd y)) <? level (al_severity (snd x)))
  || ((level (al_severity (snd y)) =? level (al_severity (snd x))) && (al_last (snd y) <=? al_last (snd x))).

Definition due (now resend : Z) (a : alert) : bool :=
  bool_decide (al_status a = active)
  && match al_notified_at a with None => true | Some t => t <? now - resend end.

Definition claim_pending_alerts (now resend : Z) (limit : nat) (l : list alert) : list (nat * alert) :=
  take limit (sort_by by_urgency (List.filter (fun x => due now resend (snd x)) (numbered l))).

Definition list_active_by_types (types : list string) (l : list alert) : list alert :=
  sort_by (fun x y => al_last y <=? al_last x)
    (List.filter (fun a => unresolved a && bool_decide (al_type a ∈ types)) l).

Definition list_for_depot (depot : string) (statuses : list alert_status) (limit : nat) (l : list alert)
  : list (nat * alert) :=
  take limit (sort_by by_urgency
    (List.filter (fun x => bool_decide (al_depot (snd x) = Some depot)
                           && bool_decide (al_status (snd x) ∈ statuses)) (numbered l))).

(** The filters of [list_for_org] and one page of its result with the total. *)
Record org_filter := {
  of_status : option alert_status;
  of_severity : option Severity;
  of_depot : option string;
  of_type : option string
}.

Definition matches {A} `{EqDecision A} (f : option A) (v : A) : bool :=
  match f with None => true | Some x => bool_decide (v = x) end.

Definition list_for_org (org : string) (f : org_filter) (page page_size : nat) (l : list alert)
  : list (nat * alert) * nat :=
  let rows := List.filter (fun x => String.eqb (al_org (snd x)) org && matches (of_status f) (al_status (snd x))
                && matches (of_severity f) (al_severity (snd x))
                && match of_depot f with None => true | Some d => bool_decide (al_depot (snd x) = Some d) end
                && matches (of_type f) (al_type (snd x))) (numbered l) in
  (take page_size (drop ((page - 1) * page_size) (sort_by by_urgency rows)), length rows).

(** ** Deliveries and recipients *)

Record delivery := {
  dl_alert : nat;
  dl_recipient : string;
  dl_count : Z;
  dl_message : option string;
  dl_delivered : string;          (* its status *)
  dl_sent_at : Z
}.

Definition same_delivery (i : nat) (r : string) (n : Z) (d : delivery) : bool :=
  bool_decide (dl_alert d = i) && String.eqb (dl_recipient d) r && (dl_count d =? n).

(** Whether a row was inserted, and the table. *)
Definition record_delivery (d : delivery) (l : list delivery) : bool * list delivery :=
  if existsb (same_delivery (dl_alert d) (dl_recipient d) (dl_count d)) l then (false, l)
  else (true, l ++ [d]).

Definition update_delivery_status (message status : string) (l : list delivery) : bool * list delivery :=
  let hit d := bool_decide (dl_message d = Some message) in
  (existsb hit l,
   map (fun d => if hit d
                 then {| dl_alert := dl_alert d; dl_recipient := dl_recipient d; dl_count := dl_count d;
                         dl_message := dl_message d; dl_delivered := status; dl_sent_at := dl_sent_at d |}
                 else d) l).

Record recipient := {
  rc_id : string;
  rc_org : string;
  rc_email : string;
  rc_types : list string;
  rc_min_severity : Severity;
  rc_active : bool
}.

(** [ORDER BY email] does not change who is written to and is left out. *)
Definition list_for_alert (org type : string) (s : Severity) (l : list recipient) : list recipient :=
  List.filter (fun r => String.eqb (rc_org r) org && rc_active r && (level (rc_min_severity r) <=? level s)
                        && (bool_decide (type ∈ rc_types r) || bool_decide ("*"%string ∈ rc_types r))) l.

(** [None] is the violation of the unique (organisation, address). *)
Definition create_recipient (r : recipient) (l : list recipient) : option (list recipient) :=
  if existsb (fun x => String.eqb (rc_org x) (rc_org r) && String.eqb (rc_email x) (rc_email r)) l then None
  else Some (l ++ [r]).

Definition update_recipient (id org : string) (types : option (list string)) (sev : option Severity)
    (act : option bool) (l : list recipient) : bool * list recipient :=
  let hit r := String.eqb (rc_id r) id && String.eqb (rc_org r) org in
  (existsb hit l,
   map (fun r => if hit r
                 then {| rc_id := rc_id r; rc_org := rc_org r; rc_email := rc_email r;
                         rc_types := default (rc_types r) types;
                         rc_min_severity := default (rc_min_severity r) sev;
                         rc_active := default (rc_active r) act |}
                 else r) l).

(** Deleting cascades to the deliveries. *)
Definition delete_recipient (id org : string) (l : list recipient) (d : list delivery)
  : bool * list recipient * list delivery :=
  let hit r := String.eqb (rc_id r) id && String.eqb (rc_org r) org in
  (existsb hit l, List.filter (fun r => negb (hit r)) l,
   if existsb hit l then List.filter (fun x => negb (String.eqb (dl_recipient x) id)) d else d).

(** ** The dispatcher ([dispatcher.py]) *)

(** What a send gives: an exception, or the provider's id and status. *)
Definition send_result : Type := option (option string * string).

Record mail := { alerts : list alert; deliveries : list delivery }.

Definition deliver (now : Z) (i : nat) (n : Z) (send : string -> send_result) (d : list delivery) (r : recipient)
  : list delivery :=
  let '(message, status) := match send (rc_id r) with
                            | Some x => x
                            | None => (None, "failed"%string)
                            end in
  snd (record_delivery {| dl_alert := i; dl_recipient := rc_id r; dl_count := n; dl_message := message;
                          dl_delivered := status; dl_sent_at := now |} d).

(** The count is bumped before anything is sent. [now] is the clock of the bump. *)
Definition _send_and_record (recipients : list recipient) (now : Z) (send : nat -> string -> send_result)
    (m : mail) (x : nat * alert) : mail :=
  let '(i, a) := x in
  let rs := list_for_alert (al_org a) (al_type a) (al_severity a) recipients in
  match mark_notified now i (alerts m) with
  | None => m
  | Some (n, l) => {| alerts := l; deliveries := fold_left (deliver now i n (send i)) rs (deliveries m) |}
  end.

(** One cycle: the alerts claimed at [claim_now] are processed; their clocks are
    the elements of [clocks]. *)
Definition _tick (recipients : list recipient) (resend : Z) (batch : nat) (send : nat -> string -> send_result)
    (claim_now : Z) (clocks : nat -> Z) (m : mail) : mail :=
  fold_left (fun m x => _send_and_record recipients (clocks (fst x)) send m x)
    (claim_pending_alerts claim_now resend batch (alerts m)) m.

(** ** Connector status *)

Record status_row := {
  sr_station : string;
  sr_connector : Z;
  sr_status : string;
  sr_error : option string;
  sr_timestamp : Z;
  sr_org : option string;
  sr_depot : option string;
  sr_created : Z
}.

Definition ConnectionLost : string := "ConnectionLost".

Definition fault_key (station : string) (connector : Z) : string :=
  "charger_fault:" +:+ station +:+ ":" +:+ py_str_int connector.

(** [fn_alerts_on_connector_status]. *)
Definition alerts_trigger (now : Z) (r : status_row) (l : list alert) : list alert :=
  let dk := fault_key (sr_station r) (sr_connector r) in
  if negb (bool_decide (sr_status r ∈ ["Faulted"; "Unavailable"]))
  then on_rows (fun a => String.eqb (al_dedup a) dk && unresolved a) (resolve_row now) l
  else match sr_org r with
       | None => l
       | Some org =>
           upsert now
             {| in_org := org; in_depot := sr_depot r; in_type := "charger_fault";
                in_severity := if String.eqb (sr_status r) "Faulted" then CRITICAL else WARNING;
                in_title := "Charger " +:+ sr_station r +:+ " connector " +:+ py_str_int (sr_connector r)
                            +:+ ": " +:+ sr_status r;
                in_detail := [("station_id", PStr (sr_station r)); ("connector_id", PInt (sr_connector r));
                              ("status", PStr (sr_status r)); ("error_code", pyopt PStr (sr_error r))];
                in_dedup := dk |} l
       end.

Definition insert_status (now : Z) (t : list status_row * list alert) (r : status_row)
  : list status_row * list alert :=
  (fst t ++ [r], alerts_trigger now r (snd t)).

(** Whether [b] comes before [a] in [created_at DESC, timestamp DESC]; ties go to
    the later row. *)
Definition newer (a b : status_row) : bool :=
  (sr_created a <? sr_created b)
  || ((sr_created a =? sr_created b) && (sr_timestamp a <=? sr_timestamp b)).

Definition newest (better : status_row -> status_row -> bool) (l : list status_row) : option status_row :=
  fold_left (fun best r => match best with
                           | None => Some r
                           | Some b => if better b r then Some r else best
                           end) l None.

Definition latest_on (station : string) (connector : Z) (l : list status_row) : option status_row :=
  newest newer (List.filter (fun r => String.eqb (sr_station r) station && (sr_connector r =? connector)) l).

Definition tenant_of (station : string) (l : list status_row) : option status_row :=
  newest newer (List.filter (fun r => String.eqb (sr_station r) station
                                      && bool_decide (is_Some (sr_org r))) l).

(** [DISTINCT ON (connector_id)], in order. *)
Definition connectors_of (station : string) (l : list status_row) : list Z :=
  sort_by Z.leb (remove_dups (map sr_connector (List.filter (fun r => String.eqb (sr_station r) station) l))).

Definition marker (now : Z) (status : string) (error : option string) (tenant : option status_row)
    (r : status_row) : status_row :=
  {| sr_station := sr_station r; sr_connector := sr_connector r; sr_status := status; sr_error := error;
     sr_timestamp := now;
     sr_org := or_else (sr_org r) (match tenant with Some t => sr_org t | None => None end);
     sr_depot := or_else (sr_depot r) (match tenant with Some t => sr_depot t | None => None end);
     sr_created := now |}.

Definition mark_connectors_unavailable (now : Z) (station : string) (t : list status_row * list alert)
  : list status_row * list alert :=
  fold_left (insert_status now)
    (map (marker now "Unavailable" (Some ConnectionLost) (tenant_of station (fst t)))
       (omap (fun c => latest_on station c (fst t)) (connectors_of station (fst t)))) t.

Definition is_lost (r : status_row) : bool :=
  String.eqb (sr_status r) "Unavailable" && bool_decide (sr_error r = Some ConnectionLost).

(** The number of connectors rewritten, and the tables. *)
Definition mark_connectors_available_after_reconnect (now : Z) (station : string)
    (t : list status_row * list alert) : nat * (list status_row * list alert) :=
  let rows := List.filter is_lost (omap (fun c => latest_on station c (fst t)) (connectors_of station (fst t))) in
  (length rows,
   fold_left (insert_status now) (map (marker now "Available" None (tenant_of station (fst t))) rows) t).

(** ** Offline chargers ([offline_monitor.py]) *)

Definition ALERT_TYPE_3H : string := "charger_offline_3h".
Definition ALERT_TYPE_24H : string := "charger_offline_24h".
Definition OFFLINE_ALERT_TYPES : list string := [ALERT_TYPE_3H; ALERT_TYPE_24H].

Record OfflineCharger := {
  oc_station : string;
  oc_since : Z;
  oc_offline : Z;                 (* [offline_seconds], in microseconds *)
  oc_org : option string;
  oc_depot : option string
}.

(** [ORDER BY (timestamp > NOW()) ASC, created_at DESC, timestamp DESC]. *)
Definition newer_at (now : Z) (a b : status_row) : bool :=
  let fa := now <? sr_timestamp a in
  let fb := now <? sr_timestamp b in
  if eqb fa fb then newer a b else fa.

Definition latest_at (now : Z) (station : string) (l : list status_row) : option status_row :=
  newest (newer_at now) (List.filter (fun r => String.eqb (sr_station r) station) l).

Definition tenant_at (now : Z) (station : string) (l : list status_row) : option status_row :=
  newest (newer_at now) (List.filter (fun r => String.eqb (sr_station r) station
                                               && bool_decide (is_Some (sr_org r))) l).

(** The order of the stations is left as that of the table. *)
Definition fetch_offline_chargers (now floor : Z) (l : list status_row) : list OfflineCharger :=
  omap (fun st =>
    match latest_at now st l with
    | Some r =>
        if is_lost r && (sr_timestamp r <=? now - floor)
        then let t := tenant_at now st l in
             Some {| oc_station := st; oc_since := sr_timestamp r; oc_offline := now - sr_timestamp r;
                     oc_org := or_else (sr_org r) (match t with Some x => sr_org x | None => None end);
                     oc_depot := or_else (sr_depot r) (match t with Some x => sr_depot x | None => None end) |}
        else None
    | None => None
    end) (remove_dups (map sr_station l)).

Definition _stations_still_offline (now : Z) (stations : list string) (l : list status_row) : list string :=
  List.filter (fun st => match latest_at now st l with Some r => is_lost r | None => false end) stations.

(** [max(1, round(seconds / 3600))]. *)
Definition _hour_label (threshold : Z) : Z := Z.max 1 (Qround_even (inject_Z threshold / inject_Z hour_us)).

(** The texts of the detail that nothing reads back are left out. *)
Definition _build_upsert (c : OfflineCharger) (org : string) (threshold : Z) (sev : Severity) (type : string)
  : alert_input :=
  {| in_org := org; in_depot := oc_depot c; in_type := type; in_severity := sev;
     in_title := "Charger " +:+ oc_station c +:+ " offline " +:+ py_str_int (_hour_label threshold) +:+ "h+";
     in_detail := [("station_id", PStr (oc_station c)); ("offline_since", PInt (oc_since c));
                   ("threshold_hours", PInt (_hour_label threshold))];
     in_dedup := type +:+ ":" +:+ oc_station c |}.

(** [dedup.split(":", 1)[1]], when there is a colon. *)
Fixpoint after_colon (s : string) : option string :=
  match s with
  | EmptyString => None
  | String c s' => if Ascii.eqb c ":" then Some s' else after_colon s'
  end.

(** The station of an alert: of its detail, else of its key. *)
Definition _station_of (a : alert) : option string :=
  match al_detail a @? "station_id" with
  | Some (PStr s) => if String.eqb s "" then after_colon (al_dedup a) else Some s
  | Some (PInt z) => if z =? 0 then after_colon (al_dedup a) else Some (py_str_int z)
  | _ => after_colon (al_dedup a)
  end.

Record SweepPlan := {
  upserts : list (string * alert_input);           (* with the charger's station *)
  resolves : list (string * string);               (* organisation and key *)
  skipped_no_tenant : list string
}.

(** The chargers of an organisation offline for at least a threshold. *)
Definition breaching (threshold : Z) (offline : list OfflineCharger) (org : string) (station : option string) : bool :=
  existsb (fun c => bool_decide (oc_org c = Some org) && bool_decide (Some (oc_station c) = station)
                    && (threshold <=? oc_offline c)) offline.

Definition plan_charger (warn escalate : Z) (c : OfflineCharger) : list (string * alert_input) :=
  match oc_org c with
  | None => []
  | Some org =>
      (if escalate <=? oc_offline c
       then [(oc_station c, _build_upsert c org escalate CRITICAL ALERT_TYPE_24H)] else [])
      ++ (if warn <=? oc_offline c
          then [(oc_station c, _build_upsert c org warn WARNING ALERT_TYPE_3H)] else [])
  end.

Definition plan_sweep (warn escalate : Z) (offline : list OfflineCharger) (act : list alert) : SweepPlan :=
  {| upserts := concat (map (plan_charger warn escalate) offline);
     resolves := omap (fun a =>
       if (String.eqb (al_type a) ALERT_TYPE_3H && negb (breaching warn offline (al_org a) (_station_of a)))
          || (String.eqb (al_type a) ALERT_TYPE_24H && negb (breaching escalate offline (al_org a) (_station_of a)))
       then Some (al_org a, al_dedup a) else None) act;
     skipped_no_tenant := omap (fun c => match oc_org c with None => Some (oc_station c) | Some _ => None end) offline |}.

(** The resolves added for the stations that came back since the plan. *)
Definition late_resolves (reconnected : list string) (act : list alert) (planned : list (string * string))
  : list (string * string) :=
  fst (fold_left (fun acc a =>
         let '(out, seen) := acc in
         match _station_of a with
         | Some st =>
             if bool_decide (st ∈ reconnected) && bool_decide (al_type a ∈ OFFLINE_ALERT_TYPES)
                && negb (bool_decide (al_dedup a ∈ seen))
             then (out ++ [(al_org a, al_dedup a)], seen ++ [al_dedup a]) else acc
         | None => acc
         end) act (planned, map snd planned)).

(** One sweep: the chargers are read from [statuses], the re-check sees
    [statuses_now]; the writes happen at [now]. *)
Definition run_once (warn escalate now : Z) (statuses statuses_now : list status_row) (l : list alert)
  : list alert :=
  let offline := fetch_offline_chargers now (Z.min warn escalate) statuses in
  let act := list_active_by_types OFFLINE_ALERT_TYPES l in
  let plan := plan_sweep warn escalate offline act in
  let planned := map fst (upserts plan) in
  let still := _stations_still_offline now planned statuses_now in
  let reconnected := List.filter (fun st => negb (bool_decide (st ∈ still))) planned in
  let ups := List.filter (fun u => bool_decide (fst u ∈ still)) (upserts plan) in
  let res := late_resolves reconnected act (resolves plan) in
  fold_left (fun l r => resolve_alert now (fst r) (snd r) l) res
    (fold_left (fun l u => upsert_alert now (snd u) l) ups l).

(** ** The states the API shows ([fleet_list.py], [db/queries.py]) *)

Definition CHARGER_OFFLINE_AGE : Z := 360 * usec.
Definition VEHICLE_OFFLINE_AGE : Z := 30 * 60 * usec.
Definition DEFAULT_DEPARTURE_SOC : Q := 95 # 100.

Inductive ChargerStatus := Charging | Idle | Offline | Fault.

Definition _age (timestamp : option Z) (now : Z) : option Z := option_map (fun t => now - t) timestamp.

(** The freshest of the timestamps. *)
Definition _latest (l : list (option Z)) : option Z :=
  fold_left (fun best ts => match ts, best with
                            | None, _ => best
                            | Some t, None => Some t
                            | Some t, Some b => if b <? t then Some t else best
                            end) l None.

Definition derive_charger_status (ocpp_status : option string) (last_heartbeat_at : option Z)
    (has_open_session : bool) (now : Z) : ChargerStatus :=
  if bool_decide (ocpp_status = Some "Faulted"%string) then Fault
  else match _age last_heartbeat_at now with
       | None => Offline
       | Some age =>
           if (CHARGER_OFFLINE_AGE <? age) || bool_decide (ocpp_status = Some "Unavailable"%string) then Offline
           else if bool_decide (ocpp_status = Some "Charging"%string) || has_open_session then Charging
           else Idle
       end.

(** [latest_connector_status_by_stations]: per connector the row of the highest
    charger timestamp, then the most interesting status of them. *)
Definition status_rank (s : string) : Z :=
  if String.eqb s "Faulted" then 0 else if String.eqb s "Charging" then 1
  else if String.eqb s "SuspendedEV" then 2 else if String.eqb s "SuspendedEVSE" then 3
  else if String.eqb s "Preparing" then 4 else if String.eqb s "Finishing" then 5
  else if String.eqb s "Reserved" then 6 else if String.eqb s "Available" then 7
  else if String.eqb s "Unavailable" then 8 else 9.

Definition latest_per_connector (station : string) (l : list status_row) : list status_row :=
  omap (fun c => newest (fun a b => sr_timestamp a <=? sr_timestamp b)
                   (List.filter (fun r => String.eqb (sr_station r) station && (sr_connector r =? c)) l))
    (connectors_of station l).

(** The station's status and its last interaction. *)
Definition latest_connector_status (station : string) (l : list status_row) : option (string * Z) :=
  let rows := latest_per_connector station l in
  match sort_by (fun a b => status_rank (sr_status a) <=? status_rank (sr_status b)) rows,
        _latest (map (fun r => Some (sr_timestamp r)) rows) with
  | r :: _, Some t => Some (sr_status r, t)
  | _, _ => None
  end.

(** [format_charger_item]: the last interaction, capped, and the state shown. *)
Definition last_interaction (now : Z) (override db telemetry : option Z) : option Z :=
  match _latest [override; db; telemetry] with
  | Some t => Some (if now <? t then now else t)
  | None => None
  end.

Definition charger_item (now : Z) (connector_status : option (string * Z)) (open_session : bool)
    (override telemetry : option Z) : ChargerStatus * option Z :=
  let last := last_interaction now override (option_map snd connector_status) telemetry in
  (derive_charger_status (option_map fst connector_status) last open_session now, last).

Inductive VehicleState := ready | charging | at_risk | in_route | offline.

Definition derive_vehicle_state (last_seen_at : option Z) (has_open_session has_active_schedule : bool)
    (current_soc required_soc : option Q) (now : Z) : VehicleState :=
  match _age last_seen_at now with
  | None => offline
  | Some age =>
      if VEHICLE_OFFLINE_AGE <? age then offline
      else if has_open_session then charging
      else if has_active_schedule then in_route
      else match current_soc with
           | None => offline
           | Some soc => if (default DEFAULT_DEPARTURE_SOC required_soc <=?q soc)%Q then ready else at_risk
           end
  end.
