(* ===== verification/AlertsFacts.v ===== *)
(** * Facts about alerts

    One open alert per key, the life cycle of an alert, that a sweep of the offline
    monitor leaves exactly the alerts the connector table calls for, how often the
    dispatcher writes to a recipient, and what the drop and reconnect markers do. *)

From S2P Require Import Prelude Models PyText Alerts.
From Stdlib Require Import ZArith QArith Lia Ascii.
From stdpp Require Import base list strings gmap.

#[local] Open Scope Z_scope.

(** ** Operations on the table of alerts *)

Inductive alert_op :=
| AUpsert (now : Z) (x : alert_input)
| AStatus (now : Z) (r : status_row)                       (* a row of connector status *)
| AResolve (now : Z) (org dedup : string)
| AAck (now : Z) (i : nat) (user : string)
| AAckOrg (has_email : bool) (now : Z) (i : nat) (org user : string) (email : option string)
| AResolveId (has_email : bool) (now : Z) (i : nat) (org : string) (user email : option string)
| ANotified (now : Z) (i : nat)
| ASweep (warn escalate now : Z) (statuses statuses_now : list status_row).

Definition astep (o : alert_op) (l : list alert) : list alert :=
  match o with
  | AUpsert now x => upsert_alert now x l
  | AStatus now r => alerts_trigger now r l
  | AResolve now org dedup => resolve_alert now org dedup l
  | AAck now i user => snd (acknowledge now i user l)
  | AAckOrg has_email now i org user email => snd (acknowledge_for_org has_email now i org user email l)
  | AResolveId has_email now i org user email => snd (resolve_by_id has_email now i org user email l)
  | ANotified now i => match mark_notified now i l with Some (_, l') => l' | None => l end
  | ASweep warn escalate now statuses statuses_now => run_once warn escalate now statuses statuses_now l
  end.

Definition arun (ops : list alert_op) (l : list alert) : list alert := fold_left (fun l o => astep o l) ops l.

(** Position in the life cycle. *)
Definition phase (s : alert_status) : nat := match s with active => 0 | acknowledged => 1 | resolved => 2 end.

(** How a row may change. *)
Definition moves (a b : alert) : Prop :=
  (al_org b, al_dedup b, al_type b, al_depot b, al_first b) = (al_org a, al_dedup a, al_type a, al_depot a, al_first a)
  /\ (phase (al_status a) <= phase (al_status b))%nat
  /\ al_notified_count a <= al_notified_count b
  /\ (al_status a = resolved ->
      (al_status b, al_resolved_at b, al_severity b, al_title b, al_detail b, al_last b, al_count b, al_ack_by b, al_ack_at b)
      = (al_status a, al_resolved_at a, al_severity a, al_title a, al_detail a, al_last a, al_count a, al_ack_by a, al_ack_at a)).

#[export] Instance moves_refl : Reflexive moves.
Proof. intros a. split_and!; done || lia. Qed.

#[export] Instance moves_trans : Transitive moves.
Proof.
  intros a b c (E1 & P1 & N1 & R1) (E2 & P2 & N2 & R2). split_and!; [congruence | lia | lia|].
  intros Ha. specialize (R1 Ha). rewrite R2; [done|]. congruence.
Qed.

(** The table after an operation: the same rows moved, then new ones. *)
Definition grows (l l' : list alert) : Prop := exists m ext, l' = m ++ ext /\ Forall2 moves l m.

Lemma forall2_moves_refl l : Forall2 moves l l.
Proof. induction l; constructor; [reflexivity | done]. Qed.

Lemma forall2_moves_trans l m n : Forall2 moves l m -> Forall2 moves m n -> Forall2 moves l n.
Proof.
  intros H. revert n. induction H; intros n Hn; inversion Hn; subst; constructor; [by etrans | auto].
Qed.

Lemma grows_of_moves l m : Forall2 moves l m -> grows l m.
Proof. exists m, []. by rewrite app_nil_r. Qed.

#[export] Instance grows_refl : Reflexive grows.
Proof. intros l. apply grows_of_moves, forall2_moves_refl. Qed.

#[export] Instance grows_trans : Transitive grows.
Proof.
  intros a b c (m & e & -> & H1) (m2 & e2 & -> & H2).
  apply Forall2_app_inv_l in H2 as (x & y & Hx & _ & ->). exists x, (y ++ e2).
  rewrite app_assoc. split; [done|]. by eapply forall2_moves_trans.
Qed.

Lemma on_rows_moves p f l :
  (forall a, p a = true -> moves a (f a)) -> Forall2 moves l (on_rows p f l).
Proof.
  intros H. unfold on_rows. induction l as [|a l IH]; constructor; [|done].
  destruct (p a) eqn:E; [auto | reflexivity].
Qed.

Lemma insert_moves (l : list alert) i a b : l !! i = Some a -> moves a b -> Forall2 moves l (<[i := b]> l).
Proof.
  revert i. induction l as [|x l IH]; intros [|i] Hi Hm; try done.
  - cbn in *. simplify_eq. constructor; [done | apply forall2_moves_refl].
  - cbn in *. constructor; [reflexivity | by apply IH].
Qed.

Lemma on_row_moves i p f l :
  (forall a, p a = true -> moves a (f a)) -> Forall2 moves l (snd (on_row i p f l)).
Proof.
  intros H. unfold on_row. destruct (l !! i) as [a|] eqn:E; [|apply forall2_moves_refl].
  destruct (p a) eqn:Ep; [|apply forall2_moves_refl]. cbn. eapply insert_moves; eauto.
Qed.

Lemma unresolved_spec a : unresolved a = true <-> al_status a <> resolved.
Proof. unfold unresolved. rewrite negb_true_iff, bool_decide_eq_false. done. Qed.

Lemma same_key_spec org dk a :
  same_key org dk a = true <-> al_org a = org /\ al_dedup a = dk /\ al_status a <> resolved.
Proof. unfold same_key. rewrite !andb_true_iff, !String.eqb_eq, unresolved_spec. tauto. Qed.

Lemma resolve_row_moves now a : unresolved a = true -> moves a (resolve_row now a).
Proof.
  intros H%unresolved_spec. split_and!; cbn; [done | by destruct (al_status a); cbn; lia | lia | done].
Qed.

Lemma refreshed_moves now x a : unresolved a = true -> moves a (refreshed now x a).
Proof. intros H%unresolved_spec. split_and!; cbn; [done | lia | lia | done]. Qed.

Lemma same_key_unresolved org dk a : same_key org dk a = true -> unresolved a = true.
Proof. intros (_ & _ & H)%same_key_spec. by apply unresolved_spec. Qed.

Lemma upsert_grows now x l : grows l (upsert now x l).
Proof.
  unfold upsert. destruct (existsb _ _).
  - apply grows_of_moves, on_rows_moves. eauto using refreshed_moves, same_key_unresolved.
  - eexists l, _. split; [reflexivity | apply forall2_moves_refl].
Qed.

Lemma resolve_moves now org dk l : Forall2 moves l (resolve_alert now org dk l).
Proof. apply on_rows_moves. eauto using resolve_row_moves, same_key_unresolved. Qed.

Lemma trigger_grows now r l : grows l (alerts_trigger now r l).
Proof.
  unfold alerts_trigger. destruct (negb _).
  - apply grows_of_moves, on_rows_moves. intros a [_ H]%andb_true_iff. by apply resolve_row_moves.
  - destruct (sr_org r); [apply upsert_grows | reflexivity].
Qed.

Lemma fold_grows {A} (f : list alert -> A -> list alert) xs l :
  (forall l x, grows l (f l x)) -> grows l (fold_left f xs l).
Proof.
  intros H. revert l. induction xs as [|x xs IH]; intros l; [reflexivity|]. cbn.
  etrans; [apply H | apply IH].
Qed.

Lemma sweep_grows warn escalate now st st' l : grows l (run_once warn escalate now st st' l).
Proof.
  unfold run_once. etrans; [|apply fold_grows; intros; apply grows_of_moves, resolve_moves].
  apply fold_grows. intros. apply upsert_grows.
Qed.

(** The operations that touch existing rows only. *)
Definition row_op (o : alert_op) : bool :=
  match o with AUpsert _ _ | AStatus _ _ | ASweep _ _ _ _ _ => false | _ => true end.

Lemma row_op_moves o l : row_op o = true -> Forall2 moves l (astep o l).
Proof.
  destruct o; cbn [astep row_op]; try done; intros _.
  - apply resolve_moves.
  - apply on_row_moves. intros a Ha%bool_decide_eq_true.
    split_and!; cbn; [done | rewrite Ha; cbn; lia | lia | congruence].
  - apply on_row_moves. intros a [_ Ha%bool_decide_eq_true]%andb_true_iff.
    split_and!; cbn; [done | rewrite Ha; cbn; lia | lia | congruence].
  - apply on_row_moves. intros a [_ Ha%unresolved_spec]%andb_true_iff.
    split_and!; cbn; [done | by destruct (al_status a); cbn; lia | lia | done].
  - unfold mark_notified. destruct (l !! i) as [a|] eqn:E; [|apply forall2_moves_refl].
    eapply insert_moves; [done|]. split_and!; cbn; [done | lia | lia | done].
Qed.

Lemma astep_grows o l : grows l (astep o l).
Proof.
  destruct (row_op o) eqn:E; [by apply grows_of_moves, row_op_moves|].
  destruct o; try done; [apply upsert_grows | apply trigger_grows | apply sweep_grows].
Qed.

Lemma arun_grows ops l : grows l (arun ops l).
Proof. apply fold_grows. intros. apply astep_grows. Qed.

Theorem alert_life_cycle ops l i a :
  l !! i = Some a ->
  exists b, arun ops l !! i = Some b
    /\ (al_org b, al_dedup b, al_type b, al_first b) = (al_org a, al_dedup a, al_type a, al_first a)
    /\ (phase (al_status a) <= phase (al_status b))%nat
    /\ (al_status a = resolved -> al_status b = resolved /\ al_resolved_at b = al_resolved_at a).
Proof.
  intros Hi. destruct (arun_grows ops l) as (m & ext & -> & Hm).
  destruct (Forall2_lookup_l _ _ _ _ _ Hm Hi) as (b & Hb & E & P & _ & R).
  exists b. rewrite (lookup_app_l_Some _ _ _ _ Hb). split_and!; [done | congruence | done|].
  intros Ha. specialize (R Ha). split; congruence.
Qed.

(** ** One open alert per organisation and key *)

Definition key_of (a : alert) : string * string := (al_org a, al_dedup a).

Definition open_keys (l : list alert) : list (string * string) := map key_of (List.filter unresolved l).

Definition one_per_key (l : list alert) : Prop := NoDup (open_keys l).

Lemma open_keys_cons a l : open_keys (a :: l) = if unresolved a then key_of a :: open_keys l else open_keys l.
Proof. unfold open_keys. cbn. by destruct (unresolved a). Qed.

(** A row that keeps its key and is not reopened. *)
Definition shrinks (a b : alert) : Prop := key_of b = key_of a /\ (unresolved b = true -> unresolved a = true).

Lemma moves_shrinks a b : moves a b -> shrinks a b.
Proof.
  intros (E & P & _ & R). split; [unfold key_of; congruence|]. rewrite !unresolved_spec. intros Hb Ha.
  specialize (R Ha). apply Hb. congruence.
Qed.

Lemma moves_open_keys l m : Forall2 moves l m -> open_keys m `sublist_of` open_keys l.
Proof.
  induction 1 as [|a b l m Hab _ IH]; [done|]. rewrite !open_keys_cons.
  destruct (moves_shrinks _ _ Hab) as [-> Hu].
  destruct (unresolved b), (unresolved a); try (by constructor); [|done]. by specialize (Hu eq_refl).
Qed.

Lemma upsert_one_per_key now x l : one_per_key l -> one_per_key (upsert now x l).
Proof.
  intros H. unfold upsert. destruct (existsb _ l) eqn:E.
  - eapply sublist_NoDup; [exact H|]. apply moves_open_keys, on_rows_moves.
    eauto using refreshed_moves, same_key_unresolved.
  - unfold one_per_key, open_keys. rewrite List.filter_app, map_app. apply nodup_snoc; [exact H|].
    intros (a & Ek & Ha)%list_elem_of_fmap. apply elem_of_lfilter in Ha as [Ha Hu].
    apply not_true_iff_false in E. apply E, existsb_exists. exists a. split; [by apply list_elem_of_In|].
    apply same_key_spec. injection Ek as -> ->. split_and!; [done..|]. by apply unresolved_spec.
Qed.

Lemma moves_one_per_key l m : Forall2 moves l m -> one_per_key l -> one_per_key m.
Proof. intros Hm Hl. eapply sublist_NoDup; [exact Hl | by apply moves_open_keys]. Qed.

Lemma fold_one_per_key {A} (f : list alert -> A -> list alert) xs l :
  (forall l x, one_per_key l -> one_per_key (f l x)) -> one_per_key l -> one_per_key (fold_left f xs l).
Proof. intros H. revert l. induction xs as [|x xs IH]; intros l Hl; [done|]. cbn. auto. Qed.

Lemma sweep_one_per_key warn escalate now st st' l :
  one_per_key l -> one_per_key (run_once warn escalate now st st' l).
Proof.
  intros H. unfold run_once. apply fold_one_per_key.
  { intros. eapply moves_one_per_key; [apply resolve_moves | done]. }
  apply fold_one_per_key; [intros; by apply upsert_one_per_key | done].
Qed.

Lemma astep_one_per_key o l : one_per_key l -> one_per_key (astep o l).
Proof.
  intros H. destruct (row_op o) eqn:E; [eapply moves_one_per_key; [by apply row_op_moves | done]|].
  destruct o; try done; [by apply upsert_one_per_key | | by apply sweep_one_per_key].
  cbn [astep]. unfold alerts_trigger. destruct (negb _).
  - eapply moves_one_per_key; [|done]. apply on_rows_moves. intros a [_ Hu]%andb_true_iff.
    by apply resolve_row_moves.
  - destruct (sr_org r); [by apply upsert_one_per_key | done].
Qed.

(** C22: Over all histories of status reports, sweeps, acknowledgements, resolutions and
    notifications, an organisation has at most one unresolved alert per dedup key. *)
Theorem one_open_alert_per_key ops l i j a b :
  one_per_key l -> arun ops l !! i = Some a -> arun ops l !! j = Some b ->
  al_status a <> resolved -> al_status b <> resolved ->
  al_org a = al_org b -> al_dedup a = al_dedup b -> i = j.
Proof.
  intros Hl Ha Hb Ua Ub Eo Ed.
  assert (one_per_key (arun ops l)) as H by (apply fold_one_per_key; [intros; by apply astep_one_per_key | done]).
  revert H i j Ha Hb. generalize (arun ops l) as m. clear l Hl ops.
  induction m as [|x m IH]; intros Hn [|i] [|j] Ha Hb; try done; cbn in Ha, Hb.
  - exfalso. simplify_eq. unfold one_per_key in Hn. rewrite open_keys_cons in Hn.
    rewrite (proj2 (unresolved_spec a) Ua) in Hn. apply NoDup_cons in Hn as [Hn _]. apply Hn.
    apply list_elem_of_fmap. exists b. split; [unfold key_of; congruence|].
    apply elem_of_lfilter. split; [by eapply list_elem_of_lookup_2 | by apply unresolved_spec].
  - exfalso. simplify_eq. unfold one_per_key in Hn. rewrite open_keys_cons in Hn.
    rewrite (proj2 (unresolved_spec b) Ub) in Hn. apply NoDup_cons in Hn as [Hn _]. apply Hn.
    apply list_elem_of_fmap. exists a. split; [unfold key_of; congruence|].
    apply elem_of_lfilter. split; [by eapply list_elem_of_lookup_2 | by apply unresolved_spec].
  - f_equal. apply IH; [|done|done]. unfold one_per_key in *. rewrite open_keys_cons in Hn.
    destruct (unresolved x); [by apply NoDup_cons in Hn as [_ Hn] | done].
Qed.

(** ** A sweep is exact *)

Definition raised (org dedup : string) (l : list alert) : Prop := existsb (same_key org dedup) l = true.

Lemma raised_spec org dk l :
  raised org dk l <-> exists a, a ∈ l /\ al_org a = org /\ al_dedup a = dk /\ al_status a <> resolved.
Proof.
  unfold raised. rewrite existsb_exists. split; intros (a & Ha & H); exists a.
  - apply list_elem_of_In in Ha. by apply same_key_spec in H.
  - split; [by apply list_elem_of_In | by apply same_key_spec].
Qed.

Lemma elem_of_on_rows p f l b : b ∈ on_rows p f l <-> exists a, a ∈ l /\ b = (if p a then f a else a).
Proof. unfold on_rows. rewrite list_elem_of_fmap. split; intros (a & H1 & H2); by exists a. Qed.

Lemma raised_upsert now x l org dk :
  raised org dk (upsert now x l) <-> (org = in_org x /\ dk = in_dedup x) \/ raised org dk l.
Proof.
  unfold upsert. destruct (existsb (same_key (in_org x) (in_dedup x)) l) eqn:E.
  - assert (raised org dk (on_rows (same_key (in_org x) (in_dedup x)) (refreshed now x) l) <-> raised org dk l) as ->.
    { rewrite !raised_spec. split.
      - intros (b & (a & Ha & ->)%elem_of_on_rows & H). exists a. split; [done|]. by destruct (same_key _ _ a).
      - intros (a & Ha & H). exists (if same_key (in_org x) (in_dedup x) a then refreshed now x a else a).
        split; [apply elem_of_on_rows; eauto|]. by destruct (same_key _ _ a). }
    split; [by right|]. intros [[-> ->]|H]; [exact E | exact H].
  - rewrite !raised_spec. split.
    + intros (a & [Ha|Ha]%elem_of_app & H); [right; by exists a|]. apply list_elem_of_singleton in Ha as ->.
      destruct H as (<- & <- & _). by left.
    + intros [[-> ->]|(a & Ha & H)].
      * exists (new_alert now x). split; [apply elem_of_app; right; by apply list_elem_of_singleton | done].
      * exists a. split; [apply elem_of_app; by left | done].
Qed.

Lemma raised_resolve now o d l org dk :
  raised org dk (resolve_alert now o d l) <-> (org, dk) <> (o, d) /\ raised org dk l.
Proof.
  rewrite !raised_spec. unfold resolve_alert. split.
  - intros (b & (a & Ha & ->)%elem_of_on_rows & H1 & H2 & H3).
    destruct (same_key o d a) eqn:E; [by cbn in H3|]. split; [|by exists a].
    intros [= -> ->]. apply not_true_iff_false in E. apply E, same_key_spec. done.
  - intros [Hne (a & Ha & H1 & H2 & H3)]. exists a. split; [|done]. apply elem_of_on_rows. exists a.
    split; [done|]. destruct (same_key o d a) eqn:E; [|done].
    apply same_key_spec in E as (E1 & E2 & _). congruence.
Qed.

Lemma raised_upserts now us l org dk :
  raised org dk (fold_left (fun l (u : string * alert_input) => upsert_alert now (snd u) l) us l)
  <-> (exists u, u ∈ us /\ org = in_org (snd u) /\ dk = in_dedup (snd u)) \/ raised org dk l.
Proof.
  revert l. induction us as [|u us IH]; intros l; cbn [fold_left].
  - split; [by right|]. intros [(u & H & _)|H]; [by apply not_elem_of_nil in H | done].
  - rewrite IH. unfold upsert_alert at 1. rewrite raised_upsert. split.
    + intros [(v & Hv & H)|[H|H]]; [left; exists v; split; [by right | done] | left; exists u; split; [left | done] | by right].
    + intros [(v & [->|Hv]%elem_of_cons & H)|H]; [by right; left | left; by exists v | by right; right].
Qed.

Lemma raised_resolves now rs l org dk :
  raised org dk (fold_left (fun l (r : string * string) => resolve_alert now (fst r) (snd r) l) rs l)
  <-> (org, dk) ∉ rs /\ raised org dk l.
Proof.
  revert l. induction rs as [|[o d] rs IH]; intros l; cbn [fold_left fst snd].
  - split; [|by intros [_ H]]. intros H. split; [apply not_elem_of_nil | done].
  - rewrite IH, raised_resolve, not_elem_of_cons. tauto.
Qed.

(** The alerts the monitor owns: their key is the type and the station. *)
Definition owned (a : alert) : Prop :=
  al_status a <> resolved ->
  (al_type a ∈ OFFLINE_ALERT_TYPES -> exists st, al_dedup a = al_type a +:+ ":" +:+ st /\ _station_of a = Some st)
  /\ (forall type st, type ∈ OFFLINE_ALERT_TYPES -> al_dedup a = type +:+ ":" +:+ st -> al_type a = type).

(** The charger's last status says that its connection was lost, for at least the
    threshold, and its tenant is the organisation. *)
Definition lost_for (now threshold : Z) (statuses : list status_row) (org st : string) : Prop :=
  exists r, latest_at now st statuses = Some r /\ is_lost r = true /\ sr_timestamp r <= now - threshold
    /\ or_else (sr_org r) (match tenant_at now st statuses with Some x => sr_org x | None => None end) = Some org.

Lemma offline_key_inj t1 t2 s1 s2 :
  t1 ∈ OFFLINE_ALERT_TYPES -> t2 ∈ OFFLINE_ALERT_TYPES ->
  t1 +:+ ":" +:+ s1 = t2 +:+ ":" +:+ s2 -> t1 = t2 /\ s1 = s2.
Proof.
  unfold OFFLINE_ALERT_TYPES. rewrite !elem_of_cons, !elem_of_nil.
  intros [->|[->|[]]] [->|[->|[]]] H; cbn in H; injection H; auto; discriminate.
Qed.

Lemma newest_elem better l r : newest better l = Some r -> r ∈ l.
Proof.
  unfold newest.
  assert (forall l best r, fold_left (fun best r => match best with None => Some r
            | Some b => if better b r then Some r else best end) l best = Some r -> best = Some r \/ r ∈ l) as H.
  { clear. induction l as [|x l IH]; intros best r; cbn; [by left|]. intros [H|H]%IH; [|right; by right].
    destruct best as [b|]; [destruct (better b x)|]; simplify_eq; [right; left | by left | right; left]. }
  intros Hn. destruct (H _ _ _ Hn); [done|done].
Qed.

Lemma latest_at_in now st l r : latest_at now st l = Some r -> r ∈ l /\ sr_station r = st.
Proof.
  intros H%newest_elem. apply elem_of_lfilter in H as [H E]. by apply String.eqb_eq in E.
Qed.

Lemma elem_of_offline now floor l c :
  c ∈ fetch_offline_chargers now floor l <->
  exists r, latest_at now (oc_station c) l = Some r /\ is_lost r = true /\ sr_timestamp r <= now - floor
    /\ oc_since c = sr_timestamp r /\ oc_offline c = now - sr_timestamp r
    /\ oc_org c = or_else (sr_org r) (match tenant_at now (oc_station c) l with Some x => sr_org x | None => None end)
    /\ oc_depot c = or_else (sr_depot r) (match tenant_at now (oc_station c) l with Some x => sr_depot x | None => None end).
Proof.
  unfold fetch_offline_chargers. rewrite list_elem_of_omap. split.
  - intros (st & _ & H). destruct (latest_at now st l) as [r|] eqn:E; [|done].
    destruct (is_lost r && (sr_timestamp r <=? now - floor)) eqn:Eb; [|done].
    apply andb_true_iff in Eb as [Hl Ht%Z.leb_le]. injection H as <-. cbn. exists r. by split_and!.
  - intros (r & E & Hl & Ht & H1 & H2 & H3 & H4). exists (oc_station c). split.
    + apply elem_of_remove_dups, list_elem_of_fmap. destruct (latest_at_in _ _ _ _ E) as [Hin Es]. by exists r.
    + rewrite E, Hl. apply Z.leb_le in Ht as ->. cbn. destruct c; cbn in *. by rewrite H1, H2, H3, H4.
Qed.

Lemma breaching_spec now floor threshold l org st :
  floor <= threshold ->
  breaching threshold (fetch_offline_chargers now floor l) org (Some st) = true <-> lost_for now threshold l org st.
Proof.
  intros Hf. unfold breaching, lost_for. rewrite existsb_exists. split.
  - intros (c & Hc & [[Ho Hs]%andb_true_iff Ht%Z.leb_le]%andb_true_iff).
    apply bool_decide_eq_true in Ho, Hs. injection Hs as <-.
    apply list_elem_of_In, elem_of_offline in Hc as (r & E & Hl & _ & _ & Ha & Hg & _).
    exists r. split_and!; [done | done | lia | congruence].
  - intros (r & E & Hl & Ht & Ho).
    exists {| oc_station := st; oc_since := sr_timestamp r; oc_offline := now - sr_timestamp r; oc_org := Some org;
              oc_depot := or_else (sr_depot r) (match tenant_at now st l with Some x => sr_depot x | None => None end) |}.
    split.
    + apply list_elem_of_In, elem_of_offline. exists r. cbn. split_and!; try done. lia.
    + cbn. rewrite !bool_decide_true by done. apply Z.leb_le. lia.
Qed.

Lemma late_resolves_none act planned : late_resolves [] act planned = planned.
Proof.
  unfold late_resolves. generalize (map snd planned) as seen. induction act as [|a act IH]; intros seen; [done|].
  cbn [fold_left]. destruct (_station_of a) as [st|]; apply IH.
Qed.

Lemma elem_of_planned warn escalate offline u :
  u ∈ upserts (plan_sweep warn escalate offline []) <->
  exists c org, c ∈ offline /\ oc_org c = Some org /\
    ((escalate <= oc_offline c /\ u = (oc_station c, _build_upsert c org escalate CRITICAL ALERT_TYPE_24H))
     \/ (warn <= oc_offline c /\ u = (oc_station c, _build_upsert c org warn WARNING ALERT_TYPE_3H))).
Proof.
  cbn [upserts plan_sweep]. rewrite list_elem_of_In, in_concat. split.
  - intros (us & Hus & Hu). apply in_map_iff in Hus as (c & <- & Hc). exists c. unfold plan_charger in Hu.
    destruct (oc_org c) as [org|]; [|done]. exists org. split; [by apply list_elem_of_In|]. split; [done|].
    apply in_app_iff in Hu as [Hu|Hu].
    + destruct (Z.leb_spec escalate (oc_offline c)); [|done]. destruct Hu as [<-|[]]. by left.
    + destruct (Z.leb_spec warn (oc_offline c)); [|done]. destruct Hu as [<-|[]]. by right.
  - intros (c & org & Hc & Ho & H). exists (plan_charger warn escalate c). split.
    { apply in_map_iff. exists c. split; [done | by apply list_elem_of_In]. }
    unfold plan_charger. rewrite Ho. apply in_app_iff.
    destruct H as [[H ->]|[H ->]]; apply Z.leb_le in H; rewrite H; [left | right]; by left.
Qed.

(** What a plan raises, in terms of the table. *)
Lemma planned_keys warn escalate now statuses org type st threshold :
  (type = ALERT_TYPE_3H /\ threshold = warn \/ type = ALERT_TYPE_24H /\ threshold = escalate) ->
  (exists u, u ∈ upserts (plan_sweep warn escalate (fetch_offline_chargers now (Z.min warn escalate) statuses) [])
     /\ org = in_org (snd u) /\ type +:+ ":" +:+ st = in_dedup (snd u))
  <-> lost_for now threshold statuses org st.
Proof.
  intros Ht. assert (type ∈ OFFLINE_ALERT_TYPES) as Hty
    by (destruct Ht as [[-> _]|[-> _]]; unfold OFFLINE_ALERT_TYPES; set_solver).
  rewrite <- (breaching_spec now (Z.min warn escalate)) by (destruct Ht as [[_ ->]|[_ ->]]; lia).
  unfold breaching. rewrite existsb_exists. split.
  - intros (u & (c & o & Hc & Ho & Hu)%elem_of_planned & -> & Ed). exists c. split; [by apply list_elem_of_In|].
    assert (exists thr, thr <= oc_offline c /\ in_org (snd u) = o /\ in_dedup (snd u) = type +:+ ":" +:+ oc_station c
              /\ thr = threshold /\ st = oc_station c) as (thr & H1 & H2 & _ & -> & ->).
    { destruct Hu as [[Hle ->]|[Hle ->]]; cbn in Ed; apply offline_key_inj in Ed as [Et ->]; try done;
        try (unfold OFFLINE_ALERT_TYPES; set_solver); eexists; (split; [exact Hle|]); cbn; rewrite ?Et;
        destruct Ht as [[Ht1 ->]|[Ht1 ->]]; rewrite Ht1 in Et; try discriminate Et; by subst. }
    rewrite H2, Ho, !bool_decide_true by done. by apply Z.leb_le.
  - intros (c & Hc & [[Ho Hs]%andb_true_iff Hle%Z.leb_le]%andb_true_iff).
    apply bool_decide_eq_true in Ho, Hs. injection Hs as <-. apply list_elem_of_In in Hc.
    destruct Ht as [[-> ->]|[-> ->]]; eexists; rewrite elem_of_planned; split_and!;
      try (exists c, org; split; [exact Hc|]; split; [exact Ho|]);
      [by right | done | done | by left | done | done].
Qed.

Lemma plan_upserts_active warn escalate offline act :
  upserts (plan_sweep warn escalate offline act) = upserts (plan_sweep warn escalate offline []).
Proof. done. Qed.

(** Every station of a plan is lost in the table it was made from. *)
Lemma planned_lost warn escalate now floor statuses act st :
  st ∈ map fst (upserts (plan_sweep warn escalate (fetch_offline_chargers now floor statuses) act)) ->
  match latest_at now st statuses with Some r => is_lost r | None => false end = true.
Proof.
  rewrite plan_upserts_active.
  intros (u & -> & (c & o & (r & E & Hl & _)%elem_of_offline & _ & Hu)%elem_of_planned)%list_elem_of_fmap.
  destruct Hu as [[_ ->]|[_ ->]]; cbn; by rewrite E.
Qed.

Lemma filter_all {A} (f : A -> bool) l : (forall x, x ∈ l -> f x = true) -> List.filter f l = l.
Proof.
  induction l as [|x l IH]; intros H; [done|]. cbn. rewrite (H x) by left. f_equal. apply IH. intros. apply H. by right.
Qed.

Lemma sweep_same warn escalate now statuses l :
  run_once warn escalate now statuses statuses l =
  let act := list_active_by_types OFFLINE_ALERT_TYPES l in
  let plan := plan_sweep warn escalate (fetch_offline_chargers now (Z.min warn escalate) statuses) act in
  fold_left (fun l r => resolve_alert now (fst r) (snd r) l) (resolves plan)
    (fold_left (fun l u => upsert_alert now (snd u) l) (upserts plan) l).
Proof.
  unfold run_once. cbv zeta.
  set (plan := plan_sweep _ _ _ _).
  assert (_stations_still_offline now (map fst (upserts plan)) statuses = map fst (upserts plan)) as ->
    by (apply filter_all; apply planned_lost).
  rewrite (filter_none (fun st => negb _)).
  2: { intros st Hst. by rewrite bool_decide_true. }
  rewrite late_resolves_none. rewrite filter_all; [done|].
  intros u Hu. apply bool_decide_eq_true, list_elem_of_fmap. by exists u.
Qed.

Lemma elem_of_active a l : a ∈ list_active_by_types OFFLINE_ALERT_TYPES l <->
  a ∈ l /\ al_status a <> resolved /\ al_type a ∈ OFFLINE_ALERT_TYPES.
Proof.
  unfold list_active_by_types. rewrite elem_of_sort_by, elem_of_lfilter, andb_true_iff, unresolved_spec,
    bool_decide_eq_true. tauto.
Qed.

Lemma elem_of_resolves warn escalate offline act r :
  r ∈ resolves (plan_sweep warn escalate offline act) <->
  exists a, a ∈ act /\ r = (al_org a, al_dedup a) /\
    ((al_type a = ALERT_TYPE_3H /\ breaching warn offline (al_org a) (_station_of a) = false)
     \/ (al_type a = ALERT_TYPE_24H /\ breaching escalate offline (al_org a) (_station_of a) = false)).
Proof.
  cbn. rewrite list_elem_of_omap. split.
  - intros (a & Ha & H). exists a. split; [done|]. destruct (_ || _) eqn:E; [|done]. injection H as <-. split; [done|].
    apply orb_true_iff in E. by rewrite !andb_true_iff, !negb_true_iff, !String.eqb_eq in E.
  - intros (a & Ha & -> & H). exists a. split; [done|].
    rewrite <- !String.eqb_eq, <- !negb_true_iff, <- !andb_true_iff, <- orb_true_iff in H. by rewrite H.
Qed.

Lemma not_breaching_iff b (P : Prop) : (b = true <-> P) -> b = false <-> ~ P.
Proof. intros H. destruct b; split; intros; [done | exfalso; tauto | intros HP; apply H in HP; done | done]. Qed.

(** One tier of the sweep. *)
Lemma sweep_tier warn escalate now statuses l org type st threshold :
  (type = ALERT_TYPE_3H /\ threshold = warn \/ type = ALERT_TYPE_24H /\ threshold = escalate) ->
  Forall owned l ->
  raised org (type +:+ ":" +:+ st) (run_once warn escalate now statuses statuses l)
  <-> lost_for now threshold statuses org st.
Proof.
  intros Ht Hown. rewrite sweep_same. cbv zeta. rewrite raised_resolves, raised_upserts.
  rewrite plan_upserts_active, (planned_keys warn escalate now statuses org type st threshold Ht).
  assert (type ∈ OFFLINE_ALERT_TYPES) as Hty
    by (destruct Ht as [[-> _]|[-> _]]; unfold OFFLINE_ALERT_TYPES; set_solver).
  set (offline := fetch_offline_chargers now (Z.min warn escalate) statuses).
  assert (breaching threshold offline org (Some st) = false <-> ~ lost_for now threshold statuses org st) as Hb
    by (apply not_breaching_iff, breaching_spec; destruct Ht as [[_ ->]|[_ ->]]; lia).
  (* the tier's alert is resolved iff its charger is not lost *)
  assert ((org, type +:+ ":" +:+ st) ∈ resolves (plan_sweep warn escalate offline (list_active_by_types OFFLINE_ALERT_TYPES l))
          <-> raised org (type +:+ ":" +:+ st) l /\ ~ lost_for now threshold statuses org st) as Hres.
  { rewrite elem_of_resolves, raised_spec, <- Hb. split.
    - intros (a & (Ha & Hu & Hta)%elem_of_active & [= -> Ed] & H).
      destruct (proj1 (Forall_forall _ _) Hown a Ha Hu) as [Hk _]. destruct (Hk Hta) as (st' & Ed' & Est).
      rewrite Ed' in Ed. apply offline_key_inj in Ed as [Et ->]; [|done|done]. split.
      { exists a. rewrite Ed', Et. done. }
      rewrite Est in H. destruct Ht as [[Ht1 ->]|[Ht1 ->]]; destruct H as [[H1 H]|[H1 H]]; try done;
        rewrite <- Et, Ht1 in H1; discriminate H1.
    - intros [(a & Ha & <- & Ed & Hu) Hnb].
      destruct (proj1 (Forall_forall _ _) Hown a Ha Hu) as [Hk Ht2]. pose proof (Ht2 type st Hty Ed) as Eta.
      destruct Hk as (st' & Ed' & Est); [by rewrite Eta|]. rewrite Ed, Eta in Ed'.
      apply offline_key_inj in Ed' as [_ <-]; [|done|done]. exists a.
      split; [apply elem_of_active; by rewrite Eta|]. split; [by rewrite Ed|]. rewrite Est.
      destruct Ht as [[-> ->]|[-> ->]]; [by left | by right]. }
  rewrite Hres. clear Hres Hb. split.
  - intros [Hn [H|H]]; [done|].
    destruct (breaching threshold offline org (Some st)) eqn:Eb.
    + apply breaching_spec in Eb; [done|]. destruct Ht as [[_ ->]|[_ ->]]; lia.
    + exfalso. apply Hn. split; [done|]. intros Hl. apply breaching_spec with (floor := Z.min warn escalate) in Hl;
        [unfold offline in Eb; congruence|]. destruct Ht as [[_ ->]|[_ ->]]; lia.
  - intros H. split; [tauto | by left].
Qed.

(** C21: After an undisturbed sweep an organisation has an open warning (or critical)
    offline alert for a station exactly when the station's newest status says its
    connection was lost at least the warning (or escalation) threshold ago and the
    organisation is its tenant. *)
Theorem sweep_leaves_exactly_the_lost warn escalate now statuses l org st :
  Forall owned l ->
  (raised org (ALERT_TYPE_3H +:+ ":" +:+ st) (run_once warn escalate now statuses statuses l)
   <-> lost_for now warn statuses org st)
  /\ (raised org (ALERT_TYPE_24H +:+ ":" +:+ st) (run_once warn escalate now statuses statuses l)
      <-> lost_for now escalate statuses org st).
Proof. intros H. split; apply sweep_tier; auto. Qed.

(** Whatever the re-check sees, an alert is raised only for a charger that is still
    lost. *)
Lemma sweep_raises_lost warn escalate now statuses statuses_now l org dk :
  raised org dk (run_once warn escalate now statuses statuses_now l) -> ~ raised org dk l ->
  exists st, match latest_at now st statuses_now with Some r => is_lost r | None => false end = true
    /\ (dk = ALERT_TYPE_3H +:+ ":" +:+ st \/ dk = ALERT_TYPE_24H +:+ ":" +:+ st).
Proof.
  unfold run_once. cbv zeta. rewrite raised_resolves, raised_upserts.
  intros [_ [(u & Hu & -> & ->)|H]] Hn; [|done]. apply elem_of_lfilter in Hu as [Hu Hst].
  apply bool_decide_eq_true in Hst. unfold _stations_still_offline in Hst. apply elem_of_lfilter in Hst as [_ Hst].
  exists (fst u). split; [exact Hst|]. rewrite plan_upserts_active in Hu.
  apply elem_of_planned in Hu as (c & o & _ & _ & [[_ ->]|[_ ->]]); cbn; auto.
Qed.

(** ** The dispatcher's deliveries *)

(** A row whose notification columns are kept. *)
Definition quiet (a b : alert) : Prop :=
  al_notified_at b = al_notified_at a /\ al_notified_count b = al_notified_count a.

Definition quietly (l l' : list alert) : Prop :=
  exists m ext, l' = m ++ ext /\ Forall2 quiet l m /\ Forall (fun a => al_notified_at a = None) ext.

Lemma quiet_refl l : Forall2 quiet l l.
Proof. induction l; constructor; done. Qed.

Lemma quiet_none l m : Forall2 quiet l m -> Forall (fun a => al_notified_at a = None) l ->
  Forall (fun a => al_notified_at a = None) m.
Proof. induction 1 as [|a b l m [E _] _ IH]; intros H; [done|]. apply Forall_cons in H as [Ha H]. constructor; [congruence | auto]. Qed.

Lemma forall2_quiet_trans l m n : Forall2 quiet l m -> Forall2 quiet m n -> Forall2 quiet l n.
Proof.
  intros H. revert n. induction H as [|a b l m [E1 E2] _ IH]; intros n Hn; inversion Hn as [|? c ? n' [F1 F2] Hn']; subst;
    constructor; [split; congruence | auto].
Qed.

#[export] Instance quietly_refl : Reflexive quietly.
Proof. intros l. exists l, []. rewrite app_nil_r. split_and!; [done | apply quiet_refl | constructor]. Qed.

#[export] Instance quietly_trans : Transitive quietly.
Proof.
  intros a b c (m & e & -> & H1 & N1) (m2 & e2 & -> & H2 & N2).
  apply Forall2_app_inv_l in H2 as (x & y & Hx & Hy & ->). exists x, (y ++ e2). rewrite app_assoc.
  split_and!; [done | by eapply forall2_quiet_trans | apply Forall_app; split; [by eapply quiet_none | done]].
Qed.

Lemma on_rows_quietly p f l : (forall a, quiet a (f a)) -> quietly l (on_rows p f l).
Proof.
  intros H. exists (on_rows p f l), []. rewrite app_nil_r. split_and!; [done | | constructor].
  unfold on_rows. induction l as [|a l IH]; constructor; [|done]. by destruct (p a).
Qed.

Lemma on_row_quietly i p f l : (forall a, quiet a (f a)) -> quietly l (snd (on_row i p f l)).
Proof.
  intros H. unfold on_row. destruct (l !! i) as [a|] eqn:E; [|reflexivity]. destruct (p a); [|reflexivity]. cbn.
  exists (<[i := f a]> l), []. rewrite app_nil_r. split_and!; [done | | constructor].
  revert i E. induction l as [|x l IH]; intros [|i] E; try done; cbn in *; simplify_eq; constructor; auto using quiet_refl.
  done.
Qed.

Lemma upsert_quietly now x l : quietly l (upsert now x l).
Proof.
  unfold upsert. destruct (existsb _ _); [by apply on_rows_quietly|].
  eexists l, _. split_and!; [reflexivity | apply quiet_refl | by repeat constructor].
Qed.

Lemma fold_quietly {A} (f : list alert -> A -> list alert) xs l :
  (forall l x, quietly l (f l x)) -> quietly l (fold_left f xs l).
Proof.
  intros H. revert l. induction xs as [|x xs IH]; intros l; [reflexivity|]. cbn. etrans; [apply H | apply IH].
Qed.

Lemma astep_quietly o l : match o with ANotified _ _ => False | _ => True end -> quietly l (astep o l).
Proof.
  destruct o; cbn [astep]; intros H; try done; try (by apply upsert_quietly); try (by apply on_row_quietly).
  - unfold alerts_trigger. destruct (negb _); [by apply on_rows_quietly|].
    destruct (sr_org r); [apply upsert_quietly | reflexivity].
  - by apply on_rows_quietly.
  - unfold run_once. etrans; [|apply fold_quietly; intros; by apply on_rows_quietly].
    apply fold_quietly. intros. apply upsert_quietly.
Qed.

Section Spacing.
Context (recipients : list recipient) (resend : Z) (batch : nat).

(** Cycles of the dispatcher, between other operations on the alerts. *)
Inductive mail_op :=
| MTick (send : nat -> string -> send_result) (claim_now : Z) (clocks : nat -> Z) (until : Z)
| MAlert (o : alert_op).

Definition mstep (o : mail_op) (m : mail) : mail :=
  match o with
  | MTick send claim_now clocks _ => _tick recipients resend batch send claim_now clocks m
  | MAlert o => {| alerts := astep o (alerts m); deliveries := deliveries m |}
  end.

Definition mrun (ops : list mail_op) (m : mail) : mail := fold_left (fun m o => mstep o m) ops m.

(** Clocks do not run backwards, and only the dispatcher marks alerts. *)
Inductive timed : Z -> list mail_op -> Prop :=
| timed_nil now : timed now []
| timed_tick now send claim_now clocks until ops :
    now <= claim_now -> (forall i, claim_now <= clocks i <= until) -> timed until ops ->
    timed now (MTick send claim_now clocks until :: ops)
| timed_alert now o ops :
    match o with ANotified _ _ => False | _ => True end -> timed now ops -> timed now (MAlert o :: ops).

Definition spaced (l : list delivery) : Prop :=
  forall i j d1 d2, (i < j)%nat -> l !! i = Some d1 -> l !! j = Some d2 ->
    dl_alert d1 = dl_alert d2 -> dl_recipient d1 = dl_recipient d2 -> dl_sent_at d1 + resend < dl_sent_at d2.

Record mail_inv (now : Z) (m : mail) : Prop := {
  inv_spaced : spaced (deliveries m);
  inv_marked : forall d, d ∈ deliveries m -> exists a t, alerts m !! dl_alert d = Some a
    /\ al_notified_at a = Some t /\ dl_sent_at d <= t /\ dl_count d <= al_notified_count a;
  inv_past : forall i a t, alerts m !! i = Some a -> al_notified_at a = Some t -> t <= now
}.

Hypothesis resend_nonneg : 0 <= resend.

Lemma spaced_snoc l d :
  spaced l -> (forall d1, d1 ∈ l -> dl_alert d1 = dl_alert d -> dl_recipient d1 = dl_recipient d ->
                 dl_sent_at d1 + resend < dl_sent_at d) -> spaced (l ++ [d]).
Proof.
  intros Hs Hd i j d1 d2 Hij H1 H2. apply lookup_lt_Some in H2 as Hj. rewrite length_app in Hj. cbn in Hj.
  destruct (decide (j < length l)%nat) as [Hjl|Hjl].
  - rewrite lookup_app_l in H1, H2 by lia. exact (Hs i j d1 d2 Hij H1 H2).
  - assert (j = length l) as -> by lia. rewrite lookup_app_l in H1 by lia.
    rewrite lookup_app_r in H2 by lia. rewrite Nat.sub_diag in H2. injection H2 as <-.
    apply Hd. by eapply list_elem_of_lookup_2.
Qed.

(** While one alert is delivered. *)
Definition delivering (i : nat) (n clock : Z) (l : list delivery) : Prop :=
  spaced l /\ forall d, d ∈ l -> dl_alert d = i ->
    (dl_count d = n /\ dl_sent_at d = clock) \/ (dl_count d < n /\ dl_sent_at d + resend < clock).

Lemma deliver_step i n clock send l r :
  delivering i n clock l ->
  delivering i n clock (deliver clock i n send l r)
  /\ (forall d, d ∈ deliver clock i n send l r -> d ∈ l \/ (dl_alert d = i /\ dl_count d = n /\ dl_sent_at d = clock)).
Proof.
  intros [Hs Hd]. unfold deliver.
  destruct (match send (rc_id r) with Some x => x | None => (None, "failed"%string) end) as [msg st].
  unfold record_delivery. cbn [dl_alert dl_recipient dl_count].
  destruct (existsb _ l) eqn:E; cbn [snd]; [split; [done | by left]|].
  split.
  - split.
    + apply spaced_snoc; [done|]. intros d1 H1 Ea Er. cbn in *. destruct (Hd d1 H1 Ea) as [[En _]|[_ H]]; [|done].
      exfalso. apply not_true_iff_false in E. apply E, existsb_exists. exists d1. split; [by apply list_elem_of_In|].
      unfold same_delivery. rewrite Er, En, bool_decide_true, String.eqb_refl, Z.eqb_refl by done. done.
    + intros d [H|H]%elem_of_app; [by apply Hd|]. apply list_elem_of_singleton in H as ->. by left.
  - intros d [H|H]%elem_of_app; [by left|]. apply list_elem_of_singleton in H as ->. by right.
Qed.

Lemma deliver_fold i n clock send rs l :
  delivering i n clock l ->
  let l' := fold_left (deliver clock i n send) rs l in
  delivering i n clock l' /\ (forall d, d ∈ l' -> d ∈ l \/ (dl_alert d = i /\ dl_count d = n /\ dl_sent_at d = clock)).
Proof.
  revert l. induction rs as [|r rs IH]; intros l Hl; cbn; [split; [done | by left]|].
  destruct (deliver_step i n clock send l r Hl) as [H1 H2]. destruct (IH _ H1) as [H3 H4].
  split; [done|]. intros d Hd. destruct (H4 d Hd) as [H|H]; [by apply H2 | by right].
Qed.

Lemma send_inv now claim_now until m send i a clock :
  now <= claim_now -> claim_now <= clock <= until ->
  mail_inv until m -> (forall t, al_notified_at a = Some t -> t < claim_now - resend) ->
  alerts m !! i = Some a ->
  let m' := _send_and_record recipients clock send m (i, a) in
  mail_inv until m' /\ (forall j, j <> i -> alerts m' !! j = alerts m !! j).
Proof.
  intros Hn Hc [Hs Hm Hp] Hdue Ha. unfold _send_and_record, mark_notified. rewrite Ha. cbv zeta.
  assert (delivering i (al_notified_count a + 1) clock (deliveries m)) as Hd.
  { split; [done|]. intros d Hin Ei. right. destruct (Hm d Hin) as (a' & t & Ha' & Ht & Hle & Hct).
    rewrite Ei, Ha in Ha'. injection Ha' as <-. specialize (Hdue t Ht). lia. }
  destruct (deliver_fold i (al_notified_count a + 1) clock (send i)
              (list_for_alert (al_org a) (al_type a) (al_severity a) recipients) _ Hd) as [[Hs' _] Hel].
  split.
  - split; cbn [alerts deliveries]; [exact Hs' | |].
    + intros d Hin. destruct (Hel d Hin) as [Hold|(Ei & En & Et)].
      * destruct (Hm d Hold) as (a' & t & Ha' & Ht & Hle & Hct).
        destruct (decide (i = dl_alert d)) as [E|E].
        { exists (mark_row clock a), clock. rewrite <- E, list_lookup_insert_eq by (by eapply lookup_lt_Some).
          rewrite <- E, Ha in Ha'. injection Ha' as <-. specialize (Hdue t Ht). cbn. split_and!; done || lia. }
        { exists a', t. rewrite list_lookup_insert_ne by done. done. }
      * exists (mark_row clock a), clock. rewrite Ei, list_lookup_insert_eq by (by eapply lookup_lt_Some).
        cbn. split_and!; done || lia.
    + intros j a' t Hj Ht. destruct (decide (i = j)) as [<-|E].
      * rewrite list_lookup_insert_eq in Hj by (by eapply lookup_lt_Some). injection Hj as <-. cbn in Ht. simplify_eq. lia.
      * rewrite list_lookup_insert_ne in Hj by done. by eapply Hp.
  - intros j Hj. cbn. by rewrite list_lookup_insert_ne.
Qed.

Lemma claimed_spec now l x :
  x ∈ claim_pending_alerts now resend batch l ->
  l !! fst x = Some (snd x) /\ due now resend (snd x) = true.
Proof.
  unfold claim_pending_alerts. intros H.
  match type of H with _ ∈ take _ ?y => assert (x ∈ y) as H2
    by (rewrite <- (take_drop batch y); apply elem_of_app; by left) end.
  apply elem_of_sort_by, elem_of_lfilter in H2 as [H2 Hd]. split; [|done].
  unfold numbered in H2. apply list_elem_of_lookup in H2 as [k Hk]. destruct x as [i a].
  apply lookup_zip_Some in Hk as [H1 H2]. by apply lookup_seq in H1 as [-> _].
Qed.

Lemma claimed_nodup now l : NoDup (map fst (claim_pending_alerts now resend batch l)).
Proof.
  unfold claim_pending_alerts.
  match goal with |- NoDup (map fst (take batch ?y)) => assert (NoDup (map fst y)) as H end.
  { rewrite (Permutation_map fst (sort_by_perm by_urgency _)).
    assert (NoDup (map fst (numbered l))) as Hn.
    { unfold numbered. change (NoDup (zip (seq 0 (length l)) l).*1).
      rewrite fst_zip by (by rewrite length_seq). apply NoDup_seq. }
    revert Hn. generalize (numbered l) as nl. induction nl as [|y nl IH]; intros Hn; [constructor|].
    cbn in *. apply NoDup_cons in Hn as [Hy Hn]. destruct (due _ _ _); [|by apply IH]. cbn. apply NoDup_cons.
    split; [|by apply IH]. intros Hin. apply Hy. apply list_elem_of_fmap in Hin as (z & -> & Hz).
    apply elem_of_lfilter in Hz as [Hz _]. apply list_elem_of_fmap. by exists z. }
  rewrite <- (take_drop batch (sort_by by_urgency _)), map_app in H. by apply NoDup_app in H as [H _].
Qed.

Lemma mail_inv_mono now now' m : now <= now' -> mail_inv now m -> mail_inv now' m.
Proof. intros Hn [Hs Hm Hp]. split; [done | done|]. intros i a t Hi Ht. specialize (Hp i a t Hi Ht). lia. Qed.

Lemma due_before now a t : due now resend a = true -> al_notified_at a = Some t -> t < now - resend.
Proof. unfold due. intros [_ H]%andb_true_iff Ht. rewrite Ht in H. by apply Z.ltb_lt in H. Qed.

Lemma tick_fold send claim_now clocks until l m :
  (forall i, claim_now <= clocks i <= until) -> NoDup (map fst l) ->
  (forall x, x ∈ l -> alerts m !! fst x = Some (snd x) /\ due claim_now resend (snd x) = true) ->
  mail_inv until m ->
  mail_inv until (fold_left (fun m x => _send_and_record recipients (clocks (fst x)) send m x) l m).
Proof.
  intros Hc. revert m. induction l as [|[i a] l IH]; intros m Hn Hl Hm; [done|]. cbn [fold_left fst].
  cbn in Hn. apply NoDup_cons in Hn as [Hi Hn].
  destruct (Hl (i, a)) as [Ha Hdue]; [left|].
  destruct (send_inv claim_now claim_now until m send i a (clocks i)) as [Hm' Hsame];
    [lia | apply Hc | done | intros t; by apply due_before | done|].
  apply IH; [done | | done]. intros x Hx. destruct (Hl x) as [Hx1 Hx2]; [by right|]. split; [|done].
  rewrite Hsame; [done|]. intros E. apply Hi. apply list_elem_of_fmap. exists x. by rewrite E.
Qed.

Lemma mstep_inv now o ops m : timed now (o :: ops) -> mail_inv now m -> exists now', timed now' ops /\ mail_inv now' (mstep o m).
Proof.
  intros Ht Hm. inversion Ht as [|? send claim_now clocks until ? H1 H2 H3|? o' ? H1 H2]; subst; cbn [mstep].
  - exists until. split; [done|]. unfold _tick. apply tick_fold with (claim_now := claim_now);
      [done | apply claimed_nodup | intros x; apply claimed_spec |].
    eapply mail_inv_mono; [|exact Hm]. specialize (H2 0%nat). lia.
  - exists now. split; [done|]. destruct Hm as [Hs Hmk Hp].
    destruct (astep_quietly o' (alerts m) H1) as (l & ext & E & Hq & He).
    split; cbn [alerts deliveries]; [done | |].
    + intros d Hd. destruct (Hmk d Hd) as (a & t & Ha & Hta & Hle & Hct).
      destruct (Forall2_lookup_l _ _ _ _ _ Hq Ha) as (b & Hb & Eb1 & Eb2).
      exists b, t. rewrite E, (lookup_app_l_Some _ _ _ _ Hb). split_and!; [done | congruence | done | lia].
    + intros i b t Hb Htb. rewrite E in Hb. apply lookup_app_Some in Hb as [Hb|[_ Hb]].
      * destruct (Forall2_lookup_r _ _ _ _ _ Hq Hb) as (a & Ha & Eb1 & _). eapply (Hp i a); [done | congruence].
      * apply list_elem_of_lookup_2 in Hb. rewrite Forall_forall in He. rewrite (He b Hb) in Htb. done.
Qed.

Lemma mrun_inv now ops m : timed now ops -> mail_inv now m -> spaced (deliveries (mrun ops m)).
Proof.
  revert now m. induction ops as [|o ops IH]; intros now m Ht Hm; [apply Hm|]. cbn.
  destruct (mstep_inv now o ops m Ht Hm) as (now' & Ht' & Hm'). by eapply IH.
Qed.

(** Two delivery attempts of one alert to the same recipient are more than a resend
    interval apart, whatever changes of alerts, dispatcher ticks and provider failures
    occur in between. *)
Theorem recipients_not_flooded now ops m i j d1 d2 :
  mail_inv now m -> timed now ops -> (i < j)%nat ->
  deliveries (mrun ops m) !! i = Some d1 -> deliveries (mrun ops m) !! j = Some d2 ->
  dl_alert d1 = dl_alert d2 -> dl_recipient d1 = dl_recipient d2 ->
  dl_sent_at d1 + resend < dl_sent_at d2.
Proof. intros Hm Ht. by apply (mrun_inv now ops m Ht Hm). Qed.
End Spacing.

(** Who is written to. *)
Lemma deliver_elem clock i n send l r d :
  d ∈ deliver clock i n send l r -> d ∈ l \/ (dl_alert d = i /\ dl_recipient d = rc_id r).
Proof.
  unfold deliver. destruct (match send (rc_id r) with Some x => x | None => (None, "failed"%string) end) as [msg st].
  unfold record_delivery. destruct (existsb _ l); cbn [snd]; [by left|].
  intros [H|H]%elem_of_app; [by left|]. apply list_elem_of_singleton in H as ->. by right.
Qed.

Lemma deliver_fold_elem clock i n send rs l d :
  d ∈ fold_left (deliver clock i n send) rs l ->
  d ∈ l \/ (dl_alert d = i /\ exists r, r ∈ rs /\ dl_recipient d = rc_id r).
Proof.
  revert l. induction rs as [|r rs IH]; intros l; cbn; [by left|]. intros [H|(E & r' & Hr & H)]%IH.
  - destruct (deliver_elem _ _ _ _ _ _ _ H) as [H2|[E H2]]; [by left|]. right. split; [done|]. exists r. split; [left | done].
  - right. split; [done|]. exists r'. split; [by right | done].
Qed.

(** Every delivery a dispatcher tick adds is for an active alert that was due, to an
    active recipient of the alert's organisation whose threshold its severity meets and
    whose types cover it. *)
Theorem deliveries_go_to_matching_recipients recipients resend batch send claim_now clocks m d :
  d ∈ deliveries (_tick recipients resend batch send claim_now clocks m) -> d ∉ deliveries m ->
  exists a r, alerts m !! dl_alert d = Some a /\ al_status a = active
    /\ match al_notified_at a with None => True | Some t => t + resend < claim_now end
    /\ r ∈ recipients /\ rc_id r = dl_recipient d /\ rc_org r = al_org a /\ rc_active r = true
    /\ meets_threshold (al_severity a) (rc_min_severity r) = true
    /\ (al_type a ∈ rc_types r \/ "*"%string ∈ rc_types r).
Proof.
  unfold _tick. intros Hd Hn.
  assert (forall l m', (forall x, x ∈ l -> alerts m !! fst x = Some (snd x) /\ due claim_now resend (snd x) = true) ->
    d ∈ deliveries (fold_left (fun m x => _send_and_record recipients (clocks (fst x)) send m x) l m') ->
    d ∈ deliveries m' \/ exists a r, alerts m !! dl_alert d = Some a /\ due claim_now resend a = true
      /\ r ∈ list_for_alert (al_org a) (al_type a) (al_severity a) recipients /\ dl_recipient d = rc_id r) as H.
  { induction l as [|[i a] l IH]; intros m' Hl Hin; [by left|]. cbn [fold_left fst] in Hin.
    apply IH in Hin as [Hin|Hin]; [|by right|intros x Hx; apply Hl; by right].
    unfold _send_and_record in Hin. destruct (mark_notified _ _ _) as [[n l']|]; [|by left]. cbn in Hin.
    apply deliver_fold_elem in Hin as [Hin|(E & r & Hr & Er)]; [by left|]. right.
    destruct (Hl (i, a)) as [Ha Hdu]; [left|]. exists a, r. rewrite E. done. }
  destruct (H _ m (fun x => claimed_spec resend batch claim_now (alerts m) x) Hd) as [|(a & r & Ha & Hdu & Hr & Er)]; [done|].
  exists a, r. unfold due in Hdu. apply andb_true_iff in Hdu as [Hac Hnt]. apply bool_decide_eq_true in Hac.
  apply elem_of_lfilter in Hr as [Hr Hf]. rewrite !andb_true_iff, orb_true_iff, !bool_decide_eq_true, String.eqb_eq in Hf.
  destruct Hf as [[[H1 H2] H3] H4]. split_and!; try done. destruct (al_notified_at a); [|done]. apply Z.ltb_lt in Hnt. lia.
Qed.

(** ** Drop and reconnect *)

Lemma newest_snoc l m : (forall b, b ∈ l -> newer b m = true) -> newest newer (l ++ [m]) = Some m.
Proof.
  intros H. unfold newest. rewrite fold_left_app. cbn.
  match goal with |- match ?e with _ => _ end = _ => destruct e as [b|] eqn:E; [|done] end.
  rewrite (H b); [done|]. by apply (newest_elem newer).
Qed.

Lemma latest_on_in station c t r :
  latest_on station c t = Some r -> r ∈ t /\ sr_station r = station /\ sr_connector r = c.
Proof.
  intros H%newest_elem. apply elem_of_lfilter in H as [H [E1 E2]%andb_true_iff].
  apply String.eqb_eq in E1. by apply Z.eqb_eq in E2.
Qed.

Lemma elem_of_connectors station c t r :
  r ∈ t -> sr_station r = station -> sr_connector r = c -> c ∈ connectors_of station t.
Proof.
  intros Hr Hs Hc. unfold connectors_of. rewrite elem_of_sort_by, elem_of_remove_dups, list_elem_of_fmap.
  exists r. split; [done|]. apply elem_of_lfilter. split; [done|]. by apply String.eqb_eq.
Qed.

Lemma connectors_nodup station t : NoDup (connectors_of station t).
Proof. unfold connectors_of. rewrite sort_by_perm. apply NoDup_remove_dups. Qed.

Lemma insert_statuses now rows t : fst (fold_left (insert_status now) rows t) = fst t ++ rows.
Proof.
  revert t. induction rows as [|r rows IH]; intros t; cbn; [by rewrite app_nil_r|]. rewrite IH. cbn. by rewrite <- app_assoc.
Qed.

(** The marker a statement appends for one connector. *)
Lemma marker_of_connector station c t r now status error tenant (p : status_row -> bool) :
  latest_on station c t = Some r -> p r = true ->
  List.filter (fun x => String.eqb (sr_station x) station && (sr_connector x =? c))
    (map (marker now status error tenant)
       (List.filter p (omap (fun c => latest_on station c t) (connectors_of station t))))
  = [marker now status error tenant r].
Proof.
  intros Hr Hp. destruct (latest_on_in _ _ _ _ Hr) as (Hin & Hs & Hc).
  pose proof (elem_of_connectors _ _ _ _ Hin Hs Hc) as Hel. pose proof (connectors_nodup station t) as Hnd.
  revert Hel Hnd. generalize (connectors_of station t) as cs.
  assert (forall cs, c ∉ cs ->
    List.filter (fun x => String.eqb (sr_station x) station && (sr_connector x =? c))
      (map (marker now status error tenant) (List.filter p (omap (fun c => latest_on station c t) cs))) = []) as Hnone.
  { intros cs Hni. apply filter_none. intros x (y & -> & [Hy _]%elem_of_lfilter)%list_elem_of_fmap.
    apply list_elem_of_omap in Hy as (c' & Hc' & Hl). destruct (latest_on_in _ _ _ _ Hl) as (_ & _ & E).
    cbn. rewrite E. destruct (Z.eqb_spec c' c) as [->|]; [by destruct (Hni Hc') | apply andb_false_r]. }
  induction cs as [|c' cs IH]; intros Hel Hnd; [by apply not_elem_of_nil in Hel|].
  apply NoDup_cons in Hnd as [Hni Hnd]. cbn [omap list_omap]. destruct (decide (c' = c)) as [->|Hne].
  - rewrite Hr. cbn [List.filter]. rewrite Hp. cbn [map List.filter].
    rewrite (Hnone cs Hni). cbn. by rewrite Hs, Hc, String.eqb_refl, Z.eqb_refl.
  - apply elem_of_cons in Hel as [->|Hel]; [done|].
    destruct (latest_on station c' t) as [r'|] eqn:El; [|by apply IH].
    cbn [List.filter]. destruct (p r'); [|by apply IH]. cbn [map List.filter].
    destruct (latest_on_in _ _ _ _ El) as (_ & _ & E). cbn. rewrite E.
    destruct (Z.eqb_spec c' c); [done|]. rewrite andb_false_r. by apply IH.
Qed.

Lemma latest_after_marker station c t r now status error tenant p :
  latest_on station c t = Some r -> p r = true -> (forall x, x ∈ t -> sr_created x < now) ->
  latest_on station c
    (t ++ map (marker now status error tenant)
            (List.filter p (omap (fun c => latest_on station c t) (connectors_of station t))))
  = Some (marker now status error tenant r).
Proof.
  intros Hr Hp Hold. unfold latest_on at 1. rewrite List.filter_app, (marker_of_connector _ _ _ _ _ _ _ _ _ Hr Hp).
  apply newest_snoc. intros b [Hb _]%elem_of_lfilter. unfold newer. apply Hold in Hb. cbn.
  apply orb_true_iff. left. by apply Z.ltb_lt.
Qed.

Theorem reconnect_reports_available station c t l r now1 now2 :
  latest_on station c t = Some r -> (forall x, x ∈ t -> sr_created x < now1) -> now1 < now2 ->
  let t1 := mark_connectors_unavailable now1 station (t, l) in
  let t2 := snd (mark_connectors_available_after_reconnect now2 station t1) in
  option_map sr_status (latest_on station c (fst t1)) = Some "Unavailable"%string
  /\ option_map sr_status (latest_on station c (fst t2)) = Some "Available"%string.
Proof.
  intros Hr Hold Hn t1 t2.
  assert (fst t1 = t ++ map (marker now1 "Unavailable" (Some ConnectionLost) (tenant_of station t))
            (List.filter (fun _ => true) (omap (fun c => latest_on station c t) (connectors_of station t)))) as E1.
  { subst t1. unfold mark_connectors_unavailable. rewrite insert_statuses. cbn. by rewrite (filter_all (fun _ => true)). }
  assert (latest_on station c (fst t1)
          = Some (marker now1 "Unavailable" (Some ConnectionLost) (tenant_of station t) r)) as L1
    by (rewrite E1; by apply latest_after_marker).
  split; [by rewrite L1|]. subst t2. unfold mark_connectors_available_after_reconnect. cbn [snd].
  rewrite insert_statuses, (latest_after_marker _ _ _ _ _ _ _ _ _ L1); [done | done|].
  intros x Hx. rewrite E1 in Hx. apply elem_of_app in Hx as [Hx|Hx]; [specialize (Hold x Hx); lia|].
  apply list_elem_of_fmap in Hx as (y & -> & _). cbn. lia.
Qed.

(** ** What the API shows *)

(** The cap on a future timestamp does not change the state shown. *)
Theorem cap_changes_no_status ocpp_status t open_session now :
  derive_charger_status ocpp_status (Some (if now <? t then now else t)) open_session now
  = derive_charger_status ocpp_status (Some t) open_session now.
Proof.
  destruct (Z.ltb_spec now t); [|done]. unfold derive_charger_status, _age. cbn [option_map].
  assert (CHARGER_OFFLINE_AGE <? now - now = false) as -> by (apply Z.ltb_ge; unfold CHARGER_OFFLINE_AGE, usec; lia).
  assert (CHARGER_OFFLINE_AGE <? now - t = false) as -> by (apply Z.ltb_ge; unfold CHARGER_OFFLINE_AGE, usec; lia).
  done.
Qed.

Lemma latest_max l :
  match _latest l with
  | Some m => Some m ∈ l /\ forall t, Some t ∈ l -> t <= m
  | None => forall t, Some t ∉ l
  end.
Proof.
  unfold _latest. induction l as [|x l IH] using rev_ind; [intros t; apply not_elem_of_nil|].
  rewrite fold_left_app. cbn [fold_left]. destruct (fold_left _ l None) as [m|].
  - destruct IH as [Hm Hle]. destruct x as [t|].
    + destruct (Z.ltb_spec m t).
      * split; [apply elem_of_app; right; left|].
        intros t' [H'|H']%elem_of_app; [apply Hle in H'; lia|].
        apply list_elem_of_singleton in H'. injection H' as ->. lia.
      * split; [apply elem_of_app; by left|].
        intros t' [H'|H']%elem_of_app; [by apply Hle|]. apply list_elem_of_singleton in H'. injection H' as ->. lia.
    + split; [apply elem_of_app; by left|].
      intros t' [H'|H']%elem_of_app; [by apply Hle | by apply list_elem_of_singleton in H'].
  - destruct x as [t|].
    + split; [apply elem_of_app; right; left|].
      intros t' [H'|H']%elem_of_app; [by apply IH in H'|]. apply list_elem_of_singleton in H'. injection H' as ->. lia.
    + intros t [H'|H']%elem_of_app; [by apply IH in H' | by apply list_elem_of_singleton in H'].
Qed.

(** When a charger is shown offline. *)
Theorem charger_offline_iff now cs open_session override telemetry :
  fst (charger_item now cs open_session override telemetry) = Offline <->
  option_map fst cs <> Some "Faulted"%string /\
  (option_map fst cs = Some "Unavailable"%string \/
   forall t, Some t ∈ [override; option_map snd cs; telemetry] -> t + CHARGER_OFFLINE_AGE < now).
Proof.
  unfold charger_item, last_interaction. cbn [fst].
  pose proof (latest_max [override; option_map snd cs; telemetry]) as Hm.
  destruct (_latest [override; option_map snd cs; telemetry]) as [m|].
  - rewrite cap_changes_no_status. unfold derive_charger_status, _age. cbn [option_map].
    case_bool_decide as Hf; [naive_solver|].
    destruct Hm as [Hm Hle]. destruct (Z.ltb_spec CHARGER_OFFLINE_AGE (now - m)) as [Ho|Ho]; cbn [orb].
    + split; [intros _|done]. split; [done|]. right. intros t Ht. apply Hle in Ht. lia.
    + case_bool_decide as Hu; [split; [intros _; split; [done | by left] | done]|].
      split; [by destruct (_ || _)|]. intros [_ [H|H]]; [done|]. specialize (H m Hm). lia.
  - unfold derive_charger_status, _age. cbn [option_map].
    case_bool_decide as Hf; [naive_solver|]. split; [intros _|done]. split; [done|]. right. intros t Ht. by apply Hm in Ht.
Qed.

(** ** Departures from the documented behaviour *)

Definition ex_status (connector : Z) (status : string) (error : option string) (ts created : Z) : status_row :=
  {| sr_station := "CS1"; sr_connector := connector; sr_status := status; sr_error := error; sr_timestamp := ts;
     sr_org := Some "ORG"%string; sr_depot := Some "D1"%string; sr_created := created |}.

(** A charger whose clock is a day ahead loses its connection: the monitor sees
    the marker, the API shows the charger idle two hours later. *)
Theorem future_clock_hides_outage :
  let day := 24 * hour_us in
  let t := fst (mark_connectors_unavailable (2 * hour_us) "CS1"
                  ([ex_status 1 "Available" None (hour_us + day) hour_us], [])) in
  map oc_station (fetch_offline_chargers (4 * hour_us) hour_us t) = ["CS1"%string]
  /\ fst (charger_item (4 * hour_us) (latest_connector_status "CS1" t) false None None) = Idle.
Proof. vm_compute. auto. Qed.

Definition ex_faulted : list status_row * list alert :=
  insert_status 10 ([], []) (ex_status 1 "Faulted" (Some "GroundFailure"%string) 10 10).

(** A drop and a reconnect turn a reported fault into an available connector and
    resolve its alert. *)
Theorem reconnect_hides_fault :
  let t1 := mark_connectors_unavailable 20 "CS1" ex_faulted in
  let t2 := snd (mark_connectors_available_after_reconnect 30 "CS1" t1) in
  map al_status (snd ex_faulted) = [active]
  /\ option_map sr_status (latest_on "CS1" 1 (fst t2)) = Some "Available"%string
  /\ map al_status (snd t2) = [resolved].
Proof. vm_compute. auto. Qed.

(** An acknowledged warning swallows the fault that follows it: the row turns
    critical and is never claimed. *)
Theorem acknowledged_warning_mutes_fault :
  let l := arun [AStatus 10 (ex_status 1 "Unavailable" None 10 10); AAck 20 0 "operator";
                 AStatus 30 (ex_status 1 "Faulted" (Some "GroundFailure"%string) 30 30)] [] in
  map al_severity l = [CRITICAL] /\ claim_pending_alerts (100 * hour_us) (3600 * usec) 50 l = [].
Proof. vm_compute. auto. Qed.

Definition ex_offline_alert (org : string) (status : alert_status) : alert :=
  {| al_org := org; al_depot := None; al_type := ALERT_TYPE_3H; al_severity := WARNING; al_title := "";
     al_detail := [("station_id"%string, PStr "CS1")]; al_dedup := "charger_offline_3h:CS1"; al_status := status;
     al_first := 0; al_last := 0; al_count := 1; al_ack_at := None; al_ack_by := None; al_ack_email := None;
     al_resolved_at := None; al_notified_at := None; al_notified_count := 0 |}.

Definition ex_lost : list status_row := [ex_status 1 "Unavailable" (Some ConnectionLost) 0 0].
Definition ex_back : list status_row := ex_lost ++ [ex_status 1 "Available" None (4 * hour_us) (4 * hour_us)].

(** A charger that comes back during the sweep is resolved, unless the resolve of a
    former owner's alert, of the same key, was already planned. *)
Theorem former_owner_hides_resolve :
  map al_status (run_once (3 * hour_us) (24 * hour_us) (4 * hour_us) ex_lost ex_back
                   [ex_offline_alert "ORG" active]) = [resolved]
  /\ map al_status (run_once (3 * hour_us) (24 * hour_us) (4 * hour_us) ex_lost ex_back
                      [ex_offline_alert "FORMER" active; ex_offline_alert "ORG" active]) = [resolved; active].
Proof. vm_compute. auto. Qed.

(** ** Witnesses *)

Definition ex_ops : list alert_op :=
  [AStatus 10 (ex_status 1 "Faulted" None 10 10); AAck 20 0 "operator";
   AStatus 30 (ex_status 1 "Available" None 30 30); AStatus 40 (ex_status 1 "Unavailable" None 40 40)].

Lemma alert_life_cycle_witness :
  map al_status (arun ex_ops [ex_offline_alert "ORG" resolved]) = [resolved; resolved; active] /\
  exists b, arun ex_ops [ex_offline_alert "ORG" resolved] !! 0%nat = Some b /\ al_resolved_at b = None.
Proof.
  split; [vm_compute; reflexivity|].
  destruct (alert_life_cycle ex_ops [ex_offline_alert "ORG" resolved] 0 (ex_offline_alert "ORG" resolved) eq_refl)
    as (b & Hb & _ & _ & Hr).
  exists b. split; [exact Hb|]. exact (proj2 (Hr eq_refl)).
Defined.

Lemma one_open_alert_witness :
  exists a, arun ex_ops [] !! 1%nat = Some a /\ al_status a <> resolved /\ 1%nat = 1%nat.
Proof.
  assert (option_map al_status (arun ex_ops [] !! 1%nat) = Some active) as H by (vm_compute; reflexivity).
  destruct (arun ex_ops [] !! 1%nat) as [a|] eqn:E; [|discriminate H]. injection H as H.
  exists a. split; [reflexivity|]. split; [rewrite H; discriminate|].
  apply (one_open_alert_per_key ex_ops [] 1 1 a a); [constructor | exact E | exact E | | | reflexivity | reflexivity];
    rewrite H; discriminate.
Defined.

Lemma sweep_witness :
  raised "ORG" "charger_offline_3h:CS1" (run_once (3 * hour_us) (24 * hour_us) (4 * hour_us) ex_lost ex_lost []).
Proof.
  apply (proj2 (proj1 (sweep_leaves_exactly_the_lost (3 * hour_us) (24 * hour_us) (4 * hour_us) ex_lost [] "ORG" "CS1"
                         (Forall_nil_2 _)))).
  exists (ex_status 1 "Unavailable" (Some ConnectionLost) 0 0).
  split; [vm_compute; reflexivity|]. split; [vm_compute; reflexivity|]. split; [vm_compute; discriminate | vm_compute; reflexivity].
Defined.

Definition ex_recipient : recipient :=
  {| rc_id := "R1"; rc_org := "ORG"; rc_email := "ops@example.org"; rc_types := ["*"%string];
     rc_min_severity := WARNING; rc_active := true |}.

Definition ex_send (i : nat) (r : string) : send_result := Some (Some "m1"%string, "sent"%string).

Definition ex_mail : mail := {| alerts := [ex_offline_alert "ORG" active]; deliveries := [] |}.

Definition ex_cycle (t : Z) : mail_op := MTick ex_send t (fun _ => t) t.

Definition ex_mailed : mail := mrun [ex_recipient] (3600 * usec) 50 [ex_cycle 10; ex_cycle 20; ex_cycle (2 * hour_us)] ex_mail.

Lemma ex_mail_inv : mail_inv (3600 * usec) 0 ex_mail.
Proof.
  split.
  - intros i j d1 d2 _ H. discriminate H.
  - intros d H. by apply not_elem_of_nil in H.
  - intros [|i] a t H Ht; cbn in H; [injection H as <-; discriminate Ht | discriminate H].
Qed.

Lemma recipients_not_flooded_witness :
  map dl_sent_at (deliveries ex_mailed) = [10; 2 * hour_us] /\ 10 + 3600 * usec < 2 * hour_us.
Proof.
  assert (map dl_sent_at (deliveries ex_mailed) = [10; 2 * hour_us]) as H by (vm_compute; reflexivity).
  split; [exact H|].
  destruct (deliveries ex_mailed) as [|d1 [|d2 l]] eqn:E; [discriminate H | discriminate H|].
  assert (map dl_alert (deliveries ex_mailed) = [0%nat; 0%nat] /\
          map dl_recipient (deliveries ex_mailed) = ["R1"%string; "R1"%string]) as [Ha Hr] by (vm_compute; split; reflexivity).
  rewrite E in Ha, Hr. cbn in H, Ha, Hr.
  injection H as H1 H2 _. injection Ha as A1 A2 _. injection Hr as R1 R2 _.
  rewrite <- H2. change 10 with (10 : Z). rewrite <- H1 at 1.
  apply (recipients_not_flooded [ex_recipient] (3600 * usec) 50 ltac:(vm_compute; discriminate) 0
           [ex_cycle 10; ex_cycle 20; ex_cycle (2 * hour_us)] ex_mail 0 1 d1 d2 ex_mail_inv).
  - repeat (apply timed_tick; [vm_compute; discriminate | intros i; split; vm_compute; discriminate |]). constructor.
  - lia.
  - change (deliveries ex_mailed !! 0%nat = Some d1). by rewrite E.
  - change (deliveries ex_mailed !! 1%nat = Some d2). by rewrite E.
  - congruence.
  - congruence.
Defined.

Definition ex_ticked : mail := _tick [ex_recipient] (3600 * usec) 50 ex_send 10 (fun _ => 10) ex_mail.

Lemma deliveries_go_witness :
  exists d a r, d ∈ deliveries ex_ticked /\ alerts ex_mail !! dl_alert d = Some a /\ rc_id r = dl_recipient d.
Proof.
  assert (length (deliveries ex_ticked) = 1%nat) as H by (vm_compute; reflexivity).
  destruct (deliveries ex_ticked) as [|d l] eqn:E; [discriminate H|].
  assert (d ∈ deliveries ex_ticked) as Hd by (rewrite E; left).
  destruct (deliveries_go_to_matching_recipients [ex_recipient] (3600 * usec) 50 ex_send 10 (fun _ => 10) ex_mail d Hd)
    as (a & r & Ha & _ & _ & _ & Hr & _); [apply not_elem_of_nil|].
  exists d, a, r. split; [rewrite <- E; exact Hd|]. split; [exact Ha | exact Hr].
Defined.

Lemma reconnect_reports_available_witness :
  option_map sr_status (latest_on "CS1" 1
    (fst (snd (mark_connectors_available_after_reconnect 30 "CS1" (mark_connectors_unavailable 20 "CS1" ex_faulted)))))
  = Some "Available"%string.
Proof.
  apply (reconnect_reports_available "CS1" 1 (fst ex_faulted) (snd ex_faulted)
           (ex_status 1 "Faulted" (Some "GroundFailure"%string) 10 10) 20 30).
  - reflexivity.
  - intros x Hx. apply list_elem_of_singleton in Hx. subst x. vm_compute. reflexivity.
  - lia.
Defined.
