(* ===== verification/ReportTiming.v ===== *)
(** * Timing and validation of report schedules ([src/api/report_schedule_timing.py])

    When a schedule fires next, which period a run covers, and the validation of
    the payloads that create and change schedules. Instants are UTC microseconds,
    a [time] is the microseconds since midnight, a date is a day number; the zone
    is the parameter [tz] of [Recurring]. Years are not bounded: Python's limit of
    9999 is left out. *)

From S2P Require Import Prelude Models Datetime PyText Recurring.
From Stdlib Require Import ZArith Lia Ascii.
From stdpp Require Import base list strings gmap.

#[local] Open Scope Z_scope.

(** ** [datetime(year, month, day)] *)

Definition is_leap (y : Z) : bool := (y mod 4 =? 0) && (negb (y mod 100 =? 0) || (y mod 400 =? 0)).

Definition days_in_month (y m : Z) : Z :=
  if m =? 2 then (if is_leap y then 29 else 28)
  else if (m =? 4) || (m =? 6) || (m =? 9) || (m =? 11) then 30 else 31.

(** The day number of a civil date, from 400-year eras. *)
Definition days_of_civil (y m d : Z) : Z :=
  let y' := if m <=? 2 then y - 1 else y in
  let yoe := y' mod 400 in
  let doy := (153 * ((m + 9) mod 12) + 2) / 5 + d - 1 in
  y' / 400 * 146097 + (yoe * 365 + yoe / 4 - yoe / 100 + doy) - 719468.

Inductive schedule_error :=
| ScheduleValidationError
| ValueError_          (* of the constructor of [datetime] *)
| TypeError_.          (* an unhashable value looked up in a set *)

Definition make_date (y m d : Z) : result schedule_error Z :=
  if (1 <=? m) && (m <=? 12) && (1 <=? d) && (d <=? days_in_month y m)
  then Ok (days_of_civil y m d) else Err ValueError_.

(** [d.isoformat()] of a date. *)
Definition date_str (d : Z) : string :=
  let '(y, m, dd) := civil_of d in
  zero_padded 4 y +:+ "-" +:+ zero_padded 2 m +:+ "-" +:+ zero_padded 2 dd.

(** ** Enumerations *)

Definition VALID_KINDS : list string :=
  ["weekly_ops"; "monthly_savings"; "monthly_consumption"; "incident"; "compliance"].
Definition VALID_GROUP_BY : list string := ["card"; "vehicle"].
Definition VALID_FREQUENCIES : list string := ["weekly"; "monthly"; "quarterly"].
Definition VALID_FORMATS : list string := ["pdf"; "csv"].
Definition VALID_AUTONOMY_MODES : list string := ["shadow"; "proposed"; "auto_notify"; "auto_silent"].
Definition _QUARTER_MONTHS : list Z := [1; 4; 7; 10].

Definition _PROVIDER_STATUS_TO_WIRE : dict string string :=
  [("sent", "sent"); ("delivered", "sent"); ("bounced", "bounced"); ("complained", "suppressed");
   ("suppressed", "suppressed"); ("failed", "failed")].

Definition map_provider_status_to_wire (provider_status : string) : string :=
  dget_or _PROVIDER_STATUS_TO_WIRE provider_status "failed".

(** ** The period of a run *)

Definition month_names : list string :=
  ["January"; "February"; "March"; "April"; "May"; "June"; "July"; "August"; "September"; "October";
   "November"; "December"].

(** First and last day of the month before the one of [today]. *)
Definition previous_month (today : Z) : Z * Z :=
  let '(y, m, _) := civil_of today in
  let last_of_prev := days_of_civil y m 1 - 1 in
  let '(y', m', _) := civil_of last_of_prev in
  (days_of_civil y' m' 1, last_of_prev).

Definition previous_month_bounds (now_local : Z) : string * string * string :=
  let '(first, last) := previous_month (date_of now_local) in
  let '(y, m, _) := civil_of first in
  (date_str first, date_str last, nth (Z.to_nat (m - 1)) month_names "" +:+ " " +:+ py_str_int y).

Definition _last_day_of_month (year month : Z) : Z :=
  let nxt := if month =? 12 then days_of_civil (year + 1) 1 1 else days_of_civil year (month + 1) 1 in
  snd (civil_of (nxt - 1)).

(** The dates of the period; [compute_report_period] renders them. *)
Definition report_period (frequency : string) (today : Z) : result schedule_error (Z * Z) :=
  if String.eqb frequency "monthly" then Ok (previous_month today)
  else if String.eqb frequency "weekly" then let end_date := today - 1 in Ok (end_date - 6, end_date)
  else if String.eqb frequency "quarterly" then
    let '(y, m, _) := civil_of today in
    let q_index := (m - 1) / 3 in
    let '(prev_year, prev_q) := if q_index =? 0 then (y - 1, 3) else (y, q_index - 1) in
    let start_month := prev_q * 3 + 1 in
    let end_month := start_month + 2 in
    let? start := make_date prev_year start_month 1 in
    let? last := make_date prev_year end_month (_last_day_of_month prev_year end_month) in
    Ok (start, last)
  else Err ScheduleValidationError.

Definition compute_report_period (frequency : string) (now_local : Z) : result schedule_error (string * string) :=
  let? p := report_period frequency (date_of now_local) in
  Ok (date_str (fst p), date_str (snd p)).

(** ** Times of day *)

Definition all_digits (s : string) : bool :=
  negb (String.eqb s "") && forallb is_digit (String.list_ascii_of_string s).

Definition parse_hh_mm (value : pyobj) : result schedule_error Z :=
  match value with
  | PStr s =>
      match split_on ":"%char s with
      | [h; m] =>
          if negb ((String.length h =? 2)%nat && (String.length m =? 2)%nat) then Err ScheduleValidationError
          else if negb (all_digits h && all_digits m) then Err ScheduleValidationError
          else match py_int h, py_int m with
               | Some hour, Some minute =>
                   if (0 <=? hour) && (hour <=? 23) && (0 <=? minute) && (minute <=? 59)
                   then Ok (hour * hour_us + minute * minute_us) else Err ScheduleValidationError
               | _, _ => Err ValueError_
               end
      | _ => Err ScheduleValidationError
      end
  | _ => Err ScheduleValidationError
  end.

Definition format_hh_mm (t : Z) : string := zero_padded 2 (hour_of t) +:+ ":" +:+ zero_padded 2 (minute_of t).

(** ** The next run *)

(** The wall-clock value: seconds are dropped. *)
Definition _localize_to_utc (z : tz) (year month day t : Z) : result schedule_error Z :=
  let? d := make_date year month day in
  Ok (from_local z (dt_combine d (hour_of t * hour_us + minute_of t * minute_us))).

Definition localize_date (z : tz) (d t : Z) : result schedule_error Z :=
  let '(y, m, dd) := civil_of d in _localize_to_utc z y m dd t.

Definition _spec_dow_to_python (day_of_week : Z) : Z := (day_of_week - 1) mod 7.

(** [now] is the instant whose local form the code passes. *)
Definition _next_weekly (z : tz) (now day_of_week t : Z) : result schedule_error Z :=
  let today := date_of (to_local z now) in
  let days_ahead := (_spec_dow_to_python day_of_week - weekday today) mod 7 in
  let candidate_date := today + days_ahead in
  let? candidate := localize_date z candidate_date t in
  if candidate <=? now then localize_date z (candidate_date + 7) t else Ok candidate.

(** The loop [for _ in range(fuel)]. *)
Fixpoint scan_months (z : tz) (now day_of_month t : Z) (allowed : option (list Z)) (fuel : nat) (year month : Z)
  : result schedule_error Z :=
  match fuel with
  | O => Err ScheduleValidationError
  | S fuel' =>
      let next := if 12 <? month + 1 then scan_months z now day_of_month t allowed fuel' (year + 1) 1
                  else scan_months z now day_of_month t allowed fuel' year (month + 1) in
      if match allowed with None => true | Some l => bool_decide (month ∈ l) end
      then let? candidate := _localize_to_utc z year month day_of_month t in
           if now <? candidate then Ok candidate else next
      else next
  end.

Definition _next_by_month (z : tz) (now day_of_month t : Z) (allowed : option (list Z)) : result schedule_error Z :=
  let '(y, m, _) := civil_of (date_of (to_local z now)) in
  scan_months z now day_of_month t allowed 60 y m.

(** [zone] is what the time zone database answers for the depot's zone. *)
Definition compute_next_run_at (now : datetime) (frequency : string) (t : Z) (zone : option tz)
    (day_of_month day_of_week : option Z) : result schedule_error Z :=
  let? _ := raise_if (negb (dt_aware now)) ScheduleValidationError in
  match zone with
  | None => Err ScheduleValidationError
  | Some z =>
      if String.eqb frequency "weekly"
      then match day_of_week with
           | None => Err ScheduleValidationError
           | Some dow => _next_weekly z (dt_us now) dow t
           end
      else if String.eqb frequency "monthly" || String.eqb frequency "quarterly"
      then match day_of_month with
           | None => Err ScheduleValidationError
           | Some dom => _next_by_month z (dt_us now) dom t
                           (if String.eqb frequency "monthly" then None else Some _QUARTER_MONTHS)
           end
      else Err ScheduleValidationError
  end.

(** ** Payloads *)

Record NormalizedRecipient := { nr_email : string; nr_format : string; nr_position : Z }.

Record NormalizedScheduleInput := {
  ns_name : string;
  ns_kind : string;
  ns_group_by : option string;
  ns_frequency : string;
  ns_day_of_month : option Z;
  ns_day_of_week : option Z;
  ns_time_of_day : Z;
  ns_autonomy_mode : string;
  ns_is_active : bool;
  ns_recipients : list NormalizedRecipient
}.

(** [o in s] for a set of strings. *)
Definition in_set (o : pyobj) (s : list string) : result schedule_error (option string) :=
  match o with
  | PStr x => Ok (if bool_decide (x ∈ s) then Some x else None)
  | PList _ | PDict _ => Err TypeError_
  | _ => Ok None
  end.

(** [if o not in s: raise]; the string it is. *)
Definition require_in (o : pyobj) (s : list string) : result schedule_error string :=
  let? r := in_set o s in
  match r with Some x => Ok x | None => Err ScheduleValidationError end.

Definition py_get (d : list (string * pyobj)) (k : string) : pyobj := default PNone (dget d k).

(** [s.partition("@")], when the separator occurs. *)
Fixpoint partition_at (s : string) : option (string * string) :=
  match s with
  | EmptyString => None
  | String c s' =>
      if Ascii.eqb c "@"%char then Some (""%string, s')
      else option_map (fun p => (String c (fst p), snd p)) (partition_at s')
  end.

Definition has_dot (s : string) : bool := existsb (Ascii.eqb "."%char) (String.list_ascii_of_string s).
Definition ends_with_dot (s : string) : bool :=
  match last (String.list_ascii_of_string s) with Some c => Ascii.eqb c "."%char | None => false end.

Definition _validate_email (value : pyobj) : result schedule_error string :=
  match value with
  | PStr s =>
      match partition_at s with
      | Some (local, domain) =>
          if String.eqb local "" || negb (has_dot domain) || ends_with_dot domain
          then Err ScheduleValidationError else Ok s
      | None => Err ScheduleValidationError
      end
  | _ => Err ScheduleValidationError
  end.

(** The loop over [enumerate(raw)]. *)
Fixpoint validate_each (position : Z) (seen : list (string * string)) (raw : list pyobj)
  : result schedule_error (list NormalizedRecipient) :=
  match raw with
  | [] => Ok []
  | PDict item :: raw' =>
      let? email := _validate_email (py_or (py_get item "emailAddress") (py_get item "email_address")) in
      let? fmt := require_in (py_get item "format") VALID_FORMATS in
      let key := (py_lower email, fmt) in
      if bool_decide (key ∈ seen) then Err ScheduleValidationError
      else let? rest := validate_each (position + 1) (seen ++ [key]) raw' in
           Ok ({| nr_email := email; nr_format := fmt; nr_position := position |} :: rest)
  | _ :: _ => Err ScheduleValidationError
  end.

Definition _validate_recipients (raw : pyobj) : result schedule_error (list NormalizedRecipient) :=
  match raw with
  | PNone => Ok []
  | PList l => validate_each 0 [] l
  | _ => Err ScheduleValidationError
  end.

(** An [int] that is no [bool], within bounds. *)
Definition int_in (o : pyobj) (lo hi : Z) : result schedule_error Z :=
  match o with
  | PInt n => if (lo <=? n) && (n <=? hi) then Ok n else Err ScheduleValidationError
  | _ => Err ScheduleValidationError
  end.

Definition is_none (o : pyobj) : bool := match o with PNone => true | _ => false end.

Definition _validate_cadence (frequency : string) (day_of_month day_of_week : pyobj)
  : result schedule_error (option Z * option Z) :=
  if String.eqb frequency "weekly"
  then let? dow := int_in day_of_week 0 6 in
       if is_none day_of_month then Ok (None, Some dow) else Err ScheduleValidationError
  else let? dom := int_in day_of_month 1 28 in
       if is_none day_of_week then Ok (Some dom, None) else Err ScheduleValidationError.

Definition _validate_kind_and_group_by (kind group_by : pyobj) : result schedule_error (string * option string) :=
  let? k := require_in kind VALID_KINDS in
  match group_by with
  | PNone => if String.eqb k "monthly_consumption" then Err ScheduleValidationError else Ok (k, None)
  | _ => let? g := require_in group_by VALID_GROUP_BY in Ok (k, Some g)
  end.

Definition normalize_create_payload (payload : pyobj) : result schedule_error NormalizedScheduleInput :=
  match payload with
  | PDict p =>
      let? name := match py_get p "name" with
                   | PStr s => if String.eqb (strip s) "" then Err ScheduleValidationError else Ok s
                   | _ => Err ScheduleValidationError
                   end in
      let? frequency := require_in (py_get p "frequency") VALID_FREQUENCIES in
      let? kg := _validate_kind_and_group_by (py_get p "kind") (py_get p "groupBy") in
      let? days := _validate_cadence frequency (py_get p "dayOfMonth") (py_get p "dayOfWeek") in
      let? t := match py_get p "timeOfDay" with
                | PNone => Err ScheduleValidationError
                | o => parse_hh_mm o
                end in
      let? mode := require_in (py_get p "autonomyMode") VALID_AUTONOMY_MODES in
      let? act := match dget_or p "isActive" (PBool true) with
                  | PBool b => Ok b
                  | _ => Err ScheduleValidationError
                  end in
      let? recipients := _validate_recipients (py_get p "recipients") in
      Ok {| ns_name := strip name; ns_kind := fst kg; ns_group_by := snd kg; ns_frequency := frequency;
            ns_day_of_month := fst days; ns_day_of_week := snd days; ns_time_of_day := t;
            ns_autonomy_mode := mode; ns_is_active := act; ns_recipients := recipients |}
  | _ => Err ScheduleValidationError
  end.

(** The row a patch is laid over. *)
Definition merged_payload (current : NormalizedScheduleInput) : dict string pyobj :=
  [("name", PStr (ns_name current)); ("kind", PStr (ns_kind current));
   ("groupBy", pyopt PStr (ns_group_by current)); ("frequency", PStr (ns_frequency current));
   ("dayOfMonth", pyopt PInt (ns_day_of_month current)); ("dayOfWeek", pyopt PInt (ns_day_of_week current));
   ("timeOfDay", PStr (format_hh_mm (ns_time_of_day current)));
   ("autonomyMode", PStr (ns_autonomy_mode current)); ("isActive", PBool (ns_is_active current))].

Definition wire_keys : list string :=
  ["name"; "kind"; "groupBy"; "frequency"; "dayOfMonth"; "dayOfWeek"; "timeOfDay"; "autonomyMode"; "isActive"].

Definition overlay (patch : list (string * pyobj)) (merged : dict string pyobj) (k : string) : dict string pyobj :=
  match dget patch k with Some v => merged +{ k := v } | None => merged end.

Definition is_str (o : pyobj) (s : string) : bool := match o with PStr x => String.eqb x s | _ => false end.

Definition normalize_patch_payload (patch : pyobj) (current : NormalizedScheduleInput)
  : result schedule_error NormalizedScheduleInput :=
  match patch with
  | PDict p =>
      let merged := foldl (overlay p) (merged_payload current) wire_keys in
      let merged := if is_str (py_get p "frequency") "weekly" && negb (dmem "dayOfMonth" p)
                    then merged +{ "dayOfMonth" := PNone } else merged in
      let merged := if (is_str (py_get p "frequency") "monthly" || is_str (py_get p "frequency") "quarterly")
                       && negb (dmem "dayOfWeek" p)
                    then merged +{ "dayOfWeek" := PNone } else merged in
      normalize_create_payload (PDict (merged +{ "recipients" := dget_or p "recipients" (PList []) }))
  | _ => Err ScheduleValidationError
  end.
