(* ===== verification/ReportTimingFacts.v ===== *)
(** * Report schedules fire when they should

    The calendar's round trip, the exact next run of every cadence across clock
    changes, the periods consecutive runs cover, and what validation accepts. *)

From S2P Require Import Prelude Models Datetime PyText Recurring RecurringFacts ReportTiming.
From Stdlib Require Import ZArith Lia Ascii.
From stdpp Require Import base list strings gmap.

#[local] Open Scope Z_scope.

(** ** Checking a property of all numbers below a bound *)

Definition count_step (check : Z -> bool) (s : bool * Z) : bool * Z := (fst s && check (snd s), snd s + 1).

Definition all_below (check : Z -> bool) (p : positive) : bool := fst (Pos.iter (count_step check) (true, 0) p).

Lemma all_below_spec check p : all_below check p = true -> forall d, 0 <= d < Z.pos p -> check d = true.
Proof.
  assert (snd (Pos.iter (count_step check) (true, 0) p) = Z.pos p
          /\ (all_below check p = true -> forall d, 0 <= d < Z.pos p -> check d = true)) as H; [|apply H].
  induction p as [|p [Hs IH]] using Pos.peano_ind.
  - split; [done|]. intros H d Hd. assert (d = 0) as -> by lia. exact H.
  - unfold all_below in *. rewrite Pos.iter_succ. split; [cbn [count_step snd]; rewrite Hs; lia|].
    cbn [count_step fst]. intros [H1 H2]%andb_true_iff d Hd. rewrite Hs in H2.
    destruct (decide (d = Z.pos p)) as [->|]; [done | apply IH; [done | lia]].
Qed.

(** ** The calendar *)

Lemma era_shift a k : (a + k * 146097) / 146097 = a / 146097 + k /\ (a + k * 146097) mod 146097 = a mod 146097.
Proof. split; [apply Z.div_add | apply Z.mod_add]; lia. Qed.

Lemma civil_of_shift d k y m dd :
  civil_of d = (y, m, dd) -> civil_of (d + k * 146097) = (y + 400 * k, m, dd).
Proof.
  unfold civil_of. replace (d + k * 146097 + 719468) with (d + 719468 + k * 146097) by lia.
  destruct (era_shift (d + 719468) k) as [-> ->]. intros [= <- <- <-]. f_equal. f_equal. lia.
Qed.

Lemma days_of_civil_shift y m d k : days_of_civil (y + 400 * k) m d = days_of_civil y m d + k * 146097.
Proof.
  unfold days_of_civil. assert (forall a, (a + 400 * k) / 400 = a / 400 + k /\ (a + 400 * k) mod 400 = a mod 400) as S.
  { intros a. replace (400 * k) with (k * 400) by lia. split; [apply Z.div_add | apply Z.mod_add]; lia. }
  destruct (m <=? 2).
  - replace (y + 400 * k - 1) with (y - 1 + 400 * k) by lia. destruct (S (y - 1)) as [-> ->]. lia.
  - destruct (S y) as [-> ->]. lia.
Qed.

(** A year of an era starts on March 1st. *)
Definition year_start (yoe : Z) : Z := 365 * yoe + yoe / 4 - yoe / 100.
Definition year_length (yoe : Z) : Z := if is_leap (yoe + 1) then 366 else 365.
Definition year_of_era (doe : Z) : Z := (doe - doe / 1460 + doe / 36524 - doe / 146096) / 365.

Definition year_ok (yoe : Z) : bool :=
  (year_of_era (year_start yoe) =? yoe) && (year_of_era (year_start yoe + year_length yoe - 1) =? yoe)
  && ((year_start (yoe + 1) =? year_start yoe + year_length yoe) || (yoe =? 399))
  && (days_of_civil yoe 3 1 - days_of_civil yoe 2 1 =? days_in_month yoe 2)
  && (0 <=? year_start yoe) && (year_start yoe + year_length yoe <=? 146097).

Lemma year_ok_era : all_below year_ok 400 = true.
Proof. vm_compute. reflexivity. Qed.

Lemma year_spec yoe : 0 <= yoe < 400 ->
  year_of_era (year_start yoe) = yoe /\ year_of_era (year_start yoe + year_length yoe - 1) = yoe
  /\ (year_start (yoe + 1) = year_start yoe + year_length yoe \/ yoe = 399)
  /\ days_of_civil yoe 3 1 - days_of_civil yoe 2 1 = days_in_month yoe 2
  /\ 0 <= year_start yoe /\ year_start yoe + year_length yoe <= 146097.
Proof.
  intros H. pose proof (all_below_spec _ _ year_ok_era yoe H) as E. unfold year_ok in E.
  rewrite !andb_true_iff, orb_true_iff, !Z.eqb_eq, !Z.leb_le in E. tauto.
Qed.

Lemma year_of_era_step d : 0 <= d < 146096 -> year_of_era d <= year_of_era (d + 1).
Proof.
  intros H. unfold year_of_era. apply Z.div_le_mono; [lia|].
  rewrite (Z.div_small d 146096) by lia.
  destruct (decide (d + 1 = 146096)) as [E|].
  - replace d with 146095 by lia. vm_compute. discriminate.
  - rewrite (Z.div_small (d + 1) 146096) by lia. Z.to_euclidean_division_equations. lia.
Qed.

Lemma year_of_era_mono a b : 0 <= a <= b -> b < 146097 -> year_of_era a <= year_of_era b.
Proof.
  intros H. replace b with (a + Z.of_nat (Z.to_nat (b - a))) by lia. generalize (Z.to_nat (b - a)).
  induction n as [|n IH]; intros Hb; [rewrite Z.add_0_r; lia|].
  replace (a + Z.of_nat (S n)) with (a + Z.of_nat n + 1) by lia.
  etrans; [apply IH; lia | apply year_of_era_step; lia].
Qed.

Lemma year_of_era_spec doe : 0 <= doe < 146097 ->
  0 <= year_of_era doe < 400 /\ 0 <= doe - year_start (year_of_era doe) < year_length (year_of_era doe).
Proof.
  intros H. pose proof (year_of_era_mono 0 doe ltac:(lia) ltac:(lia)) as L.
  pose proof (year_of_era_mono doe 146096 ltac:(lia) ltac:(lia)) as U.
  change (year_of_era 0) with 0 in L. change (year_of_era 146096) with 399 in U.
  split; [lia|]. remember (year_of_era doe) as y eqn:Ey.
  destruct (year_spec y ltac:(lia)) as (Y1 & Y2 & Y3 & _ & B).
  destruct (Z.lt_ge_cases doe (year_start y)) as [C|C].
  - assert (0 < y).
    { destruct (decide (y = 0)) as [E|]; [|lia]. rewrite E in C. change (year_start 0) with 0 in C. lia. }
    destruct (year_spec (y - 1) ltac:(lia)) as (_ & Z2 & Z3 & _ & B'). replace (y - 1 + 1) with y in Z3 by lia.
    pose proof (year_of_era_mono doe (year_start (y - 1) + year_length (y - 1) - 1) ltac:(lia) ltac:(lia)). lia.
  - split; [lia|]. destruct (Z.lt_ge_cases doe (year_start y + year_length y)) as [D|D]; [lia|exfalso].
    destruct Y3 as [Y3|E]; [|rewrite E in D; change (year_start 399 + year_length 399) with 146097 in D; lia].
    assert (y + 1 < 400). { destruct (decide (y = 399)) as [E|]; [|lia]. rewrite E in D.
      change (year_start 399 + year_length 399) with 146097 in D. lia. }
    destruct (year_spec (y + 1) ltac:(lia)) as (Z1 & _ & _ & _ & B2).
    pose proof (year_of_era_mono (year_start (y + 1)) doe ltac:(lia) ltac:(lia)). lia.
Qed.

(** Month and day of a day of the year that starts in March. *)
Definition doy_ok (leap : bool) (doy : Z) : bool :=
  let mp := (5 * doy + 2) / 153 in
  let day := doy - (153 * mp + 2) / 5 + 1 in
  let month := if mp <? 10 then mp + 3 else mp - 9 in
  ((153 * ((month + 9) mod 12) + 2) / 5 + day - 1 =? doy) && (1 <=? month) && (month <=? 12) && (1 <=? day)
  && (day <=? (if month =? 2 then (if leap then 29 else 28)
               else if (month =? 4) || (month =? 6) || (month =? 9) || (month =? 11) then 30 else 31)).

Lemma doy_ok_year : all_below (doy_ok true) 366 = true /\ all_below (doy_ok false) 365 = true.
Proof. split; vm_compute; reflexivity. Qed.

Lemma doy_spec (leap : bool) doy : 0 <= doy < (if leap then 366 else 365) -> doy_ok leap doy = true.
Proof. destruct doy_ok_year as [T F]. destruct leap; [apply (all_below_spec _ _ T) | apply (all_below_spec _ _ F)]. Qed.

Lemma is_leap_shift y k : is_leap (y + 400 * k) = is_leap y.
Proof.
  unfold is_leap.
  replace ((y + 400 * k) mod 4) with (y mod 4) by (replace (400 * k) with (100 * k * 4) by lia; by rewrite Z.mod_add).
  replace ((y + 400 * k) mod 100) with (y mod 100) by (replace (400 * k) with (4 * k * 100) by lia; by rewrite Z.mod_add).
  replace ((y + 400 * k) mod 400) with (y mod 400) by (replace (400 * k) with (k * 400) by lia; by rewrite Z.mod_add).
  done.
Qed.

Lemma days_in_month_shift y m k : days_in_month (y + 400 * k) m = days_in_month y m.
Proof. unfold days_in_month. by rewrite is_leap_shift. Qed.

Lemma civil_of_spec d y m dd :
  civil_of d = (y, m, dd) -> days_of_civil y m dd = d /\ 1 <= m <= 12 /\ 1 <= dd <= days_in_month y m.
Proof.
  unfold civil_of. set (era := (d + 719468) / 146097). set (doe := (d + 719468) mod 146097).
  assert (d = era * 146097 + doe - 719468) as Ed
    by (unfold era, doe; pose proof (Z.div_mod (d + 719468) 146097 ltac:(lia)); lia).
  pose proof (Z.mod_pos_bound (d + 719468) 146097 ltac:(lia)) as Hd. fold doe in Hd. clearbody era doe.
  destruct (year_of_era_spec doe Hd) as [Hy Ho]. fold (year_of_era doe). set (yoe := year_of_era doe) in *.
  clearbody yoe. change (365 * yoe + yoe / 4 - yoe / 100) with (year_start yoe). set (doy := doe - year_start yoe) in *.
  pose proof (doy_spec (is_leap (yoe + 1)) doy) as Hk. unfold doy_ok in Hk.
  unfold year_length in Ho. specialize (Hk ltac:(destruct (is_leap (yoe + 1)); lia)).
  set (mp := (5 * doy + 2) / 153) in *. set (month := if mp <? 10 then mp + 3 else mp - 9) in *.
  set (day := doy - (153 * mp + 2) / 5 + 1) in *. intros [= <- <- <-].
  rewrite !andb_true_iff, Z.eqb_eq, !Z.leb_le in Hk. destruct Hk as [[[[K1 K2] K3] K4] K5].
  split; [|split; [lia|]].
  - unfold days_of_civil. replace (if month <=? 2 then _ else _) with (yoe + era * 400) by (destruct (month <=? 2); lia).
    rewrite Z.div_add, Z.mod_add, Z.div_small, Z.mod_small by lia. unfold year_start in doy. lia.
  - split; [lia|]. unfold days_in_month. destruct (Z.eqb_spec month 2) as [E|E]; [|done].
    rewrite E. change (2 <=? 2) with true. cbv iota.
    replace (yoe + era * 400 + 1) with (yoe + 1 + 400 * era) by lia. by rewrite is_leap_shift.
Qed.

(** Months in a row: [12 * year + month - 1]. *)
Definition month_start (k : Z) : Z := days_of_civil (k / 12) (k mod 12 + 1) 1.

Definition month_length (k : Z) : Z := days_in_month (k / 12) (k mod 12 + 1).

Lemma february y : days_of_civil y 3 1 = days_of_civil y 2 1 + days_in_month y 2.
Proof.
  replace y with (y mod 400 + 400 * (y / 400)) by (pose proof (Z.div_mod y 400 ltac:(lia)); lia).
  rewrite !days_of_civil_shift, days_in_month_shift.
  destruct (year_spec (y mod 400) (Z.mod_pos_bound y 400 ltac:(lia))) as (_ & _ & _ & H & _). lia.
Qed.

Definition year_base (y : Z) : Z := y / 400 * 146097 + (y mod 400 * 365 + y mod 400 / 4 - y mod 400 / 100).
Definition month_base (m : Z) : Z := (153 * ((m + 9) mod 12) + 2) / 5 - 719468.

Lemma days_of_civil_base y m d :
  days_of_civil y m d = year_base (if m <=? 2 then y - 1 else y) + month_base m + d - 1.
Proof. unfold days_of_civil, year_base, month_base. lia. Qed.

Lemma month_spec k : month_start (k + 1) = month_start k + month_length k /\ 28 <= month_length k.
Proof.
  pose proof (Z.mod_pos_bound k 12 ltac:(lia)) as B. pose proof (Z.div_mod k 12 ltac:(lia)) as D.
  set (y := k / 12) in *. set (r := k mod 12) in *.
  assert ((k + 1) / 12 = (if r =? 11 then y + 1 else y) /\ (k + 1) mod 12 = (if r =? 11 then 0 else r + 1)) as [E1 E2].
  { destruct (Z.eqb_spec r 11) as [E|E].
    - replace (k + 1) with (0 + (y + 1) * 12) by lia. rewrite Z.div_add, Z.mod_add by lia. split; [change (0 / 12) with 0; lia | done].
    - replace (k + 1) with (r + 1 + y * 12) by lia. rewrite Z.div_add, Z.mod_add by lia.
      rewrite Z.div_small, Z.mod_small by lia. lia. }
  unfold month_start, month_length. rewrite E1, E2. fold y r. clearbody y r. clear D E1 E2.
  assert (r = 0 \/ r = 1 \/ r = 2 \/ r = 3 \/ r = 4 \/ r = 5 \/ r = 6 \/ r = 7 \/ r = 8 \/ r = 9 \/ r = 10 \/ r = 11) as C by lia.
  destruct (decide (r = 1)) as [->|].
  { split; [apply february|]. unfold days_in_month. change (1 + 1 =? 2) with true. cbv iota. destruct (is_leap y); lia. }
  split; [|unfold days_in_month; repeat case_match; lia].
  repeat destruct C as [C|C]; subst r; try done;
    rewrite !days_of_civil_base; unfold days_in_month; rewrite ?Z.add_simpl_r;
    repeat match goal with
    | |- context [month_base ?m] => let v := eval vm_compute in (month_base m) in change (month_base m) with v
    | |- context [?a <=? 2] => let v := eval vm_compute in (a <=? 2) in change (a <=? 2) with v
    | |- context [?a =? ?b] => let v := eval vm_compute in (a =? b) in change (a =? b) with v
    end; cbv beta iota; simpl orb; cbv iota; rewrite ?Z.add_simpl_r; lia.
Qed.

Lemma month_start_lt j k : j < k -> month_start j + month_length j <= month_start k.
Proof.
  intros H. replace k with (j + 1 + Z.of_nat (Z.to_nat (k - j - 1))) by lia.
  generalize (Z.to_nat (k - j - 1)). intros n. induction n as [|n IH].
  - rewrite Z.add_0_r. destruct (month_spec j) as [-> _]. lia.
  - replace (j + 1 + Z.of_nat (S n)) with (j + 1 + Z.of_nat n + 1) by lia.
    destruct (month_spec (j + 1 + Z.of_nat n)) as [-> ?]. lia.
Qed.

Lemma index_split y m : 1 <= m <= 12 -> (12 * y + m - 1) / 12 = y /\ (12 * y + m - 1) mod 12 + 1 = m.
Proof.
  intros H. replace (12 * y + m - 1) with (m - 1 + y * 12) by lia. rewrite Z.div_add, Z.mod_add by lia.
  rewrite Z.div_small, Z.mod_small by lia. lia.
Qed.

Lemma days_of_civil_day y m d : days_of_civil y m d = days_of_civil y m 1 + d - 1.
Proof. unfold days_of_civil. lia. Qed.

Lemma days_of_civil_month y m d : 1 <= m <= 12 -> days_of_civil y m d = month_start (12 * y + m - 1) + d - 1.
Proof.
  intros H. unfold month_start. destruct (index_split y m H) as [-> ->]. apply days_of_civil_day.
Qed.

(** The month a date lies in. *)
Definition month_of (d : Z) : Z := let '(y, m, _) := civil_of d in 12 * y + m - 1.

Lemma month_of_civil d y m dd : civil_of d = (y, m, dd) -> month_of d = 12 * y + m - 1.
Proof. intros E. unfold month_of. by rewrite E. Qed.

Lemma month_of_bounds d : month_start (month_of d) <= d < month_start (month_of d) + month_length (month_of d).
Proof.
  destruct (civil_of d) as [[y m] dd] eqn:E. rewrite (month_of_civil _ _ _ _ E). apply civil_of_spec in E as (E & Hm & Hd).
  rewrite days_of_civil_month in E by done. unfold month_length. destruct (index_split y m Hm) as [-> ->]. lia.
Qed.

Lemma month_of_unique d k : month_start k <= d < month_start k + month_length k -> month_of d = k.
Proof.
  intros H. pose proof (month_of_bounds d). destruct (Z.lt_trichotomy (month_of d) k) as [L|[L|L]]; [|done|];
    apply month_start_lt in L; lia.
Qed.

Lemma civil_in_month k d : 1 <= d <= month_length k -> civil_of (month_start k + d - 1) = (k / 12, k mod 12 + 1, d).
Proof.
  intros H. destruct (civil_of (month_start k + d - 1)) as [[y m] dd] eqn:E.
  pose proof (month_of_unique (month_start k + d - 1) k ltac:(lia)) as M. rewrite (month_of_civil _ _ _ _ E) in M.
  apply civil_of_spec in E as (E & Hm & Hd). rewrite days_of_civil_month in E by done.
  destruct (index_split y m Hm) as [Hy Hm']. rewrite M in E, Hy, Hm'.
  assert (y = k / 12) as -> by lia. assert (m = k mod 12 + 1) as -> by lia. assert (dd = d) as -> by lia. done.
Qed.

#[local] Opaque civil_of days_of_civil month_start.

Lemma make_date_ok k d : 1 <= d <= 28 -> make_date (k / 12) (k mod 12 + 1) d = Ok (month_start k + d - 1).
Proof.
  intros H. pose proof (Z.mod_pos_bound k 12 ltac:(lia)). destruct (month_spec k) as [_ L]. unfold month_length in L.
  unfold make_date. rewrite !(proj2 (Z.leb_le _ _)) by lia. cbn [andb]. f_equal.
  rewrite days_of_civil_month by lia. f_equal. f_equal. f_equal. pose proof (Z.div_mod k 12 ltac:(lia)). lia.
Qed.

(** ** Clock changes

    What the code relies on of a zone: wall-clock values of an earlier local
    date lie before an instant, those of a later date after it. It holds unless a
    clock change skips or repeats midnight. *)

Class ReportZone (z : tz) : Prop := {
  zone_earlier : forall w u, date_of w < date_of (to_local z u) -> from_local z w < u;
  zone_later : forall w u, date_of (to_local z u) < date_of w -> u < from_local z w
}.

(** The wall-clock time a schedule fires at, and the instant on a date. *)
Definition tod (t : Z) : Z := hour_of t * hour_us + minute_of t * minute_us.
Definition slot (z : tz) (d t : Z) : Z := from_local z (dt_combine d (tod t)).

Lemma tod_range t : 0 <= tod t < day_us.
Proof.
  unfold tod. pose proof (hour_range t). assert (0 <= minute_of t < 60) by (apply Z.mod_pos_bound; lia).
  unfold day_us, hour_us, minute_us, usec in *. lia.
Qed.

Lemma slot_date d t : date_of (dt_combine d (tod t)) = d.
Proof. apply date_of_combine, tod_range. Qed.

Section Zone.
Context (z : tz) `{ReportZone z} (t : Z).

Lemma slot_before d u : d < date_of (to_local z u) -> slot z d t < u.
Proof. intros. apply zone_earlier. by rewrite slot_date. Qed.

Lemma slot_after d u : date_of (to_local z u) < d -> u < slot z d t.
Proof. intros. apply zone_later. by rewrite slot_date. Qed.

Lemma slot_local d : date_of (to_local z (slot z d t)) = d.
Proof.
  destruct (Z.lt_trichotomy (date_of (to_local z (slot z d t))) d) as [L|[L|L]]; [|done|].
  - apply slot_after in L. lia.
  - apply slot_before in L. lia.
Qed.

Lemma slot_lt d d' : d < d' -> slot z d t < slot z d' t.
Proof. intros. apply slot_before. by rewrite slot_local. Qed.

Lemma slot_le d d' : d <= d' -> slot z d t <= slot z d' t.
Proof. intros. destruct (decide (d = d')) as [->|]; [done|]. apply Z.lt_le_incl, slot_lt. lia. Qed.
End Zone.

(** ** The cadence *)

Definition quarter_month (k : Z) : bool := bool_decide (k mod 12 + 1 ∈ _QUARTER_MONTHS).

(** Whether a schedule fires on a date. *)
Definition fires_on (frequency : string) (day_of_month day_of_week : option Z) (d : Z) : Prop :=
  if String.eqb frequency "weekly" then exists dow, day_of_week = Some dow /\ weekday d = (dow - 1) mod 7
  else exists dom, day_of_month = Some dom /\ d = month_start (month_of d) + dom - 1
       /\ (String.eqb frequency "monthly" || quarter_month (month_of d) = true).

Definition cadence_ok (frequency : string) (day_of_month day_of_week : option Z) : Prop :=
  (frequency = "weekly" /\ exists dow, day_of_week = Some dow /\ 0 <= dow <= 6)%string
  \/ ((frequency = "monthly" \/ frequency = "quarterly")%string /\ exists dom, day_of_month = Some dom /\ 1 <= dom <= 28).

Lemma localize_date_ok z d t : localize_date z d t = Ok (slot z d t).
Proof.
  unfold localize_date. destruct (civil_of d) as [[y m] dd] eqn:E. apply civil_of_spec in E as (E & Hm & Hd).
  unfold _localize_to_utc, make_date. rewrite !(proj2 (Z.leb_le _ _)) by lia. cbn [andb rbind]. by rewrite E.
Qed.

(** [r] is the first firing after [now]. *)
Definition next_firing (z : tz) (t now : Z) (fires : Z -> Prop) (r : Z) : Prop :=
  exists d, fires d /\ r = slot z d t /\ now < r
    /\ forall d', fires d' -> now < slot z d' t -> d <= d' /\ r <= slot z d' t.

Lemma weekly_spec z t now dow :
  ReportZone z ->
  exists r, _next_weekly z now dow t = Ok r /\ next_firing z t now (fires_on "weekly" None (Some dow)) r.
Proof.
  intros Hz. unfold _next_weekly. set (today := date_of (to_local z now)).
  set (ahead := (_spec_dow_to_python dow - weekday today) mod 7). cbn zeta. rewrite !localize_date_ok. cbn [rbind].
  pose proof (Z.mod_pos_bound (_spec_dow_to_python dow - weekday today) 7 ltac:(lia)) as Ha. fold ahead in Ha.
  assert (forall d, weekday d = (dow - 1) mod 7 <-> (d - today - ahead) mod 7 = 0) as Hw.
  { intros d. unfold weekday. unfold ahead, _spec_dow_to_python, weekday. Z.to_euclidean_division_equations. lia. }
  assert (forall d, fires_on "weekly" None (Some dow) d <-> (d - today - ahead) mod 7 = 0) as Hf.
  { intros d. rewrite <- Hw. unfold fires_on. cbn. split; [intros (x & [= <-] & E); done | by exists dow]. }
  assert (forall d', fires_on "weekly" None (Some dow) d' -> now < slot z d' t -> today + ahead <= d') as Hmin.
  { intros d' F%Hf Hn. destruct (Z.lt_ge_cases d' today) as [L|L].
    - apply (slot_before z t) in L. lia.
    - Z.to_euclidean_division_equations. lia. }
  destruct (Z.leb_spec (slot z (today + ahead) t) now) as [L|L]; eexists; (split; [done|]).
  - exists (today + ahead + 7). split_and!.
    + apply Hf. by replace (today + ahead + 7 - today - ahead) with 7 by lia.
    + done.
    + apply (slot_after z t). fold today. lia.
    + intros d' F Hn. enough (today + ahead + 7 <= d') by (split; [done | by apply slot_le]).
      pose proof (Hmin d' F Hn). apply Hf in F.
      destruct (decide (d' = today + ahead)) as [->|]; [lia|]. Z.to_euclidean_division_equations. lia.
  - exists (today + ahead). split_and!; [| done | done |].
    + apply Hf. by replace (today + ahead - today - ahead) with 0 by lia.
    + intros d' F Hn. split; [by apply Hmin | apply slot_le; [done | by apply Hmin]].
Qed.

(** The scan over months finds the first month that qualifies. *)
Section Scan.
Context (z : tz) `{ReportZone z} (t now dom : Z) (allowed : option (list Z)).
Context (Hdom : 1 <= dom <= 28).

Definition allowed_month (k : Z) : bool :=
  match allowed with None => true | Some l => bool_decide (k mod 12 + 1 ∈ l) end.

Definition qualifies (k : Z) : bool := allowed_month k && (now <? slot z (month_start k + dom - 1) t).

Lemma month_index_succ k :
  (if 12 <? k mod 12 + 1 + 1 then ((k / 12 + 1), 1) else (k / 12, k mod 12 + 1 + 1)) = ((k + 1) / 12, (k + 1) mod 12 + 1).
Proof.
  pose proof (Z.mod_pos_bound k 12 ltac:(lia)). destruct (Z.ltb_spec 12 (k mod 12 + 1 + 1)); f_equal;
    Z.to_euclidean_division_equations; lia.
Qed.

Lemma scan_step fuel k :
  scan_months z now dom t allowed (S fuel) (k / 12) (k mod 12 + 1) =
  if qualifies k then Ok (slot z (month_start k + dom - 1) t)
  else scan_months z now dom t allowed fuel ((k + 1) / 12) ((k + 1) mod 12 + 1).
Proof.
  cbn [scan_months]. pose proof (month_index_succ k) as E.
  replace (if 12 <? k mod 12 + 1 + 1 then scan_months z now dom t allowed fuel (k / 12 + 1) 1
           else scan_months z now dom t allowed fuel (k / 12) (k mod 12 + 1 + 1))
    with (scan_months z now dom t allowed fuel ((k + 1) / 12) ((k + 1) mod 12 + 1))
    by (destruct (12 <? k mod 12 + 1 + 1); by injection E as <- <-).
  unfold qualifies, allowed_month. destruct (match allowed with None => true | Some l => _ end); [|done].
  unfold _localize_to_utc. rewrite make_date_ok by done. cbn [rbind andb]. done.
Qed.

Lemma scan_spec fuel k j :
  k <= j < k + Z.of_nat fuel -> qualifies j = true ->
  exists i, k <= i <= j /\ qualifies i = true /\ (forall i', k <= i' < i -> qualifies i' = false)
    /\ scan_months z now dom t allowed fuel (k / 12) (k mod 12 + 1) = Ok (slot z (month_start i + dom - 1) t).
Proof.
  revert k. induction fuel as [|fuel IH]; intros k Hk Hq; [lia|]. rewrite scan_step.
  destruct (qualifies k) eqn:E.
  - exists k. split_and!; [lia | lia | done | lia | done].
  - assert (k <> j) by congruence. destruct (IH (k + 1)) as (i & Hi & Q & M & ->); [lia | done |].
    exists i. split_and!; [lia | lia | done | | done].
    intros i' Hi'. destruct (decide (i' = k)) as [->|]; [done | apply M; lia].
Qed.

Lemma by_month_spec k0 (fires : Z -> Prop) :
  k0 = month_of (date_of (to_local z now)) ->
  (forall d, fires d <-> d = month_start (month_of d) + dom - 1 /\ allowed_month (month_of d) = true) ->
  (exists j, k0 < j <= k0 + 3 /\ allowed_month j = true) ->
  exists r, _next_by_month z now dom t allowed = Ok r /\ next_firing z t now fires r.
Proof.
  intros -> Hf (j & Hj & Aj). set (today := date_of (to_local z now)) in *.
  assert (forall k, month_of (month_start k + dom - 1) = k) as Hm.
  { intros k. apply month_of_unique. destruct (month_spec k). lia. }
  assert (forall a b, a < b -> month_start a + dom - 1 < month_start b + dom - 1) as Hlt.
  { intros a b L. apply month_start_lt in L. destruct (month_spec a). lia. }
  pose proof (month_of_bounds today) as Hb. destruct (civil_of today) as [[y m] dd] eqn:E.
  pose proof (month_of_civil _ _ _ _ E) as Em. apply civil_of_spec in E as E'. destruct E' as (_ & Hr & _).
  destruct (index_split y m Hr) as [Iy Im]. rewrite <- Em in Iy, Im.
  destruct (scan_spec 60 (month_of today) j) as (i & Hi & Qi & Mi & Si); [lia | |].
  { unfold qualifies. rewrite Aj. cbn [andb]. apply Z.ltb_lt, (slot_after z t). fold today.
    destruct Hj as [Hj _]. apply month_start_lt in Hj. lia. }
  exists (slot z (month_start i + dom - 1) t). split.
  { unfold _next_by_month. fold today. rewrite E. rewrite <- Iy, <- Im at 1. exact Si. }
  unfold qualifies in Qi. apply andb_true_iff in Qi as [Ai Li%Z.ltb_lt].
  exists (month_start i + dom - 1). split_and!; [apply Hf; by rewrite Hm | done | done |].
  intros d' [F A]%Hf Hn. enough (i <= month_of d') as L.
  { assert (month_start i + dom - 1 <= d') by (destruct (decide (i = month_of d')) as [->|]; [lia | pose proof (Hlt i (month_of d')); lia]).
    split; [done | by apply slot_le]. }
  destruct (Z.lt_ge_cases (month_of d') i) as [L|]; [exfalso|done].
  destruct (Z.lt_ge_cases (month_of d') (month_of today)) as [L'|L'].
  - pose proof (month_of_bounds d'). apply month_start_lt in L'.
    pose proof (slot_before z t d' now ltac:(fold today; lia)). lia.
  - specialize (Mi (month_of d') ltac:(lia)). unfold qualifies in Mi. rewrite A in Mi. cbn [andb] in Mi.
    apply Z.ltb_ge in Mi. rewrite <- F in Mi. lia.
Qed.
End Scan.

Lemma quarter_month_iff k : quarter_month k = true <-> k mod 3 = 0.
Proof.
  unfold quarter_month, _QUARTER_MONTHS. rewrite bool_decide_eq_true, !elem_of_cons, elem_of_nil.
  pose proof (Z.mod_pos_bound k 12 ltac:(lia)). split; intros Q; Z.to_euclidean_division_equations; lia.
Qed.

Lemma next_run_spec z now frequency t dom dow :
  ReportZone z -> cadence_ok frequency dom dow ->
  exists r, compute_next_run_at (aware_utc now) frequency t (Some z) dom dow = Ok r
    /\ next_firing z t now (fires_on frequency dom dow) r.
Proof.
  intros Hz [(-> & n & -> & Hn)|(Hf & n & -> & Hn)].
  - cbn. destruct (weekly_spec z t now n Hz) as (r & E & d & F & Hr). exists r. split; [done|]. exists d.
    unfold fires_on in *. cbn in *. done.
  - set (allowed := if String.eqb frequency "monthly" then None else Some _QUARTER_MONTHS).
    destruct (by_month_spec z t now n allowed Hn _ (fires_on frequency (Some n) dow) eq_refl) as (r & E & N).
    + intros d. unfold fires_on, allowed_month, allowed, quarter_month. destruct Hf as [-> | ->]; cbn;
        (split; [intros (? & [= <-] & ? & ?); done | intros []; by exists n]).
    + unfold allowed_month, allowed. destruct Hf as [-> | ->]; cbn.
      * eexists. split; [|done]. split; [|apply Z.le_refl]. lia.
      * set (k := month_of _). exists (k + 3 - k mod 3). pose proof (Z.mod_pos_bound k 3 ltac:(lia)).
        split; [lia|]. apply quarter_month_iff. Z.to_euclidean_division_equations. lia.
    + exists r. split; [|done]. destruct Hf as [-> | ->]; exact E.
Qed.

(** ** Validation *)

Lemma require_in_spec o s x : require_in o s = Ok x -> o = PStr x /\ x ∈ s.
Proof.
  unfold require_in, in_set. destruct o; cbn; try done. case_bool_decide as E; cbn; [|done].
  intros [= ->]. done.
Qed.

Lemma require_in_ok x s : x ∈ s -> require_in (PStr x) s = Ok x.
Proof. intros H. unfold require_in, in_set. by rewrite bool_decide_true. Qed.

Lemma int_in_spec o lo hi n : int_in o lo hi = Ok n -> o = PInt n /\ lo <= n <= hi.
Proof.
  unfold int_in. destruct o; try done. destruct ((lo <=? z) && (z <=? hi)) eqn:E; [|done].
  apply andb_true_iff in E as [?%Z.leb_le ?%Z.leb_le]. by intros [= <-].
Qed.

Lemma cadence_spec frequency a b dom dow :
  frequency ∈ VALID_FREQUENCIES -> _validate_cadence frequency a b = Ok (dom, dow) ->
  cadence_ok frequency dom dow /\ a = pyopt PInt dom /\ b = pyopt PInt dow
  /\ (frequency = "weekly"%string -> dom = None) /\ (frequency <> "weekly"%string -> dow = None).
Proof.
  unfold _validate_cadence, VALID_FREQUENCIES. rewrite !elem_of_cons, elem_of_nil. intros Hf H.
  destruct (String.eqb_spec frequency "weekly") as [->|N].
  - inv_ok. apply int_in_spec in Hm as [-> ?]. destruct a; try done. injection H as <- <-.
    split; [left; eauto | done].
  - inv_ok. apply int_in_spec in Hm as [-> ?]. destruct b; try done. injection H as <- <-.
    split; [right; split; [tauto | eauto] | done].
Qed.

(** Keys in order of their position; addresses are compared without case. *)
Definition recipient_key (r : NormalizedRecipient) : string * string := (py_lower (nr_email r), nr_format r).

Lemma validate_each_spec position seen raw l :
  validate_each position seen raw = Ok l ->
  NoDup (map recipient_key l) /\ (forall r, r ∈ l -> recipient_key r ∉ seen /\ nr_format r ∈ VALID_FORMATS)
  /\ map nr_position l = map (fun i => position + Z.of_nat i) (seq 0 (length raw)).
Proof.
  revert position seen l. induction raw as [|o raw IH]; intros position seen l Hv; cbn [validate_each] in Hv.
  { inv_ok. split_and!; [constructor | by intros r ?%not_elem_of_nil | done]. }
  destruct o; try done. inv_ok. apply require_in_spec in Hm0 as [_ Hfmt]. case_bool_decide as Hs; [done|]. inv_ok.
  apply IH in Hm0 as (Hnd & Hin & Hp). split_and!.
  - cbn [map]. apply NoDup_cons. split; [|done]. intros (r & E & Hr)%list_elem_of_fmap.
    apply Hin in Hr as [Hr _]. apply Hr. rewrite <- E. apply elem_of_app. right. by apply list_elem_of_singleton.
  - intros r [->|Hr]%elem_of_cons; [done|]. apply Hin in Hr as [Hr ?]. split; [|done].
    intros C. apply Hr, elem_of_app. by left.
  - cbn [map length seq]. f_equal; [cbn; lia|]. rewrite Hp, <- seq_shift, map_map.
    apply map_ext. intros a. lia.
Qed.

(** A schedule as the table holds it. *)
Definition schedule_ok (n : NormalizedScheduleInput) : Prop :=
  ns_name n <> ""%string /\ strip (ns_name n) = ns_name n /\ ns_kind n ∈ VALID_KINDS
  /\ (ns_kind n = "monthly_consumption"%string -> ns_group_by n <> None)
  /\ (forall g, ns_group_by n = Some g -> g ∈ VALID_GROUP_BY)
  /\ ns_frequency n ∈ VALID_FREQUENCIES /\ cadence_ok (ns_frequency n) (ns_day_of_month n) (ns_day_of_week n)
  /\ (ns_frequency n = "weekly"%string -> ns_day_of_month n = None)
  /\ (ns_frequency n <> "weekly"%string -> ns_day_of_week n = None)
  /\ tod (ns_time_of_day n) = ns_time_of_day n
  /\ ns_autonomy_mode n ∈ VALID_AUTONOMY_MODES
  /\ NoDup (map recipient_key (ns_recipients n))
  /\ (forall r, r ∈ ns_recipients n -> nr_format r ∈ VALID_FORMATS)
  /\ map nr_position (ns_recipients n) = map Z.of_nat (seq 0 (length (ns_recipients n))).

Lemma drop_spaces_idem l : drop_spaces (drop_spaces l) = drop_spaces l.
Proof. induction l as [|c l IH]; [done|]. cbn. destruct (is_space c) eqn:E; [done|]. cbn. by rewrite E. Qed.

Lemma drop_spaces_suffix l : exists p, l = p ++ drop_spaces l.
Proof.
  induction l as [|c l [p IH]]; [by exists []|]. cbn. destruct (is_space c); [exists (c :: p); cbn; by f_equal | by exists []].
Qed.

Lemma drop_spaces_head l : match drop_spaces l with c :: _ => is_space c = false | [] => True end.
Proof. induction l as [|c l IH]; [done|]. cbn. destruct (is_space c) eqn:E; [done | done]. Qed.

(** Dropping at the end keeps a list that does not start with a space so. *)
Lemma drop_spaces_rev l :
  drop_spaces l = l -> drop_spaces (reverse (drop_spaces (reverse l))) = reverse (drop_spaces (reverse l)).
Proof.
  intros Hl. destruct (drop_spaces_suffix (reverse l)) as [p Hp]. set (q := drop_spaces (reverse l)) in *.
  assert (l = reverse q ++ reverse p) as E by (rewrite <- reverse_app, <- Hp, reverse_involutive; done).
  destruct (reverse q) as [|c r] eqn:Eq; [done|]. cbn. cbn in E.
  pose proof (drop_spaces_head l) as Hh. rewrite Hl, E in Hh. by rewrite Hh.
Qed.

Lemma strip_idem s : strip (strip s) = strip s.
Proof.
  unfold strip. rewrite String.list_ascii_of_string_of_list_ascii. f_equal. f_equal.
  set (l := drop_spaces (String.list_ascii_of_string s)).
  rewrite (drop_spaces_rev l) by apply drop_spaces_idem. by rewrite reverse_involutive, drop_spaces_idem.
Qed.

(** ** Times of day *)

Definition digit (n : Z) : ascii := ascii_of_nat (Z.to_nat (48 + n)).
Definition two_digits (n : Z) : string := String (digit (n / 10)) (String (digit (n mod 10)) "").

Definition two_ok (n : Z) : bool :=
  bool_decide (py_int (two_digits n) = Some n) && bool_decide (zero_padded 2 n = two_digits n)
  && all_digits (two_digits n) && negb (existsb (Ascii.eqb ":") (String.list_ascii_of_string (two_digits n))).

Lemma two_ok_all : all_below two_ok 100 = true.
Proof. vm_compute. reflexivity. Qed.

Lemma two_spec n : 0 <= n < 100 ->
  py_int (two_digits n) = Some n /\ zero_padded 2 n = two_digits n /\ all_digits (two_digits n) = true
  /\ ":"%char ∉ String.list_ascii_of_string (two_digits n).
Proof.
  intros Hn. pose proof (all_below_spec _ _ two_ok_all n Hn) as E. unfold two_ok in E.
  rewrite !andb_true_iff, !bool_decide_eq_true, negb_true_iff in E. destruct E as [[[E1 E2] E3] E4].
  split_and!; try done. intros C. apply list_elem_of_In in C.
  enough (existsb (Ascii.eqb ":") (String.list_ascii_of_string (two_digits n)) = true) by congruence.
  apply existsb_exists. exists ":"%char. split; [done | apply Ascii.eqb_refl].
Qed.

Definition digit_ok (c : Z) : bool :=
  let a := ascii_of_nat (Z.to_nat c) in
  negb (is_digit a) || ((48 <=? c) && (c <=? 57)).

Lemma digit_ok_all : all_below digit_ok 256 = true.
Proof. vm_compute. reflexivity. Qed.

Lemma digit_spec c : is_digit c = true -> exists n, 0 <= n < 10 /\ c = digit n.
Proof.
  intros Hc. pose proof (nat_ascii_bounded c) as B.
  pose proof (all_below_spec _ _ digit_ok_all (Z.of_nat (nat_of_ascii c)) ltac:(lia)) as E.
  unfold digit_ok in E. rewrite Nat2Z.id, ascii_nat_embedding, Hc in E. cbn [negb orb] in E.
  apply andb_true_iff in E as [?%Z.leb_le ?%Z.leb_le].
  exists (Z.of_nat (nat_of_ascii c) - 48). split; [lia|]. unfold digit.
  replace (Z.to_nat (48 + (Z.of_nat (nat_of_ascii c) - 48))) with (nat_of_ascii c) by lia.
  by rewrite ascii_nat_embedding.
Qed.

Lemma two_digits_of s : String.length s = 2%nat -> all_digits s = true -> exists n, 0 <= n < 100 /\ s = two_digits n.
Proof.
  destruct s as [|a [|b [|]]]; try done. intros _ H. unfold all_digits in H. cbn in H.
  rewrite !andb_true_iff in H. destruct H as [Ha [Hb _]].
  apply digit_spec in Ha as (x & Hx & ->). apply digit_spec in Hb as (y & Hy & ->).
  exists (10 * x + y). split; [lia|]. unfold two_digits.
  replace ((10 * x + y) / 10) with x by (Z.to_euclidean_division_equations; lia).
  replace ((10 * x + y) mod 10) with y by (Z.to_euclidean_division_equations; lia). done.
Qed.

Lemma split_two h m : 0 <= h < 100 -> 0 <= m < 100 ->
  split_on ":"%char (two_digits h +:+ ":" +:+ two_digits m) = [two_digits h; two_digits m].
Proof.
  intros Hh Hm. destruct (two_spec h Hh) as (_ & _ & _ & Ch). destruct (two_spec m Hm) as (_ & _ & _ & Cm).
  change (":" +:+ two_digits m) with (String ":"%char (two_digits m)).
  rewrite split_on_app by done. by rewrite split_on_none by done.
Qed.

Lemma tod_parts h m : 0 <= h < 24 -> 0 <= m < 60 ->
  hour_of (h * hour_us + m * minute_us) = h /\ minute_of (h * hour_us + m * minute_us) = m.
Proof.
  intros Hh Hm. unfold hour_of, minute_of, time_of.
  rewrite (Z.mod_small _ day_us) by (unfold day_us, hour_us, minute_us, usec; lia).
  unfold hour_us, minute_us, usec. split; Z.to_euclidean_division_equations; lia.
Qed.

Lemma tod_idem t : tod (tod t) = tod t.
Proof.
  pose proof (hour_range t). assert (0 <= minute_of t < 60) by (apply Z.mod_pos_bound; lia).
  destruct (tod_parts (hour_of t) (minute_of t)) as [Eh Em]; [done | done |].
  unfold tod at 1. unfold tod. by rewrite Eh, Em.
Qed.

Lemma parse_hours h m : 0 <= h < 100 -> 0 <= m < 100 ->
  parse_hh_mm (PStr (two_digits h +:+ ":" +:+ two_digits m)) =
  if (h <=? 23) && (m <=? 59) then Ok (h * hour_us + m * minute_us) else Err ScheduleValidationError.
Proof.
  intros Hh Hm. unfold parse_hh_mm. rewrite split_two by done.
  destruct (two_spec h Hh) as (Ph & _ & Dh & _). destruct (two_spec m Hm) as (Pm & _ & Dm & _).
  rewrite Dh, Dm, Ph, Pm. cbn [two_digits String.length Nat.eqb andb negb].
  rewrite (proj2 (Z.leb_le 0 h)), (proj2 (Z.leb_le 0 m)) by lia. cbn [andb].
  by destruct (h <=? 23).
Qed.

Lemma format_two t : format_hh_mm t = two_digits (hour_of t) +:+ ":" +:+ two_digits (minute_of t).
Proof.
  pose proof (hour_range t). assert (0 <= minute_of t < 60) by (apply Z.mod_pos_bound; lia).
  unfold format_hh_mm. destruct (two_spec (hour_of t)) as (_ & -> & _); [lia|].
  by destruct (two_spec (minute_of t)) as (_ & -> & _); [lia|].
Qed.

Lemma parse_format t : parse_hh_mm (PStr (format_hh_mm t)) = Ok (tod t).
Proof.
  pose proof (hour_range t). assert (0 <= minute_of t < 60) by (apply Z.mod_pos_bound; lia).
  rewrite format_two, parse_hours by lia. by rewrite !(proj2 (Z.leb_le _ _)) by lia.
Qed.

Lemma split_on_cons sep s : exists w ws, split_on sep s = w :: ws.
Proof.
  destruct s as [|c s]; cbn; [eauto|]. destruct (Ascii.eqb c sep); [eauto|]. destruct (split_on sep s); eauto.
Qed.

Lemma split_on_one sep s a : split_on sep s = [a] -> s = a.
Proof.
  revert a. induction s as [|c s IH]; intros a; cbn; [by intros [= <-]|].
  destruct (split_on_cons sep s) as (w & ws & E). rewrite E in *.
  destruct (Ascii.eqb c sep); [done|]. intros [= <- ->]. by rewrite (IH w).
Qed.

Lemma split_on_join sep s a b : split_on sep s = [a; b] -> s = a +:+ String sep b.
Proof.
  revert a b. induction s as [|c s IH]; intros a b; cbn; [done|].
  destruct (Ascii.eqb_spec c sep) as [->|N].
  - intros [= <- E]. apply split_on_one in E as ->. done.
  - destruct (split_on sep s) as [|w ws]; intros [= <- E]; subst. by rewrite (IH w b eq_refl).
Qed.

Lemma parse_spec s t : parse_hh_mm (PStr s) = Ok t -> format_hh_mm t = s /\ tod t = t.
Proof.
  unfold parse_hh_mm at 1. destruct (split_on ":" s) as [|h [|m [|]]] eqn:Es; try done.
  destruct ((String.length h =? 2)%nat && (String.length m =? 2)%nat) eqn:El; cbn [negb]; [|done].
  destruct (all_digits h && all_digits m) eqn:Ed; cbn [negb]; [|done].
  apply andb_true_iff in El as [Lh%Nat.eqb_eq Lm%Nat.eqb_eq]. apply andb_true_iff in Ed as [Dh Dm].
  apply split_on_join in Es as ->.
  apply (two_digits_of h Lh) in Dh as (x & Hx & ->). apply (two_digits_of m Lm) in Dm as (y & Hy & ->).
  destruct (two_spec x Hx) as (-> & _). destruct (two_spec y Hy) as (-> & _).
  destruct ((0 <=? x) && (x <=? 23) && (0 <=? y) && (y <=? 59)) eqn:E; [|done]. intros [= <-].
  rewrite !andb_true_iff, !Z.leb_le in E. destruct (tod_parts x y) as [E1 E2]; [lia | lia |].
  rewrite format_two. unfold tod. by rewrite E1, E2.
Qed.

(** ** Payloads *)

Lemma kind_group_spec k g kg :
  _validate_kind_and_group_by k g = Ok kg ->
  k = PStr (fst kg) /\ fst kg ∈ VALID_KINDS /\ g = pyopt PStr (snd kg)
  /\ (fst kg = "monthly_consumption"%string -> snd kg <> None)
  /\ (forall x, snd kg = Some x -> x ∈ VALID_GROUP_BY).
Proof.
  unfold _validate_kind_and_group_by. intros Hv. inv_ok. apply require_in_spec in Hm as [-> Hk].
  destruct g; [destruct (String.eqb_spec v "monthly_consumption") as [|N]; [done|]; inv_ok; cbn; split_and!; done | ..];
    inv_ok; apply require_in_spec in Hm as [Hg ?]; try discriminate Hg; injection Hg as ->; cbn; split_and!; try done.
  by intros x [= <-].
Qed.

Lemma create_spec p n :
  normalize_create_payload p = Ok n ->
  schedule_ok n /\ exists d, p = PDict d
    /\ (exists s, py_get d "name" = PStr s /\ ns_name n = strip s)
    /\ py_get d "kind" = PStr (ns_kind n) /\ py_get d "groupBy" = pyopt PStr (ns_group_by n)
    /\ py_get d "frequency" = PStr (ns_frequency n)
    /\ py_get d "dayOfMonth" = pyopt PInt (ns_day_of_month n) /\ py_get d "dayOfWeek" = pyopt PInt (ns_day_of_week n)
    /\ py_get d "timeOfDay" = PStr (format_hh_mm (ns_time_of_day n))
    /\ py_get d "autonomyMode" = PStr (ns_autonomy_mode n)
    /\ dget_or d "isActive" (PBool true) = PBool (ns_is_active n)
    /\ _validate_recipients (py_get d "recipients") = Ok (ns_recipients n).
Proof.
  unfold normalize_create_payload. destruct p as [| | | | | |d]; try done. intros Hn. inv_ok. cbn [ns_name].
  destruct (py_get d "name") as [| | | |s | |] eqn:En; try done. destruct (String.eqb_spec (strip s) "") as [|Ns]; [done|].
  injection Hm as <-. apply require_in_spec in Hm0 as [Ef Vf]. apply kind_group_spec in Hm1 as (Ek & Vk & Eg & Gn & Gv).
  destruct v2 as [dom dow]. apply cadence_spec in Hm2 as (Cok & Ed & Ew & Cm & Cw); [|done]. cbn [fst snd] in *.
  assert (exists ts, py_get d "timeOfDay" = PStr ts /\ parse_hh_mm (PStr ts) = Ok v3) as (ts & Et & Pt).
  { destruct (py_get d "timeOfDay"); try done. eauto. }
  apply parse_spec in Pt as [Ft Tt]. apply require_in_spec in Hm4 as [Em Vm].
  destruct (dget_or d "isActive" (PBool true)) as [|b| | | | |] eqn:Ea; try done. injection Hm5 as <-.
  assert (NoDup (map recipient_key v6) /\ (forall r, r ∈ v6 -> nr_format r ∈ VALID_FORMATS)
          /\ map nr_position v6 = map Z.of_nat (seq 0 (length v6))) as (R1 & R2 & R3).
  { unfold _validate_recipients in Hm6. destruct (py_get d "recipients"); try done.
    - inv_ok. split_and!; [constructor | by intros r ?%not_elem_of_nil | done].
    - apply validate_each_spec in Hm6 as (? & Hr & Hp). split_and!; [done | intros r Hx; by apply Hr in Hx as [] |].
      pose proof (f_equal length Hp) as Hl. rewrite !length_map, length_seq in Hl. rewrite Hl, Hp.
      apply map_ext. intros a. lia. }
  split.
  - unfold schedule_ok. cbn. split_and!; try done. apply strip_idem.
  - exists d. cbn. split_and!; try done; [by exists s | by rewrite Ft].
Qed.

Lemma overlay_get p m keys k :
  dget (foldl (overlay p) m keys) k =
  if decide (k ∈ keys) then match dget p k with Some v => Some v | None => dget m k end else dget m k.
Proof.
  revert m. induction keys as [|k' keys IH]; intros m; cbn [foldl].
  { rewrite decide_False by apply not_elem_of_nil. done. }
  rewrite IH. unfold overlay. destruct (decide (k = k')) as [->|N].
  - rewrite (decide_True (P := k' ∈ k' :: keys)) by left. destruct (dget p k') as [v|] eqn:E.
    + rewrite dget_dset_eq. by case_decide.
    + by case_decide.
  - assert (dget (match dget p k' with Some v => m +{ k' := v } | None => m end) k = dget m k) as ->.
    { destruct (dget p k'); [apply dget_dset_ne; congruence | done]. }
    destruct (decide (k ∈ keys)) as [Hk|Hk].
    + rewrite (decide_True (P := k ∈ k' :: keys)) by (by right). done.
    + rewrite (decide_False (P := k ∈ k' :: keys)) by (intros [?|?]%elem_of_cons; done). done.
Qed.

(** What a patch makes of the row: a field it names, else the row's. *)
Definition patched (p : list (string * pyobj)) (current : NormalizedScheduleInput) (k : string) : option pyobj :=
  match dget p k with Some v => Some v | None => dget (merged_payload current) k end.

Lemma patch_payload p current :
  exists d, normalize_patch_payload (PDict p) current = normalize_create_payload (PDict d)
    /\ (forall k, k ∈ ["name"; "kind"; "groupBy"; "frequency"; "timeOfDay"; "autonomyMode"; "isActive"]%string ->
        dget d k = patched p current k)
    /\ (dget p "frequency" = None -> forall k, k ∈ ["dayOfMonth"; "dayOfWeek"]%string -> dget d k = patched p current k)
    /\ dget d "recipients" = Some (dget_or p "recipients" (PList [])).
Proof.
  eexists. split; [reflexivity|]. set (base := foldl (overlay p) (merged_payload current) wire_keys).
  assert (forall k, k ∈ wire_keys -> dget base k = patched p current k) as Hb.
  { intros k Hk. unfold base, patched. rewrite overlay_get. by rewrite decide_True. }
  assert (forall (c : bool) (d : dict string pyobj) k k', k <> k' ->
          dget (if c then d +{ k' := PNone } else d) k = dget d k) as Hi.
  { intros [] d k k' N; [apply dget_dset_ne; congruence | done]. }
  split_and!.
  - intros k Hk. rewrite dget_dset_ne, !Hi; [apply Hb | ..]; unfold wire_keys; set_solver.
  - intros Hf k Hk. unfold py_get. rewrite Hf. cbn [default is_str andb orb].
    rewrite dget_dset_ne; [apply Hb; unfold wire_keys; set_solver | set_solver].
  - apply dget_dset_eq.
Qed.

Lemma pyopt_str_inj a b : pyopt PStr a = pyopt PStr b -> a = b.
Proof. destruct a, b; cbn; congruence. Qed.

Lemma pyopt_int_inj a b : pyopt PInt a = pyopt PInt b -> a = b.
Proof. destruct a, b; cbn; congruence. Qed.

Lemma patch_frame p current n :
  schedule_ok current -> normalize_patch_payload (PDict p) current = Ok n ->
  schedule_ok n
  /\ (dget p "name" = None -> ns_name n = ns_name current)
  /\ (dget p "kind" = None -> ns_kind n = ns_kind current)
  /\ (dget p "groupBy" = None -> ns_group_by n = ns_group_by current)
  /\ (dget p "timeOfDay" = None -> ns_time_of_day n = ns_time_of_day current)
  /\ (dget p "autonomyMode" = None -> ns_autonomy_mode n = ns_autonomy_mode current)
  /\ (dget p "isActive" = None -> ns_is_active n = ns_is_active current)
  /\ (dget p "frequency" = None -> ns_frequency n = ns_frequency current
      /\ (dget p "dayOfMonth" = None -> ns_day_of_month n = ns_day_of_month current)
      /\ (dget p "dayOfWeek" = None -> ns_day_of_week n = ns_day_of_week current)).
Proof.
  intros Hc Hp. destruct (patch_payload p current) as (d & E & Hk & Hd & _). rewrite E in Hp.
  apply create_spec in Hp as (Hn & d' & [= <-] & (s & En & Es) & Ek & Eg & Ef & Em & Ew & Et & Ea & Ei & _).
  split; [done|]. unfold py_get, dget_or in *. unfold patched in *.
  split_and!; intros N.
  - rewrite Hk, N in En by set_solver. injection En as <-. rewrite Es. apply Hc.
  - rewrite Hk, N in Ek by set_solver. by injection Ek.
  - rewrite Hk, N in Eg by set_solver. symmetry. by apply pyopt_str_inj.
  - rewrite Hk, N in Et by set_solver. injection Et as Et. apply (f_equal (fun x => parse_hh_mm (PStr x))) in Et.
    rewrite !parse_format in Et. injection Et as Et. destruct Hc as (_ & _ & _ & _ & _ & _ & _ & _ & _ & -> & _) in Et.
    by destruct Hn as (_ & _ & _ & _ & _ & _ & _ & _ & _ & -> & _) in Et.
  - rewrite Hk, N in Ea by set_solver. by injection Ea.
  - rewrite Hk, N in Ei by set_solver. by injection Ei.
  - specialize (Hd N). split_and!.
    + rewrite Hk, N in Ef by set_solver. by injection Ef.
    + intros N'. rewrite Hd, N' in Em by set_solver. symmetry. by apply pyopt_int_inj.
    + intros N'. rewrite Hd, N' in Ew by set_solver. symmetry. by apply pyopt_int_inj.
Qed.

(** ** The claims *)

(** C23: For every schedule a create payload can produce, the search for the next run
    always finds one, within its 60 months: the firing of the schedule's calendar (every
    chosen weekday, or the chosen day of every month or quarter month, at the local time
    of day) that is the first strictly after now. *)
Theorem next_run_exact payload n z now :
  ReportZone z -> normalize_create_payload payload = Ok n ->
  exists r, compute_next_run_at (aware_utc now) (ns_frequency n) (ns_time_of_day n) (Some z)
              (ns_day_of_month n) (ns_day_of_week n) = Ok r
    /\ exists d, fires_on (ns_frequency n) (ns_day_of_month n) (ns_day_of_week n) d
       /\ r = from_local z (dt_combine d (ns_time_of_day n)) /\ now < r
       /\ forall d', fires_on (ns_frequency n) (ns_day_of_month n) (ns_day_of_week n) d' ->
          now < from_local z (dt_combine d' (ns_time_of_day n)) -> r <= from_local z (dt_combine d' (ns_time_of_day n)).
Proof.
  intros Hz ((_ & _ & _ & _ & _ & _ & Hc & _ & _ & Ht & _) & _)%create_spec.
  destruct (next_run_spec z now _ (ns_time_of_day n) _ _ Hz Hc) as (r & E & d & F & Er & Hn & Hmin).
  unfold slot in *. rewrite Ht in *. exists r. split; [done|]. exists d. split_and!; try done.
  intros d' F' Hn'. by apply (Hmin d').
Qed.


(** Times of day round-trip through their text, up to seconds. *)
Theorem hh_mm_roundtrip :
  (forall t, parse_hh_mm (PStr (format_hh_mm t)) = Ok (hour_of t * hour_us + minute_of t * minute_us))
  /\ (forall s t, parse_hh_mm (PStr s) = Ok t -> format_hh_mm t = s).
Proof. split; [apply parse_format | intros s t Hs; by apply parse_spec in Hs as []]. Qed.

(** ** The periods of consecutive runs *)

Lemma first_of_month d y m dd : civil_of d = (y, m, dd) -> days_of_civil y m 1 = month_start (month_of d).
Proof.
  intros E. rewrite (month_of_civil _ _ _ _ E). apply civil_of_spec in E as (_ & Hm & _).
  rewrite days_of_civil_month by done. lia.
Qed.

Lemma previous_month_spec d : previous_month d = (month_start (month_of d - 1), month_start (month_of d) - 1).
Proof.
  unfold previous_month. destruct (civil_of d) as [[y m] dd] eqn:E. rewrite (first_of_month _ _ _ _ E).
  set (k := month_of d). destruct (civil_of (month_start k - 1)) as [[y' m'] d'] eqn:E'.
  rewrite (first_of_month _ _ _ _ E'). do 2 f_equal. apply month_of_unique.
  destruct (month_spec (k - 1)) as [Hs Hl]. replace (k - 1 + 1) with k in Hs by lia. lia.
Qed.

Lemma last_day_spec k : _last_day_of_month (k / 12) (k mod 12 + 1) = month_length k.
Proof.
  unfold _last_day_of_month. pose proof (Z.mod_pos_bound k 12 ltac:(lia)). pose proof (Z.div_mod k 12 ltac:(lia)).
  replace (if k mod 12 + 1 =? 12 then days_of_civil (k / 12 + 1) 1 1 else days_of_civil (k / 12) (k mod 12 + 1 + 1) 1)
    with (month_start (k + 1)).
  - destruct (month_spec k) as [-> Hl]. by rewrite civil_in_month by lia.
  - destruct (Z.eqb_spec (k mod 12 + 1) 12); rewrite days_of_civil_month by lia; rewrite Z.add_simpl_r; f_equal; lia.
Qed.

Lemma quarter_period_spec d :
  report_period "quarterly" d =
  Ok (month_start (3 * (month_of d / 3) - 3), month_start (3 * (month_of d / 3)) - 1).
Proof.
  unfold report_period. cbn. destruct (civil_of d) as [[y m] dd] eqn:E. set (k := month_of d).
  pose proof (month_of_civil _ _ _ _ E) as Ek. fold k in Ek. apply civil_of_spec in E as (_ & Hm & _).
  set (j := 3 * (k / 3) - 3).
  replace (if (m - 1) / 3 =? 0 then (y - 1, 3) else (y, (m - 1) / 3 - 1)) with (j / 12, j mod 12 / 3).
  2: { unfold j. destruct (Z.eqb_spec ((m - 1) / 3) 0); f_equal; Z.to_euclidean_division_equations; lia. }
  replace (j mod 12 / 3 * 3 + 1) with (j mod 12 + 1) by (unfold j; Z.to_euclidean_division_equations; lia).
  rewrite make_date_ok by lia. cbn [rbind].
  replace (j mod 12 + 1 + 2) with ((j + 2) mod 12 + 1) by (unfold j; Z.to_euclidean_division_equations; lia).
  replace (j / 12) with ((j + 2) / 12) by (unfold j; Z.to_euclidean_division_equations; lia).
  rewrite last_day_spec. destruct (month_spec (j + 2)) as [Hs Hl].
  assert (1 <= (j + 2) mod 12 + 1 <= 12) by (pose proof (Z.mod_pos_bound (j + 2) 12 ltac:(lia)); lia).
  unfold make_date, month_length in *. rewrite !(proj2 (Z.leb_le _ _)) by lia. cbn [andb rbind].
  rewrite days_of_civil_month by done. f_equal. f_equal; [lia|].
  replace (12 * ((j + 2) / 12) + ((j + 2) mod 12 + 1) - 1) with (j + 2) by (pose proof (Z.div_mod (j + 2) 12 ltac:(lia)); lia).
  replace (3 * (k / 3)) with (j + 2 + 1) by (unfold j; lia). lia.
Qed.

(** The date after [d] on which a schedule fires. *)
Definition next_date (frequency : string) (d dom : Z) : Z :=
  if String.eqb frequency "weekly" then d + 7
  else month_start (month_of d + (if String.eqb frequency "monthly" then 1 else 3)) + dom - 1.

Lemma fires_after frequency dom dow d :
  cadence_ok frequency dom dow -> fires_on frequency dom dow d ->
  exists d', fires_on frequency dom dow d' /\ d' = next_date frequency d (default 0 dom) /\ d < d'
    /\ forall x, fires_on frequency dom dow x -> d < x -> d' <= x.
Proof.
  intros Hc Hf. unfold next_date, fires_on in *. destruct Hc as [(-> & n & -> & Hn)|(Hq & n & -> & Hn)].
  - cbn in *. destruct Hf as (? & [= <-] & E). exists (d + 7). split_and!; [|done|lia|].
    + exists n. split; [done|]. rewrite <- E. unfold weekday. replace (d + 7 + 3) with (d + 3 + 1 * 7) by lia. by rewrite Z.mod_add.
    + intros x (? & [= <-] & Ex) Hx. rewrite <- E in Ex. unfold weekday in Ex. Z.to_euclidean_division_equations. lia.
  - assert (String.eqb frequency "weekly" = false) as Nw by (by destruct Hq as [-> | ->]). rewrite Nw in *. clear Nw.
    destruct Hf as (? & [= <-] & Ed & Ad). cbn [default]. set (step := if String.eqb frequency "monthly" then 1 else 3).
    set (k := month_of d) in *.
    assert (forall j, month_of (month_start j + n - 1) = j) as Hm.
    { intros j. apply month_of_unique. destruct (month_spec j). lia. }
    assert (forall a b, a < b -> month_start a + n - 1 < month_start b + n - 1) as Hlt.
    { intros a b L. apply month_start_lt in L. destruct (month_spec a). lia. }
    assert (0 < step) by (unfold step; destruct (String.eqb _ _); lia).
    exists (month_start (k + step) + n - 1). split_and!; [|done| |].
    + exists n. rewrite Hm. split_and!; [done|done|]. unfold step. destruct (String.eqb frequency "monthly"); [done|].
      cbn [orb] in *. apply quarter_month_iff. apply quarter_month_iff in Ad.
      replace (k + 3) with (k + 1 * 3) by lia. by rewrite Z.mod_add.
    + rewrite Ed. apply Hlt. lia.
    + intros x (? & [= <-] & Ex & Ax) Hx. rewrite Ex. enough (k + step <= month_of x) as L.
      { destruct (decide (k + step = month_of x)) as [->|]; [lia | apply Z.lt_le_incl, Hlt; lia]. }
      assert (k < month_of x) as Lk.
      { destruct (Z.lt_trichotomy k (month_of x)) as [L|[L|L]]; [done| rewrite <- L in Ex; lia | pose proof (Hlt _ _ L); lia]. }
      unfold step. destruct (String.eqb frequency "monthly"); [lia|]. cbn [orb] in *.
      apply quarter_month_iff in Ad, Ax. Z.to_euclidean_division_equations. lia.
Qed.

Lemma periods_adjacent frequency dom dow d :
  cadence_ok frequency dom dow -> fires_on frequency dom dow d ->
  exists a b b', report_period frequency d = Ok (a, b) /\ a <= b < d
    /\ report_period frequency (next_date frequency d (default 0 dom)) = Ok (b + 1, b').
Proof.
  intros Hc Hf. unfold next_date, fires_on in *. destruct Hc as [(-> & n & -> & Hn)|(Hq & n & -> & Hn)].
  - cbn. exists (d - 1 - 6), (d - 1). eexists. split_and!; [done | lia | lia |]. repeat f_equal. lia.
  - assert (String.eqb frequency "weekly" = false) as Nw by (by destruct Hq as [-> | ->]). rewrite Nw in *. clear Nw.
    destruct Hf as (? & [= <-] & Ed & Ad). cbn [default].
    assert (forall j, month_of (month_start j + n - 1) = j) as Hm.
    { intros j. apply month_of_unique. destruct (month_spec j). lia. }
    destruct Hq as [-> | ->].
    + unfold report_period. cbn. rewrite !previous_month_spec, Hm, Z.add_simpl_r.
      eexists _, _, _. split_and!; [done | | | repeat f_equal; lia].
      * pose proof (month_start_lt (month_of d - 1) (month_of d)). destruct (month_spec (month_of d - 1)). lia.
      * lia.
    + rewrite !quarter_period_spec. cbn [String.eqb Ascii.eqb Bool.eqb orb] in *. apply quarter_month_iff in Ad.
      change (String.eqb "quarterly" "monthly") with false. cbv iota. rewrite Hm.
      replace (3 * (month_of d / 3)) with (month_of d) by (Z.to_euclidean_division_equations; lia).
      replace (3 * ((month_of d + 3) / 3)) with (month_of d + 3) by (Z.to_euclidean_division_equations; lia).
      replace (month_of d + 3 - 3) with (month_of d) by lia.
      eexists _, _, _. split_and!; [done | | | repeat f_equal; lia].
      * pose proof (month_start_lt (month_of d - 3) (month_of d)). destruct (month_spec (month_of d - 3)). lia.
      * lia.
Qed.

(** The period a run reports on ends before its day, and the period of the next run
    begins on the day after it ends: consecutive reports of a schedule leave no day out
    and count none twice. *)
Theorem reports_tile z frequency t dom dow d :
  ReportZone z -> cadence_ok frequency dom dow -> fires_on frequency dom dow d ->
  exists r a b b', compute_next_run_at (aware_utc (slot z d t)) frequency t (Some z) dom dow = Ok r
    /\ compute_report_period frequency (to_local z (slot z d t)) = Ok (date_str a, date_str b)
    /\ compute_report_period frequency (to_local z r) = Ok (date_str (b + 1), date_str b')
    /\ a <= b < date_of (to_local z (slot z d t)).
Proof.
  intros Hz Hc Hf. destruct (fires_after _ _ _ _ Hc Hf) as (d1 & F1 & E1 & L1 & M1).
  destruct (periods_adjacent _ _ _ _ Hc Hf) as (a & b & b' & P & Hab & P').
  destruct (next_run_spec z (slot z d t) frequency t dom dow Hz Hc) as (r & E & d' & F' & -> & Hn & Hmin).
  assert (d' = d1) as ->.
  { destruct (Hmin d1 F1) as [Hle _]; [by apply slot_lt|]. apply Z.le_antisymm; [done|]. apply M1; [done|].
    destruct (Z.lt_ge_cases d d') as [|G]; [done|]. pose proof (slot_le z t d' d G). lia. }
  exists (slot z d1 t), a, b, b'. unfold compute_report_period. rewrite !slot_local, P, E1, P' by done.
  rewrite <- E1. split_and!; done || lia.
Qed.

(** ** Errors of other kinds *)

Theorem list_valued_field_type_error :
  normalize_create_payload (PDict [("name", PStr "Ops"); ("frequency", PList [PStr "weekly"])]) = Err TypeError_
  /\ normalize_create_payload (PDict [("name", PStr "Ops"); ("frequency", PInt 7)]) = Err ScheduleValidationError.
Proof. split; reflexivity. Qed.

(** ** Inputs that satisfy the hypotheses *)

(** Clocks go forward at the epoch. *)
#[export] Instance spring_report : ReportZone spring.
Proof.
  split; intros w u; unfold to_local, from_local, spring, date_of, day_us, hour_us, usec; cbn [offset_at offset_local];
    destruct (Z.ltb_spec u 0), (Z.ltb_spec w (3 * (3600 * 1000000))); intros L; Z.to_euclidean_division_equations; lia.
Qed.

Definition ex_payload : pyobj :=
  PDict [("name", PStr " Quarterly "); ("kind", PStr "monthly_consumption"); ("groupBy", PStr "card");
         ("frequency", PStr "quarterly"); ("dayOfMonth", PInt 28); ("timeOfDay", PStr "06:30");
         ("autonomyMode", PStr "auto_notify");
         ("recipients", PList [PDict [("emailAddress", PStr "a@b.eu"); ("format", PStr "pdf")]])].

Definition ex_normalized : NormalizedScheduleInput :=
  {| ns_name := "Quarterly"; ns_kind := "monthly_consumption"; ns_group_by := Some "card"%string;
     ns_frequency := "quarterly"; ns_day_of_month := Some 28; ns_day_of_week := None;
     ns_time_of_day := 6 * hour_us + 30 * minute_us; ns_autonomy_mode := "auto_notify"; ns_is_active := true;
     ns_recipients := [{| nr_email := "a@b.eu"; nr_format := "pdf"; nr_position := 0 |}] |}.

Lemma ex_payload_ok : normalize_create_payload ex_payload = Ok ex_normalized.
Proof. vm_compute. reflexivity. Qed.

(** From the eve of the clock change, the next run is on 28 January 1970, at 06:30
    in summer time. *)
Lemma next_run_exact_witness :
  exists r, compute_next_run_at (aware_utc (- hour_us)) "quarterly" (6 * hour_us + 30 * minute_us) (Some spring)
              (Some 28) None = Ok r
    /\ exists d, fires_on "quarterly" (Some 28) None d
       /\ r = from_local spring (dt_combine d (6 * hour_us + 30 * minute_us)) /\ - hour_us < r
       /\ forall d', fires_on "quarterly" (Some 28) None d' ->
          - hour_us < from_local spring (dt_combine d' (6 * hour_us + 30 * minute_us)) ->
          r <= from_local spring (dt_combine d' (6 * hour_us + 30 * minute_us)).
Proof. exact (next_run_exact ex_payload ex_normalized spring (- hour_us) spring_report ex_payload_ok). Defined.

Lemma ex_current_ok : schedule_ok ex_normalized.
Proof. exact (proj1 (create_spec _ _ ex_payload_ok)). Qed.

Definition ex_patch : list (string * pyobj) := [("frequency", PStr "weekly"); ("dayOfWeek", PInt 1)].


Lemma reports_tile_witness :
  exists r a b b', compute_next_run_at (aware_utc (slot spring 27 0)) "monthly" 0 (Some spring) (Some 28) None = Ok r
    /\ compute_report_period "monthly" (to_local spring (slot spring 27 0)) = Ok (date_str a, date_str b)
    /\ compute_report_period "monthly" (to_local spring r) = Ok (date_str (b + 1), date_str b')
    /\ a <= b < date_of (to_local spring (slot spring 27 0)).
Proof.
  apply (reports_tile spring "monthly" 0 (Some 28) None 27 spring_report).
  - right. split; [left; reflexivity|]. exists 28. split; [reflexivity | lia].
  - unfold fires_on. cbn. exists 28. split; [reflexivity|]. split; vm_compute; reflexivity.
Defined.
