(* ===== verification/ReportRuns.v ===== *)
(** * Runs of report schedules ([src/api/report_schedules.py])

    The worker that fires due schedules, the runs it claims and finalises, the
    delivery to recipients, approval of drafts, the provider's callbacks, and the
    command handlers of [src/api/main.py] that create, change, delete and fire
    schedules. The tables are lists of rows in a record; every statement may raise
    or be the last one of a process that dies ([fault]), so that a crashed worker
    leaves what it had committed. [rd_mails] is what the mail provider accepted. *)

From S2P Require Import Prelude Models Datetime PyText Recurring ReportTiming.
From Stdlib Require Import ZArith Lia.
From stdpp Require Import base list strings gmap.

#[local] Open Scope Z_scope.

(** ** Tables *)

Inductive run_status := succeeded | failed | skipped | pending_approval.

#[export] Instance run_status_eq_dec : EqDecision run_status.
Proof. solve_decision. Defined.

Record schedule_row := {
  sc_id : Z;
  sc_depot : string;
  sc_input : NormalizedScheduleInput;      (* the columns a payload sets *)
  sc_next : option Z;
  sc_last : option Z;
  sc_last_status : option run_status
}.

Record recipient_row := { rp_id : Z; rp_schedule : Z; rp_email : string; rp_format : string; rp_position : Z }.

Record run_row := {
  rn_id : Z;
  rn_schedule : Z;
  rn_report : option string;
  rn_slot : Z;                             (* scheduled_for *)
  rn_triggered : Z;
  rn_completed : option Z;
  rn_status : run_status
}.

Record delivery_row := {
  dv_run : Z;
  dv_recipient : option Z;
  dv_email : string;
  dv_format : string;
  dv_status : string;
  dv_message : option string
}.

(** An [agent_actions] row of class [report_draft]. *)
Record draft_row := {
  dr_depot : string;
  dr_schedule : Z;
  dr_period_start : string;
  dr_run : Z;
  dr_mode : string;
  dr_status : string
}.

Record rdb := {
  rd_schedules : list schedule_row;
  rd_recipients : list recipient_row;
  rd_runs : list run_row;
  rd_deliveries : list delivery_row;       (* in the order of [attempted_at] *)
  rd_drafts : list draft_row;
  rd_mails : list (Z * Z);                 (* run and recipient *)
  rd_next_id : Z
}.

Definition with_schedules (db : rdb) (l : list schedule_row) : rdb :=
  {| rd_schedules := l; rd_recipients := rd_recipients db; rd_runs := rd_runs db;
     rd_deliveries := rd_deliveries db; rd_drafts := rd_drafts db; rd_mails := rd_mails db;
     rd_next_id := rd_next_id db |}.
Definition with_recipients (db : rdb) (l : list recipient_row) (next : Z) : rdb :=
  {| rd_schedules := rd_schedules db; rd_recipients := l; rd_runs := rd_runs db;
     rd_deliveries := rd_deliveries db; rd_drafts := rd_drafts db; rd_mails := rd_mails db;
     rd_next_id := next |}.
Definition with_runs (db : rdb) (l : list run_row) (next : Z) : rdb :=
  {| rd_schedules := rd_schedules db; rd_recipients := rd_recipients db; rd_runs := l;
     rd_deliveries := rd_deliveries db; rd_drafts := rd_drafts db; rd_mails := rd_mails db;
     rd_next_id := next |}.
Definition with_deliveries (db : rdb) (l : list delivery_row) : rdb :=
  {| rd_schedules := rd_schedules db; rd_recipients := rd_recipients db; rd_runs := rd_runs db;
     rd_deliveries := l; rd_drafts := rd_drafts db; rd_mails := rd_mails db; rd_next_id := rd_next_id db |}.
Definition with_drafts (db : rdb) (l : list draft_row) : rdb :=
  {| rd_schedules := rd_schedules db; rd_recipients := rd_recipients db; rd_runs := rd_runs db;
     rd_deliveries := rd_deliveries db; rd_drafts := l; rd_mails := rd_mails db; rd_next_id := rd_next_id db |}.
Definition with_mails (db : rdb) (l : list (Z * Z)) : rdb :=
  {| rd_schedules := rd_schedules db; rd_recipients := rd_recipients db; rd_runs := rd_runs db;
     rd_deliveries := rd_deliveries db; rd_drafts := rd_drafts db; rd_mails := l; rd_next_id := rd_next_id db |}.

(** ** Statements that may fail

    A computation over the tables returns, raises, or its process dies. *)

Inductive fault := Fine | Raises | Dies.

Inductive flow (A : Type) : Type :=
| Ret (a : A)
| Raise
| Die.
Arguments Ret {A} a.
Arguments Raise {A}.
Arguments Die {A}.

Definition M (A : Type) : Type := rdb -> flow A * rdb.

Definition ret {A} (a : A) : M A := fun db => (Ret a, db).
Definition raise {A} : M A := fun db => (Raise, db).

Definition bind {A B} (m : M A) (k : A -> M B) : M B := fun db =>
  match m db with
  | (Ret a, db') => k a db'
  | (Raise, db') => (Raise, db')
  | (Die, db') => (Die, db')
  end.

Notation "'let!' x ':=' m 'in' k" := (bind m (fun x => k))
  (at level 10, x name, m at level 100, k at level 200) : py_scope.

(** One statement. *)
Definition stmt {A} (f : fault) (g : rdb -> A * rdb) : M A := fun db =>
  match f with
  | Fine => let '(a, db') := g db in (Ret a, db')
  | Raises => (Raise, db)
  | Dies => (Die, db)
  end.

Definition query {A} (f : fault) (g : rdb -> A) : M A := stmt f (fun db => (g db, db)).
Definition exec (f : fault) (g : rdb -> rdb) : M unit := stmt f (fun db => (tt, g db)).

(** [try: m except Exception: h]. *)
Definition try {A} (m h : M A) : M A := fun db =>
  match m db with
  | (Raise, db') => h db'
  | r => r
  end.

Definition when_ok {A} (r : result schedule_error A) : M A :=
  match r with Ok a => ret a | Err _ => raise end.

(** ** Schedules and recipients *)

Definition insert_schedule (depot : string) (norm : NormalizedScheduleInput) (next : option Z) (db : rdb) : Z * rdb :=
  (rd_next_id db,
   {| rd_schedules := rd_schedules db
        ++ [{| sc_id := rd_next_id db; sc_depot := depot; sc_input := norm; sc_next := next;
               sc_last := None; sc_last_status := None |}];
      rd_recipients := rd_recipients db; rd_runs := rd_runs db; rd_deliveries := rd_deliveries db;
      rd_drafts := rd_drafts db; rd_mails := rd_mails db; rd_next_id := rd_next_id db + 1 |}).

Definition on_schedule (id : Z) (f : schedule_row -> schedule_row) (db : rdb) : rdb :=
  with_schedules db (map (fun s => if sc_id s =? id then f s else s) (rd_schedules db)).

Definition update_schedule_fields (id : Z) (norm : NormalizedScheduleInput) (next : option Z) : rdb -> rdb :=
  on_schedule id (fun s => {| sc_id := sc_id s; sc_depot := sc_depot s; sc_input := norm; sc_next := next;
                              sc_last := sc_last s; sc_last_status := sc_last_status s |}).

Definition recipient_of (schedule : Z) (email fmt : string) (r : recipient_row) : bool :=
  (rp_schedule r =? schedule) && String.eqb (rp_email r) email && String.eqb (rp_format r) fmt.

(** [ON DELETE SET NULL] of the ledger. *)
Definition forget_recipients (gone : Z -> bool) (d : delivery_row) : delivery_row :=
  match dv_recipient d with
  | Some i => if gone i then {| dv_run := dv_run d; dv_recipient := None; dv_email := dv_email d;
                                dv_format := dv_format d; dv_status := dv_status d; dv_message := dv_message d |}
              else d
  | None => d
  end.

Definition remove_recipients (p : recipient_row -> bool) (db : rdb) : rdb :=
  let gone i := existsb (fun r => p r && (rp_id r =? i)) (rd_recipients db) in
  with_deliveries
    (with_recipients db (List.filter (fun r => negb (p r)) (rd_recipients db)) (rd_next_id db))
    (map (forget_recipients gone) (rd_deliveries db)).

Definition upsert_recipient (schedule : Z) (db : rdb) (r : NormalizedRecipient) : rdb :=
  if existsb (recipient_of schedule (nr_email r) (nr_format r)) (rd_recipients db)
  then with_recipients db
         (map (fun x => if recipient_of schedule (nr_email r) (nr_format r) x
                        then {| rp_id := rp_id x; rp_schedule := rp_schedule x; rp_email := rp_email x;
                                rp_format := rp_format x; rp_position := nr_position r |} else x)
              (rd_recipients db)) (rd_next_id db)
  else with_recipients db
         (rd_recipients db ++ [{| rp_id := rd_next_id db; rp_schedule := schedule; rp_email := nr_email r;
                                  rp_format := nr_format r; rp_position := nr_position r |}])
         (rd_next_id db + 1).

Definition replace_recipients (schedule : Z) (recipients : list NormalizedRecipient) (db : rdb) : rdb :=
  let stays x := existsb (fun r => recipient_of schedule (nr_email r) (nr_format r) x) recipients in
  foldl (upsert_recipient schedule)
    (remove_recipients (fun x => (rp_schedule x =? schedule) && negb (stays x)) db) recipients.

Definition fetch_schedule_row (depot : string) (id : Z) (db : rdb) : option schedule_row :=
  List.find (fun s => (sc_id s =? id) && String.eqb (sc_depot s) depot) (rd_schedules db).

(** The schedule, and what cascades: recipients, runs and their deliveries. *)
Definition delete_schedule (depot : string) (id : Z) (db : rdb) : bool * rdb :=
  match fetch_schedule_row depot id db with
  | None => (false, db)
  | Some _ =>
      let gone n := existsb (fun r => (rn_schedule r =? id) && (rn_id r =? n)) (rd_runs db) in
      let db' := remove_recipients (fun r => rp_schedule r =? id) db in
      (true,
       {| rd_schedules := List.filter (fun s => negb (sc_id s =? id)) (rd_schedules db);
          rd_recipients := rd_recipients db';
          rd_runs := List.filter (fun r => negb (rn_schedule r =? id)) (rd_runs db);
          rd_deliveries := List.filter (fun d => negb (gone (dv_run d))) (rd_deliveries db');
          rd_drafts := rd_drafts db; rd_mails := rd_mails db; rd_next_id := rd_next_id db |})
  end.

(** ** Runs *)

Definition claim_run (now schedule slot : Z) (db : rdb) : option Z * rdb :=
  if existsb (fun r => (rn_schedule r =? schedule) && (rn_slot r =? slot)) (rd_runs db) then (None, db)
  else (Some (rd_next_id db),
        with_runs db (rd_runs db ++ [{| rn_id := rd_next_id db; rn_schedule := schedule; rn_report := None;
                                        rn_slot := slot; rn_triggered := now; rn_completed := None;
                                        rn_status := skipped |}]) (rd_next_id db + 1)).

Definition on_runs (p : run_row -> bool) (f : run_row -> run_row) (db : rdb) : rdb :=
  with_runs db (map (fun r => if p r then f r else r) (rd_runs db)) (rd_next_id db).

Definition with_outcome (now : Z) (status : run_status) (report : option string) (r : run_row) : run_row :=
  {| rn_id := rn_id r; rn_schedule := rn_schedule r; rn_report := report; rn_slot := rn_slot r;
     rn_triggered := rn_triggered r; rn_completed := Some now; rn_status := status |}.

Definition finalize_run (now run : Z) (status : run_status) (report : option string) : rdb -> rdb :=
  on_runs (fun r => rn_id r =? run) (with_outcome now status report).

Definition _persist_run_report_id (run : Z) (report : string) : rdb -> rdb :=
  on_runs (fun r => (rn_id r =? run) && negb (bool_decide (is_Some (rn_completed r))))
    (fun r => {| rn_id := rn_id r; rn_schedule := rn_schedule r; rn_report := Some report; rn_slot := rn_slot r;
                 rn_triggered := rn_triggered r; rn_completed := rn_completed r; rn_status := rn_status r |}).

Definition fetch_run (run : Z) (db : rdb) : option run_row := List.find (fun r => rn_id r =? run) (rd_runs db).

(** Only the schedule's newest slot sets the summary. *)
Definition _update_schedule_last_run_status (run : Z) (status : run_status) (db : rdb) : rdb :=
  match fetch_run run db with
  | None => db
  | Some r =>
      if forallb (fun x => negb (rn_schedule x =? rn_schedule r) || (rn_slot x <=? rn_slot r)) (rd_runs db)
      then on_schedule (rn_schedule r)
             (fun s => {| sc_id := sc_id s; sc_depot := sc_depot s; sc_input := sc_input s; sc_next := sc_next s;
                          sc_last := Some (rn_slot r); sc_last_status := Some status |}) db
      else db
  end.

Definition emit_report_draft_action (depot : string) (schedule run : Z) (mode status period_start : string) (db : rdb)
  : bool * rdb :=
  if existsb (fun d => String.eqb (dr_depot d) depot && (dr_schedule d =? schedule)
                       && String.eqb (dr_period_start d) period_start) (rd_drafts db)
  then (false, db)
  else (true, with_drafts db (rd_drafts db ++ [{| dr_depot := depot; dr_schedule := schedule;
                                                  dr_period_start := period_start; dr_run := run;
                                                  dr_mode := mode; dr_status := status |}])).

Definition insert_delivery (d : delivery_row) (db : rdb) : rdb := with_deliveries db (rd_deliveries db ++ [d]).

(** ** What a run awaits *)

(** What the provider does with a mail: it accepts it, refuses it, or rendering or
    sending raises. *)
Inductive send_outcome := Accepted (message : option string) | Refused | SendRaises | SendDies.

Record run_env := {
  ev_now : Z;
  ev_zone : option tz;                     (* what the zone database knows *)
  ev_level : result fault (option string); (* the depot's autonomy override *)
  ev_fetch : fault;
  ev_generate : result fault string;
  ev_persist : fault;
  ev_emit : fault;
  ev_report : result fault bool;           (* whether the report row exists *)
  ev_recipients : fault;
  ev_sent : fault;
  ev_send : Z -> send_outcome;
  ev_insert : Z -> fault;
  ev_finalize : fault
}.

Definition await {A} (r : result fault A) : M A :=
  match r with
  | Ok a => ret a
  | Err Dies => fun db => (Die, db)
  | Err _ => raise
  end.

Definition resolve_autonomy_mode (env : run_env) (fallback : string) : M string :=
  let! level := await (ev_level env) in
  ret (default fallback level).

Definition _fetch_recipient_rows (schedule : Z) (db : rdb) : list recipient_row :=
  sort_by (fun a b => rp_position a <=? rp_position b)
    (List.filter (fun r => rp_schedule r =? schedule) (rd_recipients db)).

Definition already_sent (run : Z) (db : rdb) : list Z :=
  omap (fun d => if (dv_run d =? run) && String.eqb (dv_status d) "sent" then dv_recipient d else None)
    (rd_deliveries db).

(** One recipient: render, send, record. *)
Definition deliver_one (env : run_env) (run : Z) (rec : recipient_row) : M bool :=
  let row status message :=
    {| dv_run := run; dv_recipient := Some (rp_id rec); dv_email := rp_email rec; dv_format := rp_format rec;
       dv_status := status; dv_message := message |} in
  match ev_send env (rp_id rec) with
  | Accepted message =>
      let! _ := exec Fine (fun db => with_mails db (rd_mails db ++ [(run, rp_id rec)])) in
      let! _ := exec (ev_insert env (rp_id rec)) (insert_delivery (row "sent" message)) in
      ret true
  | Refused | SendRaises =>
      let! _ := exec (ev_insert env (rp_id rec)) (insert_delivery (row "failed" None)) in
      ret false
  | SendDies => fun db => (Die, db)
  end%string.

Fixpoint deliver_each (env : run_env) (run : Z) (already : list Z) (all_sent : bool) (rows : list recipient_row)
  : M bool :=
  match rows with
  | [] => ret all_sent
  | rec :: rows' =>
      if bool_decide (rp_id rec ∈ already) then deliver_each env run already all_sent rows'
      else let! ok := deliver_one env run rec in deliver_each env run already (all_sent && ok) rows'
  end.

Definition _deliver_to_recipients (env : run_env) (run : Z) (rows : list recipient_row) : M bool :=
  let! already := query (ev_sent env) (already_sent run) in
  deliver_each env run already true rows.

(** ** Execution of a claimed run *)

(** From the report on: draft it or deliver it, as the mode says. *)
Definition finish_run (env : run_env) (s : schedule_row) (run : Z) (mode period_start report_id : string) : M run_status :=
  if String.eqb mode "proposed" then
    stmt (ev_emit env) (fun db =>
      let '(inserted, db1) := emit_report_draft_action (sc_depot s) (sc_id s) run "proposed" "pending"
                                period_start db in
      let status := if inserted then pending_approval else skipped in
      (status, finalize_run (ev_now env) run status (Some report_id) db1))
  else
    let! found := await (ev_report env) in
    let! rows := query (ev_recipients env) (_fetch_recipient_rows (sc_id s)) in
    let! _ := (if found && negb (bool_decide (rows = []))
               then _deliver_to_recipients env run rows else ret true) in
    let! _ := (if String.eqb mode "auto_notify"
               then try (let! _ := stmt (ev_emit env)
                                     (emit_report_draft_action (sc_depot s) (sc_id s) run "auto_notify"
                                        "executed" period_start) in ret tt) (ret tt)
               else ret tt) in
    let! _ := exec (ev_finalize env) (finalize_run (ev_now env) run succeeded (Some report_id)) in
    ret succeeded.

Definition execute_schedule_run (env : run_env) (s : schedule_row) (run now_utc : Z) (scheduled_for : option Z)
  : M run_status :=
  match ev_zone env with
  | None => raise
  | Some z =>
      let period_anchor := to_local z (default now_utc scheduled_for) in
      let! mode := resolve_autonomy_mode env (ns_autonomy_mode (sc_input s)) in
      if String.eqb mode "shadow" then
        let! _ := exec (ev_finalize env) (finalize_run (ev_now env) run skipped None) in ret skipped
      else
        let! period := when_ok (compute_report_period (ns_frequency (sc_input s)) period_anchor) in
        let! existing := query (ev_fetch env) (fetch_run run) in
        match existing ≫= rn_report with
        | Some report_id => finish_run env s run mode (fst period) report_id
        | None =>
            match ev_generate env with
            | Ok report_id =>
                let! _ := exec (ev_persist env) (_persist_run_report_id run report_id) in
                finish_run env s run mode (fst period) report_id
            | Err Dies => fun db => (Die, db)
            | Err _ =>
                let! _ := exec (ev_finalize env) (finalize_run (ev_now env) run failed None) in ret failed
            end
        end
  end.

(** The run with the handler both callers wrap around it; [after] is the statement
    of the handler. *)
Definition run_guarded (env : run_env) (after : fault) (s : schedule_row) (run now_utc : Z) (slot : option Z)
  : M run_status :=
  try (execute_schedule_run env s run now_utc slot)
      (let! _ := exec after (finalize_run (ev_now env) run failed None) in ret failed).

(** ** Approval of drafts and callbacks of the provider *)

Definition deliver_pending_run (env : run_env) (run : Z) : M bool :=
  let! r := query (ev_fetch env) (fetch_run run) in
  match r with
  | None => ret false
  | Some r =>
      match rn_status r, rn_report r with
      | pending_approval, Some _ =>
          let! found := await (ev_report env) in
          let! rows := query (ev_recipients env) (_fetch_recipient_rows (rn_schedule r)) in
          let! ok := (if bool_decide (rows = []) then ret true
                      else if negb found then ret false
                      else _deliver_to_recipients env run rows) in
          if ok : bool then
            let! hit := stmt (ev_finalize env) (fun db =>
              let hit x := (rn_id x =? run) && bool_decide (rn_status x = pending_approval) in
              (existsb hit (rd_runs db),
               on_runs hit (fun x => with_outcome (ev_now env) succeeded (rn_report x) x) db)) in
            let! _ := (if hit : bool
                       then exec (ev_emit env) (_update_schedule_last_run_status run succeeded) else ret tt) in
            ret true
          else ret false
      | st, _ => ret (bool_decide (st = succeeded))
      end
  end.

Definition skip_pending_run (env : run_env) (run : Z) : M unit :=
  let! hit := stmt (ev_finalize env) (fun db =>
    let hit x := (rn_id x =? run) && bool_decide (rn_status x = pending_approval) in
    (existsb hit (rd_runs db), on_runs hit (fun x => with_outcome (ev_now env) skipped (rn_report x) x) db)) in
  if hit : bool then exec (ev_emit env) (_update_schedule_last_run_status run skipped) else ret tt.

(** The newest ledger row of a message. *)
Definition latest_delivery (message : string) (l : list delivery_row) : option delivery_row :=
  last (List.filter (fun d => bool_decide (dv_message d = Some message)) l).

Definition negative (status : string) : bool :=
  String.eqb status "bounced" || String.eqb status "suppressed" || String.eqb status "failed".

Definition append_delivery_status_from_webhook (message status : string) (db : rdb) : bool * rdb :=
  match latest_delivery message (rd_deliveries db) with
  | None => (false, db)
  | Some latest =>
      let mapped := map_provider_status_to_wire status in
      if negative (dv_status latest) && String.eqb mapped "sent" then (true, db)
      else (true, insert_delivery {| dv_run := dv_run latest; dv_recipient := dv_recipient latest;
                                     dv_email := dv_email latest; dv_format := dv_format latest;
                                     dv_status := mapped; dv_message := Some message |} db)
  end.

(** ** The worker *)

Definition due (now : Z) (db : rdb) : list schedule_row :=
  List.filter (fun s => ns_is_active (sc_input s)
                        && match sc_next s with Some n => n <=? now | None => false end) (rd_schedules db).

Record tick_env := {
  te_run : run_env;
  te_zone : fault;                         (* looking the depot's zone name up *)
  te_claim : fault;
  te_after : fault;                        (* recording a failed run *)
  te_stale : fault;
  te_in_flight : fault;
  te_update : fault;
  te_meanwhile : rdb -> rdb                (* what other tasks do during the run *)
}.

Definition hour : Z := hour_us.

Definition restart_stale (now schedule slot threshold : Z) (db : rdb) : option Z * rdb :=
  let hit r := (rn_schedule r =? schedule) && (rn_slot r =? slot)
               && negb (bool_decide (is_Some (rn_completed r))) && (rn_triggered r <=? threshold) in
  (option_map rn_id (List.find hit (rd_runs db)),
   on_runs hit (fun r => {| rn_id := rn_id r; rn_schedule := rn_schedule r; rn_report := rn_report r;
                            rn_slot := rn_slot r; rn_triggered := now; rn_completed := rn_completed r;
                            rn_status := rn_status r |}) db).

Definition in_flight (schedule slot threshold : Z) (db : rdb) : bool :=
  existsb (fun r => (rn_schedule r =? schedule) && (rn_slot r =? slot)
                    && negb (bool_decide (is_Some (rn_completed r))) && (threshold <? rn_triggered r)) (rd_runs db).

(** [next_run_at], and after a run also its summary. *)
Definition advance (id next slot : Z) (status : option run_status) (db : rdb) : rdb :=
  match status with
  | Some st => on_schedule id (fun s => {| sc_id := sc_id s; sc_depot := sc_depot s; sc_input := sc_input s;
                                           sc_next := Some next; sc_last := Some slot; sc_last_status := Some st |}) db
  | None => on_schedule id (fun s => if bool_decide (sc_next s = Some slot)
                                     then {| sc_id := sc_id s; sc_depot := sc_depot s; sc_input := sc_input s;
                                             sc_next := Some next; sc_last := sc_last s;
                                             sc_last_status := sc_last_status s |} else s) db
  end.

(** What the slot's run comes to: [None] leaves the slot due; else the status of
    the run executed now, if one was. *)
Definition fire_slot (env : tick_env) (s : schedule_row) (slot now_utc : Z) : M (option (option run_status)) :=
  let run id := let! st := run_guarded (te_run env) (te_after env) s id now_utc (Some slot) in
                let! _ := exec Fine (te_meanwhile env) in
                ret (Some (Some st)) in
  let! claimed := stmt (te_claim env) (claim_run (ev_now (te_run env)) (sc_id s) slot) in
  match claimed with
  | Some id => run id
  | None =>
      let threshold := now_utc - hour in
      let! stale := stmt (te_stale env) (restart_stale (ev_now (te_run env)) (sc_id s) slot threshold) in
      match stale with
      | Some id => run id
      | None =>
          let! busy := query (te_in_flight env) (in_flight (sc_id s) slot threshold) in
          ret (if busy : bool then None else Some None)
      end
  end.

(** One due schedule. *)
Definition tick_one (env : tick_env) (now_utc : Z) (s : schedule_row) : M unit :=
  match sc_next s, te_zone env with
  | None, _ => ret tt
  | _, Raises => ret tt
  | _, Dies => fun db => (Die, db)
  | Some slot, Fine =>
      let! fired := fire_slot env s slot now_utc in
      match fired with
      | None => ret tt
      | Some status =>
          match compute_next_run_at (aware_utc slot) (ns_frequency (sc_input s)) (ns_time_of_day (sc_input s))
                  (ev_zone (te_run env)) (ns_day_of_month (sc_input s)) (ns_day_of_week (sc_input s)) with
          | Err _ => ret tt
          | Ok next => exec (te_update env) (advance (sc_id s) next slot status)
          end
      end
  end.

Fixpoint tick_each (envs : Z -> tick_env) (now_utc : Z) (l : list schedule_row) : M unit :=
  match l with
  | [] => ret tt
  | s :: l' => let! _ := tick_one (envs (sc_id s)) now_utc s in tick_each envs now_utc l'
  end.

(** The rows are read once, at the start. *)
Definition _tick (envs : Z -> tick_env) (now_utc : Z) : M unit := fun db => tick_each envs now_utc (due now_utc db) db.

(** ** Command handlers of [main.py] *)

Definition _resolve_schedule_next_run_at (now : Z) (zone : option tz) (norm : NormalizedScheduleInput)
  : result schedule_error (option Z) :=
  if negb (ns_is_active norm) then Ok None
  else let? n := compute_next_run_at (aware_utc now) (ns_frequency norm) (ns_time_of_day norm) zone
                   (ns_day_of_month norm) (ns_day_of_week norm) in Ok (Some n).

(** One transaction: the row and its recipients, or nothing. *)
Definition _handle_report_schedule_create (now : Z) (zone : option tz) (input : pyobj) (depot : string) (db : rdb)
  : result schedule_error Z * rdb :=
  match (let? norm := normalize_create_payload input in
         let? next := _resolve_schedule_next_run_at now zone norm in Ok (norm, next)) with
  | Err e => (Err e, db)
  | Ok (norm, next) =>
      let '(id, db1) := insert_schedule depot norm next db in
      (Ok id, replace_recipients id (ns_recipients norm) db1)
  end.

Definition cadence_keys : list string := ["frequency"; "dayOfMonth"; "dayOfWeek"; "timeOfDay"; "isActive"].

Inductive update_error := NotFound | Invalid (e : schedule_error).

Definition _handle_report_schedule_update (now : Z) (zone : option tz) (depot : string) (id : Z)
    (patch : list (string * pyobj)) (db : rdb) : result update_error unit * rdb :=
  match fetch_schedule_row depot id db with
  | None => (Err NotFound, db)
  | Some existing =>
      match normalize_patch_payload (PDict patch) (sc_input existing) with
      | Err e => (Err (Invalid e), db)
      | Ok norm =>
          match (if existsb (fun k => dmem k patch) cadence_keys
                 then _resolve_schedule_next_run_at now zone norm else Ok (sc_next existing)) with
          | Err e => (Err (Invalid e), db)
          | Ok next =>
              let db1 := update_schedule_fields id norm next db in
              (Ok tt, if dmem "recipients" patch then replace_recipients id (ns_recipients norm) db1 else db1)
          end
      end
  end.

(** The run of [now], truncated to the second. *)
Definition _handle_report_schedule_run_now (env : run_env) (claim after update : fault) (now : Z) (depot : string)
    (id : Z) : M (option Z) := fun db =>
  match fetch_schedule_row depot id db with
  | None => (Raise, db)
  | Some s =>
      let now_utc := now - now mod usec in
      (let! claimed := stmt claim (claim_run (ev_now env) id now_utc) in
       match claimed with
       | Some run =>
           let! st := run_guarded env after s run now_utc None in
           let! _ := exec update (on_schedule id (fun x =>
             {| sc_id := sc_id x; sc_depot := sc_depot x; sc_input := sc_input x; sc_next := sc_next x;
                sc_last := Some now_utc; sc_last_status := Some st |})) in
           ret (Some run)
       | None => query (ev_fetch env) (fun db =>
           option_map rn_id (List.find (fun r => (rn_schedule r =? id) && (rn_slot r =? now_utc)) (rd_runs db)))
       end) db
  end.
