(* ===== verification/ReportRunsFacts.v ===== *)
(** * Every slot of a report schedule is run once

    One run per slot, no slot passed over without a finished run, no recipient
    mailed twice for a run, and the status a bounced delivery keeps; over all
    histories of the worker, the command handlers, approvals and callbacks, with
    statements that raise and workers that die between any two of them. *)

From S2P Require Import Prelude Models Datetime PyText Recurring RecurringFacts ReportTiming ReportTimingFacts ReportRuns.
From Stdlib Require Import ZArith Lia.
From stdpp Require Import base list strings gmap.

#[local] Open Scope Z_scope.

(** ** What a computation does to the tables, whatever its outcome *)

Definition does {A} (R : rdb -> rdb -> Prop) (m : M A) : Prop := forall db, R db (snd (m db)).

Section Does.
Context (R : rdb -> rdb -> Prop) `{!Reflexive R, !Transitive R}.

Lemma does_ret {A} (a : A) : does R (ret a).
Proof. intros db. reflexivity. Qed.

Lemma does_raise {A} : does R (@raise A).
Proof. intros db. reflexivity. Qed.

Lemma does_die {A} : does R (fun db => (@Die A, db)).
Proof. intros db. reflexivity. Qed.

Lemma does_bind {A B} (m : M A) (k : A -> M B) : does R m -> (forall a, does R (k a)) -> does R (bind m k).
Proof.
  intros Hm Hk db. unfold bind. specialize (Hm db). destruct (m db) as [[a| |] db']; cbn in *; [|done|done].
  etrans; [done | apply Hk].
Qed.

Lemma does_stmt {A} f (g : rdb -> A * rdb) : (forall db, R db (snd (g db))) -> does R (stmt f g).
Proof.
  intros Hg db. unfold stmt. destruct f; [|reflexivity|reflexivity]. specialize (Hg db).
  by destruct (g db).
Qed.

Lemma does_query {A} f (g : rdb -> A) : does R (query f g).
Proof. apply does_stmt. intros db. reflexivity. Qed.

Lemma does_exec f (g : rdb -> rdb) : (forall db, R db (g db)) -> does R (exec f g).
Proof. intros Hg. by apply does_stmt. Qed.

Lemma does_try {A} (m h : M A) : does R m -> does R h -> does R (try m h).
Proof.
  intros Hm Hh db. unfold try. specialize (Hm db). destruct (m db) as [[a| |] db']; cbn in *; [done | | done].
  etrans; [done | apply Hh].
Qed.

Lemma does_await {A} (r : result fault A) : does R (await r).
Proof. destruct r as [|[]]; [apply does_ret | apply does_raise | apply does_raise | apply does_die]. Qed.

Lemma does_when_ok {A} (r : result schedule_error A) : does R (when_ok r).
Proof. destruct r; [apply does_ret | apply does_raise]. Qed.
End Does.

(** Structural rules; what is left are the updates. *)
Ltac does_tac :=
  repeat first
    [ assumption
    | match goal with
      | |- does _ (ret _) => apply does_ret; typeclasses eauto
      | |- does _ raise => apply does_raise; typeclasses eauto
      | |- does _ (fun db => (Die, db)) => apply does_die; typeclasses eauto
      | |- does _ (query _ _) => apply does_query; typeclasses eauto
      | |- does _ (await _) => apply does_await; typeclasses eauto
      | |- does _ (when_ok _) => apply does_when_ok; typeclasses eauto
      | |- does _ (bind _ _) => apply does_bind; [typeclasses eauto | | intros ?]
      | |- does _ (try _ _) => apply does_try; [typeclasses eauto | |]
      | |- does _ (if ?b then _ else _) => destruct b
      | |- does _ (match ?x with _ => _ end) => destruct x
      end ].

(** ** Runs only progress *)

(** A run keeps its identity, and once completed stays so. *)
Definition progresses (r r' : run_row) : Prop :=
  (rn_id r', rn_schedule r', rn_slot r') = (rn_id r, rn_schedule r, rn_slot r)
  /\ (rn_completed r <> None -> rn_completed r' <> None).

#[export] Instance progresses_refl : Reflexive progresses.
Proof. by intros r. Qed.
#[export] Instance progresses_trans : Transitive progresses.
Proof. intros a b c [E1 C1] [E2 C2]. split; [congruence | auto]. Qed.

Definition run_key (r : run_row) : Z * Z := (rn_schedule r, rn_slot r).

(** Identifiers are fresh and a slot has one run. *)
Definition runs_ok (db : rdb) : Prop :=
  NoDup (map rn_id (rd_runs db)) /\ Forall (fun r => rn_id r < rd_next_id db) (rd_runs db)
  /\ NoDup (map run_key (rd_runs db)).

(** Rows stay, new ones are added with fresh identifiers and keys. *)
Definition runs_grow (db db' : rdb) : Prop :=
  (runs_ok db -> runs_ok db') /\ rd_next_id db <= rd_next_id db'
  /\ forall r, r ∈ rd_runs db -> exists r', r' ∈ rd_runs db' /\ progresses r r'.

#[export] Instance runs_grow_refl : Reflexive runs_grow.
Proof. intros db. split; [done|]. split; [lia|]. intros r Hr. by exists r. Qed.
#[export] Instance runs_grow_trans : Transitive runs_grow.
Proof.
  intros a b c (O1 & N1 & G1) (O2 & N2 & G2). split; [auto|]. split; [lia|].
  intros r Hr. destruct (G1 r Hr) as (r1 & H1 & P1). destruct (G2 r1 H1) as (r2 & H2 & P2).
  exists r2. split; [done | by etrans].
Qed.

Lemma grow_same_runs db db' : rd_runs db' = rd_runs db -> rd_next_id db <= rd_next_id db' -> runs_grow db db'.
Proof.
  intros E N. split; [|split; [done|]].
  - unfold runs_ok. rewrite E. intros (U & L & K). split_and!; [done | | done].
    eapply Forall_impl; [exact L | cbn; lia].
  - rewrite E. intros r Hr. by exists r.
Qed.

Lemma grow_on_runs p f db : (forall r, p r = true -> progresses r (f r)) -> runs_grow db (on_runs p f db).
Proof.
  intros Hf.
  assert (forall r, progresses r (if p r then f r else r)) as H by (intros r; destruct (p r) eqn:E; [by apply Hf | done]).
  assert (map rn_id (rd_runs (on_runs p f db)) = map rn_id (rd_runs db)
          /\ map run_key (rd_runs (on_runs p f db)) = map run_key (rd_runs db)) as [Ei Ek].
  { cbn. rewrite !map_map. split; apply map_ext; intros r; destruct (H r) as [E _]; unfold run_key; congruence. }
  split; [|split; [done|]].
  - intros (U & L & K). split_and!; [by rewrite Ei | | by rewrite Ek]. cbn. apply Forall_map.
    eapply Forall_impl; [exact L|]. intros r. cbn. destruct (H r) as [E _]. intros; congruence.
  - intros r Hr. exists (if p r then f r else r). split; [|apply H]. cbn. apply list_elem_of_fmap. by exists r.
Qed.

Lemma grow_claim now sid slot db : runs_grow db (snd (claim_run now sid slot db)).
Proof.
  unfold claim_run. destruct (existsb _ _) eqn:E; [reflexivity|]. cbn [snd].
  split; [|split; [cbn; lia | intros r Hr; exists r; split; [cbn; apply elem_of_app; by left | done]]].
  intros (U & L & K). unfold runs_ok. cbn. rewrite !map_app. cbn [map].
  assert (forall x, x ∈ rd_runs db -> rn_id x < rd_next_id db) as Lx by (by apply Forall_forall).
  split_and!.
  - apply NoDup_app. split_and!; [done | | apply NoDup_singleton].
    intros i (r & -> & Hr)%list_elem_of_fmap Hi%list_elem_of_singleton. apply Lx in Hr. cbn in Hi. lia.
  - apply Forall_app. split; [eapply Forall_impl; [exact L | cbn; lia]|]. constructor; [cbn; lia | constructor].
  - apply NoDup_app. split_and!; [done | | apply NoDup_singleton].
    intros k (r & -> & Hr)%list_elem_of_fmap Hk%list_elem_of_singleton. unfold run_key in Hk. cbn in Hk.
    injection Hk as E1 E2. apply not_true_iff_false in E. apply E, existsb_exists. exists r.
    split; [by apply list_elem_of_In | apply andb_true_iff; split; apply Z.eqb_eq; congruence].
Qed.

Lemma grow_finalize now run st rep db : runs_grow db (finalize_run now run st rep db).
Proof. apply grow_on_runs. intros r _. by split. Qed.

Lemma grow_persist run rep db : runs_grow db (_persist_run_report_id run rep db).
Proof. apply grow_on_runs. intros r _. by split. Qed.

Lemma grow_emit depot sid run mode st ps db : runs_grow db (snd (emit_report_draft_action depot sid run mode st ps db)).
Proof. unfold emit_report_draft_action. destruct (existsb _ _); [reflexivity | by apply grow_same_runs]. Qed.

Lemma grow_last_status run st db : runs_grow db (_update_schedule_last_run_status run st db).
Proof.
  unfold _update_schedule_last_run_status. destruct (fetch_run run db); [|reflexivity].
  destruct (forallb _ _); [by apply grow_same_runs | reflexivity].
Qed.

Lemma grow_deliver_one env run rec : does runs_grow (deliver_one env run rec).
Proof.
  unfold deliver_one. does_tac; apply does_exec; try typeclasses eauto; intros db; by apply grow_same_runs.
Qed.

Lemma grow_deliver env run rows : does runs_grow (_deliver_to_recipients env run rows).
Proof.
  unfold _deliver_to_recipients. does_tac. rename a into already. generalize true. induction rows as [|rec rows IH]; intros b; cbn; does_tac.
  - apply IH.
  - apply grow_deliver_one.
  - apply IH.
Qed.

Lemma grow_emits f depot sid run mode st ps : does runs_grow (stmt f (emit_report_draft_action depot sid run mode st ps)).
Proof. apply does_stmt; [typeclasses eauto | intros db; apply grow_emit]. Qed.

Lemma grow_finish env s run mode ps rep : does runs_grow (finish_run env s run mode ps rep).
Proof.
  unfold finish_run. does_tac; try apply grow_deliver; try apply grow_emits.
  - apply does_stmt; [typeclasses eauto | intros db].
    destruct (emit_report_draft_action _ _ _ _ _ _ db) as [i db1] eqn:E. cbn [snd].
    etrans; [|apply grow_finalize]. change db1 with (snd (i, db1)). rewrite <- E. apply grow_emit.
  - apply does_exec; [typeclasses eauto | intros db; apply grow_finalize].
Qed.

Lemma grow_execute env s run now slot : does runs_grow (execute_schedule_run env s run now slot).
Proof.
  unfold execute_schedule_run, resolve_autonomy_mode. does_tac; try apply grow_finish;
    apply does_exec; try typeclasses eauto; intros db; apply grow_finalize || apply grow_persist.
Qed.

Lemma grow_guarded env after s run now slot : does runs_grow (run_guarded env after s run now slot).
Proof.
  unfold run_guarded. does_tac; [apply grow_execute|]. apply does_exec; [typeclasses eauto | intros db; apply grow_finalize].
Qed.

Lemma grow_restart now sid slot th db : runs_grow db (snd (restart_stale now sid slot th db)).
Proof. apply grow_on_runs. intros r _. by split. Qed.

Lemma grow_pending env run : does runs_grow (deliver_pending_run env run).
Proof.
  unfold deliver_pending_run. does_tac; try apply grow_deliver;
    try (apply does_exec; [typeclasses eauto | intros db; apply grow_last_status]);
    apply does_stmt; try typeclasses eauto; intros db; apply grow_on_runs; intros x _; by split.
Qed.

Lemma grow_skip env run : does runs_grow (skip_pending_run env run).
Proof.
  unfold skip_pending_run. does_tac.
  - apply does_stmt; [typeclasses eauto|]. intros db. apply grow_on_runs. intros x _. by split.
  - apply does_exec; [typeclasses eauto | intros db; apply grow_last_status].
Qed.

Section Ticks.
Context (env : tick_env) (Hmean : forall db, runs_grow db (te_meanwhile env db)).

Lemma grow_fire s slot now : does runs_grow (fire_slot env s slot now).
Proof.
  unfold fire_slot. does_tac;
    try (apply does_stmt; [typeclasses eauto | intros db; apply grow_claim || apply grow_restart]);
    try apply grow_guarded; apply does_exec; try typeclasses eauto; apply Hmean.
Qed.

Lemma grow_tick_one now s : does runs_grow (tick_one env now s).
Proof.
  unfold tick_one. destruct (sc_next s) as [slot|]; [|does_tac]. destruct (te_zone env); [|does_tac|does_tac].
  apply does_bind; [typeclasses eauto | apply grow_fire | intros [status|]; does_tac].
  apply does_exec; [typeclasses eauto|]. intros db. unfold advance. destruct status; by apply grow_same_runs.
Qed.
End Ticks.

(** ** Histories *)

Inductive report_op :=
| RTick (envs : Z -> tick_env) (now : Z)
| RRunNow (env : run_env) (claim after update : fault) (now : Z) (depot : string) (id : Z)
| RApprove (env : run_env) (run : Z)
| RReject (env : run_env) (run : Z)
| RWebhook (message status : string)
| RCreate (now : Z) (zone : option tz) (input : pyobj) (depot : string)
| RUpdate (now : Z) (zone : option tz) (depot : string) (id : Z) (patch : list (string * pyobj))
| RDelete (depot : string) (id : Z).

Definition report_step (o : report_op) (db : rdb) : rdb :=
  match o with
  | RTick envs now => snd (_tick envs now db)
  | RRunNow env claim after update now depot id => snd (_handle_report_schedule_run_now env claim after update now depot id db)
  | RApprove env run => snd (deliver_pending_run env run db)
  | RReject env run => snd (skip_pending_run env run db)
  | RWebhook message status => snd (append_delivery_status_from_webhook message status db)
  | RCreate now zone input depot => snd (_handle_report_schedule_create now zone input depot db)
  | RUpdate now zone depot id patch => snd (_handle_report_schedule_update now zone depot id patch db)
  | RDelete depot id => snd (delete_schedule depot id db)
  end.

Definition report_run (ops : list report_op) (db : rdb) : rdb := fold_left (fun db o => report_step o db) ops db.

(** No other task interferes with the worker. *)
Definition undisturbed (o : report_op) : Prop :=
  match o with RTick envs _ => forall id db, te_meanwhile (envs id) db = db | _ => True end.

Lemma upsert_recipient_frame sid db r :
  let db' := upsert_recipient sid db r in
  rd_runs db' = rd_runs db /\ rd_schedules db' = rd_schedules db /\ rd_deliveries db' = rd_deliveries db
  /\ rd_mails db' = rd_mails db /\ rd_next_id db <= rd_next_id db'.
Proof. unfold upsert_recipient. destruct (existsb _ _); cbn; split_and!; done || lia. Qed.

Lemma upserts_frame sid rs db :
  let db' := foldl (upsert_recipient sid) db rs in
  rd_runs db' = rd_runs db /\ rd_schedules db' = rd_schedules db /\ rd_deliveries db' = rd_deliveries db
  /\ rd_mails db' = rd_mails db /\ rd_next_id db <= rd_next_id db'.
Proof.
  revert db. induction rs as [|r rs IH]; intros db; cbn [foldl]; [split_and!; done || lia|].
  destruct (IH (upsert_recipient sid db r)) as (-> & -> & -> & -> & N).
  destruct (upsert_recipient_frame sid db r) as (-> & -> & -> & -> & N'). split_and!; done || lia.
Qed.

Lemma replace_frame sid rs db :
  let db' := replace_recipients sid rs db in
  rd_runs db' = rd_runs db /\ rd_schedules db' = rd_schedules db /\ rd_mails db' = rd_mails db
  /\ rd_next_id db <= rd_next_id db'.
Proof.
  unfold replace_recipients. cbn zeta.
  match goal with |- context [foldl _ ?x rs] => destruct (upserts_frame sid rs x) as (-> & -> & _ & -> & N) end.
  split_and!; done.
Qed.

Lemma grow_create now zone input depot db :
  runs_grow db (snd (_handle_report_schedule_create now zone input depot db)).
Proof.
  unfold _handle_report_schedule_create. destruct (rbind _ _) as [[norm next]|]; [|reflexivity]. cbn [snd insert_schedule].
  match goal with |- context [replace_recipients ?i ?r ?d] => destruct (replace_frame i r d) as (E & _ & _ & N) end.
  apply grow_same_runs; [by rewrite E | cbn in N; lia].
Qed.

Lemma grow_update now zone depot id patch db :
  runs_grow db (snd (_handle_report_schedule_update now zone depot id patch db)).
Proof.
  unfold _handle_report_schedule_update. destruct (fetch_schedule_row depot id db); [|reflexivity].
  destruct (normalize_patch_payload _ _) as [norm|]; [|reflexivity]. destruct (if existsb _ _ then _ else _) as [next|]; [|reflexivity].
  cbn [snd]. destruct (dmem _ _); [|by apply grow_same_runs].
  match goal with |- context [replace_recipients ?i ?r ?d] => destruct (replace_frame i r d) as (E & _ & _ & N) end.
  apply grow_same_runs; [by rewrite E | exact N].
Qed.

Lemma grow_tick envs now : (forall id db, te_meanwhile (envs id) db = db) -> does runs_grow (_tick envs now).
Proof.
  intros Hu. assert (forall l, does runs_grow (tick_each envs now l)) as H.
  { intros l. induction l as [|s l IH]; cbn; does_tac. apply grow_tick_one. intros db. by rewrite Hu. }
  intros db. apply H.
Qed.

Lemma grow_run_now env claim after update now depot id :
  does runs_grow (_handle_report_schedule_run_now env claim after update now depot id).
Proof.
  intros db. unfold _handle_report_schedule_run_now. destruct (fetch_schedule_row depot id db); [|reflexivity].
  match goal with |- runs_grow db (snd (?m db)) => enough (does runs_grow m) as H by apply H end.
  does_tac; [apply does_stmt; [typeclasses eauto | intros; apply grow_claim] | apply grow_guarded |].
  apply does_exec; [typeclasses eauto | intros; by apply grow_same_runs].
Qed.

(** Everything but a deletion lets runs grow. *)
Lemma step_grows o db : undisturbed o -> (forall depot id, o <> RDelete depot id) -> runs_grow db (report_step o db).
Proof.
  destruct o; cbn [report_step undisturbed]; intros Hu Hd.
  - by apply grow_tick.
  - apply grow_run_now.
  - apply grow_pending.
  - apply grow_skip.
  - unfold append_delivery_status_from_webhook. destruct (latest_delivery _ _); [|reflexivity].
    destruct (_ && _); [reflexivity | by apply grow_same_runs].
  - apply grow_create.
  - apply grow_update.
  - by destruct (Hd depot id).
Qed.

Lemma NoDup_map_filter {A B} (f : A -> B) p l : NoDup (map f l) -> NoDup (map f (List.filter p l)).
Proof.
  induction l as [|x l IH]; cbn; [done|]. intros [Hx Hl]%NoDup_cons. destruct (p x); cbn; [|auto].
  apply NoDup_cons. split; [|auto]. intros (y & E & [Hy _]%elem_of_lfilter)%list_elem_of_fmap. apply Hx, list_elem_of_fmap. eauto.
Qed.

Lemma delete_runs_ok depot id db : runs_ok db -> runs_ok (snd (delete_schedule depot id db)).
Proof.
  intros (U & L & K). unfold delete_schedule. destruct (fetch_schedule_row depot id db); [|done].
  unfold runs_ok. cbn. split_and!; try by apply NoDup_map_filter.
  apply Forall_forall. intros r [Hr _]%elem_of_lfilter. by apply (proj1 (Forall_forall _ _) L).
Qed.

Lemma NoDup_map_elem {A B} (f : A -> B) l x y : NoDup (map f l) -> x ∈ l -> y ∈ l -> f x = f y -> x = y.
Proof.
  induction l as [|z l IH]; cbn; [by intros _ ?%not_elem_of_nil|].
  intros [Hz Hl]%NoDup_cons [->|Hx]%elem_of_cons [->|Hy]%elem_of_cons E; [done | | | auto];
    destruct Hz; apply list_elem_of_fmap; eauto.
Qed.

Lemma step_runs_ok o db : undisturbed o -> runs_ok db -> runs_ok (report_step o db).
Proof.
  intros Hu Hr. destruct o; try (by apply step_grows). by apply delete_runs_ok.
Qed.

Lemma run_runs_ok ops db : Forall undisturbed ops -> runs_ok db -> runs_ok (report_run ops db).
Proof.
  revert db. induction ops as [|o ops IH]; intros db Hu Hr; [done|]. apply Forall_cons in Hu as [Ho Hu].
  apply IH; [done | by apply step_runs_ok].
Qed.

(** After any operations a schedule has at most one run per slot. *)
Theorem one_run_per_slot ops db :
  Forall undisturbed ops -> runs_ok db -> NoDup (map (fun r => (rn_schedule r, rn_slot r)) (rd_runs (report_run ops db))).
Proof. intros Hu Hr. apply (run_runs_ok ops db Hu Hr). Qed.

(** ** A run that returns is completed *)

Definition has_run (run : Z) (db : rdb) : Prop := exists r, r ∈ rd_runs db /\ rn_id r = run.
Definition completed_run (run : Z) (db : rdb) : Prop :=
  exists r, r ∈ rd_runs db /\ rn_id r = run /\ rn_completed r <> None.

Definition completes {A} (run : Z) (m : M A) : Prop :=
  forall db a db', has_run run db -> m db = (Ret a, db') -> completed_run run db'.

Lemma has_run_grows run db db' : runs_grow db db' -> has_run run db -> has_run run db'.
Proof.
  intros (_ & _ & G) (r & Hr & E). destruct (G r Hr) as (r' & Hr' & E' & _). exists r'. split; [done | congruence].
Qed.

Lemma completes_bind {A B} run (m : M A) (k : A -> M B) :
  does runs_grow m -> (forall a, completes run (k a)) -> completes run (bind m k).
Proof.
  intros Hm Hk db b db' Hr. unfold bind. specialize (Hm db). destruct (m db) as [[a| |] db1]; [|done|done].
  cbn in Hm. apply Hk. by eapply has_run_grows.
Qed.

Lemma completes_raise {A} run : completes run (@raise A).
Proof. done. Qed.

Lemma finalize_completes now run st rep db : has_run run db -> completed_run run (finalize_run now run st rep db).
Proof.
  intros (r & Hr & E). exists (with_outcome now st rep r). split_and!; [|done|done].
  cbn. apply list_elem_of_fmap. exists r. by rewrite E, Z.eqb_refl.
Qed.

Lemma completes_final {A} run f now st rep (a : A) :
  completes run (let! _ := exec f (finalize_run now run st rep) in ret a).
Proof.
  intros db x db' Hr. unfold exec, stmt, bind, ret. destruct f; [|done|done]. intros [= <- <-]. by apply finalize_completes.
Qed.

Lemma completes_try {A} run (m h : M A) : does runs_grow m -> completes run m -> completes run h -> completes run (try m h).
Proof.
  intros Hm Cm Ch db a db' Hr. unfold try. specialize (Hm db). destruct (m db) as [[x| |] db1] eqn:E; [|  |done].
  - intros [= <- <-]. by eapply Cm.
  - cbn in Hm. apply Ch. by eapply has_run_grows.
Qed.

Lemma completes_finish env s run mode ps rep : completes run (finish_run env s run mode ps rep).
Proof.
  unfold finish_run. destruct (String.eqb mode "proposed").
  - intros db st db' Hr. unfold stmt. destruct (ev_emit env); [|done|done].
    destruct (emit_report_draft_action _ _ _ _ _ _ db) as [i db1] eqn:E. intros [= <- <-].
    apply finalize_completes. eapply has_run_grows; [|done]. change db1 with (snd (i, db1)). rewrite <- E. apply grow_emit.
  - apply completes_bind; [does_tac|]. intros found. apply completes_bind; [does_tac|]. intros rows.
    apply completes_bind; [does_tac; apply grow_deliver|]. intros _.
    apply completes_bind; [does_tac; apply grow_emits|]. intros _. apply completes_final.
Qed.

Lemma completes_execute env s run now slot : completes run (execute_schedule_run env s run now slot).
Proof.
  unfold execute_schedule_run. destruct (ev_zone env) as [z|]; [|apply completes_raise]. cbn zeta.
  apply completes_bind; [unfold resolve_autonomy_mode; does_tac|]. intros mode.
  destruct (String.eqb mode "shadow"); [apply completes_final|].
  apply completes_bind; [does_tac|]. intros period. apply completes_bind; [does_tac|]. intros existing.
  destruct (existing ≫= rn_report) as [rep|]; [apply completes_finish|].
  destruct (ev_generate env) as [rep|[]]; try done; try apply completes_final.
  apply completes_bind; [|intros _; apply completes_finish].
  apply does_exec; [typeclasses eauto | intros db; apply grow_persist].
Qed.

Lemma completes_guarded env after s run now slot : completes run (run_guarded env after s run now slot).
Proof.
  unfold run_guarded. apply completes_try; [apply grow_execute | apply completes_execute | apply completes_final].
Qed.

(** The slot has a completed run. *)
Definition slot_done (sid slot : Z) (db : rdb) : Prop :=
  exists r, r ∈ rd_runs db /\ rn_schedule r = sid /\ rn_slot r = slot /\ rn_completed r <> None.

Lemma slot_done_grows sid slot db db' : runs_grow db db' -> slot_done sid slot db -> slot_done sid slot db'.
Proof.
  intros (_ & _ & G) (r & Hr & E1 & E2 & C). destruct (G r Hr) as (r' & Hr' & E & C'). exists r'.
  split_and!; [done | congruence | congruence | auto].
Qed.

(** A run of the slot that is executed to its end. *)
Lemma executed_done env after s run now slot db st db' r :
  runs_ok db -> r ∈ rd_runs db -> rn_id r = run -> rn_schedule r = sc_id s -> rn_slot r = slot ->
  run_guarded env after s run now (Some slot) db = (Ret st, db') -> slot_done (sc_id s) slot db'.
Proof.
  intros Ho Hr Ei Es El E. pose proof (grow_guarded env after s run now (Some slot) db) as G. rewrite E in G. cbn in G.
  destruct (completes_guarded env after s run now (Some slot) db st db') as (r1 & H1 & E1 & C1); [by exists r | done |].
  destruct G as (Go & _ & G). destruct (G r Hr) as (r2 & H2 & E2 & _). injection E2 as E2a E2b E2c.
  assert (r1 = r2) as ->.
  { destruct (Go Ho) as (U & _). eapply (NoDup_map_elem rn_id); [exact U | done | done | congruence]. }
  exists r2. split_and!; [done | congruence | congruence | done].
Qed.

Lemma claim_spec now sid slot db :
  match claim_run now sid slot db with
  | (Some id, db') => exists r, r ∈ rd_runs db' /\ rn_id r = id /\ rn_schedule r = sid /\ rn_slot r = slot
  | (None, db') => db' = db /\ exists r, r ∈ rd_runs db /\ rn_schedule r = sid /\ rn_slot r = slot
  end.
Proof.
  unfold claim_run. destruct (existsb _ _) eqn:E.
  - split; [done|]. apply existsb_exists in E as (r & Hr%list_elem_of_In & [E1%Z.eqb_eq E2%Z.eqb_eq]%andb_true_iff). eauto.
  - eexists. split; [cbn; apply elem_of_app; right; apply list_elem_of_here | done].
Qed.

Lemma fire_done env s slot now db status db' :
  (forall db, te_meanwhile env db = db) -> runs_ok db -> fire_slot env s slot now db = (Ret (Some status), db') ->
  slot_done (sc_id s) slot db'.
Proof.
  intros Hm Ho. unfold fire_slot. unfold bind at 1. unfold stmt at 1. destruct (te_claim env); [|done|done].
  pose proof (claim_spec (ev_now (te_run env)) (sc_id s) slot db) as C.
  pose proof (grow_claim (ev_now (te_run env)) (sc_id s) slot db) as (Go & _).
  destruct (claim_run _ _ _ db) as [[id|] db1]; cbn [snd] in Go.
  - destruct C as (r & Hr & Ei & Es & El). unfold bind at 1. destruct (run_guarded _ _ _ _ _ _ db1) as [[st| |] db2] eqn:E; [|done|done].
    unfold exec, stmt, bind, ret. rewrite Hm. intros [= <- <-].
    by apply (executed_done (te_run env) (te_after env) s id now slot db1 st db2 r (Go Ho) Hr Ei Es El).
  - destruct C as [-> (r & Hr & Es & El)]. unfold bind at 1, stmt at 1. destruct (te_stale env); [|done|done].
    unfold restart_stale. set (hit := fun r => _ && _). destruct (List.find hit (rd_runs db)) as [x|] eqn:F; cbn [option_map].
    + apply List.find_some in F as [Hx%list_elem_of_In Hh]. unfold hit in Hh.
      rewrite !andb_true_iff, !Z.eqb_eq in Hh. destruct Hh as [[[Hs Hl] _] _].
      set (db1 := on_runs hit _ db). assert (runs_grow db db1) as G by (apply grow_on_runs; intros y _; by split).
      destruct G as (G1 & _ & G2). destruct (G2 x Hx) as (x' & Hx' & Ex & _). injection Ex as Exa Exb Exc.
      unfold bind at 1. destruct (run_guarded _ _ _ _ _ _ db1) as [[st| |] db2] eqn:E; [|done|done].
      unfold exec, stmt, bind, ret. rewrite Hm. intros [= <- <-].
      eapply executed_done; [| exact Hx' | | | | exact E]; [by apply G1 | done | congruence | congruence].
    + unfold bind, query, stmt, ret. destruct (te_in_flight env); [|done|done].
      destruct (in_flight _ _ _ _) eqn:B; intros [= <- <-].
      assert (forall y, y ∈ rd_runs db -> hit y = false) as Hn.
      { intros y Hy. apply (List.find_none _ _ F). by apply list_elem_of_In. }
      exists r. split_and!; [|done|done|].
      * cbn. apply list_elem_of_fmap. exists r. by rewrite Hn.
      * intros Hc. unfold in_flight in B. apply not_true_iff_false in B. apply B, existsb_exists. exists r.
        split; [apply list_elem_of_In; cbn; apply list_elem_of_fmap; exists r; by rewrite Hn|].
        specialize (Hn r Hr). unfold hit in Hn. rewrite Es, El, !Z.eqb_refl, Hc in *. cbn in *.
        apply Z.leb_gt in Hn. by apply Z.ltb_lt.
Qed.

(** ** What happens to the schedules *)

Definition same_schedules (db db' : rdb) : Prop := rd_schedules db' = rd_schedules db.

#[export] Instance same_schedules_refl : Reflexive same_schedules.
Proof. done. Qed.
#[export] Instance same_schedules_trans : Transitive same_schedules.
Proof. unfold same_schedules. congruence. Qed.

Lemma same_deliver env run rows : does same_schedules (_deliver_to_recipients env run rows).
Proof.
  assert (forall rec, does same_schedules (deliver_one env run rec)) as H.
  { intros rec. unfold deliver_one. does_tac; apply does_exec; by try typeclasses eauto. }
  unfold _deliver_to_recipients. does_tac. rename a into already. generalize true.
  induction rows as [|rec rows IH]; intros b; cbn; does_tac; apply IH || apply H.
Qed.

Lemma emit_same depot sid run mode st ps db :
  same_schedules db (snd (emit_report_draft_action depot sid run mode st ps db)).
Proof. unfold emit_report_draft_action. by destruct (existsb _ _). Qed.

Lemma same_finish env s run mode ps rep : does same_schedules (finish_run env s run mode ps rep).
Proof.
  unfold finish_run. does_tac; try apply same_deliver;
    try (apply does_stmt; [typeclasses eauto | intros db; apply emit_same]);
    try (apply does_exec; by try typeclasses eauto).
  apply does_stmt; [typeclasses eauto | intros db].
  pose proof (emit_same (sc_depot s) (sc_id s) run "proposed" "pending" ps db) as E.
  by destruct (emit_report_draft_action _ _ _ _ _ _ db) as [i db1].
Qed.

Lemma same_guarded env after s run now slot : does same_schedules (run_guarded env after s run now slot).
Proof.
  unfold run_guarded, execute_schedule_run, resolve_autonomy_mode. does_tac; try apply same_finish;
    apply does_exec; by try typeclasses eauto.
Qed.

Lemma same_fire env s slot now :
  (forall db, te_meanwhile env db = db) -> does same_schedules (fire_slot env s slot now).
Proof.
  intros Hm. unfold fire_slot. does_tac; try apply same_guarded.
  - apply does_stmt; [typeclasses eauto|]. intros db. unfold claim_run. by destruct (existsb _ _).
  - apply does_exec; [typeclasses eauto|]. intros db. by rewrite Hm.
  - by apply does_stmt; [typeclasses eauto|].
  - apply does_exec; [typeclasses eauto|]. intros db. by rewrite Hm.
Qed.

(** Fresh identifiers, and the row of one schedule as far as the worker reads it. *)
Definition schedules_ok (db : rdb) : Prop :=
  NoDup (map sc_id (rd_schedules db)) /\ Forall (fun s => sc_id s < rd_next_id db) (rd_schedules db).

Definition planned (sid : Z) (n : NormalizedScheduleInput) (next : option Z) (db : rdb) : Prop :=
  exists s, s ∈ rd_schedules db /\ sc_id s = sid /\ sc_input s = n /\ sc_next s = next.

Definition keeps (sid : Z) (db db' : rdb) : Prop :=
  (schedules_ok db -> schedules_ok db') /\ rd_next_id db <= rd_next_id db'
  /\ forall n next, planned sid n next db -> planned sid n next db'.

#[export] Instance keeps_refl sid : Reflexive (keeps sid).
Proof. intros db. split_and!; done || lia. Qed.
#[export] Instance keeps_trans sid : Transitive (keeps sid).
Proof. intros a b c (O1 & N1 & K1) (O2 & N2 & K2). split_and!; auto; lia. Qed.

Lemma schedules_ok_next db db' :
  rd_schedules db' = rd_schedules db -> rd_next_id db <= rd_next_id db' -> schedules_ok db -> schedules_ok db'.
Proof. intros E N [U L]. unfold schedules_ok. rewrite E. split; [done|]. eapply Forall_impl; [exact L | cbn; lia]. Qed.

Lemma keeps_same sid db db' : same_schedules db db' -> rd_next_id db <= rd_next_id db' -> keeps sid db db'.
Proof.
  intros E N. split; [by apply schedules_ok_next|]. split; [done|]. unfold planned. by rewrite E.
Qed.

(** An update of a schedule that keeps identifiers. *)
Lemma schedules_ok_on id f db : (forall s, sc_id (f s) = sc_id s) -> schedules_ok db -> schedules_ok (on_schedule id f db).
Proof.
  intros Hf [U L]. unfold schedules_ok. cbn. split.
  - rewrite map_map. replace (map (fun x => sc_id (if sc_id x =? id then f x else x)) (rd_schedules db))
      with (map sc_id (rd_schedules db)); [done|]. apply map_ext. intros s. destruct (sc_id s =? id); by rewrite ?Hf.
  - apply Forall_map. eapply Forall_impl; [exact L|]. intros s. cbn. destruct (sc_id s =? id); by rewrite ?Hf.
Qed.

Lemma keeps_on sid id f db :
  (forall s, sc_id (f s) = sc_id s) ->
  (id <> sid \/ forall s, sc_input (f s) = sc_input s /\ sc_next (f s) = sc_next s) ->
  keeps sid db (on_schedule id f db).
Proof.
  intros Hf Hx. split; [by apply schedules_ok_on|]. split; [done|].
  intros n next (s & Hs & E1 & E2 & E3). exists (if sc_id s =? id then f s else s).
  split; [cbn; apply list_elem_of_fmap; by exists s|].
  destruct (Z.eqb_spec (sc_id s) id) as [Ei|]; [|done]. destruct Hx as [Hx|Hx]; [congruence|].
  destruct (Hx s) as [-> ->]. rewrite Hf. done.
Qed.

Lemma keeps_last_status sid run st db : keeps sid db (_update_schedule_last_run_status run st db).
Proof.
  unfold _update_schedule_last_run_status. destruct (fetch_run run db); [|reflexivity].
  destruct (forallb _ _); [|reflexivity]. apply keeps_on; [done | right; done].
Qed.

Lemma keeps_of {A} sid (m : M A) : does same_schedules m -> does runs_grow m -> does (keeps sid) m.
Proof. intros Hs Hg db. apply keeps_same; [apply Hs | apply Hg]. Qed.

(** The operations that do not concern the schedule. *)
Definition spares (sid : Z) (o : report_op) : Prop :=
  match o with RUpdate _ _ _ id _ | RDelete _ id => id <> sid | _ => True end.

Lemma keeps_create sid now zone input depot db :
  keeps sid db (snd (_handle_report_schedule_create now zone input depot db)).
Proof.
  unfold _handle_report_schedule_create. destruct (rbind _ _) as [[norm next]|]; [|reflexivity]. cbn [snd insert_schedule].
  match goal with |- context [replace_recipients ?i ?r ?d] => destruct (replace_frame i r d) as (_ & E & _ & N); set (db1 := d) in * end.
  assert (keeps sid db db1) as K.
  { split; [|split; [cbn; lia|]].
    - intros [U L]. unfold schedules_ok. cbn. rewrite map_app. split.
      + apply NoDup_app. split_and!; [done | | apply NoDup_singleton].
        intros i (s & -> & Hs)%list_elem_of_fmap Hi%list_elem_of_singleton. cbn in Hi.
        apply (proj1 (Forall_forall _ _) L) in Hs. lia.
      + apply Forall_app. split; [eapply Forall_impl; [exact L | cbn; lia]|]. constructor; [cbn; lia | constructor].
    - intros m next' (s & Hs & ?). exists s. split; [cbn; apply elem_of_app; by left | done]. }
  etrans; [exact K | by apply keeps_same].
Qed.

Lemma keeps_edit sid now zone depot id patch db :
  id <> sid -> keeps sid db (snd (_handle_report_schedule_update now zone depot id patch db)).
Proof.
  intros Hne. unfold _handle_report_schedule_update. destruct (fetch_schedule_row depot id db); [|reflexivity].
  destruct (normalize_patch_payload _ _) as [norm|]; [|reflexivity]. destruct (if existsb _ _ then _ else _) as [next|]; [|reflexivity].
  cbn [snd]. etrans; [|destruct (dmem _ _); [|reflexivity];
    match goal with |- keeps _ ?a _ => unify a (update_schedule_fields id norm next db) end;
    match goal with |- context [replace_recipients ?i ?r ?d] => destruct (replace_frame i r d) as (_ & E & _ & N) end;
    by apply keeps_same]. apply keeps_on; [done | by left].
Qed.

Lemma keeps_delete sid depot id db : id <> sid -> keeps sid db (snd (delete_schedule depot id db)).
Proof.
  intros Hne. unfold delete_schedule. destruct (fetch_schedule_row depot id db); [|reflexivity]. cbn [snd].
  split; [|split; [cbn; lia|]].
  - intros [U L]. split; cbn; [by apply NoDup_map_filter|]. apply Forall_forall. intros x [Hs _]%elem_of_lfilter.
    by apply (proj1 (Forall_forall _ _) L).
  - intros n next (s' & Hs & E & ?). exists s'. split; [|done]. cbn. apply elem_of_lfilter. split; [done|].
    rewrite E. apply negb_true_iff, Z.eqb_neq. congruence.
Qed.

Lemma keeps_run_now sid env claim after update now depot id :
  does (keeps sid) (_handle_report_schedule_run_now env claim after update now depot id).
Proof.
  intros db. unfold _handle_report_schedule_run_now. destruct (fetch_schedule_row depot id db); [|reflexivity].
  match goal with |- keeps _ db (snd (?m db)) => enough (does (keeps sid) m) as H by apply H end.
  does_tac.
  - apply does_stmt; [typeclasses eauto|]. intros db'. apply keeps_same; [|apply grow_claim].
    unfold claim_run. by destruct (existsb _ _).
  - apply keeps_of; [apply same_guarded | apply grow_guarded].
  - apply does_exec; [typeclasses eauto|]. intros db'. apply keeps_on; [done | right; done].
Qed.

(** ** No slot is passed over *)

Section Track.
Context (z : tz) `{ReportZone z} (sid : Z) (n : NormalizedScheduleInput) (d0 : Z).

Notation fires := (fires_on (ns_frequency n) (ns_day_of_month n) (ns_day_of_week n)).
Notation slot_on d := (slot z d (ns_time_of_day n)).

Context (Hc : cadence_ok (ns_frequency n) (ns_day_of_month n) (ns_day_of_week n)).

(** The schedule stands on a date of its cadence and every earlier one from [d0]
    on has a completed run. *)
Definition on_track (db : rdb) : Prop :=
  runs_ok db /\ schedules_ok db
  /\ exists d, fires d /\ d0 <= d /\ planned sid n (Some (slot_on d)) db
     /\ forall d', fires d' -> d0 <= d' < d -> slot_done sid (slot_on d') db.

Lemma on_track_keeps db db' : keeps sid db db' -> runs_grow db db' -> on_track db -> on_track db'.
Proof.
  intros (K1 & _ & K2) G (Ho & Hs & d & F & L & P & D). split; [by apply G|]. split; [auto|].
  exists d. split_and!; [done | done | auto |]. intros d' F' L'. eapply slot_done_grows; [exact G | auto].
Qed.

Lemma planned_unique db s next :
  schedules_ok db -> planned sid n next db -> s ∈ rd_schedules db -> sc_id s = sid -> sc_input s = n /\ sc_next s = next.
Proof.
  intros [U _] (s' & Hs' & E & E1 & E2) Hs Es. assert (s' = s) as -> by (eapply (NoDup_map_elem sc_id); [exact U | done | done | congruence]).
  done.
Qed.

Lemma advance_planned next0 next st db :
  planned sid n (Some next0) db -> planned sid n (Some next) (advance sid next next0 st db).
Proof.
  intros (s & Hs & E & E1 & E2). destruct st as [st|]; cbn [advance].
  - eexists. split; [cbn; apply list_elem_of_fmap; exists s; split; [reflexivity | done]|].
    by rewrite E, Z.eqb_refl.
  - eexists. split; [cbn; apply list_elem_of_fmap; exists s; split; [reflexivity | done]|].
    rewrite E, Z.eqb_refl, E2, bool_decide_true by done. done.
Qed.

Lemma tick_sid env now s db :
  (forall db, te_meanwhile env db = db) -> (forall z', ev_zone (te_run env) = Some z' -> z' = z) ->
  on_track db -> sc_id s = sid -> planned sid (sc_input s) (sc_next s) db -> on_track (snd (tick_one env now s db)).
Proof.
  intros Hm Hz' Ht Es Hp.
  assert (forall A (m : M A), does same_schedules m -> does runs_grow m -> on_track (snd (m db))) as Hkeep.
  { intros A m Hs Hg. eapply on_track_keeps; [by apply (keeps_of sid m) | apply Hg | done]. }
  assert (sc_input s = n /\ exists d, sc_next s = Some (slot_on d) /\ fires d /\ d0 <= d
          /\ forall d', fires d' -> d0 <= d' < d -> slot_done sid (slot_on d') db) as (En & d & Ed & F & L & D).
  { destruct Ht as (_ & Hok & d & F & L & P & D). destruct Hp as (x & Hx & Ex & E1 & E2).
    destruct (planned_unique db x _ Hok P Hx Ex) as [Ei Ej]. split; [congruence|]. exists d. split; [congruence | done]. }
  unfold tick_one. rewrite Ed. destruct (te_zone env); [|done|done].
  pose proof (same_fire env s (slot_on d) now Hm) as Sf.
  pose proof (grow_fire env (fun db => ltac:(rewrite Hm; reflexivity)) s (slot_on d) now) as Gf.
  unfold bind. destruct (fire_slot env s (slot_on d) now db) as [[[status|]| |] db1] eqn:E.
  2-4: (specialize (Hkeep _ (fire_slot env s (slot_on d) now) Sf Gf); by rewrite E in Hkeep).
  assert (on_track db1) as Ht1 by (specialize (Hkeep _ _ Sf Gf); by rewrite E in Hkeep).
  assert (slot_done sid (slot_on d) db1) as Dd.
  { rewrite <- Es. eapply fire_done; [exact Hm | apply Ht | exact E]. }
  destruct (compute_next_run_at _ _ _ _ _ _) as [next|] eqn:En1; [|done].
  rewrite En in En1. destruct (ev_zone (te_run env)) as [z'|] eqn:Ez; [|by cbn in En1]. rewrite (Hz' z' eq_refl) in En1.
  destruct (next_run_spec z (slot_on d) (ns_frequency n) (ns_time_of_day n) _ _ H Hc) as (r & Er & d1 & F1 & -> & Hn & Hmin).
  rewrite Er in En1. injection En1 as <-.
  assert (d < d1) as Hlt.
  { destruct (Z.lt_ge_cases d d1) as [|G]; [done|]. pose proof (slot_le z (ns_time_of_day n) d1 d G). lia. }
  unfold exec, stmt. destruct (te_update env); [|done|done]. cbn [snd]. rewrite Es.
  destruct Ht1 as (Ho1 & Hs1 & d' & F' & L' & P' & D').
  assert (d' = d) as ->.
  { destruct P' as (x & Hx & Ex & E1 & E2).
    assert (planned sid n (Some (slot_on d)) db1) as P.
    { eapply (keeps_same sid db db1); [specialize (Sf db); by rewrite E in Sf | specialize (Gf db); rewrite E in Gf; apply Gf|].
      rewrite Ed, En in Hp. exact Hp. }
    destruct (planned_unique db1 x _ Hs1 P Hx Ex) as [_ E3]. rewrite E2 in E3. injection E3 as E3.
    destruct (Z.lt_trichotomy d' d) as [G|[G|G]]; [|done|]; apply (slot_lt z (ns_time_of_day n)) in G; lia. }
  split_and!.
  - unfold advance. destruct status; exact Ho1.
  - unfold advance. destruct status; apply schedules_ok_on; try done. intros x. by destruct (bool_decide _).
  - exists d1. split_and!; [done | lia | by apply advance_planned|].
    intros x Fx Lx. assert (slot_done sid (slot_on x) db1) as Dx.
    { destruct (Z.lt_trichotomy x d) as [G|[->|G]]; [apply D'; [done | lia] | done|].
      destruct (Hmin x Fx) as [G' _]; [by apply slot_lt | lia]. }
    unfold advance. destruct status; exact Dx.
Qed.

Lemma keeps_tick_other env now s :
  (forall db, te_meanwhile env db = db) -> sc_id s <> sid -> does (keeps sid) (tick_one env now s).
Proof.
  intros Hm Hne. unfold tick_one. destruct (sc_next s) as [sl|]; [|does_tac]. destruct (te_zone env); [|does_tac|does_tac].
  apply does_bind; [typeclasses eauto | | intros [status|]; does_tac].
  - apply keeps_of; [by apply same_fire | apply grow_fire; intros db; by rewrite Hm].
  - apply does_exec; [typeclasses eauto|]. intros db. unfold advance. destruct status; apply keeps_on; try done; try by left.
    intros x. by destruct (bool_decide _).
Qed.

Lemma tick_on_track envs now db :
  (forall id db, te_meanwhile (envs id) db = db) -> (forall z', ev_zone (te_run (envs sid)) = Some z' -> z' = z) ->
  on_track db -> on_track (snd (_tick envs now db)).
Proof.
  intros Hm Hz' Ht. unfold _tick.
  assert (NoDup (map sc_id (due now db))) as Hnd by (apply NoDup_map_filter, Ht).
  assert (forall s, s ∈ due now db -> sc_id s = sid -> planned sid (sc_input s) (sc_next s) db) as Hp.
  { intros s [Hs _]%elem_of_lfilter E. by exists s. }
  revert Hnd Hp. generalize (due now db). intros l. revert db Ht.
  induction l as [|s l IH]; intros db Ht Hnd Hp; [done|]. apply NoDup_cons in Hnd as [Hs Hnd]. cbn [tick_each]. unfold bind.
  assert (on_track (snd (tick_one (envs (sc_id s)) now s db))
          /\ forall x, x ∈ l -> sc_id x = sid -> planned sid (sc_input x) (sc_next x) (snd (tick_one (envs (sc_id s)) now s db))) as [Ht1 Hp1].
  { destruct (decide (sc_id s = sid)) as [E|E].
    - split; [apply tick_sid; try done; [by rewrite E | apply Hp; [left | done]]|].
      intros x Hx Ex. destruct Hs. apply list_elem_of_fmap. exists x. split; [congruence | done].
    - pose proof (keeps_tick_other (envs (sc_id s)) now s (Hm _) E db) as K. split.
      + eapply on_track_keeps; [exact K | apply grow_tick_one; intros; by rewrite Hm | done].
      + intros x Hx Ex. apply K, Hp; [by right | done]. }
  destruct (tick_one (envs (sc_id s)) now s db) as [[[]| |] db1]; cbn [snd] in *; [by apply IH | done | done].
Qed.

(** The zone of the schedule's depot does not change. *)
Definition in_zone (o : report_op) : Prop :=
  match o with RTick envs _ => forall z', ev_zone (te_run (envs sid)) = Some z' -> z' = z | _ => True end.

Lemma delete_slot_done depot id slot db : id <> sid -> slot_done sid slot db -> slot_done sid slot (snd (delete_schedule depot id db)).
Proof.
  intros Hne (r & Hr & E & ?). unfold delete_schedule. destruct (fetch_schedule_row depot id db); [|by exists r].
  exists r. split; [|done]. cbn. apply elem_of_lfilter. split; [done|]. apply negb_true_iff, Z.eqb_neq. congruence.
Qed.

Lemma step_on_track o db : undisturbed o -> spares sid o -> in_zone o -> on_track db -> on_track (report_step o db).
Proof.
  intros Hu Hs Hz' Ht.
  assert (forall (Hd : forall depot id, o <> RDelete depot id), keeps sid db (report_step o db) -> on_track (report_step o db)) as Hk.
  { intros Hd K. eapply on_track_keeps; [exact K | by apply step_grows | done]. }
  destruct o; cbn [report_step undisturbed spares in_zone] in *.
  - by apply tick_on_track.
  - apply Hk; [done | apply keeps_run_now].
  - apply Hk; [done|]. revert db Ht Hk. assert (does (keeps sid) (deliver_pending_run env run)) as K; [|intros; apply K].
    unfold deliver_pending_run. does_tac;
      try (apply keeps_of; [apply same_deliver | apply grow_deliver]);
      try (apply does_exec; [typeclasses eauto | intros; apply keeps_last_status]);
      apply does_stmt; try typeclasses eauto; intros db; by apply keeps_same.
  - apply Hk; [done|]. revert db Ht Hk. assert (does (keeps sid) (skip_pending_run env run)) as K; [|intros; apply K].
    unfold skip_pending_run. does_tac; try (apply does_exec; [typeclasses eauto | intros; apply keeps_last_status]);
      apply does_stmt; try typeclasses eauto; intros db; by apply keeps_same.
  - apply Hk; [done|]. unfold append_delivery_status_from_webhook. destruct (latest_delivery _ _); [|reflexivity].
    destruct (_ && _); [reflexivity | by apply keeps_same].
  - apply Hk; [done | apply keeps_create].
  - apply Hk; [done | by apply keeps_edit].
  - destruct Ht as (Ho & Hok & d & F & L & P & D). pose proof (keeps_delete sid depot id db Hs) as (K1 & _ & K2).
    split; [by apply delete_runs_ok|]. split; [auto|]. exists d. split_and!; [done | done | auto |].
    intros d' F' L'. apply delete_slot_done; [done | auto].
Qed.
End Track.


(** ** No recipient is mailed twice for a run *)

Definition recipients_ok (db : rdb) : Prop :=
  NoDup (map rp_id (rd_recipients db)) /\ Forall (fun r => rp_id r < rd_next_id db) (rd_recipients db).

Definition run_of (run sid : Z) (db : rdb) : Prop := exists r, r ∈ rd_runs db /\ rn_id r = run /\ rn_schedule r = sid.

Definition sent_row (run rcpt : Z) (db : rdb) : Prop :=
  exists d, d ∈ rd_deliveries db /\ dv_run d = run /\ dv_recipient d = Some rcpt /\ dv_status d = "sent"%string.

(** Every accepted mail to a recipient that still exists is in the ledger. *)
Definition accounted_mail (db : rdb) (m : Z * Z) : Prop :=
  snd m < rd_next_id db
  /\ forall rec, rec ∈ rd_recipients db -> rp_id rec = snd m ->
     run_of (fst m) (rp_schedule rec) db /\ sent_row (fst m) (snd m) db.

Definition mail_ok (db : rdb) : Prop :=
  runs_ok db /\ recipients_ok db /\ NoDup (rd_mails db) /\ Forall (accounted_mail db) (rd_mails db).

Lemma run_of_grows run sid db db' : runs_grow db db' -> run_of run sid db -> run_of run sid db'.
Proof.
  intros (_ & _ & G) (r & Hr & E1 & E2). destruct (G r Hr) as (r' & Hr' & E & _). exists r'. split_and!; [done | congruence | congruence].
Qed.

(** Changes that touch neither recipients nor mails and only add to the ledger. *)
Definition calm (db db' : rdb) : Prop :=
  runs_grow db db' /\ rd_recipients db' = rd_recipients db /\ rd_mails db' = rd_mails db
  /\ forall d, d ∈ rd_deliveries db -> d ∈ rd_deliveries db'.

Lemma calm_mail_ok db db' : calm db db' -> mail_ok db -> mail_ok db'.
Proof.
  intros (G & Er & Em & Hd) (Ho & [Hu Hl] & Hn & Ha). destruct G as (G1 & G2 & G3) eqn:EG. clear EG.
  split_and!; [auto | split; rewrite Er; [done | eapply Forall_impl; [exact Hl | cbn; lia]] | by rewrite Em |].
  rewrite Em. eapply Forall_impl; [exact Ha|]. intros m [Hb Hx]. split; [lia|]. rewrite Er. intros rec Hrec E.
  destruct (Hx rec Hrec E) as [R (d & Hd1 & ?)]. split; [eapply run_of_grows; [|exact R]; by split_and! | exists d; auto].
Qed.

(** What a run of schedule [sid] may do. *)
Definition mails_once (run sid : Z) (db db' : rdb) : Prop :=
  runs_grow db db' /\ (mail_ok db -> run_of run sid db -> mail_ok db').

#[export] Instance mails_once_refl run sid : Reflexive (mails_once run sid).
Proof. intros db. by split. Qed.
#[export] Instance mails_once_trans run sid : Transitive (mails_once run sid).
Proof.
  intros a b c [G1 O1] [G2 O2]. split; [by etrans|]. intros Ho Hr. apply O2; [auto | by eapply run_of_grows].
Qed.

Lemma calm_mails_once run sid db db' : calm db db' -> mails_once run sid db db'.
Proof. intros Hc. split; [apply Hc | intros Ho _; by eapply calm_mail_ok]. Qed.

Lemma calm_on_runs p f db : (forall r, p r = true -> progresses r (f r)) -> calm db (on_runs p f db).
Proof. intros Hf. split_and!; [by apply grow_on_runs | done | done | done]. Qed.

Lemma calm_finalize now run st rep db : calm db (finalize_run now run st rep db).
Proof. apply calm_on_runs. intros r _. by split. Qed.

Lemma calm_emit depot sid run mode st ps db : calm db (snd (emit_report_draft_action depot sid run mode st ps db)).
Proof.
  split; [apply grow_emit|]. unfold emit_report_draft_action. by destruct (existsb _ _).
Qed.

Section Mail.
Context (run sid : Z) (env : run_env).
(** The ledger takes what the provider accepted. *)
Context (Hledger : forall i m, ev_send env i = Accepted m -> ev_insert env i = Fine).

Lemma deliver_one_mail rec db :
  mail_ok db -> run_of run sid db -> rec ∈ rd_recipients db -> rp_schedule rec = sid -> (run, rp_id rec) ∉ rd_mails db ->
  let db' := snd (deliver_one env run rec db) in
  mail_ok db' /\ runs_grow db db' /\ rd_recipients db' = rd_recipients db
  /\ forall m, m ∈ rd_mails db' -> m ∈ rd_mails db \/ m = (run, rp_id rec).
Proof.
  intros Hok Hr Hrec Es Hnew. cbn zeta.
  pose proof (grow_deliver_one env run rec db) as G. unfold deliver_one in *.
  destruct (ev_send env (rp_id rec)) as [m| | |] eqn:E.
  - rewrite (Hledger _ _ E) in *. cbn in *. split_and!; [|done|done|].
    + destruct Hok as (Ho & Hre & Hn & Ha). split_and!; [apply G, Ho | exact Hre | |].
      * cbn. apply NoDup_app. split_and!; [done | | apply NoDup_singleton]. by intros x Hx ->%list_elem_of_singleton.
      * cbn. apply Forall_app. split.
        -- eapply Forall_impl; [exact Ha|]. intros x [Hb Hx]. split; [done|]. intros rec' Hrec' E'.
           destruct (Hx rec' Hrec' E') as [R (d & Hd & ?)]. split; [exact R|]. exists d. split; [cbn; apply elem_of_app; by left | done].
        -- constructor; [|constructor]. split; [by apply (proj1 (Forall_forall _ _) (proj2 Hre)) in Hrec|].
           cbn. intros rec' Hrec' E'. assert (rec' = rec) as -> by (eapply (NoDup_map_elem rp_id); [apply Hre | done | done | done]).
           split; [by rewrite Es|]. eexists. split; [cbn; apply elem_of_app; right; apply list_elem_of_here | done].
    + intros x [?|Hx%list_elem_of_singleton]%elem_of_app; auto.
  - cbn in *. unfold bind, exec, stmt, ret in *. destruct (ev_insert env (rp_id rec)); cbn in *; (split_and!; [|done|done|auto]); [|done|done].
    eapply calm_mail_ok; [|exact Hok]. split_and!; [done | done | done|]. intros d Hd. cbn. apply elem_of_app. by left.
  - cbn in *. unfold bind, exec, stmt, ret in *. destruct (ev_insert env (rp_id rec)); cbn in *; (split_and!; [|done|done|auto]); [|done|done].
    eapply calm_mail_ok; [|exact Hok]. split_and!; [done | done | done|]. intros d Hd. cbn. apply elem_of_app. by left.
  - cbn in *. split_and!; auto.
Qed.

Lemma deliver_each_mail already rows all db :
  mail_ok db -> run_of run sid db -> NoDup (map rp_id rows) ->
  (forall rec, rec ∈ rows -> rec ∈ rd_recipients db /\ rp_schedule rec = sid
     /\ (rp_id rec ∈ already \/ (run, rp_id rec) ∉ rd_mails db)) ->
  mail_ok (snd (deliver_each env run already all rows db)).
Proof.
  revert all db. induction rows as [|rec rows IH]; intros all db Hok Hr Hnd Hrows; [done|].
  cbn [map] in Hnd. apply NoDup_cons in Hnd as [Hni Hnd]. cbn [deliver_each].
  destruct (Hrows rec ltac:(left)) as (Hrec & Es & Hm).
  case_bool_decide as Ha; [apply IH; try done; intros; apply Hrows; by right|].
  destruct Hm as [|Hm]; [done|]. pose proof (deliver_one_mail rec db Hok Hr Hrec Es Hm) as Hd. cbn zeta in Hd.
  unfold bind. destruct (deliver_one env run rec db) as [[ok| |] db1]; cbn [snd] in Hd; destruct Hd as (Hok1 & G & Er & Hmails); [|done|done].
  apply IH; [done | by eapply run_of_grows | done |].
  intros x Hx. destruct (Hrows x ltac:(by right)) as (Hx1 & Hx2 & Hx3). rewrite Er. split_and!; [done | done |].
  destruct Hx3 as [|Hx3]; [by left|]. right. intros [|E]%Hmails; [done|]. injection E as E.
  apply Hni, list_elem_of_fmap. eauto.
Qed.

Lemma fetch_rows_spec db rec : rec ∈ _fetch_recipient_rows sid db <-> rec ∈ rd_recipients db /\ rp_schedule rec = sid.
Proof.
  unfold _fetch_recipient_rows. rewrite elem_of_sort_by, elem_of_lfilter, Z.eqb_eq. done.
Qed.

Lemma fetch_rows_nodup db : NoDup (map rp_id (rd_recipients db)) -> NoDup (map rp_id (_fetch_recipient_rows sid db)).
Proof.
  intros Hn. unfold _fetch_recipient_rows.
  rewrite sort_by_perm. by apply NoDup_map_filter.
Qed.

Lemma deliver_once db :
  mail_ok db -> run_of run sid db -> mail_ok (snd (_deliver_to_recipients env run (_fetch_recipient_rows sid db) db)).
Proof.
  intros Hok Hr. unfold _deliver_to_recipients, bind, query, stmt. destruct (ev_sent env); [|done|done].
  apply deliver_each_mail; [done | done | apply fetch_rows_nodup, Hok |].
  intros rec [Hrec Es]%fetch_rows_spec. split_and!; [done | done|].
  destruct (decide ((run, rp_id rec) ∈ rd_mails db)) as [Hm|]; [left | by right].
  destruct Hok as (_ & _ & _ & Ha). apply (proj1 (Forall_forall _ _) Ha) in Hm as [_ Hm].
  destruct (Hm rec Hrec eq_refl) as [_ (d & Hd & E1 & E2 & E3)]. cbn in E1, E2. unfold already_sent.
  apply list_elem_of_omap. exists d. split; [done|]. by rewrite E1, E3, Z.eqb_refl.
Qed.
End Mail.

Lemma bind_at {A B} R `{!Transitive R} (m : M A) (k : A -> M B) db :
  R db (snd (m db)) -> (forall a, does R (k a)) -> R db (snd (bind m k db)).
Proof.
  intros Hm Hk. unfold bind. destruct (m db) as [[a| |] db']; cbn in *; [|done|done]. etrans; [done | apply Hk].
Qed.

Lemma does_bind_query {A B} R `{!Reflexive R} f (g : rdb -> A) (k : A -> M B) :
  (forall db, R db (snd (k (g db) db))) -> does R (bind (query f g) k).
Proof. intros Hk db. unfold bind, query, stmt. destruct f; [apply Hk | reflexivity | reflexivity]. Qed.

Definition ledgered (env : run_env) : Prop := forall i m, ev_send env i = Accepted m -> ev_insert env i = Fine.

Lemma once_exec run sid f (g : rdb -> rdb) : (forall db, calm db (g db)) -> does (mails_once run sid) (exec f g).
Proof. intros Hg. apply does_exec; [typeclasses eauto|]. intros db. by apply calm_mails_once. Qed.

Lemma once_stmt {A} run sid f (g : rdb -> A * rdb) :
  (forall db, calm db (snd (g db))) -> does (mails_once run sid) (stmt f g).
Proof. intros Hg. apply does_stmt; [typeclasses eauto|]. intros db. by apply calm_mails_once. Qed.

Lemma once_finish env s run mode ps rep : ledgered env -> does (mails_once run (sc_id s)) (finish_run env s run mode ps rep).
Proof.
  intros Hl. unfold finish_run. destruct (String.eqb mode "proposed").
  - apply once_stmt. intros db. pose proof (calm_emit (sc_depot s) (sc_id s) run "proposed" "pending" ps db) as Ce.
    destruct (emit_report_draft_action _ _ _ _ _ _ db) as [i db1]. cbn [snd] in *.
    pose proof (calm_finalize (ev_now env) run (if i then pending_approval else skipped) (Some rep) db1) as Cf.
    destruct Ce as (G1 & E1 & E2 & E3), Cf as (G2 & F1 & F2 & F3). split_and!; [by etrans | congruence | congruence | auto].
  - apply does_bind; [typeclasses eauto | does_tac | intros found]. apply does_bind_query; [typeclasses eauto|]. intros db.
    apply bind_at; [typeclasses eauto | |].
    + destruct (found && _); [|reflexivity]. split; [apply grow_deliver|]. intros. by apply deliver_once.
    + intros _. does_tac; try (apply once_stmt; intros; apply calm_emit); apply once_exec; intros; apply calm_finalize.
Qed.

Lemma calm_persist run rep db : calm db (_persist_run_report_id run rep db).
Proof. apply calm_on_runs. intros r _. by split. Qed.

Lemma once_guarded env after s run now slot :
  ledgered env -> does (mails_once run (sc_id s)) (run_guarded env after s run now slot).
Proof.
  intros Hl. unfold run_guarded, execute_schedule_run, resolve_autonomy_mode. does_tac; try by apply once_finish.
  all: apply once_exec; intros db; apply calm_finalize || apply calm_persist.
Qed.

(** Steps without a fixed run: they keep the invariant. *)
Definition mail_safe (db db' : rdb) : Prop := mail_ok db -> mail_ok db'.

#[export] Instance mail_safe_refl : Reflexive mail_safe.
Proof. intros db Hok. exact Hok. Qed.
#[export] Instance mail_safe_trans : Transitive mail_safe.
Proof. intros a b c F G Hok. exact (G (F Hok)). Qed.

Lemma safe_run env after s run now slot db r :
  ledgered env -> r ∈ rd_runs db -> rn_id r = run -> rn_schedule r = sc_id s ->
  mail_safe db (snd (run_guarded env after s run now slot db)).
Proof. intros Hl Hr E1 E2 Hok. apply (once_guarded env after s run now slot Hl db); [done | by exists r]. Qed.

Lemma calm_claim now sid slot db : calm db (snd (claim_run now sid slot db)).
Proof. split; [apply grow_claim|]. unfold claim_run. by destruct (existsb _ _). Qed.

Lemma safe_fire env s slot now :
  (forall db, te_meanwhile env db = db) -> ledgered (te_run env) -> does mail_safe (fire_slot env s slot now).
Proof.
  intros Hm Hl db Hok. unfold fire_slot. unfold bind at 1, stmt at 1. destruct (te_claim env); [|done|done].
  pose proof (claim_spec (ev_now (te_run env)) (sc_id s) slot db) as C.
  pose proof (calm_mail_ok _ _ (calm_claim (ev_now (te_run env)) (sc_id s) slot db) Hok) as Hok1.
  destruct (claim_run _ _ _ db) as [[id|] db1]; cbn [snd] in Hok1.
  - destruct C as (r & Hr & Ei & Es & _). apply (bind_at mail_safe); [by apply (safe_run _ _ _ _ _ _ _ r) | | done].
    intros a. does_tac. apply does_exec; [typeclasses eauto|]. intros d. by rewrite Hm.
  - destruct C as [-> _]. unfold bind at 1, stmt at 1. destruct (te_stale env); [|done|done].
    unfold restart_stale. set (hit := fun r => _ && _). set (db1 := on_runs hit _ db).
    assert (calm db db1) as C1 by (apply calm_on_runs; intros y _; by split).
    pose proof (calm_mail_ok _ _ C1 Hok) as Hok2.
    destruct (List.find hit (rd_runs db)) as [x|] eqn:F; cbn [option_map].
    + apply List.find_some in F as [Hx%list_elem_of_In Hh]. unfold hit in Hh. rewrite !andb_true_iff, !Z.eqb_eq in Hh.
      destruct Hh as [[[Hs _] _] _]. destruct C1 as ((_ & _ & G) & _). destruct (G x Hx) as (x' & Hx' & Ex & _).
      injection Ex as Exa Exb Exc.
      apply (bind_at mail_safe); [apply (safe_run _ _ _ _ _ _ _ x'); [done | done | done | congruence] | | done].
      intros a. does_tac. apply does_exec; [typeclasses eauto|]. intros d. by rewrite Hm.
    + enough (forall m : M (option (option run_status)), does mail_safe m -> mail_ok (snd (m db1))) as Hw
        by (apply Hw; does_tac). intros m Hs. by apply Hs.
Qed.

Lemma calm_schedule id f db : calm db (on_schedule id f db).
Proof. split_and!; [by apply grow_same_runs | done | done | done]. Qed.

Lemma calm_advance id next slot st db : calm db (advance id next slot st db).
Proof. unfold advance. destruct st; apply calm_schedule. Qed.

Lemma safe_exec f g : (forall db, calm db (g db)) -> does mail_safe (exec f g).
Proof. intros Hg. apply does_exec; [typeclasses eauto|]. intros db Hok. by apply (calm_mail_ok db). Qed.

Lemma safe_stmt {A} f (g : rdb -> A * rdb) : (forall db, calm db (snd (g db))) -> does mail_safe (stmt f g).
Proof. intros Hg. apply does_stmt; [typeclasses eauto|]. intros db Hok. by apply (calm_mail_ok db). Qed.

Lemma safe_tick envs now :
  (forall id db, te_meanwhile (envs id) db = db) -> (forall id, ledgered (te_run (envs id))) -> does mail_safe (_tick envs now).
Proof.
  intros Hm Hl. assert (forall l, does mail_safe (tick_each envs now l)) as H; [|intros db; apply H].
  intros l. induction l as [|s l IH]; cbn; does_tac. unfold tick_one.
  destruct (sc_next s) as [sl|]; [|does_tac]. destruct (te_zone _); [|does_tac|does_tac].
  apply does_bind; [typeclasses eauto | by apply safe_fire | intros [st|]; does_tac].
  apply safe_exec. intros db. apply calm_advance.
Qed.

Lemma safe_run_now env claim after update now depot id :
  ledgered env -> does mail_safe (_handle_report_schedule_run_now env claim after update now depot id).
Proof.
  intros Hl db. unfold _handle_report_schedule_run_now. destruct (fetch_schedule_row depot id db) as [s|] eqn:Ef; [|reflexivity].
  apply find_some in Ef as [_ [Ei%Z.eqb_eq _]%andb_true_iff].
  intros Hok. unfold bind at 1, stmt at 1. destruct claim; [|done|done].
  pose proof (claim_spec (ev_now env) id (now - now mod usec) db) as C.
  pose proof (calm_mail_ok _ _ (calm_claim (ev_now env) id (now - now mod usec) db) Hok) as Hok1.
  destruct (claim_run _ _ _ db) as [[run|] db1]; cbn [snd] in Hok1.
  - destruct C as (r & Hr & E1 & E2 & _).
    apply (bind_at mail_safe); [by apply (safe_run _ _ _ _ _ _ _ r); try congruence | | done].
    intros a. does_tac. apply safe_exec. intros d. apply calm_schedule.
  - unfold query, stmt. by destruct (ev_fetch env).
Qed.

Lemma calm_last_status run st db : calm db (_update_schedule_last_run_status run st db).
Proof.
  split; [apply grow_last_status|]. unfold _update_schedule_last_run_status.
  destruct (fetch_run run db); [|done]. by destruct (forallb _ _).
Qed.

Lemma safe_approve env run : ledgered env -> does mail_safe (deliver_pending_run env run).
Proof.
  intros Hl. unfold deliver_pending_run. apply does_bind_query; [typeclasses eauto|]. intros db.
  destruct (fetch_run run db) as [r|] eqn:Ef; [|reflexivity]. apply find_some in Ef as [Hr%list_elem_of_In Ei%Z.eqb_eq].
  destruct (rn_status r); try done. destruct (rn_report r); [|done].
  unfold bind at 1. destruct (ev_report env) as [found|[]]; cbn [await]; try done. unfold ret at 1.
  unfold bind at 1, query at 1, stmt at 1. destruct (ev_recipients env); [|done|done].
  apply (bind_at mail_safe).
  - destruct (bool_decide _); [done|]. destruct (negb found); [done|]. intros Hok. apply deliver_once; [done | done | by exists r].
  - intros ok. does_tac; try (apply safe_exec; intros; apply calm_last_status).
    apply safe_stmt. intros x. apply calm_on_runs. intros y _. by split.
Qed.

Lemma safe_reject env run : does mail_safe (skip_pending_run env run).
Proof.
  unfold skip_pending_run. does_tac; try (apply safe_exec; intros; apply calm_last_status).
  apply safe_stmt. intros x. apply calm_on_runs. intros y _. by split.
Qed.

(** *** Recipients come and go *)

(** Recipients may be removed or moved; a new one has a fresh identifier. *)
Lemma mail_ok_recipients db db' :
  mail_ok db -> runs_grow db db' -> recipients_ok db' -> rd_mails db' = rd_mails db ->
  (forall rec', rec' ∈ rd_recipients db' ->
     (exists rec, rec ∈ rd_recipients db /\ rp_id rec = rp_id rec' /\ rp_schedule rec = rp_schedule rec'
        /\ forall run, sent_row run (rp_id rec) db -> sent_row run (rp_id rec) db')
     \/ rd_next_id db <= rp_id rec') ->
  mail_ok db'.
Proof.
  intros (Ho & Hr & Hn & Ha) G Hr' Em Hrec. split_and!; [by apply G | done | by rewrite Em |].
  rewrite Em. eapply Forall_impl; [exact Ha|]. intros [run rcpt] [Hb Hx]. cbn [fst snd] in *.
  split; [cbn; destruct G as (_ & ? & _); lia|]. cbn. intros rec' Hin E.
  destruct (Hrec rec' Hin) as [(rec & H1 & E1 & E2 & Hs)|Hfresh]; [|lia].
  destruct (Hx rec H1 ltac:(congruence)) as [R S]. rewrite <- E2, <- E, <- E1. split.
  - by eapply run_of_grows.
  - apply Hs. by rewrite E1, E.
Qed.

Lemma remove_recipients_safe p db : mail_ok db -> mail_ok (remove_recipients p db).
Proof.
  intros Hok. apply (mail_ok_recipients db); [done | by apply grow_same_runs | | done |].
  - destruct Hok as (_ & [Hu Hl] & _). split; cbn; [by apply NoDup_map_filter|]. apply Forall_forall.
    intros r [Hr _]%elem_of_lfilter. by apply (proj1 (Forall_forall _ _) Hl).
  - cbn. intros rec [Hrec Hp%negb_true_iff]%elem_of_lfilter. left. exists rec. split_and!; [done | done | done|].
    intros run (d & Hd & E1 & E2 & E3). exists d. split_and!; try done. cbn. apply list_elem_of_fmap. exists d. split; [|done].
    unfold forget_recipients. rewrite E2. destruct (existsb _ _) eqn:E; [exfalso|done].
    apply existsb_exists in E as (x & Hx%list_elem_of_In & [Px Ex%Z.eqb_eq]%andb_true_iff).
    assert (x = rec) as -> by (eapply (NoDup_map_elem rp_id); [apply Hok | done | done | done]). congruence.
Qed.

Lemma upsert_recipient_safe sid r db : mail_ok db -> mail_ok (upsert_recipient sid db r).
Proof.
  intros Hok. destruct (upsert_recipient_frame sid db r) as (E1 & _ & E2 & E3 & N).
  apply (mail_ok_recipients db); [done | by apply grow_same_runs | | done |]; clear E1 E3;
    destruct Hok as (_ & [Hu Hl] & _); unfold upsert_recipient in *; destruct (existsb _ _); cbn in *.
  - split; cbn.
    + rewrite map_map. erewrite map_ext; [exact Hu|]. intros x. by destruct (recipient_of _ _ _ _).
    + apply Forall_map. eapply Forall_impl; [exact Hl|]. intros x. cbn. by destruct (recipient_of _ _ _ _).
  - split; cbn.
    + rewrite map_app. apply NoDup_app. split_and!; [done | | apply NoDup_singleton].
      intros i (x & -> & Hx)%list_elem_of_fmap Hi%list_elem_of_singleton. apply (proj1 (Forall_forall _ _) Hl) in Hx. cbn in Hi. lia.
    + apply Forall_app. split; [eapply Forall_impl; [exact Hl | cbn; lia]|]. constructor; [cbn; lia | constructor].
  - intros rec' (x & -> & Hx)%list_elem_of_fmap. left. exists x.
    split_and!; [done | by destruct (recipient_of _ _ _ _) | by destruct (recipient_of _ _ _ _) |]. intros run Hs. exact Hs.
  - intros rec' [Hx|Hx%list_elem_of_singleton]%elem_of_app; [left; by exists rec' | right; subst; cbn; lia].
Qed.

Lemma replace_safe sid rs db : mail_ok db -> mail_ok (replace_recipients sid rs db).
Proof.
  intros Hok. unfold replace_recipients. cbn zeta. set (db1 := remove_recipients _ db).
  assert (mail_ok db1) as H1 by (by apply remove_recipients_safe). clearbody db1. clear Hok. revert db1 H1.
  induction rs as [|r rs IH]; intros db1 H1; [done|]. cbn. by apply IH, upsert_recipient_safe.
Qed.

Lemma delete_safe depot id db : mail_ok db -> mail_ok (snd (delete_schedule depot id db)).
Proof.
  intros Hok. unfold delete_schedule. destruct (fetch_schedule_row depot id db); [|done]. cbn [snd].
  pose proof (remove_recipients_safe (fun r => rp_schedule r =? id) db Hok) as (_ & Hr & Hn & Ha).
  pose proof (proj1 Hok) as (Hu & Hl & Hk).
  split_and!; [split_and!; cbn; try by apply NoDup_map_filter | exact Hr | exact Hn |].
  { apply Forall_forall. intros r [Hx _]%elem_of_lfilter. by apply (proj1 (Forall_forall _ _) Hl). }
  eapply Forall_impl; [exact Ha|]. intros [run rcpt] [Hb Hx]. split; [exact Hb|]. intros rec Hrec E.
  destruct (Hx rec Hrec E) as [(r & Hr1 & Er & Es) (d & Hd & E1 & E2 & E3)].
  cbn in Hrec. apply elem_of_lfilter in Hrec as [_ Hne%negb_true_iff%Z.eqb_neq]. split.
  - exists r. split; [|done]. cbn. apply elem_of_lfilter. split; [exact Hr1|]. apply negb_true_iff, Z.eqb_neq. congruence.
  - exists d. split; [|done]. cbn. apply elem_of_lfilter. split; [exact Hd|]. apply negb_true_iff.
    destruct (existsb _ _) eqn:Eg; [exfalso|done].
    apply existsb_exists in Eg as (y & Hy%list_elem_of_In & [Ey%Z.eqb_eq Ez%Z.eqb_eq]%andb_true_iff).
    assert (y = r) as -> by (eapply (NoDup_map_elem rn_id); [exact Hu | done | done | congruence]). congruence.
Qed.

(** The ledger's inserts succeed for accepted mails. *)
Definition ledgered_op (o : report_op) : Prop :=
  match o with
  | RTick envs _ => forall id, ledgered (te_run (envs id))
  | RRunNow env _ _ _ _ _ _ | RApprove env _ => ledgered env
  | _ => True
  end.

Lemma step_mail_ok o db : undisturbed o -> ledgered_op o -> mail_ok db -> mail_ok (report_step o db).
Proof.
  intros Hu Hl Hok. destruct o; cbn [report_step undisturbed ledgered_op] in *.
  - by apply safe_tick.
  - by apply safe_run_now.
  - by apply safe_approve.
  - by apply safe_reject.
  - unfold append_delivery_status_from_webhook. destruct (latest_delivery _ _); [|done]. destruct (_ && _); [done|].
    eapply calm_mail_ok; [|exact Hok]. split_and!; [by apply grow_same_runs | done | done|].
    intros x Hx. cbn. apply elem_of_app. by left.
  - unfold _handle_report_schedule_create. destruct (rbind _ _) as [[norm next]|]; [|done]. cbn [snd insert_schedule].
    apply replace_safe. eapply calm_mail_ok; [|exact Hok]. split_and!; [apply grow_same_runs; [done | cbn; lia] | done | done | done].
  - unfold _handle_report_schedule_update. destruct (fetch_schedule_row depot id db); [|done].
    destruct (normalize_patch_payload _ _) as [norm|]; [|done]. destruct (if existsb _ _ then _ else _) as [next|]; [|done].
    cbn [snd]. assert (mail_ok (update_schedule_fields id norm next db)) by (eapply calm_mail_ok; [apply calm_schedule | done]).
    destruct (dmem _ _); [by apply replace_safe | done].
  - by apply delete_safe.
Qed.


(** ** Callbacks of the provider *)

Lemma latest_app m l x :
  latest_delivery m (l ++ [x]) = if bool_decide (dv_message x = Some m) then Some x else latest_delivery m l.
Proof.
  unfold latest_delivery. rewrite List.filter_app. cbn. case_bool_decide; [apply last_snoc | by rewrite app_nil_r].
Qed.

Lemma wire_status_cases s :
  map_provider_status_to_wire s = "sent"%string \/ negative (map_provider_status_to_wire s) = true.
Proof.
  unfold map_provider_status_to_wire, dget_or, _PROVIDER_STATUS_TO_WIRE. cbn [dget].
  repeat case_decide; cbn; auto.
Qed.

(** Once the newest event of a message is a bounce, a suppression or a failure, no later
    events make it count as sent. *)
Theorem negative_delivery_is_final events db message d :
  latest_delivery message (rd_deliveries db) = Some d -> negative (dv_status d) = true ->
  exists d', latest_delivery message (rd_deliveries
      (foldl (fun db e => snd (append_delivery_status_from_webhook (fst e) (snd e) db)) db events)) = Some d'
    /\ negative (dv_status d') = true /\ dv_run d' = dv_run d /\ dv_email d' = dv_email d.
Proof.
  revert db d. induction events as [|[m st] events IH]; intros db d Hd Hn; [by exists d|]. cbn [foldl fst snd].
  enough (exists d1, latest_delivery message (rd_deliveries (snd (append_delivery_status_from_webhook m st db))) = Some d1
          /\ negative (dv_status d1) = true /\ dv_run d1 = dv_run d /\ dv_email d1 = dv_email d) as (d1 & H1 & N1 & R1 & E1).
  { destruct (IH _ d1 H1 N1) as (d' & ? & ? & ? & ?). exists d'. split_and!; congruence. }
  unfold append_delivery_status_from_webhook. destruct (latest_delivery m (rd_deliveries db)) as [x|] eqn:Ex; [|by exists d].
  destruct (negative (dv_status x) && _) eqn:Eb; [by exists d|]. cbn [snd insert_delivery rd_deliveries with_deliveries].
  rewrite latest_app. cbn [dv_message]. case_bool_decide as Em; [|by exists d].
  assert (m = message) as -> by congruence. assert (x = d) as -> by congruence.
  eexists. split_and!; [done | | done | done]. cbn [dv_status]. rewrite Hn in Eb. cbn [andb] in Eb.
  destruct (wire_status_cases st) as [E|]; [|done]. by rewrite E in Eb.
Qed.

(** ** Edits *)

Lemma fetch_schedule_spec depot id db s :
  fetch_schedule_row depot id db = Some s -> s ∈ rd_schedules db /\ sc_id s = id /\ sc_depot s = depot.
Proof.
  intros [Hs%list_elem_of_In [Ei%Z.eqb_eq Ed%String.eqb_eq]%andb_true_iff]%List.find_some. done.
Qed.

(** An edit keeps the next slot unless it touches the cadence or the activation; then
    the slot is the next firing after now, or none when the schedule is inactive. *)
Theorem edit_moves_slot_with_cadence now z depot id patch db db' s :
  ReportZone z -> fetch_schedule_row depot id db = Some s -> schedule_ok (sc_input s) ->
  _handle_report_schedule_update now (Some z) depot id patch db = (Ok tt, db') ->
  exists s', s' ∈ rd_schedules db' /\ sc_id s' = id /\ schedule_ok (sc_input s') /\ sc_last s' = sc_last s
    /\ ((forall k, k ∈ cadence_keys -> dget patch k = None) ->
        sc_next s' = sc_next s /\ ns_is_active (sc_input s') = ns_is_active (sc_input s)
        /\ ns_time_of_day (sc_input s') = ns_time_of_day (sc_input s)
        /\ ns_frequency (sc_input s') = ns_frequency (sc_input s))
    /\ ((exists k, k ∈ cadence_keys /\ dget patch k <> None) ->
        if ns_is_active (sc_input s')
        then exists r, sc_next s' = Some r /\ next_firing z (ns_time_of_day (sc_input s')) now
               (fires_on (ns_frequency (sc_input s')) (ns_day_of_month (sc_input s')) (ns_day_of_week (sc_input s'))) r
        else sc_next s' = None).
Proof.
  intros Hz Hf Hok. destruct (fetch_schedule_spec _ _ _ _ Hf) as (Hs & Ei & _).
  unfold _handle_report_schedule_update. rewrite Hf. destruct (normalize_patch_payload _ _) as [norm|] eqn:En; [|done].
  pose proof (patch_frame _ _ _ Hok En) as (Hn & _ & _ & _ & Ht & _ & Ha & Hq).
  destruct (if existsb _ _ then _ else _) as [next|] eqn:Ex; [|done]. intros [= <-].
  exists {| sc_id := sc_id s; sc_depot := sc_depot s; sc_input := norm; sc_next := next; sc_last := sc_last s;
            sc_last_status := sc_last_status s |}.
  split_and!; cbn [sc_id sc_input sc_last sc_next]; try done.
  - assert (rd_schedules (if dmem "recipients" patch then replace_recipients id (ns_recipients norm) (update_schedule_fields id norm next db)
                          else update_schedule_fields id norm next db) = rd_schedules (update_schedule_fields id norm next db)) as ->.
    { destruct (dmem _ _); [|done]. by destruct (replace_frame id (ns_recipients norm) (update_schedule_fields id norm next db)) as (_ & -> & _). }
    cbn. apply list_elem_of_fmap. exists s. by rewrite Ei, Z.eqb_refl.
  - intros Hk. assert (existsb (fun k => dmem k patch) cadence_keys = false) as Hb.
    { apply not_true_iff_false. intros (k & Hk' & Hm)%existsb_exists. apply list_elem_of_In in Hk'. unfold dmem in Hm.
      by rewrite (Hk k Hk') in Hm. }
    rewrite Hb in Ex. injection Ex as <-. unfold cadence_keys in Hk. split_and!; [done | | |].
    + apply Ha, Hk. set_solver.
    + apply Ht, Hk. set_solver.
    + apply Hq, Hk. set_solver.
  - intros (k & Hk & Hne). assert (existsb (fun k => dmem k patch) cadence_keys = true) as Hb.
    { apply existsb_exists. exists k. split; [by apply list_elem_of_In|]. unfold dmem. by destruct (dget patch k). }
    rewrite Hb in Ex. unfold _resolve_schedule_next_run_at in Ex. destruct (ns_is_active norm); cbn [negb] in Ex; [|by injection Ex as <-].
    destruct Hn as (_ & _ & _ & _ & _ & _ & Hc & _).
    destruct (next_run_spec z now (ns_frequency norm) (ns_time_of_day norm) _ _ Hz Hc) as (r & Er & Hr).
    rewrite Er in Ex. injection Ex as <-. by exists r.
Qed.

(** ** Concrete histories *)

(** Mondays at 06:00; the epoch is a Thursday. *)
Definition ex_weekly : NormalizedScheduleInput :=
  {| ns_name := "Ops"; ns_kind := "weekly_ops"; ns_group_by := None; ns_frequency := "weekly";
     ns_day_of_month := None; ns_day_of_week := Some 1; ns_time_of_day := 6 * hour_us;
     ns_autonomy_mode := "auto_silent"; ns_is_active := true; ns_recipients := [] |}.

Definition ex_db : rdb :=
  {| rd_schedules := [{| sc_id := 1; sc_depot := "depot"; sc_input := ex_weekly;
                         sc_next := Some (slot spring 4 (6 * hour_us)); sc_last := None; sc_last_status := None |}];
     rd_recipients := [{| rp_id := 2; rp_schedule := 1; rp_email := "a@b.eu"; rp_format := "pdf"; rp_position := 0 |}];
     rd_runs := []; rd_deliveries := []; rd_drafts := []; rd_mails := []; rd_next_id := 3 |}.

Definition ex_env (now : Z) (insert : fault) : run_env :=
  {| ev_now := now; ev_zone := Some spring; ev_level := Ok None; ev_fetch := Fine; ev_generate := Ok "report"%string;
     ev_persist := Fine; ev_emit := Fine; ev_report := Ok true; ev_recipients := Fine; ev_sent := Fine;
     ev_send := fun _ => Accepted (Some "message"%string); ev_insert := fun _ => insert; ev_finalize := Fine |}.

Definition ex_tick (now : Z) (insert : fault) (meanwhile : rdb -> rdb) : report_op :=
  RTick (fun _ => {| te_run := ex_env now insert; te_zone := Fine; te_claim := Fine; te_after := Fine; te_stale := Fine;
                     te_in_flight := Fine; te_update := Fine; te_meanwhile := meanwhile |}) now.

Definition day (d : Z) : Z := d * day_us.

Lemma ex_runs_ok : runs_ok ex_db.
Proof. split_and!; cbn; constructor. Qed.

Lemma ex_schedules_ok : schedules_ok ex_db.
Proof. split; cbn; [apply NoDup_singleton | repeat constructor; cbn; lia]. Qed.

Lemma ex_mail_ok : mail_ok ex_db.
Proof.
  split_and!; [apply ex_runs_ok | split; cbn; [apply NoDup_singleton | repeat constructor; cbn; lia] | constructor | constructor].
Qed.

Lemma ex_weekly_cadence : cadence_ok "weekly" None (Some 1).
Proof. left. split; [done|]. exists 1. split; [done | lia]. Qed.


Lemma one_run_per_slot_witness :
  NoDup (map (fun r => (rn_schedule r, rn_slot r))
    (rd_runs (report_run [ex_tick (day 20) Fine id; RRunNow (ex_env (day 20) Fine) Fine Fine Fine (day 20) "depot" 1] ex_db))).
Proof. apply one_run_per_slot; [repeat constructor | apply ex_runs_ok]. Defined.


(** A worker that dies between a mail and its ledger row: the retry mails again. *)
Theorem crash_before_ledger_mails_twice :
  rd_mails (report_run [ex_tick (day 5) Dies id; ex_tick (day 6) Fine id] ex_db) = [(3, 2); (3, 2)].
Proof. vm_compute. reflexivity. Qed.

(** The schedule moves to Tuesdays while its run is executed. *)
Definition ex_edit (db : rdb) : rdb :=
  snd (_handle_report_schedule_update (day 5) (Some spring) "depot" 1 [("dayOfWeek"%string, PInt 2)] db).

Theorem edit_during_run_overwritten :
  map (fun s => (ns_day_of_week (sc_input s), sc_next s)) (rd_schedules (report_run [ex_tick (day 5) Fine ex_edit] ex_db))
  = [(Some 2, Some (slot spring 11 (6 * hour_us)))]
  /\ weekday 11 = (1 - 1) mod 7 /\ weekday 11 <> (2 - 1) mod 7.
Proof. vm_compute. split; [reflexivity | split; [reflexivity | discriminate]]. Qed.

(** Failed deliveries do not make a run fail in the automatic modes. *)
Definition ex_refused : run_env :=
  {| ev_now := day 5; ev_zone := Some spring; ev_level := Ok None; ev_fetch := Fine; ev_generate := Ok "report"%string;
     ev_persist := Fine; ev_emit := Fine; ev_report := Ok true; ev_recipients := Fine; ev_sent := Fine;
     ev_send := fun _ => Refused; ev_insert := fun _ => Fine; ev_finalize := Fine |}.

Theorem refused_mail_succeeds :
  let db := report_run [RRunNow ex_refused Fine Fine Fine (day 5) "depot" 1] ex_db in
  rd_mails db = [] /\ map dv_status (rd_deliveries db) = ["failed"%string] /\ map rn_status (rd_runs db) = [succeeded].
Proof. vm_compute. split; [reflexivity | split; reflexivity]. Qed.

Definition ex_bounced : delivery_row :=
  {| dv_run := 3; dv_recipient := Some 2; dv_email := "a@b.eu"; dv_format := "pdf"; dv_status := "bounced";
     dv_message := Some "m"%string |}.

Lemma negative_delivery_witness :
  exists d', latest_delivery "m"
    (rd_deliveries (foldl (fun db e => snd (append_delivery_status_from_webhook (fst e) (snd e) db))
       (with_deliveries ex_db [ex_bounced]) [("m", "delivered"); ("m", "complained"); ("m", "sent")]))%string = Some d'
    /\ negative (dv_status d') = true /\ dv_run d' = 3 /\ dv_email d' = "a@b.eu"%string.
Proof.
  exact (negative_delivery_is_final [("m", "delivered"); ("m", "complained"); ("m", "sent")]%string
           (with_deliveries ex_db [ex_bounced]) "m" ex_bounced eq_refl eq_refl).
Defined.

Lemma ex_weekly_ok : schedule_ok ex_weekly.
Proof.
  unfold schedule_ok. cbn. split_and!; try done; try set_solver; try apply ex_weekly_cadence; try constructor.
Qed.

Lemma edit_moves_slot_witness :
  exists s', s' ∈ rd_schedules (ex_edit ex_db) /\ sc_id s' = 1 /\ schedule_ok (sc_input s') /\ sc_last s' = None.
Proof.
  destruct (edit_moves_slot_with_cadence (day 5) spring "depot" 1 [("dayOfWeek"%string, PInt 2)] ex_db (ex_edit ex_db)
              {| sc_id := 1; sc_depot := "depot"; sc_input := ex_weekly;
                 sc_next := Some (slot spring 4 (6 * hour_us)); sc_last := None; sc_last_status := None |}
              spring_report eq_refl ex_weekly_ok eq_refl) as (s' & H1 & H2 & H3 & H4 & _).
  exists s'. split; [exact H1|]. split; [exact H2|]. split; [exact H3 | exact H4].
Defined.
