(* ===== verification/LocalAuth.v ===== *)
(** * Offline authorisation lists ([src/adapters/ocpp/local_auth_sync.py])

    The push of the approved idTags to a charger after it boots: the probe of the
    charger's feature profiles and its firmware-scoped cache, the configuration of
    a first sync, [SendLocalList] with the vendor cap of
    [src/adapters/ocpp/charge_point.py], and the query of
    [src/db/queries.py] that collects the tags. The charger's replies are
    arguments; the list it holds is part of the state: a [Full] update it accepts
    replaces it. *)

From S2P Require Import Prelude Models PyText Rfid.
From Stdlib Require Import ZArith Lia Ascii.
From stdpp Require Import base list strings gmap.

#[local] Open Scope Z_scope.

(** ** The approved tags *)

Record access_row := { ac_station : string; ac_vehicle : string; ac_accessible : bool }.

(** The columns of the station's site, and the access matrix. *)
Record site_access := {
  sa_site : string;
  sa_mode : string;
  sa_default : option string;
  sa_matrix : list access_row
}.

Definition vehicle_accessible (station : string) (sa : site_access) (vehicle : string) : bool :=
  let pair r := String.eqb (ac_station r) station && String.eqb (ac_vehicle r) vehicle in
  String.eqb (sa_mode sa) "open"
  || existsb (fun r => pair r && ac_accessible r) (sa_matrix sa)
  || (String.eqb (sa_mode sa) "restricted" && bool_decide (sa_default sa = Some "all_to_all"%string)
      && negb (existsb pair (sa_matrix sa))).

Definition vehicle_tags (f : fleet_tables) (station : string) (sa : site_access) : list (string * string) :=
  map (fun v => (vt_id_tag v, "vehicle"%string))
    (List.filter (fun v => String.eqb (vt_site v) (sa_site sa) && bool_decide (vt_status v = Some "active"%string)
                           && vehicle_accessible station sa (vt_vehicle v)) (default [] (ft_vehicles f))).

Definition card_tags (f : fleet_tables) (sa : site_access) : list (string * string) :=
  map (fun c => (ct_id_tag c, "rfid_card"%string))
    (List.filter (fun c => String.eqb (ct_site c) (sa_site sa) && String.eqb (ct_status c) "active")
       (default [] (ft_cards f))).

(** [DISTINCT ON (id_tag)] by priority: the first of a tag is kept. *)
Fixpoint distinct_tags (seen : list string) (l : list (string * string)) : list (string * string) :=
  match l with
  | [] => []
  | (tag, src) :: l' => if bool_decide (tag ∈ seen) then distinct_tags seen l'
                        else (tag, src) :: distinct_tags (tag :: seen) l'
  end.

(** [site]: the station's joined row, [None] for an unknown station. *)
Definition list_authorized_id_tags (f : fleet_tables) (station : string) (site : option site_access)
  : list (string * string) :=
  match site with
  | None => []
  | Some sa => sort_by (fun a b => String.leb (fst a) (fst b))
                 (distinct_tags [] (vehicle_tags f station sa ++ card_tags f sa))
  end.

Definition _format_entries (rows : list (string * string)) : list string := map fst rows.

(** ** Vendors and firmware *)

Definition alnum (c : ascii) : bool :=
  let n := Z.of_nat (nat_of_ascii c) in is_digit c || ((97 <=? n) && (n <=? 122)).

(** [re.split("[^a-z0-9]+", s)], up to empty tokens. *)
Fixpoint tokens (s : list ascii) : list (list ascii) :=
  match s with
  | [] => [[]]
  | c :: s' => if alnum c then match tokens s' with w :: ws => (c :: w) :: ws | [] => [[c]] end
               else [] :: tokens s'
  end.

Definition blank (v : option string) : bool :=
  match v with None => true | Some s => String.eqb (strip s) "" end.

Definition _is_abb_vendor (vendor : option string) : bool :=
  negb (blank vendor)
  && bool_decide (String.list_ascii_of_string "abb"
                  ∈ tokens (String.list_ascii_of_string (py_lower (strip (default ""%string vendor))))).

Definition _is_abb_or_unknown_vendor (vendor : option string) : bool := blank vendor || _is_abb_vendor vendor.

Definition _normalize_firmware (firmware : option string) : option string :=
  match firmware with
  | None => None
  | Some s => let t := strip s in if String.eqb t "" then None else Some t
  end.

Definition _LOCAL_LIST_MAX_ENTRIES : nat := 16.

Definition _BOOTSTRAP_CONFIG_KEYS : list (string * string) :=
  [("LocalAuthListEnabled", "true"); ("LocalPreAuthorize", "true"); ("AuthorizationCacheEnabled", "true");
   ("FreevendEnabled", "false")].

(** ** State *)

Record station_row := {
  st_version : option Z;
  st_supported : option bool;
  st_probed_fw : option string;
  st_last_status : option string
}.

(** What a call to the charger comes to. *)
Inductive call_outcome := Reply (status : string) | CallRaises | CallTimesOut.

Record sync_env := {
  se_disabled : bool;                       (* OCPP_DISABLE_LOCAL_AUTH_LIST *)
  se_legacy : bool;                         (* the probe columns do not exist *)
  se_fetch_ok : bool;
  se_known : bool;                          (* the station has a row *)
  se_vendor : option string;
  se_firmware : option string;
  se_config : option (list (string * string)); (* GetConfiguration; [None]: the call raises *)
  se_record_ok : bool;
  se_tags : option (list (string * string)); (* the approved tags; [None]: the query raises *)
  se_change : string -> call_outcome;       (* ChangeConfiguration of a key *)
  se_send : call_outcome;                   (* SendLocalList *)
  se_update_ok : bool
}.

Record sync_state := {
  ss_row : station_row;
  ss_calls : list string;                   (* what was sent to the charger *)
  ss_list : option (Z * list string)        (* the charger's list and its version *)
}.

Record SyncResult := { sr_status : string; sr_version : Z; sr_entries : nat; sr_reason : option string }.

Definition sent (s : sync_state) (message : string) : sync_state :=
  {| ss_row := ss_row s; ss_calls := ss_calls s ++ [message]; ss_list := ss_list s |}.
Definition with_row (s : sync_state) (r : station_row) : sync_state :=
  {| ss_row := r; ss_calls := ss_calls s; ss_list := ss_list s |}.

Section Sync.
Context (env : sync_env).

(** ** Calls to the charger *)

(** The last entry of a key, compared without case. *)
Definition config_value (key : string) (l : list (string * string)) : option string :=
  option_map snd (last (List.filter (fun e => String.eqb (py_lower (fst e)) key) l)).

Definition profile_supported (value : string) : bool :=
  bool_decide ("localauthlistmanagement"%string ∈ map (fun p => py_lower (strip p)) (split_on ","%char value)).

Definition _probe_local_auth_support (s : sync_state) : option bool * sync_state :=
  (match config_value "supportedfeatureprofiles" (default [] (se_config env)),
         config_value "localauthlistmaxlength" (default [] (se_config env)) with
   | Some value, _ => Some (profile_supported value)
   | None, Some raw => match py_int raw with Some n => Some (0 <? n) | None => None end
   | None, None => None
   end, sent s "GetConfiguration").

(** [change_configuration_with_error], within the timeout. *)
Definition change_configuration_with_error (key : string) (s : sync_state) : option (string * bool) * sync_state :=
  (match se_change env key with
   | Reply status => Some (status, false)
   | CallRaises => Some ("Rejected"%string, true)
   | CallTimesOut => None
   end, sent s ("ChangeConfiguration " +:+ key)).

Inductive BootstrapOutcome := SUCCESS | UNSUPPORTED | UNKNOWN.

Definition accepted_status (status : string) : bool :=
  String.eqb status "Accepted" || String.eqb status "RebootRequired".

Definition _bootstrap_local_auth_config (s : sync_state) : BootstrapOutcome * sync_state :=
  let '(reply, s) := change_configuration_with_error "LocalAuthListEnabled" s in
  match reply with
  | None => (UNKNOWN, s)
  | Some (status, transport_error) =>
      if negb (accepted_status status) then (if transport_error then UNKNOWN else UNSUPPORTED, s)
      else (SUCCESS, foldl (fun s kv => snd (change_configuration_with_error (fst kv) s)) s (tail _BOOTSTRAP_CONFIG_KEYS))
  end.

Definition _disable_freevend_best_effort (s : sync_state) : sync_state :=
  snd (change_configuration_with_error "FreevendEnabled" s).

(** [send_local_list_with_error]: status, and whether it stems from an exception. *)
Definition send_local_list_with_error (version : Z) (entries : list string) (s : sync_state)
  : (string * bool) * sync_state :=
  if se_disabled env then (("NotSupported"%string, false), s)
  else if _is_abb_or_unknown_vendor (se_vendor env) && (_LOCAL_LIST_MAX_ENTRIES <? length entries)%nat
  then (("NotSupported"%string, false), s)
  else
    let s := sent s "SendLocalList" in
    match se_send env with
    | Reply status =>
        ((status, false),
         if String.eqb status "Accepted"
         then {| ss_row := ss_row s; ss_calls := ss_calls s; ss_list := Some (version, entries) |} else s)
    | _ => (("Failed"%string, true), s)
    end.

(** ** The row *)

Definition _record_probe_outcome (supported : bool) (firmware last_status : option string) (s : sync_state) : sync_state :=
  if se_record_ok env
  then with_row s {| st_version := st_version (ss_row s); st_supported := Some supported; st_probed_fw := firmware;
                     st_last_status := match last_status with Some _ => last_status | None => st_last_status (ss_row s) end |}
  else s.

Definition stamp (version : option Z) (status : string) (s : sync_state) : sync_state :=
  if se_update_ok env
  then with_row s {| st_version := match version with Some _ => version | None => st_version (ss_row s) end;
                     st_supported := st_supported (ss_row s); st_probed_fw := st_probed_fw (ss_row s);
                     st_last_status := Some status |}
  else s.

(** ** The sync *)

(** From the tag list on: configure a first sync, push, record. *)
Definition push (current_version : Z) (current_fw : option string) (probe_positive : bool)
    (entries : list string) (s : sync_state) : SyncResult * sync_state :=
  let '(bootstrap, s) := if current_version =? 0 then let '(o, s) := _bootstrap_local_auth_config s in (Some o, s)
                         else (None, s) in
  match bootstrap with
  | Some UNSUPPORTED | Some UNKNOWN =>
      let unsupported := match bootstrap with Some UNSUPPORTED => true | _ => false end in
      let status := (if unsupported then "UnsupportedFromBootstrap" else "UnknownFromBootstrap")%string in
      let s := if unsupported && negb probe_positive && negb (se_legacy env) && bool_decide (is_Some current_fw)
               then _record_probe_outcome false current_fw (Some status) s
               else if negb probe_positive then stamp None status s else s in
      let s := _disable_freevend_best_effort s in
      ({| sr_status := status; sr_version := current_version; sr_entries := length entries;
          sr_reason := Some (if unsupported then "bootstrap_unsupported" else "bootstrap_unknown")%string |}, s)
  | _ =>
      let '((status, transport_error), s) := send_local_list_with_error (current_version + 1) entries s in
      let cache_negative :=
        negb (se_legacy env) && bool_decide (is_Some current_fw) && (length entries <=? _LOCAL_LIST_MAX_ENTRIES)%nat
        && (String.eqb status "NotSupported"
            || (String.eqb status "Failed" && negb probe_positive && negb transport_error)) in
      let s := if cache_negative then _record_probe_outcome false current_fw (Some status) s
               else if String.eqb status "Accepted" then stamp (Some (current_version + 1)) status s
               else stamp None status s in
      ({| sr_status := status;
          sr_version := if String.eqb status "Accepted" then current_version + 1 else current_version;
          sr_entries := length entries; sr_reason := None |}, s)
  end.

Definition skipped_sync (version : Z) (reason : string) : SyncResult :=
  {| sr_status := "skipped"; sr_version := version; sr_entries := 0; sr_reason := Some reason |}.

Definition sync_charger (s : sync_state) : SyncResult * sync_state :=
  if se_disabled env then (skipped_sync 0 "env_disabled", s)
  else if negb (se_fetch_ok env) then (skipped_sync 0 "db_error", s)
  else if negb (se_known env) then (skipped_sync 0 "unknown_station", s)
  else
    let current_version := default 0 (st_version (ss_row s)) in
    let current_fw := _normalize_firmware (se_firmware env) in
    let supported_cached := if se_legacy env then None else st_supported (ss_row s) in
    let probed_fw := if se_legacy env then None else _normalize_firmware (st_probed_fw (ss_row s)) in
    if bool_decide (supported_cached = Some false) && bool_decide (probed_fw = current_fw)
    then (skipped_sync current_version "unsupported_cached", s)
    else
      let needs_probe := negb (se_legacy env)
                         && (bool_decide (supported_cached = None) || negb (bool_decide (probed_fw = current_fw))) in
      let '(probe, s) := if needs_probe then _probe_local_auth_support s else (None, s) in
      match probe with
      | Some false =>
          let s := if bool_decide (is_Some current_fw)
                   then _record_probe_outcome false current_fw (Some "UnsupportedFeatureProfile"%string) s else s in
          ({| sr_status := "UnsupportedFeatureProfile"; sr_version := current_version; sr_entries := 0;
              sr_reason := Some "probe_negative"%string |}, s)
      | _ =>
          let newly := bool_decide (probe = Some true) && negb (bool_decide (supported_cached = Some true)) in
          let s := if newly then _record_probe_outcome true current_fw None s else s in
          match se_tags env with
          | None => (skipped_sync current_version "db_error", s)
          | Some rows => push current_version current_fw (newly || bool_decide (supported_cached = Some true))
                           (_format_entries rows) s
          end
      end.
End Sync.
