(* ===== verification/LocalAuthFacts.v ===== *)
(** * Properties of the offline authorisation lists

    A tag a charger may accept while it is cut off is one the service would accept;
    the list a charger holds is the one of the last accepted push, and the recorded
    version follows it; a firmware that refused is left alone, a connection that
    died is not held against it. *)

From S2P Require Import Prelude Models PyText Rfid RfidFacts LocalAuth.
From Stdlib Require Import ZArith Lia Ascii.
From stdpp Require Import base list strings gmap.

#[local] Open Scope Z_scope.

(** ** The tags *)

Lemma distinct_tags_incl seen l tag src : (tag, src) ∈ distinct_tags seen l -> (tag, src) ∈ l.
Proof.
  revert seen. induction l as [|[t s] l IH]; intros seen; cbn; [done|].
  case_bool_decide; intros Hin; [right; by eapply IH|].
  apply elem_of_cons in Hin as [E|Hin]; [injection E as -> ->; by left | right; by eapply IH].
Qed.

Lemma distinct_tags_nodup seen l :
  NoDup (map fst (distinct_tags seen l)) /\ (forall t, t ∈ seen -> t ∉ map fst (distinct_tags seen l)).
Proof.
  revert seen. induction l as [|[t s] l IH]; intros seen; cbn; [by split; [constructor | set_solver]|].
  case_bool_decide; [apply IH|]. cbn. destruct (IH (t :: seen)) as [H1 H2]. split.
  - constructor; [apply H2; left | exact H1].
  - intros t' H' Hin. apply elem_of_cons in Hin as [->|Hin]; [done|]. by eapply H2; [right; exact H'|].
Qed.

Lemma distinct_tags_covers seen l tag :
  tag ∈ map fst l -> tag ∈ seen \/ tag ∈ map fst (distinct_tags seen l).
Proof.
  revert seen. induction l as [|[t s] l IH]; intros seen H; cbn in *; [set_solver|].
  apply elem_of_cons in H as [->|H].
  - case_bool_decide; [by left|]. right. left.
  - case_bool_decide; [by apply IH|]. destruct (IH (t :: seen) H) as [H'|H'].
    + apply elem_of_cons in H' as [->|H']; [right; left | by left].
    + right. by right.
Qed.

(** A tag the query returns belongs to an active vehicle or card of the station's site. *)
Lemma listed_tag f station sa tag :
  tag ∈ _format_entries (list_authorized_id_tags f station (Some sa)) <->
  (exists v, v ∈ default [] (ft_vehicles f) /\ vt_id_tag v = tag /\ vt_site v = sa_site sa /\
     vt_status v = Some "active"%string /\ vehicle_accessible station sa (vt_vehicle v) = true) \/
  (exists c, c ∈ default [] (ft_cards f) /\ ct_id_tag c = tag /\ ct_site c = sa_site sa /\
     ct_status c = "active"%string).
Proof.
  assert (tag ∈ _format_entries (list_authorized_id_tags f station (Some sa)) <->
          tag ∈ map fst (vehicle_tags f station sa ++ card_tags f sa)) as ->.
  { unfold _format_entries, list_authorized_id_tags. rewrite !list_elem_of_In, !in_map_iff. split.
    - intros ([t s] & <- & H). exists (t, s). split; [done|]. apply list_elem_of_In.
      apply list_elem_of_In, elem_of_sort_by in H. by eapply distinct_tags_incl.
    - intros ([t s] & <- & H).
      destruct (distinct_tags_covers [] (vehicle_tags f station sa ++ card_tags f sa) t) as [H'|H'];
        [apply list_elem_of_In, in_map_iff; by exists (t, s) | by apply elem_of_nil in H' |].
      apply list_elem_of_In, in_map_iff in H' as (p & E & H'). exists p. split; [done|].
      apply list_elem_of_In, elem_of_sort_by. by apply list_elem_of_In. }
  unfold vehicle_tags, card_tags. rewrite map_app, elem_of_app, !map_map. cbn.
  rewrite !list_elem_of_In, !in_map_iff. split.
  - intros [(v & <- & H)|(c & <- & H)]; apply filter_In in H as [Hin H]; apply list_elem_of_In in Hin.
    + apply andb_prop in H as [H H3]. apply andb_prop in H as [H1 H2]. apply String.eqb_eq in H1.
      apply bool_decide_eq_true in H2. left. by exists v.
    + apply andb_prop in H as [H1 H2]. apply String.eqb_eq in H1, H2. right. by exists c.
  - intros [(v & Hin & <- & H1 & H2 & H3)|(c & Hin & <- & H1 & H2)]; [left; exists v | right; exists c];
      (split; [done|]); apply filter_In; (split; [by apply list_elem_of_In|]).
    + by rewrite H1, String.eqb_refl, H2, H3, bool_decide_eq_true_2.
    + by rewrite H1, H2, !String.eqb_refl.
Qed.

(** The row that alone satisfies a test is what the filter returns. *)
Lemma filter_single {A B} (key : A -> B) (test : A -> bool) (l : list A) x :
  NoDup (map key l) -> x ∈ l -> test x = true -> (forall y, y ∈ l -> test y = true -> key y = key x) ->
  List.filter test l = [x].
Proof.
  induction l as [|y l IH]; intros Hnd Hin Hx Hk; [by apply elem_of_nil in Hin|].
  cbn in Hnd. apply NoDup_cons in Hnd as [Hny Hnd]. cbn.
  assert (forall z, z ∈ l -> test z = true -> key z = key x) as Hk' by (intros z Hz; apply Hk; by right).
  apply elem_of_cons in Hin as [<-|Hin].
  - rewrite Hx. f_equal. apply filter_none. intros z Hz.
    destruct (test z) eqn:E; [|done]. destruct Hny. rewrite <- (Hk' z Hz E). apply list_elem_of_In, in_map.
    by apply list_elem_of_In.
  - destruct (test y) eqn:E; [|by apply IH]. destruct Hny.
    rewrite (Hk y ltac:(left) E). apply list_elem_of_In, in_map. by apply list_elem_of_In.
Qed.

(** The fleet's tables as the schema keeps them: unique tags, and one site per station. *)
Record fleet_keys (f : fleet_tables) (station site : string) : Prop := {
  fk_vehicles : NoDup (map vt_id_tag (default [] (ft_vehicles f)));
  fk_cards : NoDup (map ct_id_tag (default [] (ft_cards f)));
  fk_station : forall si, at_site f station si = true <-> si = site
}.

Lemma card_lookup_succeeds f station site tag c :
  fleet_keys f station site -> c ∈ default [] (ft_cards f) -> ct_id_tag c = tag -> ct_site c = site ->
  ct_status c = "active"%string -> is_Some (lookup_card f tag station).
Proof.
  intros K Hin <- Hs Ha. unfold lookup_card. pose proof (fk_cards _ _ _ K) as Hnd.
  destruct (ft_cards f) as [cs|]; [|by apply elem_of_nil in Hin]. cbn in *.
  rewrite (filter_single ct_id_tag _ cs c Hnd Hin).
  - destruct (ft_assignments f _ _). by eexists.
  - rewrite Ha, (proj2 (fk_station _ _ _ K _) Hs), !String.eqb_refl. done.
  - intros y _ H. apply andb_prop in H as [H _]. apply andb_prop in H as [H _]. by apply String.eqb_eq in H.
Qed.

(** The vehicle part decides only when a vehicle carries the tag. *)
Lemma vehicle_lookup_falls_through f station site tag :
  fleet_keys f station site -> is_Some (lookup_card f tag station) -> is_Some (lookup_id_tag f tag station).
Proof.
  intros K Hc. unfold lookup_id_tag. pose proof (fk_vehicles _ _ _ K) as Hnd.
  destruct (ft_vehicles f) as [vs|]; [|done]. cbn in Hnd.
  match goal with |- context [List.filter ?P vs] => set (p := P) end.
  destruct (List.filter p vs) as [|v r] eqn:Ef; [done|].
  assert (v ∈ vs /\ p v = true) as [Hin Hp].
  { assert (In v (List.filter p vs)) as H by (rewrite Ef; by left). apply filter_In in H as [H1 H2].
    split; [by apply list_elem_of_In | done]. }
  assert (List.filter p vs = [v]) as E.
  { apply (filter_single vt_id_tag); try done. intros y _ Hy. unfold p in Hy, Hp.
    repeat (apply andb_prop in Hy as [Hy _]). repeat (apply andb_prop in Hp as [Hp _]).
    apply String.eqb_eq in Hy, Hp. congruence. }
  rewrite E in Ef. injection Ef as <-. by eexists.
Qed.

Lemma listed_tag_found f station sa tag :
  fleet_keys f station (sa_site sa) ->
  tag ∈ _format_entries (list_authorized_id_tags f station (Some sa)) -> is_Some (lookup_id_tag f tag station).
Proof.
  intros K H. apply listed_tag in H as [(v & Hin & <- & Hs & Ha & _)|(c & Hin & Ht & Hs & Ha)].
  - unfold lookup_id_tag. pose proof (fk_vehicles _ _ _ K) as Hnd.
    destruct (ft_vehicles f) as [vs|]; [|by apply elem_of_nil in Hin]. cbn in *.
    rewrite (filter_single vt_id_tag _ vs v Hnd Hin); [by eexists | |].
    + by rewrite Ha, (proj2 (fk_station _ _ _ K _) Hs), !String.eqb_refl.
    + intros y _ H. apply andb_prop in H as [H _]. apply andb_prop in H as [H _]. by apply String.eqb_eq in H.
  - eapply vehicle_lookup_falls_through; [done|]. by eapply card_lookup_succeeds.
Qed.

(** C26: There is no tag that works offline and not online: under the unique indexes on
    the tags and one site per station, every tag of the list pushed to a charger is
    accepted by the service there, as a matched identity and without an override, unless
    it is blank, throttled or the lookup does not answer; and the list names no tag
    twice. *)
Theorem offline_tags_accepted_online f station sa tag env s :
  fleet_keys f station (sa_site sa) ->
  tag ∈ _format_entries (list_authorized_id_tags f station (Some sa)) ->
  ae_lookup_ok env = true -> strip tag <> ""%string -> fst (_is_throttled env (station, tag) s) = false ->
  rd_status (fst (authorize f env station tag s)) = AUTH_ACCEPTED /\
  rd_reason (fst (authorize f env station tag s)) = "identity_matched"%string /\
  NoDup (_format_entries (list_authorized_id_tags f station (Some sa))).
Proof.
  intros K Hin Hok Hb Ht. destruct (listed_tag_found _ _ _ _ K Hin) as [who Hw].
  apply Logic.and_assoc. split.
  - unfold authorize. destruct (String.eqb_spec (strip tag) "") as [|_]; [done|].
    destruct (_is_throttled env (station, tag) s) as [th s1]. cbn in Ht. subst th. by rewrite Hok, Hw.
  - unfold _format_entries, list_authorized_id_tags. rewrite (sort_by_perm _ _). apply distinct_tags_nodup.
Qed.

(** ** Syncs in a row *)

Fixpoint sync_run (envs : list sync_env) (s : sync_state) : list SyncResult * sync_state :=
  match envs with
  | [] => ([], s)
  | env :: envs' => let '(r, s1) := sync_charger env s in
                    let '(rs, s2) := sync_run envs' s1 in (r :: rs, s2)
  end.

Definition row_version (s : sync_state) : Z := default 0 (st_version (ss_row s)).
Definition accepted_sync (r : SyncResult) : bool := String.eqb (sr_status r) "Accepted".
Definition pushed (env : sync_env) : list string := _format_entries (default [] (se_tags env)).

(** What one sync leaves of the version and the charger's list. *)
Definition sync_effect (env : sync_env) (s : sync_state) (r : SyncResult) (s' : sync_state) : Prop :=
  if accepted_sync r
  then ss_list s' = Some (row_version s + 1, pushed env) /\ sr_version r = row_version s + 1 /\
       row_version s' = (if se_update_ok env then row_version s + 1 else row_version s) /\
       (_is_abb_or_unknown_vendor (se_vendor env) = true -> (length (pushed env) <= 16)%nat)
  else ss_list s' = ss_list s /\ row_version s' = row_version s.

(** Messages and probe outcomes leave the version and the list alone. *)
Definition same_list (s s' : sync_state) : Prop := ss_list s' = ss_list s /\ row_version s' = row_version s.

#[local] Instance same_list_preorder : PreOrder same_list.
Proof. split; [done|]. intros a b c [H1 H2] [H3 H4]. split; congruence. Qed.

Lemma same_list_call env key s : same_list s (snd (change_configuration_with_error env key s)).
Proof. done. Qed.

Lemma same_list_record env b fw st s : same_list s (_record_probe_outcome env b fw st s).
Proof. unfold _record_probe_outcome. by destruct (se_record_ok env). Qed.

Lemma same_list_stamp env st s : same_list s (stamp env None st s).
Proof. unfold stamp. by destruct (se_update_ok env). Qed.

Lemma same_list_aux env (keys : list (string * string)) s :
  same_list s (foldl (fun s kv => snd (change_configuration_with_error env (fst kv) s)) s keys).
Proof.
  revert s. induction keys as [|k keys IH]; intros s; [done|]. cbn.
  etrans; [apply (same_list_call env (fst k)) | apply IH].
Qed.

Lemma same_list_bootstrap env s : same_list s (snd (_bootstrap_local_auth_config env s)).
Proof.
  unfold _bootstrap_local_auth_config. cbn -[foldl]. destruct (se_change env _) as [st| |]; cbn -[foldl]; try done.
  destruct (negb (accepted_status st)); cbn -[foldl]; [done|].
  apply (same_list_aux env _ (sent s _)).
Qed.

#[local] Hint Resolve same_list_record same_list_stamp same_list_bootstrap : local_list.

Lemma send_effect env v entries s st te s' :
  send_local_list_with_error env v entries s = ((st, te), s') ->
  (if String.eqb st "Accepted"
   then ss_list s' = Some (v, entries) /\ ss_row s' = ss_row s /\
        (_is_abb_or_unknown_vendor (se_vendor env) = true -> (length entries <= 16)%nat)
   else ss_list s' = ss_list s /\ ss_row s' = ss_row s).
Proof.
  unfold send_local_list_with_error. destruct (se_disabled env); [intros H; by injection H as <- <- <-|].
  destruct (_is_abb_or_unknown_vendor (se_vendor env)) eqn:Ev;
    destruct (Nat.ltb_spec _LOCAL_LIST_MAX_ENTRIES (length entries)) as [Hl|Hl]; cbn [andb];
    try (intros H; by injection H as <- <- <-); destruct (se_send env) as [reply| |]; intros H; injection H as <- <- <-;
    try done; destruct (String.eqb reply "Accepted"); cbn; repeat split; try done; intros; lia.
Qed.

(** The push and what is recorded of it, whether or not a refusal is cached. *)
Lemma send_recorded env fw rows s s1 st te s2 (c : bool) :
  se_tags env = Some rows -> same_list s s1 ->
  send_local_list_with_error env (row_version s + 1) (_format_entries rows) s1 = ((st, te), s2) ->
  (String.eqb st "Accepted" = true -> c = false) ->
  sync_effect env s
    {| sr_status := st; sr_version := if String.eqb st "Accepted" then row_version s + 1 else row_version s;
       sr_entries := length (_format_entries rows); sr_reason := None |}
    (if c then _record_probe_outcome env false fw (Some st) s2
     else if String.eqb st "Accepted" then stamp env (Some (row_version s + 1)) st s2
     else stamp env None st s2).
Proof.
  intros Et [L1 R1] Es Hc. apply send_effect in Es.
  unfold sync_effect, accepted_sync, pushed. rewrite Et. cbn [sr_status sr_version default].
  destruct (String.eqb st "Accepted").
  - rewrite (Hc eq_refl). destruct Es as (E1 & E2 & E3). unfold stamp, row_version in *.
    destruct (se_update_ok env); cbn; rewrite ?E2; by split_and!.
  - destruct Es as [E1 E2]. assert (same_list s s2) as Hs by (split; unfold row_version in *; by rewrite ?E1, ?E2).
    match goal with |- ss_list ?s' = _ /\ _ => change (same_list s s') end.
    etrans; [exact Hs|]. destruct c; auto with local_list.
Qed.

Lemma push_effect env fw pp rows s r s' :
  se_tags env = Some rows -> push env (row_version s) fw pp (_format_entries rows) s = (r, s') ->
  sync_effect env s r s'.
Proof.
  intros Et. unfold push.
  assert (exists o s1, (if row_version s =? 0 then let '(o, s) := _bootstrap_local_auth_config env s in (Some o, s)
                        else (None, s)) = (o, s1) /\ same_list s s1) as (o & s1 & -> & Hs).
  { destruct (_ =? 0); [|by exists None, s]. pose proof (same_list_bootstrap env s) as H.
    destruct (_bootstrap_local_auth_config env s) as [o s1]. by exists (Some o), s1. }
  assert (forall (c : bool) (st1 st2 : string), same_list s (_disable_freevend_best_effort env
            (if c then _record_probe_outcome env false fw (Some st1) s1
             else if negb pp then stamp env None st2 s1 else s1))) as Hboot.
  { intros c st1 st2. etrans; [exact Hs|]. etrans; [|apply same_list_call].
    destruct c; [|destruct (negb pp)]; auto with local_list. done. }
  destruct o as [[| |]|].
  2: { intros H; injection H as <- <-. apply Hboot. }
  2: { intros H; injection H as <- <-. apply (Hboot false ""%string). }
  all: destruct (send_local_list_with_error _ _ _ s1) as [[st te] s2] eqn:Es; intros H; injection H as <- <-;
    apply (send_recorded env fw rows s s1 st te); try done;
    intros ->%String.eqb_eq; by rewrite andb_false_r.
Qed.

Lemma skipped_effect env s v reason s' : same_list s s' -> sync_effect env s (skipped_sync v reason) s'.
Proof. done. Qed.

Lemma sync_charger_effect env s r s' : sync_charger env s = (r, s') -> sync_effect env s r s'.
Proof.
  unfold sync_charger.
  destruct (se_disabled env); [intros H; injection H as <- <-; by apply skipped_effect|].
  destruct (se_fetch_ok env); [|intros H; injection H as <- <-; by apply skipped_effect].
  destruct (se_known env); [|intros H; injection H as <- <-; by apply skipped_effect].
  cbn [negb]. cbv zeta. fold (row_version s).
  set (fw := _normalize_firmware (se_firmware env)). set (sup := if se_legacy env then None else _). set (pfw := if se_legacy env then None else _).
  destruct (bool_decide (sup = Some false) && _); [intros H; injection H as <- <-; by apply skipped_effect|].
  assert (forall c : bool, same_list s (snd (if c then _probe_local_auth_support env s else (None, s)))) as Hp by by intros [].
  match goal with |- context [if ?c then _probe_local_auth_support env s else _] =>
    specialize (Hp c); destruct (if c then _probe_local_auth_support env s else (None, s)) as [p s1] end.
  cbn [snd] in Hp. rename Hp into Hs.
  assert (forall b : bool, same_list s (if b then _record_probe_outcome env true fw None s1 else s1)) as Ht.
  { intros []; [|done]. etrans; [exact Hs|]. auto with local_list. }
  destruct p as [[]|]; cbv zeta.
  2: { intros H; injection H as <- <-.
       match goal with |- sync_effect _ _ _ ?s2 => change (same_list s s2) end. etrans; [exact Hs|].
       destruct (bool_decide _); auto with local_list. done. }
  all: match goal with |- context [if ?b then _record_probe_outcome _ _ _ _ _ else _] =>
         specialize (Ht b); set (s2 := if b then _record_probe_outcome env true fw None s1 else s1) in * end;
    destruct (se_tags env) as [rows|] eqn:Et; intros H; [|injection H as <- <-; by apply skipped_effect];
    destruct Ht as [L R]; rewrite <- R in H; apply (push_effect _ _ _ _ _ _ _ Et) in H;
    unfold sync_effect in *; by rewrite L, R in H.
Qed.

(** What holds of the charger's list after some syncs. *)
Definition list_follows (envs : list sync_env) (rs : list SyncResult) (s : sync_state) : Prop :=
  match ss_list s with
  | None => forall r, r ∈ rs -> accepted_sync r = false
  | Some (v, entries) =>
      exists i env r, envs !! i = Some env /\ rs !! i = Some r /\ accepted_sync r = true /\
        entries = pushed env /\ v = sr_version r /\
        (forall j r', (i < j)%nat -> rs !! j = Some r' -> accepted_sync r' = false) /\
        row_version s = (if se_update_ok env then v else v - 1) /\
        (_is_abb_or_unknown_vendor (se_vendor env) = true -> (length entries <= 16)%nat)
  end.

Lemma sync_run_snoc envs env s :
  sync_run (envs ++ [env]) s =
  let '(rs, s1) := sync_run envs s in let '(r, s2) := sync_charger env s1 in (rs ++ [r], s2).
Proof.
  revert s. induction envs as [|e envs IH]; intros s; cbn; [by destruct (sync_charger env s)|].
  destruct (sync_charger e s) as [r s1]. rewrite IH. destruct (sync_run envs s1) as [rs s2].
  by destruct (sync_charger env s2).
Qed.

Lemma sync_run_length envs s rs s' : sync_run envs s = (rs, s') -> length rs = length envs.
Proof.
  revert s rs. induction envs as [|e envs IH]; intros s rs; cbn; [intros H; by injection H as <- <-|].
  destruct (sync_charger e s) as [r s1]. destruct (sync_run envs s1) as [rs1 s2] eqn:E.
  intros H; injection H as <- <-. cbn. f_equal. by eapply IH.
Qed.

Lemma list_follows_step envs rs s env r s' :
  length rs = length envs -> list_follows envs rs s -> sync_effect env s r s' ->
  list_follows (envs ++ [env]) (rs ++ [r]) s'.
Proof.
  intros Hl Hf He. unfold sync_effect in He. destruct (accepted_sync r) eqn:Ea.
  - destruct He as (E1 & E2 & E3 & E4). unfold list_follows. rewrite E1.
    exists (length envs), env, r. rewrite lookup_app_r, Nat.sub_diag by lia.
    rewrite lookup_app_r, <- Hl, Nat.sub_diag by lia. split_and!; try done.
    + intros j r' Hj H. apply lookup_lt_Some in H. rewrite length_app in H. cbn in H. lia.
    + rewrite E3. destruct (se_update_ok env); lia.
  - destruct He as [E1 E2]. unfold list_follows in *. rewrite E1. destruct (ss_list s) as [[v es]|].
    + destruct Hf as (i & e & r0 & H1 & H2 & H3 & H4 & H5 & H6 & H7 & H8). exists i, e, r0.
      rewrite (lookup_app_l_Some _ _ _ _ H1), (lookup_app_l_Some _ _ _ _ H2), E2. split_and!; try done.
      intros j r' Hj H. apply lookup_app_Some in H as [H|[_ H]]; [by eapply H6|].
      apply list_lookup_singleton_Some in H as [_ <-]. done.
    + intros r0 H. apply elem_of_app in H as [H|H]; [by apply Hf|]. by apply list_elem_of_singleton in H as ->.
Qed.

Lemma sync_run_follows envs s rs s' :
  ss_list s = None -> sync_run envs s = (rs, s') -> list_follows envs rs s'.
Proof.
  intros H0. revert rs s'. induction envs as [|env envs IH] using rev_ind; intros rs s'.
  { intros H. injection H as <- <-. unfold list_follows. rewrite H0. intros r H. by apply elem_of_nil in H. }
  rewrite sync_run_snoc. destruct (sync_run envs s) as [rs1 s1] eqn:E1.
  destruct (sync_charger env s1) as [r s2] eqn:E2. intros H; injection H as <- <-.
  eapply list_follows_step; [by eapply sync_run_length | by apply IH | by apply sync_charger_effect].
Qed.

(** After any syncs of a charger that held no list, whatever it and the database
    answered, the charger holds exactly the tags of the last push it accepted (and none
    if it accepted none), under the version that sync reported; the recorded version is
    that version, or one less when the update of that sync failed; and a charger of ABB
    or an unknown vendor holds at most 16 entries. *)
Theorem charger_holds_last_accepted envs s rs s' :
  ss_list s = None -> sync_run envs s = (rs, s') -> list_follows envs rs s'.
Proof. apply sync_run_follows. Qed.

(** ** What is concluded about the firmware *)

(** No call reached the charger, or none was answered in time. *)
Definition dead_connection (env : sync_env) : Prop :=
  se_config env = None /\ (forall key status, se_change env key <> Reply status) /\
  (forall status, se_send env <> Reply status).

(** The probe cache and the version are as before. *)
Definition same_verdict (s s' : sync_state) : Prop :=
  st_supported (ss_row s') = st_supported (ss_row s) /\ st_probed_fw (ss_row s') = st_probed_fw (ss_row s) /\
  st_version (ss_row s') = st_version (ss_row s) /\ ss_list s' = ss_list s.

Lemma same_verdict_stamp env st s : same_verdict s (stamp env None st s).
Proof. unfold stamp. by destruct (se_update_ok env). Qed.

Lemma dead_bootstrap env s :
  dead_connection env ->
  fst (_bootstrap_local_auth_config env s) = UNKNOWN /\ same_verdict s (snd (_bootstrap_local_auth_config env s)).
Proof.
  intros (_ & Hc & _). unfold _bootstrap_local_auth_config. cbn.
  destruct (se_change env _) as [st| |] eqn:E; [by destruct (Hc _ _ E) | done | done].
Qed.

Lemma dead_send env v entries s :
  dead_connection env ->
  exists st te s', send_local_list_with_error env v entries s = ((st, te), s') /\ same_verdict s s' /\
    (String.eqb st "Accepted") = false /\
    ((length entries <= 16)%nat -> se_disabled env = false -> st = "Failed"%string /\ te = true).
Proof.
  intros (_ & _ & Hs). unfold send_local_list_with_error.
  destruct (se_disabled env); [by eexists _, _, _; split_and!|].
  destruct (_is_abb_or_unknown_vendor (se_vendor env) && _) eqn:E.
  { eexists _, _, _. split_and!; try done. intros Hl. apply andb_prop in E as [_ E%Nat.ltb_lt].
    unfold _LOCAL_LIST_MAX_ENTRIES in E. lia. }
  destruct (se_send env) as [st| |] eqn:Er; [by destruct (Hs st)| |]; eexists _, _, _; by split_and!.
Qed.

Lemma dead_push env v fw pp entries s r s' :
  dead_connection env -> se_disabled env = false -> push env v fw pp entries s = (r, s') -> same_verdict s s'.
Proof.
  intros Hd Hen. unfold push. destruct (v =? 0).
  - destruct (dead_bootstrap env s Hd) as [Ho Hs]. destruct (_bootstrap_local_auth_config env s) as [o s1].
    cbn in Ho, Hs. subst o. cbn -[stamp]. intros H; injection H as <- <-.
    destruct pp; cbn -[stamp]; [exact Hs|]. destruct Hs as (H1 & H2 & H3 & H4).
    destruct (same_verdict_stamp env "UnknownFromBootstrap" s1) as (K1 & K2 & K3 & K4).
    unfold same_verdict. cbn -[stamp]. by rewrite K1, K2, K3, K4.
  - destruct (dead_send env (v + 1) entries s Hd) as (st & te & s1 & -> & (H1 & H2 & H3 & H4) & Ha & Hf). rewrite Ha.
    intros H; injection H as <- <-.
    match goal with |- context [if ?c then _ else _] => assert (c = false) as -> end.
    { destruct (Nat.leb_spec (length entries) _LOCAL_LIST_MAX_ENTRIES) as [Hl|Hl]; [|by rewrite andb_false_r].
      destruct (Hf Hl Hen) as [-> ->]. cbn. by rewrite !andb_false_r. }
    destruct (same_verdict_stamp env st s1) as (K1 & K2 & K3 & K4).
    unfold same_verdict. by rewrite K1, K2, K3, K4.
Qed.


(** The charger said it cannot hold a list, and that was recorded for the firmware. *)
Definition known_unsupported (fw : option string) (s : sync_state) : Prop :=
  st_supported (ss_row s) = Some false /\ _normalize_firmware (st_probed_fw (ss_row s)) = fw.

Lemma unsupported_skipped env s :
  se_legacy env = false -> known_unsupported (_normalize_firmware (se_firmware env)) s ->
  sr_status (fst (sync_charger env s)) = "skipped"%string /\ snd (sync_charger env s) = s.
Proof.
  intros Hl [Hs Hf]. unfold sync_charger. rewrite Hl, Hs, Hf, !bool_decide_eq_true_2 by done.
  by destruct (se_disabled env), (se_fetch_ok env), (se_known env).
Qed.

(** Once a firmware is recorded as unsupported, no sync sends the charger anything, or
    changes its row, for as long as it boots with that firmware (up to surrounding
    spaces). *)
Theorem unsupported_left_alone fw envs s :
  known_unsupported fw s ->
  Forall (fun env => se_legacy env = false /\ _normalize_firmware (se_firmware env) = fw) envs ->
  snd (sync_run envs s) = s /\ Forall (fun r => sr_status r = "skipped"%string) (fst (sync_run envs s)).
Proof.
  intros Hk Hf. induction Hf as [|env envs [Hl Hfw] _ IH]; [by split; [|constructor]|]. cbn.
  rewrite <- Hfw in Hk. destruct (unsupported_skipped env s Hl Hk) as [H1 H2].
  destruct (sync_charger env s) as [r s1]. cbn in H1, H2. subst s1.
  destruct (sync_run envs s) as [rs s2]. cbn in *. destruct IH as [-> IH]. by split; [|constructor].
Qed.

(** ** Concrete chargers *)

Definition demo_fleet : fleet_tables := {|
  ft_vehicles := Some [{| vt_vehicle := "bus-1"; vt_site := "d1"; vt_id_tag := "TAG-B1"; vt_status := Some "active" |};
                       {| vt_vehicle := "bus-2"; vt_site := "d1"; vt_id_tag := "TAG-B2"; vt_status := Some "active" |}];
  ft_cards := Some [{| ct_card := "c1"; ct_site := "d1"; ct_id_tag := "CARD-1"; ct_status := "active" |};
                    {| ct_card := "c2"; ct_site := "d1"; ct_id_tag := "TAG-B2"; ct_status := "active" |};
                    {| ct_card := "c3"; ct_site := "d1"; ct_id_tag := "CARD-3"; ct_status := "lost" |}];
  ft_stations := [("CP1", "d1")];
  ft_assignments := fun _ _ => (None, None)
|}%string.

Definition demo_site : site_access := {|
  sa_site := "d1"; sa_mode := "restricted"; sa_default := Some "all_to_all";
  sa_matrix := [{| ac_station := "CP1"; ac_vehicle := "bus-1"; ac_accessible := false |}]
|}%string.

(** A bus barred from the charger by the matrix is not listed; a tag that is a
    vehicle's and a card's is listed once; a lost card is not. *)
Example demo_list :
  list_authorized_id_tags demo_fleet "CP1" (Some demo_site) = [("CARD-1", "rfid_card"); ("TAG-B2", "vehicle")]%string.
Proof. reflexivity. Qed.

Definition demo_env (fw : string) (config : option (list (string * string))) (reply : call_outcome) : sync_env := {|
  se_disabled := false; se_legacy := false; se_fetch_ok := true; se_known := true;
  se_vendor := Some "ABB"%string; se_firmware := Some fw; se_config := config; se_record_ok := true;
  se_tags := Some (list_authorized_id_tags demo_fleet "CP1" (Some demo_site));
  se_change := fun _ => reply; se_send := reply; se_update_ok := true
|}.

Definition fresh_charger : sync_state :=
  {| ss_row := {| st_version := None; st_supported := None; st_probed_fw := None; st_last_status := None |};
     ss_calls := []; ss_list := None |}.

Definition supports : option (list (string * string)) :=
  Some [("SupportedFeatureProfiles", "Core,LocalAuthListManagement")]%string.
Definition lacks : option (list (string * string)) := Some [("SupportedFeatureProfiles", "Core")]%string.

Definition quick_auth : auth_env := {|
  ae_throttle_now := 0; ae_record_now := 0; ae_count_ok := true; ae_lookup_ok := true; ae_override_ok := true;
  ae_record_ok := true; ae_clear_ok := true |}.

Lemma offline_tags_witness :
  rd_status (fst (authorize demo_fleet quick_auth "CP1" "TAG-B2" (init_rfid [] []))) = AUTH_ACCEPTED.
Proof.
  apply (offline_tags_accepted_online demo_fleet "CP1" demo_site "TAG-B2" quick_auth (init_rfid [] [])).
  - split.
    + apply (bool_decide_unpack _). reflexivity.
    + apply (bool_decide_unpack _). reflexivity.
    + intros si. unfold at_site. cbn -[String.eqb]. rewrite String.eqb_refl, orb_false_r. cbn [andb]. destruct (String.eqb_spec "d1" si) as [<-|H]; split; congruence.
  - right. left.
  - reflexivity.
  - discriminate.
  - reflexivity.
Defined.

Lemma charger_holds_last_witness :
  let envs := [demo_env "1.6" supports (Reply "Accepted"); demo_env "1.6" supports (Reply "Failed")] in
  list_follows envs (fst (sync_run envs fresh_charger)) (snd (sync_run envs fresh_charger)) /\
  ss_list (snd (sync_run envs fresh_charger)) = Some (1, ["CARD-1"; "TAG-B2"]%string).
Proof.
  intros envs. split; [|reflexivity].
  apply (charger_holds_last_accepted envs fresh_charger); [reflexivity|].
  by destruct (sync_run envs fresh_charger).
Defined.


Lemma unsupported_left_alone_witness :
  let s := snd (sync_charger (demo_env "1.8 " lacks (Reply "Accepted")) fresh_charger) in
  snd (sync_run [demo_env "1.8" supports (Reply "Accepted"); demo_env " 1.8" supports (Reply "Accepted")] s) = s.
Proof.
  intros s. apply (unsupported_left_alone (Some "1.8"%string)).
  - split; reflexivity.
  - repeat constructor.
Defined.

(** A charger that supported lists under its old firmware is asked for its profiles at
    every boot after an update: the positive answer is not recorded again, so the
    probed firmware stays the old one. *)
Theorem stale_probe_repeats :
  let boot := demo_env "2.0" supports (Reply "Accepted") in
  let s := snd (sync_charger (demo_env "1.6" supports (Reply "Accepted")) fresh_charger) in
  let s2 := snd (sync_run [boot; boot; boot] s) in
  st_probed_fw (ss_row s2) = Some "1.6"%string /\
  length (List.filter (String.eqb "GetConfiguration") (ss_calls s2)) = 4%nat.
Proof. split; reflexivity. Qed.
