(* ===== verification/Budget.v ===== *)
(** * The token budget of the chat agent ([src/api/agent/budget.py])

    The monthly ceiling of an organisation, the tracker's counters, and its
    coroutines split at their awaits: a turn waits for the hydration lock, reads
    its row, pins its estimate, learns the ceiling and is admitted or refused; a
    flush writes the deltas it took; a reconciliation flushes, evicts and re-reads.
    One worker process; [bw_log] remembers what the turns reported. *)

From S2P Require Import Prelude Models Datetime PyText.
From Stdlib Require Import ZArith Lia.
From stdpp Require Import base list strings gmap.

#[local] Open Scope Z_scope.

(** ** The ceiling *)

Definition DEFAULT_TOKEN_BUDGET_MONTHLY : Z := 10000000.
Definition PER_TURN_OVERHEAD_TOKENS : Z := 4096.
Definition DEFAULT_FLUSH_EVERY_WRITES : Z := 25.
Definition DEFAULT_FLUSH_EVERY_SECONDS : Z := 30 * usec.

(** [raw]: the column as text. *)
Definition _parse_positive_int (raw : option string) : option Z :=
  match raw with
  | None => None
  | Some s => match py_int (strip s) with
              | Some v => if 0 <? v then Some v else None
              | None => None
              end
  end.

(** What reading the column comes to. *)
Inductive budget_read := BudgetRaises | BudgetRow (raw : option string).

Definition resolve_org_token_budget (static_pool : bool) (answer : budget_read) : Z :=
  if negb static_pool then DEFAULT_TOKEN_BUDGET_MONTHLY
  else match answer with
       | BudgetRaises => DEFAULT_TOKEN_BUDGET_MONTHLY
       | BudgetRow raw => default DEFAULT_TOKEN_BUDGET_MONTHLY (_parse_positive_int raw)
       end.

(** [strftime("%Y%m")] of a UTC instant. *)
Definition current_period_yyyymm (now : Z) : string :=
  let '(y, m, _) := civil_of (date_of now) in py_str_int y +:+ zero_padded 2 m.

Definition estimate_turn_tokens (system_prompt : string) : Z :=
  Z.max 0 (Z.of_nat (String.length system_prompt) / 4) + PER_TURN_OVERHEAD_TOKENS.

(** ** The tracker *)

(** Organisation and period. *)
Definition budget_key : Type := string * string.

Record _PeriodCounter := {
  committed_input : Z;
  committed_output : Z;
  reserved : Z;
  unflushed_input : Z;
  unflushed_output : Z
}.

Definition new_counter : _PeriodCounter :=
  {| committed_input := 0; committed_output := 0; reserved := 0; unflushed_input := 0; unflushed_output := 0 |}.

Definition counter_total (c : _PeriodCounter) : Z := committed_input c + committed_output c + reserved c.

Definition with_reserved (c : _PeriodCounter) (r : Z) : _PeriodCounter :=
  {| committed_input := committed_input c; committed_output := committed_output c; reserved := r;
     unflushed_input := unflushed_input c; unflushed_output := unflushed_output c |}.
Definition with_unflushed (c : _PeriodCounter) (i o : Z) : _PeriodCounter :=
  {| committed_input := committed_input c; committed_output := committed_output c; reserved := reserved c;
     unflushed_input := i; unflushed_output := o |}.
Definition with_committed (c : _PeriodCounter) (i o : Z) : _PeriodCounter :=
  {| committed_input := i; committed_output := o; reserved := reserved c;
     unflushed_input := unflushed_input c; unflushed_output := unflushed_output c |}.

Record Reservation := { rv_organization_id : option string; rv_period_yyyymm : string; rv_est_tokens : Z }.

Record budget_tracker := {
  _counters : gmap budget_key _PeriodCounter;
  _hydrated : gset budget_key;
  _hydration_lock : bool;
  _writes_since_flush : Z;
  _last_flush_at : Z
}.

Definition with_counters (t : budget_tracker) (m : gmap budget_key _PeriodCounter) : budget_tracker :=
  {| _counters := m; _hydrated := _hydrated t; _hydration_lock := _hydration_lock t;
     _writes_since_flush := _writes_since_flush t; _last_flush_at := _last_flush_at t |}.
Definition with_lock (t : budget_tracker) (b : bool) : budget_tracker :=
  {| _counters := _counters t; _hydrated := _hydrated t; _hydration_lock := b;
     _writes_since_flush := _writes_since_flush t; _last_flush_at := _last_flush_at t |}.
Definition with_hydrated (t : budget_tracker) (h : gset budget_key) : budget_tracker :=
  {| _counters := _counters t; _hydrated := h; _hydration_lock := _hydration_lock t;
     _writes_since_flush := _writes_since_flush t; _last_flush_at := _last_flush_at t |}.

(** [_counters.setdefault(key, _PeriodCounter())], then an update of it. *)
Definition counter_at (t : budget_tracker) (k : budget_key) : _PeriodCounter := default new_counter (_counters t !! k).
Definition on_counter (k : budget_key) (f : _PeriodCounter -> _PeriodCounter) (t : budget_tracker) : budget_tracker :=
  with_counters t (<[k := f (counter_at t k)]> (_counters t)).

(** Rows of [agent_token_usage], and the deltas of a flush: input and output tokens. *)
Notation usage_table := (gmap budget_key (Z * Z)).

(** ** [check_and_reserve], between its awaits *)

Definition pin_estimate (k : budget_key) (est : Z) : budget_tracker -> budget_tracker :=
  on_counter k (fun c => with_reserved c (reserved c + est)).

Definition unpin (k : budget_key) (est : Z) : budget_tracker -> budget_tracker :=
  on_counter k (fun c => with_reserved c (reserved c - est)).

(** The [finally] of a cancelled turn. *)
Definition unpin_aborted (k : budget_key) (est : Z) : budget_tracker -> budget_tracker :=
  on_counter k (fun c => with_reserved c (Z.max 0 (reserved c - est))).

Definition decide_reservation (k : budget_key) (est ceiling : Z) (t : budget_tracker)
  : option Reservation * budget_tracker :=
  if ceiling <? counter_total (counter_at t k) then (None, unpin k est t)
  else (Some {| rv_organization_id := Some (fst k); rv_period_yyyymm := snd k; rv_est_tokens := est |}, t).

(** Under the lock, before the row is read. *)
Definition hydrate_begin (k : budget_key) : budget_tracker -> budget_tracker := on_counter k id.

(** The row that was read, [None] when the read raised; the lock is released. *)
Definition hydrate_end (k : budget_key) (answer : option (option (Z * Z))) (t : budget_tracker) : budget_tracker :=
  let t := match answer with
           | Some (Some (i, o)) => on_counter k (fun c => with_committed c i o) t
           | _ => t
           end in
  with_lock (with_hydrated t ({[ k ]} ∪ _hydrated t)) false.

(** ** [record_actual] *)

Definition record_actual (r : Reservation) (actual_input actual_output : Z) (t : budget_tracker) : budget_tracker :=
  match rv_organization_id r with
  | None => t
  | Some org =>
      let ai := Z.max 0 actual_input in
      let ao := Z.max 0 actual_output in
      let t := on_counter (org, rv_period_yyyymm r) (fun c =>
        {| committed_input := committed_input c + ai; committed_output := committed_output c + ao;
           reserved := Z.max 0 (reserved c - rv_est_tokens r);
           unflushed_input := unflushed_input c + ai; unflushed_output := unflushed_output c + ao |}) t in
      {| _counters := _counters t; _hydrated := _hydrated t; _hydration_lock := _hydration_lock t;
         _writes_since_flush := _writes_since_flush t + 1; _last_flush_at := _last_flush_at t |}
  end.

(** [_maybe_schedule_flush]: whether a background flush is created now. *)
Definition _maybe_schedule_flush (now : Z) (flush_running : bool) (t : budget_tracker) : bool * budget_tracker :=
  let due := (DEFAULT_FLUSH_EVERY_WRITES <=? _writes_since_flush t)
             || (DEFAULT_FLUSH_EVERY_SECONDS <=? now - _last_flush_at t) in
  if due && negb flush_running
  then (true, {| _counters := _counters t; _hydrated := _hydrated t; _hydration_lock := _hydration_lock t;
                 _writes_since_flush := 0; _last_flush_at := now |})
  else (false, t).

(** ** [flush] *)

Definition delta (c : _PeriodCounter) : option (Z * Z) :=
  if negb (unflushed_input c =? 0) || negb (unflushed_output c =? 0)
  then Some (unflushed_input c, unflushed_output c) else None.

(** The deltas, taken and zeroed in one go. *)
Definition take_deltas (t : budget_tracker) : usage_table * budget_tracker :=
  (omap delta (_counters t),
   with_counters t (fmap (fun c => match delta c with Some _ => with_unflushed c 0 0 | None => c end) (_counters t))).

Definition add_row (a b : option (Z * Z)) : option (Z * Z) :=
  match a, b with
  | Some (i, o), Some (i', o') => Some (i + i', o + o')
  | Some r, None => Some r
  | None, r => r
  end.

(** The upserts of one [executemany]: all of them, or none. *)
Definition write_usage (pending usage : usage_table) : usage_table := merge add_row usage pending.

(** A failed write puts its deltas back where the counter still exists. *)
Definition restore_deltas (pending : usage_table) (t : budget_tracker) : budget_tracker :=
  with_counters t
    (map_imap (fun k c => Some match pending !! k with
                               | Some (i, o) => with_unflushed c (unflushed_input c + i) (unflushed_output c + o)
                               | None => c
                               end) (_counters t)).

(** ** [reconcile] *)

Definition settled (c : _PeriodCounter) : bool :=
  (reserved c =? 0) && (unflushed_input c =? 0) && (unflushed_output c =? 0).

Definition _evict_settled_past_periods (current : string) (t : budget_tracker) : budget_tracker :=
  let gone (k : budget_key) (c : _PeriodCounter) :=
    negb (String.eqb (snd k) current) && bool_decide (k ∈ _hydrated t) && settled c in
  {| _counters := map_imap (fun k c => if gone k c then None else Some c) (_counters t);
     _hydrated := filter (fun k => match _counters t !! k with Some c => negb (gone k c) | None => true end = true)
                    (_hydrated t);
     _hydration_lock := _hydration_lock t; _writes_since_flush := _writes_since_flush t;
     _last_flush_at := _last_flush_at t |}.

(** The row just read plus what is not flushed yet. *)
Definition rebase (k : budget_key) (row : option (Z * Z)) (t : budget_tracker) : budget_tracker :=
  match _counters t !! k with
  | None => t
  | Some c =>
      let '(i, o) := default (0, 0) row in
      with_counters t (<[k := with_committed c (i + unflushed_input c) (o + unflushed_output c)]> (_counters t))
  end.

(** ** Coroutines *)

Inductive budget_task :=
| TWaiting (k : budget_key) (est : Z)                    (* at the hydration lock *)
| TReading (k : budget_key) (est : Z)                    (* holds it, reading the row *)
| TRead (k : budget_key) (est : Z) (answer : option (option (Z * Z)))
| TPinned (k : budget_key) (est : Z)                     (* resolving the ceiling *)
| TTurn (r : Reservation)                                (* admitted, talking to the model *)
| TFlush                                                 (* background flush, created *)
| TWriting (pending : usage_table) (background sweep : bool)
| TEvicting                                              (* reconcile, after its flush *)
| TSweep (keys : list budget_key)
| TSwept (k : budget_key) (row : option (Z * Z)) (keys : list budget_key)
| TDone.

Record budget_world := {
  bw_tracker : budget_tracker;
  bw_usage : usage_table;
  bw_tasks : list budget_task;
  bw_log : list (budget_key * (Z * Z))                   (* key, input and output tokens of a turn *)
}.

(** A background flush that is not done. *)
Definition flush_running (w : budget_world) : bool :=
  existsb (fun t => match t with TFlush | TWriting _ true _ => true | _ => false end) (bw_tasks w).

Inductive budget_event :=
| EAsk (now : Z) (org : option string) (system_prompt : string) (ts_pool : bool)
| EWake (i : nat) (ts_pool : bool)
| ERead (i : nat) (ok : bool)
| EHydrated (i : nat)
| EDecide (i : nat) (static_pool : bool) (answer : budget_read)
| ECancel (i : nat)
| ERecord (i : nat) (now actual_input actual_output : Z)
| EFlush (i : nat) (ts_pool : bool)
| EWrite (i : nat) (ok : bool)
| EReconcile (ts_pool : bool)
| EEvict (i : nat) (now : Z) (ts_pool : bool)
| ESweep (i : nat) (ok : bool)
| ERebase (i : nat).

Definition with_task (w : budget_world) (i : nat) (t : budget_task) : budget_world :=
  {| bw_tracker := bw_tracker w; bw_usage := bw_usage w; bw_tasks := <[i := t]> (bw_tasks w); bw_log := bw_log w |}.
Definition with_tracker (w : budget_world) (t : budget_tracker) : budget_world :=
  {| bw_tracker := t; bw_usage := bw_usage w; bw_tasks := bw_tasks w; bw_log := bw_log w |}.
Definition spawn (w : budget_world) (t : budget_task) : budget_world :=
  {| bw_tracker := bw_tracker w; bw_usage := bw_usage w; bw_tasks := bw_tasks w ++ [t]; bw_log := bw_log w |}.

(** [_maybe_hydrate] up to its first await, and if it has none, the pin. *)
Definition enter_hydration (k : budget_key) (est : Z) (ts_pool : bool) (t : budget_tracker)
  : budget_task * budget_tracker :=
  if bool_decide (k ∈ _hydrated t) then (TPinned k est, pin_estimate k est t)
  else if _hydration_lock t then (TWaiting k est, t)
  else if ts_pool then (TReading k est, with_lock (hydrate_begin k t) true)
  else (TPinned k est, pin_estimate k est (hydrate_end k None (hydrate_begin k t))).

(** [flush], up to its write. *)
Definition begin_flush (ts_pool background sweep : bool) (t : budget_tracker) : budget_task * budget_tracker :=
  let after := if sweep then TEvicting else TDone in
  if negb ts_pool then (after, t)
  else let '(pending, t') := take_deltas t in
       if bool_decide (pending = ∅) then (after, t) else (TWriting pending background sweep, t').

Definition budget_step (e : budget_event) (w : budget_world) : option budget_world :=
  let t := bw_tracker w in
  match e with
  | EAsk now org prompt ts_pool =>
      match org with
      | None => Some (spawn w (TTurn {| rv_organization_id := None; rv_period_yyyymm := current_period_yyyymm now;
                                        rv_est_tokens := 0 |}))
      | Some o =>
          let '(task, t') := enter_hydration (o, current_period_yyyymm now) (estimate_turn_tokens prompt) ts_pool t in
          Some (spawn (with_tracker w t') task)
      end
  | EWake i ts_pool =>
      match bw_tasks w !! i with
      | Some (TWaiting k est) =>
          if _hydration_lock t then None
          else let '(task, t') := enter_hydration k est ts_pool t in Some (with_task (with_tracker w t') i task)
      | _ => None
      end
  | ERead i ok =>
      match bw_tasks w !! i with
      | Some (TReading k est) => Some (with_task w i (TRead k est (if ok then Some (bw_usage w !! k) else None)))
      | _ => None
      end
  | EHydrated i =>
      match bw_tasks w !! i with
      | Some (TRead k est answer) =>
          Some (with_task (with_tracker w (pin_estimate k est (hydrate_end k answer t))) i (TPinned k est))
      | _ => None
      end
  | EDecide i static_pool answer =>
      match bw_tasks w !! i with
      | Some (TPinned k est) =>
          let '(r, t') := decide_reservation k est (resolve_org_token_budget static_pool answer) t in
          Some (with_task (with_tracker w t') i (match r with Some r => TTurn r | None => TDone end))
      | _ => None
      end
  | ECancel i =>
      match bw_tasks w !! i with
      | Some (TWaiting _ _) => Some (with_task w i TDone)
      | Some (TReading _ _) | Some (TRead _ _ _) => Some (with_task (with_tracker w (with_lock t false)) i TDone)
      | Some (TPinned k est) => Some (with_task (with_tracker w (unpin_aborted k est t)) i TDone)
      | _ => None
      end
  | ERecord i now actual_input actual_output =>
      match bw_tasks w !! i with
      | Some (TTurn r) =>
          let t1 := record_actual r actual_input actual_output t in
          match rv_organization_id r with
          | None => Some (with_task w i TDone)
          | Some org =>
              let '(flush, t2) := _maybe_schedule_flush now (flush_running w) t1 in
              let w1 := {| bw_tracker := t2; bw_usage := bw_usage w; bw_tasks := <[i := TDone]> (bw_tasks w);
                           bw_log := bw_log w ++ [((org, rv_period_yyyymm r),
                                                   (Z.max 0 actual_input, Z.max 0 actual_output))] |} in
              Some (if flush : bool then spawn w1 TFlush else w1)
          end
      | _ => None
      end
  | EFlush i ts_pool =>
      match bw_tasks w !! i with
      | Some TFlush => let '(task, t') := begin_flush ts_pool true false t in
                       Some (with_task (with_tracker w t') i task)
      | _ => None
      end
  | EWrite i ok =>
      match bw_tasks w !! i with
      | Some (TWriting pending _ sweep) =>
          let after := if sweep : bool then TEvicting else TDone in
          Some (if ok : bool
                then {| bw_tracker := t; bw_usage := write_usage pending (bw_usage w);
                        bw_tasks := <[i := after]> (bw_tasks w); bw_log := bw_log w |}
                else with_task (with_tracker w (restore_deltas pending t)) i after)
      | _ => None
      end
  | EReconcile ts_pool =>
      let '(task, t') := begin_flush ts_pool false true t in Some (spawn (with_tracker w t') task)
  | EEvict i now ts_pool =>
      match bw_tasks w !! i with
      | Some TEvicting =>
          let t' := _evict_settled_past_periods (current_period_yyyymm now) t in
          Some (with_task (with_tracker w t') i
                  (if ts_pool : bool then TSweep (map fst (map_to_list (_counters t'))) else TDone))
      | _ => None
      end
  | ESweep i ok =>
      match bw_tasks w !! i with
      | Some (TSweep []) => Some (with_task w i TDone)
      | Some (TSweep (k :: keys)) =>
          Some (with_task w i (if bool_decide (k ∈ _hydrated t) && ok then TSwept k (bw_usage w !! k) keys
                               else TSweep keys))
      | _ => None
      end
  | ERebase i =>
      match bw_tasks w !! i with
      | Some (TSwept k row keys) => Some (with_task (with_tracker w (rebase k row t)) i (TSweep keys))
      | _ => None
      end
  end.

Fixpoint budget_run (es : list budget_event) (w : budget_world) : option budget_world :=
  match es with
  | [] => Some w
  | e :: es' => budget_step e w ≫= budget_run es'
  end.

(** The tracker of a process that just started, over the rows of earlier ones. *)
Definition cold_start (now : Z) (usage : usage_table) : budget_world :=
  {| bw_tracker := {| _counters := ∅; _hydrated := ∅; _hydration_lock := false; _writes_since_flush := 0;
                      _last_flush_at := now |};
     bw_usage := usage; bw_tasks := []; bw_log := [] |}.
