(* ===== verification/BudgetFacts.v ===== *)
(** * Properties of the token budget

    Over all interleavings of turns, flushes and reconciliations of one process:
    reservations are exactly the turns in flight; usage is neither lost nor counted
    twice, and no turn is admitted above the ceiling, as long as no reconciliation
    overlaps another flush; and what happens when one does. *)

From S2P Require Import Prelude Models Datetime PyText Budget.
From Stdlib Require Import ZArith Lia.
From stdpp Require Import base list strings gmap.

#[local] Open Scope Z_scope.

(** ** Sums over tasks *)

Definition task_sum (f : budget_task -> Z) (l : list budget_task) : Z := foldr (fun t a => f t + a) 0 l.

Lemma task_sum_insert f l i x y :
  l !! i = Some x -> task_sum f (<[i := y]> l) = task_sum f l - f x + f y.
Proof.
  revert i. induction l as [|z l IH]; intros [|i] H; simpl in *; try done.
  - injection H as ->. lia.
  - rewrite IH by done. lia.
Qed.

Lemma task_sum_snoc f l x : task_sum f (l ++ [x]) = task_sum f l + f x.
Proof. unfold task_sum. induction l as [|t l IH]; simpl in *; [lia|]. rewrite IH. lia. Qed.

Lemma task_sum_nonneg f l : Forall (fun t => 0 <= f t) l -> 0 <= task_sum f l.
Proof. unfold task_sum. induction 1; simpl; lia. Qed.

Lemma task_sum_elem f l i x : Forall (fun t => 0 <= f t) l -> l !! i = Some x -> f x <= task_sum f l.
Proof.
  intros H. revert i. induction H as [|t l Ht Hl IH]; intros [|i] E; simpl in *; try done.
  - injection E as ->. pose proof (task_sum_nonneg f l Hl). unfold task_sum in *. lia.
  - specialize (IH i E). lia.
Qed.

Lemma task_sum_const f l : (forall t, t ∈ l -> f t = 0) -> task_sum f l = 0.
Proof.
  induction l as [|t l IH]; intros H; [done|]. simpl. rewrite (H t) by left. apply IH.
  intros u Hu. apply H. by right.
Qed.

(** ** Counters after each operation *)

Lemma counter_at_on k f t k' :
  counter_at (on_counter k f t) k' = if bool_decide (k' = k) then f (counter_at t k) else counter_at t k'.
Proof.
  unfold counter_at, on_counter. cbn. case_bool_decide as E; [subst; by rewrite lookup_insert_eq|].
  by rewrite lookup_insert_ne.
Qed.

Lemma counter_at_hydrate_begin k t k' : counter_at (hydrate_begin k t) k' = counter_at t k'.
Proof. unfold hydrate_begin. rewrite counter_at_on. case_bool_decide; by subst. Qed.

Lemma counter_at_take t k : counter_at (snd (take_deltas t)) k = with_unflushed (counter_at t k) 0 0.
Proof.
  unfold counter_at, take_deltas. cbn. rewrite lookup_fmap. destruct (_counters t !! k) as [c|]; cbn; [|done].
  unfold delta. destruct c as [a b r i o]. cbn.
  destruct (Z.eqb_spec i 0) as [->|], (Z.eqb_spec o 0) as [->|]; done.
Qed.

Lemma taken_at t k :
  default (0, 0) (fst (take_deltas t) !! k) = (unflushed_input (counter_at t k), unflushed_output (counter_at t k)).
Proof.
  unfold counter_at, take_deltas. cbn [fst]. rewrite lookup_omap. destruct (_counters t !! k) as [c|]; cbn; [|done].
  unfold delta. destruct (Z.eqb_spec (unflushed_input c) 0) as [E1|], (Z.eqb_spec (unflushed_output c) 0) as [E2|];
    cbn; congruence.
Qed.

Lemma taken_dom t k p : fst (take_deltas t) !! k = Some p -> is_Some (_counters t !! k).
Proof. unfold take_deltas. cbn [fst]. rewrite lookup_omap. by destruct (_counters t !! k). Qed.

Lemma counter_at_restore p t k :
  counter_at (restore_deltas p t) k =
  match _counters t !! k with
  | Some c => with_unflushed c (unflushed_input c + fst (default (0, 0) (p !! k)))
                (unflushed_output c + snd (default (0, 0) (p !! k)))
  | None => new_counter
  end.
Proof.
  unfold counter_at, restore_deltas. cbn. rewrite map_lookup_imap. destruct (_counters t !! k) as [c|]; cbn; [|done].
  destruct (p !! k) as [[i o]|]; [done|]. destruct c. cbn. by rewrite !Z.add_0_r.
Qed.

Lemma settled_zero c : settled c = true -> reserved c = 0 /\ unflushed_input c = 0 /\ unflushed_output c = 0.
Proof. unfold settled. rewrite !andb_true_iff, !Z.eqb_eq. tauto. Qed.

(** An eviction keeps a counter or forgets a settled one that is re-read later. *)
Lemma evict_cases now t k :
  let t' := _evict_settled_past_periods now t in
  (counter_at t' k = counter_at t k /\ (k ∈ _hydrated t' <-> k ∈ _hydrated t)
     /\ _counters t' !! k = _counters t !! k) \/
  (counter_at t' k = new_counter /\ k ∉ _hydrated t' /\ settled (counter_at t k) = true).
Proof.
  intros t'. unfold t', counter_at, _evict_settled_past_periods. cbn. rewrite map_lookup_imap.
  setoid_rewrite elem_of_filter. destruct (_counters t !! k) as [c|]; cbn.
  - destruct (_ && settled c) eqn:E; cbn; [right|left; tauto].
    apply andb_prop in E as [_ E]. by split_and!; [| intros [? ?] |].
  - left. tauto.
Qed.

Lemma rebase_cases k row t k' :
  counter_at (rebase k row t) k' =
  if bool_decide (k' = k) && bool_decide (is_Some (_counters t !! k))
  then with_committed (counter_at t k) (fst (default (0, 0) row) + unflushed_input (counter_at t k))
         (snd (default (0, 0) row) + unflushed_output (counter_at t k))
  else counter_at t k'.
Proof.
  unfold rebase, counter_at. destruct (_counters t !! k) as [c|] eqn:E; cbn.
  - rewrite andb_true_r. destruct (default (0, 0) row) as [i o]. cbn.
    case_bool_decide as Ek; [subst; by rewrite lookup_insert_eq | by rewrite lookup_insert_ne].
  - by rewrite andb_false_r.
Qed.

(** ** Reservations *)

Definition turn_key (r : Reservation) : option budget_key :=
  option_map (fun o => (o, rv_period_yyyymm r)) (rv_organization_id r).

(** What a task holds against the ceiling of a key. *)
Definition hold (k : budget_key) (t : budget_task) : Z :=
  match t with
  | TPinned k' est => if bool_decide (k' = k) then est else 0
  | TTurn r => if bool_decide (turn_key r = Some k) then rv_est_tokens r else 0
  | _ => 0
  end.

Definition in_flight_tokens (k : budget_key) (w : budget_world) : Z := task_sum (hold k) (bw_tasks w).

Definition est_ok (t : budget_task) : Prop :=
  match t with
  | TWaiting _ est | TReading _ est | TRead _ est _ | TPinned _ est => 0 < est
  | TTurn r => is_Some (rv_organization_id r) -> 0 < rv_est_tokens r
  | _ => True
  end.

Definition reservations_ok (w : budget_world) : Prop :=
  Forall est_ok (bw_tasks w) /\
  forall k, reserved (counter_at (bw_tracker w) k) = in_flight_tokens k w.

Lemma estimate_pos prompt : 0 < estimate_turn_tokens prompt.
Proof. unfold estimate_turn_tokens, PER_TURN_OVERHEAD_TOKENS. lia. Qed.

Lemma hold_nonneg k t : est_ok t -> 0 <= hold k t.
Proof.
  destruct t; cbn; try lia; intros H; case_bool_decide as E; try lia.
  unfold turn_key in E. destruct (rv_organization_id r); [|done]. cbn in H. specialize (H ltac:(done)). lia.
Qed.

Lemma holds_nonneg k l : Forall est_ok l -> Forall (fun t => 0 <= hold k t) l.
Proof. intros H. eapply Forall_impl; [exact H|]. intros t. apply hold_nonneg. Qed.

(** The parts of a step that change reservations. *)
Lemma enter_reserved k est pool t task t' :
  enter_hydration k est pool t = (task, t') ->
  (forall k', reserved (counter_at t' k') = reserved (counter_at t k') + hold k' task) /\
  (0 < est -> est_ok task).
Proof.
  unfold enter_hydration. case_bool_decide.
  { intros E; injection E as <- <-. split; [|done]. intros k'. unfold pin_estimate. rewrite counter_at_on.
    cbn [hold]. repeat case_bool_decide; subst; try done; cbn; lia. }
  destruct (_hydration_lock t); [intros E; injection E as <- <-; split; [intros; cbn; lia | done]|].
  destruct pool; intros E; injection E as <- <-; (split; [|done]); intros k'.
  - change (counter_at (with_lock ?t true) k') with (counter_at t k'). rewrite counter_at_hydrate_begin. cbn. lia.
  - unfold pin_estimate. rewrite counter_at_on. cbn [hold].
    change (counter_at (hydrate_end k None ?t) ?x) with (counter_at t x). rewrite !counter_at_hydrate_begin.
    repeat case_bool_decide; subst; try done; cbn; lia.
Qed.

Lemma flush_reserved pool bg sweep t task t' :
  begin_flush pool bg sweep t = (task, t') ->
  (forall k, reserved (counter_at t' k) = reserved (counter_at t k)) /\ (forall k, hold k task = 0) /\ est_ok task.
Proof.
  unfold begin_flush. destruct pool; cbn [negb].
  2: { intros E; injection E as <- <-. by destruct sweep. }
  pose proof (counter_at_take t) as Hc. destruct (take_deltas t) as [p t1]. cbn in Hc.
  case_bool_decide; intros E; injection E as <- <-; [by destruct sweep|]. split; [|done].
  intros k. by rewrite Hc.
Qed.

Lemma restore_reserved p t k : reserved (counter_at (restore_deltas p t) k) = reserved (counter_at t k).
Proof. rewrite counter_at_restore. unfold counter_at. by destruct (_counters t !! k). Qed.

Lemma hydrate_end_reserved k a t k' : reserved (counter_at (hydrate_end k a t) k') = reserved (counter_at t k').
Proof.
  unfold hydrate_end. cbn zeta.
  match goal with |- context [with_lock ?x false] => change (counter_at (with_lock x false) k') with (counter_at x k') end.
  destruct a as [[[i o]|]|]; try done.
  change (counter_at (with_hydrated ?x _) k') with (counter_at x k'). rewrite counter_at_on. case_bool_decide; by subst.
Qed.

Lemma evict_reserved now t k : reserved (counter_at (_evict_settled_past_periods now t) k) = reserved (counter_at t k).
Proof.
  destruct (evict_cases now t k) as [(-> & _ & _)|(-> & _ & H)]; [done|]. by apply settled_zero in H as [-> _].
Qed.

Lemma rebase_reserved k row t k' : reserved (counter_at (rebase k row t) k') = reserved (counter_at t k').
Proof. rewrite rebase_cases. case_bool_decide; [subst; by case_bool_decide | done]. Qed.

(** What a task's step does to the sum of the holds. *)
Lemma in_flight_task w i x y k :
  bw_tasks w !! i = Some x -> in_flight_tokens k (with_task w i y) = in_flight_tokens k w - hold k x + hold k y.
Proof. apply task_sum_insert. Qed.

Lemma in_flight_spawn w y k : in_flight_tokens k (spawn w y) = in_flight_tokens k w + hold k y.
Proof. apply task_sum_snoc. Qed.

Lemma tasks_ok_task w i y : Forall est_ok (bw_tasks w) -> est_ok y -> Forall est_ok (bw_tasks (with_task w i y)).
Proof. intros H Hy. cbn. by apply Forall_insert. Qed.

Lemma tasks_ok_spawn w y : Forall est_ok (bw_tasks w) -> est_ok y -> Forall est_ok (bw_tasks (spawn w y)).
Proof. intros H Hy. cbn. apply Forall_app. by split; [|constructor]. Qed.

(** Replacing a task and the tracker keeps reservations exact when the counters
    change by what the task's hold changes. *)
Lemma reservations_task w i x y t' :
  reservations_ok w -> bw_tasks w !! i = Some x -> est_ok y ->
  (forall k, reserved (counter_at t' k) = reserved (counter_at (bw_tracker w) k) - hold k x + hold k y) ->
  reservations_ok (with_task (with_tracker w t') i y).
Proof.
  intros [He Hr] Hx Hy H. split; [by apply (tasks_ok_task (with_tracker w t'))|].
  intros k. rewrite (in_flight_task (with_tracker w t') i x y k Hx).
  change (reserved (counter_at t' k) = in_flight_tokens k w - hold k x + hold k y). by rewrite H, Hr.
Qed.

Lemma reservations_spawn w y t' :
  reservations_ok w -> est_ok y ->
  (forall k, reserved (counter_at t' k) = reserved (counter_at (bw_tracker w) k) + hold k y) ->
  reservations_ok (spawn (with_tracker w t') y).
Proof.
  intros [He Hr] Hy H. split; [by apply (tasks_ok_spawn (with_tracker w t'))|].
  intros k. rewrite in_flight_spawn.
  change (reserved (counter_at t' k) = in_flight_tokens k w + hold k y). by rewrite H, Hr.
Qed.

(** What the holder of an estimate has is covered by the counter. *)
Lemma hold_covered w i x k :
  reservations_ok w -> bw_tasks w !! i = Some x -> hold k x <= reserved (counter_at (bw_tracker w) k).
Proof. intros [He Hr] Hx. rewrite Hr. eapply task_sum_elem; [by apply holds_nonneg | exact Hx]. Qed.

Lemma record_reserved r ai ao w i k :
  reservations_ok w -> bw_tasks w !! i = Some (TTurn r) ->
  reserved (counter_at (record_actual r ai ao (bw_tracker w)) k)
  = reserved (counter_at (bw_tracker w) k) - hold k (TTurn r).
Proof.
  intros Hok Hi. pose proof (hold_covered w i _ k Hok Hi) as Hle. revert Hle. cbn [hold].
  unfold record_actual, turn_key. destruct (rv_organization_id r) as [org|]; cbn [option_map].
  2: { rewrite bool_decide_eq_false_2 by done. lia. }
  intros Hle. match goal with |- context [on_counter ?k0 ?f ?t] =>
    change (reserved (counter_at (on_counter k0 f t) k) = reserved (counter_at t k)
            - (if bool_decide (Some (org, rv_period_yyyymm r) = Some k) then rv_est_tokens r else 0)) end.
  rewrite counter_at_on. destruct (decide (k = (org, rv_period_yyyymm r))) as [->|Hne].
  - rewrite !bool_decide_eq_true_2 in * by done. cbn [reserved]. lia.
  - rewrite !bool_decide_eq_false_2 in * by congruence. lia.
Qed.

Lemma schedule_counters now b t k : counter_at (snd (_maybe_schedule_flush now b t)) k = counter_at t k.
Proof. unfold _maybe_schedule_flush. by destruct (_ && negb b). Qed.

Ltac step_task H :=
  match type of H with
  | context [bw_tasks ?w !! ?i] => let E := fresh "Ei" in destruct (bw_tasks w !! i) as [[]|] eqn:E; try discriminate H
  end.

Lemma reservations_decide w w' i static_pool answer :
  reservations_ok w -> budget_step (EDecide i static_pool answer) w = Some w' -> reservations_ok w'.
Proof.
  intros Hok Hs. cbn [budget_step] in Hs.
  step_task Hs. pose proof (proj1 (Forall_lookup _ _) (proj1 Hok) i _ Ei) as He. cbn in He.
  unfold decide_reservation in Hs. destruct (_ <? _); injection Hs as <-.
  - eapply reservations_task; [done | exact Ei | done |]. intros k'. unfold unpin. rewrite counter_at_on. cbn [hold].
    repeat case_bool_decide; subst; try done; cbn; lia.
  - eapply reservations_task; [done | exact Ei | intros _; exact He |]. intros k'. unfold hold, turn_key.
    cbn [option_map rv_organization_id rv_period_yyyymm rv_est_tokens]. rewrite <- surjective_pairing.
    destruct (decide (k = k')) as [->|Hne]; [rewrite !bool_decide_eq_true_2 by done; lia|].
    rewrite !bool_decide_eq_false_2 by congruence. lia.
Qed.

Lemma reservations_cancel w w' i :
  reservations_ok w -> budget_step (ECancel i) w = Some w' -> reservations_ok w'.
Proof.
  intros Hok Hs. cbn [budget_step] in Hs.
  step_task Hs; injection Hs as <-;
    [eapply (reservations_task w i _ _ (bw_tracker w)) | eapply (reservations_task w) ..]; try exact Ei; try done;
    intros k'; cbn [hold]; try lia.
  - change (counter_at (with_lock ?t false) k') with (counter_at t k'). lia.
  - change (counter_at (with_lock ?t false) k') with (counter_at t k'). lia.
  - pose proof (hold_covered w i _ k' Hok Ei) as Hle. revert Hle. unfold unpin_aborted. rewrite counter_at_on.
    cbn [hold]. repeat case_bool_decide; subst; try done; cbn; lia.
Qed.

Lemma reservations_record w w' i now actual_input actual_output :
  reservations_ok w -> budget_step (ERecord i now actual_input actual_output) w = Some w' -> reservations_ok w'.
Proof.
  intros Hok Hs. cbn [budget_step] in Hs.
  step_task Hs. destruct (rv_organization_id r) as [org|] eqn:Eo.
  - pose proof (schedule_counters now (flush_running w) (record_actual r actual_input actual_output (bw_tracker w))) as Hc.
    destruct (_maybe_schedule_flush _ _ _) as [fl t2]. cbn [snd] in Hc.
    assert (reservations_ok (with_task (with_tracker w t2) i TDone)) as Hw.
    { eapply reservations_task; [done | exact Ei | done |]. intros k'. rewrite Hc, (record_reserved r _ _ w i) by done.
      cbn [hold]. lia. }
    injection Hs as <-. destruct fl; [|exact Hw].
    apply (reservations_spawn (with_task (with_tracker w t2) i TDone) TFlush t2 Hw I). intros k'. symmetry. apply Z.add_0_r.
  - injection Hs as <-. eapply (reservations_task w i _ _ (bw_tracker w)); [done | exact Ei | done |].
    intros k'. unfold hold, turn_key. rewrite Eo. cbn [option_map]. rewrite bool_decide_eq_false_2 by done. lia.
Qed.

Lemma reservations_write w w' i ok :
  reservations_ok w -> budget_step (EWrite i ok) w = Some w' -> reservations_ok w'.
Proof.
  intros Hok Hs. cbn [budget_step] in Hs.
  step_task Hs. injection Hs as <-. destruct ok.
  - assert (est_ok (if sweep then TEvicting else TDone)) as He by by destruct sweep.
    assert (forall k, hold k (if sweep then TEvicting else TDone) = 0) as H0 by by destruct sweep.
    destruct Hok as [Ho1 Ho2]. split; [cbn; by apply Forall_insert|]. intros k'. unfold in_flight_tokens in *.
    cbn [bw_tasks bw_tracker]. rewrite (task_sum_insert _ _ _ _ _ Ei), H0, Ho2. cbn [hold]. lia.
  - eapply reservations_task; [done | exact Ei | by destruct sweep |]. intros k'. rewrite restore_reserved.
    destruct sweep; cbn [hold]; lia.
Qed.

Lemma step_reservations e w w' : reservations_ok w -> budget_step e w = Some w' -> reservations_ok w'.
Proof.
  intros Hok Hst. pose proof Hst as Hs. destruct e; cbn [budget_step] in Hs.
  - destruct org as [o|].
    + destruct (enter_hydration _ _ _ _) as [task t'] eqn:Ee. apply enter_reserved in Ee as [Hr He].
      injection Hs as <-. apply reservations_spawn; [done | apply He, estimate_pos | exact Hr].
    + injection Hs as <-. apply (reservations_spawn w _ (bw_tracker w)); [done | by intros [] |].
      intros k. cbn [hold]. rewrite bool_decide_eq_false_2 by done. lia.
  - step_task Hs. destruct (_hydration_lock _); [done|].
    destruct (enter_hydration _ _ _ _) as [task t'] eqn:Ee. apply enter_reserved in Ee as [Hr He].
    injection Hs as <-. eapply reservations_task; [done | exact Ei | |].
    + apply He. pose proof (proj1 (Forall_lookup _ _) (proj1 Hok) i _ Ei). done.
    + intros k'. rewrite Hr. cbn [hold]. lia.
  - step_task Hs. injection Hs as <-. pose proof (proj1 (Forall_lookup _ _) (proj1 Hok) i _ Ei).
    eapply (reservations_task w i _ _ (bw_tracker w)); [done | exact Ei | done |]. intros k'. cbn. lia.
  - step_task Hs. injection Hs as <-. pose proof (proj1 (Forall_lookup _ _) (proj1 Hok) i _ Ei).
    eapply reservations_task; [done | exact Ei | done |]. intros k'. unfold pin_estimate. rewrite counter_at_on.
    cbn [hold]. repeat case_bool_decide; subst; try done; cbn [reserved with_reserved];
      rewrite ?hydrate_end_reserved; lia.
  - by eapply reservations_decide.
  - by eapply reservations_cancel.
  - by eapply reservations_record.
  - step_task Hs. destruct (begin_flush _ _ _ _) as [task t'] eqn:Ef. apply flush_reserved in Ef as (H1 & H2 & H3).
    injection Hs as <-. eapply reservations_task; [done | exact Ei | done |]. intros k'. rewrite H1, H2. cbn [hold]. lia.
  - by eapply reservations_write.
  - destruct (begin_flush _ _ _ _) as [task t'] eqn:Ef. apply flush_reserved in Ef as (H1 & H2 & H3).
    injection Hs as <-. apply reservations_spawn; [done | done |]. intros k'. rewrite H1, H2. lia.
  - step_task Hs. injection Hs as <-. eapply reservations_task; [done | exact Ei | by destruct ts_pool |].
    intros k'. rewrite evict_reserved. destruct ts_pool; cbn [hold]; lia.
  - step_task Hs. destruct keys as [|k keys]; injection Hs as <-.
    + eapply (reservations_task w i _ _ (bw_tracker w)); [done | exact Ei | done |]. intros k'. cbn [hold]. lia.
    + eapply (reservations_task w i _ _ (bw_tracker w)); [done | exact Ei | by destruct (_ && ok) |].
      intros k'. destruct (_ && ok); cbn [hold]; lia.
  - step_task Hs. injection Hs as <-. eapply reservations_task; [done | exact Ei | done |].
    intros k'. rewrite rebase_reserved. cbn [hold]. lia.
Qed.

(** ** Usage *)

(** Input tokens, or output tokens. *)
Definition side (b : bool) (p : Z * Z) : Z := if b then fst p else snd p.
Definition row (b : bool) (k : budget_key) (u : usage_table) : Z := side b (default (0, 0) (u !! k)).
Definition unfl (b : bool) (c : _PeriodCounter) : Z := side b (unflushed_input c, unflushed_output c).
Definition comm (b : bool) (c : _PeriodCounter) : Z := side b (committed_input c, committed_output c).
Definition pend (b : bool) (k : budget_key) (t : budget_task) : Z :=
  match t with TWriting p _ _ => row b k p | _ => 0 end.
Definition spent (b : bool) (k : budget_key) (log : list (budget_key * (Z * Z))) : Z :=
  foldr (fun e a => (if bool_decide (fst e = k) then side b (snd e) else 0) + a) 0 log.

Lemma spent_snoc b k log e : spent b k (log ++ [e]) = spent b k log + (if bool_decide (fst e = k) then side b (snd e) else 0).
Proof. unfold spent. induction log as [|x log IH]; simpl; [lia|]. rewrite IH. lia. Qed.

Lemma row_write b k p u : row b k (write_usage p u) = row b k u + row b k p.
Proof.
  unfold row, write_usage. rewrite lookup_merge. destruct (u !! k) as [[]|], (p !! k) as [[]|], b; cbn; lia.
Qed.

(** What was used: the rows at the start and what the turns reported since. *)
Definition used (b : bool) (k : budget_key) (u0 : usage_table) (w : budget_world) : Z :=
  row b k u0 + spent b k (bw_log w).

(** Rows, deltas being written and deltas not yet taken add up to what was used. *)
Definition accounts_ok (u0 : usage_table) (w : budget_world) : Prop :=
  (forall b k, row b k (bw_usage w) + task_sum (pend b k) (bw_tasks w) + unfl b (counter_at (bw_tracker w) k)
               = used b k u0 w) /\
  (forall i p bg sw k, bw_tasks w !! i = Some (TWriting p bg sw) -> is_Some (p !! k) ->
     is_Some (_counters (bw_tracker w) !! k)).

(** An operation that leaves the deltas alone and forgets no counter. *)
Definition same_deltas (t t' : budget_tracker) : Prop :=
  forall k, (forall b, unfl b (counter_at t' k) = unfl b (counter_at t k)) /\
    (is_Some (_counters t !! k) -> is_Some (_counters t' !! k)).

#[local] Instance same_deltas_preorder : PreOrder same_deltas.
Proof.
  split; [done|]. intros t1 t2 t3 H12 H23 k. destruct (H12 k) as [A B], (H23 k) as [C D].
  split; [intros b; by rewrite C | auto].
Qed.

Lemma same_deltas_on k f t : (forall b c, unfl b (f c) = unfl b c) -> same_deltas t (on_counter k f t).
Proof.
  intros Hf k'. split.
  - intros b. rewrite counter_at_on. case_bool_decide; [subst; apply Hf | done].
  - cbn. rewrite lookup_insert. case_decide; [by eexists | done].
Qed.

Lemma same_deltas_pin k est t : same_deltas t (pin_estimate k est t).
Proof. by apply same_deltas_on. Qed.
Lemma same_deltas_unpin k est t : same_deltas t (unpin k est t).
Proof. by apply same_deltas_on. Qed.
Lemma same_deltas_abort k est t : same_deltas t (unpin_aborted k est t).
Proof. by apply same_deltas_on. Qed.
Lemma same_deltas_hydrate_end k a t : same_deltas t (hydrate_end k a t).
Proof.
  unfold hydrate_end. destruct a as [[[i o]|]|]; try done. cbn zeta.
  transitivity (on_counter k (fun c => with_committed c i o) t); [by apply same_deltas_on | done].
Qed.
Lemma same_deltas_rebase k r t : same_deltas t (rebase k r t).
Proof.
  unfold rebase. destruct (_counters t !! k) as [c|] eqn:E; [|done]. destruct (default (0, 0) r) as [i o].
  intros k'. unfold counter_at. cbn. rewrite lookup_insert. case_decide; [subst|done].
  rewrite E. cbn. split; [done | by eexists].
Qed.

Lemma same_deltas_enter k est pool t task t' :
  enter_hydration k est pool t = (task, t') -> same_deltas t t' /\ (forall b k', pend b k' task = 0) /\
  (forall p bg sw, task <> TWriting p bg sw).
Proof.
  unfold enter_hydration, hydrate_begin. case_bool_decide; [|destruct (_hydration_lock t); [|destruct pool]];
    intros E; injection E as <- <-; (split; [|done]).
  - apply same_deltas_pin.
  - done.
  - transitivity (on_counter k id t); [by apply same_deltas_on | done].
  - etrans; [|apply same_deltas_pin]. etrans; [|apply same_deltas_hydrate_end]. by apply same_deltas_on.
Qed.

(** Neither task writes. *)
Definition quiet_task (t : budget_task) : Prop := forall p bg sw, t <> TWriting p bg sw.

Lemma quiet_pend t b k : quiet_task t -> pend b k t = 0.
Proof. intros H. destruct t; try done. by destruct (H pending background sweep). Qed.

Lemma accounts_task u0 w i x y t' :
  accounts_ok u0 w -> bw_tasks w !! i = Some x -> quiet_task x -> quiet_task y -> same_deltas (bw_tracker w) t' ->
  accounts_ok u0 (with_task (with_tracker w t') i y).
Proof.
  intros [Hs Hp] Hx Qx Qy Hd. split.
  - intros b k. cbn [with_task with_tracker bw_usage bw_tasks bw_tracker].
    rewrite (task_sum_insert _ _ _ _ _ Hx), !quiet_pend by done. destruct (Hd k) as [-> _].
    specialize (Hs b k). unfold used in *. cbn [bw_log with_task with_tracker spawn]. lia.
  - intros j p bg sw k Hj Hk. cbn in Hj. apply (Hd k). apply list_lookup_insert_Some in Hj as [(_ & E & _)|(_ & Hj)];
      [by destruct (Qy p bg sw) | by eapply Hp].
Qed.

Lemma accounts_spawn u0 w y t' :
  accounts_ok u0 w -> quiet_task y -> same_deltas (bw_tracker w) t' -> accounts_ok u0 (spawn (with_tracker w t') y).
Proof.
  intros [Hs Hp] Qy Hd. split.
  - intros b k. cbn [spawn with_tracker bw_usage bw_tasks bw_tracker].
    rewrite task_sum_snoc, quiet_pend by done. destruct (Hd k) as [-> _].
    specialize (Hs b k). unfold used in *. cbn [bw_log with_task with_tracker spawn]. lia.
  - intros j p bg sw k Hj Hk. cbn in Hj. apply (Hd k). apply lookup_app_Some in Hj as [Hj|[_ Hj]]; [by eapply Hp|].
    apply list_lookup_singleton_Some in Hj as [_ E]. by destruct (Qy p bg sw).
Qed.

(** ** Histories in which no reconciliation overlaps another flush *)

Definition sweeping (t : budget_task) : bool :=
  match t with TEvicting | TSweep _ | TSwept _ _ _ => true | _ => false end.
Definition writing (t : budget_task) : bool := match t with TWriting _ _ _ => true | _ => false end.
Definition no_overlap (w : budget_world) : Prop :=
  existsb sweeping (bw_tasks w) = false \/ existsb writing (bw_tasks w) = false.

Fixpoint serial (es : list budget_event) (w : budget_world) : Prop :=
  no_overlap w /\
  match es with
  | [] => True
  | e :: es' => match budget_step e w with Some w' => serial es' w' | None => True end
  end.

Lemma serial_head es w : serial es w -> no_overlap w.
Proof. destruct es; intros H; apply H. Qed.

(** While a task sweeps, nothing is being written. *)
Lemma sweep_excludes_write w i x j p bg sw :
  no_overlap w -> bw_tasks w !! i = Some x -> sweeping x = true -> bw_tasks w !! j <> Some (TWriting p bg sw).
Proof.
  intros Hn Hi Hx Hj.
  assert (forall (f : budget_task -> bool) n y, bw_tasks w !! n = Some y -> f y = true -> existsb f (bw_tasks w) = true) as He.
  { intros f n y Hy Hf. apply existsb_exists. exists y. split; [|done]. apply list_elem_of_In. by eapply list_elem_of_lookup_2. }
  pose proof (He sweeping i x Hi Hx). pose proof (He writing j _ Hj eq_refl).
  destruct Hn; congruence.
Qed.

Lemma sweep_no_pend w i x b k :
  no_overlap w -> bw_tasks w !! i = Some x -> sweeping x = true -> task_sum (pend b k) (bw_tasks w) = 0.
Proof.
  intros Hn Hi Hx. apply task_sum_const. intros t Ht. apply list_elem_of_lookup in Ht as [j Hj].
  apply quiet_pend. intros p bg sw ->. exact (sweep_excludes_write w i x j p bg sw Hn Hi Hx Hj).
Qed.

Lemma take_accounts b k t :
  row b k (fst (take_deltas t)) + unfl b (counter_at (snd (take_deltas t)) k) = unfl b (counter_at t k).
Proof.
  rewrite counter_at_take. unfold row. rewrite taken_at. unfold unfl. destruct b; cbn; lia.
Qed.

Lemma take_present t k : is_Some (_counters (snd (take_deltas t)) !! k) <-> is_Some (_counters t !! k).
Proof. unfold take_deltas. cbn [snd with_counters _counters]. rewrite lookup_fmap. by rewrite fmap_is_Some. Qed.

(** A flush that begins, in an existing task or a new one. *)
Lemma begin_flush_cases pool bg sweep t task t' :
  begin_flush pool bg sweep t = (task, t') ->
  (t' = t /\ task = if sweep then TEvicting else TDone) \/
  (task = TWriting (fst (take_deltas t)) bg sweep /\ t' = snd (take_deltas t)).
Proof.
  unfold begin_flush. destruct pool; cbn [negb]; [|intros E; injection E as <- <-; by left].
  destruct (take_deltas t) as [p t1]. case_bool_decide; intros E; injection E as <- <-; [by left | by right].
Qed.

Lemma accounts_begin_flush u0 w w' pool bg sweep task t' :
  accounts_ok u0 w -> begin_flush pool bg sweep (bw_tracker w) = (task, t') ->
  bw_usage w' = bw_usage w -> bw_log w' = bw_log w -> bw_tracker w' = t' ->
  (forall b k, task_sum (pend b k) (bw_tasks w') = task_sum (pend b k) (bw_tasks w) + pend b k task) ->
  (forall j x, bw_tasks w' !! j = Some x -> x = task \/ bw_tasks w !! j = Some x) ->
  accounts_ok u0 w'.
Proof.
  intros [Hs Hp] Hf Eu El Et Hsum Htask. destruct (begin_flush_cases _ _ _ _ _ _ Hf) as [[E1 E2]|[E1 E2]].
  - split.
    + intros b k. rewrite Eu, Et, E1, Hsum. unfold used. rewrite El. specialize (Hs b k). unfold used in Hs.
      rewrite quiet_pend by (rewrite E2; destruct sweep; done). lia.
    + intros j p bg' sw k Hj Hk. rewrite Et, E1. destruct (Htask _ _ Hj) as [E|E]; [|by eapply Hp].
      rewrite E2 in E. by destruct sweep.
  - split.
    + intros b k. rewrite Eu, Et, E2, Hsum, E1. unfold used. rewrite El. specialize (Hs b k). unfold used in Hs.
      cbn [pend]. pose proof (take_accounts b k (bw_tracker w)). lia.
    + intros j p bg' sw k Hj Hk. rewrite Et, E2. apply take_present. destruct (Htask _ _ Hj) as [E|E]; [|by eapply Hp].
      rewrite E1 in E. injection E as -> _ _. destruct Hk as [q Hk]. by eapply taken_dom.
Qed.

Lemma lookup_spawned (l : list budget_task) y j x : (l ++ [y]) !! j = Some x -> x = y \/ l !! j = Some x.
Proof.
  intros H. apply lookup_app_Some in H as [H|[_ H]]; [by right|]. apply list_lookup_singleton_Some in H as [_ ->]. by left.
Qed.

Lemma lookup_replaced (l : list budget_task) i y j x : <[i := y]> l !! j = Some x -> x = y \/ l !! j = Some x.
Proof. intros H. apply list_lookup_insert_Some in H as [(_ & -> & _)|(_ & H)]; [by left | by right]. Qed.

Lemma accounts_write u0 w i p bg sw ok w' :
  accounts_ok u0 w -> bw_tasks w !! i = Some (TWriting p bg sw) -> budget_step (EWrite i ok) w = Some w' -> accounts_ok u0 w'.
Proof.
  intros [Hs Hp] Hi Hst. cbn [budget_step] in Hst. rewrite Hi in Hst. injection Hst as <-.
  assert (quiet_task (if sw then TEvicting else TDone)) as Hq by by destruct sw.
  assert (forall b k, task_sum (pend b k) (<[i := if sw then TEvicting else TDone]> (bw_tasks w))
                      = task_sum (pend b k) (bw_tasks w) - row b k p) as Hsum.
  { intros b k. rewrite (task_sum_insert _ _ _ _ _ Hi), (quiet_pend _ b k Hq). cbn [pend]. lia. }
  destruct ok; (split; [intros b k | intros j q bg' sw' k Hj Hk; cbn in Hj;
    destruct (lookup_replaced _ _ _ _ _ Hj) as [E|E]; [by destruct (Hq q bg' sw')|]]).
  - cbn [bw_usage bw_tasks bw_tracker]. rewrite row_write, Hsum. specialize (Hs b k). unfold used in *. cbn [bw_log]. lia.
  - by eapply Hp.
  - cbn [with_task with_tracker bw_usage bw_tasks bw_tracker]. rewrite Hsum, counter_at_restore.
    specialize (Hs b k). unfold used in *. cbn [bw_log with_task with_tracker]. unfold counter_at in Hs.
    destruct (_counters (bw_tracker w) !! k) as [c|] eqn:Ec; cbn [default] in Hs.
    + rewrite <- Hs. unfold unfl, row. destruct b; cbn; lia.
    + rewrite <- Hs. unfold row at 2. destruct (p !! k) as [q|] eqn:Eq; [|destruct b; cbn; lia].
      destruct (Hp i p bg sw k Hi) as [c Hc]; [by eexists | congruence].
  - cbn [with_task with_tracker bw_tracker restore_deltas with_counters _counters]. rewrite map_lookup_imap.
    destruct (Hp _ _ _ _ _ E Hk) as [c ->]. by eexists.
Qed.

Lemma accounts_record u0 w i r now ai ao w' :
  accounts_ok u0 w -> bw_tasks w !! i = Some (TTurn r) -> budget_step (ERecord i now ai ao) w = Some w' -> accounts_ok u0 w'.
Proof.
  intros Ha Hi Hst. cbn [budget_step] in Hst. rewrite Hi in Hst.
  destruct (rv_organization_id r) as [org|] eqn:Eo.
  2: { injection Hst as <-. by apply (accounts_task u0 w i _ TDone (bw_tracker w) Ha Hi). }
  pose proof (schedule_counters now (flush_running w) (record_actual r ai ao (bw_tracker w))) as Hc.
  assert (_counters (snd (_maybe_schedule_flush now (flush_running w) (record_actual r ai ao (bw_tracker w))))
          = _counters (record_actual r ai ao (bw_tracker w))) as Hc'.
  { unfold _maybe_schedule_flush. by destruct (_ && negb (flush_running w)). }
  destruct (_maybe_schedule_flush _ _ _) as [fl t2]. cbn [snd] in Hc, Hc'.
  assert (forall k, is_Some (_counters (bw_tracker w) !! k) -> is_Some (_counters t2 !! k)) as Hdom.
  { intros k Hk. rewrite Hc'. unfold record_actual. rewrite Eo. cbn. rewrite lookup_insert.
    case_decide; [by eexists | done]. }
  set (k0 := (org, rv_period_yyyymm r)) in *.
  assert (accounts_ok u0 {| bw_tracker := t2; bw_usage := bw_usage w; bw_tasks := <[i := TDone]> (bw_tasks w);
            bw_log := bw_log w ++ [(k0, (Z.max 0 ai, Z.max 0 ao))] |}) as Hw.
  { destruct Ha as [Hs Hp]. split.
    - intros b k. unfold used. cbn [bw_usage bw_tasks bw_tracker bw_log].
      rewrite (task_sum_insert _ _ _ _ _ Hi), spent_snoc, Hc. specialize (Hs b k). unfold used in Hs. cbn [pend fst snd].
      unfold record_actual. rewrite Eo. fold k0.
      match goal with |- context [on_counter k0 ?f ?t] =>
        change (counter_at {| _counters := _counters (on_counter k0 f t); _hydrated := _; _hydration_lock := _;
          _writes_since_flush := _; _last_flush_at := _ |} k) with (counter_at (on_counter k0 f t) k) end.
      rewrite counter_at_on. destruct (decide (k = k0)) as [->|Hne].
      + rewrite !bool_decide_eq_true_2 by done. unfold unfl in *. destruct b; cbn [side fst snd unflushed_input unflushed_output] in *; lia.
      + rewrite !bool_decide_eq_false_2 by congruence. lia.
    - intros j p bg sw k Hj Hk. cbn in Hj. cbn [bw_tracker]. apply Hdom.
      destruct (lookup_replaced _ _ _ _ _ Hj) as [E|E]; [done | by eapply Hp]. }
  injection Hst as <-. destruct fl; [|exact Hw]. by apply (accounts_spawn u0 _ TFlush t2 Hw).
Qed.

Lemma accounts_evict u0 w i now pool w' :
  accounts_ok u0 w -> no_overlap w -> bw_tasks w !! i = Some TEvicting ->
  budget_step (EEvict i now pool) w = Some w' -> accounts_ok u0 w'.
Proof.
  intros [Hs Hp] Hn Hi Hst. cbn [budget_step] in Hst. rewrite Hi in Hst. injection Hst as <-. split.
  - intros b k. cbn [with_task with_tracker bw_usage bw_tasks bw_tracker].
    rewrite (task_sum_insert _ _ _ _ _ Hi). specialize (Hs b k). unfold used in *. cbn [bw_log with_task with_tracker].
    rewrite (quiet_pend (if pool then _ else _)) by by destruct pool. cbn [pend].
    destruct (evict_cases (current_period_yyyymm now) (bw_tracker w) k) as [(-> & _ & _)|(-> & _ & Hz)]; [lia|].
    apply settled_zero in Hz as (_ & Z1 & Z2). unfold unfl in *. rewrite Z1, Z2 in Hs. cbn [new_counter unflushed_input unflushed_output]. lia.
  - intros j p bg sw k Hj Hk. cbn in Hj. destruct (lookup_replaced _ _ _ _ _ Hj) as [E|E]; [by destruct pool|].
    by destruct (sweep_excludes_write w i _ j p bg sw Hn Hi eq_refl E).
Qed.

Lemma step_accounts u0 e w w' : no_overlap w -> accounts_ok u0 w -> budget_step e w = Some w' -> accounts_ok u0 w'.
Proof.
  intros Hn Ha Hst. pose proof Hst as Hs. destruct e; cbn [budget_step] in Hs.
  - destruct org as [o|].
    + destruct (enter_hydration _ _ _ _) as [task t'] eqn:Ee. apply same_deltas_enter in Ee as (Hd & _ & Hq).
      injection Hs as <-. by apply accounts_spawn.
    + injection Hs as <-. by apply (accounts_spawn u0 w _ (bw_tracker w) Ha).
  - step_task Hs. destruct (_hydration_lock _); [done|].
    destruct (enter_hydration _ _ _ _) as [task t'] eqn:Ee. apply same_deltas_enter in Ee as (Hd & _ & Hq).
    injection Hs as <-. by eapply accounts_task.
  - step_task Hs. injection Hs as <-. by apply (accounts_task u0 w i _ _ (bw_tracker w) Ha Ei).
  - step_task Hs. injection Hs as <-. apply (accounts_task u0 w i _ _ _ Ha Ei); try done.
    etrans; [apply same_deltas_hydrate_end | apply same_deltas_pin].
  - step_task Hs. unfold decide_reservation in Hs.
    destruct (_ <? _); injection Hs as <-; apply (accounts_task u0 w i _ _ _ Ha Ei); try done. apply same_deltas_unpin.
  - step_task Hs; injection Hs as <-; [by apply (accounts_task u0 w i _ _ (bw_tracker w) Ha Ei) | ..];
      apply (accounts_task u0 w i _ _ _ Ha Ei); try done. apply same_deltas_abort.
  - step_task Hs. by eapply accounts_record.
  - step_task Hs. destruct (begin_flush _ _ _ _) as [task t'] eqn:Ef. injection Hs as <-.
    eapply accounts_begin_flush; [exact Ha | exact Ef | done | done | done | |].
    + intros b k. cbn [with_task with_tracker bw_tasks]. rewrite (task_sum_insert _ _ _ _ _ Ei). cbn [pend]. lia.
    + intros j x. apply lookup_replaced.
  - step_task Hs. by eapply accounts_write.
  - destruct (begin_flush _ _ _ _) as [task t'] eqn:Ef. injection Hs as <-.
    eapply accounts_begin_flush; [exact Ha | exact Ef | done | done | done | |].
    + intros b k. apply task_sum_snoc.
    + intros j x. apply lookup_spawned.
  - step_task Hs. by eapply accounts_evict.
  - step_task Hs. destruct keys as [|k keys]; injection Hs as <-; apply (accounts_task u0 w i _ _ (bw_tracker w) Ha Ei); try done.
    by destruct (_ && ok).
  - step_task Hs. injection Hs as <-. apply (accounts_task u0 w i _ _ _ Ha Ei); try done. apply same_deltas_rebase.
Qed.

(** Runs keep what their steps keep. *)
Lemma run_invariant (P : budget_world -> Prop) es w w' :
  (forall e w w', P w -> budget_step e w = Some w' -> P w') -> P w -> budget_run es w = Some w' -> P w'.
Proof.
  intros Hst. revert w. induction es as [|e es IH]; intros w Hw H; cbn in H; [by injection H as <-|].
  destruct (budget_step e w) as [w1|] eqn:E; [|done]. eapply IH; [|exact H]. by eapply Hst.
Qed.

Lemma serial_invariant (P : budget_world -> Prop) (Q : budget_event -> Prop) es w w' :
  (forall e w w', no_overlap w -> no_overlap w' -> Q e -> P w -> budget_step e w = Some w' -> P w') ->
  Forall Q es -> serial es w -> P w -> budget_run es w = Some w' -> P w'.
Proof.
  intros Hst HQ. revert w. induction HQ as [|e es Hq _ IH]; intros w [Hn Hs] Hw H; cbn in H; [by injection H as <-|].
  cbn in Hs. destruct (budget_step e w) as [w1|] eqn:E; [|done]. eapply IH; [exact Hs | | exact H].
  eapply Hst; [exact Hn | by eapply serial_head | done | done | exact E].
Qed.

Lemma cold_reservations now u0 : reservations_ok (cold_start now u0).
Proof. split; [constructor | done]. Qed.

Lemma cold_accounts now u0 : accounts_ok u0 (cold_start now u0).
Proof.
  split; [|done]. intros b k. unfold used, counter_at, cold_start.
  cbn [bw_usage bw_tasks bw_tracker bw_log _counters]. rewrite lookup_empty.
  change (row b k u0 + 0 + unfl b new_counter = row b k u0 + 0). destruct b; cbn [unfl side fst snd]; unfold new_counter; cbn [unflushed_input unflushed_output]; lia.
Qed.

(** The estimates held against a ceiling are exactly those of the turns in flight. *)
Theorem reservations_exact now u0 es w k :
  budget_run es (cold_start now u0) = Some w -> reserved (counter_at (bw_tracker w) k) = in_flight_tokens k w.
Proof.
  intros H. apply (run_invariant reservations_ok es (cold_start now u0) w step_reservations (cold_reservations now u0) H).
Qed.

(** C29: Over the same histories, whatever reads and writes fail, no token a turn
    reported is lost or counted twice: the stored row, the deltas being written and the
    deltas not yet taken always add up to the initial row and everything reported. *)
Theorem usage_conserved now u0 es w b k :
  serial es (cold_start now u0) -> budget_run es (cold_start now u0) = Some w ->
  row b k (bw_usage w) + task_sum (pend b k) (bw_tasks w) + unfl b (counter_at (bw_tracker w) k) = used b k u0 w.
Proof.
  intros Hs H. eapply (serial_invariant (accounts_ok u0) (fun _ => True)); [| |exact Hs | apply cold_accounts | exact H].
  - intros e w0 w1 Hn _ _ Ha Hst. exact (step_accounts u0 e w0 w1 Hn Ha Hst).
  - by apply Forall_true.
Qed.

(** ** The hydration lock *)

Definition read_key (t : budget_task) : option budget_key :=
  match t with TReading k _ | TRead k _ _ => Some k | _ => None end.
Definition reader (t : budget_task) : Z := match read_key t with Some _ => 1 | None => 0 end.

(** The lock is held exactly while one task reads a row, for a key not hydrated yet. *)
Definition lock_ok (w : budget_world) : Prop :=
  task_sum reader (bw_tasks w) = (if _hydration_lock (bw_tracker w) then 1 else 0) /\
  (forall i x k, bw_tasks w !! i = Some x -> read_key x = Some k -> k ∉ _hydrated (bw_tracker w)).

Lemma reader_nonneg l : Forall (fun t => 0 <= reader t) l.
Proof. apply Forall_true. intros []; unfold reader; cbn; lia. Qed.

(** Only the reader sees the lock. *)
Lemma reader_unique l i j x y :
  task_sum reader l <= 1 -> l !! i = Some x -> l !! j = Some y -> reader x = 1 -> reader y = 1 -> i = j.
Proof.
  intros Hs Hi Hj Hx Hy. destruct (decide (i = j)) as [|Hne]; [done|]. exfalso.
  pose proof (task_sum_insert reader l i x TDone Hi) as E. cbn in E.
  assert (<[i := TDone]> l !! j = Some y) as Hj' by by rewrite list_lookup_insert_ne.
  pose proof (task_sum_elem reader _ _ _ (reader_nonneg (<[i := TDone]> l)) Hj') as E'. unfold task_sum in *. lia.
Qed.

(** ** What the counters count *)

Definition task_counted (w : budget_world) (t : budget_task) : Prop :=
  match t with
  | TPinned k _ => k ∈ _hydrated (bw_tracker w)
  | TTurn r => forall k, turn_key r = Some k -> k ∈ _hydrated (bw_tracker w)
  | TRead k _ a => a = Some (bw_usage w !! k)
  | TSwept k r _ => r = bw_usage w !! k
  | TWriting p _ _ => forall k, k ∉ _hydrated (bw_tracker w) -> p !! k = None
  | _ => True
  end.

Definition counted_ok (w : budget_world) : Prop :=
  (forall b k, k ∈ _hydrated (bw_tracker w) -> comm b (counter_at (bw_tracker w) k)
     = row b k (bw_usage w) + task_sum (pend b k) (bw_tasks w) + unfl b (counter_at (bw_tracker w) k)) /\
  (forall b k, k ∉ _hydrated (bw_tracker w) -> unfl b (counter_at (bw_tracker w) k) = 0
     /\ (bw_usage w !! k = None -> comm b (counter_at (bw_tracker w) k) = 0)) /\
  Forall (task_counted w) (bw_tasks w).

(** Every row of a hydration is read. *)
Definition rows_read (e : budget_event) : Prop :=
  match e with
  | EAsk _ _ _ ts_pool | EWake _ ts_pool => ts_pool = true
  | ERead _ ok => ok = true
  | _ => True
  end.

(** A step that writes no rows and takes no deltas keeps the counters right if it
    neither moves committed tokens nor forgets a hydrated key. *)
Definition same_counts (t t' : budget_tracker) : Prop :=
  _hydrated t' = _hydrated t /\
  forall k b, unfl b (counter_at t' k) = unfl b (counter_at t k) /\ comm b (counter_at t' k) = comm b (counter_at t k).

#[local] Instance same_counts_preorder : PreOrder same_counts.
Proof.
  split; [done|]. intros t1 t2 t3 [E1 H1] [E2 H2]. split; [congruence|].
  intros k b. destruct (H1 k b) as [A B], (H2 k b) as [C D]. by rewrite C, D.
Qed.

Lemma same_counts_on k f t :
  (forall b c, unfl b (f c) = unfl b c) -> (forall b c, comm b (f c) = comm b c) -> same_counts t (on_counter k f t).
Proof.
  intros Hf Hg. split; [done|]. intros k' b. rewrite counter_at_on. case_bool_decide; [subst; by rewrite Hf, Hg | done].
Qed.

Lemma task_counted_mono w w' t :
  (forall k, k ∈ _hydrated (bw_tracker w) <-> k ∈ _hydrated (bw_tracker w')) -> bw_usage w' = bw_usage w ->
  task_counted w t -> task_counted w' t.
Proof. intros Hh Hu. destruct t; cbn; rewrite ?Hu; try done; setoid_rewrite <- Hh; done. Qed.

Lemma counted_tasks w w' t' (l : list budget_task) y :
  counted_ok w -> same_counts (bw_tracker w) t' -> bw_tracker w' = t' -> bw_usage w' = bw_usage w -> bw_tasks w' = l ->
  (forall b k, task_sum (pend b k) l = task_sum (pend b k) (bw_tasks w)) ->
  (forall j x, l !! j = Some x -> x = y \/ bw_tasks w !! j = Some x) -> task_counted w' y -> counted_ok w'.
Proof.
  intros (H1 & H2 & H3) [Eh Hc] Et Eu El Hsum Ht Hy. split_and!.
  - intros b k Hk. rewrite Et, Eu, El, Hsum. destruct (Hc k b) as [-> ->]. apply H1. by rewrite Et, Eh in Hk.
  - intros b k Hk. rewrite Et, Eu. destruct (Hc k b) as [-> ->]. apply H2. by rewrite Et, Eh in Hk.
  - rewrite El. apply Forall_lookup. intros j x Hj. destruct (Ht j x Hj) as [->|Hx]; [done|].
    eapply (task_counted_mono w); [|done | by eapply Forall_lookup_1]. intros k. by rewrite Et, Eh.
Qed.

Lemma counted_task w i x y t' :
  counted_ok w -> bw_tasks w !! i = Some x -> quiet_task x -> quiet_task y -> same_counts (bw_tracker w) t' ->
  task_counted (with_tracker w t') y -> counted_ok (with_task (with_tracker w t') i y).
Proof.
  intros Hc Hi Qx Qy Hs Hy. eapply (counted_tasks w _ t'); try done.
  - intros b k. cbn [with_task with_tracker bw_tasks]. rewrite (task_sum_insert _ _ _ _ _ Hi), !quiet_pend by done. lia.
  - intros j z. apply lookup_replaced.
Qed.

Lemma counted_spawn w y t' :
  counted_ok w -> quiet_task y -> same_counts (bw_tracker w) t' ->
  task_counted (with_tracker w t') y -> counted_ok (spawn (with_tracker w t') y).
Proof.
  intros Hc Qy Hs Hy. eapply (counted_tasks w _ t'); try done.
  - intros b k. cbn [spawn with_tracker bw_tasks]. rewrite task_sum_snoc, quiet_pend by done. lia.
  - intros j z. apply lookup_spawned.
Qed.

Lemma reader_locked w i x k :
  lock_ok w -> bw_tasks w !! i = Some x -> read_key x = Some k -> _hydration_lock (bw_tracker w) = true.
Proof.
  intros [Hs _] Hi Hk. pose proof (task_sum_elem reader _ _ _ (reader_nonneg (bw_tasks w)) Hi) as Hle.
  rewrite Hs in Hle. unfold reader in Hle. rewrite Hk in Hle. destruct (_hydration_lock _); [done | lia].
Qed.

(** Replacing a task whose reading state, and the lock with it, may change. *)
Lemma lock_task w i x y t' :
  lock_ok w -> bw_tasks w !! i = Some x ->
  (if _hydration_lock t' then 1 else 0) = (if _hydration_lock (bw_tracker w) then 1 else 0) - reader x + reader y ->
  (forall k, k ∈ _hydrated t' -> k ∈ _hydrated (bw_tracker w) \/ read_key x = Some k \/ _hydration_lock (bw_tracker w) = false) ->
  (forall k, read_key y = Some k -> k ∉ _hydrated t') ->
  lock_ok (with_task (with_tracker w t') i y).
Proof.
  intros [Hs Hr] Hi Hl Hh Hy. split.
  - cbn [with_task with_tracker bw_tasks bw_tracker]. rewrite (task_sum_insert _ _ _ _ _ Hi), Hs, Hl. lia.
  - intros j z k Hj Hz. cbn [with_task with_tracker bw_tasks bw_tracker] in *.
    apply list_lookup_insert_Some in Hj as [(_ & -> & _)|(Hne & Hj)]; [by apply Hy|]. intros Hk.
    assert (reader z = 1) as Rz by (unfold reader; by rewrite Hz).
    destruct (Hh k Hk) as [H|[H|H]].
    + by eapply Hr.
    + apply Hne. symmetry. eapply (reader_unique (bw_tasks w)); try done; [rewrite Hs; by destruct (_hydration_lock _)|].
      unfold reader. by rewrite H.
    + pose proof (task_sum_elem reader _ _ _ (reader_nonneg (bw_tasks w)) Hj). rewrite Hs, H in *. lia.
Qed.

Lemma lock_spawn w y t' :
  lock_ok w -> (if _hydration_lock t' then 1 else 0) = (if _hydration_lock (bw_tracker w) then 1 else 0) + reader y ->
  (forall k, k ∈ _hydrated t' -> k ∈ _hydrated (bw_tracker w) \/ _hydration_lock (bw_tracker w) = false) ->
  (forall k, read_key y = Some k -> k ∉ _hydrated t') ->
  lock_ok (spawn (with_tracker w t') y).
Proof.
  intros [Hs Hr] Hl Hh Hy. split.
  - cbn [spawn with_tracker bw_tasks bw_tracker]. rewrite task_sum_snoc, Hs, Hl. lia.
  - intros j z k Hj Hz. cbn [spawn with_tracker bw_tasks bw_tracker] in *.
    destruct (lookup_spawned _ _ _ _ Hj) as [->|Hj']; [by apply Hy|]. intros Hk.
    destruct (Hh k Hk) as [H|H]; [by eapply Hr|].
    pose proof (task_sum_elem reader _ _ _ (reader_nonneg (bw_tasks w)) Hj') as Hle. unfold reader at 1 in Hle.
    rewrite Hz, Hs, H in Hle. lia.
Qed.

(** Entering the hydration, from outside or from the queue at the lock. *)
Lemma enter_lock k est pool t task t' :
  enter_hydration k est pool t = (task, t') ->
  (if _hydration_lock t' then 1 else 0) = (if _hydration_lock t then 1 else 0) + reader task /\
  (forall k', k' ∈ _hydrated t' -> k' ∈ _hydrated t \/ _hydration_lock t = false) /\
  (forall k', read_key task = Some k' -> k' ∉ _hydrated t').
Proof.
  unfold enter_hydration. case_bool_decide as Hk; [intros E; injection E as <- <-; cbn; split_and!; [lia | by left | done]|].
  destruct (_hydration_lock t) eqn:El; [intros E; injection E as <- <-; rewrite El; cbn; split_and!; [lia | by left | done]|].
  destruct pool; intros E; injection E as <- <-; cbn; (split_and!; [lia | by right |]); [|done].
  intros k' E. by injection E as <-.
Qed.

Lemma begin_flush_lock pool bg sweep t task t' :
  begin_flush pool bg sweep t = (task, t') ->
  _hydration_lock t' = _hydration_lock t /\ _hydrated t' = _hydrated t /\ read_key task = None.
Proof.
  intros E. destruct (begin_flush_cases _ _ _ _ _ _ E) as [[-> ->]|[-> ->]]; [by destruct sweep | done].
Qed.

(** A step that leaves lock and hydrated keys alone, or evicts. *)
Lemma lock_quiet w i x y t' :
  lock_ok w -> bw_tasks w !! i = Some x -> _hydration_lock t' = _hydration_lock (bw_tracker w) ->
  _hydrated t' ⊆ _hydrated (bw_tracker w) -> read_key x = None -> read_key y = None ->
  lock_ok (with_task (with_tracker w t') i y).
Proof.
  intros Hl Hi E1 E2 Ex Ey. eapply lock_task; [done | exact Hi | | |].
  - unfold reader. rewrite E1, Ex, Ey. lia.
  - intros k Hk. left. by apply E2.
  - by rewrite Ey.
Qed.

Lemma hydrate_end_hydrated k a t : _hydrated (hydrate_end k a t) = {[ k ]} ∪ _hydrated t.
Proof. unfold hydrate_end. by destruct a as [[[]|]|]. Qed.

Lemma record_static r ai ao t :
  _hydration_lock (record_actual r ai ao t) = _hydration_lock t /\ _hydrated (record_actual r ai ao t) = _hydrated t.
Proof. unfold record_actual. by destruct (rv_organization_id r). Qed.

Lemma schedule_static now b t :
  _hydration_lock (snd (_maybe_schedule_flush now b t)) = _hydration_lock t
  /\ _hydrated (snd (_maybe_schedule_flush now b t)) = _hydrated t.
Proof. unfold _maybe_schedule_flush. by destruct (_ && negb b). Qed.

Lemma lock_record w i r now ai ao w' :
  lock_ok w -> bw_tasks w !! i = Some (TTurn r) -> budget_step (ERecord i now ai ao) w = Some w' -> lock_ok w'.
Proof.
  intros Hl Hi Hs. cbn [budget_step] in Hs. rewrite Hi in Hs.
  destruct (rv_organization_id r) as [org|].
  2: { injection Hs as <-. by apply (lock_quiet w i _ _ (bw_tracker w) Hl Hi). }
  pose proof (schedule_static now (flush_running w) (record_actual r ai ao (bw_tracker w))) as [A B].
  destruct (record_static r ai ao (bw_tracker w)) as [C D].
  destruct (_maybe_schedule_flush _ _ _) as [fl t2]. cbn [snd] in A, B. injection Hs as <-.
  assert (lock_ok (with_task (with_tracker w t2) i TDone)) as Hw
    by (apply (lock_quiet w i _ _ _ Hl Hi); [congruence | by rewrite B, D | done | done]).
  destruct fl; [|exact Hw]. apply (lock_spawn _ TFlush t2 Hw); [symmetry; apply Z.add_0_r | by left | done].
Qed.

Lemma step_lock e w w' : lock_ok w -> budget_step e w = Some w' -> lock_ok w'.
Proof.
  intros Hl Hst. pose proof Hst as Hs. destruct e; cbn [budget_step] in Hs.
  - destruct org as [o|].
    + destruct (enter_hydration _ _ _ _) as [task t'] eqn:Ee. apply enter_lock in Ee as (A & B & C).
      injection Hs as <-. by apply lock_spawn.
    + injection Hs as <-. apply (lock_spawn w _ (bw_tracker w) Hl); [symmetry; apply Z.add_0_r | by left | done].
  - step_task Hs. destruct (_hydration_lock _); [done|].
    destruct (enter_hydration _ _ _ _) as [task t'] eqn:Ee. apply enter_lock in Ee as (A & B & C).
    injection Hs as <-. eapply lock_task; [done | exact Ei | rewrite A; unfold reader at 2; cbn [read_key]; lia | | done].
    intros k' Hk'. destruct (B k' Hk'); auto.
  - step_task Hs. injection Hs as <-. eapply (lock_task w i _ _ (bw_tracker w)); [done | exact Ei | unfold reader; cbn; lia | by left |].
    intros k' E. injection E as <-. by eapply (proj2 Hl).
  - step_task Hs. injection Hs as <-.
    pose proof (reader_locked w i _ _ Hl Ei eq_refl) as El.
    eapply lock_task; [done | exact Ei | unfold reader; rewrite El; cbn; lia | | done].
    intros k'. change (_hydrated (pin_estimate k est ?t)) with (_hydrated t). rewrite hydrate_end_hydrated.
    intros [->%elem_of_singleton|H]%elem_of_union; cbn; auto.
  - step_task Hs. unfold decide_reservation in Hs.
    destruct (_ <? _); injection Hs as <-; by apply (lock_quiet w i _ _ _ Hl Ei).
  - step_task Hs; injection Hs as <-.
    + by apply (lock_quiet w i _ _ (bw_tracker w) Hl Ei).
    + pose proof (reader_locked w i _ _ Hl Ei eq_refl) as El.
      eapply lock_task; [done | exact Ei | unfold reader; rewrite El; cbn; lia | by left | done].
    + pose proof (reader_locked w i _ _ Hl Ei eq_refl) as El.
      eapply lock_task; [done | exact Ei | unfold reader; rewrite El; cbn; lia | by left | done].
    + by apply (lock_quiet w i _ _ _ Hl Ei).
  - step_task Hs. by eapply lock_record.
  - step_task Hs. destruct (begin_flush _ _ _ _) as [task t'] eqn:Ef. apply begin_flush_lock in Ef as (A & B & C).
    injection Hs as <-. apply (lock_quiet w i _ _ _ Hl Ei); by rewrite ?B.
  - step_task Hs. injection Hs as <-. destruct ok; [apply (lock_quiet w i _ _ (bw_tracker w) Hl Ei) | apply (lock_quiet w i _ _ _ Hl Ei)];
      try done; by destruct sweep.
  - destruct (begin_flush _ _ _ _) as [task t'] eqn:Ef. apply begin_flush_lock in Ef as (A & B & C).
    injection Hs as <-. apply (lock_spawn w _ _ Hl); rewrite ?A, ?B; [unfold reader; rewrite C; lia | by left | by rewrite C].
  - step_task Hs. injection Hs as <-. apply (lock_quiet w i _ _ _ Hl Ei); try done; [|by destruct ts_pool].
    cbn. set_solver.
  - step_task Hs. destruct keys as [|k keys]; injection Hs as <-; apply (lock_quiet w i _ _ (bw_tracker w) Hl Ei); try done.
    by destruct (_ && ok).
  - step_task Hs. injection Hs as <-. apply (lock_quiet w i _ _ _ Hl Ei); try done; unfold rebase;
      destruct (_counters _ !! k); try done; by destruct (default _ _).
Qed.

(** A key that gets hydrated starts from its row. *)
Lemma counted_hydrate w i k est :
  counted_ok w -> lock_ok w -> bw_tasks w !! i = Some (TRead k est (Some (bw_usage w !! k))) ->
  counted_ok (with_task (with_tracker w (pin_estimate k est (hydrate_end k (Some (bw_usage w !! k)) (bw_tracker w)))) i
                (TPinned k est)).
Proof.
  intros (H1 & H2 & H3) [_ Hr] Hi. pose proof (Hr i _ k Hi eq_refl) as Hk.
  assert (forall b, task_sum (pend b k) (bw_tasks w) = 0) as Hp.
  { intros b. apply task_sum_const. intros x Hx. apply list_elem_of_lookup in Hx as [j Hj].
    pose proof (Forall_lookup_1 _ _ _ _ H3 Hj) as Hc. destruct x; try done. cbn in Hc. cbn [pend]. unfold row.
    rewrite (Hc k Hk). by destruct b. }
  set (t' := pin_estimate k est _).
  assert (_hydrated t' = {[ k ]} ∪ _hydrated (bw_tracker w)) as Eh by apply hydrate_end_hydrated.
  assert (forall k' b, unfl b (counter_at t' k') = unfl b (counter_at (bw_tracker w) k')) as Eu.
  { intros k' b. unfold t'. rewrite (proj1 (same_deltas_pin k est _ k')). by rewrite (proj1 (same_deltas_hydrate_end k _ _ k')). }
  assert (forall k' b, comm b (counter_at t' k') = if bool_decide (k' = k) then row b k (bw_usage w)
                                                   else comm b (counter_at (bw_tracker w) k')) as Ec.
  { intros k' b. unfold t', pin_estimate. rewrite counter_at_on.
    assert (forall x, comm b (counter_at (hydrate_end k (Some (bw_usage w !! k)) (bw_tracker w)) x)
              = if bool_decide (x = k) then row b k (bw_usage w) else comm b (counter_at (bw_tracker w) x)) as Hx.
    { intros x. unfold hydrate_end, row. destruct (bw_usage w !! k) as [[p q]|] eqn:Eq; cbn zeta.
      - change (counter_at (with_lock (with_hydrated ?t _) _) x) with (counter_at t x). rewrite counter_at_on.
        case_bool_decide; by subst.
      - change (counter_at (with_lock (with_hydrated ?t _) _) x) with (counter_at t x).
        case_bool_decide; [subst|done]. rewrite (proj2 (H2 b k Hk)) by done. by destruct b. }
    rewrite <- Hx. case_bool_decide; by subst. }
  clearbody t'. split_and!.
  - intros b k' Hk'. cbn [with_task with_tracker bw_tracker bw_usage bw_tasks] in *. rewrite Eh in Hk'.
    rewrite (task_sum_insert _ _ _ _ _ Hi), Ec, Eu. cbn [pend]. case_bool_decide as E.
    + subst. rewrite Hp, (proj1 (H2 b k Hk)). lia.
    + rewrite H1 by set_solver. lia.
  - intros b k' Hk'. cbn [with_task with_tracker bw_tracker bw_usage bw_tasks] in *. rewrite Eh in Hk'.
    rewrite Ec, Eu, bool_decide_eq_false_2 by set_solver. apply H2. set_solver.
  - cbn [with_task with_tracker bw_tasks]. apply Forall_insert; [|cbn; rewrite Eh; set_solver].
    eapply Forall_impl; [exact H3|]. intros []; cbn; rewrite ?Eh; try done; set_solver.
Qed.

(** A flush takes deltas of hydrated keys only. *)
Lemma counted_begin_flush w w' pool bg sweep task t' :
  counted_ok w -> begin_flush pool bg sweep (bw_tracker w) = (task, t') ->
  bw_usage w' = bw_usage w -> bw_tracker w' = t' ->
  (forall b k, task_sum (pend b k) (bw_tasks w') = task_sum (pend b k) (bw_tasks w) + pend b k task) ->
  (forall j x, bw_tasks w' !! j = Some x -> x = task \/ bw_tasks w !! j = Some x) -> counted_ok w'.
Proof.
  intros Hc Hf Eu Et Hsum Htask. destruct (begin_flush_cases _ _ _ _ _ _ Hf) as [[E1 E2]|[E1 E2]].
  - eapply (counted_tasks w w' t' _ task); try done; [by rewrite E1 | | rewrite E2; by destruct sweep].
    intros b k. rewrite Hsum, quiet_pend; [lia|]. rewrite E2. by destruct sweep.
  - destruct Hc as (H1 & H2 & H3).
    assert (_hydrated t' = _hydrated (bw_tracker w)) as Eh by by rewrite E2.
    assert (forall k b, comm b (counter_at t' k) = comm b (counter_at (bw_tracker w) k)) as Ec
      by (intros k b; rewrite E2, counter_at_take; done).
    assert (forall k b, unfl b (counter_at t' k) = 0) as Ez by (intros k []; by rewrite E2, counter_at_take).
    split_and!.
    + intros b k Hk. rewrite Et, Eh in Hk. rewrite Et, Eu, Ec, Ez, Hsum, E1. cbn [pend].
      pose proof (take_accounts b k (bw_tracker w)) as Ht. rewrite <- E2, Ez in Ht. rewrite (H1 b k Hk). lia.
    + intros b k Hk. rewrite Et, Eh in Hk. rewrite Et, Eu, Ec, Ez. split; [done|]. apply H2, Hk.
    + apply Forall_lookup. intros j x Hj. destruct (Htask j x Hj) as [->|Hx].
      * rewrite E1. cbn. rewrite Et, Eh. intros k Hk. unfold take_deltas. cbn [fst]. rewrite lookup_omap.
        pose proof (proj1 (H2 true k Hk)) as Z1. pose proof (proj1 (H2 false k Hk)) as Z2. unfold counter_at, unfl, side in Z1, Z2.
        destruct (_counters (bw_tracker w) !! k) as [c|]; cbn in *; [|done]. unfold delta. by rewrite Z1, Z2.
      * eapply (task_counted_mono w); [|done | by eapply Forall_lookup_1]. intros k. by rewrite Et, Eh.
Qed.

Lemma counted_write w i p bg sw ok w' :
  counted_ok w ->
  (forall j q bg' sw' k, bw_tasks w !! j = Some (TWriting q bg' sw') -> is_Some (q !! k) -> is_Some (_counters (bw_tracker w) !! k)) ->
  no_overlap w -> lock_ok w -> bw_tasks w !! i = Some (TWriting p bg sw) ->
  budget_step (EWrite i ok) w = Some w' -> counted_ok w'.
Proof.
  intros (H1 & H2 & H3) Hp Hn Hl Hi Hst. cbn [budget_step] in Hst. rewrite Hi in Hst. injection Hst as <-.
  pose proof (Forall_lookup_1 _ _ _ _ H3 Hi) as Hpk. cbn in Hpk.
  assert (quiet_task (if sw then TEvicting else TDone)) as Hq by by destruct sw.
  assert (forall v, task_counted v (if sw then TEvicting else TDone)) as Ha by by destruct sw.
  assert (forall b k, task_sum (pend b k) (<[i := if sw then TEvicting else TDone]> (bw_tasks w))
                      = task_sum (pend b k) (bw_tasks w) - row b k p) as Hsum.
  { intros b k. rewrite (task_sum_insert _ _ _ _ _ Hi), (quiet_pend _ b k Hq). cbn [pend]. lia. }
  destruct ok.
  - split_and!; cbn [bw_tracker bw_usage bw_tasks].
    + intros b k Hk. rewrite row_write, Hsum, (H1 b k Hk). lia.
    + intros b k Hk. destruct (H2 b k Hk) as [A B]. split; [done|]. unfold write_usage. rewrite lookup_merge, (Hpk k Hk).
      destruct (bw_usage w !! k) as [[]|]; [done|]. intros _. by apply B.
    + apply Forall_insert; [|apply Ha]. apply Forall_lookup. intros j x Hj.
      pose proof (Forall_lookup_1 _ _ _ _ H3 Hj) as Hc.
      assert (forall k, k ∉ _hydrated (bw_tracker w) -> write_usage p (bw_usage w) !! k = bw_usage w !! k) as Hsame.
      { intros k Hk. unfold write_usage. rewrite lookup_merge, (Hpk k Hk). by destruct (bw_usage w !! k) as [[]|]. }
      destruct x; try done.
      * cbn in *. rewrite Hsame; [done|]. by eapply (proj2 Hl).
      * exfalso. by eapply (sweep_excludes_write w j _ i).
  - split_and!; cbn [bw_tracker bw_usage bw_tasks with_task with_tracker].
    + intros b k Hk. change (_hydrated (restore_deltas p (bw_tracker w))) with (_hydrated (bw_tracker w)) in Hk.
      rewrite Hsum, counter_at_restore. specialize (H1 b k Hk). unfold counter_at in H1.
      destruct (_counters (bw_tracker w) !! k) as [c|] eqn:Ec.
      * cbn [default] in H1. unfold comm, unfl, row in *. destruct b; cbn in *; lia.
      * cbn [default] in H1. unfold row at 2. destruct (p !! k) as [q|] eqn:Eq.
        { destruct (Hp i p bg sw k Hi) as [c Hc]; [by eexists | congruence]. }
        rewrite H1. destruct b; cbn; lia.
    + intros b k Hk. change (_hydrated (restore_deltas p (bw_tracker w))) with (_hydrated (bw_tracker w)) in Hk.
      rewrite counter_at_restore, (Hpk k Hk). specialize (H2 b k Hk). unfold counter_at in H2.
      destruct (_counters (bw_tracker w) !! k) as [c|]; [|by destruct b].
      cbn [default from_option id] in H2. destruct H2 as [A B]. unfold comm, unfl in *.
      destruct b; cbn [side fst snd with_unflushed unflushed_input unflushed_output committed_input committed_output default from_option id] in *;
        (split; [rewrite A; lia | exact B]).
    + apply Forall_insert; [|apply Ha]. eapply Forall_impl; [exact H3|]. intros x. by apply task_counted_mono.
Qed.

Lemma counted_evict w i now pool w' :
  counted_ok w -> reservations_ok w -> no_overlap w -> bw_tasks w !! i = Some TEvicting ->
  budget_step (EEvict i now pool) w = Some w' -> counted_ok w'.
Proof.
  intros (H1 & H2 & H3) Hres Hn Hi Hst. cbn [budget_step] in Hst. rewrite Hi in Hst. injection Hst as <-.
  set (t' := _evict_settled_past_periods _ _).
  pose proof (evict_cases (current_period_yyyymm now) (bw_tracker w)) as Hev. cbn zeta in Hev. fold t' in Hev.
  clearbody t'.
  assert (forall keys b k, task_sum (pend b k) (<[i := if pool then TSweep keys else TDone]> (bw_tasks w)) = 0) as Hsum.
  { intros keys b k. rewrite (task_sum_insert _ _ _ _ _ Hi), (sweep_no_pend w i _ b k Hn Hi eq_refl).
    by destruct pool. }
  split_and!; cbn [bw_tracker bw_usage bw_tasks with_task with_tracker].
  - intros b k Hk. rewrite Hsum. destruct (Hev k) as [(-> & Hh & _)|(_ & Hh & _)]; [|done].
    rewrite (H1 b k) by by apply Hh. by rewrite (sweep_no_pend w i _ b k Hn Hi eq_refl).
  - intros b k Hk. destruct (Hev k) as [(-> & Hh & _)|(-> & _ & _)]; [apply H2; by rewrite <- Hh | by destruct b].
  - apply Forall_insert; [|by destruct pool]. apply Forall_lookup. intros j x Hj.
    pose proof (Forall_lookup_1 _ _ _ _ H3 Hj) as Hc.
    assert (forall k, 0 < hold k x -> k ∈ _hydrated (bw_tracker w) -> k ∈ _hydrated t') as Hkeep.
    { intros k Hh Hk. destruct (Hev k) as [(_ & E & _)|(_ & _ & Hz)]; [by apply E|]. apply settled_zero in Hz as [Hz _].
      pose proof (hold_covered w j x k Hres Hj). lia. }
    pose proof (Forall_lookup_1 _ _ _ _ (proj1 Hres) Hj) as He.
    destruct x; try done.
    + apply Hkeep; [|done]. unfold hold. by rewrite bool_decide_eq_true_2.
    + intros k Hk. apply Hkeep; [|by apply Hc]. unfold hold. rewrite bool_decide_eq_true_2 by done. apply He.
      unfold turn_key in Hk. by destruct (rv_organization_id r).
    + by destruct (sweep_excludes_write w i _ j _ _ _ Hn Hi eq_refl Hj).
Qed.

Lemma counted_rebase w i k r keys :
  counted_ok w -> no_overlap w -> bw_tasks w !! i = Some (TSwept k r keys) ->
  counted_ok (with_task (with_tracker w (rebase k r (bw_tracker w))) i (TSweep keys)).
Proof.
  intros (H1 & H2 & H3) Hn Hi. pose proof (Forall_lookup_1 _ _ _ _ H3 Hi) as Hr. cbn in Hr. subst r.
  assert (_hydrated (rebase k (bw_usage w !! k) (bw_tracker w)) = _hydrated (bw_tracker w)) as Eh.
  { unfold rebase. destruct (_counters _ !! k); [|done]. by destruct (default _ _). }
  assert (forall k' b, unfl b (counter_at (rebase k (bw_usage w !! k) (bw_tracker w)) k')
                       = unfl b (counter_at (bw_tracker w) k')) as Eu by (intros; apply same_deltas_rebase).
  assert (forall k' b, comm b (counter_at (rebase k (bw_usage w !! k) (bw_tracker w)) k')
      = if bool_decide (k' = k) && bool_decide (is_Some (_counters (bw_tracker w) !! k))
        then row b k (bw_usage w) + unfl b (counter_at (bw_tracker w) k) else comm b (counter_at (bw_tracker w) k')) as Ec.
  { intros k' b. rewrite rebase_cases. destruct (_ && _); [|done]. by destruct b. }
  assert (forall b k', task_sum (pend b k') (<[i := TSweep keys]> (bw_tasks w)) = 0) as Hsum.
  { intros b k'. by rewrite (task_sum_insert _ _ _ _ _ Hi), (sweep_no_pend w i _ b k' Hn Hi eq_refl). }
  split_and!; cbn [bw_tracker bw_usage bw_tasks with_task with_tracker]; rewrite ?Eh.
  - intros b k' Hk. rewrite Hsum, Eu, Ec. destruct (_ && _) eqn:E.
    + apply andb_prop in E as [->%bool_decide_eq_true _]. lia.
    + by rewrite (H1 b k' Hk), (sweep_no_pend w i _ b k' Hn Hi eq_refl).
  - intros b k' Hk. rewrite Eu, Ec. destruct (H2 b k' Hk) as [A B]. split; [done|]. intros Hu. destruct (_ && _) eqn:E; [|auto].
    apply andb_prop in E as [->%bool_decide_eq_true _]. rewrite A. unfold row. rewrite Hu. by destruct b.
  - apply Forall_insert; [|done]. eapply Forall_impl; [exact H3|]. intros x. apply task_counted_mono; [|done].
    cbn. by rewrite Eh.
Qed.

Lemma counted_record w i r now ai ao w' :
  counted_ok w -> bw_tasks w !! i = Some (TTurn r) -> budget_step (ERecord i now ai ao) w = Some w' -> counted_ok w'.
Proof.
  intros Hc Hi Hst. cbn [budget_step] in Hst. rewrite Hi in Hst.
  destruct (rv_organization_id r) as [org|] eqn:Eo.
  2: { injection Hst as <-. by apply (counted_task w i _ TDone (bw_tracker w) Hc Hi). }
  pose proof (schedule_counters now (flush_running w) (record_actual r ai ao (bw_tracker w))) as Ht.
  pose proof (schedule_static now (flush_running w) (record_actual r ai ao (bw_tracker w))) as [_ Eh].
  rewrite (proj2 (record_static r ai ao (bw_tracker w))) in Eh.
  destruct (_maybe_schedule_flush _ _ _) as [fl t2]. cbn [snd] in Ht, Eh.
  assert (forall k b, unfl b (counter_at t2 k) - unfl b (counter_at (bw_tracker w) k)
                      = comm b (counter_at t2 k) - comm b (counter_at (bw_tracker w) k)
          /\ (k <> (org, rv_period_yyyymm r) -> counter_at t2 k = counter_at (bw_tracker w) k)) as Hd.
  { intros k b. rewrite Ht. unfold record_actual. rewrite Eo.
    match goal with |- context [on_counter ?k0 ?f ?t] =>
      change (counter_at {| _counters := _counters (on_counter k0 f t); _hydrated := _; _hydration_lock := _;
        _writes_since_flush := _; _last_flush_at := _ |} k) with (counter_at (on_counter k0 f t) k) end.
    rewrite counter_at_on. case_bool_decide as E; [subst | by rewrite !Z.sub_diag].
    split; [unfold unfl, comm; destruct b; cbn; lia | done]. }
  destruct Hc as (H1 & H2 & H3). pose proof (Forall_lookup_1 _ _ _ _ H3 Hi) as Hk0. cbn in Hk0. unfold turn_key in Hk0.
  rewrite Eo in Hk0. specialize (Hk0 _ eq_refl).
  assert (forall b k, task_sum (pend b k) (<[i := TDone]> (bw_tasks w)) = task_sum (pend b k) (bw_tasks w)) as Hsum.
  { intros b k. rewrite (task_sum_insert _ _ _ _ _ Hi). cbn [pend]. lia. }
  assert (counted_ok (with_task (with_tracker w t2) i TDone)) as Hw.
  { split_and!; cbn [bw_tracker bw_usage bw_tasks with_task with_tracker]; rewrite ?Eh.
    - intros b k Hk. rewrite Hsum. destruct (Hd k b) as [E _]. specialize (H1 b k Hk). lia.
    - intros b k Hk. destruct (Hd k b) as [_ ->]; [by apply H2 | congruence].
    - apply Forall_insert; [|done]. eapply Forall_impl; [exact H3|]. intros x. apply task_counted_mono; [|done]. cbn. by rewrite Eh. }
  injection Hst as <-. destruct fl; [|exact Hw]. by apply (counted_spawn _ TFlush t2 Hw).
Qed.

Lemma enter_counted w k est t' task :
  counted_ok w -> enter_hydration k est true (bw_tracker w) = (task, t') ->
  same_counts (bw_tracker w) t' /\ quiet_task task /\ task_counted (with_tracker w t') task.
Proof.
  intros _. unfold enter_hydration. case_bool_decide as Hk; [|destruct (_hydration_lock _)];
    intros E; injection E as <- <-; (split; [|done]); try done.
  - by apply same_counts_on.
  - apply (same_counts_on k id (bw_tracker w)); done.
Qed.

(** All invariants together. *)
Definition budget_inv (u0 : usage_table) (w : budget_world) : Prop :=
  reservations_ok w /\ accounts_ok u0 w /\ lock_ok w /\ counted_ok w.

Lemma step_counted u0 e w w' :
  no_overlap w -> rows_read e -> budget_inv u0 w -> budget_step e w = Some w' -> counted_ok w'.
Proof.
  intros Hn Hq (Hres & Hacc & Hl & Hc) Hst. pose proof Hst as Hs. destruct e; cbn [budget_step] in Hs; cbn in Hq.
  - subst ts_pool. destruct org as [o|].
    + destruct (enter_hydration _ _ _ _) as [task t'] eqn:Ee. apply enter_counted in Ee as (A & B & C); [|done].
      injection Hs as <-. by apply counted_spawn.
    + injection Hs as <-. by apply (counted_spawn w _ (bw_tracker w) Hc).
  - step_task Hs. destruct (_hydration_lock _); [done|]. subst ts_pool.
    destruct (enter_hydration _ _ _ _) as [task t'] eqn:Ee. apply enter_counted in Ee as (A & B & C); [|done].
    injection Hs as <-. by eapply counted_task.
  - step_task Hs. injection Hs as <-. subst ok. by apply (counted_task w i _ _ (bw_tracker w) Hc Ei).
  - step_task Hs. injection Hs as <-. pose proof (Forall_lookup_1 _ _ _ _ (proj2 (proj2 Hc)) Ei) as Ea. cbn in Ea. subst answer.
    by apply counted_hydrate.
  - step_task Hs. pose proof (Forall_lookup_1 _ _ _ _ (proj2 (proj2 Hc)) Ei) as Hk. cbn in Hk.
    unfold decide_reservation in Hs. destruct (_ <? _); injection Hs as <-; apply (counted_task w i _ _ _ Hc Ei); try done.
    + by apply same_counts_on.
    + cbn. unfold turn_key. cbn. rewrite <- surjective_pairing. intros k' E. by injection E as <-.
  - step_task Hs; injection Hs as <-; [by apply (counted_task w i _ _ (bw_tracker w) Hc Ei) | ..];
      apply (counted_task w i _ _ _ Hc Ei); try done. by apply same_counts_on.
  - step_task Hs. by eapply counted_record.
  - step_task Hs. destruct (begin_flush _ _ _ _) as [task t'] eqn:Ef. injection Hs as <-.
    eapply counted_begin_flush; [exact Hc | exact Ef | done | done | |].
    + intros b k. cbn [with_task with_tracker bw_tasks]. rewrite (task_sum_insert _ _ _ _ _ Ei). cbn [pend]. lia.
    + intros j x. apply lookup_replaced.
  - step_task Hs. eapply counted_write; [exact Hc | exact (proj2 Hacc) | done | done | exact Ei | exact Hst].
  - destruct (begin_flush _ _ _ _) as [task t'] eqn:Ef. injection Hs as <-.
    eapply counted_begin_flush; [exact Hc | exact Ef | done | done | |].
    + intros b k. apply task_sum_snoc.
    + intros j x. apply lookup_spawned.
  - step_task Hs. by eapply counted_evict.
  - step_task Hs. destruct keys as [|k keys]; injection Hs as <-; apply (counted_task w i _ _ (bw_tracker w) Hc Ei); try done;
      by destruct (_ && ok).
  - step_task Hs. injection Hs as <-. by apply counted_rebase.
Qed.

Lemma step_budget_inv u0 e w w' :
  no_overlap w -> rows_read e -> budget_inv u0 w -> budget_step e w = Some w' -> budget_inv u0 w'.
Proof.
  intros Hn Hq Hi Hs. pose proof (step_counted u0 e w w' Hn Hq Hi Hs) as Hc. destruct Hi as (A & B & C & _). split_and!.
  - by eapply step_reservations.
  - by eapply step_accounts.
  - by eapply step_lock.
  - exact Hc.
Qed.

Lemma cold_budget_inv now u0 : budget_inv u0 (cold_start now u0).
Proof.
  split_and!; [apply cold_reservations | apply cold_accounts | by split | ].
  split_and!; [intros b k Hk; set_solver | | constructor]. intros b k _. unfold counter_at. by destruct b.
Qed.

Lemma serial_budget_inv now u0 es w :
  Forall rows_read es -> serial es (cold_start now u0) -> budget_run es (cold_start now u0) = Some w -> budget_inv u0 w.
Proof.
  intros Hq Hs H. eapply (serial_invariant (budget_inv u0) rows_read); [|exact Hq | exact Hs | apply cold_budget_inv | exact H].
  intros e w0 w1 Hn _ He Hi Hst. exact (step_budget_inv u0 e w0 w1 Hn He Hi Hst).
Qed.

(** C28: In every interleaving of turns, flushes and reconciliations of one process in
    which rows are read and no reconciliation overlaps another flush, a turn is admitted
    only if what the organisation has used this month, initially and by all turns since,
    plus the estimates of every turn in flight including this one stays within its
    ceiling. *)
Theorem admitted_within_ceiling now u0 es w i pool answer w' r k :
  Forall rows_read es -> serial es (cold_start now u0) -> budget_run es (cold_start now u0) = Some w ->
  budget_step (EDecide i pool answer) w = Some w' -> bw_tasks w' !! i = Some (TTurn r) -> turn_key r = Some k ->
  used true k u0 w' + used false k u0 w' + in_flight_tokens k w' <= resolve_org_token_budget pool answer.
Proof.
  intros Hq Hs H Hd Hi Hk. pose proof (serial_budget_inv _ _ _ _ Hq Hs H) as Hinv.
  pose proof (step_reservations _ _ _ (proj1 Hinv) Hd) as [_ Hres]. destruct Hinv as (Hr & Ha & _ & Hc).
  cbn [budget_step] in Hd. step_task Hd. unfold decide_reservation in Hd.
  destruct (Z.ltb_spec (resolve_org_token_budget pool answer) (counter_total (counter_at (bw_tracker w) k0))) as [Hlt|Hle];
    injection Hd as <-; cbn [with_task with_tracker bw_tasks] in Hi;
    rewrite list_lookup_insert_eq in Hi by (by eapply lookup_lt_Some); [done|]. injection Hi as <-.
  unfold turn_key in Hk. cbn in Hk. rewrite <- surjective_pairing in Hk. injection Hk as ->.
  pose proof (Forall_lookup_1 _ _ _ _ (proj2 (proj2 Hc)) Ei) as Hh. cbn in Hh.
  rewrite <- Hres. cbn [with_task with_tracker bw_tracker]. unfold used. cbn [with_task with_tracker bw_log].
  pose proof (proj1 Hc true k Hh) as C1. pose proof (proj1 Hc false k Hh) as C2.
  pose proof (proj1 Ha true k) as A1. pose proof (proj1 Ha false k) as A2. unfold used in A1, A2.
  unfold counter_total in Hle. unfold comm, side in C1, C2. cbn [fst snd] in C1, C2. lia.
Qed.

(** ** Progress *)

(** A turn in the hydration, wherever it is, comes to hold its estimate. *)
Definition pinned_by (es : list budget_event) (i : nat) (k : budget_key) (est : Z) (w : budget_world) : Prop :=
  exists w', budget_run es w = Some w' /\ bw_tasks w' !! i = Some (TPinned k est).

Lemma read_proceeds w i k est a : bw_tasks w !! i = Some (TRead k est a) -> pinned_by [EHydrated i] i k est w.
Proof.
  intros Hi. eexists. cbn. rewrite Hi. split; [done|]. cbn. apply list_lookup_insert_eq. by eapply lookup_lt_Some.
Qed.

Lemma reading_proceeds w i k est : bw_tasks w !! i = Some (TReading k est) -> pinned_by [ERead i true; EHydrated i] i k est w.
Proof.
  intros Hi. destruct (read_proceeds (with_task w i (TRead k est (Some (bw_usage w !! k)))) i k est (Some (bw_usage w !! k)))
    as (w' & H & H'); [cbn; apply list_lookup_insert_eq; by eapply lookup_lt_Some|].
  exists w'. split; [|done]. cbn [budget_run budget_step]. rewrite Hi. exact H.
Qed.

Lemma free_lock_proceeds w i k est :
  _hydration_lock (bw_tracker w) = false -> bw_tasks w !! i = Some (TWaiting k est) ->
  exists es, (length es <= 3)%nat /\ pinned_by es i k est w.
Proof.
  intros Hl Hi. destruct (enter_hydration k est true (bw_tracker w)) as [task t'] eqn:Ee.
  assert (budget_step (EWake i true) w = Some (with_task (with_tracker w t') i task)) as Hw
    by (cbn; rewrite Hi, Hl, Ee; done).
  assert (bw_tasks (with_task (with_tracker w t') i task) !! i = Some task) as Ht
    by (cbn; apply list_lookup_insert_eq; by eapply lookup_lt_Some).
  unfold enter_hydration in Ee. rewrite Hl in Ee. case_bool_decide; injection Ee as <- <-.
  - exists [EWake i true]. split; [cbn; lia|]. eexists. cbn [budget_run]. rewrite Hw. by split.
  - exists [EWake i true; ERead i true; EHydrated i]. split; [cbn; lia|].
    destruct (reading_proceeds _ i k est Ht) as (w' & R & R'). exists w'. split; [|done].
    cbn [budget_run] in *. rewrite Hw. exact R.
Qed.

Lemma task_sum_witness l : task_sum reader l = 1 -> exists j x k, l !! j = Some x /\ read_key x = Some k.
Proof.
  induction l as [|t l IH]; [done|]. intros H. destruct (read_key t) as [k|] eqn:E; [by exists 0%nat, t, k|].
  destruct IH as (j & x & k & Hj & Hk); [|by exists (S j), x, k]. simpl in H. unfold reader in H at 1. by rewrite E in H.
Qed.

Lemma budget_run_app es1 es2 w w1 : budget_run es1 w = Some w1 -> budget_run (es1 ++ es2) w = budget_run es2 w1.
Proof.
  revert w. induction es1 as [|e es1 IH]; intros w H; cbn in *; [by injection H as ->|].
  destruct (budget_step e w); [|done]. by apply IH.
Qed.

(** A turn that waits for the lock can always go on. *)
Theorem waiting_turn_proceeds now u0 es w i k est :
  budget_run es (cold_start now u0) = Some w -> bw_tasks w !! i = Some (TWaiting k est) ->
  exists es', (length es' <= 5)%nat /\ pinned_by es' i k est w.
Proof.
  intros H Hi. assert (lock_ok w) as [Hs Hr].
  { apply (run_invariant lock_ok es (cold_start now u0) w); [apply step_lock | by split | exact H]. }
  destruct (_hydration_lock (bw_tracker w)) eqn:El.
  2: { destruct (free_lock_proceeds w i k est El Hi) as (es' & Hl & Hp). exists es'. split; [lia | done]. }
  apply task_sum_witness in Hs as (j & x & k' & Hj & Hx).
  assert (exists est' es1 w1, (length es1 <= 2)%nat /\ budget_run es1 w = Some w1 /\ bw_tasks w1 = <[j := TPinned k' est']> (bw_tasks w)
            /\ _hydration_lock (bw_tracker w1) = false) as (est' & es1 & w1 & L1 & R1 & T1 & F1).
  { destruct x; try done; injection Hx as ->.
    - exists est0, [ERead j true; EHydrated j]. eexists. split; [cbn; lia|]. cbn [budget_run budget_step].
      rewrite Hj. cbn [mbind option_bind with_task bw_tasks budget_step].
      rewrite list_lookup_insert_eq by (by eapply lookup_lt_Some). cbn. split; [done|]. cbn. split; [|done].
      by rewrite list_insert_insert_eq.
    - exists est0, [EHydrated j]. eexists. split; [cbn; lia|]. cbn. rewrite Hj. by split. }
  assert (i <> j) as Hne by (intros ->; rewrite Hi in Hj; injection Hj as <-; done).
  assert (bw_tasks w1 !! i = Some (TWaiting k est)) as Hi1 by (rewrite T1, list_lookup_insert_ne by done; exact Hi).
  destruct (free_lock_proceeds w1 i k est F1 Hi1) as (es' & Hl & w2 & R2 & H2).
  exists (es1 ++ es'). split; [rewrite length_app; lia|]. exists w2. split; [|done]. by rewrite (budget_run_app _ _ _ _ R1).
Qed.

(** ** Overlaps *)

Definition ask_turn (i : nat) : list budget_event :=
  [EAsk 0 (Some "acme"%string) "" true; ERead i true; EHydrated i; EDecide i true (BudgetRow (Some "10000"%string))].

Definition acme : budget_key := ("acme", "197001")%string.

(** A turn that used 9000 of 10000 tokens; its background flush is being written. *)
Definition flush_in_flight : list budget_event := ask_turn 0 ++ [ERecord 0 (31 * usec) 9000 0; EFlush 1 true].

(** A reconciliation that reads the row before the flush has written it forgets the
    flush's tokens: a turn is admitted although the ceiling is exceeded. *)
Theorem overlapping_reconcile_overspends :
  exists w, budget_run (flush_in_flight ++ [EReconcile true; EEvict 2 (32 * usec) true; ESweep 2 true; ERebase 2;
                          EAsk (33 * usec) (Some "acme"%string) "" true; EDecide 3 true (BudgetRow (Some "10000"%string))])
              (cold_start 0 ∅) = Some w
    /\ (exists r, bw_tasks w !! 3%nat = Some (TTurn r))
    /\ used true acme ∅ w + used false acme ∅ w + in_flight_tokens acme w = 13096.
Proof. eexists. split; [vm_compute; reflexivity|]. split; [by eexists | vm_compute; reflexivity]. Qed.

(** A flush that fails after the month has turned loses its tokens when a
    reconciliation evicted the counter in the meantime. *)
Theorem rollover_loses_usage :
  exists w, budget_run (flush_in_flight ++ [EReconcile true; EEvict 2 (40 * day_us) true; EWrite 1 false]) (cold_start 0 ∅) = Some w
    /\ row true acme (bw_usage w) + task_sum (pend true acme) (bw_tasks w) + unfl true (counter_at (bw_tracker w) acme) = 0
    /\ used true acme ∅ w = 9000.
Proof. eexists. split; [vm_compute; reflexivity|]. split; vm_compute; reflexivity. Qed.

(** ** A history that satisfies the hypotheses *)

Fixpoint serialb (es : list budget_event) (w : budget_world) : bool :=
  (negb (existsb sweeping (bw_tasks w)) || negb (existsb writing (bw_tasks w)))
  && match es with
     | [] => true
     | e :: es' => match budget_step e w with Some w' => serialb es' w' | None => true end
     end.

Lemma serialb_spec es w : serialb es w = true -> serial es w.
Proof.
  revert w. induction es as [|e es IH]; intros w H; cbn in *; apply andb_prop in H as [H1 H2]; (split;
    [unfold no_overlap; destruct (existsb sweeping (bw_tasks w)), (existsb writing (bw_tasks w)); auto |]); [done|].
  destruct (budget_step e w); [by apply IH | done].
Qed.

Definition settled_history : list budget_event :=
  flush_in_flight ++ [EWrite 1 true; EReconcile true; EEvict 2 (32 * usec) true; ESweep 2 true; ERebase 2; ESweep 2 true;
                      EAsk (33 * usec) (Some "acme"%string) "" true].

Definition settled_world : budget_world := default (cold_start 0 ∅) (budget_run settled_history (cold_start 0 ∅)).

Definition admitted_world : budget_world :=
  default settled_world (budget_step (EDecide 3 true (BudgetRow (Some "20000"%string))) settled_world).

Lemma admitted_witness :
  used true acme ∅ admitted_world + used false acme ∅ admitted_world + in_flight_tokens acme admitted_world <= 20000.
Proof.
  apply (admitted_within_ceiling 0 ∅ settled_history settled_world 3 true (BudgetRow (Some "20000"%string)) admitted_world
           {| rv_organization_id := Some "acme"; rv_period_yyyymm := "197001"; rv_est_tokens := 4096 |}%string).
  - repeat constructor.
  - apply serialb_spec. vm_compute. reflexivity.
  - vm_compute. reflexivity.
  - vm_compute. reflexivity.
  - vm_compute. reflexivity.
  - vm_compute. reflexivity.
Defined.

Lemma usage_conserved_witness :
  row true acme (bw_usage settled_world) + task_sum (pend true acme) (bw_tasks settled_world)
  + unfl true (counter_at (bw_tracker settled_world) acme) = used true acme ∅ settled_world.
Proof.
  apply (usage_conserved 0 ∅ settled_history settled_world true acme).
  - apply serialb_spec. vm_compute. reflexivity.
  - vm_compute. reflexivity.
Defined.

Lemma reservations_exact_witness :
  reserved (counter_at (bw_tracker settled_world) acme) = in_flight_tokens acme settled_world.
Proof. apply (reservations_exact 0 ∅ settled_history). vm_compute. reflexivity. Defined.

Lemma waiting_turn_witness :
  let es := [EAsk 0 (Some "acme"%string) "" true; EAsk 0 (Some "acme"%string) "" true] in
  exists es', (length es' <= 5)%nat /\ pinned_by es' 1 acme 4096 (default (cold_start 0 ∅) (budget_run es (cold_start 0 ∅))).
Proof.
  intros es. apply (waiting_turn_proceeds 0 ∅ es).
  - vm_compute. reflexivity.
  - vm_compute. reflexivity.
Defined.
