(* ===== verification/Addresses.v ===== *)
(** * IP addresses the way Python's [ipaddress] reads and prints them

    [ip_address(s)], [str(ip)], [ip_network(s, strict=False)] and [ip in net] of
    Python 3.12 for ASCII text, with the classifications [is_private],
    [is_loopback], [is_link_local] and [ipv4_mapped]. The address of a valid text
    is its number; a printed address reads back as itself ([ip_roundtrip]). *)

From S2P Require Import Prelude PyText.
From Stdlib Require Import ZArith Lia Ascii.
From stdpp Require Import base list strings.

#[local] Open Scope Z_scope.

(** ** Characters of a text *)

Definition has_char (c : ascii) (s : string) : bool :=
  existsb (Ascii.eqb c) (String.list_ascii_of_string s).

Fixpoint count_char (c : ascii) (s : string) : nat :=
  match s with
  | EmptyString => 0
  | String d s' => ((if Ascii.eqb d c then 1 else 0) + count_char c s')%nat
  end.

(** [s.partition(c)]: what comes before and, if [c] occurs, after. *)
Fixpoint py_partition (c : ascii) (s : string) : string * option string :=
  match s with
  | EmptyString => (""%string, None)
  | String d s' =>
      if Ascii.eqb d c then (""%string, Some s')
      else let '(a, b) := py_partition c s' in (String d a, b)
  end.

(** [sep.join(parts)] for a one-character separator. *)
Fixpoint join (sep : ascii) (parts : list string) : string :=
  match parts with
  | [] => ""
  | [p] => p
  | p :: ps => p +:+ String sep (join sep ps)
  end.

(** ** Numbers in a base *)

Definition digit_of (c : ascii) : Z :=
  let n := Z.of_nat (nat_of_ascii c) in
  if n <=? 57 then n - 48 else if n <=? 70 then n - 55 else n - 87.
Definition digit_char (d : Z) : ascii :=
  ascii_of_nat (Z.to_nat (if d <? 10 then 48 + d else 87 + d)).

Definition number (base : Z) (s : list ascii) : Z := fold_left (fun a c => a * base + digit_of c) s 0.

Fixpoint drop_zeros (s : list ascii) : list ascii :=
  match s with
  | c :: s' => if Ascii.eqb c "0"%char && negb (bool_decide (s' = [])) then drop_zeros s' else s
  | [] => []
  end.

(** ['%x' % h] of a 16-bit number. *)
Definition hex_text (h : Z) : string :=
  String.string_of_list_ascii
    (drop_zeros (map digit_char [h / 4096 mod 16; h / 256 mod 16; h / 16 mod 16; h mod 16])).

(** ** Addresses *)

Inductive address :=
  | IPv4 (n : Z)
  | IPv6 (n : Z) (scope : option string).

#[export] Instance address_eq_dec : EqDecision address.
Proof. solve_decision. Defined.

Definition parse_octet (s : string) : option Z :=
  let l := String.list_ascii_of_string s in
  let n := number 10 l in
  if (0 <? length l)%nat && forallb is_digit l && (length l <=? 3)%nat
     && (String.eqb s "0" || negb (String.prefix "0" s)) && (n <=? 255)
  then Some n else None.

(** [_ip_int_from_string] of an IPv4 address. *)
Definition parse_v4 (s : string) : option Z :=
  match split_on "."%char s with
  | [a; b; c; d] =>
      match parse_octet a, parse_octet b, parse_octet c, parse_octet d with
      | Some a, Some b, Some c, Some d => Some (((a * 256 + b) * 256 + c) * 256 + d)
      | _, _, _, _ => None
      end
  | _ => None
  end.

Definition parse_hextet (s : string) : option Z :=
  let l := String.list_ascii_of_string s in
  if forallb is_hex l && (length l <=? 4)%nat && (0 <? length l)%nat then Some (number 16 l) else None.

Fixpoint parse_hextets (l : list string) : option (list Z) :=
  match l with
  | [] => Some []
  | s :: l' =>
      match parse_hextet s, parse_hextets l' with Some h, Some hs => Some (h :: hs) | _, _ => None end
  end.

(** A dotted suffix becomes two hextets. *)
Definition expand_suffix (parts : list string) : option (list string) :=
  match reverse parts with
  | last :: front =>
      if has_char "."%char last
      then match parse_v4 last with
           | Some n => Some (reverse front ++ [hex_text (n / 65536 mod 65536); hex_text (n mod 65536)])
           | None => None
           end
      else Some parts
  | [] => Some parts
  end.

Definition is_empty (s : string) : bool := String.eqb s "".

(** The positions of the empty parts other than the first and the last. *)
Definition skips (parts : list string) : list nat :=
  List.filter (fun i => match parts !! i with Some p => is_empty p | None => false end)
    (seq 1 (length parts - 2)).

(** The parts before and after the [::], with the parts it stands for. *)
Definition layout (parts : list string) : option (list string * nat * list string) :=
  let first := match parts with p :: _ => is_empty p | [] => true end in
  let last := match reverse parts with p :: _ => is_empty p | [] => true end in
  match skips parts with
  | [i] =>
      let hi := take i parts in
      let lo := drop (S i) parts in
      let hi := if first then (if (length hi =? 1)%nat then Some [] else None) else Some hi in
      let lo := if last then (if (length lo =? 1)%nat then Some [] else None) else Some lo in
      match hi, lo with
      | Some hi, Some lo =>
          if (length hi + length lo <? 8)%nat then Some (hi, (8 - (length hi + length lo))%nat, lo) else None
      | _, _ => None
      end
  | [] => if (length parts =? 8)%nat && negb first && negb last then Some (parts, 0%nat, []) else None
  | _ => None
  end.

Definition combine_hextets (hs : list Z) : Z := fold_left (fun a h => a * 65536 + h) hs 0.

Definition parse_parts (parts : list string) : option Z :=
  match layout parts with
  | Some (hi, n, lo) =>
      match parse_hextets hi, parse_hextets lo with
      | Some hi, Some lo => Some (combine_hextets (hi ++ repeat 0 n ++ lo))
      | _, _ => None
      end
  | None => None
  end.

(** [_ip_int_from_string] of an IPv6 address. *)
Definition parse_v6 (s : string) : option Z :=
  let parts := split_on ":"%char s in
  if (length parts <? 3)%nat then None
  else match expand_suffix parts with
       | Some parts => if (9 <? length parts)%nat then None else parse_parts parts
       | None => None
       end.

(** [IPv4Address(s)], [IPv6Address(s)], and [ip_address(s)], which tries them in
    this order. *)
Definition v4_address (s : string) : option Z := if has_char "/"%char s then None else parse_v4 s.
Definition v6_address (s : string) : option (Z * option string) :=
  if has_char "/"%char s then None
  else let '(a, scope) := py_partition "%"%char s in
       if match scope with Some sc => is_empty sc || has_char "%"%char sc | None => false end then None
       else match parse_v6 a with Some n => Some (n, scope) | None => None end.
Definition ip_address (s : string) : option address :=
  match v4_address s with
  | Some n => Some (IPv4 n)
  | None => match v6_address s with Some (n, sc) => Some (IPv6 n sc) | None => None end
  end.

(** ** Printing *)

Definition octets (n : Z) : list Z := [n / 16777216; n / 65536 mod 256; n / 256 mod 256; n mod 256].
Definition print_v4 (n : Z) : string := join "."%char (map py_str_int (octets n)).

Fixpoint hextets (k : nat) (n : Z) : list Z :=
  match k with O => [] | S k' => hextets k' (n / 65536) ++ [n mod 65536] end.

(** The loop of [_compress_hextets]: the longest run of zero parts, the first of
    the longest, as (start, length). *)
Fixpoint zero_run (i best_start best_len start len : nat) (zs : list bool) : nat * nat :=
  match zs with
  | [] => (best_start, best_len)
  | true :: zs' =>
      let start := if (len =? 0)%nat then i else start in
      let len := S len in
      if (best_len <? len)%nat then zero_run (S i) start len start len zs'
      else zero_run (S i) best_start best_len start len zs'
  | false :: zs' => zero_run (S i) best_start best_len 0 0 zs'
  end.

Definition compress (parts : list string) : list string :=
  let '(start, len) := zero_run 0 0 0 0 0 (map (fun p => String.eqb p "0") parts) in
  if (1 <? len)%nat then
    (if (start =? 0)%nat then [""%string] else []) ++ take start parts ++ [""%string]
    ++ drop (start + len) parts ++ (if (start + len =? length parts)%nat then [""%string] else [])
  else parts.

Definition print_v6 (n : Z) : string := join ":"%char (compress (map hex_text (hextets 8 n))).

Definition str_address (a : address) : string :=
  match a with
  | IPv4 n => print_v4 n
  | IPv6 n None => print_v6 n
  | IPv6 n (Some sc) => print_v6 n +:+ String "%"%char sc
  end.

(** ** Networks *)

Record network := { net_v6 : bool; net_prefix : Z; net_base : Z }.

Definition width (v6 : bool) : Z := if v6 then 128 else 32.
Definition netmask (v6 : bool) (prefix : Z) : Z := 2 ^ width v6 - 2 ^ (width v6 - prefix).

Definition mk_network (v6 : bool) (n prefix : Z) : network :=
  {| net_v6 := v6; net_prefix := prefix; net_base := Z.land n (netmask v6 prefix) |}.

(** [_prefix_from_prefix_string]. *)
Definition prefix_number (v6 : bool) (s : string) : option Z :=
  let l := String.list_ascii_of_string s in
  let n := number 10 l in
  if (0 <? length l)%nat && forallb is_digit l && (n <=? width v6) then Some n else None.

(** [_prefix_from_ip_string]: an IPv4 netmask, or else a hostmask. *)
Definition prefix_of_mask (n : Z) : option Z :=
  List.find (fun p => Z.eqb (netmask false p) n) (map Z.of_nat (seq 0 33)).
Definition prefix_from_ip_string (s : string) : option Z :=
  match parse_v4 s with
  | Some n =>
      match prefix_of_mask n with Some p => Some p | None => prefix_of_mask (Z.lxor n (2 ^ 32 - 1)) end
  | None => None
  end.

Definition v4_prefix (mask : option string) : option Z :=
  match mask with
  | None => Some 32
  | Some m => match prefix_number false m with Some p => Some p | None => prefix_from_ip_string m end
  end.
Definition v6_prefix (mask : option string) : option Z :=
  match mask with None => Some 128 | Some m => prefix_number true m end.

(** [ip_network(s, strict=False)]. *)
Definition ip_network (s : string) : option network :=
  let split := match split_on "/"%char s with
               | [a] => Some (a, None)
               | [a; m] => Some (a, Some m)
               | _ => None
               end in
  match split with
  | None => None
  | Some (a, m) =>
      match v4_address a, v4_prefix m with
      | Some n, Some p => Some (mk_network false n p)
      | _, _ =>
          match v6_address a, v6_prefix m with
          | Some (n, _), Some p => Some (mk_network true n p)
          | _, _ => None
          end
      end
  end.

Definition is_v6 (a : address) : bool := match a with IPv4 _ => false | IPv6 _ _ => true end.
Definition ip_int (a : address) : Z := match a with IPv4 n => n | IPv6 n _ => n end.

(** [ip in net]: false when the versions differ. *)
Definition in_network (a : address) (net : network) : bool :=
  Bool.eqb (is_v6 a) (net_v6 net) && (Z.land (ip_int a) (netmask (net_v6 net) (net_prefix net)) =? net_base net).

(** ** Classifications *)

Definition net4 (a b c d prefix : Z) : network :=
  mk_network false (((a * 256 + b) * 256 + c) * 256 + d) prefix.
(** A prefix of 16-bit groups, followed by zeros. *)
Definition net6 (groups : list Z) (prefix : Z) : network :=
  mk_network true (combine_hextets (groups ++ repeat 0 (8 - length groups))) prefix.

Definition private_v4 : list network :=
  [net4 0 0 0 0 8; net4 10 0 0 0 8; net4 127 0 0 0 8; net4 169 254 0 0 16; net4 172 16 0 0 12;
   net4 192 0 0 0 24; net4 192 0 0 170 31; net4 192 0 2 0 24; net4 192 168 0 0 16; net4 198 18 0 0 15;
   net4 198 51 100 0 24; net4 203 0 113 0 24; net4 240 0 0 0 4; net4 255 255 255 255 32].
Definition public_v4 : list network := [net4 192 0 0 9 32; net4 192 0 0 10 32].
Definition private_v6 : list network :=
  [net6 [0;0;0;0;0;0;0;1] 128; net6 [] 128; net6 [0;0;0;0;0;65535] 96; net6 [0x64; 0xff9b; 1] 48;
   net6 [0x100] 64; net6 [0x2001] 23; net6 [0x2001; 0xdb8] 32; net6 [0x2002] 16; net6 [0xfc00] 7;
   net6 [0xfe80] 10].
Definition public_v6 : list network :=
  [net6 [0x2001; 1; 0; 0; 0; 0; 0; 1] 128; net6 [0x2001; 1; 0; 0; 0; 0; 0; 2] 128; net6 [0x2001; 3] 32;
   net6 [0x2001; 4; 0x112] 48; net6 [0x2001; 0x20] 28; net6 [0x2001; 0x30] 28].

Definition ipv4_mapped (a : address) : option address :=
  match a with
  | IPv6 n _ => if n / 2 ^ 32 =? 65535 then Some (IPv4 (n mod 2 ^ 32)) else None
  | IPv4 _ => None
  end.

Definition private_plain (a : address) : bool :=
  let '(inside, except) := if is_v6 a then (private_v6, public_v6) else (private_v4, public_v4) in
  existsb (in_network a) inside && negb (existsb (in_network a) except).
Definition is_private (a : address) : bool :=
  match ipv4_mapped a with Some b => private_plain b | None => private_plain a end.

Definition is_loopback (a : address) : bool :=
  match a with IPv4 _ => in_network a (net4 127 0 0 0 8) | IPv6 n _ => n =? 1 end.
Definition is_link_local (a : address) : bool :=
  if is_v6 a then in_network a (net6 [0xfe80] 10) else in_network a (net4 169 254 0 0 16).

(** ** A printed address reads back *)

(** Linear arithmetic with quotients and remainders by constants. *)
Ltac divlia := Z.div_mod_to_equations; lia.

Lemma has_char_spec c s : has_char c s = true <-> c ∈ String.list_ascii_of_string s.
Proof.
  unfold has_char. rewrite existsb_exists, list_elem_of_In. setoid_rewrite Ascii.eqb_eq.
  split; [by intros (d & H & ->)|by exists c].
Qed.

Lemma has_char_false c s : has_char c s = false <-> c ∉ String.list_ascii_of_string s.
Proof. rewrite <- has_char_spec. by destruct (has_char c s). Qed.

Lemma list_ascii_snoc s t c :
  String.list_ascii_of_string (s +:+ String c t)
  = String.list_ascii_of_string s ++ c :: String.list_ascii_of_string t.
Proof. apply list_ascii_app. Qed.

Lemma join_chars sep parts c :
  c ∈ String.list_ascii_of_string (join sep parts) ->
  c = sep \/ exists p, p ∈ parts /\ c ∈ String.list_ascii_of_string p.
Proof.
  induction parts as [|p ps IH]; [by intros []%not_elem_of_nil|]. destruct ps as [|q ps].
  - intros H. right. exists p. split; [left|done].
  - cbn [join]. rewrite list_ascii_snoc, elem_of_app, elem_of_cons. intros [H|[->|H]]; [|by left|].
    + right. exists p. split; [left|done].
    + apply IH in H as [->|(r & H1 & H2)]; [by left|]. right. exists r. split; [by right|done].
Qed.

Lemma split_join sep parts :
  parts <> [] -> (forall p, p ∈ parts -> sep ∉ String.list_ascii_of_string p) ->
  split_on sep (join sep parts) = parts.
Proof.
  induction parts as [|p ps IH]; [done|]. intros _ H. destruct ps as [|q ps].
  - apply split_on_none, H. left.
  - cbn [join]. rewrite split_on_app by (apply H; left). f_equal.
    apply IH; [done|]. intros r Hr. apply H. by right.
Qed.

Lemma octet_roundtrip k : 0 <= k < 256 -> parse_octet (py_str_int k) = Some k.
Proof.
  intros H.
  assert (C : forallb (fun n => bool_decide (parse_octet (py_str_int (Z.of_nat n)) = Some (Z.of_nat n)))
                (seq 0 256) = true) by (vm_compute; reflexivity).
  rewrite forallb_forall in C. specialize (C (Z.to_nat k)). rewrite Z2Nat.id, in_seq in C by lia.
  apply bool_decide_eq_true_1 in C; [done|lia].
Qed.

Lemma octets_range n k : 0 <= n < 2 ^ 32 -> k ∈ octets n -> 0 <= k < 256.
Proof.
  intros H Hk. unfold octets in Hk. rewrite !elem_of_cons in Hk.
  destruct Hk as [->|[->|[->|[->|[]%not_elem_of_nil]]]]; divlia.
Qed.

Lemma print_v4_chars n c :
  0 <= n < 2 ^ 32 -> c ∈ String.list_ascii_of_string (print_v4 n) -> is_digit c = true \/ c = "."%char.
Proof.
  intros H Hc. apply join_chars in Hc as [->|(p & Hp & Hc)]; [by right|]. left.
  apply list_elem_of_fmap in Hp as (k & -> & Hk). apply octets_range in Hk; [|done].
  pose proof (octet_roundtrip k Hk) as R. unfold parse_octet in R. cbv zeta in R. case_match eqn:E; [|done].
  apply andb_prop in E as [E _]. apply andb_prop in E as [E _]. apply andb_prop in E as [E _].
  apply andb_prop in E as [_ E]. rewrite forallb_forall in E. by apply E, list_elem_of_In.
Qed.

Lemma v4_roundtrip n : 0 <= n < 2 ^ 32 -> parse_v4 (print_v4 n) = Some n.
Proof.
  intros H. unfold parse_v4, print_v4. rewrite split_join; [|done|].
  - cbn [map octets]. rewrite !octet_roundtrip by divlia. f_equal. divlia.
  - intros p (k & -> & Hk)%list_elem_of_fmap. intros Hc. apply int_chars in Hc. by vm_compute in Hc.
Qed.

(** *** Hextets *)

Lemma digit_char_facts d :
  0 <= d < 16 -> digit_of (digit_char d) = d /\ is_hex (digit_char d) = true.
Proof.
  intros H.
  assert (C : forallb (fun n => bool_decide (digit_of (digit_char (Z.of_nat n)) = Z.of_nat n)
                                && is_hex (digit_char (Z.of_nat n))) (seq 0 16) = true)
    by (vm_compute; reflexivity).
  rewrite forallb_forall in C. specialize (C (Z.to_nat d)). rewrite Z2Nat.id, in_seq in C by lia.
  apply andb_prop in C as [C1 C2]; [|lia]. by apply bool_decide_eq_true_1 in C1.
Qed.

Lemma drop_zeros_spec l :
  l <> [] ->
  drop_zeros l <> [] /\ (length (drop_zeros l) <= length l)%nat /\ number 16 (drop_zeros l) = number 16 l
  /\ (forall f, forallb f l = true -> forallb f (drop_zeros l) = true).
Proof.
  induction l as [|c l IH]; [done|]. intros _. cbn [drop_zeros].
  destruct (Ascii.eqb_spec c "0"%char) as [->|_]; cbn [andb]; [|split_and!; [done|lia|done|done]].
  case_bool_decide as E; cbn [negb]; [split_and!; [done|lia|done|done]|].
  destruct (IH E) as (H1 & H2 & H3 & H4). split_and!; [done|simpl; lia|by rewrite H3|].
  intros f Hf. cbn in Hf. apply andb_prop in Hf as [_ Hf]. by apply H4.
Qed.

Lemma hextet_roundtrip h : 0 <= h < 65536 -> parse_hextet (hex_text h) = Some h.
Proof.
  intros H. unfold parse_hextet, hex_text. rewrite String.list_ascii_of_string_of_list_ascii.
  set (ds := [h / 4096 mod 16; h / 256 mod 16; h / 16 mod 16; h mod 16]).
  assert (R : forall d, d ∈ ds -> 0 <= d < 16).
  { intros d Hd. unfold ds in Hd. rewrite !elem_of_cons in Hd.
    destruct Hd as [->|[->|[->|[->|[]%not_elem_of_nil]]]]; divlia. }
  destruct (drop_zeros_spec (map digit_char ds)) as (N & L & V & F); [done|].
  rewrite F; [|apply forallb_forall; intros c Hc; apply in_map_iff in Hc as (d & <- & Hd);
               apply digit_char_facts, R, list_elem_of_In, Hd].
  destruct (drop_zeros (map digit_char ds)) as [|c l] eqn:E; [done|].
  assert (Hl : (length (c :: l) <=? 4)%nat = true) by (apply Nat.leb_le; exact L).
  rewrite Hl, V. cbn [andb length Nat.ltb Nat.leb]. f_equal.
  unfold ds, number. cbn [map fold_left].
  rewrite !(fun d (Hd : 0 <= d < 16) => proj1 (digit_char_facts d Hd)) by (apply R; unfold ds; rewrite !elem_of_cons; tauto).
  divlia.
Qed.

Lemma hex_text_zero h : 0 <= h < 65536 -> (hex_text h = "0"%string <-> h = 0).
Proof.
  intros H. split; [|by intros ->]. intros E. pose proof (hextet_roundtrip h H) as R. rewrite E in R.
  by injection R as <-.
Qed.

Lemma hex_text_chars h c : 0 <= h < 65536 -> c ∈ String.list_ascii_of_string (hex_text h) -> is_hex c = true.
Proof.
  intros H Hc. pose proof (hextet_roundtrip h H) as R. unfold parse_hextet in R. cbv zeta in R. case_match eqn:E; [|done].
  apply andb_prop in E as [E _]. apply andb_prop in E as [E _].
  rewrite forallb_forall in E. by apply E, list_elem_of_In.
Qed.

Lemma hex_text_nonempty h : 0 <= h < 65536 -> is_empty (hex_text h) = false.
Proof.
  intros H. unfold is_empty. apply String.eqb_neq. intros E. pose proof (hextet_roundtrip h H) as R.
  by rewrite E in R.
Qed.

Lemma hextets_length k n : length (hextets k n) = k.
Proof. revert n. induction k as [|k IH]; intros n; [done|]. cbn. rewrite length_app, IH. cbn. lia. Qed.

Lemma hextets_range k n h : h ∈ hextets k n -> 0 <= h < 65536.
Proof.
  revert n. induction k as [|k IH]; intros n; [by intros []%not_elem_of_nil|]. cbn.
  rewrite elem_of_app, list_elem_of_singleton. intros [H| ->]; [by eapply IH|]. divlia.
Qed.

Lemma combine_hextets_id k n : 0 <= n < 65536 ^ Z.of_nat k -> combine_hextets (hextets k n) = n.
Proof.
  revert n. induction k as [|k IH]; intros n H; [cbn in *; lia|].
  rewrite Nat2Z.inj_succ, Z.pow_succ_r in H by lia. cbn. unfold combine_hextets in *.
  rewrite fold_left_app. cbn [fold_left]. rewrite IH by divlia. divlia.
Qed.

Lemma parse_hextets_map hs :
  (forall h, h ∈ hs -> 0 <= h < 65536) -> parse_hextets (map hex_text hs) = Some hs.
Proof.
  induction hs as [|h hs IH]; intros H; [done|]. cbn [map parse_hextets]. rewrite hextet_roundtrip by (apply H; left).
  by rewrite IH by (intros h' Hh; apply H; by right).
Qed.

(** *** The [::] of a printed address *)

(** The run the loop returns is made of zero parts. *)
Definition run_ok (zs : list bool) : bool :=
  let '(s, n) := zero_run 0 0 0 0 0 zs in
  (n <=? 1)%nat || ((s + n <=? 8)%nat && forallb id (take n (drop s zs))).

Lemma zero_run_ok zs : length zs = 8%nat -> run_ok zs = true.
Proof.
  intros H.
  do 8 (destruct zs as [|b zs]; [done|]; destruct b). all: destruct zs as [|z zs]; [reflexivity|done].
Qed.

(** The parts of an address with a [::] between [hi] and [lo]. *)
Definition fill (l : list string) : list string := if bool_decide (l = []) then [""%string] else l.
Definition with_gap (hi lo : list string) : list string := fill hi ++ [""%string] ++ fill lo.

Section layout.
Context (hi lo : list string).
Context (Hhi : forall p, p ∈ hi -> is_empty p = false) (Hlo : forall p, p ∈ lo -> is_empty p = false).

Lemma fill_length l : (1 <= length (fill l))%nat.
Proof. unfold fill. case_bool_decide; [done|]. destruct l; [done|]. simpl. lia. Qed.

Lemma fill_inner l i p :
  (forall q, q ∈ l -> is_empty q = false) -> fill l !! i = Some p -> (0 < i \/ S i < length (fill l))%nat ->
  is_empty p = false.
Proof.
  intros Hl. unfold fill. case_bool_decide as E.
  - destruct i as [|i]; [|done]. simpl. lia.
  - intros Hp _. by apply Hl, list_elem_of_lookup_2 with i.
Qed.

Lemma skips_gap : skips (with_gap hi lo) = [length (fill hi)].
Proof using Hhi Hlo.
  unfold skips, with_gap. pose proof (fill_length hi) as La. pose proof (fill_length lo) as Lb.
  set (a := length (fill hi)) in *. set (b := length (fill lo)) in *.
  rewrite !length_app. cbn [length]. fold a b.
  replace (a + (1 + b) - 2)%nat with ((a - 1) + (1 + (b - 1)))%nat by lia.
  rewrite !seq_app, !List.filter_app. cbn [seq].
  rewrite (filter_none _ (seq 1 (a - 1))), (filter_none _ (seq _ (b - 1))).
  - replace (1 + (a - 1))%nat with a by lia. cbn [List.filter app].
    by rewrite lookup_app_r, Nat.sub_diag by done.
  - intros i Hi. apply elem_of_seq in Hi. rewrite lookup_app_r by (fold a; lia). fold a.
    destruct (i - a)%nat as [|j] eqn:Ej; [lia|]. cbn.
    destruct (fill lo !! j) as [p|] eqn:Hp; [|done].
    apply (fill_inner lo j p); [done..|]. fold b. lia.
  - intros i Hi. apply elem_of_seq in Hi. rewrite lookup_app_l by (fold a; lia).
    destruct (fill hi !! i) as [p|] eqn:Hp; [|done]. apply (fill_inner hi i p); [done..|]. lia.
Qed.

Lemma layout_gap :
  (length hi + length lo < 8)%nat ->
  layout (with_gap hi lo) = Some (hi, (8 - (length hi + length lo))%nat, lo).
Proof using Hhi Hlo.
  intros H. unfold layout. rewrite skips_gap.
  unfold with_gap. rewrite take_app_length.
  replace (S (length (fill hi))) with (length (fill hi ++ [""%string])) by (rewrite length_app; cbn; lia).
  rewrite app_assoc, drop_app_length, <- app_assoc.
  assert (F : match fill hi ++ [""%string] ++ fill lo with p :: _ => is_empty p | [] => true end
              = bool_decide (hi = [])).
  { unfold fill at 1. case_bool_decide as E; [done|]. destruct hi as [|p hi']; [done|]. cbn. apply Hhi. left. }
  assert (L : match reverse (fill hi ++ [""%string] ++ fill lo) with p :: _ => is_empty p | [] => true end
              = bool_decide (lo = [])).
  { rewrite !reverse_app. unfold fill at 1. destruct (bool_decide_reflect (lo = [])) as [E|E]; [done|].
    destruct (exists_last E) as (lo' & p & El). rewrite El, reverse_snoc. cbn. apply Hlo.
    rewrite El, elem_of_app, list_elem_of_singleton. by right. }
  rewrite F, L. clear F L. unfold fill.
  destruct (bool_decide_reflect (hi = [])) as [Ehi|_], (bool_decide_reflect (lo = [])) as [Elo|_];
    rewrite ?Ehi, ?Elo in *; cbn [length Nat.eqb] in *;
    match goal with |- context [(?n <? 8)%nat] => destruct (Nat.ltb_spec n 8); [done|lia] end.
Qed.
End layout.

Definition hextet_list (hs : list Z) : Prop := forall h, h ∈ hs -> 0 <= h < 65536.

Lemma hex_parts_nonempty hs p : hextet_list hs -> p ∈ map hex_text hs -> is_empty p = false.
Proof. intros H (h & -> & Hh)%list_elem_of_fmap. by apply hex_text_nonempty, H. Qed.

Lemma layout_full hs :
  hextet_list hs -> length hs = 8%nat -> layout (map hex_text hs) = Some (map hex_text hs, 0%nat, []).
Proof.
  intros R L. set (ps := map hex_text hs).
  assert (N : forall p, p ∈ ps -> is_empty p = false) by (intros p; apply (hex_parts_nonempty hs p R)).
  assert (Lp : length ps = 8%nat) by (unfold ps; by rewrite length_map).
  assert (S : skips ps = []).
  { apply filter_none. intros i _. destruct (ps !! i) as [p|] eqn:E; [|done].
    by apply N, list_elem_of_lookup_2 with i. }
  unfold layout. rewrite S, Lp. destruct ps as [|p ps'] eqn:E; [done|].
  rewrite (N p) by left. destruct (reverse (p :: ps')) as [|q qs] eqn:Eq.
  - apply (f_equal length) in Eq. by rewrite length_reverse, Lp in Eq.
  - rewrite (N q); [done|]. apply elem_of_reverse. rewrite Eq. left.
Qed.

Lemma zeros_of hs n s :
  hextet_list hs ->
  forallb id (take n (drop s (map (fun p => String.eqb p "0") (map hex_text hs)))) = true ->
  take n (drop s hs) = repeat 0 (length (take n (drop s hs))).
Proof.
  intros R. rewrite map_map. change (map ?f ?l) with (f <$> l). rewrite <- fmap_drop, <- fmap_take.
  assert (R' : hextet_list (take n (drop s hs))) by (intros h Hh; by apply R, elem_of_sub with s n).
  revert R'. generalize (take n (drop s hs)). clear.
  induction l as [|h l IH]; intros R; [done|]. cbn. intros [E1 E2]%andb_prop.
  apply String.eqb_eq in E1. apply hex_text_zero in E1; [|apply R; left]. rewrite E1. f_equal.
  apply IH; [|done]. intros x Hx. apply R. by right.
Qed.

Lemma compress_cases hs :
  hextet_list hs -> length hs = 8%nat ->
  compress (map hex_text hs) = map hex_text hs
  \/ exists hi n lo, hs = hi ++ repeat 0 n ++ lo /\ (0 < n)%nat /\
       compress (map hex_text hs) = with_gap (map hex_text hi) (map hex_text lo).
Proof.
  intros R L. set (zs := map (fun p => String.eqb p "0") (map hex_text hs)).
  assert (Z8 : length zs = 8%nat) by (unfold zs; by rewrite !length_map).
  pose proof (zero_run_ok zs Z8) as H. unfold run_ok in H. unfold compress. fold zs.
  destruct (zero_run 0 0 0 0 0 zs) as [s n] eqn:E.
  destruct (Nat.ltb_spec 1 n) as [Hn|_]; [|by left].
  destruct (Nat.leb_spec n 1) as [?|_]; [lia|]. cbn [orb] in H. apply andb_prop in H as [H1 H2].
  apply Nat.leb_le in H1. apply (zeros_of hs n s R) in H2.
  right. exists (take s hs), n, (drop (s + n) hs).
  assert (Ln : length (take n (drop s hs)) = n) by (rewrite length_take, length_drop; lia).
  rewrite Ln in H2. split_and!; [|lia|].
  - rewrite <- H2, <- (drop_drop hs n s). by rewrite !take_drop.
  - change (map ?f ?l) with (f <$> l). rewrite fmap_take, fmap_drop, length_fmap, L.
    unfold with_gap, fill. rewrite app_assoc. f_equal; [|f_equal].
    + destruct (Nat.eqb_spec s 0) as [->|Hs]; [done|]. cbn [app].
      rewrite bool_decide_eq_false_2; [done|]. destruct hs; [done|]. by destruct s.
    + destruct (Nat.eqb_spec (s + n) 8) as [Es|Es].
      * rewrite drop_ge by (rewrite length_fmap; lia). done.
      * rewrite bool_decide_eq_false_2, app_nil_r; [done|]. intros C%(f_equal length).
        rewrite length_drop, length_fmap in C. cbn in C. lia.
Qed.

Section print_v6.
Context (n : Z) (Hn : 0 <= n < 2 ^ 128).

Lemma v6_hextets : hextet_list (hextets 8 n) /\ combine_hextets (hextets 8 n) = n.
Proof using Hn. split; [intros h; apply hextets_range|]. by apply combine_hextets_id. Qed.

Definition v6_parts : list string := compress (map hex_text (hextets 8 n)).

Lemma v6_parts_parse : parse_parts v6_parts = Some n.
Proof using Hn.
  destruct v6_hextets as [R C]. unfold parse_parts, v6_parts.
  destruct (compress_cases _ R (hextets_length 8 n)) as [E|(hi & k & lo & E & Hk & Ec)].
  - rewrite E, layout_full by (done || apply hextets_length). rewrite parse_hextets_map by done.
    cbn [parse_hextets repeat app]. by rewrite app_nil_r, C.
  - assert (Hh : hextet_list hi) by (intros h Hh; apply R; rewrite E; apply elem_of_app; by left).
    assert (Hl : hextet_list lo) by (intros h Hl; apply R; rewrite E, !elem_of_app; right; by right).
    assert (L : (length hi + k + length lo = 8)%nat)
      by (rewrite <- (hextets_length 8 n), E, !length_app, repeat_length; lia).
    rewrite Ec, layout_gap by
      (try (intros p; by apply hex_parts_nonempty); rewrite !length_map; lia).
    rewrite !parse_hextets_map by done. rewrite !length_map.
    replace (8 - (length hi + length lo))%nat with k by lia. by rewrite <- E, C.
Qed.

Lemma v6_parts_shape :
  (3 <= length v6_parts <= 9)%nat
  /\ forall p c, p ∈ v6_parts -> c ∈ String.list_ascii_of_string p -> is_hex c = true.
Proof using Hn.
  destruct v6_hextets as [R _]. unfold v6_parts.
  assert (X : forall hs p c, hextet_list hs -> p ∈ map hex_text hs -> c ∈ String.list_ascii_of_string p ->
                             is_hex c = true).
  { intros hs p c Hhs (h & -> & Hh)%list_elem_of_fmap. by apply hex_text_chars, Hhs. }
  assert (F : forall hs p c, hextet_list hs -> p ∈ fill (map hex_text hs) ->
                             c ∈ String.list_ascii_of_string p -> is_hex c = true).
  { intros hs p c Hhs. unfold fill. case_bool_decide; [|by apply X].
    rewrite list_elem_of_singleton. intros ->. by intros []%not_elem_of_nil. }
  destruct (compress_cases _ R (hextets_length 8 n)) as [E|(hi & k & lo & E & Hk & Ec)].
  - rewrite E. split; [rewrite length_map, hextets_length; lia|]. intros p c. by apply X.
  - assert (Hh : hextet_list hi) by (intros h Hh; apply R; rewrite E; apply elem_of_app; by left).
    assert (Hl : hextet_list lo) by (intros h Hl; apply R; rewrite E, !elem_of_app; right; by right).
    assert (L : (length hi + k + length lo = 8)%nat)
      by (rewrite <- (hextets_length 8 n), E, !length_app, repeat_length; lia).
    rewrite Ec. unfold with_gap. split.
    + rewrite !length_app. pose proof (fill_length (map hex_text hi)). pose proof (fill_length (map hex_text lo)).
      cbn [length]. unfold fill in *. do 2 case_bool_decide; cbn [length] in *; rewrite ?length_map in *; lia.
    + intros p c. rewrite !elem_of_app, list_elem_of_singleton. intros [H|[->|H]] Hc; [by apply (F hi p)| |by apply (F lo p)].
      by apply not_elem_of_nil in Hc.
Qed.

Lemma v6_chars c : c ∈ String.list_ascii_of_string (print_v6 n) -> is_hex c = true \/ c = ":"%char.
Proof using Hn.
  intros [->|(p & Hp & Hc)]%join_chars; [by right|]. left. by apply (proj2 v6_parts_shape p).
Qed.

Lemma v6_roundtrip : parse_v6 (print_v6 n) = Some n.
Proof using Hn.
  destruct v6_parts_shape as [L X]. unfold parse_v6, print_v6. fold v6_parts.
  rewrite split_join.
  - destruct (Nat.ltb_spec (length v6_parts) 3) as [?|_]; [lia|].
    assert (E : expand_suffix v6_parts = Some v6_parts).
    { unfold expand_suffix. destruct (reverse v6_parts) as [|p ps] eqn:E; [done|].
      replace (has_char "."%char p) with false; [done|]. symmetry. apply has_char_false. intros Hc.
      by apply (X p) in Hc; [|apply elem_of_reverse; rewrite E; left]. }
    rewrite E. destruct (Nat.ltb_spec 9 (length v6_parts)) as [?|_]; [lia|]. apply v6_parts_parse.
  - destruct v6_parts; [simpl in L; lia|done].
  - intros p Hp Hc. by apply (X p) in Hc.
Qed.

Lemma v6_colon : ":"%char ∈ String.list_ascii_of_string (print_v6 n).
Proof using Hn.
  unfold print_v6. fold v6_parts. destruct v6_parts_shape as [L _].
  destruct v6_parts as [|p [|q ps]]; [simpl in L; lia..|]. cbn [join].
  rewrite list_ascii_snoc, elem_of_app. right. left.
Qed.
End print_v6.

Lemma split_on_chars sep s c :
  c ∈ String.list_ascii_of_string s ->
  c = sep \/ exists p, p ∈ split_on sep s /\ c ∈ String.list_ascii_of_string p.
Proof.
  induction s as [|d s IH]; [by intros []%not_elem_of_nil|]. cbn [String.list_ascii_of_string split_on].
  rewrite elem_of_cons. intros H. destruct (Ascii.eqb_spec d sep) as [->|Hd].
  - destruct H as [->|H]; [by left|]. apply IH in H as [->|(p & Hp & Hc)]; [by left|].
    right. exists p. split; [by right|done].
  - destruct (split_on sep s) as [|w ws] eqn:E.
    + destruct H as [->|H]; [right; exists (String d ""); split; left|].
      apply IH in H as [->|(p & Hp & Hc)]; [by left|]. by apply not_elem_of_nil in Hp.
    + destruct H as [->|H]; [right; exists (String d w); split; left|].
      apply IH in H as [->|(p & Hp & Hc)]; [by left|]. right. apply elem_of_cons in Hp as [->|Hp].
      * exists (String d w). split; [left|by right].
      * exists p. split; [by right|done].
Qed.

Lemma parse_octet_digits s k c : parse_octet s = Some k -> c ∈ String.list_ascii_of_string s -> is_digit c = true.
Proof.
  unfold parse_octet. cbv zeta. case_match eqn:E; [|done]. intros _.
  apply andb_prop in E as [E _]. apply andb_prop in E as [E _]. apply andb_prop in E as [E _].
  apply andb_prop in E as [_ E]. rewrite forallb_forall in E. intros H. by apply E, list_elem_of_In.
Qed.

Lemma parse_v4_chars s n c :
  parse_v4 s = Some n -> c ∈ String.list_ascii_of_string s -> is_digit c = true \/ c = "."%char.
Proof.
  intros H Hc. apply (split_on_chars "."%char) in Hc as [->|(p & Hp & Hc)]; [by right|]. left.
  unfold parse_v4 in H. destruct (split_on "."%char s) as [|a1 [|a2 [|a3 [|a4 [|]]]]]; try done.
  destruct (parse_octet a1) eqn:E1, (parse_octet a2) eqn:E2, (parse_octet a3) eqn:E3, (parse_octet a4) eqn:E4;
    try done.
  rewrite !elem_of_cons in Hp. destruct Hp as [->|[->|[->|[->|[]%not_elem_of_nil]]]]; eauto using parse_octet_digits.
Qed.

Lemma py_partition_none c s : c ∉ String.list_ascii_of_string s -> py_partition c s = (s, None).
Proof.
  induction s as [|d s IH]; [done|]. cbn. intros [H1 H2]%not_elem_of_cons.
  destruct (Ascii.eqb_spec d c) as [->|_]; [done|]. by rewrite IH.
Qed.

Lemma py_partition_app c s t : c ∉ String.list_ascii_of_string s -> py_partition c (s +:+ String c t) = (s, Some t).
Proof.
  induction s as [|d s IH]; intros H.
  - change (py_partition c (String c t) = (""%string, Some t)). cbn. by rewrite Ascii.eqb_refl.
  - cbn in H. apply not_elem_of_cons in H as [H1 H2].
    change (py_partition c (String d (s +:+ String c t)) = (String d s, Some t)). cbn [py_partition].
    destruct (Ascii.eqb_spec d c) as [->|_]; [done|]. by rewrite IH.
Qed.

(** An address in range; a scope id as [ip_address] accepts it. *)
Definition address_wf (a : address) : Prop :=
  match a with
  | IPv4 n => 0 <= n < 2 ^ 32
  | IPv6 n sc =>
      0 <= n < 2 ^ 128 /\
      match sc with Some s => is_empty s = false /\ has_char "%"%char s = false /\ has_char "/"%char s = false
                  | None => True end
  end.

Lemma v6_address_print n sc :
  address_wf (IPv6 n sc) -> v6_address (str_address (IPv6 n sc)) = Some (n, sc).
Proof.
  intros [Hn Hs]. unfold v6_address.
  assert (X : forall c, is_hex c = false -> c <> ":"%char -> c ∉ String.list_ascii_of_string (print_v6 n)).
  { intros c E1 E2 H. apply v6_chars in H as [H|H]; [congruence|done|done]. }
  destruct sc as [s|]; cbn [str_address].
  - destruct Hs as (S1 & S2 & S3).
    replace (has_char "/"%char _) with false.
    + rewrite py_partition_app by by apply X. rewrite S1, S2. cbn. by rewrite v6_roundtrip.
    + symmetry. apply has_char_false. rewrite list_ascii_snoc, elem_of_app, elem_of_cons.
      intros [H|[H|H]]; [by apply X in H|done|by apply has_char_false in S3].
  - replace (has_char "/"%char _) with false; [|symmetry; apply has_char_false; by apply X].
    rewrite py_partition_none by by apply X. by rewrite v6_roundtrip.
Qed.

(** [ip_address(str(a))] is [a]. *)
Lemma ip_roundtrip a : address_wf a -> ip_address (str_address a) = Some a.
Proof.
  intros H. unfold ip_address, v4_address. destruct a as [n|n sc].
  - cbn [str_address]. replace (has_char "/"%char _) with false; [by rewrite v4_roundtrip|].
    symmetry. apply has_char_false. intros C. apply print_v4_chars in C as [C|C]; done.
  - rewrite v6_address_print by done.
    assert (Hc : ":"%char ∈ String.list_ascii_of_string (str_address (IPv6 n sc))).
    { destruct H as [Hn _]. pose proof (v6_colon n Hn). destruct sc; cbn [str_address]; [|done].
      rewrite list_ascii_snoc, elem_of_app. by left. }
    destruct (has_char "/"%char _); [done|]. destruct (parse_v4 _) as [k|] eqn:E; [|done].
    by apply (parse_v4_chars _ _ _ E) in Hc as [Hc|Hc].
Qed.

(** Different addresses print differently. *)
Lemma str_address_inj a b : address_wf a -> address_wf b -> str_address a = str_address b -> a = b.
Proof. intros Ha Hb E. apply ip_roundtrip in Ha, Hb. congruence. Qed.
