(* ===== verification/GeoBlock.v ===== *)
(** * Client addresses and geo-blocking ([src/security/forwarded_ip.py], [src/security/geo_block.py])

    The walk of the forwarded chains to the client's address, the trust decision
    on the TCP peer in the HTTP middleware and in the OCPP server
    ([src/websocket_handler/server.py]), the check of an address against the
    country list, and the middleware's verdict on a request. The header
    containers of Starlette and [websockets] and the GeoIP reader are arguments;
    an exception of the container is an [Err]. *)

From S2P Require Import Prelude PyText Addresses.
From Stdlib Require Import ZArith Lia Ascii.
From stdpp Require Import base list strings.

#[local] Open Scope Z_scope.

(** ** Header containers *)

(** [getlist] or [get_all], when the container has one, and [get(name, "")]. *)
Record Headers := {
  h_all : option (string -> list string);
  h_get : string -> result string string
}.

Definition is_text (s : string) : bool := negb (is_empty s).

(** [", ".join(values)]. *)
Fixpoint comma_join (vs : list string) : string :=
  match vs with
  | [] => ""
  | [v] => v
  | v :: vs' => v +:+ ", " +:+ comma_join vs'
  end.

Definition _collect_header_values (h : Headers) (name : string) : result string string :=
  let joined := match h_all h with
                | Some getlist => comma_join (List.filter is_text (getlist name))
                | None => ""%string
                end in
  if is_text joined then Ok joined else h_get h name.

(** ** The chains *)

Definition is_quote (c : ascii) : bool := Ascii.eqb c "034"%char.
Fixpoint drop_quotes (s : list ascii) : list ascii :=
  match s with c :: s' => if is_quote c then drop_quotes s' else s | [] => [] end.
(** [s.strip] of double quotes. *)
Definition strip_quotes (s : string) : string :=
  String.string_of_list_ascii (reverse (drop_quotes (reverse (drop_quotes (String.list_ascii_of_string s))))).

Definition normalize_forwarded_ip (raw_ip : string) : option string :=
  let value := strip_quotes (strip raw_ip) in
  match value with
  | EmptyString => None
  | String c rest =>
      let value :=
        if Ascii.eqb c "["%char
        then match py_partition "]"%char rest with (host, Some _) => host | (_, None) => value end
        else if (count_char ":"%char value =? 1)%nat && has_char "."%char value
             then fst (py_partition ":"%char value)
             else value in
      match ip_address value with Some ip => Some (str_address ip) | None => None end
  end.

Definition _CGNAT_NETWORK : network := net4 100 64 0 0 10.

Definition _is_implicitly_trusted_chain_hop (ip : address) : bool :=
  negb (is_v6 ip) && in_network ip _CGNAT_NETWORK.

Definition _is_trusted_proxy_entry (nets : list network) (implicit : bool) (ip_str : string) : bool :=
  match ip_address ip_str with
  | None => false
  | Some ip =>
      let ip := match ipv4_mapped ip with Some v4 => v4 | None => ip end in
      existsb (in_network ip) nets || (implicit && _is_implicitly_trusted_chain_hop ip)
  end.

Definition _select_client_ip (nets : list network) (implicit : bool) (chain : list string) : option string :=
  match chain with
  | [] => None
  | first :: _ =>
      if bool_decide (nets = []) && negb implicit then Some first
      else match List.find (fun c => negb (_is_trusted_proxy_entry nets implicit c)) (reverse chain) with
           | Some c => Some c
           | None => Some first
           end
  end.

(** The first [for=] item of one hop. *)
Fixpoint hop_for (items : list string) : option string :=
  match items with
  | [] => None
  | item :: items' =>
      let '(key, value) := py_partition "="%char (strip item) in
      match value with
      | Some v => if String.eqb (py_lower key) "for" then normalize_forwarded_ip v else hop_for items'
      | None => hop_for items'
      end
  end.

Definition _parse_forwarded_header_chain (forwarded : string) : list string :=
  omap (fun hop => hop_for (split_on ";"%char hop)) (split_on ","%char forwarded).

Definition _parse_xff_chain (xff : string) : list string :=
  omap normalize_forwarded_ip (split_on ","%char xff).

(** [chosen] is a printed address, hence not empty. *)
Definition extract_forwarded_ip (nets : list network) (implicit : bool) (h : Headers)
  : result string (option string) :=
  let? forwarded := _collect_header_values h "Forwarded" in
  match _select_client_ip nets implicit (_parse_forwarded_header_chain forwarded) with
  | Some c => Ok (Some c)
  | None =>
      let? xff := _collect_header_values h "X-Forwarded-For" in
      match _select_client_ip nets implicit (_parse_xff_chain xff) with
      | Some c => Ok (Some c)
      | None =>
          let? real := h_get h "X-Real-IP" in
          Ok (if is_text real then normalize_forwarded_ip real else None)
      end
  end.

Definition parse_ip_networks (ranges : string) : list network :=
  omap (fun r => let r := strip r in if is_text r then ip_network r else None) (split_on ","%char ranges).

(** ** The check of an address *)

Record GeoBlockConfig := {
  blocked_countries : list string;
  allowed_ips : list string;
  enabled : bool;
  fail_closed : bool
}.

Definition upper_ascii (c : ascii) : ascii :=
  let n := nat_of_ascii c in
  if (97 <=? n)%nat && (n <=? 122)%nat then ascii_of_nat (n - 32) else c.
Definition py_upper (s : string) : string :=
  String.string_of_list_ascii (map upper_ascii (String.list_ascii_of_string s)).

(** [os.getenv(name, default)]. *)
Definition getenv (env : string -> option string) (name default : string) : string :=
  match env name with Some v => v | None => default end.
Definition env_true (env : string -> option string) (name : string) : bool :=
  String.eqb (py_lower (getenv env name "true")) "true".

Definition listed (s : string) : list string :=
  List.filter is_text (map strip (split_on ","%char s)).

Definition from_env (env : string -> option string) : GeoBlockConfig :=
  {| blocked_countries := map py_upper (listed (getenv env "GEO_BLOCK_COUNTRIES" "RU,CN,BY"));
     allowed_ips := listed (getenv env "GEO_BLOCK_ALLOWLIST" "");
     enabled := env_true env "GEO_BLOCK_ENABLED";
     fail_closed := env_true env "GEO_BLOCK_FAIL_CLOSED" |}.

(** What [reader.country(ip).country.iso_code] gives. *)
Inductive lookup_result :=
  | Found (iso : option string)
  | AddressNotFound
  | LookupFailed.

Record GeoBlockChecker := {
  config : GeoBlockConfig;
  allowed_networks : list network;
  reader : option (string -> lookup_result)
}.

(** The constructor: the reader is the one that was loaded, if any. *)
Definition mk_checker (c : GeoBlockConfig) (r : option (string -> lookup_result)) : GeoBlockChecker :=
  {| config := c; allowed_networks := omap ip_network (allowed_ips c); reader := if enabled c then r else None |}.

Definition _is_allowlisted (g : GeoBlockChecker) (ip_str : string) : bool :=
  match ip_address ip_str with
  | Some ip => existsb (in_network ip) (allowed_networks g)
  | None => false
  end.

Definition _is_private_or_loopback (ip_str : string) : bool :=
  match ip_address ip_str with
  | Some ip => is_private ip || is_loopback ip || is_link_local ip
  | None => false
  end.

Record GeoBlockResult := {
  blocked : bool;
  reason : string;
  res_ip : option string;
  country_code : option string
}.

Definition verdict (b : bool) (r : string) (ip cc : option string) : GeoBlockResult :=
  {| blocked := b; reason := r; res_ip := ip; country_code := cc |}.

Definition truthy (s : option string) : bool := match s with Some t => is_text t | None => false end.

Definition check_ip (g : GeoBlockChecker) (ip_str : string) : GeoBlockResult :=
  let c := config g in
  let closed := fail_closed c in
  if negb (enabled c) then verdict false "geo_blocking_disabled" None None
  else if _is_private_or_loopback ip_str then verdict false "private_ip" None None
  else if _is_allowlisted g ip_str then verdict false "allowlisted" (Some ip_str) None
  else match reader g with
       | None =>
           if closed then verdict true "geoip_unavailable_fail_closed" (Some ip_str) None
           else verdict false "geoip_unavailable_fail_open" None None
       | Some country =>
           match country ip_str with
           | AddressNotFound =>
               if closed then verdict true "country_unknown_fail_closed" (Some ip_str) None
               else verdict false "country_unknown_fail_open" (Some ip_str) None
           | LookupFailed =>
               if closed then verdict true "geoip_error_fail_closed" (Some ip_str) None
               else verdict false "geoip_error_fail_open" (Some ip_str) None
           | Found iso =>
               if match iso with
                  | Some cc => is_text cc && existsb (String.eqb (py_upper cc)) (blocked_countries c)
                  | None => false
                  end
               then verdict true "blocked_country" (Some ip_str) iso
               else verdict false "allowed_country" (Some ip_str) iso
           end
       end.

(** ** The HTTP middleware *)

Definition _is_implicitly_trusted_proxy (ip_str : string) : bool :=
  match ip_address ip_str with
  | Some ip =>
      is_private ip || is_loopback ip || is_link_local ip || (negb (is_v6 ip) && in_network ip _CGNAT_NETWORK)
  | None => false
  end.

Record GeoBlockMiddleware := {
  trust_proxy_headers : bool;
  trusted_proxy_networks : list network
}.

Definition init_middleware (env : string -> option string) : GeoBlockMiddleware :=
  {| trust_proxy_headers := env_true env "GEO_BLOCK_TRUST_PROXY_HEADERS";
     trusted_proxy_networks := parse_ip_networks (getenv env "GEO_BLOCK_TRUSTED_PROXY_RANGES" "") |}.

Definition _is_trusted_proxy (m : GeoBlockMiddleware) (peer_ip : string) : bool :=
  (trust_proxy_headers m && _is_implicitly_trusted_proxy peer_ip)
  || match ip_address peer_ip with
     | Some ip => existsb (in_network ip) (trusted_proxy_networks m)
     | None => false
     end.

(** [request.client.host], if there is a client, and [request.headers]. *)
Record Request := { peer : option string; headers : Headers }.

Definition _resolve_client_ip (m : GeoBlockMiddleware) (r : Request) : result string (option string) :=
  match peer r with
  | Some p =>
      if negb (is_text p) then Ok None
      else if negb (_is_trusted_proxy m p) then Ok (Some p)
      else let? f := extract_forwarded_ip (trusted_proxy_networks m) (trust_proxy_headers m) (headers r) in
           Ok (Some (match f with Some ip => ip | None => p end))
  | None => Ok None
  end.

Inductive response := Forbidden | Next.

Definition dispatch (m : GeoBlockMiddleware) (g : GeoBlockChecker) (r : Request) : result string response :=
  let? client_ip := _resolve_client_ip m r in
  match client_ip with
  | Some ip => Ok (if is_text ip && blocked (check_ip g ip) then Forbidden else Next)
  | None => Ok Next
  end.

(** ** The OCPP server *)

Record ocpp_trust := { ot_networks : list network; ot_private : bool }.

Definition init_trust (env : string -> option string) : ocpp_trust :=
  {| ot_networks := parse_ip_networks (getenv env "OCPP_TRUSTED_PROXY_RANGES" "");
     ot_private := env_true env "OCPP_TRUST_PRIVATE_PROXY_HEADERS" |}.

Definition _get_peer_ip (remote : option string) : string :=
  match remote with Some p => p | None => "unknown" end.

Definition _is_trusted_proxy_ip (t : ocpp_trust) (ip_str : string) : bool :=
  match ip_address ip_str with
  | None => false
  | Some ip =>
      (ot_private t && (is_private ip || is_loopback ip || is_link_local ip
                        || (negb (is_v6 ip) && in_network ip _CGNAT_NETWORK)))
      || existsb (in_network ip) (ot_networks t)
  end.

(** A websocket whose handshake request is missing has an empty container. *)
Definition no_headers : Headers := {| h_all := None; h_get := fun _ => Ok ""%string |}.

Definition _get_client_ip (t : ocpp_trust) (remote : option string) (request : option Headers)
  : result string string :=
  let peer_ip := _get_peer_ip remote in
  if String.eqb peer_ip "unknown" || negb (_is_trusted_proxy_ip t peer_ip) then Ok peer_ip
  else let hs := match request with Some h => h | None => no_headers end in
       let? f := extract_forwarded_ip (ot_networks t) (ot_private t) hs in
       Ok (match f with Some ip => ip | None => peer_ip end).
