(* ===== verification/GeoBlockFacts.v ===== *)
(** * Correctness of the client's address and of geo-blocking

    Behind proxies that append the address of their peer, the address that is
    checked is the one that connected to the first trusted proxy, whatever the
    client sent in [X-Forwarded-For]; a request that passes a fail-closed check
    comes from an address whose country is not blocked, or which is private or
    allowlisted. The counterexamples show what a client can still choose. *)

From S2P Require Import Prelude PyText Addresses GeoBlock.
From Stdlib Require Import ZArith Lia Ascii.
From stdpp Require Import base list strings.

#[local] Open Scope Z_scope.

(** ** Chains of appended text *)

Lemma split_on_nonnil sep s : split_on sep s <> [].
Proof. destruct s as [|c s]; [done|]. cbn. case_match; [done|]. by case_match. Qed.

Lemma split_on_cat sep s t : split_on sep (s +:+ String sep t) = split_on sep s ++ split_on sep t.
Proof.
  induction s as [|c s IH].
  - change (split_on sep (String sep t) = [""%string] ++ split_on sep t). cbn. by rewrite Ascii.eqb_refl.
  - change (split_on sep (String c (s +:+ String sep t)) = split_on sep (String c s) ++ split_on sep t).
    cbn [split_on]. rewrite IH. destruct (Ascii.eqb c sep); [done|].
    by destruct (split_on sep s) as [|w ws] eqn:E; [destruct (split_on_nonnil sep s)|].
Qed.

Lemma strip_space s : strip (String " "%char s) = strip s.
Proof. done. Qed.

Lemma normalize_space s : normalize_forwarded_ip (String " "%char s) = normalize_forwarded_ip s.
Proof. unfold normalize_forwarded_ip. by rewrite strip_space. Qed.

Lemma chain_cat s t : _parse_xff_chain (s +:+ String ","%char t) = _parse_xff_chain s ++ _parse_xff_chain t.
Proof. unfold _parse_xff_chain. by rewrite split_on_cat, omap_app. Qed.

Lemma chain_space s : _parse_xff_chain (String " "%char s) = _parse_xff_chain s.
Proof.
  unfold _parse_xff_chain. cbn [split_on Ascii.eqb Bool.eqb].
  destruct (split_on ","%char s) as [|w ws] eqn:E; [by destruct (split_on_nonnil ","%char s)|].
  cbn [omap list_omap]. by rewrite normalize_space.
Qed.

Lemma chain_sep s t : _parse_xff_chain (s +:+ ", " +:+ t) = _parse_xff_chain s ++ _parse_xff_chain t.
Proof.
  change (", " +:+ t) with (String ","%char (String " "%char t)). by rewrite chain_cat, chain_space.
Qed.

Lemma chain_join vs : _parse_xff_chain (comma_join vs) = flat_map _parse_xff_chain vs.
Proof.
  induction vs as [|v vs IH]; [done|]. destruct vs as [|w vs]; [cbn; by rewrite app_nil_r|].
  change (comma_join (v :: w :: vs)) with (v +:+ ", " +:+ comma_join (w :: vs)). by rewrite chain_sep, IH.
Qed.

Lemma chain_texts vs : flat_map _parse_xff_chain (List.filter is_text vs) = flat_map _parse_xff_chain vs.
Proof.
  induction vs as [|v vs IH]; [done|]. cbn. unfold is_text at 1, is_empty.
  destruct (String.eqb_spec v "") as [->|_]; cbn [negb flat_map]; [done|]. by rewrite IH.
Qed.

Lemma join_text vs : List.filter is_text vs <> [] -> is_text (comma_join (List.filter is_text vs)) = true.
Proof.
  destruct (List.filter is_text vs) as [|v ws] eqn:E; [done|]. intros _.
  assert (H : is_text v = true) by (apply (filter_In is_text v vs); rewrite E; by left).
  destruct v as [|c v]; [done|]. by destruct ws.
Qed.

(** ** Proxies *)

(** An address as a TCP peer has it. *)
Definition plain (a : address) : Prop := address_wf a /\ match a with IPv6 _ (Some _) => False | _ => True end.

Lemma plain_chars a c :
  plain a -> c ∈ String.list_ascii_of_string (str_address a) -> is_hex c = true \/ c = ":"%char \/ c = "."%char.
Proof.
  intros [W S] H. destruct a as [n|n [sc|]]; [|done|].
  - apply print_v4_chars in H as [H|H]; [|by right; right|done]. left. unfold is_digit in H. unfold is_hex. by rewrite H.
  - destruct W as [W _]. apply v6_chars in H as [H|H]; [by left|by right; left|done].
Qed.

Lemma str_address_text a : address_wf a -> is_text (str_address a) = true.
Proof.
  intros H. apply ip_roundtrip in H. unfold is_text, is_empty.
  destruct (String.eqb_spec (str_address a) "") as [E|_]; [|done]. by rewrite E in H.
Qed.

Lemma drop_quotes_none l : (forall c, c ∈ l -> is_quote c = false) -> drop_quotes l = l.
Proof. destruct l as [|c l]; [done|]. intros H. cbn. by rewrite (H c) by left. Qed.

Lemma strip_quotes_none s : (forall c, c ∈ String.list_ascii_of_string s -> is_quote c = false) -> strip_quotes s = s.
Proof.
  intros H. unfold strip_quotes. rewrite (drop_quotes_none (String.list_ascii_of_string s)) by done.
  rewrite drop_quotes_none by (intros c Hc; apply H; by apply elem_of_reverse).
  by rewrite reverse_involutive, string_ascii_id.
Qed.

(** A printed address is kept by [normalize_forwarded_ip]. *)
Lemma normalize_print a : plain a -> normalize_forwarded_ip (str_address a) = Some (str_address a).
Proof.
  intros P. pose proof (proj1 P) as W. unfold normalize_forwarded_ip.
  assert (X : forall c, c ∈ String.list_ascii_of_string (str_address a) -> is_space c = false /\ is_quote c = false
                        /\ Ascii.eqb c "["%char = false).
  { intros c Hc. apply plain_chars in Hc; [|done]. clear -Hc.
    destruct c as [[] [] [] [] [] [] [] []]; vm_compute in Hc |- *; destruct Hc as [?|[?|?]]; done. }
  rewrite strip_none by (intros c Hc; by apply X). rewrite strip_quotes_none by (intros c Hc; by apply X).
  pose proof (str_address_text a W) as T. pose proof (ip_roundtrip a W) as R.
  destruct (str_address a) as [|c rest] eqn:E; [done|]. rewrite (proj2 (proj2 (X c ltac:(left)))).
  replace ((count_char ":"%char (String c rest) =? 1)%nat && has_char "."%char (String c rest)) with false.
  - rewrite R. by rewrite <- E.
  - symmetry. apply andb_false_iff. destruct a as [n|n sc].
    + left. rewrite <- E. replace (count_char ":"%char (str_address (IPv4 n))) with 0%nat; [done|]. symmetry.
      assert (N : ":"%char ∉ String.list_ascii_of_string (str_address (IPv4 n)))
        by (intros C; apply print_v4_chars in C as [C|C]; done).
      revert N. generalize (str_address (IPv4 n)). clear. induction s as [|d s IH]; [done|]. cbn.
      intros [H1 H2]%not_elem_of_cons. destruct (Ascii.eqb_spec d ":"%char); [by subst|]. by rewrite IH.
    + right. rewrite <- E. destruct sc as [sc|]; [by destruct P|]. apply has_char_false. intros C.
      destruct W as [W _]. apply v6_chars in C as [C|C]; done.
Qed.

(** What a proxy does to the [X-Forwarded-For] lines of a request it got from
    [p]: a line of its own, or the address at the end of the last line, or of
    all lines combined. *)
Inductive appends (p : address) : list string -> list string -> Prop :=
  | own_line ls : appends p ls (ls ++ [str_address p])
  | last_line ls l : appends p (ls ++ [l]) (ls ++ [l +:+ ", " +:+ str_address p])
  | combined l ls : appends p (l :: ls) [comma_join (l :: ls) +:+ ", " +:+ str_address p].

(** The lines after the request went through proxies whose peers were [hops]. *)
Inductive routed : list address -> list string -> list string -> Prop :=
  | at_client ls : routed [] ls ls
  | through p hops ls ls1 ls2 : routed hops ls ls1 -> appends p ls1 ls2 -> routed (hops ++ [p]) ls ls2.

Lemma appends_chain p ls ls' :
  plain p -> appends p ls ls' ->
  flat_map _parse_xff_chain ls' = flat_map _parse_xff_chain ls ++ [str_address p] /\ List.filter is_text ls' <> [].
Proof.
  intros P H.
  assert (C : _parse_xff_chain (str_address p) = [str_address p]).
  { unfold _parse_xff_chain. rewrite split_on_none; [|intros E; by apply plain_chars in E as [E|[E|E]]].
    cbn [omap list_omap]. by rewrite normalize_print. }
  assert (T : forall s, is_text (s +:+ ", " +:+ str_address p) = true) by (intros s; by destruct s).
  destruct H as [ls|ls l|l ls].
  - rewrite flat_map_app. cbn [flat_map]. rewrite C, List.filter_app. cbn [List.filter].
    rewrite str_address_text by apply P. split; [done|]. by destruct (List.filter is_text ls).
  - rewrite !flat_map_app. cbn [flat_map]. rewrite chain_sep, C, !app_nil_r, app_assoc.
    rewrite List.filter_app. cbn [List.filter]. rewrite T. split; [done|]. by destruct (List.filter is_text ls).
  - cbn [flat_map]. rewrite chain_sep, chain_join, C, app_nil_r. cbn [List.filter]. by rewrite T.
Qed.

Lemma routed_chain hops ls ls' :
  Forall plain hops -> routed hops ls ls' ->
  flat_map _parse_xff_chain ls' = flat_map _parse_xff_chain ls ++ map str_address hops
  /\ (hops <> [] -> List.filter is_text ls' <> []).
Proof.
  intros F H. induction H as [ls|p hops ls ls1 ls2 H IH A].
  - by rewrite app_nil_r.
  - apply Forall_app in F as [F1 F2]. apply Forall_cons in F2 as [F2 _].
    destruct (appends_chain _ _ _ F2 A) as [A1 A2]. split; [|done].
    rewrite A1, (proj1 (IH F1)), map_app. by rewrite <- app_assoc.
Qed.

(** ** The walk *)

Section walk.
Context (nets : list network) (implicit : bool).
Context (trust : nets <> [] \/ implicit = true).

Lemma select_behind A c ps :
  _is_trusted_proxy_entry nets implicit c = false ->
  (forall p, p ∈ ps -> _is_trusted_proxy_entry nets implicit p = true) ->
  _select_client_ip nets implicit (A ++ c :: ps) = Some c.
Proof using trust.
  intros Hc Hps. unfold _select_client_ip.
  destruct (A ++ c :: ps) as [|first rest] eqn:E; [by destruct A|].
  replace (bool_decide (nets = []) && negb implicit) with false
    by (destruct trust as [N| ->]; [by rewrite bool_decide_eq_false_2|by rewrite andb_false_r]).
  rewrite <- E, reverse_app, reverse_cons, <- app_assoc.
  assert (Hr : forall p, p ∈ reverse ps -> _is_trusted_proxy_entry nets implicit p = true)
    by (intros p Hp; by apply Hps, elem_of_reverse).
  revert Hr. generalize (reverse ps). clear -Hc. induction l as [|p l IH]; intros Hr.
  - cbn. by rewrite Hc.
  - cbn. rewrite (Hr p) by left. apply IH. intros q Hq. apply Hr. by right.
Qed.
End walk.

(** No line of a [Forwarded] header that names an address. *)
Definition no_forwarded (h : Headers) : Prop :=
  exists f, _collect_header_values h "Forwarded" = Ok f /\ _parse_forwarded_header_chain f = [].

(** The lines of [X-Forwarded-For] a request arrives with. *)
Definition xff_lines (h : Headers) (ls : list string) : Prop :=
  match h_all h with Some getlist => getlist "X-Forwarded-For"%string = ls | None => False end.

Lemma extract_behind nets implicit h sent ls client proxies :
  nets <> [] \/ implicit = true ->
  no_forwarded h -> xff_lines h ls -> Forall plain (client :: proxies) ->
  routed (client :: proxies) sent ls ->
  _is_trusted_proxy_entry nets implicit (str_address client) = false ->
  (forall p, p ∈ proxies -> _is_trusted_proxy_entry nets implicit (str_address p) = true) ->
  extract_forwarded_ip nets implicit h = Ok (Some (str_address client)).
Proof.
  intros T (f & Ef & Nf) X P R Hc Hp. unfold extract_forwarded_ip. rewrite Ef. cbn [rbind]. rewrite Nf.
  cbn [_select_client_ip]. destruct (routed_chain _ _ _ P R) as [C N]. specialize (N ltac:(done)).
  unfold _collect_header_values, xff_lines in *. destruct (h_all h) as [getlist|]; [|done]. rewrite X.
  rewrite join_text by done. cbn [rbind]. rewrite chain_join, chain_texts, C.
  cbn [map]. rewrite select_behind; [done|done|done|].
  intros p (q & -> & Hq)%list_elem_of_fmap. by apply Hp.
Qed.

Lemma trusted_peer_trusts m p : _is_trusted_proxy m p = true -> trusted_proxy_networks m <> [] \/ trust_proxy_headers m = true.
Proof.
  unfold _is_trusted_proxy. destruct (trust_proxy_headers m); [by right|]. cbn.
  destruct (ip_address p); [|done]. left. by destruct (trusted_proxy_networks m).
Qed.

Lemma ocpp_peer_trusts t p : _is_trusted_proxy_ip t p = true -> ot_networks t <> [] \/ ot_private t = true.
Proof.
  unfold _is_trusted_proxy_ip. destruct (ip_address p); [|done]. destruct (ot_private t); [by right|]. cbn.
  left. by destruct (ot_networks t).
Qed.

(** The same for the OCPP server. *)
Lemma ocpp_client_behind_proxies t edge h sent ls client proxies :
  _is_trusted_proxy_ip t edge = true ->
  no_forwarded h -> xff_lines h ls -> Forall plain (client :: proxies) -> routed (client :: proxies) sent ls ->
  _is_trusted_proxy_entry (ot_networks t) (ot_private t) (str_address client) = false ->
  (forall p, p ∈ proxies -> _is_trusted_proxy_entry (ot_networks t) (ot_private t) (str_address p) = true) ->
  _get_client_ip t (Some edge) (Some h) = Ok (str_address client).
Proof.
  intros E F X P R Hc Hp. unfold _get_client_ip, _get_peer_ip. rewrite E.
  destruct (String.eqb_spec edge "unknown") as [->|_]; [by vm_compute in E|]. cbn [orb negb].
  by rewrite (extract_behind _ _ _ _ _ _ _ (ocpp_peer_trusts _ _ E) F X P R Hc Hp).
Qed.

(** An OCPP peer that is no trusted proxy is the client, whatever it sends. *)
Lemma ocpp_direct_client t peer h : _is_trusted_proxy_ip t peer = false -> _get_client_ip t (Some peer) h = Ok peer.
Proof. intros E. unfold _get_client_ip, _get_peer_ip. by rewrite E, orb_true_r. Qed.

Definition answer (g : GeoBlockChecker) (client : string) : response :=
  if blocked (check_ip g client) then Forbidden else Next.

Lemma trusted_peer_text m p : _is_trusted_proxy m p = true -> is_text p = true.
Proof.
  destruct p as [|c p]; [|done]. unfold _is_trusted_proxy, _is_implicitly_trusted_proxy.
  change (ip_address "") with (@None address). by rewrite andb_false_r.
Qed.


(** ** A fail-closed check *)

(** An address a fail-closed check lets through without asking for its country. *)
Definition exempt (g : GeoBlockChecker) (ip : string) : Prop :=
  _is_private_or_loopback ip = true \/ _is_allowlisted g ip = true.

Lemma fail_closed_admits g ip :
  enabled (config g) = true -> fail_closed (config g) = true -> blocked (check_ip g ip) = false ->
  exempt g ip \/ exists country iso, reader g = Some country /\ country ip = Found iso /\
    forall cc, iso = Some cc -> cc <> ""%string -> py_upper cc ∉ blocked_countries (config g).
Proof.
  intros E C. unfold check_ip. cbv zeta. rewrite E, C. cbn [negb].
  destruct (_is_private_or_loopback ip) eqn:P; [by left; left|].
  destruct (_is_allowlisted g ip) eqn:A; [by left; right|].
  destruct (reader g) as [country|] eqn:R; [|done]. destruct (country ip) as [iso| |] eqn:L; [|done..].
  intros B. right. exists country, iso. split_and!; [done|done|]. intros cc -> N In.
  unfold is_text, is_empty in B. apply String.eqb_neq in N. rewrite N in B. cbn in B.
  case_match eqn:X; [done|]. apply not_true_iff_false in X. apply X, existsb_exists.
  exists (py_upper cc). split; [by apply list_elem_of_In|apply String.eqb_refl].
Qed.

(** The configured countries match a code in either case. *)
Lemma listed_country_blocked env g country ip cc :
  config g = from_env env -> reader g = Some country -> country ip = Found (Some cc) -> is_text cc = true ->
  enabled (config g) = true -> _is_private_or_loopback ip = false -> _is_allowlisted g ip = false ->
  py_upper cc ∈ blocked_countries (from_env env) -> blocked (check_ip g ip) = true.
Proof.
  intros C R F T E P A I. unfold check_ip. cbv zeta. rewrite E, P, A, R, F, T. cbn [negb andb].
  rewrite C. replace (existsb _ _) with true; [done|]. symmetry. apply existsb_exists.
  exists (py_upper cc). split; [by apply list_elem_of_In|apply String.eqb_refl].
Qed.

(** ** What a client can choose *)

Definition default_env : string -> option string := fun _ => None.
Definition default_middleware : GeoBlockMiddleware := init_middleware default_env.

(** Every public address is in RU. *)
Definition ru_checker : GeoBlockChecker := mk_checker (from_env default_env) (Some (fun _ => Found (Some "RU"%string))).

Definition lines_of (name : string) (vs : list string) (n : string) : list string := if String.eqb n name then vs else [].
Definition ex_headers (forwarded xff : list string) : Headers :=
  {| h_all := Some (fun n => lines_of "Forwarded" forwarded n ++ lines_of "X-Forwarded-For" xff n);
     h_get := fun _ => Ok ""%string |}.

Definition ex_client : address := IPv4 (((95 * 256 + 173) * 256 + 136) * 256 + 70).
Definition ex_inner : address := IPv4 (((100 * 256 + 64) * 256 + 0) * 256 + 9).


(** Through a proxy that appends to [X-Forwarded-For] only, a client that is
    blocked passes by sending a [Forwarded] header of its own. *)
Lemma forwarded_header_bypasses :
  let xff := ["95.173.136.70"%string] in
  let req f := {| peer := Some "100.64.0.3"%string; headers := ex_headers f xff |} in
  dispatch default_middleware ru_checker (req []) = Ok Forbidden
  /\ dispatch default_middleware ru_checker (req ["for=10.0.0.1"%string]) = Ok Next.
Proof. by vm_compute. Qed.

(** A record without a country code passes a fail-closed check. *)
Lemma unknown_country_admitted :
  let g := mk_checker (from_env default_env) (Some (fun _ => Found None)) in
  fail_closed (config g) = true /\ blocked (check_ip g "95.173.136.70") = false.
Proof. by vm_compute. Qed.

(** A peer written as an IPv4-mapped address is a proxy as a hop of the chain and
    not as the peer. *)
Lemma mapped_peer_not_trusted :
  _is_trusted_proxy_entry [] true "::ffff:100.64.0.3" = true
  /\ _is_trusted_proxy default_middleware "::ffff:100.64.0.3" = false.
Proof. by vm_compute. Qed.
