(* ===== verification/StationAuth.v ===== *)
(** * Authentication of stations ([src/websocket_handler/security_manager.py])

    The security manager a charger is authenticated by when it connects: the
    lockout, the requirement of Basic Auth, the chain of methods, tokens and
    their revocation, security events; with the queries of
    [src/websocket_handler/supabase_client.py] and
    [src/websocket_handler/timescale_client.py] it calls, over their tables. A
    database call can fail; [fails] says which do. PyJWT, [bcrypt] and the
    certificate's validity period are arguments. Instants are microseconds. *)

From S2P Require Import Prelude PyText Alerts.
From Stdlib Require Import ZArith Lia Ascii.
From stdpp Require Import base list strings.

#[local] Open Scope Z_scope.

(** ** State *)

Inductive SecurityEventType :=
  | FIRMWARE_UPDATED | FAILED_TO_AUTHENTICATE_AT_CENTRAL_SYSTEM | CENTRAL_SYSTEM_FAILED_TO_AUTHENTICATE
  | SETTING_SYSTEM_TIME | STARTUP_OF_THE_DEVICE | RESET_OR_REBOOT | SECURITY_LOG_CLEARED
  | RECONFIGURATION_SECURITY_PARAMETERS | MEMORY_EXHAUSTION | INVALID_MESSAGES | ATTEMPTED_REPLAY_ATTACKS
  | TAMPER_DETECTION_ACTIVATED | INVALID_FIRMWARE_SIGNATURE | INVALID_CERTIFICATE | CRITICAL_SECURITY_ERROR.

#[export] Instance event_type_eq_dec : EqDecision SecurityEventType.
Proof. solve_decision. Defined.

Definition event_value (t : SecurityEventType) : string :=
  match t with
  | FIRMWARE_UPDATED => "FirmwareUpdated"
  | FAILED_TO_AUTHENTICATE_AT_CENTRAL_SYSTEM => "FailedToAuthenticateAtCentralSystem"
  | CENTRAL_SYSTEM_FAILED_TO_AUTHENTICATE => "CentralSystemFailedToAuthenticate"
  | SETTING_SYSTEM_TIME => "SettingSystemTime"
  | STARTUP_OF_THE_DEVICE => "StartupOfTheDevice"
  | RESET_OR_REBOOT => "ResetOrReboot"
  | SECURITY_LOG_CLEARED => "SecurityLogCleared"
  | RECONFIGURATION_SECURITY_PARAMETERS => "ReconfigurationSecurityParameters"
  | MEMORY_EXHAUSTION => "MemoryExhaustion"
  | INVALID_MESSAGES => "InvalidMessages"
  | ATTEMPTED_REPLAY_ATTACKS => "AttemptedReplayAttacks"
  | TAMPER_DETECTION_ACTIVATED => "TamperDetectionActivated"
  | INVALID_FIRMWARE_SIGNATURE => "InvalidFirmwareSignature"
  | INVALID_CERTIFICATE => "InvalidCertificate"
  | CRITICAL_SECURITY_ERROR => "CriticalSecurityError"
  end.

Definition event_types : list SecurityEventType :=
  [FIRMWARE_UPDATED; FAILED_TO_AUTHENTICATE_AT_CENTRAL_SYSTEM; CENTRAL_SYSTEM_FAILED_TO_AUTHENTICATE;
   SETTING_SYSTEM_TIME; STARTUP_OF_THE_DEVICE; RESET_OR_REBOOT; SECURITY_LOG_CLEARED;
   RECONFIGURATION_SECURITY_PARAMETERS; MEMORY_EXHAUSTION; INVALID_MESSAGES; ATTEMPTED_REPLAY_ATTACKS;
   TAMPER_DETECTION_ACTIVATED; INVALID_FIRMWARE_SIGNATURE; INVALID_CERTIFICATE; CRITICAL_SECURITY_ERROR].

(** [SecurityEventType(value)]. *)
Definition event_of (v : string) : option SecurityEventType :=
  List.find (fun t => String.eqb (event_value t) v) event_types.

(** A row of [security_events]. *)
Record security_row := {
  ev_station : string;
  ev_type : SecurityEventType;
  ev_time : Z;
  ev_info : option string
}.

Record StationAuthToken := {
  tk_token : string;
  tk_expires : Z;
  tk_last_used : option Z;
  tk_usage : Z
}.

(** A row of [auth_tokens]. *)
Record token_row := {
  tr_station : string;
  tr_token : string;
  tr_hash : string;
  tr_kind : string;
  tr_expires : Z;
  tr_revoked : option Z;
  tr_used : option Z;
  tr_count : Z
}.

Record station_row := { st_id : string; st_auth_required : option bool; st_org : option string;
                        st_depot : option string; st_name : option string }.
Record alias_row := { as_alias : string; as_canonical : string; as_active : bool }.
Record credential_row := {
  cr_station : string; cr_username : string; cr_hash : string; cr_active : bool; cr_last_used : option Z }.
Record key_row := {
  ky_station : string; ky_key : string; ky_hash : option string; ky_active : bool; ky_expires : option Z }.

Record SecurityConfig := {
  require_mtls : bool;
  require_station_auth : bool;
  token_expiry_hours : Z;
  max_failed_auth_attempts : Z;
  lockout_duration_minutes : Z;
  enable_audit_logging : bool
}.

(** The security manager's dictionaries and the tables. *)
Record world := {
  token_cache : dict string StationAuthToken;
  failed_auth_attempts : dict string (list Z);
  cert_validation_cache : dict string (bool * Z);
  stations : list station_row;
  aliases : list alias_row;
  credentials : list credential_row;
  api_keys : list key_row;
  auth_tokens : list token_row;
  security_events : list security_row;
  alert_rows : list alert
}.

(** ** Effects *)

(** The database calls that can fail. *)
Inductive db_call :=
  | RequiresBasic | UsernameAllowed | ValidateKey | ValidateBasic | TouchCredential | TokenUsage
  | StoreToken | RevokeToken | LogEvent | LogError | StoreEvent | EmitAlert | ResolveAlert
  | ResolveStation | EnsureAlias.

(** When the clock is read. *)
Inductive moment := AtCheck | AtToken | AtFailure | AtCutoff | AtLog | AtAlert.

Record cert := { ct_fingerprint : string; ct_subject : string; ct_valid_at : Z -> result string bool }.

Record auth_env := {
  fails : db_call -> bool;
  clock : moment -> Z;
  supabase : bool;                                           (** the static client is the Supabase client *)
  checkpw : string -> string -> result string bool;
  hash_secret : string -> string;
  jwt_decode : string -> option (option string * option Z)   (** the payload's station and expiry, in seconds *)
}.

(** An effect keeps what it did before it raised. *)
Definition act (A : Type) : Type := world -> result string A * world.
Definition ret {A} (a : A) : act A := fun w => (Ok a, w).
Definition bind {A B} (m : act A) (k : A -> act B) : act B :=
  fun w => match m w with (Ok a, w') => k a w' | (Err x, w') => (Err x, w') end.
Notation "'let!' x ':=' m 'in' k" := (bind m (fun x => k))
  (at level 200, x binder, m at level 100, k at level 200, right associativity) : py_scope.

Definition get {A} (f : world -> A) : act A := fun w => (Ok (f w), w).
Definition put (f : world -> world) : act unit := fun w => (Ok tt, f w).
(** [try: m except Exception: h]. *)
Definition catch {A} (m : act A) (h : act A) : act A :=
  fun w => match m w with (Ok a, w') => (Ok a, w') | (Err _, w') => h w' end.
Definition lift {A} (r : result string A) : act A := fun w => (r, w).
Definition call {A} (e : auth_env) (c : db_call) (m : act A) : act A :=
  fun w => if fails e c then (Err "database"%string, w) else m w.

Definition with_tokens (f : dict string StationAuthToken -> dict string StationAuthToken) (w : world) : world :=
  {| token_cache := f (token_cache w); failed_auth_attempts := failed_auth_attempts w;
     cert_validation_cache := cert_validation_cache w; stations := stations w; aliases := aliases w;
     credentials := credentials w; api_keys := api_keys w; auth_tokens := auth_tokens w;
     security_events := security_events w; alert_rows := alert_rows w |}.
Definition with_failed (f : dict string (list Z) -> dict string (list Z)) (w : world) : world :=
  {| token_cache := token_cache w; failed_auth_attempts := f (failed_auth_attempts w);
     cert_validation_cache := cert_validation_cache w; stations := stations w; aliases := aliases w;
     credentials := credentials w; api_keys := api_keys w; auth_tokens := auth_tokens w;
     security_events := security_events w; alert_rows := alert_rows w |}.
Definition with_certs (f : dict string (bool * Z) -> dict string (bool * Z)) (w : world) : world :=
  {| token_cache := token_cache w; failed_auth_attempts := failed_auth_attempts w;
     cert_validation_cache := f (cert_validation_cache w); stations := stations w; aliases := aliases w;
     credentials := credentials w; api_keys := api_keys w; auth_tokens := auth_tokens w;
     security_events := security_events w; alert_rows := alert_rows w |}.
Definition with_tables (al : list alias_row) (cr : list credential_row) (tr : list token_row)
    (ev : list security_row) (ar : list alert) (w : world) : world :=
  {| token_cache := token_cache w; failed_auth_attempts := failed_auth_attempts w;
     cert_validation_cache := cert_validation_cache w; stations := stations w; aliases := al;
     credentials := cr; api_keys := api_keys w; auth_tokens := tr; security_events := ev; alert_rows := ar |}.

(** [x or y] on strings that may be missing. *)
Definition given (s : option string) : option string :=
  match s with Some t => if String.eqb t "" then None else Some t | None => None end.
Definition or_given (a b : option string) : option string :=
  match given a with Some t => Some t | None => given b end.

(** ** Aliases *)

Definition resolve_station_id (e : auth_env) (station_id : string) : act string :=
  call e ResolveStation (get (fun w =>
    match List.find (fun a => String.eqb (as_alias a) station_id && as_active a) (aliases w) with
    | Some a => as_canonical a
    | None => station_id
    end)).

Definition ensure_station_alias (e : auth_env) (alias canonical : string) : act bool :=
  if String.eqb alias canonical then ret false
  else call e EnsureAlias (fun w =>
    if existsb (fun s => String.eqb (st_id s) canonical) (stations w)
       && negb (existsb (fun a => String.eqb (as_alias a) alias) (aliases w))
    then (Ok true, with_tables (aliases w ++ [{| as_alias := alias; as_canonical := canonical; as_active := true |}])
                     (credentials w) (auth_tokens w) (security_events w) (alert_rows w) w)
    else (Ok false, w)).

(** [is_basic_auth_username_allowed], in both clients. *)
Definition username_allowed (station_id username : string) (w : world) : bool :=
  String.eqb username station_id
  || existsb (fun a => String.eqb (as_alias a) username && String.eqb (as_canonical a) station_id && as_active a)
       (aliases w).

Definition _is_basic_auth_username_allowed (e : auth_env) (station_id username : string) : act bool :=
  catch (call e UsernameAllowed (get (username_allowed station_id username)))
    (ret (String.eqb username station_id)).

Definition station_requires_basic_auth (station_id : string) (w : world) : bool :=
  match List.find (fun s => String.eqb (st_id s) station_id) (stations w) with
  | Some s => match st_auth_required s with Some b => b | None => false end
  | None => false
  end.

Definition _station_requires_basic_auth (e : auth_env) (station_id : string) : act bool :=
  if supabase e
  then catch (call e RequiresBasic (get (station_requires_basic_auth station_id))) (ret false)
  else ret false.

(** ** Lockout *)

Definition minute : Z := 60000000.
Definition lockout_us (c : SecurityConfig) : Z := lockout_duration_minutes c * minute.

Definition recent_attempts (c : SecurityConfig) (now : Z) (l : list Z) : list Z :=
  List.filter (fun a => now - a <? lockout_us c) l.

Definition attempts_of (station_id : string) (w : world) : list Z :=
  match failed_auth_attempts w @? station_id with Some l => l | None => [] end.

Definition locked_out (c : SecurityConfig) (now : Z) (station_id : string) (w : world) : bool :=
  match failed_auth_attempts w @? station_id with
  | Some l => max_failed_auth_attempts c <=? Z.of_nat (length (recent_attempts c now l))
  | None => false
  end.
Definition _is_station_locked_out (e : auth_env) (c : SecurityConfig) (station_id : string) : act bool :=
  get (locked_out c (clock e AtCheck) station_id).

Definition _record_failed_attempt (e : auth_env) (c : SecurityConfig) (station_id : string) : act unit :=
  put (fun w => with_failed (fun d => d +{ station_id :=
    List.filter (fun a => clock e AtCutoff - lockout_us c <? a) (attempts_of station_id w ++ [clock e AtFailure]) }) w).

Definition _clear_failed_attempts (station_id : string) : act unit :=
  put (with_failed (dpop station_id)).

(** ** Events and alerts *)

Definition add_event (r : security_row) (w : world) : world :=
  with_tables (aliases w) (credentials w) (auth_tokens w) (security_events w ++ [r]) (alert_rows w) w.

Definition _store_security_event (e : auth_env) (c : db_call) (r : security_row) : act unit :=
  call e c (put (add_event r)).

Definition _log_security_event (e : auth_env) (c : SecurityConfig) (d : db_call) (station_id : string)
    (t : SecurityEventType) (message : string) : act unit :=
  if enable_audit_logging c
  then _store_security_event e d {| ev_station := station_id; ev_type := t; ev_time := clock e AtLog;
                                    ev_info := Some message |}
  else ret tt.

Definition on_alerts (f : list alert -> list alert) (w : world) : world :=
  with_tables (aliases w) (credentials w) (auth_tokens w) (security_events w) (f (alert_rows w)) w.

(** [lookup_charger_context]: organisation, depot and label of a registered charger. *)
Definition charger_context (e : auth_env) (station_id : string) (w : world) : option station_row :=
  if supabase e then List.find (fun s => String.eqb (st_id s) station_id) (stations w) else None.

Definition auth_failure_key (station_id : string) : string := "charger_auth_failure:" +:+ station_id.

(** The texts of the detail that nothing reads back are left out. *)
Definition auth_failure_alert (org : string) (s : station_row) (station_id reason : string) : alert_input :=
  let name := match given (st_name s) with Some n => n | None => station_id end in
  {| in_org := org; in_depot := st_depot s; in_type := "charger_auth_failure"; in_severity := CRITICAL;
     in_title := "Charger " +:+ name +:+ " authentication failed";
     in_detail := [("station_id", PStr station_id); ("reason", PStr reason)];
     in_dedup := auth_failure_key station_id |}.

Definition _emit_charger_auth_failure_alert (e : auth_env) (station_id reason : string) : act unit :=
  catch (let! ctx := get (charger_context e station_id) in
         match ctx with
         | Some s =>
             match st_org s with
             | Some org => call e EmitAlert (put (on_alerts (fun l =>
                             upsert_alert (clock e AtAlert) (auth_failure_alert org s station_id reason) l)))
             | None => ret tt
             end
         | None => ret tt
         end) (ret tt).

Definition _resolve_charger_auth_failure_alert (e : auth_env) (station_id : string) : act unit :=
  catch (let! ctx := get (charger_context e station_id) in
         match ctx with
         | Some s =>
             match st_org s with
             | Some org => call e ResolveAlert (put (on_alerts (fun l =>
                             resolve_alert (clock e AtAlert) org (auth_failure_key station_id) l)))
             | None => ret tt
             end
         | None => ret tt
         end) (ret tt).

(** ** Methods *)

Record auth_data := {
  ad_username : option string;
  ad_password : option string;
  ad_bearer_token : option string;
  ad_authorization : option string;
  ad_api_key : option string;
  ad_x_api_key : option string
}.

(** The credential row: the one of the presented username before the station's own. *)
Definition credential_for (station_id username : string) (w : world) : option credential_row :=
  let row u := List.find (fun r => String.eqb (cr_station r) station_id && String.eqb (cr_username r) u && cr_active r)
                 (credentials w) in
  match row username with Some r => Some r | None => row station_id end.

Definition touch_credential (now : Z) (r : credential_row) (w : world) : world :=
  let same x := String.eqb (cr_station x) (cr_station r) && String.eqb (cr_username x) (cr_username r) in
  with_tables (aliases w)
    (map (fun x => if same x then {| cr_station := cr_station x; cr_username := cr_username x; cr_hash := cr_hash x;
                                     cr_active := cr_active x; cr_last_used := Some now |} else x) (credentials w))
    (auth_tokens w) (security_events w) (alert_rows w) w.

(** Only the Supabase client has the method. *)
Definition validate_basic_auth (e : auth_env) (station_id username password : string) : act bool :=
  if negb (supabase e) then lift (Err "AttributeError"%string)
  else call e ValidateBasic (
    let! row := get (credential_for station_id username) in
    match row with
    | None => ret false
    | Some r =>
        let! ok := lift (checkpw e password (cr_hash r)) in
        if ok then let! _ := catch (call e TouchCredential (put (touch_credential (clock e AtToken) r))) (ret tt) in ret true
        else ret false
    end).

Definition _authenticate_basic_auth (e : auth_env) (prevalidated : bool) (station_id : string) (a : auth_data)
  : act bool :=
  match given (ad_username a), given (ad_password a) with
  | Some username, Some password =>
      let! allowed := if prevalidated then ret true else _is_basic_auth_username_allowed e station_id username in
      if allowed then validate_basic_auth e station_id username password else ret false
  | _, _ => ret false
  end.

Definition validate_api_key (e : auth_env) (station_id key : string) : act bool :=
  call e ValidateKey (get (fun w =>
    existsb (fun r => String.eqb (ky_station r) station_id
                      && (bool_decide (ky_hash r = Some (hash_secret e key)) || String.eqb (ky_key r) key)
                      && ky_active r
                      && match ky_expires r with Some t => clock e AtToken <? t | None => true end) (api_keys w))).

Definition _authenticate_api_key (e : auth_env) (station_id : string) (a : auth_data) : act bool :=
  match or_given (ad_api_key a) (ad_x_api_key a) with
  | Some key => validate_api_key e station_id key
  | None => ret false
  end.

Definition used (now : Z) (t : StationAuthToken) : StationAuthToken :=
  {| tk_token := tk_token t; tk_expires := tk_expires t; tk_last_used := Some now; tk_usage := tk_usage t + 1 |}.

Definition update_token_usage (now : Z) (e : auth_env) (station_id token : string) (w : world) : world :=
  let hit r := String.eqb (tr_station r) station_id
               && (String.eqb (tr_hash r) (hash_secret e token) || String.eqb (tr_token r) token) in
  with_tables (aliases w) (credentials w)
    (map (fun r => if hit r then {| tr_station := tr_station r; tr_token := tr_token r; tr_hash := tr_hash r;
                                    tr_kind := tr_kind r; tr_expires := tr_expires r; tr_revoked := tr_revoked r;
                                    tr_used := Some now; tr_count := tr_count r + 1 |} else r) (auth_tokens w))
    (security_events w) (alert_rows w) w.

(** Time in seconds against the payload's expiry, which defaults to 0. *)
Definition payload_expired (now : Z) (exp : option Z) : bool :=
  (match exp with Some x => x | None => 0 end) * 1000000 <? now.

Definition decode_station_token (e : auth_env) (station_id token : string) : act bool :=
  let now := clock e AtToken in
  match jwt_decode e token with
  | Some (st, exp) =>
      if negb (bool_decide (st = Some station_id)) || payload_expired now exp then ret false
      else let! _ := call e TokenUsage (put (update_token_usage now e station_id token)) in ret true
  | None => ret false
  end.

Definition validate_station_token (e : auth_env) (station_id token : string) : act bool :=
  catch (
    let now := clock e AtToken in
    let! cached := get (fun w => token_cache w @? station_id) in
    match cached with
    | Some t =>
        if String.eqb (tk_token t) token && (now <? tk_expires t)
        then let! _ := put (with_tokens (fun d => d +{ station_id := used now t })) in ret true
        else decode_station_token e station_id token
    | None => decode_station_token e station_id token
    end) (ret false).

Definition strip_bearer (s : string) : string :=
  String.string_of_list_ascii
    (remove_word (String.list_ascii_of_string "Bearer ") (String.list_ascii_of_string s) 0).

Definition _authenticate_bearer_token (e : auth_env) (station_id : string) (a : auth_data) : act bool :=
  let header := match ad_authorization a with Some s => strip_bearer s | None => ""%string end in
  match or_given (ad_bearer_token a) (Some header) with
  | Some token => validate_station_token e station_id token
  | None => ret false
  end.

(** [s in t] for strings. *)
Fixpoint contained (s t : string) : bool :=
  String.prefix s t || match t with String _ t' => contained s t' | EmptyString => false end.

Definition _validate_certificate_chain (now : Z) (c : cert) (station_id : string) : bool :=
  match ct_valid_at c now with
  | Ok true => contained station_id (ct_subject c)
  | _ => false
  end.

Definition validate_client_certificate (e : auth_env) (c : cert) (station_id : string) : act bool :=
  let now := clock e AtToken in
  let key := station_id +:+ ":" +:+ ct_fingerprint c in
  let! hit := get (fun w => cert_validation_cache w @? key) in
  let fresh := match hit with Some (ok, t) => if now - t <? 60 * minute then Some ok else None | None => None end in
  match fresh with
  | Some ok => ret ok
  | None =>
      let ok := _validate_certificate_chain now c station_id in
      let! _ := put (with_certs (fun d => d +{ key := (ok, now) })) in ret ok
  end.

Definition _authenticate_client_certificate (e : auth_env) (c : SecurityConfig) (station_id : string)
    (client_cert : option cert) : act bool :=
  match client_cert with
  | Some ct => if require_mtls c then validate_client_certificate e ct station_id else ret false
  | None => ret false
  end.

(** ** Authentication *)

Inductive AuthenticationMethod := BASIC_AUTH | BEARER_TOKEN | CLIENT_CERTIFICATE | API_KEY.

Definition method_value (m : AuthenticationMethod) : string :=
  match m with
  | BASIC_AUTH => "BasicAuth" | BEARER_TOKEN => "BearerToken"
  | CLIENT_CERTIFICATE => "ClientCertificate" | API_KEY => "ApiKey"
  end.

Fixpoint first_method (l : list (AuthenticationMethod * act bool)) : act (option AuthenticationMethod) :=
  match l with
  | [] => ret None
  | (m, f) :: l' => let! ok := f in if ok then ret (Some m) else first_method l'
  end.

Definition auth_methods (e : auth_env) (c : SecurityConfig) (required : bool) (station_id : string) (a : auth_data)
    (client_cert : option cert) : list (AuthenticationMethod * act bool) :=
  if required then [(BASIC_AUTH, _authenticate_basic_auth e true station_id a)]
  else [(CLIENT_CERTIFICATE, _authenticate_client_certificate e c station_id client_cert);
        (BEARER_TOKEN, _authenticate_bearer_token e station_id a);
        (API_KEY, _authenticate_api_key e station_id a);
        (BASIC_AUTH, _authenticate_basic_auth e false station_id a)].

Definition failed_login (e : auth_env) (c : SecurityConfig) (station_id message error : string)
  : act (bool * option string) :=
  let! _ := _record_failed_attempt e c station_id in
  let! _ := _log_security_event e c LogEvent station_id FAILED_TO_AUTHENTICATE_AT_CENTRAL_SYSTEM message in
  ret (false, Some error).

Definition run_methods (e : auth_env) (c : SecurityConfig) (required : bool) (station_id : string) (a : auth_data)
    (client_cert : option cert) : act (bool * option string) :=
  let! found := first_method (auth_methods e c required station_id a client_cert) in
  match found with
  | Some m =>
      let! _ := _clear_failed_attempts station_id in
      let! _ := _resolve_charger_auth_failure_alert e station_id in
      let! _ := _log_security_event e c LogEvent station_id STARTUP_OF_THE_DEVICE
                  ("Station " +:+ station_id +:+ " authenticated successfully using " +:+ method_value m) in
      ret (true, None)
  | None =>
      let! r := failed_login e c station_id ("All authentication methods failed for station " +:+ station_id)
                  "Authentication failed" in
      let! _ := _emit_charger_auth_failure_alert e station_id "invalid_credentials" in
      ret r
  end.

Definition authenticate_body (e : auth_env) (c : SecurityConfig) (station_id : string) (a : auth_data)
    (client_cert : option cert) : act (bool * option string) :=
  let! locked := _is_station_locked_out e c station_id in
  if locked then
    let! _ := _log_security_event e c LogEvent station_id FAILED_TO_AUTHENTICATE_AT_CENTRAL_SYSTEM
                ("Station " +:+ station_id +:+ " is locked out due to failed authentication attempts") in
    ret (false, Some "Station is temporarily locked out"%string)
  else
    let! required := _station_requires_basic_auth e station_id in
    if required then
      match given (ad_username a), given (ad_password a) with
      | Some username, Some _ =>
          let! allowed := _is_basic_auth_username_allowed e station_id username in
          if allowed then run_methods e c true station_id a client_cert
          else failed_login e c station_id
                 ("Basic Auth username must match station id or an active alias for station " +:+ station_id)
                 "Basic Auth username must match station id or active alias"
      | _, _ => failed_login e c station_id ("Basic Auth credentials are required for station " +:+ station_id)
                  "Basic Auth credentials required"
      end
    else run_methods e c false station_id a client_cert.

Definition authenticate_station (e : auth_env) (c : SecurityConfig) (station_id : string) (a : auth_data)
    (client_cert : option cert) : act (bool * option string) :=
  catch (authenticate_body e c station_id a client_cert)
    (let! _ := _log_security_event e c LogError station_id CRITICAL_SECURITY_ERROR "Authentication error" in
     ret (false, Some "Internal authentication error"%string)).

(** ** Tokens and events *)

(** [jwt_encode station kind iat exp]. *)
Definition generate_station_token (e : auth_env) (c : SecurityConfig)
    (jwt_encode : string -> string -> Z -> Z -> string) (station_id kind : string) : act StationAuthToken :=
  let now := clock e AtToken in
  let iat := now / 1000000 in
  let token := jwt_encode station_id kind iat (iat + token_expiry_hours c * 3600) in
  let t := {| tk_token := token; tk_expires := now + token_expiry_hours c * 60 * minute;
              tk_last_used := None; tk_usage := 0 |} in
  let same r := String.eqb (tr_station r) station_id && String.eqb (tr_kind r) kind in
  let! _ := call e StoreToken (put (fun w =>
    with_tables (aliases w) (credentials w)
      (if existsb same (auth_tokens w)
       then map (fun r => if same r then {| tr_station := tr_station r; tr_token := token;
                                           tr_hash := hash_secret e token; tr_kind := tr_kind r;
                                           tr_expires := tk_expires t; tr_revoked := tr_revoked r;
                                           tr_used := tr_used r; tr_count := tr_count r |} else r) (auth_tokens w)
       else auth_tokens w ++ [{| tr_station := station_id; tr_token := token; tr_hash := hash_secret e token;
                                tr_kind := kind; tr_expires := tk_expires t; tr_revoked := None; tr_used := None;
                                tr_count := 0 |}])
      (security_events w) (alert_rows w) w)) in
  let! _ := put (with_tokens (fun d => d +{ station_id := t })) in
  ret t.

Definition revoke_auth_token (now : Z) (station_id : string) (w : world) : world :=
  with_tables (aliases w) (credentials w)
    (map (fun r => if String.eqb (tr_station r) station_id && bool_decide (tr_revoked r = None)
                   then {| tr_station := tr_station r; tr_token := tr_token r; tr_hash := tr_hash r;
                           tr_kind := tr_kind r; tr_expires := now; tr_revoked := Some now; tr_used := tr_used r;
                           tr_count := tr_count r |} else r) (auth_tokens w))
    (security_events w) (alert_rows w) w.

Definition revoke_station_token (e : auth_env) (c : SecurityConfig) (station_id : string) : act bool :=
  catch (
    let! _ := put (with_tokens (dpop station_id)) in
    let! _ := call e RevokeToken (put (revoke_auth_token (clock e AtToken) station_id)) in
    let! _ := _log_security_event e c LogEvent station_id RECONFIGURATION_SECURITY_PARAMETERS
                ("Authentication token revoked for station " +:+ station_id) in
    ret true) (ret false).

Definition _handle_critical_security_event (e : auth_env) (c : SecurityConfig) (station_id : string) : act unit :=
  let! _ := revoke_station_token e c station_id in
  put (with_failed (fun d => d +{ station_id :=
    repeat (clock e AtFailure - minute) (Z.to_nat (max_failed_auth_attempts c)) })).

Definition is_critical (t : SecurityEventType) : bool :=
  bool_decide (t ∈ [CRITICAL_SECURITY_ERROR; ATTEMPTED_REPLAY_ATTACKS; TAMPER_DETECTION_ACTIVATED]).

(** [timestamp] is the parsed instant, if it parses. *)
Definition handle_security_event_notification (e : auth_env) (c : SecurityConfig) (station_id event_type : string)
    (timestamp : option Z) (tech_info : option string) : act string :=
  match event_of event_type with
  | None => ret "Rejected"%string
  | Some t =>
      catch (
        let! time := lift (match timestamp with Some x => Ok x | None => Err "ValueError"%string end) in
        let! _ := _store_security_event e StoreEvent
                    {| ev_station := station_id; ev_type := t; ev_time := time; ev_info := tech_info |} in
        let! _ := if is_critical t then _handle_critical_security_event e c station_id else ret tt in
        ret "Accepted"%string) (ret "Rejected"%string)
  end.

(** [ORDER BY timestamp DESC LIMIT 1000]. *)
Definition get_security_events (station_id : option string) (t : option SecurityEventType) (start_ end_ : option Z)
    (w : world) : list security_row :=
  let ok r :=
    match given station_id with Some s => String.eqb (ev_station r) s | None => true end
    && match t with Some x => bool_decide (ev_type r = x) | None => true end
    && match start_ with Some x => x <=? ev_time r | None => true end
    && match end_ with Some x => ev_time r <=? x | None => true end in
  take 1000 (sort_by (fun a b => ev_time b <=? ev_time a) (List.filter ok (security_events w))).
