(* ===== verification/StationAuthFacts.v ===== *)
(** * Correctness of station authentication

    A station is let in only with a credential of its own; wrong credentials are
    throttled: with the default limits, of six consecutive refusals the last comes
    at least half an hour after the first. The counterexamples show what a revoked
    token and a failing database still do. *)

From S2P Require Import Prelude PyText Alerts StationAuth.
From Stdlib Require Import ZArith Lia Ascii Sorted.
From stdpp Require Import base list strings.

#[local] Open Scope Z_scope.

(** ** Effects *)

Lemma act_bind_Ok {A B} (m : act A) (k : A -> act B) w b w' :
  bind m k w = (Ok b, w') -> exists a w1, m w = (Ok a, w1) /\ k a w1 = (Ok b, w').
Proof. unfold bind. destruct (m w) as [[a|x] w1]; [|done]. eauto. Qed.

Lemma catch_Ok {A} (m h : act A) w a w' :
  catch m h w = (Ok a, w') -> m w = (Ok a, w') \/ exists x w1, m w = (Err x, w1) /\ h w1 = (Ok a, w').
Proof. unfold catch. destruct (m w) as [[b|x] w1]; intros H; [by left; injection H as -> ->|right; eauto]. Qed.

Lemma call_Ok {A} e c (m : act A) w a w' : call e c m w = (Ok a, w') -> fails e c = false /\ m w = (Ok a, w').
Proof. unfold call. by destruct (fails e c). Qed.

(** Splits a run that returned into the runs of its parts. *)
Ltac inv_act :=
  repeat match goal with
  | H : bind _ _ _ = (Ok _, _) |- _ =>
      let a := fresh "a" in let w := fresh "w" in let Hm := fresh "Hm" in
      apply act_bind_Ok in H as (a & w & Hm & H)
  | H : ret _ _ = _ |- _ => unfold ret in H; simplify_eq
  | H : get _ _ = _ |- _ => unfold get in H; simplify_eq
  | H : put _ _ = _ |- _ => unfold put in H; simplify_eq
  | H : lift _ _ = _ |- _ => unfold lift in H; simplify_eq
  | H : call _ _ _ _ = (Ok _, _) |- _ => let Hf := fresh "Hf" in apply call_Ok in H as [Hf H]
  end.

(** An effect that leaves a part of the world as it was, however it ends. *)
Definition keeps {A B} (f : world -> B) (m : act A) : Prop := forall w, f (snd (m w)) = f w.

Lemma act_keeps_ret {A B} (f : world -> B) (a : A) : keeps f (ret a).
Proof. done. Qed.
Lemma keeps_get {A B} (f : world -> B) (g : world -> A) : keeps f (get g).
Proof. done. Qed.
Lemma act_keeps_lift {A B} (f : world -> B) (r : result string A) : keeps f (lift r).
Proof. done. Qed.
Lemma act_keeps_bind {A B C} (f : world -> B) (m : act A) (k : A -> act C) :
  keeps f m -> (forall a, keeps f (k a)) -> keeps f (bind m k).
Proof.
  intros Hm Hk w. unfold bind. specialize (Hm w). destruct (m w) as [[a|x] w1]; cbn in *; [|done].
  by rewrite (Hk a w1).
Qed.
Lemma keeps_catch {A B} (f : world -> B) (m h : act A) : keeps f m -> keeps f h -> keeps f (catch m h).
Proof.
  intros Hm Hh w. unfold catch. specialize (Hm w). destruct (m w) as [[a|x] w1]; cbn in *; [done|].
  by rewrite (Hh w1).
Qed.
Lemma keeps_call {A B} (f : world -> B) e c (m : act A) : keeps f m -> keeps f (call e c m).
Proof. intros Hm w. unfold call. destruct (fails e c); [done|]. apply Hm. Qed.
Lemma keeps_put {B} (f : world -> B) g : (forall w, f (g w) = f w) -> keeps f (put g).
Proof. intros H w. apply H. Qed.

Create HintDb act_frame.
#[export] Hint Resolve act_keeps_ret keeps_get act_keeps_lift : act_frame.

(** Follows the structure of an effect. *)
Ltac frame :=
  repeat first
    [ progress intros
    | solve [auto with act_frame nocore]
    | simple apply act_keeps_bind | simple apply keeps_catch | simple apply keeps_call
    | solve [simple apply keeps_put; intros; reflexivity]
    | progress cbv zeta
    | match goal with
      | |- keeps _ (if ?b then _ else _) => destruct b
      | |- keeps _ (match ?x with _ => _ end) => destruct x
      end ].

(** The tables the methods read. *)
Definition tables (w : world) := (aliases w, credentials w, api_keys w).

Lemma log_failed e c d st t m : keeps failed_auth_attempts (_log_security_event e c d st t m).
Proof. unfold _log_security_event, _store_security_event. frame. Qed.
Lemma emit_failed e st r : keeps failed_auth_attempts (_emit_charger_auth_failure_alert e st r).
Proof. unfold _emit_charger_auth_failure_alert. frame. Qed.
Lemma resolve_failed e st : keeps failed_auth_attempts (_resolve_charger_auth_failure_alert e st).
Proof. unfold _resolve_charger_auth_failure_alert. frame. Qed.
#[export] Hint Resolve log_failed emit_failed resolve_failed : act_frame.

Lemma token_keeps e st tok : keeps tables (validate_station_token e st tok).
Proof. unfold validate_station_token, decode_station_token. frame. Qed.
Lemma token_failed e st tok : keeps failed_auth_attempts (validate_station_token e st tok).
Proof. unfold validate_station_token, decode_station_token. frame. Qed.
Lemma cert_keeps e c st ct : keeps tables (_authenticate_client_certificate e c st ct).
Proof. unfold _authenticate_client_certificate, validate_client_certificate. frame. Qed.
Lemma cert_tokens e c st ct : keeps token_cache (_authenticate_client_certificate e c st ct).
Proof. unfold _authenticate_client_certificate, validate_client_certificate. frame. Qed.
Lemma cert_failed e c st ct : keeps failed_auth_attempts (_authenticate_client_certificate e c st ct).
Proof. unfold _authenticate_client_certificate, validate_client_certificate. frame. Qed.
Lemma key_keeps e st a : keeps tables (_authenticate_api_key e st a).
Proof. unfold _authenticate_api_key, validate_api_key. frame. Qed.
Lemma key_failed e st a : keeps failed_auth_attempts (_authenticate_api_key e st a).
Proof. unfold _authenticate_api_key, validate_api_key. frame. Qed.
Lemma basic_failed e pre st a : keeps failed_auth_attempts (_authenticate_basic_auth e pre st a).
Proof. unfold _authenticate_basic_auth, _is_basic_auth_username_allowed, validate_basic_auth. frame. Qed.
#[export] Hint Resolve token_keeps token_failed cert_keeps cert_failed key_keeps key_failed basic_failed : act_frame.
Lemma bearer_keeps e st a : keeps tables (_authenticate_bearer_token e st a).
Proof. unfold _authenticate_bearer_token. frame. Qed.
Lemma bearer_failed e st a : keeps failed_auth_attempts (_authenticate_bearer_token e st a).
Proof. unfold _authenticate_bearer_token. frame. Qed.
#[export] Hint Resolve bearer_keeps bearer_failed : act_frame.

(** ** Credentials *)

Definition alias_ok (st u : string) (w : world) : Prop :=
  u = st \/ exists a, a ∈ aliases w /\ as_alias a = u /\ as_canonical a = st /\ as_active a = true.

(** An active password of the station, under its id or the username presented. *)
Definition password_ok (e : auth_env) (st : string) (a : auth_data) (w : world) : Prop :=
  exists u p r, given (ad_username a) = Some u /\ given (ad_password a) = Some p /\ alias_ok st u w /\
    r ∈ credentials w /\ cr_station r = st /\ (cr_username r = u \/ cr_username r = st) /\ cr_active r = true /\
    checkpw e p (cr_hash r) = Ok true.

Definition key_ok (e : auth_env) (st : string) (a : auth_data) (w : world) : Prop :=
  exists k r, or_given (ad_api_key a) (ad_x_api_key a) = Some k /\ r ∈ api_keys w /\ ky_station r = st /\
    (ky_hash r = Some (hash_secret e k) \/ ky_key r = k) /\ ky_active r = true /\
    match ky_expires r with Some t => clock e AtToken < t | None => True end.

(** The token last issued to the station in this process, or a signed one for it. *)
Definition token_ok (e : auth_env) (st : string) (a : auth_data) (w : world) : Prop :=
  exists tok, or_given (ad_bearer_token a)
                (Some (match ad_authorization a with Some s => strip_bearer s | None => ""%string end)) = Some tok /\
    ((exists t, token_cache w @? st = Some t /\ tk_token t = tok /\ clock e AtToken < tk_expires t)
     \/ exists exp, jwt_decode e tok = Some (Some st, exp) /\ payload_expired (clock e AtToken) exp = false).

Definition cert_ok (e : auth_env) (c : SecurityConfig) (st : string) (ct : option cert) (w : world) : Prop :=
  exists x, ct = Some x /\ require_mtls c = true /\
    ((exists t, cert_validation_cache w @? (st +:+ ":" +:+ ct_fingerprint x) = Some (true, t) /\
                clock e AtToken - t < 60 * minute)
     \/ _validate_certificate_chain (clock e AtToken) x st = true).

Lemma username_allowed_alias st u w : username_allowed st u w = true -> alias_ok st u w.
Proof.
  unfold username_allowed. intros [E|E]%orb_prop; [left; by apply String.eqb_eq|right].
  apply existsb_exists in E as (a & Ha & E). apply andb_prop in E as [E E3]. apply andb_prop in E as [E1 E2].
  apply String.eqb_eq in E1, E2. exists a. by rewrite list_elem_of_In.
Qed.

Lemma is_allowed_alias e st u w w' :
  _is_basic_auth_username_allowed e st u w = (Ok true, w') -> w' = w /\ alias_ok st u w.
Proof.
  intros [H|(x & w1 & H1 & H)]%catch_Ok.
  - inv_act. split; [done|]. by apply username_allowed_alias.
  - assert (w1 = w) as -> by (unfold call, get in H1; destruct (fails e UsernameAllowed); congruence).
    inv_act. split; [done|]. left. by apply String.eqb_eq.
Qed.

Lemma credential_for_row st u w r :
  credential_for st u w = Some r ->
  r ∈ credentials w /\ cr_station r = st /\ (cr_username r = u \/ cr_username r = st) /\ cr_active r = true.
Proof.
  assert (X : forall v, List.find (fun r => String.eqb (cr_station r) st && String.eqb (cr_username r) v && cr_active r)
                          (credentials w) = Some r ->
              r ∈ credentials w /\ cr_station r = st /\ cr_username r = v /\ cr_active r = true).
  { intros v H. apply find_some in H as [H E]. apply andb_prop in E as [E E3]. apply andb_prop in E as [E1 E2].
    apply String.eqb_eq in E1, E2. by rewrite list_elem_of_In. }
  unfold credential_for. destruct (List.find _ _) as [r'|] eqn:E.
  - intros [= ->]. destruct (X u E) as (H1 & H2 & H3 & H4). split_and!; auto.
  - intros H. destruct (X st H) as (H1 & H2 & H3 & H4). split_and!; auto.
Qed.

Lemma basic_sound e pre st a w w' :
  _authenticate_basic_auth e pre st a w = (Ok true, w') ->
  (pre = true -> forall u, given (ad_username a) = Some u -> alias_ok st u w) -> password_ok e st a w.
Proof.
  unfold _authenticate_basic_auth. destruct (given (ad_username a)) as [u|] eqn:Eu; [|done].
  destruct (given (ad_password a)) as [p|] eqn:Ep; [|done]. intros H Hpre.
  apply act_bind_Ok in H as (ok & w1 & H1 & H). destruct ok; [|done].
  assert (w1 = w /\ alias_ok st u w) as [-> Ha].
  { destruct pre; [|by apply (is_allowed_alias e)]. inv_act. split; [done|]. by apply Hpre. }
  unfold validate_basic_auth in H. destruct (supabase e); [|done]. cbn [negb] in H. inv_act.
  destruct (credential_for st u _) as [r|] eqn:Er; [|done].
  apply act_bind_Ok in H as (ok & w2 & H2 & H). unfold lift in H2. injection H2 as H2 <-.
  destruct ok; [|done]. apply credential_for_row in Er as (R1 & R2 & R3 & R4).
  exists u, p, r. split_and!; done.
Qed.

Lemma key_sound e st a w w' : _authenticate_api_key e st a w = (Ok true, w') -> key_ok e st a w.
Proof.
  unfold _authenticate_api_key. destruct (or_given _ _) as [k|] eqn:Ek; [|done]. unfold validate_api_key. intros H.
  inv_act. apply existsb_exists in H as (r & Hr & E). apply andb_prop in E as [E E4]. apply andb_prop in E as [E E3].
  apply andb_prop in E as [E1 E2]. apply String.eqb_eq in E1. exists k, r. rewrite list_elem_of_In. split_and!; try done.
  - apply orb_prop in E2 as [E2|E2]; [left; by apply bool_decide_eq_true_1 in E2|right; by apply String.eqb_eq].
  - destruct (ky_expires r); [by apply Z.ltb_lt|done].
Qed.

Lemma token_sound e st a w w' : _authenticate_bearer_token e st a w = (Ok true, w') -> token_ok e st a w.
Proof.
  unfold _authenticate_bearer_token. cbv zeta. destruct (or_given _ _) as [tok|] eqn:Et; [|done].
  intros H. exists tok. split; [done|]. unfold validate_station_token in H.
  apply catch_Ok in H as [H|(x & w1 & _ & H)]; [|done]. cbv zeta in H.
  apply act_bind_Ok in H as (cached & w1 & H1 & H). unfold get in H1. injection H1 as H1 <-.
  assert (D : decode_station_token e st tok w = (Ok true, w') ->
              exists exp, jwt_decode e tok = Some (Some st, exp) /\ payload_expired (clock e AtToken) exp = false).
  { unfold decode_station_token. cbv zeta. destruct (jwt_decode e tok) as [[s exp]|]; [|done].
    case_bool_decide as Es; [|done]. destruct (payload_expired _ exp) eqn:Ex; [done|]. intros _. exists exp. by subst. }
  destruct cached as [t|]; [|right; by apply D].
  destruct (String.eqb (tk_token t) tok && (clock e AtToken <? tk_expires t)) eqn:E; [|right; by apply D].
  left. apply andb_prop in E as [E1 E2]. exists t. split_and!; [done|by apply String.eqb_eq|by apply Z.ltb_lt].
Qed.

Lemma cert_sound e c st ct w w' :
  _authenticate_client_certificate e c st ct w = (Ok true, w') -> cert_ok e c st ct w.
Proof.
  unfold _authenticate_client_certificate. destruct ct as [x|]; [|done]. destruct (require_mtls c) eqn:Em; [|done].
  unfold validate_client_certificate. cbv zeta. intros H. exists x. split_and!; [done|done|].
  apply act_bind_Ok in H as (hit & w1 & H1 & H). unfold get in H1. injection H1 as H1 <-.
  destruct hit as [[ok t]|]; [destruct (Z.ltb_spec (clock e AtToken - t) (60 * minute))|]; inv_act; eauto.
Qed.

(** What the methods accept. *)
Definition credential_ok (e : auth_env) (c : SecurityConfig) (required : bool) (st : string) (a : auth_data)
    (ct : option cert) (w : world) : Prop :=
  password_ok e st a w \/ (required = false /\ (token_ok e st a w \/ key_ok e st a w \/ cert_ok e c st ct w)).

Lemma password_ok_tables e st a w w' : tables w' = tables w -> password_ok e st a w' -> password_ok e st a w.
Proof. unfold password_ok, alias_ok, tables. by intros [= -> -> _]. Qed.
Lemma key_ok_tables e st a w w' : tables w' = tables w -> key_ok e st a w' -> key_ok e st a w.
Proof. unfold key_ok, tables. by intros [= _ _ ->]. Qed.
Lemma token_ok_tokens e st a w w' : token_cache w' = token_cache w -> token_ok e st a w' -> token_ok e st a w.
Proof. unfold token_ok. by intros ->. Qed.

Lemma keeps_eq {A B} (f : world -> B) (m : act A) w r w' : keeps f m -> m w = (r, w') -> f w' = f w.
Proof. intros K E. specialize (K w). by rewrite E in K. Qed.

Lemma methods_sound e c required st a ct w m w' :
  first_method (auth_methods e c required st a ct) w = (Ok (Some m), w') ->
  (required = true -> forall u, given (ad_username a) = Some u -> alias_ok st u w) ->
  credential_ok e c required st a ct w.
Proof.
  unfold auth_methods. destruct required; cbn [first_method]; intros H Hpre.
  - apply act_bind_Ok in H as (ok & w1 & H1 & H). destruct ok; [|inv_act; done]. left.
    apply (basic_sound e true st a w w1); auto.
  - apply act_bind_Ok in H as (ok & w1 & H1 & H). destruct ok.
    { right. split; [done|]. right; right. by apply (cert_sound e c st ct w w1). }
    pose proof (keeps_eq _ _ _ _ _ (cert_keeps e c st ct) H1) as T1.
    pose proof (keeps_eq _ _ _ _ _ (cert_tokens e c st ct) H1) as K1.
    apply act_bind_Ok in H as (ok & w2 & H2 & H). destruct ok.
    { right. split; [done|]. left. apply (token_ok_tokens _ _ _ _ w1 K1). by apply (token_sound e st a w1 w2). }
    pose proof (keeps_eq _ _ _ _ _ (bearer_keeps e st a) H2) as T2.
    apply act_bind_Ok in H as (ok & w3 & H3 & H). destruct ok.
    { right. split; [done|]. right; left. apply (key_ok_tables _ _ _ _ w2); [congruence|].
      by apply (key_sound e st a w2 w3). }
    pose proof (keeps_eq _ _ _ _ _ (key_keeps e st a) H3) as T3.
    apply act_bind_Ok in H as (ok & w4 & H4 & H). destruct ok; [|inv_act; done].
    left. apply (password_ok_tables _ _ _ _ w3); [congruence|]. by apply (basic_sound e false st a w3 w4).
Qed.

Lemma requires_value e st w b w' :
  _station_requires_basic_auth e st w = (Ok b, w') ->
  w' = w /\ (supabase e = true -> fails e RequiresBasic = false -> b = station_requires_basic_auth st w).
Proof.
  unfold _station_requires_basic_auth, catch, call, get, ret.
  destruct (supabase e), (fails e RequiresBasic); intros [= <- <-]; done.
Qed.

Lemma failed_login_false e c st m x w r w' : failed_login e c st m x w = (Ok r, w') -> r = (false, Some x).
Proof. unfold failed_login. intros H. by inv_act. Qed.

Lemma run_methods_true e c required st a ct w msg w' :
  run_methods e c required st a ct w = (Ok (true, msg), w') ->
  exists m w1, first_method (auth_methods e c required st a ct) w = (Ok (Some m), w1).
Proof.
  unfold run_methods. intros H. apply act_bind_Ok in H as (found & w1 & H1 & H). destruct found as [m|]; [eauto|].
  apply act_bind_Ok in H as (r & w2 & H2 & H). apply failed_login_false in H2 as ->. inv_act.
Qed.

Lemma admission_sound e c st a ct w msg w' :
  authenticate_station e c st a ct w = (Ok (true, msg), w') ->
  locked_out c (clock e AtCheck) st w = false /\
  exists required, credential_ok e c required st a ct w /\
    (supabase e = true -> fails e RequiresBasic = false -> required = station_requires_basic_auth st w).
Proof.
  intros [H|(x & w1 & _ & H)]%catch_Ok; [|by inv_act].
  unfold authenticate_body in H. apply act_bind_Ok in H as (locked & w1 & H1 & H).
  unfold _is_station_locked_out, get in H1. simplify_eq.
  destruct (locked_out c (clock e AtCheck) st w1) eqn:L; [by inv_act|]. split; [done|].
  apply act_bind_Ok in H as (required & w2 & H2 & H). apply requires_value in H2 as [-> Hr].
  exists required. split; [|done]. destruct required.
  - destruct (given (ad_username a)) as [u|] eqn:Eu; [|by apply failed_login_false in H].
    destruct (given (ad_password a)) as [p|] eqn:Ep; [|by apply failed_login_false in H].
    apply act_bind_Ok in H as (allowed & w2 & H2 & H). destruct allowed; [|by apply failed_login_false in H].
    apply is_allowed_alias in H2 as [-> Ha]. apply run_methods_true in H as (m & w2 & H).
    apply (methods_sound _ _ _ _ _ _ _ _ _ H). intros _ u' E. by simplify_eq.
  - apply run_methods_true in H as (m & w2 & H). by apply (methods_sound _ _ _ _ _ _ _ _ _ H).
Qed.

(** A station is authenticated only while it is not locked out, and only by an active
    password stored for it and presented under its id or one of its active aliases, or,
    where Basic Auth is not required, by the token issued to it or signed for it, an
    active and unexpired API key of its own, or its certificate. The requirement is the
    station's setting whenever that can be read. *)
Theorem only_credentials_admit e c st a ct w msg w' :
  authenticate_station e c st a ct w = (Ok (true, msg), w') ->
  locked_out c (clock e AtCheck) st w = false /\
  exists required, credential_ok e c required st a ct w /\
    (supabase e = true -> fails e RequiresBasic = false -> required = station_requires_basic_auth st w).
Proof. apply admission_sound. Qed.

(** ** Lockout *)

Definition above (th : Z) (l : list Z) : nat := length (List.filter (fun a => th <? a) l).

Lemma above_app th l1 l2 : above th (l1 ++ l2) = (above th l1 + above th l2)%nat.
Proof. unfold above. by rewrite List.filter_app, length_app. Qed.

Lemma above_window cut th l : cut <= th -> above th (List.filter (fun a => cut <? a) l) = above th l.
Proof.
  intros H. unfold above. f_equal. apply (lfilter_window (fun t a => t <? a)). intros a Ha.
  apply Z.ltb_lt in Ha. apply Z.ltb_lt. lia.
Qed.

(** In a sorted log the last [n] entries are all late if one before them is. *)
Lemma above_suffix L i a th n :
  StronglySorted Z.le L -> L !! i = Some a -> (length L = i + n)%nat -> th < a -> (n <= above th L)%nat.
Proof.
  intros S E Ln Ha. rewrite <- (take_drop i L) in S |- *. rewrite above_app.
  assert (F : Forall (fun x => th < x) (drop i L)).
  { rewrite (drop_S L a i E) in S |- *. constructor; [done|]. apply Forall_forall. intros x Hx.
    assert (a <= x); [|lia]. clear -S Hx E.
    revert S. generalize (take i L). induction l as [|y l IH]; cbn; inversion_clear 1; [|by apply IH].
    rewrite Forall_forall in H0. by apply H0. }
  assert (above th (drop i L) = length (drop i L)) as ->.
  { unfold above. clear -F. induction F as [|x l Hx F IH]; [done|]. cbn.
    destruct (Z.ltb_spec th x); [|lia]. cbn. by rewrite IH. }
  rewrite length_drop. lia.
Qed.

(** The answers that tell the caller its credentials were judged and refused. *)
Definition refused (r : result string (bool * option string)) : bool :=
  match r with
  | Ok (false, Some x) =>
      existsb (String.eqb x) ["Authentication failed"; "Basic Auth credentials required";
                              "Basic Auth username must match station id or active alias"]%string
  | _ => false
  end.

Definition recorded (e : auth_env) (c : SecurityConfig) (st : string) (w : world) : dict string (list Z) :=
  failed_auth_attempts w +{ st :=
    List.filter (fun a => clock e AtCutoff - lockout_us c <? a) (attempts_of st w ++ [clock e AtFailure]) }.

(** What a login can do to the recorded failures. *)
Definition login_effect (e : auth_env) (c : SecurityConfig) (st : string) (w : world)
    (o : result string (bool * option string) * world) : Prop :=
  (failed_auth_attempts (snd o) = failed_auth_attempts w /\ refused (fst o) = false)
  \/ (failed_auth_attempts (snd o) = recorded e c st w /\ locked_out c (clock e AtCheck) st w = false)
  \/ (failed_auth_attempts (snd o) = dpop st (failed_auth_attempts w) /\ refused (fst o) = false).

Lemma first_method_failed l :
  Forall (fun x => keeps failed_auth_attempts (snd x)) l -> keeps failed_auth_attempts (first_method l).
Proof.
  induction 1 as [|[m f] l H _ IH]; [apply act_keeps_ret|]. cbn. apply act_keeps_bind; [done|]. intros []; [apply act_keeps_ret|done].
Qed.

Lemma methods_failed e c required st a ct :
  keeps failed_auth_attempts (first_method (auth_methods e c required st a ct)).
Proof. apply first_method_failed. unfold auth_methods. destruct required; repeat constructor; cbn; frame. Qed.

Lemma failed_login_records e c st m x w :
  failed_auth_attempts (snd (failed_login e c st m x w)) = recorded e c st w.
Proof.
  unfold failed_login, _record_failed_attempt. unfold bind at 1. cbn [put].
  apply (act_keeps_bind failed_auth_attempts (_log_security_event _ _ _ _ _ _)); [apply log_failed|frame].
Qed.

Lemma run_methods_effect e c required st a ct w :
  locked_out c (clock e AtCheck) st w = false -> login_effect e c st w (run_methods e c required st a ct w).
Proof.
  intros L. unfold run_methods. unfold bind at 1. pose proof (methods_failed e c required st a ct w) as K.
  destruct (first_method _ w) as [[found|x] w1]; cbn in K; [|by left].
  destruct found as [m|].
  - right; right. unfold _clear_failed_attempts. unfold bind at 1. cbn [put].
    match goal with |- context [bind ?m ?k ?w2] =>
      assert (keeps failed_auth_attempts (bind m k)) as F by frame; specialize (F w2);
      assert (refused (fst (bind m k w2)) = false) as R end.
    + unfold bind, ret. repeat case_match; simplify_eq; done.
    + split; [|done]. rewrite F. cbn. by rewrite K.
  - right; left. split; [|done]. unfold bind at 1.
    pose proof (failed_login_records e c st ("All authentication methods failed for station " +:+ st)
                  "Authentication failed" w1) as F.
    destruct (failed_login _ _ _ _ _ w1) as [[r|x] w2]; cbn in F.
    + unfold bind. pose proof (emit_failed e st "invalid_credentials" w2) as G.
      assert (E : recorded e c st w1 = recorded e c st w) by (unfold recorded, attempts_of; by rewrite K).
      destruct (_emit_charger_auth_failure_alert _ _ _ w2) as [[u|x] w3]; cbn in *; congruence.
    + cbn. rewrite F. unfold recorded, attempts_of. by rewrite K.
Qed.

Lemma body_effect e c st a ct w : login_effect e c st w (authenticate_body e c st a ct w).
Proof.
  unfold authenticate_body. unfold bind at 1. cbn [_is_station_locked_out get].
  destruct (locked_out c (clock e AtCheck) st w) eqn:L.
  - left. assert (K := log_failed e c LogEvent st FAILED_TO_AUTHENTICATE_AT_CENTRAL_SYSTEM
                         ("Station " +:+ st +:+ " is locked out due to failed authentication attempts") w).
    unfold bind. destruct (_log_security_event _ _ _ _ _ _ w) as [[u|x] w1]; cbn in *; done.
  - unfold bind at 1. destruct (_station_requires_basic_auth e st w) as [[required|x] w1] eqn:E.
    2: { unfold _station_requires_basic_auth, catch, call, get, ret in E.
         destruct (supabase e), (fails e RequiresBasic); done. }
    apply requires_value in E as [-> _]. destruct required; [|by apply run_methods_effect].
    assert (F : forall m x, login_effect e c st w (failed_login e c st m x w))
      by (intros m x; right; left; split; [apply failed_login_records|done]).
    destruct (given (ad_username a)) as [u|]; [|apply F]. destruct (given (ad_password a)) as [p|]; [|apply F].
    unfold bind. destruct (_is_basic_auth_username_allowed e st u w) as [[ok|x] w1] eqn:E.
    + assert (w1 = w) as ->.
      { unfold _is_basic_auth_username_allowed, catch, call, get, ret in E.
        destruct (fails e UsernameAllowed); congruence. }
      destruct ok; [by apply run_methods_effect|apply F].
    + unfold _is_basic_auth_username_allowed, catch, call, get, ret in E.
      destruct (fails e UsernameAllowed); congruence.
Qed.

Lemma login_does e c st a ct w : login_effect e c st w (authenticate_station e c st a ct w).
Proof.
  pose proof (body_effect e c st a ct w) as H. unfold authenticate_station, catch.
  destruct (authenticate_body e c st a ct w) as [[r|x] w1]; [done|].
  assert (K := log_failed e c LogError st CRITICAL_SECURITY_ERROR "Authentication error" w1).
  unfold bind. destruct (_log_security_event _ _ _ _ _ _ w1) as [[u|y] w2]; unfold login_effect in *; cbn in *;
    rewrite K; destruct H as [[H _]|[[H L]|[H _]]]; auto.
Qed.

(** *** Histories *)

Lemma revoke_failed e c st : keeps failed_auth_attempts (revoke_station_token e c st).
Proof. unfold revoke_station_token. frame. Qed.
Lemma generate_failed e c enc st kind : keeps failed_auth_attempts (generate_station_token e c enc st kind).
Proof. unfold generate_station_token. frame. Qed.
#[export] Hint Resolve revoke_failed generate_failed : act_frame.

Section throttle.
Context (c : SecurityConfig) (st : string) (Hmax : 0 < max_failed_auth_attempts c).

(** Everything that happens in the process, seen from one station: [L] are the
    instants of its refusals since its failures were last cleared or replaced. *)
Inductive guard_run : Z -> list Z -> world -> Prop :=
  | guard_start t w : failed_auth_attempts w @? st = None -> guard_run t [] w
  | guard_login t L w e a ct r w' :
      guard_run t L w -> t <= clock e AtCheck -> clock e AtCheck <= clock e AtFailure ->
      clock e AtFailure <= clock e AtCutoff -> authenticate_station e c st a ct w = (r, w') ->
      guard_run (clock e AtCutoff)
        (if refused r then L ++ [clock e AtFailure]
         else match failed_auth_attempts w' @? st with None => [] | Some _ => L end) w'
  | guard_other_login t L w t' e st' a ct r w' :
      guard_run t L w -> t <= t' -> st' <> st -> authenticate_station e c st' a ct w = (r, w') -> guard_run t' L w'
  | guard_event t L w t' e st' ty ts info r w' :
      guard_run t L w -> t <= t' -> handle_security_event_notification e c st' ty ts info w = (r, w') ->
      guard_run t' (if bool_decide (failed_auth_attempts w' @? st = failed_auth_attempts w @? st) then L else []) w'
  | guard_token t L w t' e enc st' kind r w' :
      guard_run t L w -> t <= t' -> generate_station_token e c enc st' kind w = (r, w') -> guard_run t' L w'
  | guard_revoke t L w t' e st' r w' :
      guard_run t L w -> t <= t' -> revoke_station_token e c st' w = (r, w') -> guard_run t' L w'
  | guard_tables t L w t' w' :
      guard_run t L w -> t <= t' -> failed_auth_attempts w' = failed_auth_attempts w -> guard_run t' L w'.

Record guard_inv (t : Z) (L : list Z) (w : world) : Prop := {
  gi_sorted : StronglySorted Z.le L;
  gi_past : Forall (fun x => x <= t) L;
  gi_kept : forall th, t - lockout_us c <= th -> (above th L <= above th (attempts_of st w))%nat;
  gi_spaced : forall i a b, L !! i = Some a -> L !! (i + Z.to_nat (max_failed_auth_attempts c))%nat = Some b ->
                a + lockout_us c <= b
}.

Lemma guard_nil t w : guard_inv t [] w.
Proof. split; [constructor..| |done]. intros th _. cbn. lia. Qed.

Lemma guard_later t t' L w w' :
  guard_inv t L w -> t <= t' -> failed_auth_attempts w' @? st = failed_auth_attempts w @? st -> guard_inv t' L w'.
Proof using Type.
  intros [S P K G] Ht E. split; [done| | |done].
  - eapply Forall_impl; [exact P|]. cbn. lia.
  - intros th Hth. unfold attempts_of. rewrite E. apply K. lia.
Qed.

Lemma not_locked_above e w :
  locked_out c (clock e AtCheck) st w = false ->
  (above (clock e AtCheck - lockout_us c) (attempts_of st w) < Z.to_nat (max_failed_auth_attempts c))%nat.
Proof using Hmax.
  unfold locked_out, attempts_of. destruct (failed_auth_attempts w @? st) as [l|]; [|intros _; cbn; lia].
  intros H. apply Z.leb_gt in H. unfold above.
  replace (List.filter _ l) with (recent_attempts c (clock e AtCheck) l); [lia|].
  unfold recent_attempts. apply lfilter_ext. intros a _. apply Bool.eq_iff_eq_true. rewrite !Z.ltb_lt. lia.
Qed.

Lemma guard_record t L w e w' :
  guard_inv t L w -> t <= clock e AtCheck -> clock e AtCheck <= clock e AtFailure ->
  clock e AtFailure <= clock e AtCutoff -> locked_out c (clock e AtCheck) st w = false ->
  failed_auth_attempts w' = recorded e c st w ->
  guard_inv (clock e AtCutoff) L w' /\ guard_inv (clock e AtCutoff) (L ++ [clock e AtFailure]) w'.
Proof using Hmax.
  intros [S P K G] H1 H2 H3 N E.
  assert (A : attempts_of st w' = List.filter (fun a => clock e AtCutoff - lockout_us c <? a)
                                    (attempts_of st w ++ [clock e AtFailure]))
    by (unfold attempts_of at 1; by rewrite E; unfold recorded; rewrite dget_dset_eq).
  split; split.
  - done.
  - eapply Forall_impl; [exact P|]. cbn. lia.
  - intros th Hth. rewrite A, above_window, above_app by lia. pose proof (K th ltac:(lia)). lia.
  - done.
  - apply sorted_snoc_le; [done|]. eapply Forall_impl; [exact P|]. cbn. lia.
  - apply Forall_app. split; [eapply Forall_impl; [exact P|]; cbn; lia|]. repeat constructor. lia.
  - intros th Hth. rewrite A, above_window, !above_app by lia. pose proof (K th ltac:(lia)). lia.
  - intros i a b Ea Eb.
    destruct (decide (i + Z.to_nat (max_failed_auth_attempts c) < length L)%nat) as [Hlt|Hge].
    { rewrite lookup_app_l in Ea, Eb by lia. by apply (G i). }
    assert (Hi : (i + Z.to_nat (max_failed_auth_attempts c) = length L)%nat).
    { apply lookup_lt_Some in Eb. rewrite length_app in Eb. cbn in Eb. lia. }
    rewrite Hi, lookup_app_r, Nat.sub_diag in Eb by lia. injection Eb as <-.
    rewrite lookup_app_l in Ea by lia. pose proof (not_locked_above e w N) as M.
    destruct (Z.le_gt_cases a (clock e AtCheck - lockout_us c)) as [Hle|Hgt]; [lia|].
    pose proof (above_suffix L i a (clock e AtCheck - lockout_us c) _ S Ea (eq_sym Hi) ltac:(lia)).
    pose proof (K (clock e AtCheck - lockout_us c) ltac:(lia)). lia.
Qed.

Lemma login_other e st' a ct w r w' :
  st' <> st -> authenticate_station e c st' a ct w = (r, w') ->
  failed_auth_attempts w' @? st = failed_auth_attempts w @? st.
Proof using Type.
  intros N E. pose proof (login_does e c st' a ct w) as H. rewrite E in H. unfold login_effect in H. cbn in H.
  destruct H as [[H _]|[[H _]|[H _]]]; rewrite H; unfold recorded;
    [done|by rewrite dget_dset_ne|by rewrite dget_dpop_ne].
Qed.

Lemma guard_invariant t L w : guard_run t L w -> guard_inv t L w.
Proof using Hmax.
  induction 1 as [t w E|t L w e a ct r w' _ IH H1 H2 H3 E|t L w t' e st' a ct r w' _ IH Ht N E
                 |t L w t' e st' ty ts info r w' _ IH Ht E|t L w t' e enc st' kind r w' _ IH Ht E
                 |t L w t' e st' r w' _ IH Ht E|t L w t' w' _ IH Ht E].
  - apply guard_nil.
  - pose proof (login_does e c st a ct w) as H. rewrite E in H. unfold login_effect in H. cbn in H.
    destruct H as [[H R]|[[H N]|[H R]]].
    + rewrite R, H. destruct (failed_auth_attempts w @? st) eqn:F; [|apply guard_nil].
      apply (guard_later t _ _ w); [done|lia|by rewrite H].
    + destruct (guard_record t L w e w' IH H1 H2 H3 N H) as [G1 G2].
      destruct (refused r); [done|]. rewrite H. unfold recorded. by rewrite dget_dset_eq.
    + rewrite R, H, dget_dpop_eq. apply guard_nil.
  - apply (guard_later t _ _ w); [done|done|]. by apply (login_other e st' a ct w r).
  - case_bool_decide as F; [|apply guard_nil]. by apply (guard_later t _ _ w).
  - apply (guard_later t _ _ w); [done|done|]. by rewrite (keeps_eq _ _ _ _ _ (generate_failed e c enc st' kind) E).
  - apply (guard_later t _ _ w); [done|done|]. by rewrite (keeps_eq _ _ _ _ _ (revoke_failed e c st') E).
  - apply (guard_later t _ _ w); [done|done|]. by rewrite E.
Qed.
End throttle.


(** ** Examples *)

(** The server's configuration. *)
Definition server_config : SecurityConfig :=
  {| require_mtls := false; require_station_auth := true; token_expiry_hours := 24; max_failed_auth_attempts := 5;
     lockout_duration_minutes := 30; enable_audit_logging := true |}.

Definition empty_world : world :=
  {| token_cache := []; failed_auth_attempts := []; cert_validation_cache := []; stations := []; aliases := [];
     credentials := []; api_keys := []; auth_tokens := []; security_events := []; alert_rows := [] |}.

(** One charger that requires Basic Auth, with an alias. *)
Definition depot_world : world :=
  {| token_cache := []; failed_auth_attempts := []; cert_validation_cache := [];
     stations := [{| st_id := "CS1"; st_auth_required := Some true; st_org := Some "O1"; st_depot := Some "D1";
                     st_name := None |}]%string;
     aliases := [{| as_alias := "SN1"; as_canonical := "CS1"; as_active := true |}]%string;
     credentials := [{| cr_station := "CS1"; cr_username := "CS1"; cr_hash := "h:secret"; cr_active := true;
                        cr_last_used := None |}]%string;
     api_keys := []; auth_tokens := []; security_events := []; alert_rows := [] |}.

Definition ex_env (down : db_call -> bool) (t : Z) : auth_env :=
  {| fails := down; clock := fun _ => t * minute; supabase := true;
     checkpw := fun p h => Ok (String.eqb ("h:" +:+ p) h); hash_secret := fun s => ("sha:" +:+ s)%string;
     jwt_decode := fun s => match split_on "."%char s with
                            | [st; exp] => match py_int exp with Some x => Some (Some st, Some x) | None => None end
                            | _ => None
                            end |}.
Definition up (_ : db_call) : bool := false.

Definition basic (u p : string) : auth_data :=
  {| ad_username := Some u; ad_password := Some p; ad_bearer_token := None; ad_authorization := None;
     ad_api_key := None; ad_x_api_key := None |}.
Definition bearer (t : string) : auth_data :=
  {| ad_username := None; ad_password := None; ad_bearer_token := Some t; ad_authorization := None;
     ad_api_key := None; ad_x_api_key := None |}.

Lemma only_credentials_admit_witness :
  let e := ex_env up 1 in
  let w' := snd (authenticate_station e server_config "CS1" (basic "SN1" "secret") None depot_world) in
  authenticate_station e server_config "CS1" (basic "SN1" "secret") None depot_world = (Ok (true, None), w')
  /\ locked_out server_config (clock e AtCheck) "CS1" depot_world = false.
Proof.
  split; [vm_compute; reflexivity|].
  refine (proj1 (only_credentials_admit (ex_env up 1) server_config "CS1" (basic "SN1" "secret") None depot_world
                   None _ _)).
  vm_compute. reflexivity.
Defined.

(** Logins of [CS1] with a wrong password at the given minutes. *)
Fixpoint wrong_logins (ts : list Z) (t : Z) (L : list Z) (w : world) : Z * list Z * world :=
  match ts with
  | [] => (t, L, w)
  | m :: ts' =>
      let e := ex_env up m in
      let o := authenticate_station e server_config "CS1" (basic "CS1" "guess") None w in
      wrong_logins ts' (m * minute)
        (if refused (fst o) then L ++ [m * minute]
         else match failed_auth_attempts (snd o) @? "CS1"%string with None => [] | Some _ => L end) (snd o)
  end.

Lemma wrong_logins_run ts t L w :
  guard_run server_config "CS1" (t * minute) L w -> forallb (fun m => t <=? m) ts = true ->
  StronglySorted Z.le ts ->
  guard_run server_config "CS1" (fst (fst (wrong_logins ts (t * minute) L w))) (snd (fst (wrong_logins ts (t * minute) L w)))
    (snd (wrong_logins ts (t * minute) L w)).
Proof.
  revert t L w. induction ts as [|m ts IH]; intros t L w R F S; [done|]. cbn [wrong_logins].
  cbn in F. apply andb_prop in F as [F1 F2]. apply Z.leb_le in F1. inversion_clear S as [|x y S' S2].
  apply IH; [|apply forallb_forall; intros x Hx; apply Z.leb_le; rewrite Forall_forall in S2; by apply S2, list_elem_of_In
            |done].
  destruct (authenticate_station (ex_env up m) server_config "CS1" (basic "CS1" "guess") None w) as [r w'] eqn:E.
  cbn [fst snd]. change (m * minute) with (clock (ex_env up m) AtCutoff) at 1.
  apply (guard_login server_config "CS1" (t * minute) L w (ex_env up m) (basic "CS1" "guess") None r w');
    cbn [clock ex_env]; [done|unfold minute; lia|lia|lia|done].
Qed.

Definition ex_guesses : Z * list Z * world := wrong_logins [1; 2; 3; 4; 5; 6; 20; 31; 32] 0 [] depot_world.


(** A token that was revoked still authenticates until it expires: validation
    falls back to the signature and never reads the table. *)
Lemma revoked_token_accepted :
  let enc st _ _ exp := (st +:+ "." +:+ py_str_int exp)%string in
  let '(_, w1) := generate_station_token (ex_env up 1) server_config enc "CS2" "Bearer" empty_world in
  let '(ok, w2) := revoke_station_token (ex_env up 2) server_config "CS2" w1 in
  ok = Ok true /\ map tr_revoked (auth_tokens w2) = [Some (2 * minute)] /\
  fst (authenticate_station (ex_env up 3) server_config "CS2" (bearer (enc "CS2" "" 0 (60 + 86400))%string) None w2)
  = Ok (true, None).
Proof. by vm_compute. Qed.

(** When the events table cannot be written, the right password is answered by an
    exception, and the recorded failures are cleared. *)
Definition audit_down (d : db_call) : bool := match d with LogEvent | LogError => true | _ => false end.

Lemma audit_outage_raises :
  let o := authenticate_station (ex_env audit_down 1) server_config "CS1" (basic "CS1" "secret") None depot_world in
  fst o = Err "database"%string /\ failed_auth_attempts (snd o) = [].
Proof. by vm_compute. Qed.

(** When the station's setting cannot be read, a token is accepted from a charger
    that requires Basic Auth. *)
Definition setting_down (d : db_call) : bool := match d with RequiresBasic => true | _ => false end.

Lemma unreadable_setting_waives_basic :
  let o down := fst (authenticate_station (ex_env down 1) server_config "CS1" (bearer "CS1.100000") None depot_world) in
  o up = Ok (false, Some "Basic Auth credentials required"%string) /\ o setting_down = Ok (true, None).
Proof. by vm_compute. Qed.
