(* ===== verification/Acceptor.v ===== *)
(** * The OCPP connection acceptor ([src/websocket_handler/server.py])

    [OCPPWebSocketServer._handle_connection] and [_cleanup_connection]: a
    connection's address, the geo-block, the connection limits, routing by path,
    aliases, authentication, replacement of a station's previous connection,
    registration, and the cleanup when it ends. Each connection is handled by a
    coroutine; [stage] is where it waits, and a step runs it to its next [await],
    so steps of different connections interleave. It calls the address and
    country checks ([GeoBlock]), the security manager ([StationAuth]), the
    connection manager ([Connections]) and the tables of connector statuses and
    sessions ([Alerts], [Sessions]). An awaited call of the security manager or
    of a table is one step; an outcome says whether it raised. Sockets are
    numbers, connection ids are the UUIDs drawn for them. *)

From S2P Require Import Prelude PyText Addresses GeoBlock Alerts Sessions Connections StationAuth.
From Stdlib Require Import ZArith Lia Ascii.
From stdpp Require Import base list strings.

#[local] Open Scope Z_scope.

(** ** Paths *)

Definition is_slash (c : ascii) : bool := Ascii.eqb c "/"%char.
Fixpoint drop_slashes (s : list ascii) : list ascii :=
  match s with c :: s' => if is_slash c then drop_slashes s' else s | [] => [] end.
(** [path.strip("/")] and [path.rstrip("/")]. *)
Definition rstrip_slashes (s : string) : string :=
  String.string_of_list_ascii (reverse (drop_slashes (reverse (String.list_ascii_of_string s)))).
Definition strip_slashes (s : string) : string :=
  rstrip_slashes (String.string_of_list_ascii (drop_slashes (String.list_ascii_of_string s))).

(** The paths a plain health probe is answered on before the handshake. *)
Definition _process_request (path : string) : bool :=
  existsb (String.eqb (rstrip_slashes path)) [""; "/health"; "/healthz"; "/ready"]%string.

Definition path_parts (path : string) : list string :=
  List.filter is_text (split_on "/"%char (strip_slashes path)).

Definition protocol_of (parts : list string) : option string := head parts.

(** The last segment of an [/ocpp/] path, or else the whole path. *)
Definition station_of_path (cid path : string) : string :=
  let parts := path_parts path in
  if bool_decide (protocol_of parts = Some "ocpp"%string) && (1 <? length parts)%nat
  then List.last parts ""%string
  else if is_text (strip_slashes path) then strip_slashes path else "station_" +:+ cid.

(** The segment before it, when the path has more than one. *)
Definition parent_of_path (path : string) : option string :=
  let parts := path_parts path in
  if bool_decide (protocol_of parts = Some "ocpp"%string) && (2 <? length parts)%nat
  then match reverse parts with _ :: p :: _ => Some p | _ => None end
  else None.

(** ** Credentials in the handshake *)

Record ws_request := {
  rq_path : string;
  rq_remote : option string;
  rq_headers : option Headers;
  rq_subprotocol : option string
}.

(** [base64.b64decode(...).decode("utf-8")]: the text, an error the code
    catches, or an exception it does not. *)
Inductive decoded := Decoded (s : string) | BadPayload | Raised_ (e : string).

Definition no_auth : auth_data :=
  {| ad_username := None; ad_password := None; ad_bearer_token := None; ad_authorization := None;
     ad_api_key := None; ad_x_api_key := None |}.

Definition drop_chars (n : nat) (s : string) : string :=
  String.string_of_list_ascii (drop n (String.list_ascii_of_string s)).

(** The [Authorization] header. *)
Definition auth_of_header (b64 : string -> decoded) (header : string) : result string auth_data :=
  if String.prefix "Bearer " header
  then Ok {| ad_username := None; ad_password := None; ad_bearer_token := Some (drop_chars 7 header);
             ad_authorization := None; ad_api_key := None; ad_x_api_key := None |}
  else if String.prefix "Basic " header
  then match b64 (strip (drop_chars 6 header)) with
       | Decoded s =>
           match py_partition ":"%char s with
           | (u, Some p) => Ok {| ad_username := Some u; ad_password := Some p; ad_bearer_token := None;
                                  ad_authorization := None; ad_api_key := None; ad_x_api_key := None |}
           | (_, None) => Ok no_auth
           end
       | BadPayload => Ok no_auth
       | Raised_ e => Err e
       end
  else Ok no_auth.

Definition with_key (key : string) (a : auth_data) : auth_data :=
  {| ad_username := ad_username a; ad_password := ad_password a; ad_bearer_token := ad_bearer_token a;
     ad_authorization := ad_authorization a; ad_api_key := if is_text key then Some key else None;
     ad_x_api_key := ad_x_api_key a |}.

(** [X-OCPP-Password], unless the header already gave one. *)
Definition with_password (pw : string) (a : auth_data) : auth_data :=
  {| ad_username := ad_username a;
     ad_password := match ad_password a with Some p => Some p | None => if is_text pw then Some pw else None end;
     ad_bearer_token := ad_bearer_token a; ad_authorization := ad_authorization a; ad_api_key := ad_api_key a;
     ad_x_api_key := ad_x_api_key a |}.

Definition ocpp_auth_data (b64 : string -> decoded) (rq : ws_request) : result string auth_data :=
  match rq_headers rq with
  | None => Ok no_auth
  | Some h =>
      let? header := h_get h "Authorization" in
      let? a := auth_of_header b64 header in
      let? key := h_get h "X-API-Key" in
      let? pw := h_get h "X-OCPP-Password" in
      Ok (with_password pw (with_key key a))
  end.

(** A VDV 463 presystem gives a token or a key. *)
Definition vdv_auth_data (rq : ws_request) : result string auth_data :=
  match rq_headers rq with
  | None => Ok no_auth
  | Some h =>
      let? header := h_get h "Authorization" in
      let? key := h_get h "X-API-Key" in
      Ok (with_key key (if String.prefix "Bearer " header
                        then {| ad_username := None; ad_password := None;
                                ad_bearer_token := Some (drop_chars 7 header); ad_authorization := None;
                                ad_api_key := None; ad_x_api_key := None |}
                        else no_auth))
  end.

(** ** State *)

(** A cleanup in progress: what it popped, and what it still awaits. *)
Inductive cleanup_wait := AwaitUnregister | AwaitUnavailable | AwaitSeen.

Record cleanup := {
  cl_cid : string;
  cl_ws : nat;
  cl_station : string;
  cl_ip : option string;
  cl_current : bool;
  cl_reason : string;
  cl_wait : cleanup_wait
}.

(** Where a connection's coroutine waits. *)
Inductive stage :=
  | VdvAuthenticating (presystem : string)
  | VdvRunning
  | Rejecting
  | Aliasing (station parent : string)
  | Resolving (station : string)
  | Authenticating (station : string)
  | Replacing (station : string) (cl : cleanup)
  | Marking (station : string)
  | Registering (station : string)
  | Running (station : string)
  | Finishing (cl : cleanup)
  | Raised (stored : option string).           (** ended by an exception, after storing its station or before *)

Record handler := { hd_ws : nat; hd_ip : string; hd_request : ws_request; hd_stage : stage }.

Record server := {
  sv_connections : dict string nat;
  sv_stations : dict string string;
  sv_charge_points : dict string string;       (** a charge point is named by its connection *)
  sv_ip_count : dict string Z;
  sv_client_ips : dict string string;
  sv_handlers : dict string handler;
  sv_closed : list (nat * string);
  sv_manager : ConnectionManager;
  sv_status : list status_row;
  sv_sessions : list session;
  sv_world : world
}.

Record acceptor_config := {
  ac_max_connections : Z;
  ac_max_per_ip : Z;
  ac_trust : ocpp_trust;
  ac_geo : option GeoBlockChecker;
  ac_security : option SecurityConfig;
  ac_vdv : bool;                                (** available and enabled *)
  ac_resolver : bool;
  ac_timescale : bool;
  ac_b64 : string -> decoded
}.

Definition init_server (m : ConnectionManager) (st : list status_row) (ss : list session) (w : world) : server :=
  {| sv_connections := []; sv_stations := []; sv_charge_points := []; sv_ip_count := []; sv_client_ips := [];
     sv_handlers := []; sv_closed := []; sv_manager := m; sv_status := st; sv_sessions := ss; sv_world := w |}.

(** *** Updates *)

Definition with_routes (c : dict string nat) (s : dict string string) (cp : dict string string) (sv : server) : server :=
  {| sv_connections := c; sv_stations := s; sv_charge_points := cp; sv_ip_count := sv_ip_count sv;
     sv_client_ips := sv_client_ips sv; sv_handlers := sv_handlers sv; sv_closed := sv_closed sv;
     sv_manager := sv_manager sv; sv_status := sv_status sv; sv_sessions := sv_sessions sv; sv_world := sv_world sv |}.
Definition with_slots (n : dict string Z) (ips : dict string string) (sv : server) : server :=
  {| sv_connections := sv_connections sv; sv_stations := sv_stations sv; sv_charge_points := sv_charge_points sv;
     sv_ip_count := n; sv_client_ips := ips; sv_handlers := sv_handlers sv; sv_closed := sv_closed sv;
     sv_manager := sv_manager sv; sv_status := sv_status sv; sv_sessions := sv_sessions sv; sv_world := sv_world sv |}.
Definition with_handlers (h : dict string handler) (sv : server) : server :=
  {| sv_connections := sv_connections sv; sv_stations := sv_stations sv; sv_charge_points := sv_charge_points sv;
     sv_ip_count := sv_ip_count sv; sv_client_ips := sv_client_ips sv; sv_handlers := h; sv_closed := sv_closed sv;
     sv_manager := sv_manager sv; sv_status := sv_status sv; sv_sessions := sv_sessions sv; sv_world := sv_world sv |}.
Definition with_manager (m : ConnectionManager) (sv : server) : server :=
  {| sv_connections := sv_connections sv; sv_stations := sv_stations sv; sv_charge_points := sv_charge_points sv;
     sv_ip_count := sv_ip_count sv; sv_client_ips := sv_client_ips sv; sv_handlers := sv_handlers sv;
     sv_closed := sv_closed sv; sv_manager := m; sv_status := sv_status sv; sv_sessions := sv_sessions sv;
     sv_world := sv_world sv |}.
Definition with_data (st : list status_row) (ss : list session) (w : world) (sv : server) : server :=
  {| sv_connections := sv_connections sv; sv_stations := sv_stations sv; sv_charge_points := sv_charge_points sv;
     sv_ip_count := sv_ip_count sv; sv_client_ips := sv_client_ips sv; sv_handlers := sv_handlers sv;
     sv_closed := sv_closed sv; sv_manager := sv_manager sv; sv_status := st; sv_sessions := ss; sv_world := w |}.
Definition with_close (ws : nat) (reason : string) (sv : server) : server :=
  {| sv_connections := sv_connections sv; sv_stations := sv_stations sv; sv_charge_points := sv_charge_points sv;
     sv_ip_count := sv_ip_count sv; sv_client_ips := sv_client_ips sv; sv_handlers := sv_handlers sv;
     sv_closed := sv_closed sv ++ [(ws, reason)]; sv_manager := sv_manager sv; sv_status := sv_status sv;
     sv_sessions := sv_sessions sv; sv_world := sv_world sv |}.

(** ** Per-address slots *)

(** A [defaultdict(int)]: reading a missing key adds it. *)
Definition ip_connections (ip : string) (sv : server) : Z :=
  match sv_ip_count sv @? ip with Some n => n | None => 0 end.
Definition touch_ip (ip : string) (sv : server) : server :=
  with_slots (sv_ip_count sv +{ ip := ip_connections ip sv }) (sv_client_ips sv) sv.

Definition take_slot (cid ip : string) (sv : server) : server :=
  with_slots (sv_ip_count sv +{ ip := ip_connections ip sv + 1 }) (sv_client_ips sv +{ cid := ip }) sv.

Definition _release_client_ip (ip : string) (sv : server) : server :=
  match sv_ip_count sv @? ip with
  | None => sv
  | Some n =>
      let n := Z.max 0 (n - 1) in
      with_slots (if n =? 0 then dpop ip (sv_ip_count sv) else sv_ip_count sv +{ ip := n }) (sv_client_ips sv) sv
  end.

(** [_release_client_ip] and [_connection_client_ips.pop]. *)
Definition give_back (cid ip : string) (sv : server) : server :=
  let sv := _release_client_ip ip sv in with_slots (sv_ip_count sv) (dpop cid (sv_client_ips sv)) sv.

(** ** Cleanup *)

(** [_cleanup_connection] up to its first [await]. *)
Definition begin_cleanup (cid : string) (ws : nat) (station reason : string) (sv : server) : server * cleanup :=
  let current := bool_decide (sv_stations sv @? station = Some cid) in
  (with_routes (dpop cid (sv_connections sv))
     (if current then dpop station (sv_stations sv) else sv_stations sv)
     (if current then dpop station (sv_charge_points sv) else sv_charge_points sv)
     (with_slots (sv_ip_count sv) (dpop cid (sv_client_ips sv)) sv),
   {| cl_cid := cid; cl_ws := ws; cl_station := station; cl_ip := sv_client_ips sv @? cid; cl_current := current;
      cl_reason := reason; cl_wait := AwaitUnregister |}).

Definition at_wait (w : cleanup_wait) (cl : cleanup) : cleanup :=
  {| cl_cid := cl_cid cl; cl_ws := cl_ws cl; cl_station := cl_station cl; cl_ip := cl_ip cl;
     cl_current := cl_current cl; cl_reason := cl_reason cl; cl_wait := w |}.

(** After the last [await]. *)
Definition end_cleanup (cl : cleanup) (sv : server) : server :=
  with_close (cl_ws cl) (cl_reason cl)
    (match cl_ip cl with Some ip => _release_client_ip ip sv | None => sv end).

(** The outcome of an [await]: whether it raised, with what the clock and the
    security manager's environment are. *)
Record outcome := { o_ok : bool; o_now : Z; o_env : auth_env }.

(** One awaited call of a cleanup; a failed or timed-out call has no effect. The
    cleanup that goes on, or the end of it. *)
Definition resume_cleanup (timescale : bool) (cl : cleanup) (o : outcome) (sv : server) : server * option cleanup :=
  match cl_wait cl with
  | AwaitUnregister =>
      let sv := if o_ok o then with_manager (unregister_connection (cl_station cl) (Some (cl_cid cl)) (sv_manager sv)) sv
                else sv in
      if cl_current cl && timescale then (sv, Some (at_wait AwaitUnavailable cl)) else (end_cleanup cl sv, None)
  | AwaitUnavailable =>
      let sv := if o_ok o
                then let '(rows, al) := mark_connectors_unavailable (o_now o) (cl_station cl)
                                          (sv_status sv, alert_rows (sv_world sv)) in
                     with_data rows (sv_sessions sv) (on_alerts (fun _ => al) (sv_world sv)) sv
                else sv in
      (sv, Some (at_wait AwaitSeen cl))
  | AwaitSeen =>
      let sv := if o_ok o
                then with_data (sv_status sv) (mark_sessions_seen (o_now o) (cl_station cl) (sv_sessions sv))
                       (sv_world sv) sv
                else sv in
      (end_cleanup cl sv, None)
  end.

(** ** Handling a connection *)

Definition set_stage (cid : string) (h : handler) (g : stage) (sv : server) : server :=
  with_handlers (sv_handlers sv +{ cid := {| hd_ws := hd_ws h; hd_ip := hd_ip h; hd_request := hd_request h;
                                             hd_stage := g |} }) sv.
Definition finish (cid : string) (sv : server) : server := with_handlers (dpop cid (sv_handlers sv)) sv.

(** Creates the charge point and waits for the registration. *)
Definition create_charge_point (cid : string) (h : handler) (station : string) (sv : server) : server :=
  set_stage cid h (Registering station)
    (with_routes (sv_connections sv) (sv_stations sv) (sv_charge_points sv +{ station := cid }) sv).

(** Stores the connection. *)
Definition store_connection (c : acceptor_config) (cid : string) (h : handler) (station : string) (sv : server) : server :=
  let sv := with_routes (sv_connections sv +{ cid := hd_ws h }) (sv_stations sv +{ station := cid })
              (sv_charge_points sv) sv in
  if ac_timescale c then set_stage cid h (Marking station) sv else create_charge_point cid h station sv.

(** Cleans up the station's previous connection first, if it is still open. *)
Definition place (c : acceptor_config) (cid : string) (h : handler) (station : string) (sv : server) : server :=
  match sv_stations sv @? station with
  | Some old =>
      match sv_connections sv @? old with
      | Some ws =>
          let '(sv, cl) := begin_cleanup old ws station "Replaced by reconnect" sv in
          set_stage cid h (Replacing station cl) sv
      | None => store_connection c cid h station sv
      end
  | None => store_connection c cid h station sv
  end.

Definition auth_required (c : acceptor_config) : option SecurityConfig :=
  match ac_security c with Some s => if require_station_auth s then Some s else None | None => None end.

Definition after_resolution (c : acceptor_config) (cid : string) (h : handler) (station : string) (sv : server) : server :=
  match auth_required c with
  | Some _ => set_stage cid h (Authenticating station) sv
  | None => place c cid h station sv
  end.

Definition after_alias (c : acceptor_config) (cid : string) (h : handler) (station : string) (sv : server) : server :=
  if ac_resolver c then set_stage cid h (Resolving station) sv else after_resolution c cid h station sv.

Definition ocpp_subprotocol (p : option string) : bool :=
  match p with Some s => existsb (String.eqb s) ["ocpp1.6"; "ocpp2.0.1"; "ocpp2.1"]%string | None => false end.

(** Routing once the connection holds its slot. *)
Definition route (c : acceptor_config) (cid : string) (h : handler) (sv : server) : server :=
  let path := rq_path (hd_request h) in
  let parts := path_parts path in
  if bool_decide (protocol_of parts = Some "vdv463"%string) && ac_vdv c
  then match auth_required c with
       | Some _ => set_stage cid h (VdvAuthenticating (match parts with _ :: p :: _ => p | _ => "presystem_" +:+ cid end)) sv
       | None => set_stage cid h VdvRunning sv
       end
  else if negb (ocpp_subprotocol (rq_subprotocol (hd_request h)))
  then set_stage cid h Rejecting (with_close (hd_ws h) "Invalid subprotocol" sv)
  else let station := station_of_path cid path in
       match parent_of_path path with
       | Some parent =>
           if ac_resolver c then set_stage cid h (Aliasing station parent) sv else after_alias c cid h station sv
       | None => after_alias c cid h station sv
       end.

Definition geo_blocked (c : acceptor_config) (ip : string) : bool :=
  match ac_geo c with Some g => GeoBlock.blocked (check_ip g ip) | None => false end.

(** A new connection, up to its first [await]. A connection that is refused here
    leaves no handler. *)
Definition accept (c : acceptor_config) (cid : string) (ws : nat) (rq : ws_request) (sv : server) : server :=
  match _get_client_ip (ac_trust c) (rq_remote rq) (rq_headers rq) with
  | Err _ => sv
  | Ok ip =>
      if geo_blocked c ip then with_close ws "Access denied" sv
      else if ac_max_connections c <=? Z.of_nat (length (sv_connections sv)) then with_close ws "Server overloaded" sv
      else if ac_max_per_ip c <=? ip_connections ip sv
      then with_close ws "Too many connections from this IP" (touch_ip ip sv)
      else route c cid {| hd_ws := ws; hd_ip := ip; hd_request := rq; hd_stage := Raised None |} (take_slot cid ip sv)
  end.

(** The credentials were judged: the next stage. *)
Definition authenticated (r : result string (bool * option string)) (cid : string) (h : handler) (w : world)
    (sv : server) (go : server -> server) : server :=
  let sv := with_data (sv_status sv) (sv_sessions sv) w sv in
  match r with
  | Ok (true, _) => go sv
  | Ok (false, _) => set_stage cid h Rejecting (with_close (hd_ws h) "Authentication failed" sv)
  | Err _ => set_stage cid h (Raised None) sv
  end.

(** What [authenticate_station] is called with, and its answer. *)
Definition judge (c : acceptor_config) (s : SecurityConfig) (a : result string auth_data) (who : string) (o : outcome)
    (sv : server) : result string (bool * option string) * world :=
  match a with
  | Ok a => authenticate_station (o_env o) s who a None (sv_world sv)
  | Err e => (Err e, sv_world sv)
  end.

(** A coroutine runs from the [await] it waits at to its next. *)
Definition resume (c : acceptor_config) (cid : string) (o : outcome) (h : handler) (sv : server) : server :=
  match hd_stage h with
  | VdvAuthenticating who =>
      match auth_required c with
      | Some s =>
          let '(r, w) := judge c s (vdv_auth_data (hd_request h)) who o sv in
          authenticated r cid h w sv (set_stage cid h VdvRunning)
      | None => sv
      end
  | VdvRunning => finish cid (give_back cid (hd_ip h) sv)
  | Rejecting =>
      if o_ok o then finish cid (give_back cid (hd_ip h) sv) else set_stage cid h (Raised None) sv
  | Aliasing station parent =>
      let '(_, w) := ensure_station_alias (o_env o) station parent (sv_world sv) in
      after_alias c cid h station (with_data (sv_status sv) (sv_sessions sv) w sv)
  | Resolving station =>
      let '(r, w) := resolve_station_id (o_env o) station (sv_world sv) in
      after_resolution c cid h (match r with Ok s => s | Err _ => station end)
        (with_data (sv_status sv) (sv_sessions sv) w sv)
  | Authenticating station =>
      match auth_required c with
      | Some s =>
          let '(r, w) := judge c s (ocpp_auth_data (ac_b64 c) (hd_request h)) station o sv in
          authenticated r cid h w sv (place c cid h station)
      | None => sv
      end
  | Replacing station cl =>
      match resume_cleanup (ac_timescale c) cl o sv with
      | (sv, Some cl) => set_stage cid h (Replacing station cl) sv
      | (sv, None) => store_connection c cid h station sv
      end
  | Marking station =>
      let sv := if o_ok o
                then let '(_, (rows, al)) := mark_connectors_available_after_reconnect (o_now o) station
                                               (sv_status sv, alert_rows (sv_world sv)) in
                     with_data rows (sv_sessions sv) (on_alerts (fun _ => al) (sv_world sv)) sv
                else sv in
      create_charge_point cid h station sv
  | Registering station =>
      if o_ok o
      then set_stage cid h (Running station)
             (with_manager (register_connection (o_now o) station cid (hd_ip h) (hd_ws h) (sv_manager sv)) sv)
      else set_stage cid h (Raised (Some station)) sv
  | Running station =>
      let '(sv, cl) := begin_cleanup cid (hd_ws h) station "Session ended" sv in
      set_stage cid h (Finishing cl) sv
  | Finishing cl =>
      match resume_cleanup (ac_timescale c) cl o sv with
      | (sv, Some cl) => set_stage cid h (Finishing cl) sv
      | (sv, None) => finish cid sv
      end
  | Raised _ => sv
  end.

Inductive sv_event :=
  | Connect (cid : string) (ws : nat) (rq : ws_request)
  | Resume (cid : string) (o : outcome).

Definition sv_step (c : acceptor_config) (ev : sv_event) (sv : server) : server :=
  match ev with
  | Connect cid ws rq => accept c cid ws rq sv
  | Resume cid o => match sv_handlers sv @? cid with Some h => resume c cid o h sv | None => sv end
  end.

Fixpoint sv_run (c : acceptor_config) (evs : list sv_event) (sv : server) : server :=
  match evs with [] => sv | ev :: evs' => sv_run c evs' (sv_step c ev sv) end.

(** [get_charge_point], [get_all_charge_points]. *)
Definition get_charge_point (station : string) (sv : server) : option string := sv_charge_points sv @? station.
