(* ===== verification/AcceptorFacts.v ===== *)
(** * Correctness of the connection acceptor

    Over all interleavings of connections: the per-address counters are exact and
    stay within the limit, a server whose handlers have all returned holds
    nothing, and every routed station passed the country check and was
    authenticated. The counterexamples are the interleavings and failures that
    leak a slot, route commands to a dead charge point or exceed the total limit. *)

From S2P Require Import Prelude PyText Addresses GeoBlock Alerts Sessions Connections StationAuth StationAuthFacts Acceptor.
From Stdlib Require Import ZArith Lia Ascii.
From stdpp Require Import base list strings.

#[local] Open Scope Z_scope.

(** ** Counting entries of a dictionary *)

Section dcount.
Context {V : Type}.
Implicit Type d : dict string V.

Definition dcount (p : V -> bool) d : nat := length (List.filter (fun x => p (snd x)) d).
Definition one (p : V -> bool) (v : option V) : nat := match v with Some x => if p x then 1 else 0 | None => 0 end.

Lemma dcount_cons p k v d : dcount p ((k, v) :: d) = (one p (Some v) + dcount p d)%nat.
Proof. unfold dcount, one. cbn. by destruct (p v). Qed.

Lemma dcount_dset p k v d : (dcount p (d +{ k := v }) + one p (d @? k) = dcount p d + one p (Some v))%nat.
Proof.
  induction d as [|[k' v'] d IH]; [cbn [dset dget]; rewrite dcount_cons; cbn; lia|].
  cbn [dset dget]. case_decide; subst; rewrite !dcount_cons; [cbn [one]; lia|]. lia.
Qed.

Lemma dpop_absent k d : k ∉ dkeys d -> dpop k d = d.
Proof. intros H. by apply dpop_fresh, dget_None_keys. Qed.

Lemma dcount_dpop p k d : dict_wf d -> (dcount p (dpop k d) + one p (d @? k) = dcount p d)%nat.
Proof.
  unfold dict_wf, dkeys. induction d as [|[k' v'] d IH]; intros W; [done|]. cbn in W. apply NoDup_cons in W as [N W].
  cbn [dpop dget]. case_decide; subst; rewrite !dcount_cons.
  - rewrite dpop_absent by done. cbn [one]. lia.
  - specialize (IH W). lia.
Qed.
End dcount.

Lemma dset_dset {V} (k : string) (v v0 : V) d : d +{ k := v0 } +{ k := v } = d +{ k := v }.
Proof.
  induction d as [|[k' v'] d IH]; cbn [dset]; [by rewrite decide_True|].
  case_decide; subst; cbn [dset]; case_decide; try done. by rewrite IH.
Qed.

(** ** The state of the handlers *)

(** The handler holds the slot of its own connection. *)
Definition early (g : stage) : bool :=
  match g with
  | VdvAuthenticating _ | VdvRunning | Rejecting | Aliasing _ _ | Resolving _ | Authenticating _ | Replacing _ _
  | Raised None => true
  | _ => false
  end.
(** The station it is stored under; another handler may clean it up. *)
Definition late (g : stage) : option string :=
  match g with Marking s | Registering s | Running s => Some s | Raised o => o | _ => None end.
(** The address a cleanup in progress will give back. *)
Definition pending (g : stage) : option string :=
  match g with Replacing _ cl | Finishing cl => cl_ip cl | _ => None end.

Definition held (ip : string) (sv : server) : nat := dcount (String.eqb ip) (sv_client_ips sv).
Definition gives (ip : string) (h : handler) : bool := bool_decide (pending (hd_stage h) = Some ip).
Definition awaited (ip : string) (sv : server) : nat := dcount (gives ip) (sv_handlers sv).

Record inv (sv : server) : Prop := {
  i_wf : dict_wf (sv_client_ips sv) /\ dict_wf (sv_handlers sv);
  i_ips cid ip : sv_client_ips sv @? cid = Some ip ->
    exists h, sv_handlers sv @? cid = Some h /\ hd_ip h = ip
              /\ (early (hd_stage h) = true \/ late (hd_stage h) <> None);
  i_early cid h : sv_handlers sv @? cid = Some h -> early (hd_stage h) = true ->
    sv_client_ips sv @? cid = Some (hd_ip h);
  i_conn cid ws : sv_connections sv @? cid = Some ws ->
    exists h, sv_handlers sv @? cid = Some h /\ hd_ws h = ws /\ late (hd_stage h) <> None;
  i_stations s cid : sv_stations sv @? s = Some cid ->
    (exists ws, sv_connections sv @? cid = Some ws)
    /\ exists h, sv_handlers sv @? cid = Some h /\ late (hd_stage h) = Some s;
  i_count ip : ip_connections ip sv = Z.of_nat (held ip sv + awaited ip sv)
}.

(** The fields the invariant reads. *)
Definition view (sv : server) :=
  (sv_connections sv, sv_stations sv, sv_ip_count sv, sv_client_ips sv, sv_handlers sv).

Lemma inv_view sv sv' : view sv' = view sv -> inv sv -> inv sv'.
Proof.
  intros [= E1 E2 E3 E4 E5] [W I1 I2 I3 I4 I5].
  split; unfold held, awaited, ip_connections in *; rewrite ?E1, ?E2, ?E3, ?E4, ?E5; auto.
Qed.

Lemma inv_init m st ss w : inv (init_server m st ss w).
Proof. split; cbn; try done. split; apply dict_wf_nil. Qed.

Definition at_stage (h : handler) (g : stage) : handler :=
  {| hd_ws := hd_ws h; hd_ip := hd_ip h; hd_request := hd_request h; hd_stage := g |}.

Lemma early_late g : early g = true -> late g = None.
Proof. by destruct g as [| | | | | | | | | | |[]]. Qed.
Lemma late_pending g : late g <> None -> pending g = None.
Proof. by destruct g. Qed.

(** A handler moves between stages of the same kind. *)
Lemma inv_move cid h g sv :
  inv sv -> sv_handlers sv @? cid = Some h ->
  early g = early (hd_stage h) -> late g = late (hd_stage h) -> pending g = pending (hd_stage h) ->
  inv (set_stage cid h g sv).
Proof.
  intros [[W1 W2] I1 I2 I3 I4 I5] Hh He Hl Hp. split; cbn.
  - split; [done|by apply dict_wf_dset].
  - intros cid' ip E. destruct (I1 cid' ip E) as (h' & E' & Ei & K). rewrite dget_dset. case_decide; [|eauto]. subst.
    rewrite Hh in E'. injection E' as <-. exists (at_stage h g). cbn. by rewrite He, Hl.
  - intros cid' h'. rewrite dget_dset. case_decide; [|apply I2]. subst. intros [= <-]. cbn. rewrite He. by apply I2.
  - intros cid' ws E. destruct (I3 cid' ws E) as (h' & E' & Ew & K). rewrite dget_dset. case_decide; [|eauto]. subst.
    rewrite Hh in E'. injection E' as <-. exists (at_stage h g). cbn. by rewrite Hl.
  - intros s cid' E. destruct (I4 s cid' E) as [K (h' & E' & Es)]. split; [done|]. rewrite dget_dset.
    case_decide; [|eauto]. subst. rewrite Hh in E'. injection E' as <-. exists (at_stage h g). cbn. by rewrite Hl.
  - intros ip. change (ip_connections ip sv = Z.of_nat (held ip sv + awaited ip (set_stage cid h g sv))).
    rewrite I5. unfold awaited. cbn [set_stage with_handlers sv_handlers]. fold (at_stage h g).
    pose proof (dcount_dset (gives ip) cid (at_stage h g) (sv_handlers sv)) as C. rewrite Hh in C.
    assert (one (gives ip) (Some (at_stage h g)) = one (gives ip) (Some h)) by (unfold one, gives; cbn; by rewrite Hp).
    lia.
Qed.

(** A handler that holds its slot, is stored nowhere and awaits no cleanup. *)
Definition ready (cid : string) (h : handler) (sv : server) : Prop := inv (set_stage cid h (Raised None) sv).

Lemma set_stage_twice cid h g g0 sv : set_stage cid h g (set_stage cid h g0 sv) = set_stage cid h g sv.
Proof. unfold set_stage, with_handlers. cbn. by rewrite dset_dset. Qed.

Lemma ready_of cid h sv :
  inv sv -> sv_handlers sv @? cid = Some h -> early (hd_stage h) = true -> pending (hd_stage h) = None -> ready cid h sv.
Proof. intros I E K P. apply inv_move; cbn; [done|done|by rewrite K|by rewrite early_late|by rewrite P]. Qed.

Lemma ready_stage cid h g sv : ready cid h sv -> early g = true -> pending g = None -> inv (set_stage cid h g sv).
Proof.
  intros R E P. rewrite <- (set_stage_twice cid h g (Raised None)).
  apply (inv_move cid (at_stage h (Raised None)) g (set_stage cid h (Raised None) sv)); cbn;
    [done|by rewrite dget_dset_eq|done|by rewrite early_late|done].
Qed.

Lemma ready_view cid h sv sv' : view sv' = view sv -> ready cid h sv -> ready cid h sv'.
Proof. intros [= E1 E2 E3 E4 E5]. apply inv_view. unfold view. cbn. by rewrite E1, E2, E3, E4, E5. Qed.

(** The state of a handler that is [ready]. *)
Lemma ready_facts cid h sv :
  ready cid h sv ->
  sv_client_ips sv @? cid = Some (hd_ip h) /\ sv_connections sv @? cid = None
  /\ (forall s, sv_stations sv @? s <> Some cid).
Proof.
  intros [W I1 I2 I3 I4 I5]. cbn in *.
  assert (E : (sv_handlers sv +{ cid := at_stage h (Raised None) }) @? cid = Some (at_stage h (Raised None)))
    by apply dget_dset_eq.
  split_and!.
  - by apply (I2 cid _ E).
  - destruct (sv_connections sv @? cid) as [ws|] eqn:C; [|done]. destruct (I3 cid ws C) as (h' & E' & _ & L).
    unfold at_stage in E. rewrite E in E'. by injection E' as <-.
  - intros s C. destruct (I4 s cid C) as [_ (h' & E' & L)]. unfold at_stage in E. rewrite E in E'. by injection E' as <-.
Qed.

Lemma inv_store cid h g station cp sv :
  ready cid h sv -> late g = Some station -> early g = false ->
  inv (set_stage cid h g (with_routes (sv_connections sv +{ cid := hd_ws h }) (sv_stations sv +{ station := cid }) cp sv)).
Proof.
  intros R L E. destruct (ready_facts cid h sv R) as (F1 & F2 & F3). destruct R as [[W1 W2] I1 I2 I3 I4 I5].
  cbn in W1, W2, I1, I2, I3, I4.
  assert (X : forall cid' h', cid <> cid' -> (sv_handlers sv +{ cid := at_stage h (Raised None) }) @? cid' = Some h' ->
              sv_handlers sv @? cid' = Some h') by (intros cid' h' N; by rewrite dget_dset_ne).
  fold (at_stage h (Raised None)) in *.
  split; cbn; fold (at_stage h g).
  - split; [done|]. rewrite <- (dset_dset cid (at_stage h g) (at_stage h (Raised None))). by apply dict_wf_dset.
  - intros cid' ip C. destruct (decide (cid = cid')) as [<-|N].
    + exists (at_stage h g). rewrite dget_dset_eq. split_and!; [done|cbn; congruence|]. right. cbn. by rewrite L.
    + destruct (I1 cid' ip C) as (h' & E' & K). exists h'. rewrite dget_dset_ne by done. by rewrite dget_dset_ne in E'.
  - intros cid' h'. rewrite dget_dset. case_decide as N; [intros [= <-]; cbn; congruence|].
    intros C. apply I2. by rewrite dget_dset_ne.
  - intros cid' ws. rewrite !dget_dset. case_decide as N.
    + intros [= <-]. exists (at_stage h g). cbn. by rewrite L.
    + intros C. destruct (I3 cid' ws C) as (h' & E' & K). exists h'. by rewrite dget_dset_ne in E'.
  - intros s cid'. rewrite dget_dset. case_decide as N.
    + intros [= <-]. split; [exists (hd_ws h); apply dget_dset_eq|]. exists (at_stage h g). rewrite dget_dset_eq.
      by subst.
    + intros C. destruct (I4 s cid' C) as [(ws & K) (h' & E' & Ls)]. assert (cid <> cid') by (intros ->; by apply (F3 s)).
      split; [exists ws; by rewrite dget_dset_ne|]. exists h'. rewrite dget_dset_ne by done. by rewrite dget_dset_ne in E'.
  - intros ip. specialize (I5 ip).
    change (ip_connections ip sv = Z.of_nat (held ip sv + dcount (gives ip) (sv_handlers sv +{ cid := at_stage h (Raised None) }))) in I5.
    match goal with |- _ = Z.of_nat (_ + ?x) =>
      change (ip_connections ip sv = Z.of_nat (held ip sv + dcount (gives ip) (sv_handlers sv +{ cid := at_stage h g }))) end.
    rewrite I5. do 2 f_equal.
    pose proof (dcount_dset (gives ip) cid (at_stage h g) (sv_handlers sv)).
    pose proof (dcount_dset (gives ip) cid (at_stage h (Raised None)) (sv_handlers sv)).
    assert (one (gives ip) (Some (at_stage h g)) = 0%nat)
      by (unfold one, gives; cbn; rewrite late_pending; [done|by rewrite L]).
    assert (one (gives ip) (Some (at_stage h (Raised None))) = 0%nat) by done.
    lia.
Qed.

(** *** Cleanups *)

Lemma one_gives ip h : one (gives ip) (Some h) = one (String.eqb ip) (pending (hd_stage h)).
Proof.
  unfold one, gives. destruct (pending (hd_stage h)) as [x|]; [|done].
  destruct (String.eqb_spec ip x) as [->|N]; [by rewrite bool_decide_eq_true_2|].
  rewrite bool_decide_eq_false_2; [done|congruence].
Qed.

(** [cid] begins to clean up [tgt], itself or another connection of the station. *)
Lemma inv_begin cid h g tgt ht ws station reason sv :
  inv sv -> sv_handlers sv @? cid = Some h -> sv_handlers sv @? tgt = Some ht -> late (hd_stage ht) = Some station ->
  pending (hd_stage h) = None -> pending g = sv_client_ips sv @? tgt -> late g = None ->
  (early g = true <-> cid <> tgt) -> (cid <> tgt -> early (hd_stage h) = true) ->
  inv (set_stage cid h g (fst (begin_cleanup tgt ws station reason sv))).
Proof.
  intros [[W1 W2] I1 I2 I3 I4 I5] Hh Ht Lt Ph Pg Lg Eg Eh.
  assert (Ne : early (hd_stage ht) = false)
    by (destruct (early (hd_stage ht)) eqn:K; [|done]; by rewrite (early_late _ K) in Lt).
  assert (Nl : cid <> tgt -> late (hd_stage h) = None) by (intros N; by apply early_late, Eh).
  split; cbn; fold (at_stage h g).
  - split; [by apply dict_wf_dpop|by apply dict_wf_dset].
  - intros cid' ip. rewrite dget_dpop. case_decide as N; [done|]. intros C.
    destruct (I1 cid' ip C) as (h' & E' & Ei & K). rewrite dget_dset. case_decide as N'; [|eauto]. subst cid'.
    rewrite Hh in E'. injection E' as <-. exists (at_stage h g). split_and!; [done|done|]. left. cbn.
    by apply Eg.
  - intros cid' h'. rewrite dget_dset. case_decide as N.
    + intros [= <-]. cbn. intros K%Eg. subst. rewrite dget_dpop_ne by congruence.
      apply (I2 cid' h Hh). by apply Eh.
    + intros C K. rewrite dget_dpop_ne; [by apply I2|]. intros ->. congruence.
  - intros cid' ws'. rewrite dget_dpop. case_decide as N; [done|]. intros C. destruct (I3 cid' ws' C) as (h' & E' & K).
    rewrite dget_dset_ne; [eauto|]. intros ->. rewrite Hh in E'. injection E' as <-. destruct K as [_ K].
    apply K, Nl. congruence.
  - intros s cid' C.
    assert (sv_stations sv @? s = Some cid' /\ cid' <> tgt) as [C0 N].
    { case_bool_decide as K.
      - rewrite dget_dpop in C. case_decide as N; [done|]. split; [done|]. intros ->.
        destruct (I4 s tgt C) as [_ (h' & E' & Ls)]. congruence.
      - split; [done|]. intros ->. destruct (I4 s tgt C) as [_ (h' & E' & Ls)].
        apply K. rewrite Ht in E'. injection E' as <-. congruence. }
    destruct (I4 s cid' C0) as [(ws' & K) (h' & E' & Ls)]. split; [exists ws'; by rewrite dget_dpop_ne|].
    exists h'. rewrite dget_dset_ne; [done|]. intros ->. rewrite Hh in E'. injection E' as <-.
    rewrite Nl in Ls; congruence.
  - intros ip. specialize (I5 ip).
    change (ip_connections ip sv = Z.of_nat (dcount (String.eqb ip) (dpop tgt (sv_client_ips sv))
              + dcount (gives ip) (sv_handlers sv +{ cid := at_stage h g }))).
    rewrite I5. f_equal. unfold held, awaited.
    pose proof (dcount_dpop (String.eqb ip) tgt (sv_client_ips sv) W1).
    pose proof (dcount_dset (gives ip) cid (at_stage h g) (sv_handlers sv)) as D. rewrite Hh, !one_gives, Ph in D.
    cbn [hd_stage at_stage] in D. rewrite Pg in D. cbn [one] in D. lia.
Qed.

(** A slot is given back. *)
Lemma release_count ip ip' sv :
  1 <= ip_connections ip sv ->
  ip_connections ip' (_release_client_ip ip sv) = ip_connections ip' sv - (if decide (ip = ip') then 1 else 0).
Proof.
  unfold ip_connections, _release_client_ip. destruct (sv_ip_count sv @? ip) as [n|] eqn:E; [|lia]. intros H. cbn.
  destruct (Z.eqb_spec (Z.max 0 (n - 1)) 0) as [Z0|Z0]; [rewrite dget_dpop|rewrite dget_dset]; case_decide; subst;
    rewrite ?E; lia.
Qed.

Lemma release_fields ip sv : exists n, _release_client_ip ip sv = with_slots n (sv_client_ips sv) sv.
Proof. unfold _release_client_ip. case_match; eauto. exists (sv_ip_count sv). by destruct sv. Qed.

Definition release_opt (o : option string) (sv : server) : server :=
  match o with Some ip => _release_client_ip ip sv | None => sv end.

Lemma inv_release cid h g sv :
  inv sv -> sv_handlers sv @? cid = Some h ->
  early g = early (hd_stage h) -> late g = late (hd_stage h) -> pending g = None ->
  inv (set_stage cid h g (release_opt (pending (hd_stage h)) sv)).
Proof.
  intros I Hh He Hl Hg. destruct (pending (hd_stage h)) as [ip|] eqn:P.
  2: { apply inv_move; auto. by rewrite P. }
  destruct (release_fields ip sv) as [n En]. cbn [release_opt].
  assert (A : (1 <= awaited ip sv)%nat).
  { unfold awaited. pose proof (dcount_dset (gives ip) cid (at_stage h g) (sv_handlers sv)) as D.
    rewrite Hh, !one_gives, P in D. cbn in D. rewrite Hg, String.eqb_refl in D. cbn in D. lia. }
  pose proof (i_count _ I ip) as C. pose proof (release_count ip) as R.
  destruct I as [[W1 W2] I1 I2 I3 I4 I5]. rewrite En. split; cbn; fold (at_stage h g).
  - split; [done|by apply dict_wf_dset].
  - intros cid' ip' E. destruct (I1 cid' ip' E) as (h' & E' & Ei & K). rewrite dget_dset. case_decide; [|eauto]. subst.
    rewrite Hh in E'. injection E' as <-. exists (at_stage h g). cbn. by rewrite He, Hl.
  - intros cid' h'. rewrite dget_dset. case_decide; [|apply I2]. subst. intros [= <-]. cbn. rewrite He. by apply I2.
  - intros cid' ws E. destruct (I3 cid' ws E) as (h' & E' & Ew & K). rewrite dget_dset. case_decide; [|eauto]. subst.
    rewrite Hh in E'. injection E' as <-. exists (at_stage h g). cbn. by rewrite Hl.
  - intros s cid' E. destruct (I4 s cid' E) as [K (h' & E' & Es)]. split; [done|]. rewrite dget_dset.
    case_decide; [|eauto]. subst. rewrite Hh in E'. injection E' as <-. exists (at_stage h g). cbn. by rewrite Hl.
  - intros ip'. specialize (R ip' sv ltac:(lia)). rewrite En in R.
    change (ip_connections ip' (with_slots n (sv_client_ips sv) sv)
            = Z.of_nat (held ip' sv + dcount (gives ip') (sv_handlers sv +{ cid := at_stage h g }))).
    rewrite R, I5. unfold awaited.
    pose proof (dcount_dset (gives ip') cid (at_stage h g) (sv_handlers sv)) as D. rewrite Hh, !one_gives, P in D.
    cbn [hd_stage at_stage] in D. rewrite Hg in D. cbn [one] in D.
    destruct (String.eqb_spec ip' ip) as [->|N]; case_decide; subst; try done; lia.
Qed.

Lemma dpop_dset {V} (k : string) (v : V) d : dpop k (d +{ k := v }) = dpop k d.
Proof.
  induction d as [|[k' v'] d IH]; cbn [dset dpop]; [by rewrite decide_True|].
  case_decide; subst; cbn [dpop]; case_decide; try done. by rewrite IH.
Qed.

Lemma finish_set cid h g sv : finish cid (set_stage cid h g sv) = finish cid sv.
Proof. unfold finish, set_stage, with_handlers. cbn. by rewrite dpop_dset. Qed.

(** A handler that holds nothing ends. *)
Lemma inv_finish cid h sv :
  inv sv -> sv_handlers sv @? cid = Some h -> early (hd_stage h) = false -> late (hd_stage h) = None ->
  pending (hd_stage h) = None -> inv (finish cid sv).
Proof.
  intros [[W1 W2] I1 I2 I3 I4 I5] Hh He Hl Hp. split; cbn.
  - split; [done|by apply dict_wf_dpop].
  - intros cid' ip E. destruct (I1 cid' ip E) as (h' & E' & Ei & K). exists h'. rewrite dget_dpop_ne; [done|].
    intros ->. rewrite Hh in E'. injection E' as <-. destruct K; congruence.
  - intros cid' h'. rewrite dget_dpop. case_decide; [done|apply I2].
  - intros cid' ws E. destruct (I3 cid' ws E) as (h' & E' & Ew & K). exists h'. rewrite dget_dpop_ne; [done|].
    intros ->. congruence.
  - intros s cid' E. destruct (I4 s cid' E) as [K (h' & E' & Es)]. split; [done|]. exists h'.
    rewrite dget_dpop_ne; [done|]. intros ->. congruence.
  - intros ip. change (ip_connections ip sv = Z.of_nat (held ip sv + dcount (gives ip) (dpop cid (sv_handlers sv)))).
    rewrite I5. unfold awaited. pose proof (dcount_dpop (gives ip) cid (sv_handlers sv) W2) as D.
    rewrite Hh, one_gives, Hp in D. cbn in D. lia.
Qed.

(** A handler gives its slot back and ends. *)
Lemma inv_give_back cid h sv :
  inv sv -> sv_handlers sv @? cid = Some h -> early (hd_stage h) = true -> pending (hd_stage h) = None ->
  inv (finish cid (give_back cid (hd_ip h) sv)).
Proof.
  intros I Hh He Hp. pose proof (i_early _ I cid h Hh He) as Hc.
  assert (A : (1 <= held (hd_ip h) sv)%nat).
  { unfold held. pose proof (dcount_dpop (String.eqb (hd_ip h)) cid (sv_client_ips sv) (proj1 (i_wf _ I))) as D.
    rewrite Hc in D. cbn in D. rewrite String.eqb_refl in D. lia. }
  pose proof (i_count _ I (hd_ip h)) as C. pose proof (release_count (hd_ip h)) as R.
  destruct (release_fields (hd_ip h) sv) as [n En]. unfold give_back. rewrite En.
  destruct I as [[W1 W2] I1 I2 I3 I4 I5]. split; cbn.
  - split; by apply dict_wf_dpop.
  - intros cid' ip. rewrite !dget_dpop. case_decide; [done|apply I1].
  - intros cid' h'. rewrite !dget_dpop. case_decide; [done|apply I2].
  - intros cid' ws E. destruct (I3 cid' ws E) as (h' & E' & Ew & K). exists h'. rewrite dget_dpop_ne; [done|].
    intros ->. rewrite Hh in E'. injection E' as <-. by apply K, early_late.
  - intros s cid' E. destruct (I4 s cid' E) as [K (h' & E' & Es)]. split; [done|]. exists h'.
    rewrite dget_dpop_ne; [done|]. intros ->. rewrite Hh in E'. injection E' as <-. by rewrite (early_late _ He) in Es.
  - intros ip. specialize (R ip sv ltac:(lia)). rewrite En in R.
    change (ip_connections ip (with_slots n (sv_client_ips sv) sv)
            = Z.of_nat (dcount (String.eqb ip) (dpop cid (sv_client_ips sv)) + dcount (gives ip) (dpop cid (sv_handlers sv)))).
    rewrite R, I5. unfold held, awaited.
    pose proof (dcount_dpop (gives ip) cid (sv_handlers sv) W2) as D. rewrite Hh, one_gives, Hp in D. cbn in D.
    pose proof (dcount_dpop (String.eqb ip) cid (sv_client_ips sv) W1) as D'. rewrite Hc in D'. cbn [one] in D'.
    destruct (String.eqb_spec ip (hd_ip h)) as [->|N]; case_decide; try congruence; lia.
Qed.

(** A new handler takes a slot. *)
Lemma inv_take cid h sv : inv sv -> sv_handlers sv @? cid = None -> ready cid h (take_slot cid (hd_ip h) sv).
Proof.
  intros [[W1 W2] I1 I2 I3 I4 I5] Hn.
  assert (Hc : sv_client_ips sv @? cid = None).
  { destruct (sv_client_ips sv @? cid) as [ip|] eqn:E; [|done]. destruct (I1 cid ip E) as (h' & E' & _). congruence. }
  split; cbn; fold (at_stage h (Raised None)).
  - split; by apply dict_wf_dset.
  - intros cid' ip. rewrite !dget_dset. case_decide; [|apply I1]. intros [= <-]. eexists. split_and!; [done|done|by left].
  - intros cid' h'. rewrite !dget_dset. case_decide; [|apply I2]. by intros [= <-].
  - intros cid' ws E. destruct (I3 cid' ws E) as (h' & E' & K). exists h'. rewrite dget_dset_ne; [done|].
    intros ->. congruence.
  - intros s cid' E. destruct (I4 s cid' E) as [K (h' & E' & Es)]. split; [done|]. exists h'.
    rewrite dget_dset_ne; [done|]. intros ->. congruence.
  - intros ip.
    change (match (sv_ip_count sv +{ hd_ip h := ip_connections (hd_ip h) sv + 1 }) @? ip with Some n => n | None => 0 end
            = Z.of_nat (dcount (String.eqb ip) (sv_client_ips sv +{ cid := hd_ip h })
                        + dcount (gives ip) (sv_handlers sv +{ cid := at_stage h (Raised None) }))).
    pose proof (dcount_dset (gives ip) cid (at_stage h (Raised None)) (sv_handlers sv)) as D. rewrite Hn, one_gives in D. cbn [one pending at_stage hd_stage] in D.
    pose proof (dcount_dset (String.eqb ip) cid (hd_ip h) (sv_client_ips sv)) as D'. rewrite Hc in D'. cbn [one] in D'.
    pose proof (I5 ip) as C. unfold held, awaited in C. rewrite dget_dset. case_decide as E.
    + subst. rewrite String.eqb_refl in D'. rewrite C. lia.
    + change (ip_connections ip sv = Z.of_nat (dcount (String.eqb ip) (sv_client_ips sv +{ cid := hd_ip h })
                        + dcount (gives ip) (sv_handlers sv +{ cid := at_stage h (Raised None) }))).
      destruct (String.eqb_spec ip (hd_ip h)); [congruence|]. rewrite C. lia.
Qed.

Lemma inv_touch ip sv : inv sv -> inv (touch_ip ip sv).
Proof.
  intros [W I1 I2 I3 I4 I5]. split; auto. intros ip'. transitivity (ip_connections ip' sv); [|exact (I5 ip')].
  unfold touch_ip, ip_connections. cbn. rewrite dget_dset. case_decide; by subst.
Qed.

(** *** The steps *)

Lemma store_inv c cid h station sv : ready cid h sv -> inv (store_connection c cid h station sv).
Proof.
  intros R. unfold store_connection, create_charge_point. destruct (ac_timescale c).
  - by apply inv_store.
  - exact (inv_store cid h (Registering station) station (sv_charge_points sv +{ station := cid }) sv R eq_refl eq_refl).
Qed.

Lemma place_inv c cid h station sv : ready cid h sv -> inv (place c cid h station sv).
Proof.
  intros R. unfold place. destruct (sv_stations sv @? station) as [old|] eqn:Es; [|by apply store_inv].
  destruct (sv_connections sv @? old) as [ws|] eqn:Ec; [|by apply store_inv].
  destruct (begin_cleanup old ws station "Replaced by reconnect" sv) as [sv1 cl] eqn:Eb.
  assert (N : cid <> old) by (intros ->; destruct (ready_facts _ _ _ R) as (_ & F & _); congruence).
  rewrite <- (set_stage_twice cid h _ (Raised None)).
  injection Eb as <- <-. destruct (i_stations _ R station old Es) as [_ (ho & Eo & Lo)].
  apply (inv_begin cid (at_stage h (Raised None)) _ old ho ws station "Replaced by reconnect"
           (set_stage cid h (Raised None) sv)); cbn; auto; try done. by rewrite dget_dset_eq.
Qed.

Lemma after_resolution_inv c cid h station sv : ready cid h sv -> inv (after_resolution c cid h station sv).
Proof. intros R. unfold after_resolution. destruct (auth_required c); [by apply ready_stage|by apply place_inv]. Qed.

Lemma after_alias_inv c cid h station sv : ready cid h sv -> inv (after_alias c cid h station sv).
Proof. intros R. unfold after_alias. destruct (ac_resolver c); [by apply ready_stage|by apply after_resolution_inv]. Qed.

Lemma route_inv c cid h sv : ready cid h sv -> inv (route c cid h sv).
Proof.
  intros R. unfold route. cbv zeta. case_match; [case_match; by apply ready_stage|]. case_match.
  - apply ready_stage; [|done..]. by apply (ready_view cid h sv).
  - case_match; [case_match; [by apply ready_stage|]|]; by apply after_alias_inv.
Qed.

Lemma accept_inv c cid ws rq sv : inv sv -> sv_handlers sv @? cid = None -> inv (accept c cid ws rq sv).
Proof.
  intros I N. unfold accept. destruct (_get_client_ip _ _ _) as [ip|]; [|done].
  repeat case_match; try (by apply (inv_view sv)); [by apply (inv_view (touch_ip ip sv)), inv_touch|].
  apply route_inv. by apply inv_take.
Qed.

Lemma resume_cleanup_view b cl o sv cl' sv' :
  resume_cleanup b cl o sv = (sv', Some cl') -> view sv' = view sv /\ cl_ip cl' = cl_ip cl.
Proof.
  unfold resume_cleanup. intros E. repeat case_match; simplify_eq; cbn; done.
Qed.

Lemma resume_cleanup_end b cl o sv sv' :
  resume_cleanup b cl o sv = (sv', None) -> view sv' = view (release_opt (cl_ip cl) sv).
Proof.
  unfold resume_cleanup. intros E. repeat case_match; simplify_eq; unfold end_cleanup, release_opt;
    destruct (cl_ip cl) as [ip|]; cbn; try done; unfold _release_client_ip; cbn; by case_match.
Qed.

Lemma authenticated_inv r cid h w sv go :
  ready cid h sv -> (forall sv', view sv' = view sv -> inv (go sv')) -> inv (authenticated r cid h w sv go).
Proof.
  intros R G. unfold authenticated. destruct r as [[[] msg]|x].
  - by apply G.
  - apply ready_stage; [|done..]. by apply (ready_view cid h sv).
  - apply ready_stage; [|done..]. by apply (ready_view cid h sv).
Qed.

(** A cleanup a handler runs, for itself or before it stores its connection. *)
Lemma cleanup_goes_on b cl cl' o cid h g sv sv' :
  inv sv -> sv_handlers sv @? cid = Some h -> early g = early (hd_stage h) -> late g = late (hd_stage h) ->
  pending g = cl_ip cl' -> pending (hd_stage h) = cl_ip cl ->
  resume_cleanup b cl o sv = (sv', Some cl') -> inv (set_stage cid h g sv').
Proof.
  intros I Hh E L P Q H. apply resume_cleanup_view in H as [V C].
  apply inv_move; [by apply (inv_view sv)| |done|done|congruence]. by injection V as _ _ _ _ ->.
Qed.

Lemma resume_inv c cid o h sv : inv sv -> sv_handlers sv @? cid = Some h -> inv (resume c cid o h sv).
Proof.
  intros I Hh. unfold resume. destruct (hd_stage h) as [who| | |st pa|st|st|st cl|st|st|st|cl|x] eqn:G.
  - destruct (auth_required c) as [s|]; [|done]. destruct (judge _ _ _ _ _ _) as [r w].
    assert (R : ready cid h sv) by (apply ready_of; by rewrite ?G).
    apply authenticated_inv; [done|]. intros sv' V. apply ready_stage; [|done..]. by apply (ready_view cid h sv).
  - apply inv_give_back; by rewrite ?G.
  - destruct (o_ok o); [apply inv_give_back; by rewrite ?G|]. apply ready_stage; [|done..]. apply ready_of; by rewrite ?G.
  - destruct (ensure_station_alias _ _ _ _) as [r w]. apply after_alias_inv. apply (ready_view cid h sv); [done|].
    apply ready_of; by rewrite ?G.
  - destruct (resolve_station_id _ _ _) as [r w]. apply after_resolution_inv. apply (ready_view cid h sv); [done|].
    apply ready_of; by rewrite ?G.
  - destruct (auth_required c) as [s|]; [|done]. destruct (judge _ _ _ _ _ _) as [r w].
    assert (R : ready cid h sv) by (apply ready_of; by rewrite ?G).
    apply authenticated_inv; [done|]. intros sv' V. apply place_inv. by apply (ready_view cid h sv).
  - destruct (resume_cleanup _ _ _ _) as [sv' [cl'|]] eqn:E.
    + by apply (cleanup_goes_on (ac_timescale c) cl cl' o cid h _ sv sv' I Hh); rewrite ?G.
    + apply store_inv. apply resume_cleanup_end in E.
      apply (ready_view cid h (release_opt (cl_ip cl) sv)); [done|]. unfold ready.
      replace (cl_ip cl) with (pending (hd_stage h)) by (by rewrite G). apply inv_release; by rewrite ?G.
  - match goal with |- inv (create_charge_point _ _ _ ?x) => set (sv' := x) end.
    assert (V : view sv' = view sv)
      by (unfold sv'; destruct (o_ok o); [destruct (mark_connectors_available_after_reconnect _ _ _) as [? [? ?]]|]; done).
    unfold create_charge_point. apply inv_move; [by apply (inv_view sv)| |by rewrite G..].
    change (sv_handlers sv' @? cid = Some h). by injection V as _ _ _ _ ->.
  - destruct (o_ok o); apply inv_move; rewrite ?G; try done. by apply (inv_view sv).
  - destruct (begin_cleanup cid (hd_ws h) st "Session ended" sv) as [sv' cl] eqn:E. injection E as <- <-.
    apply (inv_begin cid h _ cid h (hd_ws h) st "Session ended" sv); try done; by rewrite ?G.
  - destruct (resume_cleanup _ _ _ _) as [sv' [cl'|]] eqn:E.
    + by apply (cleanup_goes_on (ac_timescale c) cl cl' o cid h _ sv sv' I Hh); rewrite ?G.
    + apply resume_cleanup_end in E.
      set (done := {| cl_cid := cl_cid cl; cl_ws := cl_ws cl; cl_station := cl_station cl; cl_ip := None;
                      cl_current := cl_current cl; cl_reason := cl_reason cl; cl_wait := cl_wait cl |}).
      apply (inv_view (finish cid (release_opt (cl_ip cl) sv))).
      { injection E as E1 E2 E3 E4 E5. unfold view, finish, with_handlers. cbn. by rewrite E1, E2, E3, E4, E5. }
      rewrite <- (finish_set cid h (Finishing done)). eapply (inv_finish cid (at_stage h (Finishing done))); try done.
      * replace (cl_ip cl) with (pending (hd_stage h)) by (by rewrite G). apply inv_release; by rewrite ?G.
      * cbn. by rewrite dget_dset_eq.
  - done.
Qed.

(** ** Histories *)

(** A connection id is new to the server. *)
Definition new_id (ev : sv_event) (sv : server) : Prop :=
  match ev with Connect cid _ _ => sv_handlers sv @? cid = None | Resume _ _ => True end.

Inductive reach (c : acceptor_config) : server -> Prop :=
  | reach_init m st ss w : reach c (init_server m st ss w)
  | reach_step ev sv : reach c sv -> new_id ev sv -> reach c (sv_step c ev sv).

Lemma reach_inv c sv : reach c sv -> inv sv.
Proof.
  induction 1 as [m st ss w|[cid ws rq|cid o] sv _ IH N]; [apply inv_init| |]; cbn in *; [by apply accept_inv|].
  destruct (sv_handlers sv @? cid) as [h|] eqn:E; [|done]. by apply resume_inv.
Qed.

(** *** The limit per address *)

Definition within (c : acceptor_config) (sv : server) : Prop :=
  forall ip, ip_connections ip sv <= Z.max 0 (ac_max_per_ip c).

Lemma within_le c sv sv' :
  within c sv -> (forall ip, ip_connections ip sv' <= Z.max 0 (ip_connections ip sv)) -> within c sv'.
Proof. intros W H ip. specialize (W ip). specialize (H ip). lia. Qed.

Lemma within_same c sv sv' : within c sv -> sv_ip_count sv' = sv_ip_count sv -> within c sv'.
Proof. intros W E ip. unfold ip_connections. rewrite E. apply W. Qed.

Lemma release_within c ip sv : within c sv -> within c (_release_client_ip ip sv).
Proof.
  intros W. apply (within_le c sv); [done|]. intros ip'. unfold _release_client_ip, ip_connections.
  destruct (sv_ip_count sv @? ip) as [n|] eqn:E; [|case_match; lia]. cbn.
  destruct (Z.max 0 (n - 1) =? 0) eqn:Z0; [rewrite dget_dpop|rewrite dget_dset]; case_decide; subst; rewrite ?E; try lia;
    case_match; lia.
Qed.

Lemma release_opt_within c o sv : within c sv -> within c (release_opt o sv).
Proof. destruct o; [apply release_within|done]. Qed.

Lemma place_counts c cid h station sv : sv_ip_count (place c cid h station sv) = sv_ip_count sv.
Proof. unfold place, store_connection, create_charge_point, begin_cleanup. by repeat case_match. Qed.

Lemma after_resolution_counts c cid h station sv : sv_ip_count (after_resolution c cid h station sv) = sv_ip_count sv.
Proof. unfold after_resolution. case_match; [done|apply place_counts]. Qed.

Lemma after_alias_counts c cid h station sv : sv_ip_count (after_alias c cid h station sv) = sv_ip_count sv.
Proof. unfold after_alias. case_match; [done|apply after_resolution_counts]. Qed.

Lemma route_counts c cid h sv : sv_ip_count (route c cid h sv) = sv_ip_count sv.
Proof. unfold route. cbv zeta. repeat case_match; try done; apply after_alias_counts. Qed.

Lemma accept_within c cid ws rq sv : within c sv -> within c (accept c cid ws rq sv).
Proof.
  intros W. unfold accept. destruct (_get_client_ip _ _ _) as [ip|]; [|done].
  destruct (geo_blocked c ip); [done|]. destruct (ac_max_connections c <=? _); [done|].
  destruct (Z.leb_spec (ac_max_per_ip c) (ip_connections ip sv)) as [H|H].
  - apply (within_le c sv); [done|]. intros ip'. unfold touch_ip, ip_connections. cbn. rewrite dget_dset.
    case_decide; subst; case_match; lia.
  - apply (within_same c (take_slot cid ip sv)); [|apply route_counts]. intros ip'. specialize (W ip').
    unfold take_slot, ip_connections in *. cbn. rewrite dget_dset. case_decide; subst; lia.
Qed.

Lemma cleanup_within b cl o sv c : within c sv -> within c (fst (resume_cleanup b cl o sv)).
Proof.
  intros W. destruct (resume_cleanup b cl o sv) as [sv' [cl'|]] eqn:E; cbn [fst].
  - apply resume_cleanup_view in E as [V _]. injection V as _ _ V _ _. by apply (within_same c sv).
  - apply resume_cleanup_end in E as V. injection V as _ _ V _ _. apply (within_same c (release_opt (cl_ip cl) sv)); [|done].
    by apply release_opt_within.
Qed.

Lemma resume_within c cid o h sv : within c sv -> within c (resume c cid o h sv).
Proof.
  intros W. unfold resume. destruct (hd_stage h) as [who| | |st pa|st|st|st cl|st|st|st|cl|x].
  - destruct (auth_required c); [|done]. destruct (judge _ _ _ _ _ _) as [r w].
    unfold authenticated. destruct r as [[[] ?]|]; exact W.
  - unfold give_back. exact (release_within c (hd_ip h) sv W).
  - destruct (o_ok o); [exact (release_within c (hd_ip h) sv W)|exact W].
  - destruct (ensure_station_alias _ _ _ _) as [r w]. apply (within_same c sv); [done|]. by rewrite after_alias_counts.
  - destruct (resolve_station_id _ _ _) as [r w]. apply (within_same c sv); [done|]. by rewrite after_resolution_counts.
  - destruct (auth_required c); [|done]. destruct (judge _ _ _ _ _ _) as [r w].
    unfold authenticated. destruct r as [[[] ?]|]; [|exact W..]. apply (within_same c sv); [done|]. by rewrite place_counts.
  - pose proof (cleanup_within (ac_timescale c) cl o sv c W) as K. destruct (resume_cleanup _ _ _ _) as [sv' [cl'|]];
      [exact K|]. apply (within_same c sv'); [exact K|]. unfold store_connection. by case_match.
  - destruct (o_ok o); [|exact W]. destruct (mark_connectors_available_after_reconnect _ _ _) as [? [? ?]]. exact W.
  - destruct (o_ok o); exact W.
  - destruct (begin_cleanup _ _ _ _ sv) as [sv' cl] eqn:E. injection E as <- <-. exact W.
  - pose proof (cleanup_within (ac_timescale c) cl o sv c W) as K. destruct (resume_cleanup _ _ _ _) as [sv' [cl'|]]; exact K.
  - done.
Qed.

Lemma reach_within c sv : reach c sv -> within c sv.
Proof.
  induction 1 as [m st ss w|[cid ws rq|cid o] sv _ IH N].
  - intros ip. cbn. lia.
  - by apply accept_within.
  - cbn. destruct (sv_handlers sv @? cid) as [h|]; [|done]. by apply resume_within.
Qed.

(** C14: In every interleaving of connections, replacements and cleanups, whatever calls
    fail, the connection counter of an address is the number of connections that hold
    one of its slots, those still tracked and those whose cleanup is in progress, and it
    is never above the limit per address. *)
Theorem slots_counted c sv ip :
  reach c sv ->
  ip_connections ip sv = Z.of_nat (held ip sv + awaited ip sv) /\ ip_connections ip sv <= Z.max 0 (ac_max_per_ip c).
Proof. intros R. split; [apply (i_count _ (reach_inv c sv R))|by apply reach_within]. Qed.

Lemma dget_all_None {V} (d : dict string V) : (forall k, d @? k = None) -> d = [].
Proof. destruct d as [|[k v] d]; [done|]. intros H. specialize (H k). cbn in H. by rewrite decide_True in H. Qed.

(** When the handlers of all connections have returned, the OCPP server holds nothing of
    them: no open connection, no route to a station, no tracked address and no slot. *)
Theorem idle_server_empty c sv :
  reach c sv -> sv_handlers sv = [] ->
  sv_connections sv = [] /\ sv_stations sv = [] /\ sv_client_ips sv = [] /\ forall ip, ip_connections ip sv = 0.
Proof.
  intros [W I1 I2 I3 I4 I5]%reach_inv E. rewrite E in *.
  assert (C : sv_client_ips sv = []).
  { apply dget_all_None. intros cid. destruct (sv_client_ips sv @? cid) eqn:F; [|done]. by destruct (I1 cid _ F) as (h & K & _). }
  split_and!.
  - apply dget_all_None. intros cid. destruct (sv_connections sv @? cid) eqn:F; [|done].
    by destruct (I3 cid _ F) as (h & K & _).
  - apply dget_all_None. intros s. destruct (sv_stations sv @? s) as [cid|] eqn:F; [|done].
    by destruct (I4 s cid F) as [_ (h & K & _)].
  - done.
  - intros ip. rewrite I5. unfold held, awaited. by rewrite C, E.
Qed.

(** *** Every handler comes to an end *)

(** How many awaits a stage still has, at most. *)
Definition waits (w : cleanup_wait) : nat := match w with AwaitUnregister => 3 | AwaitUnavailable => 2 | AwaitSeen => 1 end.
Definition rank (g : stage) : nat :=
  match g with
  | Aliasing _ _ => 15 | Resolving _ => 14 | Authenticating _ => 13
  | Replacing _ cl => 7 + waits (cl_wait cl)
  | Marking _ => 7 | Registering _ => 6 | Running _ => 5
  | Finishing cl => 1 + waits (cl_wait cl)
  | VdvAuthenticating _ => 3 | VdvRunning => 2 | Rejecting => 1
  | Raised _ => 0
  end.

(** The handler of [cid] has returned, raised, or is nearer to its end than [n]. *)
Definition nearer (cid : string) (n : nat) (sv : server) : Prop :=
  match sv_handlers sv @? cid with None => True | Some h => (rank (hd_stage h) < n)%nat end.

Lemma nearer_set cid h g n sv : (rank g < n)%nat -> nearer cid n (set_stage cid h g sv).
Proof. intros H. unfold nearer. cbn. by rewrite dget_dset_eq. Qed.

Lemma nearer_finish cid n sv : nearer cid n (finish cid sv).
Proof. unfold nearer. cbn. by rewrite dget_dpop_eq. Qed.

Lemma store_nearer c cid h st n sv : (7 < n)%nat -> nearer cid n (store_connection c cid h st sv).
Proof.
  intros H. unfold store_connection, create_charge_point. destruct (ac_timescale c); apply nearer_set; cbn; lia.
Qed.

Lemma place_nearer c cid h st n sv : (10 < n)%nat -> nearer cid n (place c cid h st sv).
Proof.
  intros H. unfold place. destruct (sv_stations sv @? st) as [old|]; [|apply store_nearer; lia].
  destruct (sv_connections sv @? old); [|apply store_nearer; lia].
  destruct (begin_cleanup _ _ _ _ _) as [sv' cl] eqn:E. injection E as <- <-. apply nearer_set. cbn. lia.
Qed.

Lemma after_resolution_nearer c cid h st n sv : (13 < n)%nat -> nearer cid n (after_resolution c cid h st sv).
Proof. intros H. unfold after_resolution. case_match; [apply nearer_set; cbn; lia|apply place_nearer; lia]. Qed.

Lemma cleanup_waits b cl o sv sv' cl' :
  resume_cleanup b cl o sv = (sv', Some cl') -> (waits (cl_wait cl') < waits (cl_wait cl))%nat.
Proof. unfold resume_cleanup. intros E. repeat case_match; simplify_eq; cbn; lia. Qed.

(** Each time a coroutine is resumed it comes nearer to its end. *)
Lemma resume_nearer c cid o h sv :
  (forall x, hd_stage h <> Raised x) -> auth_required c <> None \/ (forall s, hd_stage h <> Authenticating s /\ hd_stage h <> VdvAuthenticating s) ->
  nearer cid (rank (hd_stage h)) (resume c cid o h sv).
Proof.
  intros N A. unfold resume. destruct (hd_stage h) as [who| | |st pa|st|st|st cl|st|st|st|cl|x].
  - destruct (auth_required c); [|destruct A as [A|A]; [done|by destruct (A who)]].
    destruct (judge _ _ _ _ _ _) as [r w]. unfold authenticated.
    destruct r as [[[] ?]|]; apply nearer_set; cbn; lia.
  - apply nearer_finish.
  - destruct (o_ok o); [apply nearer_finish|apply nearer_set; cbn; lia].
  - destruct (ensure_station_alias _ _ _ _) as [r w]. unfold after_alias. case_match;
      [apply nearer_set; cbn; lia|apply after_resolution_nearer; cbn; lia].
  - destruct (resolve_station_id _ _ _) as [r w]. apply after_resolution_nearer. cbn. lia.
  - destruct (auth_required c); [|destruct A as [A|A]; [done|by destruct (A st)]].
    destruct (judge _ _ _ _ _ _) as [r w]. unfold authenticated.
    destruct r as [[[] ?]|]; [apply place_nearer; cbn; lia|apply nearer_set; cbn; lia..].
  - destruct (resume_cleanup _ _ _ _) as [sv' [cl'|]] eqn:E.
    + apply nearer_set. apply cleanup_waits in E. cbn. lia.
    + apply store_nearer. cbn. destruct (cl_wait cl); cbn; lia.
  - unfold create_charge_point. apply nearer_set. cbn. lia.
  - destruct (o_ok o); apply nearer_set; cbn; lia.
  - destruct (begin_cleanup _ _ _ _ sv) as [sv' cl] eqn:E. injection E as <- <-. apply nearer_set. cbn. lia.
  - destruct (resume_cleanup _ _ _ _) as [sv' [cl'|]] eqn:E; [|apply nearer_finish].
    apply nearer_set. apply cleanup_waits in E. cbn. lia.
  - by destruct (N x).
Qed.

(** ** Who is routed *)

(** The station a connection was, or is about to be, stored under. *)
Definition placed (g : stage) : option string :=
  match g with Replacing s _ | Marking s | Registering s | Running s => Some s | Raised o => o | _ => None end.

(** The connection's address passed the country check. *)
Definition cleared (c : acceptor_config) (h : handler) : Prop :=
  _get_client_ip (ac_trust c) (rq_remote (hd_request h)) (rq_headers (hd_request h)) = Ok (hd_ip h)
  /\ geo_blocked c (hd_ip h) = false.

(** The security manager accepted the handshake's credentials for the station. *)
Definition proved (c : acceptor_config) (h : handler) (s : string) : Prop :=
  forall sc, auth_required c = Some sc ->
    exists e a w msg w', ocpp_auth_data (ac_b64 c) (hd_request h) = Ok a /\
      authenticate_station e sc s a None w = (Ok (true, msg), w').

Definition vouched (c : acceptor_config) (sv : server) : Prop :=
  forall cid h, sv_handlers sv @? cid = Some h ->
    cleared c h /\ forall s, placed (hd_stage h) = Some s -> proved c h s.

(** A step ends with the handler in a stage that is justified. *)
Definition lands (c : acceptor_config) (cid : string) (h : handler) (sv sv' : server) : Prop :=
  exists g, sv_handlers sv' = sv_handlers sv +{ cid := at_stage h g } /\ forall s, placed g = Some s -> proved c h s.

Lemma lands_set c cid h g sv sv' :
  sv_handlers sv' = sv_handlers sv -> (forall s, placed g = Some s -> proved c h s) -> lands c cid h sv (set_stage cid h g sv').
Proof. intros E P. exists g. cbn. by rewrite E. Qed.

Lemma lands_from c cid h sv sv' sv'' : sv_handlers sv' = sv_handlers sv -> lands c cid h sv' sv'' -> lands c cid h sv sv''.
Proof. intros E (g & H & P). exists g. by rewrite H, E. Qed.

Lemma lands_vouched c cid h sv sv' : vouched c sv -> cleared c h -> lands c cid h sv sv' -> vouched c sv'.
Proof.
  intros V C (g & H & P) cid' h'. rewrite H, dget_dset. case_decide; [|apply V]. intros [= <-]. done.
Qed.

Lemma store_lands c cid h s sv : proved c h s -> lands c cid h sv (store_connection c cid h s sv).
Proof.
  intros P. unfold store_connection, create_charge_point.
  destruct (ac_timescale c); apply lands_set; try done; by intros s' [= <-].
Qed.

Lemma place_lands c cid h s sv : proved c h s -> lands c cid h sv (place c cid h s sv).
Proof.
  intros P. unfold place. destruct (sv_stations sv @? s) as [old|]; [|by apply store_lands].
  destruct (sv_connections sv @? old); [|by apply store_lands].
  destruct (begin_cleanup _ _ _ _ _) as [sv' cl] eqn:E. injection E as <- <-. apply lands_set; [done|]. by intros s' [= <-].
Qed.

Lemma after_resolution_lands c cid h s sv : lands c cid h sv (after_resolution c cid h s sv).
Proof.
  unfold after_resolution. destruct (auth_required c) eqn:A; [by apply lands_set|]. apply place_lands.
  intros sc E. congruence.
Qed.

Lemma after_alias_lands c cid h s sv : lands c cid h sv (after_alias c cid h s sv).
Proof. unfold after_alias. destruct (ac_resolver c); [by apply lands_set|apply after_resolution_lands]. Qed.

Lemma route_lands c cid h sv : lands c cid h sv (route c cid h sv).
Proof.
  unfold route. cbv zeta. case_match; [case_match; by apply lands_set|]. case_match; [by apply lands_set|].
  case_match; [case_match; [by apply lands_set|]|]; apply after_alias_lands.
Qed.

Lemma cleanup_handlers b cl o sv : sv_handlers (fst (resume_cleanup b cl o sv)) = sv_handlers sv.
Proof.
  destruct (resume_cleanup b cl o sv) as [sv' [cl'|]] eqn:E; cbn [fst].
  - apply resume_cleanup_view in E as [V _]. by injection V as _ _ _ _ ->.
  - apply resume_cleanup_end in E as V. injection V as _ _ _ _ ->. unfold release_opt, _release_client_ip.
    repeat case_match; done.
Qed.

Lemma judge_proved c s who o sv h msg w :
  auth_required c = Some s ->
  judge c s (ocpp_auth_data (ac_b64 c) (hd_request h)) who o sv = (Ok (true, msg), w) -> proved c h who.
Proof.
  intros A J sc E. rewrite A in E. injection E as <-. unfold judge in J.
  destruct (ocpp_auth_data (ac_b64 c) (hd_request h)) as [a|]; [|done]. by exists (o_env o), a, (sv_world sv), msg, w.
Qed.

(** A resumed handler returns, or lands in a stage that is justified. *)
Lemma resume_lands c cid o h sv :
  (forall s, placed (hd_stage h) = Some s -> proved c h s) ->
  resume c cid o h sv = sv \/ sv_handlers (resume c cid o h sv) = dpop cid (sv_handlers sv)
  \/ lands c cid h sv (resume c cid o h sv).
Proof.
  intros P. unfold resume. destruct (hd_stage h) as [who| | |st pa|st|st|st cl|st|st|st|cl|x]; cbn [placed] in P.
  - destruct (auth_required c); [right; right|by left]. destruct (judge _ _ _ _ _ _) as [r w]. unfold authenticated.
    destruct r as [[[] ?]|]; by apply lands_set.
  - right; left. unfold give_back, _release_client_ip. cbn. by case_match.
  - right. destruct (o_ok o); [left|right; by apply lands_set]. unfold give_back, _release_client_ip. cbn. by case_match.
  - right; right. destruct (ensure_station_alias _ _ _ _) as [r w].
    eapply lands_from; [|apply after_alias_lands]. done.
  - right; right. destruct (resolve_station_id _ _ _) as [r w]. eapply lands_from; [|apply after_resolution_lands]. done.
  - destruct (auth_required c) as [s|] eqn:A; [right; right|by left]. destruct (judge _ _ _ _ _ _) as [r w] eqn:J.
    unfold authenticated. destruct r as [[[] msg]|]; [|by apply lands_set..].
    eapply lands_from; [|apply place_lands; by apply (judge_proved c s st o sv h msg w)]. done.
  - right; right. pose proof (cleanup_handlers (ac_timescale c) cl o sv) as H.
    destruct (resume_cleanup _ _ _ _) as [sv' [cl'|]]; cbn [fst] in H; [by apply lands_set|].
    apply (lands_from c cid h sv sv'); [done|]. apply store_lands. by apply P.
  - right; right. unfold create_charge_point. apply lands_set; [|done].
    destruct (o_ok o); [destruct (mark_connectors_available_after_reconnect _ _ _) as [? [? ?]]|]; done.
  - right; right. destruct (o_ok o); by apply lands_set.
  - right; right. destruct (begin_cleanup _ _ _ _ sv) as [sv' cl] eqn:E. injection E as <- <-. by apply lands_set.
  - right. pose proof (cleanup_handlers (ac_timescale c) cl o sv) as H.
    destruct (resume_cleanup _ _ _ _) as [sv' [cl'|]]; cbn [fst] in H; [right; by apply lands_set|left].
    cbn. by rewrite H.
  - by left.
Qed.

Lemma reach_vouched c sv : reach c sv -> vouched c sv.
Proof.
  induction 1 as [m st ss w|[cid ws rq|cid o] sv _ IH N]; [done| |]; cbn [sv_step].
  - unfold accept. destruct (_get_client_ip _ _ _) as [ip|] eqn:Ei; [|done]. destruct (geo_blocked c ip) eqn:G; [done|].
    repeat (case_match; [done|]).
    eapply lands_vouched; [exact IH| |eapply lands_from; [|apply route_lands]; done]. done.
  - destruct (sv_handlers sv @? cid) as [h|] eqn:E; [|done]. destruct (IH cid h E) as [C P].
    destruct (resume_lands c cid o h sv P) as [Q|[Q|Q]]; [by rewrite Q| |by apply (lands_vouched c cid h sv)].
    intros cid' h'. rewrite Q, dget_dpop. case_decide; [done|apply IH].
Qed.


(** ** Examples *)

(** Base64 stands for itself; a text with a tilde is not ASCII. *)
Definition ex_b64 (s : string) : decoded := if has_char "~"%char s then Raised_ "UnicodeEncodeError" else Decoded s.

Definition lt_checker : GeoBlockChecker := mk_checker (from_env (fun _ => None)) (Some (fun _ => Found (Some "LT"%string))).

Definition ex_acceptor (total per_ip : Z) : acceptor_config :=
  {| ac_max_connections := total; ac_max_per_ip := per_ip; ac_trust := init_trust (fun _ => None);
     ac_geo := Some lt_checker; ac_security := Some server_config; ac_vdv := false; ac_resolver := true;
     ac_timescale := true; ac_b64 := ex_b64 |}.

Definition basic_header (text : string) : Headers :=
  {| h_all := Some (fun _ => []);
     h_get := fun n => Ok (if String.eqb n "Authorization" then ("Basic " +:+ text)%string else ""%string) |}.

Definition ex_request (ip text : string) : ws_request :=
  {| rq_path := "/ocpp/CS1"; rq_remote := Some ip; rq_headers := Some (basic_header text);
     rq_subprotocol := Some "ocpp1.6"%string |}.

Definition good (t : Z) : outcome := {| o_ok := true; o_now := t * minute; o_env := ex_env up t |}.
Definition audit_lost (t : Z) : outcome := {| o_ok := true; o_now := t * minute; o_env := ex_env audit_down t |}.

Definition ex_start : server := init_server (init_connections 100 0) [] [] depot_world.

(** Two steps to authentication, then through the registration. *)
Definition until_running (cid : string) : list sv_event :=
  [Resume cid (good 1); Resume cid (good 1); Resume cid (good 1); Resume cid (good 1)].

Lemma reach_events c evs sv :
  reach c sv -> (fix ok evs sv := match evs with [] => True | ev :: evs' => new_id ev sv /\ ok evs' (sv_step c ev sv) end) evs sv ->
  reach c (sv_run c evs sv).
Proof.
  revert sv. induction evs as [|ev evs IH]; intros sv R O; [done|]. destruct O as [N O]. cbn [sv_run].
  apply IH; [by apply reach_step|done].
Qed.

(** A charger connects, reconnects on a new socket, and the old handler ends late. *)
Definition ex_reconnect : list sv_event :=
  [Connect "a" 1 (ex_request "5.6.7.8" "CS1:secret")] ++ until_running "a"
  ++ [Connect "b" 2 (ex_request "5.6.7.8" "SN1:secret"); Resume "b" (good 2); Resume "b" (good 2); Resume "b" (good 2);
      Resume "b" (good 2); Resume "b" (good 2)].

Lemma slots_counted_witness :
  let c := ex_acceptor 100 2 in
  let sv := sv_run c ex_reconnect ex_start in
  dkeys (sv_handlers sv) = ["a"; "b"]%string /\ held "5.6.7.8" sv = 1%nat /\
  ip_connections "5.6.7.8" sv = Z.of_nat (held "5.6.7.8" sv + awaited "5.6.7.8" sv)
  /\ ip_connections "5.6.7.8" sv <= Z.max 0 2.
Proof.
  split; [vm_compute; reflexivity|]. split; [vm_compute; reflexivity|].
  apply (slots_counted (ex_acceptor 100 2)). apply reach_events; [apply reach_init|]. vm_compute. tauto.
Defined.

Lemma idle_server_empty_witness :
  let c := ex_acceptor 100 2 in
  let sv := sv_run c (ex_reconnect ++ [Resume "a" (good 3); Resume "a" (good 3); Resume "b" (good 3); Resume "b" (good 3);
                                       Resume "b" (good 3); Resume "b" (good 3); Resume "b" (good 3); Resume "b" (good 3);
                                       Resume "b" (good 3)]) ex_start in
  sv_handlers sv = [] /\ sv_stations sv = [].
Proof.
  split; [vm_compute; reflexivity|].
  refine (proj1 (proj2 (idle_server_empty (ex_acceptor 100 2) _ _ _))); [|vm_compute; reflexivity].
  apply reach_events; [apply reach_init|]. vm_compute. tauto.
Defined.


(** ** What goes wrong *)

Definition attempt (cid : string) (ws : nat) (text : string) (o : outcome) : list sv_event :=
  [Connect cid ws (ex_request "5.6.7.8" text); Resume cid (good 1); Resume cid o].

Definition last_close (sv : server) : option string := option_map snd (last (sv_closed sv)).

(** While security events cannot be stored, every login raises out of the handler and
    keeps its slot: with a limit of two, the third connection of the address is
    refused although no handler is running. *)
Lemma audit_outage_locks_address :
  let sv := sv_run (ex_acceptor 100 2)
              (attempt "a" 1 "CS1:secret" (audit_lost 1) ++ attempt "b" 2 "CS1:secret" (audit_lost 1)
               ++ [Connect "c" 3 (ex_request "5.6.7.8" "CS1:secret")]) ex_start in
  map (fun x => hd_stage (snd x)) (sv_handlers sv) = [Raised None; Raised None]
  /\ last_close sv = Some "Too many connections from this IP"%string.
Proof. by vm_compute. Qed.

(** The same with a Basic header that is not ASCII, which any client can send. *)
Lemma malformed_header_locks_address :
  let sv := sv_run (ex_acceptor 100 2)
              (attempt "a" 1 "~" (good 1) ++ attempt "b" 2 "~" (good 1)
               ++ [Connect "c" 3 (ex_request "5.6.7.8" "CS1:secret")]) ex_start in
  map (fun x => hd_stage (snd x)) (sv_handlers sv) = [Raised None; Raised None]
  /\ last_close sv = Some "Too many connections from this IP"%string.
Proof. by vm_compute. Qed.

(** A handler that is replaced before it registered goes on to overwrite its
    successor's charge point and registration; when it ends, the connection manager
    knows no connection of the station, and commands go to the dead charge point. *)
Lemma replaced_handler_overwrites :
  let sv := sv_run (ex_acceptor 100 10)
              (attempt "a" 1 "CS1:secret" (good 1) ++ attempt "b" 2 "CS1:secret" (good 1)
               ++ [Resume "b" (good 2); Resume "b" (good 2); Resume "b" (good 2); Resume "b" (good 2); Resume "b" (good 2);
                   Resume "a" (good 3); Resume "a" (good 3); Resume "a" (good 4); Resume "a" (good 4)]) ex_start in
  map (fun x => (fst x, hd_stage (snd x))) (sv_handlers sv) = [("b", Running "CS1")]%string
  /\ sv_stations sv @? "CS1"%string = Some "b"%string /\ get_charge_point "CS1" sv = Some "a"%string
  /\ get_connection "CS1" (sv_manager sv) = None.
Proof. by vm_compute. Qed.

(** The total limit is checked before the awaits and the connection stored after
    them, so connections that arrive together exceed it. *)
Lemma total_limit_exceeded :
  let c := {| ac_max_connections := 1; ac_max_per_ip := 10; ac_trust := init_trust (fun _ => None); ac_geo := None;
              ac_security := None; ac_vdv := false; ac_resolver := true; ac_timescale := true; ac_b64 := ex_b64 |} in
  let rq path := {| rq_path := path; rq_remote := Some "5.6.7.8"%string; rq_headers := None;
                    rq_subprotocol := Some "ocpp1.6"%string |} in
  let sv := sv_run c [Connect "a" 1 (rq "/ocpp/CS1"%string); Connect "b" 2 (rq "/ocpp/CS2"%string);
                      Resume "a" (good 1); Resume "b" (good 1)] ex_start in
  length (sv_connections sv) = 2%nat.
Proof. by vm_compute. Qed.
