(* ===== verification/AbbLog.v ===== *)
(** * Charger log parsers ([src/adapters/chargers/])

    The registry of vendor parsers and the ABB parser: it opens a diagnostics
    archive, picks the files that look like session logs and reads them as CSV. The
    CSV reader is Python's, with its default dialect, character by character. The
    contents of an archive and of a compressed file, and the reading of ISO 8601
    text, are parameters. Text is ASCII: of other characters in a column's name the
    canonical form drops the letters too. *)

From S2P Require Import Prelude Models PyText Meter.
From Stdlib Require Import ZArith QArith Ascii Lia.
From stdpp Require Import base list strings gmap.

#[local] Open Scope Z_scope.

(** ** Entries ([types.py]) *)

(** A value of a row that no reader took: text, a column the row was too short
    for, or the columns it has beyond the header. *)
Inductive raw_field := Text (s : string) | Missing | Overflow (l : list string).

Record ChargerLogEntry := {
  le_time : Z;
  le_transaction_id : option Z;
  le_connector_id : option Z;
  le_soc : option pyfloat;
  le_charging_kw : option pyfloat;
  le_energy_kwh : option pyfloat;
  le_raw_fields : dict (option string) raw_field
}.

(** What a parser ends with: entries, its own error, or another exception. *)
Inductive parse_outcome :=
| parsed_entries (l : list ChargerLogEntry)
| parse_error (message : string)
| parser_exception (message : string).

(** ** Numbers

    [float(s)]: digits with a point and an exponent, or a special value; from
    [2^1024 - 2^970] on the nearest double is infinite. *)
Definition split_at (p : ascii -> bool) (s : string) : string * option string :=
  (fix go s := match s with
    | EmptyString => (EmptyString, None)
    | String c s' => if p c then (EmptyString, Some s')
                     else let '(a, b) := go s' in (String c a, b)
    end) s.

Definition all_digits (s : string) : bool := forallb is_digit (String.list_ascii_of_string s).

Fixpoint digits_value (acc : Z) (s : string) : Z :=
  match s with
  | EmptyString => acc
  | String c s' => digits_value (10 * acc + (Z.of_nat (nat_of_ascii c) - 48)) s'
  end.

Definition sign_of (s : string) : bool * string :=
  match s with
  | String c s' => if Ascii.eqb c "-"%char then (true, s')
                   else if Ascii.eqb c "+"%char then (false, s') else (false, s)
  | EmptyString => (false, s)
  end.

Definition power10 (e : Z) : Q := if 0 <=? e then inject_Z (10 ^ e) else (/ inject_Z (10 ^ (- e)))%Q.

(** Digits, a point and digits, one side of the point at least. *)
Definition mantissa (s : string) : option Q :=
  let '(a, frac) := split_at (Ascii.eqb "."%char) s in
  let f := default ""%string frac in
  if all_digits a && all_digits f && negb (String.eqb (a +:+ f) "")
  then Some (inject_Z (digits_value 0 (a +:+ f)) * power10 (- Z.of_nat (String.length f)))%Q
  else None.

Definition exponent (s : option string) : option Z :=
  match s with
  | None => Some 0
  | Some e =>
      let '(neg, d) := sign_of e in
      if all_digits d && negb (String.eqb d "")
      then Some (if neg then - digits_value 0 d else digits_value 0 d) else None
  end.

Definition double_max : Q := inject_Z (2 ^ 1024 - 2 ^ 970).

Definition float_of_string (s : string) : option pyfloat :=
  let '(neg, t) := sign_of (py_lower (strip s)) in
  if String.eqb t "inf" || String.eqb t "infinity" then Some (Inf neg)
  else if String.eqb t "nan" then Some NaN
  else match drop_underscores false t with
  | None => None
  | Some t =>
      let '(m, e) := split_at (Ascii.eqb "e"%char) t in
      match mantissa m, exponent e with
      | Some q, Some x =>
          let v := (q * power10 x)%Q in
          Some (if (double_max <=?q v)%Q then Inf neg else Fin (if neg then - v else v)%Q)
      | _, _ => None
      end
  end.

(** ** The CSV reader *)

Inductive csv_state :=
| START_RECORD | START_FIELD | IN_FIELD | IN_QUOTED_FIELD | QUOTE_IN_QUOTED_FIELD | EAT_CRNL.

Record csv_parser := { cs_state : csv_state; cs_field : list ascii; cs_fields : list string }.

Definition csv_reset : csv_parser := {| cs_state := START_RECORD; cs_field := []; cs_fields := [] |}.

Definition field_limit : Z := 131072.

Definition quote : ascii := ascii_of_nat 34.
Definition cr : ascii := ascii_of_nat 13.
Definition lf : ascii := ascii_of_nat 10.

(** [parse_process_char]: [None] is the end of a line; an error is [csv.Error].
    The field is kept backwards. *)
Definition save_field (st : csv_state) (p : csv_parser) : option csv_parser :=
  Some {| cs_state := st; cs_field := [];
          cs_fields := cs_fields p ++ [String.string_of_list_ascii (reverse (cs_field p))] |}.

Definition add_char (st : csv_state) (c : ascii) (p : csv_parser) : option csv_parser :=
  if field_limit <=? Z.of_nat (length (cs_field p)) then None
  else Some {| cs_state := st; cs_field := c :: cs_field p; cs_fields := cs_fields p |}.

Definition goto (st : csv_state) (p : csv_parser) : option csv_parser :=
  Some {| cs_state := st; cs_field := cs_field p; cs_fields := cs_fields p |}.

Definition is_newline (c : ascii) : bool := Ascii.eqb c lf || Ascii.eqb c cr.

Definition start_field (c : option ascii) (p : csv_parser) : option csv_parser :=
  match c with
  | None => save_field START_RECORD p
  | Some c =>
      if is_newline c then save_field EAT_CRNL p
      else if Ascii.eqb c quote then goto IN_QUOTED_FIELD p
      else if Ascii.eqb c ","%char then save_field START_FIELD p
      else add_char IN_FIELD c p
  end.

Definition parse_process_char (c : option ascii) (p : csv_parser) : option csv_parser :=
  match cs_state p with
  | START_RECORD =>
      match c with
      | None => Some p
      | Some x => if is_newline x then goto EAT_CRNL p else start_field c p
      end
  | START_FIELD => start_field c p
  | IN_FIELD =>
      match c with
      | None => save_field START_RECORD p
      | Some x => if is_newline x then save_field EAT_CRNL p
                  else if Ascii.eqb x ","%char then save_field START_FIELD p
                  else add_char IN_FIELD x p
      end
  | IN_QUOTED_FIELD =>
      match c with
      | None => Some p
      | Some x => if Ascii.eqb x quote then goto QUOTE_IN_QUOTED_FIELD p else add_char IN_QUOTED_FIELD x p
      end
  | QUOTE_IN_QUOTED_FIELD =>
      match c with
      | None => save_field START_RECORD p
      | Some x => if Ascii.eqb x quote then add_char IN_QUOTED_FIELD x p
                  else if Ascii.eqb x ","%char then save_field START_FIELD p
                  else if is_newline x then save_field EAT_CRNL p
                  else add_char IN_FIELD x p
      end
  | EAT_CRNL =>
      match c with
      | None => goto START_RECORD p
      | Some x => if is_newline x then Some p else None
      end
  end.

(** [csv.reader] over the lines of the text: the records it yields, and whether it
    raises behind them. A line ends with its newline, or with the text; [pending] is
    whether the line has a character yet. *)
Definition at_eol (p : csv_parser) : option (list (list string) * csv_parser) :=
  match parse_process_char None p with
  | None => None
  | Some p' => match cs_state p' with
               | START_RECORD => Some ([cs_fields p'], csv_reset)
               | _ => Some ([], p')
               end
  end.

Fixpoint csv_records (text : list ascii) (pending : bool) (p : csv_parser) : list (list string) * bool :=
  match text with
  | [] =>
      match (if pending then at_eol p else Some ([], p)) with
      | None => ([], true)
      | Some (out, p') =>
          (out ++ match cs_state p' with
                  | IN_QUOTED_FIELD =>
                      [cs_fields p' ++ [String.string_of_list_ascii (reverse (cs_field p'))]]
                  | _ => []
                  end, false)
      end
  | c :: rest =>
      match parse_process_char (Some c) p with
      | None => ([], true)
      | Some p1 =>
          if Ascii.eqb c lf
          then match at_eol p1 with
               | None => ([], true)
               | Some (out, p2) => let '(l, e) := csv_records rest false p2 in (out ++ l, e)
               end
          else csv_records rest true p1
      end
  end.

Definition csv_reader (text : string) : list (list string) * bool :=
  csv_records (String.list_ascii_of_string text) false csv_reset.

(** ** Rows ([abb/log_parser.py]) *)

(** A row of [csv.DictReader]: the fields by column, the columns a short row lacks,
    and under the key [None] the fields beyond the header. *)
Fixpoint zip_row (header fields : list string) (d : dict (option string) raw_field)
  : dict (option string) raw_field :=
  match header, fields with
  | h :: hs, f :: fs => zip_row hs fs (dset (Some h) (Text f) d)
  | h :: hs, [] => zip_row hs [] (dset (Some h) Missing d)
  | [], [] => d
  | [], fs => dset None (Overflow fs) d
  end.

Definition is_alnum (c : ascii) : bool :=
  let n := nat_of_ascii (lower_ascii c) in is_digit c || ((97 <=? n)%nat && (n <=? 122)%nat).

Definition _canon (s : string) : string :=
  String.string_of_list_ascii (map lower_ascii (List.filter is_alnum (String.list_ascii_of_string s))).

(** [{_canon(h): h for h in fieldnames}]. *)
Definition canon_headers (fieldnames : list string) : dict string string :=
  foldl (fun d h => dset (_canon h) h d) [] fieldnames.

(** [int(float(value))]: an infinity raises [OverflowError], which is not caught. *)
Definition int_of_text (v : string) : result string (option Z) :=
  match float_of_string v with
  | None => Ok None
  | Some f =>
      match int_of_float f with
      | Ok n => Ok (Some n)
      | Err ValueError => Ok None
      | Err OverflowError => Err "cannot convert float infinity to integer"%string
      end
  end.

Section Row.
Context (row : dict (option string) raw_field) (headers : dict string string).

Fixpoint _pick (keys : list string) : option string :=
  match keys with
  | [] => None
  | key :: rest =>
      match dget headers (_canon key) with
      | None => _pick rest
      | Some h =>
          match dget row (Some h) with
          | Some (Text v) => if String.eqb (strip v) "" then _pick rest else Some (strip v)
          | _ => _pick rest
          end
      end
  end.

Definition _read_int (keys : list string) : result string (option Z) :=
  match _pick keys with None => Ok None | Some v => int_of_text v end.

Definition _read_float (keys : list string) : option pyfloat :=
  match _pick keys with None => None | Some v => float_of_string v end.

Definition _read_energy_kwh : option pyfloat :=
  match _read_float ["energykwh"; "energydeliveredkwh"]%string with
  | Some kwh => Some kwh
  | None =>
      match _read_float ["energywh"; "energyactiveimportregister"]%string with
      | Some wh => Some (fscale wh (1 # 1000))
      | None => None
      end
  end.

Definition _read_power_kw : option pyfloat :=
  match _read_float ["powerkw"; "chargingkw"]%string with
  | Some kw => Some kw
  | None =>
      match _read_float ["powerw"; "poweractiveimport"]%string with
      | Some w => Some (fscale w (1 # 1000))
      | None => None
      end
  end.

Definition _read_soc : option pyfloat :=
  match _read_float ["socpercent"]%string with
  | Some soc => Some (fscale soc (1 # 100))
  | None =>
      match _read_float ["soc"; "stateofcharge"]%string with
      | None => None
      | Some soc => Some (if flt (Fin 1) soc then fscale soc (1 # 100) else soc)
      end
  end.
End Row.

Definition _KNOWN_CANON_KEYS : list string :=
  ["timestamp"; "time"; "datetime"; "transactionid"; "connectorid"; "soc"; "socpercent";
   "stateofcharge"; "energykwh"; "energydeliveredkwh"; "energywh"; "energyactiveimportregister";
   "powerkw"; "chargingkw"; "powerw"; "poweractiveimport"]%string.

(** [s.replace("Z", "+00:00")] and [s.replace(" ", "T", 1)]. *)
Definition replace_z (s : string) : string :=
  String.concat "+00:00" (split_on "Z"%char s).
Definition first_space_to_t (s : string) : string :=
  let '(a, b) := split_at (Ascii.eqb " "%char) s in
  match b with None => s | Some b => a +:+ String "T"%char b end.
Definition has_char (c : ascii) (s : string) : bool :=
  existsb (Ascii.eqb c) (String.list_ascii_of_string s).

(** The microseconds of [datetime.min] and [datetime.max]. *)
Definition datetime_min_us : Z := -62135596800 * usec.
Definition datetime_max_us : Z := 253402300800 * usec - 1.

Section Parser.
(** [datetime.fromisoformat]: the local time and, for an aware value, its offset,
    in microseconds; [None] is [ValueError]. *)
Context (fromisoformat : string -> option (Z * option Z)).

(** A time outside the calendar once it is moved to UTC raises [OverflowError]. *)
Definition _parse_timestamp (value : string) : result string (option Z) :=
  let s := strip value in
  if String.eqb s "" then Ok None
  else
    let s := replace_z s in
    let s := if has_char " "%char s && negb (has_char "T"%char s) then first_space_to_t s else s in
    match fromisoformat s with
    | None => Ok None
    | Some (local, offset) =>
        let utc := local - default 0 offset in
        if (utc <? datetime_min_us) || (datetime_max_us <? utc)
        then Err "date value out of range"%string else Ok (Some utc)
    end.

(** One row: the entry, or nothing, or an exception. *)
Definition parse_row (header : list string) (fields : list string) : result string (option ChargerLogEntry) :=
  let headers := canon_headers header in
  let row := zip_row header fields [] in
  match _pick row headers ["timestamp"; "time"; "datetime"]%string with
  | None => Ok None
  | Some ts =>
      let? parsed_ts := _parse_timestamp ts in
      match parsed_ts with
      | None => Ok None
      | Some t =>
          let excluded := omap (dget headers) _KNOWN_CANON_KEYS in
          let raw := List.filter (fun '(k, _) => match k with
                                                 | Some h => negb (bool_decide (h ∈ excluded))
                                                 | None => true
                                                 end) row in
          let? tx := _read_int row headers ["transactionid"]%string in
          let? conn := _read_int row headers ["connectorid"]%string in
          Ok (Some {| le_time := t; le_transaction_id := tx; le_connector_id := conn;
                      le_soc := _read_soc row headers; le_charging_kw := _read_power_kw row headers;
                      le_energy_kwh := _read_energy_kwh row headers; le_raw_fields := raw |})
      end
  end.

(** The rows until one raises; blank lines are passed over. *)
Fixpoint parse_rows (header : list string) (rows : list (list string)) : list ChargerLogEntry :=
  match rows with
  | [] => []
  | [] :: rest => parse_rows header rest
  | fields :: rest =>
      match parse_row header fields with
      | Err _ => []
      | Ok None => parse_rows header rest
      | Ok (Some e) => e :: parse_rows header rest
      end
  end.

(** [_parse_csv_text], as far as it gets: what was yielded before an exception is
    kept by the caller. *)
Definition _parse_csv_text (text : string) : list ChargerLogEntry :=
  match fst (csv_reader text) with
  | [] => []
  | header :: rows =>
      let headers := canon_headers header in
      if negb (dmem "timestamp"%string headers) && negb (dmem "time"%string headers)
         && negb (dmem "datetime"%string headers)
      then []
      else parse_rows header rows
  end.

(** *** Archives *)

Inductive archive_fault := ReadError | IoError (message : string) | OtherError (message : string).

Record tar_member := {
  tm_name : string;
  tm_isfile : bool;
  tm_size : Z;
  tm_data : option (string * option archive_fault)
    (* [extractfile]; the bytes that can be read, and the fault that ends them *)
}.

(** [tarfile.open(..., "r:gz")], then [getmembers()]. *)
Inductive tar_open := NotOpened (f : archive_fault) | Opened (members : list tar_member + archive_fault).

(** The bytes a gzip reader yields, and whether it ends without an error. *)
Context (open_tar : string -> tar_open) (gunzip : string -> string * bool).

Definition _TAR_MEMBER_MAX_BYTES : Z := 50 * 1024 * 1024.
Definition _GUNZIP_MAX_BYTES : Z := 50 * 1024 * 1024.

Definition byte_len (s : string) : Z := Z.of_nat (String.length s).

Fixpoint contains (p s : string) : bool :=
  String.prefix p s || match s with EmptyString => false | String _ s' => contains p s' end.
Definition ends_with (p s : string) : bool :=
  (String.length p <=? String.length s)%nat
  && String.eqb (String.substring (String.length s - String.length p) (String.length p) s) p.

Definition is_session_log (name : string) : bool :=
  let n := py_lower name in
  ends_with ".csv" n && existsb (fun hint => contains hint n) ["session"; "charging_session"; "transaction"]%string.

(** [_read_capped]: the cap is checked while reading. *)
Definition _read_capped (data : string * option archive_fault) (max_bytes : Z) : result parse_outcome string :=
  if max_bytes <? byte_len (fst data) then Err (parse_error "tar member exceeds size cap during extraction")
  else match snd data with
  | None => Ok (fst data)
  | Some ReadError => Err (parse_error "ABB tar.gz header parsed but stream is truncated/corrupt")
  | Some (IoError m) => Err (parse_error ("Corrupt ABB tar.gz: " +:+ m))
  | Some (OtherError m) => Err (parser_exception m)
  end.

(** The byte-order mark is dropped. *)
Definition _decode (data : string) : string :=
  let bom := String.string_of_list_ascii (map ascii_of_nat [239; 187; 191]%nat) in
  if String.prefix bom data then String.substring 3 (String.length data - 3) data else data.

Fixpoint member_texts (l : list tar_member) : result parse_outcome (list string) :=
  match l with
  | [] => Ok []
  | m :: rest =>
      if negb (tm_isfile m) || negb (is_session_log (tm_name m)) then member_texts rest
      else if _TAR_MEMBER_MAX_BYTES <? tm_size m then Err (parse_error "tar member exceeds size cap")
      else match tm_data m with
      | None => member_texts rest
      | Some data =>
          let? text := _read_capped data _TAR_MEMBER_MAX_BYTES in
          let? texts := member_texts rest in
          Ok (_decode text :: texts)
      end
  end.

Definition is_printable (c : ascii) : bool :=
  let n := nat_of_ascii c in (32 <=? n)%nat && negb (n =? 127)%nat.

Definition _looks_like_csv (head : string) : bool :=
  let first_line := fst (split_at (Ascii.eqb lf) head) in
  let cs := String.list_ascii_of_string first_line in
  (2 <=? length (List.filter (Ascii.eqb ","%char) cs))%nat
  && forallb (fun c => is_printable c || Ascii.eqb c cr || Ascii.eqb c lf || (nat_of_ascii c =? 9)%nat) cs.

(** [list(_iter_csv_streams(blob))]: an archive, a compressed file, or plain text. *)
Definition _iter_csv_streams (blob : string) : result parse_outcome (list string) :=
  let plain :=
    let '(data, ends) := gunzip blob in
    if _GUNZIP_MAX_BYTES <? byte_len data
    then Err (parse_error "gzip payload exceeds cap; refusing to expand")
    else if ends then Ok [data]
    else Ok (if _looks_like_csv (String.substring 0 256 blob) then [_decode blob] else []) in
  match open_tar blob with
  | NotOpened ReadError => plain
  | NotOpened (IoError m) => Err (parse_error ("Corrupt ABB tar.gz: " +:+ m))
  | NotOpened (OtherError m) => Err (parser_exception m)
  | Opened (inr ReadError) => Err (parse_error "ABB tar.gz header parsed but stream is truncated/corrupt")
  | Opened (inr (IoError m)) => Err (parse_error ("Corrupt ABB tar.gz: " +:+ m))
  | Opened (inr (OtherError m)) => Err (parser_exception m)
  | Opened (inl members) => member_texts members
  end.

Definition parse_abb_diagnostics (blob : string) : parse_outcome :=
  if String.eqb blob "" then parsed_entries []
  else match _iter_csv_streams blob with
  | Err o => o
  | Ok texts => parsed_entries (List.concat (map _parse_csv_text texts))
  end.

(** *** The registry *)

Definition _normalize_vendor (vendor : string) : string :=
  String.string_of_list_ascii
    (List.filter (fun c => let n := nat_of_ascii c in is_digit c || ((97 <=? n)%nat && (n <=? 122)%nat))
       (String.list_ascii_of_string (py_lower (strip vendor)))).

Definition get_parser_for_vendor (vendor : option string) : option (string -> parse_outcome) :=
  match vendor with
  | None | Some EmptyString => None
  | Some v => if contains "abb" (_normalize_vendor v) then Some parse_abb_diagnostics else None
  end.
End Parser.
