(* ===== verification/AbbLogFacts.v ===== *)
(** * Charger log parsers: properties

    What is written as CSV is read back field by field, and a session log with the
    columns ABB documents gives one entry per sample, in the units of the
    telemetry. *)

From S2P Require Import Prelude Models PyText Meter AbbLog.
From Stdlib Require Import ZArith QArith Ascii Lia.
From stdpp Require Import base list strings gmap.

#[local] Open Scope Z_scope.

(** ** Writing CSV

    A writer that quotes every field and doubles the quotes inside. *)

Definition escape (l : list ascii) : list ascii :=
  flat_map (fun c => if Ascii.eqb c quote then [quote; quote] else [c]) l.
Definition print_field (f : string) : list ascii :=
  quote :: escape (String.list_ascii_of_string f) ++ [quote].
Fixpoint print_fields (fs : list string) : list ascii :=
  match fs with
  | [] => []
  | [f] => print_field f
  | f :: fs' => print_field f ++ ","%char :: print_fields fs'
  end.
Definition print_rows (rows : list (list string)) : list ascii :=
  flat_map (fun r => print_fields r ++ [cr; lf]) rows.

Definition fits (f : string) : Prop := Z.of_nat (String.length f) <= field_limit.

(** ** Reading it back *)

Lemma feed_plain c rest b p p1 :
  parse_process_char (Some c) p = Some p1 -> c <> lf ->
  csv_records (c :: rest) b p = csv_records rest true p1.
Proof. intros H Hc. cbn [csv_records]. rewrite H. by rewrite (proj2 (Ascii.eqb_neq _ _) Hc). Qed.

(** A character of a quoted field: a line's end inside it goes on with the field. *)
Lemma feed_quoted_char c rest b fs f :
  c <> quote -> Z.of_nat (length f) < field_limit ->
  exists b', csv_records (c :: rest) b {| cs_state := IN_QUOTED_FIELD; cs_field := f; cs_fields := fs |}
  = csv_records rest b' {| cs_state := IN_QUOTED_FIELD; cs_field := c :: f; cs_fields := fs |}.
Proof.
  intros Hc Hf.
  assert (parse_process_char (Some c) {| cs_state := IN_QUOTED_FIELD; cs_field := f; cs_fields := fs |}
          = Some {| cs_state := IN_QUOTED_FIELD; cs_field := c :: f; cs_fields := fs |}) as E.
  { unfold parse_process_char, add_char. cbn [cs_state cs_field cs_fields].
    rewrite (proj2 (Ascii.eqb_neq _ _) Hc). by destruct (Z.leb_spec field_limit (Z.of_nat (length f))); [lia|]. }
  destruct (decide (c = lf)) as [->|Hlf].
  - exists false. cbn [csv_records]. rewrite E. cbn [Ascii.eqb]. unfold at_eol at 1. cbn [parse_process_char cs_state].
    by destruct (csv_records rest false _).
  - exists true. by apply feed_plain.
Qed.

Lemma feed_quoted l rest b fs f :
  Z.of_nat (length f + length l) <= field_limit ->
  exists b', csv_records (escape l ++ rest) b {| cs_state := IN_QUOTED_FIELD; cs_field := f; cs_fields := fs |}
  = csv_records rest b' {| cs_state := IN_QUOTED_FIELD; cs_field := reverse l ++ f; cs_fields := fs |}.
Proof.
  revert b f. induction l as [|c l IH]; intros b f H; cbn [escape flat_map app length] in *; [by exists b|].
  fold (escape l). assert (reverse (c :: l) ++ f = reverse l ++ c :: f) as -> by (by rewrite reverse_cons, <- app_assoc).
  destruct (Ascii.eqb_spec c quote) as [->|Hc].
  - cbn [app]. rewrite (feed_plain _ _ _ _ {| cs_state := QUOTE_IN_QUOTED_FIELD; cs_field := f; cs_fields := fs |}) by done.
    rewrite (feed_plain _ _ _ _ {| cs_state := IN_QUOTED_FIELD; cs_field := quote :: f; cs_fields := fs |}); [|..|done].
    + apply IH. cbn. lia.
    + unfold parse_process_char, add_char. cbn [cs_state cs_field cs_fields].
      rewrite Ascii.eqb_refl. by destruct (Z.leb_spec field_limit (Z.of_nat (length f))); [lia|].
  - cbn [app]. destruct (feed_quoted_char c (escape l ++ rest) b fs f Hc) as [b1 ->]; [lia|].
    apply IH. cbn. lia.
Qed.

(** A printed field, from the start of a record or behind a comma. *)
Lemma feed_field f rest b fs st :
  st = START_RECORD \/ st = START_FIELD -> fits f ->
  csv_records (print_field f ++ rest) b {| cs_state := st; cs_field := []; cs_fields := fs |}
  = csv_records rest true {| cs_state := QUOTE_IN_QUOTED_FIELD;
                             cs_field := reverse (String.list_ascii_of_string f); cs_fields := fs |}.
Proof.
  intros Hst Hf. unfold print_field. cbn [app]. rewrite <- app_assoc. cbn [app].
  rewrite (feed_plain _ _ _ _ {| cs_state := IN_QUOTED_FIELD; cs_field := []; cs_fields := fs |});
    [|by destruct Hst as [-> | ->]|done].
  destruct (feed_quoted (String.list_ascii_of_string f) (quote :: rest) true fs []) as [b' ->].
  { cbn [length Nat.add]. by rewrite list_ascii_length. }
  rewrite app_nil_r. by apply feed_plain.
Qed.

Lemma saved f : String.string_of_list_ascii (reverse (reverse (String.list_ascii_of_string f))) = f.
Proof. rewrite reverse_involutive. apply string_ascii_id. Qed.

(** The field ends at a comma or at the end of its line. *)
Lemma field_ends c f fs st :
  (c, st) = (cr, EAT_CRNL) \/ (c, st) = (","%char, START_FIELD) ->
  parse_process_char (Some c) {| cs_state := QUOTE_IN_QUOTED_FIELD;
                                 cs_field := reverse (String.list_ascii_of_string f); cs_fields := fs |}
  = Some {| cs_state := st; cs_field := []; cs_fields := fs ++ [f] |}.
Proof.
  intros H. transitivity (save_field st {| cs_state := QUOTE_IN_QUOTED_FIELD;
    cs_field := reverse (String.list_ascii_of_string f); cs_fields := fs |}).
  - by destruct H as [[= -> ->]|[= -> ->]].
  - unfold save_field. cbn [cs_field cs_fields]. by rewrite saved.
Qed.

Lemma feed_row row rest b fs st :
  row <> [] -> Forall fits row -> st = START_RECORD \/ st = START_FIELD ->
  csv_records (print_fields row ++ cr :: lf :: rest) b {| cs_state := st; cs_field := []; cs_fields := fs |}
  = let '(l, e) := csv_records rest false csv_reset in ((fs ++ row) :: l, e).
Proof.
  revert fs b st. induction row as [|f row IH]; intros fs b st Hn Hf Hst; [done|]. apply Forall_cons in Hf as [Hf Hrow].
  destruct row as [|g row].
  - cbn [print_fields]. rewrite feed_field by done.
    rewrite (feed_plain _ _ _ _ {| cs_state := EAT_CRNL; cs_field := []; cs_fields := fs ++ [f] |}); [..|done].
    + change (csv_records (lf :: rest) true _) with (let '(l, e) := csv_records rest false csv_reset in ([fs ++ [f]] ++ l, e)).
      by destruct (csv_records rest false csv_reset).
    + apply field_ends; auto.
  - cbn [print_fields]. rewrite <- app_assoc, feed_field by done. cbn [app].
    rewrite (feed_plain _ _ _ _ {| cs_state := START_FIELD; cs_field := []; cs_fields := fs ++ [f] |}); [..|done].
    + etrans; [apply (IH (fs ++ [f])); auto|]. by rewrite <- app_assoc.
    + apply field_ends; auto.
Qed.

(** What is written is read back. *)
Lemma csv_roundtrip rows :
  Forall (fun r => r <> [] /\ Forall fits r) rows ->
  csv_reader (String.string_of_list_ascii (print_rows rows)) = (rows, false).
Proof.
  unfold csv_reader. rewrite String.list_ascii_of_string_of_list_ascii.
  induction rows as [|r rows IH]; intros H; [done|]. apply Forall_cons in H as [[Hn Hf] H]. specialize (IH H).
  cbn [print_rows flat_map]. fold (print_rows rows). rewrite <- app_assoc. cbn [app].
  unfold csv_reset at 1. rewrite feed_row by auto. by rewrite IH.
Qed.

(** ** ABB session logs *)

(** The columns that ABB documents, and a sample under them. *)
Definition abb_header : list string :=
  ["timestamp"; "transaction_id"; "connector_id"; "soc_percent"; "power_w"; "energy_wh"]%string.

Record log_sample := {
  ls_time : string; ls_tx : string; ls_connector : string; ls_soc : string; ls_power : string; ls_energy : string
}.

Definition sample_row (s : log_sample) : list string :=
  [ls_time s; ls_tx s; ls_connector s; ls_soc s; ls_power s; ls_energy s].

(** The text of a field, unless it is blank, and the number it reads as. *)
Definition given (text : string) : option string :=
  if String.eqb (strip text) "" then None else Some (strip text).
Definition number (text : string) : option pyfloat :=
  match given text with None => None | Some t => float_of_string t end.

Lemma pick_given row headers k h v rest :
  dget headers (_canon k) = Some h -> dget row (Some h) = Some (Text v) ->
  _pick row headers (k :: rest) = match given v with Some t => Some t | None => _pick row headers rest end.
Proof. intros H1 H2. cbn [_pick]. rewrite H1, H2. unfold given. by destruct (String.eqb _ _). Qed.

Lemma pick_absent row headers k rest :
  dget headers (_canon k) = None -> _pick row headers (k :: rest) = _pick row headers rest.
Proof. intros H. cbn [_pick]. by rewrite H. Qed.

Definition abb_row (s : log_sample) : dict (option string) raw_field := zip_row abb_header (sample_row s) [].
Definition abb_headers : dict string string := canon_headers abb_header.

Lemma abb_pick s k rest h v :
  dget abb_headers (_canon k) = Some h -> dget (abb_row s) (Some h) = Some (Text v) ->
  Forall (fun x => dget abb_headers (_canon x) = None) rest ->
  _pick (abb_row s) abb_headers (k :: rest) = given v.
Proof.
  intros H1 H2 Hr. rewrite (pick_given _ _ _ _ _ _ H1 H2). destruct (given v); [done|].
  induction Hr as [|x rest Hx Hr IH]; [done|]. by rewrite pick_absent.
Qed.

(** What one sample reads as. *)
Definition sample_entry (fromisoformat : string -> option (Z * option Z)) (s : log_sample)
  : result string (option ChargerLogEntry) :=
  match given (ls_time s) with
  | None => Ok None
  | Some ts =>
      let? t := _parse_timestamp fromisoformat ts in
      match t with
      | None => Ok None
      | Some t =>
          let id text := match given text with None => Ok None | Some v => int_of_text v end in
          let? tx := id (ls_tx s) in
          let? conn := id (ls_connector s) in
          Ok (Some {| le_time := t; le_transaction_id := tx; le_connector_id := conn;
                      le_soc := (fun f => fscale f (1 # 100)) <$> number (ls_soc s);
                      le_charging_kw := (fun f => fscale f (1 # 1000)) <$> number (ls_power s);
                      le_energy_kwh := (fun f => fscale f (1 # 1000)) <$> number (ls_energy s);
                      le_raw_fields := [] |})
      end
  end.

Lemma parse_abb_row fromisoformat s : parse_row fromisoformat abb_header (sample_row s) = sample_entry fromisoformat s.
Proof.
  unfold parse_row, sample_entry. fold (abb_row s) abb_headers.
  assert (forall k h v, dget abb_headers (_canon k) = Some h -> dget (abb_row s) (Some h) = Some (Text v) ->
            _read_int (abb_row s) abb_headers [k]
            = match given v with None => Ok None | Some v => int_of_text v end) as Ids.
  { intros k h v H1 H2. unfold _read_int. by rewrite (abb_pick s k [] h v). }
  assert (forall k rest h v, dget abb_headers (_canon k) = Some h -> dget (abb_row s) (Some h) = Some (Text v) ->
            Forall (fun x => dget abb_headers (_canon x) = None) rest ->
            _read_float (abb_row s) abb_headers (k :: rest) = number v) as Nums.
  { intros k rest h v H1 H2 Hr. unfold _read_float, number. by rewrite (abb_pick s k rest h v). }
  rewrite (abb_pick s "timestamp" _ "timestamp" (ls_time s)) by first [reflexivity | repeat constructor].
  destruct (given (ls_time s)) as [ts|]; [|done]. destruct (_parse_timestamp _ ts) as [[t|]|]; cbn [rbind]; [|done..].
  rewrite (Ids "transactionid" "transaction_id" (ls_tx s))%string by reflexivity.
  rewrite (Ids "connectorid" "connector_id" (ls_connector s))%string by reflexivity.
  unfold _read_soc. rewrite (Nums "socpercent" [] "soc_percent" (ls_soc s))%string by first [reflexivity | constructor].
  unfold _read_power_kw, _read_energy_kwh.
  rewrite (Nums "powerw" ["poweractiveimport"] "power_w" (ls_power s))%string by first [reflexivity | repeat constructor].
  rewrite (Nums "energywh" ["energyactiveimportregister"] "energy_wh" (ls_energy s))%string by first [reflexivity | repeat constructor].
  assert (forall a b, dget abb_headers (_canon a) = None -> dget abb_headers (_canon b) = None ->
            _read_float (abb_row s) abb_headers [a; b] = None) as Abs.
  { intros a b Ha Hb. unfold _read_float. by rewrite !pick_absent. }
  rewrite !Abs by reflexivity.
  assert (List.filter (fun '(k, _) => match k with
            | Some h => negb (bool_decide (h ∈ omap (dget abb_headers) _KNOWN_CANON_KEYS))
            | None => true end) (abb_row s) = []) as -> by reflexivity.
  destruct (match given (ls_tx s) with Some _ => _ | None => _ end); cbn [rbind]; [|done].
  destruct (match given (ls_connector s) with Some _ => _ | None => _ end); cbn [rbind]; [|done].
  by destruct (number (ls_soc s)), (number (ls_power s)), (number (ls_energy s)).
Qed.

(** The rows up to the first that raises. *)
Fixpoint entries_until (l : list (result string (option ChargerLogEntry))) : list ChargerLogEntry :=
  match l with
  | [] => []
  | Err _ :: _ => []
  | Ok None :: rest => entries_until rest
  | Ok (Some e) :: rest => e :: entries_until rest
  end.


(** ** Examples *)

(** A reader for times given in whole seconds. *)
Definition ex_iso (s : string) : option (Z * option Z) :=
  match py_int s with Some n => Some (n * usec, Some 0) | None => None end.

Definition ex_sample (t tx kwh : string) : log_sample :=
  {| ls_time := t; ls_tx := tx; ls_connector := "1"; ls_soc := "50.5"; ls_power := "7000"; ls_energy := kwh |}.

Definition ex_samples : list log_sample := [ex_sample "100" "42" "1000"; ex_sample "160" "42" "1250.5"].


(** A transaction identifier that reads as an infinity ends the file: the samples
    behind it are lost. *)
Lemma infinite_id_drops_rest :
  map le_time (_parse_csv_text ex_iso (String.string_of_list_ascii (print_rows (abb_header :: map sample_row
    [ex_sample "100" "42" "1000"; ex_sample "160" "inf" "1250"; ex_sample "220" "42" "1500"]))))
  = [100 * usec].
Proof. vm_compute. reflexivity. Qed.

(** The state of charge is not kept in its range, and one percent in a generic
    column is read as full. *)
Lemma soc_out_of_range :
  _read_soc [(Some "soc_percent", Text "150")]%string [("socpercent", "soc_percent")]%string = Some (Fin (150 * (1 # 100)))
  /\ _read_soc [(Some "soc", Text "1")]%string [("soc", "soc")]%string = Some (Fin 1).
Proof. split; vm_compute; reflexivity. Qed.
