(* ===== verification/Reconcile.v ===== *)
(** * Reconciliation of charger logs
    ([src/core/reconciliation/session_log_reconciliation.py])

    What a charger logged of a session, compared with what was recorded of it:
    the energy of the session's telemetry by the trapezoidal rule, with the last
    sample carried forward for five minutes at most, against the spread of the
    meter readings in the log. The queries are evaluated on lists of rows; the
    log's numbers keep infinities and NaN, which a charger can write and
    [DOUBLE PRECISION] columns store. *)

From S2P Require Import Prelude Models PyText Meter AbbLog CommandQueue Billing.
From Stdlib Require Import ZArith QArith Lia.
From stdpp Require Import base list strings gmap.

#[local] Open Scope Z_scope.

(** ** Data *)

Inductive ReconciliationSource := reconciled | partial | no_log_entries | no_session | parse_failed.

#[export] Instance reconciliation_source_eq_dec : EqDecision ReconciliationSource.
Proof. solve_decision. Defined.

(** The [notes] of a result: empty, the import's error, or the number of entries
    with the recorded energy. *)
Inductive reconciliation_notes :=
| no_notes
| import_error (message : option string)
| counted (charger_entries : Z) (energy_delivered_kwh_recorded : option Q).

Record ReconciliationResult := {
  rc_source : ReconciliationSource;
  our_energy_kwh : option Q;
  charger_energy_kwh : option pyfloat;
  energy_delta_pct : option pyfloat;
  our_duration_s : option Z;
  charger_duration_s : option Z;
  our_start_time : option Z;
  charger_start_time : option Z;
  our_end_time : option Z;
  charger_end_time : option Z;
  rc_notes : reconciliation_notes
}.

(** [ReconciliationResult(source=s, notes=n)]. *)
Definition bare_result (s : ReconciliationSource) (n : reconciliation_notes) : ReconciliationResult :=
  {| rc_source := s; our_energy_kwh := None; charger_energy_kwh := None; energy_delta_pct := None;
     our_duration_s := None; charger_duration_s := None; our_start_time := None;
     charger_start_time := None; our_end_time := None; charger_end_time := None; rc_notes := n |}.

(** A row of [charger_session_log_entries]. *)
Record entry_row := {
  en_time : Z;
  en_station_id : string;
  en_charger_id : option string;
  en_connector_id : option Z;
  en_transaction_id : option Z;
  en_log_import_id : string;
  en_soc : option pyfloat;
  en_charging_kw : option pyfloat;
  en_energy_kwh : option pyfloat;
  en_raw_fields : option (dict (option string) raw_field)
}.

(** ** Numbers of the log *)

Definition fneg (f : pyfloat) : pyfloat :=
  match f with Fin q => Fin (- q) | Inf n => Inf (negb n) | NaN => NaN end.

Definition fadd (a b : pyfloat) : pyfloat :=
  match a, b with
  | Fin p, Fin q => Fin (p + q)
  | NaN, _ | _, NaN => NaN
  | Inf m, Inf n => if Bool.eqb m n then Inf m else NaN
  | Inf n, Fin _ | Fin _, Inf n => Inf n
  end.

Definition fsub (a b : pyfloat) : pyfloat := fadd a (fneg b).

(** [a <= b] on floats: false when either side is NaN. *)
Definition fle (a b : pyfloat) : bool :=
  match a, b with
  | NaN, _ | _, NaN => false
  | _, _ => negb (flt b a)
  end.

(** The database's order on [DOUBLE PRECISION]: NaN is above everything. *)
Definition pg_le (a b : pyfloat) : bool :=
  match a, b with
  | _, NaN => true
  | NaN, _ => false
  | _, _ => fle a b
  end.

(** [MIN] and [MAX]: null on no values. *)
Definition extreme {A} (le : A -> A -> bool) (l : list A) : option A :=
  match l with
  | [] => None
  | x :: l' => Some (foldl (fun best y => if le best y then best else y) x l')
  end.

(** ** The charger's side *)

Record charger_aggregate := {
  sample_count : Z;
  min_time : option Z;
  max_time : option Z;
  max_energy_kwh : option pyfloat;
  min_energy_kwh : option pyfloat
}.

(** [$n IS NULL OR ...]. *)
Definition unless_null {A} (v : option A) (p : A -> bool) : bool :=
  match v with None => true | Some x => p x end.

(** The [WHERE] clause: of the import and the station, and of the transaction, or,
    for a session without one, of its connector and times. *)
Definition log_entry_matches (log_import_id : string) (s : session_row) (e : entry_row) : bool :=
  String.eqb (en_log_import_id e) log_import_id
  && unless_null (Billing.station_id s) (String.eqb (en_station_id e))
  && match Billing.transaction_id s with
     | Some tx => sql_eq (en_transaction_id e) tx
     | None =>
         unless_null (Billing.connector_id s) (sql_eq (en_connector_id e))
         && (Billing.start_time s <=? en_time e)
         && unless_null (Billing.end_time s) (fun t => en_time e <=? t)
     end.

Definition _CHARGER_AGGREGATE_SQL (log_import_id : string) (s : session_row) (entries : list entry_row)
  : charger_aggregate :=
  let rows := List.filter (log_entry_matches log_import_id s) entries in
  let energies := omap en_energy_kwh rows in
  {| sample_count := Z.of_nat (length rows);
     min_time := extreme Z.leb (map en_time rows);
     max_time := extreme Z.geb (map en_time rows);
     max_energy_kwh := extreme (fun a b => pg_le b a) energies;
     min_energy_kwh := extreme pg_le energies |}.

Definition _charger_total_kwh (max_energy min_energy : option pyfloat) : option pyfloat :=
  match max_energy with
  | None => None
  | Some hi =>
      if fle hi (Fin 0) then None
      else match min_energy with
           | None => Some hi
           | Some lo =>
               let delta := fsub hi lo in
               if fle delta (Fin 0) then Some (Fin 0) else Some delta
           end
  end.

(** ** Our side *)

Definition _TAIL_EXTRAPOLATION_CAP_SECONDS : Q := 300.

(** The samples of the connector in the window, in order of time. *)
Definition power_samples (tx_filter : telemetry_row -> bool) (station : string) (connector : Z)
    (start end_ : Z) (telemetry : list telemetry_row) : list (Z * Q) :=
  sort_by (fun a b => fst a <=? fst b)
    (omap (fun r =>
       match tm_charging_kw r with
       | Some kw =>
           if sql_eq (tm_station_id r) station && sql_eq (tm_connector_id r) connector
              && tx_filter r && (start - 15 * minute_us <=? tm_time r) && (tm_time r <? end_)
           then Some (tm_time r, kw) else None
       | None => None
       end) telemetry).

(** The energy of the interval a sample opens: the trapezoid to the next sample,
    or the tail. The samples are clamped to the session's start. *)
Definition sample_energy (end_ : Z) (s : sample) : Q :=
  match s_next s with
  | Some _ => interval_energy end_ s
  | None => (s_kw s * pymin (total_seconds (end_ - s_time s)) _TAIL_EXTRAPOLATION_CAP_SECONDS / 3600)%Q
  end.

Definition _OUR_ENERGY_SQL (tx_filter : telemetry_row -> bool) (station : string) (connector : Z)
    (start end_ : Z) (telemetry : list telemetry_row) : Q :=
  Qsum (map (sample_energy end_)
    (bucketed start (lead (power_samples tx_filter station connector start end_ telemetry)))).

(** The query's energy, when it is positive. *)
Definition energy_query (tx_filter : telemetry_row -> bool) (station : string) (connector : Z)
    (start end_ : Z) (telemetry : list telemetry_row) : option Q :=
  let value := _OUR_ENERGY_SQL tx_filter station connector start end_ telemetry in
  if (value <=?q 0)%Q then None else Some value.

Definition _our_energy_kwh (telemetry : list telemetry_row) (station : option string)
    (connector transaction : option Z) (start_time end_time : option Z) : option Q :=
  match start_time, end_time, station, connector with
  | Some start, Some end_, Some st, Some c =>
      match transaction with
      | Some tx =>
          match energy_query (fun r => sql_eq (tm_transaction_id r) tx) st c start end_ telemetry with
          | Some value => Some value
          | None =>
              energy_query (fun r => match tm_transaction_id r with
                                     | None => true
                                     | Some x => x =? tx
                                     end) st c start end_ telemetry
          end
      | None => energy_query (fun _ => true) st c start end_ telemetry
      end
  | _, _, _, _ => None
  end.

(** ** The comparison *)

(** [int(seconds)] of a duration that is not negative. *)
Definition _duration_s (start end_ : option Z) : option Z :=
  match start, end_ with
  | Some s, Some e => if e - s <? 0 then None else Some ((e - s) / usec)
  | _, _ => None
  end.

(** What the first connection reads: an outcome already, or the session with the
    aggregate of its log. *)
Definition read_charger_side (imports : list import_row) (entries : list entry_row)
    (sessions : list session_row) (session log_import_id : string)
  : ReconciliationResult + (session_row * charger_aggregate) :=
  match List.find (fun s => String.eqb (Billing.session_id s) session) sessions with
  | None => inl (bare_result no_session no_notes)
  | Some s =>
      match List.find (fun r => String.eqb (CommandQueue.import_id r) log_import_id) imports with
      | None => inl (bare_result parse_failed no_notes)
      | Some r =>
          if bool_decide (im_status r = import_failed)
          then inl (bare_result parse_failed (import_error (error_message r)))
          else
            let agg := _CHARGER_AGGREGATE_SQL log_import_id s entries in
            if sample_count agg =? 0 then inl (bare_result no_log_entries no_notes)
            else inr (s, agg)
      end
  end.

(** [(charger - ours) / ours] and the verdict, once our energy is read too. *)
Definition compare_sides (s : session_row) (agg : charger_aggregate) (our_energy : option Q)
  : ReconciliationResult :=
  let charger_energy := _charger_total_kwh (max_energy_kwh agg) (min_energy_kwh agg) in
  let delta_pct :=
    match our_energy, charger_energy with
    | Some ours, Some theirs =>
        if (0 <?q ours)%Q then Some (fscale (fsub theirs (Fin ours)) (/ ours)) else None
    | _, _ => None
    end in
  let have_both_sides :=
    match our_energy, charger_energy with
    | Some ours, Some theirs => (0 <?q ours)%Q && flt (Fin 0) theirs
    | _, _ => false
    end in
  let our_start := Some (Billing.start_time s) in
  {| rc_source := if have_both_sides then reconciled else partial;
     our_energy_kwh := our_energy;
     charger_energy_kwh := charger_energy;
     energy_delta_pct := delta_pct;
     our_duration_s := _duration_s our_start (Billing.end_time s);
     charger_duration_s := _duration_s (min_time agg) (max_time agg);
     our_start_time := our_start;
     charger_start_time := min_time agg;
     our_end_time := Billing.end_time s;
     charger_end_time := max_time agg;
     rc_notes := counted (sample_count agg) (Billing.energy_delivered_kwh s) |}.

(** Our energy is read on a second connection, over the telemetry of that time. *)
Definition read_our_side (telemetry : list telemetry_row) (s : session_row) : option Q :=
  _our_energy_kwh telemetry (Billing.station_id s) (Billing.connector_id s)
    (Billing.transaction_id s) (Some (Billing.start_time s)) (Billing.end_time s).

Definition reconcile_session_log (imports : list import_row) (entries : list entry_row)
    (sessions : list session_row) (telemetry : list telemetry_row) (session log_import_id : string)
  : ReconciliationResult :=
  match read_charger_side imports entries sessions session log_import_id with
  | inl r => r
  | inr (s, agg) => compare_sides s agg (read_our_side telemetry s)
  end.

(** ** The table of results *)

Record reconciliation_row := { computed_at : Z; rr_result : ReconciliationResult }.

(** One row for a session and an import: a second run overwrites the first. *)
Definition write_session_log_reconciliation (now : Z) (session log_import_id : string)
    (r : ReconciliationResult) (table : dict (string * string) reconciliation_row)
  : dict (string * string) reconciliation_row :=
  dset (session, log_import_id) {| computed_at := now; rr_result := r |} table.
