(* ===== verification/ReconcileFacts.v ===== *)
(** * Reconciliation of charger logs: properties

    The recorded energy is bounded by the power that was seen and by the time the
    charger was heard, and a verdict rests on the readings of the session's log. *)

From S2P Require Import Prelude Models PyText Meter AbbLog CommandQueue Billing BillingFacts Reconcile.
From Stdlib Require Import ZArith QArith Lqa Lia.
From stdpp Require Import base list strings gmap sorting.

#[local] Open Scope Z_scope.

(** ** Our side *)

Lemma power_samples_elem f st c start end_ tele t kw :
  (t, kw) ∈ power_samples f st c start end_ tele ->
  t < end_ /\ exists r, r ∈ tele /\ tm_charging_kw r = Some kw /\ tm_time r = t
    /\ tm_station_id r = Some st /\ tm_connector_id r = Some c.
Proof.
  intros H. apply elem_of_sort_by, list_elem_of_omap in H as (r & Hr & H).
  destruct (tm_charging_kw r) as [k|] eqn:E; [|done]. destruct (_ && _) eqn:B; [|done]. injection H as <- <-.
  rewrite !andb_true_iff in B. destruct B as ((((H1 & H2) & _) & _) & H3). apply Z.ltb_lt in H3.
  split; [done|]. exists r. unfold sql_eq in H1, H2.
  destruct (tm_station_id r); [|done]. destruct (tm_connector_id r); [|done].
  apply bool_decide_eq_true in H1 as ->. apply bool_decide_eq_true in H2 as ->. done.
Qed.

Lemma power_samples_sorted f st c start end_ tele :
  StronglySorted (fun a b : Z * Q => (fst a <=? fst b) = true) (power_samples f st c start end_ tele).
Proof. apply sort_by_sorted; intros; rewrite ?Z.leb_le in *; lia. Qed.

(** The seconds a sample counts for. *)
Definition counted_seconds (end_ : Z) (s : sample) : Q :=
  match s_next s with
  | Some _ => observed end_ s
  | None => pymin (observed end_ s) _TAIL_EXTRAPOLATION_CAP_SECONDS
  end.

Definition tail_us : Z := 300 * usec.

Lemma total_seconds_le a b : a <= b -> (total_seconds a <= total_seconds b)%Q.
Proof.
  intros H. unfold total_seconds, Qdiv. apply Qmult_le_compat_r; [by rewrite <- Zle_Qle|]. apply Qinv_le_0_compat. done.
Qed.

Lemma seconds_nonneg a : 0 <= a -> (0 <= total_seconds a)%Q.
Proof. intros H%total_seconds_le. assert (total_seconds 0 == 0)%Q by reflexivity. lra. Qed.

Lemma pymin_seconds a : (pymin (total_seconds a) _TAIL_EXTRAPOLATION_CAP_SECONDS == total_seconds (Z.min a tail_us))%Q.
Proof.
  assert (total_seconds tail_us == _TAIL_EXTRAPOLATION_CAP_SECONDS)%Q as E by reflexivity.
  unfold pymin. destruct (Z.min_spec a tail_us) as [[H%Z.lt_le_incl%total_seconds_le ->]|[H%total_seconds_le ->]];
    case_q; qbool; lra.
Qed.

(** The counted seconds run from the first sample to the tail of the last one. *)
Lemma bucketed_counted start end_ t kw l :
  StronglySorted (fun a b : Z * Q => (fst a <=? fst b) = true) ((t, kw) :: l) ->
  Forall (fun a => fst a < end_) ((t, kw) :: l) -> start <= end_ ->
  exists tl, tl ∈ map fst ((t, kw) :: l) /\ t <= tl /\
  (Qsum (map (counted_seconds end_) (bucketed start (lead ((t, kw) :: l))))
   == total_seconds (Z.min end_ (Z.max start tl + tail_us) - Z.max start t))%Q.
Proof.
  revert t kw. induction l as [|[t2 kw2] l IH]; intros t kw Hs Hf Hse.
  - exists t. split; [by left|]. split; [lia|]. unfold bucketed, counted_seconds, observed. cbn -[pymin].
    rewrite pymin_seconds. rewrite Qplus_0_r.
    replace (Z.min (end_ - Z.max t start) tail_us) with (Z.min end_ (Z.max start t + tail_us) - Z.max start t) by lia.
    reflexivity.
  - inversion Hs as [|? ? Hs2 Hle]; subst. apply Forall_cons in Hf as [Ht Hf].
    destruct (IH _ _ Hs2 Hf Hse) as (tl & Hin & Htl & E).
    apply Forall_cons in Hle as [Hle _]. apply Z.leb_le in Hle. cbn in Hle, Ht.
    apply Forall_cons in Hf as [Ht2 _]. cbn in Ht2. exists tl. split; [by right|]. split; [lia|].
    unfold bucketed in *. cbn [lead List.filter s_next head].
    destruct (Z.ltb_spec start t2) as [Hst|Hst]; cbn [map Qsum].
    + rewrite E. unfold counted_seconds, observed at 1. cbn [s_next s_time]. rewrite total_seconds_add.
      replace (Z.min t2 end_ - Z.max t start + (Z.min end_ (Z.max start tl + tail_us) - Z.max start t2))
        with (Z.min end_ (Z.max start tl + tail_us) - Z.max start t) by lia. reflexivity.
    + rewrite E. replace (Z.max start t2) with start by lia. by replace (Z.max start t) with start by lia.
Qed.

(** Every kept sample counts for a time that is not negative, and its powers are
    those of the samples. *)
Lemma bucketed_elem start end_ l s :
  StronglySorted (fun a b : Z * Q => (fst a <=? fst b) = true) l ->
  Forall (fun a => fst a < end_) l -> start <= end_ -> s ∈ bucketed start (lead l) ->
  (0 <= counted_seconds end_ s)%Q /\ (s_kw s ∈ map snd l)
  /\ match s_next s with Some (_, k) => k ∈ map snd l | None => True end.
Proof.
  intros Hs Hf Hse H. unfold bucketed in H. apply list_elem_of_fmap in H as (x & -> & H).
  apply elem_of_lfilter in H as [H Hk]. unfold counted_seconds, observed. cbn [s_next s_time s_kw].
  induction l as [|[t kw] l IH]; [by apply not_elem_of_nil in H|].
  inversion Hs as [|? ? Hs2 Hle]; subst. apply Forall_cons in Hf as [Ht Hf]. cbn [lead] in H.
  apply elem_of_cons in H as [->|H].
  - cbn [s_next s_time s_kw fst] in *. destruct l as [|[t2 k2] l]; cbn [head] in *.
    + split; [|split; [by left|done]]. apply pymin_glb; [|unfold _TAIL_EXTRAPOLATION_CAP_SECONDS; lra].
      apply seconds_nonneg. lia.
    + apply Forall_cons in Hle as [Hle _]. apply Z.leb_le in Hle. apply Z.ltb_lt in Hk.
      apply Forall_cons in Hf as [Ht2 _]. cbn in Hle, Ht2. split; [|split; [by left|by right; left]].
      apply seconds_nonneg. lia.
  - destruct (IH Hs2 Hf H) as (A & B & C). split; [done|]. split; [by right|].
    destruct (s_next x) as [[]|]; [by right|done].
Qed.

Lemma sample_energy_le P start end_ l s :
  StronglySorted (fun a b : Z * Q => (fst a <=? fst b) = true) l ->
  Forall (fun a => fst a < end_ /\ (snd a <= P)%Q) l -> start <= end_ -> (0 <= P)%Q ->
  s ∈ bucketed start (lead l) ->
  (sample_energy end_ s <= counted_seconds end_ s * (P / 3600))%Q.
Proof.
  intros Hs Hf Hse HP H.
  destruct (bucketed_elem start end_ l s Hs) as (A & B & C); [|done..|].
  { eapply Forall_impl; [exact Hf|]. by intros ? []. }
  assert (forall k, k ∈ map snd l -> (k <= P)%Q) as K.
  { intros k Hk. apply list_elem_of_fmap in Hk as (y & -> & Hy). rewrite Forall_forall in Hf. by apply Hf. }
  assert (forall k, (k <= P)%Q -> (k * counted_seconds end_ s / 3600 <= counted_seconds end_ s * (P / 3600))%Q) as M.
  { intros k Hk. pose proof (Qmult_le_compat_r _ _ _ Hk A) as X.
    assert (counted_seconds end_ s * (P / 3600) == P * counted_seconds end_ s / 3600)%Q as -> by field.
    unfold Qdiv. by apply Qmult_le_compat_r. }
  unfold sample_energy, counted_seconds in *. destruct (s_next s) as [[n k]|] eqn:E.
  - unfold interval_energy. rewrite E. apply M. pose proof (K _ B). pose proof (K _ C). apply Qle_shift_div_r; lra.
  - unfold observed in *. rewrite E in *. by apply M, K.
Qed.

(** ** The recorded energy *)

Lemma energy_query_bounded f st c start end_ tele e tl P :
  start <= end_ -> start <= tl -> (0 <= P)%Q ->
  (forall r kw, r ∈ tele -> tm_station_id r = Some st -> tm_connector_id r = Some c ->
     tm_charging_kw r = Some kw -> tm_time r < end_ -> tm_time r <= tl /\ (kw <= P)%Q) ->
  energy_query f st c start end_ tele = Some e ->
  (0 < e <= P * total_seconds (Z.min end_ (tl + tail_us) - start) / 3600)%Q.
Proof.
  intros Hse Htl HP Hr. unfold energy_query, _OUR_ENERGY_SQL.
  pose proof (power_samples_sorted f st c start end_ tele) as Hs.
  assert (Forall (fun a => fst a < end_ /\ fst a <= tl /\ (snd a <= P)%Q) (power_samples f st c start end_ tele)) as Hf.
  { apply Forall_forall. intros [t kw] (H & r & H1 & H2 & H3 & H4 & H5)%power_samples_elem. cbn. split; [done|].
    rewrite <- H3 in H |- *. by apply (Hr r kw). }
  destruct (Qle_bool _ 0) eqn:E; [done|]. intros [= <-]. split; [by apply Qleb_gt in E|]. clear E.
  destruct (power_samples f st c start end_ tele) as [|[t kw] l].
  { cbn. pose proof (seconds_nonneg (Z.min end_ (tl + tail_us) - start)). unfold tail_us, usec in *.
    apply Qle_shift_div_l; [lra|]. assert (0 <= total_seconds (Z.min end_ (tl + 300 * 1000000) - start))%Q by (apply H; lia). nra. }
  destruct (bucketed_counted start end_ t kw l Hs) as (tl' & Hin & Ht & Hsum); [|done|].
  { eapply Forall_impl; [exact Hf|]. by intros ? (? & _). }
  eapply Qle_trans; [apply Qsum_map_le; intros s Hin'; apply (sample_energy_le P start end_ ((t, kw) :: l)); try done|].
  { eapply Forall_impl; [exact Hf|]. by intros ? (? & _ & ?). }
  rewrite (Qsum_scale (counted_seconds end_) (P / 3600)), Hsum.
  apply list_elem_of_fmap in Hin as ([t' k'] & -> & Hin). rewrite Forall_forall in Hf. destruct (Hf _ Hin) as (_ & Hb & _). cbn in Hb.
  assert (total_seconds (Z.min end_ (Z.max start t' + tail_us) - Z.max start t)
          <= total_seconds (Z.min end_ (tl + tail_us) - start))%Q as X by (apply total_seconds_le; lia).
  assert (P * total_seconds (Z.min end_ (tl + tail_us) - start) / 3600
          == total_seconds (Z.min end_ (tl + tail_us) - start) * (P / 3600))%Q as -> by field.
  apply Qmult_le_compat_r; [done|]. apply Qle_shift_div_l; lra.
Qed.

(** The energy that is recorded of a session is positive and at most the highest
    power its connector reported, over the time from the session's start to its end
    or to five minutes after the last report, whichever is first: a charger that
    falls silent is not charged for the rest of the session. *)
Theorem recorded_energy_bounded tele st c tx start end_ e tl P :
  start <= end_ -> start <= tl -> (0 <= P)%Q ->
  (forall r kw, r ∈ tele -> tm_station_id r = Some st -> tm_connector_id r = Some c ->
     tm_charging_kw r = Some kw -> tm_time r < end_ -> tm_time r <= tl /\ (kw <= P)%Q) ->
  _our_energy_kwh tele (Some st) (Some c) tx (Some start) (Some end_) = Some e ->
  (0 < e <= P * total_seconds (Z.min end_ (tl + tail_us) - start) / 3600)%Q.
Proof.
  intros Hse Htl HP Hr. unfold _our_energy_kwh. destruct tx as [tx|]; [|by apply energy_query_bounded].
  destruct (energy_query (fun r => sql_eq _ _) st c start end_ tele) as [v|] eqn:E.
  - intros [= <-]. by eapply energy_query_bounded.
  - by apply energy_query_bounded.
Qed.

(** ** The charger's side *)

Lemma pg_le_Fin p q : pg_le (Fin p) (Fin q) = true <-> (p <= q)%Q.
Proof. cbn. by rewrite negb_true_iff, Qltb_ge. Qed.

Lemma pg_le_refl a : pg_le a a = true.
Proof. destruct a as [q|[]|]; [apply pg_le_Fin; lra|done..]. Qed.

Lemma pg_le_total a b : pg_le a b = false -> pg_le b a = true.
Proof.
  destruct a as [p|[]|], b as [q|[]|]; try done. intros H. apply pg_le_Fin.
  cbn in H. apply negb_false_iff, Qltb_lt in H. lra.
Qed.

Lemma pg_le_trans a b c : pg_le a b = true -> pg_le b c = true -> pg_le a c = true.
Proof.
  destruct a as [p|[]|], b as [q|[]|], c as [r|[]|]; try done. rewrite !pg_le_Fin. lra.
Qed.

(** [MIN] and [MAX] are values of the column, below and above all others. *)
Lemma extreme_spec {A} (le : A -> A -> bool) l x :
  (forall a, le a a = true) -> (forall a b, le a b = false -> le b a = true) ->
  (forall a b c, le a b = true -> le b c = true -> le a c = true) ->
  extreme le l = Some x -> x ∈ l /\ forall y, y ∈ l -> le x y = true.
Proof.
  intros Hr Ht Htr. destruct l as [|z l]; [done|]. cbn. intros [= <-].
  set (best := fun b y => if le b y then b else y).
  assert (forall z, foldl best z l ∈ z :: l /\ forall y, y ∈ z :: l -> le (foldl best z l) y = true) as H; [|apply H].
  clear z. induction l as [|a l IH]; intros z; cbn [foldl].
  - split; [by left|]. intros y Hy. apply list_elem_of_singleton in Hy as ->. apply Hr.
  - destruct (IH (best z a)) as [H1 H2]. unfold best in H1, H2 at 1. split.
    + apply elem_of_cons in H1 as [H1|H1]; [|by right; right]. unfold best in *. rewrite H1 at 1.
      destruct (le z a); [by left|by right; left].
    + assert (le (best z a) z = true /\ le (best z a) a = true) as [B1 B2].
      { unfold best. destruct (le z a) eqn:E; auto. }
      pose proof (H2 (best z a) ltac:(left)) as B. intros y Hy.
      apply elem_of_cons in Hy as [->|Hy]; [by eapply Htr|]. apply elem_of_cons in Hy as [->|Hy]; [by eapply Htr|].
      apply H2. by right.
Qed.

Lemma extreme_None {A} (le : A -> A -> bool) l : extreme le l = None <-> l = [].
Proof. by destruct l. Qed.

(** The readings of the session's log. *)
Definition readings (log_import_id : string) (s : session_row) (entries : list entry_row) : list pyfloat :=
  omap en_energy_kwh (List.filter (log_entry_matches log_import_id s) entries).

(** The readings' lowest and highest are null together, so the total is the spread
    of the log or nothing: the highest reading is never taken for the total. *)
Lemma charger_total_spread id s entries agg :
  _CHARGER_AGGREGATE_SQL id s entries = agg ->
  _charger_total_kwh (max_energy_kwh agg) (min_energy_kwh agg) = None
  \/ exists hi lo, hi ∈ readings id s entries /\ lo ∈ readings id s entries
       /\ (forall x, x ∈ readings id s entries -> pg_le lo x = true /\ pg_le x hi = true)
       /\ fle hi (Fin 0) = false
       /\ _charger_total_kwh (max_energy_kwh agg) (min_energy_kwh agg)
          = Some (if fle (fsub hi lo) (Fin 0) then Fin 0 else fsub hi lo).
Proof.
  intros <-. cbn [max_energy_kwh min_energy_kwh _CHARGER_AGGREGATE_SQL]. fold (readings id s entries).
  destruct (extreme (fun a b => pg_le b a) _) as [hi|] eqn:Eh; [|by left].
  destruct (extreme pg_le _) as [lo|] eqn:El; [|apply extreme_None in El; by rewrite El in Eh].
  apply extreme_spec in Eh as [H1 H2]; [|apply pg_le_refl|intros; by apply pg_le_total|eauto using pg_le_trans].
  apply extreme_spec in El as [L1 L2]; [|apply pg_le_refl|apply pg_le_total|apply pg_le_trans].
  cbn [_charger_total_kwh]. destruct (fle hi (Fin 0)) eqn:E0; [by left|]. right. exists hi, lo.
  repeat (split; [by auto|]). by destruct (fle (fsub hi lo) (Fin 0)).
Qed.

(** ** Verdicts *)

(** A session is [reconciled] only on evidence: the import did not fail, our energy
    is positive, the charger's is the spread of the readings that its log holds for
    the session, and the delta is their relative difference: theirs is ours times
    one plus the delta. *)
Theorem reconciled_on_evidence imports entries sessions tele session id :
  let res := reconcile_session_log imports entries sessions tele session id in
  rc_source res = reconciled ->
  exists s ours hi lo theirs,
    s ∈ sessions /\ Billing.session_id s = session
    /\ our_energy_kwh res = Some ours /\ (0 < ours)%Q
    /\ hi ∈ readings id s entries /\ lo ∈ readings id s entries
    /\ (forall x, x ∈ readings id s entries -> pg_le lo x = true /\ pg_le x hi = true)
    /\ charger_energy_kwh res = Some theirs /\ theirs = fsub hi lo
    /\ forall q, theirs = Fin q -> exists d, energy_delta_pct res = Some (Fin d) /\ (q == ours * (1 + d))%Q.
Proof.
  cbn zeta. unfold reconcile_session_log, read_charger_side.
  destruct (List.find _ sessions) as [s|] eqn:Fs; [|done]. apply find_some in Fs as [Fs Es].
  destruct (List.find _ imports) as [r|]; [|done]. destruct (bool_decide _); [done|].
  destruct (_ =? 0); [done|]. unfold compare_sides. cbn [rc_source our_energy_kwh charger_energy_kwh energy_delta_pct].
  destruct (read_our_side tele s) as [ours|]; [|done].
  destruct (charger_total_spread id s entries _ eq_refl) as [->|(hi & lo & H1 & H2 & H3 & H0 & ->)]; [done|].
  destruct ((0 <?q ours) && _) eqn:E; [|done]. intros _. apply andb_true_iff in E as [Eo Et].
  rewrite Eo. apply Qltb_lt in Eo. exists s, ours, hi, lo. eexists.
  split; [by apply list_elem_of_In|]. split; [by apply String.eqb_eq|]. repeat (split; [done|]).
  destruct (fle (fsub hi lo) (Fin 0)); [by cbn in Et|].
  split; [done|]. intros q ->. eexists. split; [reflexivity|]. field. lra.
Qed.

(** A reading that is not a number hides the charger's energy: the total is NaN and
    the session is only [partial], whatever the other readings say. *)
Theorem nan_reading_hides_energy imports entries sessions tele session id s r :
  List.find (fun x => String.eqb (Billing.session_id x) session) sessions = Some s ->
  List.find (fun x => String.eqb (CommandQueue.import_id x) id) imports = Some r ->
  im_status r <> import_failed -> NaN ∈ readings id s entries ->
  let res := reconcile_session_log imports entries sessions tele session id in
  rc_source res = partial /\ charger_energy_kwh res = Some NaN.
Proof.
  intros Fs Fi Hst Hn. cbn zeta. unfold reconcile_session_log, read_charger_side. rewrite Fs, Fi, bool_decide_false by done.
  assert (sample_count (_CHARGER_AGGREGATE_SQL id s entries) =? 0 = false) as ->.
  { apply Z.eqb_neq. cbn. unfold readings in Hn. destruct (List.filter _ entries); [by apply not_elem_of_nil in Hn|done]. }
  unfold compare_sides. cbn [rc_source charger_energy_kwh].
  destruct (charger_total_spread id s entries _ eq_refl) as [E|(hi & lo & H1 & H2 & H3 & H0 & ->)].
  - exfalso. revert E. cbn [max_energy_kwh min_energy_kwh _CHARGER_AGGREGATE_SQL]. fold (readings id s entries).
    destruct (extreme (fun a b => pg_le b a) _) as [hi|] eqn:Eh.
    + apply extreme_spec in Eh as [_ Eh]; [|apply pg_le_refl|intros; by apply pg_le_total|eauto using pg_le_trans].
      specialize (Eh _ Hn). destruct hi as [|[]|]; try done. cbn [_charger_total_kwh fle].
      destruct (extreme pg_le _) as [lo|]; [|done]. by destruct lo.
    + apply extreme_None in Eh. rewrite Eh in Hn. by apply not_elem_of_nil in Hn.
  - destruct (H3 _ Hn) as [_ Hh]. assert (hi = NaN) as -> by (by destruct hi as [|[]|]).
    assert (fsub NaN lo = NaN) as -> by (by destruct lo). change (fle NaN (Fin 0)) with false. cbv iota.
    split; [|done]. destruct (read_our_side tele s); [|done]. change (flt (Fin 0) NaN) with false. by rewrite andb_false_r.
Qed.

(** Entries without a transaction are left out of the comparison with a session that
    has one, even when no other entry is in the log. *)
Theorem untagged_log_is_empty imports entries sessions tele session id s r tx :
  List.find (fun x => String.eqb (Billing.session_id x) session) sessions = Some s ->
  List.find (fun x => String.eqb (CommandQueue.import_id x) id) imports = Some r ->
  im_status r <> import_failed -> Billing.transaction_id s = Some tx ->
  (forall e, e ∈ entries -> en_transaction_id e = None) ->
  rc_source (reconcile_session_log imports entries sessions tele session id) = no_log_entries.
Proof.
  intros Fs Fi Hst Htx He. unfold reconcile_session_log, read_charger_side. rewrite Fs, Fi, bool_decide_false by done.
  assert (List.filter (log_entry_matches id s) entries = []) as E.
  { apply filter_none. intros e Hin. unfold log_entry_matches. rewrite Htx, (He e Hin). cbn. apply andb_false_r. }
  unfold _CHARGER_AGGREGATE_SQL. rewrite E. done.
Qed.

(** ** Examples *)

Definition ex_session : session_row :=
  {| session_id := "s1"; site_id := Some "depot"%string; vehicle_id := None; station_id := Some "CP1"%string;
     connector_id := Some 1; transaction_id := Some 42; start_time := 0; end_time := Some hour_us;
     energy_delivered_kwh := None; cost_total := None; cost_total_source := None; bidding_zone := None |}.

Definition ex_power (t : Z) (kw : Q) : telemetry_row :=
  {| tm_time := t; tm_vehicle_id := None; tm_station_id := Some "CP1"%string; tm_connector_id := Some 1;
     tm_transaction_id := Some 42; tm_charging_kw := Some kw |}.

(** The charger was heard for half an hour. *)
Definition ex_heard : list telemetry_row := [ex_power 0 6; ex_power (30 * minute_us) 6]%Q.

Definition ex_log (tx : option Z) (kwh : pyfloat) : entry_row :=
  {| en_time := 0; en_station_id := "CP1"; en_charger_id := None; en_connector_id := Some 1;
     en_transaction_id := tx; en_log_import_id := "i1"; en_soc := None; en_charging_kw := None;
     en_energy_kwh := Some kwh; en_raw_fields := None |}.

Definition ex_import : import_row :=
  {| CommandQueue.import_id := "i1"; im_status := import_parsed; file_name := None; error_message := None;
     requested_at := 0 |}.

Lemma recorded_energy_bounded_witness :
  exists e, _our_energy_kwh ex_heard (Some "CP1"%string) (Some 1) (Some 42) (Some 0) (Some hour_us) = Some e
    /\ (0 < e)%Q /\ (e <= 7 # 2)%Q.
Proof.
  destruct (_our_energy_kwh ex_heard (Some "CP1"%string) (Some 1) (Some 42) (Some 0) (Some hour_us)) as [e|] eqn:E;
    [|vm_compute in E; discriminate E].
  destruct (recorded_energy_bounded ex_heard "CP1" 1 (Some 42) 0 hour_us e (30 * minute_us) 6) as [H1 H2]; try done.
  - intros r kw Hr _ _ Hk _. apply elem_of_cons in Hr as [-> | Hr]; [injection Hk as <-; split; [done|lra]|].
    apply list_elem_of_singleton in Hr as ->. injection Hk as <-. split; [done|lra].
  - exists e. split; [done|]. split; [done|]. eapply Qle_trans; [exact H2|]. by vm_compute.
Defined.

Lemma reconciled_on_evidence_witness :
  exists d, energy_delta_pct (reconcile_session_log [ex_import] [ex_log (Some 42) (Fin 1000); ex_log (Some 42) (Fin 1007)]
                                [ex_session] ex_heard "s1" "i1") = Some (Fin d) /\ (d == 1)%Q.
Proof.
  destruct (reconciled_on_evidence [ex_import] [ex_log (Some 42) (Fin 1000); ex_log (Some 42) (Fin 1007)]
              [ex_session] ex_heard "s1" "i1") as (s & o & hi & lo & t & _ & _ & Ho & _ & _ & _ & _ & Ht & _ & D).
  - by vm_compute.
  - destruct (D (7 # 1)) as (d & Hd & E).
    + vm_compute in Ht. by injection Ht as <-.
    + exists d. split; [exact Hd|]. vm_compute in Ho. injection Ho as <-. lra.
Defined.

Lemma nan_reading_hides_energy_witness :
  rc_source (reconcile_session_log [ex_import] [ex_log (Some 42) (Fin 1000); ex_log (Some 42) NaN; ex_log (Some 42) (Fin 1007)]
               [ex_session] ex_heard "s1" "i1") = partial.
Proof.
  apply (nan_reading_hides_energy [ex_import] [ex_log (Some 42) (Fin 1000); ex_log (Some 42) NaN; ex_log (Some 42) (Fin 1007)]
           [ex_session] ex_heard "s1" "i1" ex_session ex_import); try done.
  right. left.
Defined.

Lemma untagged_log_is_empty_witness :
  rc_source (reconcile_session_log [ex_import] [ex_log None (Fin 1000); ex_log None (Fin 1007)]
               [ex_session] ex_heard "s1" "i1") = no_log_entries.
Proof.
  apply (untagged_log_is_empty [ex_import] [ex_log None (Fin 1000); ex_log None (Fin 1007)]
           [ex_session] ex_heard "s1" "i1" ex_session ex_import 42); try done.
  intros e He. apply elem_of_cons in He as [-> | He]; [done|]. by apply list_elem_of_singleton in He as ->.
Defined.
