(* ===== verification/LogImport.v ===== *)
(** * Charger log imports ([src/api/charger_logs.py] and its endpoints)

    The life of a request for a charger's own log: the endpoint writes an import
    and queues the command, the queue's consumer marks it, the charger posts the
    archive to the signed address, and a background task parses it, compares it
    with the recorded session and stores the result. The task is split at its
    awaits, so that uploads, the consumer, the sweep of overdue imports and the
    tasks of other imports interleave with it; a statement can answer, be refused,
    or take effect and be reported as failed. *)

From S2P Require Import Prelude Models PyText Meter AbbLog CommandQueue Dispatch Billing Reconcile.
From Stdlib Require Import ZArith QArith Ascii Lia.
From stdpp Require Import base list strings gmap.

#[local] Open Scope Z_scope.

(** ** Data *)

(** A row of [charger_log_imports]; the columns the queue's consumer writes are an
    [import_row]. *)
Record log_import := {
  li_row : import_row;
  li_station_id : string;
  li_charger_id : option string;
  li_connector_id : option Z;
  li_session_id : option string;
  li_vendor : option string;
  received_at : option Z;
  parsed_at : option Z;
  reconciled_at : option Z;
  upload_token_hash : option string;
  file_size_bytes : option Z;
  content_sha256 : option string;
  raw_payload : option string;
  idempotency_key : option string
}.

Definition li_id (r : log_import) : string := CommandQueue.import_id (li_row r).
Definition li_status (r : log_import) : import_status := im_status (li_row r).

Definition with_row (f : import_row -> import_row) (r : log_import) : log_import :=
  {| li_row := f (li_row r); li_station_id := li_station_id r; li_charger_id := li_charger_id r;
     li_connector_id := li_connector_id r; li_session_id := li_session_id r;
     li_vendor := li_vendor r; received_at := received_at r; parsed_at := parsed_at r;
     reconciled_at := reconciled_at r; upload_token_hash := upload_token_hash r;
     file_size_bytes := file_size_bytes r; content_sha256 := content_sha256 r;
     raw_payload := raw_payload r; idempotency_key := idempotency_key r |}.

Definition set_status (s : import_status) (err : option string) (r : import_row) : import_row :=
  {| CommandQueue.import_id := CommandQueue.import_id r; im_status := s; file_name := file_name r;
     error_message := match err with Some e => Some e | None => error_message r end;
     requested_at := requested_at r |}.

Record store := {
  imports : list log_import;
  log_entries : list entry_row;
  reconciliations : dict (string * string) reconciliation_row
}.

Definition find_import (id : string) (s : store) : option log_import :=
  List.find (fun r => String.eqb (li_id r) id) (imports s).

(** [UPDATE charger_log_imports ... WHERE id = id AND status IN statuses]. *)
Definition update_imports (id : string) (statuses : import_status -> bool) (f : log_import -> log_import)
    (s : store) : store :=
  {| imports := map (fun r => if String.eqb (li_id r) id && statuses (li_status r) then f r else r)
                  (imports s);
     log_entries := log_entries s; reconciliations := reconciliations s |}.

Definition is_status (s : import_status) (x : import_status) : bool := bool_decide (x = s).

(** ** The limits *)

(** [CHARGER_LOG_UPLOAD_MAX_BYTES]. *)
Definition get_max_upload_bytes (raw : option string) : Z :=
  match raw with
  | None | Some EmptyString => 50 * 1024 * 1024
  | Some s => match py_int s with None => 50 * 1024 * 1024 | Some n => Z.max 1024 n end
  end.

(** ** The upload *)

Record UploadRejected := { status_code : Z; reason : string }.

Record UploadReceiveResult := {
  up_import_id : string;
  up_session_id : option string;
  up_station_id : string;
  up_vendor : option string;
  up_file_size_bytes : Z;
  up_content_sha256 : string
}.

Section Upload.
(** [hashlib.sha256(...).hexdigest()]; the keyed hash of the tokens, when the
    signing key is set; and [CHARGER_LOG_UPLOAD_MAX_BYTES]. *)
Context (sha256_hex : string -> string) (hmac_hex : option (string -> string)) (max_raw : option string).

(** [verify_token]: the key is looked up only for a token of the right shape; without
    one it raises [RuntimeError]. *)
Definition verify_upload_token (token : string) (now : Z) : result UploadRejected UploadToken :=
  let invalid := Err {| status_code := 401; reason := "invalid token" |} in
  let misconfigured := Err {| status_code := 503; reason := "upload misconfigured" |} in
  match hmac_hex with
  | Some h => match verify_token h token now with Ok t => Ok t | Err _ => invalid end
  | None =>
      match verify_token (fun _ => ""%string) token now with
      | Err missing_token | Err malformed_token => invalid
      | _ => misconfigured
      end
  end.

(** The transaction: the row is locked while it is checked and written. *)
Definition receive_row (now : Z) (body : string) (name : option string) (r : log_import) : log_import :=
  {| li_row := {| CommandQueue.import_id := li_id r; im_status := received;
                  file_name := match name with Some n => Some n | None => file_name (li_row r) end;
                  error_message := error_message (li_row r);
                  requested_at := requested_at (li_row r) |};
     li_station_id := li_station_id r; li_charger_id := li_charger_id r;
     li_connector_id := li_connector_id r; li_session_id := li_session_id r;
     li_vendor := li_vendor r; received_at := Some now; parsed_at := parsed_at r;
     reconciled_at := reconciled_at r; upload_token_hash := upload_token_hash r;
     file_size_bytes := Some (Z.of_nat (String.length body));
     content_sha256 := Some (sha256_hex body);
     raw_payload := Some body; idempotency_key := idempotency_key r |}.

Definition receive_upload (now clock : Z) (token body : string) (name : option string)
    (decoded : option UploadToken) (s : store) : result UploadRejected (UploadReceiveResult * store) :=
  let reject code why := Err {| status_code := code; reason := why |} in
  let size := Z.of_nat (String.length body) in
  if get_max_upload_bytes max_raw <? size then reject 413 "upload exceeds max size"%string
  else if size =? 0 then reject 400 "empty body"%string
  else
    let? decoded := match decoded with Some t => Ok t | None => verify_upload_token token clock end in
    match find_import (tok_import_id decoded) s with
    | None => reject 404 "import not found"%string
    | Some row =>
        if match upload_token_hash row with
           | None => false
           | Some h => negb (String.eqb h (sha256_hex (tok_raw decoded)))
           end
        then reject 401 "token mismatch"%string
        else match li_status row with
        | received | import_parsed | import_reconciled => reject 409 "import already received"%string
        | import_failed => reject 409 "import is failed"%string
        | import_expired => reject 409 "import is expired"%string
        | requested | uploading =>
            Ok ({| up_import_id := tok_import_id decoded; up_session_id := li_session_id row;
                   up_station_id := li_station_id row; up_vendor := li_vendor row;
                   up_file_size_bytes := size; up_content_sha256 := sha256_hex body |},
                update_imports (tok_import_id decoded) (fun _ => true) (receive_row now body name) s)
        end
    end.

(** [request.stream()]: chunks are appended while they fit; [None] is a connection
    that drops. *)
Fixpoint read_stream (max_bytes : Z) (chunks : list (option string)) (body : string)
  : result UploadRejected string :=
  match chunks with
  | [] => Ok body
  | None :: _ => Err {| status_code := 400; reason := "upload stream error" |}
  | Some chunk :: rest =>
      if String.eqb chunk "" then read_stream max_bytes rest body
      else if max_bytes <? Z.of_nat (String.length body) + Z.of_nat (String.length chunk)
      then Err {| status_code := 413; reason := "upload exceeds max size" |}
      else read_stream max_bytes rest (body +:+ chunk)
  end.

(** The endpoint: [clock] is read for the token before the body, [now] is the time
    of the transaction after it. A success schedules the pipeline. *)
Definition upload_charger_log_endpoint (clock now : Z) (token : string) (chunks : list (option string))
    (name : option string) (s : store) : result UploadRejected (UploadReceiveResult * store) :=
  let? decoded := verify_upload_token token clock in
  let? body := read_stream (get_max_upload_bytes max_raw) chunks "" in
  receive_upload now clock token body name (Some decoded) s.
End Upload.

(** ** The request *)

Inductive fetch_reply :=
| fetched (import_id : string)
| deduplicated (import_id : string) (status : import_status)
| not_configured.

(** [get_upload_base_url]. *)
Definition get_upload_base_url (raw : option string) : option string :=
  match raw with None | Some EmptyString => None | Some s => Some (rstrip_slash s) end.

(** The address of the request's [Host] header; [fallback_scheme] is the scheme the
    request came in on. *)
Definition derive_upload_base_url (host forwarded_proto : option string) (fallback_scheme : string)
  : option string :=
  match host with
  | None => None
  | Some h =>
      if String.eqb (strip h) "" then None
      else
        let proto := strip (default ""%string (head (split_on ","%char (default ""%string forwarded_proto)))) in
        Some ((if String.eqb proto "" then fallback_scheme else proto)
              +:+ "://" +:+ strip h +:+ "/internal/charger_logs/upload")
  end.

(** [get_upload_base_url() or base_url]. *)
Definition resolve_base_url (configured derived : option string) : option string :=
  match get_upload_base_url configured with
  | Some EmptyString | None => derived
  | Some u => Some u
  end.

(** The hour's key for a session's log, from the identifier as the request
    spells it. *)
Definition fetch_key (session : string) (clock : Z) : string :=
  "get_diagnostics:" +:+ session +:+ ":" +:+ py_str_int (clock / usec / 3600).

(** [fetch_charger_session_logs_endpoint] once the caller, the charger and the
    session are checked, with [dispatch_get_diagnostics]: one transaction writes the
    import and queues the command, unless the key is taken. *)
Definition fetch_session_logs (sha256_hex : string -> string) (hmac_hex : option (string -> string))
    (base_url : option string) (id : string) (queue_id clock db_now ttl : Z)
    (station session_text session charger : string) (connector : option Z) (vendor : option string)
    (start_time stop_time : pyobj) (q : list queue_row) (s : store)
  : fetch_reply * list queue_row * store :=
  let key := fetch_key session_text clock in
  match hmac_hex with
  | None => (not_configured, q, s)
  | Some h =>
      match dispatch_get_diagnostics h base_url id queue_id clock db_now ttl station connector
              None PNone PNone start_time stop_time (q, []) with
      | Some (q', [row]) =>
          match List.find (fun r => bool_decide (idempotency_key r = Some key)) (imports s) with
          | Some existing => (deduplicated (li_id existing) (li_status existing), q, s)
          | None =>
              (fetched id, q',
               {| imports := imports s ++
                    [{| li_row := row; li_station_id := station; li_charger_id := Some charger;
                        li_connector_id := connector; li_session_id := Some session;
                        li_vendor := vendor; received_at := None; parsed_at := None;
                        reconciled_at := None;
                        upload_token_hash := Some (sha256_hex (mint_token h id (clock / usec) ttl));
                        file_size_bytes := None; content_sha256 := None; raw_payload := None;
                        idempotency_key := Some key |}];
                  log_entries := log_entries s; reconciliations := reconciliations s |})
          end
      | _ => (not_configured, q, s)
      end
  end.

(** ** The pipeline *)

(** [_mark_import_failed] of [charger_logs.py]. *)
Definition mark_failed (id reason : string) : store -> store :=
  update_imports id (fun x => match x with import_reconciled | import_expired | import_failed => false
                                         | _ => true end)
    (with_row (set_status import_failed (Some (String.substring 0 500 reason)))).

Definition mark_parsed (now : Z) (id : string) : store -> store :=
  update_imports id (is_status received) (fun r =>
    {| li_row := set_status import_parsed None (li_row r); li_station_id := li_station_id r;
       li_charger_id := li_charger_id r; li_connector_id := li_connector_id r;
       li_session_id := li_session_id r; li_vendor := li_vendor r; received_at := received_at r;
       parsed_at := Some now; reconciled_at := reconciled_at r;
       upload_token_hash := upload_token_hash r; file_size_bytes := file_size_bytes r;
       content_sha256 := content_sha256 r; raw_payload := raw_payload r;
       idempotency_key := idempotency_key r |}).

Definition mark_reconciled (now : Z) (id : string) : store -> store :=
  update_imports id (is_status import_parsed) (fun r =>
    {| li_row := set_status import_reconciled None (li_row r); li_station_id := li_station_id r;
       li_charger_id := li_charger_id r; li_connector_id := li_connector_id r;
       li_session_id := li_session_id r; li_vendor := li_vendor r; received_at := received_at r;
       parsed_at := parsed_at r; reconciled_at := Some now;
       upload_token_hash := upload_token_hash r; file_size_bytes := file_size_bytes r;
       content_sha256 := content_sha256 r; raw_payload := raw_payload r;
       idempotency_key := idempotency_key r |}).

(** The rows an import's entries are stored as. *)
Definition entry_rows (row : log_import) (entries : list ChargerLogEntry) : list entry_row :=
  map (fun e =>
    {| en_time := le_time e; en_station_id := li_station_id row; en_charger_id := li_charger_id row;
       en_connector_id := match le_connector_id e with Some c => Some c | None => li_connector_id row end;
       en_transaction_id := le_transaction_id e; en_log_import_id := li_id row;
       en_soc := le_soc e; en_charging_kw := le_charging_kw e; en_energy_kwh := le_energy_kwh e;
       en_raw_fields := match le_raw_fields e with [] => None | d => Some d end |}) entries.

Definition insert_entries (rows : list entry_row) (s : store) : store :=
  {| imports := imports s; log_entries := log_entries s ++ rows; reconciliations := reconciliations s |}.

Section Pipeline.
(** [get_parser_for_vendor]. *)
Context (parser_for : option string -> option (string -> parse_outcome)).

(** The write of [parse_and_persist_entries] for the row it read; [None] when it
    returns without one. *)
Definition persist (now : Z) (row : log_import) : option (store -> store) :=
  if negb (is_status received (li_status row)) then None
  else match raw_payload row with
  | None => Some (mark_failed (li_id row) "raw_payload is NULL")
  | Some blob =>
      match parser_for (li_vendor row) with
      | None => None
      | Some parser =>
          Some match parser blob with
          | parse_error m => mark_failed (li_id row) ("parse_failed: " +:+ m)
          | parser_exception m => mark_failed (li_id row) ("parser exception: " +:+ m)
          | parsed_entries [] => mark_parsed now (li_id row)
          | parsed_entries entries =>
              fun s => mark_parsed now (li_id row) (insert_entries (entry_rows row entries) s)
          end
      end
  end.

(** Where the task of an import is: before the read of a stage, with what it read,
    or handling an exception. *)
Inductive stage :=
| ParseRead
| ParseWrite (row : log_import)
| ReconcileRead
| ChargerSide (row : log_import) (session : string)
| OurSide (row : log_import) (session : string) (s : session_row) (agg : charger_aggregate)
| Upsert (row : log_import) (session : string) (r : ReconciliationResult)
| Finish (row : log_import)
| Raised.

(** How a statement ends. *)
Inductive answer := Answered | Refused | AnsweredLost.

(** The tables a stage reads besides the store. *)
Record recorded := { rec_sessions : list session_row; rec_telemetry : list telemetry_row }.

(** One stage of [run_post_upload_pipeline]: its effect, and where the task goes on
    when the statement answers. *)
Definition stage_effect (now : Z) (db : recorded) (id : string) (st : stage) (s : store)
  : store * option stage :=
  match st with
  | ParseRead =>
      match find_import id s with
      | Some row => (s, Some (match persist now row with Some _ => ParseWrite row | None => ReconcileRead end))
      | None => (s, Some ReconcileRead)
      end
  | ParseWrite row =>
      (match persist now row with Some f => f s | None => s end, Some ReconcileRead)
  | ReconcileRead =>
      match find_import id s with
      | Some row =>
          match li_status row, li_session_id row with
          | (import_parsed | import_failed), Some session => (s, Some (ChargerSide row session))
          | _, _ => (s, None)
          end
      | None => (s, None)
      end
  | ChargerSide row session =>
      (s, Some match read_charger_side (map li_row (imports s)) (log_entries s) (rec_sessions db) session id with
               | inl r => Upsert row session r
               | inr (sr, agg) => OurSide row session sr agg
               end)
  | OurSide row session sr agg =>
      (s, Some (Upsert row session (compare_sides sr agg (read_our_side (rec_telemetry db) sr))))
  | Upsert row session r =>
      ({| imports := imports s; log_entries := log_entries s;
          reconciliations := write_session_log_reconciliation now session id r (reconciliations s) |},
       match li_status row with import_parsed => Some (Finish row) | _ => None end)
  | Finish row => (mark_reconciled now id s, None)
  | Raised => (mark_failed id "post_upload_pipeline" s, None)
  end.

(** A statement that fails sends the task to the handler, which ends it. *)
Definition stage_step (now : Z) (db : recorded) (a : answer) (id : string) (st : stage) (s : store)
  : store * option stage :=
  let '(s', next) := stage_effect now db id st s in
  let failed := match st with Raised => None | _ => Some Raised end in
  match a with
  | Answered => (s', next)
  | Refused => (s, failed)
  | AnsweredLost => (s', failed)
  end.

(** [run_post_upload_pipeline] without interference or failures: at most seven
    stages. *)
Fixpoint run_stages (fuel : nat) (now : Z) (db : recorded) (id : string) (st : stage) (s : store)
  : store * option stage :=
  match fuel with
  | O => (s, Some st)
  | S n =>
      match stage_step now db Answered id st s with
      | (s', Some st') => run_stages n now db id st' s'
      | (s', None) => (s', None)
      end
  end.

Definition run_post_upload_pipeline (now : Z) (db : recorded) (id : string) (s : store)
  : store * option stage :=
  run_stages 7 now db id ParseRead s.
End Pipeline.

(** ** The comparison endpoint *)

Inductive comparison :=
| session_not_found
| no_charger_log_import
| compared (session : session_row) (import : log_import) (entries : list entry_row)
    (reconciliation : option reconciliation_row).

(** [get_session_log_comparison_endpoint] for a caller with access to the depot;
    [stations] gives a station's depot. A session of another depot is not found,
    except for Favonius's own administrators. *)
Definition get_session_log_comparison (favonius_admin : bool) (depot session : string)
    (stations : list (string * string)) (db : recorded) (s : store) : comparison :=
  match List.find (fun x => String.eqb (Billing.session_id x) session) (rec_sessions db) with
  | None => session_not_found
  | Some sr =>
      let owner := match site_id sr with
                   | Some d => Some d
                   | None => match Billing.station_id sr with None => None | Some st => dget stations st end
                   end in
      if negb favonius_admin && negb (bool_decide (owner = Some depot)) then session_not_found
      else match extreme (fun a b => requested_at (li_row b) <=? requested_at (li_row a))
                   (List.filter (fun r => bool_decide (li_session_id r = Some session)) (imports s)) with
      | None => no_charger_log_import
      | Some r =>
          compared sr r
            (sort_by (fun a b => en_time a <=? en_time b)
               (List.filter (fun e => String.eqb (en_log_import_id e) (li_id r)) (log_entries s)))
            (dget (reconciliations s) (session, li_id r))
      end
  end.

(** ** The whole *)

(** The tables, the command queue and the background tasks. *)
Record world := {
  w_store : store;
  w_queue : list queue_row;
  w_tasks : list (string * stage)
}.

Definition put_rows (rows : list import_row) (s : store) : store :=
  {| imports := zip_with (fun r row => with_row (fun _ => row) r) (imports s) rows;
     log_entries := log_entries s; reconciliations := reconciliations s |}.

Section World.
Context (sha256_hex : string -> string) (hmac_hex : option (string -> string)) (max_raw : option string)
        (parser_for : option string -> option (string -> parse_outcome)).

Inductive event :=
| Fetch (base_url : option string) (id : string) (queue_id clock db_now ttl : Z)
    (station session_text session charger : string) (connector : option Z) (vendor : option string)
    (start_time stop_time : pyobj)
| Handle (i : nat) (env : row_env)
| Sweep (now ttl : Z)
| Upload (clock now : Z) (token : string) (chunks : list (option string)) (name : option string)
| Task (i : nat) (now : Z) (db : recorded) (a : answer)
| Restart.

(** An event in a state; [None] when it cannot happen there. [uuid4] does not repeat
    an identifier. A row of the queue is handled by the consumer, whose marks touch
    the import rows; the sweep is its scan of overdue imports. *)
Definition exec (e : event) (w : world) : option world :=
  match e with
  | Fetch base id qid clock db_now ttl st text session charger conn vendor t1 t2 =>
      if existsb (fun r => String.eqb (li_id r) id) (imports (w_store w)) then None
      else
        let '(_, q, s) := fetch_session_logs sha256_hex hmac_hex base id qid clock db_now ttl st text
                            session charger conn vendor t1 t2 (w_queue w) (w_store w) in
        Some {| w_store := s; w_queue := q; w_tasks := w_tasks w |}
  | Handle i env =>
      match w_queue w !! i with
      | None => None
      | Some r =>
          let c := snd (_handle_row env r (init_consumer (w_queue w) (map li_row (imports (w_store w))))) in
          Some {| w_store := put_rows (CommandQueue.imports c) (w_store w); w_queue := queue c;
                  w_tasks := w_tasks w |}
      end
  | Sweep now ttl =>
      Some {| w_store := put_rows (expire_overdue_charger_log_imports now ttl
                                     (map li_row (imports (w_store w)))) (w_store w);
              w_queue := w_queue w; w_tasks := w_tasks w |}
  | Upload clock now token chunks name =>
      match upload_charger_log_endpoint sha256_hex hmac_hex max_raw clock now token chunks name (w_store w) with
      | Err _ => Some w
      | Ok (r, s) => Some {| w_store := s; w_queue := w_queue w;
                             w_tasks := w_tasks w ++ [(up_import_id r, ParseRead)] |}
      end
  | Task i now db a =>
      match w_tasks w !! i with
      | None => None
      | Some (id, st) =>
          let '(s, next) := stage_step parser_for now db a id st (w_store w) in
          Some {| w_store := s; w_queue := w_queue w;
                  w_tasks := match next with
                             | Some st' => <[i := (id, st')]> (w_tasks w)
                             | None => delete i (w_tasks w)
                             end |}
      end
  | Restart => Some {| w_store := w_store w; w_queue := w_queue w; w_tasks := [] |}
  end.

Fixpoint run_events (es : list event) (w : world) : option world :=
  match es with
  | [] => Some w
  | e :: es' => match exec e w with Some w' => run_events es' w' | None => None end
  end.

Definition initial_world : world :=
  {| w_store := {| imports := []; log_entries := []; reconciliations := [] |};
     w_queue := []; w_tasks := [] |}.
End World.
