(* ===== verification/LogImportFacts.v ===== *)
(** * Charger log imports: properties

    The rows of an import move along its life cycle whatever interleaves, what is
    stored of a log is what the parser made of the archive that was received, and
    the pipeline of an upload ends with a verdict. *)

From S2P Require Import Prelude Models PyText Meter AbbLog CommandQueue Dispatch DispatchFacts Billing Reconcile ReconcileFacts LogImport.
From Stdlib Require Import ZArith QArith Ascii Lia.
From stdpp Require Import base list strings gmap.

#[local] Open Scope Z_scope.

(** ** Lookups *)

Lemma find_map_id (g : log_import -> log_import) id l :
  (forall r, li_id (g r) = li_id r) ->
  List.find (fun r => String.eqb (li_id r) id) (map g l)
  = g <$> List.find (fun r => String.eqb (li_id r) id) l.
Proof. intros H. induction l as [|r l IH]; cbn; [done|]. rewrite H. by destruct (String.eqb _ id). Qed.

Lemma find_import_id id s r : find_import id s = Some r -> li_id r = id.
Proof. intros H. by apply find_some in H as [_ H%String.eqb_eq]. Qed.

Lemma find_update id id' p f s :
  (forall r, li_id (f r) = li_id r) ->
  find_import id (update_imports id' p f s)
  = (fun r => if String.eqb id id' && p (li_status r) then f r else r) <$> find_import id s.
Proof.
  intros Hf. unfold find_import, update_imports. cbn [imports].
  rewrite find_map_id by (intros r; by destruct (_ && _)).
  destruct (List.find _ _) as [r|] eqn:E; [|done]. cbn. by rewrite (find_import_id id s r E).
Qed.

Definition entries_of (id : string) (s : store) : list entry_row :=
  List.filter (fun e => String.eqb (en_log_import_id e) id) (log_entries s).

(** ** The life cycle *)

(** The statuses an import can go to next. *)
Definition edge (a b : import_status) : Prop :=
  match a, b with
  | requested, (uploading | received | import_failed | import_expired) => True
  | uploading, (received | import_failed | import_expired) => True
  | received, (import_parsed | import_failed) => True
  | import_parsed, (import_reconciled | import_failed) => True
  | _, _ => False
  end.

Definition is_open (x : import_status) : bool :=
  match x with requested | uploading => true | _ => false end.

(** What the queue's consumer and the sweep do to a row. *)
Definition row_moves (a b : import_row) : Prop :=
  a = b \/
  (is_open (im_status a) = true /\ edge (im_status a) (im_status b) /\ im_status b <> received
   /\ CommandQueue.import_id b = CommandQueue.import_id a /\ requested_at b = requested_at a).

Lemma row_moves_refl a : row_moves a a.
Proof. by left. Qed.

Lemma map_moves (g : import_row -> import_row) l : (forall a, row_moves a (g a)) -> Forall2 row_moves l (map g l).
Proof. intros H. induction l; constructor; auto. Qed.

Lemma moves_refl l : Forall2 row_moves l l.
Proof. induction l; constructor; auto using row_moves_refl. Qed.
#[local] Hint Resolve moves_refl row_moves_refl : core.

Lemma failed_moves env p why c :
  Forall2 row_moves (CommandQueue.imports c)
    (CommandQueue.imports (snd (then_true c (CommandQueue._mark_import_failed env p why c)))).
Proof.
  unfold CommandQueue._mark_import_failed. destruct (payload_get _ _ _) as [v|]; cbn; [|done].
  destruct (_coerce_uuid v) as [id|]; cbn; [|done]. destruct (import_ok env); cbn; [|done].
  apply map_moves. intros a. destruct (String.eqb _ _); [|done].
  destruct a as [i st n er t]; destruct st; cbn; (by left) || (by right).
Qed.

Lemma uploading_moves env p n c :
  Forall2 row_moves (CommandQueue.imports c)
    (CommandQueue.imports (snd (then_true c (CommandQueue._mark_import_uploading env p n c)))).
Proof.
  unfold CommandQueue._mark_import_uploading. destruct (payload_get _ _ _) as [v|]; cbn; [|done].
  destruct (_coerce_uuid v) as [id|]; cbn; [|done]. destruct (import_ok env); cbn; [|done].
  apply map_moves. intros a. destruct (String.eqb _ _); [|done].
  destruct a as [i st m er t]; destruct st; cbn; (by left) || (by right).
Qed.

Lemma marks_imports env id e c : CommandQueue.imports (try_mark_failed env id e c) = CommandQueue.imports c.
Proof. unfold try_mark_failed. by destruct (mark_ok env). Qed.
Lemma sent_imports env id c : CommandQueue.imports (try_mark_sent env id c) = CommandQueue.imports c.
Proof. unfold try_mark_sent. by destruct (mark_ok env). Qed.

Lemma settle_imports env id why a c :
  CommandQueue.imports (snd (settle env id why a c)) = CommandQueue.imports c.
Proof. destruct a as [[]|]; cbn; rewrite ?marks_imports, ?sent_imports; done. Qed.

Lemma diagnostics_moves env id cp p c :
  Forall2 row_moves (CommandQueue.imports c)
    (CommandQueue.imports (snd (_handle_get_diagnostics env id cp p c))).
Proof.
  unfold _handle_get_diagnostics.
  assert (forall err why c', CommandQueue.imports c' = CommandQueue.imports c ->
    Forall2 row_moves (CommandQueue.imports c)
      (CommandQueue.imports (snd (then_true (try_mark_failed env id err c')
         (CommandQueue._mark_import_failed env p why (try_mark_failed env id err c')))))) as F.
  { intros err why c' <-. rewrite <- (marks_imports env id err c'). apply failed_moves. }
  destruct (get_diagnostics cp) as [send|]; [|by apply F].
  destruct (payload_get _ _ _) as [loc|]; [|done]. destruct (negb (truthy loc)); [by apply F|].
  destruct (send _) as [[n|]|e]; [|by apply F..].
  cbn zeta. pose proof (uploading_moves env p n (try_mark_sent env id (record_push id true c))) as U.
  by rewrite sent_imports in U at 1.
Qed.

Lemma handle_moves env r c :
  Forall2 row_moves (CommandQueue.imports c) (CommandQueue.imports (snd (_handle_row env r c))).
Proof.
  unfold _handle_row. destruct (connected env) as [cp|]; [|done].
  destruct (String.eqb _ _).
  { unfold _handle_remote_reset. destruct (send_reset cp); cbn; [|by rewrite marks_imports].
    destruct (payload_get _ _ _); [by rewrite settle_imports|done]. }
  destruct (String.eqb _ _).
  { unfold _handle_remote_start_transaction. destruct (send_remote_start_transaction cp); cbn; [|by rewrite marks_imports].
    destruct (payload_get (payload r) "id_tag" PNone), (payload_get (payload r) "idTag" PNone); try done.
    destruct (truthy _); [by rewrite settle_imports|cbn; by rewrite marks_imports]. }
  destruct (String.eqb _ _); [apply diagnostics_moves|].
  destruct (negb _); [cbn; by rewrite marks_imports|].
  destruct (send_charging_profile _ _ _); [by rewrite settle_imports|].
  destruct (_ && _); cbn; by rewrite ?marks_imports.
Qed.

Lemma sweep_moves now ttl l : Forall2 row_moves l (expire_overdue_charger_log_imports now ttl l).
Proof.
  apply map_moves. intros [i st n e t]. destruct st; cbn; try (by left);
    destruct (_ <=? _); ((by left) || (by right)).
Qed.

(** The rows that [put_rows] leaves behind a move. *)
Lemma find_put rows s id r' :
  Forall2 row_moves (map li_row (imports s)) rows ->
  find_import id (put_rows rows s) = Some r' ->
  exists r, find_import id s = Some r /\ row_moves (li_row r) (li_row r') /\ r' = with_row (fun _ => li_row r') r.
Proof.
  unfold find_import, put_rows. cbn [imports].
  revert rows. induction (imports s) as [|r l IH]; intros rows H; [by inversion H|].
  cbn in H. inversion H as [|a b ? rows' Hab Hl]; subst. cbn.
  assert (li_id (with_row (fun _ => b) r) = li_id r) as E by (destruct Hab as [<-|(_&_&_&E&_)]; [done|exact E]).
  rewrite E. destruct (String.eqb _ id); [|by apply IH]. intros [= <-]. by exists r.
Qed.

Lemma find_put_some rows s id r :
  Forall2 row_moves (map li_row (imports s)) rows -> find_import id s = Some r ->
  is_Some (find_import id (put_rows rows s)).
Proof.
  unfold find_import, put_rows. cbn [imports].
  revert rows. induction (imports s) as [|x l IH]; intros rows H; [done|].
  cbn in H. inversion H as [|a b ? rows' Hab Hl]; subst. cbn.
  assert (li_id (with_row (fun _ => b) x) = li_id x) as E by (destruct Hab as [<-|(_&_&_&E&_)]; [done|exact E]).
  rewrite E. destruct (String.eqb _ id); [by eexists|by apply IH].
Qed.

(** ** The comparison *)

Lemma find_rows id s :
  List.find (fun r => String.eqb (CommandQueue.import_id r) id) (map li_row (imports s)) = li_row <$> find_import id s.
Proof. unfold find_import. induction (imports s) as [|r l IH]; cbn; [done|]. unfold li_id. by destruct (String.eqb _ id). Qed.

(** The comparison, as the stages read it. *)
Definition verdict (db : recorded) (session id : string) (s : store) : ReconciliationResult :=
  reconcile_session_log (map li_row (imports s)) (log_entries s) (rec_sessions db) (rec_telemetry db) session id.

Definition session_known (db : recorded) (session : string) : bool :=
  existsb (fun x => String.eqb (Billing.session_id x) session) (rec_sessions db).

Lemma find_existsb {A} (f : A -> bool) l : existsb f l = match List.find f l with Some _ => true | None => false end.
Proof. induction l as [|x l IH]; cbn; [done|]. by destruct (f x). Qed.

Lemma compare_source x agg ours :
  rc_source (compare_sides x agg ours) = reconciled \/ rc_source (compare_sides x agg ours) = partial.
Proof. unfold compare_sides. cbn [rc_source]. case_match; auto. Qed.

Lemma verdict_source db session id s r :
  find_import id s = Some r ->
  (rc_source (verdict db session id s) = parse_failed
   <-> li_status r = import_failed /\ session_known db session = true)
  /\ (rc_source (verdict db session id s) = no_session <-> session_known db session = false).
Proof.
  intros F. unfold verdict, reconcile_session_log, read_charger_side, session_known. rewrite find_rows, F, find_existsb.
  destruct (List.find _ (rec_sessions db)) as [x|]; cbn [fmap option_fmap option_map rc_source bare_result]; [|intuition congruence].
  fold (li_status r). destruct (bool_decide_reflect (li_status r = import_failed)) as [E|E];
    cbn [rc_source bare_result]; [intuition congruence|].
  destruct (_ =? 0); cbn [rc_source bare_result]; [intuition congruence|].
  destruct (compare_source x (_CHARGER_AGGREGATE_SQL id x (log_entries s)) (read_our_side (rec_telemetry db) x)) as [-> | ->];
    intuition congruence.
Qed.

Lemma insert_nothing r s : insert_entries (entry_rows r []) s = s.
Proof. destruct s. unfold insert_entries. cbn. by rewrite app_nil_r. Qed.

Section Run.
Context (parser_for : option string -> option (string -> parse_outcome)).

(** ** The pipeline of an upload *)

(** From the read of the reconciling stage on, the task stores the comparison. *)
Lemma reconcile_stages now db id s r session n :
  find_import id s = Some r -> li_session_id r = Some session ->
  li_status r = import_parsed \/ li_status r = import_failed ->
  let s' := {| imports := imports s; log_entries := log_entries s;
               reconciliations := write_session_log_reconciliation now session id (verdict db session id s) (reconciliations s) |} in
  run_stages parser_for (5 + n) now db id ReconcileRead s
  = (if bool_decide (li_status r = import_parsed) then mark_reconciled now id s' else s', None).
Proof.
  intros F Hs Hst s'.
  assert (stage_step parser_for now db Answered id ReconcileRead s = (s, Some (ChargerSide r session))) as E.
  { unfold stage_step. cbn. rewrite F, Hs. by destruct Hst as [-> | ->]. }
  cbn [Nat.add run_stages]. rewrite E. unfold stage_step. cbn [stage_effect]. unfold s', verdict, reconcile_session_log.
  destruct (read_charger_side _ _ _ _ _) as [res|[sr agg]]; destruct Hst as [Es|Es]; cbn [stage_effect];
    rewrite !Es; reflexivity.
Qed.

(** The store behind the parsing stage. *)
Definition after_parse (now : Z) (id : string) (r : log_import) (out : parse_outcome) (s : store) : store :=
  match out with
  | parsed_entries l => mark_parsed now id (insert_entries (entry_rows r l) s)
  | parse_error m => mark_failed id ("parse_failed: " +:+ m) s
  | parser_exception m => mark_failed id ("parser exception: " +:+ m) s
  end.

Definition parse_ok (out : parse_outcome) : bool :=
  match out with parsed_entries _ => true | _ => false end.

Lemma parse_stages now db id s r body parser n :
  find_import id s = Some r -> li_status r = received -> raw_payload r = Some body ->
  parser_for (li_vendor r) = Some parser ->
  run_stages parser_for (2 + n) now db id ParseRead s
  = run_stages parser_for n now db id ReconcileRead (after_parse now id r (parser body) s).
Proof.
  intros F Es Hb Hp. pose proof (find_import_id _ _ _ F) as Eid.
  assert (exists f, persist parser_for now r = Some f /\ f s = after_parse now id r (parser body) s) as (f & Ef & Efs).
  { unfold persist. rewrite Es, Hb, Hp, Eid. change (negb (is_status received received)) with false. cbv iota.
    eexists. split; [done|]. destruct (parser body) as [[|e l]|m|m]; [|done..]. cbn [after_parse]. by rewrite insert_nothing. }
  cbn [Nat.add run_stages]. unfold stage_step at 1. cbn [stage_effect]. rewrite F, Ef.
  unfold stage_step at 1. cbn [stage_effect]. by rewrite Ef, Efs.
Qed.

Lemma after_parse_row now id s r out :
  find_import id s = Some r -> li_status r = received ->
  exists r1, find_import id (after_parse now id r out s) = Some r1 /\ li_session_id r1 = li_session_id r
    /\ li_status r1 = if parse_ok out then import_parsed else import_failed.
Proof.
  intros F Es. destruct out as [l|m|m]; cbn [after_parse]; unfold mark_parsed, mark_failed; rewrite find_update by done;
    [change (find_import id (insert_entries (entry_rows r l) s)) with (find_import id s)|..];
    rewrite F; cbn [fmap option_fmap option_map]; rewrite Es, String.eqb_refl; by eexists.
Qed.

(** An archive whose vendor has a parser gets a verdict: run to its end, its task
    stores the comparison with the session and leaves the import [reconciled], with
    the parsed rows, or [failed] when the parser fails, with a result that says so. *)
Theorem upload_gets_verdict now db id s r body session parser :
  find_import id s = Some r -> li_status r = received -> raw_payload r = Some body ->
  li_session_id r = Some session -> parser_for (li_vendor r) = Some parser ->
  exists s' r' res,
    run_post_upload_pipeline parser_for now db id s = (s', None)
    /\ find_import id s' = Some r'
    /\ dget (reconciliations s') (session, id) = Some {| computed_at := now; rr_result := res |}
    /\ res = verdict db session id (after_parse now id r (parser body) s)
    /\ match parser body with
       | parsed_entries l =>
           li_status r' = import_reconciled /\ log_entries s' = log_entries s ++ entry_rows r l
           /\ rc_source res <> parse_failed
       | _ => li_status r' = import_failed /\ log_entries s' = log_entries s
              /\ rc_source res = if session_known db session then parse_failed else no_session
       end.
Proof.
  intros F Es Hb Hs Hp. unfold run_post_upload_pipeline. change 7%nat with (2 + (5 + 0))%nat.
  rewrite (parse_stages now db id s r body parser) by done.
  set (s1 := after_parse now id r (parser body) s).
  destruct (after_parse_row now id s r (parser body) F Es) as (r1 & F1 & Hs1 & Es1). fold s1 in F1. rewrite Hs in Hs1.
  destruct (verdict_source db session id s1 r1 F1) as [V1 V2].
  rewrite (reconcile_stages now db id s1 r1 session 0 F1 Hs1) by (rewrite Es1; destruct (parse_ok _); auto).
  set (s2 := {| imports := imports s1; log_entries := log_entries s1; reconciliations := _ |}).
  assert (dget (reconciliations s2) (session, id) = Some {| computed_at := now; rr_result := verdict db session id s1 |}) as D
    by apply dget_dset_eq.
  assert (log_entries s2 = match parser body with parsed_entries l => log_entries s ++ entry_rows r l | _ => log_entries s end) as Le
    by (cbn [s2 log_entries]; unfold s1; by destruct (parser body)).
  rewrite Es1 in V1 |- *. destruct (parser body) as [l|m|m]; cbn [parse_ok] in *.
  2,3: exists s2, r1; eexists; do 6 (split; [done|]); destruct (session_known db session); intuition congruence.
  eexists (mark_reconciled now id s2), _, _. split; [done|]. split; [|split; [exact D|split; [done|]]].
  - unfold mark_reconciled. rewrite find_update by done. change (find_import id s2) with (find_import id s1).
    rewrite F1. cbn [fmap option_fmap option_map]. rewrite Es1, String.eqb_refl. reflexivity.
  - split; [done|]. split; [exact Le|]. rewrite V1. by intros [? _].
Qed.

End Run.

(** ** The invariant *)

Section Invariant.
Context (sha256_hex : string -> string) (hmac_hex : option (string -> string)) (max_raw : option string)
        (parser_for : option string -> option (string -> parse_outcome)).
#[local] Notation exec := (exec sha256_hex hmac_hex max_raw parser_for).
#[local] Notation run_events := (run_events sha256_hex hmac_hex max_raw parser_for).

(** An archive that arrived, with its size and hash. *)
Definition archived (r : log_import) : Prop :=
  exists body, raw_payload r = Some body /\ content_sha256 r = Some (sha256_hex body)
    /\ file_size_bytes r = Some (Z.of_nat (String.length body)).

(** The rows stored of a log are those its parser makes of the archive. *)
Definition entries_parsed (s : store) (r : log_import) : Prop :=
  exists body parser l, raw_payload r = Some body /\ parser_for (li_vendor r) = Some parser
    /\ parser body = parsed_entries l /\ entries_of (li_id r) s = entry_rows r l.

Definition has_result (s : store) (r : log_import) : Prop :=
  exists session row, li_session_id r = Some session /\ dget (reconciliations s) (session, li_id r) = Some row.

Definition row_ok (s : store) (r : log_import) : Prop :=
  match li_status r with
  | requested | uploading | import_expired => raw_payload r = None /\ entries_of (li_id r) s = []
  | received => archived r /\ entries_of (li_id r) s = []
  | import_parsed => archived r /\ entries_parsed s r
  | import_reconciled => archived r /\ entries_parsed s r /\ has_result s r
  | import_failed => (raw_payload r = None /\ entries_of (li_id r) s = [])
                     \/ (archived r /\ (entries_of (li_id r) s = [] \/ entries_parsed s r))
  end.

(** A task works on the row it read: nothing else writes the row of an archive. *)
Definition stage_ok (s : store) (r : log_import) (st : stage) : Prop :=
  match st with
  | ParseRead => li_status r = received
  | ParseWrite row => row = r /\ li_status r = received
  | ReconcileRead | Raised => is_Some (raw_payload r)
  | ChargerSide row session | OurSide row session _ _ | Upsert row session _ =>
      row = r /\ li_session_id r = Some session /\ is_Some (raw_payload r)
      /\ (li_status r = import_parsed \/ li_status r = import_failed)
  | Finish row => row = r /\ li_status r = import_parsed /\ is_Some (raw_payload r) /\ has_result s r
  end.

Definition task_ok (s : store) (t : string * stage) : Prop :=
  exists r, find_import (fst t) s = Some r /\ stage_ok s r (snd t).

Record inv (w : world) : Prop := {
  inv_row : forall id r, find_import id (w_store w) = Some r -> row_ok (w_store w) r;
  inv_entries : forall e, e ∈ log_entries (w_store w) -> is_Some (find_import (en_log_import_id e) (w_store w));
  inv_nodup : NoDup (map fst (w_tasks w));
  inv_task : Forall (task_ok (w_store w)) (w_tasks w)
}.

(** A store that keeps the entries of an import, and its results. *)
Definition agree (id : string) (s s' : store) : Prop :=
  entries_of id s' = entries_of id s
  /\ forall session, is_Some (dget (reconciliations s) (session, id)) -> is_Some (dget (reconciliations s') (session, id)).

Lemma agree_result s s' r : agree (li_id r) s s' -> has_result s r -> has_result s' r.
Proof.
  intros [_ H] (session & row & Hs & Hr). destruct (H session) as [row' Hr']; [by eexists|].
  by exists session, row'.
Qed.

Lemma agree_parsed s s' r : agree (li_id r) s s' -> entries_parsed s r -> entries_parsed s' r.
Proof. intros [H _] (b & p & l & H1 & H2 & H3 & H4). exists b, p, l. by rewrite H. Qed.

Lemma agree_row s s' r : agree (li_id r) s s' -> row_ok s r -> row_ok s' r.
Proof.
  intros A. pose proof A as [E _]. unfold row_ok. rewrite E.
  destruct (li_status r); intros H; naive_solver eauto using agree_result, agree_parsed.
Qed.

Lemma agree_stage s s' r st : agree (li_id r) s s' -> stage_ok s r st -> stage_ok s' r st.
Proof. intros A. destruct st; cbn; try done. intros (? & ? & ? & ?); eauto using agree_result. Qed.

Lemma agree_task s s' t :
  find_import (fst t) s' = find_import (fst t) s -> agree (fst t) s s' -> task_ok s t -> task_ok s' t.
Proof.
  intros F A (r & Hr & Hs). exists r. split; [by rewrite F|].
  eapply agree_stage; [|exact Hs]. by rewrite (find_import_id _ _ _ Hr).
Qed.

Lemma archive_not_open s r : row_ok s r -> is_Some (raw_payload r) -> is_open (li_status r) = false.
Proof. unfold row_ok. intros H [b Hb]. destruct (li_status r); cbn; try done; destruct H; congruence. Qed.

Lemma stage_archive s r st : row_ok s r -> stage_ok s r st -> is_Some (raw_payload r).
Proof.
  intros H. destruct st; cbn; try tauto; unfold row_ok in H.
  - intros E. rewrite E in H. destruct H as [(b & -> & _) _]. by eexists.
  - intros [_ E]. rewrite E in H. destruct H as [(b & -> & _) _]. by eexists.
Qed.

(** ** The consumer and the sweep *)

Lemma moved_ok s s' r r' :
  row_ok s r -> entries_of (li_id r) s' = entries_of (li_id r) s -> reconciliations s' = reconciliations s ->
  row_moves (li_row r) (li_row r') -> r' = with_row (fun _ => li_row r') r -> row_ok s' r'.
Proof.
  intros H He Hr [E|(Ho & Hedge & Hn & Hid & _)] ->.
  - assert (with_row (fun _ => li_row r') r = r) as -> by (rewrite <- E; by destruct r).
    eapply agree_row; [|exact H]. split; [done|by rewrite Hr].
  - unfold row_ok, li_status in *. cbn in *. unfold li_id in *. cbn. rewrite Hid, He.
    destruct (im_status (li_row r)); try done; destruct (im_status (li_row r')); try done; naive_solver.
Qed.

Lemma put_inv w rows q :
  Forall2 row_moves (map li_row (imports (w_store w))) rows -> inv w ->
  inv {| w_store := put_rows rows (w_store w); w_queue := q; w_tasks := w_tasks w |}.
Proof.
  intros Hm [Hr He Hn Ht]. constructor; cbn [w_store w_tasks]; [..|done|].
  - intros id r' F. destruct (find_put _ _ _ _ Hm F) as (r & Fr & M & E).
    exact (moved_ok _ (put_rows rows (w_store w)) _ _ (Hr _ _ Fr) eq_refl eq_refl M E).
  - intros e Hin. destruct (He e Hin) as [r F]. by eapply find_put_some.
  - eapply Forall_impl; [exact Ht|]. intros t T. pose proof T as (r & F & S). apply (agree_task (w_store w)); [|by split|exact T].
    destruct (find_put_some _ _ _ _ Hm F) as [r' F']. rewrite F', F. f_equal.
    destruct (find_put _ _ _ _ Hm F') as (r0 & F0 & M & E). assert (r0 = r) as -> by congruence.
    pose proof (archive_not_open _ _ (Hr _ _ F) (stage_archive _ _ _ (Hr _ _ F) S)) as O.
    destruct M as [M|(M & _)]; [|unfold li_status in O; congruence]. rewrite E, <- M. by destruct r.
Qed.

(** ** Requests *)

Lemma find_app id l1 l2 :
  List.find (fun r => String.eqb (li_id r) id) (l1 ++ l2)
  = match List.find (fun r => String.eqb (li_id r) id) l1 with
    | Some r => Some r
    | None => List.find (fun r => String.eqb (li_id r) id) l2
    end.
Proof. induction l1 as [|r l1 IH]; cbn; [done|]. by destruct (String.eqb _ id). Qed.

(** What a request adds. *)
Definition fresh_import (id : string) (r : log_import) : Prop :=
  li_id r = id /\ li_status r = requested /\ raw_payload r = None.

Lemma fetch_store base id qid clock db_now ttl st text session charger conn vendor t1 t2 q s :
  let s' := snd (fetch_session_logs sha256_hex hmac_hex base id qid clock db_now ttl st text session charger
                   conn vendor t1 t2 q s) in
  s' = s \/ exists r, fresh_import id r
    /\ (forall h, hmac_hex = Some h -> upload_token_hash r = Some (sha256_hex (mint_token h id (clock / usec) ttl)))
    /\ s' = {| imports := imports s ++ [r]; log_entries := log_entries s;
                                                   reconciliations := reconciliations s |}.
Proof.
  unfold fetch_session_logs. destruct hmac_hex as [h|]; [|by left].
  unfold dispatch_get_diagnostics. destruct base as [b|]; [|by left].
  destruct (build_upload_url _ _ _); [|by left]. cbn [fst snd app].
  destruct (List.find _ _); [by left|]. right. eexists. split; [|split; [|reflexivity]]; [done|]. by intros ? [= <-].
Qed.

Lemma fetch_inv w r id q :
  inv w -> find_import id (w_store w) = None -> fresh_import id r ->
  inv {| w_store := {| imports := imports (w_store w) ++ [r]; log_entries := log_entries (w_store w);
                       reconciliations := reconciliations (w_store w) |};
         w_queue := q; w_tasks := w_tasks w |}.
Proof.
  intros [Hr He Hn Ht] Hid (Ei & Es & Ep).
  assert (forall x y, find_import x (w_store w) = Some y ->
    List.find (fun r => String.eqb (li_id r) x) (imports (w_store w) ++ [r]) = Some y) as Old.
  { intros x y F. unfold find_import in F. by rewrite find_app, F. }
  constructor; cbn [w_store w_tasks imports log_entries]; [..|done|].
  - intros x y F. unfold find_import in F. cbn [imports] in F. rewrite find_app in F.
    destruct (List.find _ (imports (w_store w))) as [z|] eqn:E.
    + injection F as <-. eapply agree_row; [|exact (Hr _ _ E)]. by split.
    + cbn in F. rewrite Ei in F. destruct (String.eqb_spec id x) as [<-|]; [|done]. injection F as <-.
      unfold row_ok. rewrite Es, Ep. split; [done|]. apply filter_none. intros e Hin. cbn [log_entries] in Hin.
      apply String.eqb_neq. intros E2. destruct (He e Hin) as [y F]. rewrite E2, Ei in F. congruence.
  - intros e Hin. destruct (He e Hin) as [y F]. exists y. by apply Old.
  - eapply Forall_impl; [exact Ht|]. intros t T. pose proof T as (y & F & S). apply (agree_task (w_store w)); [|by split|exact T].
    rewrite F. by apply Old.
Qed.

(** ** Uploads *)

Lemma upload_store clock now token chunks name s u s' :
  upload_charger_log_endpoint sha256_hex hmac_hex max_raw clock now token chunks name s = Ok (u, s') ->
  exists r body, find_import (up_import_id u) s = Some r /\ is_open (li_status r) = true
    /\ s' = update_imports (up_import_id u) (fun _ => true) (receive_row sha256_hex now body name) s.
Proof.
  unfold upload_charger_log_endpoint, receive_upload. intros H. inv_ok.
  destruct (_ <? _); [done|]. destruct (_ =? 0); [done|]. cbn [rbind] in H.
  destruct (find_import _ _) as [r|] eqn:F; [|done]. destruct (match upload_token_hash r with Some _ => _ | None => _ end); [done|].
  destruct (li_status r) eqn:Es; try done; injection H as <- <-; exists r; eexists; cbn [up_import_id]; (split; [exact F|split; [by rewrite Es|reflexivity]]).
Qed.

Lemma receive_id now body name r : li_id (receive_row sha256_hex now body name r) = li_id r.
Proof. done. Qed.

Lemma upload_inv w id r now body name :
  inv w -> find_import id (w_store w) = Some r -> is_open (li_status r) = true ->
  inv {| w_store := update_imports id (fun _ => true) (receive_row sha256_hex now body name) (w_store w);
         w_queue := w_queue w; w_tasks := w_tasks w ++ [(id, ParseRead)] |}.
Proof.
  intros [Hr He Hn Ht] F Ho.
  assert (forall x, find_import x (update_imports id (fun _ => true) (receive_row sha256_hex now body name) (w_store w))
          = (fun r => if String.eqb x id then receive_row sha256_hex now body name r else r) <$> find_import x (w_store w)) as Up.
  { intros x. rewrite find_update by apply receive_id. destruct (find_import _ _); cbn; [|done]. by rewrite andb_true_r. }
  assert (forall t, t ∈ w_tasks w -> fst t <> id) as Other.
  { intros t Hin <-. rewrite Forall_forall in Ht. destruct (Ht t Hin) as (y & Fy & S).
    assert (y = r) as -> by congruence.
    pose proof (archive_not_open _ _ (Hr _ _ F) (stage_archive _ _ _ (Hr _ _ F) S)). congruence. }
  constructor; cbn [w_store w_tasks].
  - intros x y Fx. rewrite Up in Fx. destruct (find_import x (w_store w)) as [z|] eqn:E; [|done]. injection Fx as <-.
    destruct (String.eqb_spec x id) as [->|Hne]; [|eapply agree_row; [|exact (Hr _ _ E)]; by split].
    assert (z = r) as -> by congruence. unfold row_ok. cbn. split; [by eexists|].
    specialize (Hr _ _ F). unfold row_ok in Hr. unfold li_id at 1. destruct (li_status r); try done; by destruct Hr.
  - intros e Hin. destruct (He e Hin) as [y Fy]. rewrite Up, Fy. by eexists.
  - rewrite map_app. apply nodup_snoc; [done|]. intros Hin. apply list_elem_of_fmap in Hin as (t & E & Hin).
    by apply (Other t Hin).
  - apply Forall_app. split.
    + rewrite Forall_forall in Ht |- *. intros t Hin. apply (agree_task (w_store w)); [|by split|by apply Ht].
      rewrite Up, (proj2 (String.eqb_neq _ _) (Other t Hin)). apply option_fmap_id.
    + constructor; [|done]. exists (receive_row sha256_hex now body name r). cbn [fst].
      by rewrite Up, F; cbn; rewrite String.eqb_refl.
Qed.

(** ** Tasks *)

(** What a stage leaves of its own import, and of the others. *)
Record stage_leaves (id : string) (s s' : store) (next : option stage) : Prop := {
  leaves_others : forall x, x <> id -> find_import x s' = find_import x s /\ agree x s s';
  leaves_entries : (forall e, e ∈ log_entries s -> is_Some (find_import (en_log_import_id e) s)) ->
                   forall e, e ∈ log_entries s' -> is_Some (find_import (en_log_import_id e) s');
  leaves_own : exists r, find_import id s' = Some r /\ row_ok s' r /\ is_Some (raw_payload r)
                 /\ forall st, next = Some st -> stage_ok s' r st
}.

(** A stage that writes nothing. *)
Lemma leaves_same id s r (next : option stage) :
  find_import id s = Some r -> row_ok s r -> is_Some (raw_payload r) ->
  (forall st, next = Some st -> stage_ok s r st) -> stage_leaves id s s next.
Proof. intros F H P N. constructor; [done|done|eauto]. Qed.

(** One that updates the import's row. *)
Lemma leaves_update id s (p : import_status -> bool) (f : log_import -> log_import) r (next : option stage) :
  (forall r, li_id (f r) = li_id r) -> find_import id s = Some r ->
  let r' : log_import := if p (li_status r) then f r else r in
  let s' := update_imports id p f s in
  row_ok s' r' -> is_Some (raw_payload r') -> (forall st, next = Some st -> stage_ok s' r' st) ->
  stage_leaves id s s' next.
Proof.
  intros Hf F r' s' H P N. constructor.
  - intros x Hx. split; [|by split]. unfold s'. rewrite find_update by done.
    rewrite (proj2 (String.eqb_neq _ _) Hx). apply option_fmap_id.
  - intros He e Hin. destruct (He e Hin) as [y Fy]. unfold s'. rewrite find_update, Fy by done. by eexists.
  - exists r'. split; [|done]. unfold s'. rewrite find_update, F by done. cbn. by rewrite String.eqb_refl.
Qed.

Lemma failed_parsed s r (st : import_status) : archived r -> entries_parsed s r -> st = import_failed \/ st = import_parsed ->
  forall err, row_ok s (with_row (set_status st err) r).
Proof.
  intros A (b & p & l & H) Hst err. assert (archived (with_row (set_status st err) r)) as A' by exact A.
  assert (entries_parsed s (with_row (set_status st err) r)) as P by (exists b, p, l; exact H).
  unfold row_ok, li_status. cbn. destruct Hst as [-> | ->]; cbn; auto.
Qed.

Lemma mark_failed_leaves id s r why :
  find_import id s = Some r -> row_ok s r -> is_Some (raw_payload r) ->
  forall next, next = None \/ next = Some ReconcileRead \/ next = Some Raised ->
  stage_leaves id s (mark_failed id why s) next.
Proof.
  intros F H P next Hn. unfold mark_failed. eapply leaves_update; [done|exact F|..].
  - pose proof (archive_not_open _ _ H P) as O.
    destruct (li_status r) eqn:Es; try done; unfold row_ok in H; rewrite Es in H.
    + destruct H as [A E]. unfold row_ok, li_status. cbn. right. split; [exact A|by left].
    + destruct H as [A E]. apply (failed_parsed _ _ import_failed A E). by left.
  - by destruct (li_status r).
  - intros st ->. destruct Hn as [|[[= ->]|[= ->]]]; [done|..]; cbn; by destruct (li_status r).
Qed.

Lemma entry_rows_own r l :
  List.filter (fun e => String.eqb (en_log_import_id e) (li_id r)) (entry_rows r l) = entry_rows r l.
Proof.
  unfold entry_rows. induction l as [|e l IH]; [done|]. cbn [map List.filter en_log_import_id].
  by rewrite String.eqb_refl, IH.
Qed.

Lemma entry_rows_other r l x :
  x <> li_id r -> List.filter (fun e => String.eqb (en_log_import_id e) x) (entry_rows r l) = [].
Proof.
  intros Hx. apply filter_none. intros e Hin. apply list_elem_of_fmap in Hin as (y & -> & _). cbn.
  apply String.eqb_neq. congruence.
Qed.

(** The entries go in together with the status. *)
Lemma mark_parsed_leaves id now s r l parser body :
  find_import id s = Some r -> li_status r = received -> row_ok s r ->
  raw_payload r = Some body -> parser_for (li_vendor r) = Some parser -> parser body = parsed_entries l ->
  forall next, next = Some ReconcileRead \/ next = Some Raised ->
  stage_leaves id s (mark_parsed now id (insert_entries (entry_rows r l) s)) next.
Proof.
  intros F Es H Hb Hp Hl next Hn. pose proof (find_import_id _ _ _ F) as Eid.
  unfold row_ok in H. rewrite Es in H. destruct H as [A E].
  assert (stage_leaves id (insert_entries (entry_rows r l) s)
            (mark_parsed now id (insert_entries (entry_rows r l) s)) next) as [Ho He Hown].
  { unfold mark_parsed. eapply leaves_update; [done|exact F|..]; rewrite Es; cbn.
    - unfold row_ok, li_status. cbn. split; [exact A|]. exists body, parser, l.
      repeat (split; [done|]).
      change (List.filter (fun e => String.eqb (en_log_import_id e) (li_id r)) (log_entries s ++ entry_rows r l)
              = entry_rows r l).
      rewrite List.filter_app, entry_rows_own. unfold entries_of in E. by rewrite E.
    - by rewrite Hb.
    - intros st ->. destruct Hn as [[= ->]|[= ->]]; cbn; by rewrite Hb. }
  constructor; [|intros Hs; apply He|exact Hown].
  - intros x Hx. destruct (Ho x Hx) as [F2 [E2 R2]]. split; [exact F2|]. split; [|exact R2].
    rewrite E2. unfold entries_of, insert_entries. cbn [log_entries].
    by rewrite List.filter_app, entry_rows_other, app_nil_r by congruence.
  - cbn [insert_entries log_entries]. intros e Hin. apply elem_of_app in Hin as [Hin|Hin].
    + exact (Hs e Hin).
    + apply list_elem_of_fmap in Hin as (y & -> & _). cbn. rewrite Eid. unfold find_import in *. cbn [imports]. by rewrite F.
Qed.

(** The write of the parsing stage. *)
Lemma persist_leaves id now s r next :
  find_import id s = Some r -> li_status r = received -> row_ok s r ->
  next = Some ReconcileRead \/ next = Some Raised ->
  stage_leaves id s (match persist parser_for now r with Some f => f s | None => s end) next.
Proof.
  intros F Es H Hn. pose proof H as H0. unfold row_ok in H0. rewrite Es in H0. destruct H0 as [(body & Hb & _) _].
  assert (is_Some (raw_payload r)) as P by (by rewrite Hb).
  pose proof (find_import_id _ _ _ F) as Eid.
  unfold persist. rewrite Es, Hb. change (negb (is_status received received)) with false. cbv iota. rewrite Eid.
  destruct (parser_for (li_vendor r)) as [parser|] eqn:Hp.
  - destruct (parser body) as [l|m|m] eqn:Hl.
    + pose proof (mark_parsed_leaves id now s r l parser body F Es H Hb Hp Hl next Hn) as L.
      destruct l; [by rewrite insert_nothing in L|exact L].
    + eapply mark_failed_leaves; eauto.
    + eapply mark_failed_leaves; eauto.
  - eapply leaves_same; eauto. intros st E. destruct Hn as [Hn|Hn]; rewrite Hn in E; by injection E as <-.
Qed.

(** The result is stored: other imports keep theirs. *)
Lemma upsert_leaves id now s r session res next :
  find_import id s = Some r -> row_ok s r -> is_Some (raw_payload r) -> li_session_id r = Some session ->
  let s' := {| imports := imports s; log_entries := log_entries s;
               reconciliations := write_session_log_reconciliation now session id res (reconciliations s) |} in
  (forall st, next = Some st -> has_result s' r -> stage_ok s' r st) -> stage_leaves id s s' next.
Proof.
  intros F H P Hs s' N. pose proof (find_import_id _ _ _ F) as Eid.
  assert (forall x, agree x s s') as A.
  { intros x. split; [done|]. intros se [row Hrow]. cbn. unfold write_session_log_reconciliation.
    rewrite dget_dset. destruct (decide _); eauto. }
  constructor; [intros x _; split; [done|apply A]|done|]. exists r. split; [done|].
  split; [eapply agree_row; [apply A|done]|]. split; [done|]. intros st E. apply N; [done|].
  exists session. eexists. split; [done|]. cbn. unfold write_session_log_reconciliation. rewrite Eid. apply dget_dset_eq.
Qed.

Lemma finish_leaves id now s r next :
  find_import id s = Some r -> row_ok s r -> li_status r = import_parsed -> is_Some (raw_payload r) ->
  has_result s r -> next = None \/ next = Some Raised ->
  stage_leaves id s (mark_reconciled now id s) next.
Proof.
  intros F H Es P R Hn. unfold row_ok in H. rewrite Es in H. destruct H as [A (b & p & l & E)].
  unfold mark_reconciled. eapply leaves_update; [done|exact F|..]; rewrite Es; cbn.
  - unfold row_ok, li_status. cbn. split; [exact A|]. split; [exists b, p, l; exact E|exact R].
  - exact P.
  - intros st ->. destruct Hn as [|[= ->]]; [done|]. exact P.
Qed.

Lemma stage_leaves_ok now db id s r st :
  find_import id s = Some r -> row_ok s r -> stage_ok s r st ->
  let '(s', next) := stage_effect parser_for now db id st s in
  stage_leaves id s s' next /\ stage_leaves id s s' (Some Raised).
Proof.
  intros F H S. pose proof (stage_archive _ _ _ H S) as P.
  assert (forall x : stage, x = Raised -> forall y, Some x = Some y -> stage_ok s r y) as RS by (intros ? -> ? [= <-]; exact P).
  destruct st; cbn in S |- *.
  - rewrite F. split; eapply leaves_same; eauto. intros st [= <-].
    by destruct (persist _ _ _); cbn.
  - destruct S as [-> Es]. split; apply persist_leaves; auto.
  - rewrite F. destruct (li_status r) eqn:Es; try (split; eapply leaves_same; eauto; done);
      destruct (li_session_id r) eqn:Ese; split; eapply leaves_same; eauto; try done; intros st [= <-]; cbn; auto.
  - split; eapply leaves_same; eauto. intros st [= <-]. by destruct (read_charger_side _ _ _ _ _) as [|[]]; cbn.
  - split; eapply leaves_same; eauto. by intros st [= <-].
  - destruct S as (-> & Hs & _ & Hst).
    split; eapply upsert_leaves; eauto; intros st E R; [|by injection E as <-].
    destruct (li_status r) eqn:Es; try done; injection E as <-. by cbn.
  - destruct S as (-> & Es & _ & R). split; eapply finish_leaves; eauto.
  - split; eapply mark_failed_leaves; eauto.
Qed.

Lemma task_ids i id st st' (ts : list (string * stage)) :
  ts !! i = Some (id, st) -> map fst (<[i := (id, st')]> ts) = map fst ts.
Proof.
  intros H. change (fst <$> <[i := (id, st')]> ts = fst <$> ts). rewrite list_fmap_insert. apply list_insert_id.
  by rewrite list_lookup_fmap, H.
Qed.

(** A task that moves: its own stage is settled, the others keep theirs. *)
Lemma moved_inv w i id st s' next :
  inv w -> w_tasks w !! i = Some (id, st) -> stage_leaves id (w_store w) s' next ->
  inv {| w_store := s'; w_queue := w_queue w;
         w_tasks := match next with Some st' => <[i := (id, st')]> (w_tasks w) | None => delete i (w_tasks w) end |}.
Proof.
  intros [Hr He Hn Ht] Hi [Lo Le (r & F & H & P & N)]. constructor; cbn [w_store w_tasks].
  - intros x y Fx. destruct (decide (x = id)) as [->|Hne]; [by assert (y = r) as -> by congruence|].
    destruct (Lo x Hne) as [E A]. rewrite E in Fx. eapply agree_row; [|exact (Hr _ _ Fx)].
    by rewrite (find_import_id _ _ _ Fx).
  - by apply Le.
  - destruct next; [by rewrite task_ids with (st := st)|].
    change (NoDup (fst <$> delete i (w_tasks w))). rewrite list_fmap_delete. eapply sublist_NoDup; [exact Hn|apply sublist_delete].
  - assert (forall j t, j <> i -> w_tasks w !! j = Some t -> task_ok s' t) as Oth.
    { intros j t Hj Hl. assert (fst t <> id) as Hne.
      { intros E. apply Hj. apply (NoDup_lookup (map fst (w_tasks w)) j i (fst t)); [done|..];
          rewrite list_lookup_fmap; [by rewrite Hl|by rewrite Hi, E]. }
      destruct (Lo _ Hne) as [E A]. apply (agree_task (w_store w)); [done..|].
      by apply (Forall_lookup_1 _ _ _ _ Ht Hl). }
    apply Forall_lookup. intros j t Hj. destruct next as [st'|].
    + destruct (decide (j = i)) as [->|Hne].
      * rewrite list_lookup_insert_eq in Hj by (by eapply lookup_lt_Some). injection Hj as <-. exists r. auto.
      * rewrite list_lookup_insert_ne in Hj by done. eauto.
    + destruct (decide (j < i)%nat) as [Hlt|Hge].
      * rewrite list_lookup_delete_lt in Hj by done. apply (Oth j); [lia|done].
      * rewrite list_lookup_delete_ge in Hj by lia. apply (Oth (S j)); [lia|done].
Qed.

(** ** Events *)

Lemma exec_inv e w w' : inv w -> exec e w = Some w' -> inv w'.
Proof.
  intros H. destruct e; cbn [LogImport.exec].
  - destruct (existsb _ _) eqn:Ex; [done|].
    pose proof (fetch_store base_url id queue_id clock db_now ttl station session_text session charger connector
                  vendor start_time stop_time (w_queue w) (w_store w)) as F.
    destruct (fetch_session_logs _ _ _ _ _ _ _ _ _ _ _ _ _ _ _ _ _ _) as [[rep q] s]. cbn [snd] in F.
    intros [= <-]. destruct F as [-> | (r & Hr & _ & ->)].
    + destruct H. by constructor.
    + eapply fetch_inv; [done| |done]. unfold find_import. destruct (List.find _ _) as [y|] eqn:E; [|done].
      apply find_some in E as [E1 E2]. rewrite <- not_true_iff_false in Ex. exfalso. apply Ex, existsb_exists. eauto.
  - destruct (_ !! i) as [q|]; [|done]. intros [= <-]. apply put_inv; [|done]. exact (handle_moves env q (init_consumer (w_queue w) (map li_row (imports (w_store w))))).
  - intros [= <-]. apply put_inv; [apply sweep_moves|done].
  - destruct (upload_charger_log_endpoint _ _ _ _ _ _ _ _ _) as [[u s]|] eqn:E; intros [= <-]; [|done].
    apply upload_store in E as (r & body & F & O & ->). by eapply upload_inv.
  - destruct (_ !! i) as [[id st]|] eqn:Hi; [|done]. unfold stage_step.
    pose proof (Forall_lookup_1 _ _ _ _ (inv_task _ H) Hi) as (r & F & S).
    pose proof (stage_leaves_ok now db id (w_store w) r st F (inv_row _ H _ _ F) S) as L.
    destruct (stage_effect _ _ _ _ _ _) as [s' next]. destruct L as [L1 L2].
    assert (stage_leaves id (w_store w) (w_store w) (Some Raised)) as L0.
    { eapply leaves_same; [exact F|by eapply inv_row|by eapply stage_archive; [eapply inv_row|]|].
      intros x [= <-]. cbn. by eapply stage_archive; [eapply inv_row|]. }
    assert (forall s2, stage_leaves id (w_store w) s2 (Some Raised) -> stage_leaves id (w_store w) s2 None) as Drop.
    { intros s2 [A B (y & Y1 & Y2 & Y3 & _)]. constructor; [done..|]. exists y. repeat split; done. }
    destruct a; intros [= <-]; eapply moved_inv; eauto; destruct st; eauto.
  - intros [= <-]. destruct H as [Hr He _ _]. by constructor; [..|constructor|constructor].
Qed.

Lemma initial_inv : inv initial_world.
Proof. constructor; cbn; [done|by intros ? ?%not_elem_of_nil|constructor|constructor]. Qed.

Lemma log_run_inv es w w' : inv w -> run_events es w = Some w' -> inv w'.
Proof.
  revert w. induction es as [|e es IH]; intros w H; cbn; [by intros [= <-]|].
  destruct (LogImport.exec _ _ _ _ _ _) as [w1|] eqn:E; [|done]. apply IH. by eapply exec_inv.
Qed.

(** *** What becomes of a row *)

(** A later state of an import: its status moved along the life cycle, what
    identifies it is the same, and an archive that arrived is kept. *)
Definition follows (r r' : log_import) : Prop :=
  rtc edge (li_status r) (li_status r')
  /\ li_session_id r' = li_session_id r /\ li_station_id r' = li_station_id r
  /\ li_vendor r' = li_vendor r /\ upload_token_hash r' = upload_token_hash r
  /\ (is_Some (raw_payload r) -> raw_payload r' = raw_payload r /\ content_sha256 r' = content_sha256 r
      /\ received_at r' = received_at r).

Lemma follows_refl r : follows r r.
Proof. done. Qed.

Lemma follows_trans a b c : follows a b -> follows b c -> follows a c.
Proof.
  intros (A1 & A2 & A3 & A4 & A5 & A6) (B1 & B2 & B3 & B4 & B5 & B6).
  repeat (split; [first [by etrans|congruence]|]). intros P. destruct (A6 P) as (E1 & E2 & E3).
  destruct B6 as (F1 & F2 & F3); [by rewrite E1|]. repeat split; congruence.
Qed.

(** A change of the row's status alone. *)
Lemma follows_status r s err : edge (li_status r) s -> follows r (with_row (set_status s err) r).
Proof. intros H. split; [by apply rtc_once|done]. Qed.

Lemma follows_update id id' p f s r :
  (forall x, li_id (f x) = li_id x) -> find_import id s = Some r ->
  (p (li_status r) = true -> follows r (f r)) ->
  exists r', find_import id (update_imports id' p f s) = Some r' /\ follows r r'.
Proof.
  intros Hf F H. rewrite find_update, F by done. cbn. eexists. split; [done|].
  destruct (String.eqb id id'); cbn; [|done]. destruct (p _); auto using follows_refl.
Qed.

Lemma follows_failed id id' why s r :
  find_import id s = Some r -> exists r', find_import id (mark_failed id' why s) = Some r' /\ follows r r'.
Proof.
  intros F. apply follows_update; [done|done|]. intros H. apply follows_status. by destruct (li_status r).
Qed.

Lemma follows_parsed now id id' s r :
  find_import id s = Some r -> exists r', find_import id (mark_parsed now id' s) = Some r' /\ follows r r'.
Proof.
  intros F. apply follows_update; [done|done|]. intros H%bool_decide_eq_true. split; [|done].
  rewrite H. by apply rtc_once.
Qed.

Lemma follows_reconciled now id id' s r :
  find_import id s = Some r -> exists r', find_import id (mark_reconciled now id' s) = Some r' /\ follows r r'.
Proof.
  intros F. apply follows_update; [done|done|]. intros H%bool_decide_eq_true. split; [|done].
  rewrite H. by apply rtc_once.
Qed.

Lemma follows_stage now db id id' st s r :
  find_import id s = Some r ->
  exists r', find_import id (fst (stage_effect parser_for now db id' st s)) = Some r' /\ follows r r'.
Proof.
  intros F. assert (exists r', find_import id s = Some r' /\ follows r r') as Same by (exists r; by split).
  destruct st; cbn [stage_effect fst]; try exact Same.
  - destruct (find_import id' s); [|exact Same]. by destruct (persist _ _ _).
  - unfold persist. destruct (negb _); [exact Same|]. destruct (raw_payload row); [|by apply follows_failed].
    destruct (parser_for _) as [parser|]; [|exact Same].
    destruct (parser _) as [l|m|m]; [|by apply follows_failed..].
    destruct l; [by apply follows_parsed|]. by apply (follows_parsed _ _ _ (insert_entries _ s)).
  - destruct (find_import id' s) as [y|]; [|exact Same]. by destruct (li_status y), (li_session_id y).
  - by apply follows_reconciled.
  - by apply follows_failed.
Qed.

Lemma follows_put rows s id r :
  Forall2 row_moves (map li_row (imports s)) rows -> find_import id s = Some r ->
  exists r', find_import id (put_rows rows s) = Some r' /\ follows r r'.
Proof.
  intros M F. destruct (find_put_some _ _ _ _ M F) as [r' F']. exists r'. split; [done|].
  destruct (find_put _ _ _ _ M F') as (y & Fy & Hm & E). assert (y = r) as -> by congruence. rewrite E.
  split; [|done]. unfold li_status. cbn. destruct Hm as [->|(_ & Hm & _)]; [done|by apply rtc_once].
Qed.

Lemma follows_exec e w w' id r :
  inv w -> exec e w = Some w' -> find_import id (w_store w) = Some r ->
  exists r', find_import id (w_store w') = Some r' /\ follows r r'.
Proof.
  intros H E F. assert (exists r', find_import id (w_store w) = Some r' /\ follows r r') as Same by (exists r; by split).
  destruct e; cbn [LogImport.exec] in E.
  - destruct (existsb _ _); [done|].
    pose proof (fetch_store base_url id0 queue_id clock db_now ttl station session_text session charger connector
                  vendor start_time stop_time (w_queue w) (w_store w)) as X.
    destruct (fetch_session_logs _ _ _ _ _ _ _ _ _ _ _ _ _ _ _ _ _ _) as [[rep q] s]. cbn [snd] in X.
    injection E as <-. cbn [w_store]. destruct X as [-> | (y & _ & _ & ->)]; [done|]. exists r. split; [|done].
    unfold find_import in *. cbn [imports]. by rewrite find_app, F.
  - destruct (_ !! i) as [q|]; [|done]. injection E as <-. apply follows_put; [|done].
    exact (handle_moves env q (init_consumer (w_queue w) (map li_row (imports (w_store w))))).
  - injection E as <-. apply follows_put; [apply sweep_moves|done].
  - destruct (upload_charger_log_endpoint _ _ _ _ _ _ _ _ _) as [[u s]|] eqn:U; injection E as <-; [|done].
    apply upload_store in U as (y & body & Fy & O & ->). cbn [w_store].
    rewrite find_update, F by done. cbn. eexists. split; [done|]. destruct (String.eqb_spec id (up_import_id u)) as [->|]; [|done].
    assert (y = r) as -> by congruence. cbn. split; [unfold li_status in *; cbn; apply rtc_once; by destruct (im_status _)|].
    repeat (split; [done|]). intros P. pose proof (archive_not_open _ _ (inv_row _ H _ _ F) P). congruence.
  - destruct (_ !! i) as [[x st]|] eqn:Hi; [|done]. unfold stage_step in E.
    pose proof (follows_stage now db id x st (w_store w) r F) as S.
    destruct (stage_effect _ _ _ _ _ _) as [s' next]. by destruct a; injection E as <-.
  - by injection E as <-.
Qed.

Lemma follows_run es w w' id r :
  inv w -> run_events es w = Some w' -> find_import id (w_store w) = Some r ->
  exists r', find_import id (w_store w') = Some r' /\ follows r r'.
Proof.
  revert w r. induction es as [|e es IH]; intros w r H; cbn.
  - intros [= <-] F. exists r. by split.
  - destruct (LogImport.exec _ _ _ _ _ _) as [w1|] eqn:E; [|done]. intros R F.
    destruct (follows_exec _ _ _ _ _ H E F) as (r1 & F1 & L1).
    destruct (IH w1 r1 (exec_inv _ _ _ H E) R F1) as (r2 & F2 & L2). eauto using follows_trans.
Qed.

Lemma reached_row es w id r :
  run_events es initial_world = Some w -> find_import id (w_store w) = Some r -> row_ok (w_store w) r.
Proof. intros R F. eapply inv_row; [|exact F]. eapply log_run_inv; [apply initial_inv|exact R]. Qed.

Lemma final_status a b : rtc edge a b -> a = import_reconciled \/ a = import_failed \/ a = import_expired -> b = a.
Proof. intros R. inversion R as [|? y ? E]; [done|]. intros [-> | [-> | ->]]; by destruct E. Qed.

(** C32: Every such history refines the life cycle of an import: its status only moves
    along requested, uploading, received, parsed, reconciled, or to failed or expired; a
    final status never changes, and a received archive is kept with its hash. *)
Theorem import_life_cycle es es' w w' id r :
  run_events es initial_world = Some w -> run_events es' w = Some w' ->
  find_import id (w_store w) = Some r ->
  exists r', find_import id (w_store w') = Some r' /\ rtc edge (li_status r) (li_status r')
    /\ (li_status r = import_reconciled \/ li_status r = import_failed \/ li_status r = import_expired ->
        li_status r' = li_status r)
    /\ (is_Some (raw_payload r) -> raw_payload r' = raw_payload r /\ content_sha256 r' = content_sha256 r).
Proof.
  intros R R' F. pose proof (log_run_inv _ _ _ initial_inv R) as H.
  destruct (follows_run _ _ _ _ _ H R' F) as (r' & F' & L & _ & _ & _ & _ & P). exists r'.
  split; [done|]. split; [done|]. split; [by apply final_status|]. intros A. by destruct (P A) as (? & ? & _).
Qed.

(** C31: Over every interleaving of log requests, uploads, the queue's consumer, the
    sweep of overdue imports and the background tasks, with any failing statement or
    restart, an import has at most one task, and the rows stored of its log are none or
    exactly those the vendor's parser makes of the archive that was received; once
    parsed they are there, and once reconciled the result is stored too. *)
Theorem stored_log_is_the_archive es w id r :
  run_events es initial_world = Some w -> find_import id (w_store w) = Some r ->
  NoDup (map fst (w_tasks w))
  /\ (entries_of id (w_store w) = [] \/ entries_parsed (w_store w) r)
  /\ (li_status r = import_parsed \/ li_status r = import_reconciled ->
      archived r /\ entries_parsed (w_store w) r)
  /\ (li_status r = import_reconciled -> has_result (w_store w) r).
Proof.
  intros R F. pose proof (log_run_inv _ _ _ initial_inv R) as H. pose proof (inv_row _ H _ _ F) as O.
  split; [by eapply inv_nodup|]. rewrite <- (find_import_id _ _ _ F). unfold row_ok in O.
  destruct (li_status r); naive_solver.
Qed.

(** *** Imports without a task *)

Lemma other_task_keeps now db a id x st w :
  inv w -> (x, st) ∈ w_tasks w -> x <> id ->
  find_import id (fst (stage_step parser_for now db a x st (w_store w))) = find_import id (w_store w).
Proof.
  intros H Hin Hne. pose proof (inv_task _ H) as T. rewrite Forall_forall in T. destruct (T _ Hin) as (r & F & S).
  pose proof (stage_leaves_ok now db x (w_store w) r st F (inv_row _ H _ _ F) S) as L.
  unfold stage_step. destruct (stage_effect _ _ _ _ _ _) as [s' next]. destruct L as [L _].
  destruct a; cbn [fst]; [|done|]; by apply (leaves_others _ _ _ _ L).
Qed.

Lemma put_keeps rows s id r :
  Forall2 row_moves (map li_row (imports s)) rows -> find_import id s = Some r -> is_open (li_status r) = false ->
  find_import id (put_rows rows s) = Some r.
Proof.
  intros M F O. destruct (find_put_some _ _ _ _ M F) as [r' F']. rewrite F'. f_equal.
  destruct (find_put _ _ _ _ M F') as (y & Fy & Hm & E). assert (y = r) as -> by congruence.
  destruct Hm as [Hm|(Hm & _)]; [|unfold li_status in O; congruence]. rewrite E, <- Hm. by destruct r.
Qed.

Lemma stranded_step e w w' id r :
  inv w -> exec e w = Some w' -> find_import id (w_store w) = Some r -> is_open (li_status r) = false ->
  id ∉ map fst (w_tasks w) -> find_import id (w_store w') = Some r /\ id ∉ map fst (w_tasks w').
Proof.
  intros H E F O N. destruct e; cbn [LogImport.exec] in E.
  - destruct (existsb _ _); [done|].
    pose proof (fetch_store base_url id0 queue_id clock db_now ttl station session_text session charger connector
                  vendor start_time stop_time (w_queue w) (w_store w)) as X.
    destruct (fetch_session_logs _ _ _ _ _ _ _ _ _ _ _ _ _ _ _ _ _ _) as [[rep q] s]. cbn [snd] in X.
    injection E as <-. cbn [w_store w_tasks]. split; [|done]. destruct X as [-> | (y & _ & _ & ->)]; [done|].
    unfold find_import in *. cbn [imports]. by rewrite find_app, F.
  - destruct (_ !! i) as [q|]; [|done]. injection E as <-. split; [|done]. apply put_keeps; [|done..].
    exact (handle_moves env q (init_consumer (w_queue w) (map li_row (imports (w_store w))))).
  - injection E as <-. split; [|done]. apply put_keeps; [apply sweep_moves|done..].
  - destruct (upload_charger_log_endpoint _ _ _ _ _ _ _ _ _) as [[u s]|] eqn:U; injection E as <-; [|done].
    apply upload_store in U as (y & body & Fy & Oy & ->). cbn [w_store w_tasks].
    assert (id <> up_import_id u) as Hne by (intros ->; congruence). split.
    + rewrite find_update, F by done. cbn. by rewrite (proj2 (String.eqb_neq _ _) Hne).
    + rewrite map_app, elem_of_app. intros [?|Hin]; [done|]. cbn in Hin. by apply list_elem_of_singleton in Hin.
  - destruct (_ !! i) as [[x st]|] eqn:Hi; [|done].
    pose proof (list_elem_of_lookup_2 _ _ _ Hi) as Hin.
    assert (x <> id) as Hne by (intros ->; apply N, list_elem_of_fmap; by exists (id, st)).
    pose proof (other_task_keeps now db a id x st w H Hin Hne) as K.
    destruct (stage_step _ _ _ _ _ _ _) as [s' next]. injection E as <-. cbn [fst w_store w_tasks] in *.
    split; [congruence|]. destruct next as [st'|]; [by rewrite task_ids with (st := st)|].
    intros Hd. apply N. change (id ∈ fst <$> delete i (w_tasks w)) in Hd. rewrite list_fmap_delete in Hd.
    eapply elem_of_submseteq; [exact Hd|]. apply sublist_submseteq, sublist_delete.
  - injection E as <-. split; [done|]. apply not_elem_of_nil.
Qed.

(** An archive whose task was lost, to a restart, stays as it is: whatever happens
    later, its import is neither parsed nor reconciled nor marked failed, and a
    second upload is not accepted. *)
Theorem lost_task_strands_import es es' w w' id r :
  run_events es initial_world = Some w -> find_import id (w_store w) = Some r ->
  is_open (li_status r) = false -> id ∉ map fst (w_tasks w) ->
  run_events es' w = Some w' -> find_import id (w_store w') = Some r.
Proof.
  intros R F O N. pose proof (log_run_inv _ _ _ initial_inv R) as H. clear R.
  revert w H F N. induction es' as [|e es' IH]; intros w H F N; cbn; [by intros [= <-]|].
  destruct (LogImport.exec _ _ _ _ _ _) as [w1|] eqn:E; [|done].
  destruct (stranded_step _ _ _ _ _ H E F O N) as [F1 N1]. apply IH; [by eapply exec_inv|done..].
Qed.

(** *** The comparison endpoint *)

Lemma found_import w r : r ∈ imports (w_store w) -> NoDup (map li_id (imports (w_store w))) ->
  find_import (li_id r) (w_store w) = Some r.
Proof.
  unfold find_import. induction (imports (w_store w)) as [|x l IH]; intros Hin Hn; [by apply not_elem_of_nil in Hin|].
  cbn in Hn |- *. apply NoDup_cons in Hn as [Hx Hn]. apply elem_of_cons in Hin as [->|Hin]; [by rewrite String.eqb_refl|].
  destruct (String.eqb_spec (li_id x) (li_id r)) as [E|_]; [|by apply IH].
  exfalso. apply Hx. rewrite E. apply list_elem_of_fmap. by exists r.
Qed.

(** The import identifiers stay distinct. *)
Lemma put_ids rows s : Forall2 row_moves (map li_row (imports s)) rows ->
  map li_id (imports (put_rows rows s)) = map li_id (imports s).
Proof.
  unfold put_rows. cbn [imports]. revert rows. induction (imports s) as [|x l IH]; intros rows H; [done|].
  cbn in H. inversion H as [|a b ? rows' Hab Hl]; subst. cbn. f_equal; [|by apply IH].
  destruct Hab as [<-|(_ & _ & _ & E & _)]; [done|exact E].
Qed.

Lemma update_ids id p f s : (forall r, li_id (f r) = li_id r) ->
  map li_id (imports (update_imports id p f s)) = map li_id (imports s).
Proof.
  intros Hf. cbn. rewrite map_map. apply map_ext. intros r. destruct (_ && _); [apply Hf|done].
Qed.

Lemma stage_ids now db id st s :
  map li_id (imports (fst (stage_effect parser_for now db id st s))) = map li_id (imports s).
Proof.
  destruct st; cbn [stage_effect fst]; try done.
  - destruct (find_import id s); [|done]. by destruct (persist _ _ _).
  - unfold persist. destruct (negb _); [done|]. destruct (raw_payload row); [|by apply update_ids].
    destruct (parser_for _) as [parser|]; [|done]. destruct (parser _) as [l|m|m]; [|by apply update_ids..].
    destruct l; [by apply update_ids|]. apply (update_ids _ _ _ (insert_entries _ s)). done.
  - destruct (find_import id s) as [y|]; [|done]. by destruct (li_status y), (li_session_id y).
  - by apply update_ids.
  - by apply update_ids.
Qed.

Lemma exec_ids e w w' :
  exec e w = Some w' -> NoDup (map li_id (imports (w_store w))) -> NoDup (map li_id (imports (w_store w'))).
Proof.
  intros E Hn. destruct e; cbn [LogImport.exec] in E.
  - destruct (existsb _ _) eqn:Ex; [done|].
    pose proof (fetch_store base_url id queue_id clock db_now ttl station session_text session charger connector
                  vendor start_time stop_time (w_queue w) (w_store w)) as X.
    destruct (fetch_session_logs _ _ _ _ _ _ _ _ _ _ _ _ _ _ _ _ _ _) as [[rep q] s]. cbn [snd] in X.
    injection E as <-. cbn [w_store]. destruct X as [-> | (y & (Ei & _) & _ & ->)]; [done|].
    cbn [imports]. rewrite map_app. apply nodup_snoc; [done|]. rewrite Ei. intros Hin.
    apply list_elem_of_fmap in Hin as (z & Hz & Hin). rewrite <- not_true_iff_false in Ex. apply Ex, existsb_exists.
    exists z. split; [by apply list_elem_of_In|]. apply String.eqb_eq. done.
  - destruct (_ !! i) as [q|]; [|done]. injection E as <-. cbn [w_store]. rewrite put_ids; [done|].
    exact (handle_moves env q (init_consumer (w_queue w) (map li_row (imports (w_store w))))).
  - injection E as <-. cbn [w_store]. by rewrite put_ids by apply sweep_moves.
  - destruct (upload_charger_log_endpoint _ _ _ _ _ _ _ _ _) as [[u s]|] eqn:U; injection E as <-; [|done].
    apply upload_store in U as (y & body & _ & _ & ->). cbn [w_store]. by rewrite update_ids.
  - destruct (_ !! i) as [[x st]|]; [|done]. pose proof (stage_ids now db x st (w_store w)) as S. unfold stage_step in E.
    destruct (stage_effect _ _ _ _ _ _) as [s' next]. cbn [fst] in S.
    destruct a; injection E as <-; cbn [w_store]; congruence.
  - by injection E as <-.
Qed.

Lemma run_ids es w w' :
  run_events es w = Some w' -> NoDup (map li_id (imports (w_store w))) -> NoDup (map li_id (imports (w_store w'))).
Proof.
  revert w. induction es as [|e es IH]; intros w; cbn; [by intros [= <-]|].
  destruct (LogImport.exec _ _ _ _ _ _) as [w1|] eqn:E; [|done]. intros R Hn. eapply IH; [done|]. by eapply exec_ids.
Qed.

(** What an operator is shown: the session of a depot they may see, the newest import
    of its log, and, when that import is reconciled, the entries its parser made of
    the archive, ordered by time, with the stored result. *)
Theorem comparison_shows_the_archive es w favonius depot session stations db sr r entries res :
  run_events es initial_world = Some w ->
  get_session_log_comparison favonius depot session stations db (w_store w) = compared sr r entries res ->
  Billing.session_id sr = session /\ li_session_id r = Some session
  /\ (favonius = false -> site_id sr = Some depot
      \/ exists st, site_id sr = None /\ Billing.station_id sr = Some st /\ dget stations st = Some depot)
  /\ (forall x, x ∈ imports (w_store w) -> li_session_id x = Some session ->
        requested_at (li_row x) <= requested_at (li_row r))
  /\ (li_status r = import_reconciled ->
      is_Some res /\ exists body parser l, raw_payload r = Some body /\ parser_for (li_vendor r) = Some parser
        /\ parser body = parsed_entries l /\ entries ≡ₚ entry_rows r l).
Proof.
  intros R. unfold get_session_log_comparison. destruct (List.find _ (rec_sessions db)) as [x|] eqn:Fx; [|done].
  destruct (negb favonius && _) eqn:Ow; [done|]. destruct (extreme _ _) as [y|] eqn:Ex; [|done]. intros [= <- <- <- <-].
  apply find_some in Fx as [_ Fx%String.eqb_eq].
  apply extreme_spec in Ex as [Hin Hmax]; [|intros; apply Z.leb_le; lia|intros ? ?; rewrite Z.leb_gt, Z.leb_le; lia|intros ? ? ?; rewrite !Z.leb_le; lia].
  apply elem_of_lfilter in Hin as [Hin Hs%bool_decide_eq_true].
  pose proof (found_import w y Hin (run_ids _ _ _ R (NoDup_nil_2))) as F.
  split; [done|]. split; [done|]. split; [|split].
  - intros ->. cbn in Ow. apply negb_false_iff, bool_decide_eq_true in Ow. destruct (site_id x); [by left|].
    destruct (Billing.station_id x); [|done]. right. eauto.
  - intros z Hz Hzs. apply Z.leb_le, Hmax, elem_of_lfilter. split; [done|]. by apply bool_decide_eq_true.
  - intros St. pose proof (reached_row _ _ _ _ R F) as O. unfold row_ok in O. rewrite St in O.
    destruct O as (_ & (b & p & l & H1 & H2 & H3 & H4) & se & row & H5 & H6). split.
    + assert (se = session) as -> by congruence. by exists row.
    + exists b, p, l. repeat (split; [done|]). rewrite sort_by_perm. unfold entries_of in H4. by rewrite H4.
Qed.

(** The import a request has just written carries the hash of its token. *)
Lemma fetched_hash base id qid clock db_now ttl st text session charger conn vendor t1 t2 w w' h r :
  hmac_hex = Some h ->
  exec (Fetch base id qid clock db_now ttl st text session charger conn vendor t1 t2) w = Some w' ->
  find_import id (w_store w') = Some r ->
  upload_token_hash r = Some (sha256_hex (mint_token h id (clock / usec) ttl)).
Proof.
  intros Hh E F. cbn [LogImport.exec] in E. destruct (existsb _ _) eqn:Ex; [done|].
  assert (find_import id (w_store w) = None) as N.
  { unfold find_import. destruct (List.find _ _) as [y|] eqn:X; [|done]. apply find_some in X as [X1 X2].
    rewrite <- not_true_iff_false in Ex. exfalso. apply Ex, existsb_exists. eauto. }
  pose proof (fetch_store base id qid clock db_now ttl st text session charger conn vendor t1 t2 (w_queue w) (w_store w)) as X.
  destruct (fetch_session_logs _ _ _ _ _ _ _ _ _ _ _ _ _ _ _ _ _ _) as [[rep q] s]. cbn [snd] in X.
  injection E as <-. cbn [w_store] in F. destruct X as [-> | (y & (Ei & _) & Hy & ->)]; [congruence|].
  unfold find_import in F, N. cbn [imports] in F. rewrite find_app, N in F. cbn in F.
  rewrite Ei, String.eqb_refl in F. injection F as <-. by apply Hy.
Qed.
End Invariant.

(** ** The signed address *)

Lemma read_one max_bytes body :
  0 < Z.of_nat (String.length body) <= max_bytes -> read_stream max_bytes [Some body] "" = Ok body.
Proof.
  intros H. cbn [read_stream String.length]. destruct (String.eqb_spec body "") as [->|_]; [cbn in H; lia|].
  destruct (Z.ltb_spec max_bytes (Z.of_nat 0 + Z.of_nat (String.length body))); [lia|done].
Qed.

(** The address that a request hands to the charger works: however uploads, the
    consumer, the sweep and the tasks interleave, while the import waits for its
    archive and the token has not expired, a post to it is stored as the import's
    archive. *)
Theorem signed_address_accepted sha256_hex h max_raw parser_for es es' w w1 w' base id qid clock db_now ttl
    st text session charger conn vendor t1 t2 r later now body name :
  run_events sha256_hex (Some h) max_raw parser_for es initial_world = Some w ->
  exec sha256_hex (Some h) max_raw parser_for
    (Fetch base id qid clock db_now ttl st text session charger conn vendor t1 t2) w = Some w1 ->
  is_Some (find_import id (w_store w1)) ->
  run_events sha256_hex (Some h) max_raw parser_for es' w1 = Some w' ->
  find_import id (w_store w') = Some r -> is_open (li_status r) = true ->
  uuid_digits id -> (forall body, "."%char ∉ String.list_ascii_of_string (h body)) ->
  later < clock / usec + ttl -> 0 < Z.of_nat (String.length body) <= get_max_upload_bytes max_raw ->
  exists u s' r',
    upload_charger_log_endpoint sha256_hex (Some h) max_raw later now (mint_token h id (clock / usec) ttl)
      [Some body] name (w_store w') = Ok (u, s')
    /\ up_import_id u = id /\ find_import id s' = Some r' /\ li_status r' = received /\ raw_payload r' = Some body.
Proof.
  intros R E [r1 F1] R' F O Hu Hd Hl Hb.
  pose proof (log_run_inv _ _ _ _ _ _ _ (initial_inv sha256_hex parser_for) R) as I.
  pose proof (fetched_hash _ _ _ _ _ _ _ _ _ _ _ _ _ _ _ _ _ _ _ _ h r1 eq_refl E F1) as Hh.
  destruct (follows_run _ _ _ _ _ _ _ _ _ (exec_inv _ _ _ _ _ _ _ I E) R' F1) as (r' & F' & _ & _ & _ & _ & Ht & _).
  assert (r' = r) as -> by congruence. rewrite Hh in Ht.
  unfold upload_charger_log_endpoint, verify_upload_token. rewrite token_roundtrip by done.
  destruct (Z.leb_spec (clock / usec + ttl) later) as [|_]; [lia|]. cbn [rbind].
  rewrite read_one by done. cbn [rbind]. unfold receive_upload.
  destruct (Z.ltb_spec (get_max_upload_bytes max_raw) (Z.of_nat (String.length body))); [lia|].
  destruct (Z.eqb_spec (Z.of_nat (String.length body)) 0); [lia|]. cbn [rbind tok_import_id tok_raw].
  rewrite F, Ht, String.eqb_refl. cbn [negb].
  assert (forall f, li_status (receive_row sha256_hex now body f r) = received) as St by done.
  destruct (li_status r); try done; eexists _, _, _; (split; [reflexivity|]); (split; [done|]);
    rewrite find_update, F by done; cbn [fmap option_fmap option_map]; rewrite String.eqb_refl; done.
Qed.

(** ** Examples *)

Definition ex_sha (s : string) : string := "sha256:" +:+ s.
Definition ex_key (body : string) : string := "c0ffee".

(** One reading, then two. *)
Definition ex_entry (t : Z) (kwh : Q) : ChargerLogEntry :=
  {| le_time := t; le_transaction_id := Some 42; le_connector_id := None; le_soc := None;
     le_charging_kw := None; le_energy_kwh := Some (Fin kwh); le_raw_fields := [] |}.
Definition ex_parser (body : string) : parse_outcome :=
  if String.eqb body "log" then parsed_entries [ex_entry 100 1000; ex_entry 200 1007]
  else parse_error "not a log".
Definition ex_parsers (vendor : option string) : option (string -> parse_outcome) :=
  if bool_decide (vendor = Some "ABB"%string) then Some ex_parser else None.

Definition ex_fetch : event :=
  Fetch (Some "https://api"%string) ex_uuid 1 0 0 3600 "CP1" "s1" "s1" "ch1" (Some 1) (Some "ABB"%string) PNone PNone.
Definition ex_token : string := mint_token ex_key ex_uuid 0 3600.
Definition ex_upload : event := Upload 10 10 ex_token [Some "lo"%string; Some "g"%string] None.

Definition ex_session_row : session_row :=
  {| Billing.session_id := "s1"; site_id := Some "depot"%string; vehicle_id := None;
     station_id := Some "CP1"%string; Billing.connector_id := Some 1; transaction_id := Some 42;
     start_time := 0; end_time := Some (hour_us); energy_delivered_kwh := Some 7%Q; cost_total := None;
     cost_total_source := None; bidding_zone := None |}.
Definition ex_recorded : recorded :=
  {| rec_sessions := [ex_session_row];
     rec_telemetry := [{| tm_time := 0; tm_vehicle_id := None; tm_station_id := Some "CP1"%string;
                          tm_connector_id := Some 1; tm_transaction_id := Some 42;
                          tm_charging_kw := Some 7%Q |}] |}.
Definition ex_turn : event := Task 0 20 ex_recorded Answered.

#[local] Notation ex_run := (run_events ex_sha (Some ex_key) None ex_parsers).

Definition world_or (w : option world) : world := default initial_world w.
Definition ex_uploaded : world := world_or (ex_run [ex_fetch; ex_upload] initial_world).
Definition ex_done : world := world_or (ex_run (repeat ex_turn 7) ex_uploaded).
Definition import_or (r : option log_import) (d : log_import) : log_import := default d r.

Lemma ex_uploaded_run : ex_run [ex_fetch; ex_upload] initial_world = Some ex_uploaded.
Proof. vm_compute. reflexivity. Qed.

Lemma ex_done_run : ex_run (repeat ex_turn 7) ex_uploaded = Some ex_done.
Proof. vm_compute. reflexivity. Qed.

Lemma log_run_app sha h m p es es' w :
  run_events sha h m p (es ++ es') w
  = match run_events sha h m p es w with Some w' => run_events sha h m p es' w' | None => None end.
Proof. revert w. induction es as [|e es IH]; intros w; cbn; [done|]. by destruct (exec _ _ _ _ e w). Qed.

Lemma import_life_cycle_witness :
  exists r r', find_import ex_uuid (w_store ex_uploaded) = Some r /\ li_status r = received
    /\ find_import ex_uuid (w_store ex_done) = Some r' /\ rtc edge received (li_status r')
    /\ raw_payload r' = Some "log"%string.
Proof.
  destruct (find_import ex_uuid (w_store ex_uploaded)) as [r|] eqn:F; [|discriminate F].
  destruct (import_life_cycle ex_sha (Some ex_key) None ex_parsers _ _ _ _ ex_uuid r ex_uploaded_run ex_done_run F)
    as (r' & F' & L & _ & P).
  exists r, r'. vm_compute in F. injection F as <-. split; [done|]. split; [done|]. split; [done|]. split; [exact L|].
  by destruct P as [P _].
Defined.

Lemma stored_log_is_the_archive_witness :
  exists r, find_import ex_uuid (w_store ex_done) = Some r /\ li_status r = import_reconciled
    /\ entries_parsed ex_parsers (w_store ex_done) r /\ has_result (w_store ex_done) r.
Proof.
  destruct (find_import ex_uuid (w_store ex_done)) as [r|] eqn:F; [|discriminate F].
  assert (ex_run ([ex_fetch; ex_upload] ++ repeat ex_turn 7) initial_world = Some ex_done) as R
    by (rewrite log_run_app, ex_uploaded_run; exact ex_done_run).
  destruct (stored_log_is_the_archive ex_sha (Some ex_key) None ex_parsers _ _ ex_uuid r R F) as (_ & _ & P & Q).
  exists r. assert (li_status r = import_reconciled) as S by (vm_compute in F; by injection F as <-).
  split; [done|]. split; [done|]. split; [apply P; by right|by apply Q].
Defined.

Lemma upload_gets_verdict_witness :
  exists s' r' res,
    run_post_upload_pipeline ex_parsers 20 ex_recorded ex_uuid (w_store ex_uploaded) = (s', None)
    /\ find_import ex_uuid s' = Some r' /\ li_status r' = import_reconciled
    /\ dget (reconciliations s') ("s1"%string, ex_uuid) = Some {| computed_at := 20; rr_result := res |}
    /\ rc_source res = reconciled.
Proof.
  destruct (find_import ex_uuid (w_store ex_uploaded)) as [r|] eqn:F; [|discriminate F].
  assert (li_status r = received /\ raw_payload r = Some "log"%string /\ li_session_id r = Some "s1"%string
          /\ ex_parsers (li_vendor r) = Some ex_parser) as (H1 & H2 & H3 & H4)
    by (vm_compute in F; injection F as <-; done).
  destruct (upload_gets_verdict ex_parsers 20 ex_recorded ex_uuid _ r _ _ _ F H1 H2 H3 H4)
    as (s' & r' & res & A & B & C & D & E & _).
  exists s', r', res. do 4 (split; [done|]). rewrite D. vm_compute in F. injection F as <-. vm_compute. reflexivity.
Defined.

Lemma lost_task_strands_import_witness :
  exists r w', find_import ex_uuid (w_store ex_uploaded) = Some r /\ li_status r = received
    /\ ex_run [Restart; ex_upload; Sweep (100 * hour_us) 3600] ex_uploaded = Some w'
    /\ find_import ex_uuid (w_store w') = Some r.
Proof.
  destruct (find_import ex_uuid (w_store ex_uploaded)) as [r|] eqn:F; [|discriminate F].
  set (w1 := {| w_store := w_store ex_uploaded; w_queue := w_queue ex_uploaded; w_tasks := [] |}).
  assert (ex_run ([ex_fetch; ex_upload] ++ [Restart]) initial_world = Some w1) as R1
    by (rewrite log_run_app, ex_uploaded_run; reflexivity).
  destruct (ex_run [ex_upload; Sweep (100 * hour_us) 3600] w1) as [w'|] eqn:R; [|vm_compute in R; discriminate R].
  assert (li_status r = received) as S by (vm_compute in F; by injection F as <-).
  exists r, w'. split; [done|]. split; [done|]. split; [exact R|].
  apply (lost_task_strands_import ex_sha (Some ex_key) None ex_parsers _ [ex_upload; Sweep (100 * hour_us) 3600] w1 w' ex_uuid r R1 F); [by rewrite S| |exact R].
  apply not_elem_of_nil.
Defined.

Lemma signed_address_accepted_witness :
  exists w1 u s' r',
    exec ex_sha (Some ex_key) None ex_parsers ex_fetch initial_world = Some w1
    /\ upload_charger_log_endpoint ex_sha (Some ex_key) None 3599 10 ex_token [Some "log"%string] None (w_store w1) = Ok (u, s')
    /\ up_import_id u = ex_uuid /\ find_import ex_uuid s' = Some r' /\ raw_payload r' = Some "log"%string.
Proof.
  destruct (exec ex_sha (Some ex_key) None ex_parsers ex_fetch initial_world) as [w1|] eqn:E; [|discriminate E].
  destruct (find_import ex_uuid (w_store w1)) as [r|] eqn:F; [|vm_compute in E; injection E as <-; discriminate F].
  destruct (signed_address_accepted ex_sha ex_key None ex_parsers [] [] initial_world w1 w1
              (Some "https://api"%string) ex_uuid 1 0 0 3600 "CP1" "s1" "s1" "ch1" (Some 1) (Some "ABB"%string) PNone PNone
              r 3599 10 "log" None) as (u & s' & r' & A & B & C & _ & D).
  - reflexivity.
  - exact E.
  - by eexists.
  - reflexivity.
  - exact F.
  - vm_compute in E. injection E as <-. vm_compute in F. by injection F as <-.
  - exact ex_uuid_digits.
  - exact ex_sig_no_dot.
  - reflexivity.
  - vm_compute. split; congruence.
  - exists w1, u, s', r'. by split.
Defined.

Lemma comparison_shows_the_archive_witness :
  exists sr r entries res,
    get_session_log_comparison false "depot" "s1" [] ex_recorded (w_store ex_done) = compared sr r entries res
    /\ li_status r = import_reconciled /\ is_Some res.
Proof.
  assert (ex_run ([ex_fetch; ex_upload] ++ repeat ex_turn 7) initial_world = Some ex_done) as R
    by (rewrite log_run_app, ex_uploaded_run; exact ex_done_run).
  destruct (get_session_log_comparison false "depot" "s1" [] ex_recorded (w_store ex_done)) as [| |sr r entries res] eqn:E;
    [vm_compute in E; discriminate E..|].
  exists sr, r, entries, res. split; [done|].
  assert (li_status r = import_reconciled) as S by (vm_compute in E; by injection E as <- <- <- <-).
  split; [done|].
  destruct (comparison_shows_the_archive ex_sha (Some ex_key) None ex_parsers _ ex_done false "depot" "s1" [] ex_recorded
              sr r entries res R E) as (_ & _ & _ & _ & H). by apply H.
Defined.
