(* ===== verification/Cipher.v ===== *)
(** * Encryption of stored credentials ([src/security/credential_cipher.py])

    The reading of the key setting, one key or a list of [version:key] pairs, and
    the encryption and decryption of a connection's credentials with the key of the
    version recorded beside them. Fernet is a third-party cipher and an interface
    here; a key is its text. *)

From S2P Require Import Prelude PyText.
From Stdlib Require Import ZArith Ascii.
From stdpp Require Import base list strings.

#[local] Open Scope Z_scope.

(** The cipher: which texts are keys, and the two directions. The encryption takes the
    random part of a token as an argument; a decryption without a result is [InvalidToken]. *)
Class Fernet := {
  fernet_key : string -> bool;
  fernet_encrypt : string -> string -> string -> string;
  fernet_decrypt : string -> string -> option string
}.

Class FernetLaws `{Fernet} : Prop :=
  fernet_roundtrip : forall key nonce raw,
    fernet_key key = true -> fernet_decrypt key (fernet_encrypt key nonce raw) = Some raw.

(** [json.dumps] and [json.loads] of a dictionary; the latter raises [ValueError]. *)
Class Json := {
  json_dumps : dict string pyobj -> string;
  json_loads : string -> option (dict string pyobj)
}.

Inductive CredentialCipherError :=
| key_not_set
| key_empty
| non_integer_version (version : string)
| version_required
| invalid_key (version : Z)
| no_key_for_version (version : Z)
| wrong_or_rotated_key.

Definition CURRENT_ENCRYPTION_VERSION : Z := 1.

(** [s.partition(sep)], without a result when the separator does not occur. *)
Fixpoint str_partition (sep : ascii) (s : string) : option (string * string) :=
  match s with
  | EmptyString => None
  | String c s' =>
      if Ascii.eqb c sep then Some (""%string, s')
      else match str_partition sep s' with
           | Some (a, b) => Some (String c a, b)
           | None => None
           end
  end.

(** One segment of the setting; [several] when there is more than one. *)
Definition parse_segment (several : bool) (keys : dict Z string) (seg : string)
  : result CredentialCipherError (dict Z string) :=
  match str_partition ":"%char seg with
  | Some (ver_str, key_str) =>
      match py_int ver_str with
      | None => Err (non_integer_version ver_str)
      | Some version => Ok (dset version (strip key_str) keys)
      end
  | None => if several then Err version_required else Ok (dset CURRENT_ENCRYPTION_VERSION seg keys)
  end.

Definition _parse_key_spec (raw : string) : result CredentialCipherError (dict Z string) :=
  let segments := List.filter (fun s => negb (String.eqb s "")) (map strip (split_on ","%char raw)) in
  match segments with
  | [] => Err key_empty
  | _ => rfold (parse_segment (1 <? Z.of_nat (length segments))) [] segments
  end.

Section Cipher.
Context `{Fernet} `{Json}.

(** The keys by version, each of them valid, and the highest version. *)
Definition _load_ciphers (env : option string) : result CredentialCipherError (dict Z string * Z) :=
  match env with
  | None | Some EmptyString => Err key_not_set
  | Some raw =>
      let? keys := _parse_key_spec raw in
      let? _ := rfor (fun '(version, key) => raise_if (negb (fernet_key key)) (invalid_key version)) keys in
      Ok (keys, foldr Z.max (default 0 (head (dkeys keys))) (dkeys keys))
  end.

Definition is_configured (env : option string) : bool := is_ok (_load_ciphers env).

Definition encrypt_credentials (env : option string) (nonce : string) (plaintext : dict string pyobj)
  : result CredentialCipherError (string * Z) :=
  let? loaded := _load_ciphers env in
  let '(ciphers, version) := loaded in
  match dget ciphers version with
  | Some key => Ok (fernet_encrypt key nonce (json_dumps plaintext), version)
  | None => Err (no_key_for_version version)
  end.

(** [inl] is a [CredentialCipherError]; [inr None] an exception of [json.loads]. *)
Definition decrypt_credentials (env : option string) (payload : string) (version : Z)
  : CredentialCipherError + option (dict string pyobj) :=
  match _load_ciphers env with
  | Err e => inl e
  | Ok (ciphers, _) =>
      match dget ciphers version with
      | None => inl (no_key_for_version version)
      | Some key =>
          match fernet_decrypt key payload with
          | None => inl wrong_or_rotated_key
          | Some raw => inr (json_loads raw)
          end
      end
  end.
End Cipher.
