(* ===== verification/CipherFacts.v ===== *)
(** * Encryption of stored credentials: properties

    Credentials stay readable as long as the key of their version stays in the
    setting, whichever keys are added. *)

From S2P Require Import Prelude PyText Cipher.
From Stdlib Require Import ZArith Ascii Lia.
From stdpp Require Import base list strings sets.

#[local] Open Scope Z_scope.

(** ** Printing the setting *)

(** The characters of a key: no comma, no blank. *)
Definition key_char (c : ascii) : bool := negb (is_space c) && negb (Ascii.eqb c ","%char).
Definition clean_key (key : string) : Prop := forall c, c ∈ String.list_ascii_of_string key -> key_char c = true.

Lemma clean_key_check key : forallb key_char (String.list_ascii_of_string key) = true -> clean_key key.
Proof. intros H c Hc. rewrite forallb_forall in H. by apply H, list_elem_of_In. Qed.

Definition render_entry (e : Z * string) : string := py_str_int (fst e) +:+ ":" +:+ snd e.
Fixpoint render_spec (es : list (Z * string)) : string :=
  match es with
  | [] => ""
  | [e] => render_entry e
  | e :: es' => render_entry e +:+ "," +:+ render_spec es'
  end.

Lemma list_ascii_append a b :
  String.list_ascii_of_string (a +:+ b) = String.list_ascii_of_string a ++ String.list_ascii_of_string b.
Proof. induction a as [|c a IH]; cbn; [done|by rewrite <- IH]. Qed.

Lemma int_char_key c : int_char c = true -> key_char c = true /\ Ascii.eqb c ":"%char = false.
Proof. destruct c as [[] [] [] [] [] [] [] []]; cbn; done. Qed.

Lemma render_entry_chars e c :
  clean_key (snd e) -> c ∈ String.list_ascii_of_string (render_entry e) -> key_char c = true.
Proof.
  intros H. unfold render_entry. rewrite !list_ascii_append, !elem_of_app. intros [Hc|[Hc|Hc]]; [| |by apply H].
  - by apply int_chars, int_char_key in Hc as [? _].
  - apply list_elem_of_singleton in Hc as ->. done.
Qed.

Lemma clean_strip s : clean_key s -> strip s = s.
Proof. intros H. apply strip_none. intros c Hc. specialize (H c Hc). unfold key_char in H. by destruct (is_space c). Qed.

Lemma clean_no_comma s : clean_key s -> ","%char ∉ String.list_ascii_of_string s.
Proof. intros H Hc. by specialize (H _ Hc). Qed.

Lemma partition_append sep a b :
  (forall c, c ∈ String.list_ascii_of_string a -> Ascii.eqb c sep = false) ->
  str_partition sep (a +:+ String sep b) = Some (a, b).
Proof.
  induction a as [|c a IH]; intros H.
  - change (str_partition sep (String sep b) = Some (""%string, b)). cbn. by rewrite Ascii.eqb_refl.
  - change (str_partition sep (String c (a +:+ String sep b)) = Some (String c a, b)). cbn. rewrite (H c) by left. rewrite IH; [done|]. intros d Hd. apply H. by right.
Qed.

Lemma partition_none sep a : sep ∉ String.list_ascii_of_string a -> str_partition sep a = None.
Proof.
  induction a as [|c a IH]; intros H; cbn; [done|]. cbn in H. apply not_elem_of_cons in H as [Hc H].
  destruct (Ascii.eqb_spec c sep) as [->|_]; [done|]. by rewrite IH.
Qed.

Lemma segments_of_render es :
  Forall (fun e => clean_key (snd e)) es -> es <> [] ->
  map strip (split_on ","%char (render_spec es)) = map render_entry es.
Proof.
  induction es as [|e es IH]; intros HF Hne; [done|]. apply Forall_cons in HF as [He HF].
  assert (clean_key (render_entry e)) as Hr by (intros c; by apply render_entry_chars).
  destruct es as [|e' es].
  - cbn [render_spec]. rewrite split_on_none by by apply clean_no_comma. cbn. by rewrite clean_strip.
  - change (render_spec (e :: e' :: es)) with (render_entry e +:+ "," +:+ render_spec (e' :: es)).
    change ("," +:+ render_spec (e' :: es)) with (String ","%char (render_spec (e' :: es))).
    rewrite split_on_app by by apply clean_no_comma.
    rewrite map_cons, IH by done. by rewrite clean_strip.
Qed.

Lemma render_entry_nonempty e : render_entry e <> "".
Proof.
  unfold render_entry. intros H. apply (f_equal String.length) in H.
  rewrite <- list_ascii_length, !list_ascii_append, !length_app in H. cbn in H. lia.
Qed.

Lemma parse_render_entry several keys e :
  clean_key (snd e) -> parse_segment several keys (render_entry e) = Ok (dset (fst e) (snd e) keys).
Proof.
  intros H. unfold parse_segment, render_entry.
  change (":" +:+ snd e) with (String ":"%char (snd e)).
  rewrite partition_append by (intros c Hc; by apply int_chars, int_char_key in Hc as [_ ?]).
  by rewrite int_roundtrip, clean_strip.
Qed.

Lemma rfold_render several es keys :
  Forall (fun e => clean_key (snd e)) es ->
  rfold (parse_segment several) keys (map render_entry es)
  = Ok (fold_left (fun d e => dset (fst e) (snd e) d) es keys).
Proof.
  revert keys. induction es as [|e es IH]; intros keys H; [done|]. apply Forall_cons in H as [He H].
  cbn [map rfold]. rewrite parse_render_entry by done. cbn. by apply IH.
Qed.

Lemma filter_every {A} (f : A -> bool) l : Forall (fun x => f x = true) l -> List.filter f l = l.
Proof. induction 1 as [|x l Hx _ IH]; cbn; [done|]. by rewrite Hx, IH. Qed.

(** The printed setting is read as its entries, the last of a version winning. *)
Lemma parse_render es :
  Forall (fun e => clean_key (snd e)) es -> es <> [] ->
  _parse_key_spec (render_spec es) = Ok (fold_left (fun d e => dset (fst e) (snd e) d) es []).
Proof.
  intros HF Hne. unfold _parse_key_spec. rewrite segments_of_render by done. rewrite filter_every.
  - destruct es as [|e es]; [done|]. change (map render_entry (e :: es)) with (render_entry e :: map render_entry es) at 1.
    cbn iota. by apply rfold_render.
  - apply Forall_map, Forall_forall. intros e _. cbn. by destruct (String.eqb_spec (render_entry e) "") as [E%render_entry_nonempty|].
Qed.

(** ** Rotation *)

Lemma fold_dset_distinct {V} (es d : dict Z V) :
  NoDup (dkeys (d ++ es)) -> fold_left (fun d e => dset (fst e) (snd e) d) es d = d ++ es.
Proof.
  revert d. induction es as [|[k v] es IH]; intros d Hd; cbn; [by rewrite app_nil_r|].
  rewrite dset_fresh; [rewrite IH; [by rewrite <- app_assoc|by rewrite <- app_assoc]|].
  apply dget_None_keys. unfold dkeys in *. rewrite map_app in Hd. apply NoDup_app in Hd as (_ & Hd & _).
  intros Hk. apply (Hd k Hk). cbn. left.
Qed.

Lemma max_upper (l : list Z) d x : x ∈ l -> x <= foldr Z.max d l.
Proof. induction l as [|y l IH]; [by intros ?%not_elem_of_nil|]. cbn. intros [->|H]%elem_of_cons; [lia|]. specialize (IH H). lia. Qed.

Lemma max_in (l : list Z) d : foldr Z.max d l ∈ d :: l.
Proof.
  induction l as [|y l IH]; cbn; [left|].
  destruct (Z.max_spec y (foldr Z.max d l)) as [[_ ->]|[_ ->]]; [|right; left].
  apply elem_of_cons in IH as [->|IH]; [left|by do 2 right].
Qed.

(** A setting for the given keys: the pairs, or the key of version 1 on its own. *)
Definition setting_of (es : list (Z * string)) (raw : string) : Prop :=
  raw = render_spec es \/ (es = [(CURRENT_ENCRYPTION_VERSION, raw)] /\ ":"%char ∉ String.list_ascii_of_string raw).

Section Rotation.
Context `{Fernet} `{Json}.

Record usable (es : list (Z * string)) : Prop := {
  u_nonempty : es <> [];
  u_distinct : NoDup (dkeys es);
  u_clean : Forall (fun e => clean_key (snd e) /\ snd e <> ""%string) es;
  u_valid : Forall (fun e => fernet_key (snd e) = true) es
}.

Lemma setting_parses es raw :
  usable es -> setting_of es raw -> raw <> ""%string /\ _parse_key_spec raw = Ok es.
Proof.
  intros [Hne Hd Hc _] [->|[-> Hcolon]].
  - assert (Forall (fun e => clean_key (snd e)) es) as Hc' by (eapply Forall_impl; [done|naive_solver]).
    split; [|rewrite parse_render by done; by rewrite fold_dset_distinct].
    destruct es as [|e es]; [done|]. intros E. apply (render_entry_nonempty e).
    destruct es; [done|]. cbn [render_spec] in E. destruct (render_entry e); [done|discriminate].
  - apply Forall_singleton in Hc as [Hc Hn]. cbn in Hc, Hn. split; [done|].
    unfold _parse_key_spec. rewrite split_on_none by by apply clean_no_comma.
    cbn [map]. rewrite clean_strip by done. cbn [List.filter].
    destruct (String.eqb_spec raw ""); [done|]. cbn. unfold parse_segment. by rewrite partition_none.
Qed.

Lemma setting_loads es raw :
  usable es -> setting_of es raw ->
  exists v key, _load_ciphers (Some raw) = Ok (es, v) /\ (v, key) ∈ es /\ dget es v = Some key
    /\ forall v', v' ∈ dkeys es -> v' <= v.
Proof.
  intros Hu Hs. destruct (setting_parses es raw Hu Hs) as [Hraw Hparse]. destruct Hu as [Hne Hd _ Hok].
  assert (rfor (fun '(version, key) => raise_if (negb (fernet_key key)) (invalid_key version)) es = Ok tt) as Hr.
  { clear - Hok. induction Hok as [|[v k] es Hk _ IH]; cbn; [done|]. cbn in Hk. by rewrite Hk. }
  set (v := foldr Z.max (default 0 (head (dkeys es))) (dkeys es)).
  assert (v ∈ dkeys es) as Hin.
  { pose proof (max_in (dkeys es) (default 0 (head (dkeys es)))) as M. fold v in M.
    apply elem_of_cons in M as [M|M]; [|done]. rewrite M. clear - Hne. destruct es as [|[k x] es]; [done|left]. }
  apply list_elem_of_fmap in Hin as ([v' key] & E & Hin). cbn in E.
  exists v, key. rewrite <- E in Hin.
  repeat split; [|done|by apply dget_in_wf|intros; by apply max_upper].
  unfold _load_ciphers. destruct raw; [done|]. rewrite Hparse. cbn. by rewrite Hr.
Qed.

(** C39: Credentials encrypted under a key setting are read back under every later
    setting that keeps its entries, with the version recorded beside the token, which is
    the highest of the setting they were written under; a single key is version 1. *)
Theorem credentials_survive_rotation `{!FernetLaws} es raw es' raw' nonce plaintext :
  usable es -> setting_of es raw -> usable es' -> setting_of es' raw' -> es ⊆ es' ->
  json_loads (json_dumps plaintext) = Some plaintext ->
  exists token version,
    encrypt_credentials (Some raw) nonce plaintext = Ok (token, version)
    /\ (forall v, v ∈ dkeys es -> v <= version) /\ version ∈ dkeys es
    /\ decrypt_credentials (Some raw') token version = inr (Some plaintext).
Proof.
  intros Hu Hs Hu' Hs' Hsub Hj.
  destruct (setting_loads es raw Hu Hs) as (v & key & L & Hin & G & M).
  destruct (setting_loads es' raw' Hu' Hs') as (v' & key' & L' & _ & _ & _).
  exists (fernet_encrypt key nonce (json_dumps plaintext)), v. repeat split; [|done| |].
  - unfold encrypt_credentials. rewrite L. cbn. by rewrite G.
  - by apply (list_elem_of_fmap_2 fst) in Hin.
  - unfold decrypt_credentials. rewrite L'. rewrite (dget_in_wf es' v key) by (apply Hu' || by apply Hsub).
    rewrite fernet_roundtrip; [by rewrite Hj|]. destruct Hu as [_ _ _ V].
    by apply (proj1 (Forall_forall _ _) V (v, key)).
Qed.
End Rotation.

(** ** A concrete cipher *)

Definition toy_fernet : Fernet :=
  {| fernet_key := fun k => (String.length k =? 4)%nat;
     fernet_encrypt := fun k _ raw => k +:+ raw;
     fernet_decrypt := fun k token =>
       if String.prefix k token then Some (String.substring 4 (String.length token) token) else None |}.

Definition toy_payload : dict string pyobj := [("provider_key"%string, PStr "kempower")].
Definition toy_json : Json :=
  {| json_dumps := fun d => match d with (k, PStr v) :: _ => k +:+ "=" +:+ v | _ => "" end;
     json_loads := fun s => match str_partition "="%char s with Some (k, v) => Some [(k, PStr v)] | None => None end |}.

Lemma substring_drop n s m : (String.length s <= m)%nat -> String.substring n m s = String.string_of_list_ascii (drop n (String.list_ascii_of_string s)).
Proof.
  intros Hm. rewrite <- (string_ascii_id (String.substring n m s)), list_ascii_substring. f_equal.
  apply take_ge. rewrite length_drop, list_ascii_length. lia.
Qed.

Lemma toy_laws : @FernetLaws toy_fernet.
Proof.
  intros k n raw Hk. cbn in *. apply Nat.eqb_eq in Hk. rewrite prefix_append. f_equal.
  rewrite substring_drop by lia. rewrite list_ascii_append, drop_app_length', string_ascii_id; [done|].
  by rewrite list_ascii_length.
Qed.

Lemma credentials_survive_rotation_witness :
  exists token version,
    @encrypt_credentials toy_fernet toy_json (Some "aaaa"%string) "n" toy_payload = Ok (token, version)
    /\ (forall v, v ∈ dkeys [(1, "aaaa"%string)] -> v <= version) /\ version ∈ dkeys [(1, "aaaa"%string)]
    /\ @decrypt_credentials toy_fernet toy_json (Some "1:aaaa,2:bbbb"%string) token version = inr (Some toy_payload).
Proof.
  apply (@credentials_survive_rotation toy_fernet toy_json toy_laws
           [(1, "aaaa"%string)] "aaaa" [(1, "aaaa"%string); (2, "bbbb"%string)] "1:aaaa,2:bbbb" "n" toy_payload).
  - split; [done|apply NoDup_singleton| |].
    + apply Forall_singleton. split; [by apply clean_key_check|done].
    + by apply Forall_singleton.
  - right. split; [reflexivity|]. cbn. set_solver.
  - split; [done|apply NoDup_cons; split; [cbn; set_solver|apply NoDup_singleton]| |].
    + apply Forall_cons; split; [split; [by apply clean_key_check|done]|].
      apply Forall_singleton; split; [by apply clean_key_check|done].
    + by apply Forall_cons; split; [|apply Forall_singleton].
  - left. reflexivity.
  - intros x Hx. apply list_elem_of_singleton in Hx as ->. left.
  - reflexivity.
Defined.
