(* ===== verification/Ingest.v ===== *)
(** * Data-source connections and ingestion jobs ([src/core/data_sources], [src/api/data_sources])

    The two tables with their statements and unique indexes, and everything that
    runs against them: the worker of a job, the scheduler's tick, the sweep that
    takes up jobs a restart left behind, and the endpoints that create, change,
    disable and synchronise a connection. Each of them is a process split at its
    awaits, so that any two interleave at any await; a statement can answer, be
    refused, or take effect and be reported as failed, and a process can die. What
    a provider of data does is an oracle, constrained by the interface it is called
    through. *)

From S2P Require Import Prelude Models PyText Cipher.
From Stdlib Require Import ZArith Ascii.
From stdpp Require Import base list strings.

#[local] Open Scope Z_scope.

(** ** Data *)

Inductive connection_status := active | paused | errored | disabled.
(** How a run ends, and the status of a job. *)
Inductive IngestionStatus := succeeded | partial | failed.
Inductive job_status := pending | running | ended (s : IngestionStatus).
Inductive job_trigger := manual | scheduled | recovery.

#[export] Instance connection_status_eq_dec : EqDecision connection_status.
Proof. solve_decision. Defined.
#[export] Instance ingestion_status_eq_dec : EqDecision IngestionStatus.
Proof. solve_decision. Defined.
#[export] Instance job_status_eq_dec : EqDecision job_status.
Proof. solve_decision. Defined.

(** [status IN ('pending', 'running')]. *)
Definition is_active (s : job_status) : bool := match s with pending | running => true | _ => false end.

(** A row of [data_source_connections]. *)
Record connection := {
  c_id : string;
  c_organization_id : string;
  c_site_id : string;
  c_provider_key : string;
  c_display_name : option string;
  c_status : connection_status;
  c_config : dict string pyobj;
  c_encrypted_credentials : string;
  c_encryption_version : Z;
  c_sync_interval_minutes : Z;
  c_scheduled_sync_enabled : bool;
  c_next_sync_at : option Z;
  c_last_run_at : option Z;
  c_last_status : option IngestionStatus;
  c_created_by : option string;
  c_created_at : Z;
  c_updated_at : Z
}.

(** A row of [data_source_ingestion_jobs]. *)
Record job := {
  j_id : string;
  j_connection_id : string;
  j_organization_id : string;
  j_site_id : string;
  j_provider_key : string;
  j_trigger : job_trigger;
  j_status : job_status;
  j_progress : dict string pyobj;
  j_error_detail : option string;
  j_import_batch_id : option string;
  j_triggered_by : option string;
  j_created_at : Z;
  j_started_at : option Z;
  j_finished_at : option Z;
  j_heartbeat_at : option Z
}.

(** What is kept of a row of the audit log. *)
Record audit_row := {
  au_action : string;
  au_actor : option string;
  au_organization_id : string;
  au_depot_id : string;
  au_target_id : string;
  au_metadata : dict string pyobj
}.

Record store := {
  connections : list connection;
  jobs : list job;
  audits : list audit_row
}.

(** [progress || fields]. *)
Definition jsonb_merge (d fields : dict string pyobj) : dict string pyobj :=
  fold_left (fun d kv => dset (fst kv) (snd kv) d) fields d.

(** ** Statements on connections *)

Definition find_connection (id : string) (s : store) : option connection :=
  List.find (fun c => String.eqb (c_id c) id) (connections s).

Definition map_connections (f : connection -> connection) (s : store) : store :=
  {| connections := map f (connections s); jobs := jobs s; audits := audits s |}.

Definition map_jobs (f : job -> job) (s : store) : store :=
  {| connections := connections s; jobs := map f (jobs s); audits := audits s |}.

(** How a statement fails. *)
Inductive db_error := UniqueViolation | OtherError.

(** [uq_dsc_site_provider_active]: another row that is not disabled holds the depot's
    slot for the provider. *)
Definition slot_taken (id site provider : string) (s : store) : bool :=
  existsb (fun c => negb (String.eqb (c_id c) id) && String.eqb (c_site_id c) site
                    && String.eqb (c_provider_key c) provider
                    && negb (bool_decide (c_status c = disabled))) (connections s).

(** [CHECK (sync_interval_minutes >= 15)] of a 32-bit column. *)
Definition interval_ok (minutes : Z) : bool := (15 <=? minutes) && (minutes <? 2 ^ 31).

Definition minutes_after (now minutes : Z) : Z := now + minutes * 60 * usec.

Definition insert_connection (now : Z) (id organization site provider : string)
    (display_name : option string) (config : dict string pyobj) (token : string) (version interval : Z)
    (scheduled_sync : bool) (next_sync : option Z) (created_by : option string) (s : store)
  : result db_error (connection * store) :=
  if negb (interval_ok interval) then Err OtherError
  else if slot_taken id site provider s then Err UniqueViolation
  else
    let c := {| c_id := id; c_organization_id := organization; c_site_id := site;
                c_provider_key := provider; c_display_name := display_name; c_status := active;
                c_config := config; c_encrypted_credentials := token; c_encryption_version := version;
                c_sync_interval_minutes := interval; c_scheduled_sync_enabled := scheduled_sync;
                c_next_sync_at := next_sync; c_last_run_at := None; c_last_status := None;
                c_created_by := created_by; c_created_at := now; c_updated_at := now |} in
    Ok (c, {| connections := connections s ++ [c]; jobs := jobs s; audits := audits s |}).

Definition get_connection (id : string) (organization : option string) (s : store) : option connection :=
  match find_connection id s with
  | Some c =>
      match organization with
      | Some org => if String.eqb (c_organization_id c) org then Some c else None
      | None => Some c
      end
  | None => None
  end.

Definition list_connections (organization : string) (site : option string) (s : store) : list connection :=
  sort_by (fun a b => c_created_at b <=? c_created_at a)
    (List.filter (fun c => String.eqb (c_organization_id c) organization
                           && match site with Some d => String.eqb (c_site_id c) d | None => true end
                           && negb (bool_decide (c_status c = disabled))) (connections s)).

(** The columns a patch may set. *)
Record updates := {
  u_display_name : option string;
  u_scheduled_sync_enabled : option bool;
  u_sync_interval_minutes : option Z;
  u_status : option connection_status
}.

Definition no_updates (u : updates) : bool :=
  match u with {| u_display_name := None; u_scheduled_sync_enabled := None;
                  u_sync_interval_minutes := None; u_status := None |} => true | _ => false end.

Definition patch_row (now : Z) (u : updates) (credentials : option (string * Z))
    (config : option (dict string pyobj)) (c : connection) : connection :=
  {| c_id := c_id c; c_organization_id := c_organization_id c; c_site_id := c_site_id c;
     c_provider_key := c_provider_key c;
     c_display_name := match u_display_name u with Some n => Some n | None => c_display_name c end;
     c_status := default (c_status c) (u_status u);
     c_config := default (c_config c) config;
     c_encrypted_credentials := match credentials with Some (t, _) => t | None => c_encrypted_credentials c end;
     c_encryption_version := match credentials with Some (_, v) => v | None => c_encryption_version c end;
     c_sync_interval_minutes := default (c_sync_interval_minutes c) (u_sync_interval_minutes u);
     c_scheduled_sync_enabled := default (c_scheduled_sync_enabled c) (u_scheduled_sync_enabled u);
     c_next_sync_at := match u_sync_interval_minutes u with
                       | Some m => Some (minutes_after now m)
                       | None => c_next_sync_at c
                       end;
     c_last_run_at := c_last_run_at c; c_last_status := c_last_status c;
     c_created_by := c_created_by c; c_created_at := c_created_at c; c_updated_at := now |}.

Definition update_connection (now : Z) (id : string) (u : updates) (credentials : option (string * Z))
    (config : option (dict string pyobj)) (s : store) : result db_error (option connection * store) :=
  match find_connection id s with
  | None => Ok (None, s)
  | Some c =>
      let c' := patch_row now u credentials config c in
      if negb (interval_ok (c_sync_interval_minutes c')) then Err OtherError
      else if negb (bool_decide (c_status c' = disabled)) && slot_taken id (c_site_id c') (c_provider_key c') s
      then Err UniqueViolation
      else Ok (Some c', map_connections (fun r => if String.eqb (c_id r) id then patch_row now u credentials config r else r) s)
  end.

Definition with_status (now : Z) (st : connection_status) (c : connection) : connection :=
  {| c_id := c_id c; c_organization_id := c_organization_id c; c_site_id := c_site_id c;
     c_provider_key := c_provider_key c; c_display_name := c_display_name c; c_status := st;
     c_config := c_config c; c_encrypted_credentials := c_encrypted_credentials c;
     c_encryption_version := c_encryption_version c; c_sync_interval_minutes := c_sync_interval_minutes c;
     c_scheduled_sync_enabled := c_scheduled_sync_enabled c; c_next_sync_at := c_next_sync_at c;
     c_last_run_at := c_last_run_at c; c_last_status := c_last_status c; c_created_by := c_created_by c;
     c_created_at := c_created_at c; c_updated_at := now |}.

(** The columns a worker or an endpoint ends a job with. *)
Definition end_row (now : Z) (st : IngestionStatus) (fields : dict string pyobj) (error batch : option string)
    (j : job) : job :=
  {| j_id := j_id j; j_connection_id := j_connection_id j; j_organization_id := j_organization_id j;
     j_site_id := j_site_id j; j_provider_key := j_provider_key j; j_trigger := j_trigger j;
     j_status := ended st; j_progress := jsonb_merge (j_progress j) fields; j_error_detail := error;
     j_import_batch_id := batch; j_triggered_by := j_triggered_by j; j_created_at := j_created_at j;
     j_started_at := j_started_at j; j_finished_at := Some now; j_heartbeat_at := Some now |}.

(** One transaction: the connection is disabled and its job ended. *)
Definition disable_connection (now : Z) (id : string) (s : store) : store :=
  map_jobs (fun j => if String.eqb (j_connection_id j) id && is_active (j_status j)
                     then end_row now failed [("stage"%string, PStr "cancelled")]
                            (Some "connection disabled"%string) (j_import_batch_id j) j
                     else j)
    (map_connections (fun c => if String.eqb (c_id c) id && negb (bool_decide (c_status c = disabled))
                               then with_status now disabled c else c) s).

Definition set_next_sync_now_plus_interval (now : Z) (id : string) : store -> store :=
  map_connections (fun c =>
    if String.eqb (c_id c) id then
      {| c_id := c_id c; c_organization_id := c_organization_id c; c_site_id := c_site_id c;
         c_provider_key := c_provider_key c; c_display_name := c_display_name c; c_status := c_status c;
         c_config := c_config c; c_encrypted_credentials := c_encrypted_credentials c;
         c_encryption_version := c_encryption_version c;
         c_sync_interval_minutes := c_sync_interval_minutes c;
         c_scheduled_sync_enabled := c_scheduled_sync_enabled c;
         c_next_sync_at := Some (minutes_after now (c_sync_interval_minutes c));
         c_last_run_at := c_last_run_at c; c_last_status := c_last_status c;
         c_created_by := c_created_by c; c_created_at := c_created_at c; c_updated_at := c_updated_at c |}
    else c).

(** The status a run leaves its connection with. *)
Definition status_after_run (before : connection_status) (last : IngestionStatus) : connection_status :=
  match before with
  | disabled | paused => before
  | _ => if bool_decide (last = failed) then errored else active
  end.

Definition touch_connection_after_run (now : Z) (id : string) (last : IngestionStatus) : store -> store :=
  map_connections (fun c =>
    if String.eqb (c_id c) id then
      {| c_id := c_id c; c_organization_id := c_organization_id c; c_site_id := c_site_id c;
         c_provider_key := c_provider_key c; c_display_name := c_display_name c;
         c_status := status_after_run (c_status c) last; c_config := c_config c;
         c_encrypted_credentials := c_encrypted_credentials c;
         c_encryption_version := c_encryption_version c;
         c_sync_interval_minutes := c_sync_interval_minutes c;
         c_scheduled_sync_enabled := c_scheduled_sync_enabled c; c_next_sync_at := c_next_sync_at c;
         c_last_run_at := Some now; c_last_status := Some last;
         c_created_by := c_created_by c; c_created_at := c_created_at c; c_updated_at := now |}
    else c).

Definition has_active_job (id : string) (s : store) : bool :=
  existsb (fun j => String.eqb (j_connection_id j) id && is_active (j_status j)) (jobs s).

Definition is_due (now : Z) (s : store) (c : connection) : bool :=
  c_scheduled_sync_enabled c
  && match c_status c with active | errored => true | _ => false end
  && match c_next_sync_at c with None => true | Some t => t <=? now end
  && negb (has_active_job (c_id c) s).

(** [ORDER BY next_sync_at NULLS FIRST]; a negative limit is an error. *)
Definition find_due_connections (now limit : Z) (s : store) : option (list connection) :=
  if limit <? 0 then None
  else Some (take (Z.to_nat limit)
    (sort_by (fun a b => match c_next_sync_at a, c_next_sync_at b with
                         | None, _ => true
                         | Some _, None => false
                         | Some x, Some y => x <=? y
                         end) (List.filter (is_due now s) (connections s)))).

(** ** Statements on jobs *)

Definition find_job (id : string) (s : store) : option job :=
  List.find (fun j => String.eqb (j_id j) id) (jobs s).

(** The foreign key to the connection, and [uq_dsij_one_active_per_conn]. *)
Definition enqueue_job (now : Z) (id connection_id organization site provider : string)
    (trigger : job_trigger) (triggered_by : option string) (s : store) : result db_error (job * store) :=
  match find_connection connection_id s with
  | None => Err OtherError
  | Some _ =>
      if has_active_job connection_id s then Err UniqueViolation
      else
        let j := {| j_id := id; j_connection_id := connection_id; j_organization_id := organization;
                    j_site_id := site; j_provider_key := provider; j_trigger := trigger;
                    j_status := pending; j_progress := []; j_error_detail := None;
                    j_import_batch_id := None; j_triggered_by := triggered_by; j_created_at := now;
                    j_started_at := None; j_finished_at := None; j_heartbeat_at := None |} in
        Ok (j, {| connections := connections s; jobs := jobs s ++ [j]; audits := audits s |})
  end.

(** [COALESCE(heartbeat_at, started_at, created_at)]. *)
Definition lease_at (j : job) : Z :=
  match j_heartbeat_at j, j_started_at j with
  | Some t, _ => t
  | None, Some t => t
  | None, None => j_created_at j
  end.

Definition claimable (allow_running_reclaim : bool) (expected_running_lease_at : option Z) (j : job) : bool :=
  match j_status j with
  | pending => true
  | running => allow_running_reclaim
               && match expected_running_lease_at with None => true | Some t => lease_at j =? t end
  | _ => false
  end.

Definition claim_row (now : Z) (j : job) : job :=
  {| j_id := j_id j; j_connection_id := j_connection_id j; j_organization_id := j_organization_id j;
     j_site_id := j_site_id j; j_provider_key := j_provider_key j; j_trigger := j_trigger j;
     j_status := running; j_progress := j_progress j; j_error_detail := j_error_detail j;
     j_import_batch_id := j_import_batch_id j; j_triggered_by := j_triggered_by j;
     j_created_at := j_created_at j;
     j_started_at := match j_started_at j with Some t => Some t | None => Some now end;
     j_finished_at := j_finished_at j; j_heartbeat_at := Some now |}.

Definition claim_job (now : Z) (id : string) (allow_running_reclaim : bool)
    (expected_running_lease_at : option Z) (s : store) : option job * store :=
  match find_job id s with
  | Some j =>
      if claimable allow_running_reclaim expected_running_lease_at j
      then (Some (claim_row now j),
            map_jobs (fun r => if String.eqb (j_id r) id then claim_row now r else r) s)
      else (None, s)
  | None => (None, s)
  end.

Definition merge_row (now : Z) (fields : dict string pyobj) (j : job) : job :=
  {| j_id := j_id j; j_connection_id := j_connection_id j; j_organization_id := j_organization_id j;
     j_site_id := j_site_id j; j_provider_key := j_provider_key j; j_trigger := j_trigger j;
     j_status := j_status j; j_progress := jsonb_merge (j_progress j) fields;
     j_error_detail := j_error_detail j; j_import_batch_id := j_import_batch_id j;
     j_triggered_by := j_triggered_by j; j_created_at := j_created_at j;
     j_started_at := j_started_at j; j_finished_at := j_finished_at j; j_heartbeat_at := Some now |}.

Definition merge_job_progress (now : Z) (id : string) (fields : dict string pyobj) : store -> store :=
  map_jobs (fun j => if String.eqb (j_id j) id then merge_row now fields j else j).

Definition finalize_job (now : Z) (id : string) (st : IngestionStatus) (fields : dict string pyobj)
    (error batch : option string) (allow_pending : bool) : store -> store :=
  map_jobs (fun j =>
    if String.eqb (j_id j) id
       && (if allow_pending then is_active (j_status j) else bool_decide (j_status j = running))
    then end_row now st fields error batch j else j).

Definition get_job (id : string) (organization : option string) (s : store) : option job :=
  match find_job id s with
  | Some j =>
      match organization with
      | Some org => if String.eqb (j_organization_id j) org then Some j else None
      | None => Some j
      end
  | None => None
  end.

Definition list_jobs (connection_id : string) (limit : nat) (before : option Z) (s : store) : list job :=
  take limit (sort_by (fun a b => j_created_at b <=? j_created_at a)
    (List.filter (fun j => String.eqb (j_connection_id j) connection_id
                           && match before with Some t => j_created_at j <? t | None => true end) (jobs s))).

Definition ingestion_status_text (s : IngestionStatus) : string :=
  match s with succeeded => "succeeded" | partial => "partial" | failed => "failed" end.

(** [_job_wire]: the interface calls a pending job queued. *)
Definition wire_status (s : job_status) : string :=
  match s with pending => "queued" | running => "running" | ended r => ingestion_status_text r end.

(** The order of [(created_at, id)]; identifiers are compared as the text of UUIDs. *)
Definition key_lt (a b : Z * string) : bool :=
  (fst a <? fst b) || ((fst a =? fst b) && String.ltb (snd a) (snd b)).
Definition job_key (j : job) : Z * string := (j_created_at j, j_id j).

Definition is_orphaned (now threshold : Z) (s : store) (j : job) : bool :=
  match j_status j with
  | pending => true
  | running => lease_at j <? now - threshold * usec
  | _ => false
  end
  && existsb (fun c => String.eqb (c_id c) (j_connection_id j) && negb (bool_decide (c_status c = disabled)))
       (connections s).

Definition find_orphaned_jobs (now threshold limit : Z) (after : option (Z * string)) (s : store)
  : option (list job) :=
  if limit <? 0 then None
  else Some (take (Z.to_nat limit)
    (sort_by (fun a b => negb (key_lt (job_key b) (job_key a)))
       (List.filter (fun j => is_orphaned now threshold s j
                              && match after with None => true | Some k => key_lt k (job_key j) end)
          (jobs s)))).

(** ** Providers *)

(** The part of a provider the framework reads before it runs it: the fields of its
    form with whether they are secret, and its default interval. *)
Record provider := {
  credential_fields : list (string * bool);
  default_sync_interval_minutes : Z
}.

Record IngestionResult := {
  ir_status : IngestionStatus;
  chargers_created : Z;
  vehicles_created : Z;
  sessions_inserted : Z;
  access_rows_upserted : Z;
  skipped : list string;
  ir_error_detail : option string
}.

(** What [run_ingestion] does next: report progress, return, or raise. *)
Inductive provider_event :=
| Report (stage : option string) (counters : list (string * Z))
| Returns (r : IngestionResult)
| Raises (message : string).

Inductive validation := Valid | Invalid (message : string) | ValidationRaises.

Definition absent (v : option pyobj) : bool :=
  match v with None | Some PNone | Some (PStr EmptyString) => true | _ => false end.

(** Non-secret form values go to the configuration where it has none. *)
Definition merge_catalogue_config (p : provider) (credentials config : dict string pyobj)
  : dict string pyobj :=
  fold_left (fun merged (field : string * bool) =>
    let '(key, secret) := field in
    if secret then merged
    else match dget credentials key with
    | None | Some PNone | Some (PStr EmptyString) => merged
    | Some value => if absent (dget merged key) then dset key value merged else merged
    end) (credential_fields p) config.

(** The text of an exception in the job's row. *)
Definition _truncate (text : string) : string :=
  if Z.of_nat (String.length text) <=? 2000 then text
  else String.substring 0 2000 text +:+ "…".

(** [repr(s)] of a string without control characters. *)
Definition py_repr (s : string) : string :=
  let l := String.list_ascii_of_string s in
  let dq := ascii_of_nat 34 in
  let q := if existsb (Ascii.eqb "'"%char) l && negb (existsb (Ascii.eqb dq) l) then dq else "'"%char in
  String q (String.string_of_list_ascii
    (concat (map (fun c => if Ascii.eqb c "\"%char || Ascii.eqb c q then ["\"%char; c] else [c]) l)) +:+ String q "").

(** ** Requests *)

Record CreateConnectionRequest := {
  cr_depot_id : string;
  cr_provider_key : string;
  cr_display_name : option string;
  cr_sync_interval_minutes : option Z;
  cr_scheduled_sync_enabled : bool;
  cr_credentials : dict string pyobj;
  cr_config : dict string pyobj
}.

Record UpdateConnectionRequest := {
  ur_display_name : option string;
  ur_sync_interval_minutes : option Z;
  ur_scheduled_sync_enabled : option bool;
  ur_status : option string;
  ur_credentials : option (dict string pyobj)
}.

(** An administrator: organisation and user. *)
Record caller := { ca_org : string; ca_user : option string }.

Inductive reply :=
| Rejected (code : Z) (what : string)
| Created (c : connection) (j : option job)
| Patched (c : connection)
| NoContent
| Accepted (j : job)
| ServerError.

Definition _MIN_SYNC_INTERVAL : Z := 15.

(** [_PATCHABLE_STATUSES]. *)
Definition patchable (s : string) : option connection_status :=
  if String.eqb s "active" then Some active else if String.eqb s "paused" then Some paused else None.

(** The checks of a patch's body. *)
Definition patch_updates (body : UpdateConnectionRequest) : result reply updates :=
  let? _ := match ur_sync_interval_minutes body with
            | Some m => raise_if (m <? _MIN_SYNC_INTERVAL) (Rejected 422 "sync_interval_minutes must be >= 15")
            | None => Ok tt
            end in
  let? st := match ur_status body with
             | None => Ok None
             | Some s => match patchable s with
                         | Some st => Ok (Some st)
                         | None => Err (Rejected 422 "status must be one of ['active', 'paused']")
                         end
             end in
  Ok {| u_display_name := ur_display_name body; u_scheduled_sync_enabled := ur_scheduled_sync_enabled body;
        u_sync_interval_minutes := ur_sync_interval_minutes body; u_status := st |}.

(** ** Processes *)

(** The context a provider runs in. *)
Record IngestionContext := {
  ctx_connection_id : string;
  ctx_job_id : string;
  ctx_depot_id : string;
  ctx_organization_id : string;
  ctx_credentials : pyobj;
  ctx_config : dict string pyobj;
  ctx_batch_id : string
}.

(** The arguments of [_finalize] besides the job. *)
Record final := {
  f_status : IngestionStatus;
  f_progress : dict string pyobj;
  f_error : option string;
  f_batch : option string
}.

(** Where a process is: the statement it is about to run, or the provider it awaits. *)
Inductive proc :=
(* [run_ingestion_job] *)
| Claim (id : string) (allow : bool) (lease : option Z)
| Secret (j : job)
| FinalizeMissing (j : job)
| Ingesting (j : job) (ctx : IngestionContext)
| Finalize (j : job) (f : final)
| Touch (j : job) (f : final)
| AuditRun (j : job) (f : final)
| Crashed (id : string)
(* the scheduler's [_tick] and the startup sweep *)
| TickFind
| TickEnqueue (c : connection) (rest : list connection)
| TickAdvance (c : connection) (rest : list connection)
| RecoverPage (after : option (Z * string))
(* the endpoints *)
| CreateValidate (u : caller) (body : CreateConnectionRequest) (interval : Z) (config : dict string pyobj)
| CreateInsert (u : caller) (body : CreateConnectionRequest) (interval : Z) (config : dict string pyobj)
    (token : string) (version next_sync : Z)
| CreateAudit (u : caller) (c : connection)
| CreateEnqueue (u : caller) (c : connection)
| PatchRead (u : caller) (id : string) (body : UpdateConnectionRequest)
| PatchValidate (u : caller) (rec : connection) (up : updates) (credentials config : dict string pyobj)
| PatchUpdate (u : caller) (rec : connection) (up : updates) (credentials : option (string * Z))
    (config : option (dict string pyobj))
| PatchAudit (u : caller) (rec updated : connection)
| DeleteRead (u : caller) (id : string)
| DeleteDisable (u : caller) (rec : connection)
| DeleteAudit (u : caller) (rec : connection)
| SyncRead (u : caller) (id : string)
| SyncEnqueue (u : caller) (rec : connection)
| SyncAdvance (u : caller) (rec : connection) (j : job)
| SyncAudit (u : caller) (rec : connection) (j : job).

(** What a process does after a statement. *)
Inductive next := Goto (p : proc) | Answer (r : reply) | Return.

(** How a statement ends. *)
Inductive answer := Answered | Refused | AnsweredLost.

(** What a step takes from outside: a fresh identifier, the identifier of a batch,
    the random part of a token, and what the provider does. *)
Record oracle := {
  o_id : string;
  o_batch : string;
  o_nonce : string;
  o_provider : provider_event;
  o_validation : validation
}.

Definition error_final (detail : string) (batch : option string) : final :=
  {| f_status := failed; f_progress := [("stage"%string, PStr "error")]; f_error := Some detail; f_batch := batch |}.

Definition result_final (r : IngestionResult) (batch : string) : final :=
  {| f_status := ir_status r;
     f_progress := [("stage"%string, PStr "done"); ("chargers_created"%string, PInt (chargers_created r));
                    ("vehicles_created"%string, PInt (vehicles_created r));
                    ("sessions_inserted"%string, PInt (sessions_inserted r));
                    ("access_rows_upserted"%string, PInt (access_rows_upserted r));
                    ("skipped_count"%string, PInt (Z.of_nat (length (skipped r))));
                    ("credentials_pending_rotation"%string, PBool (0 <? chargers_created r))];
     f_error := match ir_error_detail r with
                | None | Some EmptyString => None
                | Some e => Some (_truncate e)
                end;
     f_batch := Some batch |}.

(** [_ProgressHandle.update]: the stage comes after the counters. *)
Definition progress_fields (stage : option string) (counters : list (string * Z)) : dict string pyobj :=
  let fields := map (fun kv => (fst kv, PInt (snd kv))) counters in
  match stage with Some t => dset "stage"%string (PStr t) fields | None => fields end.

Definition write_audit (r : audit_row) (s : store) : store :=
  {| connections := connections s; jobs := jobs s; audits := audits s ++ [r] |}.

Definition trigger_text (t : job_trigger) : string :=
  match t with manual => "manual" | scheduled => "scheduled" | recovery => "recovery" end.

(** The audit row of a finished run: the counts, not the stage. *)
Definition run_audit (j : job) (f : final) : audit_row :=
  {| au_action := "data_source.sync.completed"; au_actor := j_triggered_by j;
     au_organization_id := j_organization_id j; au_depot_id := j_site_id j;
     au_target_id := j_connection_id j;
     au_metadata :=
       jsonb_merge [("status"%string, PStr (ingestion_status_text (f_status f)));
                    ("provider"%string, PStr (j_provider_key j))]
         (dset "trigger"%string (PStr (trigger_text (j_trigger j)))
            (List.filter (fun kv => negb (String.eqb (fst kv) "stage")) (f_progress f))) |}.

Definition admin_audit (action : string) (u : caller) (c : connection) : audit_row :=
  {| au_action := action; au_actor := ca_user u; au_organization_id := ca_org u;
     au_depot_id := c_site_id c; au_target_id := c_id c; au_metadata := [] |}.

(** The next connection of a tick. *)
Definition tick (rest : list connection) : next :=
  match rest with [] => Return | c :: r => Goto (TickEnqueue c r) end.

(** The worker the sweep starts for a job. *)
Definition recover (j : job) : proc := Claim (j_id j) true (Some (lease_at j)).

Section Processes.
Context `{Fernet} `{Json}.
(** [DATA_SOURCES_ENCRYPTION_KEY], whether the feature is on, the registered providers,
    and the settings of the scheduler. *)
Context (env : option string) (enabled : bool) (providers : dict string provider)
        (orphan_threshold_s batch_limit recovery_page_size : Z).

Definition is_data_sources_ready : bool := enabled && is_configured env.

Definition not_ready : reply := Rejected 503 "Data Sources is not configured (missing encryption key)".
Definition connection_not_found : reply := Rejected 404 "connection not found".

(** What is encrypted. *)
Definition secrets_payload (provider_key : string) (credentials : dict string pyobj) : dict string pyobj :=
  [("provider_key"%string, PStr provider_key); ("secrets"%string, PDict credentials);
   ("schema_version"%string, PInt 1)].

(** [get_provider]'s message. *)
Definition provider_not_found (key : string) : string := "unknown data source provider: " +:+ py_repr key.

(** [create_connection] up to its first await, for a caller with access to the depot. *)
Definition create_connection (u : caller) (body : CreateConnectionRequest) : next :=
  if negb is_data_sources_ready then Answer not_ready
  else match dget providers (cr_provider_key body) with
  | None => Answer (Rejected 404 (provider_not_found (cr_provider_key body)))
  | Some p =>
      let interval := default (default_sync_interval_minutes p) (cr_sync_interval_minutes body) in
      if interval <? _MIN_SYNC_INTERVAL
      then Answer (Rejected 422 "sync_interval_minutes must be >= 15")
      else Goto (CreateValidate u body interval (merge_catalogue_config p (cr_credentials body) (cr_config body)))
  end.

(** After the credentials are decrypted and the provider is found. *)
Definition start_ingestion (o : oracle) (j : job) (c : connection) : next :=
  match decrypt_credentials env (c_encrypted_credentials c) (c_encryption_version c) with
  | inl _ => Goto (Finalize j (error_final "credential decryption failed (key rotated?)" None))
  | inr None => Goto (Crashed (j_id j))
  | inr (Some payload) =>
      match dget providers (c_provider_key c) with
      | None => Goto (Finalize j (error_final (provider_not_found (c_provider_key c)) None))
      | Some _ =>
          Goto (Ingesting j
            {| ctx_connection_id := c_id c; ctx_job_id := j_id j; ctx_depot_id := c_site_id c;
               ctx_organization_id := c_organization_id c;
               ctx_credentials := dget_or payload "secrets" (PDict []);
               ctx_config := c_config c; ctx_batch_id := o_batch o |})
      end
  end.

(** The checks of [update_connection]'s endpoint on the row it read. *)
Definition patch_checks (u : caller) (rec : connection) (body : UpdateConnectionRequest) : next :=
  match patch_updates body with
  | Err r => Answer r
  | Ok up =>
      match ur_credentials body with
      | Some credentials =>
          if negb is_data_sources_ready then Answer not_ready
          else match dget providers (c_provider_key rec) with
          | None => Answer (Rejected 404 (provider_not_found (c_provider_key rec)))
          | Some p => Goto (PatchValidate u rec up credentials (merge_catalogue_config p credentials (c_config rec)))
          end
      | None => if no_updates up then Answer (Patched rec) else Goto (PatchUpdate u rec up None None)
      end
  end.

(** The statement of a process when it answers: its effect, where the process goes on,
    and the workers it starts. *)

(** A worker: [_run] and [_finalize], and the handler of [run_ingestion_job]. *)
Definition run_effect (now : Z) (o : oracle) (p : proc) (s : store) : store * next * list proc :=
  match p with
  | Claim id allow lease =>
      match claim_job now id allow lease s with
      | (Some j, s') => (s', Goto (Secret j), [])
      | (None, s') => (s', Return, [])
      end
  | Secret j =>
      (s, match find_connection (j_connection_id j) s with
          | None => Goto (FinalizeMissing j)
          | Some c => start_ingestion o j c
          end, [])
  | FinalizeMissing j =>
      (finalize_job now (j_id j) failed [("stage"%string, PStr "error")]
         (Some "connection no longer exists"%string) None false s, Return, [])
  | Ingesting j ctx =>
      match o_provider o with
      | Report stage counters =>
          (merge_job_progress now (j_id j) (progress_fields stage counters) s, Goto p, [])
      | Returns r => (s, Goto (Finalize j (result_final r (ctx_batch_id ctx))), [])
      | Raises m => (s, Goto (Finalize j (error_final (_truncate m) (Some (ctx_batch_id ctx)))), [])
      end
  | Finalize j f =>
      (finalize_job now (j_id j) (f_status f) (f_progress f) (f_error f) (f_batch f) false s,
       Goto (Touch j f), [])
  | Touch j f => (touch_connection_after_run now (j_connection_id j) (f_status f) s, Goto (AuditRun j f), [])
  | AuditRun j f => (write_audit (run_audit j f) s, Return, [])
  | Crashed id =>
      (finalize_job now id failed [("stage"%string, PStr "error")]
         (Some "internal error (see server logs)"%string) None true s, Return, [])
  | _ => (s, Return, [])
  end.

(** The scheduler's [_tick]. *)
Definition tick_effect (now : Z) (o : oracle) (p : proc) (s : store) : store * next * list proc :=
  match p with
  | TickFind =>
      (s, match find_due_connections now batch_limit s with Some due => tick due | None => Return end, [])
  | TickEnqueue c rest =>
      match enqueue_job now (o_id o) (c_id c) (c_organization_id c) (c_site_id c) (c_provider_key c)
              scheduled None s with
      | Ok (j, s') => (s', Goto (TickAdvance c rest), [Claim (j_id j) false None])
      | Err UniqueViolation => (s, Goto (TickAdvance c rest), [])
      | Err OtherError => (s, tick rest, [])
      end
  | TickAdvance c rest => (set_next_sync_now_plus_interval now (c_id c) s, tick rest, [])
  | _ => (s, Return, [])
  end.

(** [recover_orphaned_data_source_jobs]. *)
Definition sweep_effect (now : Z) (o : oracle) (p : proc) (s : store) : store * next * list proc :=
  match p with
  | RecoverPage after =>
      match find_orphaned_jobs now orphan_threshold_s recovery_page_size after s with
      | None => (s, Return, [])
      | Some rows =>
          (s, match last rows with
              | None => Return
              | Some j => if Z.of_nat (length rows) <? recovery_page_size then Return
                          else Goto (RecoverPage (Some (job_key j)))
              end, map recover rows)
      end
  | _ => (s, Return, [])
  end.

(** [create_connection] from its first await. *)
Definition create_effect (now : Z) (o : oracle) (p : proc) (s : store) : store * next * list proc :=
  match p with
  | CreateValidate u body interval config =>
      (s, match o_validation o with
          | Invalid _ => Answer (Rejected 422 "CREDENTIAL_VALIDATION_FAILED")
          | ValidationRaises => Answer ServerError
          | Valid =>
              match encrypt_credentials env (o_nonce o) (secrets_payload (cr_provider_key body) (cr_credentials body)) with
              | Err _ => Answer ServerError
              | Ok (token, version) => Goto (CreateInsert u body interval config token version (minutes_after now interval))
              end
          end, [])
  | CreateInsert u body interval config token version next_sync =>
      match insert_connection now (o_id o) (ca_org u) (cr_depot_id body) (cr_provider_key body)
              (cr_display_name body) config token version interval (cr_scheduled_sync_enabled body)
              (Some next_sync) (ca_user u) s with
      | Ok (c, s') => (s', Goto (CreateAudit u c), [])
      | Err UniqueViolation => (s, Answer (Rejected 409 "CONNECTION_ALREADY_EXISTS"), [])
      | Err OtherError => (s, Answer ServerError, [])
      end
  | CreateAudit u c =>
      (write_audit (admin_audit "data_source.connection.created" u c) s, Goto (CreateEnqueue u c), [])
  | CreateEnqueue u c =>
      match enqueue_job now (o_id o) (c_id c) (ca_org u) (c_site_id c) (c_provider_key c) manual (ca_user u) s with
      | Ok (j, s') => (s', Answer (Created c (Some j)), [Claim (j_id j) false None])
      | Err _ => (s, Answer (Created c None), [])
      end
  | _ => (s, Return, [])
  end.

(** [update_connection], the endpoint. *)
Definition patch_effect (now : Z) (o : oracle) (p : proc) (s : store) : store * next * list proc :=
  match p with
  | PatchRead u id body =>
      (s, match get_connection id (Some (ca_org u)) s with
          | None => Answer connection_not_found
          | Some rec => patch_checks u rec body
          end, [])
  | PatchValidate u rec up credentials config =>
      (s, match o_validation o with
          | Invalid _ => Answer (Rejected 422 "CREDENTIAL_VALIDATION_FAILED")
          | ValidationRaises => Answer ServerError
          | Valid =>
              match encrypt_credentials env (o_nonce o) (secrets_payload (c_provider_key rec) credentials) with
              | Err _ => Answer ServerError
              | Ok sealed => Goto (PatchUpdate u rec up (Some sealed) (Some config))
              end
          end, [])
  | PatchUpdate u rec up credentials config =>
      match update_connection now (c_id rec) up credentials config s with
      | Ok (Some c, s') => (s', Goto (PatchAudit u rec c), [])
      | Ok (None, s') => (s', Answer connection_not_found, [])
      | Err UniqueViolation => (s, Answer (Rejected 409 "CONNECTION_ALREADY_EXISTS"), [])
      | Err OtherError => (s, Answer ServerError, [])
      end
  | PatchAudit u rec c =>
      (write_audit (admin_audit "data_source.connection.updated" u rec) s, Answer (Patched c), [])
  | _ => (s, Return, [])
  end.

(** [delete_connection]. *)
Definition delete_effect (now : Z) (o : oracle) (p : proc) (s : store) : store * next * list proc :=
  match p with
  | DeleteRead u id =>
      (s, match get_connection id (Some (ca_org u)) s with
          | None => Answer connection_not_found
          | Some rec => Goto (DeleteDisable u rec)
          end, [])
  | DeleteDisable u rec => (disable_connection now (c_id rec) s, Goto (DeleteAudit u rec), [])
  | DeleteAudit u rec =>
      (write_audit (admin_audit "data_source.connection.deleted" u rec) s, Answer NoContent, [])
  | _ => (s, Return, [])
  end.

(** [trigger_sync]. *)
Definition sync_effect (now : Z) (o : oracle) (p : proc) (s : store) : store * next * list proc :=
  match p with
  | SyncRead u id =>
      (s, if negb is_data_sources_ready then Answer not_ready
          else match get_connection id (Some (ca_org u)) s with
          | None => Answer connection_not_found
          | Some rec =>
              match c_status rec with
              | disabled => Answer (Rejected 409 "connection is disabled")
              | paused => Answer (Rejected 409 "connection is paused")
              | _ => Goto (SyncEnqueue u rec)
              end
          end, [])
  | SyncEnqueue u rec =>
      match enqueue_job now (o_id o) (c_id rec) (ca_org u) (c_site_id rec) (c_provider_key rec) manual
              (ca_user u) s with
      | Ok (j, s') => (s', Goto (SyncAdvance u rec j), [Claim (j_id j) false None])
      | Err UniqueViolation => (s, Answer (Rejected 409 "CONNECTION_SYNC_IN_PROGRESS"), [])
      | Err OtherError => (s, Answer ServerError, [])
      end
  | SyncAdvance u rec j => (set_next_sync_now_plus_interval now (c_id rec) s, Goto (SyncAudit u rec j), [])
  | SyncAudit u rec j =>
      (write_audit (admin_audit "data_source.sync.triggered" u rec) s, Answer (Accepted j), [])
  | _ => (s, Return, [])
  end.

Definition effect (now : Z) (o : oracle) (p : proc) (s : store) : store * next * list proc :=
  match p with
  | Claim _ _ _ | Secret _ | FinalizeMissing _ | Ingesting _ _ | Finalize _ _ | Touch _ _
  | AuditRun _ _ | Crashed _ =>
      run_effect now o p s
  | TickFind | TickEnqueue _ _ | TickAdvance _ _ =>
      tick_effect now o p s
  | RecoverPage _ =>
      sweep_effect now o p s
  | CreateValidate _ _ _ _ | CreateInsert _ _ _ _ _ _ _ | CreateAudit _ _ | CreateEnqueue _ _ =>
      create_effect now o p s
  | PatchRead _ _ _ | PatchValidate _ _ _ _ _ | PatchUpdate _ _ _ _ _ | PatchAudit _ _ _ =>
      patch_effect now o p s
  | DeleteRead _ _ | DeleteDisable _ _ | DeleteAudit _ _ =>
      delete_effect now o p s
  | SyncRead _ _ | SyncEnqueue _ _ | SyncAdvance _ _ _ | SyncAudit _ _ _ =>
      sync_effect now o p s
  end.

(** Where an exception of the statement takes a process. A worker's goes to the handler of
    [run_ingestion_job]; a provider that cannot report its progress goes on as it likes. *)
Definition run_error (p : proc) : next :=
  match p with
  | Claim id _ _ => Goto (Crashed id)
  | Secret j | FinalizeMissing j | Finalize j _ | Touch j _ => Goto (Crashed (j_id j))
  | Ingesting _ _ => Goto p
  | _ => Return
  end.

(** One bad connection does not end a tick; a sweep ends with the start of its server. *)
Definition scheduler_error (p : proc) : next :=
  match p with TickEnqueue _ rest | TickAdvance _ rest => tick rest | _ => Return end.

(** Audits, the first job of a new connection and the next sync time are best effort. *)
Definition endpoint_error (p : proc) : next :=
  match p with
  | CreateAudit u c => Goto (CreateEnqueue u c)
  | CreateEnqueue _ c => Answer (Created c None)
  | PatchAudit _ _ c => Answer (Patched c)
  | DeleteAudit _ _ => Answer NoContent
  | SyncAdvance u rec j => Goto (SyncAudit u rec j)
  | SyncAudit _ _ j => Answer (Accepted j)
  | _ => Answer ServerError
  end.

Definition on_error (p : proc) : next :=
  match p with
  | Claim _ _ _ | Secret _ | FinalizeMissing _ | Ingesting _ _ | Finalize _ _ | Touch _ _
  | AuditRun _ _ | Crashed _ => run_error p
  | TickFind | TickEnqueue _ _ | TickAdvance _ _ | RecoverPage _ => scheduler_error p
  | _ => endpoint_error p
  end.

(** Awaits that run no statement of the tables. *)
Definition awaits_provider (o : oracle) (p : proc) : bool :=
  match p with
  | Ingesting _ _ => match o_provider o with Report _ _ => false | _ => true end
  | CreateValidate _ _ _ _ | PatchValidate _ _ _ _ _ => true
  | _ => false
  end.

Definition step (now : Z) (o : oracle) (a : answer) (p : proc) (s : store) : store * next * list proc :=
  let '(s', n, spawned) := effect now o p s in
  match (if awaits_provider o p then Answered else a) with
  | Answered => (s', n, spawned)
  | Refused => (s, on_error p, [])
  | AnsweredLost => (s', on_error p, [])
  end.

(** ** Everything at once *)

Record world := { w_store : store; w_procs : list proc }.

(** A request, a tick of a scheduler and the start of a server each begin a process. *)
Inductive entry :=
| Boot
| Tick
| CreateRequest (u : caller) (body : CreateConnectionRequest)
| PatchRequest (u : caller) (id : string) (body : UpdateConnectionRequest)
| DeleteRequest (u : caller) (id : string)
| SyncRequest (u : caller) (id : string).

Definition begin (e : entry) : next :=
  match e with
  | Boot => Goto (RecoverPage None)
  | Tick => Goto TickFind
  | CreateRequest u body => create_connection u body
  | PatchRequest u id body => Goto (PatchRead u id body)
  | DeleteRequest u id => Goto (DeleteRead u id)
  | SyncRequest u id => Goto (SyncRead u id)
  end.

(** A process begins, takes a step, or dies with its server. *)
Inductive event :=
| Begin (e : entry)
| Step (i : nat) (now : Z) (o : oracle) (a : answer)
| Kill (i : nat).

Definition continue (n : next) : list proc := match n with Goto p => [p] | _ => [] end.

(** Identifiers of rows are fresh ([gen_random_uuid]). *)
Definition fresh_id (id : string) (s : store) : bool :=
  negb (existsb (fun j => String.eqb (j_id j) id) (jobs s))
  && negb (existsb (fun c => String.eqb (c_id c) id) (connections s)).

Definition exec (e : event) (w : world) : option world :=
  match e with
  | Begin e => Some {| w_store := w_store w; w_procs := w_procs w ++ continue (begin e) |}
  | Step i now o a =>
      match w_procs w !! i with
      | None => None
      | Some p =>
          if negb (fresh_id (o_id o) (w_store w)) then None
          else
            let '(s, n, spawned) := step now o a p (w_store w) in
            Some {| w_store := s; w_procs := delete i (w_procs w) ++ continue n ++ spawned |}
      end
  | Kill i => match w_procs w !! i with
              | None => None
              | Some _ => Some {| w_store := w_store w; w_procs := delete i (w_procs w) |}
              end
  end.

Fixpoint run_events (es : list event) (w : world) : option world :=
  match es with
  | [] => Some w
  | e :: es' => match exec e w with Some w' => run_events es' w' | None => None end
  end.

Definition initial_world : world :=
  {| w_store := {| connections := []; jobs := []; audits := [] |}; w_procs := [] |}.
End Processes.
