(* ===== verification/IngestFacts.v ===== *)
(** * Data-source connections and ingestion jobs: properties

    Whatever interleaves: a connection has one job in flight, jobs only move
    forward, a worker loses its job only when its lease has expired, the sweep takes
    up every job left behind, and no job in flight is without a worker unless one
    died. *)

From S2P Require Import Prelude Models PyText Cipher CipherFacts Ingest.
From Stdlib Require Import ZArith Ascii Lia.
From stdpp Require Import base list strings sets sorting.

#[local] Open Scope Z_scope.

(** ** Rows of jobs *)

(** The columns no statement changes. *)
Definition same_identity (a b : job) : Prop :=
  j_id b = j_id a /\ j_connection_id b = j_connection_id a /\ j_created_at b = j_created_at a
  /\ j_organization_id b = j_organization_id a /\ j_site_id b = j_site_id a
  /\ j_provider_key b = j_provider_key a /\ j_trigger b = j_trigger a
  /\ j_triggered_by b = j_triggered_by a.

(** The order of a job's statuses. *)
Definition status_le (a b : job_status) : Prop :=
  match a, b with
  | pending, _ => True
  | running, (running | ended _) => True
  | ended r, ended r' => r = r'
  | _, _ => False
  end.

(** The record of a finished run stays as it is. *)
Definition verdict_kept (a b : job) : Prop :=
  is_active (j_status a) = false ->
  j_status b = j_status a /\ j_error_detail b = j_error_detail a
  /\ j_import_batch_id b = j_import_batch_id a /\ j_finished_at b = j_finished_at a
  /\ j_started_at b = j_started_at a.

Definition job_moves (a b : job) : Prop :=
  same_identity a b /\ status_le (j_status a) (j_status b) /\ verdict_kept a b.

#[local] Instance status_le_refl : Reflexive status_le.
Proof. by intros []. Qed.
#[local] Instance status_le_trans : Transitive status_le.
Proof. intros [] [] []; cbn; naive_solver. Qed.
#[local] Instance job_moves_refl : Reflexive job_moves.
Proof. intros j. split; [by repeat split|]. split; [done|]. by intros _. Qed.

Lemma status_le_active a b : status_le a b -> is_active a = false -> is_active b = false.
Proof. by destruct a, b. Qed.

#[local] Instance job_moves_trans : Transitive job_moves.
Proof.
  intros a b c [Ha [La Va]] [Hb [Lb Vb]]. split; [unfold same_identity in *; intuition congruence|].
  split; [by etrans|]. intros H. pose proof (status_le_active _ _ La H) as Hn.
  specialize (Va H). specialize (Vb Hn). intuition congruence.
Qed.

(** A statement leaves a row alone, or moves it and stamps its heartbeat. *)
Definition stamp_moves (now : Z) (a b : job) : Prop :=
  job_moves a b /\ (b = a \/ j_heartbeat_at b = Some now).

Lemma stamp_moves_refl now j : stamp_moves now j j.
Proof. split; [done|by left]. Qed.

Lemma claim_moves now allow lease j : claimable allow lease j = true -> stamp_moves now j (claim_row now j).
Proof.
  unfold claimable. intros H. split; [|by right]. split; [by repeat split|]. split; [by destruct j as [? ? ? ? ? ? []]|].
  intros Hn. by destruct (j_status j).
Qed.

Lemma merge_moves now fields j : stamp_moves now j (merge_row now fields j).
Proof. split; [|by right]. split; [by repeat split|]. split; [cbn; reflexivity|]. by intros _. Qed.

Lemma end_moves now st fields e b j : is_active (j_status j) = true -> stamp_moves now j (end_row now st fields e b j).
Proof.
  intros H. split; [|by right]. split; [by repeat split|]. split; [cbn; by destruct (j_status j)|]. intros Hn. congruence.
Qed.
Create HintDb jobmoves.
#[local] Hint Resolve merge_moves end_moves claim_moves stamp_moves_refl : jobmoves.

(** ** What a statement does to the jobs *)

(** All rows move, or one pending job is added for a connection without a job in
    flight. *)
Inductive jobs_step (now : Z) (id : string) (s s' : store) : Prop :=
| js_rows (f : job -> job) :
    jobs s' = map f (jobs s) -> (forall j, j ∈ jobs s -> stamp_moves now j (f j)) -> jobs_step now id s s'
| js_new (j : job) :
    jobs s' = jobs s ++ [j] -> j_id j = id -> j_status j = pending -> j_started_at j = None ->
    j_heartbeat_at j = None -> j_created_at j = now ->
    has_active_job (j_connection_id j) s = false -> jobs_step now id s s'.

Lemma js_same now id s s' : jobs s' = jobs s -> jobs_step now id s s'.
Proof. intros E. apply (js_rows _ _ _ _ (fun j => j)); [by rewrite map_id|]. eauto with jobmoves. Qed.

Lemma js_map_jobs now id f s : (forall j, j ∈ jobs s -> stamp_moves now j (f j)) -> jobs_step now id s (map_jobs f s).
Proof. intros H. by apply (js_rows _ _ _ _ f). Qed.

Lemma find_job_in id s j : find_job id s = Some j -> j ∈ jobs s /\ j_id j = id.
Proof. intros [H1 H2%String.eqb_eq]%find_some. split; [by apply list_elem_of_In|done]. Qed.

Lemma find_connection_in id s c : find_connection id s = Some c -> c ∈ connections s /\ c_id c = id.
Proof. intros [H1 H2%String.eqb_eq]%find_some. split; [by apply list_elem_of_In|done]. Qed.

Lemma finalize_step now id id' st fields e b allow s :
  jobs_step now id s (finalize_job now id' st fields e b allow s).
Proof.
  apply js_map_jobs. intros j _. destruct (String.eqb _ _); cbn; [|eauto with jobmoves].
  destruct allow; [destruct (is_active _) eqn:E|case_bool_decide as E]; eauto with jobmoves.
  apply end_moves. by rewrite E.
Qed.

Lemma merge_step now id id' fields s : jobs_step now id s (merge_job_progress now id' fields s).
Proof. apply js_map_jobs. intros j _. destruct (String.eqb _ _); eauto with jobmoves. Qed.

Lemma disable_step now id id' s : jobs_step now id s (disable_connection now id' s).
Proof.
  apply (js_rows _ _ _ _ (fun j => if String.eqb (j_connection_id j) id' && is_active (j_status j)
                     then end_row now failed [("stage"%string, PStr "cancelled")]
                            (Some "connection disabled"%string) (j_import_batch_id j) j
                     else j)); [done|].
  intros j _. destruct (String.eqb _ _); cbn; [|eauto with jobmoves]. destruct (is_active _) eqn:E; eauto with jobmoves.
Qed.

Lemma enqueue_spec now id conn org site prov tr by_ s j s' :
  enqueue_job now id conn org site prov tr by_ s = Ok (j, s') ->
  jobs s' = jobs s ++ [j] /\ connections s' = connections s /\ j_id j = id /\ j_connection_id j = conn
  /\ j_status j = pending /\ j_started_at j = None /\ j_heartbeat_at j = None /\ j_created_at j = now
  /\ has_active_job conn s = false.
Proof.
  unfold enqueue_job. destruct (find_connection _ _); [|done]. destruct (has_active_job _ _) eqn:E; [done|].
  intros [= <- <-]. by repeat split.
Qed.

Lemma enqueue_step now id conn org site prov tr by_ s j s' :
  enqueue_job now id conn org site prov tr by_ s = Ok (j, s') -> jobs_step now id s s'.
Proof. intros (H1 & _ & H3 & H4 & H5 & H6 & H7 & H8 & H9)%enqueue_spec. apply (js_new _ _ _ _ j); congruence. Qed.

(** Rows with the same identifier are claimed together; there is one. *)
Lemma claim_job_spec now id allow lease s j s' :
  claim_job now id allow lease s = (Some j, s') ->
  exists r, find_job id s = Some r /\ claimable allow lease r = true /\ j = claim_row now r
    /\ s' = map_jobs (fun r => if String.eqb (j_id r) id then claim_row now r else r) s.
Proof.
  unfold claim_job. destruct (find_job id s) as [r|] eqn:E; [|done].
  destruct (claimable allow lease r) eqn:C; [|done]. intros [= <- <-]. by exists r.
Qed.

Lemma claim_none now id allow lease s s' : claim_job now id allow lease s = (None, s') -> s' = s.
Proof.
  unfold claim_job. destruct (find_job id s) as [r|]; [|by intros [= <-]].
  destruct (claimable allow lease r); [done|by intros [= <-]].
Qed.

Definition distinct_jobs (s : store) : Prop := NoDup (map j_id (jobs s)).

Lemma distinct_same s a b : distinct_jobs s -> a ∈ jobs s -> b ∈ jobs s -> j_id a = j_id b -> a = b.
Proof. intros. by apply (nodup_map_inj j_id (jobs s)). Qed.

Lemma claim_step now id id' allow lease s j s' :
  distinct_jobs s -> claim_job now id' allow lease s = (j, s') -> jobs_step now id s s'.
Proof.
  intros Hd. destruct j as [j|]; [|by intros ->%claim_none; apply js_same].
  intros (r & [Hr Hid]%find_job_in & Hc & _ & ->)%claim_job_spec. apply js_map_jobs. intros x Hx.
  destruct (String.eqb_spec (j_id x) id') as [E|_]; [|eauto with jobmoves].
  assert (x = r) as -> by (apply (distinct_same s); congruence). eauto with jobmoves.
Qed.

(** ** Every process *)

Section Facts.
Context `{Fernet} `{Json} (env : option string) (enabled : bool) (providers : dict string provider)
        (threshold batch_limit page : Z).
Notation effect := (effect env enabled providers threshold batch_limit page).
Notation step := (step env enabled providers threshold batch_limit page).
Notation exec := (exec env enabled providers threshold batch_limit page).
Notation run_events := (run_events env enabled providers threshold batch_limit page).

Lemma effect_jobs now o p s s' n sp :
  distinct_jobs s -> effect now o p s = (s', n, sp) -> jobs_step now (o_id o) s s'.
Proof.
  intros Hd. destruct p; cbn; try (intros [= <- <- <-]; by apply js_same);
    try (intros [= <- <- <-]; by (apply finalize_step || apply disable_step)).
  - destruct (claim_job _ _ _ _ _) as [[j|] x] eqn:E; intros [= <- <- <-]; by eapply claim_step.
  - destruct (o_provider o); intros [= <- <- <-]; [apply merge_step|by apply js_same..].
  - destruct (enqueue_job _ _ _ _ _ _ _ _ _) as [[j x]|[]] eqn:E; intros [= <- <- <-];
      [by eapply enqueue_step|by apply js_same..].
  - destruct (find_orphaned_jobs _ _ _ _ _) as [rows|]; intros [= <- <- <-]; by apply js_same.
  - unfold insert_connection. destruct (negb _); [intros [= <- <- <-]; by apply js_same|].
    destruct (slot_taken _ _ _ _); intros [= <- <- <-]; by apply js_same.
  - destruct (enqueue_job _ _ _ _ _ _ _ _ _) as [[j x]|[]] eqn:E; intros [= <- <- <-];
      [by eapply enqueue_step|by apply js_same..].
  - unfold update_connection. destruct (find_connection _ _); [|intros [= <- <- <-]; by apply js_same].
    destruct (negb _); [intros [= <- <- <-]; by apply js_same|].
    destruct (_ && _); intros [= <- <- <-]; by apply js_same.
  - destruct (enqueue_job _ _ _ _ _ _ _ _ _) as [[j x]|[]] eqn:E; intros [= <- <- <-];
      [by eapply enqueue_step|by apply js_same..].
Qed.

(** A step leaves the store alone or has the effect of its statement. *)
Lemma step_cases now o a p s s' n sp :
  step now o a p s = (s', n, sp) ->
  (s' = s /\ n = on_error p /\ sp = [] /\ a = Refused)
  \/ exists n' sp', effect now o p s = (s', n', sp')
     /\ ((n = n' /\ sp = sp') \/ (n = on_error p /\ sp = [] /\ a = AnsweredLost)).
Proof.
  unfold Ingest.step. destruct (effect now o p s) as [[s1 n1] sp1] eqn:E.
  destruct (awaits_provider o p); [intros [= <- <- <-]; right; eauto 8|].
  destruct a; intros [= <- <- <-]; eauto 10.
Qed.

Lemma step_jobs now o a p s s' n sp :
  distinct_jobs s -> step now o a p s = (s', n, sp) -> jobs_step now (o_id o) s s'.
Proof.
  intros Hd [[-> _]|(n' & sp' & E & _)]%step_cases; [by apply js_same|by eapply effect_jobs].
Qed.

Lemma step_distinct now id s s' :
  jobs_step now id s s' -> fresh_id id s = true -> distinct_jobs s -> distinct_jobs s'.
Proof.
  intros [f E M|j E Hid _ _ _ _ _] Hf Hd; unfold distinct_jobs in *; rewrite E.
  - rewrite map_map. rewrite (map_ext_in _ j_id); [done|]. intros x Hx%list_elem_of_In. by apply M in Hx as [[[? _] _] _].
  - rewrite map_app. apply nodup_snoc; [done|]. rewrite Hid. intros (x & Ex & Hx)%list_elem_of_fmap.
    unfold fresh_id in Hf. apply andb_true_iff in Hf as [Hf _]. apply negb_true_iff in Hf.
    rewrite <- not_true_iff_false in Hf. apply Hf, existsb_exists. exists x. split; [by apply list_elem_of_In|].
    by apply String.eqb_eq.
Qed.

(** A job in flight stands alone on its connection. *)
Definition one_active (s : store) : Prop :=
  forall a b, a ∈ jobs s -> b ∈ jobs s -> is_active (j_status a) = true -> is_active (j_status b) = true ->
  j_connection_id a = j_connection_id b -> j_id a = j_id b.

Lemma moves_active a b : job_moves a b -> is_active (j_status b) = true -> is_active (j_status a) = true.
Proof. intros (_ & L & _) H'. destruct (is_active (j_status a)) eqn:E; [done|]. by rewrite (status_le_active _ _ L E) in H'. Qed.

Lemma no_active_job conn s j :
  has_active_job conn s = false -> j ∈ jobs s -> j_connection_id j = conn -> is_active (j_status j) = false.
Proof.
  intros Hn Hj <-. unfold has_active_job in Hn. destruct (is_active (j_status j)) eqn:E; [|done].
  rewrite <- not_true_iff_false in Hn. destruct Hn. apply existsb_exists. exists j.
  split; [by apply list_elem_of_In|]. by rewrite String.eqb_refl, E.
Qed.

Lemma step_one_active now id s s' : jobs_step now id s s' -> one_active s -> one_active s'.
Proof.
  intros [f E M|j E Hid _ _ _ _ Hn] Ho a b; rewrite E.
  - intros (x & -> & Hx)%list_elem_of_fmap (y & -> & Hy)%list_elem_of_fmap Ha Hb Hc.
    destruct (M x Hx) as [Mx _]. destruct (M y Hy) as [My _]. apply (moves_active _ _ Mx) in Ha. apply (moves_active _ _ My) in Hb.
    destruct Mx as [(-> & Ex & _) _]. destruct My as [(-> & Ey & _) _]. rewrite Ex, Ey in Hc. by apply Ho.
  - rewrite !elem_of_app, !list_elem_of_singleton. intros [Ha| ->] [Hb| ->] Aa Ab Hc; [by apply Ho| | |done].
    + by rewrite (no_active_job _ _ a Hn) in Aa.
    + by rewrite (no_active_job _ _ b Hn) in Ab.
Qed.

(** ** What a statement does to the connections *)

Definition live (c : connection) : Prop := c_status c <> disabled.

Definition same_slot (a b : connection) : Prop :=
  c_id b = c_id a /\ c_site_id b = c_site_id a /\ c_provider_key b = c_provider_key a
  /\ c_organization_id b = c_organization_id a.

Inductive conns_step (id : string) (s s' : store) : Prop :=
| cs_rows (f : connection -> connection) (k : string) :
    connections s' = map f (connections s) ->
    (forall c, c ∈ connections s -> same_slot c (f c)
       /\ (live (f c) -> live c \/ (c_id c = k /\ slot_taken k (c_site_id c) (c_provider_key c) s = false))) ->
    conns_step id s s'
| cs_new (c : connection) :
    connections s' = connections s ++ [c] -> c_id c = id ->
    slot_taken id (c_site_id c) (c_provider_key c) s = false -> conns_step id s s'.

Lemma cs_map id f s s' :
  connections s' = map f (connections s) ->
  (forall c, c ∈ connections s -> same_slot c (f c) /\ (live (f c) -> live c)) -> conns_step id s s'.
Proof. intros E F. apply (cs_rows _ _ _ f ""%string); [done|]. intros c Hc. destruct (F c Hc). auto. Qed.

Lemma cs_same id s s' : connections s' = connections s -> conns_step id s s'.
Proof. intros E. apply (cs_map _ (fun c => c)); [by rewrite map_id|]. by intros. Qed.

Lemma status_after_run_live b r : status_after_run b r <> disabled -> b <> disabled.
Proof. by destruct b. Qed.

Lemma touch_conns now id id' last s : conns_step id s (touch_connection_after_run now id' last s).
Proof.
  eapply cs_map; [done|]. intros c _. cbn. destruct (String.eqb _ _); [|done]. split; [done|].
  apply status_after_run_live.
Qed.

Lemma next_sync_conns now id id' s : conns_step id s (set_next_sync_now_plus_interval now id' s).
Proof. eapply cs_map; [done|]. intros c _. cbn. by destruct (String.eqb _ _). Qed.

Lemma disable_conns now id id' s : conns_step id s (disable_connection now id' s).
Proof.
  apply (cs_map _ (fun c => if String.eqb (c_id c) id' && negb (bool_decide (c_status c = disabled))
                               then with_status now disabled c else c)); [done|].
  intros c _. by destruct (_ && _).
Qed.

Lemma live_check c : live c -> negb (bool_decide (c_status c = disabled)) = true.
Proof. intros H1. by rewrite bool_decide_eq_false_2. Qed.

Definition distinct_connections (s : store) : Prop := NoDup (map c_id (connections s)).

Lemma distinct_same_connection s a b :
  distinct_connections s -> a ∈ connections s -> b ∈ connections s -> c_id a = c_id b -> a = b.
Proof. intros. by apply (nodup_map_inj c_id (connections s)). Qed.

Lemma update_conns now id id' u cr cfg s r s' :
  distinct_connections s -> update_connection now id' u cr cfg s = Ok (r, s') ->
  conns_step id s s' /\ jobs s' = jobs s.
Proof.
  intros Hd. unfold update_connection. destruct (find_connection id' s) as [c|] eqn:E; [|intros [= <- <-]; split; [by apply cs_same|done]].
  apply find_connection_in in E as [Hc Hid].
  destruct (negb _); [done|]. destruct (negb _ && _) eqn:B; [done|]. intros [= <- <-]. split; [|done].
  apply (cs_rows _ _ _ (fun r => if String.eqb (c_id r) id' then patch_row now u cr cfg r else r) id'); [done|].
  intros x Hx. destruct (String.eqb_spec (c_id x) id') as [E|_]; [|by split; [|left]].
  split; [done|]. intros L. right. split; [done|].
  assert (x = c) as -> by (apply (distinct_same_connection s); congruence).
  rewrite live_check in B by done. exact B.
Qed.

Lemma effect_conns now o p s s' n sp :
  distinct_connections s -> effect now o p s = (s', n, sp) -> conns_step (o_id o) s s'.
Proof.
  intros Hd. destruct p; cbn; try (intros [= <- <- <-]; by apply cs_same);
    try (intros [= <- <- <-]; by (apply touch_conns || apply next_sync_conns || apply disable_conns)).
  - destruct (claim_job _ _ _ _ _) as [[j|] x] eqn:E; intros [= <- <- <-];
      [apply claim_job_spec in E as (? & _ & _ & _ & ->)|apply claim_none in E as ->]; by apply cs_same.
  - destruct (o_provider o); intros [= <- <- <-]; by apply cs_same.
  - destruct (enqueue_job _ _ _ _ _ _ _ _ _) as [[j x]|[]] eqn:E; intros [= <- <- <-];
      [apply enqueue_spec in E as (_ & E & _); by apply cs_same|by apply cs_same..].
  - destruct (find_orphaned_jobs _ _ _ _ _) as [rows|]; intros [= <- <- <-]; by apply cs_same.
  - unfold insert_connection. destruct (negb _); [intros [= <- <- <-]; by apply cs_same|].
    destruct (slot_taken _ _ _ _) eqn:E; intros [= <- <- <-]; [by apply cs_same|]. by eapply cs_new.
  - destruct (enqueue_job _ _ _ _ _ _ _ _ _) as [[j x]|[]] eqn:E; intros [= <- <- <-];
      [apply enqueue_spec in E as (_ & E & _); by apply cs_same|by apply cs_same..].
  - destruct (update_connection _ _ _ _ _ _) as [[[c|] x]|[]] eqn:E; intros [= <- <- <-];
      [by apply (update_conns _ (o_id o)) in E as [? _]..|by apply cs_same|by apply cs_same].
  - destruct (enqueue_job _ _ _ _ _ _ _ _ _) as [[j x]|[]] eqn:E; intros [= <- <- <-];
      [apply enqueue_spec in E as (_ & E & _); by apply cs_same|by apply cs_same..].
Qed.

Lemma step_conns now o a p s s' n sp :
  distinct_connections s -> step now o a p s = (s', n, sp) -> conns_step (o_id o) s s'.
Proof.
  intros Hd [[-> _]|(n' & sp' & E & _)]%step_cases; [by apply cs_same|by eapply effect_conns].
Qed.

Lemma conns_distinct id s s' :
  conns_step id s s' -> fresh_id id s = true -> distinct_connections s -> distinct_connections s'.
Proof.
  intros [f k E M|c E Hid _] Hf Hd; unfold distinct_connections in *; rewrite E.
  - rewrite map_map. rewrite (map_ext_in _ c_id); [done|]. intros x Hx%list_elem_of_In. by apply M in Hx as [[? _] _].
  - rewrite map_app. apply nodup_snoc; [done|]. rewrite Hid. intros (x & Ex & Hx)%list_elem_of_fmap.
    unfold fresh_id in Hf. apply andb_true_iff in Hf as [_ Hf]. apply negb_true_iff in Hf.
    rewrite <- not_true_iff_false in Hf. apply Hf, existsb_exists. exists x. split; [by apply list_elem_of_In|].
    by apply String.eqb_eq.
Qed.

(** A depot has one connection to a provider that is not disabled. *)
Definition one_live (s : store) : Prop :=
  forall a b, a ∈ connections s -> b ∈ connections s -> live a -> live b ->
  c_site_id a = c_site_id b -> c_provider_key a = c_provider_key b -> c_id a = c_id b.

Lemma slot_free id site prov s c :
  slot_taken id site prov s = false -> c ∈ connections s -> live c -> c_site_id c = site ->
  c_provider_key c = prov -> c_id c = id.
Proof.
  intros Hs Hc L <- <-. destruct (String.eqb_spec (c_id c) id) as [|Hne]; [done|].
  unfold slot_taken in Hs. rewrite <- not_true_iff_false in Hs. destruct Hs. apply existsb_exists. exists c.
  split; [by apply list_elem_of_In|]. rewrite !String.eqb_refl, live_check by done.
  apply String.eqb_neq in Hne. by rewrite Hne.
Qed.

Lemma conns_one_live id s s' : conns_step id s s' -> one_live s -> one_live s'.
Proof.
  intros [f k E M|c E Hid Hs] Ho a b; rewrite E.
  - intros (x & -> & Hx)%list_elem_of_fmap (y & -> & Hy)%list_elem_of_fmap La Lb Es Ep.
    destruct (M x Hx) as [(-> & Ex1 & Ex2 & _) Lx]. destruct (M y Hy) as [(-> & Ey1 & Ey2 & _) Ly].
    rewrite Ex1, Ey1 in Es. rewrite Ex2, Ey2 in Ep.
    destruct (Lx La) as [Lx'|[Kx Sx]], (Ly Lb) as [Ly'|[Ky Sy]].
    + by apply Ho.
    + rewrite Ky. by eapply slot_free.
    + rewrite Kx. symmetry. by eapply slot_free.
    + congruence.
  - rewrite !elem_of_app, !list_elem_of_singleton. intros [Ha| ->] [Hb| ->] La Lb Es Ep; [by apply Ho| | |done].
    + rewrite Hid. by eapply slot_free.
    + rewrite Hid. symmetry. by eapply slot_free.
Qed.

(** ** Reachable states *)

Record consistent (s : store) : Prop := {
  co_jobs : distinct_jobs s;
  co_connections : distinct_connections s;
  co_active : one_active s;
  co_live : one_live s
}.

Lemma step_consistent now o a p s s' n sp :
  consistent s -> fresh_id (o_id o) s = true -> step now o a p s = (s', n, sp) -> consistent s'.
Proof.
  intros [H1 H2 H3 H4] Hf E. pose proof (step_jobs _ _ _ _ _ _ _ _ H1 E) as J.
  pose proof (step_conns _ _ _ _ _ _ _ _ H2 E) as C. split;
    eauto using step_distinct, step_one_active, conns_distinct, conns_one_live.
Qed.

(** A property of the store and of the processes that every event keeps holds of every
    state that is reached. *)
Lemma exec_Step i now o a w w' :
  exec (Step i now o a) w = Some w' ->
  exists p n sp, w_procs w !! i = Some p /\ fresh_id (o_id o) (w_store w) = true
    /\ step now o a p (w_store w) = (w_store w', n, sp)
    /\ w_procs w' = delete i (w_procs w) ++ continue n ++ sp.
Proof.
  cbn. destruct (w_procs w !! i) as [p|]; [|done]. destruct (fresh_id _ _) eqn:F; [|done]. cbn.
  destruct (step now o a p (w_store w)) as [[s n] sp] eqn:E. intros [= <-]. by exists p, n, sp.
Qed.

Lemma exec_consistent e w w' : exec e w = Some w' -> consistent (w_store w) -> consistent (w_store w').
Proof.
  destruct e as [e|i now o a|i].
  - by intros [= <-].
  - intros (p & n & sp & _ & F & E & _)%exec_Step C. by eapply step_consistent.
  - cbn. destruct (w_procs w !! i); [|done]. by intros [= <-].
Qed.

Lemma run_ind (P : world -> Prop) es w w' :
  (forall e w w', exec e w = Some w' -> P w -> P w') -> run_events es w = Some w' -> P w -> P w'.
Proof.
  intros HP. revert w. induction es as [|e es IH]; intros w; cbn; [by intros [= <-]|].
  destruct (exec e w) as [w1|] eqn:E; [|done]. eauto.
Qed.

Lemma initial_consistent : consistent (w_store initial_world).
Proof.
  split; try apply NoDup_nil_2; intros a b Ha; by apply not_elem_of_nil in Ha.
Qed.

Lemma reachable_consistent es w : run_events es initial_world = Some w -> consistent (w_store w).
Proof.
  intros R. apply (run_ind (fun w => consistent (w_store w)) es initial_world w); [apply exec_consistent|done|].
  apply initial_consistent.
Qed.

(** ** Workers *)

(** A process that will claim a pending job, or finish a running one. *)
Definition holds (id : string) (st : job_status) (p : proc) : Prop :=
  match p with
  | Claim id' _ _ => id' = id /\ st = pending
  | Secret j | FinalizeMissing j | Ingesting j _ | Finalize j _ => j_id j = id /\ st = running
  | Crashed id' => id' = id
  | _ => False
  end.

#[local] Instance holds_dec id st p : Decision (holds id st p).
Proof. destruct p; cbn; apply _. Defined.

Definition attended (s : store) (ps : list proc) : Prop :=
  forall j, j ∈ jobs s -> is_active (j_status j) = true -> exists p, p ∈ ps /\ holds (j_id j) (j_status j) p.

(** The job a worker has claimed. *)
Definition claimed_by (p : proc) : option string :=
  match p with
  | Secret j | FinalizeMissing j | Ingesting j _ | Finalize j _ | Touch j _ | AuditRun j _ => Some (j_id j)
  | _ => None
  end.

Definition started (s : store) (ps : list proc) : Prop :=
  forall p id, p ∈ ps -> claimed_by p = Some id -> exists j, j ∈ jobs s /\ j_id j = id /\ j_status j <> pending.

(** Events in which nothing dies: no process is killed, an inserted job is not reported
    as failed, and the last resort of a crashed worker is not refused. *)
Definition undisturbed (e : event) (w : world) : Prop :=
  match e with
  | Begin _ => True
  | Kill _ => False
  | Step i _ _ a =>
      match w_procs w !! i with
      | Some (Crashed _) => a <> Refused
      | Some (TickEnqueue _ _ | CreateEnqueue _ _ | SyncEnqueue _ _) => a <> AnsweredLost
      | _ => True
      end
  end.

Fixpoint all_undisturbed (es : list event) (w : world) : Prop :=
  match es with
  | [] => True
  | e :: es' => undisturbed e w /\ match exec e w with Some w' => all_undisturbed es' w' | None => True end
  end.

(** What a step owes to the jobs in flight after it: each was in flight before with the
    same status and is not the process's own, or the process or its worker holds it. *)
Definition pays (p : proc) (s s' : store) (qs : list proc) : Prop :=
  forall j', j' ∈ jobs s' -> is_active (j_status j') = true ->
    (exists j, j ∈ jobs s /\ j_id j = j_id j' /\ j_status j = j_status j' /\ ~ holds (j_id j) (j_status j) p)
    \/ exists q, q ∈ qs /\ holds (j_id j') (j_status j') q.

Lemma pays_same p s s' qs :
  jobs s' = jobs s -> (forall id st, holds id st p -> exists q, q ∈ qs /\ holds id st q) -> pays p s s' qs.
Proof.
  intros E K j Hj _. rewrite E in Hj. destruct (decide (holds (j_id j) (j_status j) p)) as [Hh|Hh]; [right; eauto|left; eauto].
Qed.

Lemma pays_rows p s s' f qs :
  jobs s' = map f (jobs s) ->
  (forall j, j ∈ jobs s -> is_active (j_status (f j)) = true ->
     j_id (f j) = j_id j /\ ((j_status (f j) = j_status j /\ ~ holds (j_id j) (j_status j) p)
                            \/ exists q, q ∈ qs /\ holds (j_id j) (j_status (f j)) q)) ->
  pays p s s' qs.
Proof.
  intros E F j'. rewrite E. intros (j & -> & Hj)%list_elem_of_fmap A. destruct (F j Hj A) as [-> [[K1 K2]|K]].
  - left. exists j. by rewrite K1.
  - by right.
Qed.

Lemma pays_finalize now id st fields e b allow p s qs :
  (forall id' st, holds id' st p -> id' = id) ->
  (allow = false -> forall j, j ∈ jobs s -> j_id j = id -> j_status j <> pending) ->
  pays p s (finalize_job now id st fields e b allow s) qs.
Proof.
  intros Hid Hp. eapply pays_rows; [done|]. intros j Hj. cbn.
  destruct (String.eqb_spec (j_id j) id) as [E|Hne]; cbn.
  - destruct allow.
    + destruct (is_active (j_status j)) eqn:Act; [done|]. congruence.
    + specialize (Hp eq_refl j Hj E). case_bool_decide as R; [done|]. by destruct (j_status j).
  - intros _. split; [done|]. left. split; [done|]. intros Hh. by apply Hid in Hh.
Qed.

Lemma pays_new p s s' j qs :
  jobs s' = jobs s ++ [j] -> (forall id st, ~ holds id st p) -> j_status j = pending ->
  Claim (j_id j) false None ∈ qs -> pays p s s' qs.
Proof.
  intros E Hn Hs Hq x. rewrite E, elem_of_app, list_elem_of_singleton. intros [Hx| ->] A.
  - left. exists x. by split_and!.
  - right. exists (Claim (j_id j) false None). by rewrite Hs.
Qed.

Lemma claim_pays now id allow lease s r s' qs :
  distinct_jobs s -> claim_job now id allow lease s = (r, s') ->
  (r <> None -> exists q, q ∈ qs /\ holds id running q) ->
  pays (Claim id allow lease) s s' qs.
Proof.
  intros Hd E Hq. destruct r as [r|].
  - apply claim_job_spec in E as (x & [Hx Hid]%find_job_in & Hc & -> & ->). eapply pays_rows; [done|].
    intros j Hj. cbn. destruct (String.eqb_spec (j_id j) id) as [Ej|Hne]; cbn; intros _.
    + split; [done|]. right. rewrite Ej. by apply Hq.
    + split; [done|]. left. split; [done|]. intros [? _]. congruence.
  - intros j Hj _. pose proof E as E'. apply claim_none in E' as ->. left. exists j. split_and!; [done..|].
    intros [Hid Hst]. unfold claim_job in E.
    assert (find_job id s = Some j) as F.
    { unfold find_job. destruct (List.find _ _) as [y|] eqn:F.
      - apply find_some in F as [Hy%list_elem_of_In Ey%String.eqb_eq]. f_equal. apply (distinct_same s); congruence.
      - pose proof (find_none _ _ F j (proj1 (list_elem_of_In _ _) Hj)) as Hn. cbn in Hn.
        by rewrite <- Hid, String.eqb_refl in Hn. }
    rewrite F in E. unfold claimable in E. by rewrite Hst in E.
Qed.

Lemma start_holds o j c id st :
  j_id j = id -> st = running -> exists q, q ∈ continue (start_ingestion env providers o j c) /\ holds id st q.
Proof.
  intros <- ->. unfold start_ingestion. destruct (decrypt_credentials _ _ _) as [|[d|]]; [..];
    try destruct (dget _ _); eexists; (split; [apply list_elem_of_here|done]).
Qed.

(** A process that holds no job and does not touch the table. *)
Lemma idle_pays p s s' qs : jobs s' = jobs s -> (forall id st, ~ holds id st p) -> pays p s s' qs.
Proof. intros E Hn. apply pays_same; [done|]. intros id st Hh. by apply Hn in Hh. Qed.

Lemma insert_jobs now id org site prov name cfg tok v iv sch nx by_ s c s' :
  insert_connection now id org site prov name cfg tok v iv sch nx by_ s = Ok (c, s') -> jobs s' = jobs s.
Proof. unfold insert_connection. destruct (negb _); [done|]. destruct (slot_taken _ _ _ _); [done|]. by intros [= <- <-]. Qed.

Lemma update_jobs now id u cr cfg s r s' : update_connection now id u cr cfg s = Ok (r, s') -> jobs s' = jobs s.
Proof.
  unfold update_connection. destruct (find_connection _ _); [|by intros [= <- <-]].
  destruct (negb _); [done|]. destruct (_ && _); [done|]. by intros [= <- <-].
Qed.

Lemma enqueue_pays now id conn org site prov tr by_ s p qs :
  (forall id st, ~ holds id st p) ->
  match enqueue_job now id conn org site prov tr by_ s with
  | Ok (j, s') => Claim (j_id j) false None ∈ qs -> pays p s s' qs
  | Err _ => True
  end.
Proof.
  intros Hn. destruct (enqueue_job _ _ _ _ _ _ _ _ _) as [[j s']|] eqn:E; [|done].
  apply enqueue_spec in E as (E & _ & _ & _ & Hs & _). intros Hq. by eapply pays_new.
Qed.

Lemma disable_pays now id p s qs : (forall id st, ~ holds id st p) -> pays p s (disable_connection now id s) qs.
Proof.
  intros Hn. eapply pays_rows; [done|]. intros j _. cbn. destruct (_ && _); [done|]. intros _. split; [done|]. by left.
Qed.

(** The jobs claimed by a process are not pending. *)
Definition ready (p : proc) (s : store) : Prop :=
  forall id, claimed_by p = Some id -> forall j, j ∈ jobs s -> j_id j = id -> j_status j <> pending.

Lemma report_pays now j ctx fields s :
  pays (Ingesting j ctx) s (merge_job_progress now (j_id j) fields s) [Ingesting j ctx].
Proof.
  eapply pays_rows; [done|]. intros x Hx. cbn. intros _. split; [by destruct (String.eqb _ _)|].
  replace (j_status (if String.eqb (j_id x) (j_id j) then merge_row now fields x else x))
    with (j_status x) by (by destruct (String.eqb _ _)).
  destruct (decide (holds (j_id x) (j_status x) (Ingesting j ctx))) as [Hh|Hh]; [right|by left].
  exists (Ingesting j ctx). split; [left|done].
Qed.

Lemma effect_pays now o p s s' n sp :
  distinct_jobs s -> ready p s -> effect now o p s = (s', n, sp) -> pays p s s' (continue n ++ sp).
Proof.
  intros Hd Hr. destruct p; cbn.
  all: try (intros [= <- <- <-]; apply idle_pays; [done|by intros ? ? []]).
  - destruct (claim_job _ _ _ _ _) as [[r|] x] eqn:E; intros [= <- <- <-]; (eapply claim_pays; [done..|]); [|done].
    intros _. exists (Secret r). split; [left|]. apply claim_job_spec in E as (y & [_ Hy]%find_job_in & _ & -> & _). by split.
  - intros [= <- <- <-]. apply pays_same; [done|]. intros id st [H1 H2]. rewrite app_nil_r.
    destruct (find_connection _ _); [by apply start_holds|]. exists (FinalizeMissing j). split; [left|done].
  - intros [= <- <- <-]. apply pays_finalize; [by intros id' st []|]. intros _. by apply Hr.
  - destruct (o_provider o); intros [= <- <- <-].
    + apply report_pays.
    + apply pays_same; [done|]. intros id st Hh. eexists. split; [left|done].
    + apply pays_same; [done|]. intros id st Hh. eexists. split; [left|done].
  - intros [= <- <- <-]. apply pays_finalize; [by intros id' st []|]. intros _. by apply Hr.
  - intros [= <- <- <-]. apply pays_finalize; [by intros id' st|]. done.
  - pose proof (enqueue_pays now (o_id o) (c_id c) (c_organization_id c) (c_site_id c) (c_provider_key c)
                  scheduled None s (TickEnqueue c rest)) as Q.
    destruct (enqueue_job _ _ _ _ _ _ _ _ _) as [[j x]|[]]; intros [= <- <- <-];
      [apply Q; [by intros ? ? []|set_solver]|by apply idle_pays; [|intros ? ? []]..].
  - destruct (find_orphaned_jobs _ _ _ _ _); intros [= <- <- <-]; by apply idle_pays; [|intros ? ? []].
  - destruct (insert_connection _ _ _ _ _ _ _ _ _ _ _ _ _ _) as [[c x]|[]] eqn:E; intros [= <- <- <-];
      [apply insert_jobs in E|..]; by apply idle_pays; [|intros ? ? []].
  - pose proof (enqueue_pays now (o_id o) (c_id c) (ca_org u) (c_site_id c) (c_provider_key c)
                  manual (ca_user u) s (CreateEnqueue u c)) as Q.
    destruct (enqueue_job _ _ _ _ _ _ _ _ _) as [[j x]|[]]; intros [= <- <- <-];
      [apply Q; [by intros ? ? []|set_solver]|by apply idle_pays; [|intros ? ? []]..].
  - destruct (update_connection _ _ _ _ _ _) as [[[c|] x]|[]] eqn:E; intros [= <- <- <-];
      [apply update_jobs in E..| |]; by apply idle_pays; [|intros ? ? []].
  - intros [= <- <- <-]. apply disable_pays. by intros ? ? [].
  - pose proof (enqueue_pays now (o_id o) (c_id rec) (ca_org u) (c_site_id rec) (c_provider_key rec)
                  manual (ca_user u) s (SyncEnqueue u rec)) as Q.
    destruct (enqueue_job _ _ _ _ _ _ _ _ _) as [[j x]|[]]; intros [= <- <- <-];
      [apply Q; [by intros ? ? []|set_solver]|by apply idle_pays; [|intros ? ? []]..].
Qed.

Lemma lost_pays now o p s s' n sp :
  distinct_jobs s -> ready p s -> effect now o p s = (s', n, sp) ->
  match p with TickEnqueue _ _ | CreateEnqueue _ _ | SyncEnqueue _ _ => False | _ => True end ->
  pays p s s' (continue (on_error p)).
Proof.
  intros Hd Hr. destruct p; cbn; try done.
  all: try (intros [= <- <- <-] _; apply idle_pays; [done|by intros ? ? []]).
  - destruct (claim_job _ _ _ _ _) as [[r|] x] eqn:E; intros [= <- <- <-] _; (eapply claim_pays; [done..|]); [|done].
    intros _. exists (Crashed id). split; [left|done].
  - intros [= <- <- <-] _. apply pays_same; [done|]. intros id st [H1 _]. exists (Crashed (j_id j)). split; [left|done].
  - intros [= <- <- <-] _. apply pays_finalize; [by intros id' st []|]. intros _. by apply Hr.
  - destruct (o_provider o); intros [= <- <- <-] _; [apply report_pays|apply pays_same; [done|]..];
      intros id st Hh; exists (Ingesting j ctx); (split; [left|done]).
  - intros [= <- <- <-] _. apply pays_finalize; [by intros id' st []|]. intros _. by apply Hr.
  - intros [= <- <- <-] _. apply pays_finalize; [by intros id' st|]. done.
  - destruct (find_orphaned_jobs _ _ _ _ _); intros [= <- <- <-] _; by apply idle_pays; [|intros ? ? []].
  - destruct (insert_connection _ _ _ _ _ _ _ _ _ _ _ _ _ _) as [[c x]|[]] eqn:E; intros [= <- <- <-] _;
      [apply insert_jobs in E|..]; by apply idle_pays; [|intros ? ? []].
  - destruct (update_connection _ _ _ _ _ _) as [[[c|] x]|[]] eqn:E; intros [= <- <- <-] _;
      [apply update_jobs in E..| |]; by apply idle_pays; [|intros ? ? []].
  - intros [= <- <- <-] _. apply disable_pays. by intros ? ? [].
Qed.

Lemma on_error_holds p id st :
  match p with Crashed _ => False | _ => True end -> holds id st p ->
  exists q, q ∈ continue (on_error p) /\ holds id st q.
Proof.
  destruct p; cbn; try done; intros _ Hh; eexists; (split; [apply list_elem_of_here|]); cbn; naive_solver.
Qed.

Lemma step_pays now o a p s s' n sp :
  distinct_jobs s -> ready p s -> step now o a p s = (s', n, sp) ->
  match p with
  | Crashed _ => a <> Refused
  | TickEnqueue _ _ | CreateEnqueue _ _ | SyncEnqueue _ _ => a <> AnsweredLost
  | _ => True
  end -> pays p s s' (continue n ++ sp).
Proof.
  intros Hd Hr [(-> & -> & -> & ->)|(n' & sp' & E & [(-> & ->)|(-> & -> & ->)])]%step_cases B.
  - rewrite app_nil_r. apply pays_same; [done|]. intros id st. apply on_error_holds. by destruct p.
  - by eapply effect_pays.
  - rewrite app_nil_r. eapply lost_pays; [done..|]. by destruct p.
Qed.

(** ** Claimed jobs are not pending *)

Definition starts (s : store) (p : proc) : Prop :=
  forall id, claimed_by p = Some id -> exists j, j ∈ jobs s /\ j_id j = id /\ j_status j <> pending.

Lemma starts_moves now id s s' p : jobs_step now id s s' -> starts s p -> starts s' p.
Proof.
  intros J Hs i Hi. destruct (Hs i Hi) as (j & Hj & Hid & Hp). destruct J as [f E M|x E _ _ _ _ _ _]; rewrite E.
  - exists (f j). destruct (M j Hj) as [((Ei & _) & L & _) _]. split; [by apply list_elem_of_fmap_2|]. split; [congruence|].
    by destruct (j_status j), (j_status (f j)).
  - exists j. rewrite elem_of_app. auto.
Qed.

Lemma starts_ready s p : distinct_jobs s -> starts s p -> ready p s.
Proof.
  intros Hd Hs id Hid j Hj Ej. destruct (Hs id Hid) as (x & Hx & Ex & Hp).
  by rewrite (distinct_same s j x Hd Hj Hx) by congruence.
Qed.

Lemma tick_claims rest q i : q ∈ continue (tick rest) -> claimed_by q <> Some i.
Proof. destruct rest; cbn; [by intros ?%not_elem_of_nil|by intros ->%list_elem_of_singleton]. Qed.

Lemma on_error_claims p q i : q ∈ continue (on_error p) -> claimed_by q = Some i -> claimed_by p = Some i.
Proof.
  intros Hq Hi. destruct p; cbn in Hq; try (apply list_elem_of_singleton in Hq as ->); try done;
    try (by apply not_elem_of_nil in Hq); exfalso; by eapply tick_claims.
Qed.

Lemma start_claims o j c q i :
  q ∈ continue (start_ingestion env providers o j c) -> claimed_by q = Some i -> j_id j = i.
Proof.
  unfold start_ingestion. destruct (decrypt_credentials _ _ _) as [|[d|]]; [..];
    try destruct (dget _ _); intros ->%list_elem_of_singleton; cbn; congruence.
Qed.

Lemma patch_claims u rec body q i :
  q ∈ continue (patch_checks env enabled providers u rec body) -> claimed_by q <> Some i.
Proof.
  unfold patch_checks. destruct (patch_updates body) as [up|]; [|by intros ?%not_elem_of_nil].
  destruct (ur_credentials body).
  - destruct (negb _); [by intros ?%not_elem_of_nil|].
    destruct (dget _ _); [by intros ->%list_elem_of_singleton|by intros ?%not_elem_of_nil].
  - destruct (no_updates up); [by intros ?%not_elem_of_nil|by intros ->%list_elem_of_singleton].
Qed.

(** Solve a goal about the only process that goes on. *)
Ltac one_next :=
  cbn in *; repeat match goal with
  | Hq : _ ∈ [] |- _ => by apply not_elem_of_nil in Hq
  | Hq : _ ∈ [_] |- _ => apply list_elem_of_singleton in Hq; subst
  | Hq : _ ∈ continue (tick _) |- _ => exfalso; eapply tick_claims; eassumption
  end; try done.

(** A job is claimed only by [claim_job]. *)
Lemma effect_claims now o p s s' n sp q i :
  effect now o p s = (s', n, sp) -> q ∈ continue n ++ sp -> claimed_by q = Some i ->
  claimed_by p = Some i \/ exists id allow lease j, p = Claim id allow lease /\ claim_job now id allow lease s = (Some j, s') /\ j_id j = i.
Proof.
  intros E Hq Hi. destruct p; cbn in E.
  all: try (injection E as <- <- <-; rewrite app_nil_r in Hq; left; one_next; fail).
  - destruct (claim_job _ _ _ _ _) as [[r|] x] eqn:C; injection E as <- <- <-; rewrite app_nil_r in Hq; one_next.
    right. injection Hi as <-. naive_solver.
  - injection E as <- <- <-. rewrite app_nil_r in Hq. left. cbn. f_equal. destruct (find_connection _ _).
    + by eapply start_claims.
    + one_next. by injection Hi.
  - left. destruct (o_provider o); injection E as <- <- <-; one_next.
  - injection E as <- <- <-. rewrite app_nil_r in Hq. destruct (find_due_connections _ _ _); one_next.
  - destruct (enqueue_job _ _ _ _ _ _ _ _ _) as [[j x]|[]]; injection E as <- <- <-; rewrite ?app_nil_r in Hq; one_next.
    by apply elem_of_cons in Hq as [->|Hq]; one_next.
  - destruct (find_orphaned_jobs _ _ _ _ _) as [rows|]; injection E as <- <- <-; [|one_next].
    apply elem_of_app in Hq as [Hq|Hq].
    + destruct (last rows); [|one_next]. destruct (_ <? _); one_next.
    + by apply list_elem_of_fmap in Hq as (j & -> & _).
  - injection E as <- <- <-. rewrite app_nil_r in Hq. destruct (o_validation o); [|one_next..].
    destruct (encrypt_credentials _ _ _) as [[]|]; one_next.
  - destruct (insert_connection _ _ _ _ _ _ _ _ _ _ _ _ _ _) as [[c x]|[]]; injection E as <- <- <-; one_next.
  - destruct (enqueue_job _ _ _ _ _ _ _ _ _) as [[j x]|[]]; injection E as <- <- <-; one_next.
  - injection E as <- <- <-. rewrite app_nil_r in Hq. destruct (get_connection _ _ _); [|one_next].
    exfalso. by eapply patch_claims.
  - injection E as <- <- <-. rewrite app_nil_r in Hq. destruct (o_validation o); [|one_next..].
    destruct (encrypt_credentials _ _ _) as [[]|]; one_next.
  - destruct (update_connection _ _ _ _ _ _) as [[[c|] x]|[]]; injection E as <- <- <-; one_next.
  - injection E as <- <- <-. rewrite app_nil_r in Hq. destruct (get_connection _ _ _); one_next.
  - injection E as <- <- <-. rewrite app_nil_r in Hq. destruct (negb _); [one_next|].
    destruct (get_connection _ _ _) as [c|]; [|one_next]. destruct (c_status c); one_next.
  - destruct (enqueue_job _ _ _ _ _ _ _ _ _) as [[j x]|[]]; injection E as <- <- <-; rewrite ?app_nil_r in Hq; one_next.
    by apply elem_of_cons in Hq as [->|Hq]; one_next.
Qed.

Lemma next_starts now o a p s s' n sp q :
  distinct_jobs s -> starts s p -> step now o a p s = (s', n, sp) -> q ∈ continue n ++ sp -> starts s' q.
Proof.
  intros Hd Hs E Hq i Hi. pose proof (starts_moves _ _ _ _ _ (step_jobs _ _ _ _ _ _ _ _ Hd E) Hs) as Hs'.
  apply step_cases in E as [(-> & -> & -> & _)|(n' & sp' & E & [[-> ->]|(-> & -> & _)])].
  - rewrite app_nil_r in Hq. apply Hs'. by eapply on_error_claims.
  - destruct (effect_claims _ _ _ _ _ _ _ _ _ E Hq Hi) as [|(id & allow & lease & j & -> & C & <-)]; [by apply Hs'|].
    apply claim_job_spec in C as (r & [Hr Hid]%find_job_in & _ & -> & ->). exists (claim_row now r).
    split; [|done]. cbn. apply list_elem_of_fmap. exists r. by rewrite Hid, String.eqb_refl.
  - rewrite app_nil_r in Hq. apply Hs'. by eapply on_error_claims.
Qed.

(** ** No job in flight without a worker *)

Record staffed (w : world) : Prop := {
  st_consistent : consistent (w_store w);
  st_starts : forall p, p ∈ w_procs w -> starts (w_store w) p;
  st_attended : attended (w_store w) (w_procs w)
}.

Lemma delete_lookup_cases {A} (l : list A) i p x : l !! i = Some p -> x ∈ l -> x = p \/ x ∈ delete i l.
Proof.
  intros Hi Hx. rewrite delete_take_drop. rewrite <- (take_drop_middle l i p Hi) in Hx.
  apply elem_of_app in Hx as [Hx|[->|Hx]%elem_of_cons]; rewrite ?elem_of_app; auto.
Qed.

Lemma exec_staffed e w w' : exec e w = Some w' -> undisturbed e w -> staffed w -> staffed w'.
Proof.
  intros X U [C S A]. assert (consistent (w_store w')) as C' by by eapply exec_consistent. split; [done| |].
  - destruct e as [e|i now o a|i].
    + injection X as <-. cbn. intros p [Hp|Hp]%elem_of_app; [by apply S|]. intros id Hid.
      destruct e; cbn in Hp; one_next. unfold create_connection in Hp. destruct (negb _); [one_next|].
      destruct (dget _ _); [|one_next]. destruct (_ <? _); one_next.
    + apply exec_Step in X as (p & n & sp & Hi & F & X & ->). apply list_elem_of_lookup_2 in Hi as Hp.
      intros q [Hq%list_elem_of_delete_inv|Hq]%elem_of_app.
      * eapply starts_moves; [|by apply S]. eapply step_jobs; [apply C|done].
      * eapply next_starts; [apply C|by apply S|done..].
    + done.
  - destruct e as [e|i now o a|i].
    + injection X as <-. cbn. intros j Hj Act. destruct (A j Hj Act) as (p & Hp & Hh). exists p. rewrite elem_of_app. auto.
    + apply exec_Step in X as (p & n & sp & Hi & F & X & ->). cbn in U. rewrite Hi in U.
      apply list_elem_of_lookup_2 in Hi as Hp.
      intros j Hj Act. destruct (step_pays _ _ _ _ _ _ _ _ (co_jobs _ C) (starts_ready _ _ (co_jobs _ C) (S p Hp)) X U j Hj Act)
        as [(x & Hx & Ei & Es & Hn)|(q & Hq & Hh)].
      * destruct (A x Hx) as (q & Hq & Hh); [by rewrite Es|]. exists q.
        destruct (delete_lookup_cases _ _ _ _ Hi Hq) as [->|Hd]; [done|]. rewrite elem_of_app. rewrite Ei, Es in Hh. auto.
      * exists q. rewrite elem_of_app. auto.
    + done.
Qed.

Lemma run_staffed es w w' : run_events es w = Some w' -> all_undisturbed es w -> staffed w -> staffed w'.
Proof.
  revert w. induction es as [|e es IH]; intros w; cbn; [by intros [= <-]|].
  destruct (exec e w) as [w1|] eqn:E; [|done]. intros R [U Us] S. eapply IH; [done..|by eapply exec_staffed].
Qed.

Lemma initial_staffed : staffed initial_world.
Proof.
  split; [apply initial_consistent|intros p Hp; by apply not_elem_of_nil in Hp|].
  intros j Hj; by apply not_elem_of_nil in Hj.
Qed.

(** C34: In every interleaving of requests, scheduler ticks, startup sweeps and workers
    of any number of servers, whatever statements fail and whatever processes die, a
    connection has at most one pending or running job, and a depot at most one
    connection to a provider that is not disabled. *)
Theorem one_sync_per_connection es w :
  run_events es initial_world = Some w ->
  (forall i j a b, jobs (w_store w) !! i = Some a -> jobs (w_store w) !! j = Some b ->
     is_active (j_status a) = true -> is_active (j_status b) = true ->
     j_connection_id a = j_connection_id b -> i = j)
  /\ (forall i j a b, connections (w_store w) !! i = Some a -> connections (w_store w) !! j = Some b ->
     c_status a <> disabled -> c_status b <> disabled ->
     c_site_id a = c_site_id b -> c_provider_key a = c_provider_key b -> i = j).
Proof.
  intros [Dj Dc Oa Ol]%reachable_consistent. split; intros i j a b Hi Hj La Lb.
  - intros E. apply list_elem_of_lookup_2 in Hi as Ha. apply list_elem_of_lookup_2 in Hj as Hb.
    apply (NoDup_lookup _ i j (j_id a) Dj); apply list_lookup_fmap_Some; [by exists a|].
    exists b. split; [by rewrite <- (Oa a b)|done].
  - intros E1 E2. apply list_elem_of_lookup_2 in Hi as Ha. apply list_elem_of_lookup_2 in Hj as Hb.
    apply (NoDup_lookup _ i j (c_id a) Dc); apply list_lookup_fmap_Some; [by exists a|].
    exists b. split; [by rewrite <- (Ol a b)|done].
Qed.

Lemma step_forward now id s s' j : jobs_step now id s s' -> j ∈ jobs s -> exists j', j' ∈ jobs s' /\ job_moves j j'.
Proof.
  intros [f E M|x E _ _ _ _ _ _] Hj; rewrite E.
  - exists (f j). split; [by apply list_elem_of_fmap_2|by apply M].
  - exists j. rewrite elem_of_app. by split; [left|].
Qed.

Lemma exec_forward e w w' j :
  exec e w = Some w' -> consistent (w_store w) -> j ∈ jobs (w_store w) ->
  exists j', j' ∈ jobs (w_store w') /\ job_moves j j'.
Proof.
  destruct e as [e|i now o a|i].
  - intros [= <-] _ Hj. by exists j.
  - intros (p & n & sp & _ & _ & X & _)%exec_Step C. eapply step_forward, step_jobs; [apply C|done].
  - cbn. destruct (w_procs w !! i); [|done]. intros [= <-] _ Hj. by exists j.
Qed.

(** C35: Every such history refines the life of a job: a job keeps its identity and only
    moves from pending to running to its verdict, and once it has ended its status,
    error, batch and times stay, whatever late workers, sweeps and endpoints still do.
    *)
Theorem jobs_only_move_forward es es' w w' j :
  run_events es initial_world = Some w -> run_events es' w = Some w' -> j ∈ jobs (w_store w) ->
  exists j', j' ∈ jobs (w_store w') /\ job_moves j j'.
Proof.
  intros R%reachable_consistent. revert w R j. induction es' as [|e es' IH]; intros w C j; cbn.
  - intros [= <-] Hj. by exists j.
  - destruct (exec e w) as [w1|] eqn:E; [|done]. intros R Hj.
    destruct (exec_forward _ _ _ _ E C Hj) as (j1 & Hj1 & M1).
    destruct (IH w1 (exec_consistent _ _ _ E C) j1 R Hj1) as (j2 & Hj2 & M2). exists j2. split; [done|by etrans].
Qed.

(** C36: As long as no process is killed, no inserted job is reported to its caller as
    failed and no crashed worker's last write is refused, every job in flight has a
    worker that will claim or finish it; so when all processes have ended every job has
    its verdict. *)
Theorem no_job_without_a_worker es w j :
  run_events es initial_world = Some w -> all_undisturbed es initial_world -> j ∈ jobs (w_store w) ->
  (is_active (j_status j) = true -> exists p, p ∈ w_procs w /\ holds (j_id j) (j_status j) p)
  /\ (w_procs w = [] -> exists r, j_status j = ended r).
Proof.
  intros R U Hj. destruct (run_staffed _ _ _ R U initial_staffed) as [_ _ A]. specialize (A j Hj). split; [done|].
  intros Hp. destruct (j_status j) as [| |r]; [..|by exists r];
    (destruct A as (p & Hin & _); [done|]; rewrite Hp in Hin; by apply not_elem_of_nil in Hin).
Qed.

(** ** Leases *)

(** The sweep's workers, which may take a running job. *)
Definition reclaims (q : proc) : Prop := match q with Claim _ true _ => True | _ => False end.

#[local] Instance reclaims_dec q : Decision (reclaims q).
Proof. destruct q as [? []| | | | | | | | | | | | | | | | | | | | | | | | | |]; cbn; apply _. Defined.

Lemma tick_reclaims rest q : q ∈ continue (tick rest) -> ~ reclaims q.
Proof. destruct rest; cbn; [by intros ?%not_elem_of_nil|by intros ->%list_elem_of_singleton []]. Qed.

Lemma start_reclaims o j c q : q ∈ continue (start_ingestion env providers o j c) -> ~ reclaims q.
Proof.
  unfold start_ingestion. destruct (decrypt_credentials _ _ _) as [|[d|]]; [..];
    try destruct (dget _ _); by intros ->%list_elem_of_singleton [].
Qed.

Lemma patch_reclaims u rec body q : q ∈ continue (patch_checks env enabled providers u rec body) -> ~ reclaims q.
Proof.
  unfold patch_checks. destruct (patch_updates body) as [up|]; [|by intros ?%not_elem_of_nil].
  destruct (ur_credentials body).
  - destruct (negb _); [by intros ?%not_elem_of_nil|].
    destruct (dget _ _); [by intros ->%list_elem_of_singleton []|by intros ?%not_elem_of_nil].
  - destruct (no_updates up); [by intros ?%not_elem_of_nil|by intros ->%list_elem_of_singleton []].
Qed.

Lemma on_error_reclaims p q : q ∈ continue (on_error p) -> ~ reclaims q.
Proof.
  intros Hq. destruct p; cbn in Hq; try (apply list_elem_of_singleton in Hq as ->); try (by intros []);
    try (by apply not_elem_of_nil in Hq); by eapply tick_reclaims.
Qed.

Lemma orphans_spec now after s rows j :
  find_orphaned_jobs now threshold page after s = Some rows -> j ∈ rows ->
  j ∈ jobs s /\ is_orphaned now threshold s j = true
  /\ match after with None => True | Some k => key_lt k (job_key j) = true end.
Proof.
  unfold find_orphaned_jobs. destruct (page <? 0); [done|]. intros [= <-] Hj.
  apply elem_of_take in Hj as (i & Hi & _). apply list_elem_of_lookup_2, elem_of_sort_by in Hi.
  apply list_elem_of_In, filter_In in Hi as [Hj%list_elem_of_In Hc%andb_true_iff].
  destruct Hc. split_and!; [done..|]. by destruct after.
Qed.

(** Only the sweep starts them, for the jobs it found. *)
Lemma effect_reclaims now o p s s' n sp q :
  effect now o p s = (s', n, sp) -> q ∈ continue n ++ sp -> reclaims q ->
  s' = s /\ exists j, q = recover j /\ j ∈ jobs s /\ is_orphaned now threshold s j = true.
Proof.
  intros E Hq Hi. destruct p; cbn in E.
  all: try (injection E as <- <- <-; rewrite app_nil_r in Hq; exfalso; one_next; fail).
  - destruct (claim_job _ _ _ _ _) as [[r|] x] eqn:C; injection E as <- <- <-; rewrite app_nil_r in Hq; one_next.
  - injection E as <- <- <-. rewrite app_nil_r in Hq. destruct (find_connection _ _); [|one_next].
    exfalso. by eapply start_reclaims.
  - destruct (o_provider o); injection E as <- <- <-; one_next.
  - injection E as <- <- <-. rewrite app_nil_r in Hq. destruct (find_due_connections _ _ _); [|one_next].
    exfalso. by eapply tick_reclaims.
  - destruct (enqueue_job _ _ _ _ _ _ _ _ _) as [[j x]|[]]; injection E as <- <- <-; rewrite ?app_nil_r in Hq; one_next.
    + by apply elem_of_cons in Hq as [->|Hq]; one_next.
    + exfalso. by eapply tick_reclaims.
  - injection E as <- <- <-. rewrite app_nil_r in Hq. exfalso. by eapply tick_reclaims.
  - destruct (find_orphaned_jobs _ _ _ _ _) as [rows|] eqn:F; injection E as <- <- <-; [|one_next].
    apply elem_of_app in Hq as [Hq|Hq].
    + destruct (last rows); [|one_next]. destruct (_ <? _); one_next.
    + apply list_elem_of_fmap in Hq as (j & -> & Hj). split; [done|]. exists j. split; [done|].
      by destruct (orphans_spec _ _ _ _ _ F Hj) as (? & ? & _).
  - injection E as <- <- <-. rewrite app_nil_r in Hq. destruct (o_validation o); [|one_next..].
    destruct (encrypt_credentials _ _ _) as [[]|]; one_next.
  - destruct (insert_connection _ _ _ _ _ _ _ _ _ _ _ _ _ _) as [[c x]|[]]; injection E as <- <- <-; one_next.
  - destruct (enqueue_job _ _ _ _ _ _ _ _ _) as [[j x]|[]]; injection E as <- <- <-; one_next.
  - injection E as <- <- <-. rewrite app_nil_r in Hq. destruct (get_connection _ _ _); [|one_next].
    exfalso. by eapply patch_reclaims.
  - injection E as <- <- <-. rewrite app_nil_r in Hq. destruct (o_validation o); [|one_next..].
    destruct (encrypt_credentials _ _ _) as [[]|]; one_next.
  - destruct (update_connection _ _ _ _ _ _) as [[[c|] x]|[]]; injection E as <- <- <-; one_next.
  - injection E as <- <- <-. rewrite app_nil_r in Hq. destruct (get_connection _ _ _); one_next.
  - injection E as <- <- <-. rewrite app_nil_r in Hq. destruct (negb _); [one_next|].
    destruct (get_connection _ _ _) as [c|]; [|one_next]. destruct (c_status c); one_next.
  - destruct (enqueue_job _ _ _ _ _ _ _ _ _) as [[j x]|[]]; injection E as <- <- <-; rewrite ?app_nil_r in Hq; one_next.
    by apply elem_of_cons in Hq as [->|Hq]; one_next.
Qed.

(** The database's clock moves between transactions. *)
Fixpoint ticking (t : Z) (es : list event) : Prop :=
  match es with
  | [] => True
  | Step _ now _ _ :: es' => t < now /\ ticking now es'
  | _ :: es' => ticking t es'
  end.

(** The lease a sweep's worker expects is expired if its job still runs under it. *)
Definition expired_claim (t : Z) (s : store) (p : proc) : Prop :=
  match p with
  | Claim id true lease =>
      exists l, lease = Some l /\ l <= t
        /\ forall j, j ∈ jobs s -> j_id j = id -> j_status j = running -> lease_at j = l -> l + threshold * usec < t
  | _ => True
  end.

Record leased (t : Z) (w : world) : Prop := {
  le_consistent : consistent (w_store w);
  le_past : forall j, j ∈ jobs (w_store w) -> lease_at j <= t;
  le_claims : forall p, p ∈ w_procs w -> expired_claim t (w_store w) p
}.

Lemma step_lease now id s s' t j' :
  jobs_step now id s s' -> t < now -> (forall j, j ∈ jobs s -> lease_at j <= t) -> j' ∈ jobs s' ->
  (j' ∈ jobs s \/ lease_at j' = now).
Proof.
  intros [f E M|x E _ _ Ha Hb Hc _] Ht Hp; rewrite E.
  - intros (j & -> & Hj)%list_elem_of_fmap. destruct (M j Hj) as [_ [->|Hh]]; [by left|].
    right. unfold lease_at. by rewrite Hh.
  - rewrite elem_of_app, list_elem_of_singleton. intros [Hj| ->]; [by left|]. right. unfold lease_at. by rewrite Ha, Hb.
Qed.

Lemma exec_leased e t w w' :
  exec e w = Some w' -> match e with Step _ now _ _ => t < now | _ => True end -> leased t w ->
  leased (match e with Step _ now _ _ => now | _ => t end) w'.
Proof.
  intros X Ht [C P L]. assert (consistent (w_store w')) as C' by by eapply exec_consistent.
  destruct e as [e|i now o a|i].
  - injection X as <-. split; [done..|]. cbn. intros p [Hp|Hp]%elem_of_app; [by apply L|].
    destruct e; cbn in Hp; one_next. unfold create_connection in Hp. destruct (negb _); [one_next|].
    destruct (dget _ _); [|one_next]. destruct (_ <? _); one_next.
  - apply exec_Step in X as (p & n & sp & Hi & F & X & Eps).
    pose proof (step_jobs _ _ _ _ _ _ _ _ (co_jobs _ C) X) as J.
    assert (forall j', j' ∈ jobs (w_store w') -> j' ∈ jobs (w_store w) \/ lease_at j' = now) as K
      by (intros j' Hj'; by eapply step_lease).
    split; [done| |].
    + intros j' [Hj|Hj]%K; [|lia]. specialize (P j' Hj). lia.
    + rewrite Eps. intros q [Hq%list_elem_of_delete_inv|Hq]%elem_of_app.
      * specialize (L q Hq). destruct q as [id [] lease| | | | | | | | | | | | | | | | | | | | | | | | | |]; try done.
        destruct L as (l & -> & Hl & L). exists l. split_and!; [done|lia|]. intros j' [Hj|Hj]%K; intros; [|lia].
        assert (l + threshold * usec < t) by eauto. lia.
      * destruct (decide (reclaims q)) as [R|R]; [|by destruct q as [id [] lease| | | | | | | | | | | | | | | | | | | | | | | | | |]].
        apply step_cases in X as [(_ & -> & -> & _)|(n' & sp' & E & [[-> ->]|(-> & -> & _)])];
          [by rewrite app_nil_r in Hq; apply on_error_reclaims in Hq| |by rewrite app_nil_r in Hq; apply on_error_reclaims in Hq].
        destruct (effect_reclaims _ _ _ _ _ _ _ _ E Hq R) as (Es & j & -> & Hj & Ho). rewrite Es. cbn.
        exists (lease_at j). split_and!; [done|specialize (P j Hj); lia|]. intros x Hx Hid Hr _.
        assert (x = j) as -> by (apply (distinct_same (w_store w)); [apply C|done..]).
        unfold is_orphaned in Ho. rewrite Hr in Ho. apply andb_true_iff in Ho as [Ho%Z.ltb_lt _]. lia.
  - cbn in X. destruct (w_procs w !! i) as [p0|]; [|done]. injection X as <-. split; [done..|]. cbn.
    intros p Hp%list_elem_of_delete_inv. by apply L.
Qed.

Lemma run_leased es t w w' :
  run_events es w = Some w' -> ticking t es -> leased t w ->
  exists t', leased t' w' /\ forall i now o a, ticking t (es ++ [Step i now o a]) -> t' < now.
Proof.
  revert t w. induction es as [|e es IH]; intros t w; cbn.
  - intros [= <-] _ L. exists t. split; [done|]. by intros i now o a [].
  - destruct (exec e w) as [w1|] eqn:E; [|done]. intros R T L.
    destruct e as [e|i now o a|i]; cbn in T |- *.
    + by eapply IH; [| |eapply (exec_leased (Begin e))].
    + destruct T as [T1 T2]. destruct (IH now w1 R T2) as (t' & L' & K).
      { by apply (exec_leased (Step i now o a) t w). }
      exists t'. split; [done|]. intros i' now' o' a' [_ K']. by eapply K.
    + by eapply IH; [| |eapply (exec_leased (Kill i))].
Qed.

Lemma initial_leased t : leased t initial_world.
Proof. split; [apply initial_consistent|intros j Hj|intros p Hp]; by apply not_elem_of_nil in Hj || apply not_elem_of_nil in Hp. Qed.

(** C37: With a clock that moves between transactions, a running job is taken from its
    worker only when its last heartbeat is older than the orphan threshold, however many
    servers sweep at once; so two sweeps never both win one lease. *)
Theorem job_taken_only_after_its_lease es w t i now o a id allow lease r s' j :
  run_events es initial_world = Some w -> ticking t (es ++ [Step i now o a]) ->
  w_procs w !! i = Some (Claim id allow lease) ->
  claim_job now id allow lease (w_store w) = (Some r, s') ->
  j ∈ jobs (w_store w) -> j_id j = id -> j_status j = running ->
  lease_at j + threshold * usec < now.
Proof.
  intros R T Hi Hc Hj Hid Hr.
  assert (ticking t es) as T'.
  { clear - T. revert t T. induction es as [|e es IH]; intros t; cbn; [done|]. destruct e; naive_solver. }
  destruct (run_leased es t _ w R T' (initial_leased t)) as (t' & [C _ L] & K). specialize (K i now o a T).
  apply claim_job_spec in Hc as (x & [Hx Ex]%find_job_in & Hc & _ & _).
  assert (x = j) as -> by (apply (distinct_same (w_store w)); [apply C|done|done|congruence]).
  unfold claimable in Hc. rewrite Hr in Hc. apply andb_true_iff in Hc as [-> Hc].
  destruct (L _ (list_elem_of_lookup_2 _ _ _ Hi)) as (l & -> & _ & E). apply Z.eqb_eq in Hc.
  specialize (E j Hj Hid Hr Hc). lia.
Qed.

(** ** Connections an operator has stopped *)

(** Only a patch brings back a disabled connection, and only a patch or a deletion
    changes a paused one: no worker, tick or sweep does. *)
Lemma stopped_connections_stay now o a p s s' n sp c :
  step now o a p s = (s', n, sp) -> match p with PatchUpdate _ _ _ _ _ => False | _ => True end ->
  c ∈ connections s ->
  exists c', c' ∈ connections s' /\ c_id c' = c_id c
    /\ (c_status c = disabled -> c_status c' = disabled)
    /\ (c_status c = paused -> c_status c' = paused \/ exists u rec, p = DeleteDisable u rec).
Proof.
  intros X Hp Hc. assert (s' = s \/ exists n' sp', effect now o p s = (s', n', sp')) as [->|(n' & sp' & E)];
    [apply step_cases in X as [[-> _]|(n' & sp' & E & _)]; eauto|exists c; naive_solver|]. clear X.
  assert (connections s' = connections s -> exists c', c' ∈ connections s' /\ c_id c' = c_id c
    /\ (c_status c = disabled -> c_status c' = disabled)
    /\ (c_status c = paused -> c_status c' = paused \/ exists u rec, p = DeleteDisable u rec)) as K
    by (intros ->; exists c; naive_solver).
  destruct p; cbn in E; try done; try (injection E as <- <- <-; by apply K).
  - destruct (claim_job _ _ _ _ _) as [[j|] x] eqn:F; injection E as <- <- <-;
      [apply claim_job_spec in F as (? & _ & _ & _ & ->)|apply claim_none in F as ->]; by apply K.
  - destruct (o_provider o); injection E as <- <- <-; by apply K.
  - injection E as <- <- <-. eexists. split; [by apply (list_elem_of_fmap_2 _ _ c)|]. cbn.
    destruct (String.eqb _ _); [|naive_solver]. split; [done|]. cbn. by split; intros ->; [|left].
  - destruct (enqueue_job _ _ _ _ _ _ _ _ _) as [[j x]|[]] eqn:F; injection E as <- <- <-;
      [apply enqueue_spec in F as (_ & F & _)|..]; by apply K.
  - injection E as <- <- <-. eexists. split; [by apply (list_elem_of_fmap_2 _ _ c)|]. cbn.
    destruct (String.eqb _ _); naive_solver.
  - destruct (find_orphaned_jobs _ _ _ _ _); injection E as <- <- <-; by apply K.
  - unfold insert_connection in E. destruct (negb _); [injection E as <- <- <-; by apply K|].
    destruct (slot_taken _ _ _ _); injection E as <- <- <-; [by apply K|]. exists c. cbn. rewrite elem_of_app. naive_solver.
  - destruct (enqueue_job _ _ _ _ _ _ _ _ _) as [[j x]|[]] eqn:F; injection E as <- <- <-;
      [apply enqueue_spec in F as (_ & F & _)|..]; by apply K.
  - injection E as <- <- <-. eexists. split; [by apply (list_elem_of_fmap_2 _ _ c)|]. cbn.
    destruct (_ && _); naive_solver.
  - destruct (enqueue_job _ _ _ _ _ _ _ _ _) as [[j x]|[]] eqn:F; injection E as <- <- <-;
      [apply enqueue_spec in F as (_ & F & _)|..]; by apply K.
  - injection E as <- <- <-. eexists. split; [by apply (list_elem_of_fmap_2 _ _ c)|]. cbn.
    destruct (String.eqb _ _); naive_solver.
Qed.
End Facts.

(** ** Examples *)

Definition ex_provider : provider :=
  {| credential_fields := [("username"%string, false); ("password"%string, true); ("locationId"%string, false)];
     default_sync_interval_minutes := 1440 |}.
Definition ex_run : list event -> option world :=
  fun es => @run_events toy_fernet toy_json (Some "aaaa"%string) true [("kempower"%string, ex_provider)] 1800 50 100 es
    initial_world.
Definition ex_result : IngestionResult :=
  {| ir_status := partial; chargers_created := 2; vehicles_created := 0; sessions_inserted := 5;
     access_rows_upserted := 0; skipped := ["x"%string]; ir_error_detail := None |}.
Definition ex_oracle (id : string) : oracle :=
  {| o_id := id; o_batch := "b1"; o_nonce := "n"; o_provider := Returns ex_result; o_validation := Valid |}.
Definition ex_admin : caller := {| ca_org := "org"; ca_user := Some "admin"%string |}.
Definition ex_create : entry := CreateRequest ex_admin
  {| cr_depot_id := "d1"; cr_provider_key := "kempower"; cr_display_name := None;
     cr_sync_interval_minutes := None; cr_scheduled_sync_enabled := true;
     cr_credentials := [("locationId"%string, PStr "L1")]; cr_config := [] |}.

(** Create a connection, and let its first job run up to [Ingesting]. *)
Definition ex_start : list event :=
  [Begin ex_create; Step 0 10 (ex_oracle "z") Answered; Step 0 20 (ex_oracle "c1") Answered;
   Step 0 30 (ex_oracle "z") Answered; Step 0 40 (ex_oracle "j1") Answered;
   Step 0 50 (ex_oracle "z") Answered; Step 0 60 (ex_oracle "z") Answered].
Definition ex_finish : list event :=
  [Step 0 70 (ex_oracle "z") Answered; Step 0 80 (ex_oracle "z") Answered;
   Step 0 90 (ex_oracle "z") Answered; Step 0 100 (ex_oracle "z") Answered].
Definition ex_world (es : list event) : world := default initial_world (ex_run es).

Example ex_started : map j_status (jobs (w_store (ex_world ex_start))) = [running]
  /\ match w_procs (ex_world ex_start) with [Ingesting _ ctx] => ctx_batch_id ctx = "b1"%string | _ => False end.
Proof. vm_compute. done. Qed.
Example ex_finished : map j_status (jobs (w_store (ex_world (ex_start ++ ex_finish)))) = [ended partial]
  /\ map c_last_status (connections (w_store (ex_world (ex_start ++ ex_finish)))) = [Some partial]
  /\ w_procs (ex_world (ex_start ++ ex_finish)) = [] /\ length (audits (w_store (ex_world (ex_start ++ ex_finish)))) = 2%nat.
Proof. vm_compute. done. Qed.

Lemma one_sync_per_connection_witness :
  (forall i j a b, jobs (w_store (ex_world ex_start)) !! i = Some a -> jobs (w_store (ex_world ex_start)) !! j = Some b ->
     is_active (j_status a) = true -> is_active (j_status b) = true ->
     j_connection_id a = j_connection_id b -> i = j)
  /\ (forall i j a b, connections (w_store (ex_world ex_start)) !! i = Some a ->
     connections (w_store (ex_world ex_start)) !! j = Some b ->
     c_status a <> disabled -> c_status b <> disabled ->
     c_site_id a = c_site_id b -> c_provider_key a = c_provider_key b -> i = j).
Proof.
  apply (@one_sync_per_connection toy_fernet toy_json (Some "aaaa"%string) true [("kempower"%string, ex_provider)]
           1800 50 100 ex_start). vm_compute. reflexivity.
Defined.

Definition ex_no_job : job :=
  {| j_id := ""; j_connection_id := ""; j_organization_id := ""; j_site_id := ""; j_provider_key := "";
     j_trigger := manual; j_status := pending; j_progress := []; j_error_detail := None;
     j_import_batch_id := None; j_triggered_by := None; j_created_at := 0; j_started_at := None;
     j_finished_at := None; j_heartbeat_at := None |}.
Definition ex_job : job := default ex_no_job (head (jobs (w_store (ex_world ex_start)))).

Lemma jobs_only_move_forward_witness :
  exists j', j' ∈ jobs (w_store (ex_world (ex_start ++ ex_finish))) /\ job_moves ex_job j'.
Proof.
  apply (@jobs_only_move_forward toy_fernet toy_json (Some "aaaa"%string) true [("kempower"%string, ex_provider)]
           1800 50 100 ex_start ex_finish (ex_world ex_start)); [vm_compute; reflexivity..|].
  vm_compute. left.
Defined.

Lemma no_job_without_a_worker_witness :
  (is_active (j_status ex_job) = true ->
     exists p, p ∈ w_procs (ex_world ex_start) /\ holds (j_id ex_job) (j_status ex_job) p)
  /\ (w_procs (ex_world ex_start) = [] -> exists r, j_status ex_job = ended r).
Proof.
  apply (@no_job_without_a_worker toy_fernet toy_json (Some "aaaa"%string) true [("kempower"%string, ex_provider)]
           1800 50 100 ex_start); [vm_compute; reflexivity|vm_compute; repeat split; discriminate|].
  vm_compute. left.
Defined.

(** A second server starts 31 minutes after the worker's last sign of life. *)
Definition ex_late : Z := 31 * 60 * usec.
Definition ex_stalled : list event := ex_start ++ [Begin Boot; Step 1 ex_late (ex_oracle "z") Answered].

Lemma job_taken_only_after_its_lease_witness : lease_at ex_job + 1800 * usec < ex_late + 1.
Proof.
  apply (@job_taken_only_after_its_lease toy_fernet toy_json (Some "aaaa"%string) true
           [("kempower"%string, ex_provider)] 1800 50 100 ex_stalled (ex_world ex_stalled) 0 1 (ex_late + 1)
           (ex_oracle "z") Answered "j1" true (Some (lease_at ex_job))
           (claim_row (ex_late + 1) ex_job)
           (map_jobs (fun r => if String.eqb (j_id r) "j1" then claim_row (ex_late + 1) r else r)
              (w_store (ex_world ex_stalled)))); try (vm_compute; reflexivity).
  - vm_compute. repeat split; reflexivity.
  - vm_compute. left.
Defined.

(** ** What goes wrong *)

(** A server that restarts within the threshold finds the heartbeat of its own dead
    worker fresh: the sweep leaves the job, nothing runs it, and the connection refuses
    every further synchronisation. *)
Example restart_leaves_job_stuck :
  let es := ex_start ++ [Kill 0; Begin Boot; Step 0 (600 * usec) (ex_oracle "z") Answered;
                         Begin (SyncRequest ex_admin "c1"); Step 0 (4000 * usec) (ex_oracle "z") Answered;
                         Step 0 (4001 * usec) (ex_oracle "j2") Answered] in
  w_procs (ex_world es) = [] /\ map j_status (jobs (w_store (ex_world es))) = [running]
  /\ map j_id (jobs (w_store (ex_world es))) = ["j1"%string].
Proof. vm_compute. done. Qed.

(** Deleting a connection ends its job but not its worker: after the connection is
    brought back a second worker ingests beside the first. *)
Example two_ingestions_after_reenable :
  let es := ex_start ++
    [Begin (DeleteRequest ex_admin "c1"); Step 1 70 (ex_oracle "z") Answered; Step 1 80 (ex_oracle "z") Answered;
     Step 1 90 (ex_oracle "z") Answered;
     Begin (PatchRequest ex_admin "c1" {| ur_display_name := None; ur_sync_interval_minutes := None;
              ur_scheduled_sync_enabled := None; ur_status := Some "active"%string; ur_credentials := None |});
     Step 1 100 (ex_oracle "z") Answered; Step 1 110 (ex_oracle "z") Answered; Step 1 120 (ex_oracle "z") Answered;
     Begin (SyncRequest ex_admin "c1"); Step 1 130 (ex_oracle "z") Answered; Step 1 140 (ex_oracle "j2") Answered;
     Step 2 150 (ex_oracle "z") Answered; Step 2 160 (ex_oracle "z") Answered] in
  map j_status (jobs (w_store (ex_world es))) = [ended failed; running]
  /\ match w_procs (ex_world es) with
     | [Ingesting a ca; SyncAdvance _ _ _; Ingesting b cb] =>
         ctx_connection_id ca = ctx_connection_id cb /\ j_id a <> j_id b
     | _ => False
     end.
Proof. vm_compute. repeat split. discriminate. Qed.

(** A sweep's worker whose claim raises marks the job failed although another worker
    has claimed it and is running it. *)
Example crash_fails_the_winner :
  let es := [Begin ex_create; Step 0 10 (ex_oracle "z") Answered; Step 0 20 (ex_oracle "c1") Answered;
             Step 0 30 (ex_oracle "z") Answered; Step 0 40 (ex_oracle "j1") Answered;
             Begin Boot; Step 1 50 (ex_oracle "z") Answered; Step 0 60 (ex_oracle "z") Answered;
             Step 0 70 (ex_oracle "z") Refused; Step 1 80 (ex_oracle "z") Answered] in
  map j_status (jobs (w_store (ex_world es))) = [ended failed]
  /\ match w_procs (ex_world es) with [Secret j] => j_status j = running | _ => False end.
Proof. vm_compute. done. Qed.

(** New credentials do not move a connection to another location: a value the stored
    configuration has stays. *)
Lemma stored_config_wins p credentials config key v :
  dget config key = Some v -> absent (Some v) = false ->
  dget (merge_catalogue_config p credentials config) key = Some v.
Proof.
  unfold merge_catalogue_config. revert config. induction (credential_fields p) as [|[k secret] l IH]; intros config Hk Hv; [done|].
  cbn. apply IH; [|done]. destruct secret; [done|].
  assert (forall x, dget (if absent (dget config k) then dset k x config else config) key = Some v) as K.
  { intros x. destruct (absent (dget config k)) eqn:E; [|done]. rewrite dget_dset_ne; [done|]. intros ->. congruence. }
  destruct (dget credentials k) as [[| | | |[]| |]|]; (done || apply K).
Qed.
