(* ===== verification/IngestSweep.v ===== *)
(** * The sweep of orphaned ingestion jobs

    The keyset paging of [recover_orphaned_data_source_jobs]: the order of its cursor,
    what a page holds, and what a sweep has started when it ends, while other
    processes change the tables between its pages. *)

From S2P Require Import Prelude Models PyText Cipher CipherFacts Ingest IngestFacts.
From Stdlib Require Import ZArith Ascii Lia.
From stdpp Require Import base list strings sets sorting.

#[local] Open Scope Z_scope.

(** ** The order of the sweep *)

Lemma ascii_compare_trans a b c :
  Ascii.compare a b = Lt -> Ascii.compare b c = Lt -> Ascii.compare a c = Lt.
Proof. unfold Ascii.compare. rewrite !N.compare_lt_iff. lia. Qed.

Lemma ascii_compare_eq a b : Ascii.compare a b = Eq -> a = b.
Proof. apply Ascii.compare_eq_iff. Qed.

Lemma ascii_compare_refl a : Ascii.compare a a = Eq.
Proof. apply N.compare_refl. Qed.

Lemma string_compare_refl s : String.compare s s = Eq.
Proof. induction s as [|a s IH]; cbn; [done|]. by rewrite ascii_compare_refl. Qed.

Lemma string_compare_trans s t u :
  String.compare s t = Lt -> String.compare t u = Lt -> String.compare s u = Lt.
Proof.
  revert t u. induction s as [|a s IH]; intros [|b t] [|c u]; cbn; try done.
  destruct (Ascii.compare a b) eqn:Eab; [apply ascii_compare_eq in Eab as ->| |done];
    (destruct (Ascii.compare b c) eqn:Ebc; [apply ascii_compare_eq in Ebc as ->| |done]).
  - apply IH.
  - done.
  - by rewrite Eab.
  - by rewrite (ascii_compare_trans _ _ _ Eab Ebc).
Qed.

Definition key_lt' (a b : Z * string) : Prop :=
  fst a < fst b \/ (fst a = fst b /\ String.compare (snd a) (snd b) = Lt).

Lemma key_lt_spec a b : key_lt a b = true <-> key_lt' a b.
Proof.
  unfold key_lt, key_lt', String.ltb. rewrite orb_true_iff, andb_true_iff, Z.ltb_lt, Z.eqb_eq.
  destruct (String.compare (snd a) (snd b)); intuition congruence.
Qed.

Lemma key_lt_trans a b c : key_lt a b = true -> key_lt b c = true -> key_lt a c = true.
Proof.
  rewrite !key_lt_spec. intros [H1|[H1 H2]] [H3|[H3 H4]]; [left; lia..|]. right. split; [lia|].
  by eapply string_compare_trans.
Qed.

Lemma key_lt_irrefl a : key_lt a a = false.
Proof.
  apply not_true_iff_false. rewrite key_lt_spec. intros [H|[_ H]]; [lia|]. by rewrite string_compare_refl in H.
Qed.

Lemma key_lt_total a b : a = b \/ key_lt a b = true \/ key_lt b a = true.
Proof.
  rewrite !key_lt_spec. destruct a as [x s], b as [y t]. unfold key_lt'. cbn.
  destruct (Z.lt_trichotomy x y) as [H|[->|H]]; [by right; left; left| |by right; right; left].
  rewrite (String.compare_antisym t s). destruct (String.compare s t) eqn:E; cbn; auto.
  apply String.compare_eq_iff in E as ->. auto.
Qed.

Definition key_le (a b : job) : bool := negb (key_lt (job_key b) (job_key a)).

Lemma key_le_total a b : key_le a b = true \/ key_le b a = true.
Proof.
  unfold key_le. rewrite !negb_true_iff. destruct (key_lt (job_key b) (job_key a)) eqn:E; [right|by left].
  apply not_true_iff_false. intros E'. pose proof (key_lt_trans _ _ _ E E') as X. by rewrite key_lt_irrefl in X.
Qed.

Lemma key_le_trans a b c : key_le a b = true -> key_le b c = true -> key_le a c = true.
Proof.
  unfold key_le. rewrite !negb_true_iff. intros H1 H2. apply not_true_iff_false. intros H3.
  destruct (key_lt_total (job_key b) (job_key a)) as [E|[E|E]]; [| congruence|].
  - rewrite E in H2. congruence.
  - pose proof (key_lt_trans _ _ _ H3 E). congruence.
Qed.

Section Sweep.
Context `{Fernet} `{Json} (env : option string) (enabled : bool) (providers : dict string provider)
        (threshold batch_limit page : Z) (o : oracle).
Notation effect := (effect env enabled providers threshold batch_limit page).

(** The sweep with the states its pages are read from, which other processes may have
    changed in between: the workers it starts, and whether it has ended. *)
Fixpoint sweep (reads : list (Z * store)) (after : option (Z * string)) : list proc * bool :=
  match reads with
  | [] => ([], false)
  | (now, s) :: rest =>
      match effect now o (RecoverPage after) s with
      | (_, Goto (RecoverPage after'), started) =>
          let '(later, done) := sweep rest after' in (started ++ later, done)
      | (_, _, started) => (started, true)
      end
  end.

Definition beyond (after : option (Z * string)) (j : job) : Prop :=
  match after with None => True | Some k => key_lt k (job_key j) = true end.

Lemma strictly_sorted l :
  StronglySorted (fun a b => key_le a b = true) l -> NoDup (map j_id l) ->
  StronglySorted (fun a b => key_lt (job_key a) (job_key b) = true) l.
Proof.
  induction 1 as [|a l Hs IH Hf]; intros Hn; constructor; cbn in Hn; apply NoDup_cons in Hn as [Ha Hn]; [by apply IH|].
  rewrite Forall_forall in Hf |- *. intros b Hb. specialize (Hf b Hb). unfold key_le in Hf. apply negb_true_iff in Hf.
  destruct (key_lt_total (job_key a) (job_key b)) as [E|[E|E]]; [|done|congruence].
  destruct Ha. apply list_elem_of_fmap. exists b. split; [|done]. by injection E.
Qed.

Lemma filter_distinct (f : job -> bool) l : NoDup (map j_id l) -> NoDup (map j_id (List.filter f l)).
Proof.
  induction l as [|a l IH]; cbn; [done|]. intros [Ha Hn]%NoDup_cons. destruct (f a); [|auto].
  apply NoDup_cons. split; [|auto]. intros (b & E & Hb)%list_elem_of_fmap. apply Ha, list_elem_of_fmap. exists b.
  split; [done|]. apply list_elem_of_In, filter_In in Hb as [Hb _]. by apply list_elem_of_In.
Qed.

(** A page: the first of the candidates in the order of their keys. *)
Lemma page_spec now after s rows :
  find_orphaned_jobs now threshold page after s = Some rows ->
  distinct_jobs s ->
  StronglySorted (fun a b => key_lt (job_key a) (job_key b) = true) rows
  /\ (forall j, j ∈ rows -> beyond after j)
  /\ (forall j, j ∈ jobs s -> is_orphaned now threshold s j = true -> beyond after j ->
        j ∈ rows \/ (page <= Z.of_nat (length rows) /\ forall r, r ∈ rows -> key_lt (job_key r) (job_key j) = true)).
Proof.
  unfold find_orphaned_jobs. destruct (Z.ltb_spec page 0) as [|Hp]; [done|].
  set (cands := List.filter _ _). intros [= <-] Hd.
  assert (StronglySorted (fun a b => key_lt (job_key a) (job_key b) = true) (sort_by key_le cands)) as Hs.
  { apply strictly_sorted; [apply sort_by_sorted; [apply key_le_total|apply key_le_trans]|].
    rewrite (Permutation_map j_id (sort_by_perm key_le cands)). by apply filter_distinct. }
  fold key_le in Hs |- *. rewrite <- (take_drop (Z.to_nat page) (sort_by key_le cands)) in Hs.
  pose proof (proj1 (StronglySorted_app _ _ _) Hs) as (Hcross & Hsorted & _).
  assert (forall j, j ∈ sort_by key_le cands <-> j ∈ jobs s /\ is_orphaned now threshold s j = true /\ beyond after j) as Hc.
  { intros j. rewrite elem_of_sort_by. subst cands. rewrite list_elem_of_In, filter_In, <- list_elem_of_In, andb_true_iff.
    destruct after; cbn; intuition. }
  split_and!; [done| |].
  - intros j Hj. apply Hc. apply elem_of_take in Hj as (i & Hi & _). by eapply list_elem_of_lookup_2.
  - intros j Hj Ho Hb. assert (j ∈ sort_by key_le cands) as Hin by by apply Hc.
    rewrite <- (take_drop (Z.to_nat page) (sort_by key_le cands)) in Hin.
    apply elem_of_app in Hin as [Hin|Hin]; [by left|]. right. split; [|intros r Hr; by apply Hcross].
    rewrite length_take. destruct (decide (length (sort_by key_le cands) <= Z.to_nat page)%nat) as [Hle|]; [|lia].
    rewrite drop_ge in Hin by done. by apply not_elem_of_nil in Hin.
Qed.

Lemma last_elem (l : list job) x : last l = Some x -> x ∈ l.
Proof. intros (l' & ->)%last_Some. apply elem_of_app. right. left. Qed.

Lemma last_greatest (l : list job) x j :
  StronglySorted (fun a b => key_lt (job_key a) (job_key b) = true) l -> last l = Some x -> j ∈ l ->
  j = x \/ key_lt (job_key j) (job_key x) = true.
Proof.
  intros Hs (l' & ->)%last_Some. apply StronglySorted_app in Hs as (Hc & _ & _).
  rewrite elem_of_app, list_elem_of_singleton. intros [Hj| ->]; [right|by left]. apply Hc; [done|left].
Qed.

(** The jobs of the pages. *)
Fixpoint taken (reads : list (Z * store)) (after : option (Z * string)) : list job :=
  match reads with
  | [] => []
  | (now, s) :: rest =>
      let rows := default [] (find_orphaned_jobs now threshold page after s) in
      rows ++ match last rows with
              | Some x => if Z.of_nat (length rows) <? page then [] else taken rest (Some (job_key x))
              | None => []
              end
  end.

Hypothesis Hpage : 0 < page.

(** One page. *)
Lemma sweep_page now s rest after :
  exists rows, find_orphaned_jobs now threshold page after s = Some rows
    /\ ((Z.of_nat (length rows) < page /\ taken ((now, s) :: rest) after = rows
         /\ sweep ((now, s) :: rest) after = (map recover rows, true))
        \/ (exists x, last rows = Some x /\ taken ((now, s) :: rest) after = rows ++ taken rest (Some (job_key x))
            /\ sweep ((now, s) :: rest) after
               = (map recover rows ++ fst (sweep rest (Some (job_key x))), snd (sweep rest (Some (job_key x)))))).
Proof.
  cbn [sweep taken Ingest.effect sweep_effect]. unfold find_orphaned_jobs. destruct (Z.ltb_spec page 0); [lia|].
  set (rows := take _ _). exists rows. split; [done|]. cbn [default from_option id].
  destruct (last rows) as [x|] eqn:E.
  - destruct (Z.ltb_spec (Z.of_nat (length rows)) page); [left; by rewrite app_nil_r|]. right. exists x. split_and!; [done..|].
    by destruct (sweep rest (Some (job_key x))).
  - left. apply last_None in E. rewrite E. by split.
Qed.

Lemma sweep_starts reads after : fst (sweep reads after) = map recover (taken reads after).
Proof.
  revert after. induction reads as [|[now s] reads IH]; intros after; [done|].
  destruct (sweep_page now s reads after) as (rows & _ & [(_ & -> & ->)|(x & _ & -> & ->)]); [done|].
  cbn. by rewrite map_app, IH.
Qed.

Lemma taken_sorted reads after :
  Forall (fun r => distinct_jobs (snd r)) reads ->
  StronglySorted (fun a b => key_lt (job_key a) (job_key b) = true) (taken reads after)
  /\ forall j, j ∈ taken reads after ->
       beyond after j /\ exists now s, (now, s) ∈ reads /\ j ∈ jobs s /\ is_orphaned now threshold s j = true.
Proof.
  revert after. induction reads as [|[now s] reads IH]; intros after Hd.
  - split; [constructor|]. intros j Hj. by apply not_elem_of_nil in Hj.
  - apply Forall_cons in Hd as [Hs Hd]. cbn in Hs. destruct (sweep_page now s reads after) as (rows & Hr & Hc).
    destruct (page_spec _ _ _ _ Hr Hs) as (Sr & Br & _).
    assert (forall j, j ∈ rows -> beyond after j /\ exists now' s', (now', s') ∈ (now, s) :: reads /\ j ∈ jobs s' /\ is_orphaned now' threshold s' j = true) as Kr.
    { intros j Hj. split; [by apply Br|]. exists now, s. split; [left|].
      by destruct (orphans_spec _ _ _ _ _ _ _ Hr Hj) as (? & ? & _). }
    destruct Hc as [(_ & -> & _)|(x & Hx & -> & _)]; [done|]. destruct (IH (Some (job_key x)) Hd) as (Sl & Kl).
    assert (forall a b, a ∈ rows -> b ∈ taken reads (Some (job_key x)) -> key_lt (job_key a) (job_key b) = true) as Hcross.
    { intros a b Ha Hb. destruct (Kl b Hb) as [Bb _]. cbn in Bb.
      destruct (last_greatest rows x a Sr Hx Ha) as [->|]; [done|by eapply key_lt_trans]. }
    split; [by apply StronglySorted_app|]. intros j [Hj|Hj]%elem_of_app; [by apply Kr|].
    destruct (Kl j Hj) as [_ (now' & s' & Hin & Hj')]. split.
    + destruct after as [k|]; [|done]. cbn. eapply key_lt_trans; [apply (Br x); by apply last_elem|].
      apply Hcross; [by apply last_elem|done].
    + exists now', s'. split; [by right|done].
Qed.

Lemma taken_covers reads after k :
  Forall (fun r => distinct_jobs (snd r)) reads -> snd (sweep reads after) = true ->
  (forall now s, (now, s) ∈ reads -> exists j, j ∈ jobs s /\ job_key j = k /\ is_orphaned now threshold s j = true) ->
  match after with None => True | Some a => key_lt a k = true end ->
  k ∈ map job_key (taken reads after).
Proof.
  revert after. induction reads as [|[now s] reads IH]; intros after Hd Hdone Ho Hk; [done|].
  apply Forall_cons in Hd as [Hs Hd]. cbn in Hs. destruct (sweep_page now s reads after) as (rows & Hr & Hc).
  destruct (page_spec _ _ _ _ Hr Hs) as (_ & _ & Cr).
  destruct (Ho now s (list_elem_of_here _ _)) as (j & Hj & Ek & Hor).
  assert (beyond after j) as Hb by (destruct after; cbn; [by rewrite Ek|done]).
  destruct (Cr j Hj Hor Hb) as [Hin|[Hlen Hlt]].
  - rewrite <- Ek. destruct Hc as [(_ & -> & _)|(x & _ & -> & _)]; rewrite ?map_app, ?elem_of_app; [|left];
      by apply (list_elem_of_fmap_2 job_key).
  - destruct Hc as [(Hshort & _)|(x & Hx & -> & E)]; [lia|]. rewrite E in Hdone. cbn in Hdone.
    rewrite map_app, elem_of_app. right. apply (IH (Some (job_key x)) Hd Hdone).
    + intros now' s' Hin. apply Ho. by right.
    + rewrite <- Ek. apply Hlt. by apply last_elem.
Qed.

Lemma sweep_complete reads started :
  Forall (fun r => distinct_jobs (snd r)) reads -> sweep reads None = (started, true) ->
  exists found, started = map recover found /\ NoDup (map job_key found)
    /\ (forall j, j ∈ found -> exists now s, (now, s) ∈ reads /\ j ∈ jobs s /\ is_orphaned now threshold s j = true)
    /\ (forall k, (forall now s, (now, s) ∈ reads ->
                     exists j, j ∈ jobs s /\ job_key j = k /\ is_orphaned now threshold s j = true) ->
          k ∈ map job_key found).
Proof.
  intros Hd E. exists (taken reads None). destruct (taken_sorted reads None Hd) as [Sl Kl].
  split_and!; [by rewrite <- sweep_starts, E| |by intros j Hj; apply Kl|].
  - clear - Sl. induction Sl as [|a l _ IH Hf]; cbn; [apply NoDup_nil_2|]. apply NoDup_cons. split; [|done].
    intros (b & Eb & Hb)%list_elem_of_fmap. rewrite Forall_forall in Hf. specialize (Hf b Hb). by rewrite Eb, key_lt_irrefl in Hf.
  - intros k Hk. apply taken_covers; [done| |done..]. by rewrite E.
Qed.

Lemma filter_shorter {A} (f g : A -> bool) l x :
  (forall y, f y = true -> g y = true) -> x ∈ l -> g x = true -> f x = false ->
  (length (List.filter f l) < length (List.filter g l))%nat.
Proof.
  intros Hfg Hx Hg Hf.
  assert (forall l, (length (List.filter f l) <= length (List.filter g l))%nat) as Hle.
  { clear - Hfg. induction l as [|y l IH]; cbn; [lia|]. specialize (Hfg y). destruct (f y), (g y); cbn; try lia; naive_solver. }
  induction l as [|y l IH]; [by apply not_elem_of_nil in Hx|]. cbn. apply elem_of_cons in Hx as [<-|Hx].
  - rewrite Hg, Hf. cbn. specialize (Hle l). lia.
  - specialize (IH Hx). specialize (Hfg y). destruct (f y), (g y); cbn; try lia; naive_solver.
Qed.

(** On its own a sweep reads at most one page more than there are jobs. *)
Lemma sweep_ends s reads after :
  distinct_jobs s -> Forall (fun r => snd r = s) reads ->
  (length (List.filter (fun j => match after with None => true | Some k => key_lt k (job_key j) end) (jobs s))
   < length reads)%nat ->
  snd (sweep reads after) = true.
Proof.
  intros Hd. revert after. induction reads as [|[now s'] reads IH]; intros after Hs Hl; [cbn in Hl; lia|].
  apply Forall_cons in Hs as [E Hs]. cbn in E. subst s'.
  destruct (sweep_page now s reads after) as (rows & Hr & [(_ & _ & ->)|(x & Hx & _ & ->)]); [done|]. cbn.
  apply IH; [done|]. apply last_elem in Hx. destruct (orphans_spec _ _ _ _ _ _ _ Hr Hx) as (Hj & _ & Hb).
  pose proof (filter_shorter (fun j => key_lt (job_key x) (job_key j))
                (fun j => match after with None => true | Some k => key_lt k (job_key j) end) (jobs s) x) as F.
  cbn in Hl, F. enough (length (List.filter (fun j => key_lt (job_key x) (job_key j)) (jobs s)) <
    length (List.filter (fun j => match after with None => true | Some k => key_lt k (job_key j) end) (jobs s)))%nat by lia.
  apply F; [|done|by destruct after|apply key_lt_irrefl].
  intros y Hy. destruct after; [by eapply key_lt_trans|done].
Qed.

(** C38: However the tables change between its pages, a startup sweep that ends has
    started a worker for every job that was orphaned all along, none twice, and only for
    jobs that were orphaned when it read them; and without changes it ends after at most
    one page more than there are jobs. *)
Theorem sweep_takes_every_orphan :
  (forall reads started,
     Forall (fun r => distinct_jobs (snd r)) reads -> sweep reads None = (started, true) ->
     exists found, started = map recover found /\ NoDup (map job_key found)
       /\ (forall j, j ∈ found -> exists now s, (now, s) ∈ reads /\ j ∈ jobs s /\ is_orphaned now threshold s j = true)
       /\ (forall k, (forall now s, (now, s) ∈ reads ->
                        exists j, j ∈ jobs s /\ job_key j = k /\ is_orphaned now threshold s j = true) ->
             k ∈ map job_key found))
  /\ (forall s times, distinct_jobs s -> (length (jobs s) < length times)%nat ->
       snd (sweep (map (fun now => (now, s)) times) None) = true).
Proof.
  split; [apply sweep_complete|]. intros s times Hd Hl. apply (sweep_ends s); [done| |].
  - apply Forall_map, Forall_forall. by intros.
  - rewrite length_map. eapply Nat.le_lt_trans; [|done].
    generalize (jobs s). induction l as [|j l IH]; cbn; [done|]. lia.
Qed.
End Sweep.

(** ** Example *)

(** Two jobs left behind, read one page of one job at a time. *)
Definition ex_left_behind : store :=
  let row id conn created :=
    {| j_id := id; j_connection_id := conn; j_organization_id := "org"; j_site_id := "d1";
       j_provider_key := "kempower"; j_trigger := manual; j_status := pending; j_progress := [];
       j_error_detail := None; j_import_batch_id := None; j_triggered_by := None; j_created_at := created;
       j_started_at := None; j_finished_at := None; j_heartbeat_at := None |} in
  {| connections := connections (w_store (ex_world ex_start));
     jobs := [row "j8"%string "c1"%string 7; row "j3"%string "c1"%string 7]; audits := [] |}.
Definition ex_reads : list (Z * store) := [(100, ex_left_behind); (110, ex_left_behind); (120, ex_left_behind)].
Definition ex_sweep : list (Z * store) -> option (Z * string) -> list proc * bool :=
  @sweep toy_fernet toy_json (Some "aaaa"%string) true [("kempower"%string, ex_provider)] 1800 50 1 (ex_oracle "z").

Lemma sweep_takes_every_orphan_witness :
  exists found, fst (ex_sweep ex_reads None) = map recover found /\ NoDup (map job_key found)
    /\ (7, "j3"%string) ∈ map job_key found /\ (7, "j8"%string) ∈ map job_key found.
Proof.
  destruct (@sweep_takes_every_orphan toy_fernet toy_json (Some "aaaa"%string) true
              [("kempower"%string, ex_provider)] 1800 50 1 (ex_oracle "z") eq_refl) as [F _].
  assert (Forall (fun r => distinct_jobs (snd r)) ex_reads) as Hd.
  { repeat (apply Forall_cons; split; [apply NoDup_cons; split; [vm_compute; intros X; inversion X as [|? ? ? X']; inversion X'|apply NoDup_singleton]|]).
    apply Forall_nil. done. }
  destruct (F ex_reads (fst (ex_sweep ex_reads None)) Hd) as (found & E & N & _ & C); [vm_compute; reflexivity|].
  exists found. split_and!; [done..| |]; apply C; intros now s Hin.
  - exists (nth 1 (jobs s) ex_no_job). repeat (apply elem_of_cons in Hin as [[= -> ->]|Hin]; [split_and!; [right; left|done|done]|]).
    by apply not_elem_of_nil in Hin.
  - exists (nth 0 (jobs s) ex_no_job). repeat (apply elem_of_cons in Hin as [[= -> ->]|Hin]; [split_and!; [left|done|done]|]).
    by apply not_elem_of_nil in Hin.
Defined.
