(* ===== verification/Kempower.v ===== *)
(** * Import of a depot from Kempower ChargEye ([src/adapters/kempower], [kempower_provider.py])

    The mappers from ChargEye's JSON objects to chargers, vehicles and sessions, the
    four stages that write them, and the provider that runs the stages for an
    ingestion job. What the API answers is an argument: the objects of a listing and
    the exception, if any, that ends it. A stage keeps what it has written and counted
    when an exception leaves it. *)

From S2P Require Import Prelude Models PyText Meter AbbLog Ingest.
From Stdlib Require Import ZArith QArith Ascii.
From stdpp Require Import base list strings.

#[local] Open Scope Z_scope.

(** ** Exceptions *)

(** An exception of the API's client, the violation of a unique index, and anything else
    that is not a [ValueError]. *)
Inductive exn := KempowerClientError (message : string) | UniqueViolationError | OtherException.

(** Why an object is left out: a [ValueError] of its mapper. *)
Inductive skip_reason :=
| missing_id | no_connectors | non_ccs_connectors | missing_field (name : string)
| not_a_number | not_a_time | validation_error | not_created.

Inductive map_error := ValueErr (why : skip_reason) | Uncaught.

(** An object of the API. *)
Definition obj := dict string pyobj.
Definition get (o : obj) (k : string) : pyobj := dget_or o k PNone.

(** [float(x)]: [ValueError] for a text that is no number, [TypeError] for what cannot be
    converted. *)
Definition to_float (o : pyobj) : result map_error pyfloat :=
  match o with
  | PFloat q => Ok (Fin q)
  | PInt z => Ok (Fin (inject_Z z))
  | PBool b => Ok (Fin (if b then 1 else 0)%Q)
  | PStr s => match float_of_string s with Some f => Ok f | None => Err (ValueErr not_a_number) end
  | _ => Err Uncaught
  end.

(** [int(x)]. *)
Definition to_int (o : pyobj) : option Z :=
  match o with
  | PInt z => Some z
  | PFloat q => Some (Qtrunc q)
  | PBool b => Some (if b then 1 else 0)
  | PStr s => py_int s
  | _ => None
  end.

Definition fadd (a b : pyfloat) : pyfloat :=
  match a, b with
  | Fin p, Fin q => Fin (p + q)%Q
  | NaN, _ | _, NaN => NaN
  | Inf x, Inf y => if Bool.eqb x y then Inf x else NaN
  | Inf x, _ | _, Inf x => Inf x
  end.

(** ** Chargers *)

Record KempowerChargerPayload := {
  display_name : string;
  model : option string;
  serial_number : option string;
  firmware : option string;
  rated_kw : pyfloat;
  connector_count : Z;
  connector_ids : list Z;
  network_notes : string
}.

(** [Optional[str]] of at most [n] characters. *)
Definition optional_str (n : Z) (o : pyobj) : result map_error (option string) :=
  match o with
  | PNone => Ok None
  | PStr s => if Z.of_nat (String.length s) <=? n then Ok (Some s) else Err (ValueErr validation_error)
  | _ => Err (ValueErr validation_error)
  end.

(** [x or y]. *)
Definition py_or (x y : pyobj) : pyobj := if truthy x then x else y.

Definition py_upper (s : string) : string :=
  String.string_of_list_ascii (map (fun c =>
    let n := nat_of_ascii c in if (97 <=? n)%nat && (n <=? 122)%nat then ascii_of_nat (n - 32) else c)
    (String.list_ascii_of_string s)).

(** The [connectors] of a station: dictionaries, or [AttributeError] or [TypeError]. *)
Definition connectors_of (station : obj) : result map_error (list obj) :=
  if negb (truthy (get station "connectors")) then Ok []
  else match get station "connectors" with
  | PList l => rmap (fun c => match c with PDict d => Ok d | _ => Err Uncaught end) l
  | _ => Err Uncaught
  end.

Definition connector_type (c : obj) : result map_error string :=
  match py_or (get c "type") (PStr "") with PStr s => Ok (py_upper s) | _ => Err Uncaught end.

(** The numbers of the connectors when all read as numbers, else 1, 2, ... *)
Fixpoint numeric_ids (l : list obj) : option (list Z) :=
  match l with
  | [] => Some []
  | c :: l' =>
      match get c "connectorId" with
      | PNone => None
      | raw => match to_int raw, numeric_ids l' with Some z, Some zs => Some (z :: zs) | _, _ => None end
      end
  end.

Definition ids_of_connectors (l : list obj) : list Z :=
  match numeric_ids l with
  | Some (z :: zs) => sort_by Z.leb (remove_dups (z :: zs))
  | _ => map Z.of_nat (seq 1 (length l))
  end.

Definition flt_or_eq0 (f : pyfloat) : bool := match f with Fin q => (q <=?q 0)%Q | Inf n => n | NaN => false end.

(** The station's power, or the sum of its connectors'. *)
Definition rated_power (station : obj) (connectors : list obj) : result map_error pyfloat :=
  let own := match get station "maxPowerKw" with
             | PNone => Fin 0
             | raw => match to_float raw with Ok f => f | Err _ => Fin 0 end
             end in
  if flt_or_eq0 own
  then rfold (fun acc c => let? f := to_float (py_or (get c "maxPowerKw") (PInt 0)) in Ok (fadd acc f)) (Fin 0) connectors
  else Ok own.

Definition kempower_station_to_charger_request (py_str : pyobj -> string) (station : obj)
  : result map_error KempowerChargerPayload :=
  let? connectors := connectors_of station in
  match connectors with
  | [] => Err (ValueErr no_connectors)
  | _ =>
      let? types := rmap connector_type connectors in
      let? _ := raise_if (negb (forallb (String.prefix "CCS") types)) (ValueErr non_ccs_connectors) in
      let ids := ids_of_connectors connectors in
      let? rated := rated_power station connectors in
      let? name := match py_or (get station "name") (py_or (get station "stationId") (PStr "Kempower charger")) with
                   | PStr s => let n := Z.of_nat (String.length s) in
                               if (1 <=? n) && (n <=? 255) then Ok s else Err (ValueErr validation_error)
                   | _ => Err (ValueErr validation_error)
                   end in
      let? mdl := optional_str 128 (get station "model") in
      let? serial := optional_str 128 (get station "serialNumber") in
      let? fw := optional_str 128 (get station "firmwareVersion") in
      let notes := "Imported from Kempower stationId=" +:+ py_str (get station "stationId") in
      let count := Z.of_nat (length ids) in
      let? _ := raise_if (negb (flt (Fin 0) rated && negb (flt (Fin 1000) rated)
                                && (1 <=? count) && (count <=? 20) && forallb (fun z => 1 <=? z) ids
                                && (Z.of_nat (String.length notes) <=? 2048))) (ValueErr validation_error) in
      Ok {| display_name := name; model := mdl; serial_number := serial; firmware := fw; rated_kw := rated;
            connector_count := count; connector_ids := ids; network_notes := notes |}
  end.

(** ** Vehicles *)

Record KempowerVehiclePayload := {
  external_id : string;
  v_display_name : option string;
  vehicle_type : string;
  battery_kwh : pyfloat;
  max_charge_kw : pyfloat;
  vin : option string;
  license_plate : option string
}.

Definition KEMPOWER_EXTERNAL_ID_PREFIX : string := "kempower:".

(** [token in haystack]. *)
Fixpoint contains (token s : string) : bool :=
  String.prefix token s || match s with EmptyString => false | String _ s' => contains token s' end.

(** Of a lower-cased make and model; the importer passes no make. *)
Definition derive_vehicle_type (make mdl : string) : string :=
  let haystack := match make, mdl with
                  | EmptyString, m => py_lower m
                  | k, EmptyString => py_lower k
                  | k, m => py_lower k +:+ " " +:+ py_lower m
                  end in
  let any tokens := existsb (fun t => contains t haystack) tokens in
  if String.eqb haystack "" then "bus"
  else if any ["truck"; "lorry"; "actros"; "tgs"; "tgx"]%string then "truck"
  else if any ["van"; "sprinter"; "transit"; "ducato"]%string then "van"
  else if any ["car"; "model 3"; "model y"; "tesla"]%string then "car"
  else "bus".

Definition kempower_vehicle_to_identity (py_str : pyobj -> string) (vehicle : obj)
  : result map_error KempowerVehiclePayload :=
  let raw_id := get vehicle "id" in
  let? _ := raise_if (absent (Some raw_id)) (ValueErr (missing_field "id")) in
  let? _ := raise_if (match get vehicle "fullChargeEnergykWh" with PNone => true | _ => false end)
              (ValueErr (missing_field "fullChargeEnergykWh")) in
  let? _ := raise_if (match get vehicle "maxChargePowerkW" with PNone => true | _ => false end)
              (ValueErr (missing_field "maxChargePowerkW")) in
  let ext := KEMPOWER_EXTERNAL_ID_PREFIX +:+ py_str raw_id in
  let? kind := match py_or (get vehicle "evModel") (PStr "") with
               | PStr m => Ok (derive_vehicle_type "" m)
               | _ => Err Uncaught
               end in
  let? battery := to_float (get vehicle "fullChargeEnergykWh") in
  let? power := to_float (get vehicle "maxChargePowerkW") in
  let? name := optional_str 255 (get vehicle "name") in
  let? vn := optional_str 64 (get vehicle "vin") in
  let? plate := optional_str 64 (get vehicle "licensePlate") in
  let? _ := raise_if (negb ((Z.of_nat (String.length ext) <=? 100) && flt (Fin 0) battery && flt (Fin 0) power))
              (ValueErr validation_error) in
  Ok {| external_id := ext; v_display_name := name; vehicle_type := kind; battery_kwh := battery;
        max_charge_kw := power; vin := vn; license_plate := plate |}.

(** ** Sessions *)

(** What is inserted of a transaction; the status goes to a text column. *)
Record session_import := {
  si_station_id : string;
  si_vehicle_id : option string;
  si_id_token : string;
  si_start_time : Z;
  si_end_time : option Z;
  si_energy_delivered_kwh : pyfloat;
  si_site_id : string;
  si_import_batch_id : string;
  si_import_row_hash : string;
  si_import_status : pyobj
}.

(** ** Tables *)

Record charger_row := { ch_id : string; ch_site_id : string; ch_station_id : string; ch_payload : KempowerChargerPayload }.
Record vehicle_row := { ve_id : string; ve_site_id : string; ve_payload : KempowerVehiclePayload }.

(** The tables an import writes; [rows_made] counts the rows given an identifier. *)
Record tables := {
  charging_stations : list charger_row;
  station_credentials : list (string * string);
  vehicles : list vehicle_row;
  charger_vehicle_access : dict (string * string) bool;
  imported_sessions : list session_import;
  rows_made : nat
}.

Record OnboardingCounts := {
  oc_chargers_created : Z;
  oc_chargers_already_linked : Z;
  oc_chargers_skipped : list (string * skip_reason);
  oc_vehicles_created : Z;
  oc_vehicles_already_linked : Z;
  oc_vehicles_skipped : list (string * skip_reason);
  oc_access_rows_upserted : Z;
  oc_sessions_inserted : Z;
  oc_sessions_already_present : Z;
  oc_sessions_skipped : list (string * skip_reason);
  oc_credentials_emitted : list (string * string)
}.

Definition no_counts : OnboardingCounts :=
  {| oc_chargers_created := 0; oc_chargers_already_linked := 0; oc_chargers_skipped := [];
     oc_vehicles_created := 0; oc_vehicles_already_linked := 0; oc_vehicles_skipped := [];
     oc_access_rows_upserted := 0; oc_sessions_inserted := 0; oc_sessions_already_present := 0;
     oc_sessions_skipped := []; oc_credentials_emitted := [] |}.

Definition charger_linked (c : OnboardingCounts) : OnboardingCounts :=
  {| oc_chargers_created := oc_chargers_created c; oc_chargers_already_linked := oc_chargers_already_linked c + 1;
     oc_chargers_skipped := oc_chargers_skipped c; oc_vehicles_created := oc_vehicles_created c;
     oc_vehicles_already_linked := oc_vehicles_already_linked c; oc_vehicles_skipped := oc_vehicles_skipped c;
     oc_access_rows_upserted := oc_access_rows_upserted c; oc_sessions_inserted := oc_sessions_inserted c;
     oc_sessions_already_present := oc_sessions_already_present c; oc_sessions_skipped := oc_sessions_skipped c;
     oc_credentials_emitted := oc_credentials_emitted c |}.

Definition charger_skipped (id : string) (why : skip_reason) (c : OnboardingCounts) : OnboardingCounts :=
  {| oc_chargers_created := oc_chargers_created c; oc_chargers_already_linked := oc_chargers_already_linked c;
     oc_chargers_skipped := oc_chargers_skipped c ++ [(id, why)]; oc_vehicles_created := oc_vehicles_created c;
     oc_vehicles_already_linked := oc_vehicles_already_linked c; oc_vehicles_skipped := oc_vehicles_skipped c;
     oc_access_rows_upserted := oc_access_rows_upserted c; oc_sessions_inserted := oc_sessions_inserted c;
     oc_sessions_already_present := oc_sessions_already_present c; oc_sessions_skipped := oc_sessions_skipped c;
     oc_credentials_emitted := oc_credentials_emitted c |}.

(** A charger was created, with the credential shown once; none in a dry run. *)
Definition charger_created (emitted : list (string * string)) (c : OnboardingCounts) : OnboardingCounts :=
  {| oc_chargers_created := oc_chargers_created c + 1; oc_chargers_already_linked := oc_chargers_already_linked c;
     oc_chargers_skipped := oc_chargers_skipped c; oc_vehicles_created := oc_vehicles_created c;
     oc_vehicles_already_linked := oc_vehicles_already_linked c; oc_vehicles_skipped := oc_vehicles_skipped c;
     oc_access_rows_upserted := oc_access_rows_upserted c; oc_sessions_inserted := oc_sessions_inserted c;
     oc_sessions_already_present := oc_sessions_already_present c; oc_sessions_skipped := oc_sessions_skipped c;
     oc_credentials_emitted := oc_credentials_emitted c ++ emitted |}.

Definition vehicle_counted (created linked : Z) (skipped : list (string * skip_reason)) (c : OnboardingCounts)
  : OnboardingCounts :=
  {| oc_chargers_created := oc_chargers_created c; oc_chargers_already_linked := oc_chargers_already_linked c;
     oc_chargers_skipped := oc_chargers_skipped c; oc_vehicles_created := oc_vehicles_created c + created;
     oc_vehicles_already_linked := oc_vehicles_already_linked c + linked;
     oc_vehicles_skipped := oc_vehicles_skipped c ++ skipped;
     oc_access_rows_upserted := oc_access_rows_upserted c; oc_sessions_inserted := oc_sessions_inserted c;
     oc_sessions_already_present := oc_sessions_already_present c; oc_sessions_skipped := oc_sessions_skipped c;
     oc_credentials_emitted := oc_credentials_emitted c |}.

Definition access_counted (n : Z) (c : OnboardingCounts) : OnboardingCounts :=
  {| oc_chargers_created := oc_chargers_created c; oc_chargers_already_linked := oc_chargers_already_linked c;
     oc_chargers_skipped := oc_chargers_skipped c; oc_vehicles_created := oc_vehicles_created c;
     oc_vehicles_already_linked := oc_vehicles_already_linked c; oc_vehicles_skipped := oc_vehicles_skipped c;
     oc_access_rows_upserted := n; oc_sessions_inserted := oc_sessions_inserted c;
     oc_sessions_already_present := oc_sessions_already_present c; oc_sessions_skipped := oc_sessions_skipped c;
     oc_credentials_emitted := oc_credentials_emitted c |}.

Definition sessions_counted (inserted present : Z) (skipped : list (string * skip_reason)) (c : OnboardingCounts)
  : OnboardingCounts :=
  {| oc_chargers_created := oc_chargers_created c; oc_chargers_already_linked := oc_chargers_already_linked c;
     oc_chargers_skipped := oc_chargers_skipped c; oc_vehicles_created := oc_vehicles_created c;
     oc_vehicles_already_linked := oc_vehicles_already_linked c; oc_vehicles_skipped := oc_vehicles_skipped c;
     oc_access_rows_upserted := oc_access_rows_upserted c;
     oc_sessions_inserted := oc_sessions_inserted c + inserted;
     oc_sessions_already_present := oc_sessions_already_present c + present;
     oc_sessions_skipped := oc_sessions_skipped c ++ skipped;
     oc_credentials_emitted := oc_credentials_emitted c |}.

(** ** Stages *)

(** A stage reads and writes the tables and the tally, reports progress, and may raise;
    what it wrote before stays. *)
Record onboarding := { db : tables; counts : OnboardingCounts; reports : list provider_event }.
Definition stage (A : Type) : Type := onboarding -> result exn A * onboarding.

Definition ret {A} (a : A) : stage A := fun s => (Ok a, s).
Definition throw {A} (e : exn) : stage A := fun s => (Err e, s).
Definition sbind {A B} (m : stage A) (k : A -> stage B) : stage B :=
  fun s => match m s with (Ok a, s') => k a s' | (Err e, s') => (Err e, s') end.
Definition count (f : OnboardingCounts -> OnboardingCounts) : stage unit :=
  fun s => (Ok tt, {| db := db s; counts := f (counts s); reports := reports s |}).
Definition write (f : tables -> tables) : stage unit :=
  fun s => (Ok tt, {| db := f (db s); counts := counts s; reports := reports s |}).
Definition read {A} (f : tables -> A) : stage A := fun s => (Ok (f (db s)), s).

#[local] Notation "'let!' x ':=' m 'in' k" := (sbind m (fun x => k)) (at level 10, x name, m at level 100, k at level 200).

Fixpoint for_each {A B} (f : A -> B -> stage A) (acc : A) (l : list B) : stage A :=
  match l with
  | [] => ret acc
  | x :: l' => let! acc' := f acc x in for_each f acc' l'
  end.

(** A listing of the API: its objects, and the exception that ends it. *)
Record listing := { objects : list obj; interrupted : option exn }.

Definition iterate {A} (f : A -> obj -> stage A) (acc : A) (l : listing) : stage A :=
  let! acc' := for_each f acc (objects l) in
  match interrupted l with Some e => throw e | None => ret acc' end.

Section Stages.
(** [str(x)], the identifiers the database makes, the passwords and their hashes, the
    reading of ISO 8601 text as microseconds in UTC, [isoformat] of a time, and SHA-256. *)
Context (py_str : pyobj -> string) (new_id new_password : nat -> string) (bcrypt : string -> string)
        (fromisoformat : string -> option Z) (isoformat : Z -> string) (sha256_hex : string -> string).

Definition put_charger (row : charger_row) (hash : string) (t : tables) : tables :=
  {| charging_stations := charging_stations t ++ [row];
     station_credentials := station_credentials t ++ [(ch_station_id row, hash)];
     vehicles := vehicles t; charger_vehicle_access := charger_vehicle_access t;
     imported_sessions := imported_sessions t; rows_made := S (rows_made t) |}.

(** One transaction; a station has one credential whatever its depot
    ([UNIQUE (station_id, username)]). *)
Definition create_charger_with_credentials (depot ocpp_id : string) (p : KempowerChargerPayload) (hash : string)
  : stage string :=
  let! taken := read (fun t => existsb (fun c => String.eqb (fst c) ocpp_id) (station_credentials t)) in
  if taken : bool then throw UniqueViolationError
  else
    let! n := read rows_made in
    let! _ := write (put_charger {| ch_id := new_id n; ch_site_id := depot; ch_station_id := ocpp_id; ch_payload := p |} hash) in
    ret (new_id n).

Definition find_charger (depot ocpp_id : string) (t : tables) : option charger_row :=
  List.find (fun r => String.eqb (ch_site_id r) depot && String.eqb (ch_station_id r) ocpp_id) (charging_stations t).

Definition would_create (id : string) : string := "<would-create:" +:+ id +:+ ">".

Definition import_charger (depot : string) (dry_run : bool) (station_map : dict string string) (station : obj)
  : stage (dict string string) :=
  let sid := get station "stationId" in
  if negb (truthy sid) then let! _ := count (charger_skipped "(missing stationId)" missing_id) in ret station_map
  else match kempower_station_to_charger_request py_str station with
  | Err Uncaught => throw OtherException
  | Err (ValueErr why) => let! _ := count (charger_skipped (py_str sid) why) in ret station_map
  | Ok request =>
      match sid with
      | PStr id =>
          let! existing := read (find_charger depot id) in
          match existing with
          | Some row => let! _ := count charger_linked in ret (dset id (ch_id row) station_map)
          | None =>
              if dry_run
              then let! _ := count (charger_created []) in ret (dset id (would_create id) station_map)
              else
                let! n := read rows_made in
                let! new := create_charger_with_credentials depot id request (bcrypt (new_password n)) in
                let! _ := count (charger_created [(id, new_password n)]) in
                ret (dset id new station_map)
          end
      | _ => throw OtherException
      end
  end.

Definition import_chargers (depot : string) (dry_run : bool) : listing -> stage (dict string string) :=
  iterate (import_charger depot dry_run) [].

Definition find_vehicle (depot ext : string) (t : tables) : option vehicle_row :=
  List.find (fun r => String.eqb (ve_site_id r) depot && String.eqb (external_id (ve_payload r)) ext) (vehicles t).

Definition put_vehicle (row : vehicle_row) (t : tables) : tables :=
  {| charging_stations := charging_stations t; station_credentials := station_credentials t;
     vehicles := vehicles t ++ [row]; charger_vehicle_access := charger_vehicle_access t;
     imported_sessions := imported_sessions t; rows_made := S (rows_made t) |}.

(** Without a result when the depot is not the organisation's; unique per depot
    ([vehicles_external_id_per_site_unique_idx]). *)
Definition create_vehicle_identity (depot : string) (depot_in_org : bool) (p : KempowerVehiclePayload)
  : stage (option string) :=
  if negb depot_in_org then ret None
  else
    let! taken := read (find_vehicle depot (external_id p)) in
    match taken with
    | Some _ => throw UniqueViolationError
    | None =>
        let! n := read rows_made in
        let! _ := write (put_vehicle {| ve_id := new_id n; ve_site_id := depot; ve_payload := p |}) in
        ret (Some (new_id n))
    end.

Definition import_vehicle (depot : string) (depot_in_org dry_run : bool) (vehicle_map : dict string string)
    (vehicle : obj) : stage (dict string string) :=
  let vid := get vehicle "id" in
  if negb (truthy vid) then let! _ := count (vehicle_counted 0 0 [("(missing id)"%string, missing_id)]) in ret vehicle_map
  else match kempower_vehicle_to_identity py_str vehicle with
  | Err Uncaught => throw OtherException
  | Err (ValueErr why) => let! _ := count (vehicle_counted 0 0 [(py_str vid, why)]) in ret vehicle_map
  | Ok identity =>
      let! existing := read (find_vehicle depot (external_id identity)) in
      match existing with
      | Some row => let! _ := count (vehicle_counted 0 1 []) in ret (dset (py_str vid) (ve_id row) vehicle_map)
      | None =>
          if dry_run
          then let! _ := count (vehicle_counted 1 0 []) in ret (dset (py_str vid) (would_create (py_str vid)) vehicle_map)
          else
            let! created := create_vehicle_identity depot depot_in_org identity in
            match created with
            | None => let! _ := count (vehicle_counted 0 0 [(py_str vid, not_created)]) in ret vehicle_map
            | Some new => let! _ := count (vehicle_counted 1 0 []) in ret (dset (py_str vid) new vehicle_map)
            end
      end
  end.

Definition import_vehicles (depot : string) (depot_in_org dry_run : bool) : listing -> stage (dict string string) :=
  iterate (import_vehicle depot depot_in_org dry_run) [].

Definition is_placeholder (id : string) : bool := String.prefix "<would-create" id.

Definition put_access (entries : list (string * string)) (t : tables) : tables :=
  {| charging_stations := charging_stations t; station_credentials := station_credentials t;
     vehicles := vehicles t;
     charger_vehicle_access := fold_left (fun d e => dset e true d) entries (charger_vehicle_access t);
     imported_sessions := imported_sessions t; rows_made := rows_made t |}.

(** [upsert_charger_vehicle_access]: writes nothing when a row is not the depot's. *)
Definition access_valid (depot : string) (entries : list (string * string)) (t : tables) : bool :=
  forallb (fun e => existsb (fun r => String.eqb (ch_site_id r) depot && String.eqb (ch_id r) (fst e)) (charging_stations t)
                    && existsb (fun r => String.eqb (ve_site_id r) depot && String.eqb (ve_id r) (snd e)) (vehicles t)) entries.

Definition access_entries (station_map vehicle_map : dict string string) : list (string * string) :=
  List.filter (fun e => negb (is_placeholder (fst e)) && negb (is_placeholder (snd e)))
    (concat (map (fun c => map (fun v => (c, v)) (dvals vehicle_map)) (dvals station_map))).

Definition upsert_access_matrix (depot : string) (station_map vehicle_map : dict string string) (dry_run : bool)
  : stage unit :=
  let entries := access_entries station_map vehicle_map in
  let! _ := count (access_counted (Z.of_nat (length entries))) in
  match entries with
  | [] => ret tt
  | _ =>
      if dry_run then ret tt
      else
        let! ok := read (access_valid depot entries) in
        if ok : bool then write (put_access entries) else throw OtherException
  end.

(** *** Sessions *)

(** A trailing [Z] is the offset zero. *)
Definition zulu (text : string) : string :=
  match reverse (String.list_ascii_of_string text) with
  | "Z"%char :: rest => String.string_of_list_ascii (reverse rest) +:+ "+00:00"
  | _ => text
  end.

Definition _parse_iso_utc (value : pyobj) : result map_error Z :=
  match value with
  | PStr s => match fromisoformat (zulu (strip s)) with Some t => Ok t | None => Err (ValueErr not_a_time) end
  | _ => Err Uncaught
  end.

Definition compute_import_row_hash (depot : string) (start_time_utc : Z) (id_tag : string) : string :=
  sha256_hex (depot +:+ "|" +:+ isoformat start_time_utc +:+ "|" +:+ id_tag).

Definition kempower_transaction_to_session_row (tx : obj) (site station : string) (vehicle : option string)
    (batch : string) : result map_error session_import :=
  let? _ := raise_if (negb (truthy (get tx "startTime"))) (ValueErr (missing_field "startTime")) in
  let? start := _parse_iso_utc (get tx "startTime") in
  let? stop := if truthy (get tx "endTime") then let? t := _parse_iso_utc (get tx "endTime") in Ok (Some t) else Ok None in
  let? _ := raise_if (match get tx "chargedEnergyKwh" with PNone => true | _ => false end)
              (ValueErr (missing_field "chargedEnergyKwh")) in
  let? energy := to_float (get tx "chargedEnergyKwh") in
  let token := get tx "authorizationToken" in
  let? tokens := if truthy token then Ok (py_str token, py_str token)
                 else match get tx "txId" with
                      | PNone => Err (ValueErr (missing_field "txId"))
                      | id => Ok ("platform-start"%string, "kempower-tx:" +:+ py_str id)
                      end in
  Ok {| si_station_id := station; si_vehicle_id := vehicle; si_id_token := fst tokens; si_start_time := start;
        si_end_time := stop; si_energy_delivered_kwh := energy; si_site_id := site; si_import_batch_id := batch;
        si_import_row_hash := compute_import_row_hash site start (snd tokens);
        si_import_status := get tx "status" |}.

(** The vehicle of [schedulePlan.evId], if the import knows it. *)
Definition transaction_vehicle (vehicle_map : dict string string) (tx : obj) : result map_error (option string) :=
  let plan := get tx "schedulePlan" in
  let? ev := if truthy plan then match plan with PDict d => Ok (get d "evId") | _ => Err Uncaught end else Ok PNone in
  Ok (if truthy ev
      then match dget vehicle_map (py_str ev) with
           | Some mapped => if String.eqb mapped "" || is_placeholder mapped then None else Some mapped
           | None => None
           end
      else None).

Definition read_transaction (depot station batch : string) (vehicle_map : dict string string)
    (rows : list session_import) (tx : obj) : stage (list session_import) :=
  match transaction_vehicle vehicle_map tx with
  | Err _ => throw OtherException
  | Ok vehicle =>
      match kempower_transaction_to_session_row tx depot station vehicle batch with
      | Ok row => ret (rows ++ [row])
      | Err (ValueErr why) => let! _ := count (sessions_counted 0 0 [(py_str (get tx "txId"), why)]) in ret rows
      | Err Uncaught => throw OtherException
      end
  end.

(** [charging_sessions_import_dedup_idx]. *)
Definition session_present (row : session_import) (l : list session_import) : bool :=
  existsb (fun r => String.eqb (si_site_id r) (si_site_id row)
                    && String.eqb (si_import_row_hash r) (si_import_row_hash row)) l.

(** The status must be a text or null for the driver. *)
Definition insertable (row : session_import) : bool :=
  match si_import_status row with PNone | PStr _ => true | _ => false end.

(** [ON CONFLICT DO NOTHING], with the number of rows inserted; [None] is an exception. *)
Fixpoint insert_session_chunk (rows : list session_import) (l : list session_import)
  : option (Z * list session_import) :=
  match rows with
  | [] => Some (0, l)
  | row :: rest =>
      if negb (insertable row) then None
      else if session_present row l then insert_session_chunk rest l
      else match insert_session_chunk rest (l ++ [row]) with Some (n, l') => Some (n + 1, l') | None => None end
  end.

(** Lists of at most [n] elements. *)
Fixpoint chunked {A} (fuel n : nat) (l : list A) : list (list A) :=
  match fuel with
  | O => []
  | S k => match l with [] => [] | _ => take n l :: chunked k n (drop n l) end
  end.

(** The chunks of one transaction; the tally is not rolled back with it. *)
Fixpoint insert_chunks (chunks : list (list session_import)) (l : list session_import) (c : OnboardingCounts)
  : option (list session_import) * OnboardingCounts :=
  match chunks with
  | [] => (Some l, c)
  | rows :: rest =>
      match insert_session_chunk rows l with
      | None => (None, c)
      | Some (n, l') => insert_chunks rest l' (sessions_counted n (Z.of_nat (length rows) - n) [] c)
      end
  end.

Definition put_sessions (l : list session_import) (t : tables) : tables :=
  {| charging_stations := charging_stations t; station_credentials := station_credentials t;
     vehicles := vehicles t; charger_vehicle_access := charger_vehicle_access t;
     imported_sessions := l; rows_made := rows_made t |}.

Definition insert_sessions (rows : list session_import) : stage unit := fun s =>
  match insert_chunks (chunked (length rows) 500 rows) (imported_sessions (db s)) (counts s) with
  | (Some l, c) => (Ok tt, {| db := put_sessions l (db s); counts := c; reports := reports s |})
  | (None, c) => (Err OtherException, {| db := db s; counts := c; reports := reports s |})
  end.

(** One charger: its transactions, then one insert. *)
Definition backfill_station (depot batch : string) (vehicle_map : dict string string) (dry_run : bool)
    (transactions : string -> listing) (station : string) : stage unit :=
  let! rows := iterate (read_transaction depot station batch vehicle_map) [] (transactions station) in
  match rows with
  | [] => ret tt
  | _ => if dry_run then count (sessions_counted (Z.of_nat (length rows)) 0 []) else insert_sessions rows
  end.

Definition backfill_sessions (depot batch : string) (station_map vehicle_map : dict string string) (dry_run : bool)
    (transactions : string -> listing) : stage unit :=
  for_each (fun _ station => backfill_station depot batch vehicle_map dry_run transactions station) tt (dkeys station_map).

(** ** The provider *)

(** What the API answers during a run; the transactions depend on the charger and on
    the time the history is read from. *)
Record chargeye := {
  list_stations : string -> listing;
  list_vehicles : string -> listing;
  list_transactions : Z -> string -> listing
}.

(** The first value that is not absent: the configuration before the credentials. *)
Definition _config_value (config credentials : obj) (keys : list string) : option pyobj :=
  let value source := List.find (fun v => negb (absent (Some v))) (map (get source) keys) in
  match value config with Some v => Some v | None => value credentials end.

(** [_parse_backfill_since] of a value that is not absent: a date or a time in UTC, not
    before the oldest day kept. *)
Definition _parse_backfill_since (now max_days : Z) (value : pyobj) : result map_error (option Z) :=
  match value with
  | PStr s =>
      let text := strip s in
      let text := if contains "T" text then text else text +:+ "T00:00:00+00:00" in
      match fromisoformat (zulu text) with
      | Some t => Ok (Some (Z.max t (now - max_days * 86400 * usec)))
      | None => Err (ValueErr not_a_time)
      end
  | _ => if truthy value then Err Uncaught else Ok None
  end.

(** The checks of [validate_credentials] before it asks the API; [true] is a rejection or
    another exception. *)
Definition credentials_rejected (now max_days : Z) (credentials config : obj) : bool :=
  let has k := truthy (get credentials k) in
  match _config_value config credentials ["locationId"; "location_id"]%string with
  | None => true
  | Some location =>
      negb (truthy location)
      || (has "refresh_token"%string && (has "username"%string && has "password"%string))
      || (negb (has "refresh_token"%string) && negb (has "username"%string && has "password"%string))
      || match _config_value config credentials ["backfillSince"; "backfill_since"]%string with
         | Some raw => truthy raw && negb (is_ok (_parse_backfill_since now max_days raw))
         | None => false
         end
  end.

(** [catalogue_entry] and the registry. *)
Definition kempower_provider : provider :=
  {| credential_fields := [("refresh_token", true); ("username", false); ("password", true); ("locationId", false);
                           ("baseUrl", false); ("backfillSince", false)]%string;
     default_sync_interval_minutes := 1440 |}.
Definition _PROVIDERS : dict string provider := [("kempower"%string, kempower_provider)].

(** The tally a report of progress carries. *)
Definition _snapshot (c : OnboardingCounts) : list (string * Z) :=
  [("chargers_created"%string, oc_chargers_created c); ("vehicles_created"%string, oc_vehicles_created c);
   ("sessions_inserted"%string, oc_sessions_inserted c); ("access_rows_upserted"%string, oc_access_rows_upserted c);
   ("skipped_count"%string, Z.of_nat (length (oc_chargers_skipped c) + length (oc_vehicles_skipped c)
                                      + length (oc_sessions_skipped c)))].

Definition report (name : string) : stage unit := fun s =>
  (Ok tt, {| db := db s; counts := counts s; reports := reports s ++ [Report (Some name) (_snapshot (counts s))] |}).

(** The stages in order, each followed by its report. *)
Definition run_stages (depot batch location : string) (depot_in_org : bool) (since : option Z)
    (api : chargeye) : stage unit :=
  let! station_map := import_chargers depot false (list_stations api location) in
  let! _ := report "chargers" in
  let! vehicle_map := import_vehicles depot depot_in_org false (list_vehicles api location) in
  let! _ := report "vehicles" in
  let! _ := upsert_access_matrix depot station_map vehicle_map false in
  let! _ := report "access" in
  match since with
  | Some t =>
      let! _ := backfill_sessions depot batch station_map vehicle_map false (list_transactions api t) in
      report "sessions"
  | None => ret tt
  end.

Definition skipped_all (c : OnboardingCounts) : list (string * skip_reason) :=
  oc_chargers_skipped c ++ oc_vehicles_skipped c ++ oc_sessions_skipped c.

Definition landed (c : OnboardingCounts) : Z :=
  oc_chargers_created c + oc_vehicles_created c + oc_sessions_inserted c + oc_access_rows_upserted c.

(** The result of a run whose stages ended, or were ended by the API. *)
Definition ingestion_result (error : option string) (c : OnboardingCounts) : IngestionResult :=
  {| ir_status := match error with
                  | Some _ => if 0 <? landed c then partial else failed
                  | None => match skipped_all c with [] => succeeded | _ => partial end
                  end;
     chargers_created := oc_chargers_created c; vehicles_created := oc_vehicles_created c;
     sessions_inserted := oc_sessions_inserted c; access_rows_upserted := oc_access_rows_upserted c;
     skipped := map fst (skipped_all c); ir_error_detail := error |}.

(** [run_ingestion]: what it makes of the tables, and what it tells the job, one event
    after the other; [describe] is [str(exc)]. *)
Definition run_ingestion (describe : exn -> string) (now max_days : Z) (ctx : IngestionContext)
    (depot_in_org : bool) (api : chargeye) (t : tables) : list provider_event * tables :=
  let credentials := match ctx_credentials ctx with PDict d => d | _ => [] end in
  let location := _config_value (ctx_config ctx) credentials ["locationId"; "location_id"]%string in
  if negb (truthy (default PNone location)) then
    ([Returns {| ir_status := failed; chargers_created := 0; vehicles_created := 0; sessions_inserted := 0;
                 access_rows_upserted := 0; skipped := [];
                 ir_error_detail := Some "locationId missing from connection config/credentials"%string |}], t)
  else
    let since := match _config_value (ctx_config ctx) credentials ["backfillSince"; "backfill_since"]%string with
                 | None => Ok None
                 | Some raw => _parse_backfill_since now max_days raw
                 end in
    match since with
    | Err _ => ([Raises (describe OtherException)], t)
    | Ok since =>
        let '(outcome, s) := run_stages (ctx_depot_id ctx) (ctx_batch_id ctx) (py_str (default PNone location))
                               depot_in_org since api {| db := t; counts := no_counts; reports := [] |} in
        (reports s ++
         [match outcome with
          | Ok _ => Returns (ingestion_result None (counts s))
          | Err (KempowerClientError m) => Returns (ingestion_result (Some ("Kempower API error: " +:+ m)) (counts s))
          | Err e => Raises (describe e)
          end], db s)
    end.
End Stages.
