(* ===== verification/KempowerFacts.v ===== *)
(** * Import from Kempower ChargEye: properties

    An import never makes a second row for a charger, a vehicle or a session, however
    it ends, and importing the same answers again changes nothing. *)

From S2P Require Import Prelude Models PyText Meter AbbLog Ingest Kempower.
From Stdlib Require Import ZArith QArith Ascii Lia.
From stdpp Require Import base list strings.

#[local] Open Scope Z_scope.
#[local] Notation "'let!' x ':=' m 'in' k" := (sbind m (fun x => k)) (at level 10, x name, m at level 100, k at level 200).

(** ** Stages that keep a property of the tables *)

Definition keeps {A} (P : tables -> Prop) (m : stage A) : Prop :=
  forall s r s', m s = (r, s') -> P (db s) -> P (db s').

Section Keeps.
Context (P : tables -> Prop).

Lemma stage_keeps_same {A} (m : stage A) : (forall s, db (snd (m s)) = db s) -> keeps P m.
Proof. intros H s r s' E. specialize (H s). rewrite E in H. cbn in H. by rewrite H. Qed.

Lemma stage_keeps_ret {A} (a : A) : keeps P (ret a).
Proof. by apply stage_keeps_same. Qed.
Lemma stage_keeps_throw {A} e : keeps P (throw (A := A) e).
Proof. by apply stage_keeps_same. Qed.
Lemma stage_keeps_count f : keeps P (count f).
Proof. by apply stage_keeps_same. Qed.
Lemma stage_keeps_report n : keeps P (report n).
Proof. by apply stage_keeps_same. Qed.

Lemma stage_keeps_bind {A B} (m : stage A) (k : A -> stage B) : keeps P m -> (forall a, keeps P (k a)) -> keeps P (sbind m k).
Proof.
  intros Hm Hk s r s'. unfold sbind. destruct (m s) as [[a|e] s1] eqn:E.
  - intros E' Hs. eapply Hk; [done|]. by eapply Hm.
  - intros [= <- <-]. by eapply Hm.
Qed.

Lemma stage_keeps_count_ret {A} f (a : A) : keeps P (sbind (count f) (fun _ => ret a)).
Proof. by apply stage_keeps_same. Qed.

(** What was read may be used to write. *)
Lemma stage_keeps_read {A B} (f : tables -> A) (k : A -> stage B) :
  (forall s r s', k (f (db s)) s = (r, s') -> P (db s) -> P (db s')) -> keeps P (sbind (read f) k).
Proof. intros H s r s' E. by eapply H. Qed.

Lemma stage_keeps_for_each {A B} (f : A -> B -> stage A) acc l : (forall a x, keeps P (f a x)) -> keeps P (for_each f acc l).
Proof. intros H. revert acc. induction l as [|x l IH]; intros acc; cbn; [apply stage_keeps_ret|]. by apply stage_keeps_bind. Qed.

Lemma stage_keeps_iterate {A} (f : A -> obj -> stage A) acc l : (forall a x, keeps P (f a x)) -> keeps P (iterate f acc l).
Proof.
  intros H. apply stage_keeps_bind; [by apply stage_keeps_for_each|]. intros a. destruct (interrupted l); [apply stage_keeps_throw|apply stage_keeps_ret].
Qed.
End Keeps.

Create HintDb stages.
#[local] Hint Resolve stage_keeps_ret stage_keeps_throw stage_keeps_count stage_keeps_report stage_keeps_count_ret stage_keeps_bind stage_keeps_iterate stage_keeps_for_each : stages.

(** ** No duplicates *)

Definition charger_key (r : charger_row) : string * string := (ch_site_id r, ch_station_id r).
Definition vehicle_key (r : vehicle_row) : string * string := (ve_site_id r, external_id (ve_payload r)).
Definition session_key (r : session_import) : string * string := (si_site_id r, si_import_row_hash r).

Record unique (t : tables) : Prop := {
  un_chargers : NoDup (map charger_key (charging_stations t));
  un_vehicles : NoDup (map vehicle_key (vehicles t));
  un_sessions : NoDup (map session_key (imported_sessions t))
}.

(** ** Stages that can be repeated *)

(** Rows are only added. *)
Record grows (t t' : tables) : Prop := {
  gr_chargers : charging_stations t `prefix_of` charging_stations t';
  gr_vehicles : vehicles t `prefix_of` vehicles t';
  gr_sessions : imported_sessions t `prefix_of` imported_sessions t';
  gr_access : forall e, dget (charger_vehicle_access t) e = Some true -> dget (charger_vehicle_access t') e = Some true
}.

Lemma grows_refl t : grows t t.
Proof. by split. Qed.
Lemma grows_trans t u v : grows t u -> grows u v -> grows t v.
Proof. intros [H1 H2 H3 H4] [H5 H6 H7 H8]. split; [by etrans..|auto]. Qed.
#[local] Hint Resolve grows_refl : stages.

Definition made (c : OnboardingCounts) : Z * Z * Z := (oc_chargers_created c, oc_vehicles_created c, oc_sessions_inserted c).

Definition skips := (list (string * skip_reason) * list (string * skip_reason) * list (string * skip_reason))%type.
Definition added (d : skips) (c c' : OnboardingCounts) : Prop :=
  oc_chargers_skipped c' = oc_chargers_skipped c ++ fst (fst d)
  /\ oc_vehicles_skipped c' = oc_vehicles_skipped c ++ snd (fst d)
  /\ oc_sessions_skipped c' = oc_sessions_skipped c ++ snd d.

Lemma added_none c c' :
  oc_chargers_skipped c' = oc_chargers_skipped c -> oc_vehicles_skipped c' = oc_vehicles_skipped c ->
  oc_sessions_skipped c' = oc_sessions_skipped c -> added ([], [], []) c c'.
Proof. intros H1 H2 H3. unfold added. cbn. by rewrite H1, H2, H3, !app_nil_r. Qed.

Lemma added_trans d e c c' c'' :
  added d c c' -> added e c' c'' ->
  added (fst (fst d) ++ fst (fst e), snd (fst d) ++ snd (fst e), snd d ++ snd e) c c''.
Proof.
  intros (E1 & E2 & E3) (H1 & H2 & H3). unfold added. cbn. rewrite H1, H2, H3, E1, E2, E3. by rewrite <- !app_assoc.
Qed.

(** When [m] returns, [m'] run on the tables it left, or on any that have grown since,
    returns a related result, makes nothing and skips the same. *)
Definition replays {A} (R : A -> A -> Prop) (m m' : stage A) : Prop :=
  forall s a s', m s = (Ok a, s') ->
    grows (db s) (db s') /\ exists d, added d (counts s) (counts s') /\
    forall t c r, grows (db s') t -> exists a' c' r',
      m' {| db := t; counts := c; reports := r |} = (Ok a', {| db := t; counts := c'; reports := r' |})
      /\ R a a' /\ made c' = made c /\ added d c c'.

Section Replays.
Context {A B : Type} (R : A -> A -> Prop) (S : B -> B -> Prop).

Lemma replays_ret a a' : R a a' -> replays R (ret a) (ret a').
Proof.
  intros HR s x s' [= <- <-]. split; [apply grows_refl|]. exists ([], [], []). split; [by apply added_none|].
  intros t c r _. exists a', c, r. split_and!; [done..|by apply added_none].
Qed.

Lemma replays_throw e m' : replays R (throw e) m'.
Proof. by intros s a s'. Qed.

Lemma replays_bind m m' (k k' : A -> stage B) :
  replays R m m' -> (forall a a', R a a' -> replays S (k a) (k' a')) -> replays S (sbind m k) (sbind m' k').
Proof.
  intros Hm Hk s b s'. unfold sbind. destruct (m s) as [[a|e] s1] eqn:E; [|done]. intros E'.
  destruct (Hm _ _ _ E) as (G & d & Ad & H1).
  assert (forall a', R a a' -> grows (db s1) (db s')) as G1 by (intros a' Ha; by destruct (Hk a a' Ha _ _ _ E') as [? _]).
  assert (exists a', R a a') as [a0 Ha0].
  { destruct (H1 (db s1) (counts s1) (reports s1) (grows_refl _)) as (a' & _ & _ & _ & Ha & _). by exists a'. }
  specialize (G1 a0 Ha0). destruct (Hk a a0 Ha0 _ _ _ E') as (_ & e & Ae & _).
  split; [by eapply grows_trans|]. eexists. split; [by eapply added_trans|].
  intros t c r Ht. destruct (H1 t c r) as (a' & c1 & r1 & E1 & Ha & M1 & A1); [by eapply grows_trans|].
  rewrite E1. destruct (Hk a a' Ha _ _ _ E') as (_ & e' & Ae' & H2).
  destruct (H2 t c1 r1 Ht) as (b' & c2 & r2 & E2 & Hb & M2 & A2). exists b', c2, r2. split_and!; [done..|congruence|].
  assert (e' = e) as ->.
  { destruct Ae as (X1 & X2 & X3), Ae' as (Y1 & Y2 & Y3). rewrite X1 in Y1. rewrite X2 in Y2. rewrite X3 in Y3.
    apply app_inv_head in Y1, Y2, Y3. destruct e as [[]], e' as [[]]; cbn in *; congruence. }
  by eapply added_trans.
Qed.
End Replays.

Lemma replays_for_each {A B} (R : A -> A -> Prop) (f g : A -> B -> stage A) acc acc' l :
  (forall a a' x, R a a' -> replays R (f a x) (g a' x)) -> R acc acc' -> replays R (for_each f acc l) (for_each g acc' l).
Proof.
  intros H. revert acc acc'. induction l as [|x l IH]; intros acc acc' Ha; cbn; [by apply replays_ret|].
  eapply replays_bind; [by apply H|]. intros a a' Haa. by apply IH.
Qed.

Lemma replays_iterate {A} (R : A -> A -> Prop) (f g : A -> obj -> stage A) acc acc' l :
  (forall a a' x, R a a' -> replays R (f a x) (g a' x)) -> R acc acc' -> replays R (iterate f acc l) (iterate g acc' l).
Proof.
  intros H Ha. eapply replays_bind; [by apply replays_for_each|]. intros a a' Haa.
  destruct (interrupted l); [apply replays_throw|by apply replays_ret].
Qed.

(** A count that makes nothing. *)
Lemma replays_count f :
  (forall c, made (f c) = made c) -> (exists d, forall c, added d c (f c)) -> replays eq (count f) (count f).
Proof.
  intros Hm [d Hd] s a s' [= <- <-]. split; [apply grows_refl|]. exists d. split; [apply Hd|].
  intros t c r _. exists tt, (f c), r. by split_and!.
Qed.

Lemma replays_report n : replays eq (report n) (report n).
Proof.
  intros s a s' [= <- <-]. split; [apply grows_refl|]. exists ([], [], []). split; [by apply added_none|].
  intros t c r _. eexists tt, c, _. split_and!; [done..|by apply added_none].
Qed.

Section Facts.
Context (py_str : pyobj -> string) (new_id new_password : nat -> string) (bcrypt : string -> string)
        (fromisoformat : string -> option Z) (isoformat : Z -> string) (sha256_hex : string -> string).
Notation run_stages := (run_stages py_str new_id new_password bcrypt fromisoformat isoformat sha256_hex).
Notation run_ingestion := (run_ingestion py_str new_id new_password bcrypt fromisoformat isoformat sha256_hex).

Lemma find_charger_none depot id t : find_charger depot id t = None -> (depot, id) ∉ map charger_key (charging_stations t).
Proof.
  unfold find_charger. intros H (r & E & Hr)%list_elem_of_fmap. injection E as -> ->.
  apply (find_none _ _ H) in Hr as Hn || pose proof (find_none _ _ H r (proj1 (list_elem_of_In _ _) Hr)) as Hn.
  cbn in Hn. by rewrite !String.eqb_refl in Hn.
Qed.

Lemma find_vehicle_none depot id t : find_vehicle depot id t = None -> (depot, id) ∉ map vehicle_key (vehicles t).
Proof.
  unfold find_vehicle. intros H (r & E & Hr)%list_elem_of_fmap. injection E as -> ->.
  pose proof (find_none _ _ H r (proj1 (list_elem_of_In _ _) Hr)) as Hn. cbn in Hn. by rewrite !String.eqb_refl in Hn.
Qed.

Lemma create_charger_keeps depot id p h s r s' :
  find_charger depot id (db s) = None ->
  create_charger_with_credentials new_id depot id p h s = (r, s') -> unique (db s) -> unique (db s').
Proof.
  intros Hn. unfold create_charger_with_credentials, sbind, read. cbn. destruct (existsb _ _); intros [= <- <-]; [done|].
  intros [H1 H2 H3]. split; [|done..]. cbn. rewrite map_app. apply nodup_snoc; [done|]. by apply find_charger_none.
Qed.

Lemma import_charger_keeps depot dry m x : keeps unique (import_charger py_str new_id new_password bcrypt depot dry m x).
Proof.
  unfold import_charger. destruct (negb _); [eauto with stages|].
  destruct (kempower_station_to_charger_request py_str x) as [p|[why|]]; [|eauto with stages..].
  destruct (get x "stationId"); eauto with stages.
  apply stage_keeps_read. intros st r st'. destruct (find_charger depot s (db st)) eqn:F.
  - apply (stage_keeps_count_ret unique).
  - destruct dry; [apply (stage_keeps_count_ret unique)|].
    unfold sbind at 1. cbn. unfold sbind at 1.
    destruct (create_charger_with_credentials _ _ _ _ _ _) as [[new|e] st1] eqn:C; intros E U.
    + apply (stage_keeps_count_ret unique _ _ _ _ _ E). by eapply create_charger_keeps.
    + injection E as <- <-. by eapply create_charger_keeps.
Qed.

Lemma create_vehicle_keeps depot org p s r s' :
  create_vehicle_identity new_id depot org p s = (r, s') -> unique (db s) -> unique (db s').
Proof.
  unfold create_vehicle_identity. destruct (negb org); [by intros [= <- <-]|].
  unfold sbind, read. cbn. destruct (find_vehicle _ _ _) eqn:F; intros [= <- <-]; [done|].
  intros [H1 H2 H3]. split; [done| |done]. cbn. rewrite map_app. apply nodup_snoc; [done|]. by apply find_vehicle_none.
Qed.

Lemma import_vehicle_keeps depot org dry m x : keeps unique (import_vehicle py_str new_id depot org dry m x).
Proof.
  unfold import_vehicle. destruct (negb _); [eauto with stages|].
  destruct (kempower_vehicle_to_identity py_str x) as [p|[why|]]; [|eauto with stages..].
  apply stage_keeps_read. intros st r st'. destruct (find_vehicle _ _ (db st)); [apply (stage_keeps_count_ret unique)|].
  destruct dry; [apply (stage_keeps_count_ret unique)|]. unfold sbind at 1.
  destruct (create_vehicle_identity _ _ _ _ _) as [[[new|]|e] st1] eqn:C; intros E U;
    [..|injection E as <- <-; by eapply create_vehicle_keeps];
    (apply (stage_keeps_count_ret unique _ _ _ _ _ E); by eapply create_vehicle_keeps).
Qed.

Lemma access_keeps depot sm vm dry : keeps unique (upsert_access_matrix depot sm vm dry).
Proof.
  unfold upsert_access_matrix. apply stage_keeps_bind; [eauto with stages|]. intros _.
  destruct (access_entries sm vm); [eauto with stages|]. destruct dry; [eauto with stages|].
  apply stage_keeps_read. intros st r st'. destruct (access_valid _ _ _); [|apply (stage_keeps_throw unique)].
  intros [= <- <-] [H1 H2 H3]. by split.
Qed.

Lemma read_transaction_keeps depot st batch vm rows tx :
  keeps unique (read_transaction py_str fromisoformat isoformat sha256_hex depot st batch vm rows tx).
Proof.
  unfold read_transaction. destruct (transaction_vehicle _ _ _); [|eauto with stages].
  destruct (kempower_transaction_to_session_row _ _ _ _ _ _ _ _ _) as [|[]]; eauto with stages.
Qed.

(** *** Inserting sessions *)

Lemma present_spec row l : session_present row l = true <-> session_key row ∈ map session_key l.
Proof.
  unfold session_present. rewrite existsb_exists, list_elem_of_fmap. unfold session_key. split.
  - intros (x & Hx & [H1%String.eqb_eq H2%String.eqb_eq]%andb_true_iff). exists x. split; [congruence|by apply list_elem_of_In].
  - intros (x & E & Hx). exists x. split; [by apply list_elem_of_In|]. injection E as -> ->. by rewrite !String.eqb_refl.
Qed.

Lemma chunk_spec rows l n l' :
  insert_session_chunk rows l = Some (n, l') ->
  l `prefix_of` l' /\ (NoDup (map session_key l) -> NoDup (map session_key l'))
  /\ (forall r, r ∈ rows -> insertable r = true /\ session_present r l' = true) /\ 0 <= n.
Proof.
  revert l n l'. induction rows as [|row rows IH]; intros l n l'; cbn.
  - intros [= <- <-]. split_and!; [done..| |done]. intros r Hr. by apply not_elem_of_nil in Hr.
  - destruct (insertable row) eqn:I; [|done]. cbn. destruct (session_present row l) eqn:E.
    + intros (Hp & Hn & Hr & H0)%IH. split_and!; [done..| |done]. intros r [->|Hin]%elem_of_cons; [|auto]. split; [done|].
      apply present_spec. apply present_spec in E. destruct Hp as [k ->]. rewrite map_app, elem_of_app. by left.
    + destruct (insert_session_chunk rows (l ++ [row])) as [[m l1]|] eqn:F; [|done]. intros [= <- <-].
      apply IH in F as (Hp & Hn & Hr & H0). split_and!; [by etrans; [apply prefix_app_r|]| | |lia].
      * intros Hl. apply Hn. rewrite map_app. apply nodup_snoc; [done|]. rewrite <- present_spec. by rewrite E.
      * intros r [->|Hin]%elem_of_cons; [|auto]. split; [done|]. apply present_spec. destruct Hp as [k ->].
        rewrite !map_app, !elem_of_app. left. right. left.
Qed.

Lemma chunks_spec chunks l c l' c' :
  insert_chunks chunks l c = (Some l', c') ->
  l `prefix_of` l' /\ (NoDup (map session_key l) -> NoDup (map session_key l'))
  /\ (forall rows r, rows ∈ chunks -> r ∈ rows -> insertable r = true /\ session_present r l' = true).
Proof.
  revert l c. induction chunks as [|rows chunks IH]; intros l c; cbn.
  - intros [= <- <-]. split_and!; [done..|]. intros r ? Hr. by apply not_elem_of_nil in Hr.
  - destruct (insert_session_chunk rows l) as [[n l1]|] eqn:E; [|done].
    apply chunk_spec in E as (Hp & Hn & Hr & _). intros (Hp' & Hn' & Hr')%IH. split_and!; [by etrans|auto|].
    intros rs r [->|Hin]%elem_of_cons Hx; [|eauto]. destruct (Hr r Hx) as [HI HP]. split; [done|].
    apply present_spec. apply present_spec in HP. destruct Hp' as [k ->]. rewrite map_app, elem_of_app. by left.
Qed.

Lemma insert_sessions_keeps rows : keeps unique (insert_sessions rows).
Proof.
  intros s r s'. unfold insert_sessions. destruct (insert_chunks _ _ _) as [[l|] c] eqn:E; intros [= <- <-]; [|done].
  intros [H1 H2 H3]. split; [done..|]. cbn. by apply chunks_spec in E as (_ & Hn & _); apply Hn.
Qed.

Lemma backfill_keeps depot batch sm vm dry tx :
  keeps unique (backfill_sessions py_str fromisoformat isoformat sha256_hex depot batch sm vm dry tx).
Proof.
  apply stage_keeps_for_each. intros _ st. apply stage_keeps_bind; [apply stage_keeps_iterate; intros; apply read_transaction_keeps|].
  intros [|row rows]; [apply stage_keeps_ret|]. destruct dry; [apply stage_keeps_count|apply insert_sessions_keeps].
Qed.

Lemma stages_keep depot batch loc org since api : keeps unique (run_stages depot batch loc org since api).
Proof.
  unfold Kempower.run_stages.
  apply stage_keeps_bind; [apply stage_keeps_iterate; intros; apply import_charger_keeps|intros sm].
  apply stage_keeps_bind; [apply stage_keeps_report|intros _].
  apply stage_keeps_bind; [apply stage_keeps_iterate; intros; apply import_vehicle_keeps|intros vm].
  apply stage_keeps_bind; [apply stage_keeps_report|intros _].
  apply stage_keeps_bind; [apply access_keeps|intros _]. apply stage_keeps_bind; [apply stage_keeps_report|intros _].
  destruct since; [|apply stage_keeps_ret]. apply stage_keeps_bind; [apply backfill_keeps|intros; apply stage_keeps_report].
Qed.

(** However a run ends, a depot never has two chargers with one station identifier, two
    vehicles with one external identifier, or two imported sessions with one hash. *)
Theorem imports_never_duplicate describe now days ctx org api t evs t' :
  run_ingestion describe now days ctx org api t = (evs, t') -> unique t -> unique t'.
Proof.
  unfold Kempower.run_ingestion. destruct (negb _); [by intros [= <- <-]|]. cbv zeta.
  match goal with |- match ?x with Ok _ => _ | Err _ => _ end = _ -> _ => destruct x as [since|] end; [|by intros [= <- <-]].
  destruct (run_stages _ _ _ _ _ _ _) as [r s] eqn:E. intros [= <- <-]. by apply stages_keep in E.
Qed.

(** ** The stages repeat *)

Lemma find_prefix {A} (f : A -> bool) l l' x : List.find f l = Some x -> l `prefix_of` l' -> List.find f l' = Some x.
Proof. intros H [k ->]. induction l as [|y l IH]; [done|]. cbn in *. destruct (f y); [done|auto]. Qed.

Lemma find_snoc {A} (f : A -> bool) l x : List.find f l = None -> f x = true -> List.find f (l ++ [x]) = Some x.
Proof. intros Hn Hx. induction l as [|y l IH]; cbn in *; [by rewrite Hx|]. destruct (f y); [done|auto]. Qed.

Lemma linked_again depot id t t' row :
  find_charger depot id t = Some row -> grows t t' -> find_charger depot id t' = Some row.
Proof. intros H G. eapply find_prefix; [done|apply G]. Qed.

Lemma import_charger_replays depot m m' x :
  m = m' ->
  replays eq (import_charger py_str new_id new_password bcrypt depot false m x)
    (import_charger py_str new_id new_password bcrypt depot false m' x).
Proof.
  intros <-. unfold import_charger.
  assert (forall id why, replays eq (let! _ := count (charger_skipped id why) in ret m) (let! _ := count (charger_skipped id why) in ret m)) as Skip.
  { intros id why. eapply (replays_bind eq); [|intros; by apply replays_ret]. apply replays_count; [done|].
    exists ([(id, why)], [], []). intros c. unfold added. cbn. by rewrite !app_nil_r. }
  destruct (negb _); [apply Skip|]. destruct (kempower_station_to_charger_request py_str x) as [p|[why|]]; [|apply Skip|apply replays_throw].
  destruct (get x "stationId"); try apply replays_throw. rename s into id. intros s a s'.
  assert (forall row t c r, find_charger depot id t = Some row ->
    (let! existing := read (find_charger depot id) in
     match existing with
     | Some row => let! _ := count charger_linked in ret (dset id (ch_id row) m)
     | None => let! n := read rows_made in
               let! new := create_charger_with_credentials new_id depot id p (bcrypt (new_password n)) in
               let! _ := count (charger_created [(id, new_password n)]) in ret (dset id new m)
     end) {| db := t; counts := c; reports := r |}
    = (Ok (dset id (ch_id row) m), {| db := t; counts := charger_linked c; reports := r |})) as Again
    by (intros row t c r E; unfold sbind, read; cbn; by rewrite E).
  unfold sbind at 1, read at 1. cbn. destruct (find_charger depot id (db s)) as [row|] eqn:F.
  - intros [= <- <-]. cbn. split; [apply grows_refl|]. exists ([], [], []). split; [by apply added_none|].
    intros t c r G. eexists _, (charger_linked c), r. split; [by apply Again; eapply linked_again|].
    split_and!; [done..|by apply added_none].
  - unfold sbind at 1. cbn. unfold sbind at 1, create_charger_with_credentials, sbind, read. cbn.
    destruct (existsb _ _); [done|]. cbn. intros [= <- <-]. cbn. split; [split; cbn; try done; apply prefix_app_r; done|].
    exists ([], [], []). split; [by apply added_none|]. intros t c r G.
    set (row := {| ch_id := new_id (rows_made (db s)); ch_site_id := depot; ch_station_id := id; ch_payload := p |}) in *.
    exists (dset id (ch_id row) m), (charger_linked c), r. split; [|split_and!; [done..|by apply added_none]].
    apply Again. eapply linked_again; [|done]. apply find_snoc; [done|]. cbn. by rewrite !String.eqb_refl.
Qed.

Lemma import_vehicle_replays depot m m' x :
  m = m' ->
  replays eq (import_vehicle py_str new_id depot true false m x) (import_vehicle py_str new_id depot true false m' x).
Proof.
  intros <-. unfold import_vehicle.
  assert (forall d, replays eq (let! _ := count (vehicle_counted 0 0 d) in ret m) (let! _ := count (vehicle_counted 0 0 d) in ret m)) as Skip.
  { intros d. eapply (replays_bind eq); [|intros; by apply replays_ret]. apply replays_count.
    - intros c. unfold made. cbn. by rewrite Z.add_0_r.
    - exists ([], d, []). intros c. unfold added. cbn. by rewrite !app_nil_r. }
  destruct (negb _); [apply Skip|]. destruct (kempower_vehicle_to_identity py_str x) as [p|[why|]]; [|apply Skip|apply replays_throw].
  intros s a s'. unfold sbind at 1, read at 1. cbn.
  assert (forall row t, find_vehicle depot (external_id p) t = Some row -> forall c r,
    (let! existing := read (find_vehicle depot (external_id p)) in
     match existing with
     | Some row => let! _ := count (vehicle_counted 0 1 []) in ret (dset (py_str (get x "id")) (ve_id row) m)
     | None => let! created := create_vehicle_identity new_id depot true p in
               match created with
               | None => let! _ := count (vehicle_counted 0 0 [(py_str (get x "id"), not_created)]) in ret m
               | Some new => let! _ := count (vehicle_counted 1 0 []) in ret (dset (py_str (get x "id")) new m)
               end
     end) {| db := t; counts := c; reports := r |}
    = (Ok (dset (py_str (get x "id")) (ve_id row) m), {| db := t; counts := vehicle_counted 0 1 [] c; reports := r |})) as Again
    by (intros row t E c r; unfold sbind, read; cbn; by rewrite E).
  assert (forall c, made (vehicle_counted 0 1 [] c) = made c) as M by (intros c; unfold made; cbn; by rewrite Z.add_0_r).
  assert (forall k l c, added ([], [], []) c (vehicle_counted k l [] c)) as Ad
    by (intros k l c; apply added_none; cbn; by rewrite ?app_nil_r).
  destruct (find_vehicle depot (external_id p) (db s)) as [row|] eqn:F.
  - intros [= <- <-]. cbn. split; [apply grows_refl|]. exists ([], [], []). split; [apply Ad|].
    intros t c r G. eexists _, _, r. split; [apply Again; eapply find_prefix; [done|apply G]|]. by split_and!.
  - unfold create_vehicle_identity, sbind, read. cbn. rewrite F. cbn. intros [= <- <-]. cbn.
    split; [split; cbn; try done; apply prefix_app_r; done|]. exists ([], [], []). split; [apply Ad|]. intros t c r G.
    set (row := {| ve_id := new_id (rows_made (db s)); ve_site_id := depot; ve_payload := p |}) in *.
    exists (dset (py_str (get x "id")) (ve_id row) m), (vehicle_counted 0 1 [] c), r.
    split; [|by split_and!]. apply Again. eapply find_prefix; [|apply G]. apply find_snoc; [done|]. cbn. by rewrite !String.eqb_refl.
Qed.

(** *** Access *)

Lemma dset_same {V} k (v : V) (d : dict (string * string) V) : dget d k = Some v -> dset k v d = d.
Proof.
  induction d as [|[k' w] d IH]; cbn; [done|]. destruct (decide (k = k')) as [->|]; [by intros [= ->]|]. intros H. by rewrite IH.
Qed.

Lemma access_fold entries (d : dict (string * string) bool) :
  (forall e, e ∈ entries \/ dget d e = Some true -> dget (fold_left (fun d e => dset e true d) entries d) e = Some true).
Proof.
  revert d. induction entries as [|x entries IH]; intros d e; cbn.
  - intros [H|H]; [by apply not_elem_of_nil in H|done].
  - intros H. apply IH. destruct H as [[->|H]%elem_of_cons|H]; [right; by rewrite dget_dset_eq|by left|right].
    destruct (decide (x = e)) as [->|]; [by rewrite dget_dset_eq|by rewrite dget_dset_ne].
Qed.

Lemma access_fold_same entries (d : dict (string * string) bool) :
  (forall e, e ∈ entries -> dget d e = Some true) -> fold_left (fun d e => dset e true d) entries d = d.
Proof.
  induction entries as [|x entries IH]; intros H; cbn; [done|]. rewrite dset_same by (apply H; left).
  apply IH. intros e He. apply H. by right.
Qed.

Lemma put_access_same entries t :
  (forall e, e ∈ entries -> dget (charger_vehicle_access t) e = Some true) -> put_access entries t = t.
Proof. intros H. destruct t. unfold put_access. cbn in *. by rewrite access_fold_same. Qed.

Lemma existsb_prefix {A} (f : A -> bool) l l' : l `prefix_of` l' -> existsb f l = true -> existsb f l' = true.
Proof. intros [k ->] H. by rewrite existsb_app, H. Qed.

Lemma access_valid_grows depot entries t t' :
  grows t t' -> access_valid depot entries t = true -> access_valid depot entries t' = true.
Proof.
  intros G. unfold access_valid. rewrite !forallb_forall. intros H e He.
  specialize (H e He). apply andb_true_iff in H as [H1 H2]. apply andb_true_iff.
  split; (eapply existsb_prefix; [apply G|done]).
Qed.

Lemma access_replays depot sm vm :
  replays eq (upsert_access_matrix depot sm vm false) (upsert_access_matrix depot sm vm false).
Proof.
  unfold upsert_access_matrix. eapply (replays_bind eq).
  { apply replays_count; [done|]. exists ([], [], []). intros c. by apply added_none. }
  intros _ _ _. destruct (access_entries sm vm) as [|e0 es]; [by apply replays_ret|].
  set (entries := e0 :: es). clearbody entries. intros s a s'. unfold sbind, read. cbv beta iota.
  destruct (access_valid depot entries (db s)) eqn:V; [|done]. intros [= <- <-]. cbn.
  assert (forall e, e ∈ entries \/ dget (charger_vehicle_access (db s)) e = Some true ->
    dget (charger_vehicle_access (put_access entries (db s))) e = Some true) as K by apply access_fold.
  assert (grows (db s) (put_access entries (db s))) as G0 by (split; [done..|]; intros e He; apply K; by right).
  split; [done|]. exists ([], [], []). split; [by apply added_none|]. intros t c r G.
  assert (access_valid depot entries t = true) as V' by (eapply access_valid_grows; [by eapply grows_trans|done]).
  exists tt, c, r. cbn [db]. rewrite V'. split; [|split_and!; [done..|by apply added_none]]. unfold write. cbn.
  rewrite put_access_same; [done|]. intros e He. apply G, K. by left.
Qed.

(** *** Sessions *)

(** The same row up to the batch. *)
Definition same_import (x y : session_import) : Prop :=
  session_key x = session_key y /\ si_import_status x = si_import_status y.

Lemma same_present x y l : same_import x y -> session_present x l = session_present y l.
Proof. intros [E _]. apply eq_true_iff_eq. by rewrite !present_spec, E. Qed.
Lemma same_insertable x y : same_import x y -> insertable x = insertable y.
Proof. intros [_ E]. unfold insertable. by rewrite E. Qed.

Notation tx_row := (kempower_transaction_to_session_row py_str fromisoformat isoformat sha256_hex).

Lemma tx_row_batch tx site st v b b' :
  match tx_row tx site st v b, tx_row tx site st v b' with
  | Ok x, Ok y => same_import x y
  | Err e, Err e' => e = e'
  | _, _ => False
  end.
Proof.
  unfold kempower_transaction_to_session_row. cbv zeta.
  destruct (raise_if _ _); cbn; [|done]. destruct (_parse_iso_utc _ _); cbn; [|done].
  destruct (if truthy _ then _ else _); cbn; [|done]. destruct (raise_if _ _); cbn; [|done].
  destruct (to_float _); cbn; [|done]. destruct (if truthy _ then _ else _) as [[]|]; cbn; done.
Qed.

Lemma read_transaction_replays depot st b b' vm rows rows' tx :
  Forall2 same_import rows rows' ->
  replays (Forall2 same_import)
    (read_transaction py_str fromisoformat isoformat sha256_hex depot st b vm rows tx)
    (read_transaction py_str fromisoformat isoformat sha256_hex depot st b' vm rows' tx).
Proof.
  intros HR. unfold read_transaction. destruct (transaction_vehicle _ _ _) as [v|]; [|apply replays_throw].
  pose proof (tx_row_batch tx depot st v b b') as T.
  destruct (tx_row tx depot st v b) as [x|e], (tx_row tx depot st v b') as [y|e']; try done.
  - apply replays_ret. by apply Forall2_app; [|constructor].
  - subst e'. destruct e as [why|]; [|apply replays_throw].
    eapply (replays_bind eq); [|intros; by apply replays_ret]. apply replays_count.
    + intros c. unfold made. cbn. by rewrite Z.add_0_r.
    + exists ([], [], [(py_str (get tx "txId"), why)]). intros c. unfold added. cbn. by rewrite !app_nil_r.
Qed.

Lemma chunked_elem {A} fuel n (l : list A) x : (0 < n)%nat -> (length l <= fuel)%nat -> x ∈ l -> exists c, c ∈ chunked fuel n l /\ x ∈ c.
Proof.
  intros Hn. revert l. induction fuel as [|k IH]; intros l Hl Hx.
  - destruct l; [by apply not_elem_of_nil in Hx|cbn in Hl; lia].
  - cbn. destruct l as [|y l]; [by apply not_elem_of_nil in Hx|]. rewrite <- (take_drop n (y :: l)) in Hx.
    apply elem_of_app in Hx as [Hx|Hx]; [eexists; split; [left|done]|].
    destruct (IH (drop n (y :: l))) as (c & Hc & Hxc); [rewrite length_drop; cbn in *; lia|done|].
    exists c. split; [by right|done].
Qed.

Lemma chunked_sub {A} fuel n (l : list A) c x : c ∈ chunked fuel n l -> x ∈ c -> x ∈ l.
Proof.
  revert l. induction fuel as [|k IH]; intros l Hc Hx; [by apply not_elem_of_nil in Hc|].
  cbn in Hc. destruct l as [|y l]; [by apply not_elem_of_nil in Hc|]. rewrite <- (take_drop n (y :: l)), elem_of_app.
  apply elem_of_cons in Hc as [->|Hc]; [by left|right; by eapply IH].
Qed.

Lemma chunk_present rows l :
  (forall r, r ∈ rows -> insertable r = true /\ session_present r l = true) -> insert_session_chunk rows l = Some (0, l).
Proof.
  induction rows as [|r rows IH]; intros H; cbn; [done|]. destruct (H r) as [-> ->]; [left|]. cbn. apply IH.
  intros x Hx. apply H. by right.
Qed.

Lemma chunks_present chunks l c :
  (forall rows r, rows ∈ chunks -> r ∈ rows -> insertable r = true /\ session_present r l = true) ->
  exists c', insert_chunks chunks l c = (Some l, c') /\ made c' = made c /\ added ([], [], []) c c'.
Proof.
  revert c. induction chunks as [|rows chunks IH]; intros c H; cbn; [exists c; split_and!; [done..|by apply added_none]|].
  rewrite chunk_present by (intros r Hr; apply (H rows); [left|done]).
  destruct (IH (sessions_counted 0 (Z.of_nat (length rows) - 0) [] c)) as (c' & -> & M & Ad).
  { intros rs r Hrs. apply H. by right. }
  exists c'. split_and!; [done|rewrite M; unfold made; cbn; by rewrite Z.add_0_r|].
  destruct Ad as (H1 & H2 & H3). unfold added. cbn in *. by rewrite H1, H2, H3, !app_nil_r.
Qed.

Lemma chunks_skips chunks l c l' c' : insert_chunks chunks l c = (Some l', c') -> added ([], [], []) c c'.
Proof.
  revert l c. induction chunks as [|rows chunks IH]; intros l c; cbn; [intros [= <- <-]; by apply added_none|].
  destruct (insert_session_chunk rows l) as [[n l1]|]; [|done]. intros (H1 & H2 & H3)%IH.
  unfold added. cbn in *. by rewrite H1, H2, H3, !app_nil_r.
Qed.

Lemma insert_sessions_replays rows rows' :
  Forall2 same_import rows rows' -> replays eq (insert_sessions rows) (insert_sessions rows').
Proof.
  intros HR s a s'. unfold insert_sessions. destruct (insert_chunks _ _ _) as [[l|] c] eqn:E; [|done].
  pose proof (chunks_skips _ _ _ _ _ E) as Ad. apply chunks_spec in E as (Hp & _ & Hr).
  intros [= <- <-]. cbn. split; [by split|]. exists ([], [], []). split; [done|]. intros t c1 r G.
  destruct (chunks_present (chunked (length rows') 500 rows') (imported_sessions t) c1) as (c' & E' & M & Ad').
  { intros ch y Hch Hy. pose proof (chunked_sub _ _ _ _ _ Hch Hy) as Hin.
    apply list_elem_of_lookup_1 in Hin as [i Hi]. destruct (Forall2_lookup_r _ _ _ _ _ HR Hi) as (x & Hx%list_elem_of_lookup_2 & Hxy).
    destruct (chunked_elem (length rows) 500 rows x) as (cx & Hcx & Hxc); [lia|done|done|].
    destruct (Hr cx x Hcx Hxc) as [HI HP]. rewrite <- (same_insertable x y), <- (same_present x y) by done.
    split; [done|]. unfold session_present in *. eapply existsb_prefix; [apply G|done]. }
  rewrite E'. exists tt, c', r. split_and!; [|done..]. do 2 f_equal. by destruct t.
Qed.

Lemma backfill_replays depot b b' sm vm tx :
  replays eq (backfill_sessions py_str fromisoformat isoformat sha256_hex depot b sm vm false tx)
    (backfill_sessions py_str fromisoformat isoformat sha256_hex depot b' sm vm false tx).
Proof.
  apply replays_for_each; [|done]. intros _ _ st _. eapply (replays_bind (Forall2 same_import)).
  { apply replays_iterate; [|constructor]. intros. by apply read_transaction_replays. }
  intros rows rows' HR. destruct HR as [|x y rows rows' Hxy HR]; [by apply replays_ret|].
  apply insert_sessions_replays. by constructor.
Qed.

Lemma stages_replay depot b b' loc since api :
  replays eq (run_stages depot b loc true since api) (run_stages depot b' loc true since api).
Proof.
  unfold Kempower.run_stages. eapply replays_bind; [by apply replays_iterate; [intros; by apply import_charger_replays|]|].
  intros sm _ <-. eapply replays_bind; [apply replays_report|]. intros _ _ _.
  eapply replays_bind; [by apply replays_iterate; [intros; by apply import_vehicle_replays|]|].
  intros vm _ <-. eapply replays_bind; [apply replays_report|]. intros _ _ _.
  eapply replays_bind; [apply access_replays|]. intros _ _ _. eapply replays_bind; [apply replays_report|]. intros _ _ _.
  destruct since; [|by apply replays_ret]. eapply replays_bind; [apply backfill_replays|]. intros; apply replays_report.
Qed.

(** ** A second run *)

Definition with_batch (b : string) (ctx : IngestionContext) : IngestionContext :=
  {| ctx_connection_id := ctx_connection_id ctx; ctx_job_id := ctx_job_id ctx; ctx_depot_id := ctx_depot_id ctx;
     ctx_organization_id := ctx_organization_id ctx; ctx_credentials := ctx_credentials ctx;
     ctx_config := ctx_config ctx; ctx_batch_id := b |}.

Lemma added_skips d c c' : added d no_counts c -> added d no_counts c' -> skipped_all c' = skipped_all c.
Proof. intros (H1 & H2 & H3) (H4 & H5 & H6). unfold skipped_all. by rewrite H1, H2, H3, H4, H5, H6. Qed.

(** C40: A run of the Kempower import that the API did not interrupt, repeated with the
    same answers in another batch, changes no table: it creates no charger, no vehicle
    and no session, leaves out the same objects and ends with the same status. *)
Theorem reimport_changes_nothing describe now days ctx api t evs t1 r batch :
  run_ingestion describe now days ctx true api t = (evs, t1) ->
  last evs = Some (Returns r) -> ir_error_detail r = None ->
  exists evs' r', run_ingestion describe now days (with_batch batch ctx) true api t1 = (evs', t1)
    /\ last evs' = Some (Returns r') /\ ir_status r' = ir_status r /\ skipped r' = skipped r
    /\ chargers_created r' = 0 /\ vehicles_created r' = 0 /\ sessions_inserted r' = 0.
Proof.
  unfold Kempower.run_ingestion. cbn [ctx_credentials ctx_config ctx_depot_id ctx_batch_id with_batch].
  destruct (negb _); [by intros [= <- <-] [= <-]|]. cbv zeta.
  match goal with |- match ?x with Ok _ => _ | Err _ => _ end = _ -> _ => destruct x as [since|] end;
    [|by intros [= <- <-]].
  set (loc := py_str _). destruct (run_stages (ctx_depot_id ctx) (ctx_batch_id ctx) loc true since api _) as [out s] eqn:E.
  intros [= <- <-]. rewrite last_snoc. destruct out as [[]|e]; [|destruct e; by intros [= <-]]. intros [= <-] _.
  destruct (stages_replay _ _ batch _ _ _ _ _ _ E) as (_ & d & Ad & K).
  destruct (K (db s) no_counts [] (grows_refl _)) as ([] & c' & r' & -> & _ & M & Ad').
  eexists _, (ingestion_result None c'). split; [done|]. rewrite last_snoc. cbn.
  injection M as M1 M2 M3. cbn in Ad. rewrite (added_skips _ _ _ Ad Ad'). split_and!; done.
Qed.
End Facts.

(** ** Example *)

Definition ex_station (id : string) (kind : string) : obj :=
  [("stationId"%string, PStr id); ("maxPowerKw"%string, PInt 150);
   ("connectors"%string, PList [PDict [("type"%string, PStr kind); ("connectorId"%string, PStr "1")]])].
Definition ex_vehicle : obj :=
  [("id"%string, PInt 7); ("fullChargeEnergykWh"%string, PInt 300); ("maxChargePowerkW"%string, PInt 120);
   ("evModel"%string, PStr "Sprinter")].
Definition ex_transaction : obj :=
  [("startTime"%string, PStr "t1"); ("chargedEnergyKwh"%string, PStr "12.5"); ("txId"%string, PInt 9);
   ("schedulePlan"%string, PDict [("evId"%string, PInt 7)])].
Definition ex_api : chargeye :=
  {| list_stations := fun _ => {| objects := [ex_station "S1" "ccs"; ex_station "S2" "CHAdeMO"]; interrupted := None |};
     list_vehicles := fun _ => {| objects := [ex_vehicle]; interrupted := None |};
     list_transactions := fun _ _ => {| objects := [ex_transaction]; interrupted := None |} |}.
Definition ex_ctx : IngestionContext :=
  {| ctx_connection_id := "c1"; ctx_job_id := "j1"; ctx_depot_id := "d1"; ctx_organization_id := "org";
     ctx_credentials := PDict [("refresh_token"%string, PStr "r")];
     ctx_config := [("locationId"%string, PStr "L1"); ("backfillSince"%string, PStr "2024-01-01")];
     ctx_batch_id := "b1" |}.
Definition ex_tables : tables :=
  {| charging_stations := []; station_credentials := []; vehicles := []; charger_vehicle_access := [];
     imported_sessions := []; rows_made := 0 |}.
Definition ex_py_str (o : pyobj) : string := match o with PStr s => s | PInt z => py_str_int z | _ => "None" end.
Definition ex_import (ctx : IngestionContext) (t : tables) : list provider_event * tables :=
  run_ingestion ex_py_str (fun n => "id" +:+ py_str_int (Z.of_nat n)) (fun _ => "pw"%string) (fun p => p)
    (fun s => Some (Z.of_nat (String.length s))) py_str_int (fun s => s) (fun _ => "error"%string)
    1000000 730 ctx true ex_api t.
Definition ex_result : IngestionResult :=
  {| ir_status := partial; Ingest.chargers_created := 1; Ingest.vehicles_created := 1; Ingest.sessions_inserted := 1;
     Ingest.access_rows_upserted := 1; skipped := ["S2"%string]; ir_error_detail := None |}.

Example ex_first_import :
  last (fst (ex_import ex_ctx ex_tables)) = Some (Returns ex_result)
  /\ charger_vehicle_access (snd (ex_import ex_ctx ex_tables)) = [(("id0"%string, "id1"%string), true)]
  /\ map si_import_row_hash (imported_sessions (snd (ex_import ex_ctx ex_tables))) = ["d1|2|kempower-tx:9"%string].
Proof. vm_compute. done. Qed.

Lemma reimport_changes_nothing_witness :
  exists evs' r', ex_import (with_batch "b2" ex_ctx) (snd (ex_import ex_ctx ex_tables)) = (evs', snd (ex_import ex_ctx ex_tables))
    /\ last evs' = Some (Returns r') /\ ir_status r' = partial /\ skipped r' = ["S2"%string]
    /\ chargers_created r' = 0 /\ vehicles_created r' = 0 /\ sessions_inserted r' = 0.
Proof.
  apply (reimport_changes_nothing ex_py_str (fun n => "id" +:+ py_str_int (Z.of_nat n)) (fun _ => "pw"%string) (fun p => p)
    (fun s => Some (Z.of_nat (String.length s))) py_str_int (fun s => s) (fun _ => "error"%string) 1000000 730 ex_ctx ex_api
    ex_tables (fst (ex_import ex_ctx ex_tables)) (snd (ex_import ex_ctx ex_tables)) ex_result "b2"); vm_compute; reflexivity.
Defined.

(** A station of another depot stops the whole import: its credential is taken. *)
Example station_of_another_depot_aborts :
  let t := snd (ex_import ex_ctx ex_tables) in
  let other := {| ctx_connection_id := "c2"; ctx_job_id := "j2"; ctx_depot_id := "d2"; ctx_organization_id := "org";
                  ctx_credentials := ctx_credentials ex_ctx; ctx_config := ctx_config ex_ctx; ctx_batch_id := "b3" |} in
  fst (ex_import other t) = [Raises "error"] /\ snd (ex_import other t) = t.
Proof. vm_compute. done. Qed.

(** Two transactions of one card that start at the same time are one session to the
    import, whatever their charger and energy. *)
Lemma same_start_is_one_session (py_str : pyobj -> string) (fromiso : string -> option Z) (iso : Z -> string) (sha : string -> string)
    tx tx' site st st' v v' b x y :
  kempower_transaction_to_session_row py_str fromiso iso sha tx site st v b = Ok x ->
  kempower_transaction_to_session_row py_str fromiso iso sha tx' site st' v' b = Ok y ->
  truthy (get tx "authorizationToken") = true -> get tx' "authorizationToken" = get tx "authorizationToken" ->
  get tx' "startTime" = get tx "startTime" -> session_present y [x] = true.
Proof.
  unfold kempower_transaction_to_session_row. intros H1 H2 Ht Et Es. rewrite Et, Es in H2. rewrite Ht in H1, H2.
  inv_ok. unfold session_present. cbn. rewrite String.eqb_refl. cbn.
  match goal with A : _parse_iso_utc _ (get tx "startTime") = Ok ?a, B : _parse_iso_utc _ (get tx "startTime") = Ok ?b |- _ =>
    assert (a = b) as -> by congruence end.
  by rewrite String.eqb_refl.
Qed.

(** What the provider marks as secret never reaches the configuration, which the API
    shows. *)
Lemma secrets_not_in_config credentials config key :
  key ∈ ["refresh_token"; "password"]%string -> dget config key = None ->
  dget (merge_catalogue_config kempower_provider credentials config) key = None.
Proof.
  intros Hk. unfold merge_catalogue_config. cbn [credential_fields kempower_provider].
  assert (forall fields, Forall (fun f => snd f = true \/ fst f <> key) fields -> forall config, dget config key = None ->
    dget (fold_left (fun merged (field : string * bool) => let '(k, secret) := field in
      if secret then merged
      else match dget credentials k with
      | None | Some PNone | Some (PStr EmptyString) => merged
      | Some value => if absent (dget merged k) then dset k value merged else merged
      end) fields config) key = None) as K.
  { induction 1 as [|[k b] fields Hf _ IH]; intros cfg Hc; [done|]. cbn. apply IH. cbn in Hf.
    destruct b; [done|]. destruct Hf as [|Hne]; [done|].
    assert (forall x, dget (if absent (dget cfg k) then dset k x cfg else cfg) key = None) as D
      by (intros x; destruct (absent _); [by rewrite dget_dset_ne|done]).
    destruct (dget credentials k) as [[| | | |[]| |]|]; (done || apply D). }
  apply K. apply elem_of_cons in Hk as [->|[->|Hk]%elem_of_cons]; [..|by apply not_elem_of_nil in Hk];
    (repeat (apply Forall_cons; split; [cbn; first [by left | right; discriminate]|]); by apply Forall_nil).
Qed.
